(* ===== verification/_CoqProject ===== *)
-Q . S2P
Prelude.v
Codec.v
Bits.v
Utf.v
Crc.v
Node.v
Dir.v
Device.v
Superblock.v
Mkfs.v
Checkpoint.v
Nat.v
NatBits.v
Segment.v
Sit.v
Fsck.v
Curseg.v
CkptWrite.v
Quota.v
QuotaTree.v
QuotaMap.v
QuotaV2.v
QuotaFile.v
QuotaScan.v
QuotaOpen.v
QuotaMk.v
FileData.v
FileTree.v
FileQuota.v
FsckWalk.v
FsckSound.v
DirVol.v
DirLink.v
FsckRun.v
FsckNat.v
FsckClean.v
FileMove.v
NodeAlloc.v
Xattr.v
Defrag.v
