(* ===== verification/Prelude.v ===== *)
(** * A model of f2fs-tools

    f2fs-tools makes, checks, repairs and inspects volumes of the flash-friendly
    file system. The programs share a library (lib/) and the code that mounts a
    volume in user space (fsck/mount.c); mkfs.f2fs (mkfs/) writes a fresh volume,
    fsck.f2fs, dump, defrag, resize and sload (fsck/) work on a mounted one.

    ** How the parts fit together

    A volume begins with two copies of the superblock, which gives the places of
    five areas: two checkpoint packs, the segment information table (SIT), the node
    address table (NAT), the segment summary area (SSA) and the main area. The
    checkpoint is the root of everything: of the two packs the newer valid one is
    in force, and its version bitmaps say which copy of every SIT and NAT block is
    current. The most recent changes of both tables are in journals kept in the
    summaries of two current segments. Nodes are found through the NAT, data
    blocks through the node tree of a file, names through the hash table that the
    blocks of a directory form. New blocks are taken from segments with room, found
    through the cached SIT. All blocks pass through the device layer and its cache.
    Quotas are kept in hidden files of the volume, radix trees of their own that are
    read and written through the same file code as any other file.

    ** Files

    - Prelude: results of fallible C code, machine integers, buffers, little-endian
      members. [res] separates [Ok], [Die] (the program exits, [ASSERT]), [Oob] (an
      access outside an object or another undefined operation) and [NoFuel].
    - Codec: serialisers with their laws as a class, for whole structures.
    - Bits: lib/libf2fs.c, bitmaps in both bit orders, behind the interface
      [bitmap_ops] with the class of its laws; searching bits, counting, log_base_2.
    - Utf: lib/libf2fs.c, UTF-8 and UTF-16 for volume labels.
    - Crc: lib/libf2fs.c and fsck/mount.c, the checksum of superblock, checkpoint
      and inodes.
    - Node: lib/libf2fs.c, fsck/node.[ch], fsck/dump.c, geometry of the node tree.
    - Dir: fsck/dir.c, fsck/f2fs.h, lib/libf2fs.c, names: hash, the levels of a
      directory, one block of entries.
    - Device: lib/libf2fs_io.c, devices, reading and writing, the block cache.
    - Superblock: fsck/mount.c, the superblock, writing and checking it.
    - Mkfs: mkfs/f2fs_format.c, the layout of a new volume.
    - Checkpoint: fsck/mount.c, fsck/f2fs.h, choosing and checking a checkpoint.
    - Nat: fsck/mount.c, fsck/node.c, the node address table and node ids.
    - NatBits: fsck/mount.c, the bits that tell full and empty blocks of the NAT.
    - Segment: fsck/mount.c, fsck/segment.c, fsck/fsck.c, segments of the main
      area: free blocks, reservation, summaries, current segments.
    - Sit: fsck/mount.c, the segment information table on disk and its cache.
    - Fsck: fsck/fsck.c, link counts, extents and positions of entries.
    - Curseg: fsck/mount.c, loading the current segments from a pack.
    - CkptWrite: fsck/mount.c, writing a checkpoint pack.
    - Quota: fsck/quotaio_tree.c, quotaio.c, the operations on a quota tree, over
      the interface [InodeFile] of the file it lives in, with the class of its laws.
    - QuotaTree, QuotaMap: the well-formed trees and the lists of blocks they
      consist of; inserting, finding and freeing entries against a finite map.
    - QuotaV2: fsck/quotaio_v2.c, the format of header and entries.
    - QuotaFile: the tree operations with that format, as a map from ids to usage.
    - QuotaScan: fsck/quotaio_tree.c, walking over all entries of a tree.
    - QuotaOpen: fsck/quotaio.c, opening, creating and closing a quota file.
    - QuotaMk: fsck/mkquota.c, fsck/fsck.c, the usage that the walk of fsck counts,
      comparing it with the quota file and rewriting the file.
    - FileData: fsck/segment.c, fsck/node.[ch], reading and writing the data of a
      file through its node tree.
    - FileTree: the blocks of a file as a partial map of the positions in it; what
      reading and writing do to that map and to other files.
    - FileQuota: the files of a volume as an instance of [InodeFile], its laws, and
      the quota check of fsck on the quota files of a volume.
    - FsckWalk: fsck/fsck.c, the walk of fsck over inodes, nodes, data blocks and
      directories, with its repairs.
    - FsckSound: the walk ends on every volume; what is counted and marked when it
      reports nothing.
    - DirVol: fsck/dir.c, fsck/node.c, directories on a volume: looking names up,
      adding them, new inodes, creating files and links.
    - DirLink: lookup as a function of the lists of entries, and what adding does.
    - FsckRun: fsck/fsck.c, fsck/main.c, fsck/mount.c, a run of fsck around the walk:
      the maps at the start, the quick check, orphans, quota inodes, current
      segments, lost files, the verdict, the repairs and their order.
    - FsckNat: the map of used node ids that a run starts from, and the repair of the
      NAT.
    - FsckClean: what a clean verdict of a run that does not repair means.
    - FileMove: the map of a file when one address in its inode or in one of its nodes
      changes; writing an inode.
    - NodeAlloc: fsck/node.c, what allocating a node changes of a volume, and what the
      NAT says afterwards.
    - Xattr: fsck/xattr.[ch], the extended attributes of an inode, and lists of
      attributes as their specification.
    - Defrag: fsck/defrag.c, fsck/mount.c, fsck/main.c, moving the blocks of a range,
      with the segment entries, the summaries and the addresses.

    Every file opens with the correspondence between its state and the C
    structures. Definitions have the names of the C functions; loops are separate
    definitions named after the function. State that the C code reaches through
    pointers ([sbi], [fsck], the configuration [c]) is passed explicitly. The
    volume below the mount code is a map from block addresses to blocks ([disk]);
    the device layer itself is modelled on the bytes of files, in Device.

    ** What is proved

    - Block allocation is safe ([reserve_new_block_safe]); the invariant it needs
      is what mounting establishes ([build_sit_entries_establishes]), and writing the
      SIT back, by flushing or by the repair of fsck, is inverse to mounting
      ([sit_flush_mount_roundtrip], [sit_rewrite_mount]).
    - Node ids are handed out once ([nid_allocation_safe]); flushing the NAT journal
      changes no entry in force ([flush_nat_journal_preserves]).
    - A checkpoint pack that is written can be mounted and gives back the counts and
      the current segments ([checkpoint_write_mount]); the bits of the NAT that go
      with it pass the check at mount ([nat_bits_write_check]). Replacing a pack
      leaves the other one in force ([checkpoint_switch_atomic]), except where a pack
      is rewritten in place ([torn_checkpoint_accepted]).
    - Accepted superblocks and checkpoints satisfy the facts later code relies on
      ([superblock_check_sound], [sanity_check_ckpt_sound]); what mkfs writes is
      accepted ([mkfs_layout_accepted]).
    - The cached device behaves like the file ([dcache_refines_file]).
    - Names that are inserted are found ([dentry_insert_lookup]); fsck's view of the
      place of an entry is that of the directory code ([dirent_position_exact]).
    - Link counts are repaired to the number of entries ([hard_links_repaired]); the
      extent check decides what it stands for ([check_extent_exact]).
    - The walk of fsck ends on every volume, damaged or not ([fsck_walk_terminates]);
      if it reports nothing, every block it has marked is valid in the SIT and was
      counted once ([fsck_walk_sound]), except below an entry of one type
      ([max_type_entry_uncounted]).
    - A checking run of fsck that returns success, on a volume without quota files,
      has reached every node id in use and has marked exactly the blocks that the
      SIT calls valid, and its counts are those of the checkpoint
      ([checking_run_sound]). The node ids it starts from are exactly those in use
      ([nat_area_exact]); dropping the ids that were not reached leaves every other
      entry of the NAT as it was ([fix_nat_entries_exact]).
    - A name that is added to a directory of a volume is found by looking it up, and
      names that differ from it are found as before ([add_link_lookup]); on a full
      volume the code writes the entry over block 0 ([add_link_overwrites_superblock]).
    - Setting an extended attribute changes the list of attributes as it should and
      nothing else of the inode, with a fresh node if the list needs one
      ([setxattr_stores]); a list that shrinks leaves entries behind in its node
      ([setxattr_stale_node]).
    - Moving a data block keeps the bytes and the size of its file, whatever node has
      the address; the old place becomes free, the new one used, and no other block
      changes its state ([migrate_block_keeps_file]).
    - A quota file behaves like a finite map ([quota_file_refines_map]), a scan
      visits each of its entries once ([quota_scan_collects]); a file that was found
      different and rewritten holds the counted usage ([quota_rewrite_consistent]).
    - Data written to a file is read back, other bytes and files stay as they were
      ([file_write_read_back]). Files of a volume satisfy the laws that the quota
      code needs, so that a second run of fsck finds the quotas consistent
      ([fsck_quota_second_run_clean]).
    - Round trips and corruption detection for the formats of lib/.
    - Where the code does not do what it means to, the theorem states what it does
      (overflows, wrapped sums, missed updates); the manifest lists them as findings.

    ** Bounds and fuel

    Recursion that is not structural carries fuel, and the theorems show that the
    fuel given by the calling definition is enough: [log_base_2] 32 (bits of an
    [unsigned int]), [dcache_init] 64 (halvings of a size), [get_best_overprovision]
    1100 (steps of the loop), bytes left plus one for the device loops, slots plus
    one for the directory loops, length plus one for the hash, size of the main
    area plus one for the search of a free block, blocks of the table plus one for
    building the SIT, entries plus one for the journals, the depth 4 of a quota tree
    (structural), whole blocks plus three for the loops over the data of a file. The
    depth of the walk of fsck is the number of blocks of the main area plus one,
    since every directory marks one more. [f2fs_add_link] has 64 levels, one more
    than MAX_DIR_HASH_DEPTH, where the C loop gives up. The loops over orphans, lost
    files, the blocks of the NAT and the blocks to move follow lists of their length; the
    loops over attributes have one step per byte of the buffer, and an entry has at
    least four. [find_target_dentry] runs
    out of fuel only where the C loop does not end, which is a theorem.

    ** Build that is modelled

    Little-endian host, no Android sparse library, no zoned-device headers, 512
    blocks in a segment. [assert_] is [ASSERT]; [ASSERT_MSG] only raises [bug_on]
    and is a flag.

    ** Not modelled

    Printing, option parsing and signal handling; reading ahead; the write pointers
    of zoned devices (empty functions in the build that is modelled) and copying lost
    files to the host (fsck/fsck.c); the sequence of f2fs_do_mount and the recovery of
    fsynced data (fsck/mount.c), whose parts are modelled one by one; truncation (the
    file theorems are about blocks that are present); the tree of
    fsck/dict.c (used through its interface only: it is a finite map here);
    resize, dump and sload beyond the functions named above; compression; the tools under tools/; the tables of
    lib/utf8data.h; vendored libraries.
*)
From Stdlib Require Import ZArith Lia List Bool.
From stdpp Require Import base numbers list gmap.

(** * Scope and results *)

Declare Scope f2fs_scope.
Delimit Scope f2fs_scope with f2fs.
#[global] Open Scope Z_scope.

(** What running a piece of the C code gives: a value, the end of the process
    through [ASSERT] ([exit(-1)], include/f2fs_fs.h), undefined behaviour (an
    access outside of the object it was made to, a division by zero, a shift by
    the width or more: never folded into a value), or the fuel of a modelled
    loop used up. *)
Inductive res (A : Type) : Type :=
| Ok (a : A)
| Die
| Oob
| NoFuel.
Arguments Ok {A} a.
Arguments Die {A}.
Arguments Oob {A}.
Arguments NoFuel {A}.

#[global] Instance res_ret : MRet res := fun A a => Ok a.
#[global] Instance res_bind : MBind res := fun A B f m =>
  match m with Ok a => f a | Die => Die | Oob => Oob | NoFuel => NoFuel end.
#[global] Instance res_fmap : FMap res := fun A B f m =>
  match m with Ok a => Ok (f a) | Die => Die | Oob => Oob | NoFuel => NoFuel end.

(** [ASSERT(exp)] *)
Definition assert_ (b : bool) : res unit := if b then Ok tt else Die.

(** A C expression that is undefined unless [b]. *)
Definition defined_ (b : bool) : res unit := if b then Ok tt else Oob.

Lemma res_bind_Ok {A B} (m : res A) (f : A -> res B) b :
  (m ≫= f) = Ok b <-> exists a, m = Ok a /\ f a = Ok b.
Proof. destruct m; cbn; split; [by eauto|by intros (?&[= ->]&?)|..]; by (done || intros (?&?&?)). Qed.

(** A step that has been evaluated; rewriting with it leaves the kernel nothing to
    compute. *)
Lemma res_bind_ret {A B} (a : A) (f : A -> res B) : mbind f (Ok a) = f a.
Proof. reflexivity. Qed.

Lemma Ok_inj {A} (a b : A) : Ok a = Ok b -> a = b.
Proof. by intros [= ->]. Qed.

Lemma defined_Ok b u : defined_ b = Ok u <-> b = true.
Proof. destruct b, u; cbn; split; done. Qed.

Lemma assert_Ok b u : assert_ b = Ok u <-> b = true.
Proof. destruct b, u; cbn; split; done. Qed.

(** * Machine integers

    Integers are [Z]; a conversion to an unsigned C type of [w] bits is
    reduction modulo [2^w], one to a signed type picks the representative of
    that class in [[-2^(w-1), 2^(w-1))] (two's complement, the target of every
    build of the tools). *)
Definition u8 (z : Z) : Z := z mod 2 ^ 8.
Definition u16 (z : Z) : Z := z mod 2 ^ 16.
Definition u32 (z : Z) : Z := z mod 2 ^ 32.
Definition u64 (z : Z) : Z := z mod 2 ^ 64.
Definition sgn (w z : Z) : Z :=
  let r := z mod 2 ^ w in if r <? 2 ^ (w - 1) then r else r - 2 ^ w.
Definition s8 (z : Z) : Z := sgn 8 z.
Definition s32 (z : Z) : Z := sgn 32 z.
Definition s64 (z : Z) : Z := sgn 64 z.

Definition is_u8 (z : Z) : Prop := 0 <= z < 2 ^ 8.
Definition is_u16 (z : Z) : Prop := 0 <= z < 2 ^ 16.
Definition is_u32 (z : Z) : Prop := 0 <= z < 2 ^ 32.
Definition is_u64 (z : Z) : Prop := 0 <= z < 2 ^ 64.

(** [F2FS_BLKSIZE] *)
Abbreviation F2FS_BLKSIZE := 4096.

(** A byte buffer: every cell holds an [unsigned char]. *)
Definition bytes (l : list Z) : Prop := Forall is_u8 l.

Create HintDb f2fs.

Lemma u8_range z : is_u8 (u8 z).
Proof. apply Z.mod_pos_bound; lia. Qed.
Lemma u16_range z : is_u16 (u16 z).
Proof. apply Z.mod_pos_bound; lia. Qed.
Lemma u32_range z : is_u32 (u32 z).
Proof. apply Z.mod_pos_bound; lia. Qed.
Lemma u64_range z : is_u64 (u64 z).
Proof. apply Z.mod_pos_bound; lia. Qed.
Lemma u8_id z : is_u8 z -> u8 z = z.
Proof. apply Z.mod_small. Qed.
Lemma u16_id z : is_u16 z -> u16 z = z.
Proof. apply Z.mod_small. Qed.
Lemma u32_id z : is_u32 z -> u32 z = z.
Proof. apply Z.mod_small. Qed.
Lemma u64_id z : is_u64 z -> u64 z = z.
Proof. apply Z.mod_small. Qed.
#[export] Hint Resolve u8_range u16_range u32_range u64_range : f2fs.

(** * Bit-level reasoning *)

(** Two integers with the same bits are equal. *)
Ltac bitwise i Hi := apply Z.bits_inj'; intros i Hi.

Lemma testbit_mod_pow2 a n i :
  0 <= n -> 0 <= i -> Z.testbit (a mod 2 ^ n) i = (i <? n) && Z.testbit a i.
Proof.
  intros Hn Hi. destruct (Z.ltb_spec i n).
  - by rewrite Z.mod_pow2_bits_low by lia.
  - by rewrite Z.mod_pow2_bits_high by lia.
Qed.

Lemma testbit_high a n i : 0 <= a < 2 ^ n -> 0 <= n <= i -> Z.testbit a i = false.
Proof.
  intros Ha Hi. rewrite <- (Z.mod_small a (2 ^ n)) by lia.
  by rewrite Z.mod_pow2_bits_high by lia.
Qed.

Lemma testbit_shiftl_1 k i : 0 <= k -> 0 <= i -> Z.testbit (Z.shiftl 1 k) i = (i =? k).
Proof.
  intros Hk Hi. rewrite Z.shiftl_spec by lia.
  destruct (Z.eqb_spec i k) as [->|Hne]; [by rewrite Z.sub_diag|].
  destruct (Z.ltb_spec i k); [by rewrite Z.testbit_neg_r by lia|].
  by rewrite (testbit_high 1 1) by lia.
Qed.

Lemma land_pow2_testbit a k : 0 <= k -> Z.land (Z.shiftl 1 k) a = if Z.testbit a k then 2 ^ k else 0.
Proof.
  intros Hk. bitwise i Hi. rewrite Z.land_spec, testbit_shiftl_1 by lia.
  destruct (Z.eqb_spec i k) as [->|Hne]; cbn.
  - destruct (Z.testbit a k) eqn:E; [by rewrite Z.pow2_bits_true by lia|by rewrite Z.bits_0].
  - destruct (Z.testbit a k); [by rewrite Z.pow2_bits_false by lia|by rewrite Z.bits_0].
Qed.

Lemma lor_range a b n : 0 <= n -> 0 <= a < 2 ^ n -> 0 <= b < 2 ^ n -> 0 <= Z.lor a b < 2 ^ n.
Proof.
  intros Hn Ha Hb. split; [apply Z.lor_nonneg; lia|].
  destruct (Z.eq_dec (Z.lor a b) 0) as [->|Hz]; [apply Z.pow_pos_nonneg; lia|].
  assert (0 <= Z.lor a b) by (apply Z.lor_nonneg; lia).
  apply Z.log2_lt_pow2; [lia|]. rewrite Z.log2_lor by lia.
  destruct (Z.eq_dec n 0) as [->|Hn0].
  - assert (a = 0) as -> by lia. assert (b = 0) as -> by lia. done.
  - assert (forall x, 0 <= x < 2 ^ n -> Z.log2 x < n) as HL.
    { intros x Hx. destruct (Z.eq_dec x 0) as [->|]; [rewrite Z.log2_nonpos; lia|].
      apply Z.log2_lt_pow2; lia. }
    pose proof (HL a Ha). pose proof (HL b Hb). lia.
Qed.

Lemma land_range_l a b n : 0 <= n -> 0 <= a < 2 ^ n -> 0 <= Z.land a b < 2 ^ n.
Proof.
  intros Hn Ha. assert (Z.land a b = Z.land a b mod 2 ^ n) as ->; [|apply Z.mod_pos_bound; lia].
  bitwise i Hi. rewrite testbit_mod_pow2, !Z.land_spec by lia.
  destruct (Z.ltb_spec i n); [done|]. by rewrite (testbit_high a n) by lia.
Qed.

Lemma lxor_range a b n : 0 <= n -> 0 <= a < 2 ^ n -> 0 <= b < 2 ^ n -> 0 <= Z.lxor a b < 2 ^ n.
Proof.
  intros Hn Ha Hb. assert (Z.lxor a b = Z.lxor a b mod 2 ^ n) as ->; [|apply Z.mod_pos_bound; lia].
  bitwise i Hi. rewrite testbit_mod_pow2, !Z.lxor_spec by lia.
  destruct (Z.ltb_spec i n); [done|]. by rewrite (testbit_high a n), (testbit_high b n) by lia.
Qed.

(** A property of the 256 byte values that a boolean test decides. *)
Lemma byte_cases (P : Z -> bool) :
  forallb P (map Z.of_nat (seq 0 256)) = true -> forall b, is_u8 b -> P b = true.
Proof.
  rewrite forallb_forall. intros H b Hb. apply H, in_map_iff.
  exists (Z.to_nat b). unfold is_u8 in Hb. split; [lia|]. apply in_seq. lia.
Qed.

(** * Buffers

    A C object of [length l] cells; reading or writing outside of it is [Oob]. *)
Definition rd {A} (l : list A) (i : Z) : res A :=
  if i <? 0 then Oob else match l !! Z.to_nat i with Some x => Ok x | None => Oob end.
Definition wr {A} (l : list A) (i : Z) (x : A) : res (list A) :=
  if (i <? 0) || (Z.of_nat (length l) <=? i) then Oob else Ok (<[Z.to_nat i := x]> l).

Section Buffers.
Context {A : Type}.
Implicit Types l : list A.

Lemma rd_Ok l i x : rd l i = Ok x <-> 0 <= i /\ l !! Z.to_nat i = Some x.
Proof.
  unfold rd. destruct (Z.ltb_spec i 0); [split; [done|lia]|].
  destruct (l !! Z.to_nat i); naive_solver lia.
Qed.

Lemma rd_total l i : 0 <= i < Z.of_nat (length l) -> exists x, rd l i = Ok x.
Proof.
  intros Hi. destruct (lookup_lt_is_Some_2 l (Z.to_nat i)) as [x Hx]; [lia|].
  exists x. apply rd_Ok. split; [lia|done].
Qed.

Lemma wr_Ok l i x l' :
  wr l i x = Ok l' <-> 0 <= i < Z.of_nat (length l) /\ l' = <[Z.to_nat i := x]> l.
Proof.
  unfold wr. destruct (Z.ltb_spec i 0), (Z.leb_spec (Z.of_nat (length l)) i); cbn;
    naive_solver lia.
Qed.

Lemma wr_total l i x :
  0 <= i < Z.of_nat (length l) -> wr l i x = Ok (<[Z.to_nat i := x]> l).
Proof. intros. by apply wr_Ok. Qed.

Lemma rd_insert l i j x :
  0 <= i < Z.of_nat (length l) -> 0 <= j ->
  rd (<[Z.to_nat i := x]> l) j = if j =? i then Ok x else rd l j.
Proof.
  intros Hi Hj. unfold rd. destruct (Z.ltb_spec j 0); [lia|].
  destruct (Z.eqb_spec j i) as [->|Hne].
  - by rewrite list_lookup_insert_eq by lia.
  - by rewrite list_lookup_insert_ne by lia.
Qed.
End Buffers.

Lemma bytes_rd l i b : bytes l -> rd l i = Ok b -> is_u8 b.
Proof. intros Hl [_ Hb]%rd_Ok. by eapply (Forall_lookup_1 _ l). Qed.

Lemma bytes_insert l i b : bytes l -> is_u8 b -> bytes (<[i := b]> l).
Proof. intros. by apply Forall_insert. Qed.
#[export] Hint Resolve bytes_insert : f2fs.

Lemma bytes_forallb l : forallb (fun b => (0 <=? b) && (b <? 256)) l = true -> bytes l.
Proof.
  rewrite forallb_forall. intros H. apply Forall_forall. intros b Hb%list_elem_of_In.
  apply H, andb_true_iff in Hb as [?%Z.leb_le ?%Z.ltb_lt]. unfold is_u8. lia.
Qed.

(** [memcpy] into a buffer: cell after cell from index [i] on. *)
Fixpoint wr_list {A} (l : list A) (i : Z) (xs : list A) : res (list A) :=
  match xs with
  | [] => Ok l
  | x :: xs => l' ← wr l i x; wr_list l' (i + 1) xs
  end.

Lemma wr_app {A} (pre post : list A) (x y : A) i :
  i = Z.of_nat (length pre) -> wr (pre ++ y :: post) i x = Ok (pre ++ x :: post).
Proof.
  intros ->. rewrite wr_total by (rewrite length_app; cbn; lia).
  f_equal. rewrite Nat2Z.id, insert_app_r_alt by lia. by rewrite Nat.sub_diag.
Qed.

Lemma wr_list_app {A} (xs mid pre post : list A) i :
  i = Z.of_nat (length pre) -> length mid = length xs ->
  wr_list (pre ++ mid ++ post) i xs = Ok (pre ++ xs ++ post).
Proof.
  revert mid pre i. induction xs as [|x xs IH]; intros [|y mid] pre i Hi Hl; try done.
  cbn [wr_list app]. unfold mbind, res_bind. rewrite wr_app by done.
  rewrite (cons_middle x pre), (cons_middle x pre), !app_assoc, <- !app_assoc.
  rewrite (app_assoc pre [x]). rewrite (IH mid) by (rewrite ?length_app; cbn in *; lia).
  by rewrite <- app_assoc.
Qed.

Lemma rd_app_r {A} (pre post : list A) i :
  Z.of_nat (length pre) <= i -> rd (pre ++ post) i = rd post (i - Z.of_nat (length pre)).
Proof.
  intros Hi. unfold rd. replace (i <? 0) with false by lia.
  replace (i - Z.of_nat (length pre) <? 0) with false by lia.
  rewrite lookup_app_r by lia. by replace (Z.to_nat i - length pre)%nat
    with (Z.to_nat (i - Z.of_nat (length pre))) by lia.
Qed.

Lemma rd_app_l {A} (pre post : list A) i :
  i < Z.of_nat (length pre) -> rd (pre ++ post) i = rd pre i.
Proof.
  intros Hi. unfold rd. destruct (Z.ltb_spec i 0); [done|]. by rewrite lookup_app_l by lia.
Qed.

(** Joining and splitting bit fields. *)
Lemma lor_shiftl_add h a n : 0 <= n -> 0 <= a < 2 ^ n -> Z.lor (Z.shiftl h n) a = Z.shiftl h n + a.
Proof.
  intros Hn Ha. rewrite Z.add_nocarry_lxor.
  - symmetry. apply Z.lxor_lor. bitwise i Hi. rewrite Z.land_spec, Z.bits_0.
    destruct (Z.ltb_spec i n); [by rewrite Z.shiftl_spec_low by lia|].
    by rewrite (testbit_high a n), andb_false_r by lia.
  - bitwise i Hi. rewrite Z.land_spec, Z.bits_0.
    destruct (Z.ltb_spec i n); [by rewrite Z.shiftl_spec_low by lia|].
    by rewrite (testbit_high a n), andb_false_r by lia.
Qed.

Lemma land_ones_mod a n : 0 <= n -> Z.land a (2 ^ n - 1) = a mod 2 ^ n.
Proof. intros. rewrite <- Z.land_ones, Z.ones_equiv by lia. f_equal. Qed.

Lemma app_eq_inv_length {A} (l : list A) n :
  (n <= length l)%nat -> exists l1 l2, l = l1 ++ l2 /\ length l1 = n.
Proof.
  intros Hn. exists (take n l), (drop n l). rewrite take_drop, length_take. split; [done|lia].
Qed.

(** * Little-endian fields

    The host is little-endian, so [le32_to_cpu] of a field at byte offset [ofs]
    of a structure is the value of its four bytes there. *)
Fixpoint le_val (l : list Z) : Z :=
  match l with [] => 0 | b :: l => b + 256 * le_val l end.
Fixpoint le_bytes (n : nat) (z : Z) : list Z :=
  match n with O => [] | S n => z mod 256 :: le_bytes n (z / 256) end.

Fixpoint rd_bytes (l : list Z) (ofs : Z) (n : nat) : res (list Z) :=
  match n with
  | O => Ok []
  | S n => b ← rd l ofs; bs ← rd_bytes l (ofs + 1) n; Ok (b :: bs)
  end.

Definition get_le (n : nat) (l : list Z) (ofs : Z) : res Z := bs ← rd_bytes l ofs n; Ok (le_val bs).
Definition set_le (n : nat) (l : list Z) (ofs : Z) (v : Z) : res (list Z) :=
  wr_list l ofs (le_bytes n v).
Abbreviation get_le16 := (get_le 2).
Abbreviation get_le32 := (get_le 4).
Abbreviation get_le64 := (get_le 8).
Abbreviation set_le16 := (set_le 2).
Abbreviation set_le32 := (set_le 4).
Abbreviation set_le64 := (set_le 8).

Lemma length_le_bytes n z : length (le_bytes n z) = n.
Proof. revert z. induction n; intros; cbn; [done|]. by rewrite IHn. Qed.

Lemma bytes_le_bytes n z : bytes (le_bytes n z).
Proof.
  revert z. induction n; intros z; cbn; constructor; [apply (Z.mod_pos_bound z 256); lia|apply IHn].
Qed.
#[export] Hint Resolve bytes_le_bytes : f2fs.

Lemma le_val_bytes n z : 0 <= z < 2 ^ (8 * Z.of_nat n) -> le_val (le_bytes n z) = z.
Proof.
  revert z. induction n as [|n IH]; intros z Hz; cbn [le_bytes le_val].
  - change (2 ^ (8 * Z.of_nat 0)) with 1 in Hz. lia.
  - rewrite IH; [pose proof (Z.div_mod z 256); lia|].
    replace (8 * Z.of_nat (S n)) with (8 + 8 * Z.of_nat n) in Hz by lia.
    rewrite Z.pow_add_r in Hz by lia. split; [apply Z.div_pos; lia|].
    apply Z.div_lt_upper_bound; lia.
Qed.

Lemma le_val_range l : bytes l -> 0 <= le_val l < 2 ^ (8 * Z.of_nat (length l)).
Proof.
  induction 1 as [|b l Hb Hl IH]; [cbn; lia|]. cbn [le_val length].
  replace (8 * Z.of_nat (S (length l))) with (8 + 8 * Z.of_nat (length l)) by lia.
  rewrite Z.pow_add_r by lia. unfold is_u8 in Hb. lia.
Qed.

Lemma le_bytes_val l : bytes l -> le_bytes (length l) (le_val l) = l.
Proof.
  induction 1 as [|b l Hb Hl IH]; [done|]. cbn [le_val length le_bytes]. unfold is_u8 in Hb.
  rewrite Z.mul_comm, Z.mod_add, Z.mod_small, Z.div_add, Z.div_small by lia.
  by rewrite Z.add_0_l, IH.
Qed.

Lemma rd_bytes_Ok l ofs n :
  0 <= ofs -> ofs + Z.of_nat n <= Z.of_nat (length l) ->
  rd_bytes l ofs n = Ok (take n (drop (Z.to_nat ofs) l)).
Proof.
  revert ofs. induction n as [|n IH]; intros ofs H0 Hn; cbn [rd_bytes]; [by rewrite take_0|].
  destruct (rd_total l ofs) as [b Hb]; [lia|]. unfold mbind, res_bind. rewrite Hb, IH by lia.
  apply rd_Ok in Hb as [_ Hb]. rewrite (drop_S l b (Z.to_nat ofs) Hb).
  by replace (Z.to_nat (ofs + 1)) with (S (Z.to_nat ofs)) by lia.
Qed.

Lemma rd_bytes_app pre mid post ofs n :
  ofs = Z.of_nat (length pre) -> n = length mid -> rd_bytes (pre ++ mid ++ post) ofs n = Ok mid.
Proof.
  intros -> ->. rewrite rd_bytes_Ok by (rewrite ?length_app; lia).
  by rewrite Nat2Z.id, drop_app_length, take_app_length.
Qed.

(** What [set_le] stores, as a splice. *)
Definition splice (l : list Z) (ofs : Z) (xs : list Z) : list Z :=
  take (Z.to_nat ofs) l ++ xs ++ drop (Z.to_nat ofs + length xs) l.

Lemma wr_list_splice l ofs xs :
  0 <= ofs -> ofs + Z.of_nat (length xs) <= Z.of_nat (length l) ->
  wr_list l ofs xs = Ok (splice l ofs xs).
Proof.
  intros H0 Hn. rewrite <- (take_drop (Z.to_nat ofs) l) at 1.
  rewrite <- (take_drop (length xs) (drop (Z.to_nat ofs) l)).
  rewrite wr_list_app; [by rewrite drop_drop|rewrite length_take; lia|].
  rewrite length_take, length_drop. lia.
Qed.

Lemma length_splice l ofs xs :
  0 <= ofs -> ofs + Z.of_nat (length xs) <= Z.of_nat (length l) ->
  length (splice l ofs xs) = length l.
Proof. intros. unfold splice. rewrite !length_app, length_take, length_drop. lia. Qed.

Lemma lookup_splice l ofs xs i :
  0 <= ofs -> ofs + Z.of_nat (length xs) <= Z.of_nat (length l) ->
  splice l ofs xs !! i =
    if decide (Z.to_nat ofs <= i < Z.to_nat ofs + length xs)%nat
    then xs !! (i - Z.to_nat ofs)%nat else l !! i.
Proof.
  intros H0 Hn. unfold splice. assert (length (take (Z.to_nat ofs) l) = Z.to_nat ofs) as Ht
    by (rewrite length_take; lia).
  destruct (decide (i < Z.to_nat ofs)%nat).
  { rewrite lookup_app_l by lia. rewrite lookup_take_lt by lia. case_decide; [lia|done]. }
  rewrite lookup_app_r by lia. rewrite Ht. case_decide.
  - by rewrite lookup_app_l by lia.
  - rewrite lookup_app_r by lia. rewrite lookup_drop. f_equal. lia.
Qed.

Lemma bytes_splice l ofs xs : bytes l -> bytes xs -> bytes (splice l ofs xs).
Proof.
  intros Hl Hx. unfold splice. apply Forall_app. split; [by apply Forall_take|].
  apply Forall_app. split; [done|by apply Forall_drop].
Qed.
#[export] Hint Resolve bytes_splice : f2fs.

(** Reading back a field: the one just stored, or one that does not overlap it. *)
Lemma rd_bytes_ext l l' ofs n :
  (forall i, ofs <= i < ofs + Z.of_nat n -> rd l' i = rd l i) -> rd_bytes l' ofs n = rd_bytes l ofs n.
Proof.
  revert ofs. induction n as [|n IH]; intros ofs H; cbn [rd_bytes]; [done|].
  rewrite H by lia. rewrite IH by (intros; apply H; lia). done.
Qed.

Lemma get_le_ext n l l' ofs : (forall i, ofs <= i < ofs + Z.of_nat n -> rd l' i = rd l i) -> get_le n l' ofs = get_le n l ofs.
Proof. intros H. unfold get_le. f_equal. by apply rd_bytes_ext. Qed.

Lemma get_set_le n l ofs v :
  0 <= ofs -> ofs + Z.of_nat n <= Z.of_nat (length l) -> 0 <= v < 2 ^ (8 * Z.of_nat n) ->
  get_le n (splice l ofs (le_bytes n v)) ofs = Ok v.
Proof.
  intros H0 Hn Hv. unfold get_le, splice, mbind, res_bind.
  rewrite rd_bytes_app; [by rewrite le_val_bytes| |by rewrite length_le_bytes].
  rewrite length_take. lia.
Qed.

Lemma rd_splice_ne l ofs xs i :
  0 <= ofs -> ofs + Z.of_nat (length xs) <= Z.of_nat (length l) ->
  i < ofs \/ ofs + Z.of_nat (length xs) <= i -> rd (splice l ofs xs) i = rd l i.
Proof.
  intros H0 Hn Hi. unfold rd. destruct (Z.ltb_spec i 0); [done|].
  rewrite lookup_splice by done. case_decide; [lia|done].
Qed.

Lemma get_set_le_ne n m l ofs ofs' v :
  0 <= ofs -> ofs + Z.of_nat n <= Z.of_nat (length l) ->
  ofs' + Z.of_nat m <= ofs \/ ofs + Z.of_nat n <= ofs' ->
  get_le m (splice l ofs (le_bytes n v)) ofs' = get_le m l ofs'.
Proof.
  intros H0 Hn Hd. unfold get_le. f_equal. apply rd_bytes_ext. intros i Hi.
  apply rd_splice_ne; rewrite ?length_le_bytes; lia.
Qed.

Lemma get_le_splice_ne m l ofs xs ofs' :
  0 <= ofs -> ofs + Z.of_nat (length xs) <= Z.of_nat (length l) ->
  ofs' + Z.of_nat m <= ofs \/ ofs + Z.of_nat (length xs) <= ofs' ->
  get_le m (splice l ofs xs) ofs' = get_le m l ofs'.
Proof.
  intros H0 Hn Hd. unfold get_le. f_equal. apply rd_bytes_ext. intros i Hi.
  apply rd_splice_ne; lia.
Qed.

(** Fields of a prefix. *)
Lemma get_le_take n m l ofs : 0 <= ofs -> ofs + Z.of_nat n <= Z.of_nat m ->
  get_le n (take m l) ofs = get_le n l ofs.
Proof.
  intros H0 Hm. unfold get_le. f_equal. apply rd_bytes_ext. intros i Hi. unfold rd.
  destruct (i <? 0); [done|]. by rewrite lookup_take_lt by lia.
Qed.

Lemma take_splice m l ofs xs : 0 <= ofs -> ofs + Z.of_nat (length xs) <= Z.of_nat m -> (m <= length l)%nat ->
  take m (splice l ofs xs) = splice (take m l) ofs xs.
Proof.
  intros H0 Hm Hl. apply list_eq. intros i. rewrite lookup_splice by (rewrite ?length_take; lia).
  destruct (decide (i < m)%nat).
  - rewrite lookup_take_lt, lookup_splice by lia. case_decide; [done|]. by rewrite lookup_take_lt by lia.
  - rewrite !lookup_take_ge by lia. case_decide; [lia|done].
Qed.

Lemma set_le_Ok n l ofs v : 0 <= ofs -> ofs + Z.of_nat n <= Z.of_nat (length l) ->
  set_le n l ofs v = Ok (splice l ofs (le_bytes n v)).
Proof. intros. apply wr_list_splice; rewrite ?length_le_bytes; lia. Qed.

(** Several fields stored one after the other. *)
Definition edit (l : list Z) (es : list (Z * list Z)) : list Z := fold_left (fun l e => splice l e.1 e.2) es l.
Definition edit_in (len : nat) (e : Z * list Z) : Prop := 0 <= e.1 /\ e.1 + Z.of_nat (length e.2) <= Z.of_nat len.

Lemma length_edit es : forall l, Forall (edit_in (length l)) es -> length (edit l es) = length l.
Proof.
  induction es as [|e es IH]; intros l H; [done|]. apply Forall_cons in H as [[H1 H2] H].
  change (edit l (e :: es)) with (edit (splice l e.1 e.2) es). rewrite IH; by rewrite length_splice.
Qed.

Lemma bytes_edit es : forall l, bytes l -> Forall (fun e => bytes e.2) es -> bytes (edit l es).
Proof.
  induction es as [|e es IH]; intros l Hl H; [done|]. apply Forall_cons in H as [H1 H].
  apply IH; [by apply bytes_splice|done].
Qed.

Lemma rd_edit_ne es : forall l i, Forall (edit_in (length l)) es ->
  Forall (fun e => i < e.1 \/ e.1 + Z.of_nat (length e.2) <= i) es -> rd (edit l es) i = rd l i.
Proof.
  induction es as [|e es IH]; intros l i H Hd; [done|]. apply Forall_cons in H as [[H1 H2] H].
  apply Forall_cons in Hd as [Hd1 Hd]. change (edit l (e :: es)) with (edit (splice l e.1 e.2) es).
  rewrite IH; [by apply rd_splice_ne|by rewrite length_splice|done].
Qed.

Lemma get_le_edit_ne n es l ofs : Forall (edit_in (length l)) es ->
  Forall (fun e => ofs + Z.of_nat n <= e.1 \/ e.1 + Z.of_nat (length e.2) <= ofs) es ->
  get_le n (edit l es) ofs = get_le n l ofs.
Proof.
  intros H Hd. unfold get_le. f_equal. apply rd_bytes_ext. intros i Hi. apply rd_edit_ne; [done|].
  eapply Forall_impl; [exact Hd|]. intros e He. cbn beta in He. lia.
Qed.

Lemma edit_app l es es' : edit l (es ++ es') = edit (edit l es) es'.
Proof. apply fold_left_app. Qed.

Lemma edit_snoc l es e : edit l (es ++ [e]) = splice (edit l es) e.1 e.2.
Proof. unfold edit. by rewrite fold_left_app. Qed.

Lemma splice_nil l ofs : splice l ofs [] = l.
Proof. unfold splice. cbn [length app]. by rewrite Nat.add_0_r, take_drop. Qed.

Lemma splice_splice l ofs xs ys :
  0 <= ofs -> ofs + Z.of_nat (length xs) + Z.of_nat (length ys) <= Z.of_nat (length l) ->
  splice (splice l ofs xs) (ofs + Z.of_nat (length xs)) ys = splice l ofs (xs ++ ys).
Proof.
  intros Ho Hl. apply list_eq. intros i.
  rewrite lookup_splice, lookup_splice by (rewrite ?length_splice by lia; lia).
  rewrite lookup_splice by (rewrite ?length_app; lia). rewrite length_app.
  repeat case_decide; try lia; try done.
  - rewrite lookup_app_r by lia. f_equal. lia.
  - by rewrite lookup_app_l by lia.
Qed.

Lemma splice_app pre mid post xs ofs :
  ofs = Z.of_nat (length pre) -> length mid = length xs ->
  splice (pre ++ mid ++ post) ofs xs = pre ++ xs ++ post.
Proof.
  intros -> Hl. unfold splice. rewrite Nat2Z.id, take_app_length, <- Hl, <- length_app.
  by rewrite (app_assoc pre mid), drop_app_length.
Qed.

Lemma get_le_range n l ofs v : bytes l -> get_le n l ofs = Ok v -> 0 <= v < 2 ^ (8 * Z.of_nat n).
Proof.
  intros Hl. unfold get_le. intros (bs & Hbs & [= <-])%res_bind_Ok.
  assert (bytes bs /\ length bs = n) as [Hb <-]; [|by apply le_val_range].
  revert ofs bs Hbs. induction n as [|n IH]; intros ofs bs; cbn [rd_bytes].
  - intros [= <-]. split; [constructor|done].
  - intros (b & Hb & H)%res_bind_Ok. apply res_bind_Ok in H as (bs' & Hbs' & [= <-]).
    apply IH in Hbs' as [? <-]. split; [constructor; [exact (bytes_rd _ _ _ Hl Hb)|done]|done].
Qed.
