(* ===== verification/Codec.v ===== *)
(** Packed C structures: how the members of a structure lie in its bytes. A
    codec gives the width of a type, its bytes and the value read back from
    bytes; structures are pairs of codecs, arrays are repetitions. The laws are
    a class, so that the law of a structure is found from those of its members. *)
From S2P Require Import Prelude.
From Stdlib Require Import ZArith Lia List Bool.
From stdpp Require Import base numbers list.
#[local] Open Scope Z_scope.

Record codec (A : Type) := Codec {
  cwidth : nat;
  cok : A -> Prop;
  cenc : A -> list Z;
  cdec : list Z -> A
}.
Arguments Codec {A}.
Arguments cwidth {A}.
Arguments cok {A}.
Arguments cenc {A}.
Arguments cdec {A}.

Class CodecLaws {A} (c : codec A) : Prop := {
  cenc_length a : cok c a -> length (cenc c a) = cwidth c;
  cenc_bytes a : cok c a -> bytes (cenc c a);
  cdec_enc a rest : cok c a -> cdec c (cenc c a ++ rest) = a;
  cdec_ok l : bytes l -> (cwidth c <= length l)%nat -> cok c (cdec c l);
  cenc_dec l : bytes l -> (cwidth c <= length l)%nat -> cenc c (cdec c l) = take (cwidth c) l
}.

(** A little-endian unsigned member of [n] bytes ([__u8], [__le16], [__le32],
    [__le64]). *)
Definition c_le (n : nat) : codec Z := {|
  cwidth := n; cok := fun z => 0 <= z < 2 ^ (8 * Z.of_nat n);
  cenc := le_bytes n; cdec := fun l => le_val (take n l) |}.

(** An array of [n] bytes. *)
Definition c_raw (n : nat) : codec (list Z) := {|
  cwidth := n; cok := fun l => bytes l /\ length l = n;
  cenc := fun l => l; cdec := fun l => take n l |}.

Definition c_pair {A B} (c : codec A) (d : codec B) : codec (A * B) := {|
  cwidth := cwidth c + cwidth d; cok := fun p => cok c p.1 /\ cok d p.2;
  cenc := fun p => cenc c p.1 ++ cenc d p.2;
  cdec := fun l => (cdec c l, cdec d (drop (cwidth c) l)) |}.

Fixpoint dec_array {A} (c : codec A) (n : nat) (l : list Z) : list A :=
  match n with O => [] | S n => cdec c l :: dec_array c n (drop (cwidth c) l) end.

Definition c_array {A} (c : codec A) (n : nat) : codec (list A) := {|
  cwidth := n * cwidth c; cok := fun l => Forall (cok c) l /\ length l = n;
  cenc := fun l => concat (map (cenc c) l); cdec := dec_array c n |}.

(** A structure: a record isomorphic to nested pairs. *)
Definition c_iso {A B} (f : A -> B) (g : B -> A) (c : codec B) : codec A := {|
  cwidth := cwidth c; cok := fun a => cok c (f a);
  cenc := fun a => cenc c (f a); cdec := fun l => g (cdec c l) |}.

Declare Scope codec_scope.
Delimit Scope codec_scope with codec.
Notation "c ∗ d" := (c_pair c d) (at level 40, left associativity) : codec_scope.

#[export] Instance c_le_laws n : CodecLaws (c_le n).
Proof.
  split; cbn; intros.
  - apply length_le_bytes.
  - apply bytes_le_bytes.
  - rewrite take_app_length' by (symmetry; apply length_le_bytes). by apply le_val_bytes.
  - pose proof (le_val_range (take n l) ltac:(by apply Forall_take)) as Hr.
    rewrite length_take in Hr. by replace (n `min` length l)%nat with n in Hr by lia.
  - rewrite <- (le_bytes_val (take n l)) at 2 by by apply Forall_take.
    by rewrite length_take, Nat.min_l.
Qed.

#[export] Instance c_raw_laws n : CodecLaws (c_raw n).
Proof.
  split; cbn; intros; destruct_and?; try done.
  - by apply take_app_length'.
  - split; [by apply Forall_take|]. rewrite length_take. lia.
Qed.

#[export] Instance c_pair_laws {A B} (c : codec A) (d : codec B) :
  CodecLaws c -> CodecLaws d -> CodecLaws (c_pair c d).
Proof.
  intros Hc Hd. split; cbn.
  - intros a [? ?]. rewrite length_app. by f_equal; apply cenc_length.
  - intros a [? ?]. apply Forall_app. split; by apply cenc_bytes.
  - intros [a b] rest [Ha Hb]; cbn in *. rewrite <- app_assoc, cdec_enc by done.
    rewrite drop_app_length' by (symmetry; by apply cenc_length). by rewrite cdec_enc.
  - intros l Hl Hw. split; apply cdec_ok; rewrite ?length_drop; try done; try lia. by apply Forall_drop.
  - intros l Hl Hw. rewrite !cenc_dec by (rewrite ?length_drop; (lia || done || by apply Forall_drop)).
    apply take_take_drop.
Qed.

#[export] Instance c_array_laws {A} (c : codec A) n : CodecLaws c -> CodecLaws (c_array c n).
Proof.
  intros Hc. split; cbn.
  - intros a [Ha <-]. induction Ha as [|x l Hx Hl IH]; cbn; [done|].
    rewrite length_app, IH. by rewrite cenc_length.
  - intros a [Ha _]. induction Ha as [|x l Hx Hl IH]; cbn; [constructor|].
    apply Forall_app. split; [by apply cenc_bytes|done].
  - intros a rest [Ha <-]. induction Ha as [|x l Hx Hl IH]; cbn; [done|].
    rewrite <- app_assoc, cdec_enc by done. f_equal.
    by rewrite drop_app_length' by (symmetry; by apply cenc_length).
  - induction n as [|n IH]; cbn; intros l Hl Hw; [split; [constructor|done]|].
    destruct (IH (drop (cwidth c) l)) as [? ?]; [by apply Forall_drop|rewrite length_drop; lia|].
    split; [|by f_equal]. constructor; [|done]. apply cdec_ok; [done|lia].
  - induction n as [|n IH]; cbn; intros l Hl Hw; [by rewrite take_0|].
    rewrite IH by (rewrite ?length_drop; (lia || by apply Forall_drop)).
    rewrite cenc_dec by (done || lia). apply take_take_drop.
Qed.

Lemma c_iso_laws {A B} (f : A -> B) (g : B -> A) (c : codec B) :
  (forall a, g (f a) = a) -> (forall b, f (g b) = b) -> CodecLaws c -> CodecLaws (c_iso f g c).
Proof.
  intros Hgf Hfg Hc. split; cbn; intros.
  - by apply cenc_length.
  - by apply cenc_bytes.
  - rewrite cdec_enc by done. apply Hgf.
  - rewrite Hfg. by apply cdec_ok.
  - rewrite Hfg. by apply cenc_dec.
Qed.
