(* ===== verification/Bits.v ===== *)
(** Bit operations of lib/libf2fs.c: the two bit orders in which the tools
    address a bitmap ([test_and_set_bit_le] and friends count from the low bit
    of a byte, [f2fs_set_bit] and friends from the high bit), the searches
    [find_next_bit_le] and [find_next_zero_bit_le], the population count table
    and [log_base_2].

    The interface [Bitmap] is what the rest of the tools rely on: a bitmap of
    [n] bytes is a set of bit numbers below [8 * n], and the operations read,
    add and remove one of them. *)
From Stdlib Require Import ZArith Lia List Bool.
From stdpp Require Import base numbers list.
From S2P Require Import Prelude.

(** * The code *)

Fixpoint log_base_2_loop (fuel : nat) (num ret : Z) : res Z :=
  match fuel with
  | O => NoFuel
  | S fuel =>
      let num := Z.shiftr num 1 in
      if num =? 0 then Ok ret else log_base_2_loop fuel num (ret + 1)
  end.

(** A [uint32_t] is shifted to zero after at most 32 steps. *)
Definition log_base_2 (num : Z) : res Z :=
  if (num <=? 0) || negb (Z.land num (u32 (num - 1)) =? 0) then Ok (-1)
  else log_base_2_loop 32 num 0.

Definition bits_in_byte : list Z :=
  [ 0; 1; 1; 2; 1; 2; 2; 3; 1; 2; 2; 3; 2; 3; 3; 4;
    1; 2; 2; 3; 2; 3; 3; 4; 2; 3; 3; 4; 3; 4; 4; 5;
    1; 2; 2; 3; 2; 3; 3; 4; 2; 3; 3; 4; 3; 4; 4; 5;
    2; 3; 3; 4; 3; 4; 4; 5; 3; 4; 4; 5; 4; 5; 5; 6;
    1; 2; 2; 3; 2; 3; 3; 4; 2; 3; 3; 4; 3; 4; 4; 5;
    2; 3; 3; 4; 3; 4; 4; 5; 3; 4; 4; 5; 4; 5; 5; 6;
    2; 3; 3; 4; 3; 4; 4; 5; 3; 4; 4; 5; 4; 5; 5; 6;
    3; 4; 4; 5; 4; 5; 5; 6; 4; 5; 5; 6; 5; 6; 6; 7;
    1; 2; 2; 3; 2; 3; 3; 4; 2; 3; 3; 4; 3; 4; 4; 5;
    2; 3; 3; 4; 3; 4; 4; 5; 3; 4; 4; 5; 4; 5; 5; 6;
    2; 3; 3; 4; 3; 4; 4; 5; 3; 4; 4; 5; 4; 5; 5; 6;
    3; 4; 4; 5; 4; 5; 5; 6; 4; 5; 5; 6; 5; 6; 6; 7;
    2; 3; 3; 4; 3; 4; 4; 5; 3; 4; 4; 5; 4; 5; 5; 6;
    3; 4; 4; 5; 4; 5; 5; 6; 4; 5; 5; 6; 5; 6; 6; 7;
    3; 4; 4; 5; 4; 5; 5; 6; 4; 5; 5; 6; 5; 6; 6; 7;
    4; 5; 5; 6; 5; 6; 6; 7; 5; 6; 6; 7; 6; 7; 7; 8 ].

Definition get_bits_in_byte (n : Z) : res Z := rd bits_in_byte n.

Definition test_and_set_bit_le (nr : Z) (addr : list Z) : res (Z * list Z) :=
  let idx := Z.shiftr nr 3 in
  let mask := Z.shiftl 1 (Z.land nr 7) in
  c ← rd addr idx;
  let retval := Z.land mask c in
  addr' ← wr addr idx (u8 (Z.lor c mask));
  Ok (retval, addr').

Definition test_and_clear_bit_le (nr : Z) (addr : list Z) : res (Z * list Z) :=
  let idx := Z.shiftr nr 3 in
  let mask := Z.shiftl 1 (Z.land nr 7) in
  c ← rd addr idx;
  let retval := Z.land mask c in
  addr' ← wr addr idx (u8 (Z.land c (Z.lnot mask)));
  Ok (retval, addr').

Definition test_bit_le (nr : Z) (addr : list Z) : res Z :=
  c ← rd addr (Z.shiftr nr 3);
  Ok (Z.land (Z.shiftl 1 (Z.land nr 7)) c).

(** The buffers of the next three are [char *]: the cell is sign-extended when
    it meets the [int] mask, and truncated when it is stored back. *)
Definition f2fs_test_bit (nr : Z) (p : list Z) : res Z :=
  let mask := Z.shiftl 1 (7 - Z.land nr 7) in
  c ← rd p (Z.shiftr nr 3);
  Ok (if Z.land mask (s8 c) =? 0 then 0 else 1).

Definition f2fs_set_bit (nr : Z) (addr : list Z) : res (Z * list Z) :=
  let idx := Z.shiftr nr 3 in
  let mask := Z.shiftl 1 (7 - Z.land nr 7) in
  c ← rd addr idx;
  let ret := Z.land mask (s8 c) in
  addr' ← wr addr idx (u8 (Z.lor (s8 c) mask));
  Ok (ret, addr').

Definition f2fs_clear_bit (nr : Z) (addr : list Z) : res (Z * list Z) :=
  let idx := Z.shiftr nr 3 in
  let mask := Z.shiftl 1 (7 - Z.land nr 7) in
  c ← rd addr idx;
  let ret := Z.land mask (s8 c) in
  addr' ← wr addr idx (u8 (Z.land (s8 c) (Z.lnot mask)));
  Ok (ret, addr').

Definition __ffs (word : Z) : Z :=
  let num := 0 in
  let '(num, word) := if Z.land word 15 =? 0 then (num + 4, Z.shiftr word 4) else (num, word) in
  let '(num, word) := if Z.land word 3 =? 0 then (num + 2, Z.shiftr word 2) else (num, word) in
  if Z.land word 1 =? 0 then num + 1 else num.

Definition BITS_PER_BYTE : Z := 8.
Definition BITMAP_FIRST_BYTE_MASK (start : Z) : Z :=
  Z.shiftl 255 (Z.land start (BITS_PER_BYTE - 1)).
Definition round_down (x y : Z) : Z := Z.land x (Z.lnot (y - 1)).

Fixpoint _find_next_bit_le_loop (fuel : nat) (addr : list Z) (nbits start invert tmp : Z) : res Z :=
  match fuel with
  | O => NoFuel
  | S fuel =>
      if tmp =? 0 then
        let start := u64 (start + BITS_PER_BYTE) in
        if nbits <=? start then Ok nbits
        else
          c ← rd addr (start / BITS_PER_BYTE);
          _find_next_bit_le_loop fuel addr nbits start invert (u8 (Z.lxor c (s8 invert)))
      else Ok (Z.min (u64 (start + __ffs tmp)) nbits)
  end.

(** Every iteration moves to the next byte of [addr], so its length bounds the
    number of iterations. *)
Definition _find_next_bit_le (addr : list Z) (nbits start invert : Z) : res Z :=
  if (nbits =? 0) || (nbits <=? start) then Ok nbits
  else
    c ← rd addr (start / BITS_PER_BYTE);
    let tmp := u8 (Z.lxor c (s8 invert)) in
    let tmp := u8 (Z.land tmp (BITMAP_FIRST_BYTE_MASK start)) in
    let start := round_down start BITS_PER_BYTE in
    _find_next_bit_le_loop (S (length addr)) addr nbits start invert tmp.

Definition find_next_bit_le (addr : list Z) (size offset : Z) : res Z :=
  _find_next_bit_le addr size offset 0.

Definition find_next_zero_bit_le (addr : list Z) (size offset : Z) : res Z :=
  _find_next_bit_le addr size offset 255.

(** * Bitmaps as sets of bit numbers *)

(** Bit [i] of a bitmap whose byte order puts bit [i] at position [pos i] of
    byte [i / 8]. *)
Definition bit_at (pos : Z -> Z) (l : list Z) (i : Z) : bool :=
  match l !! Z.to_nat (Z.shiftr i 3) with Some c => Z.testbit c (pos i) | None => false end.
Definition pos_le (i : Z) : Z := Z.land i 7.
Definition pos_be (i : Z) : Z := 7 - Z.land i 7.
Definition bit_le : list Z -> Z -> bool := bit_at pos_le.
Definition bit_be : list Z -> Z -> bool := bit_at pos_be.

Definition nbits (l : list Z) : Z := 8 * Z.of_nat (length l).

(** The operations on a bitmap and what a client may rely on. *)
Record bitmap_ops := {
  bm_bit : list Z -> Z -> bool;
  bm_test : Z -> list Z -> res Z;
  bm_set : Z -> list Z -> res (Z * list Z);
  bm_clear : Z -> list Z -> res (Z * list Z);
}.

Class Bitmap (ops : bitmap_ops) : Prop := {
  bm_test_ok : forall l nr, bytes l -> 0 <= nr < nbits l ->
    exists v, bm_test ops nr l = Ok v /\ negb (v =? 0) = bm_bit ops l nr;
  bm_set_ok : forall l nr, bytes l -> 0 <= nr < nbits l ->
    exists v l', bm_set ops nr l = Ok (v, l') /\ negb (v =? 0) = bm_bit ops l nr
      /\ length l' = length l /\ bytes l'
      /\ forall i, 0 <= i -> bm_bit ops l' i = (i =? nr) || bm_bit ops l i;
  bm_clear_ok : forall l nr, bytes l -> 0 <= nr < nbits l ->
    exists v l', bm_clear ops nr l = Ok (v, l') /\ negb (v =? 0) = bm_bit ops l nr
      /\ length l' = length l /\ bytes l'
      /\ forall i, 0 <= i -> bm_bit ops l' i = negb (i =? nr) && bm_bit ops l i;
  bm_bit_outside : forall l i, nbits l <= i -> bm_bit ops l i = false;
}.

Definition le_bitmap : bitmap_ops :=
  {| bm_bit := bit_le; bm_test := test_bit_le;
     bm_set := test_and_set_bit_le; bm_clear := test_and_clear_bit_le |}.
Definition be_bitmap : bitmap_ops :=
  {| bm_bit := bit_be; bm_test := f2fs_test_bit;
     bm_set := f2fs_set_bit; bm_clear := f2fs_clear_bit |}.

(** * Facts on bytes and bit positions *)

Lemma shiftr3_div i : Z.shiftr i 3 = i / 8.
Proof. by rewrite Z.shiftr_div_pow2. Qed.

Lemma land7_mod i : Z.land i 7 = i mod 8.
Proof. by change 7 with (Z.ones 3); rewrite Z.land_ones. Qed.

Lemma pos_le_range i : 0 <= pos_le i < 8.
Proof. unfold pos_le. rewrite land7_mod. apply Z.mod_pos_bound. lia. Qed.
Lemma pos_be_range i : 0 <= pos_be i < 8.
Proof. pose proof (pos_le_range i). unfold pos_be, pos_le in *. lia. Qed.

(** Same byte and same position is the same bit. *)
Lemma pos_le_inj i j : Z.shiftr i 3 = Z.shiftr j 3 -> pos_le i = pos_le j -> i = j.
Proof. unfold pos_le. rewrite !shiftr3_div, !land7_mod. Z.to_euclidean_division_equations. lia. Qed.
Lemma pos_be_inj i j : Z.shiftr i 3 = Z.shiftr j 3 -> pos_be i = pos_be j -> i = j.
Proof. unfold pos_be. intros Hs Hp. apply pos_le_inj; unfold pos_le; [done|lia]. Qed.

Lemma testbit_u8 z i : 0 <= i -> Z.testbit (u8 z) i = (i <? 8) && Z.testbit z i.
Proof. intros. unfold u8. by rewrite testbit_mod_pow2 by lia. Qed.

Lemma testbit_s8 c i : 0 <= i < 8 -> Z.testbit (s8 c) i = Z.testbit c i.
Proof.
  intros Hi. rewrite <- (andb_true_l (Z.testbit (s8 c) i)), <- (andb_true_l (Z.testbit c i)).
  replace true with (i <? 8) by lia. rewrite <- !testbit_u8 by lia. f_equal.
  unfold s8, sgn, u8. destruct (Z.ltb_spec (c mod 2 ^ 8) (2 ^ (8 - 1))).
  - by rewrite Z.mod_mod by lia.
  - rewrite Zminus_mod, Z.mod_same, Z.sub_0_r, !Z.mod_mod by lia. done.
Qed.

(** The three ways the code combines a cell with the mask of position [k]. *)
Lemma mask_test c c' k :
  0 <= k < 8 -> Z.testbit c' k = Z.testbit c k ->
  negb (Z.land (Z.shiftl 1 k) c' =? 0) = Z.testbit c k.
Proof.
  intros Hk <-. rewrite land_pow2_testbit by lia. destruct (Z.testbit c' k); [|done].
  apply negb_true_iff, Z.eqb_neq, Z.pow_nonzero; lia.
Qed.

Lemma mask_set c c' k j :
  0 <= k < 8 -> 0 <= j < 8 -> (forall i, 0 <= i < 8 -> Z.testbit c' i = Z.testbit c i) ->
  Z.testbit (u8 (Z.lor c' (Z.shiftl 1 k))) j = (j =? k) || Z.testbit c j.
Proof.
  intros Hk Hj Hc. rewrite testbit_u8, Z.lor_spec, testbit_shiftl_1, Hc by lia.
  replace (j <? 8) with true by lia. by rewrite orb_comm.
Qed.

Lemma mask_clear c c' k j :
  0 <= k < 8 -> 0 <= j < 8 -> (forall i, 0 <= i < 8 -> Z.testbit c' i = Z.testbit c i) ->
  Z.testbit (u8 (Z.land c' (Z.lnot (Z.shiftl 1 k)))) j = negb (j =? k) && Z.testbit c j.
Proof.
  intros Hk Hj Hc. rewrite testbit_u8, Z.land_spec, Z.lnot_spec, testbit_shiftl_1, Hc by lia.
  replace (j <? 8) with true by lia. rewrite andb_true_l. apply andb_comm.
Qed.

(** * Replacing one byte of a bitmap *)

Section OneByte.
Context (pos : Z -> Z) (pos_range : forall i, 0 <= pos i < 8).
Context (pos_inj : forall i j, Z.shiftr i 3 = Z.shiftr j 3 -> pos i = pos j -> i = j).

Lemma bit_byte_index l nr : 0 <= nr < nbits l -> 0 <= Z.shiftr nr 3 < Z.of_nat (length l).
Proof. unfold nbits. rewrite shiftr3_div. Z.to_euclidean_division_equations. lia. Qed.

Lemma bit_at_rd l nr c : rd l (Z.shiftr nr 3) = Ok c -> bit_at pos l nr = Z.testbit c (pos nr).
Proof. intros [_ Hc]%rd_Ok. unfold bit_at. by rewrite Hc. Qed.

(** Writing a byte whose bits are those of the old one, but for the bit of
    [nr], changes bit [nr] of the bitmap only. *)
Lemma bit_at_update l nr c c' (v : bool -> bool) :
  0 <= nr < nbits l -> rd l (Z.shiftr nr 3) = Ok c ->
  (forall j, 0 <= j < 8 -> Z.testbit c' j =
     if j =? pos nr then v (Z.testbit c j) else Z.testbit c j) ->
  forall i, 0 <= i -> bit_at pos (<[Z.to_nat (Z.shiftr nr 3) := c']> l) i
    = if i =? nr then v (bit_at pos l i) else bit_at pos l i.
Proof.
  intros Hnr [Hs Hc]%rd_Ok Hbits i Hi. pose proof (bit_byte_index l nr Hnr) as Hidx.
  unfold bit_at. destruct (Z.eq_dec (Z.shiftr i 3) (Z.shiftr nr 3)) as [E|E].
  - rewrite E, list_lookup_insert_eq, Hc, Hbits by (lia || apply pos_range).
    destruct (Z.eqb_spec (pos i) (pos nr)) as [Ep|Ep], (Z.eqb_spec i nr) as [->|En]; try done.
    + by rewrite (pos_inj i nr) in En.
  - rewrite list_lookup_insert_ne; [by destruct (Z.eqb_spec i nr) as [->|]|].
    assert (0 <= Z.shiftr i 3) by (apply Z.shiftr_nonneg; lia). lia.
Qed.

Lemma bit_at_outside l i : nbits l <= i -> bit_at pos l i = false.
Proof.
  intros Hi. unfold bit_at. rewrite lookup_ge_None_2; [done|].
  unfold nbits in Hi. rewrite shiftr3_div.
  assert (Z.of_nat (length l) <= i / 8) by (apply Z.div_le_lower_bound; lia). lia.
Qed.
End OneByte.

Lemma bit_range_rd l nr : 0 <= nr < nbits l -> exists c, rd l (Z.shiftr nr 3) = Ok c.
Proof. intros. by apply rd_total, bit_byte_index. Qed.

Lemma mask_bit_le l nr c : rd l (Z.shiftr nr 3) = Ok c ->
  negb (Z.land (Z.shiftl 1 (Z.land nr 7)) c =? 0) = bit_le l nr.
Proof.
  intros Hc. unfold bit_le. rewrite (bit_at_rd pos_le l nr c Hc).
  by apply (mask_test c c (pos_le nr)); [apply pos_le_range|].
Qed.

Lemma mask_bit_be l nr c : rd l (Z.shiftr nr 3) = Ok c ->
  negb (Z.land (Z.shiftl 1 (7 - Z.land nr 7)) (s8 c) =? 0) = bit_be l nr.
Proof.
  intros Hc. unfold bit_be. rewrite (bit_at_rd pos_be l nr c Hc).
  by apply (mask_test c (s8 c) (pos_be nr)); [apply pos_be_range|apply testbit_s8, pos_be_range].
Qed.

#[export] Hint Resolve pos_le_range pos_be_range pos_le_inj pos_be_inj : f2fs.

(** Reads the byte of bit [nr], performs the write, and leaves the bit-level
    statement on the stored byte. *)
Ltac bitmap_op l nr Hnr c :=
  destruct (bit_range_rd l nr Hnr) as [c Hc];
  unfold mbind, res_bind; cbv zeta; rewrite Hc;
  try (rewrite wr_total by (apply bit_byte_index; done)).

Lemma le_bitmap_laws : Bitmap le_bitmap.
Proof.
  constructor; cbn [bm_bit bm_test bm_set bm_clear le_bitmap]; intros l nr.
  - intros Hl Hnr. unfold test_bit_le. bitmap_op l nr Hnr c. eexists. split; [done|].
    exact (mask_bit_le l nr c Hc).
  - intros Hl Hnr. unfold test_and_set_bit_le. bitmap_op l nr Hnr c. do 2 eexists. split; [done|].
    split; [exact (mask_bit_le l nr c Hc)|].
    rewrite length_insert. split; [done|]. split; [auto with f2fs|]. intros i Hi.
    unfold bit_le. rewrite (bit_at_update pos_le pos_le_range pos_le_inj l nr c _ (fun _ => true));
      [by destruct (i =? nr)|done|done| |done].
    intros j Hj. rewrite (mask_set c) by (done || apply pos_le_range).
    unfold pos_le. by destruct (j =? Z.land nr 7).
  - intros Hl Hnr. unfold test_and_clear_bit_le. bitmap_op l nr Hnr c. do 2 eexists. split; [done|].
    split; [exact (mask_bit_le l nr c Hc)|].
    rewrite length_insert. split; [done|]. split; [auto with f2fs|]. intros i Hi.
    unfold bit_le. rewrite (bit_at_update pos_le pos_le_range pos_le_inj l nr c _ (fun _ => false));
      [by destruct (i =? nr)|done|done| |done].
    intros j Hj. rewrite (mask_clear c) by (done || apply pos_le_range).
    unfold pos_le. by destruct (j =? Z.land nr 7).
  - apply bit_at_outside.
Qed.

Lemma be_bitmap_laws : Bitmap be_bitmap.
Proof.
  constructor; cbn [bm_bit bm_test bm_set bm_clear be_bitmap]; intros l nr.
  - intros Hl Hnr. unfold f2fs_test_bit. bitmap_op l nr Hnr c. eexists. split; [done|].
    rewrite <- (mask_bit_be l nr c Hc). by destruct (Z.land _ _ =? 0).
  - intros Hl Hnr. unfold f2fs_set_bit. bitmap_op l nr Hnr c. do 2 eexists. split; [done|].
    split; [exact (mask_bit_be l nr c Hc)|].
    rewrite length_insert. split; [done|]. split; [auto with f2fs|]. intros i Hi.
    unfold bit_be. rewrite (bit_at_update pos_be pos_be_range pos_be_inj l nr c _ (fun _ => true));
      [by destruct (i =? nr)|done|done| |done].
    intros j Hj. rewrite (mask_set c) by (done || apply pos_be_range || apply testbit_s8).
    unfold pos_be. by destruct (j =? _).
  - intros Hl Hnr. unfold f2fs_clear_bit. bitmap_op l nr Hnr c. do 2 eexists. split; [done|].
    split; [exact (mask_bit_be l nr c Hc)|].
    rewrite length_insert. split; [done|]. split; [auto with f2fs|]. intros i Hi.
    unfold bit_be. rewrite (bit_at_update pos_be pos_be_range pos_be_inj l nr c _ (fun _ => false));
      [by destruct (i =? nr)|done|done| |done].
    intros j Hj. rewrite (mask_clear c) by (done || apply pos_be_range || apply testbit_s8).
    unfold pos_be. by destruct (j =? _).
  - apply bit_at_outside.
Qed.

#[export] Instance le_bitmap_Bitmap : Bitmap le_bitmap := le_bitmap_laws.
#[export] Instance be_bitmap_Bitmap : Bitmap be_bitmap := be_bitmap_laws.

(** * The search for the next bit *)

(** [r] is the first bit number from [start] on that satisfies [P], or [n] when
    there is none below [n]. *)
Definition is_next (P : Z -> bool) (n start r : Z) : Prop :=
  if n <=? start then r = n
  else start <= r <= n /\ (r < n -> P r = true) /\ forall i, start <= i < r -> P i = false.

Lemma __ffs_check b :
  is_u8 b -> b <> 0 ->
  0 <= __ffs b < 8 /\ Z.testbit b (__ffs b) = true
  /\ forall j, 0 <= j < __ffs b -> Z.testbit b j = false.
Proof.
  intros Hb Hz.
  pose (chk := fun b => (b =? 0) || ((0 <=? __ffs b) && (__ffs b <? 8) && Z.testbit b (__ffs b)
    && forallb (fun j => negb (Z.testbit b j) || negb (j <? __ffs b)) [0;1;2;3;4;5;6;7])).
  assert (chk b = true) as H by (apply byte_cases; [by vm_compute|done]).
  subst chk. cbv beta in H. replace (b =? 0) with false in H by lia. cbn [orb] in H.
  apply andb_true_iff in H as [[[H1 H2]%andb_true_iff H3]%andb_true_iff H4].
  split; [lia|]. split; [done|]. intros j Hj. rewrite forallb_forall in H4.
  specialize (H4 j). destruct (Z.testbit b j); [|done].
  assert (In j [0;1;2;3;4;5;6;7]) as Hin by (cbn; lia). specialize (H4 Hin). lia.
Qed.

Lemma testbit_xor_invert c inv j :
  0 <= j < 8 -> inv = 0 \/ inv = 255 ->
  Z.testbit (u8 (Z.lxor c (s8 inv))) j = xorb (Z.testbit c j) (inv =? 255).
Proof.
  intros Hj Hinv. rewrite testbit_u8, Z.lxor_spec, testbit_s8 by lia.
  replace (j <? 8) with true by lia. rewrite andb_true_l. f_equal.
  destruct Hinv as [->| ->]; [by rewrite Z.bits_0|].
  change 255 with (Z.ones 8). by rewrite Z.ones_spec_low by lia.
Qed.

Lemma testbit_first_mask start j :
  0 <= j < 8 -> Z.testbit (BITMAP_FIRST_BYTE_MASK start) j = (start mod 8 <=? j).
Proof.
  intros Hj. unfold BITMAP_FIRST_BYTE_MASK. change (BITS_PER_BYTE - 1) with 7.
  rewrite land7_mod. pose proof (Z.mod_pos_bound start 8).
  rewrite Z.shiftl_spec by lia. change 255 with (Z.ones 8).
  destruct (Z.leb_spec (start mod 8) j).
  - by rewrite Z.ones_spec_low by lia.
  - by rewrite Z.testbit_neg_r by lia.
Qed.

Lemma round_down_8 x : round_down x BITS_PER_BYTE = 8 * (x / 8).
Proof.
  unfold round_down, BITS_PER_BYTE. change (8 - 1) with (Z.ones 3).
  rewrite <- Z.ldiff_land, Z.ldiff_ones_r by lia.
  rewrite Z.shiftr_div_pow2, Z.shiftl_mul_pow2 by lia. change (2 ^ 3) with 8. lia.
Qed.

Section FindNext.
Context (addr : list Z) (n inv : Z).
Context (Hinv : inv = 0 \/ inv = 255).
Context (Hn : 0 <= n <= nbits addr) (Hmax : n <= 2 ^ 64 - 8).

(** The bit the search looks for. *)
Let P (i : Z) : bool := xorb (bit_le addr i) (inv =? 255).

Lemma find_byte k c j :
  rd addr k = Ok c -> 0 <= j < 8 -> P (8 * k + j) = xorb (Z.testbit c j) (inv =? 255).
Proof.
  intros [Hk Hc]%rd_Ok Hj. unfold P, bit_le, bit_at, pos_le. rewrite shiftr3_div, land7_mod.
  replace ((8 * k + j) / 8) with k by (Z.to_euclidean_division_equations; lia).
  replace ((8 * k + j) mod 8) with j by (Z.to_euclidean_division_equations; lia).
  by rewrite Hc.
Qed.

(** [tmp] holds the candidate bits of byte [k]; those below [lo] are masked,
    and no candidate lies between [lo] and the byte. *)
Lemma find_loop_spec fuel k tmp lo :
  is_u8 tmp -> 0 <= k -> 8 * k < n -> lo < 8 * k + 8 -> 0 <= lo ->
  (Z.of_nat (length addr) - k < Z.of_nat fuel) ->
  (forall j, 0 <= j < 8 -> Z.testbit tmp j = (lo <=? 8 * k + j) && P (8 * k + j)) ->
  (forall i, lo <= i < 8 * k -> P i = false) ->
  lo < n ->
  exists r, _find_next_bit_le_loop fuel addr n (8 * k) inv tmp = Ok r /\ is_next P n lo r.
Proof.
  revert k tmp. induction fuel as [|fuel IH]; intros k tmp Ht Hk0 Hkn Hlo Hlo0 Hfuel Htmp Hbelow Hln;
    [unfold nbits in Hn; lia|].
  cbn [_find_next_bit_le_loop]. unfold is_next in *. replace (n <=? lo) with false in * by lia.
  destruct (Z.eqb_spec tmp 0) as [->|Hz].
  - unfold BITS_PER_BYTE. rewrite u64_id by (unfold is_u64; lia).
    assert (forall i, lo <= i < 8 * k + 8 -> P i = false) as Hbelow'.
    { intros i Hi. destruct (Z.lt_ge_cases i (8 * k)); [apply Hbelow; lia|].
      specialize (Htmp (i - 8 * k)). rewrite Z.bits_0 in Htmp.
      replace (8 * k + (i - 8 * k)) with i in Htmp by lia.
      replace (lo <=? i) with true in Htmp by lia. symmetry. apply Htmp. lia. }
    destruct (Z.leb_spec n (8 * k + 8)).
    + exists n. split; [done|]. split; [lia|]. split; [lia|]. intros i Hi. apply Hbelow'. lia.
    + replace (8 * k + 8) with (8 * (k + 1)) in * by lia.
      replace (8 * (k + 1) / 8) with (k + 1) by (rewrite Z.mul_comm, Z.div_mul; lia).
      destruct (rd_total addr (k + 1)) as [c Hc]; [unfold nbits in Hn; lia|].
      unfold mbind, res_bind. rewrite Hc.
      apply IH; try lia; [apply u8_range| |done].
      intros j Hj. rewrite testbit_xor_invert, (find_byte (k + 1) c) by done.
      by replace (lo <=? 8 * (k + 1) + j) with true by lia.
  - destruct (__ffs_check tmp Ht Hz) as (Hr & Hset & Hlow).
    rewrite u64_id by (unfold is_u64; lia).
    rewrite Htmp in Hset by lia. apply andb_true_iff in Hset as [Hge%Z.leb_le HP].
    eexists; split; [done|]. split; [lia|]. split.
    + intros Hlt. by replace (Z.min _ n) with (8 * k + __ffs tmp) by lia.
    + intros i Hi. destruct (Z.lt_ge_cases i (8 * k)); [apply Hbelow; lia|].
      specialize (Hlow (i - 8 * k)). rewrite Htmp in Hlow by lia.
      replace (8 * k + (i - 8 * k)) with i in Hlow by lia.
      replace (lo <=? i) with true in Hlow by lia. apply Hlow. lia.
Qed.

Lemma _find_next_bit_le_spec start :
  0 <= start -> exists r, _find_next_bit_le addr n start inv = Ok r /\ is_next P n start r.
Proof.
  intros Hs. unfold _find_next_bit_le.
  destruct (Z.eqb_spec n 0), (Z.leb_spec n start); cbn [orb];
    [|lia| |].
  1-2: exists n; split; [done|]; unfold is_next; by replace (n <=? start) with true by lia.
  - change (start / BITS_PER_BYTE) with (start / 8). destruct (rd_total addr (start / 8)) as [c Hc];
      [unfold nbits in Hn; Z.to_euclidean_division_equations; lia|].
    unfold mbind, res_bind. rewrite Hc. cbv zeta. rewrite round_down_8.
    assert (8 * (start / 8) <= start < 8 * (start / 8) + 8)
      by (Z.to_euclidean_division_equations; lia).
    apply find_loop_spec; try lia; [apply u8_range|].
    intros j Hj. rewrite testbit_u8, Z.land_spec, testbit_xor_invert, testbit_first_mask by lia.
    rewrite (find_byte (start / 8) c) by done. replace (j <? 8) with true by lia.
    rewrite andb_true_l, andb_comm. f_equal.
    apply eq_iff_eq_true. rewrite !Z.leb_le. Z.to_euclidean_division_equations. lia.
Qed.
End FindNext.

(** * Counting the bits of a bitmap *)

(** The sum over the bytes that the tools compute with [get_bits_in_byte]. *)
Definition popcount (l : list Z) : Z :=
  fold_right (fun c s => default 0 (bits_in_byte !! Z.to_nat c) + s) 0 l.

Definition count_le (b : bool) : Z := if b then 1 else 0.

Lemma bits_in_byte_count c :
  is_u8 c -> get_bits_in_byte c
    = Ok (fold_right (fun j s => count_le (Z.testbit c j) + s) 0 [0;1;2;3;4;5;6;7]).
Proof.
  intros Hc.
  pose (chk := fun c => match get_bits_in_byte c with
    | Ok v => v =? fold_right (fun j s => count_le (Z.testbit c j) + s) 0 [0;1;2;3;4;5;6;7]
    | _ => false end).
  assert (chk c = true) as H by (apply byte_cases; [by vm_compute|done]).
  subst chk. cbv beta in H. destruct (get_bits_in_byte c); try done. f_equal. lia.
Qed.

Lemma popcount_cons c l :
  popcount (c :: l) = default 0 (bits_in_byte !! Z.to_nat c) + popcount l.
Proof. done. Qed.

Lemma popcount_insert l i c c' :
  l !! i = Some c ->
  popcount (<[i := c']> l)
  = popcount l - default 0 (bits_in_byte !! Z.to_nat c) + default 0 (bits_in_byte !! Z.to_nat c').
Proof.
  revert i. induction l as [|x l IH]; intros [|i] Hi; try done.
  - injection Hi as ->. cbn. lia.
  - change (<[S i := c']> (x :: l)) with (x :: <[i := c']> l).
    rewrite !popcount_cons, (IH i Hi). lia.
Qed.

(** The effect of setting position [k] of a byte on its population count. *)
Lemma bits_in_byte_set c k :
  is_u8 c -> 0 <= k < 8 ->
  default 0 (bits_in_byte !! Z.to_nat (u8 (Z.lor (s8 c) (Z.shiftl 1 k))))
  = default 0 (bits_in_byte !! Z.to_nat c) + count_le (negb (Z.testbit c k)).
Proof.
  intros Hc Hk.
  pose (chk := fun c => forallb (fun k =>
    default 0 (bits_in_byte !! Z.to_nat (u8 (Z.lor (s8 c) (Z.shiftl 1 k))))
    =? default 0 (bits_in_byte !! Z.to_nat c) + count_le (negb (Z.testbit c k))) [0;1;2;3;4;5;6;7]).
  assert (chk c = true) as H by (apply byte_cases; [by vm_compute|done]).
  subst chk. cbv beta in H. rewrite forallb_forall in H. apply Z.eqb_eq, H. cbn. lia.
Qed.

Lemma bits_in_byte_clear c k :
  is_u8 c -> 0 <= k < 8 ->
  default 0 (bits_in_byte !! Z.to_nat (u8 (Z.land (s8 c) (Z.lnot (Z.shiftl 1 k)))))
  = default 0 (bits_in_byte !! Z.to_nat c) - count_le (Z.testbit c k).
Proof.
  intros Hc Hk.
  pose (chk := fun c => forallb (fun k =>
    default 0 (bits_in_byte !! Z.to_nat (u8 (Z.land (s8 c) (Z.lnot (Z.shiftl 1 k)))))
    =? default 0 (bits_in_byte !! Z.to_nat c) - count_le (Z.testbit c k)) [0;1;2;3;4;5;6;7]).
  assert (chk c = true) as H by (apply byte_cases; [by vm_compute|done]).
  subst chk. cbv beta in H. rewrite forallb_forall in H. apply Z.eqb_eq, H. cbn. lia.
Qed.

Lemma f2fs_set_bit_popcount nr l v l' :
  bytes l -> 0 <= nr < nbits l -> f2fs_set_bit nr l = Ok (v, l') ->
  popcount l' = popcount l + count_le (negb (bit_be l nr)).
Proof.
  intros Hl Hnr. unfold f2fs_set_bit. bitmap_op l nr Hnr c. intros [= _ <-].
  pose proof (bytes_rd _ _ _ Hl Hc). unfold bit_be. rewrite (bit_at_rd pos_be l nr c Hc).
  apply rd_Ok in Hc as [_ Hc]. rewrite (popcount_insert _ _ _ _ Hc).
  change (7 - Z.land nr 7) with (pos_be nr).
  rewrite (bits_in_byte_set c (pos_be nr)) by (done || apply pos_be_range). lia.
Qed.

Lemma f2fs_clear_bit_popcount nr l v l' :
  bytes l -> 0 <= nr < nbits l -> f2fs_clear_bit nr l = Ok (v, l') ->
  popcount l' = popcount l - count_le (bit_be l nr).
Proof.
  intros Hl Hnr. unfold f2fs_clear_bit. bitmap_op l nr Hnr c. intros [= _ <-].
  pose proof (bytes_rd _ _ _ Hl Hc). unfold bit_be. rewrite (bit_at_rd pos_be l nr c Hc).
  apply rd_Ok in Hc as [_ Hc]. rewrite (popcount_insert _ _ _ _ Hc).
  change (7 - Z.land nr 7) with (pos_be nr).
  rewrite (bits_in_byte_clear c (pos_be nr)) by (done || apply pos_be_range). lia.
Qed.

(** * Powers of two *)

Lemma land_pred_pow2 num :
  0 < num -> Z.land num (num - 1) = 0 <-> num = 2 ^ Z.log2 num.
Proof.
  intros Hp. destruct (Z.log2_spec num Hp) as [Hlo Hhi].
  set (k := Z.log2 num) in *. assert (0 <= k) by apply Z.log2_nonneg.
  rewrite Z.pow_succ_r in Hhi by lia. split; intros Hz.
  - destruct (Z.eq_dec num (2 ^ k)) as [|Hne]; [done|]. exfalso.
    assert (Z.testbit (Z.land num (num - 1)) k = true) as Hb; [|by rewrite Hz, Z.bits_0 in Hb].
    rewrite Z.land_spec. apply andb_true_iff. split; [by apply Z.bit_log2|].
    replace k with (Z.log2 (num - 1)); [apply Z.bit_log2; lia|]. apply Z.log2_unique; [done|].
    rewrite Z.pow_succ_r by lia. lia.
  - rewrite Hz. bitwise i Hi. rewrite Z.land_spec, Z.bits_0.
    replace (2 ^ k - 1) with (Z.ones k) by (rewrite Z.ones_equiv; lia). destruct (Z.eq_dec i k) as [->|].
    + by rewrite Z.ones_spec_high, andb_false_r by lia.
    + by rewrite Z.pow2_bits_false by lia.
Qed.

Lemma log_base_2_loop_pow2 fuel k ret :
  0 <= k < Z.of_nat fuel -> log_base_2_loop fuel (2 ^ k) ret = Ok (ret + k).
Proof.
  revert k ret. induction fuel as [|fuel IH]; intros k ret Hk; [lia|].
  cbn [log_base_2_loop]. rewrite Z.shiftr_div_pow2 by lia.
  destruct (Z.eq_dec k 0) as [->|Hk0]; [by rewrite Z.add_0_r|].
  replace (2 ^ k) with (2 ^ (k - 1) * 2 ^ 1) by (rewrite <- Z.pow_add_r by lia; f_equal; lia).
  rewrite Z.div_mul by lia. pose proof (Z.pow_pos_nonneg 2 (k - 1)).
  replace (2 ^ (k - 1) =? 0) with false by lia. rewrite IH by lia. f_equal. lia.
Qed.

(** * Properties *)

(** [find_next_bit_le] and [find_next_zero_bit_le] terminate, stay inside the
    bitmap and return the first set (respectively clear) bit at or after
    [offset], or [size] when there is none below [size]. *)
Theorem find_next_bit_correct (addr : list Z) (size offset : Z) :
  0 <= size <= nbits addr -> size <= 2 ^ 64 - 8 -> 0 <= offset ->
  (exists r, find_next_bit_le addr size offset = Ok r
     /\ is_next (bit_le addr) size offset r)
  /\ (exists r, find_next_zero_bit_le addr size offset = Ok r
     /\ is_next (fun i => negb (bit_le addr i)) size offset r).
Proof.
  intros Hs Hm Ho. split.
  - destruct (_find_next_bit_le_spec addr size 0 (or_introl eq_refl) Hs Hm offset Ho)
      as (r & Hr & Hn). exists r. split; [done|]. unfold is_next in *.
    destruct (size <=? offset); [done|]. setoid_rewrite xorb_false_r in Hn. done.
  - destruct (_find_next_bit_le_spec addr size 255 (or_intror eq_refl) Hs Hm offset Ho)
      as (r & Hr & Hn). exists r. split; [done|]. unfold is_next in *.
    destruct (size <=? offset); [done|]. setoid_rewrite xorb_true_r in Hn. done.
Qed.

Lemma find_next_bit_correct_witness :
  find_next_bit_le [0; 16; 255] 24 3 = Ok 12 /\ find_next_zero_bit_le [255; 7] 16 1 = Ok 11
  /\ exists r, find_next_bit_le [0; 16; 255] 24 3 = Ok r
       /\ is_next (bit_le [0; 16; 255]) 24 3 r.
Proof.
  split; [reflexivity|]. split; [reflexivity|].
  apply (find_next_bit_correct [0; 16; 255] 24 3).
  - unfold nbits; cbn; lia.
  - lia.
  - lia.
Defined.

(** The [f2fs_*_bit] operations act on a bitmap as on a set of block (or
    node) numbers: [f2fs_set_bit] adds exactly bit [nr], [f2fs_clear_bit]
    removes exactly bit [nr], both report whether it was there, never touch
    memory outside of the bitmap, keep it a byte buffer, and move the population
    count used for [vblocks] accordingly. *)
Theorem f2fs_bit_ops_correct (l : list Z) (nr : Z) :
  bytes l -> 0 <= nr < nbits l ->
  f2fs_test_bit nr l = Ok (if bit_be l nr then 1 else 0)
  /\ (exists v l', f2fs_set_bit nr l = Ok (v, l') /\ negb (v =? 0) = bit_be l nr
       /\ length l' = length l /\ bytes l'
       /\ (forall i, 0 <= i -> bit_be l' i = (i =? nr) || bit_be l i)
       /\ popcount l' = popcount l + (if bit_be l nr then 0 else 1))
  /\ (exists v l', f2fs_clear_bit nr l = Ok (v, l') /\ negb (v =? 0) = bit_be l nr
       /\ length l' = length l /\ bytes l'
       /\ (forall i, 0 <= i -> bit_be l' i = negb (i =? nr) && bit_be l i)
       /\ popcount l' = popcount l - (if bit_be l nr then 1 else 0)).
Proof.
  intros Hl Hnr. split; [|split].
  - unfold f2fs_test_bit. bitmap_op l nr Hnr c.
    rewrite <- (mask_bit_be l nr c Hc). by destruct (Z.land _ _ =? 0).
  - destruct (bm_set_ok (ops := be_bitmap) l nr Hl Hnr) as (v & l' & E & Hv & Hlen & Hb & Hi).
    exists v, l'. rewrite (f2fs_set_bit_popcount nr l v l' Hl Hnr E).
    repeat split; try done. by destruct (bit_be l nr).
  - destruct (bm_clear_ok (ops := be_bitmap) l nr Hl Hnr) as (v & l' & E & Hv & Hlen & Hb & Hi).
    exists v, l'. rewrite (f2fs_clear_bit_popcount nr l v l' Hl Hnr E).
    repeat split; try done.
Qed.

Lemma f2fs_bit_ops_correct_witness :
  f2fs_set_bit 9 [1; 128] = Ok (0, [1; 192]) /\ f2fs_clear_bit 8 [1; 128] = Ok (128, [1; 0])
  /\ f2fs_test_bit 8 [1; 128] = Ok (if bit_be [1; 128] 8 then 1 else 0).
Proof.
  split; [reflexivity|]. split; [reflexivity|].
  apply (f2fs_bit_ops_correct [1; 128] 8).
  - repeat constructor; unfold is_u8; lia.
  - unfold nbits; cbn; lia.
Defined.

(** [log_base_2] returns the exponent of a power of two and [-1] for every
    other 32-bit value; the shift loop always ends. *)
Theorem log_base_2_correct (num : Z) :
  is_u32 num ->
  (exists k, 0 <= k < 32 /\ num = 2 ^ k /\ log_base_2 num = Ok k)
  \/ ((forall k, 0 <= k -> num <> 2 ^ k) /\ log_base_2 num = Ok (-1)).
Proof.
  unfold is_u32, log_base_2. intros Hn. destruct (Z.leb_spec num 0) as [Hz|Hz]; cbn [orb].
  - right. split; [|done]. intros k Hk. pose proof (Z.pow_pos_nonneg 2 k). lia.
  - rewrite u32_id by (unfold is_u32; lia). destruct (Z.eqb_spec (Z.land num (num - 1)) 0) as [Hl|Hl].
    + left. apply land_pred_pow2 in Hl; [|lia]. exists (Z.log2 num).
      assert (Z.log2 num < 32) by (apply Z.log2_lt_pow2; lia).
      pose proof (Z.log2_nonneg num). split; [lia|]. split; [done|]. cbn [negb].
      rewrite Hl at 1. by rewrite log_base_2_loop_pow2 by lia.
    + right. split; [|done]. intros k Hk ->. apply Hl, land_pred_pow2; [lia|].
      by rewrite Z.log2_pow2 by lia.
Qed.

Lemma log_base_2_correct_witness :
  log_base_2 512 = Ok 9 /\ log_base_2 768 = Ok (-1)
  /\ ((exists k, 0 <= k < 32 /\ 512 = 2 ^ k /\ log_base_2 512 = Ok k)
      \/ ((forall k, 0 <= k -> 512 <> 2 ^ k) /\ log_base_2 512 = Ok (-1))).
Proof.
  split; [reflexivity|]. split; [reflexivity|].
  apply (log_base_2_correct 512). unfold is_u32. lia.
Defined.
