(* ===== verification/Utf.v ===== *)
(** UTF conversion codes of lib/libf2fs.c: [utf8_to_utf16] (volume label and
    file names into the super block) and [utf16_to_utf8] (printing them), with
    the four helpers that decode and encode one character.

    [wchar_t] is the 32-bit [int] of the builds (glibc, and the [#define] of the
    Windows one). The buffers are C objects of their own length; [outsize] is
    only what the caller says it may hold, so a write past the object shows up
    as [Oob]. *)
From Stdlib Require Import ZArith Lia List Bool.
From stdpp Require Import base numbers list.
From S2P Require Import Prelude.

Definition EILSEQ : Z := 84.
Definition ENAMETOOLONG : Z := 36.

(** * The code *)

(** [Some (wc, n)]: character [wc], [n] bytes consumed; [None]: [NULL]. *)
Definition utf8_to_wchar (input : list Z) (insize : Z) : res (option (Z * Z)) :=
  i0 ← rd input 0;
  if (Z.land (s8 i0) 0x80 =? 0) && (1 <=? insize) then
    Ok (Some (s8 i0, 1))
  else if (Z.land (s8 i0) 0xe0 =? 0xc0) && (2 <=? insize) then
    i1 ← rd input 1;
    Ok (Some (Z.lor (Z.shiftl (Z.land (s8 i0) 0x1f) 6) (Z.land (s8 i1) 0x3f), 2))
  else if (Z.land (s8 i0) 0xf0 =? 0xe0) && (3 <=? insize) then
    i1 ← rd input 1; i2 ← rd input 2;
    Ok (Some (Z.lor (Z.lor (Z.shiftl (Z.land (s8 i0) 0x0f) 12)
                           (Z.shiftl (Z.land (s8 i1) 0x3f) 6))
                    (Z.land (s8 i2) 0x3f), 3))
  else if (Z.land (s8 i0) 0xf8 =? 0xf0) && (4 <=? insize) then
    i1 ← rd input 1; i2 ← rd input 2; i3 ← rd input 3;
    Ok (Some (Z.lor (Z.lor (Z.lor (Z.shiftl (Z.land (s8 i0) 0x07) 18)
                                  (Z.shiftl (Z.land (s8 i1) 0x3f) 12))
                           (Z.shiftl (Z.land (s8 i2) 0x3f) 6))
                    (Z.land (s8 i3) 0x3f), 4))
  else if (Z.land (s8 i0) 0xfc =? 0xf8) && (5 <=? insize) then
    i1 ← rd input 1; i2 ← rd input 2; i3 ← rd input 3; i4 ← rd input 4;
    Ok (Some (Z.lor (Z.lor (Z.lor (Z.lor (Z.shiftl (Z.land (s8 i0) 0x03) 24)
                                         (Z.shiftl (Z.land (s8 i1) 0x3f) 18))
                                  (Z.shiftl (Z.land (s8 i2) 0x3f) 12))
                           (Z.shiftl (Z.land (s8 i3) 0x3f) 6))
                    (Z.land (s8 i4) 0x3f), 5))
  else if (Z.land (s8 i0) 0xfe =? 0xfc) && (6 <=? insize) then
    i1 ← rd input 1; i2 ← rd input 2; i3 ← rd input 3; i4 ← rd input 4; i5 ← rd input 5;
    Ok (Some (Z.lor (Z.lor (Z.lor (Z.lor (Z.lor (Z.shiftl (Z.land (s8 i0) 0x01) 30)
                                                (Z.shiftl (Z.land (s8 i1) 0x3f) 24))
                                         (Z.shiftl (Z.land (s8 i2) 0x3f) 18))
                                  (Z.shiftl (Z.land (s8 i3) 0x3f) 12))
                           (Z.shiftl (Z.land (s8 i4) 0x3f) 6))
                    (Z.land (s8 i5) 0x3f), 6))
  else Ok None.

(** The units stored at [output], or [NULL]. *)
Definition wchar_to_utf16 (wc outsize : Z) : option (list Z) :=
  if wc <=? 0xffff then
    if outsize =? 0 then None else Some [u16 wc]
  else if outsize <? 2 then None
  else
    let wc := wc - 0x10000 in
    Some [u16 (Z.lor 0xd800 (Z.land (Z.shiftr wc 10) 0x3ff));
          u16 (Z.lor 0xdc00 (Z.land wc 0x3ff))].

Fixpoint utf8_to_utf16_loop (fuel : nat) (output input : list Z) (outsize insize inp outp : Z)
  : res (Z * list Z) :=
  match fuel with
  | O => NoFuel
  | S fuel =>
      more ← (if inp <? insize then (c ← rd input inp; Ok (negb (c =? 0))) else Ok false);
      if more : bool then
        r ← utf8_to_wchar (drop (Z.to_nat inp) input) (insize - inp);
        match r with
        | None => Ok (- EILSEQ, output)
        | Some (wc, n) =>
            match wchar_to_utf16 wc (outsize - outp) with
            | None => Ok (- ENAMETOOLONG, output)
            | Some units =>
                output' ← wr_list output outp units;
                utf8_to_utf16_loop fuel output' input outsize insize (inp + n)
                  (outp + Z.of_nat (length units))
            end
        end
      else
        output' ← wr output outp 0;
        Ok (0, output')
  end.

(** A character consumes at least one byte, so [insize + 1] rounds are enough. *)
Definition utf8_to_utf16 (output input : list Z) (outsize insize : Z) : res (Z * list Z) :=
  utf8_to_utf16_loop (S (Z.to_nat insize)) output input outsize insize 0 0.

Definition utf16_to_wchar (input : list Z) (insize : Z) : res (option (Z * Z)) :=
  i0 ← rd input 0;
  if Z.land i0 0xfc00 =? 0xd800 then
    if insize <? 2 then Ok None
    else
      i1 ← rd input 1;
      if negb (Z.land i1 0xfc00 =? 0xdc00) then Ok None
      else
        let wc := Z.shiftl (Z.land i0 0x3ff) 10 in
        let wc := Z.lor wc (Z.land i1 0x3ff) in
        let wc := wc + 0x10000 in
        Ok (Some (wc, 2))
  else Ok (Some (i0, 1)).

Definition wchar_to_utf8 (wc outsize : Z) : option (list Z) :=
  if wc <=? 0x7f then
    if outsize <? 1 then None else Some [u8 wc]
  else if wc <=? 0x7ff then
    if outsize <? 2 then None
    else Some [u8 (Z.lor 0xc0 (Z.shiftr wc 6)); u8 (Z.lor 0x80 (Z.land wc 0x3f))]
  else if wc <=? 0xffff then
    if outsize <? 3 then None
    else Some [u8 (Z.lor 0xe0 (Z.shiftr wc 12));
               u8 (Z.lor 0x80 (Z.land (Z.shiftr wc 6) 0x3f));
               u8 (Z.lor 0x80 (Z.land wc 0x3f))]
  else if wc <=? 0x1fffff then
    if outsize <? 4 then None
    else Some [u8 (Z.lor 0xf0 (Z.shiftr wc 18));
               u8 (Z.lor 0x80 (Z.land (Z.shiftr wc 12) 0x3f));
               u8 (Z.lor 0x80 (Z.land (Z.shiftr wc 6) 0x3f));
               u8 (Z.lor 0x80 (Z.land wc 0x3f))]
  else if wc <=? 0x3ffffff then
    if outsize <? 5 then None
    else Some [u8 (Z.lor 0xf8 (Z.shiftr wc 24));
               u8 (Z.lor 0x80 (Z.land (Z.shiftr wc 18) 0x3f));
               u8 (Z.lor 0x80 (Z.land (Z.shiftr wc 12) 0x3f));
               u8 (Z.lor 0x80 (Z.land (Z.shiftr wc 6) 0x3f));
               u8 (Z.lor 0x80 (Z.land wc 0x3f))]
  else if wc <=? 0x7fffffff then
    if outsize <? 6 then None
    else Some [u8 (Z.lor 0xfc (Z.shiftr wc 30));
               u8 (Z.lor 0x80 (Z.land (Z.shiftr wc 24) 0x3f));
               u8 (Z.lor 0x80 (Z.land (Z.shiftr wc 18) 0x3f));
               u8 (Z.lor 0x80 (Z.land (Z.shiftr wc 12) 0x3f));
               u8 (Z.lor 0x80 (Z.land (Z.shiftr wc 6) 0x3f));
               u8 (Z.lor 0x80 (Z.land wc 0x3f))]
  else None.

Fixpoint utf16_to_utf8_loop (fuel : nat) (output input : list Z) (outsize insize inp outp : Z)
  : res (Z * list Z) :=
  match fuel with
  | O => NoFuel
  | S fuel =>
      more ← (if inp <? insize then (c ← rd input inp; Ok (negb (c =? 0))) else Ok false);
      if more : bool then
        r ← utf16_to_wchar (drop (Z.to_nat inp) input) (insize - inp);
        match r with
        | None => Ok (- EILSEQ, output)
        | Some (wc, n) =>
            match wchar_to_utf8 wc (outsize - outp) with
            | None => Ok (- ENAMETOOLONG, output)
            | Some bs =>
                output' ← wr_list output outp bs;
                utf16_to_utf8_loop fuel output' input outsize insize (inp + n)
                  (outp + Z.of_nat (length bs))
            end
        end
      else
        output' ← wr output outp 0;
        Ok (0, output')
  end.

Definition utf16_to_utf8 (output input : list Z) (outsize insize : Z) : res (Z * list Z) :=
  utf16_to_utf8_loop (S (Z.to_nat insize)) output input outsize insize 0 0.

(** * One character *)

(** The encodings of one character, without the bound on the output. *)
Definition utf8_enc (wc : Z) : list Z := default [] (wchar_to_utf8 wc 6).
Definition utf16_enc (wc : Z) : list Z := default [] (wchar_to_utf16 wc 2).

(** The characters that UTF-16 can hold: Unicode scalar values other than NUL. *)
Definition scalar (wc : Z) : Prop :=
  0 < wc <= 0x10ffff /\ ~ 0xd800 <= wc <= 0xdfff.

(** What a lead byte with payload [a], and a continuation byte, decode to. *)
Definition lead_ok (lead test mask bound a : Z) : bool :=
  negb (a <? bound) ||
  ((Z.land (s8 (u8 (Z.lor lead a))) test =? lead)
   && (Z.land (s8 (u8 (Z.lor lead a))) mask =? a)).

Lemma lead_byte lead test mask bound a :
  forallb (lead_ok lead test mask bound) (map Z.of_nat (seq 0 256)) = true ->
  0 <= a < bound -> bound <= 256 ->
  Z.land (s8 (u8 (Z.lor lead a))) test = lead /\ Z.land (s8 (u8 (Z.lor lead a))) mask = a.
Proof.
  intros H Ha Hb. pose proof (byte_cases _ H a) as E. unfold lead_ok, is_u8 in E.
  replace (a <? bound) with true in E by lia. cbn [negb orb] in E.
  specialize (E ltac:(lia)). lia.
Qed.

Lemma cont_byte a : 0 <= a < 64 -> Z.land (s8 (u8 (Z.lor 0x80 a))) 0x3f = a.
Proof. intros Ha. apply (lead_byte 0x80 0xc0 0x3f 64 a); [by vm_compute|lia..]. Qed.

Lemma land_3f a : Z.land a 0x3f = a mod 64.
Proof. apply (land_ones_mod a 6). lia. Qed.

(** Reassembling six bits at a time. *)
Lemma join6 x n m :
  0 <= n -> m = n + 6 ->
  Z.lor (Z.shiftl (Z.shiftr x m) m) (Z.shiftl (Z.land (Z.shiftr x n) 0x3f) n)
  = Z.shiftl (Z.shiftr x n) n.
Proof.
  intros Hn ->. bitwise i Hi. rewrite Z.lor_spec.
  destruct (Z.ltb_spec i n); [by rewrite !Z.shiftl_spec_low by lia|].
  rewrite (Z.shiftl_spec (Z.land _ _)), (Z.shiftl_spec (Z.shiftr x n)), Z.land_spec,
    !(Z.shiftr_spec x n) by lia.
  change 0x3f with (Z.ones 6). destruct (Z.ltb_spec i (n + 6)).
  - rewrite Z.shiftl_spec_low by lia. rewrite Z.ones_spec_low by lia. by rewrite andb_true_r.
  - rewrite Z.shiftl_spec, Z.shiftr_spec, (Z.ones_spec_high 6) by lia.
    rewrite andb_false_r, orb_false_r. f_equal. lia.
Qed.

Lemma join6_0 x : Z.lor (Z.shiftl (Z.shiftr x 6) 6) (Z.land x 0x3f) = x.
Proof.
  pose proof (join6 x 0 6) as H. rewrite !Z.shiftr_0_r, !Z.shiftl_0_r in H. by apply H.
Qed.

Lemma shiftr_range x n k : 0 <= n -> 0 <= k -> 0 <= x < 2 ^ (n + k) -> 0 <= Z.shiftr x n < 2 ^ k.
Proof.
  intros Hn Hk Hx. rewrite Z.shiftr_div_pow2 by lia. rewrite Z.pow_add_r in Hx by lia.
  split; [apply Z.div_pos; [lia|apply Z.pow_pos_nonneg; lia]|].
  apply Z.div_lt_upper_bound; [apply Z.pow_pos_nonneg; lia|lia].
Qed.

(** The tests of [utf8_to_wchar] a lead byte of an [n]-byte sequence fails. *)
Lemma lead_not_shorter (b : Z) :
  is_u8 b ->
  let t1 := Z.land (s8 b) 0x80 =? 0 in
  let t2 := Z.land (s8 b) 0xe0 =? 0xc0 in
  let t3 := Z.land (s8 b) 0xf0 =? 0xe0 in
  let t4 := Z.land (s8 b) 0xf8 =? 0xf0 in
  let t5 := Z.land (s8 b) 0xfc =? 0xf8 in
  let t6 := Z.land (s8 b) 0xfe =? 0xfc in
  (if t2 then t1 else false) = false /\ (if t3 then t1 || t2 else false) = false
  /\ (if t4 then t1 || t2 || t3 else false) = false
  /\ (if t5 then t1 || t2 || t3 || t4 else false) = false
  /\ (if t6 then t1 || t2 || t3 || t4 || t5 else false) = false.
Proof.
  intros Hb. cbv zeta.
  pose (chk := fun b =>
    let t1 := Z.land (s8 b) 0x80 =? 0 in
    let t2 := Z.land (s8 b) 0xe0 =? 0xc0 in
    let t3 := Z.land (s8 b) 0xf0 =? 0xe0 in
    let t4 := Z.land (s8 b) 0xf8 =? 0xf0 in
    let t5 := Z.land (s8 b) 0xfc =? 0xf8 in
    let t6 := Z.land (s8 b) 0xfe =? 0xfc in
    negb (if t2 then t1 else false) && negb (if t3 then t1 || t2 else false)
    && negb (if t4 then t1 || t2 || t3 else false)
    && negb (if t5 then t1 || t2 || t3 || t4 else false)
    && negb (if t6 then t1 || t2 || t3 || t4 || t5 else false)).
  assert (chk b = true) as H by (apply byte_cases; [by vm_compute|done]).
  subst chk. cbv beta zeta in H. rewrite !andb_true_iff, !negb_true_iff in H. tauto.
Qed.

Lemma rd_cell {A} (l : list A) (k : nat) x : l !! k = Some x -> rd l (Z.of_nat k) = Ok x.
Proof. intros H. apply rd_Ok. rewrite Nat2Z.id. split; [lia|done]. Qed.

(** Reads the cells of an explicit prefix. *)
Ltac rd_cells :=
  repeat match goal with
  | |- context [rd ?l ?i] =>
      let k := eval vm_compute in (Z.to_nat i) in
      rewrite (rd_cell l k _ eq_refl : rd l i = _)
  end.

(** Runs [utf8_to_wchar] on an encoded character: the lead byte passes the test
    of its own length and fails the shorter ones. *)
Ltac decode_lead lead test mask bound a :=
  let H := fresh in let Ht := fresh "Ht" in let Hm := fresh "Hm" in
  pose proof (lead_not_shorter (u8 (Z.lor lead a)) (u8_range _)) as H;
  destruct (lead_byte lead test mask bound a) as [Ht Hm]; [by vm_compute|lia|lia|];
  cbv zeta in H; rewrite ?Ht, ?Z.eqb_refl in H;
  rewrite ?orb_false_iff in H; destruct_and? H;
  repeat match goal with E : (_ =? _) = false |- _ => rewrite E; clear E end;
  rewrite Ht, Z.eqb_refl, Hm, ?cont_byte by auto;
  cbn [andb]; match goal with |- context [?k <=? ?n] => replace (k <=? n) with true by lia end.

Lemma utf8_wchar_roundtrip wc rest n :
  0 <= wc <= 0x7fffffff -> Z.of_nat (length (utf8_enc wc)) <= n ->
  utf8_to_wchar (utf8_enc wc ++ rest) n = Ok (Some (wc, Z.of_nat (length (utf8_enc wc)))).
Proof.
  intros Hwc. unfold utf8_enc, wchar_to_utf8, utf8_to_wchar, mbind, res_bind.
  assert (forall s, 0 <= Z.land (Z.shiftr wc s) 0x3f < 64) as Hc
    by (intros; rewrite land_3f; apply Z.mod_pos_bound; lia).
  pose proof (Hc 0) as Hc0. rewrite Z.shiftr_0_r in Hc0.
  destruct (Z.leb_spec wc 0x7f); [|destruct (Z.leb_spec wc 0x7ff);
    [|destruct (Z.leb_spec wc 0xffff); [|destruct (Z.leb_spec wc 0x1fffff);
    [|destruct (Z.leb_spec wc 0x3ffffff); [|destruct (Z.leb_spec wc 0x7fffffff); [|lia]]]]]];
    cbn [default from_option id Z.ltb Z.compare Pos.compare Pos.compare_cont app length];
    intros Hn; rd_cells.
  - destruct (lead_byte 0 0x80 0x7f 128 wc) as [Ht Hm]; [by vm_compute|lia|lia|].
    rewrite Z.lor_0_l in *. rewrite Ht. cbn [Z.eqb andb]. replace (1 <=? n) with true by lia.
    do 3 f_equal. unfold s8, sgn, u8. rewrite !Z.mod_mod, Z.mod_small by lia.
    by replace (wc <? 2 ^ (8 - 1)) with true by lia.
  - pose proof (shiftr_range wc 6 5 ltac:(lia) ltac:(lia) ltac:(cbn; lia)). decode_lead 0xc0 0xe0 0x1f 32 (Z.shiftr wc 6).
    by rewrite join6_0.
  - pose proof (shiftr_range wc 12 4 ltac:(lia) ltac:(lia) ltac:(cbn; lia)). decode_lead 0xe0 0xf0 0x0f 16 (Z.shiftr wc 12).
    rewrite (join6 wc 6 12) by lia. by rewrite join6_0.
  - pose proof (shiftr_range wc 18 3 ltac:(lia) ltac:(lia) ltac:(cbn; lia)). decode_lead 0xf0 0xf8 0x07 8 (Z.shiftr wc 18).
    rewrite (join6 wc 12 18), (join6 wc 6 12) by lia. by rewrite join6_0.
  - pose proof (shiftr_range wc 24 2 ltac:(lia) ltac:(lia) ltac:(cbn; lia)). decode_lead 0xf8 0xfc 0x03 4 (Z.shiftr wc 24).
    rewrite (join6 wc 18 24), (join6 wc 12 18), (join6 wc 6 12) by lia. by rewrite join6_0.
  - pose proof (shiftr_range wc 30 1 ltac:(lia) ltac:(lia) ltac:(cbn; lia)). decode_lead 0xfc 0xfe 0x01 2 (Z.shiftr wc 30).
    rewrite (join6 wc 24 30), (join6 wc 18 24), (join6 wc 12 18), (join6 wc 6 12) by lia. by rewrite join6_0.
Qed.

Lemma land_3ff a : Z.land a 0x3ff = a mod 1024.
Proof. apply (land_ones_mod a 10). lia. Qed.

Lemma land_fc00 a : 0 <= a < 2 ^ 16 -> Z.land a 0xfc00 = 1024 * (a / 1024).
Proof.
  intros Ha. rewrite Z.mul_comm. change 1024 with (2 ^ 10).
  rewrite <- Z.shiftr_div_pow2, <- Z.shiftl_mul_pow2 by lia. bitwise i Hi.
  rewrite Z.land_spec. change 0xfc00 with (Z.shiftl (Z.ones 6) 10).
  destruct (Z.ltb_spec i 10).
  - by rewrite !(Z.shiftl_spec_low _ 10), andb_false_r by lia.
  - rewrite !(Z.shiftl_spec _ 10), Z.shiftr_spec by lia.
    replace (i - 10 + 10) with i by lia. destruct (Z.ltb_spec i 16).
    + by rewrite Z.ones_spec_low, andb_true_r by lia.
    + by rewrite (testbit_high a 16) by lia.
Qed.

(** The two halves of a surrogate pair. *)
Lemma surrogate base h :
  base = 0xd800 \/ base = 0xdc00 -> 0 <= h < 1024 ->
  u16 (Z.lor base h) = base + h /\ Z.land (base + h) 0xfc00 = base /\ Z.land (base + h) 0x3ff = h.
Proof.
  intros Hb Hh. assert (Z.lor base h = base + h) as ->.
  { destruct Hb as [->| ->];
      [change 0xd800 with (Z.shiftl 54 10)|change 0xdc00 with (Z.shiftl 55 10)];
      apply lor_shiftl_add; lia. }
  rewrite u16_id by (unfold is_u16; lia). split; [done|].
  rewrite land_fc00, land_3ff by lia. Z.to_euclidean_division_equations. lia.
Qed.

Lemma utf16_wchar_roundtrip wc rest n :
  scalar wc -> Z.of_nat (length (utf16_enc wc)) <= n ->
  utf16_to_wchar (utf16_enc wc ++ rest) n = Ok (Some (wc, Z.of_nat (length (utf16_enc wc)))).
Proof.
  unfold scalar, utf16_enc, wchar_to_utf16. intros [Hwc Hs].
  destruct (Z.leb_spec wc 0xffff); cbn [Z.eqb Z.ltb Z.compare Pos.compare Pos.compare_cont default from_option id app length];
    intros Hn; unfold utf16_to_wchar; rd_cells; unfold mbind, res_bind.
  - rewrite u16_id by (unfold is_u16; lia). rewrite land_fc00 by lia.
    destruct (Z.eqb_spec (1024 * (wc / 1024)) 0xd800) as [E|]; [|done].
    Z.to_euclidean_division_equations. lia.
  - set (x := wc - 0x10000).
    assert (Z.land (Z.shiftr x 10) 0x3ff = x / 1024) as ->.
    { rewrite land_3ff, Z.shiftr_div_pow2 by lia. apply Z.mod_small. subst x. split;
        [apply Z.div_pos; lia|apply Z.div_lt_upper_bound; lia]. }
    rewrite land_3ff.
    destruct (surrogate 0xd800 (x / 1024)) as (-> & -> & ->);
      [by left|subst x; Z.to_euclidean_division_equations; lia|].
    destruct (surrogate 0xdc00 (x mod 1024)) as (-> & -> & ->);
      [by right|apply Z.mod_pos_bound; lia|].
    cbn [Z.eqb Pos.eqb negb]. replace (n <? 2) with false by lia.
    do 3 f_equal. rewrite lor_shiftl_add; [|lia|apply (Z.mod_pos_bound x 1024); lia].
    rewrite Z.shiftl_mul_pow2 by lia. change (2 ^ 10) with 1024.
    pose proof (Z.div_mod x 1024). lia.
Qed.

Lemma utf16_enc_bound wc m :
  Z.of_nat (length (utf16_enc wc)) <= m -> wchar_to_utf16 wc m = Some (utf16_enc wc).
Proof.
  unfold utf16_enc, wchar_to_utf16. destruct (wc <=? 0xffff);
    cbn [Z.eqb Z.ltb Z.compare Pos.compare Pos.compare_cont default from_option id length]; intros Hm.
  - by replace (m =? 0) with false by lia.
  - by replace (m <? 2) with false by lia.
Qed.

Lemma utf8_enc_bound wc m :
  wc <= 0x7fffffff -> Z.of_nat (length (utf8_enc wc)) <= m -> wchar_to_utf8 wc m = Some (utf8_enc wc).
Proof.
  unfold utf8_enc, wchar_to_utf8. intros Hw.
  destruct (wc <=? 0x7f), (wc <=? 0x7ff), (wc <=? 0xffff), (wc <=? 0x1fffff), (wc <=? 0x3ffffff),
    (Z.leb_spec wc 0x7fffffff); try lia;
    cbn [Z.ltb Z.compare Pos.compare Pos.compare_cont default from_option id length]; intros Hm;
    match goal with |- context [m <? ?k] => by replace (m <? k) with false by lia end.
Qed.

(** An encoded character is not empty and does not start with a NUL. *)
Lemma utf8_enc_head wc : 0 < wc <= 0x7fffffff -> exists x l, utf8_enc wc = x :: l /\ x <> 0.
Proof.
  intros Hw.
  assert (forall lead a, 0x80 <= lead < 256 -> 0 <= a < 256 -> u8 (Z.lor lead a) <> 0) as Hl.
  { intros lead a Hl Ha. rewrite u8_id by (apply (lor_range _ _ 8); lia).
    intros [-> _]%Z.lor_eq_0_iff. lia. }
  assert (forall s, 0 <= Z.shiftr wc s) as Hp by (intros; apply Z.shiftr_nonneg; lia).
  assert (forall s k, 0 <= s -> 0 <= k -> wc < 2 ^ (s + k) -> Z.shiftr wc s < 2 ^ k) as Hlt
    by (intros s k ???; apply (shiftr_range wc s k); lia).
  unfold utf8_enc, wchar_to_utf8.
  destruct (Z.leb_spec wc 0x7f); [|destruct (Z.leb_spec wc 0x7ff);
    [|destruct (Z.leb_spec wc 0xffff); [|destruct (Z.leb_spec wc 0x1fffff);
    [|destruct (Z.leb_spec wc 0x3ffffff); [|destruct (Z.leb_spec wc 0x7fffffff); [|lia]]]]]];
    cbn [default from_option id Z.ltb Z.compare Pos.compare Pos.compare_cont]; do 2 eexists;
    (split; [reflexivity|]).
  - rewrite u8_id by (unfold is_u8; lia). lia.
  - apply Hl; [lia|]. pose proof (Hp 6). pose proof (Hlt 6 5). lia.
  - apply Hl; [lia|]. pose proof (Hp 12). pose proof (Hlt 12 4). lia.
  - apply Hl; [lia|]. pose proof (Hp 18). pose proof (Hlt 18 3). lia.
  - apply Hl; [lia|]. pose proof (Hp 24). pose proof (Hlt 24 2). lia.
  - apply Hl; [lia|]. pose proof (Hp 30). pose proof (Hlt 30 1). lia.
Qed.

Lemma utf16_enc_head wc : scalar wc -> exists x l, utf16_enc wc = x :: l /\ x <> 0.
Proof.
  intros [Hw _]. unfold utf16_enc, wchar_to_utf16. destruct (Z.leb_spec wc 0xffff);
    cbn [default from_option id Z.ltb Z.eqb Z.compare Pos.compare Pos.compare_cont]; do 2 eexists; (split; [reflexivity|]).
  - rewrite u16_id by (unfold is_u16; lia). lia.
  - rewrite land_3ff. pose proof (Z.mod_pos_bound (Z.shiftr (wc - 0x10000) 10) 1024).
    destruct (surrogate 0xd800 (Z.shiftr (wc - 0x10000) 10 mod 1024)) as (-> & _); [by left|lia|lia].
Qed.

(** * The conversion loops

    Both loops have one shape: decode a character of the input, encode it into
    the output, until the input is used up or a NUL is met. *)
Section Conversion.
Context (dec : list Z -> Z -> res (option (Z * Z))) (enc : Z -> Z -> option (list Z)).
Context (loop : nat -> list Z -> list Z -> Z -> Z -> Z -> Z -> res (Z * list Z)).
Context (loop_S : forall fuel output input outsize insize inp outp,
  loop (S fuel) output input outsize insize inp outp =
    (more ← (if inp <? insize then (c ← rd input inp; Ok (negb (c =? 0))) else Ok false);
     if more : bool then
       r ← dec (drop (Z.to_nat inp) input) (insize - inp);
       match r with
       | None => Ok (- EILSEQ, output)
       | Some (wc, n) =>
           match enc wc (outsize - outp) with
           | None => Ok (- ENAMETOOLONG, output)
           | Some us => output' ← wr_list output outp us;
                        loop fuel output' input outsize insize (inp + n)
                          (outp + Z.of_nat (length us))
           end
       end
     else output' ← wr output outp 0; Ok (0, output'))).
Context (ok : Z -> Prop) (e_in e_out : Z -> list Z).
Context (dec_ok : forall wc rest n, ok wc -> Z.of_nat (length (e_in wc)) <= n ->
  dec (e_in wc ++ rest) n = Ok (Some (wc, Z.of_nat (length (e_in wc))))).
Context (enc_ok : forall wc m, ok wc -> Z.of_nat (length (e_out wc)) <= m ->
  enc wc m = Some (e_out wc)).
Context (in_head : forall wc, ok wc -> exists x l, e_in wc = x :: l /\ x <> 0).

(** The input ends where the text does, by its size or by a NUL. *)
Definition text_ends (insize : Z) (text rest : list Z) : Prop :=
  insize = Z.of_nat (length text)
  \/ (Z.of_nat (length text) < insize /\ exists r, rest = 0 :: r).

(** The characters are copied, then the terminator is stored behind them. *)
Lemma conversion_run cps : forall fuel ipre rest outsize insize opre mid post,
  Forall ok cps ->
  text_ends insize (ipre ++ flat_map e_in cps) rest ->
  length mid = length (flat_map e_out cps) ->
  Z.of_nat (length opre + length mid) <= outsize ->
  (length (flat_map e_in cps) < fuel)%nat ->
  loop fuel (opre ++ mid ++ post) (ipre ++ flat_map e_in cps ++ rest) outsize insize
    (Z.of_nat (length ipre)) (Z.of_nat (length opre))
  = (o ← wr (opre ++ flat_map e_out cps ++ post)
           (Z.of_nat (length (opre ++ flat_map e_out cps))) 0; Ok (0, o)).
Proof.
  induction cps as [|wc cps IH]; intros fuel ipre rest outsize insize opre mid post
    Hok Hend Hmid Hout Hfuel; (destruct fuel as [|fuel]; [lia|]); rewrite loop_S.
  - cbn [flat_map app] in *. destruct mid; [|done]. rewrite !app_nil_r in *. cbn [app].
    assert ((if Z.of_nat (length ipre) <? insize
      then (c ← rd (ipre ++ rest) (Z.of_nat (length ipre)); Ok (negb (c =? 0))) else Ok false)
      = Ok false) as ->; [|done].
    destruct Hend as [->|(Hlt & r & ->)]; [by rewrite Z.ltb_irrefl|].
    replace (_ <? insize) with true by lia. by rewrite rd_app_r, Z.sub_diag by lia.
  - apply Forall_cons in Hok as [Hwc Hok]. cbn [flat_map] in *.
    destruct (in_head wc Hwc) as (x & l & Hx & Hx0).
    rewrite <- (app_assoc (e_in wc)).
    assert (Z.of_nat (length ipre + length (e_in wc)) <= insize) as Hin.
    { destruct Hend as [->|[? _]]; rewrite !length_app in *; lia. }
    replace (Z.of_nat (length ipre) <? insize) with true by (rewrite Hx in Hin; cbn in Hin; lia).
    rewrite rd_app_r, Z.sub_diag by lia. rewrite Hx at 1.
    replace (rd ((x :: l) ++ flat_map e_in cps ++ rest) 0) with (Ok x) by done.
    unfold mbind, res_bind. replace (x =? 0) with false by lia. cbn [negb].
    rewrite Nat2Z.id, drop_app_length, dec_ok by (done || lia).
    rewrite length_app in Hmid, Hfuel.
    rewrite enc_ok by (done || lia).
    destruct (app_eq_inv_length mid (length (e_out wc))) as (m1 & m2 & -> & Hm1); [lia|].
    rewrite length_app in Hmid, Hout. rewrite <- (app_assoc m1), wr_list_app by (done || lia).
    rewrite <- !Nat2Z.inj_add, <- !length_app.
    rewrite (app_assoc opre), (app_assoc ipre).
    rewrite IH; [by rewrite <- !app_assoc|done|by rewrite <- app_assoc|lia|rewrite length_app; lia|].
    rewrite Hx in Hfuel. cbn in Hfuel. lia.
Qed.
End Conversion.

Lemma utf8_to_utf16_run cps mid post rest outsize insize :
  Forall scalar cps ->
  text_ends insize (flat_map utf8_enc cps) rest ->
  length mid = length (flat_map utf16_enc cps) -> Z.of_nat (length mid) <= outsize ->
  utf8_to_utf16 (mid ++ post) (flat_map utf8_enc cps ++ rest) outsize insize
  = (o ← wr (flat_map utf16_enc cps ++ post) (Z.of_nat (length (flat_map utf16_enc cps))) 0;
     Ok (0, o)).
Proof.
  intros Hok Hend Hmid Hout. unfold utf8_to_utf16.
  apply (conversion_run utf8_to_wchar wchar_to_utf16 utf8_to_utf16_loop ltac:(reflexivity)
           scalar utf8_enc utf16_enc) with (ipre := []) (opre := []); try done.
  - intros wc r n [Hw _]. apply utf8_wchar_roundtrip. lia.
  - intros wc m _. apply utf16_enc_bound.
  - intros wc [Hw _]. apply utf8_enc_head. lia.
  - destruct Hend as [->|[? _]]; lia.
Qed.

Lemma utf16_to_utf8_run cps mid post rest outsize insize :
  Forall scalar cps ->
  text_ends insize (flat_map utf16_enc cps) rest ->
  length mid = length (flat_map utf8_enc cps) -> Z.of_nat (length mid) <= outsize ->
  utf16_to_utf8 (mid ++ post) (flat_map utf16_enc cps ++ rest) outsize insize
  = (o ← wr (flat_map utf8_enc cps ++ post) (Z.of_nat (length (flat_map utf8_enc cps))) 0;
     Ok (0, o)).
Proof.
  intros Hok Hend Hmid Hout. unfold utf16_to_utf8.
  apply (conversion_run utf16_to_wchar wchar_to_utf8 utf16_to_utf8_loop ltac:(reflexivity)
           scalar utf16_enc utf8_enc) with (ipre := []) (opre := []); try done.
  - apply utf16_wchar_roundtrip.
  - intros wc m [Hw _]. apply utf8_enc_bound. lia.
  - apply utf16_enc_head.
  - destruct Hend as [->|[? _]]; lia.
Qed.

(** * Properties *)

(** UTF-8 decoding inverts UTF-8 encoding of one character over the whole
    31-bit range of the code, whatever follows in the input. *)
Theorem utf8_char_roundtrip (wc insize : Z) (bs rest : list Z) :
  0 <= wc <= 0x7fffffff -> wchar_to_utf8 wc 6 = Some bs -> Z.of_nat (length bs) <= insize ->
  utf8_to_wchar (bs ++ rest) insize = Ok (Some (wc, Z.of_nat (length bs))).
Proof.
  intros Hwc Hbs. pose proof (utf8_wchar_roundtrip wc rest insize Hwc) as H.
  unfold utf8_enc in H. rewrite Hbs in H. done.
Qed.

Lemma utf8_char_roundtrip_witness :
  wchar_to_utf8 0x20ac 6 = Some [0xe2; 0x82; 0xac]
  /\ utf8_to_wchar ([0xe2; 0x82; 0xac] ++ [0x41]) 4 = Ok (Some (0x20ac, 3)).
Proof.
  split; [reflexivity|]. apply (utf8_char_roundtrip 0x20ac 4 [0xe2; 0x82; 0xac] [0x41]);
    [lia|reflexivity|cbn; lia].
Defined.

(** C35: A label of Unicode scalar values survives the trip to the UTF-16 of the
    super block and back: [utf8_to_utf16] writes the UTF-16 units and a NUL,
    [utf16_to_utf8] on these gives the original bytes and a NUL, and neither
    touches the rest of its buffer. Both buffers need one cell more than the
    text. *)
Theorem utf_roundtrip (cps : list Z) (junk16 junk8 post16 post8 : list Z) (y16 y8 : Z) :
  Forall scalar cps ->
  length junk16 = length (flat_map utf16_enc cps) ->
  length junk8 = length (flat_map utf8_enc cps) ->
  let text8 := flat_map utf8_enc cps in
  let text16 := flat_map utf16_enc cps in
  utf8_to_utf16 (junk16 ++ y16 :: post16) text8
    (Z.of_nat (length text16)) (Z.of_nat (length text8)) = Ok (0, text16 ++ 0 :: post16)
  /\ utf16_to_utf8 (junk8 ++ y8 :: post8) (text16 ++ 0 :: post16)
       (Z.of_nat (length text8)) (Z.of_nat (length text16) + 1) = Ok (0, text8 ++ 0 :: post8).
Proof.
  intros Hok H16 H8. cbv zeta. split.
  - rewrite <- (app_nil_r (flat_map utf8_enc cps)) at 1.
    rewrite (utf8_to_utf16_run cps) by (done || lia || by left).
    unfold mbind, res_bind. by rewrite wr_app.
  - rewrite (utf16_to_utf8_run cps) by (done || lia || (right; split; [lia|by eexists])).
    unfold mbind, res_bind. by rewrite wr_app.
Qed.

Lemma utf_roundtrip_witness :
  utf8_to_utf16 [7; 7; 7; 7] [0x41; 0xf0; 0x9f; 0x98; 0x80] 3 5
    = Ok (0, [0x41; 0xd83d; 0xde00; 0])
  /\ utf8_to_utf16 ([7; 7; 7] ++ 7 :: []) (flat_map utf8_enc [0x41; 0x1f600])
       (Z.of_nat (length (flat_map utf16_enc [0x41; 0x1f600])))
       (Z.of_nat (length (flat_map utf8_enc [0x41; 0x1f600])))
     = Ok (0, flat_map utf16_enc [0x41; 0x1f600] ++ 0 :: []).
Proof.
  split; [reflexivity|].
  apply (utf_roundtrip [0x41; 0x1f600] [7; 7; 7] [7; 7; 7; 7; 7] [] [] 7 7);
    [|reflexivity|reflexivity].
  repeat constructor; unfold scalar; lia.
Defined.

(** The bound [outsize] leaves no room for the terminator: converting a text
    of exactly [outsize] units into an object of [outsize] cells writes the NUL
    one cell past its end. *)
Theorem utf8_to_utf16_terminator_overflow (cps output : list Z) :
  Forall scalar cps ->
  length output = length (flat_map utf16_enc cps) ->
  utf8_to_utf16 output (flat_map utf8_enc cps)
    (Z.of_nat (length output)) (Z.of_nat (length (flat_map utf8_enc cps))) = Oob.
Proof.
  intros Hok Hlen. rewrite <- (app_nil_r output), <- (app_nil_r (flat_map utf8_enc cps)) at 1.
  rewrite (utf8_to_utf16_run cps) by (done || lia || by left).
  unfold mbind, res_bind. rewrite app_nil_r.
  unfold wr. by rewrite Z.leb_refl, orb_true_r.
Qed.

Lemma utf8_to_utf16_terminator_overflow_witness :
  utf8_to_utf16 [0; 0] (flat_map utf8_enc [0x41; 0x42]) 2 2 = Oob.
Proof.
  apply (utf8_to_utf16_terminator_overflow [0x41; 0x42] [0; 0]); [|reflexivity].
  repeat constructor; unfold scalar; lia.
Defined.
