(* ===== verification/Crc.v ===== *)
(** Checksums: [f2fs_cal_crc32] and its users in lib/libf2fs.c
    ([f2fs_crc_valid], [f2fs_inode_chksum], [f2fs_checkpoint_chksum]) and the
    verifiers of fsck/mount.c ([verify_sb_chksum], [verify_checksum_chksum]).

    The on-disk structures are the bytes of their block; a field is read at its
    offset in the packed structure of include/f2fs_fs.h. *)
From Stdlib Require Import ZArith Lia List Bool.
From stdpp Require Import base numbers list.
From S2P Require Import Prelude.

Definition CRCPOLY_LE : Z := 0xedb88320.
Definition F2FS_SUPER_MAGIC : Z := 0xF2F52010.
Definition CP_CHKSUM_OFFSET : Z := 4092.
Definition SB_CHKSUM_OFFSET : Z := 3068.
(** [offsetof(struct f2fs_checkpoint, sit_nat_version_bitmap)] *)
Definition CP_MIN_CHKSUM_OFFSET : Z := 192.

(** * The code *)

(** One round of the inner loop. *)
Definition crc32_bit (crc : Z) : Z :=
  Z.lxor (Z.shiftr crc 1) (if Z.land crc 1 =? 0 then 0 else CRCPOLY_LE).

Fixpoint crc32_bits (i : nat) (crc : Z) : Z :=
  match i with O => crc | S i => crc32_bits i (crc32_bit crc) end.

(** The body of the outer loop. *)
Definition crc_byte (crc b : Z) : Z := crc32_bits 8 (Z.lxor crc b).

Fixpoint f2fs_cal_crc32_loop (len : nat) (crc : Z) (buf : list Z) (p : Z) : res Z :=
  match len with
  | O => Ok crc
  | S len =>
      b ← rd buf p;
      f2fs_cal_crc32_loop len (crc_byte crc b) buf (p + 1)
  end.

(** [p] is where [buf] points into the object; [while (len--)] with a negative
    [len] runs off its end. *)
Definition f2fs_cal_crc32 (crc : Z) (buf : list Z) (p len : Z) : res Z :=
  if len <? 0 then Oob else f2fs_cal_crc32_loop (Z.to_nat len) crc buf p.

Definition f2fs_crc_valid (blk_crc : Z) (buf : list Z) (len : Z) : res Z :=
  cal_crc ← f2fs_cal_crc32 F2FS_SUPER_MAGIC buf 0 len;
  Ok (if cal_crc =? blk_crc then 0 else -1).

(** Offsets of [struct f2fs_node]: [footer.ino], [i.i_generation] and
    [i.i_inode_checksum]. *)
Definition ofs_footer_ino : Z := 4076.
Definition ofs_i_generation : Z := 68.
Definition ofs_i_inode_checksum : Z := 368.

Definition f2fs_inode_chksum (chksum_seed : Z) (node : list Z) : res Z :=
  let offset := ofs_i_inode_checksum in
  let cs_size := 4 in
  let dummy_cs := le_bytes 4 0 in
  chksum ← f2fs_cal_crc32 chksum_seed node ofs_footer_ino 4;
  seed ← f2fs_cal_crc32 chksum node ofs_i_generation 4;
  chksum ← f2fs_cal_crc32 seed node 0 offset;
  chksum ← f2fs_cal_crc32 chksum dummy_cs 0 cs_size;
  f2fs_cal_crc32 chksum node (offset + cs_size) (F2FS_BLKSIZE - (offset + cs_size)).

(** Offset of [checksum_offset] in [struct f2fs_checkpoint]. *)
Definition ofs_cp_checksum_offset : Z := 164.

Definition f2fs_checkpoint_chksum (cp : list Z) : res Z :=
  chksum_ofs ← get_le32 cp ofs_cp_checksum_offset;
  chksum ← f2fs_cal_crc32 F2FS_SUPER_MAGIC cp 0 (s32 chksum_ofs);
  if chksum_ofs <? CP_CHKSUM_OFFSET then
    let chksum_ofs := u32 (chksum_ofs + 4) in
    f2fs_cal_crc32 chksum cp chksum_ofs (F2FS_BLKSIZE - chksum_ofs)
  else Ok chksum.

(** [0] when the check passes, [-1] otherwise. *)
Definition verify_checksum_chksum (cp : list Z) : res Z :=
  chksum_offset ← get_le32 cp ofs_cp_checksum_offset;
  if (chksum_offset <? CP_MIN_CHKSUM_OFFSET) || (CP_CHKSUM_OFFSET <? chksum_offset) then Ok (-1)
  else
    crc ← get_le32 cp chksum_offset;
    cal_crc ← f2fs_checkpoint_chksum cp;
    Ok (if cal_crc =? crc then 0 else -1).

(** Offsets of [checksum_offset] and [crc] in [struct f2fs_super_block]. *)
Definition ofs_sb_checksum_offset : Z := 32.
Definition ofs_sb_crc : Z := 3068.

Definition verify_sb_chksum (sb : list Z) : res Z :=
  off ← get_le32 sb ofs_sb_checksum_offset;
  if negb (SB_CHKSUM_OFFSET =? off) then Ok (-1)
  else
    crc ← get_le32 sb ofs_sb_crc;
    r ← f2fs_crc_valid crc sb off;
    Ok (if r =? 0 then 0 else -1).

(** * The checksum of a byte list *)

Definition crc_of (crc : Z) (l : list Z) : Z := fold_left crc_byte l crc.

Lemma crc_of_cons crc b l : crc_of crc (b :: l) = crc_of (crc_byte crc b) l.
Proof. reflexivity. Qed.

Lemma crc_byte_eq crc b : crc_byte crc b = crc32_bits 8 (Z.lxor crc b).
Proof. reflexivity. Qed.

#[local] Opaque crc_byte.

Lemma f2fs_cal_crc32_loop_eq n crc buf p :
  0 <= p -> p + Z.of_nat n <= Z.of_nat (length buf) ->
  f2fs_cal_crc32_loop n crc buf p = Ok (crc_of crc (take n (drop (Z.to_nat p) buf))).
Proof.
  revert crc p. induction n as [|n IH]; intros crc p Hp Hn; cbn [f2fs_cal_crc32_loop]; [done|].
  destruct (rd_total buf p) as [b Hb]; [lia|]. unfold mbind, res_bind. rewrite Hb, IH by lia.
  apply rd_Ok in Hb as [_ Hb]. rewrite (drop_S buf b (Z.to_nat p) Hb).
  cbn [take firstn]. rewrite crc_of_cons.
  by replace (Z.to_nat (p + 1)) with (S (Z.to_nat p)) by lia.
Qed.

Lemma f2fs_cal_crc32_eq crc buf p len :
  0 <= p -> 0 <= len -> p + len <= Z.of_nat (length buf) ->
  f2fs_cal_crc32 crc buf p len = Ok (crc_of crc (take (Z.to_nat len) (drop (Z.to_nat p) buf))).
Proof.
  intros. unfold f2fs_cal_crc32. replace (len <? 0) with false by lia.
  apply f2fs_cal_crc32_loop_eq; lia.
Qed.

Lemma crc_of_app crc l1 l2 : crc_of crc (l1 ++ l2) = crc_of (crc_of crc l1) l2.
Proof. apply fold_left_app. Qed.

(** * The shift register is linear and injective *)

Lemma land_1_testbit x : (Z.land x 1 =? 0) = negb (Z.testbit x 0).
Proof.
  rewrite Z.land_comm. change 1 with (Z.shiftl 1 0). rewrite land_pow2_testbit by lia.
  by destruct (Z.testbit x 0).
Qed.

Lemma crc32_bit_range x : is_u32 x -> is_u32 (crc32_bit x).
Proof.
  unfold is_u32, crc32_bit. intros Hx. apply lxor_range; [lia| |].
  - rewrite Z.shiftr_div_pow2 by lia. split; [apply Z.div_pos; lia|].
    apply Z.div_lt_upper_bound; lia.
  - unfold CRCPOLY_LE. destruct (_ =? 0); lia.
Qed.

Lemma crc32_bit_lxor x y : crc32_bit (Z.lxor x y) = Z.lxor (crc32_bit x) (crc32_bit y).
Proof.
  unfold crc32_bit. rewrite !land_1_testbit, Z.lxor_spec, Z.shiftr_lxor.
  set (p := CRCPOLY_LE). bitwise i Hi. rewrite !Z.lxor_spec.
  destruct (Z.testbit x 0), (Z.testbit y 0); cbn [xorb negb]; rewrite ?Z.bits_0;
    destruct (Z.testbit (Z.shiftr x 1) i), (Z.testbit (Z.shiftr y 1) i), (Z.testbit p i); done.
Qed.

Lemma crc32_bit_0_inv x : is_u32 x -> crc32_bit x = 0 -> x = 0.
Proof.
  unfold is_u32, crc32_bit. intros Hx. rewrite land_1_testbit.
  intros E%Z.lxor_eq. rewrite Z.shiftr_div_pow2 in E by lia. change (2 ^ 1) with 2 in E.
  pose proof (Z.div_mod x 2). pose proof (Z.bit0_mod x) as Hm.
  destruct (Z.testbit x 0); unfold CRCPOLY_LE in E; cbn [negb Z.b2z] in *; lia.
Qed.

Lemma crc32_bit_double y : crc32_bit (Z.shiftl y 1) = y.
Proof.
  unfold crc32_bit. rewrite land_1_testbit, Z.shiftl_spec_low by lia. cbn [negb].
  rewrite Z.lxor_0_r, Z.shiftr_shiftl_l by lia. by rewrite Z.shiftl_0_r.
Qed.

Lemma crc32_bits_lxor n x y : crc32_bits n (Z.lxor x y) = Z.lxor (crc32_bits n x) (crc32_bits n y).
Proof. revert x y. induction n; intros; cbn; [done|]. by rewrite crc32_bit_lxor, IHn. Qed.

Lemma crc32_bits_range n x : is_u32 x -> is_u32 (crc32_bits n x).
Proof. revert x. induction n; intros; cbn; [done|]. by apply IHn, crc32_bit_range. Qed.

Lemma crc32_bits_0_inv n x : is_u32 x -> crc32_bits n x = 0 -> x = 0.
Proof.
  revert x. induction n; intros x Hx E; cbn in *; [done|].
  by apply crc32_bit_0_inv, IHn; [|apply crc32_bit_range|].
Qed.

Lemma crc32_bits_shift n y : crc32_bits n (Z.shiftl y (Z.of_nat n)) = y.
Proof.
  induction n as [|n IH]; cbn [crc32_bits]; [by rewrite Z.shiftl_0_r|].
  replace (Z.of_nat (S n)) with (Z.of_nat n + 1) by lia.
  by rewrite <- Z.shiftl_shiftl, crc32_bit_double by lia.
Qed.

#[local] Opaque crc32_bits.

Lemma crc_byte_range crc b : is_u32 crc -> is_u8 b -> is_u32 (crc_byte crc b).
Proof.
  intros Hc Hb. rewrite crc_byte_eq. apply crc32_bits_range, lxor_range; [lia|done|unfold is_u8 in Hb; lia].
Qed.

Lemma crc_of_range crc l : is_u32 crc -> bytes l -> is_u32 (crc_of crc l).
Proof.
  intros Hc Hl. revert crc Hc. induction Hl as [|b l Hb Hl IH]; intros crc Hc; [done|].
  rewrite crc_of_cons. by apply IH, crc_byte_range.
Qed.

(** The checksum of a difference. *)
Definition xors (l1 l2 : list Z) : list Z := zip_with Z.lxor l1 l2.

Lemma crc_of_lxor l1 l2 s1 s2 :
  length l1 = length l2 ->
  Z.lxor (crc_of s1 l1) (crc_of s2 l2) = crc_of (Z.lxor s1 s2) (xors l1 l2).
Proof.
  revert l2 s1 s2. induction l1 as [|a l1 IH]; intros [|b l2] s1 s2 Hl; try done.
  unfold xors. cbn [zip_with]. fold (xors l1 l2). rewrite !crc_of_cons, IH by (cbn in Hl; lia).
  rewrite !crc_byte_eq, <- crc32_bits_lxor. do 2 f_equal.
  bitwise i Hi. rewrite !Z.lxor_spec. by destruct (Z.testbit s1 i), (Z.testbit s2 i), (Z.testbit a i), (Z.testbit b i).
Qed.

Fixpoint le_xor (l : list Z) : Z :=
  match l with [] => 0 | b :: l => Z.lxor b (Z.shiftl (le_xor l) 8) end.

Lemma le_xor_range l : bytes l -> 0 <= le_xor l < 2 ^ (8 * Z.of_nat (length l)).
Proof.
  induction 1 as [|b l Hb Hl IH]; [cbn; lia|]. cbn [le_xor length].
  replace (8 * Z.of_nat (S (length l))) with (8 + 8 * Z.of_nat (length l)) by lia.
  assert (0 < 2 ^ (8 * Z.of_nat (length l))) by (apply Z.pow_pos_nonneg; lia).
  apply lxor_range; [lia| |]; rewrite Z.pow_add_r by lia.
  - unfold is_u8 in Hb. nia.
  - rewrite Z.shiftl_mul_pow2 by lia. lia.
Qed.

(** A register that ends at zero after at most four bytes held those bytes. *)
Lemma crc_of_0_inv l s :
  (length l <= 4)%nat -> bytes l -> is_u32 s -> crc_of s l = 0 -> s = le_xor l.
Proof.
  intros Hlen Hl. revert s. induction Hl as [|b l Hb Hl IH]; intros s Hs E; [done|].
  cbn [length] in Hlen. rewrite crc_of_cons in E. apply IH in E; [|lia|by apply crc_byte_range].
  pose proof (le_xor_range l Hl) as Hr.
  assert (2 ^ (8 * Z.of_nat (length l)) <= 2 ^ 24) by (apply Z.pow_le_mono_r; lia).
  assert (Z.lxor (Z.lxor s b) (Z.shiftl (le_xor l) 8) = 0) as Hz.
  { apply (crc32_bits_0_inv 8).
    - assert (0 <= Z.shiftl (le_xor l) 8 < 2 ^ 32) by (rewrite Z.shiftl_mul_pow2 by lia; lia).
      unfold is_u32, is_u8 in *. apply lxor_range; [lia|apply lxor_range; lia|lia].
    - rewrite crc32_bits_lxor.
      assert (crc32_bits 8 (Z.shiftl (le_xor l) 8) = le_xor l) as -> by apply (crc32_bits_shift 8).
      rewrite crc_byte_eq in E. rewrite E. apply Z.lxor_nilpotent. }
  cbn [le_xor]. apply Z.lxor_eq. rewrite Z.lxor_assoc in Hz. done.
Qed.

Lemma le_xor_0 l : bytes l -> le_xor l = 0 -> Forall (fun b => b = 0) l.
Proof.
  induction 1 as [|b l Hb Hl IH]; intros E; [constructor|]. cbn in E. apply Z.lxor_eq in E.
  rewrite Z.shiftl_mul_pow2 in E by lia. pose proof (le_xor_range l Hl). unfold is_u8 in Hb.
  constructor; [lia|apply IH; lia].
Qed.

Lemma xors_0 l1 l2 : length l1 = length l2 -> Forall (fun b => b = 0) (xors l1 l2) -> l1 = l2.
Proof.
  revert l2. induction l1 as [|a l1 IH]; intros [|b l2] Hl Hz; try done. cbn in *.
  apply Forall_cons in Hz as [->%Z.lxor_eq Hz]. f_equal. apply IH; [lia|done].
Qed.

Lemma bytes_xors l1 l2 : bytes l1 -> bytes l2 -> bytes (xors l1 l2).
Proof.
  intros H. revert l2. induction H as [|a l1 Ha Hl IH]; intros l2; [constructor|].
  destruct 1 as [|b l2 Hb H2]; [constructor|]. constructor; [by apply lxor_range|by apply IH].
Qed.

(** Different registers stay different. *)
Lemma crc_of_inj l s1 s2 :
  is_u32 s1 -> is_u32 s2 -> bytes l -> crc_of s1 l = crc_of s2 l -> s1 = s2.
Proof.
  intros H1 H2 Hl. revert s1 s2 H1 H2. induction Hl as [|b l Hb Hl IH]; intros s1 s2 H1 H2 E; [done|].
  rewrite !crc_of_cons in E. apply IH in E; [|by apply crc_byte_range..]. rewrite !crc_byte_eq in E.
  apply Z.lxor_eq, (crc32_bits_0_inv 8); [by apply lxor_range|].
  rewrite <- (Z.lxor_nilpotent (crc32_bits 8 (Z.lxor s2 b))). rewrite <- E at 1.
  rewrite <- crc32_bits_lxor. f_equal. bitwise i Hi. rewrite !Z.lxor_spec.
  by destruct (Z.testbit s1 i), (Z.testbit s2 i), (Z.testbit b i).
Qed.

(** Same register before and after, same tail: the differing window of at most
    four bytes was no difference. *)
Lemma crc_window s pre w1 w2 post :
  is_u32 s -> bytes pre -> bytes w1 -> bytes w2 -> bytes post ->
  length w1 = length w2 -> (length w1 <= 4)%nat ->
  crc_of s (pre ++ w1 ++ post) = crc_of s (pre ++ w2 ++ post) -> w1 = w2.
Proof.
  intros Hs Hpre H1 H2 Hpost Hl H4 E. rewrite !crc_of_app in E.
  set (r := crc_of s pre) in *. assert (is_u32 r) as Hr by (by apply crc_of_range).
  assert (crc_of r w1 = crc_of r w2) as E'
    by (apply (crc_of_inj post); by try apply crc_of_range).
  apply xors_0; [done|]. apply le_xor_0; [by apply bytes_xors|].
  symmetry. apply (crc_of_0_inv _ 0);
    [unfold xors; rewrite length_zip_with; lia|by apply bytes_xors|unfold is_u32; lia|].
  pose proof (crc_of_lxor w1 w2 r r Hl) as Hx. by rewrite E', !Z.lxor_nilpotent in Hx.
Qed.

(** * Checksummed blocks *)

(** The bytes of a checkpoint block that its checksum covers. *)
Definition cp_covered (cp : list Z) (ofs : Z) : list Z :=
  take (Z.to_nat ofs) cp ++ drop (Z.to_nat ofs + 4) cp.

Section CheckpointBlock.
Context (cp : list Z) (ofs : Z).
Context (Hlen : length cp = 4096%nat).
Context (Hofs : get_le32 cp ofs_cp_checksum_offset = Ok ofs).
Context (Hmin : CP_MIN_CHKSUM_OFFSET <= ofs <= CP_CHKSUM_OFFSET).

Lemma f2fs_checkpoint_chksum_eq :
  f2fs_checkpoint_chksum cp = Ok (crc_of F2FS_SUPER_MAGIC (cp_covered cp ofs)).
Proof.
  unfold f2fs_checkpoint_chksum, CP_MIN_CHKSUM_OFFSET, CP_CHKSUM_OFFSET, cp_covered in *.
  rewrite Hofs. unfold mbind, res_bind.
  assert (s32 ofs = ofs) as ->.
  { unfold s32, sgn. rewrite Z.mod_small by lia. by replace (ofs <? _) with true by lia. }
  rewrite f2fs_cal_crc32_eq by lia. change (Z.to_nat 0) with 0%nat. rewrite drop_0.
  destruct (Z.ltb_spec ofs 4092).
  - rewrite u32_id by (unfold is_u32; lia).
    rewrite f2fs_cal_crc32_eq by lia. rewrite crc_of_app. do 2 f_equal.
    rewrite take_ge by (rewrite length_drop; lia). f_equal. lia.
  - rewrite (drop_ge cp) by lia. by rewrite app_nil_r.
Qed.

Lemma verify_checksum_chksum_eq crc :
  get_le32 cp ofs = Ok crc ->
  verify_checksum_chksum cp =
    Ok (if crc_of F2FS_SUPER_MAGIC (cp_covered cp ofs) =? crc then 0 else -1).
Proof.
  intros Hcrc. unfold verify_checksum_chksum. rewrite Hofs. unfold mbind, res_bind.
  replace ((ofs <? CP_MIN_CHKSUM_OFFSET) || (CP_CHKSUM_OFFSET <? ofs)) with false by lia.
  by rewrite Hcrc, f2fs_checkpoint_chksum_eq.
Qed.
End CheckpointBlock.

Lemma cp_covered_splice cp ofs xs :
  0 <= ofs -> ofs + 4 <= Z.of_nat (length cp) -> length xs = 4%nat ->
  cp_covered (splice cp ofs xs) ofs = cp_covered cp ofs.
Proof.
  intros H0 Hl Hx. unfold cp_covered, splice. rewrite Hx.
  assert (length (take (Z.to_nat ofs) cp) = Z.to_nat ofs) as Ht by (rewrite length_take; lia).
  rewrite take_app_le, take_ge by lia. f_equal.
  rewrite app_assoc. rewrite drop_app_ge by (rewrite length_app; lia).
  rewrite length_app, Ht, Hx, Nat.sub_diag. done.
Qed.

(** Storing the checksum in the field for it makes it right. *)
Lemma chksum_stored cp ofs :
  length cp = 4096%nat -> bytes cp -> get_le32 cp ofs_cp_checksum_offset = Ok ofs ->
  CP_MIN_CHKSUM_OFFSET <= ofs <= CP_CHKSUM_OFFSET ->
  let crc := crc_of F2FS_SUPER_MAGIC (cp_covered cp ofs) in
  is_u32 crc /\ verify_checksum_chksum (splice cp ofs (le_bytes 4 crc)) = Ok 0.
Proof.
  intros Hlen Hb Hofs Hr crc. pose proof Hr as Hr'. unfold CP_MIN_CHKSUM_OFFSET, CP_CHKSUM_OFFSET in Hr'.
  assert (is_u32 crc) as Hcrc.
  { apply crc_of_range; [unfold is_u32, F2FS_SUPER_MAGIC; lia|].
    apply Forall_app. split; [by apply Forall_take|by apply Forall_drop]. }
  split; [done|]. rewrite (verify_checksum_chksum_eq _ ofs) with (crc := crc).
  - rewrite cp_covered_splice by (rewrite ?length_le_bytes; lia). by rewrite Z.eqb_refl.
  - by rewrite length_splice by (rewrite ?length_le_bytes; lia).
  - rewrite get_le_splice_ne; [done|..]; rewrite ?length_le_bytes; unfold ofs_cp_checksum_offset; lia.
  - done.
  - apply get_set_le; [lia..|exact Hcrc].
Qed.

(** The checksum of a checkpoint in memory is that of its first block. *)
Lemma f2fs_cal_crc32_take crc m l p len : 0 <= p -> 0 <= len -> p + len <= Z.of_nat m -> (m <= length l)%nat ->
  f2fs_cal_crc32 crc (take m l) p len = f2fs_cal_crc32 crc l p len.
Proof.
  intros. rewrite !f2fs_cal_crc32_eq by (rewrite ?length_take; lia). do 2 f_equal.
  rewrite !take_drop_commute, take_take. do 2 f_equal. lia.
Qed.

Lemma checkpoint_chksum_take cp ofs : (4096 <= length cp)%nat -> get_le32 cp ofs_cp_checksum_offset = Ok ofs ->
  CP_MIN_CHKSUM_OFFSET <= ofs <= CP_CHKSUM_OFFSET ->
  f2fs_checkpoint_chksum cp = Ok (crc_of F2FS_SUPER_MAGIC (cp_covered (take 4096 cp) ofs)).
Proof.
  intros Hl Hofs Hr. unfold ofs_cp_checksum_offset in Hofs.
  assert (get_le32 (take 4096 cp) 164 = Ok ofs) as Hofs' by (rewrite get_le_take by lia; exact Hofs).
  rewrite <- (f2fs_checkpoint_chksum_eq (take 4096 cp) ofs); [|rewrite length_take; lia|exact Hofs'|done].
  unfold f2fs_checkpoint_chksum, ofs_cp_checksum_offset. rewrite Hofs, Hofs', !res_bind_ret.
  unfold CP_MIN_CHKSUM_OFFSET, CP_CHKSUM_OFFSET in *.
  assert (s32 ofs = ofs) as ->.
  { unfold s32, sgn. rewrite Z.mod_small by lia. by replace (ofs <? _) with true by lia. }
  rewrite f2fs_cal_crc32_take by lia. unfold mbind, res_bind.
  destruct (f2fs_cal_crc32 F2FS_SUPER_MAGIC cp 0 ofs); try done. destruct (Z.ltb_spec ofs 4092); [|done].
  rewrite u32_id by (unfold is_u32; lia). rewrite f2fs_cal_crc32_take by lia. done.
Qed.

(** The same window of a block replaced, in the covered part before or after
    the checksum field. *)
Lemma cp_covered_window cp ofs k w :
  0 <= k -> 0 <= ofs -> ofs + 4 <= Z.of_nat (length cp) ->
  k + Z.of_nat (length w) <= ofs
  \/ (ofs + 4 <= k /\ k + Z.of_nat (length w) <= Z.of_nat (length cp)) ->
  exists pre w0 post, cp_covered cp ofs = pre ++ w0 ++ post
    /\ cp_covered (splice cp k w) ofs = pre ++ w ++ post
    /\ length w0 = length w /\ splice cp k w0 = cp.
Proof.
  intros Hk H0 Hl Hw. unfold cp_covered.
  destruct (app_eq_inv_length cp (Z.to_nat k)) as (a & r & -> & Ha);
    [destruct Hw; lia|].
  rewrite length_app in *.
  destruct (app_eq_inv_length r (length w)) as (w0 & b & -> & Hw0); [destruct Hw; lia|].
  rewrite length_app in *. rewrite !splice_app by (done || lia). destruct Hw as [Hw|[Hw Hw']].
  - destruct (app_eq_inv_length b (Z.to_nat ofs - length a - length w)) as (c & d & -> & Hc); [lia|].
    exists a, w0, (c ++ drop 4 d). rewrite splice_app by (done || lia).
    assert (forall w', length w' = length w ->
      take (Z.to_nat ofs) (a ++ w' ++ c ++ d) ++ drop (Z.to_nat ofs + 4) (a ++ w' ++ c ++ d)
      = a ++ w' ++ c ++ drop 4 d) as Hcov.
    { intros w' Hw''. rewrite !app_assoc. rewrite take_app_length' by (rewrite !length_app; lia).
      rewrite drop_app_ge by (rewrite !length_app; lia). rewrite !length_app, <- !app_assoc.
      by replace (Z.to_nat ofs + 4 - (length a + length w' + length c))%nat with 4%nat by lia. }
    by rewrite !Hcov.
  - exists (take (Z.to_nat ofs) a ++ drop (Z.to_nat ofs + 4) a), w0, b.
    rewrite !take_app_le, !drop_app_le, splice_app by (done || lia). by rewrite <- !app_assoc.
Qed.

(** * Properties *)

(** Storing the computed checksum makes a checkpoint block valid: for every
    4096-byte block whose [checksum_offset] is in the accepted range,
    [f2fs_checkpoint_chksum] is defined, and after its value is stored in the
    checksum field [verify_checksum_chksum] accepts the block. *)
Theorem checkpoint_chksum_write_verify (cp : list Z) (ofs : Z) :
  bytes cp -> length cp = 4096%nat ->
  get_le32 cp ofs_cp_checksum_offset = Ok ofs ->
  CP_MIN_CHKSUM_OFFSET <= ofs <= CP_CHKSUM_OFFSET ->
  exists crc cp', f2fs_checkpoint_chksum cp = Ok crc /\ is_u32 crc
    /\ set_le32 cp ofs crc = Ok cp' /\ verify_checksum_chksum cp' = Ok 0.
Proof.
  intros Hb Hlen Hofs Hr. pose proof Hr as Hr'. unfold CP_MIN_CHKSUM_OFFSET, CP_CHKSUM_OFFSET in Hr'.
  rewrite (f2fs_checkpoint_chksum_eq cp ofs) by done.
  destruct (chksum_stored cp ofs Hlen Hb Hofs Hr) as [Hcrc Hv].
  eexists _, (splice cp ofs (le_bytes 4 _)). split; [done|]. split; [exact Hcrc|].
  split; [|exact Hv]. apply wr_list_splice; rewrite ?length_le_bytes; lia.
Qed.

(** A block with [checksum_offset] 4092 and the checksum of its content. *)
Definition sample_cp : list Z :=
  splice (splice (replicate 4096 0) ofs_cp_checksum_offset (le_bytes 4 CP_CHKSUM_OFFSET))
    0 (le_bytes 8 1).

Lemma checkpoint_chksum_write_verify_witness :
  exists crc cp', f2fs_checkpoint_chksum sample_cp = Ok crc /\ is_u32 crc
    /\ set_le32 sample_cp CP_CHKSUM_OFFSET crc = Ok cp' /\ verify_checksum_chksum cp' = Ok 0.
Proof.
  apply (checkpoint_chksum_write_verify sample_cp CP_CHKSUM_OFFSET).
  - apply bytes_splice; [apply bytes_splice|]; [|apply bytes_le_bytes..].
    apply Forall_replicate. unfold is_u8. lia.
  - vm_compute. reflexivity.
  - vm_compute. reflexivity.
  - unfold CP_MIN_CHKSUM_OFFSET, CP_CHKSUM_OFFSET. lia.
Defined.

(** C33: The checksum detects local corruption: overwriting up to four consecutive
    bytes of a valid checkpoint block with different ones, outside of the
    checksum itself and of the field that locates it, makes
    [verify_checksum_chksum] reject the block. *)
Theorem checkpoint_corruption_detected (cp w : list Z) (ofs k : Z) :
  bytes cp -> length cp = 4096%nat ->
  get_le32 cp ofs_cp_checksum_offset = Ok ofs -> verify_checksum_chksum cp = Ok 0 ->
  bytes w -> (length w <= 4)%nat -> 0 <= k -> k + Z.of_nat (length w) <= 4096 ->
  k + Z.of_nat (length w) <= ofs \/ ofs + 4 <= k ->
  k + Z.of_nat (length w) <= ofs_cp_checksum_offset \/ ofs_cp_checksum_offset + 4 <= k ->
  splice cp k w <> cp ->
  verify_checksum_chksum (splice cp k w) = Ok (-1).
Proof.
  intros Hb Hlen Hofs Hv Hw Hw4 Hk Hk' Hcrcfield Hoffield Hne.
  assert (CP_MIN_CHKSUM_OFFSET <= ofs <= CP_CHKSUM_OFFSET) as Hr.
  { unfold verify_checksum_chksum in Hv. rewrite Hofs in Hv. unfold mbind, res_bind in Hv.
    destruct (_ || _) eqn:E; [done|lia]. }
  pose proof Hr as Hr'. unfold CP_MIN_CHKSUM_OFFSET, CP_CHKSUM_OFFSET in Hr'.
  assert (exists crc, get_le32 cp ofs = Ok crc) as [crc Hcrc].
  { unfold get_le. rewrite rd_bytes_Ok by lia. by eexists. }
  rewrite (verify_checksum_chksum_eq cp ofs Hlen Hofs Hr crc Hcrc) in Hv.
  rewrite (verify_checksum_chksum_eq (splice cp k w) ofs) with (crc := crc);
    [|by rewrite length_splice by lia|by rewrite get_le_splice_ne by lia|done
     |by rewrite get_le_splice_ne by lia].
  destruct (Z.eqb_spec (crc_of F2FS_SUPER_MAGIC (cp_covered cp ofs)) crc) as [E1|]; [|done].
  destruct (Z.eqb_spec (crc_of F2FS_SUPER_MAGIC (cp_covered (splice cp k w) ofs)) crc) as [E2|]; [|done].
  exfalso. apply Hne.
  destruct (cp_covered_window cp ofs k w) as (pre & w0 & post & C1 & C2 & Hl & Hs); [lia..|].
  assert (bytes (cp_covered cp ofs)) as Hc
    by (apply Forall_app; split; [by apply Forall_take|by apply Forall_drop]).
  rewrite C1 in Hc. apply Forall_app in Hc as [Hp [H0 Hq]%Forall_app].
  rewrite <- (crc_window F2FS_SUPER_MAGIC pre w0 w post); try done; [lia|congruence].
Qed.

(** [sample_cp] with its checksum. *)
Definition sample_cp_valid : list Z :=
  splice sample_cp CP_CHKSUM_OFFSET (le_bytes 4 0x1cfa1c89).

Lemma checkpoint_corruption_detected_witness :
  verify_checksum_chksum sample_cp_valid = Ok 0
  /\ verify_checksum_chksum (splice sample_cp_valid 1000 [1; 2]) = Ok (-1).
Proof.
  split; [vm_compute; reflexivity|].
  apply (checkpoint_corruption_detected sample_cp_valid [1; 2] CP_CHKSUM_OFFSET 1000).
  - assert (forallb (fun b => (0 <=? b) && (b <? 256)) sample_cp_valid = true) as H
      by (vm_compute; reflexivity).
    apply List.Forall_forall. intros b Hin. rewrite forallb_forall in H. specialize (H b Hin).
    unfold is_u8. lia.
  - vm_compute. reflexivity.
  - vm_compute. reflexivity.
  - vm_compute. reflexivity.
  - repeat constructor; unfold is_u8; lia.
  - cbn. lia.
  - lia.
  - cbn. lia.
  - left. cbn. unfold CP_CHKSUM_OFFSET. lia.
  - right. unfold ofs_cp_checksum_offset. lia.
  - intros E. apply (f_equal (fun l => l !! 1000%nat)) in E. vm_compute in E. discriminate.
Defined.
