(* ===== verification/Node.v ===== *)
(** Node blocks: the index structure of a file.

    A [struct f2fs_node] is the 4096 bytes of its block, a union of an inode, a
    direct node and an indirect node followed by the footer; each accessor reads
    or writes the bytes at the field's offset, so the members of the unions
    alias as in C. Modelled are the address counts of lib/libf2fs.c
    ([addrs_per_inode], [addrs_per_block], [f2fs_max_file_offset]), the accessors
    of fsck/node.h and fsck/f2fs.h, the index path [get_node_path] of fsck/node.c
    and its inverse [start_bidx_of_node] of fsck/dump.c.

    [feature] is the field of the global configuration [c]. *)
From Stdlib Require Import ZArith Lia List Bool.
From stdpp Require Import base numbers list.
From S2P Require Import Prelude.

Definition F2FS_FEATURE_FLEXIBLE_INLINE_XATTR : Z := 0x0040.
Definition F2FS_INLINE_XATTR : Z := 0x01.
Definition F2FS_INLINE_DENTRY : Z := 0x04.
Definition F2FS_EXTRA_ATTR : Z := 0x20.
Definition F2FS_COMPR_FL : Z := 0x4.
Definition DEFAULT_INLINE_XATTR_ADDRS : Z := 50.
Definition DEF_ADDRS_PER_INODE : Z := 923.
Definition DEF_ADDRS_PER_BLOCK : Z := 1018.
Definition NIDS_PER_BLOCK : Z := 1018.
Definition NODE_DIR1_BLOCK : Z := DEF_ADDRS_PER_INODE + 1.
Definition NODE_DIR2_BLOCK : Z := DEF_ADDRS_PER_INODE + 2.
Definition NODE_IND1_BLOCK : Z := DEF_ADDRS_PER_INODE + 3.
Definition NODE_IND2_BLOCK : Z := DEF_ADDRS_PER_INODE + 4.
Definition NODE_DIND_BLOCK : Z := DEF_ADDRS_PER_INODE + 5.
Definition LINUX_S_IFMT : Z := 0xf000.
Definition LINUX_S_IFREG : Z := 0x8000.

(** Offsets in [struct f2fs_inode] and, from 4072 on, [struct node_footer]. *)
Definition ofs_i_mode : Z := 0.
Definition ofs_i_inline : Z := 3.
Definition ofs_i_links : Z := 12.
Definition ofs_i_size : Z := 16.
Definition ofs_i_blocks : Z := 24.
Definition ofs_i_flags : Z := 80.
Definition ofs_i_extra_isize : Z := 360.
Definition ofs_i_inline_xattr_size : Z := 362.
Definition ofs_i_log_cluster_size : Z := 393.
Definition ofs_i_addr : Z := 360.
Definition ofs_i_nid : Z := 4052.
Definition ofs_nid : Z := 4072.
Definition ofs_ino : Z := 4076.
Definition ofs_flag : Z := 4080.
Definition ofs_cp_ver : Z := 4084.
Definition ofs_next_blkaddr : Z := 4092.
Definition COLD_BIT_SHIFT : Z := 0.
Definition OFFSET_BIT_SHIFT : Z := 3.

(** * Address counts *)

Definition f2fs_has_extra_isize (node : list Z) : res bool :=
  i_inline ← rd node ofs_i_inline;
  Ok (negb (Z.land i_inline F2FS_EXTRA_ATTR =? 0)).

Definition __get_extra_isize (node : list Z) : res Z :=
  has ← f2fs_has_extra_isize node;
  if has : bool then
    sz ← get_le16 node ofs_i_extra_isize;
    Ok (sz / 4)
  else Ok 0.

Definition get_inline_xattr_addrs (feature : Z) (node : list Z) : res Z :=
  if negb (Z.land feature F2FS_FEATURE_FLEXIBLE_INLINE_XATTR =? 0) then
    get_le16 node ofs_i_inline_xattr_size
  else
    i_inline ← rd node ofs_i_inline;
    if negb (Z.land i_inline F2FS_INLINE_XATTR =? 0) || negb (Z.land i_inline F2FS_INLINE_DENTRY =? 0)
    then Ok DEFAULT_INLINE_XATTR_ADDRS
    else Ok 0.

(** [1 << n] for an [int]: undefined from 31 on. *)
Definition shl1 (n : Z) : res Z := if (0 <=? n) && (n <? 31) then Ok (2 ^ n) else Oob.

Definition ALIGN_DOWN (addrs size : Z) : Z := addrs / size * size.
Definition ALIGN_UP (addrs size : Z) : Z := ALIGN_DOWN (addrs + size - 1) size.

(** Regular file with [F2FS_COMPR_FL], the test of the three functions below. *)
Definition is_compr_reg (node : list Z) : res bool :=
  mode ← get_le16 node ofs_i_mode;
  flags ← get_le32 node ofs_i_flags;
  Ok ((Z.land mode LINUX_S_IFMT =? LINUX_S_IFREG) && negb (Z.land flags F2FS_COMPR_FL =? 0)).

Definition addrs_per_inode (feature : Z) (node : list Z) : res Z :=
  extra ← __get_extra_isize node;
  xattr ← get_inline_xattr_addrs feature node;
  let addrs := u32 ((DEF_ADDRS_PER_INODE - extra) - xattr) in
  compr ← is_compr_reg node;
  if compr : bool then
    log ← rd node ofs_i_log_cluster_size;
    size ← shl1 log;
    Ok (ALIGN_DOWN addrs size)
  else Ok addrs.

Definition addrs_per_block (node : list Z) : res Z :=
  compr ← is_compr_reg node;
  if compr : bool then
    log ← rd node ofs_i_log_cluster_size;
    size ← shl1 log;
    Ok (ALIGN_DOWN DEF_ADDRS_PER_BLOCK size)
  else Ok DEF_ADDRS_PER_BLOCK.

(** The return type is [unsigned int]. *)
Definition f2fs_max_file_offset (node : list Z) : res Z :=
  compr ← is_compr_reg node;
  i_size ← get_le64 node ofs_i_size;
  if compr : bool then
    log ← rd node ofs_i_log_cluster_size;
    size ← shl1 log;
    Ok (u32 (u64 (ALIGN_DOWN (u64 (i_size + size - 1)) size)))
  else Ok (u32 i_size).

(** * The index path of a block *)

(** What [get_node_path] returns and the entries [0 .. level] it sets. *)
Record node_path := { level : Z; offset : list Z; noffset : list Z }.

Definition get_node_path (feature : Z) (node : list Z) (block : Z) : res node_path :=
  direct_index ← addrs_per_inode feature node;
  direct_blks ← addrs_per_block node;
  let dptrs_per_blk := NIDS_PER_BLOCK in
  let indirect_blks := u32 (direct_blks * NIDS_PER_BLOCK) in
  let dindirect_blks := indirect_blks * NIDS_PER_BLOCK in
  if block <? direct_index then
    Ok {| level := 0; offset := [block]; noffset := [0] |}
  else
  let block := block - direct_index in
  if block <? direct_blks then
    Ok {| level := 1; offset := [NODE_DIR1_BLOCK; block]; noffset := [0; 1] |}
  else
  let block := block - direct_blks in
  if block <? direct_blks then
    Ok {| level := 1; offset := [NODE_DIR2_BLOCK; block]; noffset := [0; 2] |}
  else
  let block := block - direct_blks in
  if block <? indirect_blks then
    let o1 := block / direct_blks in
    Ok {| level := 2; offset := [NODE_IND1_BLOCK; o1; block mod direct_blks];
          noffset := [0; 3; 4 + o1] |}
  else
  let block := block - indirect_blks in
  if block <? indirect_blks then
    let o1 := block / direct_blks in
    Ok {| level := 2; offset := [NODE_IND2_BLOCK; o1; block mod direct_blks];
          noffset := [0; 4 + dptrs_per_blk; 5 + dptrs_per_blk + o1] |}
  else
  let block := block - indirect_blks in
  if block <? dindirect_blks then
    let o1 := block / indirect_blks in
    let o2 := (block / direct_blks) mod dptrs_per_blk in
    Ok {| level := 3; offset := [NODE_DIND_BLOCK; o1; o2; block mod direct_blks];
          noffset := [0; 5 + dptrs_per_blk * 2;
                      6 + dptrs_per_blk * 2 + o1 * (dptrs_per_blk + 1);
                      7 + dptrs_per_blk * 2 + o1 * (dptrs_per_blk + 1) + o2] |}
  else Die.

(** The first block that the node number [node_ofs] of the file maps; [node_blk]
    is read as the inode. Arithmetic is on [unsigned int]. *)
Definition start_bidx_of_node (feature node_ofs : Z) (node_blk : list Z) : res Z :=
  let indirect_blks := 2 * NIDS_PER_BLOCK + 4 in
  if node_ofs =? 0 then Ok 0
  else
    let bidx :=
      if node_ofs <=? 2 then u32 (node_ofs - 1)
      else if node_ofs <=? indirect_blks then
        let dec := s32 (u32 (node_ofs - 4) / (NIDS_PER_BLOCK + 1)) in
        u32 (node_ofs - 2 - dec)
      else
        let dec := s32 (u32 (node_ofs - indirect_blks - 3) / (NIDS_PER_BLOCK + 1)) in
        u32 (node_ofs - 5 - dec) in
    blks ← addrs_per_block node_blk;
    index ← addrs_per_inode feature node_blk;
    Ok (u32 (u32 (bidx * blks) + index)).

(** * The footer *)

Definition IS_INODE (node : list Z) : res bool :=
  nid ← get_le32 node ofs_nid; ino ← get_le32 node ofs_ino; Ok (nid =? ino).

Definition ofs_of_node (node : list Z) : res Z :=
  flag ← get_le32 node ofs_flag; Ok (Z.shiftr flag OFFSET_BIT_SHIFT).

(** [IS_DNODE] on the node offset of the footer. *)
Definition dnode_ofs (ofs : Z) : bool :=
  if (ofs =? 3) || (ofs =? 4 + NIDS_PER_BLOCK) || (ofs =? 5 + 2 * NIDS_PER_BLOCK) then false
  else if 6 + 2 * NIDS_PER_BLOCK <=? ofs then
    let ofs := u32 (ofs - (6 + 2 * NIDS_PER_BLOCK)) in
    negb (ofs mod (NIDS_PER_BLOCK + 1) =? 0)
  else true.

Definition IS_DNODE (node : list Z) : res bool := ofs ← ofs_of_node node; Ok (dnode_ofs ofs).

Definition ino_of_node (node : list Z) : res Z := get_le32 node ofs_ino.
Definition cpver_of_node (node : list Z) : res Z := get_le64 node ofs_cp_ver.
Definition next_blkaddr_of_node (node : list Z) : res Z := get_le32 node ofs_next_blkaddr.
Definition is_node (node : list Z) (type : Z) : res Z :=
  flag ← get_le32 node ofs_flag; bit ← shl1 type; Ok (Z.land flag bit).

Definition set_cold_node (rn : list Z) (is_dir : bool) : res (list Z) :=
  flag ← get_le32 rn ofs_flag;
  bit ← shl1 COLD_BIT_SHIFT;
  let flag := if is_dir then u32 (Z.land flag (Z.lnot bit)) else u32 (Z.lor flag bit) in
  set_le32 rn ofs_flag flag.

(** The data offset that [dump_data_offset] prints for the block at [ofs_in_node]
    of the node block [node_blk] it has read. *)
Definition dump_data_offset (feature : Z) (node_blk : list Z) (ofs_in_node : Z) : res Z :=
  node_ofs ← ofs_of_node node_blk;
  bidx ← start_bidx_of_node feature node_ofs node_blk;
  Ok (u32 (bidx + ofs_in_node)).

(** * Block addresses and node ids in a node *)

(** The byte offset of the array [blkaddr_in_node] points to. *)
Definition blkaddr_in_node (node : list Z) : res Z :=
  inode ← IS_INODE node;
  if inode : bool then extra ← __get_extra_isize node; Ok (ofs_i_addr + 4 * extra) else Ok 0.

Definition datablock_addr (node_page : list Z) (offset : Z) : res Z :=
  base ← blkaddr_in_node node_page;
  get_le32 node_page (base + 4 * offset).

(** The array update of [set_data_blkaddr]. *)
Definition set_datablock_addr (node_blk : list Z) (ofs_in_node blkaddr : Z) : res (list Z) :=
  base ← blkaddr_in_node node_blk;
  set_le32 node_blk (base + 4 * ofs_in_node) blkaddr.

Definition set_nid (rn : list Z) (off nid : Z) (i : bool) : res (list Z) :=
  if i then set_le32 rn (ofs_i_nid + 4 * (off - NODE_DIR1_BLOCK)) nid
  else set_le32 rn (4 * off) nid.

Definition get_nid (rn : list Z) (off : Z) (i : bool) : res Z :=
  if i then get_le32 rn (ofs_i_nid + 4 * (off - NODE_DIR1_BLOCK))
  else get_le32 rn (4 * off).

Definition inc_inode_blocks (inode : list Z) : res (list Z) :=
  blocks ← get_le64 inode ofs_i_blocks;
  set_le64 inode ofs_i_blocks (u64 (blocks + 1)).

(** * The path and its inverse *)

Lemma dnode_ofs_low n :
  0 <= n < 5 + 2 * NIDS_PER_BLOCK -> n <> 3 -> n <> 4 + NIDS_PER_BLOCK -> dnode_ofs n = true.
Proof.
  intros Hn H3 H4. unfold dnode_ofs. destruct (Z.eqb_spec n 3); [lia|].
  destruct (Z.eqb_spec n (4 + NIDS_PER_BLOCK)); [lia|].
  destruct (Z.eqb_spec n (5 + 2 * NIDS_PER_BLOCK)); [lia|]. cbn [orb].
  by replace (6 + 2 * NIDS_PER_BLOCK <=? n) with false by lia.
Qed.

(** Below the double indirect node: number [r] of the group of its [o1]-th
    indirect node, which itself is number 0. *)
Lemma dnode_ofs_high n o1 r :
  n = 6 + NIDS_PER_BLOCK * 2 + o1 * (NIDS_PER_BLOCK + 1) + r ->
  0 <= o1 < NIDS_PER_BLOCK -> 0 <= r <= NIDS_PER_BLOCK -> dnode_ofs n = negb (r =? 0).
Proof.
  unfold dnode_ofs, NIDS_PER_BLOCK. intros -> Ho Hr.
  replace (_ =? 3) with false by lia. replace (_ =? 4 + 1018) with false by lia.
  replace (_ =? 5 + 2 * 1018) with false by lia. replace (6 + 2 * 1018 <=? _) with true by lia.
  cbn [orb]. rewrite u32_id by (unfold is_u32; lia).
  replace (6 + 1018 * 2 + o1 * (1018 + 1) + r - (6 + 2 * 1018)) with (r + o1 * (1018 + 1)) by lia.
  by rewrite Z.mod_add, Z.mod_small by lia.
Qed.

Definition last_of (l : list Z) : Z := List.last l 0.

Section Path.
Context (feature : Z) (node : list Z) (D B : Z).
Context (HD : addrs_per_inode feature node = Ok D) (HB : addrs_per_block node = Ok B).
Context (HDr : 0 <= D <= DEF_ADDRS_PER_INODE) (HBr : 0 < B <= DEF_ADDRS_PER_BLOCK).

(** The number of blocks a file can map. *)
Definition max_file_blocks : Z :=
  D + 2 * B + 2 * (B * NIDS_PER_BLOCK) + B * NIDS_PER_BLOCK * NIDS_PER_BLOCK.

(** [start_bidx_of_node] without the wrap-around: [q] full direct nodes come
    before the node, [dec] of the numbers below its own are index nodes. *)
Lemma start_bidx_eq node_ofs dec q :
  0 < node_ofs < 2 ^ 31 ->
  (if node_ofs <=? 2 then q = node_ofs - 1
   else if node_ofs <=? 2 * NIDS_PER_BLOCK + 4 then
     4 <= node_ofs /\ (node_ofs - 4) / (NIDS_PER_BLOCK + 1) = dec /\ q = node_ofs - 2 - dec
   else 7 + 2 * NIDS_PER_BLOCK <= node_ofs
     /\ (node_ofs - (2 * NIDS_PER_BLOCK + 4) - 3) / (NIDS_PER_BLOCK + 1) = dec
     /\ q = node_ofs - 5 - dec) ->
  0 <= q -> q * B + D < 2 ^ 32 ->
  start_bidx_of_node feature node_ofs node = Ok (q * B + D).
Proof.
  unfold NIDS_PER_BLOCK, DEF_ADDRS_PER_BLOCK, DEF_ADDRS_PER_INODE in *. intros Hn Hb H0 Hlt.
  unfold start_bidx_of_node, NIDS_PER_BLOCK. replace (node_ofs =? 0) with false by lia.
  rewrite HD, HB. unfold mbind, res_bind.
  assert (forall x, 0 <= x < 2 ^ 31 -> s32 x = x) as Hs32.
  { intros x Hx. unfold s32, sgn. rewrite Z.mod_small by lia.
    by replace (x <? 2 ^ (32 - 1)) with true by lia. }
  assert (forall x, 0 <= x < 2 ^ 32 -> u32 x = x) as Hu32 by (intros; by apply u32_id).
  assert (q <= q * B) by nia.
  destruct (node_ofs <=? 2); [|destruct (node_ofs <=? 2 * 1018 + 4)].
  - by rewrite <- Hb, (Hu32 q), (Hu32 (q * B)), Hu32 by lia.
  - destruct Hb as (Hlo & Hd & Hb). rewrite (Hu32 (node_ofs - 4)), Hd by lia.
    rewrite Hs32 by (Z.to_euclidean_division_equations; lia).
    by rewrite <- Hb, (Hu32 q), (Hu32 (q * B)), Hu32 by lia.
  - destruct Hb as (Hlo & Hd & Hb). rewrite (Hu32 (node_ofs - _ - 3)), Hd by lia.
    rewrite Hs32 by (Z.to_euclidean_division_equations; lia).
    by rewrite <- Hb, (Hu32 q), (Hu32 (q * B)), Hu32 by lia.
Qed.

(** What the path of a block promises: one offset and node number per level,
    the last offset inside its node, the node number of the last level mapping
    back to the block, and the numbers telling direct from indirect nodes. *)
Definition path_ok (block : Z) (p : node_path) : Prop :=
  0 <= level p <= 3
  /\ Z.of_nat (length (offset p)) = level p + 1 /\ Z.of_nat (length (noffset p)) = level p + 1
  /\ 0 <= last_of (offset p) < (if level p =? 0 then D else B)
  /\ (exists s, start_bidx_of_node feature (last_of (noffset p)) node = Ok s
        /\ s + last_of (offset p) = block)
  /\ dnode_ofs (last_of (noffset p)) = true
  /\ Forall (fun n => dnode_ofs n = false) (take (Z.to_nat (level p - 1)) (drop 1 (noffset p))).

Lemma path_ok_1 k b o block :
  k = 1 \/ k = 2 -> 0 <= b < B -> block = D + (k - 1) * B + b ->
  path_ok block {| level := 1; offset := [o; b]; noffset := [0; k] |}.
Proof.
  unfold NIDS_PER_BLOCK, DEF_ADDRS_PER_BLOCK, DEF_ADDRS_PER_INODE in *. intros Hk Hb ->.
  unfold path_ok. cbn [level offset noffset length last_of List.last Z.eqb].
  repeat split; try lia; [|by destruct Hk as [->| ->]|constructor].
  exists ((k - 1) * B + D). split; [|lia]. apply (start_bidx_eq k 0); try lia.
  by replace (k <=? 2) with true by lia.
Qed.

(** [i] is 0 for the first indirect node and 1 for the second. *)
Lemma path_ok_2 i b o block :
  i = 0 \/ i = 1 -> 0 <= b < B * NIDS_PER_BLOCK ->
  block = D + 2 * B + i * (B * NIDS_PER_BLOCK) + b ->
  path_ok block {| level := 2; offset := [o; b / B; b mod B];
    noffset := [0; 3 + i * (NIDS_PER_BLOCK + 1); 4 + i * (NIDS_PER_BLOCK + 1) + b / B] |}.
Proof.
  unfold path_ok. intros Hi Hb Hblk. rewrite dnode_ofs_low.
  all: unfold NIDS_PER_BLOCK, DEF_ADDRS_PER_BLOCK, DEF_ADDRS_PER_INODE in *;
    cbn [level offset noffset length last_of List.last Z.eqb take drop].
  all: assert (0 <= b / B < 1018) by (split; [apply Z.div_pos|apply Z.div_lt_upper_bound]; lia).
  2-4: lia.
  pose proof (Z.mod_pos_bound b B ltac:(lia)). pose proof (Z.div_mod b B ltac:(lia)).
  repeat split; try lia; [|by constructor; [destruct Hi as [->| ->]|]].
  exists ((2 + i * 1018 + b / B) * B + D). split; [|lia]. apply (start_bidx_eq _ i); [lia| |nia|nia].
  unfold NIDS_PER_BLOCK. replace (_ <=? 2) with false by lia. replace (_ <=? 2 * 1018 + 4) with true by lia.
  split; [lia|]. split; [|lia]. symmetry. apply (Z.div_unique _ _ _ (b / B)); lia.
Qed.

Lemma path_ok_3 b o block :
  0 <= b < B * NIDS_PER_BLOCK * NIDS_PER_BLOCK ->
  block = D + 2 * B + 2 * (B * NIDS_PER_BLOCK) + b ->
  let o1 := b / (B * NIDS_PER_BLOCK) in
  let o2 := (b / B) mod NIDS_PER_BLOCK in
  path_ok block {| level := 3; offset := [o; o1; o2; b mod B];
    noffset := [0; 5 + NIDS_PER_BLOCK * 2; 6 + NIDS_PER_BLOCK * 2 + o1 * (NIDS_PER_BLOCK + 1);
                7 + NIDS_PER_BLOCK * 2 + o1 * (NIDS_PER_BLOCK + 1) + o2] |}.
Proof.
  intros Hb Hblk o1 o2. unfold path_ok.
  assert (0 <= o1 < NIDS_PER_BLOCK /\ 0 <= o2 < NIDS_PER_BLOCK
    /\ b / B = o1 * NIDS_PER_BLOCK + o2) as (Ho1 & Ho2 & Hq).
  { subst o1 o2. rewrite <- Z.div_div by (unfold NIDS_PER_BLOCK; lia).
    pose proof (Z.div_mod (b / B) NIDS_PER_BLOCK ltac:(done)).
    split; [|split; [by apply Z.mod_pos_bound|lia]].
    assert (0 <= b / B < NIDS_PER_BLOCK * NIDS_PER_BLOCK)
      by (split; [apply Z.div_pos|apply Z.div_lt_upper_bound]; lia).
    unfold NIDS_PER_BLOCK in *. split; [apply Z.div_pos; lia|apply Z.div_lt_upper_bound; lia]. }
  pose proof (Z.mod_pos_bound b B ltac:(lia)). pose proof (Z.div_mod b B ltac:(lia)).
  cbn [level offset noffset length last_of List.last Z.eqb take drop].
  set (no := 7 + NIDS_PER_BLOCK * 2 + o1 * (NIDS_PER_BLOCK + 1) + o2).
  repeat split; try lia.
  - exists ((2 + 2 * NIDS_PER_BLOCK + b / B) * B + D). split; [|lia].
    unfold NIDS_PER_BLOCK, DEF_ADDRS_PER_BLOCK, DEF_ADDRS_PER_INODE in *.
    apply (start_bidx_eq _ o1); [subst no; lia| |lia|nia].
    unfold NIDS_PER_BLOCK. replace (no <=? 2) with false by (subst no; lia).
    replace (no <=? 2 * 1018 + 4) with false by (subst no; lia).
    split; [subst no; lia|]. split; [|subst no; lia].
    symmetry. apply (Z.div_unique _ _ _ o2); subst no; lia.
  - rewrite (dnode_ofs_high no o1 (1 + o2)); unfold NIDS_PER_BLOCK in *; subst no; lia.
  - constructor; [done|]. constructor; [|constructor].
    rewrite (dnode_ofs_high _ o1 0); unfold NIDS_PER_BLOCK in *; lia.
Qed.

Lemma get_node_path_ok block :
  0 <= block < max_file_blocks ->
  exists p, get_node_path feature node block = Ok p /\ path_ok block p.
Proof.
  unfold max_file_blocks. intros Hblk. unfold get_node_path. rewrite HD, HB.
  unfold mbind, res_bind. rewrite u32_id
    by (unfold is_u32, NIDS_PER_BLOCK, DEF_ADDRS_PER_BLOCK in *; lia).
  repeat match goal with |- context [if ?a <? ?b then _ else _] => destruct (Z.ltb_spec a b) end;
    try lia; eexists; (split; [reflexivity|]).
  - unfold path_ok. cbn. repeat split; try lia; [by exists 0|constructor].
  - apply path_ok_1; lia.
  - apply path_ok_1; lia.
  - apply (path_ok_2 0); lia.
  - apply (path_ok_2 1); lia.
  - apply path_ok_3; lia.
Qed.

Lemma get_node_path_beyond block :
  max_file_blocks <= block -> get_node_path feature node block = Die.
Proof.
  unfold max_file_blocks. intros Hblk. unfold get_node_path. rewrite HD, HB.
  unfold mbind, res_bind. rewrite u32_id
    by (unfold is_u32, NIDS_PER_BLOCK, DEF_ADDRS_PER_BLOCK in *; lia).
  unfold NIDS_PER_BLOCK, DEF_ADDRS_PER_INODE, DEF_ADDRS_PER_BLOCK in *.
  by repeat match goal with
    |- context [if ?a <? ?b then _ else _] => destruct (Z.ltb_spec a b); [lia|] end.
Qed.
End Path.

(** * Footer and pointer fields *)

Lemma get_set_nid rn off nid i rn' :
  is_u32 nid -> set_nid rn off nid i = Ok rn' ->
  0 <= (if i then ofs_i_nid + 4 * (off - NODE_DIR1_BLOCK) else 4 * off) ->
  (if i then ofs_i_nid + 4 * (off - NODE_DIR1_BLOCK) else 4 * off) + 4 <= Z.of_nat (length rn) ->
  get_nid rn' off i = Ok nid.
Proof.
  intros Hn Hs H0 Hl. unfold set_nid, get_nid, set_le in *.
  destruct i; rewrite wr_list_splice in Hs by (rewrite ?length_le_bytes; lia);
    apply Ok_inj in Hs as <-; by apply get_set_le; [lia..|exact Hn].
Qed.

(** [set_cold_node] keeps the node number in the footer. *)
Lemma set_cold_node_ofs rn is_dir rn' :
  bytes rn -> length rn = 4096%nat -> set_cold_node rn is_dir = Ok rn' ->
  ofs_of_node rn' = ofs_of_node rn /\ length rn' = 4096%nat /\ bytes rn'.
Proof.
  intros Hb Hl. unfold set_cold_node. intros (flag & Hf & H)%res_bind_Ok.
  pose proof (get_le_range _ _ _ _ Hb Hf) as Hr. change (8 * Z.of_nat 4) with 32 in Hr.
  unfold COLD_BIT_SHIFT in H. cbn [mbind res_bind shl1 Z.leb Z.ltb Z.compare andb] in H.
  unfold set_le in H. rewrite wr_list_splice in H by (rewrite ?length_le_bytes; unfold ofs_flag; lia).
  apply Ok_inj in H as <-. rewrite length_splice by (rewrite ?length_le_bytes; unfold ofs_flag; lia).
  split; [|split; [done|apply bytes_splice; auto with f2fs]].
  unfold ofs_of_node. rewrite Hf. rewrite get_set_le; [|unfold ofs_flag; lia..|].
  - cbn [mbind res_bind]. f_equal. unfold OFFSET_BIT_SHIFT. bitwise j Hj.
    rewrite !Z.shiftr_spec by lia.
    destruct is_dir; unfold u32; rewrite testbit_mod_pow2 by lia;
      [rewrite Z.land_spec, Z.lnot_spec by lia|rewrite Z.lor_spec];
      (destruct (Z.ltb_spec (j + 3) 32); [|by rewrite (testbit_high flag 32) by lia]).
    + change (2 ^ 0) with (Z.shiftl 1 0). rewrite testbit_shiftl_1 by lia.
      replace (j + 3 =? 0) with false by lia. cbn. by rewrite andb_true_r.
    + change (2 ^ 0) with (Z.shiftl 1 0). rewrite testbit_shiftl_1 by lia.
      replace (j + 3 =? 0) with false by lia. by rewrite orb_false_r.
  - change (8 * Z.of_nat 4) with 32. destruct is_dir; apply u32_range.
Qed.

(** * Properties *)


(** A regular file's inode, with no inline flags. *)
Definition sample_inode : list Z := splice (replicate 4096 0) ofs_i_mode (le_bytes 2 0x81a4).


(** The first direct node of such a file, holding block address [0x01000000]. *)
Definition sample_dnode : list Z :=
  splice (splice (splice (splice (replicate 4096 0) 0 (le_bytes 4 0x01000000))
    ofs_nid (le_bytes 4 5)) ofs_ino (le_bytes 4 4)) ofs_flag (le_bytes 4 (Z.shiftl 1 3)).

(** [dump_data_offset] hands [start_bidx_of_node] the direct node it has
    read, not the inode, so the counts are taken from block addresses: for the
    first slot of the first direct node of a plain file, which maps block 923, it
    reports block 873 when the first address there is [0x01000000]. *)
Theorem dump_data_offset_misreads_dnode :
  get_node_path 0 sample_inode 923 = Ok {| level := 1; offset := [924; 0]; noffset := [0; 1] |}
  /\ ofs_of_node sample_dnode = Ok 1 /\ IS_INODE sample_dnode = Ok false
  /\ start_bidx_of_node 0 1 sample_inode = Ok 923
  /\ dump_data_offset 0 sample_dnode 0 = Ok 873.
Proof. vm_compute. auto. Qed.

(** [f2fs_max_file_offset] returns an [unsigned int]: for a file that is not
    compressed it is the size modulo 4 GiB, so it is below the size of every
    larger file. *)
Theorem f2fs_max_file_offset_truncates (node : list Z) (i_size : Z) :
  bytes node -> is_compr_reg node = Ok false -> get_le64 node ofs_i_size = Ok i_size ->
  exists r, f2fs_max_file_offset node = Ok r /\ r = i_size mod 2 ^ 32
    /\ (r < i_size <-> 2 ^ 32 <= i_size).
Proof.
  intros Hb Hc Hs. pose proof (get_le_range _ _ _ _ Hb Hs) as Hr.
  exists (u32 i_size). split; [|split].
  - unfold f2fs_max_file_offset, mbind, res_bind. by rewrite Hc, Hs.
  - done.
  - unfold u32. pose proof (Z.mod_pos_bound i_size (2 ^ 32)).
    destruct (Z.lt_ge_cases i_size (2 ^ 32)); [rewrite Z.mod_small by lia|]; lia.
Qed.

Definition sample_big_inode : list Z :=
  splice sample_inode ofs_i_size (le_bytes 8 (5 * 2 ^ 30)).

Lemma f2fs_max_file_offset_truncates_witness :
  f2fs_max_file_offset sample_big_inode = Ok (2 ^ 30)
  /\ exists r, f2fs_max_file_offset sample_big_inode = Ok r /\ r = (5 * 2 ^ 30) mod 2 ^ 32
       /\ (r < 5 * 2 ^ 30 <-> 2 ^ 32 <= 5 * 2 ^ 30).
Proof.
  split; [vm_compute; reflexivity|].
  apply (f2fs_max_file_offset_truncates sample_big_inode (5 * 2 ^ 30)).
  - apply bytes_splice; [apply bytes_splice|]; [|apply bytes_le_bytes..].
    apply Forall_replicate. unfold is_u8. lia.
  - vm_compute. reflexivity.
  - vm_compute. reflexivity.
Defined.
