(* ===== verification/Dir.v ===== *)
(** Directory entries: the name hash of lib/libf2fs.c ([TEA_transform],
    [str2hashbuf], [__f2fs_dentry_hash]), the geometry of the multi-level hash
    table of a directory (fsck/f2fs.h) and the operations of fsck/dir.c on one
    block of entries ([room_for_filename], [make_dentry_ptr],
    [find_target_dentry], [find_in_block], [f2fs_update_dentry]).

    A block of entries is a byte buffer; [f2fs_dentry_ptr] holds the places in
    it that the C structure points to. The abstract view of a block is the list
    of its entries in slot order, given by the relation [scan]. *)
From Stdlib Require Import ZArith Lia List Bool.
From stdpp Require Import base numbers list.
From S2P Require Import Prelude Bits Node.

(** * Name hash *)

Definition DELTA : Z := 0x9E3779B9.

(** One round of the loop: [sum], [b0] and [b1] with the four key words. *)
Definition TEA_round (a b c d : Z) (st : Z * Z * Z) : Z * Z * Z :=
  let '(sum, b0, b1) := st in
  let sum := u32 (sum + DELTA) in
  let b0 := u32 (b0 + Z.lxor (Z.lxor (u32 (u32 (Z.shiftl b1 4) + a)) (u32 (b1 + sum)))
                             (u32 (Z.shiftr b1 5 + b))) in
  let b1 := u32 (b1 + Z.lxor (Z.lxor (u32 (u32 (Z.shiftl b0 4) + c)) (u32 (b0 + sum)))
                             (u32 (Z.shiftr b0 5 + d))) in
  (sum, b0, b1).

(** [buf[0]] and [buf[1]] after the transformation. *)
Definition TEA_transform (buf : Z * Z) (inp : list Z) : res (Z * Z) :=
  a ← rd inp 0; b ← rd inp 1; c ← rd inp 2; d ← rd inp 3;
  let '(_, b0, b1) := Nat.iter 16 (TEA_round a b c d) (0, buf.1, buf.2) in
  Ok (u32 (buf.1 + b0), u32 (buf.2 + b1)).

(** The loop over the first [n] remaining characters; [out] are the words stored
    so far. *)
Fixpoint str2hashbuf_loop (n : nat) (msg : list Z) (i pad val num : Z) (out : list Z) : res (Z * Z * list Z) :=
  match n with
  | O => Ok (val, num, out)
  | S n =>
      let val := if i mod 4 =? 0 then pad else val in
      ch ← rd msg i;
      let val := u32 (ch + u32 (Z.shiftl val 8)) in
      if i mod 4 =? 3 then str2hashbuf_loop n msg (i + 1) pad pad (num - 1) (out ++ [val])
      else str2hashbuf_loop n msg (i + 1) pad val num out
  end.

Definition str2hashbuf (msg : list Z) (len num : Z) : res (list Z) :=
  let pad := Z.lor (u32 len) (u32 (Z.shiftl (u32 len) 8)) in
  let pad := Z.lor pad (u32 (Z.shiftl pad 16)) in
  let len := if num * 4 <? len then num * 4 else len in
  '(val, num, out) ← str2hashbuf_loop (Z.to_nat len) msg 0 pad pad num [];
  let num := num - 1 in
  let out := if 0 <=? num then out ++ [val] else out in
  Ok (out ++ replicate (Z.to_nat num) pad).

Definition F2FS_HASH_COL_BIT : Z := Z.shiftl 1 63.

Fixpoint dentry_hash_loop (fuel : nat) (p : list Z) (len : Z) (buf : Z * Z) : res (Z * Z) :=
  match fuel with
  | O => NoFuel
  | S fuel =>
      inp ← str2hashbuf p len 4;
      buf ← TEA_transform buf inp;
      if len <=? 16 then Ok buf else dentry_hash_loop fuel (drop 16 p) (len - 16) buf
  end.

(** The dentries [.] and [..]; [name[1]] is read for one-character names too. *)
Definition special_dentry (name : list Z) (len : Z) : res bool :=
  if len <=? 2 then
    n0 ← rd name 0;
    if n0 =? 46 then n1 ← rd name 1; Ok ((n1 =? 46) || (n1 =? 0)) else Ok false
  else Ok false.

(** Every round of the loop takes 16 characters off [len]. *)
Definition __f2fs_dentry_hash (name : list Z) (len : Z) : res Z :=
  special ← special_dentry name len;
  if special : bool then Ok 0
  else
    buf ← dentry_hash_loop (S (Z.to_nat len)) name len (0x67452301, 0xefcdab89);
    Ok (u32 (Z.land buf.1 (u64 (Z.lnot F2FS_HASH_COL_BIT)))).

(** * Geometry of the hash table *)

Definition MAX_DIR_HASH_DEPTH : Z := 63.
Definition MAX_DIR_BUCKETS : Z := Z.shiftl 1 (MAX_DIR_HASH_DEPTH / 2 - 1).

Definition dir_buckets (level dir_level : Z) : Z :=
  if u32 (level + dir_level) <? MAX_DIR_HASH_DEPTH / 2 then Z.shiftl 1 (u32 (level + dir_level))
  else MAX_DIR_BUCKETS.

Definition bucket_blocks (level : Z) : Z := if level <? MAX_DIR_HASH_DEPTH / 2 then 2 else 4.

(** The products are [unsigned int], the sum is [unsigned long]. *)
Fixpoint dir_block_index_loop (n : nat) (dir_level : Z) : Z :=
  match n with
  | O => 0
  | S i => u64 (dir_block_index_loop i dir_level
                + u32 (dir_buckets (Z.of_nat i) dir_level * bucket_blocks (Z.of_nat i)))
  end.

Definition dir_block_index (level dir_level idx : Z) : Z :=
  u64 (dir_block_index_loop (Z.to_nat level) dir_level + u32 (idx * bucket_blocks level)).

Definition is_dot_dotdot (name : list Z) (len : Z) : res bool :=
  one ← (if len =? 1 then c ← rd name 0; Ok (c =? 46) else Ok false);
  if one : bool then Ok true
  else if len =? 2 then
    c ← rd name 0;
    if c =? 46 then c ← rd name 1; Ok (c =? 46) else Ok false
  else Ok false.

(** * One block of entries *)

Definition F2FS_SLOT_LEN : Z := 8.
Definition GET_DENTRY_SLOTS (x : Z) : Z := Z.shiftr (x + F2FS_SLOT_LEN - 1) 3.
Definition NR_DENTRY_IN_BLOCK : Z := 214.
Definition SIZE_OF_DIR_ENTRY : Z := 11.
Definition SIZE_OF_DENTRY_BITMAP : Z := (NR_DENTRY_IN_BLOCK + BITS_PER_BYTE - 1) / BITS_PER_BYTE.
Definition SIZE_OF_RESERVED : Z :=
  F2FS_BLKSIZE - ((SIZE_OF_DIR_ENTRY + F2FS_SLOT_LEN) * NR_DENTRY_IN_BLOCK + SIZE_OF_DENTRY_BITMAP).

(** Members of [struct f2fs_dir_entry]. *)
Definition ofs_hash_code : Z := 0.
Definition ofs_de_ino : Z := 4.
Definition ofs_name_len : Z := 8.
Definition ofs_file_type : Z := 10.

(** [struct f2fs_dentry_ptr], the pointers as offsets into the buffer. *)
Record f2fs_dentry_ptr := {
  dp_bitmap : Z;
  dp_dentry : Z;
  dp_filename : Z;
  dp_max : Z;
  dp_nr_bitmap : Z;
}.

Definition room_for_filename_step (bitmap : list Z) (slots max_slots bit_start : Z) : res (Z + Z) :=
  zero_start ← find_next_zero_bit_le bitmap max_slots bit_start;
  if max_slots <=? zero_start then Ok (inl max_slots)
  else
    zero_end ← find_next_bit_le bitmap max_slots (zero_start + 1);
    if slots <=? zero_end - zero_start then Ok (inl zero_start) else Ok (inr zero_end).

Fixpoint room_for_filename_loop (fuel : nat) (bitmap : list Z) (slots max_slots bit_start : Z) : res Z :=
  match fuel with
  | O => NoFuel
  | S fuel =>
      r ← room_for_filename_step bitmap slots max_slots bit_start;
      match r with
      | inl pos => Ok pos
      | inr next => room_for_filename_loop fuel bitmap slots max_slots next
      end
  end.

(** [bit_start] grows at every [goto next]. *)
Definition room_for_filename (bitmap : list Z) (slots max_slots : Z) : res Z :=
  room_for_filename_loop (S (Z.to_nat max_slots)) bitmap slots max_slots 0.

Definition DEF_INLINE_RESERVED_SIZE : Z := 1.
Definition MAX_INLINE_DATA (feature : Z) (node : list Z) : res Z :=
  xattr ← get_inline_xattr_addrs feature node;
  extra ← __get_extra_isize node;
  Ok (u64 (4 * (DEF_ADDRS_PER_INODE - xattr - extra - DEF_INLINE_RESERVED_SIZE))).

(** The macros of the inline layout, as functions of [MAX_INLINE_DATA(node)]; they
    are [unsigned long] expressions. *)
Definition NR_INLINE_DENTRY (m : Z) : Z :=
  u64 (m * BITS_PER_BYTE) / ((SIZE_OF_DIR_ENTRY + F2FS_SLOT_LEN) * BITS_PER_BYTE + 1).
Definition INLINE_DENTRY_BITMAP_SIZE (m : Z) : Z :=
  (NR_INLINE_DENTRY m + BITS_PER_BYTE - 1) / BITS_PER_BYTE.
Definition INLINE_RESERVED_SIZE (m : Z) : Z :=
  u64 (m - ((SIZE_OF_DIR_ENTRY + F2FS_SLOT_LEN) * NR_INLINE_DENTRY m + INLINE_DENTRY_BITMAP_SIZE m)).

(** [src] is the place in the buffer where the entries start: 0 for a block of
    entries ([type] 1), [inline_data_addr] of the inode for inline entries. *)
Definition make_dentry_ptr (feature : Z) (node_blk : list Z) (src type : Z) : res f2fs_dentry_ptr :=
  if type =? 1 then
    Ok {| dp_max := NR_DENTRY_IN_BLOCK; dp_nr_bitmap := SIZE_OF_DENTRY_BITMAP;
          dp_bitmap := src;
          dp_dentry := src + SIZE_OF_DENTRY_BITMAP + SIZE_OF_RESERVED;
          dp_filename := src + SIZE_OF_DENTRY_BITMAP + SIZE_OF_RESERVED
                         + SIZE_OF_DIR_ENTRY * NR_DENTRY_IN_BLOCK |}
  else
    m ← MAX_INLINE_DATA feature node_blk;
    let entry_cnt := s32 (NR_INLINE_DENTRY m) in
    let bitmap_size := s32 (INLINE_DENTRY_BITMAP_SIZE m) in
    let reserved_size := s32 (INLINE_RESERVED_SIZE m) in
    Ok {| dp_max := entry_cnt; dp_nr_bitmap := bitmap_size;
          dp_bitmap := src;
          dp_dentry := src + bitmap_size + reserved_size;
          dp_filename := src + bitmap_size + reserved_size + SIZE_OF_DIR_ENTRY * entry_cnt |}.

Definition inline_data_addr (node_blk : list Z) : res Z :=
  extra ← __get_extra_isize node_blk;
  Ok (ofs_i_addr + 4 * (extra + DEF_INLINE_RESERVED_SIZE)).

(** The bytes a bitmap pointer leads to. *)
Definition bitmap_of (buf : list Z) (d : f2fs_dentry_ptr) : list Z := drop (Z.to_nat (dp_bitmap d)) buf.

(** The condition of the [if] in the loop: same length, same hash, same bytes. *)
Definition dentry_matches (buf : list Z) (d : f2fs_dentry_ptr) (name : list Z) (len namehash pos : Z) : res bool :=
  let de := dp_dentry d + SIZE_OF_DIR_ENTRY * pos in
  nl ← get_le16 buf (de + ofs_name_len);
  if nl =? len then
    hc ← get_le32 buf (de + ofs_hash_code);
    if hc =? namehash then
      l ← rd_bytes buf (dp_filename d + F2FS_SLOT_LEN * pos) (Z.to_nat len);
      r ← rd_bytes name 0 (Z.to_nat len);
      Ok (bool_decide (l = r))
    else Ok false
  else Ok false.

(** [max_slots] is [None] when the caller passes a null pointer. *)
Definition note_slots (max_slots : option Z) (max_len : Z) : option Z :=
  (fun m => if m <? max_len then max_len else m) <$> max_slots.

Fixpoint find_target_dentry_loop (fuel : nat) (buf : list Z) (d : f2fs_dentry_ptr) (name : list Z)
    (len namehash : Z) (max_slots : option Z) (bit_pos max_len : Z) : res (option Z * option Z) :=
  match fuel with
  | O => NoFuel
  | S fuel =>
      if bit_pos <? dp_max d then
        b ← test_bit_le bit_pos (bitmap_of buf d);
        if b =? 0 then
          find_target_dentry_loop fuel buf d name len namehash max_slots (bit_pos + 1) (max_len + 1)
        else
          found ← dentry_matches buf d name len namehash bit_pos;
          if found : bool then Ok (Some bit_pos, note_slots max_slots max_len)
          else
            nl ← get_le16 buf (dp_dentry d + SIZE_OF_DIR_ENTRY * bit_pos + ofs_name_len);
            find_target_dentry_loop fuel buf d name len namehash (note_slots max_slots max_len)
              (bit_pos + GET_DENTRY_SLOTS nl) 0
      else Ok (None, note_slots max_slots max_len)
  end.

(** The slot of the entry, if there is one, and [*max_slots]. *)
Definition find_target_dentry (buf : list Z) (d : f2fs_dentry_ptr) (name : list Z) (len namehash : Z)
    (max_slots : option Z) : res (option Z * option Z) :=
  find_target_dentry_loop (S (Z.to_nat (dp_max d))) buf d name len namehash
    ((fun _ => 0) <$> max_slots) 0 0.

Definition find_in_block (block name : list Z) (len namehash : Z) (max_slots : option Z)
    : res (option Z * option Z) :=
  d ← make_dentry_ptr 0 [] 0 1;
  find_target_dentry block d name len namehash max_slots.

Fixpoint set_slot_bits (n : nat) (buf : list Z) (d : f2fs_dentry_ptr) (pos : Z) : res (list Z) :=
  match n with
  | O => Ok buf
  | S n =>
      '(_, bm) ← test_and_set_bit_le pos (bitmap_of buf d);
      set_slot_bits n (take (Z.to_nat (dp_bitmap d)) buf ++ bm) d (pos + 1)
  end.

Definition f2fs_update_dentry (ino file_type : Z) (buf : list Z) (d : f2fs_dentry_ptr) (name : list Z)
    (len name_hash bit_pos : Z) : res (list Z) :=
  let slots := GET_DENTRY_SLOTS len in
  let de := dp_dentry d + SIZE_OF_DIR_ENTRY * bit_pos in
  let fn := dp_filename d + F2FS_SLOT_LEN * bit_pos in
  buf ← set_le16 buf (de + ofs_name_len) (u16 len);
  buf ← set_le32 buf (de + ofs_hash_code) name_hash;
  bs ← rd_bytes name 0 (Z.to_nat len);
  buf ← wr_list buf fn bs;
  buf ← wr buf (fn + len) 0;
  buf ← set_le32 buf (de + ofs_de_ino) ino;
  buf ← wr buf (de + ofs_file_type) (u8 file_type);
  set_slot_bits (Z.to_nat slots) buf d bit_pos.

(** * The abstract view of a block *)

Record dir_entry := { e_hash : Z; e_ino : Z; e_type : Z; e_name : list Z }.

Definition e_len (e : dir_entry) : Z := Z.of_nat (length (e_name e)).
Definition e_slots (e : dir_entry) : Z := GET_DENTRY_SLOTS (e_len e).

(** The buffer is large enough for the layout that [d] describes. *)
Record dp_ok (d : f2fs_dentry_ptr) (buf : list Z) : Prop := {
  dpo_bitmap : 0 <= dp_bitmap d;
  dpo_max : 0 <= dp_max d <= 8 * dp_nr_bitmap d;
  dpo_small : dp_max d < 2 ^ 31;
  dpo_dentry : dp_bitmap d + dp_nr_bitmap d <= dp_dentry d;
  dpo_filename : dp_dentry d + SIZE_OF_DIR_ENTRY * dp_max d <= dp_filename d;
  dpo_end : dp_filename d + F2FS_SLOT_LEN * dp_max d <= Z.of_nat (length buf);
  dpo_bytes : bytes buf;
}.

(** The members of slot [pos]. *)
Record entry_at (buf : list Z) (d : f2fs_dentry_ptr) (pos : Z) (e : dir_entry) : Prop := {
  ea_len : get_le16 buf (dp_dentry d + SIZE_OF_DIR_ENTRY * pos + ofs_name_len) = Ok (e_len e);
  ea_hash : get_le32 buf (dp_dentry d + SIZE_OF_DIR_ENTRY * pos + ofs_hash_code) = Ok (e_hash e);
  ea_ino : get_le32 buf (dp_dentry d + SIZE_OF_DIR_ENTRY * pos + ofs_de_ino) = Ok (e_ino e);
  ea_type : rd buf (dp_dentry d + SIZE_OF_DIR_ENTRY * pos + ofs_file_type) = Ok (e_type e);
  ea_name : rd_bytes buf (dp_filename d + F2FS_SLOT_LEN * pos) (length (e_name e)) = Ok (e_name e);
}.

Definition dbit (buf : list Z) (d : f2fs_dentry_ptr) (i : Z) : bool := bit_le (bitmap_of buf d) i.

(** [scan buf d pos es]: from slot [pos] on, the block holds the entries [es],
    each with its first slot; every slot is free or covered by one entry. *)
Inductive scan (buf : list Z) (d : f2fs_dentry_ptr) : Z -> list (Z * dir_entry) -> Prop :=
| scan_end : scan buf d (dp_max d) []
| scan_free pos es :
    pos < dp_max d -> dbit buf d pos = false -> scan buf d (pos + 1) es -> scan buf d pos es
| scan_entry pos e es :
    0 < e_len e -> pos + e_slots e <= dp_max d -> entry_at buf d pos e ->
    (forall i, pos <= i < pos + e_slots e -> dbit buf d i = true) ->
    scan buf d (pos + e_slots e) es -> scan buf d pos ((pos, e) :: es).

Definition e_matches (e : dir_entry) (name : list Z) (hash : Z) : bool :=
  bool_decide (e_name e = name) && (e_hash e =? hash).

Fixpoint lookup_entry (name : list Z) (hash : Z) (es : list (Z * dir_entry)) : option Z :=
  match es with
  | [] => None
  | (p, e) :: es => if e_matches e name hash then Some p else lookup_entry name hash es
  end.

(** * Lemmas on one block *)

Lemma slots_bounds len : 0 < len ->
  0 < GET_DENTRY_SLOTS len /\ len <= 8 * GET_DENTRY_SLOTS len /\ 8 * GET_DENTRY_SLOTS len < len + 8.
Proof.
  intros H. unfold GET_DENTRY_SLOTS, F2FS_SLOT_LEN. rewrite shiftr3_div.
  Z.to_euclidean_division_equations. lia.
Qed.

Lemma scan_range buf d pos es : scan buf d pos es -> pos <= dp_max d.
Proof.
  induction 1 as [|pos es|pos e es Hn]; [lia..|].
  pose proof (slots_bounds _ Hn). unfold e_slots in *. lia.
Qed.

Lemma dp_ok_nbits d buf : dp_ok d buf -> dp_max d <= nbits (bitmap_of buf d).
Proof.
  intros []. unfold nbits, bitmap_of, SIZE_OF_DIR_ENTRY, F2FS_SLOT_LEN in *.
  rewrite length_drop. lia.
Qed.

Lemma bytes_bitmap_of d buf : bytes buf -> bytes (bitmap_of buf d).
Proof. intros H. by apply Forall_drop. Qed.

Lemma test_dbit d buf i : dp_ok d buf -> 0 <= i < dp_max d ->
  exists v, test_bit_le i (bitmap_of buf d) = Ok v /\ (v =? 0) = negb (dbit buf d i).
Proof.
  intros Hd Hi. destruct (@bm_test_ok _ le_bitmap_laws (bitmap_of buf d) i) as (v & Hv & Hb).
  - apply bytes_bitmap_of, Hd.
  - pose proof (dp_ok_nbits d buf Hd). lia.
  - exists v. split; [done|]. cbn in Hb. unfold dbit. by rewrite <- Hb, negb_involutive.
Qed.

Lemma rd_bytes_all l : rd_bytes l 0 (length l) = Ok l.
Proof. rewrite rd_bytes_Ok by lia. by rewrite drop_0, firstn_all. Qed.

Lemma dentry_matches_spec buf d pos e name hash :
  entry_at buf d pos e ->
  dentry_matches buf d name (Z.of_nat (length name)) hash pos = Ok (e_matches e name hash).
Proof.
  intros []. unfold dentry_matches, mbind, res_bind, e_matches. rewrite ea_len0.
  unfold e_len. destruct (Z.eqb_spec (Z.of_nat (length (e_name e))) (Z.of_nat (length name))) as [Hl|Hl].
  - rewrite ea_hash0. destruct (e_hash e =? hash); [|by rewrite andb_false_r].
    rewrite andb_true_r, Nat2Z.id, rd_bytes_all. apply Nat2Z.inj in Hl. by rewrite <- Hl, ea_name0.
  - rewrite bool_decide_eq_false_2; [done|]. intros E. by rewrite E in Hl.
Qed.

Lemma find_target_dentry_spec buf d name hash pos es fuel max_len :
  dp_ok d buf -> scan buf d pos es -> 0 <= pos -> dp_max d - pos < Z.of_nat fuel ->
  find_target_dentry_loop fuel buf d name (Z.of_nat (length name)) hash None pos max_len
    = Ok (lookup_entry name hash es, None).
Proof.
  intros Hd Hs0. revert fuel max_len. induction Hs0 as [|pos es Hlt Hb Hs IH|pos e es Hn Hle He Hb Hs IH];
    intros fuel ml H0 Hf;
    (destruct fuel as [|fuel]; [try pose proof (scan_range _ _ _ _ Hs);
      try pose proof (slots_bounds _ Hn); unfold e_slots in *; lia|]); cbn [find_target_dentry_loop].
  - by replace (dp_max d <? dp_max d) with false by lia.
  - replace (pos <? dp_max d) with true by lia. destruct (test_dbit d buf pos Hd) as (v & Hv & Hz); [lia|].
    unfold mbind, res_bind. rewrite Hv, Hz, Hb. cbn [negb]. apply IH; lia.
  - destruct (slots_bounds (e_len e) Hn) as (Hp & _). fold (e_slots e) in Hp.
    replace (pos <? dp_max d) with true by lia. destruct (test_dbit d buf pos Hd) as (v & Hv & Hz); [lia|].
    unfold mbind, res_bind. rewrite Hv, Hz, Hb by lia. cbn [negb].
    rewrite (dentry_matches_spec buf d pos e) by done. cbn [lookup_entry].
    destruct (e_matches e name hash); [done|]. rewrite (ea_len _ _ _ _ He).
    cbn [note_slots fmap option_fmap option_map]. apply IH; fold (e_slots e); lia.
Qed.

(** First fit. *)
Definition free_run (bm : list Z) (p n : Z) : Prop := forall i, p <= i < p + n -> bit_le bm i = false.

Lemma find_next_bits (bm : list Z) size offset :
  0 <= size <= nbits bm -> size < 2 ^ 31 -> 0 <= offset ->
  (exists r, find_next_bit_le bm size offset = Ok r /\ is_next (bit_le bm) size offset r) /\
  (exists r, find_next_zero_bit_le bm size offset = Ok r
     /\ is_next (fun i => negb (bit_le bm i)) size offset r).
Proof.
  intros Hs Hm Ho. split.
  - destruct (_find_next_bit_le_spec bm size 0 (or_introl eq_refl) Hs ltac:(lia) offset Ho) as (r & Hr & Hn).
    exists r. split; [done|]. unfold is_next in *. destruct (size <=? offset); [done|].
    by setoid_rewrite xorb_false_r in Hn.
  - destruct (_find_next_bit_le_spec bm size 255 (or_intror eq_refl) Hs ltac:(lia) offset Ho) as (r & Hr & Hn).
    exists r. split; [done|]. unfold is_next in *. destruct (size <=? offset); [done|].
    by setoid_rewrite xorb_true_r in Hn.
Qed.

Definition first_fit (bm : list Z) (slots max r : Z) : Prop :=
  (r = max \/ 0 <= r /\ r + slots <= max /\ free_run bm r slots) /\
  forall p, 0 <= p < r -> p + slots <= max -> ~ free_run bm p slots.

Lemma room_for_filename_loop_spec bm slots max fuel start :
  0 < slots -> 0 <= max <= nbits bm -> max < 2 ^ 31 -> 0 <= start <= max ->
  max - start < Z.of_nat fuel ->
  (forall p, 0 <= p < start -> p + slots <= max -> ~ free_run bm p slots) ->
  exists r, room_for_filename_loop fuel bm slots max start = Ok r /\ first_fit bm slots max r.
Proof.
  intros Hs Hm Hb. revert start. induction fuel as [|fuel IH]; intros start H0 Hf Hno; [lia|].
  cbn [room_for_filename_loop]. unfold room_for_filename_step.
  destruct (find_next_bits bm max start) as [_ (zs & Hzs & Hz)]; [done..|lia|].
  unfold mbind, res_bind. rewrite Hzs. unfold is_next in Hz.
  destruct (Z.leb_spec max start) as [Hms|Hms].
  { subst zs. replace (max <=? max) with true by lia. exists max. split; [done|].
    split; [by left|]. intros p Hp. apply Hno. lia. }
  destruct Hz as (Hzr & Hz1 & Hz2).
  assert (forall p, start <= p < zs -> ~ free_run bm p slots) as Hset.
  { intros p Hp Hfr. specialize (Hz2 p ltac:(lia)). rewrite (Hfr p ltac:(lia)) in Hz2. done. }
  destruct (Z.leb_spec max zs) as [Hmz|Hmz].
  { exists max. split; [done|]. split; [by left|]. intros p Hp Hle.
    destruct (Z.lt_ge_cases p start); [apply Hno; lia|apply Hset; lia]. }
  destruct (find_next_bits bm max (zs + 1)) as [(ze & Hze & He) _]; [done..|lia|]. rewrite Hze.
  assert (zs < ze <= max /\ (ze < max -> bit_le bm ze = true) /\ forall i, zs <= i < ze -> bit_le bm i = false)
    as (Her & He1 & He2).
  { unfold is_next in He. specialize (Hz1 ltac:(lia)). apply negb_true_iff in Hz1.
    destruct (Z.leb_spec max (zs + 1)).
    - subst ze. split; [lia|]. split; [lia|]. intros i Hi. by replace i with zs by lia.
    - destruct He as (? & ? & Hlow). split; [lia|]. split; [done|]. intros i Hi.
      destruct (Z.eq_dec i zs) as [->|]; [done|apply Hlow; lia]. }
  destruct (Z.leb_spec slots (ze - zs)).
  - exists zs. split; [done|]. split.
    + right. split; [lia|]. split; [lia|]. intros i Hi. apply He2. lia.
    + intros p Hp Hle. destruct (Z.lt_ge_cases p start); [apply Hno; lia|apply Hset; lia].
  - apply IH; [lia|lia|]. intros p Hp Hle. destruct (Z.lt_ge_cases p start); [apply Hno; lia|].
    destruct (Z.lt_ge_cases p zs); [apply Hset; lia|]. intros Hfr.
    assert (bit_le bm ze = true) as Hbz by (apply He1; lia). rewrite (Hfr ze) in Hbz by lia. done.
Qed.

Lemma room_for_filename_first_fit bm slots max :
  0 < slots -> 0 <= max <= nbits bm -> max < 2 ^ 31 ->
  exists r, room_for_filename bm slots max = Ok r /\ first_fit bm slots max r.
Proof. intros. apply room_for_filename_loop_spec; try lia. Qed.

Lemma wr_splice l i x : 0 <= i < Z.of_nat (length l) -> wr l i x = Ok (splice l i [x]).
Proof.
  intros Hi. pose proof (wr_list_splice l i [x]) as H. cbn [wr_list length] in H.
  rewrite wr_total in H |- * by lia. cbn in H. apply H; lia.
Qed.

Lemma test_and_set_frame nr l v l' j :
  test_and_set_bit_le nr l = Ok (v, l') -> 0 <= j -> j <> Z.shiftr nr 3 -> rd l' j = rd l j.
Proof.
  unfold test_and_set_bit_le. intros (c & Hc & H)%res_bind_Ok Hj Hne.
  apply res_bind_Ok in H as (l2 & [Hr ->]%wr_Ok & [= _ <-]).
  rewrite rd_insert by done. by destruct (Z.eqb_spec j (Z.shiftr nr 3)).
Qed.

Lemma set_slot_bits_spec n buf d pos :
  dp_ok d buf -> 0 <= pos -> pos + Z.of_nat n <= dp_max d ->
  exists buf', set_slot_bits n buf d pos = Ok buf' /\ dp_ok d buf' /\ length buf' = length buf /\
    (forall i, dp_bitmap d + dp_nr_bitmap d <= i -> rd buf' i = rd buf i) /\
    (forall i, 0 <= i -> dbit buf' d i = ((pos <=? i) && (i <? pos + Z.of_nat n)) || dbit buf d i).
Proof.
  revert buf pos. induction n as [|n IH]; intros buf pos Hd H0 Hn; cbn [set_slot_bits].
  - exists buf. split; [done|]. split; [done|]. split; [done|]. split; [done|]. intros i Hi.
    destruct (Z.leb_spec pos i), (Z.ltb_spec i (pos + Z.of_nat 0)); cbn; done || lia.
  - destruct (@bm_set_ok _ le_bitmap_laws (bitmap_of buf d) pos) as (v & bm & Hbm & _ & Hl & Hby & Hbit).
    { apply bytes_bitmap_of, Hd. } { pose proof (dp_ok_nbits d buf Hd). lia. }
    cbn [bm_set bm_bit le_bitmap] in Hbm, Hbit. unfold mbind, res_bind. rewrite Hbm.
    set (buf1 := take (Z.to_nat (dp_bitmap d)) buf ++ bm).
    pose proof Hd as [Hd1 Hd2 Hd3 Hd4 Hd5 Hd6 Hd7].
    unfold SIZE_OF_DIR_ENTRY, F2FS_SLOT_LEN in Hd5, Hd6.
    assert (length (take (Z.to_nat (dp_bitmap d)) buf) = Z.to_nat (dp_bitmap d)) as Ht
      by (rewrite length_take; lia).
    assert (bitmap_of buf1 d = bm) as Hb1.
    { unfold bitmap_of, buf1. rewrite <- Ht at 1. by rewrite drop_app_length. }
    assert (length buf1 = length buf) as Hl1.
    { unfold buf1. rewrite length_app, Ht, Hl. unfold bitmap_of. rewrite length_drop. lia. }
    assert (dp_ok d buf1) as Hok.
    { constructor; try done; [by rewrite Hl1|]. apply Forall_app. split; [by apply Forall_take|done]. }
    destruct (IH buf1 (pos + 1) Hok) as (buf' & H' & Hok' & Hl' & Hf & Hbits); [lia..|].
    exists buf'. split; [done|]. split; [done|]. split; [by rewrite Hl'|]. split.
    + intros i Hi. rewrite Hf by done. unfold buf1. rewrite rd_app_r by lia.
      rewrite (test_and_set_frame pos (bitmap_of buf d) v bm) by
        (done || lia || rewrite shiftr3_div; Z.to_euclidean_division_equations; lia).
      rewrite <- (take_drop (Z.to_nat (dp_bitmap d)) buf) at 3. by rewrite rd_app_r by lia.
    + intros i Hi. rewrite Hbits by done. unfold dbit at 1. rewrite Hb1, Hbit by done.
      fold (dbit buf d i). rewrite orb_assoc. f_equal.
      destruct (Z.leb_spec (pos + 1) i), (Z.ltb_spec i (pos + 1 + Z.of_nat n)), (Z.eqb_spec i pos),
        (Z.leb_spec pos i), (Z.ltb_spec i (pos + Z.of_nat (S n))); cbn; done || lia.
Qed.

(** The slots that storing a name of [len] characters and its terminator touches. *)
Definition touched (len : Z) : Z := len / 8 + 1.

Lemma touched_slots len : 0 < len ->
  GET_DENTRY_SLOTS len <= touched len /\ len < 8 * touched len /\
  touched len = GET_DENTRY_SLOTS len + (if len mod 8 =? 0 then 1 else 0).
Proof.
  intros H. unfold touched, GET_DENTRY_SLOTS, F2FS_SLOT_LEN. rewrite shiftr3_div.
  destruct (Z.eqb_spec (len mod 8) 0); Z.to_euclidean_division_equations; lia.
Qed.

(** Lengths of nested splices, and reading past those that do not concern a field. *)
Ltac len_tac :=
  repeat (rewrite length_splice by len_tac);
  rewrite ?length_le_bytes, ?length_app; cbn [length]; lia.
Ltac past_splices :=
  repeat first [rewrite get_le_splice_ne by len_tac | rewrite rd_splice_ne by len_tac].

Lemma entry_at_ext buf buf' d q e :
  0 < e_len e ->
  (forall i, dp_dentry d + SIZE_OF_DIR_ENTRY * q <= i < dp_dentry d + SIZE_OF_DIR_ENTRY * (q + 1) ->
     rd buf' i = rd buf i) ->
  (forall i, dp_filename d + F2FS_SLOT_LEN * q <= i < dp_filename d + F2FS_SLOT_LEN * (q + e_slots e) ->
     rd buf' i = rd buf i) ->
  entry_at buf d q e -> entry_at buf' d q e.
Proof.
  intros Hn He Hf []. destruct (slots_bounds (e_len e) Hn) as (_ & Hs & _). fold (e_slots e) in Hs.
  unfold SIZE_OF_DIR_ENTRY, F2FS_SLOT_LEN, ofs_name_len, ofs_hash_code, ofs_de_ino, ofs_file_type, e_len in *.
  constructor; unfold SIZE_OF_DIR_ENTRY, F2FS_SLOT_LEN, ofs_name_len, ofs_hash_code, ofs_de_ino, ofs_file_type.
  - rewrite (get_le_ext _ buf); [done|]. intros. apply He. lia.
  - rewrite (get_le_ext _ buf); [done|]. intros. apply He. lia.
  - rewrite (get_le_ext _ buf); [done|]. intros. apply He. lia.
  - rewrite He by lia. done.
  - rewrite (rd_bytes_ext buf); [done|]. intros. apply Hf. lia.
Qed.

Lemma dbit_ext buf buf' d i :
  0 <= i -> 0 <= dp_bitmap d ->
  rd buf' (dp_bitmap d + Z.shiftr i 3) = rd buf (dp_bitmap d + Z.shiftr i 3) -> dbit buf' d i = dbit buf d i.
Proof.
  intros Hi Hb. unfold dbit, bitmap_of, bit_le, bit_at, rd. rewrite !lookup_drop.
  assert (0 <= Z.shiftr i 3) by (rewrite shiftr3_div; Z.to_euclidean_division_equations; lia).
  replace (dp_bitmap d + Z.shiftr i 3 <? 0) with false by lia. rewrite Z2Nat.inj_add by lia.
  destruct (buf' !! _), (buf !! _); naive_solver.
Qed.

Section Update.
Context (buf : list Z) (d : f2fs_dentry_ptr) (name : list Z) (hash ino ftype pos : Z).
Context (Hd : dp_ok d buf) (Hname : bytes name) (Hlen : 0 < Z.of_nat (length name) < 2 ^ 16).
Context (Hpos : 0 <= pos) (Hfit : pos + touched (Z.of_nat (length name)) <= dp_max d).
Context (Hhash : is_u32 hash) (Hino : is_u32 ino) (Htype : is_u8 ftype).

Let len := Z.of_nat (length name).
Let de := dp_dentry d + SIZE_OF_DIR_ENTRY * pos.
Let fn := dp_filename d + F2FS_SLOT_LEN * pos.

(** The buffer after the entry and the name are stored. *)
Definition store_entry : list Z :=
  splice (splice (splice (splice (splice buf (de + ofs_name_len) (le_bytes 2 len))
    (de + ofs_hash_code) (le_bytes 4 hash)) fn (name ++ [0]))
    (de + ofs_de_ino) (le_bytes 4 ino)) (de + ofs_file_type) [ftype].

Lemma entry_places :
  0 <= de /\ de + 11 <= fn /\ fn + len + 1 <= Z.of_nat (length buf) /\
  dp_bitmap d + dp_nr_bitmap d <= de.
Proof.
  destruct Hd as [Hd1 Hd2 Hd3 Hd4 Hd5 Hd6 Hd7]. unfold SIZE_OF_DIR_ENTRY, F2FS_SLOT_LEN in *.
  unfold de, fn, len, SIZE_OF_DIR_ENTRY, F2FS_SLOT_LEN.
  destruct (touched_slots (Z.of_nat (length name))) as (? & ? & _); [lia|]. nia.
Qed.

Lemma update_stores :
  f2fs_update_dentry ino ftype buf d name len hash pos
  = set_slot_bits (Z.to_nat (GET_DENTRY_SLOTS len)) store_entry d pos.
Proof.
  destruct entry_places as (P1 & P2 & P3 & _). unfold f2fs_update_dentry. fold de fn.
  unfold len in P3 |- *. rewrite u16_id by (unfold is_u16; lia). unfold u8. rewrite Z.mod_small by exact Htype.
  unfold set_le. rewrite Nat2Z.id, rd_bytes_all. unfold ofs_name_len, ofs_hash_code, ofs_de_ino, ofs_file_type.
  unfold mbind, res_bind. do 3 rewrite wr_list_splice by len_tac.
  rewrite wr_splice by len_tac. rewrite splice_splice by len_tac.
  rewrite wr_list_splice by len_tac. rewrite wr_splice by len_tac.
  reflexivity.
Qed.

Lemma store_entry_ok : dp_ok d store_entry /\ length store_entry = length buf.
Proof.
  destruct entry_places as (P1 & P2 & P3 & _).
  assert (length store_entry = length buf) as Hl.
  { unfold store_entry, ofs_name_len, ofs_hash_code, ofs_de_ino, ofs_file_type. unfold len in *.
    len_tac. }
  split; [|done]. destruct Hd. constructor; try done; [by rewrite Hl|].
  unfold store_entry. repeat apply bytes_splice; try done; try apply bytes_le_bytes.
  - apply Forall_app. split; [done|]. apply Forall_singleton. unfold is_u8. lia.
  - by apply Forall_singleton.
Qed.

Definition new_entry : dir_entry := {| e_hash := hash; e_ino := ino; e_type := ftype; e_name := name |}.

Lemma store_entry_reads : entry_at store_entry d pos new_entry.
Proof.
  destruct entry_places as (P1 & P2 & P3 & _).
  constructor; cbn [e_hash e_ino e_type e_name new_entry]; unfold store_entry, e_len; fold de fn;
    unfold ofs_name_len, ofs_hash_code, ofs_de_ino, ofs_file_type, len in *; cbn [e_name new_entry].
  - past_splices. apply get_set_le; [lia..|]. cbn. lia.
  - past_splices. apply get_set_le; [lia|len_tac|]. cbn. unfold is_u32 in *. lia.
  - past_splices. apply get_set_le; [lia|len_tac|]. cbn. unfold is_u32 in *. lia.
  - apply rd_Ok. split; [lia|]. rewrite lookup_splice by len_tac. rewrite decide_True by (cbn; lia).
    by rewrite Nat.sub_diag.
  - erewrite rd_bytes_ext by (intros i Hi; past_splices; reflexivity).
    unfold splice at 1. rewrite <- app_assoc. apply rd_bytes_app; [|done].
    rewrite length_take. rewrite !length_splice by len_tac. lia.
Qed.

Lemma store_entry_frame i :
  i < de \/ de + 11 <= i -> i < fn \/ fn + len + 1 <= i -> rd store_entry i = rd buf i.
Proof.
  destruct entry_places as (P1 & P2 & P3 & _). intros H1 H2.
  unfold store_entry, ofs_name_len, ofs_hash_code, ofs_de_ino, ofs_file_type, len in *. by past_splices.
Qed.

(** The whole update: the new entry is there, its slots are marked, and an entry
    away from the touched slots is as before. *)
Lemma update_dentry_spec :
  exists buf', f2fs_update_dentry ino ftype buf d name len hash pos = Ok buf' /\ dp_ok d buf' /\
    length buf' = length buf /\ entry_at buf' d pos new_entry /\
    (forall i, 0 <= i < dp_max d ->
       dbit buf' d i = ((pos <=? i) && (i <? pos + GET_DENTRY_SLOTS len)) || dbit buf d i) /\
    (forall q e, 0 <= q -> 0 < e_len e -> q + e_slots e <= dp_max d ->
       q + e_slots e <= pos \/ pos + touched len <= q -> entry_at buf d q e -> entry_at buf' d q e).
Proof.
  rewrite update_stores. destruct store_entry_ok as [Hok Hl].
  destruct (slots_bounds len) as (Hsl & _ & _); [unfold len; lia|].
  destruct (touched_slots len) as (T1 & T2 & _); [unfold len; lia|].
  destruct (set_slot_bits_spec (Z.to_nat (GET_DENTRY_SLOTS len)) store_entry d pos) as
    (buf' & -> & Hok' & Hl' & Hf & Hb); [done..|unfold len in *; lia|].
  destruct entry_places as (P1 & P2 & P3 & P4). pose proof Hd as [Hd1 Hd2 Hd3 Hd4 Hd5 Hd6 Hd7].
  unfold SIZE_OF_DIR_ENTRY, F2FS_SLOT_LEN in Hd5, Hd6.
  exists buf'. split; [done|]. split; [done|]. split; [by rewrite Hl'|]. split; [|split].
  - eapply entry_at_ext, store_entry_reads; [unfold e_len; cbn; lia| |];
      unfold SIZE_OF_DIR_ENTRY, F2FS_SLOT_LEN; intros i Hi; apply Hf; lia.
  - intros i Hi. rewrite Hb, Z2Nat.id by lia. f_equal. apply dbit_ext; [lia..|].
    rewrite shiftr3_div. apply store_entry_frame; Z.to_euclidean_division_equations; lia.
  - intros q e Hq Hn Hqe Hdis He. destruct (slots_bounds (e_len e) Hn) as (S1 & S2 & _).
    fold (e_slots e) in S1, S2.
    eapply entry_at_ext, He; [done| |]; unfold SIZE_OF_DIR_ENTRY, F2FS_SLOT_LEN; intros i Hi;
      rewrite Hf by lia; apply store_entry_frame;
      unfold de, fn, len, SIZE_OF_DIR_ENTRY, F2FS_SLOT_LEN in *; lia.
Qed.

Lemma update_dentry_bytes :
  exists buf', f2fs_update_dentry ino ftype buf d name len hash pos = Ok buf' /\ dp_ok d buf' /\
    rd buf' (fn + len) = Ok 0 /\
    (forall i, dp_bitmap d + dp_nr_bitmap d <= i -> i < de \/ de + 11 <= i -> i < fn \/ fn + len + 1 <= i ->
       rd buf' i = rd buf i).
Proof.
  rewrite update_stores. destruct store_entry_ok as [Hok Hl].
  destruct (slots_bounds len) as (Hsl & _ & _); [unfold len; lia|].
  destruct (touched_slots len) as (T1 & T2 & _); [unfold len; lia|].
  destruct (set_slot_bits_spec (Z.to_nat (GET_DENTRY_SLOTS len)) store_entry d pos) as
    (buf' & -> & Hok' & Hl' & Hf & Hb); [done..|unfold len in *; lia|].
  destruct entry_places as (P1 & P2 & P3 & P4).
  exists buf'. split; [done|]. split; [done|]. split.
  - rewrite Hf by (unfold len in *; lia).
    unfold store_entry, ofs_name_len, ofs_hash_code, ofs_de_ino, ofs_file_type, len in *.
    past_splices. apply rd_Ok. split; [lia|]. rewrite lookup_splice by len_tac.
    rewrite decide_True by (rewrite length_app; cbn; lia). rewrite lookup_app_r by lia.
    by replace (Z.to_nat (fn + Z.of_nat (length name)) - Z.to_nat fn - length name)%nat with 0%nat by lia.
  - intros i Hi H1 H2. rewrite Hf by done. by apply store_entry_frame.
Qed.
End Update.

Lemma scan_skip buf d pos es n :
  scan buf d pos es -> pos + Z.of_nat n <= dp_max d ->
  (forall i, pos <= i < pos + Z.of_nat n -> dbit buf d i = false) -> scan buf d (pos + Z.of_nat n) es.
Proof.
  revert pos. induction n as [|n IH]; intros pos Hs Hle Hf; [by rewrite Z.add_0_r|].
  replace (pos + Z.of_nat (S n)) with (pos + 1 + Z.of_nat n) by lia.
  inversion Hs as [Heq|? ? ? ? Hs'|? e ? Hn ? ? Hb]; subst.
  - lia.
  - apply IH; [done|lia|]. intros i Hi. apply Hf. lia.
  - destruct (slots_bounds (e_len e) Hn) as (S1 & _). fold (e_slots e) in S1.
    specialize (Hb pos ltac:(lia)). rewrite Hf in Hb by lia. done.
Qed.

Section Insert.
Context (buf buf' : list Z) (d : f2fs_dentry_ptr) (p n t : Z) (new : dir_entry).
Context (Hn : n = e_slots new) (Hlen : 0 < e_len new) (Hnt : n <= t) (Hp : 0 <= p) (Ht : p + t <= dp_max d).
Context (Hfree : forall i, p <= i < p + t -> dbit buf d i = false).
Context (Hbits : forall i, 0 <= i < dp_max d -> dbit buf' d i = ((p <=? i) && (i <? p + n)) || dbit buf d i).
Context (Hnew : entry_at buf' d p new).
Context (Hkeep : forall q e, 0 <= q -> 0 < e_len e -> q + e_slots e <= dp_max d ->
   q + e_slots e <= p \/ p + t <= q -> entry_at buf d q e -> entry_at buf' d q e).

(** A slot that belongs to an entry is not one of the free ones. *)
Lemma entry_away q e :
  0 < e_len e -> (forall i, q <= i < q + e_slots e -> dbit buf d i = true) ->
  q + e_slots e <= p \/ p + t <= q.
Proof.
  intros He Hb. destruct (slots_bounds (e_len e) He) as (S1 & _). fold (e_slots e) in S1.
  destruct (slots_bounds (e_len new) Hlen) as (N1 & _). fold (e_slots new) in N1.
  destruct (Z.le_gt_cases (q + e_slots e) p); [by left|]. destruct (Z.le_gt_cases (p + t) q); [by right|].
  exfalso. pose proof (Hb (Z.max p q) ltac:(lia)) as H1. rewrite Hfree in H1 by lia. done.
Qed.

Lemma bits_away i : 0 <= i < dp_max d -> i < p \/ p + n <= i -> dbit buf' d i = dbit buf d i.
Proof.
  intros Hi Ha. rewrite Hbits by done.
  destruct (Z.leb_spec p i), (Z.ltb_spec i (p + n)); cbn; done || lia.
Qed.

Lemma scan_after pos es : p + n <= pos -> scan buf d pos es -> scan buf' d pos es.
Proof.
  destruct (slots_bounds (e_len new) Hlen) as (N1 & _). fold (e_slots new) in N1.
  intros Hpos Hs. induction Hs as [|pos es Hlt Hb Hs IH|pos e es He Hle Hat Hb Hs IH].
  - apply scan_end.
  - apply scan_free; [done| |apply IH; lia]. rewrite bits_away by lia. done.
  - destruct (slots_bounds (e_len e) He) as (S1 & _). fold (e_slots e) in S1.
    apply scan_entry; [done..| | |apply IH; lia].
    + apply Hkeep; [lia|done|done| |done]. by apply entry_away.
    + intros i Hi. rewrite bits_away by lia. by apply Hb.
Qed.

Lemma scan_insert pos es :
  0 <= pos <= p -> scan buf d pos es ->
  exists es1 es2, es = es1 ++ es2 /\ scan buf' d pos (es1 ++ (p, new) :: es2).
Proof.
  destruct (slots_bounds (e_len new) Hlen) as (N1 & _). fold (e_slots new) in N1.
  intros Hpos Hs. induction Hs as [|pos es Hlt Hb Hs IH|pos e es He Hle Hat Hb Hs IH]; [lia| |].
  - destruct (Z.eq_dec pos p) as [->|Hne].
    + exists [], es. split; [done|]. cbn [app]. apply scan_entry; [done|lia|done| |].
      * intros i Hi. rewrite Hbits by lia. replace (p <=? i) with true by lia.
        by replace (i <? p + n) with true by lia.
      * rewrite <- Hn. apply scan_after; [lia|].
        replace (p + n) with (p + Z.of_nat (Z.to_nat n)) by lia.
        apply scan_skip; [by apply scan_free|lia|]. intros i Hi. apply Hfree. lia.
    + destruct IH as (es1 & es2 & -> & IH); [lia|]. exists es1, es2. split; [done|].
      apply scan_free; [done| |done]. rewrite bits_away by lia. done.
  - destruct (slots_bounds (e_len e) He) as (S1 & _). fold (e_slots e) in S1.
    destruct (entry_away pos e He Hb) as [Ha|Ha]; [|lia].
    destruct IH as (es1 & es2 & -> & IH); [lia|]. exists ((pos, e) :: es1), es2. split; [done|].
    cbn [app]. apply scan_entry; [done..| | |done].
    + apply Hkeep; [lia|done|done|by left|done].
    + intros i Hi. rewrite bits_away by lia. by apply Hb.
Qed.
End Insert.

Lemma lookup_entry_app name hash es1 es2 :
  lookup_entry name hash (es1 ++ es2)
  = match lookup_entry name hash es1 with Some p => Some p | None => lookup_entry name hash es2 end.
Proof.
  induction es1 as [|[p e] es1 IH]; [done|]. cbn [lookup_entry app]. by destruct (e_matches e name hash).
Qed.

Lemma find_target_scan buf d name hash es :
  dp_ok d buf -> scan buf d 0 es ->
  find_target_dentry buf d name (Z.of_nat (length name)) hash None = Ok (lookup_entry name hash es, None).
Proof.
  intros Hd Hs. unfold find_target_dentry. apply find_target_dentry_spec; [done..|].
  destruct Hd. lia.
Qed.

(** * Lemmas on the hash *)

Lemma str2hashbuf_loop_total n msg i pad val num out :
  0 <= i -> Z.of_nat (length out) = 4 - num -> num = 4 - i / 4 -> i + Z.of_nat n <= 16 ->
  i + Z.of_nat n <= Z.of_nat (length msg) ->
  exists val' num' out', str2hashbuf_loop n msg i pad val num out = Ok (val', num', out') /\
    Z.of_nat (length out') = 4 - num' /\ 0 <= num'.
Proof.
  revert i val num out. induction n as [|n IH]; intros i val num out H0 Ho Hn H16 Hm;
    cbn [str2hashbuf_loop].
  - do 3 eexists. split; [done|]. split; [done|]. Z.to_euclidean_division_equations. lia.
  - destruct (rd_total msg i) as [ch Hch]; [lia|]. unfold mbind, res_bind. rewrite Hch.
    destruct (Z.eqb_spec (i mod 4) 3); apply IH; rewrite ?length_app; cbn [length]; try lia;
      Z.to_euclidean_division_equations; lia.
Qed.

Lemma str2hashbuf_total msg len :
  0 <= len -> Z.min len 16 <= Z.of_nat (length msg) ->
  exists w, str2hashbuf msg len 4 = Ok w /\ length w = 4%nat.
Proof.
  intros H0 Hm. unfold str2hashbuf. cbv zeta.
  set (pad := Z.lor (Z.lor _ _) _). change (4 * 4) with 16.
  set (l := if 16 <? len then 16 else len).
  assert (0 <= l <= 16 /\ l = Z.min len 16) as [Hl Hl'] by (subst l; destruct (Z.ltb_spec 16 len); lia).
  destruct (str2hashbuf_loop_total (Z.to_nat l) msg 0 pad pad 4 []) as (v & n & o & -> & Ho & Hn);
    [lia|done|done|lia|lia|].
  cbn [mbind res_bind]. eexists. split; [done|]. rewrite length_app, length_replicate.
  destruct (Z.leb_spec 0 (n - 1)); rewrite ?length_app; cbn [length]; lia.
Qed.

Lemma str2hashbuf_ext msg msg' len :
  (forall i, 0 <= i < Z.min len 16 -> rd msg' i = rd msg i) -> str2hashbuf msg' len 4 = str2hashbuf msg len 4.
Proof.
  intros H. unfold str2hashbuf. cbv zeta. change (4 * 4) with 16.
  assert (forall n i pad val num out, 0 <= i -> i + Z.of_nat n <= Z.max 0 (Z.min len 16) ->
    str2hashbuf_loop n msg' i pad val num out = str2hashbuf_loop n msg i pad val num out) as Hl.
  { induction n as [|n IH]; intros i pad val num out Hi Hn; [done|]. cbn [str2hashbuf_loop].
    rewrite H by lia. destruct (rd msg i); [|done..]. cbn [mbind res_bind].
    destruct (i mod 4 =? 3); apply IH; lia. }
  rewrite Hl; [done|lia|]. destruct (Z.ltb_spec 16 len); lia.
Qed.

Lemma TEA_transform_total buf w : length w = 4%nat ->
  exists b0 b1, TEA_transform buf w = Ok (b0, b1) /\ is_u32 b0.
Proof.
  destruct w as [|a [|b [|c [|e [|]]]]]; try done. intros _. unfold TEA_transform.
  change (rd [a; b; c; e] 0) with (Ok a). change (rd [a; b; c; e] 1) with (Ok b).
  change (rd [a; b; c; e] 2) with (Ok c). change (rd [a; b; c; e] 3) with (Ok e).
  cbn [mbind res_bind].
  match goal with |- context [Nat.iter ?n ?f ?x] => destruct (Nat.iter n f x) as [[? ?] ?] end.
  do 2 eexists. split; [done|]. apply u32_range.
Qed.

Lemma dentry_hash_loop_total fuel name len buf :
  len = Z.of_nat (length name) -> 0 < len < 16 * Z.of_nat fuel ->
  exists b, is_u32 b.1 /\ forall rest, dentry_hash_loop fuel (name ++ rest) len buf = Ok b.
Proof.
  revert name len buf. induction fuel as [|fuel IH]; intros name len buf Hlen Hf; [lia|].
  cbn [dentry_hash_loop].
  destruct (str2hashbuf_total name len) as (w & Hw & Hw4); [lia|lia|].
  destruct (TEA_transform_total buf w Hw4) as (b0 & b1 & Hb & Hr).
  assert (forall rest, str2hashbuf (name ++ rest) len 4 = Ok w) as Hw'.
  { intros r. rewrite <- Hw. apply str2hashbuf_ext. intros i Hi. by rewrite rd_app_l by lia. }
  destruct (Z.leb_spec len 16).
  - exists (b0, b1). split; [done|]. intros r. rewrite Hw'. cbn [mbind res_bind]. by rewrite Hb.
  - destruct (IH (drop 16 name) (len - 16) (b0, b1)) as (b & Hbr & Hrest);
      [rewrite length_drop; lia|lia|].
    exists b. split; [done|]. intros r. rewrite Hw'. cbn [mbind res_bind]. rewrite Hb. cbn [mbind res_bind].
    rewrite drop_app_le by lia. apply Hrest.
Qed.

Lemma special_dentry_local name :
  0 < Z.of_nat (length name) -> name <> [46] ->
  exists sp, forall rest, special_dentry (name ++ rest) (Z.of_nat (length name)) = Ok sp.
Proof.
  intros Hlen Hdot. unfold special_dentry. destruct (_ <=? 2); [|by eexists].
  destruct name as [|c0 [|c1 t]]; [cbn in Hlen; lia| |]; cbn [app].
  - exists false. intros rest. change (rd (c0 :: rest) 0) with (Ok c0). cbn [mbind res_bind].
    by destruct (Z.eqb_spec c0 46) as [->|_].
  - exists (if c0 =? 46 then (c1 =? 46) || (c1 =? 0) else false). intros rest.
    change (rd (c0 :: c1 :: t ++ rest) 0) with (Ok c0). change (rd (c0 :: c1 :: t ++ rest) 1) with (Ok c1).
    cbn [mbind res_bind]. by destruct (c0 =? 46).
Qed.

(** * Lemmas on the geometry *)

Lemma dir_buckets_le level dl :
  0 <= level -> 0 <= dl -> level + dl < 2 ^ 32 -> 1 <= dir_buckets level dl <= 2 ^ 30.
Proof.
  intros. unfold dir_buckets. rewrite u32_id by (unfold is_u32; lia).
  change (MAX_DIR_HASH_DEPTH / 2) with 31. destruct (Z.ltb_spec (level + dl) 31).
  - rewrite Z.shiftl_1_l. split; [change 1 with (2 ^ 0)|]; apply Z.pow_le_mono_r; lia.
  - change MAX_DIR_BUCKETS with (2 ^ 30). lia.
Qed.

(** Up to level 31 the sums do not wrap. *)
Lemma dir_block_index_loop_bounds n dl :
  (n <= 31)%nat -> 0 <= dl < 2 ^ 31 ->
  0 <= dir_block_index_loop n dl <= 2 ^ 31 * Z.of_nat n /\
  forall m, (m < n)%nat ->
    dir_block_index_loop m dl + dir_buckets (Z.of_nat m) dl * 2 <= dir_block_index_loop n dl.
Proof.
  intros Hn Hd. induction n as [|n IH]; [cbn; split; [lia|intros; lia]|].
  destruct IH as [IHb IHm]; [lia|]. cbn [dir_block_index_loop].
  pose proof (dir_buckets_le (Z.of_nat n) dl ltac:(lia) ltac:(lia) ltac:(lia)) as Hb.
  unfold bucket_blocks. change (MAX_DIR_HASH_DEPTH / 2) with 31. replace (Z.of_nat n <? 31) with true by lia.
  rewrite u32_id by (unfold is_u32; lia). rewrite u64_id by (unfold is_u64; lia).
  split; [lia|]. intros m Hm. destruct (Nat.eq_dec m n) as [->|]; [lia|]. specialize (IHm m ltac:(lia)). lia.
Qed.

Lemma dir_block_index_eq level dl idx :
  0 <= level <= 31 -> 0 <= dl < 2 ^ 31 -> 0 <= idx < dir_buckets level dl ->
  dir_block_index level dl idx = dir_block_index_loop (Z.to_nat level) dl + idx * bucket_blocks level.
Proof.
  intros Hl Hd Hi. destruct (dir_block_index_loop_bounds (Z.to_nat level) dl) as [Hb _]; [lia..|].
  pose proof (dir_buckets_le level dl ltac:(lia) ltac:(lia) ltac:(lia)).
  unfold dir_block_index, bucket_blocks. change (MAX_DIR_HASH_DEPTH / 2) with 31.
  destruct (level <? 31); rewrite u32_id by (unfold is_u32; lia); by rewrite u64_id by (unfold is_u64; lia).
Qed.

(** Adding an entry. *)
Lemma insert_scan (buf : list Z) (d : f2fs_dentry_ptr) (es : list (Z * dir_entry)) (name : list Z) (hash ino ftype p : Z) :
  let len := Z.of_nat (length name) in
  let new := {| e_hash := hash; e_ino := ino; e_type := ftype; e_name := name |} in
  dp_ok d buf -> scan buf d 0 es -> bytes name -> 0 < len < 2 ^ 16 ->
  is_u32 hash -> is_u32 ino -> is_u8 ftype ->
  room_for_filename (bitmap_of buf d) (GET_DENTRY_SLOTS len) (dp_max d) = Ok p -> p < dp_max d ->
  (len mod 8 <> 0 \/ p + GET_DENTRY_SLOTS len < dp_max d /\ dbit buf d (p + GET_DENTRY_SLOTS len) = false) ->
  exists buf' es1 es2,
    f2fs_update_dentry ino ftype buf d name len hash p = Ok buf' /\ dp_ok d buf' /\
    length buf' = length buf /\ es = es1 ++ es2 /\ scan buf' d 0 (es1 ++ (p, new) :: es2).
Proof.
  intros len new Hd Hs Hname Hlen Hh Hi Ht Hroom Hp Hnext.
  destruct (slots_bounds len) as (S1 & _); [lia|]. destruct (touched_slots len) as (T1 & _ & T3); [lia|].
  assert (0 <= dp_max d < 2 ^ 31) as Hm by (destruct Hd; lia).
  destruct (room_for_filename_first_fit (bitmap_of buf d) (GET_DENTRY_SLOTS len) (dp_max d))
    as (r & Hr & [Hfit _]); [lia|pose proof (dp_ok_nbits d buf Hd); lia|lia|].
  rewrite Hroom in Hr. apply Ok_inj in Hr as <-. destruct Hfit as [->|(Hp0 & Hpe & Hfree)]; [lia|].
  assert (p + touched len <= dp_max d /\ forall i, p <= i < p + touched len -> dbit buf d i = false)
    as [Hend Hfree'].
  { rewrite T3. destruct Hnext as [Hmod|[Hlt Hb]].
    - apply Z.eqb_neq in Hmod. rewrite Hmod, Z.add_0_r. split; [lia|]. intros i Hi'. apply Hfree. lia.
    - destruct (len mod 8 =? 0); (split; [lia|]); intros i Hi'; [|apply Hfree; lia].
      destruct (Z.eq_dec i (p + GET_DENTRY_SLOTS len)) as [->|]; [done|apply Hfree; lia]. }
  destruct (update_dentry_spec buf d name hash ino ftype p Hd Hname Hlen Hp0 Hend Hh Hi Ht)
    as (buf' & Hu & Hd' & Hl' & Hnew & Hbits & Hkeep).
  destruct (scan_insert buf buf' d p (GET_DENTRY_SLOTS len) (touched len) new eq_refl ltac:(unfold e_len; cbn; lia)
    T1 Hp0 Hend Hfree' Hbits Hnew Hkeep 0 es ltac:(lia) Hs) as (es1 & es2 & -> & Hs').
  exists buf', es1, es2. done.
Qed.

(** * Properties *)

(** [room_for_filename] terminates inside the bitmap and is a first fit: it
    returns the lowest slot from which [slots] consecutive slots are free, or
    [max_slots] when there is no such slot. *)
Theorem room_for_filename_correct (bm : list Z) (slots max : Z) :
  0 < slots -> 0 <= max <= nbits bm -> max < 2 ^ 31 ->
  exists r, room_for_filename bm slots max = Ok r /\
    (r = max \/ 0 <= r /\ r + slots <= max /\ free_run bm r slots) /\
    forall p, 0 <= p < r -> p + slots <= max -> ~ free_run bm p slots.
Proof. apply room_for_filename_first_fit. Qed.

Lemma room_for_filename_correct_witness :
  room_for_filename [0x33; 0xff] 3 16 = Ok 16 /\ room_for_filename [0x33; 0xc0] 3 16 = Ok 6 /\
  exists r, room_for_filename [0x33; 0xc0] 3 16 = Ok r /\
    (r = 16 \/ 0 <= r /\ r + 3 <= 16 /\ free_run [0x33; 0xc0] r 3) /\
    forall p, 0 <= p < r -> p + 3 <= 16 -> ~ free_run [0x33; 0xc0] p 3.
Proof.
  split; [reflexivity|]. split; [reflexivity|].
  apply (room_for_filename_correct [0x33; 0xc0] 3 16); [lia|unfold nbits; cbn; lia|lia].
Defined.

(** C21: Adding a name to a block of entries. Take a block whose slots are tiled by
    the entries [es], and the slot [p] that [room_for_filename] gives for a new
    name. If the name's length is no multiple of the slot length, or the slot
    after the new ones is free, [f2fs_update_dentry] succeeds, the block then
    holds the old entries, unchanged and in order, and the new one at [p];
    [find_target_dentry] finds the new name there unless an entry with that name
    and hash came before, and gives for every other name what it gave before. *)
Theorem dentry_insert_lookup (buf : list Z) (d : f2fs_dentry_ptr) (es : list (Z * dir_entry))
    (name : list Z) (hash ino ftype p : Z) :
  let len := Z.of_nat (length name) in
  let new := {| e_hash := hash; e_ino := ino; e_type := ftype; e_name := name |} in
  dp_ok d buf -> scan buf d 0 es -> bytes name -> 0 < len < 2 ^ 16 ->
  is_u32 hash -> is_u32 ino -> is_u8 ftype ->
  room_for_filename (bitmap_of buf d) (GET_DENTRY_SLOTS len) (dp_max d) = Ok p -> p < dp_max d ->
  (len mod 8 <> 0 \/ p + GET_DENTRY_SLOTS len < dp_max d /\ dbit buf d (p + GET_DENTRY_SLOTS len) = false) ->
  exists buf' es1 es2,
    f2fs_update_dentry ino ftype buf d name len hash p = Ok buf' /\ dp_ok d buf' /\
    es = es1 ++ es2 /\ scan buf' d 0 (es1 ++ (p, new) :: es2) /\
    (lookup_entry name hash es = None -> find_target_dentry buf' d name len hash None = Ok (Some p, None)) /\
    forall name2 hash2, name2 <> name ->
      find_target_dentry buf' d name2 (Z.of_nat (length name2)) hash2 None
      = find_target_dentry buf d name2 (Z.of_nat (length name2)) hash2 None.
Proof.
  intros len new Hd Hs Hname Hlen Hh Hi Ht Hroom Hp Hnext.
  destruct (insert_scan buf d es name hash ino ftype p Hd Hs Hname Hlen Hh Hi Ht Hroom Hp Hnext) as (buf' & es1 & es2 & Hu & Hd' & _ & -> & Hs').
  exists buf', es1, es2. split; [done|]. split; [done|]. split; [done|]. split; [done|].
  rewrite lookup_entry_app. split.
  - intros Hno. unfold len. rewrite (find_target_scan _ _ _ _ _ Hd' Hs'), lookup_entry_app.
    destruct (lookup_entry name hash es1); [done|]. cbn [lookup_entry]. unfold e_matches. cbn.
    by rewrite bool_decide_eq_true_2, Z.eqb_refl by done.
  - intros name2 hash2 Hne. rewrite (find_target_scan _ _ _ _ _ Hd' Hs'), (find_target_scan _ _ _ _ _ Hd Hs).
    rewrite !lookup_entry_app. cbn [lookup_entry]. unfold e_matches at 1. cbn [e_name new].
    by rewrite bool_decide_eq_false_2 by done.
Qed.

(** A block with one entry, the name [a] of inode 5. *)
Definition block_ptr : f2fs_dentry_ptr :=
  {| dp_bitmap := 0; dp_dentry := 30; dp_filename := 2384; dp_max := 214; dp_nr_bitmap := 27 |}.
Definition sample_entry : dir_entry := {| e_hash := 77; e_ino := 5; e_type := 1; e_name := [97] |}.
Definition sample_block : list Z :=
  match f2fs_update_dentry 5 1 (replicate 4096 0) block_ptr [97] 1 77 0 with Ok b => b | _ => [] end.

Lemma make_block_ptr : make_dentry_ptr 0 [] 0 1 = Ok block_ptr.
Proof. reflexivity. Qed.

Lemma scan_tail buf d n pos :
  pos + Z.of_nat n = dp_max d -> (forall i, pos <= i < dp_max d -> dbit buf d i = false) -> scan buf d pos [].
Proof.
  revert pos. induction n as [|n IH]; intros pos Hn Hb.
  - replace pos with (dp_max d) by lia. apply scan_end.
  - apply scan_free; [lia|apply Hb; lia|]. apply IH; [lia|]. intros i Hi. apply Hb. lia.
Qed.

Lemma sample_block_ok : dp_ok block_ptr sample_block /\ scan sample_block block_ptr 0 [(0, sample_entry)].
Proof.
  split.
  - constructor; [cbn; lia ..|vm_compute; discriminate|vm_compute; discriminate|].
    apply bytes_forallb. vm_compute. reflexivity.
  - apply scan_entry; [reflexivity|vm_compute; discriminate|constructor; vm_compute; reflexivity| |].
    + intros i Hi. change (e_slots sample_entry) with 1 in Hi. replace i with 0 by lia. reflexivity.
    + apply (scan_tail _ _ 213); [reflexivity|]. intros i Hi. change (0 + e_slots sample_entry) with 1 in Hi.
      assert (forallb (fun i => negb (dbit sample_block block_ptr i)) (seqZ 1 213) = true) as H
        by (vm_compute; reflexivity).
      rewrite forallb_forall in H. apply negb_true_iff, H, list_elem_of_In, elem_of_seqZ. cbn in Hi. lia.
Qed.

Lemma dentry_insert_lookup_witness : exists buf',
  f2fs_update_dentry 6 2 sample_block block_ptr [98; 99; 100] 3 78 1 = Ok buf' /\
  find_target_dentry buf' block_ptr [98; 99; 100] 3 78 None = Ok (Some 1, None).
Proof.
  destruct (dentry_insert_lookup sample_block block_ptr [(0, sample_entry)] [98; 99; 100] 78 6 2 1)
    as (buf' & es1 & es2 & Hu & _ & _ & _ & Hf & _).
  - apply sample_block_ok.
  - apply sample_block_ok.
  - apply bytes_forallb. reflexivity.
  - cbn. lia.
  - unfold is_u32. lia.
  - unfold is_u32. lia.
  - unfold is_u8. lia.
  - vm_compute. reflexivity.
  - cbn. lia.
  - left. vm_compute. discriminate.
  - exists buf'. split; [exact Hu|]. apply Hf. reflexivity.
Defined.

Lemma wr_past l i (x : Z) : Z.of_nat (length l) <= i -> wr l i x = Oob.
Proof.
  intros H. unfold wr. replace (Z.of_nat (length l) <=? i) with true by lia. by rewrite orb_true_r.
Qed.

Lemma whole_slots len : 0 < len -> len mod 8 = 0 -> len = 8 * GET_DENTRY_SLOTS len.
Proof.
  intros H0 H. unfold GET_DENTRY_SLOTS, F2FS_SLOT_LEN. rewrite shiftr3_div.
  Z.to_euclidean_division_equations. lia.
Qed.

Lemma update_past_block buf name hash ino ftype pos len :
  len = Z.of_nat (length name) -> dp_ok block_ptr buf -> length buf = 4096%nat ->
  0 < len < 2 ^ 16 -> len mod 8 = 0 -> 0 <= pos -> pos + GET_DENTRY_SLOTS len = 214 ->
  f2fs_update_dentry ino ftype buf block_ptr name len hash pos = Oob.
Proof.
  intros Hln Hd Hl Hlen Hmod Hpos Hend. unfold f2fs_update_dentry, set_le. cbv zeta.
  destruct (slots_bounds len) as (S1 & S2 & S3); [lia|].
  pose proof (whole_slots len ltac:(lia) Hmod) as Hs.
  unfold SIZE_OF_DIR_ENTRY, F2FS_SLOT_LEN, ofs_name_len, ofs_hash_code, ofs_de_ino, ofs_file_type.
  cbn [dp_dentry dp_filename block_ptr].
  assert (rd_bytes name 0 (Z.to_nat len) = Ok name) as Hrd by (by rewrite Hln, Nat2Z.id, rd_bytes_all).
  rewrite wr_list_splice by len_tac. cbn [mbind res_bind].
  rewrite wr_list_splice by len_tac. cbn [mbind res_bind]. rewrite Hrd. cbn [mbind res_bind].
  rewrite wr_list_splice by len_tac. cbn [mbind res_bind].
  rewrite wr_past; [done|]. repeat (rewrite length_splice by len_tac). lia.
Qed.

Lemma update_hits_next buf d name hash ino ftype pos e c rest :
  dp_ok d buf -> bytes name -> is_u32 hash -> is_u32 ino -> is_u8 ftype ->
  let len := Z.of_nat (length name) in
  let next := pos + GET_DENTRY_SLOTS len in
  0 < len < 2 ^ 16 -> len mod 8 = 0 -> 0 <= pos -> next + e_slots e <= dp_max d ->
  entry_at buf d next e -> e_name e = c :: rest -> c <> 0 ->
  exists buf', f2fs_update_dentry ino ftype buf d name len hash pos = Ok buf' /\
    dentry_matches buf' d (e_name e) (e_len e) (e_hash e) next = Ok false.
Proof.
  intros Hd Hb Hh Hi Ht len next Hlen Hmod Hpos Hend He Hname Hc.
  assert (0 < e_len e) as Hel by (unfold e_len; rewrite Hname; cbn; lia).
  destruct (slots_bounds (e_len e) Hel) as (E1 & E2 & _). fold (e_slots e) in E1, E2.
  destruct (slots_bounds len) as (S1 & _); [lia|]. destruct (touched_slots len) as (_ & _ & T3); [lia|].
  rewrite Hmod in T3. cbn in T3. pose proof (whole_slots len ltac:(lia) Hmod) as Hs.
  destruct (update_dentry_bytes buf d name hash ino ftype pos Hd Hb Hlen Hpos) as (buf' & Hu & Hd' & H0 & Hf);
    [fold len; lia|done..|]. exists buf'. split; [done|]. fold len in H0, Hf.
  unfold dentry_matches. destruct He as [Hl Hha _ _ _]. pose proof Hd as [D1 D2 D3 D4 D5 D6 D7].
  pose proof (dpo_end _ _ Hd') as D8.
  unfold SIZE_OF_DIR_ENTRY, F2FS_SLOT_LEN, ofs_name_len, ofs_hash_code in *. subst next.
  rewrite (get_le_ext 2 buf), Hl by (intros i Hi'; apply Hf; lia). cbn [mbind res_bind]. rewrite Z.eqb_refl.
  rewrite (get_le_ext 4 buf), Hha by (intros i Hi'; apply Hf; lia). cbn [mbind res_bind]. rewrite Z.eqb_refl.
  unfold e_len in E2 |- *. rewrite Nat2Z.id, rd_bytes_all, Hname in *. cbn [length rd_bytes] in *.
  replace (dp_filename d + 8 * (pos + GET_DENTRY_SLOTS len)) with (dp_filename d + 8 * pos + len) by lia.
  rewrite H0. cbn [mbind res_bind]. rewrite rd_bytes_Ok by lia. cbn [mbind res_bind]. f_equal.
  apply bool_decide_eq_false_2. congruence.
Qed.

(** The byte after the name. [f2fs_update_dentry] stores a terminator at
    [filename[bit_pos][len]]. When [len] is a multiple of the slot length that
    byte is not in the slots of the new entry: in the last slots of a block it is
    past the end of the block, and when the next slot holds an entry its name
    loses its first character, so that the entry is no longer found by its name. *)
Theorem update_dentry_terminator_overflow :
  (forall buf name hash ino ftype pos,
     dp_ok block_ptr buf -> length buf = 4096%nat -> bytes name ->
     let len := Z.of_nat (length name) in
     0 < len < 2 ^ 16 -> len mod 8 = 0 -> 0 <= pos -> pos + GET_DENTRY_SLOTS len = NR_DENTRY_IN_BLOCK ->
     f2fs_update_dentry ino ftype buf block_ptr name len hash pos = Oob) /\
  (forall buf d name hash ino ftype pos e c rest,
     dp_ok d buf -> bytes name -> is_u32 hash -> is_u32 ino -> is_u8 ftype ->
     let len := Z.of_nat (length name) in
     let next := pos + GET_DENTRY_SLOTS len in
     0 < len < 2 ^ 16 -> len mod 8 = 0 -> 0 <= pos -> next + e_slots e <= dp_max d ->
     entry_at buf d next e -> e_name e = c :: rest -> c <> 0 ->
     exists buf', f2fs_update_dentry ino ftype buf d name len hash pos = Ok buf' /\
       dentry_matches buf' d (e_name e) (e_len e) (e_hash e) next = Ok false).
Proof.
  split.
  - intros buf name hash ino ftype pos Hd Hl _ len Hlen Hmod Hpos Hend. by apply update_past_block.
  - intros. by eapply update_hits_next.
Qed.

(** A block whose second slot holds the name [a]. *)
Definition sample_block1 : list Z :=
  match f2fs_update_dentry 5 1 (replicate 4096 0) block_ptr [97] 1 77 1 with Ok b => b | _ => [] end.

Lemma update_dentry_terminator_overflow_witness : exists buf',
  room_for_filename sample_block1 1 214 = Ok 0 /\
  dentry_matches sample_block1 block_ptr [97] 1 77 1 = Ok true /\
  f2fs_update_dentry 6 1 sample_block1 block_ptr [98; 98; 98; 98; 98; 98; 98; 98] 8 78 0 = Ok buf' /\
  dentry_matches buf' block_ptr [97] 1 77 1 = Ok false.
Proof.
  destruct (proj2 update_dentry_terminator_overflow sample_block1 block_ptr (replicate 8 98) 78 6 1 0
    sample_entry 97 []) as (buf' & Hu & Hm).
  - constructor; [cbn; lia ..|vm_compute; discriminate|vm_compute; discriminate|].
    apply bytes_forallb. vm_compute. reflexivity.
  - apply bytes_forallb. reflexivity.
  - unfold is_u32. lia.
  - unfold is_u32. lia.
  - unfold is_u8. lia.
  - cbn. lia.
  - reflexivity.
  - lia.
  - vm_compute. discriminate.
  - constructor; vm_compute; reflexivity.
  - reflexivity.
  - lia.
  - exists buf'. split; [vm_compute; reflexivity|]. split; [vm_compute; reflexivity|].
    split; [exact Hu|exact Hm].
Defined.



(** The buckets of a directory's hash table do not share blocks: up to level 31
    the block ranges [find_in_level] and [f2fs_add_link] use for two different
    buckets are disjoint. From level 31 on the size of a level wraps to zero in
    32 bits, so that the levels 31 and 32 start at the same block. *)
Theorem dir_blocks_disjoint (l1 l2 dl i1 i2 : Z) :
  0 <= l1 <= 31 -> 0 <= l2 <= 31 -> 0 <= dl < 2 ^ 31 ->
  0 <= i1 < dir_buckets l1 dl -> 0 <= i2 < dir_buckets l2 dl ->
  (forall b, dir_block_index l1 dl i1 <= b < dir_block_index l1 dl i1 + bucket_blocks l1 ->
     dir_block_index l2 dl i2 <= b < dir_block_index l2 dl i2 + bucket_blocks l2 -> l1 = l2 /\ i1 = i2) /\
  forall idx, dir_block_index 32 dl idx = dir_block_index 31 dl idx.
Proof.
  intros H1 H2 Hd Hi1 Hi2. split.
  - intros b. rewrite !dir_block_index_eq by lia. intros Hb1 Hb2.
    assert (forall m, bucket_blocks m = 2 \/ 31 <= m) as Hbb.
    { intros m. unfold bucket_blocks. change (MAX_DIR_HASH_DEPTH / 2) with 31.
      destruct (Z.ltb_spec m 31); [by left|by right]. }
    assert (forall l l' i j, 0 <= l < l' -> l' <= 31 -> 0 <= i < dir_buckets l dl -> 0 <= j ->
      dir_block_index_loop (Z.to_nat l) dl + i * bucket_blocks l + bucket_blocks l
      <= dir_block_index_loop (Z.to_nat l') dl + j * bucket_blocks l') as Hlt.
    { intros l l' i j Hl Hl' Hi Hj.
      destruct (dir_block_index_loop_bounds (Z.to_nat l') dl) as [_ Hm]; [lia..|].
      specialize (Hm (Z.to_nat l) ltac:(lia)). rewrite Z2Nat.id in Hm by lia.
      destruct (Hbb l) as [->|]; [|lia]. 
      assert (0 <= j * bucket_blocks l') by (unfold bucket_blocks; destruct (l' <? _); lia). nia. }
    destruct (Z.lt_trichotomy l1 l2) as [Hl|[->|Hl]].
    + specialize (Hlt l1 l2 i1 i2). lia.
    + split; [done|]. unfold bucket_blocks in *. destruct (l2 <? _); lia.
    + specialize (Hlt l2 l1 i2 i1). lia.
  - intros idx. unfold dir_block_index. change (bucket_blocks 32) with 4. change (bucket_blocks 31) with 4.
    change (Z.to_nat 32) with (S 31). change (Z.to_nat 31) with 31%nat. cbn [dir_block_index_loop].
    change (bucket_blocks (Z.of_nat 31)) with 4. unfold dir_buckets.
    rewrite (u32_id (Z.of_nat 31 + dl)) by (unfold is_u32; lia). change (MAX_DIR_HASH_DEPTH / 2) with 31.
    change (Z.of_nat 31 + dl <? 31) with (31 + dl <? 31). replace (31 + dl <? 31) with false by lia. change (u32 (MAX_DIR_BUCKETS * 4)) with 0.
    rewrite Z.add_0_r. unfold u64. by rewrite Zplus_mod_idemp_l.
Qed.

Lemma dir_blocks_disjoint_witness :
  dir_block_index 3 0 7 = 28 /\ dir_block_index 4 0 0 = 30 /\ bucket_blocks 3 = 2 /\
  forall b, 28 <= b < 28 + 2 -> 30 <= b < 30 + bucket_blocks 4 -> 3 = 4 /\ 7 = 0.
Proof.
  split; [reflexivity|]. split; [reflexivity|]. split; [reflexivity|].
  apply (dir_blocks_disjoint 3 4 0 7 0); vm_compute; split; discriminate || reflexivity.
Defined.

(** The hash of a name is a 32-bit value that depends on the name's bytes only,
    so the hash stored with an entry is the one a later lookup or check computes
    from another copy of the name. The one-character name of a dot is the
    exception: the byte after it is looked at, and decides between the special
    hash 0 and an ordinary one. *)
Theorem dentry_hash_local (name : list Z) :
  0 < Z.of_nat (length name) < 2 ^ 31 ->
  (name <> [46] -> exists h, is_u32 h /\
     forall rest, __f2fs_dentry_hash (name ++ rest) (Z.of_nat (length name)) = Ok h) /\
  (name = [46] -> __f2fs_dentry_hash name 1 = Oob /\ __f2fs_dentry_hash (name ++ [0]) 1 = Ok 0 /\
     exists h, h <> 0 /\ __f2fs_dentry_hash (name ++ [97]) 1 = Ok h).
Proof.
  intros Hlen. split.
  - intros Hdot. destruct (special_dentry_local name) as [sp Hsp]; [lia|done|].
    destruct (dentry_hash_loop_total (S (Z.to_nat (Z.of_nat (length name)))) name (Z.of_nat (length name))
      (0x67452301, 0xefcdab89) eq_refl) as (b & Hb & Hr); [lia|].
    exists (if sp then 0 else u32 (Z.land b.1 (u64 (Z.lnot F2FS_HASH_COL_BIT)))).
    split; [destruct sp; [unfold is_u32; lia|apply u32_range]|]. intros rest. unfold __f2fs_dentry_hash.
    rewrite Hsp, Hr. by destruct sp.
  - intros ->. split; [reflexivity|]. split; [reflexivity|]. eexists. split; [|vm_compute; reflexivity]. lia.
Qed.

Lemma dentry_hash_local_witness :
  exists h, is_u32 h /\ forall rest, __f2fs_dentry_hash ([102; 105; 108; 101] ++ rest) 4 = Ok h.
Proof.
  apply (proj1 (dentry_hash_local [102; 105; 108; 101] ltac:(cbn; lia))). discriminate.
Defined.
