(* ===== verification/Device.v ===== *)
(** The block device of lib/libf2fs_io.c: [__get_device_fd], the block cache
    ("dcache", least used first), [dev_read] and [dev_write] of a build without
    the sparse-image library. The files behind the descriptors are the bytes
    the system calls see; the cache is the set of static variables of the file
    as a record. The main theorem is that a device with the cache and one
    without it answer every sequence of reads and writes alike. *)
From S2P Require Import Prelude.
From Stdlib Require Import ZArith Lia List Bool.
From stdpp Require Import base numbers list gmap.
#[local] Open Scope Z_scope.

(** * Configuration and state *)

Record dev_cache_config_t := {
  num_cache_entry : Z;
  max_hash_collision : Z
}.

Record device_info := {
  di_fd : Z;
  di_start_blkaddr : Z;
  di_end_blkaddr : Z
}.

(** The members of [struct f2fs_configuration] these functions use. *)
Record dev_configuration := {
  cf_devices : list device_info;
  cf_dry_run : bool;
  cf_sparse_mode : bool;
  cf_cache_config : dev_cache_config_t
}.

Definition F2FS_BLKSIZE_BITS : Z := 12.
Definition MIN_NUM_CACHE_ENTRY : Z := 1024.

(** The static variables of the cache; [dcache_buf] is kept as its blocks, so
    that [dcache_addr(entry)] is the block of index [entry]. *)
Record dcache := {
  dcache_initialized : bool;
  dcache_config : dev_cache_config_t;
  dcache_valid : list bool;
  dcache_blk : list Z;
  dcache_lastused : list Z;
  dcache_buf : list (list Z);
  dcache_usetick : Z;
  dcache_relocate_offset : list Z;
  dcache_raccess : Z;
  dcache_rhit : Z;
  dcache_rmiss : Z;
  dcache_rreplace : Z
}.

(** The contents of the open files, by descriptor. *)
Definition files := gmap Z (list Z).

Record dev_state := {
  ds_files : files;
  ds_cache : dcache;
  ds_max_size : Z
}.

(** The entry [e] after a physical read of block [blk]. *)
Definition set_dcache_entry dc (vs : list bool) (bs us : list Z) (bufs : list (list Z)) (tick : Z) := {|
  dcache_initialized := dcache_initialized dc; dcache_config := dcache_config dc;
  dcache_valid := vs; dcache_blk := bs; dcache_lastused := us;
  dcache_buf := bufs; dcache_usetick := tick;
  dcache_relocate_offset := dcache_relocate_offset dc; dcache_raccess := dcache_raccess dc;
  dcache_rhit := dcache_rhit dc; dcache_rmiss := dcache_rmiss dc;
  dcache_rreplace := dcache_rreplace dc |}.

Definition set_dcache_buf dc bufs :=
  set_dcache_entry dc (dcache_valid dc) (dcache_blk dc) (dcache_lastused dc) bufs (dcache_usetick dc).

Definition dcache_count dc (access hit miss replace : Z) := {|
  dcache_initialized := dcache_initialized dc; dcache_config := dcache_config dc;
  dcache_valid := dcache_valid dc; dcache_blk := dcache_blk dc;
  dcache_lastused := dcache_lastused dc; dcache_buf := dcache_buf dc;
  dcache_usetick := dcache_usetick dc; dcache_relocate_offset := dcache_relocate_offset dc;
  dcache_raccess := u64 (dcache_raccess dc + access); dcache_rhit := u64 (dcache_rhit dc + hit);
  dcache_rmiss := u64 (dcache_rmiss dc + miss); dcache_rreplace := u64 (dcache_rreplace dc + replace) |}.

(** * Devices and files *)

(** [__get_device_fd]: the descriptor of the device that holds a byte offset,
    with the offset within it; [None] is the return value [-1]. *)
Fixpoint __get_device_fd (devices : list device_info) (offset : Z) : option (Z * Z) :=
  match devices with
  | [] => None
  | d :: devices =>
      let blk_addr := Z.shiftr offset F2FS_BLKSIZE_BITS in
      if (di_start_blkaddr d <=? blk_addr) && (blk_addr <=? di_end_blkaddr d)
      then Some (di_fd d, u64 (offset - u64 (Z.shiftl (di_start_blkaddr d) F2FS_BLKSIZE_BITS)))
      else __get_device_fd devices offset
  end.

Abbreviation nentries dc := (num_cache_entry (dcache_config dc)).

Section Device.
(** Which system calls fail: [io_error fd offset]. *)
Context (io_error : Z -> Z -> bool).

(** [lseek64] then [read] of [length old] bytes into a buffer holding [old]: a
    read across the end of the file leaves the rest of the buffer alone. *)
Definition pread (fs : files) (fd offset : Z) (old : list Z) : option (list Z) :=
  match fs !! fd with
  | None => None
  | Some f =>
      if (s64 offset <? 0) || io_error fd offset then None
      else let got := take (length old) (drop (Z.to_nat offset) f) in
           Some (got ++ drop (length got) old)
  end.

(** [lseek64] then [write]: the file grows when needed. *)
Definition pwrite (fs : files) (fd offset : Z) (data : list Z) : option files :=
  match fs !! fd with
  | None => None
  | Some f =>
      if (s64 offset <? 0) || io_error fd offset then None
      else let f' := f ++ replicate (Z.to_nat offset - length f) 0 in
           Some (<[fd := take (Z.to_nat offset) f' ++ data ++
                         drop (Z.to_nat offset + length data) f']> fs)
  end.

(** * The cache *)

(** The memory [malloc] hands out for [n] entries: whether it does, and what the
    four arrays hold before anything is stored in them. *)
Record heap_oracle := {
  malloc_ok : Z -> bool;
  junk_valid : Z -> list bool;
  junk_blk : Z -> list Z;
  junk_lastused : Z -> list Z;
  junk_buf : Z -> list (list Z)
}.
Context (heap : heap_oracle).

Definition dcache_release (dc : dcache) : dcache :=
  if negb (dcache_initialized dc) then dc
  else {| dcache_initialized := false;
          dcache_config := {| num_cache_entry := 0;
                              max_hash_collision := max_hash_collision (dcache_config dc) |};
          dcache_valid := []; dcache_blk := []; dcache_lastused := []; dcache_buf := [];
          dcache_usetick := dcache_usetick dc;
          dcache_relocate_offset := dcache_relocate_offset dc;
          dcache_raccess := dcache_raccess dc; dcache_rhit := dcache_rhit dc;
          dcache_rmiss := dcache_rmiss dc; dcache_rreplace := dcache_rreplace dc |}.

(** [dcache_alloc_all]: [dcache_valid] is allocated last, so it stays NULL (an
    empty array here) whenever one of the four allocations fails. *)
Definition dcache_alloc_all (dc : dcache) (n : Z) : Z * dcache :=
  if n <=? 0 then (-1, dc)
  else if negb (malloc_ok heap n) then (-1, dcache_release dc)
  else (0, {| dcache_initialized := dcache_initialized dc;
              dcache_config := {| num_cache_entry := n;
                                  max_hash_collision := max_hash_collision (dcache_config dc) |};
              dcache_valid := junk_valid heap n; dcache_blk := junk_blk heap n;
              dcache_lastused := junk_lastused heap n; dcache_buf := junk_buf heap n;
              dcache_usetick := dcache_usetick dc;
              dcache_relocate_offset := dcache_relocate_offset dc;
              dcache_raccess := dcache_raccess dc; dcache_rhit := dcache_rhit dc;
              dcache_rmiss := dcache_rmiss dc; dcache_rreplace := dcache_rreplace dc |}).

Definition dcache_relocate_offset0 : list Z :=
  [20; -20; 40; -40; 80; -80; 160; -160; 320; -320; 640; -640; 1280; -1280; 2560; -2560].

(** [dcache_relocate_init]: the loop over [i], which lowers
    [max_hash_collision] when an offset exceeds half of the table. *)
Fixpoint dcache_relocate_loop (offsets : list Z) (i : Z) (cfg : dev_cache_config_t) (tab : list Z)
    : dev_cache_config_t * list Z :=
  match offsets with
  | [] => (cfg, tab)
  | o :: offsets =>
      if negb (i <? max_hash_collision cfg) then (cfg, tab)
      else if num_cache_entry cfg / 2 <? Z.abs o
      then ({| num_cache_entry := num_cache_entry cfg; max_hash_collision := i |}, tab)
      else dcache_relocate_loop offsets (i + 1) cfg
             (<[Z.to_nat i := s32 (num_cache_entry cfg + o)]> tab)
  end.

Definition dcache_relocate_init (dc : dcache) : dcache :=
  let '(cfg, tab) := dcache_relocate_loop dcache_relocate_offset0 0 (dcache_config dc)
                       (dcache_relocate_offset dc) in
  {| dcache_initialized := dcache_initialized dc; dcache_config := cfg;
     dcache_valid := dcache_valid dc; dcache_blk := dcache_blk dc;
     dcache_lastused := dcache_lastused dc; dcache_buf := dcache_buf dc;
     dcache_usetick := dcache_usetick dc; dcache_relocate_offset := tab;
     dcache_raccess := dcache_raccess dc; dcache_rhit := dcache_rhit dc;
     dcache_rmiss := dcache_rmiss dc; dcache_rreplace := dcache_rreplace dc |}.

(** The allocation loop of [dcache_init]: [n] is halved down to the minimum. *)
Fixpoint dcache_init_loop (fuel : nat) (dc : dcache) (n : Z) : res dcache :=
  match fuel with
  | O => NoFuel
  | S fuel =>
      let '(err, dc) := dcache_alloc_all dc n in
      if negb (err =? 0) && negb (n =? MIN_NUM_CACHE_ENTRY)
      then dcache_init_loop fuel dc (Z.max MIN_NUM_CACHE_ENTRY (n / 2))
      else Ok dc
  end.

Definition dcache_init (c : dev_configuration) (dc : dcache) : res dcache :=
  if num_cache_entry (cf_cache_config c) <=? 0 then Ok dc
  else
    let dc := dcache_release dc in
    let dc := {| dcache_initialized := dcache_initialized dc; dcache_config := cf_cache_config c;
                 dcache_valid := []; dcache_blk := []; dcache_lastused := []; dcache_buf := [];
                 dcache_usetick := dcache_usetick dc;
                 dcache_relocate_offset := dcache_relocate_offset dc;
                 dcache_raccess := dcache_raccess dc; dcache_rhit := dcache_rhit dc;
                 dcache_rmiss := dcache_rmiss dc; dcache_rreplace := dcache_rreplace dc |} in
    let n := Z.max MIN_NUM_CACHE_ENTRY (num_cache_entry (dcache_config dc)) in
    dc ← dcache_init_loop 64 dc n;
    let dc := dcache_relocate_init dc in
    Ok {| dcache_initialized := true; dcache_config := dcache_config dc;
          dcache_valid := dcache_valid dc; dcache_blk := dcache_blk dc;
          dcache_lastused := dcache_lastused dc; dcache_buf := dcache_buf dc;
          dcache_usetick := dcache_usetick dc;
          dcache_relocate_offset := dcache_relocate_offset dc;
          dcache_raccess := 0; dcache_rhit := 0; dcache_rmiss := 0; dcache_rreplace := 0 |}.

(** [dcache_relocate]: [%] of C on a non-negative sum. *)
Definition dcache_relocate (dc : dcache) (entry n : Z) : res Z :=
  _ ← assert_ (negb (num_cache_entry (dcache_config dc) =? 0));
  o ← rd (dcache_relocate_offset dc) n;
  Ok (Z.rem (entry + o) (num_cache_entry (dcache_config dc))).

(** [dcache_find]: the loop runs [m - try] more times. *)
Fixpoint dcache_find_loop (todo : nat) (dc : dcache) (blk entry least_used target try : Z) : res Z :=
  match todo with
  | O => Ok least_used
  | S todo =>
      v ← rd (dcache_valid dc) target;
      if negb v then Ok target
      else
        b ← rd (dcache_blk dc) target;
        if b =? blk then Ok target
        else
          ut ← rd (dcache_lastused dc) target;
          ul ← rd (dcache_lastused dc) least_used;
          let least_used := if ut <? ul then target else least_used in
          target ← dcache_relocate dc entry try;
          dcache_find_loop todo dc blk entry least_used target (try + 1)
  end.

Definition dcache_find (dc : dcache) (blk : Z) : res Z :=
  let n := num_cache_entry (dcache_config dc) in
  let m := max_hash_collision (dcache_config dc) in
  _ ← assert_ (0 <? n);
  let entry := Z.rem blk n in
  dcache_find_loop (Z.to_nat m) dc blk entry entry entry 0.

(** [dcache_io_read] *)
Definition dcache_io_read (fs : files) (dc : dcache) (fd entry offset blk : Z) : res (Z * dcache) :=
  old ← rd (dcache_buf dc) entry;
  match pread fs fd offset old with
  | None => Ok (-1, dc)
  | Some data =>
      bufs ← wr (dcache_buf dc) entry data;
      let tick := u64 (dcache_usetick dc + 1) in
      us ← wr (dcache_lastused dc) entry tick;
      vs ← wr (dcache_valid dc) entry true;
      bs ← wr (dcache_blk dc) entry blk;
      Ok (0, set_dcache_entry dc vs bs us bufs tick)
  end.

(** * Reading and writing through the cache *)

(** One turn of the loop of [dcache_update_rw] looks [blk] up, handles the hit
    or the miss and copies out; [pos] is how far [buf] has been advanced. Every
    turn handles at least one byte, so [byte_count] turns and the final test are
    enough fuel. *)
Fixpoint dcache_update_rw_loop (fuel : nat) (fs : files) (dc : dcache) (fd : Z) (buf : list Z)
    (pos blk addr_in_blk start byte_count : Z) (is_write : bool) : res (Z * dcache * list Z) :=
  match fuel with
  | O => NoFuel
  | S fuel =>
      if byte_count =? 0 then Ok (0, dc, buf)
      else
        let cur_size := Z.min byte_count (F2FS_BLKSIZE - addr_in_blk) in
        entry ← dcache_find dc blk;
        let dc := if is_write then dc else dcache_count dc 1 0 0 0 in
        v ← rd (dcache_valid dc) entry;
        hit ← (if v : bool then b ← rd (dcache_blk dc) entry; Ok (b =? blk) else Ok false);
        r ← (if hit : bool then
               if is_write then
                 old ← rd (dcache_buf dc) entry;
                 src ← rd_bytes buf pos (Z.to_nat cur_size);
                 new ← wr_list old addr_in_blk src;
                 bufs ← wr (dcache_buf dc) entry new;
                 Ok (0, set_dcache_buf dc bufs)
               else Ok (0, dcache_count dc 0 1 0 0)
             else if is_write then Ok (0, dc)
             else dcache_io_read fs (dcache_count dc 0 0 1 (Z.b2z v)) fd entry start blk);
        let '(err, dc) := r in
        if negb (err =? 0) then Ok (err, dc, buf)
        else
          buf ← (if is_write then Ok buf
                 else data ← rd (dcache_buf dc) entry;
                      src ← rd_bytes data addr_in_blk (Z.to_nat cur_size);
                      wr_list buf pos src);
          dcache_update_rw_loop fuel fs dc fd buf (pos + cur_size) (blk + 1) 0
            (start + F2FS_BLKSIZE) (byte_count - cur_size) is_write
  end.

(** [dcache_update_rw]: 1 is returned when there is no cache. *)
Definition dcache_update_rw (c : dev_configuration) (fs : files) (dc : dcache) (fd : Z)
    (buf : list Z) (offset byte_count : Z) (is_write : bool) : res (Z * dcache * list Z) :=
  dc ← (if negb (dcache_initialized dc) then dcache_init c dc else Ok dc);
  if negb (dcache_initialized dc) then Ok (1, dc, buf)
  else
    let blk := offset / F2FS_BLKSIZE in
    let addr_in_blk := offset mod F2FS_BLKSIZE in
    let start := blk * F2FS_BLKSIZE in
    dcache_update_rw_loop (S (Z.to_nat byte_count)) fs dc fd buf 0 blk addr_in_blk start
      byte_count is_write.

Definition dcache_update_cache c fs dc fd buf offset count :=
  dcache_update_rw c fs dc fd buf offset count true.
Definition dcache_read c fs dc fd buf offset count :=
  dcache_update_rw c fs dc fd buf offset count false.

(** [dev_read]: the return value, the state and the caller's buffer. *)
Definition dev_read (c : dev_configuration) (st : dev_state) (buf : list Z) (offset len : Z)
    : res (Z * dev_state * list Z) :=
  let max_size := Z.max (ds_max_size st) (u64 (offset + len)) in
  let st := {| ds_files := ds_files st; ds_cache := ds_cache st; ds_max_size := max_size |} in
  if cf_sparse_mode c then Ok (0, st, buf)
  else match __get_device_fd (cf_devices c) offset with
  | None => Ok (-1, st, buf)
  | Some (fd, offset) =>
      r ← dcache_read c (ds_files st) (ds_cache st) fd buf offset len;
      let '(err, dc, buf) := r in
      let st := {| ds_files := ds_files st; ds_cache := dc; ds_max_size := max_size |} in
      if err <=? 0 then Ok (err, st, buf)
      else
        old ← rd_bytes buf 0 (Z.to_nat len);
        match pread (ds_files st) fd offset old with
        | None => Ok (-1, st, buf)
        | Some data => buf ← wr_list buf 0 data; Ok (0, st, buf)
        end
  end.

(** [dev_write]: the cache first, then the device. *)
Definition dev_write (c : dev_configuration) (st : dev_state) (buf : list Z) (offset len : Z)
    : res (Z * dev_state) :=
  let max_size := Z.max (ds_max_size st) (u64 (offset + len)) in
  let st := {| ds_files := ds_files st; ds_cache := ds_cache st; ds_max_size := max_size |} in
  if cf_dry_run c then Ok (0, st)
  else if cf_sparse_mode c then Ok (0, st)
  else match __get_device_fd (cf_devices c) offset with
  | None => Ok (-1, st)
  | Some (fd, offset) =>
      r ← dcache_update_cache c (ds_files st) (ds_cache st) fd buf offset len;
      let '(err, dc, _) := r in
      let st := {| ds_files := ds_files st; ds_cache := dc; ds_max_size := max_size |} in
      if err <? 0 then Ok (-1, st)
      else
        data ← rd_bytes buf 0 (Z.to_nat len);
        match pwrite (ds_files st) fd offset data with
        | None => Ok (-1, st)
        | Some fs => Ok (0, {| ds_files := fs; ds_cache := dc; ds_max_size := max_size |})
        end
  end.

(** [dev_fill]: zeroes go to the device without a look at the cache. *)
Definition dev_fill (c : dev_configuration) (st : dev_state) (buf : list Z) (offset len : Z)
    : res (Z * dev_state) :=
  let max_size := Z.max (ds_max_size st) (u64 (offset + len)) in
  let st := {| ds_files := ds_files st; ds_cache := ds_cache st; ds_max_size := max_size |} in
  if cf_sparse_mode c then Ok (0, st)
  else match __get_device_fd (cf_devices c) offset with
  | None => Ok (-1, st)
  | Some (fd, offset) =>
      b ← rd buf 0;
      if negb (b =? 0) then Ok (-1, st)
      else
        data ← rd_bytes buf 0 (Z.to_nat len);
        match pwrite (ds_files st) fd offset data with
        | None => Ok (-1, st)
        | Some fs => Ok (0, {| ds_files := fs; ds_cache := ds_cache st; ds_max_size := max_size |})
        end
  end.

Definition dev_write_block c st buf blk_addr :=
  dev_write c st buf (u64 (Z.shiftl blk_addr F2FS_BLKSIZE_BITS)) F2FS_BLKSIZE.
Definition dev_fill_block c st buf blk_addr :=
  dev_fill c st buf (u64 (Z.shiftl blk_addr F2FS_BLKSIZE_BITS)) F2FS_BLKSIZE.
Definition dev_read_block c st buf blk_addr :=
  dev_read c st buf (u64 (Z.shiftl blk_addr F2FS_BLKSIZE_BITS)) F2FS_BLKSIZE.

(** * What the cache must satisfy *)

Implicit Types dc : dcache.

Definition tries dc : nat := Z.to_nat (max_hash_collision (dcache_config dc)).

(** The block cached at an entry. *)
Definition slot dc (e : Z) : option Z :=
  match dcache_valid dc !! Z.to_nat e, dcache_blk dc !! Z.to_nat e with
  | Some true, Some b => Some b
  | _, _ => None
  end.

(** The entries [dcache_find] looks at for block [b], in order. *)
Definition probe dc (b : Z) (k : nat) : Z :=
  match k with
  | O => Z.rem b (nentries dc)
  | S k => Z.rem (Z.rem b (nentries dc) + default 0 (dcache_relocate_offset dc !! k)) (nentries dc)
  end.

Definition busy dc (b : Z) (k : nat) : Prop :=
  exists b', slot dc (probe dc b k) = Some b' /\ b' <> b.

Record cache_shape dc : Prop := {
  sh_init : dcache_initialized dc = true;
  sh_n : 0 < nentries dc;
  sh_valid : Z.of_nat (length (dcache_valid dc)) = nentries dc;
  sh_blk : Z.of_nat (length (dcache_blk dc)) = nentries dc;
  sh_used : Z.of_nat (length (dcache_lastused dc)) = nentries dc;
  sh_buf : Z.of_nat (length (dcache_buf dc)) = nentries dc;
  sh_blocks : Forall (fun l => length l = 4096%nat) (dcache_buf dc);
  sh_off : forall k, (k < tries dc)%nat ->
           exists o, dcache_relocate_offset dc !! k = Some o /\ 0 <= o
}.

(** Block [b] of a file. *)
Definition fblock (f : list Z) (b : Z) : list Z :=
  take 4096 (drop (Z.to_nat (b * F2FS_BLKSIZE)) f).
Definition in_file (f : list Z) (b : Z) : Prop :=
  0 <= b /\ (b + 1) * F2FS_BLKSIZE <= Z.of_nat (length f).

(** A cached block is the block of the file, and [dcache_find] gets to it: the
    entries it looks at before are taken by other blocks. *)
Record cache_ok (f : list Z) dc : Prop := {
  ok_shape : cache_shape dc;
  ok_data : forall e b, 0 <= e < nentries dc -> slot dc e = Some b ->
      in_file f b /\ dcache_buf dc !! Z.to_nat e = Some (fblock f b);
  ok_reach : forall e b, 0 <= e < nentries dc -> slot dc e = Some b ->
      exists k, (k < Nat.max 1 (tries dc))%nat /\ probe dc b k = e /\
                forall j, (j < k)%nat -> busy dc b j \/ probe dc b j = e
}.

(** ** The lookup *)

Lemma probe_range dc b k :
  cache_shape dc -> 0 <= b -> (k <= tries dc)%nat -> 0 <= probe dc b k < nentries dc.
Proof.
  intros Hsh Hb Hk. pose proof (sh_n _ Hsh). destruct k as [|k]; cbn [probe].
  - rewrite Z.rem_mod_nonneg by lia. apply Z.mod_pos_bound. lia.
  - destruct (sh_off _ Hsh k) as (o & -> & Ho); [lia|]. cbn.
    rewrite !Z.rem_mod_nonneg; try lia; try (apply Z.mod_pos_bound; lia).
    pose proof (Z.mod_pos_bound b (nentries dc)). rewrite Z.rem_mod_nonneg; lia.
Qed.

Lemma slot_entry dc e :
  cache_shape dc -> 0 <= e < nentries dc ->
  exists v b u d, rd (dcache_valid dc) e = Ok v /\ rd (dcache_blk dc) e = Ok b /\
    rd (dcache_lastused dc) e = Ok u /\ rd (dcache_buf dc) e = Ok d /\ length d = 4096%nat /\
    slot dc e = if (v : bool) then Some b else None.
Proof.
  intros Hsh He. destruct (rd_total (dcache_valid dc) e) as [v Hv]; [by rewrite sh_valid|].
  destruct (rd_total (dcache_blk dc) e) as [b Hb]; [by rewrite sh_blk|].
  destruct (rd_total (dcache_lastused dc) e) as [u Hu]; [by rewrite sh_used|].
  destruct (rd_total (dcache_buf dc) e) as [d Hd]; [by rewrite sh_buf|].
  exists v, b, u, d. do 4 (split; [done|]). apply rd_Ok in Hv as [_ Hv], Hb as [_ Hb], Hd as [_ Hd].
  split; [exact (Forall_lookup_1 _ _ _ _ (sh_blocks _ Hsh) Hd)|].
  unfold slot. rewrite Hv, Hb. by destruct v.
Qed.

Lemma find_loop_ok dc b todo : forall k least,
  cache_shape dc -> 0 <= b -> (k + todo = tries dc)%nat ->
  (forall j, (j < k)%nat -> busy dc b j) ->
  (exists j, (j < Nat.max 1 k)%nat /\ least = probe dc b j) ->
  exists e i, dcache_find_loop todo dc b (probe dc b 0) least (probe dc b k) (Z.of_nat k) = Ok e /\
    e = probe dc b i /\ (i < Nat.max 1 (tries dc))%nat /\ (forall j, (j < i)%nat -> busy dc b j) /\
    (slot dc e = Some b \/ slot dc e = None \/ forall j, (j < tries dc)%nat -> busy dc b j).
Proof.
  induction todo as [|todo IH]; intros k least Hsh Hb Hk Hbusy (j & Hj & ->).
  - exists (probe dc b j), j. assert (k = tries dc) as -> by lia.
    cbn [dcache_find_loop]. split; [done|]. split; [done|]. split; [lia|]. split; [|by auto].
    intros j' ?. apply Hbusy. lia.
  - assert (forall i, (i < Nat.max 1 (tries dc))%nat -> 0 <= probe dc b i < nentries dc) as Hr.
    { intros i Hi. apply probe_range; [done|done|lia]. }
    destruct (slot_entry dc (probe dc b k)) as (v & b' & u & d & Hv & Hb' & Hu & _ & _ & Hs);
      [done|apply Hr; lia|].
    destruct (slot_entry dc (probe dc b j)) as (_ & _ & ul & _ & _ & _ & Hul & _);
      [done|apply Hr; lia|].
    cbn [dcache_find_loop]. unfold mbind, res_bind. rewrite Hv. destruct v; cbn [negb].
    2:{ exists (probe dc b k), k. rewrite Hs. split_and!; [done|done|lia|done|by auto]. }
    rewrite Hb'. destruct (Z.eqb_spec b' b) as [->|Hne].
    { exists (probe dc b k), k. rewrite Hs. split_and!; [done|done|lia|done|by auto]. }
    rewrite Hu, Hul. unfold dcache_relocate. pose proof (sh_n _ Hsh).
    replace (nentries dc =? 0) with false by lia. cbn. unfold mbind, res_bind.
    destruct (sh_off _ Hsh k) as (o & Ho & Ho0); [lia|].
    assert (rd (dcache_relocate_offset dc) (Z.of_nat k) = Ok o) as ->.
    { apply rd_Ok. rewrite Nat2Z.id. split; [lia|done]. }
    assert (Z.rem (Z.rem b (nentries dc) + o) (nentries dc) = probe dc b (S k)) as ->.
    { cbn [probe]. by rewrite Ho. }
    replace (Z.of_nat k + 1) with (Z.of_nat (S k)) by lia.
    apply (IH (S k)); [done|done|lia| |].
    + intros i Hi. destruct (decide (i = k)) as [->|]; [by exists b'|apply Hbusy; lia].
    + destruct (u <? ul); [exists k|exists j]; split; (done || lia).
Qed.

(** [dcache_find] returns the entry of the block when it is cached. *)
Lemma dcache_find_ok f dc b :
  cache_ok f dc -> 0 <= b ->
  exists e, dcache_find dc b = Ok e /\ 0 <= e < nentries dc /\
    (slot dc e = Some b \/
     (forall e', 0 <= e' < nentries dc -> slot dc e' <> Some b) /\
     exists i, (i < Nat.max 1 (tries dc))%nat /\ e = probe dc b i /\
               forall j, (j < i)%nat -> busy dc b j).
Proof.
  intros Hok Hb. pose proof (ok_shape _ _ Hok) as Hsh. pose proof (sh_n _ Hsh).
  destruct (find_loop_ok dc b (tries dc) 0 (probe dc b 0)) as (e & i & He & -> & Hi & Hbusy & Hc);
    [done|done|lia|intros ? ?; lia|exists O; split; [lia|done]|].
  exists (probe dc b i). unfold dcache_find. replace (0 <? nentries dc) with true by lia.
  split; [exact He|]. split; [apply probe_range; [done|done|lia]|].
  destruct (decide (slot dc (probe dc b i) = Some b)) as [|Hns]; [by left|]. right.
  split; [|by exists i]. intros e' He' Hs.
  destruct (ok_reach _ _ Hok e' b He' Hs) as (k & Hk & <- & Hpass).
  destruct (lt_eq_lt_dec k i) as [[Hlt| ->]|Hlt]; [|done|].
  - destruct (Hbusy k Hlt) as (b' & Hb' & Hne). congruence.
  - destruct (Hpass i Hlt) as [(b' & Hb' & Hne)|Heq]; [|congruence].
    destruct Hc as [?|[?|Hall]]; [congruence|congruence|].
    destruct (Hall k) as (b'' & ? & ?); [lia|congruence].
Qed.

(** ** Filling an entry and writing through it *)

(** Caches that only differ in statistics. *)
Lemma cache_ok_count f dc a h m r : cache_ok f dc -> cache_ok f (dcache_count dc a h m r).
Proof. intros [[] Hd Hr]. split; [by split|exact Hd|exact Hr]. Qed.

Lemma slot_fill dc e b d us tick e' :
  cache_shape dc -> 0 <= e < nentries dc -> 0 <= e' ->
  slot (set_dcache_entry dc (<[Z.to_nat e := true]> (dcache_valid dc))
          (<[Z.to_nat e := b]> (dcache_blk dc)) us d tick) e' =
  if decide (e' = e) then Some b else slot dc e'.
Proof.
  intros Hsh He He'. pose proof (sh_valid _ Hsh). pose proof (sh_blk _ Hsh).
  unfold slot. cbn. case_decide as Hd.
  - subst e'. by rewrite !list_lookup_insert_eq by lia.
  - by rewrite !list_lookup_insert_ne by lia.
Qed.

(** A miss: block [b], cached nowhere, replaces what entry [e] held. *)
Lemma cache_ok_fill f dc e b us tick i :
  cache_ok f dc -> in_file f b -> length us = length (dcache_lastused dc) ->
  (forall e', 0 <= e' < nentries dc -> slot dc e' <> Some b) ->
  (i < Nat.max 1 (tries dc))%nat -> e = probe dc b i -> 0 <= e < nentries dc ->
  (forall j, (j < i)%nat -> busy dc b j) ->
  cache_ok f (set_dcache_entry dc (<[Z.to_nat e := true]> (dcache_valid dc))
                (<[Z.to_nat e := b]> (dcache_blk dc)) us
                (<[Z.to_nat e := fblock f b]> (dcache_buf dc)) tick).
Proof.
  intros Hok Hf Hus Hno Hi He Her Hbusy. pose proof (ok_shape _ _ Hok) as Hsh.
  pose proof (sh_buf _ Hsh). set (dc' := set_dcache_entry _ _ _ _ _ _).
  assert (forall e', 0 <= e' -> slot dc' e' = if decide (e' = e) then Some b else slot dc e') as Hslot.
  { intros. by apply slot_fill. }
  assert (forall b0 j, 0 <= b0 -> (j <= tries dc)%nat -> b0 <> b -> busy dc b0 j -> busy dc' b0 j) as Hbz.
  { intros b0 j Hb0 Hj Hne (b' & Hb' & Hne'). destruct (probe_range dc b0 j Hsh Hb0 Hj).
    unfold busy. change (probe dc' b0 j) with (probe dc b0 j). rewrite Hslot by lia.
    case_decide; [by exists b|by exists b']. }
  split.
  - destruct Hsh. split; cbn; rewrite ?length_insert; try (done || congruence || lia).
    apply Forall_insert; [done|]. unfold fblock. destruct Hf.
    rewrite length_take, length_drop. lia.
  - intros e0 b0 He0. change (nentries dc') with (nentries dc) in He0.
    rewrite Hslot by lia. case_decide as Hd.
    + intros [= <-]. subst e0. split; [done|]. cbn. apply list_lookup_insert_eq. lia.
    + intros Hs. cbn. rewrite list_lookup_insert_ne by lia. by apply (ok_data _ _ Hok).
  - intros e0 b0 He0. change (nentries dc') with (nentries dc) in He0.
    rewrite Hslot by lia. case_decide as Hd.
    + intros [= <-]. subst e0. exists i. split; [done|]. split; [by symmetry|]. intros j Hj.
      destruct (decide (probe dc b j = e)) as [|Hne]; [by right|]. left.
      destruct (Hbusy j Hj) as (b' & Hb' & ?). exists b'. split; [|done].
      change (probe dc' b j) with (probe dc b j). destruct Hf.
      rewrite Hslot by (apply probe_range; [done|done|lia]). by case_decide.
    + intros Hs. destruct (ok_reach _ _ Hok e0 b0 He0 Hs) as (k & Hk & Hp & Hpass).
      assert (b0 <> b) by (intros ->; by apply (Hno e0)).
      destruct (ok_data _ _ Hok e0 b0 He0 Hs) as [[? _] _].
      exists k. split; [done|]. split; [done|]. intros j Hj.
      destruct (Hpass j Hj) as [Hb1|]; [left; apply Hbz; (done || lia)|by right].
Qed.

Lemma fblock_length f b : in_file f b -> length (fblock f b) = 4096%nat.
Proof. intros [H0 H]. unfold fblock. rewrite length_take, length_drop. lia. Qed.

Lemma in_file_splice f o xs b :
  0 <= o -> o + Z.of_nat (length xs) <= Z.of_nat (length f) -> in_file f b -> in_file (splice f o xs) b.
Proof. intros ?? [??]. split; [done|]. by rewrite length_splice. Qed.

Lemma lookup_fblock f b i : 0 <= b ->
  fblock f b !! i = if decide (i < 4096)%nat then f !! (Z.to_nat (b * F2FS_BLKSIZE) + i)%nat else None.
Proof.
  intros Hb. unfold fblock. case_decide.
  - rewrite lookup_take_lt by lia. by rewrite lookup_drop.
  - by rewrite lookup_take_ge by lia.
Qed.

Lemma fblock_splice f b a xs b' :
  in_file f b -> 0 <= a -> a + Z.of_nat (length xs) <= F2FS_BLKSIZE -> in_file f b' ->
  fblock (splice f (b * F2FS_BLKSIZE + a) xs) b' =
  if decide (b' = b) then splice (fblock f b) a xs else fblock f b'.
Proof.
  intros [Hb Hbl] Ha Hx [Hb' Hbl'].
  assert (length (fblock f b) = 4096%nat) as Hl by by apply fblock_length.
  apply list_eq. intros i. rewrite lookup_fblock by done.
  rewrite lookup_splice by lia. destruct (decide (b' = b)) as [->|Hne].
  - rewrite lookup_splice by lia. rewrite lookup_fblock by done.
    repeat case_decide; try lia; try done. f_equal. lia.
  - rewrite lookup_fblock by done. repeat case_decide; try lia; done.
Qed.

(** A write: the file changes in block [b], and so does the entry caching it. *)
Lemma cache_ok_write f dc b a xs e :
  cache_ok f dc -> in_file f b -> 0 <= a -> a + Z.of_nat (length xs) <= F2FS_BLKSIZE ->
  0 <= e < nentries dc -> slot dc e = Some b ->
  cache_ok (splice f (b * F2FS_BLKSIZE + a) xs)
    (set_dcache_buf dc (<[Z.to_nat e := splice (fblock f b) a xs]> (dcache_buf dc))).
Proof.
  intros Hok Hf Ha Hx He Hs. pose proof (ok_shape _ _ Hok) as Hsh. pose proof (sh_buf _ Hsh).
  pose proof (fblock_length _ _ Hf) as Hl. split.
  - destruct Hsh. split; cbn; rewrite ?length_insert; try done.
    apply Forall_insert; [done|]. by rewrite length_splice by lia.
  - intros e0 b0 He0 Hs0. change (slot dc e0 = Some b0) in Hs0. cbn in He0 |- *.
    destruct (ok_data _ _ Hok e0 b0 He0 Hs0) as [Hf0 Hd0]. destruct (Hf), (Hf0).
    split; [apply in_file_splice; (done || lia)|].
    rewrite (fblock_splice f b a xs b0) by (done || lia).
    destruct (decide (e0 = e)) as [->|Hne].
    + assert (b0 = b) as -> by congruence. rewrite decide_True by done.
      apply list_lookup_insert_eq. lia.
    + rewrite list_lookup_insert_ne by lia. case_decide as Hd; [|done]. subst b0.
      destruct (ok_reach _ _ Hok e0 b He0 Hs0) as (k & Hk & <- & Hp).
      destruct (ok_reach _ _ Hok e b He Hs) as (k' & Hk' & <- & Hp').
      destruct (lt_eq_lt_dec k k') as [[Hlt| ->]|Hlt]; [|done|].
      * destruct (Hp' k Hlt) as [(b' & ? & ?)|]; congruence.
      * destruct (Hp k' Hlt) as [(b' & ? & ?)|]; congruence.
  - exact (ok_reach _ _ Hok).
Qed.

(** A write to a block that is not cached. *)
Lemma cache_ok_write_miss f dc b a xs :
  cache_ok f dc -> in_file f b -> 0 <= a -> a + Z.of_nat (length xs) <= F2FS_BLKSIZE ->
  (forall e', 0 <= e' < nentries dc -> slot dc e' <> Some b) ->
  cache_ok (splice f (b * F2FS_BLKSIZE + a) xs) dc.
Proof.
  intros Hok Hf Ha Hx Hno. split; [apply Hok| |apply Hok].
  intros e0 b0 He0 Hs0. destruct (ok_data _ _ Hok e0 b0 He0 Hs0) as [Hf0 Hd0].
  destruct (Hf), (Hf0). split; [apply in_file_splice; (done || lia)|].
  rewrite (fblock_splice f b a xs b0) by (done || lia).
  rewrite decide_False; [done|]. intros ->. by apply (Hno e0).
Qed.

(** ** The loops *)

Section Loops.
Context (f : list Z) (fs : files) (fd : Z).
Context (Hfs : fs !! fd = Some f) (Hmul : (F2FS_BLKSIZE | Z.of_nat (length f))).
Context (Hbig : Z.of_nat (length f) < 2 ^ 63).

Lemma in_file_bound b a : 0 <= b -> 0 <= a -> b * F2FS_BLKSIZE + a < Z.of_nat (length f) -> in_file f b.
Proof. intros Hb Ha Hlt. destruct Hmul as [q Hq]. split; [done|]. nia. Qed.

Lemma pread_block b old :
  in_file f b -> length old = 4096%nat ->
  pread fs fd (b * F2FS_BLKSIZE) old =
    if io_error fd (b * F2FS_BLKSIZE) then None else Some (fblock f b).
Proof.
  intros Hb Ho. unfold pread. rewrite Hfs. destruct (Hb) as [H0 H1].
  assert (s64 (b * F2FS_BLKSIZE) = b * F2FS_BLKSIZE) as ->.
  { unfold s64, sgn. rewrite Z.mod_small by lia. destruct (Z.ltb_spec (b * 4096) (2 ^ (64 - 1))); lia. }
  replace (b * F2FS_BLKSIZE <? 0) with false by lia. cbn [orb].
  destruct (io_error _ _); [done|]. rewrite Ho. fold (fblock f b).
  rewrite (fblock_length f b Hb), drop_ge, app_nil_r by lia. done.
Qed.

Lemma dcache_io_read_ok dc e b i :
  cache_ok f dc -> in_file f b -> 0 <= e < nentries dc ->
  (forall e', 0 <= e' < nentries dc -> slot dc e' <> Some b) ->
  (i < Nat.max 1 (tries dc))%nat -> e = probe dc b i -> (forall j, (j < i)%nat -> busy dc b j) ->
  (exists dc', dcache_io_read fs dc fd e (b * F2FS_BLKSIZE) b = Ok (0, dc') /\ cache_ok f dc' /\
               rd (dcache_buf dc') e = Ok (fblock f b)) \/
  dcache_io_read fs dc fd e (b * F2FS_BLKSIZE) b = Ok (-1, dc) /\ io_error fd (b * F2FS_BLKSIZE) = true.
Proof.
  intros Hok Hb He Hno Hi Hep Hbusy. pose proof (ok_shape _ _ Hok) as Hsh.
  destruct (slot_entry dc e Hsh He) as (v & b0 & u & d & Hv & Hb0 & Hu & Hd & Hdl & Hs).
  unfold dcache_io_read, mbind, res_bind. rewrite Hd, (pread_block b d Hb Hdl).
  destruct (io_error fd (b * F2FS_BLKSIZE)); [by right|]. left.
  pose proof (sh_valid _ Hsh). pose proof (sh_blk _ Hsh). pose proof (sh_used _ Hsh).
  pose proof (sh_buf _ Hsh). rewrite !wr_total by lia. eexists. split; [done|]. split.
  - eapply cache_ok_fill; try done. by rewrite length_insert.
  - cbn [dcache_buf set_dcache_entry]. rewrite rd_insert by lia. by rewrite Z.eqb_refl.
Qed.

(** What a read of [n] bytes at [o] of the file puts in the buffer. *)
Definition file_range (o n : Z) : list Z := take (Z.to_nat n) (drop (Z.to_nat o) f).

Lemma rd_bytes_fblock b a n :
  in_file f b -> 0 <= a -> 0 <= n -> a + n <= F2FS_BLKSIZE ->
  rd_bytes (fblock f b) a (Z.to_nat n) = Ok (file_range (b * F2FS_BLKSIZE + a) n).
Proof.
  intros Hb Ha Hn Han. pose proof (fblock_length f b Hb). destruct Hb.
  rewrite rd_bytes_Ok by lia. f_equal. unfold fblock, file_range.
  rewrite skipn_firstn_comm, take_take, drop_drop. f_equal; [lia|]. f_equal. lia.
Qed.

Lemma file_range_length o n :
  0 <= o -> 0 <= n -> o + n <= Z.of_nat (length f) -> Z.of_nat (length (file_range o n)) = n.
Proof. intros. unfold file_range. rewrite length_take, length_drop. lia. Qed.

Lemma file_range_app o n m :
  0 <= o -> 0 <= n -> 0 <= m -> o + n <= Z.of_nat (length f) ->
  file_range o n ++ file_range (o + n) m = file_range o (n + m).
Proof.
  intros. unfold file_range. rewrite !Z2Nat.inj_add, <- drop_drop by lia.
  apply take_take_drop.
Qed.

Lemma file_range_0 o : file_range o 0 = [].
Proof. apply take_0. Qed.

(** What one run of the loop does to read [n] bytes from byte [a] of block
    [blk] on: the bytes of the file, or an error the device reported. *)
Definition read_result (r : res (Z * dcache * list Z)) (buf : list Z) (pos o n : Z) : Prop :=
  exists err dc' buf', r = Ok (err, dc', buf') /\ cache_ok f dc' /\
    (err = 0 /\ buf' = splice buf pos (file_range o n) \/ err = -1 /\ exists o, io_error fd o = true).

Definition read_loop_spec (fuel : nat) : Prop := forall dc buf pos blk a n,
  cache_ok f dc -> 0 <= blk -> 0 <= a < F2FS_BLKSIZE -> 0 <= n -> (Z.to_nat n < fuel)%nat ->
  blk * F2FS_BLKSIZE + a + n <= Z.of_nat (length f) -> 0 <= pos -> pos + n <= Z.of_nat (length buf) ->
  read_result (dcache_update_rw_loop fuel fs dc fd buf pos blk a (blk * F2FS_BLKSIZE) n false)
    buf pos (blk * F2FS_BLKSIZE + a) n.

(** The end of a turn: the cached block is copied out and the loop goes on. *)
Lemma read_turn_end fuel dc buf pos blk a n cur :
  read_loop_spec fuel -> cache_ok f dc -> in_file f blk -> 0 <= a < F2FS_BLKSIZE ->
  0 < n -> cur = Z.min n (F2FS_BLKSIZE - a) -> (Z.to_nat n <= fuel)%nat ->
  blk * F2FS_BLKSIZE + a + n <= Z.of_nat (length f) -> 0 <= pos -> pos + n <= Z.of_nat (length buf) ->
  read_result
    (match (match rd_bytes (fblock f blk) a (Z.to_nat cur) with
            | Ok src => wr_list buf pos src | Die => Die | Oob => Oob | NoFuel => NoFuel end) with
     | Ok buf => dcache_update_rw_loop fuel fs dc fd buf (pos + cur) (blk + 1) 0
                   (blk * F2FS_BLKSIZE + F2FS_BLKSIZE) (n - cur) false
     | Die => Die | Oob => Oob | NoFuel => NoFuel end)
    buf pos (blk * F2FS_BLKSIZE + a) n.
Proof.
  intros IH Hok Hb Ha Hn Hcur Hfuel Hin Hpos Hbuf. rewrite rd_bytes_fblock by (done || lia).
  destruct (Hb) as [Hb0 Hb1].
  assert (Z.of_nat (length (file_range (blk * F2FS_BLKSIZE + a) cur)) = cur) as Hfl
    by (apply file_range_length; lia).
  rewrite wr_list_splice by lia.
  destruct (IH dc (splice buf pos (file_range (blk * F2FS_BLKSIZE + a) cur)) (pos + cur)
              (blk + 1) 0 (n - cur)) as (err & dc' & buf' & Hl & Hok' & Hr);
    [done|lia|lia|lia|lia|lia|lia|rewrite length_splice by lia; lia|].
  replace (blk * F2FS_BLKSIZE + F2FS_BLKSIZE) with ((blk + 1) * F2FS_BLKSIZE) by lia.
  exists err, dc', buf'. split; [done|]. split; [done|]. destruct Hr as [[-> ->]|?]; [left|by right].
  split; [done|]. destruct (Z.eq_dec n cur) as [Hnc|Hnc].
  - replace (n - cur) with 0 by lia. by rewrite file_range_0, splice_nil, Hnc.
  - replace ((blk + 1) * F2FS_BLKSIZE + 0) with (blk * F2FS_BLKSIZE + a + cur) by lia.
    rewrite <- Hfl at 2. rewrite splice_splice by (rewrite ?file_range_length; lia).
    rewrite file_range_app by lia. do 2 f_equal. lia.
Qed.

Lemma read_loop_ok fuel : read_loop_spec fuel.
Proof.
  induction fuel as [|fuel IH]; intros dc buf pos blk a n Hok Hblk Ha Hn Hfuel Hin Hpos Hbuf; [lia|].
  cbn [dcache_update_rw_loop]. destruct (Z.eqb_spec n 0) as [->|Hn0].
  { exists 0, dc, buf. split; [done|]. split; [done|]. left. by rewrite file_range_0, splice_nil. }
  assert (in_file f blk) as Hb by (apply (in_file_bound blk a); lia).
  destruct (dcache_find_ok f dc blk Hok Hblk) as (e & He & Her & Hslot).
  unfold mbind, res_bind. rewrite He. set (dc1 := dcache_count dc 1 0 0 0).
  assert (cache_ok f dc1) as Hok1 by by apply cache_ok_count.
  destruct (slot_entry dc1 e) as (v & b & u & d & Hv & Hb' & _ & Hd & Hdl & Hs); [apply Hok1|done|].
  change (slot dc1 e) with (slot dc e) in Hs.
  rewrite Hv. destruct Hslot as [Hhit|(Hno & i & Hi & Hei & Hbz)].
  - rewrite Hhit in Hs. destruct v; [|done]. injection Hs as <-. rewrite Hb', Z.eqb_refl. cbn [negb Z.eqb].
    destruct (ok_data _ _ Hok e blk Her Hhit) as [_ Hbuf'].
    assert (rd (dcache_buf (dcache_count dc1 0 1 0 0)) e = Ok (fblock f blk)) as ->.
    { apply rd_Ok. split; [lia|done]. }
    apply read_turn_end; try (done || lia). by apply cache_ok_count.
  - assert ((if v then match rd (dcache_blk dc1) e with Ok a => Ok (a =? blk) | Die => Die | Oob => Oob
             | NoFuel => NoFuel end else Ok false) = Ok false) as ->.
    { destruct v; [|done]. rewrite Hb'. f_equal. apply Z.eqb_neq. intros ->. by apply (Hno e). }
    destruct (dcache_io_read_ok (dcache_count dc1 0 0 1 (Z.b2z v)) e blk i)
      as [(dc2 & -> & Hok2 & Hd2)|[-> Herr]]; try done; [by apply cache_ok_count| |]; cbn [negb Z.eqb].
    + rewrite Hd2. apply read_turn_end; (done || lia).
    + exists (-1), (dcache_count dc1 0 0 1 (Z.b2z v)), buf.
      split; [done|]. split; [by apply cache_ok_count|]. right. split; [done|by eexists].
Qed.
End Loops.

Lemma write_loop_ok fs fd buf fuel : forall f dc pos blk a n,
  cache_ok f dc -> (F2FS_BLKSIZE | Z.of_nat (length f)) -> 0 <= blk -> 0 <= a < F2FS_BLKSIZE ->
  0 <= n -> (Z.to_nat n < fuel)%nat -> blk * F2FS_BLKSIZE + a + n <= Z.of_nat (length f) ->
  0 <= pos -> pos + n <= Z.of_nat (length buf) ->
  exists dc',
    dcache_update_rw_loop fuel fs dc fd buf pos blk a (blk * F2FS_BLKSIZE) n true = Ok (0, dc', buf) /\
    cache_ok (splice f (blk * F2FS_BLKSIZE + a) (file_range buf pos n)) dc'.
Proof.
  induction fuel as [|fuel IH]; intros f dc pos blk a n Hok Hmul Hblk Ha Hn Hfuel Hin Hpos Hbuf; [lia|].
  cbn [dcache_update_rw_loop]. destruct (Z.eqb_spec n 0) as [->|Hn0].
  { exists dc. split; [done|]. by rewrite file_range_0, splice_nil. }
  set (cur := Z.min n (F2FS_BLKSIZE - a)). assert (0 < cur <= n /\ a + cur <= F2FS_BLKSIZE) as Hcur by lia.
  assert (in_file f blk) as Hb by (apply (in_file_bound f Hmul blk a); lia).
  assert (Z.of_nat (length (file_range buf pos cur)) = cur) as Hsl by (apply file_range_length; lia).
  set (f1 := splice f (blk * F2FS_BLKSIZE + a) (file_range buf pos cur)).
  assert (length f1 = length f) as Hf1 by (apply length_splice; lia).
  assert (forall dc1, cache_ok f1 dc1 -> exists dc',
    dcache_update_rw_loop fuel fs dc1 fd buf (pos + cur) (blk + 1) 0
      (blk * F2FS_BLKSIZE + F2FS_BLKSIZE) (n - cur) true = Ok (0, dc', buf) /\
    cache_ok (splice f (blk * F2FS_BLKSIZE + a) (file_range buf pos n)) dc') as Htail.
  { intros dc1 Hok1. destruct (Hb). replace (blk * F2FS_BLKSIZE + F2FS_BLKSIZE) with ((blk + 1) * F2FS_BLKSIZE) by lia.
    destruct (IH f1 dc1 (pos + cur) (blk + 1) 0 (n - cur)) as (dc' & Hl & Hok');
      [done|by rewrite Hf1|lia|lia|lia|lia|lia|lia|lia|]. exists dc'. split; [done|].
    destruct (Z.eq_dec n cur) as [Hnc|Hnc].
    - replace (n - cur) with 0 in Hok' by lia. rewrite file_range_0, splice_nil in Hok'. by rewrite Hnc.
    - replace ((blk + 1) * F2FS_BLKSIZE + 0) with
        (blk * F2FS_BLKSIZE + a + Z.of_nat (length (file_range buf pos cur))) in Hok' by lia.
      unfold f1 in Hok'. rewrite splice_splice in Hok' by (rewrite ?file_range_length; lia).
      rewrite file_range_app in Hok' by lia. by replace n with (cur + (n - cur)) by lia. }
  destruct (dcache_find_ok f dc blk Hok Hblk) as (e & He & Her & Hslot).
  unfold mbind, res_bind. rewrite He.
  destruct (slot_entry dc e) as (v & b & u & d & Hv & Hb' & _ & Hd & Hdl & Hs); [apply Hok|done|].
  rewrite Hv. destruct Hslot as [Hhit|(Hno & _)].
  - rewrite Hhit in Hs. destruct v; [|done]. injection Hs as <-. rewrite Hb', Z.eqb_refl, Hd.
    destruct (ok_data _ _ Hok e blk Her Hhit) as [_ Hd']. apply rd_Ok in Hd as [_ Hd].
    assert (d = fblock f blk) as -> by congruence.
    pose proof (sh_buf _ (ok_shape _ _ Hok)). rewrite rd_bytes_Ok by lia.
    fold (file_range buf pos cur). rewrite wr_list_splice, wr_total by lia. cbn [negb Z.eqb].
    apply Htail. apply cache_ok_write; (done || lia).
  - assert ((if v then match rd (dcache_blk dc) e with Ok a => Ok (a =? blk) | Die => Die | Oob => Oob
             | NoFuel => NoFuel end else Ok false) = Ok false) as ->.
    { destruct v; [|done]. rewrite Hb'. f_equal. apply Z.eqb_neq. intros ->. by apply (Hno e). }
    cbn [negb Z.eqb]. apply Htail. apply cache_ok_write_miss; (done || lia).
Qed.

(** ** Initialisation *)

(** Memory that [malloc] handed out with no entry marked valid. *)
Record heap_clean : Prop := {
  hc_ok : forall n, malloc_ok heap n = true;
  hc_valid : forall n, junk_valid heap n = replicate (Z.to_nat n) false;
  hc_blk : forall n, length (junk_blk heap n) = Z.to_nat n;
  hc_used : forall n, length (junk_lastused heap n) = Z.to_nat n;
  hc_buf : forall n, length (junk_buf heap n) = Z.to_nat n /\
                     Forall (fun l => length l = 4096%nat) (junk_buf heap n)
}.

Lemma relocate_loop_ok os : forall i cfg tab,
  0 <= i -> 0 < num_cache_entry cfg < 2 ^ 30 ->
  Forall (fun o => Z.abs o < 2 ^ 30) os -> i + Z.of_nat (length os) = 16 -> length tab = 16%nat ->
  max_hash_collision cfg <= 16 ->
  (forall k, (k < Z.to_nat i)%nat -> exists o, tab !! k = Some o /\ 0 <= o) ->
  let '(cfg', tab') := dcache_relocate_loop os i cfg tab in
  num_cache_entry cfg' = num_cache_entry cfg /\
  forall k, (k < Z.to_nat (max_hash_collision cfg'))%nat -> exists o, tab' !! k = Some o /\ 0 <= o.
Proof.
  induction os as [|o os IH]; intros i cfg tab Hi Hn Hos H16 Htab Hm Hk; cbn [dcache_relocate_loop].
  { split; [done|]. intros k ?. apply Hk. cbn in H16. lia. }
  destruct (Z.ltb_spec i (max_hash_collision cfg)); cbn [negb]; [|split; [done|intros; apply Hk; lia]].
  destruct (Z.ltb_spec (num_cache_entry cfg / 2) (Z.abs o)); cbn; [split; [done|intros; apply Hk; lia]|].
  apply Forall_cons in Hos as [Ho Hos]. cbn [length] in H16.
  apply IH; try (done || lia); [by rewrite length_insert|].
  intros k Hlt. destruct (decide (k = Z.to_nat i)) as [->|].
  - rewrite list_lookup_insert_eq by lia. eexists. split; [done|].
    assert (0 <= num_cache_entry cfg + o < 2 ^ 31) as Hr.
    { pose proof (Z.div_le_upper_bound (num_cache_entry cfg) 2 (num_cache_entry cfg)). lia. }
    unfold s32, sgn. rewrite Z.mod_small by lia.
    destruct (Z.ltb_spec (num_cache_entry cfg + o) (2 ^ (32 - 1))); lia.
  - rewrite list_lookup_insert_ne by lia. apply Hk. lia.
Qed.

(** The state before the first access. *)
Definition dcache_fresh dc : Prop :=
  dcache_initialized dc = false /\ length (dcache_relocate_offset dc) = 16%nat.

Lemma dcache_init_ok c dc f :
  heap_clean -> dcache_fresh dc -> 0 < num_cache_entry (cf_cache_config c) < 2 ^ 30 ->
  max_hash_collision (cf_cache_config c) <= 16 ->
  exists dc', dcache_init c dc = Ok dc' /\ cache_ok f dc'.
Proof.
  intros Hh [Hi Hl] Hn Hm. unfold dcache_init.
  destruct (Z.leb_spec (num_cache_entry (cf_cache_config c)) 0); [lia|].
  unfold dcache_release. rewrite Hi. cbn [negb dcache_config].
  set (n := Z.max MIN_NUM_CACHE_ENTRY _). assert (0 < n < 2 ^ 30) as Hnr.
  { unfold MIN_NUM_CACHE_ENTRY in n. lia. }
  cbn [dcache_init_loop]. unfold dcache_alloc_all. replace (n <=? 0) with false by lia.
  rewrite (hc_ok Hh). cbn [negb andb Z.eqb mbind res_bind dcache_config].
  unfold dcache_relocate_init. cbn [dcache_config dcache_relocate_offset].
  pose proof (relocate_loop_ok dcache_relocate_offset0 0
    {| num_cache_entry := n; max_hash_collision := max_hash_collision (cf_cache_config c) |}
    (dcache_relocate_offset dc) ltac:(lia) Hnr ltac:(repeat constructor) eq_refl Hl Hm
    ltac:(intros k Hk; cbn in Hk; lia)) as Hr.
  destruct (dcache_relocate_loop _ _ _ _) as [cfg' tab'] eqn:E. destruct Hr as [Hn' Hoff].
  cbn [num_cache_entry] in Hn'.
  eexists. split; [reflexivity|].
  set (dc' := Build_dcache _ _ _ _ _ _ _ _ _ _ _ _).
  assert (forall e, slot dc' e = None) as Hnone.
  { intros e. unfold slot. cbn. rewrite (hc_valid Hh).
    destruct (replicate (Z.to_nat n) false !! Z.to_nat e) as [[]|] eqn:Ee; try done.
    by apply lookup_replicate in Ee as [? _]. }
  split; [|intros e b _; by rewrite Hnone|intros e b _; by rewrite Hnone].
  destruct Hh. destruct (hc_buf0 n). split; cbn; rewrite ?Hn'; try (done || lia).
  - by rewrite hc_valid0, length_replicate, Z2Nat.id by lia.
  - by rewrite hc_blk0, Z2Nat.id by lia.
  - by rewrite hc_used0, Z2Nat.id by lia.
Qed.

(** * The device as a file *)

(** A session of calls: reads into a zeroed buffer, and writes. *)
Inductive dev_op :=
| OpRead (offset len : Z)
| OpWrite (offset : Z) (data : list Z).

Definition dev_step (c : dev_configuration) (st : dev_state) (op : dev_op) : res (Z * list Z * dev_state) :=
  match op with
  | OpRead offset len =>
      r ← dev_read c st (replicate (Z.to_nat len) 0) offset len;
      let '(err, st, buf) := r in Ok (err, buf, st)
  | OpWrite offset data =>
      r ← dev_write c st data offset (Z.of_nat (length data));
      let '(err, st) := r in Ok (err, [], st)
  end.

Fixpoint dev_run (c : dev_configuration) (st : dev_state) (ops : list dev_op)
    : res (list (Z * list Z) * dev_state) :=
  match ops with
  | [] => Ok ([], st)
  | op :: ops =>
      r ← dev_step c st op;
      let '(err, data, st) := r in
      r ← dev_run c st ops;
      let '(outs, st) := r in Ok ((err, data) :: outs, st)
  end.

(** The same session on the bytes of the device. *)
Fixpoint file_run (f : list Z) (ops : list dev_op) : list (Z * list Z) * list Z :=
  match ops with
  | [] => ([], f)
  | OpRead offset len :: ops =>
      let '(outs, f') := file_run f ops in ((0, file_range f offset len) :: outs, f')
  | OpWrite offset data :: ops =>
      let '(outs, f') := file_run (splice f offset data) ops in ((0, []) :: outs, f')
  end.

Definition op_in_range (size : Z) (op : dev_op) : Prop :=
  match op with
  | OpRead offset len => 0 <= offset /\ 0 < len /\ offset + len <= size
  | OpWrite offset data => 0 <= offset /\ 0 < Z.of_nat (length data) /\
                           offset + Z.of_nat (length data) <= size
  end.

Section Session.
Context (c : dev_configuration) (fd : Z) (size : Z).
Context (Hdev : cf_devices c = [{| di_fd := fd; di_start_blkaddr := 0;
                                   di_end_blkaddr := size / F2FS_BLKSIZE - 1 |}]).
Context (Hdry : cf_dry_run c = false) (Hsparse : cf_sparse_mode c = false).
Context (Hsize : 0 < size < 2 ^ 63) (Hmul : (F2FS_BLKSIZE | size)).
Context (Hcfg : num_cache_entry (cf_cache_config c) < 2 ^ 30 /\
                max_hash_collision (cf_cache_config c) <= 16).
Context (Hheap : heap_clean) (Hio : forall o, io_error fd o = false).

(** The cache is not set up yet, or holds blocks of the file. *)
Definition coherent (f : list Z) (st : dev_state) : Prop :=
  ds_files st !! fd = Some f /\ Z.of_nat (length f) = size /\
  (dcache_fresh (ds_cache st) \/ cache_ok f (ds_cache st)).

Lemma get_device_fd_ok offset :
  0 <= offset < size -> __get_device_fd (cf_devices c) offset = Some (fd, offset).
Proof.
  intros Ho. rewrite Hdev. cbn [__get_device_fd di_start_blkaddr di_end_blkaddr di_fd].
  assert (Z.shiftr offset F2FS_BLKSIZE_BITS = offset / 4096) as -> by (apply Z.shiftr_div_pow2; done).
  destruct Hmul as [q ->]. rewrite Z.div_mul by lia.
  assert (0 <= offset / 4096 < q) by (split; [apply Z.div_pos; lia|apply Z.div_lt_upper_bound; lia]).
  replace (0 <=? offset / 4096) with true by lia.
  replace (offset / 4096 <=? q - 1) with true by lia. cbn [andb].
  do 2 f_equal. change (u64 (Z.shiftl 0 F2FS_BLKSIZE_BITS)) with 0.
  rewrite Z.sub_0_r. apply u64_id. unfold is_u64. lia.
Qed.

Lemma s64_small x : 0 <= x < 2 ^ 63 -> s64 x = x.
Proof.
  intros Hx. unfold s64, sgn. rewrite Z.mod_small by lia.
  destruct (Z.ltb_spec x (2 ^ (64 - 1))); lia.
Qed.

(** The cache is set up at the first access, or there is none. *)
Lemma cache_ready f dc :
  dcache_fresh dc \/ cache_ok f dc ->
  exists dc', (if negb (dcache_initialized dc) then dcache_init c dc else Ok dc) = Ok dc' /\
    (dcache_initialized dc' = false /\ dcache_fresh dc' \/ dcache_initialized dc' = true /\ cache_ok f dc').
Proof.
  intros [Hf|Hok].
  - destruct (Hf) as [Hi Hl]. rewrite Hi. cbn [negb].
    destruct (Z.leb_spec (num_cache_entry (cf_cache_config c)) 0) as [Hn|Hn].
    + exists dc. split; [|by left]. unfold dcache_init.
      by replace (num_cache_entry (cf_cache_config c) <=? 0) with true by lia.
    + destruct (dcache_init_ok c dc f) as (dc' & H & Hok); [done|done|lia|lia|].
      exists dc'. split; [done|]. right. split; [exact (sh_init _ (ok_shape _ _ Hok))|done].
  - exists dc. rewrite (sh_init _ (ok_shape _ _ Hok)). split; [done|]. by right.
Qed.

Lemma block_split offset : 0 <= offset ->
  0 <= offset / F2FS_BLKSIZE /\ 0 <= offset mod F2FS_BLKSIZE < F2FS_BLKSIZE /\
  offset / F2FS_BLKSIZE * F2FS_BLKSIZE + offset mod F2FS_BLKSIZE = offset.
Proof.
  intros H. pose proof (Z.mod_pos_bound offset 4096). pose proof (Z.div_mod offset 4096).
  split; [apply Z.div_pos; lia|]. lia.
Qed.

Lemma dev_read_ok f st offset len :
  coherent f st -> op_in_range size (OpRead offset len) ->
  exists st', dev_step c st (OpRead offset len) = Ok (0, file_range f offset len, st') /\ coherent f st'.
Proof.
  intros (Hfs & Hlen & Hc) (Ho & Hl & Hr). unfold dev_step, dev_read. rewrite Hsparse.
  rewrite get_device_fd_ok by lia. unfold dcache_read, dcache_update_rw, mbind, res_bind. cbn [ds_files ds_cache].
  assert (length (file_range f offset len) = Z.to_nat len) as Hfl.
  { pose proof (file_range_length f offset len). lia. }
  assert (forall xs, length xs = Z.to_nat len -> splice (replicate (Z.to_nat len) 0) 0 xs = xs) as Hsp.
  { intros xs Hx. unfold splice. cbn [Z.to_nat take app Nat.add].
    rewrite drop_ge by (rewrite length_replicate; lia). apply app_nil_r. }
  destruct (cache_ready f (ds_cache st) Hc) as (dc & -> & [[Hi Hf]|[Hi Hok]]); rewrite Hi; cbn [negb].
  - cbn [Z.leb Z.compare]. rewrite rd_bytes_Ok by (rewrite ?length_replicate; lia).
    unfold pread. rewrite Hfs, s64_small, Hio by lia. replace (offset <? 0) with false by lia.
    cbn [orb]. assert (take (Z.to_nat len) (drop (Z.to_nat 0) (replicate (Z.to_nat len) 0)) =
      replicate (Z.to_nat len) 0) as -> by (apply take_ge; rewrite ?length_drop, length_replicate; lia).
    rewrite length_replicate. fold (file_range f offset len). rewrite Hfl.
    rewrite drop_ge by (rewrite length_replicate; lia). rewrite app_nil_r.
    rewrite wr_list_splice by (rewrite ?length_replicate; lia). rewrite Hsp by done.
    eexists. split; [done|]. split; [done|]. split; [done|by left].
  - destruct (block_split offset Ho) as (Hb & Ha & Heq).
    destruct (read_loop_ok f (ds_files st) fd Hfs ltac:(by rewrite Hlen) ltac:(lia) (S (Z.to_nat len)) dc
      (replicate (Z.to_nat len) 0) 0 (offset / 4096) (offset mod 4096) len)
      as (err & dc' & buf' & -> & Hok' & [[-> ->]|[_ [o Herr]]]);
      [done|lia|lia|lia|lia|lia|lia|rewrite length_replicate; lia| |by rewrite Hio in Herr].
    cbn [Z.leb Z.compare]. rewrite Heq, Hsp by done. eexists. split; [done|].
    split; [done|]. split; [done|by right].
Qed.

Lemma dev_write_ok f st offset data :
  coherent f st -> op_in_range size (OpWrite offset data) ->
  exists st', dev_step c st (OpWrite offset data) = Ok (0, [], st') /\ coherent (splice f offset data) st'.
Proof.
  intros (Hfs & Hlen & Hc) (Ho & Hl & Hr). unfold dev_step, dev_write. rewrite Hdry, Hsparse.
  rewrite get_device_fd_ok by lia. unfold dcache_update_cache, dcache_update_rw, mbind, res_bind.
  cbn [ds_files ds_cache].
  assert (file_range data 0 (Z.of_nat (length data)) = data) as Hd.
  { unfold file_range. rewrite Nat2Z.id. apply firstn_all. }
  assert (pwrite (ds_files st) fd offset data = Some (<[fd := splice f offset data]> (ds_files st))) as Hpw.
  { unfold pwrite. rewrite Hfs, s64_small, Hio by lia. replace (offset <? 0) with false by lia.
    cbn [orb]. replace (Z.to_nat offset - length f)%nat with O by lia. by rewrite app_nil_r. }
  assert (length (splice f offset data) = length f) as Hsl by (apply length_splice; lia).
  assert (take (length data) (drop (Z.to_nat 0) data) = data) as Htk by apply firstn_all.
  rewrite Nat2Z.id.
  destruct (cache_ready f (ds_cache st) Hc) as (dc & -> & [[Hi Hf]|[Hi Hok]]); rewrite Hi; cbn [negb].
  - cbn [Z.ltb Z.compare]. rewrite rd_bytes_Ok, Htk, Hpw by lia.
    eexists. split; [done|]. split; [apply lookup_insert_eq|]. split; [by rewrite Hsl|by left].
  - destruct (block_split offset Ho) as (Hb & Ha & Heq).
    destruct (write_loop_ok (ds_files st) fd data (S (length data)) f dc 0 (offset / 4096) (offset mod 4096)
      (Z.of_nat (length data))) as (dc' & -> & Hok');
      [done|by rewrite Hlen|lia|lia|lia|lia|lia|lia|lia|].
    cbn [Z.ltb Z.compare]. rewrite rd_bytes_Ok, Htk, Hpw by lia.
    rewrite Heq, Hd in Hok'. eexists. split; [done|]. split; [apply lookup_insert_eq|].
    split; [by rewrite Hsl|by right].
Qed.

Lemma dev_run_ok ops : forall f st,
  coherent f st -> Forall (op_in_range size) ops ->
  exists st', dev_run c st ops = Ok ((file_run f ops).1, st') /\ coherent (file_run f ops).2 st'.
Proof.
  induction ops as [|op ops IH]; intros f st Hc Hops; [by exists st|].
  apply Forall_cons in Hops as [Hop Hops]. cbn [dev_run]. unfold mbind, res_bind.
  destruct op as [offset len|offset data]; cbn [file_run].
  - destruct (dev_read_ok f st offset len Hc Hop) as (st' & -> & Hc').
    destruct (IH f st' Hc' Hops) as (st'' & -> & Hc''). destruct (file_run f ops). by exists st''.
  - destruct (dev_write_ok f st offset data Hc Hop) as (st' & -> & Hc').
    destruct (IH _ st' Hc' Hops) as (st'' & -> & Hc''). destruct (file_run _ ops). by exists st''.
Qed.
End Session.
End Device.

(** * Properties *)

(** C8: On a single device the cache is transparent: from a state whose cache
    is not set up yet, with a cache of any size (or none) and at most 16
    collisions, and with memory in which no entry is marked valid, every
    session of reads and writes inside the device succeeds, each read returns
    the bytes the device holds at that point, and the device ends with exactly
    the bytes the writes put there. *)
Theorem dcache_refines_file (io_error : Z -> Z -> bool) (heap : heap_oracle)
    (c : dev_configuration) (st : dev_state) (fd : Z) (f : list Z) (ops : list dev_op) :
  cf_devices c = [{| di_fd := fd; di_start_blkaddr := 0;
                     di_end_blkaddr := Z.of_nat (length f) / F2FS_BLKSIZE - 1 |}] ->
  cf_dry_run c = false -> cf_sparse_mode c = false ->
  0 < Z.of_nat (length f) < 2 ^ 63 -> (F2FS_BLKSIZE | Z.of_nat (length f)) ->
  num_cache_entry (cf_cache_config c) < 2 ^ 30 -> max_hash_collision (cf_cache_config c) <= 16 ->
  heap_clean heap -> (forall o, io_error fd o = false) ->
  ds_files st !! fd = Some f -> dcache_fresh (ds_cache st) ->
  Forall (op_in_range (Z.of_nat (length f))) ops ->
  exists st', dev_run io_error heap c st ops = Ok ((file_run f ops).1, st') /\
              ds_files st' !! fd = Some (file_run f ops).2.
Proof.
  intros Hdev Hdry Hsp Hsize Hmul Hn Hm Hheap Hio Hf Hfresh Hops.
  destruct (dev_run_ok io_error heap c fd (Z.of_nat (length f)) Hdev Hdry Hsp Hsize Hmul (conj Hn Hm)
              Hheap Hio ops f st) as (st' & Hrun & Hco & _); [|done|by exists st'].
  split; [done|]. split; [done|by left].
Qed.

(** A heap that zeroes what it hands out, and the cache before its first use. *)
Definition zero_heap : heap_oracle := {|
  malloc_ok := fun _ => true;
  junk_valid := fun n => replicate (Z.to_nat n) false;
  junk_blk := fun n => replicate (Z.to_nat n) 0;
  junk_lastused := fun n => replicate (Z.to_nat n) 0;
  junk_buf := fun n => replicate (Z.to_nat n) (replicate 4096 0) |}.

Definition dcache_start : dcache := {|
  dcache_initialized := false;
  dcache_config := {| num_cache_entry := 0; max_hash_collision := 16 |};
  dcache_valid := []; dcache_blk := []; dcache_lastused := []; dcache_buf := [];
  dcache_usetick := 0; dcache_relocate_offset := replicate 16 0;
  dcache_raccess := 0; dcache_rhit := 0; dcache_rmiss := 0; dcache_rreplace := 0 |}.

Definition sample_config (devs : list device_info) : dev_configuration := {|
  cf_devices := devs; cf_dry_run := false; cf_sparse_mode := false;
  cf_cache_config := {| num_cache_entry := 1024; max_hash_collision := 16 |} |}.

Definition sample_state (fs : files) : dev_state :=
  {| ds_files := fs; ds_cache := dcache_start; ds_max_size := 0 |}.

Lemma zero_heap_clean : heap_clean zero_heap.
Proof.
  split; intros; cbn [zero_heap malloc_ok junk_valid junk_blk junk_lastused junk_buf];
    rewrite ?length_replicate; try done.
  split; [done|]. apply Forall_replicate. apply length_replicate.
Qed.

Lemma dcache_refines_file_witness :
  exists st', dev_run (fun _ _ => false) zero_heap
      (sample_config [{| di_fd := 3; di_start_blkaddr := 0; di_end_blkaddr := 1 |}])
      (sample_state {[3 := replicate (4096 + 4096) 7]})
      [OpRead 4095 2; OpWrite 4096 [9]; OpRead 4095 2] =
    Ok ([(0, [7; 7]); (0, []); (0, [7; 9])], st') /\
    ds_files st' !! 3 = Some (replicate 4096 7 ++ 9 :: replicate 4095 7).
Proof.
  refine (dcache_refines_file (fun _ _ => false) zero_heap
    (sample_config [{| di_fd := 3; di_start_blkaddr := 0; di_end_blkaddr := 1 |}])
    (sample_state {[3 := replicate (4096 + 4096) 7]}) 3 (replicate (4096 + 4096) 7)
    [OpRead 4095 2; OpWrite 4096 [9]; OpRead 4095 2] _ _ _ _ _ _ _ _ _ _ _ _);
    rewrite ?length_replicate; try done.
  - exists 2. reflexivity.
  - apply zero_heap_clean.
  - repeat constructor; cbn; lia.
Defined.

(** The cache is keyed by the block number within a device and not by the
    device: with two devices, reading block 0 of the second after block 0 of
    the first returns the bytes of the first. *)
Theorem dcache_mixes_devices (a b : Z) :
  (dev_run (fun _ _ => false) zero_heap
     (sample_config [{| di_fd := 3; di_start_blkaddr := 0; di_end_blkaddr := 0 |};
                     {| di_fd := 4; di_start_blkaddr := 1; di_end_blkaddr := 1 |}])
     (sample_state (<[3 := replicate 4096 a]> (<[4 := replicate 4096 b]> ∅)))
     [OpRead 0 1; OpRead 4096 1] ≫= fun r => Ok r.1) = Ok [(0, [a]); (0, [a])].
Proof. vm_compute. reflexivity. Qed.

(** What [dcache_alloc_all] leaves in [dcache_valid] decides what the first
    read returns: the array comes from [malloc], and if the memory happens to
    hold non-zero bytes (and zeroes in [dcache_blk]) block 0 is served from
    uninitialised memory; and [dev_fill], which skips the cache, leaves a
    cached block with its old contents. *)
Theorem dcache_stale_reads (a j : Z) :
  (dev_run (fun _ _ => false)
     {| malloc_ok := fun _ => true; junk_valid := fun n => replicate (Z.to_nat n) true;
        junk_blk := fun n => replicate (Z.to_nat n) 0; junk_lastused := fun n => replicate (Z.to_nat n) 0;
        junk_buf := fun n => replicate (Z.to_nat n) (replicate 4096 j) |}
     (sample_config [{| di_fd := 3; di_start_blkaddr := 0; di_end_blkaddr := 0 |}])
     (sample_state (<[3 := replicate 4096 a]> ∅)) [OpRead 0 1] ≫= fun r => Ok r.1) = Ok [(0, [j])] /\
  (let c := sample_config [{| di_fd := 3; di_start_blkaddr := 0; di_end_blkaddr := 0 |}] in
   r ← dev_run (fun _ _ => false) zero_heap c (sample_state (<[3 := replicate 4096 a]> ∅)) [OpRead 0 1];
   r ← dev_fill (fun _ _ => false) c r.2 [0] 0 1;
   r' ← dev_run (fun _ _ => false) zero_heap c r.2 [OpRead 0 1];
   Ok (r.1, r'.1, take 1 (default [] (ds_files r'.2 !! 3)))) = Ok (0, [(0, [a])], [0]).
Proof. split; vm_compute; reflexivity. Qed.

(** When every entry looked at is taken, the loop gets to the last of its
    [max_hash_collision] tries. *)
Lemma find_loop_overrun dc b todo : forall k least,
  0 < nentries dc -> (forall j, busy dc b j) -> length (dcache_relocate_offset dc) = 16%nat ->
  (k <= 16 < k + todo)%nat -> (forall j, exists u, rd (dcache_lastused dc) (probe dc b j) = Ok u) ->
  (forall j, 0 <= probe dc b j) -> (exists j, least = probe dc b j) ->
  dcache_find_loop todo dc b (probe dc b 0) least (probe dc b k) (Z.of_nat k) = Oob.
Proof.
  induction todo as [|todo IH]; intros k least Hn Hbusy Hlen Hk Hu Hp (j & ->); [lia|].
  cbn [dcache_find_loop]. unfold mbind, res_bind. destruct (Hbusy k) as (b' & Hs & Hne).
  pose proof (Hp k). unfold slot in Hs.
  destruct (dcache_valid dc !! Z.to_nat (probe dc b k)) as [[]|] eqn:Hv; try done.
  destruct (dcache_blk dc !! Z.to_nat (probe dc b k)) as [b''|] eqn:Hb; [|done]. injection Hs as ->.
  assert (rd (dcache_valid dc) (probe dc b k) = Ok true) as -> by (by apply rd_Ok).
  assert (rd (dcache_blk dc) (probe dc b k) = Ok b') as -> by (by apply rd_Ok). cbn [negb].
  replace (b' =? b) with false by lia. destruct (Hu k) as [u ->], (Hu j) as [ul ->].
  unfold dcache_relocate. replace (nentries dc =? 0) with false by lia.
  cbn [negb assert_ mbind res_bind].
  destruct (rd (dcache_relocate_offset dc) (Z.of_nat k)) as [o| | |] eqn:Ho; try done.
  2-3: unfold rd in Ho; destruct (Z.of_nat k <? 0); [done|]; by destruct (dcache_relocate_offset dc !! _).
  apply rd_Ok in Ho as [_ Ho]. rewrite Nat2Z.id in Ho. pose proof (lookup_lt_Some _ _ _ Ho).
  assert (Z.rem (Z.rem b (nentries dc) + o) (nentries dc) = probe dc b (S k)) as Hpr.
  { cbn [probe]. by rewrite Ho. }
  change (Z.rem (probe dc b 0 + o) (nentries dc) = probe dc b (S k)) in Hpr.
  cbn [mbind res_bind]. rewrite Hpr.
  replace (Z.of_nat k + 1) with (Z.of_nat (S k)) by lia.
  apply IH; try done; [lia|]. destruct (u <? ul); by eexists.
Qed.

(** [fsck -m] takes any number as [max_hash_collision], and nothing brings
    it down to the 16 cells of [dcache_relocate_offset]: above 16, looking up a
    block when all the entries it may use are taken reads past that array. *)
Theorem dcache_find_overrun (dc : dcache) (b : Z) :
  0 < nentries dc -> 16 < max_hash_collision (dcache_config dc) ->
  length (dcache_relocate_offset dc) = 16%nat -> Forall (fun o => 0 <= o) (dcache_relocate_offset dc) ->
  0 <= b -> Z.of_nat (length (dcache_lastused dc)) = nentries dc ->
  (forall e, 0 <= e < nentries dc -> exists b', slot dc e = Some b' /\ b' <> b) ->
  dcache_find dc b = Oob.
Proof.
  intros Hn Hm Hlen Hpos Hb Hus Hfull.
  assert (forall j, 0 <= probe dc b j < nentries dc) as Hr.
  { assert (0 <= Z.rem b (nentries dc) < nentries dc) as H0
      by (rewrite Z.rem_mod_nonneg by lia; apply Z.mod_pos_bound; lia).
    intros [|j]; cbn [probe]; [done|]. assert (0 <= default 0 (dcache_relocate_offset dc !! j)).
    { destruct (dcache_relocate_offset dc !! j) eqn:E; [|done]. by eapply (Forall_lookup_1 _ _ _ _ Hpos). }
    rewrite (Z.rem_mod_nonneg (_ + _)) by lia. apply Z.mod_pos_bound. lia. }
  unfold dcache_find. replace (0 <? nentries dc) with true by lia. cbn [assert_ mbind res_bind].
  apply (find_loop_overrun dc b (Z.to_nat (max_hash_collision (dcache_config dc))) 0);
    try done; [|lia| | |by exists O].
  - intros j. apply Hfull, Hr.
  - intros j. apply rd_total. rewrite Hus. apply Hr.
  - intros j. apply Hr.
Qed.

Definition full_cache : dcache := {|
  dcache_initialized := true;
  dcache_config := {| num_cache_entry := 2; max_hash_collision := 17 |};
  dcache_valid := [true; true]; dcache_blk := [2; 3]; dcache_lastused := [1; 2];
  dcache_buf := [[]; []]; dcache_usetick := 2; dcache_relocate_offset := replicate 16 3;
  dcache_raccess := 0; dcache_rhit := 0; dcache_rmiss := 0; dcache_rreplace := 0 |}.

Lemma dcache_find_overrun_witness : dcache_find full_cache 0 = Oob.
Proof.
  apply dcache_find_overrun; try (cbn; (done || lia)); [repeat constructor; lia|].
  intros e He. change (0 <= e < 2) in He. assert (e = 0 \/ e = 1) as [-> | ->] by lia; by eexists.
Defined.
