(* ===== verification/Superblock.v ===== *)
(** The superblock (include/f2fs_fs.h) and its checks in fsck/mount.c:
    [update_superblock], [sanity_check_area_boundary], [sanity_check_raw_super]
    and the reading part of [validate_super_block]. The structure is a record,
    its bytes on the device are given by a codec; the device is the map of its
    blocks (the view of it that Device.v proves the cache to keep). *)
From S2P Require Import Prelude Codec Crc.
From Stdlib Require Import ZArith Lia List Bool.
From stdpp Require Import base numbers list gmap.
#[local] Open Scope Z_scope.

(** * The device, by blocks *)

(** The blocks of the device; an address without a block is outside of it. *)
Abbreviation disk := (gmap Z (list Z)).

(** [dev_read_block] and [dev_write_block]: [None] is a negative return value. *)
Definition disk_read (d : disk) (a : Z) : option (list Z) := d !! a.
Definition disk_write (d : disk) (a : Z) (b : list Z) : option disk :=
  match d !! a with Some _ => Some (<[a := b]> d) | None => None end.

(** [ret = dev_read_block(...); ASSERT(ret >= 0)], and the same for a write. *)
Definition disk_read_or_die (d : disk) (a : Z) : res (list Z) :=
  match disk_read d a with Some b => Ok b | None => Die end.
Definition disk_write_or_die (d : disk) (a : Z) (b : list Z) : res disk :=
  match disk_write d a b with Some d => Ok d | None => Die end.

(** * The structure *)

Record f2fs_device := mk_device { dev_path : list Z; dev_total_segments : Z }.
Definition dev_codec : codec f2fs_device :=
  c_iso (fun d => (dev_path d, dev_total_segments d)) (fun p => mk_device p.1 p.2)
    (c_raw 64 ∗ c_le 4)%codec.

Record f2fs_super_block := mk_sb {
  sb_magic : Z; sb_major_ver : Z; sb_minor_ver : Z; sb_log_sectorsize : Z;
  sb_log_sectors_per_block : Z; sb_log_blocksize : Z; sb_log_blocks_per_seg : Z;
  sb_segs_per_sec : Z; sb_secs_per_zone : Z; sb_checksum_offset : Z; sb_block_count : Z;
  sb_section_count : Z; sb_segment_count : Z; sb_segment_count_ckpt : Z;
  sb_segment_count_sit : Z; sb_segment_count_nat : Z; sb_segment_count_ssa : Z;
  sb_segment_count_main : Z; sb_segment0_blkaddr : Z; sb_cp_blkaddr : Z; sb_sit_blkaddr : Z;
  sb_nat_blkaddr : Z; sb_ssa_blkaddr : Z; sb_main_blkaddr : Z; sb_root_ino : Z; sb_node_ino : Z;
  sb_meta_ino : Z; sb_uuid : list Z; sb_volume_name : list Z; sb_extension_count : Z;
  sb_extension_list : list (list Z); sb_cp_payload : Z; sb_version : list Z;
  sb_init_version : list Z; sb_feature : Z; sb_encryption_level : Z; sb_encrypt_pw_salt : list Z;
  sb_devs : list f2fs_device; sb_qf_ino : list Z; sb_hot_ext_count : Z; sb_s_encoding : Z;
  sb_s_encoding_flags : Z; sb_reserved : list Z; sb_crc : Z
}.

(** The members in the order they lie in the block, and how wide they are. *)
Definition sb_codec_members :=
  (c_le 4 ∗ c_le 2 ∗ c_le 2 ∗ c_le 4 ∗ c_le 4 ∗ c_le 4 ∗ c_le 4 ∗ c_le 4 ∗ c_le 4 ∗ c_le 4 ∗
   c_le 8 ∗ c_le 4 ∗ c_le 4 ∗ c_le 4 ∗ c_le 4 ∗ c_le 4 ∗ c_le 4 ∗ c_le 4 ∗ c_le 4 ∗ c_le 4 ∗
   c_le 4 ∗ c_le 4 ∗ c_le 4 ∗ c_le 4 ∗ c_le 4 ∗ c_le 4 ∗ c_le 4 ∗ c_raw 16 ∗
   c_array (c_le 2) 512 ∗ c_le 4 ∗ c_array (c_raw 8) 64 ∗ c_le 4 ∗ c_raw 256 ∗ c_raw 256 ∗
   c_le 4 ∗ c_le 1 ∗ c_raw 16 ∗ c_array dev_codec 8 ∗ c_array (c_le 4) 3 ∗ c_le 1 ∗ c_le 2 ∗
   c_le 2 ∗ c_raw 306 ∗ c_le 4)%codec.

Definition sb_to_tuple (sb : f2fs_super_block) :=
  (sb_magic sb, sb_major_ver sb, sb_minor_ver sb, sb_log_sectorsize sb,
   sb_log_sectors_per_block sb, sb_log_blocksize sb, sb_log_blocks_per_seg sb,
   sb_segs_per_sec sb, sb_secs_per_zone sb, sb_checksum_offset sb, sb_block_count sb,
   sb_section_count sb, sb_segment_count sb, sb_segment_count_ckpt sb, sb_segment_count_sit sb,
   sb_segment_count_nat sb, sb_segment_count_ssa sb, sb_segment_count_main sb,
   sb_segment0_blkaddr sb, sb_cp_blkaddr sb, sb_sit_blkaddr sb, sb_nat_blkaddr sb,
   sb_ssa_blkaddr sb, sb_main_blkaddr sb, sb_root_ino sb, sb_node_ino sb, sb_meta_ino sb,
   sb_uuid sb, sb_volume_name sb, sb_extension_count sb, sb_extension_list sb, sb_cp_payload sb,
   sb_version sb, sb_init_version sb, sb_feature sb, sb_encryption_level sb,
   sb_encrypt_pw_salt sb, sb_devs sb, sb_qf_ino sb, sb_hot_ext_count sb, sb_s_encoding sb,
   sb_s_encoding_flags sb, sb_reserved sb, sb_crc sb).

Definition sb_of_tuple t :=
  let '(x0, x1, x2, x3, x4, x5, x6, x7, x8, x9, x10, x11, x12, x13, x14, x15, x16, x17, x18, x19, x20,
   x21, x22, x23, x24, x25, x26, x27, x28, x29, x30, x31, x32, x33, x34, x35, x36, x37, x38, x39,
   x40, x41, x42, x43) := t in
  mk_sb x0 x1 x2 x3 x4 x5 x6 x7 x8 x9 x10 x11 x12 x13 x14 x15 x16 x17 x18 x19 x20 x21 x22 x23 x24 x25
   x26 x27 x28 x29 x30 x31 x32 x33 x34 x35 x36 x37 x38 x39 x40 x41 x42 x43.

(** [set_sb] *)
Definition set_sb_segment_count (sb : f2fs_super_block) (v : Z) : f2fs_super_block :=
  mk_sb (sb_magic sb) (sb_major_ver sb) (sb_minor_ver sb) (sb_log_sectorsize sb)
    (sb_log_sectors_per_block sb) (sb_log_blocksize sb) (sb_log_blocks_per_seg sb)
    (sb_segs_per_sec sb) (sb_secs_per_zone sb) (sb_checksum_offset sb) (sb_block_count sb)
    (sb_section_count sb) v (sb_segment_count_ckpt sb) (sb_segment_count_sit sb)
    (sb_segment_count_nat sb) (sb_segment_count_ssa sb) (sb_segment_count_main sb)
    (sb_segment0_blkaddr sb) (sb_cp_blkaddr sb) (sb_sit_blkaddr sb) (sb_nat_blkaddr sb)
    (sb_ssa_blkaddr sb) (sb_main_blkaddr sb) (sb_root_ino sb) (sb_node_ino sb) (sb_meta_ino sb)
    (sb_uuid sb) (sb_volume_name sb) (sb_extension_count sb) (sb_extension_list sb)
    (sb_cp_payload sb) (sb_version sb) (sb_init_version sb) (sb_feature sb)
    (sb_encryption_level sb) (sb_encrypt_pw_salt sb) (sb_devs sb) (sb_qf_ino sb)
    (sb_hot_ext_count sb) (sb_s_encoding sb) (sb_s_encoding_flags sb) (sb_reserved sb)
    (sb_crc sb).

Definition set_sb_cp_payload (sb : f2fs_super_block) (v : Z) : f2fs_super_block :=
  mk_sb (sb_magic sb) (sb_major_ver sb) (sb_minor_ver sb) (sb_log_sectorsize sb)
    (sb_log_sectors_per_block sb) (sb_log_blocksize sb) (sb_log_blocks_per_seg sb)
    (sb_segs_per_sec sb) (sb_secs_per_zone sb) (sb_checksum_offset sb) (sb_block_count sb)
    (sb_section_count sb) (sb_segment_count sb) (sb_segment_count_ckpt sb)
    (sb_segment_count_sit sb) (sb_segment_count_nat sb) (sb_segment_count_ssa sb)
    (sb_segment_count_main sb) (sb_segment0_blkaddr sb) (sb_cp_blkaddr sb) (sb_sit_blkaddr sb)
    (sb_nat_blkaddr sb) (sb_ssa_blkaddr sb) (sb_main_blkaddr sb) (sb_root_ino sb)
    (sb_node_ino sb) (sb_meta_ino sb) (sb_uuid sb) (sb_volume_name sb) (sb_extension_count sb)
    (sb_extension_list sb) v (sb_version sb) (sb_init_version sb) (sb_feature sb)
    (sb_encryption_level sb) (sb_encrypt_pw_salt sb) (sb_devs sb) (sb_qf_ino sb)
    (sb_hot_ext_count sb) (sb_s_encoding sb) (sb_s_encoding_flags sb) (sb_reserved sb)
    (sb_crc sb).

Definition set_sb_crc (sb : f2fs_super_block) (v : Z) : f2fs_super_block :=
  mk_sb (sb_magic sb) (sb_major_ver sb) (sb_minor_ver sb) (sb_log_sectorsize sb)
    (sb_log_sectors_per_block sb) (sb_log_blocksize sb) (sb_log_blocks_per_seg sb)
    (sb_segs_per_sec sb) (sb_secs_per_zone sb) (sb_checksum_offset sb) (sb_block_count sb)
    (sb_section_count sb) (sb_segment_count sb) (sb_segment_count_ckpt sb)
    (sb_segment_count_sit sb) (sb_segment_count_nat sb) (sb_segment_count_ssa sb)
    (sb_segment_count_main sb) (sb_segment0_blkaddr sb) (sb_cp_blkaddr sb) (sb_sit_blkaddr sb)
    (sb_nat_blkaddr sb) (sb_ssa_blkaddr sb) (sb_main_blkaddr sb) (sb_root_ino sb)
    (sb_node_ino sb) (sb_meta_ino sb) (sb_uuid sb) (sb_volume_name sb) (sb_extension_count sb)
    (sb_extension_list sb) (sb_cp_payload sb) (sb_version sb) (sb_init_version sb)
    (sb_feature sb) (sb_encryption_level sb) (sb_encrypt_pw_salt sb) (sb_devs sb) (sb_qf_ino sb)
    (sb_hot_ext_count sb) (sb_s_encoding sb) (sb_s_encoding_flags sb) (sb_reserved sb) v.

Definition sb_codec : codec f2fs_super_block := c_iso sb_to_tuple sb_of_tuple sb_codec_members.
Definition sb_bytes : f2fs_super_block -> list Z := cenc sb_codec.
Definition sb_of_bytes : list Z -> f2fs_super_block := cdec sb_codec.
Definition sb_ok : f2fs_super_block -> Prop := cok sb_codec.

#[export] Instance dev_codec_laws : CodecLaws dev_codec.
Proof. apply c_iso_laws; [by intros []|by intros []|apply _]. Qed.

#[export] Instance sb_codec_laws : CodecLaws sb_codec.
Proof.
  apply c_iso_laws; [by intros []| |apply _].
  intros t. unfold sb_codec_members in t. repeat (destruct t as [t ?]). reflexivity.
Qed.

(** * Constants *)

Definition SB0_ADDR : Z := 0.
Definition SB1_ADDR : Z := 1.
Definition SB_MASK (i : Z) : Z := Z.shiftl 1 i.
Definition SB_MASK_ALL : Z := Z.lor (SB_MASK SB0_ADDR) (SB_MASK SB1_ADDR).
Definition F2FS_SUPER_OFFSET : Z := 1024.
Definition F2FS_FEATURE_BLKZONED : Z := 0x0002.
Definition F2FS_FEATURE_SB_CHKSUM : Z := 0x0800.
Definition F2FS_FEATURE_RO : Z := 0x4000.
Definition F2FS_MIN_SEGMENTS : Z := 9.
Definition F2FS_MAX_SEGMENT : Z := 8388608.
Definition F2FS_MIN_LOG_SECTOR_SIZE : Z := 9.
Definition F2FS_MAX_LOG_SECTOR_SIZE : Z := 12.
Definition F2FS_MAX_EXTENSION : Z := 64.
Definition F2FS_CP_PACKS : Z := 2.
Definition MAX_DEVICES : nat := 8.

Definition has_feature (feature f : Z) : bool := negb (Z.land feature f =? 0).

(** * Writing it *)

(** The loop over the two superblock copies. *)
Definition update_superblock_copies (d : disk) (buf : list Z) (sb_mask : Z) : res disk :=
  d ← (if negb (Z.land (SB_MASK SB0_ADDR) sb_mask =? 0) then disk_write_or_die d SB0_ADDR buf else Ok d);
  (if negb (Z.land (SB_MASK SB1_ADDR) sb_mask =? 0) then disk_write_or_die d SB1_ADDR buf else Ok d).

Definition update_superblock (d : disk) (sb : f2fs_super_block) (sb_mask : Z)
    : res (disk * f2fs_super_block) :=
  sb ← (if has_feature (sb_feature sb) F2FS_FEATURE_SB_CHKSUM then
          new_crc ← f2fs_cal_crc32 F2FS_SUPER_MAGIC (sb_bytes sb) 0 SB_CHKSUM_OFFSET;
          Ok (set_sb_crc sb new_crc)
        else Ok sb);
  buf ← wr_list (replicate 4096 0) F2FS_SUPER_OFFSET (sb_bytes sb);
  d ← update_superblock_copies d buf sb_mask;
  Ok (d, sb).

(** * Checking it *)

(** [sanity_check_area_boundary]: the 32-bit sums wrap. The mount options are
    not involved; a main area that ends early is repaired in place. *)
Definition sanity_check_area_boundary (d : disk) (sb : f2fs_super_block) (sb_addr : Z)
    : res (Z * disk * f2fs_super_block) :=
  let log_blocks_per_seg := sb_log_blocks_per_seg sb in
  _ ← defined_ (log_blocks_per_seg <? 32);
  let blocks n := u32 (Z.shiftl n log_blocks_per_seg) in
  let main_end_blkaddr := u32 (sb_main_blkaddr sb + blocks (sb_segment_count_main sb)) in
  let seg_end_blkaddr := u32 (sb_segment0_blkaddr sb + blocks (sb_segment_count sb)) in
  if negb (sb_segment0_blkaddr sb =? sb_cp_blkaddr sb) then Ok (-1, d, sb)
  else if negb (u32 (sb_cp_blkaddr sb + blocks (sb_segment_count_ckpt sb)) =? sb_sit_blkaddr sb)
  then Ok (-1, d, sb)
  else if negb (u32 (sb_sit_blkaddr sb + blocks (sb_segment_count_sit sb)) =? sb_nat_blkaddr sb)
  then Ok (-1, d, sb)
  else if negb (u32 (sb_nat_blkaddr sb + blocks (sb_segment_count_nat sb)) =? sb_ssa_blkaddr sb)
  then Ok (-1, d, sb)
  else if negb (u32 (sb_ssa_blkaddr sb + blocks (sb_segment_count_ssa sb)) =? sb_main_blkaddr sb)
  then Ok (-1, d, sb)
  else if seg_end_blkaddr <? main_end_blkaddr then Ok (-1, d, sb)
  else if main_end_blkaddr <? seg_end_blkaddr then
    let sb := set_sb_segment_count sb
                (u32 (Z.shiftr (u64 (main_end_blkaddr - sb_segment0_blkaddr sb)) log_blocks_per_seg)) in
    r ← update_superblock d sb (SB_MASK sb_addr);
    let '(d, sb) := r in Ok (0, d, sb)
  else Ok (0, d, sb).

(** The loop over the devices of a multi-device volume: [dev_segs] from
    [devs[i]] on. *)
Fixpoint sum_dev_segs (devs : list f2fs_device) (dev_segs : Z) : res Z :=
  match devs with
  | [] => Ok dev_segs
  | dv :: devs =>
      p0 ← rd (dev_path dv) 0;
      if p0 =? 0 then Ok dev_segs else sum_dev_segs devs (u32 (dev_segs + dev_total_segments dv))
  end.

(** [if (sb->devs[0].path[0])]: whether the devices' segments do not add up. *)
Definition devs_mismatch (sb : f2fs_super_block) (segs_per_zone : Z) : res bool :=
  d0 ← rd (sb_devs sb) 0;
  p0 ← rd (dev_path d0) 0;
  if p0 =? 0 then Ok false
  else
    dev_segs ← sum_dev_segs (sb_devs sb) 0;
    _ ← defined_ (negb (segs_per_zone =? 0));
    Ok (negb (sb_segment_count sb =? u32 (dev_segs / segs_per_zone * segs_per_zone))).

(** [sanity_check_raw_super]; [zoned_hm] is
    [c.devices[0].zoned_model == F2FS_ZONED_HM]. *)
Definition sanity_check_raw_super (zoned_hm : bool) (d : disk) (sb : f2fs_super_block) (sb_addr : Z)
    : res (Z * disk * f2fs_super_block) :=
  bad_crc ← (if has_feature (sb_feature sb) F2FS_FEATURE_SB_CHKSUM then
               r ← verify_sb_chksum (sb_bytes sb); Ok (negb (r =? 0))
             else Ok false);
  if bad_crc : bool then Ok (-1, d, sb)
  else if negb (F2FS_SUPER_MAGIC =? sb_magic sb) then Ok (-1, d, sb)
  else
  _ ← defined_ (sb_log_blocksize sb <? 31);
  let blocksize := Z.shiftl 1 (sb_log_blocksize sb) in
  if negb (F2FS_BLKSIZE =? blocksize) then Ok (-1, d, sb)
  else if negb (sb_log_blocks_per_seg sb =? 9) then Ok (-1, d, sb)
  else if (F2FS_MAX_LOG_SECTOR_SIZE <? sb_log_sectorsize sb) ||
          (sb_log_sectorsize sb <? F2FS_MIN_LOG_SECTOR_SIZE) then Ok (-1, d, sb)
  else if negb (u32 (sb_log_sectors_per_block sb + sb_log_sectorsize sb) =? F2FS_MAX_LOG_SECTOR_SIZE)
  then Ok (-1, d, sb)
  else
  let segment_count := sb_segment_count sb in
  let segs_per_sec := sb_segs_per_sec sb in
  let secs_per_zone := sb_secs_per_zone sb in
  let total_sections := sb_section_count sb in
  let segs_per_zone := u32 (segs_per_sec * secs_per_zone) in
  let blocks_per_seg := u32 (Z.shiftl 1 (sb_log_blocks_per_seg sb)) in
  if (F2FS_MAX_SEGMENT <? segment_count) || (segment_count <? F2FS_MIN_SEGMENTS) then Ok (-1, d, sb)
  else if negb (has_feature (sb_feature sb) F2FS_FEATURE_RO) &&
          ((segment_count <? total_sections) || (total_sections <? F2FS_MIN_SEGMENTS) ||
           (segment_count <? segs_per_sec) || (segs_per_sec =? 0)) then Ok (1, d, sb)
  else
  _ ← defined_ (negb (segs_per_sec =? 0));
  if segment_count / segs_per_sec <? total_sections then Ok (1, d, sb)
  else if Z.shiftr (sb_block_count sb) 9 <? segment_count then Ok (1, d, sb)
  else
  mismatch ← devs_mismatch sb segs_per_zone;
  if mismatch : bool then Ok (1, d, sb)
  else if (total_sections <? secs_per_zone) || (secs_per_zone =? 0) then Ok (1, d, sb)
  else if (F2FS_MAX_EXTENSION <? sb_extension_count sb) || (F2FS_MAX_EXTENSION <? sb_hot_ext_count sb) ||
          (F2FS_MAX_EXTENSION <? u32 (sb_extension_count sb + sb_hot_ext_count sb)) then Ok (1, d, sb)
  else if u32 (blocks_per_seg - F2FS_CP_PACKS) <? sb_cp_payload sb then Ok (1, d, sb)
  else if negb (sb_node_ino sb =? 1) || negb (sb_meta_ino sb =? 2) || negb (sb_root_ino sb =? 3)
  then Ok (-1, d, sb)
  else if zoned_hm && negb (has_feature (sb_feature sb) F2FS_FEATURE_BLKZONED) then Ok (-1, d, sb)
  else
  r ← sanity_check_area_boundary d sb sb_addr;
  let '(ret, d, sb) := r in
  Ok (if negb (ret =? 0) then -1 else 0, d, sb).

(** [validate_super_block]: the copy at [sb_addr], if it is acceptable (the
    version strings it then prints are not modelled). *)
Definition validate_super_block (zoned_hm : bool) (d : disk) (sb_addr : Z)
    : res (Z * disk * option f2fs_super_block) :=
  match disk_read d sb_addr with
  | None => Ok (-1, d, None)
  | Some buf =>
      raw ← rd_bytes buf F2FS_SUPER_OFFSET 3072;
      r ← sanity_check_raw_super zoned_hm d (sb_of_bytes raw) sb_addr;
      let '(ret, d, sb) := r in
      if ret =? 0 then Ok (0, d, Some sb) else Ok (-22, d, None)
  end.

(** * The bytes of the structure *)

(** All members but the checksum, which comes last. *)
Definition sb_body (sb : f2fs_super_block) : list Z :=
  take 3068 (sb_bytes sb).

Lemma sb_bytes_length sb : sb_ok sb -> length (sb_bytes sb) = 3072%nat.
Proof. intros H. exact (cenc_length (c := sb_codec) sb H). Qed.

Lemma sb_bytes_bytes sb : sb_ok sb -> bytes (sb_bytes sb).
Proof. intros H. exact (cenc_bytes (c := sb_codec) sb H). Qed.

Lemma sb_bytes_split sb : sb_ok sb -> sb_bytes sb = sb_body sb ++ le_bytes 4 (sb_crc sb).
Proof.
  intros Hok. pose proof (sb_bytes_length sb Hok) as Hl. unfold sb_body.
  assert (exists pre, sb_bytes sb = pre ++ le_bytes 4 (sb_crc sb)) as [pre Hpre].
  { unfold sb_bytes, sb_codec, sb_codec_members, c_iso. cbn [cenc c_pair fst snd sb_to_tuple].
    by eexists. }
  rewrite Hpre at 2. rewrite Hpre in Hl |- *. rewrite length_app, length_le_bytes in Hl.
  by rewrite take_app_length' by lia.
Qed.

Lemma sb_body_length sb : sb_ok sb -> length (sb_body sb) = 3068%nat.
Proof. intros H. unfold sb_body. rewrite length_take, sb_bytes_length by done. done. Qed.

(** Members of an explicit superblock. *)
Ltac sb_fields :=
 cbn [sb_magic sb_major_ver sb_minor_ver
   sb_log_sectorsize sb_log_sectors_per_block sb_log_blocksize sb_log_blocks_per_seg
   sb_segs_per_sec sb_secs_per_zone sb_checksum_offset sb_block_count sb_section_count
   sb_segment_count sb_segment_count_ckpt sb_segment_count_sit sb_segment_count_nat
   sb_segment_count_ssa sb_segment_count_main sb_segment0_blkaddr sb_cp_blkaddr sb_sit_blkaddr
   sb_nat_blkaddr sb_ssa_blkaddr sb_main_blkaddr sb_root_ino sb_node_ino sb_meta_ino sb_uuid
   sb_volume_name sb_extension_count sb_extension_list sb_cp_payload sb_version sb_init_version
   sb_feature sb_encryption_level sb_encrypt_pw_salt sb_devs sb_qf_ino sb_hot_ext_count
   sb_s_encoding sb_s_encoding_flags sb_reserved sb_crc].

Lemma set_sb_crc_ok sb v : sb_ok sb -> is_u32 v -> sb_ok (set_sb_crc sb v).
Proof.
  unfold sb_ok, sb_codec, sb_codec_members, set_sb_crc. intros H Hv.
  cbn [cok c_iso c_pair sb_to_tuple fst snd] in H |- *. sb_fields.
  destruct H as [H _]. split; [exact H|exact Hv].
Qed.

Lemma set_sb_crc_body sb v : sb_ok sb -> is_u32 v -> sb_body (set_sb_crc sb v) = sb_body sb.
Proof.
  intros Hok Hv. pose proof (sb_body_length sb Hok) as Hl.
  pose proof (sb_body_length _ (set_sb_crc_ok sb v Hok Hv)) as Hl'.
  pose proof (sb_bytes_split sb Hok) as H1.
  pose proof (sb_bytes_split _ (set_sb_crc_ok sb v Hok Hv)) as H2.
  assert (exists pre, sb_bytes sb = pre ++ le_bytes 4 (sb_crc sb) /\
    sb_bytes (set_sb_crc sb v) = pre ++ le_bytes 4 v) as (pre & Hp1 & Hp2).
  { eexists. split; reflexivity. }
  rewrite H1 in Hp1. rewrite H2 in Hp2.
  apply app_inj_2 in Hp1 as [-> _]; [|by rewrite !length_le_bytes].
  by apply app_inj_2 in Hp2 as [-> _]; [|by rewrite !length_le_bytes].
Qed.

Lemma sb_of_bytes_bytes sb rest : sb_ok sb -> sb_of_bytes (sb_bytes sb ++ rest) = sb.
Proof. intros H. exact (cdec_enc (c := sb_codec) sb rest H). Qed.

Lemma get_sb_checksum_offset sb :
  sb_ok sb -> get_le32 (sb_bytes sb) ofs_sb_checksum_offset = Ok (sb_checksum_offset sb).
Proof.
  intros Hok. rewrite <- (sb_of_bytes_bytes sb [] Hok) at 2. rewrite app_nil_r.
  unfold get_le. rewrite rd_bytes_Ok by (rewrite ?sb_bytes_length by done; done). reflexivity.
Qed.

Lemma get_sb_crc sb : sb_ok sb -> get_le32 (sb_bytes sb) ofs_sb_crc = Ok (sb_crc sb).
Proof.
  intros Hok. rewrite sb_bytes_split by done. unfold get_le.
  rewrite <- (app_nil_r (_ ++ _)), <- app_assoc.
  rewrite rd_bytes_app by (rewrite ?sb_body_length by done; done). cbn [mbind res_bind].
  rewrite le_val_bytes; [done|]. destruct Hok as [_ H]. exact H.
Qed.

(** The checksum [update_superblock] stores. *)
Lemma sb_crc_eq sb : sb_ok sb ->
  f2fs_cal_crc32 F2FS_SUPER_MAGIC (sb_bytes sb) 0 SB_CHKSUM_OFFSET =
    Ok (crc_of F2FS_SUPER_MAGIC (sb_body sb)).
Proof.
  intros Hok. by rewrite f2fs_cal_crc32_eq by (rewrite ?sb_bytes_length by done; done).
Qed.

Lemma verify_sb_chksum_eq sb : sb_ok sb ->
  verify_sb_chksum (sb_bytes sb) =
    Ok (if (sb_checksum_offset sb =? SB_CHKSUM_OFFSET) &&
           (crc_of F2FS_SUPER_MAGIC (sb_body sb) =? sb_crc sb) then 0 else -1).
Proof.
  intros Hok. unfold verify_sb_chksum. rewrite get_sb_checksum_offset by done. cbn [mbind res_bind].
  rewrite (Z.eqb_sym SB_CHKSUM_OFFSET). destruct (Z.eqb_spec (sb_checksum_offset sb) SB_CHKSUM_OFFSET)
    as [->|]; [|done]. cbn [negb andb]. rewrite get_sb_crc by done. unfold f2fs_crc_valid.
  rewrite sb_crc_eq by done. cbn [mbind res_bind].
  by destruct (crc_of F2FS_SUPER_MAGIC (sb_body sb) =? sb_crc sb).
Qed.

Lemma sb_body_bytes sb : sb_ok sb -> bytes (sb_body sb).
Proof. intros. by apply Forall_take, sb_bytes_bytes. Qed.

(** What [update_superblock] leaves in memory. *)
Definition sb_updated (sb : f2fs_super_block) : f2fs_super_block :=
  if has_feature (sb_feature sb) F2FS_FEATURE_SB_CHKSUM
  then set_sb_crc sb (crc_of F2FS_SUPER_MAGIC (sb_body sb)) else sb.

Lemma crc_of_sb_range sb : sb_ok sb -> is_u32 (crc_of F2FS_SUPER_MAGIC (sb_body sb)).
Proof. intros Hok. apply crc_of_range; [done|by apply sb_body_bytes]. Qed.

Lemma sb_updated_ok sb : sb_ok sb -> sb_ok (sb_updated sb).
Proof.
  intros Hok. unfold sb_updated. destruct (has_feature _ _); [|done].
  apply set_sb_crc_ok; [done|by apply crc_of_sb_range].
Qed.

(** The block that holds a superblock. *)
Definition sb_block (sb : f2fs_super_block) : list Z :=
  replicate 1024 0 ++ sb_bytes sb.

Lemma disk_write_present d a b : is_Some (d !! a) -> disk_write_or_die d a b = Ok (<[a := b]> d).
Proof. intros [x Hx]. unfold disk_write_or_die, disk_write. by rewrite Hx. Qed.

Lemma update_superblock_eq d sb mask :
  sb_ok sb -> is_Some (d !! SB0_ADDR) -> is_Some (d !! SB1_ADDR) ->
  update_superblock d sb mask =
    let b := sb_block (sb_updated sb) in
    let d := if negb (Z.land (SB_MASK SB0_ADDR) mask =? 0) then <[SB0_ADDR := b]> d else d in
    Ok (if negb (Z.land (SB_MASK SB1_ADDR) mask =? 0) then <[SB1_ADDR := b]> d else d, sb_updated sb).
Proof.
  intros Hok H0 H1. unfold update_superblock.
  assert ((if has_feature (sb_feature sb) F2FS_FEATURE_SB_CHKSUM then
          new_crc ← f2fs_cal_crc32 F2FS_SUPER_MAGIC (sb_bytes sb) 0 SB_CHKSUM_OFFSET;
          Ok (set_sb_crc sb new_crc) else Ok sb) = Ok (sb_updated sb)) as ->.
  { unfold sb_updated. rewrite sb_crc_eq by done. by destruct (has_feature _ _). }
  cbn [mbind res_bind]. pose proof (sb_updated_ok sb Hok) as Hok'. revert Hok'.
  generalize (sb_updated sb) as sb'. intros sb' Hok'.
  assert (wr_list (replicate 4096 0) F2FS_SUPER_OFFSET (sb_bytes sb') = Ok (sb_block sb')) as ->.
  { rewrite wr_list_splice by (rewrite ?length_replicate, ?sb_bytes_length by done; done).
    f_equal. unfold splice. rewrite sb_bytes_length by done.
    rewrite (drop_ge (replicate _ _)) by (rewrite length_replicate; change (Z.to_nat F2FS_SUPER_OFFSET) with 1024%nat; lia).
    by rewrite app_nil_r, take_replicate. }
  cbn [mbind res_bind]. unfold update_superblock_copies.
  destruct (negb (Z.land (SB_MASK SB0_ADDR) mask =? 0)).
  - rewrite disk_write_present by done. cbn [mbind res_bind].
    destruct (negb _); [|done]. rewrite disk_write_present by (by rewrite lookup_insert_ne). done.
  - cbn [mbind res_bind]. destruct (negb _); [|done]. by rewrite disk_write_present.
Qed.

(** * The layout the checks enforce *)

(** The areas follow each other from segment 0 on and fill the segments. *)
Definition layout_ok (sb : f2fs_super_block) : Prop :=
  sb_cp_blkaddr sb = sb_segment0_blkaddr sb /\
  sb_sit_blkaddr sb = sb_cp_blkaddr sb + 512 * sb_segment_count_ckpt sb /\
  sb_nat_blkaddr sb = sb_sit_blkaddr sb + 512 * sb_segment_count_sit sb /\
  sb_ssa_blkaddr sb = sb_nat_blkaddr sb + 512 * sb_segment_count_nat sb /\
  sb_main_blkaddr sb = sb_ssa_blkaddr sb + 512 * sb_segment_count_ssa sb /\
  sb_segment_count sb = sb_segment_count_ckpt sb + sb_segment_count_sit sb + sb_segment_count_nat sb +
                        sb_segment_count_ssa sb + sb_segment_count_main sb.

(** Every block address of the volume fits in 32 bits. *)
Definition addresses_fit (sb : f2fs_super_block) : Prop :=
  sb_segment0_blkaddr sb + 512 * sb_segment_count sb < 2 ^ 32 /\
  sb_segment0_blkaddr sb + 512 * (sb_segment_count_ckpt sb + sb_segment_count_sit sb +
    sb_segment_count_nat sb + sb_segment_count_ssa sb + sb_segment_count_main sb) < 2 ^ 32.

Definition layout_fields_nonneg (sb : f2fs_super_block) : Prop :=
  0 <= sb_segment0_blkaddr sb /\ 0 <= sb_segment_count sb /\ 0 <= sb_segment_count_ckpt sb /\
  0 <= sb_segment_count_sit sb /\ 0 <= sb_segment_count_nat sb /\ 0 <= sb_segment_count_ssa sb /\
  0 <= sb_segment_count_main sb.

Lemma sb_ok_nonneg sb : sb_ok sb -> layout_fields_nonneg sb.
Proof.
  unfold sb_ok, sb_codec, sb_codec_members. cbn [cok c_iso c_pair sb_to_tuple fst snd].
  unfold layout_fields_nonneg. intros H. decompose [and] H. clear H.
  repeat match goal with H : cok (c_le _) _ |- _ => cbn in H end. lia.
Qed.

Lemma shiftl_9 n : 0 <= n -> 512 * n < 2 ^ 32 -> u32 (Z.shiftl n 9) = 512 * n.
Proof.
  intros Hn0 Hn1. rewrite Z.shiftl_mul_pow2, Z.mul_comm by lia. change (2 ^ 9) with 512.
  apply u32_id. unfold is_u32. lia.
Qed.

(** With the segment size of 512 blocks, the boundary check in plain arithmetic. *)
Lemma area_boundary_eq d sb a :
  layout_fields_nonneg sb -> sb_log_blocks_per_seg sb = 9 -> addresses_fit sb ->
  forall r, sanity_check_area_boundary d sb a = Ok (0, r.1, r.2) ->
  sb_cp_blkaddr sb = sb_segment0_blkaddr sb /\
  sb_sit_blkaddr sb = sb_cp_blkaddr sb + 512 * sb_segment_count_ckpt sb /\
  sb_nat_blkaddr sb = sb_sit_blkaddr sb + 512 * sb_segment_count_sit sb /\
  sb_ssa_blkaddr sb = sb_nat_blkaddr sb + 512 * sb_segment_count_nat sb /\
  sb_main_blkaddr sb = sb_ssa_blkaddr sb + 512 * sb_segment_count_ssa sb /\
  let total := sb_segment_count_ckpt sb + sb_segment_count_sit sb + sb_segment_count_nat sb +
               sb_segment_count_ssa sb + sb_segment_count_main sb in
  (total = sb_segment_count sb /\ r = (d, sb) \/
   total < sb_segment_count sb /\
   update_superblock d (set_sb_segment_count sb total) (SB_MASK a) = Ok r).
Proof.
  intros (H0 & Hs & Hc & Hsi & Hn & Hss & Hm) Hlog [Hf1 Hf2] [d' sb'].
  unfold sanity_check_area_boundary. rewrite Hlog. change (9 <? 32) with true.
  cbn [mbind res_bind defined_ fst snd].
  rewrite !shiftl_9 by lia.
  destruct (Z.eqb_spec (sb_segment0_blkaddr sb) (sb_cp_blkaddr sb)) as [E1|]; [cbn [negb]|done].
  rewrite <- E1.
  destruct (Z.eqb_spec (u32 (sb_segment0_blkaddr sb + 512 * sb_segment_count_ckpt sb)) (sb_sit_blkaddr sb))
    as [E2|]; [cbn [negb]|done]. rewrite u32_id in E2 by (unfold is_u32; lia).
  destruct (Z.eqb_spec (u32 (sb_sit_blkaddr sb + 512 * sb_segment_count_sit sb)) (sb_nat_blkaddr sb))
    as [E3|]; [cbn [negb]|done]. rewrite u32_id in E3 by (unfold is_u32; lia).
  destruct (Z.eqb_spec (u32 (sb_nat_blkaddr sb + 512 * sb_segment_count_nat sb)) (sb_ssa_blkaddr sb))
    as [E4|]; [cbn [negb]|done]. rewrite u32_id in E4 by (unfold is_u32; lia).
  destruct (Z.eqb_spec (u32 (sb_ssa_blkaddr sb + 512 * sb_segment_count_ssa sb)) (sb_main_blkaddr sb))
    as [E5|]; [cbn [negb]|done]. rewrite u32_id in E5 by (unfold is_u32; lia).
  rewrite (u32_id (sb_main_blkaddr sb + _)), (u32_id (sb_segment0_blkaddr sb + 512 * sb_segment_count sb))
    by (unfold is_u32; lia).
  set (total := sb_segment_count_ckpt sb + sb_segment_count_sit sb + sb_segment_count_nat sb +
                sb_segment_count_ssa sb + sb_segment_count_main sb) in *.
  destruct (Z.ltb_spec (sb_segment0_blkaddr sb + 512 * sb_segment_count sb)
              (sb_main_blkaddr sb + 512 * sb_segment_count_main sb)); [done|].
  destruct (Z.ltb_spec (sb_main_blkaddr sb + 512 * sb_segment_count_main sb)
              (sb_segment0_blkaddr sb + 512 * sb_segment_count sb)).
  - assert (u32 (Z.shiftr (u64 (sb_main_blkaddr sb + 512 * sb_segment_count_main sb -
      sb_segment0_blkaddr sb)) 9) = total) as ->.
    { rewrite u64_id by (unfold is_u64; lia). rewrite Z.shiftr_div_pow2 by lia.
      replace (_ - _) with (total * 2 ^ 9) by (change (2 ^ 9) with 512; lia).
      rewrite Z.div_mul by lia. apply u32_id. unfold is_u32. lia. }
    intros ([d1 sb1] & Hu & [= <- <-])%res_bind_Ok. cbn in *. repeat (split; [lia|]). right.
    split; [lia|done].
  - intros [= <- <-]. repeat (split; [lia|]). left. split; [lia|done].
Qed.

(** What an accepted superblock has passed. *)
Record accepted (sb : f2fs_super_block) : Prop := {
  acc_magic : sb_magic sb = F2FS_SUPER_MAGIC;
  acc_log : sb_log_blocks_per_seg sb = 9 /\ Z.shiftl 1 (sb_log_blocksize sb) = F2FS_BLKSIZE;
  acc_segments : F2FS_MIN_SEGMENTS <= sb_segment_count sb <= F2FS_MAX_SEGMENT;
  acc_sections : sb_segs_per_sec sb <> 0 /\
    sb_section_count sb <= sb_segment_count sb / sb_segs_per_sec sb;
  acc_blocks : sb_segment_count sb <= Z.shiftr (sb_block_count sb) 9;
  acc_zones : sb_secs_per_zone sb <> 0 /\ sb_secs_per_zone sb <= sb_section_count sb;
  acc_payload : sb_cp_payload sb <= 510;
  acc_inodes : sb_node_ino sb = 1 /\ sb_meta_ino sb = 2 /\ sb_root_ino sb = 3
}.

(** Rejecting tests, one by one. *)
Ltac pass_test :=
  match goal with
  | |- (if negb (?x =? ?y) then _ else _) = _ -> _ => destruct (Z.eqb_spec x y); cbn [negb]; [|done]
  | |- (if ?b then _ else _) = _ -> _ => destruct b eqn:?; [done|]
  | |- (defined_ ?b ≫= _) = _ -> _ => destruct b eqn:?; cbn [defined_ mbind res_bind]; [|done]
  end.

Lemma raw_super_accepts zoned_hm d sb a d' sb' :
  sanity_check_raw_super zoned_hm d sb a = Ok (0, d', sb') ->
  accepted sb /\ sanity_check_area_boundary d sb a = Ok (0, d', sb').
Proof.
  unfold sanity_check_raw_super. intros (bad & _ & H)%res_bind_Ok. revert H.
  do 12 (pass_test; cbv zeta).
  intros (mismatch & _ & H)%res_bind_Ok. revert H.
  do 6 pass_test.
  intros ([[ret d1] sb1] & Hb & H)%res_bind_Ok. destruct (Z.eqb_spec ret 0) as [->|]; cbn in H; [|done].
  injection H as -> ->. split; [|done].
  repeat match goal with
  | H : _ || _ = false |- _ => apply orb_false_elim in H as [? ?]
  | H : (_ <? _) = false |- _ => apply Z.ltb_ge in H
  | H : negb _ = false |- _ => apply negb_false_iff in H
  | H : negb _ = true |- _ => apply negb_true_iff in H
  | H : (_ =? _) = true |- _ => apply Z.eqb_eq in H
  | H : (_ =? _) = false |- _ => apply Z.eqb_neq in H
  end.
  split; try done; try lia.
  match goal with H : sb_cp_payload sb <= u32 _ |- _ => revert H end.
  match goal with H : sb_log_blocks_per_seg sb = 9 |- _ => rewrite H end. done.
Qed.

(** Superblocks with the same areas. *)
Definition sb_same_layout (sb sb' : f2fs_super_block) : Prop :=
  sb_segment0_blkaddr sb' = sb_segment0_blkaddr sb /\ sb_cp_blkaddr sb' = sb_cp_blkaddr sb /\
  sb_sit_blkaddr sb' = sb_sit_blkaddr sb /\ sb_nat_blkaddr sb' = sb_nat_blkaddr sb /\
  sb_ssa_blkaddr sb' = sb_ssa_blkaddr sb /\ sb_main_blkaddr sb' = sb_main_blkaddr sb /\
  sb_segment_count_ckpt sb' = sb_segment_count_ckpt sb /\
  sb_segment_count_sit sb' = sb_segment_count_sit sb /\
  sb_segment_count_nat sb' = sb_segment_count_nat sb /\
  sb_segment_count_ssa sb' = sb_segment_count_ssa sb /\
  sb_segment_count_main sb' = sb_segment_count_main sb /\
  sb_segment_count sb' = sb_segment_count sb /\
  sb_log_blocks_per_seg sb' = sb_log_blocks_per_seg sb.

Lemma update_superblock_layout d sb mask d' sb' :
  update_superblock d sb mask = Ok (d', sb') -> sb_same_layout sb sb'.
Proof.
  unfold update_superblock. intros (sb1 & H1 & H)%res_bind_Ok.
  apply res_bind_Ok in H as (buf & _ & H). apply res_bind_Ok in H as (d1 & _ & [= _ <-]).
  destruct (has_feature _ _) in H1; [|by injection H1 as ->].
  apply res_bind_Ok in H1 as (crc & _ & [= <-]). done.
Qed.

(** A gapless layout passes the boundary check unchanged. *)
Lemma area_boundary_stable d sb a :
  layout_fields_nonneg sb -> sb_log_blocks_per_seg sb = 9 -> layout_ok sb -> addresses_fit sb ->
  sanity_check_area_boundary d sb a = Ok (0, d, sb).
Proof.
  intros (H0 & Hs & Hc & Hsi & Hn & Hss & Hm) Hlog (E1 & E2 & E3 & E4 & E5 & E6) [Hf1 Hf2].
  unfold sanity_check_area_boundary. rewrite Hlog. change (9 <? 32) with true.
  cbn [mbind res_bind defined_]. rewrite !shiftl_9 by lia.
  rewrite !u32_id by (unfold is_u32; lia).
  replace (sb_segment0_blkaddr sb =? sb_cp_blkaddr sb) with true by lia.
  replace (sb_cp_blkaddr sb + _ =? sb_sit_blkaddr sb) with true by lia.
  replace (sb_sit_blkaddr sb + _ =? sb_nat_blkaddr sb) with true by lia.
  replace (sb_nat_blkaddr sb + _ =? sb_ssa_blkaddr sb) with true by lia.
  replace (sb_ssa_blkaddr sb + _ =? sb_main_blkaddr sb) with true by lia. cbn [negb].
  destruct (Z.ltb_spec (sb_segment0_blkaddr sb + 512 * sb_segment_count sb)
              (sb_main_blkaddr sb + 512 * sb_segment_count_main sb)); [lia|].
  destruct (Z.ltb_spec (sb_main_blkaddr sb + 512 * sb_segment_count_main sb)
              (sb_segment0_blkaddr sb + 512 * sb_segment_count sb)); [lia|done].
Qed.

(** A superblock that meets the tests one by one, on one device that is not
    zoned, is accepted if its areas are. *)
Lemma raw_super_pass d sb a :
  (has_feature (sb_feature sb) F2FS_FEATURE_SB_CHKSUM = true -> verify_sb_chksum (sb_bytes sb) = Ok 0) ->
  accepted sb -> F2FS_MIN_LOG_SECTOR_SIZE <= sb_log_sectorsize sb <= F2FS_MAX_LOG_SECTOR_SIZE ->
  sb_log_sectors_per_block sb + sb_log_sectorsize sb = F2FS_MAX_LOG_SECTOR_SIZE ->
  0 <= sb_log_blocksize sb < 31 -> 0 <= sb_log_sectors_per_block sb ->
  F2FS_MIN_SEGMENTS <= sb_section_count sb <= sb_segment_count sb ->
  sb_segs_per_sec sb <= sb_segment_count sb ->
  0 <= sb_extension_count sb -> 0 <= sb_hot_ext_count sb ->
  sb_extension_count sb + sb_hot_ext_count sb <= F2FS_MAX_EXTENSION ->
  (exists dv devs rest, sb_devs sb = dv :: devs /\ dev_path dv = 0 :: rest) ->
  sanity_check_area_boundary d sb a = Ok (0, d, sb) ->
  sanity_check_raw_super false d sb a = Ok (0, d, sb).
Proof.
  intros Hcrc [Hm [Hl Hbs] Hs [Hsps Hsec] Hbc [Hz0 Hz] Hp (Hi1 & Hi2 & Hi3)] Hls Hlb Hlb' Hlsp Hsc Hsp He Hh Heh
    (dv & devs & rest & Hdv & Hpath) Hab.
  unfold sanity_check_raw_super.
  assert ((if has_feature (sb_feature sb) F2FS_FEATURE_SB_CHKSUM
    then r ← verify_sb_chksum (sb_bytes sb); Ok (negb (r =? 0)) else Ok false) = Ok false) as ->.
  { destruct (has_feature _ _); [|done]. by rewrite Hcrc. }
  unfold F2FS_MAX_EXTENSION, F2FS_MAX_LOG_SECTOR_SIZE in *.
  cbn [mbind res_bind]. rewrite Hm, Z.eqb_refl, Hbs. cbn [negb].
  replace (sb_log_blocksize sb <? 31) with true by lia. cbn [defined_ mbind res_bind].
  rewrite Z.eqb_refl, Hl, Z.eqb_refl. cbn [negb].
  replace (_ || (sb_log_sectorsize sb <? F2FS_MIN_LOG_SECTOR_SIZE)) with false by lia.
  rewrite u32_id, Hlb by (unfold is_u32; lia). rewrite Z.eqb_refl. cbn [negb].
  replace ((F2FS_MAX_SEGMENT <? _) || _) with false by lia.
  replace (_ || (sb_segs_per_sec sb =? 0)) with false by lia. rewrite andb_false_r.
  replace (sb_segs_per_sec sb =? 0) with false by lia. cbn [defined_ negb mbind res_bind].
  replace (sb_segment_count sb / sb_segs_per_sec sb <? sb_section_count sb) with false by lia.
  replace (Z.shiftr (sb_block_count sb) 9 <? sb_segment_count sb) with false by lia.
  unfold devs_mismatch. rewrite Hdv. change (rd (dv :: devs) 0) with (Ok dv). cbn [mbind res_bind].
  rewrite Hpath. change (rd (0 :: rest) 0) with (Ok 0). cbn [mbind res_bind Z.eqb].
  replace ((sb_section_count sb <? sb_secs_per_zone sb) || (sb_secs_per_zone sb =? 0)) with false by lia.
  rewrite (u32_id (sb_extension_count sb + sb_hot_ext_count sb)) by (unfold is_u32; lia).
  replace (_ || (64 <? sb_extension_count sb + sb_hot_ext_count sb)) with false by lia.
  change (u32 (u32 (Z.shiftl 1 9) - F2FS_CP_PACKS)) with 510.
  replace (510 <? sb_cp_payload sb) with false by lia.
  rewrite Hi1, Hi2, Hi3. cbn [negb orb andb Z.eqb Pos.eqb]. by rewrite Hab.
Qed.

(** * Properties *)

(** C28: What [update_superblock] writes is what a later mount reads: for a
    superblock whose members fit their widths, both copies decode to the
    superblock left in memory, and with the SB_CHKSUM feature (and the checksum
    at its place) the stored checksum passes [verify_sb_chksum]. *)
Theorem superblock_update_roundtrip (d : disk) (sb : f2fs_super_block) :
  sb_ok sb -> is_Some (d !! SB0_ADDR) -> is_Some (d !! SB1_ADDR) ->
  exists d' sb', update_superblock d sb SB_MASK_ALL = Ok (d', sb') /\
    (forall a, a = SB0_ADDR \/ a = SB1_ADDR -> exists buf,
       disk_read d' a = Some buf /\
       (raw ← rd_bytes buf F2FS_SUPER_OFFSET 3072; Ok (sb_of_bytes raw)) = Ok sb') /\
    (has_feature (sb_feature sb) F2FS_FEATURE_SB_CHKSUM = true ->
     sb_checksum_offset sb = SB_CHKSUM_OFFSET -> verify_sb_chksum (sb_bytes sb') = Ok 0).
Proof.
  intros Hok H0 H1. eexists _, (sb_updated sb). rewrite update_superblock_eq by done.
  change (negb (Z.land (SB_MASK SB0_ADDR) SB_MASK_ALL =? 0)) with true.
  change (negb (Z.land (SB_MASK SB1_ADDR) SB_MASK_ALL =? 0)) with true. split; [reflexivity|]. pose proof (sb_updated_ok sb Hok) as Hok'. split.
  - intros a Ha. exists (sb_block (sb_updated sb)). split.
    + unfold disk_read. destruct Ha as [-> | ->]; [|apply lookup_insert_eq].
      by rewrite lookup_insert_ne, lookup_insert_eq.
    + unfold sb_block. rewrite <- (app_nil_r (sb_bytes _)).
      rewrite rd_bytes_app by (rewrite ?length_replicate, ?sb_bytes_length by done; done).
      cbn [mbind res_bind]. f_equal. rewrite <- (app_nil_r (sb_bytes _)). by apply sb_of_bytes_bytes.
  - intros Hf Hoff. rewrite verify_sb_chksum_eq by done. unfold sb_updated in *. rewrite Hf in *.
    rewrite set_sb_crc_body by (done || by apply crc_of_sb_range).
    change (sb_checksum_offset (set_sb_crc sb _)) with (sb_checksum_offset sb).
    change (sb_crc (set_sb_crc sb ?v)) with v. by rewrite Hoff, !Z.eqb_refl.
Qed.

Definition sample_device : f2fs_device := mk_device (replicate 64 0) 0.

(** A volume of 31 segments: 2 for checkpoints, [sit] for the SIT, 2 for the
    NAT, 1 for the SSA and 24 in the main area. *)
Definition sample_sb (feature segs_per_sec segment_count sit : Z) : f2fs_super_block := {|
  sb_magic := F2FS_SUPER_MAGIC; sb_major_ver := 1; sb_minor_ver := 14; sb_log_sectorsize := 9;
  sb_log_sectors_per_block := 3; sb_log_blocksize := 12; sb_log_blocks_per_seg := 9;
  sb_segs_per_sec := segs_per_sec; sb_secs_per_zone := 1; sb_checksum_offset := SB_CHKSUM_OFFSET;
  sb_block_count := 16896; sb_section_count := 24; sb_segment_count := segment_count;
  sb_segment_count_ckpt := 2; sb_segment_count_sit := sit; sb_segment_count_nat := 2;
  sb_segment_count_ssa := 1; sb_segment_count_main := 24; sb_segment0_blkaddr := 512;
  sb_cp_blkaddr := 512; sb_sit_blkaddr := 1536; sb_nat_blkaddr := 2560; sb_ssa_blkaddr := 3584;
  sb_main_blkaddr := 4096; sb_root_ino := 3; sb_node_ino := 1; sb_meta_ino := 2;
  sb_uuid := replicate 16 0; sb_volume_name := replicate 512 0; sb_extension_count := 0;
  sb_extension_list := replicate 64 (replicate 8 0); sb_cp_payload := 0;
  sb_version := replicate 256 0; sb_init_version := replicate 256 0; sb_feature := feature;
  sb_encryption_level := 0; sb_encrypt_pw_salt := replicate 16 0;
  sb_devs := replicate 8 sample_device; sb_qf_ino := [0; 0; 0]; sb_hot_ext_count := 0;
  sb_s_encoding := 0; sb_s_encoding_flags := 0; sb_reserved := replicate 306 0; sb_crc := 0 |}.

Lemma sample_sb_ok feature segs_per_sec segment_count sit :
  is_u32 feature -> is_u32 segs_per_sec -> is_u32 segment_count -> is_u32 sit ->
  sb_ok (sample_sb feature segs_per_sec segment_count sit).
Proof.
  intros. unfold sb_ok, sb_codec, sb_codec_members.
  cbn [cok c_iso c_pair sb_to_tuple fst snd]. unfold sample_sb. sb_fields.
  repeat match goal with
  | |- _ /\ _ => split
  | |- cok (c_le _) _ => first [assumption|by split]
  | |- cok (c_raw _) (replicate _ _) => split; [by apply Forall_replicate|reflexivity]
  | |- cok (c_array _ _) (replicate _ _) => split; [apply Forall_replicate|reflexivity]
  | |- cok (c_array _ _) _ => split; [repeat constructor; done|reflexivity]
  | |- cok dev_codec _ => split; cbn [fst snd sample_device dev_path dev_total_segments]
  end.
Qed.

Definition sample_disk : disk := <[0 := []]> (<[1 := []]> ∅).

Lemma superblock_update_roundtrip_witness :
  exists d' sb', update_superblock sample_disk (sample_sb F2FS_FEATURE_SB_CHKSUM 1 31 2) SB_MASK_ALL
      = Ok (d', sb') /\ verify_sb_chksum (sb_bytes sb') = Ok 0.
Proof.
  destruct (superblock_update_roundtrip sample_disk (sample_sb F2FS_FEATURE_SB_CHKSUM 1 31 2))
    as (d' & sb' & Hu & _ & Hv); [by apply sample_sb_ok|by eexists|by eexists|].
  exists d', sb'. split; [exact Hu|]. by apply Hv.
Defined.



(** On a read-only volume the test that [segs_per_sec] is not zero is
    skipped, and the next test divides by it: a superblock with the RO feature,
    no checksum feature, sane sizes and [segs_per_sec = 0] makes
    [sanity_check_raw_super] divide by zero. *)
Theorem sanity_check_ro_divides_by_zero (zoned_hm : bool) (d : disk) (sb : f2fs_super_block) (a : Z) :
  sb_feature sb = F2FS_FEATURE_RO -> sb_magic sb = F2FS_SUPER_MAGIC -> sb_log_blocksize sb = 12 ->
  sb_log_blocks_per_seg sb = 9 -> sb_log_sectorsize sb = 9 -> sb_log_sectors_per_block sb = 3 ->
  F2FS_MIN_SEGMENTS <= sb_segment_count sb <= F2FS_MAX_SEGMENT -> sb_segs_per_sec sb = 0 ->
  sanity_check_raw_super zoned_hm d sb a = Oob.
Proof.
  intros Hf Hm Hb Hl Hs Hp Hc Hz. unfold sanity_check_raw_super.
  rewrite Hf, Hm, Hb, Hl, Hs, Hp, Hz. cbn -[sb_bytes sanity_check_area_boundary].
  replace (F2FS_MAX_SEGMENT <? sb_segment_count sb) with false by lia.
  by replace (sb_segment_count sb <? F2FS_MIN_SEGMENTS) with false by lia.
Qed.

Lemma sanity_check_ro_divides_by_zero_witness :
  sanity_check_raw_super false sample_disk (sample_sb F2FS_FEATURE_RO 0 31 2) 0 = Oob.
Proof. by apply sanity_check_ro_divides_by_zero. Defined.

(** The boundary checks compare 32-bit sums that wrap around: the sample
    volume with a SIT area of 2^23 + 2 segments (more than the whole volume has)
    is accepted. *)
Theorem sanity_check_accepts_wrapped_sit :
  let sb := sample_sb 0 1 31 (2 ^ 23 + 2) in
  sanity_check_raw_super false sample_disk sb 0 = Ok (0, sample_disk, sb) /\ ~ layout_ok sb.
Proof.
  split; [reflexivity|]. intros (_ & _ & H & _). cbn in H. lia.
Qed.
