(* ===== verification/Mkfs.v ===== *)
(** mkfs/f2fs_format.c: how [f2fs_prepare_super_block] lays out a volume. The
    function is split where its text falls into parts: devices and segment 0,
    the metadata areas, the main area, the over-provisioning (in the binary64
    arithmetic of the code), the active segments and the extension list. The
    build is the one without zoned-device support in the kernel headers, where
    [f2fs_get_usable_segments] is the size of the main area. *)
From S2P Require Import Prelude Bits Utf Crc Codec Superblock.
From Stdlib Require Import ZArith Lia List Bool String Ascii SpecFloat.
From stdpp Require Import base numbers list gmap.
#[local] Open Scope Z_scope.

(** * Configuration *)

Record mkfs_device := {
  md_path : list Z;
  md_total_sectors : Z;
  md_start_blkaddr : Z;
  md_zoned_hm : bool;
  md_nr_rnd_zones : Z
}.

(** The members of [c] that the function reads. [mc_uuid] stands for
    [uuid_parse]/[uuid_generate]: [None] when the given text is no UUID;
    [mc_version] for the version of the running kernel. *)
Record mkfs_config := {
  mc_sector_size : Z; mc_sectors_per_blk : Z; mc_blks_per_seg : Z; mc_segs_per_sec : Z;
  mc_secs_per_zone : Z; mc_segs_per_zone : Z; mc_start_sector : Z; mc_total_sectors : Z;
  mc_total_segments : Z; mc_feature : Z; mc_zoned_mode : bool; mc_zone_blocks : Z;
  mc_large_nat_bitmap : bool; mc_heap : bool; mc_overprovision : spec_float;
  mc_devices : list mkfs_device; mc_quota_bits : Z; mc_vol_label : list Z;
  mc_ext_media : option (list Z); mc_ext_hot : option (list Z); mc_s_encoding : Z;
  mc_s_encoding_flags : Z; mc_uuid : option (list Z); mc_version : list Z
}.

Definition DEFAULT_SECTOR_SIZE : Z := 512.
Definition DEFAULT_SECTORS_PER_BLOCK : Z := 8.
Definition F2FS_NUMBER_OF_CHECKPOINT_PACK : Z := 2.
Definition SIT_ENTRY_PER_BLOCK : Z := 55.
Definition NAT_ENTRY_PER_BLOCK : Z := 455.
Definition DEFAULT_NAT_ENTRY_RATIO : Z := 20.
Definition CP_BITMAP_OFFSET : Z := 192.
Definition MIN_NAT_BITMAP_SIZE : Z := 64.
Definition MAX_SIT_BITMAP_SIZE_IN_CKPT : Z := CP_CHKSUM_OFFSET - CP_BITMAP_OFFSET - MIN_NAT_BITMAP_SIZE.
Definition MAX_BITMAP_SIZE_IN_CKPT : Z := CP_CHKSUM_OFFSET - CP_BITMAP_OFFSET.
Definition NR_CURSEG_TYPE : Z := 6.

(** [SIZE_ALIGN] with a [size_t] divisor, and [SEG_ALIGN] of a [uint32_t]. *)
Definition SIZE_ALIGN (val size : Z) : Z := u64 (val + size - 1) / size.
Definition SEG_ALIGN (c : mkfs_config) (blks : Z) : Z :=
  u32 (blks + mc_blks_per_seg c - 1) / mc_blks_per_seg c.
Definition F2FS_BLK_ALIGN (x : Z) : Z := u32 (x + F2FS_BLKSIZE - 1) / F2FS_BLKSIZE.
Definition MAX_SIT_BITMAP_SIZE (c : mkfs_config) : Z :=
  u64 (SIZE_ALIGN (SIZE_ALIGN F2FS_MAX_SEGMENT SIT_ENTRY_PER_BLOCK) (mc_blks_per_seg c) *
       mc_blks_per_seg c) / 8.
Definition round_up (x y : Z) : Z := u32 (x + y - 1) / y.

(** Results of a part: [None] is [return -1]. *)
Definition obind {A B} (m : res (option A)) (f : A -> res (option B)) : res (option B) :=
  m ≫= fun o => match o with Some a => f a | None => Ok None end.
#[local] Notation "x <-? m ; k" := (obind m (fun x => k)) (at level 100, m at level 90, k at level 200).

(** * Devices and segment 0 (the first part of [f2fs_prepare_super_block]) *)

Record dev_layout := {
  dl_total_segments : Z;
  dl_start_blkaddr : Z;
  dl_end_blkaddr : Z
}.

Record sizes := {
  sz_log_sectorsize : Z; sz_log_sectors_per_block : Z; sz_log_blocksize : Z; sz_log_blks_per_seg : Z;
  sz_blk_size_bytes : Z; sz_segment_size_bytes : Z; sz_zone_size_bytes : Z
}.

Definition mkfs_sizes (c : mkfs_config) : res sizes :=
  log_sectorsize ← log_base_2 (mc_sector_size c);
  log_sectors_per_block ← log_base_2 (mc_sectors_per_blk c);
  log_blks_per_seg ← log_base_2 (mc_blks_per_seg c);
  let log_sectorsize := u32 log_sectorsize in
  let log_sectors_per_block := u32 log_sectors_per_block in
  let log_blocksize := u32 (log_sectorsize + log_sectors_per_block) in
  let log_blks_per_seg := u32 log_blks_per_seg in
  _ ← defined_ (log_blocksize <? 31);
  let blk_size_bytes := Z.shiftl 1 log_blocksize in
  Ok {| sz_log_sectorsize := log_sectorsize; sz_log_sectors_per_block := log_sectors_per_block;
        sz_log_blocksize := log_blocksize; sz_log_blks_per_seg := log_blks_per_seg;
        sz_blk_size_bytes := blk_size_bytes;
        sz_segment_size_bytes := u32 (blk_size_bytes * mc_blks_per_seg c);
        sz_zone_size_bytes := u32 (blk_size_bytes * mc_secs_per_zone c * mc_segs_per_sec c *
                                   mc_blks_per_seg c) |}.

(** [zone_align_start_offset] *)
Definition mkfs_zone_align (c : mkfs_config) (sz : sizes) : res (option Z) :=
  let zone := sz_zone_size_bytes sz in
  _ ← defined_ (negb (zone =? 0));
  let start := mc_start_sector c * DEFAULT_SECTOR_SIZE in
  let z := u64 (u64 (u64 (start + 2 * F2FS_BLKSIZE + zone - 1) / zone * zone) - start) in
  let z := if has_feature (mc_feature c) F2FS_FEATURE_RO then 8192 else z in
  if negb (mc_start_sector c mod DEFAULT_SECTORS_PER_BLOCK =? 0) && mc_zoned_mode c then Ok None
  else if mc_zoned_mode c && (1 <? Z.of_nat (List.length (mc_devices c))) then
    d0 ← rd (mc_devices c) 0;
    Ok (Some (u64 (z + u64 (md_total_sectors d0 * mc_sector_size c) mod zone)))
  else Ok (Some z).

(** The loop over the devices: the first one starts with the superblocks, the
    others are used whole. *)
Definition mkfs_dev0 (c : mkfs_config) (sz : sizes) (z segment0 : Z) (d : mkfs_device) : res dev_layout :=
  _ ← defined_ (negb (sz_segment_size_bytes sz =? 0));
  let segs := u32 (u64 (u64 (md_total_sectors d * mc_sector_size c) - z) / sz_segment_size_bytes sz) in
  Ok {| dl_total_segments := segs; dl_start_blkaddr := 0;
        dl_end_blkaddr := u32 (segs * mc_blks_per_seg c - 1 + segment0) |}.

Fixpoint mkfs_devs (c : mkfs_config) (prev_end : Z) (devs : list mkfs_device) : res (list dev_layout) :=
  match devs with
  | [] => Ok []
  | d :: devs =>
      let per_seg := u32 (mc_sectors_per_blk c * mc_blks_per_seg c) in
      _ ← defined_ (negb (per_seg =? 0));
      let segs := u32 (md_total_sectors d / per_seg) in
      let start := u64 (prev_end + 1) in
      let l := {| dl_total_segments := segs; dl_start_blkaddr := start;
                  dl_end_blkaddr := u64 (start + u32 (segs * mc_blks_per_seg c) - 1) |} in
      ls ← mkfs_devs c (dl_end_blkaddr l) devs;
      Ok (l :: ls)
  end.

Definition mkfs_device_layout (c : mkfs_config) (sz : sizes) (z segment0 : Z) : res (list dev_layout) :=
  match mc_devices c with
  | [] => Ok []
  | d :: devs =>
      l ← mkfs_dev0 c sz z segment0 d;
      ls ← mkfs_devs c (dl_end_blkaddr l) devs;
      Ok (l :: ls)
  end.

(** The device table of the superblock: filled for several devices only. *)
Definition mkfs_sb_devs (c : mkfs_config) (ls : list dev_layout) : list f2fs_device :=
  if 1 <? Z.of_nat (List.length (mc_devices c)) then
    zip_with (fun d l => mk_device (take 64 (md_path d)) (dl_total_segments l)) (mc_devices c) ls ++
    replicate (MAX_DEVICES - List.length (mc_devices c)) (mk_device (replicate 64 0) 0)
  else replicate MAX_DEVICES (mk_device (replicate 64 0) 0).

(** Alignment of the sequential zones of a zoned device. *)
Definition mkfs_zone_unaligned (c : mkfs_config) (segment0 : Z) : res bool :=
  if mc_zoned_mode c then
    _ ← defined_ (negb (mc_zone_blocks c =? 0));
    if Z.of_nat (List.length (mc_devices c)) =? 1
    then Ok (negb (u32 (segment0 + mc_start_sector c / DEFAULT_SECTORS_PER_BLOCK)
                    mod mc_zone_blocks c =? 0))
    else d1 ← rd (mc_devices c) 1; Ok (negb (md_start_blkaddr d1 mod mc_zone_blocks c =? 0))
  else Ok false.

(** * The metadata areas *)

Record areas := {
  ar_segment_count : Z; ar_ckpt : Z; ar_sit : Z; ar_nat : Z; ar_ssa : Z;
  ar_sit_blkaddr : Z; ar_nat_blkaddr : Z; ar_ssa_blkaddr : Z; ar_main_blkaddr : Z;
  ar_cp_payload : Z; ar_total_meta_zones : Z
}.

(** The NAT: its segments (already doubled) and [cp_payload], from the segments
    of the volume and of the SIT. *)
Definition mkfs_nat (c : mkfs_config) (log_blks_per_seg segment_count ckpt sit : Z) : Z * Z :=
  let bps := mc_blks_per_seg c in
  let total_valid_blks_available := u32 (u32 (segment_count - u32 (ckpt + sit)) * bps) in
  let blocks_for_nat := u32 (SIZE_ALIGN total_valid_blks_available NAT_ENTRY_PER_BLOCK) in
  let sit_bitmap_size := u32 (Z.shiftl (sit / 2) log_blks_per_seg) / 8 in
  let max_sit_bitmap_size :=
    if MAX_SIT_BITMAP_SIZE c <? sit_bitmap_size then MAX_SIT_BITMAP_SIZE c else sit_bitmap_size in
  if mc_large_nat_bitmap c then
    let nat_segments := u32 (SEG_ALIGN c blocks_for_nat * DEFAULT_NAT_ENTRY_RATIO) / 100 in
    let nat := if nat_segments =? 0 then 1 else nat_segments in
    let max_nat_bitmap_size := u32 (Z.shiftl nat log_blks_per_seg) / 8 in
    let payload :=
      if MAX_BITMAP_SIZE_IN_CKPT <? u32 (max_sit_bitmap_size + max_nat_bitmap_size)
      then F2FS_BLK_ALIGN (u32 (max_sit_bitmap_size + max_nat_bitmap_size - MAX_BITMAP_SIZE_IN_CKPT))
      else 0 in
    (u32 (nat * 2), payload)
  else
    let nat := SEG_ALIGN c blocks_for_nat in
    let '(max_nat_bitmap_size, payload) :=
      if MAX_SIT_BITMAP_SIZE_IN_CKPT <? max_sit_bitmap_size
      then (MAX_BITMAP_SIZE_IN_CKPT, F2FS_BLK_ALIGN max_sit_bitmap_size)
      else (u32 (MAX_BITMAP_SIZE_IN_CKPT - max_sit_bitmap_size), 0) in
    let max_nat_segments := Z.shiftr (u32 (max_nat_bitmap_size * 8)) log_blks_per_seg in
    let nat := if max_nat_segments <? nat then max_nat_segments else nat in
    (u32 (nat * 2), payload).

Definition mkfs_areas (c : mkfs_config) (log_blks_per_seg segment0 total_segments : Z) : res areas :=
  let bps := mc_blks_per_seg c in
  let spz := mc_segs_per_zone c in
  _ ← defined_ (negb (spz =? 0) && negb (bps =? 0) && negb (u32 (bps * spz) =? 0) &&
                (log_blks_per_seg <? 32));
  let segment_count := u32 (total_segments / spz * spz) in
  let ckpt := F2FS_NUMBER_OF_CHECKPOINT_PACK in
  let sit_blkaddr := u32 (segment0 + ckpt * bps) in
  let blocks_for_sit := u32 (SIZE_ALIGN segment_count SIT_ENTRY_PER_BLOCK) in
  let sit := u32 (SEG_ALIGN c blocks_for_sit * 2) in
  let nat_blkaddr := u32 (sit_blkaddr + sit * bps) in
  let '(nat, payload) := mkfs_nat c log_blks_per_seg segment_count ckpt sit in
  let ssa_blkaddr := u32 (nat_blkaddr + nat * bps) in
  let total_valid_blks_available := u32 (u32 (segment_count - u32 (ckpt + sit + nat)) * bps) in
  let blocks_for_ssa := if has_feature (mc_feature c) F2FS_FEATURE_RO then 0
                        else u32 (total_valid_blks_available / bps + 1) in
  let ssa := SEG_ALIGN c blocks_for_ssa in
  let total_meta_segments := u32 (ckpt + sit + nat + ssa) in
  let diff := total_meta_segments mod spz in
  let ssa := if negb (diff =? 0) then u32 (ssa + (spz - diff)) else ssa in
  let total_meta_zones := u64 (total_meta_segments * bps + u32 (bps * spz) - 1) / u32 (bps * spz) in
  Ok {| ar_segment_count := segment_count; ar_ckpt := ckpt; ar_sit := sit; ar_nat := nat; ar_ssa := ssa;
        ar_sit_blkaddr := sit_blkaddr; ar_nat_blkaddr := nat_blkaddr; ar_ssa_blkaddr := ssa_blkaddr;
        ar_main_blkaddr := u32 (segment0 + total_meta_zones * spz * bps);
        ar_cp_payload := payload; ar_total_meta_zones := total_meta_zones |}.

(** Space for the metadata on a zoned device. *)
Definition mkfs_zoned_too_small (c : mkfs_config) (ls : list dev_layout) (main_blkaddr : Z) : bool :=
  mc_zoned_mode c &&
  (match mc_devices c with
   | d0 :: _ => md_zoned_hm d0 && (md_nr_rnd_zones d0 <? main_blkaddr / mc_zone_blocks c)
   | [] => false
   end ||
   existsb (fun '(d, l) => md_zoned_hm d && (dl_start_blkaddr l <? main_blkaddr))
     (tail (zip (mc_devices c) ls))).

(** * Over-provisioning, in binary64 *)

Definition dbl_of_Z (z : Z) : spec_float := binary_normalize 53 1024 z 0 false.
#[local] Notation "a ⊕ b" := (SFadd 53 1024 a b) (at level 50, left associativity).
#[local] Notation "a ⊖ b" := (SFsub 53 1024 a b) (at level 50, left associativity).
#[local] Notation "a ⊗ b" := (SFmul 53 1024 a b) (at level 40, left associativity).
#[local] Notation "a ⊘ b" := (SFdiv 53 1024 a b) (at level 40, left associativity).

(** The double nearest to 0.01. *)
Definition dbl_0_01 : spec_float := S754_finite false 5764607523034235 (-59).

(** Conversion of a [double] to [uint32_t]: towards zero, undefined out of range. *)
Definition dbl_to_u32 (x : spec_float) : res Z :=
  match x with
  | S754_zero _ => Ok 0
  | S754_finite s m e =>
      let z := Z.shiftl (Zpos m) e in
      if (s : bool) && (0 <? z) then Oob else if z <? 2 ^ 32 then Ok z else Oob
  | _ => Oob
  end.

(** [(2 * (100 / candidate + 1) + 6) * round_up(usable, section_count)] *)
Definition reserved_dbl (ovp : spec_float) (per_sec : Z) : spec_float :=
  (dbl_of_Z 2 ⊗ (dbl_of_Z 100 ⊘ ovp ⊕ dbl_of_Z 1) ⊕ dbl_of_Z NR_CURSEG_TYPE) ⊗ dbl_of_Z per_sec.

Fixpoint best_overprovision_loop (fuel : nat) (candidate stop diff : spec_float) (usable per_sec : Z)
    (max_ovp max_space : spec_float) : res spec_float :=
  match fuel with
  | O => NoFuel
  | S fuel =>
      if SFleb candidate stop then
        let reserved := reserved_dbl candidate per_sec in
        let ovp := (dbl_of_Z usable ⊖ reserved) ⊗ candidate ⊘ dbl_of_Z 100 in
        let space := dbl_of_Z usable ⊖ reserved ⊖ ovp in
        let better := SFltb max_space space in
        best_overprovision_loop fuel (candidate ⊕ diff) stop diff usable per_sec
          (if better then candidate else max_ovp) (if better then space else max_space)
      else Ok max_ovp
  end.

(** [get_best_overprovision]: 18 or about 1000 candidates. *)
Definition get_best_overprovision (segment_count_main section_count : Z) : res spec_float :=
  _ ← defined_ (negb (section_count =? 0));
  let per_sec := round_up segment_count_main section_count in
  let zero := S754_zero false in
  if segment_count_main <? 256
  then best_overprovision_loop 1100 (dbl_of_Z 10) (dbl_of_Z 95) (dbl_of_Z 5)
         segment_count_main per_sec zero zero
  else best_overprovision_loop 1100 dbl_0_01 (dbl_of_Z 10) dbl_0_01
         segment_count_main per_sec zero zero.

(** The over-provisioning ratio and the reserved segments, or too small. *)
Definition mkfs_reserved (c : mkfs_config) (segment_count_main section_count total_segments z : Z)
    : res (option (spec_float * Z)) :=
  ovp ← (if SFeqb (mc_overprovision c) (S754_zero false)
         then get_best_overprovision segment_count_main section_count
         else Ok (mc_overprovision c));
  _ ← defined_ (negb (section_count =? 0));
  reserved ← dbl_to_u32 (reserved_dbl ovp (round_up segment_count_main section_count));
  let ro := has_feature (mc_feature c) F2FS_FEATURE_RO in
  let ovp := if ro then S754_zero false else ovp in
  let reserved := if ro then 0 else reserved in
  d0 ← rd (mc_devices c) 0;
  if (negb ro && SFeqb ovp (S754_zero false)) || (total_segments <? F2FS_MIN_SEGMENTS) ||
     (u64 (md_total_sectors d0 * mc_sector_size c) <? z) ||
     (u32 (segment_count_main - NR_CURSEG_TYPE) <? reserved)
  then Ok None else Ok (Some (ovp, reserved)).

(** * The active segments *)

(** In the order of the enumeration: hot, warm and cold data, hot, warm and
    cold node. *)
Definition mkfs_cur_seg (c : mkfs_config) (total_zones : Z) : list Z :=
  let spz := mc_segs_per_zone c in
  let next x := u32 (x + spz) in
  let prev x := u32 (x - spz) in
  let last_zone x := u32 (u32 (x - 1) * spz) in
  let last_section x := u32 (x + u32 (u32 (mc_secs_per_zone c - 1) * mc_segs_per_sec c)) in
  if has_feature (mc_feature c) F2FS_FEATURE_RO then [1; 0; 0; 0; 0; 0]
  else if mc_heap c then
    let hot_node := last_section (last_zone total_zones) in
    let warm_node := prev hot_node in
    let cold_node := prev warm_node in
    let hot_data := prev cold_node in
    [hot_data; next 0; 0; hot_node; warm_node; cold_node]
  else if mc_zoned_mode c then
    let warm_node := next 0 in
    let cold_node := next warm_node in
    let hot_data := next cold_node in
    let warm_data := next hot_data in
    [hot_data; warm_data; next warm_data; 0; warm_node; cold_node]
  else
    let warm_node := next 0 in
    let cold_node := next warm_node in
    let hot_data := next cold_node in
    let cold_data := Z.max (last_zone (Z.shiftr total_zones 2)) (next hot_data) in
    let warm_data := Z.max (last_zone (Z.shiftr total_zones 1)) (next cold_data) in
    [hot_data; warm_data; cold_data; 0; warm_node; cold_node].

(** [verify_cur_segs]: two equal ones make all six be assigned anew. *)
Fixpoint has_dup (l : list Z) : bool :=
  match l with [] => false | x :: l => existsb (Z.eqb x) l || has_dup l end.
Fixpoint zones_from (spz : Z) (n : nat) (x : Z) : list Z :=
  match n with O => [] | S n => x :: zones_from spz n (u32 (x + spz)) end.
Definition verify_cur_segs (c : mkfs_config) (cur_seg : list Z) : list Z :=
  if has_dup cur_seg then zones_from (mc_segs_per_zone c) 6 0 else cur_seg.

(** * The extension list *)

Definition str (s : string) : list Z := map (fun a => Z.of_N (N_of_ascii a)) (list_ascii_of_string s).

Definition media_ext_lists : list (list Z) := map str [
  "mp"; "wm"; "og"; "jp"; "avi"; "m4v"; "m4p"; "mkv"; "mov"; "webm"; "wav"; "m4a"; "3gp"; "opus"; "flac";
  "gif"; "png"; "svg"; "webp"; "jar"; "deb"; "iso"; "gz"; "xz"; "zst"; "pdf"; "pyc"; "ttc"; "ttf"; "exe";
  "apk"; "cnt"; "exo"; "odex"; "vdex"; "so"]%string.

Definition hot_ext_lists : list (list Z) := map str ["db"; "vmdk"; "vdi"; "qcow2"]%string.

Definition F2FS_EXTENSION_LEN : Z := 8.

(** The C string at the start of a buffer. *)
Fixpoint cstr (l : list Z) : list Z :=
  match l with [] => [] | x :: l => if x =? 0 then [] else x :: cstr l end.

Definition is_extension_exist (exts : list (list Z)) (name : list Z) : bool :=
  existsb (fun e => bool_decide (cstr e = name)) exts.

(** [memcpy(sb->extension_list[pos++], name, name_len)] *)
Definition add_extension (exts : list (list Z)) (pos : Z) (name : list Z) : res (list (list Z)) :=
  e ← rd exts pos;
  e ← wr_list e 0 name;
  wr exts pos e.

Fixpoint add_default_exts (exts : list (list Z)) (pos : Z) (names : list (list Z))
    : res (list (list Z) * Z) :=
  match names with
  | [] => Ok (exts, pos)
  | n :: names => exts ← add_extension exts pos n; add_default_exts exts (pos + 1) names
  end.

(** [strtok(ext_str, ", ")], all the tokens. *)
Fixpoint tokens (cur l : list Z) : list (list Z) :=
  let flush := match cur with [] => [] | _ => [cur] end in
  match l with
  | [] => flush
  | x :: l => if (x =? 44) || (x =? 32) then flush ++ tokens [] l else tokens (cur ++ [x]) l
  end.

Fixpoint add_user_exts (exts : list (list Z)) (pos : Z) (names : list (list Z))
    : res (list (list Z) * Z) :=
  match names with
  | [] => Ok (exts, pos)
  | ue :: names =>
      r ← (if (F2FS_EXTENSION_LEN <=? Z.of_nat (List.length ue)) || is_extension_exist exts ue
           then Ok (exts, pos)
           else exts ← add_extension exts pos ue; Ok (exts, pos + 1));
      let '(exts, pos) := r in
      if F2FS_MAX_EXTENSION <=? pos then Ok (exts, pos) else add_user_exts exts pos names
  end.

(** [cure_extension_list]: the list, [extension_count] and [hot_ext_count]. *)
Definition cure_extension_list (user_media user_hot : option (list Z))
    : res (list (list Z) * Z * Z) :=
  let add_user exts pos user :=
    match user with Some s => add_user_exts exts pos (tokens [] s) | None => Ok (exts, pos) end in
  r ← add_default_exts (replicate 64 (replicate 8 0)) 0 media_ext_lists;
  r ← add_user r.1 r.2 user_media;
  let extension_count := r.2 in
  r ← add_default_exts r.1 r.2 hot_ext_lists;
  r ← add_user r.1 r.2 user_hot;
  Ok (r.1, extension_count, u8 (r.2 - extension_count)).

(** * The whole function *)

Record mkfs_result := {
  mr_sb : f2fs_super_block;
  mr_cur_seg : list Z;
  mr_overprovision : spec_float;
  mr_reserved_segments : Z;
  mr_total_segments : Z;
  mr_total_zones : Z;
  mr_next_free_nid : Z;
  mr_lpf_ino : option Z
}.

Definition F2FS_FEATURE_LOST_FOUND : Z := 0x0200.
Definition F2FS_FEATURE_CASEFOLD : Z := 0x1000.
Definition F2FS_MAJOR_VERSION : Z := 1.
Definition F2FS_MINOR_VERSION : Z := 15.

(** Inode numbers of the quota files: one per requested type, from 4 on. *)
Fixpoint quota_inos (qtypes : list Z) (quota_bits nid : Z) : list Z * Z :=
  match qtypes with
  | [] => ([], nid)
  | q :: qs =>
      if Z.land (Z.shiftl 1 q) quota_bits =? 0
      then let '(l, n) := quota_inos qs quota_bits nid in (0 :: l, n)
      else let '(l, n) := quota_inos qs quota_bits (nid + 1) in (nid :: l, n)
  end.

Definition f2fs_prepare_super_block (c : mkfs_config) : res (option mkfs_result) :=
  sz ← mkfs_sizes c;
  z <-? mkfs_zone_align c sz;
  let segment0 := u32 (z / sz_blk_size_bytes sz) in
  unaligned ← mkfs_zone_unaligned c segment0;
  if unaligned : bool then Ok None else
  ls ← mkfs_device_layout c sz z segment0;
  let total_segments :=
    fold_left (fun t l => u32 (t + dl_total_segments l)) ls (mc_total_segments c) in
  ar ← mkfs_areas c (sz_log_blks_per_seg sz) segment0 total_segments;
  if mkfs_zoned_too_small c ls (ar_main_blkaddr ar) then Ok None else
  let total_zones := u32 (ar_segment_count ar / mc_segs_per_zone c - ar_total_meta_zones ar) in
  if total_zones =? 0 then Ok None else
  let section_count := u32 (total_zones * mc_secs_per_zone c) in
  let segment_count_main := u32 (section_count * mc_segs_per_sec c) in
  rsv <-? mkfs_reserved c segment_count_main section_count total_segments z;
  uuid <-? Ok (mc_uuid c);
  name ← utf8_to_utf16 (replicate 512 0) (mc_vol_label c) 512 (Z.of_nat (List.length (mc_vol_label c)));
  let '(qf_ino, next_free_nid) := quota_inos [0; 1; 2] (mc_quota_bits c) 4 in
  let lpf := has_feature (mc_feature c) F2FS_FEATURE_LOST_FOUND in
  if total_zones <=? (if has_feature (mc_feature c) F2FS_FEATURE_RO then 2 else 6) then Ok None else
  let cur_seg := mkfs_cur_seg c total_zones in
  let cur_seg := if has_feature (mc_feature c) F2FS_FEATURE_RO then cur_seg
                 else verify_cur_segs c cur_seg in
  ext ← cure_extension_list (mc_ext_media c) (mc_ext_hot c);
  let casefold := has_feature (mc_feature c) F2FS_FEATURE_CASEFOLD in
  let chksum := has_feature (mc_feature c) F2FS_FEATURE_SB_CHKSUM in
  let sb := {|
    sb_magic := F2FS_SUPER_MAGIC; sb_major_ver := F2FS_MAJOR_VERSION; sb_minor_ver := F2FS_MINOR_VERSION;
    sb_log_sectorsize := sz_log_sectorsize sz; sb_log_sectors_per_block := sz_log_sectors_per_block sz;
    sb_log_blocksize := sz_log_blocksize sz; sb_log_blocks_per_seg := sz_log_blks_per_seg sz;
    sb_segs_per_sec := mc_segs_per_sec c; sb_secs_per_zone := mc_secs_per_zone c;
    sb_checksum_offset := if chksum then SB_CHKSUM_OFFSET else 0;
    sb_block_count := Z.shiftr (mc_total_sectors c) (sz_log_sectors_per_block sz);
    sb_section_count := section_count; sb_segment_count := ar_segment_count ar;
    sb_segment_count_ckpt := ar_ckpt ar; sb_segment_count_sit := ar_sit ar;
    sb_segment_count_nat := ar_nat ar; sb_segment_count_ssa := ar_ssa ar;
    sb_segment_count_main := segment_count_main; sb_segment0_blkaddr := segment0;
    sb_cp_blkaddr := segment0; sb_sit_blkaddr := ar_sit_blkaddr ar; sb_nat_blkaddr := ar_nat_blkaddr ar;
    sb_ssa_blkaddr := ar_ssa_blkaddr ar; sb_main_blkaddr := ar_main_blkaddr ar;
    sb_root_ino := 3; sb_node_ino := 1; sb_meta_ino := 2; sb_uuid := uuid; sb_volume_name := name.2;
    sb_extension_count := ext.1.2; sb_extension_list := ext.1.1; sb_cp_payload := ar_cp_payload ar;
    sb_version := take 256 (mc_version c); sb_init_version := take 256 (mc_version c);
    sb_feature := mc_feature c; sb_encryption_level := 0; sb_encrypt_pw_salt := replicate 16 0;
    sb_devs := mkfs_sb_devs c ls; sb_qf_ino := qf_ino; sb_hot_ext_count := ext.2;
    sb_s_encoding := if casefold then mc_s_encoding c else 0;
    sb_s_encoding_flags := if casefold then mc_s_encoding_flags c else 0;
    sb_reserved := replicate 306 0; sb_crc := 0 |} in
  sb ← (if chksum then crc ← f2fs_cal_crc32 F2FS_SUPER_MAGIC (sb_bytes sb) 0 SB_CHKSUM_OFFSET;
                       Ok (set_sb_crc sb crc)
        else Ok sb);
  Ok (Some {| mr_sb := sb; mr_cur_seg := cur_seg; mr_overprovision := rsv.1;
              mr_reserved_segments := rsv.2; mr_total_segments := total_segments;
              mr_total_zones := total_zones;
              mr_next_free_nid := if lpf then next_free_nid + 1 else next_free_nid;
              mr_lpf_ino := if lpf then Some next_free_nid else None |}).

Definition sample_mkfs (segs_per_sec total_sectors : Z) : mkfs_config := {|
  mc_sector_size := 512; mc_sectors_per_blk := 8; mc_blks_per_seg := 512;
  mc_segs_per_sec := segs_per_sec; mc_secs_per_zone := 1; mc_segs_per_zone := segs_per_sec;
  mc_start_sector := 0; mc_total_sectors := total_sectors; mc_total_segments := 0; mc_feature := 0;
  mc_zoned_mode := false; mc_zone_blocks := 0; mc_large_nat_bitmap := false; mc_heap := false;
  mc_overprovision := S754_zero false;
  mc_devices := [{| md_path := []; md_total_sectors := total_sectors; md_start_blkaddr := 0;
                    md_zoned_hm := false; md_nr_rnd_zones := 0 |}];
  mc_quota_bits := 0; mc_vol_label := []; mc_ext_media := None; mc_ext_hot := None;
  mc_s_encoding := 0; mc_s_encoding_flags := 0; mc_uuid := Some (replicate 16 7);
  mc_version := replicate 256 0 |}.

(** * The layout of the areas *)

Lemma ceil_div_zone m spz : 0 <= m < 2 ^ 40 -> 0 < spz -> 512 * spz < 2 ^ 32 ->
  let zones := u64 (m * 512 + u32 (512 * spz) - 1) / u32 (512 * spz) in
  m + (if negb (m mod spz =? 0) then spz - m mod spz else 0) = zones * spz /\ 0 <= zones <= m.
Proof.
  intros Hm Hs Hz. rewrite u32_id by (unfold is_u32; lia). rewrite u64_id by (unfold is_u64; lia).
  pose proof (Z.div_mod m spz ltac:(lia)) as Hdm. pose proof (Z.mod_pos_bound m spz Hs) as Hr.
  set (q := m / spz) in *. set (r := m mod spz) in *.
  assert (0 <= q) by (apply Z.div_pos; lia).
  assert ((m * 512 + 512 * spz - 1) / (512 * spz) = q + (if r =? 0 then 0 else 1)) as Hq.
  { symmetry. destruct (Z.eqb_spec r 0) as [E|E].
    - apply (Z.div_unique _ _ _ (512 * spz - 1)); nia.
    - apply (Z.div_unique _ _ _ (512 * r - 1)); nia. }
  cbv zeta. rewrite Hq. destruct (Z.eqb_spec r 0); cbn [negb]; split; nia.
Qed.

Lemma SEG_ALIGN_range c b : mc_blks_per_seg c = 512 -> 0 <= SEG_ALIGN c b < 2 ^ 23.
Proof.
  intros Hb. unfold SEG_ALIGN. rewrite Hb. destruct (u32_range (b + 512 - 1)) as [? ?].
  split; [apply Z.div_pos; lia|apply Z.div_lt_upper_bound; lia].
Qed.

Lemma mkfs_nat_range c segment_count ckpt sit :
  mc_blks_per_seg c = 512 -> 0 <= (mkfs_nat c 9 segment_count ckpt sit).1 < 2 ^ 27.
Proof.
  intros Hb. unfold mkfs_nat. destruct (mc_large_nat_bitmap c); cbn [fst].
  - set (x := u32 (SEG_ALIGN c _ * DEFAULT_NAT_ENTRY_RATIO)).
    assert (0 <= x / 100 < 42949673) as Hx.
    { pose proof (u32_range (SEG_ALIGN c (u32 (SIZE_ALIGN (u32 (u32 (segment_count - u32 (ckpt + sit)) *
        mc_blks_per_seg c)) NAT_ENTRY_PER_BLOCK)) * DEFAULT_NAT_ENTRY_RATIO)) as Hr.
      change (is_u32 x) in Hr. unfold is_u32 in Hr.
      split; [apply Z.div_pos; lia|apply Z.div_lt_upper_bound; lia]. }
    destruct (x / 100 =? 0); rewrite u32_id; unfold is_u32; lia.
  - destruct (MAX_SIT_BITMAP_SIZE_IN_CKPT <? _); cbn [fst];
    match goal with |- context [SEG_ALIGN c ?b] => pose proof (SEG_ALIGN_range c b Hb) end;
    match goal with |- context [Z.shiftr ?a ?b] => assert (0 <= Z.shiftr a b)
      by (apply Z.shiftr_nonneg, u32_range) end;
    match goal with |- context [if ?b then _ else _] => destruct b eqn:? end;
    rewrite u32_id; unfold is_u32; lia.
Qed.

(** The areas fill whole zones and lie one after the other. *)
Lemma mkfs_areas_ok c segment0 total_segments ar :
  mc_blks_per_seg c = 512 -> 0 < mc_segs_per_zone c -> 512 * mc_segs_per_zone c < 2 ^ 32 ->
  0 <= segment0 -> 0 <= total_segments < 2 ^ 32 ->
  mkfs_areas c 9 segment0 total_segments = Ok ar ->
  ar_total_meta_zones ar <= ar_segment_count ar / mc_segs_per_zone c ->
  segment0 + 512 * ar_segment_count ar < 2 ^ 32 ->
  ar_segment_count ar = total_segments / mc_segs_per_zone c * mc_segs_per_zone c /\
  ar_ckpt ar = 2 /\ 0 <= ar_sit ar /\ 0 <= ar_nat ar /\ 0 <= ar_ssa ar /\ 0 <= ar_total_meta_zones ar /\
  ar_ckpt ar + ar_sit ar + ar_nat ar + ar_ssa ar = ar_total_meta_zones ar * mc_segs_per_zone c /\
  ar_total_meta_zones ar * mc_segs_per_zone c <= ar_segment_count ar /\
  ar_sit_blkaddr ar = segment0 + 512 * ar_ckpt ar /\
  ar_nat_blkaddr ar = ar_sit_blkaddr ar + 512 * ar_sit ar /\
  ar_ssa_blkaddr ar = ar_nat_blkaddr ar + 512 * ar_nat ar /\
  ar_main_blkaddr ar = ar_ssa_blkaddr ar + 512 * ar_ssa ar.
Proof.
  intros Hb Hs Hz H0 Ht. unfold mkfs_areas. rewrite Hb.
  destruct (negb _ && _ && _ && _); cbn [defined_ mbind res_bind]; [|done].
  set (spz := mc_segs_per_zone c) in *.
  assert (0 <= total_segments / spz * spz <= total_segments) as HS.
  { pose proof (Z.mul_div_le total_segments spz Hs). pose proof (Z.div_pos total_segments spz). lia. }
  rewrite (u32_id (total_segments / spz * spz)) by (unfold is_u32; lia).
  set (S := total_segments / spz * spz) in *.
  assert (forall b, 0 <= SEG_ALIGN c b < 2 ^ 23) as Hseg by (intros; by apply SEG_ALIGN_range).
  set (sit := u32 (SEG_ALIGN c _ * 2)).
  assert (0 <= sit < 2 ^ 24) as Hsit.
  { unfold sit. match goal with |- context [SEG_ALIGN c ?b] => pose proof (Hseg b) end.
    rewrite u32_id; unfold is_u32; lia. }
  pose proof (mkfs_nat_range c S F2FS_NUMBER_OF_CHECKPOINT_PACK sit Hb) as Hn.
  destruct (mkfs_nat c 9 S F2FS_NUMBER_OF_CHECKPOINT_PACK sit) as [nat payload]. cbn [fst] in Hn.
  set (ssa := SEG_ALIGN c _). assert (0 <= ssa < 2 ^ 23) as Hssa by apply Hseg.
  clearbody sit ssa S. unfold F2FS_NUMBER_OF_CHECKPOINT_PACK.
  rewrite (u32_id (2 + sit + nat + ssa)) by (unfold is_u32; lia).
  intros <-%Ok_inj.
  cbn [ar_segment_count ar_ckpt ar_sit ar_nat ar_ssa ar_sit_blkaddr ar_nat_blkaddr ar_ssa_blkaddr
       ar_main_blkaddr ar_total_meta_zones].
  destruct (ceil_div_zone (2 + sit + nat + ssa) spz) as [Hsum Hzr]; [lia|done|done|].
  set (zones := u64 _ / _) in *. clearbody zones. intros Hzones Haddr.
  assert (zones * spz <= S) as Hfit.
  { apply Z.le_trans with (S / spz * spz); [nia|]. pose proof (Z.mul_div_le S spz Hs). lia. }
  set (m := (2 + sit + nat + ssa) mod spz) in *.
  assert (0 <= m < spz) as Hmr by (apply Z.mod_pos_bound; lia).
  assert ((if negb (m =? 0) then u32 (ssa + (spz - m)) else ssa) =
          ssa + (if negb (m =? 0) then spz - m else 0)) as ->.
  { destruct (negb (m =? 0)); [rewrite u32_id by (unfold is_u32; lia)|]; lia. }
  set (pad := if negb (m =? 0) then spz - m else 0) in *.
  assert (0 <= pad) by (unfold pad; destruct (negb (m =? 0)); lia).
  rewrite (u32_id (segment0 + 2 * 512)) by (unfold is_u32; lia).
  rewrite (u32_id (segment0 + 2 * 512 + sit * 512)) by (unfold is_u32; lia).
  rewrite (u32_id (segment0 + 2 * 512 + sit * 512 + nat * 512)) by (unfold is_u32; lia).
  rewrite (u32_id (segment0 + zones * spz * 512)) by (unfold is_u32; lia).
  split_and!; lia.
Qed.

(** * What a successful run says about the volume *)

(** A single device that is not zoned, with sectors of 512 to 4096 bytes, 4 KiB
    blocks, segments of 512 blocks and zones of less than 4 GiB, and less than
    16 TiB large. *)
Record mkfs_single (c : mkfs_config) : Prop := {
  ms_sector : (mc_sector_size c, mc_sectors_per_blk c) ∈ [(512, 8); (1024, 4); (2048, 2); (4096, 1)];
  ms_bps : mc_blks_per_seg c = 512;
  ms_segs : 0 < mc_segs_per_sec c;
  ms_secs : 0 < mc_secs_per_zone c;
  ms_spz : mc_segs_per_zone c = mc_secs_per_zone c * mc_segs_per_sec c;
  ms_zone : mc_segs_per_zone c < 2 ^ 11;
  ms_plain : mc_zoned_mode c = false /\ has_feature (mc_feature c) F2FS_FEATURE_RO = false;
  ms_start : 0 <= mc_start_sector c < 2 ^ 32;
  ms_fresh : mc_total_segments c = 0;
  ms_size : 0 <= mc_total_sectors c /\ mc_total_sectors c * mc_sector_size c < 2 ^ 44;
  ms_dev : exists d, mc_devices c = [d] /\ md_total_sectors d = mc_total_sectors c
}.

Lemma mkfs_sizes_ok c : mkfs_single c ->
  exists k, 0 <= k <= 3 /\ mc_sector_size c * 2 ^ k = 4096 /\
    mkfs_sizes c = Ok {| sz_log_sectorsize := 12 - k; sz_log_sectors_per_block := k;
      sz_log_blocksize := 12; sz_log_blks_per_seg := 9; sz_blk_size_bytes := 4096;
      sz_segment_size_bytes := 2 ^ 21; sz_zone_size_bytes := 2 ^ 21 * mc_segs_per_zone c |}.
Proof.
  intros Hc. pose proof (ms_sector c Hc) as Hs. pose proof (ms_bps c Hc) as Hb.
  pose proof (ms_spz c Hc) as Hz. pose proof (ms_zone c Hc). pose proof (ms_segs c Hc).
  pose proof (ms_secs c Hc). unfold mkfs_sizes. rewrite Hb.
  assert (forall k, Z.shiftl 1 12 * mc_secs_per_zone c * mc_segs_per_sec c * 512 = k ->
    u32 k = 2 ^ 21 * mc_segs_per_zone c) as Hk.
  { intros k <-. change (Z.shiftl 1 12) with 4096. rewrite u32_id by (unfold is_u32; nia). lia. }
  assert (log_base_2 512 = Ok 9) as Hl9 by reflexivity.
  repeat (apply elem_of_cons in Hs as [Hs|Hs]; [injection Hs as Hs1 Hs2; rewrite Hs1, Hs2|]);
    [exists 3|exists 2|exists 1|exists 0|by apply elem_of_nil in Hs];
    (split; [lia|]; split; [lia|]);
    match goal with |- context [log_base_2 ?a ≫= _] =>
      let r := eval vm_compute in (log_base_2 a) in change (log_base_2 a) with r end;
    cbn [mbind res_bind];
    match goal with |- context [log_base_2 ?a ≫= _] =>
      let r := eval vm_compute in (log_base_2 a) in change (log_base_2 a) with r end;
    cbn [mbind res_bind]; rewrite ?Hl9; cbn [mbind res_bind];
    match goal with |- context [Z.shiftl 1 ?x] => change x with 12 end;
    change (12 <? 31) with true; cbn [defined_ mbind res_bind];
    rewrite (Hk _ eq_refl); reflexivity.
Qed.

Lemma obind_Some {A B} (m : res (option A)) (f : A -> res (option B)) b :
  obind m f = Ok (Some b) <-> exists a, m = Ok (Some a) /\ f a = Ok (Some b).
Proof.
  unfold obind. rewrite res_bind_Ok. split.
  - intros ([a|] & Hm & Hf); [by exists a|done].
  - intros (a & Hm & Hf). by exists (Some a).
Qed.

Lemma add_default_exts_bound names : forall exts pos exts' pos',
  length exts = 64%nat -> pos <= 64 -> add_default_exts exts pos names = Ok (exts', pos') ->
  length exts' = 64%nat /\ pos <= pos' <= 64.
Proof.
  induction names as [|n names IH]; intros exts pos exts' pos' Hl Hp; cbn [add_default_exts].
  - intros [= <- <-]. lia.
  - intros (e & He & H)%res_bind_Ok. unfold add_extension in He.
    apply res_bind_Ok in He as (x & _ & He). apply res_bind_Ok in He as (y & _ & [Hr ->]%wr_Ok).
    apply IH in H as [? ?]; [lia|by rewrite length_insert|lia].
Qed.

Lemma add_user_exts_bound names : forall exts pos exts' pos',
  length exts = 64%nat -> pos <= 64 -> add_user_exts exts pos names = Ok (exts', pos') ->
  length exts' = 64%nat /\ pos <= pos' <= 64.
Proof.
  induction names as [|n names IH]; intros exts pos exts' pos' Hl Hp; cbn [add_user_exts].
  - intros [= <- <-]. lia.
  - intros ([e1 p1] & He & H)%res_bind_Ok.
    assert (length e1 = 64%nat /\ pos <= p1 <= 64) as [Hl1 Hp1].
    { destruct (_ || _) in He; [injection He as <- <-; lia|].
      apply res_bind_Ok in He as (e & He & [= <- <-]). unfold add_extension in He.
      apply res_bind_Ok in He as (x & _ & He). apply res_bind_Ok in He as (y & _ & [Hr ->]%wr_Ok).
      rewrite length_insert. lia. }
    destruct (F2FS_MAX_EXTENSION <=? p1); [injection H as <- <-; lia|].
    apply IH in H as [? ?]; [lia|done|lia].
Qed.

(** A run that stays inside the table leaves counts that add up to at most 64. *)
Lemma cure_extension_list_bound um uh exts n h :
  cure_extension_list um uh = Ok (exts, n, h) -> 0 <= n /\ 0 <= h /\ n + h <= F2FS_MAX_EXTENSION.
Proof.
  unfold cure_extension_list, F2FS_MAX_EXTENSION.
  intros ([e1 p1] & H1 & H)%res_bind_Ok. apply res_bind_Ok in H as ([e2 p2] & H2 & H).
  apply res_bind_Ok in H as ([e3 p3] & H3 & H). apply res_bind_Ok in H as ([e4 p4] & H4 & H).
  cbn [fst snd] in *. apply Ok_inj in H. injection H as _ <- <-.
  apply add_default_exts_bound in H1 as [L1 P1]; [|by rewrite length_replicate|lia].
  assert (length e2 = 64%nat /\ p1 <= p2 <= 64) as [L2 P2].
  { destruct um; [by apply add_user_exts_bound in H2; [|done|lia]|injection H2 as <- <-; lia]. }
  apply add_default_exts_bound in H3 as [L3 P3]; [|done|lia].
  assert (p3 <= p4 <= 64) as P4.
  { destruct uh; [apply add_user_exts_bound in H4; [lia|done|lia]|injection H4 as <- <-; lia]. }
  rewrite u8_id by (unfold is_u8; lia). lia.
Qed.

(** The parts of a successful run on a single device. *)
Record mkfs_run (c : mkfs_config) (r : mkfs_result) (k z : Z) (ar : areas) : Prop := {
  mk_k : 0 <= k <= 3 /\ mc_sector_size c * 2 ^ k = 4096;
  mk_z : 0 <= z <= mc_total_sectors c * mc_sector_size c;
  mk_ar : mkfs_areas c 9 (z / 4096) ((mc_total_sectors c * mc_sector_size c - z) / 2 ^ 21) = Ok ar;
  mk_zones : mr_total_zones r = u32 (ar_segment_count ar / mc_segs_per_zone c - ar_total_meta_zones ar);
  mk_avail : 6 < mr_total_zones r;
  mk_sizes : sb_log_sectorsize (mr_sb r) = 12 - k /\ sb_log_sectors_per_block (mr_sb r) = k /\
    sb_log_blocksize (mr_sb r) = 12 /\ sb_log_blocks_per_seg (mr_sb r) = 9;
  mk_geom : sb_segs_per_sec (mr_sb r) = mc_segs_per_sec c /\ sb_secs_per_zone (mr_sb r) = mc_secs_per_zone c /\
    sb_magic (mr_sb r) = F2FS_SUPER_MAGIC /\ sb_feature (mr_sb r) = mc_feature c /\
    sb_block_count (mr_sb r) = Z.shiftr (mc_total_sectors c) k;
  mk_main : sb_section_count (mr_sb r) = u32 (mr_total_zones r * mc_secs_per_zone c) /\
    sb_segment_count_main (mr_sb r) = u32 (sb_section_count (mr_sb r) * mc_segs_per_sec c);
  mk_areas : sb_segment_count (mr_sb r) = ar_segment_count ar /\ sb_segment_count_ckpt (mr_sb r) = ar_ckpt ar /\
    sb_segment_count_sit (mr_sb r) = ar_sit ar /\ sb_segment_count_nat (mr_sb r) = ar_nat ar /\
    sb_segment_count_ssa (mr_sb r) = ar_ssa ar /\ sb_cp_payload (mr_sb r) = ar_cp_payload ar;
  mk_addrs : sb_segment0_blkaddr (mr_sb r) = z / 4096 /\ sb_cp_blkaddr (mr_sb r) = z / 4096 /\
    sb_sit_blkaddr (mr_sb r) = ar_sit_blkaddr ar /\ sb_nat_blkaddr (mr_sb r) = ar_nat_blkaddr ar /\
    sb_ssa_blkaddr (mr_sb r) = ar_ssa_blkaddr ar /\ sb_main_blkaddr (mr_sb r) = ar_main_blkaddr ar;
  mk_inodes : sb_node_ino (mr_sb r) = 1 /\ sb_meta_ino (mr_sb r) = 2 /\ sb_root_ino (mr_sb r) = 3;
  mk_ext : 0 <= sb_extension_count (mr_sb r) /\ 0 <= sb_hot_ext_count (mr_sb r) /\
    sb_extension_count (mr_sb r) + sb_hot_ext_count (mr_sb r) <= F2FS_MAX_EXTENSION;
  mk_devs : sb_devs (mr_sb r) = replicate MAX_DEVICES (mk_device (replicate 64 0) 0);
  mk_cur : mr_cur_seg r = verify_cur_segs c (mkfs_cur_seg c (mr_total_zones r));
  mk_crc : has_feature (mc_feature c) F2FS_FEATURE_SB_CHKSUM = true ->
    sb_checksum_offset (mr_sb r) = SB_CHKSUM_OFFSET /\
    f2fs_cal_crc32 F2FS_SUPER_MAGIC (sb_bytes (set_sb_crc (mr_sb r) 0)) 0 SB_CHKSUM_OFFSET =
      Ok (sb_crc (mr_sb r))
}.

Lemma mkfs_reserved_fits c main sections total z x :
  mkfs_single c -> mkfs_reserved c main sections total z = Ok (Some x) ->
  z <= mc_total_sectors c * mc_sector_size c /\ F2FS_MIN_SEGMENTS <= total.
Proof.
  intros Hc. unfold mkfs_reserved. intros (ovp & _ & H)%res_bind_Ok.
  apply res_bind_Ok in H as (? & _ & H). apply res_bind_Ok in H as (rsv & _ & H).
  destruct (ms_dev c Hc) as (d & Hd & Hds). rewrite Hd in H.
  change (rd [d] 0) with (Ok d) in H. cbn [mbind res_bind] in H. rewrite Hds in H.
  destruct (_ || _) eqn:E in H; [done|]. repeat apply orb_false_elim in E as [E ?].
  destruct (ms_size c Hc) as [Hs0 Hs1].
  assert (0 < mc_sector_size c) as Hss.
  { pose proof (ms_sector c Hc) as Hs.
    repeat (apply elem_of_cons in Hs as [Hs|Hs]; [injection Hs as -> _; lia|]). by apply elem_of_nil in Hs. }
  assert (0 <= mc_total_sectors c * mc_sector_size c) by nia.
  rewrite u64_id in * by (unfold is_u64; lia). lia.
Qed.

(** A device without zones: where segment 0 starts. *)
Lemma mkfs_zone_align_plain c sz z :
  mkfs_single c -> mkfs_zone_align c sz = Ok (Some z) -> 0 <= z.
Proof.
  intros Hc. destruct (ms_plain c Hc) as [Hz Hro]. unfold mkfs_zone_align.
  intros (? & _ & H)%res_bind_Ok. rewrite Hz, Hro, andb_false_r in H. cbn [andb] in H.
  apply Ok_inj in H. injection H as <-. apply u64_range.
Qed.

Ltac by_parts := repeat match goal with |- _ /\ _ => split end; reflexivity.

Lemma mkfs_run_inv c r :
  mkfs_single c -> f2fs_prepare_super_block c = Ok (Some r) -> exists k z ar, mkfs_run c r k z ar.
Proof.
  intros Hc. destruct (mkfs_sizes_ok c Hc) as (k & Hk & Hk4 & Hsz).
  destruct (ms_dev c Hc) as (d & Hd & Hds). destruct (ms_plain c Hc) as [Hnz Hro].
  destruct (ms_size c Hc) as [Hs0 Hs1].
  unfold f2fs_prepare_super_block. rewrite Hsz. cbn [mbind res_bind].
  cbn [sz_blk_size_bytes sz_log_blks_per_seg sz_log_sectorsize sz_log_sectors_per_block sz_log_blocksize].
  intros (z & Hz & H)%obind_Some. pose proof (mkfs_zone_align_plain c _ z Hc Hz) as Hz0.
  apply res_bind_Ok in H as (un & Hun & H). unfold mkfs_zone_unaligned in Hun. rewrite Hnz in Hun.
  injection Hun as <-. apply res_bind_Ok in H as (ls & Hls & H).
  unfold mkfs_device_layout in Hls. rewrite Hd in Hls.
  apply res_bind_Ok in Hls as (l & Hl & Hls). cbn [mkfs_devs mbind res_bind] in Hls.
  apply Ok_inj in Hls as <-. unfold mkfs_dev0 in Hl. cbn [sz_segment_size_bytes] in Hl.
  apply res_bind_Ok in Hl as (? & _ & Hl). apply Ok_inj in Hl. cbn [fold_left] in H.
  assert (dl_total_segments l = u32 (u64 (u64 (md_total_sectors d * mc_sector_size c) - z) / 2 ^ 21)) as Hl'
    by (by rewrite <- Hl). rewrite Hl' in H. clear Hl Hl'.
  apply res_bind_Ok in H as (ar & Har & H). unfold mkfs_zoned_too_small in H. rewrite Hnz in H. cbn [andb] in H.
  destruct (Z.eqb_spec (u32 (ar_segment_count ar / mc_segs_per_zone c - ar_total_meta_zones ar)) 0); [done|].
  apply obind_Some in H as (rsv & Hrsv & H). apply (mkfs_reserved_fits c) in Hrsv as [Hz1 HT]; [|done].
  apply obind_Some in H as (uuid & _ & H). apply res_bind_Ok in H as (name & _ & H).
  destruct (quota_inos _ _ _) as [qf nid]. rewrite Hro in H.
  destruct (Z.leb_spec (u32 (ar_segment_count ar / mc_segs_per_zone c - ar_total_meta_zones ar)) 6) as [_|Hav]; [done|].
  apply res_bind_Ok in H as ([[exts ne] nh] & Hext & H). apply cure_extension_list_bound in Hext.
  apply res_bind_Ok in H as (sb & Hsb & H). apply Ok_inj in H. injection H as <-.
  exists k, z, ar. rewrite Hds, (ms_fresh c Hc) in Har.
  rewrite (u64_id (mc_total_sectors c * _)), (u64_id (_ - z)) in Har by (unfold is_u64; lia).
  assert (0 <= (mc_total_sectors c * mc_sector_size c - z) / 2 ^ 21 < 2 ^ 23) as HT2.
  { split; [apply Z.div_pos; lia|apply Z.div_lt_upper_bound; lia]. }
  assert (0 <= z / 4096 < 2 ^ 32) as Hz2.
  { split; [apply Z.div_pos; lia|apply Z.div_lt_upper_bound; lia]. }
  rewrite (u32_id (_ / 2 ^ 21)), Z.add_0_l, (u32_id (_ / 2 ^ 21)), (u32_id (z / 4096)) in Har
    by (unfold is_u32; lia).
  rewrite (u32_id (z / 4096)) in Hsb by (unfold is_u32; lia).
  assert (mkfs_sb_devs c [l] = replicate MAX_DEVICES (mk_device (replicate 64 0) 0)) as Hdv.
  { unfold mkfs_sb_devs. by rewrite Hd. }
  rewrite Hdv in Hsb. clear Hdv.
  destruct (has_feature (mc_feature c) F2FS_FEATURE_SB_CHKSUM) eqn:Hck.
  - apply res_bind_Ok in Hsb as (crc & Hcrc & Hsb). apply Ok_inj in Hsb as <-.
    split; cbn [mr_sb mr_total_zones mr_cur_seg];
      [exact (conj Hk Hk4)|exact (conj Hz0 Hz1)|exact Har|reflexivity|exact Hav|by_parts|by_parts|by_parts
      |by_parts|by_parts|by_parts|exact Hext|reflexivity|reflexivity|].
    intros _. split; [reflexivity|exact Hcrc].
  - apply Ok_inj in Hsb as <-. split; cbn [mr_sb mr_total_zones mr_cur_seg];
      [exact (conj Hk Hk4)|exact (conj Hz0 Hz1)|exact Har|reflexivity|exact Hav|by_parts|by_parts|by_parts
      |by_parts|by_parts|by_parts|exact Hext|reflexivity|reflexivity|].
    intros Hck'. by rewrite Hck in Hck'.
Qed.

Lemma div_range a n lo hi : 0 < n -> lo * n <= a < (hi + 1) * n -> lo <= a / n <= hi.
Proof.
  intros Hn H. split; [apply Z.div_le_lower_bound; lia|].
  assert (a / n < hi + 1); [|lia]. apply Z.div_lt_upper_bound; lia.
Qed.

Lemma F2FS_BLK_ALIGN_range x b : 0 <= x <= b * 4096 -> b < 2 ^ 19 -> 0 <= F2FS_BLK_ALIGN x <= b.
Proof.
  intros Hx Hb. unfold F2FS_BLK_ALIGN. rewrite u32_id by (unfold is_u32; lia). apply div_range; lia.
Qed.

Lemma mkfs_payload_range c segment_count ckpt sit :
  mc_blks_per_seg c = 512 -> 0 <= (mkfs_nat c 9 segment_count ckpt sit).2 <= 510.
Proof.
  intros Hb. unfold mkfs_nat. rewrite Hb.
  assert (MAX_SIT_BITMAP_SIZE c = 19072) as -> by (unfold MAX_SIT_BITMAP_SIZE; by rewrite Hb).
  set (sb := u32 (Z.shiftl (sit / 2) 9) / 8). assert (0 <= sb) by (apply Z.div_pos; [apply u32_range|lia]).
  set (ms := if 19072 <? sb then 19072 else sb).
  assert (0 <= ms <= 19072) as Hms by (unfold ms; destruct (Z.ltb_spec 19072 sb); lia). clearbody ms.
  destruct (mc_large_nat_bitmap c); cbn [snd].
  - set (tv := u32 (u32 (segment_count - _) * 512)).
    assert (0 <= tv < 2 ^ 32) as Htv by apply u32_range. clearbody tv.
    assert (0 <= SIZE_ALIGN tv NAT_ENTRY_PER_BLOCK <= 9439490) as Hs.
    { unfold SIZE_ALIGN, NAT_ENTRY_PER_BLOCK. rewrite u64_id by (unfold is_u64; lia). apply div_range; lia. }
    rewrite (u32_id (SIZE_ALIGN _ _)) by (unfold is_u32; lia).
    assert (0 <= SEG_ALIGN c (SIZE_ALIGN tv NAT_ENTRY_PER_BLOCK) <= 18437) as Hg.
    { unfold SEG_ALIGN. rewrite Hb, u32_id by (unfold is_u32; lia). apply div_range; lia. }
    unfold DEFAULT_NAT_ENTRY_RATIO. rewrite (u32_id (SEG_ALIGN _ _ * 20)) by (unfold is_u32; lia).
    assert (0 <= SEG_ALIGN c (SIZE_ALIGN tv NAT_ENTRY_PER_BLOCK) * 20 / 100 <= 3687) as Hn
      by (apply div_range; lia).
    set (n := _ * 20 / 100) in *. set (nat := if n =? 0 then 1 else n).
    assert (1 <= nat <= 3687) as Hnat by (unfold nat; destruct (Z.eqb_spec n 0); lia). clearbody nat.
    rewrite shiftl_9 by lia.
    assert (0 <= 512 * nat / 8 <= 235968) as Hm by (apply div_range; lia).
    rewrite (u32_id (ms + 512 * nat / 8)) by (unfold is_u32; lia).
    destruct (Z.ltb_spec MAX_BITMAP_SIZE_IN_CKPT (ms + 512 * nat / 8)) as [Hlt|]; [|lia].
    unfold MAX_BITMAP_SIZE_IN_CKPT, CP_CHKSUM_OFFSET, CP_BITMAP_OFFSET in *.
    pose proof (F2FS_BLK_ALIGN_range (u32 (ms + 512 * nat / 8 - (4092 - 192))) 63) as HA.
    rewrite u32_id in HA |- * by (unfold is_u32; lia). lia.
  - pose proof (F2FS_BLK_ALIGN_range ms 5 ltac:(lia) ltac:(lia)).
    destruct (MAX_SIT_BITMAP_SIZE_IN_CKPT <? ms); cbn [snd]; lia.
Qed.

Lemma mkfs_areas_payload c segment0 total ar :
  mc_blks_per_seg c = 512 -> mkfs_areas c 9 segment0 total = Ok ar -> 0 <= ar_cp_payload ar <= 510.
Proof.
  intros Hb. unfold mkfs_areas. destruct (negb _ && _ && _ && _); cbn [defined_ mbind res_bind]; [|done].
  match goal with |- context [mkfs_nat ?a ?b ?x ?y ?w] =>
    pose proof (mkfs_payload_range a x y w Hb); destruct (mkfs_nat a b x y w) as [nat payload] end.
  by intros <-%Ok_inj.
Qed.

Lemma mkfs_areas_zones c segment0 total ar :
  mc_blks_per_seg c = 512 -> 0 < mc_segs_per_zone c -> 512 * mc_segs_per_zone c < 2 ^ 32 ->
  mkfs_areas c 9 segment0 total = Ok ar -> 0 <= ar_total_meta_zones ar < 2 ^ 32.
Proof.
  intros Hb Hs Hz. unfold mkfs_areas. rewrite Hb.
  destruct (negb _ && _ && _ && _); cbn [defined_ mbind res_bind]; [|done].
  destruct (mkfs_nat _ _ _ _ _) as [nat payload]. intros <-%Ok_inj. cbn [ar_total_meta_zones].
  set (m := u32 (_ + _ + _ + SEG_ALIGN c _)). assert (0 <= m < 2 ^ 32) as Hm by apply u32_range.
  clearbody m. destruct (ceil_div_zone m (mc_segs_per_zone c)) as [_ H]; [lia|done|done|lia].
Qed.

(** The geometry of a run whose number of main-area zones did not wrap. *)
Record mkfs_geometry (c : mkfs_config) (r : mkfs_result) : Prop := {
  mg_layout : layout_ok (mr_sb r);
  mg_fit : addresses_fit (mr_sb r);
  mg_nonneg : layout_fields_nonneg (mr_sb r);
  mg_sections : sb_section_count (mr_sb r) = mr_total_zones r * mc_secs_per_zone c;
  mg_main : sb_segment_count_main (mr_sb r) = mr_total_zones r * mc_segs_per_zone c;
  mg_count : 0 <= sb_segment_count (mr_sb r) < 2 ^ 23 /\
    2 ^ 21 * sb_segment_count (mr_sb r) <= mc_total_sectors c * mc_sector_size c
}.

Lemma mkfs_run_geometry c r k z ar :
  mkfs_single c -> mkfs_run c r k z ar ->
  mr_total_zones r <= sb_segment_count (mr_sb r) / mc_segs_per_zone c -> mkfs_geometry c r.
Proof.
  intros Hc Hr Hnw. pose proof (ms_bps c Hc) as Hb. pose proof (ms_segs c Hc). pose proof (ms_secs c Hc).
  pose proof (ms_spz c Hc) as Hspz. pose proof (ms_zone c Hc). destruct (ms_size c Hc) as [Hs0 Hs1].
  assert (0 < mc_segs_per_zone c) as Hsp by nia. set (spz := mc_segs_per_zone c) in *.
  destruct Hr as [Hk Hz Har Hzones Hav Hsz Hgeo [Hsec Hmain] (A1 & A2 & A3 & A4 & A5 & A6)
    (B1 & B2 & B3 & B4 & B5 & B6) _ _ _ _ _].
  set (T := (mc_total_sectors c * mc_sector_size c - z) / 2 ^ 21) in *.
  assert (0 <= T < 2 ^ 23 /\ 2 ^ 21 * T <= mc_total_sectors c * mc_sector_size c - z) as [HT HT2].
  { split; [split; [apply Z.div_pos; lia|apply Z.div_lt_upper_bound; lia]|apply Z.mul_div_le; lia]. }
  assert (0 <= z / 4096 /\ 4096 * (z / 4096) <= z) as [Hz0 Hz1]
    by (split; [apply Z.div_pos; lia|apply Z.mul_div_le; lia]).
  pose proof (mkfs_areas_zones c _ _ ar Hb Hsp ltac:(lia) Har) as Hmz.
  assert (ar_segment_count ar = T / spz * spz) as HS.
  { unfold mkfs_areas in Har. destruct (negb _ && _ && _ && _) in Har; [|done]. cbn [defined_ mbind res_bind] in Har.
    destruct (mkfs_nat _ _ _ _ _) in Har. apply Ok_inj in Har as <-. cbn [ar_segment_count].
    apply u32_id. unfold is_u32. pose proof (Z.mul_div_le T spz Hsp). pose proof (Z.div_pos T spz). nia. }
  assert (0 <= T / spz * spz <= T) as HST.
  { pose proof (Z.mul_div_le T spz Hsp). pose proof (Z.div_pos T spz). nia. }
  rewrite A1, HS, Z.div_mul in Hnw by lia. rewrite HS, Z.div_mul in Hzones by lia.
  assert (0 <= T / spz < 2 ^ 23) as HTs by (split; [apply Z.div_pos; lia|nia]).
  assert (ar_total_meta_zones ar <= T / spz) as Hle.
  { destruct (Z.le_gt_cases (ar_total_meta_zones ar) (T / spz)); [done|]. exfalso.
    rewrite Hzones in Hnw. unfold u32 in Hnw.
    rewrite <- (Z.mod_add _ 1) in Hnw by lia. rewrite Z.mod_small in Hnw; lia. }
  rewrite u32_id in Hzones by (unfold is_u32; lia).
  destruct (mkfs_areas_ok c (z / 4096) T ar Hb Hsp ltac:(lia) Hz0 ltac:(lia) Har)
    as (_ & C1 & C2 & C3 & C4 & C5 & C6 & C7 & D1 & D2 & D3 & D4); [rewrite HS, Z.div_mul; lia|lia|].
  fold spz in C6, C7.
  assert (mr_total_zones r * mc_secs_per_zone c <= T / spz * spz) by nia.
  rewrite (u32_id (_ * mc_secs_per_zone c)) in Hsec by (unfold is_u32; nia).
  assert (sb_section_count (mr_sb r) * mc_segs_per_sec c = mr_total_zones r * spz) as Hms by (rewrite Hsec; nia).
  rewrite Hms, u32_id in Hmain by (unfold is_u32; nia).
  assert (sb_segment_count_main (mr_sb r) = T / spz * spz - ar_total_meta_zones ar * spz) as Hmain' by nia.
  split; [unfold layout_ok; split_and!; lia|split; lia| |done|done|lia].
  unfold layout_fields_nonneg. split_and!; lia.
Qed.

(** ** The active segments *)

Lemma has_dup_NoDup l : has_dup l = false -> NoDup l.
Proof.
  induction l as [|x l IH]; cbn; [constructor|]. intros [Hx Hl]%orb_false_elim.
  constructor; [|by apply IH]. intros Hin. apply not_true_iff_false in Hx. apply Hx.
  apply existsb_exists. exists x. split; [by apply list_elem_of_In|apply Z.eqb_refl].
Qed.

Lemma zones_from_6 spz : 0 < spz -> 5 * spz < 2 ^ 32 ->
  zones_from spz 6 0 = [0; spz; 2 * spz; 3 * spz; 4 * spz; 5 * spz].
Proof.
  intros Hs Hb. cbn [zones_from].
  rewrite (u32_id (0 + spz)) by (unfold is_u32; lia).
  rewrite (u32_id (0 + spz + spz)) by (unfold is_u32; lia).
  rewrite (u32_id (0 + spz + spz + spz)) by (unfold is_u32; lia).
  rewrite (u32_id (0 + spz + spz + spz + spz)) by (unfold is_u32; lia).
  rewrite (u32_id (0 + spz + spz + spz + spz + spz)) by (unfold is_u32; lia).
  repeat (apply f_equal2; [lia|]). done.
Qed.

Lemma verify_cur_segs_ok c l bound :
  0 < mc_segs_per_zone c -> 6 * mc_segs_per_zone c <= bound < 2 ^ 32 ->
  length l = 6%nat -> Forall (fun s => 0 <= s < bound) l ->
  let l' := verify_cur_segs c l in
  NoDup l' /\ length l' = 6%nat /\ Forall (fun s => 0 <= s < bound) l'.
Proof.
  intros Hs Hb Hl Hr. unfold verify_cur_segs. destruct (has_dup l) eqn:E.
  - rewrite zones_from_6 by lia. split; [|split; [done|repeat constructor; lia]].
    repeat (apply NoDup_cons; split; [rewrite ?not_elem_of_cons; split_and?; try lia; apply not_elem_of_nil|]).
    constructor.
  - split; [by apply has_dup_NoDup|done].
Qed.

Lemma mkfs_cur_seg_range c tz :
  0 < mc_segs_per_sec c -> 0 < mc_secs_per_zone c ->
  mc_segs_per_zone c = mc_secs_per_zone c * mc_segs_per_sec c -> mc_zoned_mode c = false ->
  has_feature (mc_feature c) F2FS_FEATURE_RO = false -> 6 < tz -> tz * mc_segs_per_zone c < 2 ^ 31 ->
  length (mkfs_cur_seg c tz) = 6%nat /\
  Forall (fun s => 0 <= s < tz * mc_segs_per_zone c) (mkfs_cur_seg c tz).
Proof.
  intros H1 H2 Hspz Hz Hro Htz Hb. unfold mkfs_cur_seg. rewrite Hz, Hro.
  set (spz := mc_segs_per_zone c) in *. assert (0 < spz) as Hsp by nia.
  assert (7 * spz <= tz * spz) as H7 by nia.
  assert (forall n, 0 <= n <= tz -> 0 <= n * spz <= tz * spz) as Hm by (intros; nia).
  split; [by destruct (mc_heap c)|]. destruct (mc_heap c).
  - assert (0 <= (mc_secs_per_zone c - 1) * mc_segs_per_sec c < spz) as Hls by nia.
    set (ls := (mc_secs_per_zone c - 1) * mc_segs_per_sec c) in *.
    assert (0 <= mc_secs_per_zone c - 1 < 2 ^ 32) by nia.
    rewrite (u32_id (tz - 1)), (u32_id (mc_secs_per_zone c - 1)) by (unfold is_u32; nia).
    fold ls. rewrite (u32_id ls) by (unfold is_u32; lia).
    pose proof (Hm (tz - 1)) as Hl. rewrite (u32_id ((tz - 1) * spz)) by (unfold is_u32; lia).
    assert ((tz - 1) * spz = tz * spz - spz) as -> by nia.
    rewrite (u32_id (tz * spz - spz + ls)) by (unfold is_u32; lia).
    rewrite (u32_id (tz * spz - spz + ls - spz)) by (unfold is_u32; lia).
    rewrite (u32_id (tz * spz - spz + ls - spz - spz)) by (unfold is_u32; lia).
    rewrite (u32_id (tz * spz - spz + ls - spz - spz - spz)) by (unfold is_u32; lia).
    rewrite (u32_id (0 + spz)) by (unfold is_u32; lia). repeat constructor; lia.
  - rewrite !Z.shiftr_div_pow2 by lia. change (2 ^ 2) with 4. change (2 ^ 1) with 2.
    assert (1 <= tz / 4 <= tz - 1 /\ 3 <= tz / 2 <= tz - 1) as [Hq Hh].
    { split; (split; [apply Z.div_le_lower_bound; lia|]); apply Z.lt_le_pred, Z.div_lt_upper_bound; lia. }
    pose proof (Hm (tz / 4 - 1)). pose proof (Hm (tz / 2 - 1)).
    assert ((tz / 4 - 1) * spz <= tz * spz - 2 * spz) by nia.
    assert ((tz / 2 - 1) * spz <= tz * spz - 2 * spz) by nia.
    rewrite (u32_id (tz / 4 - 1)), (u32_id (tz / 2 - 1)) by (unfold is_u32; nia).
    rewrite (u32_id ((tz / 4 - 1) * spz)), (u32_id ((tz / 2 - 1) * spz)) by (unfold is_u32; lia).
    rewrite (u32_id (0 + spz)) by (unfold is_u32; lia).
    rewrite (u32_id (0 + spz + spz)) by (unfold is_u32; lia).
    rewrite (u32_id (0 + spz + spz + spz)) by (unfold is_u32; lia).
    rewrite (u32_id (0 + spz + spz + spz + spz)) by (unfold is_u32; lia).
    rewrite (u32_id (Z.max _ _ + spz)) by (unfold is_u32; lia). repeat constructor; lia.
Qed.

(** * Properties *)


(** The run on an image of 100 MiB. *)
Definition sample_run : option mkfs_result :=
  match f2fs_prepare_super_block (sample_mkfs 1 204800) with Ok o => o | _ => None end.

Lemma sample_mkfs_single segs_per_sec total_sectors :
  0 < segs_per_sec < 2 ^ 11 -> 0 <= total_sectors < 2 ^ 35 -> mkfs_single (sample_mkfs segs_per_sec total_sectors).
Proof.
  intros. split; cbn; try done; try lia; [by left|]. by eexists.
Qed.

(** A superblock that reads back from its bytes fits its widths. *)
Lemma sb_ok_check sb :
  sb_of_bytes (sb_bytes sb) = sb -> forallb (fun b => (0 <=? b) && (b <? 256)) (sb_bytes sb) = true ->
  length (sb_bytes sb) = 3072%nat -> sb_ok sb.
Proof.
  intros Hrt Hb Hl. rewrite <- Hrt. apply (cdec_ok (c := sb_codec)).
  - apply Forall_forall. intros x Hx. rewrite forallb_forall in Hb.
    specialize (Hb x ltac:(by apply list_elem_of_In)). unfold is_u8. lia.
  - by rewrite Hl.
Qed.


(** The six active segments mkfs picks are pairwise different and lie
    inside the main area, in heap mode and in the default mode (when the number
    of main zones did not wrap). *)
Theorem mkfs_cur_segs_distinct (c : mkfs_config) (r : mkfs_result) :
  mkfs_single c -> f2fs_prepare_super_block c = Ok (Some r) ->
  mr_total_zones r <= sb_segment_count (mr_sb r) / mc_segs_per_zone c ->
  NoDup (mr_cur_seg r) /\ length (mr_cur_seg r) = 6%nat /\
  Forall (fun s => 0 <= s < sb_segment_count_main (mr_sb r)) (mr_cur_seg r).
Proof.
  intros Hc Hrun Hnw. destruct (mkfs_run_inv c r Hc Hrun) as (k & z & ar & Hr).
  destruct (mkfs_run_geometry c r k z ar Hc Hr Hnw) as [_ [Hf1 Hf2] Hnn _ Hmain [Hcnt _]].
  pose proof (mk_avail _ _ _ _ _ Hr). pose proof (ms_segs c Hc). pose proof (ms_secs c Hc).
  pose proof (ms_spz c Hc). destruct (ms_plain c Hc), Hnn as (?&?&?&?&?&?&?).
  rewrite (mk_cur _ _ _ _ _ Hr), Hmain.
  destruct (mkfs_cur_seg_range c (mr_total_zones r)) as [Hl Hfa]; try done; [lia|].
  apply verify_cur_segs_ok; [nia|nia|done|done].
Qed.

Lemma mkfs_cur_segs_distinct_witness :
  exists r, f2fs_prepare_super_block (sample_mkfs 1 204800) = Ok (Some r) /\ NoDup (mr_cur_seg r).
Proof.
  destruct (f2fs_prepare_super_block (sample_mkfs 1 204800)) as [[r|]| | |] eqn:E;
    [|exfalso; vm_compute in E; discriminate E ..].
  exists r. split; [reflexivity|].
  refine (proj1 (mkfs_cur_segs_distinct (sample_mkfs 1 204800) r _ E _));
    [apply sample_mkfs_single; lia|].
  assert (Hb : match sample_run with
    | Some r => mr_total_zones r <=? sb_segment_count (mr_sb r) / 1 | None => false end = true)
    by (vm_compute; reflexivity).
  unfold sample_run in Hb. rewrite E in Hb. cbn. lia.
Defined.

(** The number of main zones is computed by an unsigned subtraction that is
    only compared with zero: on a 54 MiB image with 16 segments per section,
    too small for one section of metadata, mkfs does not report that the device
    is too small but produces a superblock with no segment in total and
    4294950784 segments in the main area. *)
Theorem mkfs_tiny_volume_wraps :
  match f2fs_prepare_super_block (sample_mkfs 16 110592) with
  | Ok (Some r) => sb_segment_count (mr_sb r) = 0 /\ sb_segment_count_main (mr_sb r) = 4294950784 /\
                   sb_main_blkaddr (mr_sb r) = 8462336 /\ sb_block_count (mr_sb r) = 13824
  | _ => False
  end.
Proof. vm_compute. by repeat split. Qed.

(** With enough user extensions for the media list (28 after the 36
    defaults), [cure_extension_list] goes on to copy the default hot extensions
    past the 64 entries of [extension_list]. *)
Theorem cure_extension_list_overflows :
  let names := map (fun i => [97 + i; 97 + i]) (map Z.of_nat (seq 0 28)) in
  cure_extension_list (Some (concat (map (fun n => n ++ [44]) names))) None = Oob.
Proof. vm_compute. reflexivity. Qed.
