(* ===== verification/Checkpoint.v ===== *)
(** Checkpoint packs: [get_checkpoint_version], [validate_checkpoint],
    [get_valid_checkpoint], [f2fs_should_proceed] and [sanity_check_ckpt] of
    fsck/mount.c, and the accessors of fsck/f2fs.h that locate the packs and
    the version bitmaps inside them. A checkpoint is the bytes of its blocks
    ([1 + cp_payload] of them once it is loaded); its members are read at their
    offsets in [struct f2fs_checkpoint]. *)
From S2P Require Import Prelude Codec Crc Superblock Mkfs.
From Stdlib Require Import ZArith Lia List Bool SpecFloat.
From stdpp Require Import base numbers list gmap.
#[local] Open Scope Z_scope.

(** * Members of [struct f2fs_checkpoint] *)

Definition ofs_checkpoint_ver : Z := 0.
Definition ofs_user_block_count : Z := 8.
Definition ofs_rsvd_segment_count : Z := 24.
Definition ofs_overprov_segment_count : Z := 28.
Definition ofs_cur_node_segno (i : Z) : Z := 36 + 4 * i.
Definition ofs_cur_node_blkoff (i : Z) : Z := 68 + 2 * i.
Definition ofs_cur_data_segno (i : Z) : Z := 84 + 4 * i.
Definition ofs_cur_data_blkoff (i : Z) : Z := 116 + 2 * i.
Definition ofs_ckpt_flags : Z := 132.
Definition ofs_cp_pack_total_block_count : Z := 136.
Definition ofs_cp_pack_start_sum : Z := 140.
Definition ofs_sit_ver_bitmap_bytesize : Z := 156.
Definition ofs_nat_ver_bitmap_bytesize : Z := 160.
Definition ofs_sit_nat_version_bitmap : Z := 192.

Definition CP_RESIZEFS_FLAG : Z := 0x4000.
Definition CP_QUOTA_NEED_FSCK_FLAG : Z := 0x800.
Definition CP_LARGE_NAT_BITMAP_FLAG : Z := 0x400.
Definition CP_FSCK_FLAG : Z := 0x10.
Definition CP_ERROR_FLAG : Z := 0x8.

(** * Choosing a pack *)

(** [ver_after(a, b)]: the 64-bit difference, as a signed number. *)
Definition ver_after (a b : Z) : bool := 0 <? s64 (a - b).

(** [get_checkpoint_version]: the block, if its checksum is right. *)
Definition get_checkpoint_version (d : disk) (cp_addr : Z) : res (option (list Z)) :=
  cp_page ← disk_read_or_die d cp_addr;
  bad ← verify_checksum_chksum cp_page;
  Ok (if bad =? 0 then Some cp_page else None).

(** [validate_checkpoint]: first and last block of the pack agree on the version. *)
Definition validate_checkpoint (d : disk) (blocks_per_seg cp_addr : Z) : res (option (list Z * Z)) :=
  p1 ← get_checkpoint_version d cp_addr;
  match p1 with
  | None => Ok None
  | Some cp_page_1 =>
      total ← get_le32 cp_page_1 ofs_cp_pack_total_block_count;
      if blocks_per_seg <? total then Ok None
      else
        pre_version ← get_le64 cp_page_1 ofs_checkpoint_ver;
        p2 ← get_checkpoint_version d (u32 (cp_addr + total - 1));
        match p2 with
        | None => Ok None
        | Some cp_page_2 =>
            cur_version ← get_le64 cp_page_2 ofs_checkpoint_ver;
            Ok (if cur_version =? pre_version then Some (cp_page_1, cur_version) else None)
        end
  end.

(** [MAX_SIT_BITMAP_SIZE] for segments of 512 blocks. *)
Definition MAX_SIT_BITMAP_BYTES : Z := 19072.

(** The copy of the payload blocks that follow the first one. *)
Fixpoint read_payload (d : disk) (n : nat) (a : Z) : res (list Z) :=
  match n with
  | O => Ok []
  | S n => b ← disk_read_or_die d a; rest ← read_payload d n (a + 1); Ok (b ++ rest)
  end.

(** Which of the two packs is used. *)
Definition choose_pack (cp1 cp2 : option (list Z * Z)) : option (list Z * Z) :=
  match cp1, cp2 with
  | Some (p1, v1), Some (p2, v2) => if ver_after v2 v1 then Some (p2, 2) else Some (p1, 1)
  | Some (p1, _), None => Some (p1, 1)
  | None, Some (p2, _) => Some (p2, 2)
  | None, None => None
  end.

(** [get_valid_checkpoint]: the return value, and [sbi->ckpt] with
    [sbi->cur_cp] when it is 0. *)
Definition get_valid_checkpoint (d : disk) (sb : f2fs_super_block) (blocks_per_seg : Z)
    : res (Z * option (list Z * Z)) :=
  let cp_payload := sb_cp_payload sb in
  if (MAX_SIT_BITMAP_BYTES + F2FS_BLKSIZE - 1) / F2FS_BLKSIZE <? cp_payload then Ok (-22, None)
  else
    _ ← defined_ (sb_log_blocks_per_seg sb <? 31);
    let cp1_start := sb_cp_blkaddr sb in
    let cp2_start := cp1_start + Z.shiftl 1 (sb_log_blocks_per_seg sb) in
    cp1 ← validate_checkpoint d blocks_per_seg cp1_start;
    cp2 ← validate_checkpoint d blocks_per_seg (u32 cp2_start);
    match choose_pack cp1 cp2 with
    | None => Ok (-22, None)
    | Some (cur_page, cur_cp) =>
        let cp_blk_no := if cur_cp =? 2 then cp2_start else cp1_start in
        rest ← read_payload d (Z.to_nat cp_payload) (cp_blk_no + 1);
        Ok (0, Some (cur_page ++ rest, cur_cp))
    end.

(** * Accessors *)

Inductive bitmap_kind := SIT_BITMAP | NAT_BITMAP.

Definition is_set_ckpt_flags (cp : list Z) (f : Z) : res bool :=
  flags ← get_le32 cp ofs_ckpt_flags; Ok (negb (Z.land flags f =? 0)).

Definition __bitmap_size (cp : list Z) (flag : bitmap_kind) : res Z :=
  match flag with
  | NAT_BITMAP => get_le32 cp ofs_nat_ver_bitmap_bytesize
  | SIT_BITMAP => get_le32 cp ofs_sit_ver_bitmap_bytesize
  end.

(** [__bitmap_ptr]: where a bitmap starts in the bytes of the checkpoint. *)
Definition __bitmap_ptr (sb : f2fs_super_block) (cp : list Z) (flag : bitmap_kind) : res Z :=
  large ← is_set_ckpt_flags cp CP_LARGE_NAT_BITMAP_FLAG;
  if large : bool then
    offset ← (match flag with
              | SIT_BITMAP => get_le32 cp ofs_nat_ver_bitmap_bytesize
              | NAT_BITMAP => Ok 0 end);
    chksum_ofs ← get_le32 cp ofs_cp_checksum_offset;
    let chksum_size := if chksum_ofs =? CP_MIN_CHKSUM_OFFSET then 4 else 0 in
    Ok (ofs_sit_nat_version_bitmap + s32 offset + chksum_size)
  else if 0 <? sb_cp_payload sb then
    Ok (match flag with NAT_BITMAP => ofs_sit_nat_version_bitmap | SIT_BITMAP => F2FS_BLKSIZE end)
  else
    offset ← (match flag with
              | NAT_BITMAP => get_le32 cp ofs_sit_ver_bitmap_bytesize
              | SIT_BITMAP => Ok 0 end);
    Ok (ofs_sit_nat_version_bitmap + s32 offset).

Definition __start_cp_addr (sb : f2fs_super_block) (blocks_per_seg cur_cp : Z) : Z :=
  if cur_cp =? 2 then u32 (sb_cp_blkaddr sb + blocks_per_seg) else sb_cp_blkaddr sb.

Definition __start_sum_addr (cp : list Z) : res Z := get_le32 cp ofs_cp_pack_start_sum.

Definition start_sum_block (sb : f2fs_super_block) (blocks_per_seg cur_cp : Z) (cp : list Z) : res Z :=
  s ← get_le32 cp ofs_cp_pack_start_sum; Ok (u32 (__start_cp_addr sb blocks_per_seg cur_cp + s)).

Definition sum_blk_addr (sb : f2fs_super_block) (blocks_per_seg cur_cp : Z) (cp : list Z) (base type : Z)
    : res Z :=
  t ← get_le32 cp ofs_cp_pack_total_block_count;
  Ok (u32 (__start_cp_addr sb blocks_per_seg cur_cp + t - (base + 1) + type)).

(** * Checking it *)

(** The members of [c] the checks read and change. *)
Record fsck_config := {
  fc_fix_on : bool;
  fc_auto_fix : bool;
  fc_preen_mode : bool;
  fc_bug_on : bool
}.
Definition set_fix_on (c : fsck_config) : fsck_config := {|
  fc_fix_on := true; fc_auto_fix := fc_auto_fix c; fc_preen_mode := fc_preen_mode c;
  fc_bug_on := fc_bug_on c |}.
Definition set_bug_on (c : fsck_config) : fsck_config := {|
  fc_fix_on := fc_fix_on c; fc_auto_fix := fc_auto_fix c; fc_preen_mode := fc_preen_mode c;
  fc_bug_on := true |}.

Definition exist_qf_ino (sb : f2fs_super_block) : bool :=
  existsb (fun q => negb (q =? 0)) (sb_qf_ino sb).

(** [f2fs_should_proceed] *)
Definition f2fs_should_proceed (c : fsck_config) (sb : f2fs_super_block) (flag : Z) : fsck_config * bool :=
  if negb (fc_fix_on c) && (fc_auto_fix c || fc_preen_mode c) then
    if negb (Z.land flag CP_FSCK_FLAG =? 0) || negb (Z.land flag CP_QUOTA_NEED_FSCK_FLAG =? 0) ||
       (exist_qf_ino sb && negb (Z.land flag CP_ERROR_FLAG =? 0))
    then (set_fix_on c, true)
    else (c, fc_preen_mode c)
  else (c, true).

(** A curseg of the checkpoint: its segment and offset are in range. *)
Definition curseg_bad (cp : list Z) (ofs_segno ofs_blkoff : Z) (main_segs blocks_per_seg : Z) : res bool :=
  segno ← get_le32 cp ofs_segno;
  if main_segs <=? segno then Ok true
  else blkoff ← get_le16 cp ofs_blkoff; Ok (blocks_per_seg <=? blkoff).

Fixpoint cursegs_bad (cp : list Z) (segno_at blkoff_at : Z -> Z) (idx : list Z)
    (main_segs blocks_per_seg : Z) : res bool :=
  match idx with
  | [] => Ok false
  | i :: idx =>
      b ← curseg_bad cp (segno_at i) (blkoff_at i) main_segs blocks_per_seg;
      if b : bool then Ok true else cursegs_bad cp segno_at blkoff_at idx main_segs blocks_per_seg
  end.

(** The outcome of a check: the return value and the changed state. *)
Record ckpt_state := {
  cs_config : fsck_config;
  cs_cp : list Z;
  cs_sb : f2fs_super_block;
  cs_disk : disk
}.

(** The repair of [user_block_count]: [inl] is a return. *)
Definition check_user_block_count (st : ckpt_state) (blks_per_seg flag : Z) : res (Z * ckpt_state + ckpt_state) :=
  let sb := cs_sb st in
  let cp := cs_cp st in
  user_block_count64 ← get_le64 cp ofs_user_block_count;
  let user_block_count := u32 user_block_count64 in
  let segment_count_main := u32 (sb_segment_count_main sb + 1) in
  if (user_block_count =? 0) ||
     (u32 (Z.shiftl segment_count_main (sb_log_blocks_per_seg sb)) <=? user_block_count) then
    let '(c, proceed) := f2fs_should_proceed (cs_config st) sb flag in
    let st := {| cs_config := c; cs_cp := cp; cs_sb := sb; cs_disk := cs_disk st |} in
    if negb proceed then Ok (inl (1, st))
    else if negb (fc_fix_on c) then Ok (inl (1, st))
    else if negb (Z.land flag (Z.lor CP_FSCK_FLAG CP_RESIZEFS_FLAG) =? 0) then
      let seg_cnt_main := u32 (sb_segment_count sb - u32 (sb_segment_count_ckpt sb + sb_segment_count_sit sb +
                                 sb_segment_count_nat sb + sb_segment_count_ssa sb)) in
      if negb (seg_cnt_main =? sb_segment_count_main sb) then Ok (inl (1, st))
      else
        ovp ← get_le32 cp ofs_overprov_segment_count;
        let valid := u32 (u32 (sb_segment_count_main sb - ovp) * blks_per_seg) in
        cp ← set_le64 cp ofs_user_block_count valid;
        Ok (inr {| cs_config := set_bug_on c; cs_cp := cp; cs_sb := sb; cs_disk := cs_disk st |})
    else Ok (inr st)
  else Ok (inr st).

Definition NR_CURSEG_TYPES : Z := 6.

(** The tests after it. *)
Definition check_cursegs_and_bitmaps (st : ckpt_state) (blocks_per_seg : Z) : res (Z * ckpt_state) :=
  let sb := cs_sb st in
  let cp := cs_cp st in
  let main_segs := sb_segment_count_main sb in
  bad ← cursegs_bad cp ofs_cur_node_segno ofs_cur_node_blkoff [0; 1; 2] main_segs blocks_per_seg;
  if bad : bool then Ok (1, st) else
  bad ← cursegs_bad cp ofs_cur_data_segno ofs_cur_data_blkoff [0; 1; 2] main_segs blocks_per_seg;
  if bad : bool then Ok (1, st) else
  sit_bitmap_size ← get_le32 cp ofs_sit_ver_bitmap_bytesize;
  nat_bitmap_size ← get_le32 cp ofs_nat_ver_bitmap_bytesize;
  let log := sb_log_blocks_per_seg sb in
  if negb (sit_bitmap_size =? u32 (Z.shiftl (sb_segment_count_sit sb / 2) log) / 8) ||
     negb (nat_bitmap_size =? u32 (Z.shiftl (sb_segment_count_nat sb / 2) log) / 8) then Ok (1, st) else
  cp_pack_start_sum ← __start_sum_addr cp;
  let cp_payload := sb_cp_payload sb in
  if (cp_pack_start_sum <? u32 (cp_payload + 1)) ||
     (u32 (blocks_per_seg - 1 - NR_CURSEG_TYPES) <? cp_pack_start_sum) then
    if has_feature (sb_feature sb) F2FS_FEATURE_SB_CHKSUM then Ok (1, st)
    else
      r ← update_superblock (cs_disk st) (set_sb_cp_payload sb (u32 (cp_pack_start_sum - 1))) SB_MASK_ALL;
      let '(d, sb) := r in
      Ok (0, {| cs_config := cs_config st; cs_cp := cp; cs_sb := sb; cs_disk := d |})
  else Ok (0, st).

(** [sanity_check_ckpt] *)
Definition sanity_check_ckpt (st : ckpt_state) (blocks_per_seg blks_per_seg : Z) : res (Z * ckpt_state) :=
  let sb := cs_sb st in
  let cp := cs_cp st in
  _ ← defined_ (sb_log_blocks_per_seg sb <? 32);
  flag ← get_le32 cp ofs_ckpt_flags;
  rsvd ← get_le32 cp ofs_rsvd_segment_count;
  let fsmeta := u32 (sb_segment_count_ckpt sb + sb_segment_count_sit sb + sb_segment_count_nat sb +
                     rsvd + sb_segment_count_ssa sb) in
  if sb_segment_count sb <=? fsmeta then Ok (1, st) else
  ovp_segments ← get_le32 cp ofs_overprov_segment_count;
  if negb (has_feature (sb_feature sb) F2FS_FEATURE_RO) &&
     ((fsmeta <? F2FS_MIN_SEGMENTS) || (ovp_segments =? 0) || (rsvd =? 0)) then Ok (1, st) else
  r ← check_user_block_count st blks_per_seg flag;
  match r with
  | inl ret => Ok ret
  | inr st => check_cursegs_and_bitmaps st blocks_per_seg
  end.

(** * Validation is total on the checkpoint area *)

(** A block of the device that is there, with 4096 bytes. *)
Definition has_block (d : disk) (a : Z) : Prop :=
  exists b, d !! a = Some b /\ length b = 4096%nat /\ bytes b.

Lemma get_le_total n l ofs :
  0 <= ofs -> ofs + Z.of_nat n <= Z.of_nat (length l) -> exists v, get_le n l ofs = Ok v.
Proof. intros. unfold get_le. rewrite rd_bytes_Ok by lia. by eexists. Qed.

Lemma verify_checksum_total cp :
  length cp = 4096%nat -> bytes cp -> exists r, verify_checksum_chksum cp = Ok r.
Proof.
  intros Hl Hb. destruct (get_le_total 4 cp ofs_cp_checksum_offset) as [ofs Hofs];
    [done|rewrite Hl; done|].
  destruct (decide (CP_MIN_CHKSUM_OFFSET <= ofs <= CP_CHKSUM_OFFSET)) as [Hr|Hr].
  - unfold CP_MIN_CHKSUM_OFFSET, CP_CHKSUM_OFFSET in Hr.
    destruct (get_le_total 4 cp ofs) as [crc Hcrc]; [lia|lia|].
    eexists. by apply verify_checksum_chksum_eq.
  - unfold verify_checksum_chksum. rewrite Hofs. cbn [mbind res_bind].
    replace (_ || _) with true by lia. by eexists.
Qed.

Lemma get_checkpoint_version_total d a : has_block d a ->
  exists p, get_checkpoint_version d a = Ok p /\
    match p with Some page => d !! a = Some page /\ length page = 4096%nat /\ bytes page | None => True end.
Proof.
  intros (b & Hd & Hl & Hb). unfold get_checkpoint_version, disk_read_or_die, disk_read. rewrite Hd.
  cbn [mbind res_bind]. destruct (verify_checksum_total b Hl Hb) as [r ->]. cbn [mbind res_bind].
  eexists. split; [done|]. by destruct (r =? 0).
Qed.

(** The blocks a pack at [a] may be made of (an empty one ends before it). *)
Definition pack_area (d : disk) (a : Z) : Prop := forall i, a - 1 <= i < a + 512 -> has_block d i.

Lemma validate_checkpoint_total d a :
  1 <= a -> a + 512 <= 2 ^ 32 -> pack_area d a -> exists r, validate_checkpoint d 512 a = Ok r.
Proof.
  intros H1 H2 Hp. unfold validate_checkpoint.
  destruct (get_checkpoint_version_total d a) as (p1 & -> & Hp1); [apply Hp; lia|]. cbn [mbind res_bind].
  destruct p1 as [page|]; [|by eexists]. destruct Hp1 as (_ & Hl & Hb).
  destruct (get_le_total 4 page ofs_cp_pack_total_block_count) as [total Ht]; [done|rewrite Hl; done|].
  destruct (get_le_total 8 page ofs_checkpoint_ver) as [v Hv]; [done|rewrite Hl; done|].
  rewrite Ht, Hv. cbn [mbind res_bind]. apply get_le_range in Ht; [|done]. cbn in Ht.
  destruct (Z.ltb_spec 512 total); [by eexists|]. rewrite u32_id by (unfold is_u32; lia).
  destruct (get_checkpoint_version_total d (a + total - 1)) as (p2 & -> & Hp2); [apply Hp; lia|].
  cbn [mbind res_bind]. destruct p2 as [page2|]; [|by eexists]. destruct Hp2 as (_ & Hl2 & _).
  destruct (get_le_total 8 page2 ofs_checkpoint_ver) as [v2 ->]; [done|rewrite Hl2; done|].
  by eexists.
Qed.

(** A valid pack of at least one block. *)
Definition pack_valid (d : disk) (a : Z) (page : list Z) (v : Z) : Prop :=
  validate_checkpoint d 512 a = Ok (Some (page, v)) /\
  exists n, get_le32 page ofs_cp_pack_total_block_count = Ok n /\ 1 <= n.

(** Validating a pack looks at the blocks of its segment only. *)
Lemma pack_valid_local d d' a page v :
  1 <= a -> a + 512 <= 2 ^ 32 -> (forall i, a <= i < a + 512 -> d' !! i = d !! i) ->
  pack_valid d a page v -> pack_valid d' a page v.
Proof.
  intros H1 H2 Hag [Hv (n & Hn & Hn1)]. split; [|by exists n]. revert Hv. unfold validate_checkpoint.
  assert (forall i, a <= i < a + 512 -> get_checkpoint_version d' i = get_checkpoint_version d i) as Hg.
  { intros i Hi. unfold get_checkpoint_version, disk_read_or_die, disk_read. by rewrite Hag. }
  rewrite Hg by lia. destruct (get_checkpoint_version d a) as [[p|]| | |]; try done. cbn [mbind res_bind].
  destruct (get_le32 p ofs_cp_pack_total_block_count) as [t| | |] eqn:Et; try done. cbn [mbind res_bind].
  destruct (Z.ltb_spec 512 t); [done|].
  destruct (get_le64 p ofs_checkpoint_ver) as [pv| | |]; try done. cbn [mbind res_bind].
  destruct (Z.le_gt_cases 1 t) as [Ht|Ht].
  { rewrite u32_id by (unfold is_u32; lia). by rewrite Hg by lia. }
  intros (p2 & _ & Hr)%res_bind_Ok. exfalso. destruct p2 as [p2|]; [|done].
  apply res_bind_Ok in Hr as (cv & _ & Hr). destruct (cv =? pv); [|done].
  apply Ok_inj in Hr. injection Hr as -> _. rewrite Et in Hn. injection Hn as ->. lia.
Qed.

Lemma read_payload_total d n : forall a,
  (forall i, a <= i < a + Z.of_nat n -> has_block d i) -> exists l, read_payload d n a = Ok l.
Proof.
  induction n as [|n IH]; intros a H; cbn [read_payload]; [by eexists|].
  destruct (H a) as (b & Hb & _); [lia|]. unfold disk_read_or_die, disk_read. rewrite Hb. cbn [mbind res_bind].
  destruct (IH (a + 1)) as [l ->]; [intros; apply H; lia|]. by eexists.
Qed.

(** Where the two packs start. *)
Definition pack_start (sb : f2fs_super_block) (k : Z) : Z :=
  if k =? 2 then sb_cp_blkaddr sb + 512 else sb_cp_blkaddr sb.

Lemma pack_start_eq sb k : is_u32 (sb_cp_blkaddr sb + 512) -> 0 <= sb_cp_blkaddr sb ->
  __start_cp_addr sb 512 k = pack_start sb k.
Proof.
  intros H H0. unfold __start_cp_addr, pack_start. destruct (k =? 2); [by rewrite u32_id|done].
Qed.

Lemma get_valid_checkpoint_eq d sb r1 r2 :
  sb_log_blocks_per_seg sb = 9 -> 1 <= sb_cp_blkaddr sb -> sb_cp_blkaddr sb + 1024 <= 2 ^ 32 ->
  0 <= sb_cp_payload sb <= 5 ->
  pack_area d (pack_start sb 1) -> pack_area d (pack_start sb 2) ->
  validate_checkpoint d 512 (pack_start sb 1) = Ok r1 ->
  validate_checkpoint d 512 (pack_start sb 2) = Ok r2 ->
  match choose_pack r1 r2 with
  | None => get_valid_checkpoint d sb 512 = Ok (-22, None)
  | Some (page, k) => exists rest, get_valid_checkpoint d sb 512 = Ok (0, Some (page ++ rest, k))
  end.
Proof.
  unfold pack_start. cbn [Z.eqb Pos.eqb]. intros Hlog H1 H2 Hp Ha1 Ha2 Hr1 Hr2.
  unfold get_valid_checkpoint. rewrite Hlog. change (9 <? 31) with true. change (Z.shiftl 1 9) with 512.
  cbn [defined_ mbind res_bind]. change ((_ + F2FS_BLKSIZE - 1) / F2FS_BLKSIZE) with 5.
  replace (5 <? sb_cp_payload sb) with false by lia. rewrite Hr1. cbn [mbind res_bind].
  rewrite u32_id by (unfold is_u32; lia). rewrite Hr2. cbn [mbind res_bind].
  destruct (choose_pack r1 r2) as [[page k]|]; [|done].
  destruct (read_payload_total d (Z.to_nat (sb_cp_payload sb))
    ((if k =? 2 then sb_cp_blkaddr sb + 512 else sb_cp_blkaddr sb) + 1)) as [rest ->].
  { intros i Hi. destruct (k =? 2); [apply Ha2|apply Ha1]; lia. }
  by exists rest.
Qed.

(** * What the checks establish *)

(** An active log of the checkpoint lies in the main area. *)
Definition curseg_ok (cp : list Z) (ofs_segno ofs_blkoff main_segs blocks_per_seg : Z) : Prop :=
  exists s o, get_le32 cp ofs_segno = Ok s /\ get_le16 cp ofs_blkoff = Ok o /\
              s < main_segs /\ o < blocks_per_seg.

Lemma cursegs_bad_false cp fs fo idx m b :
  cursegs_bad cp fs fo idx m b = Ok false -> Forall (fun i => curseg_ok cp (fs i) (fo i) m b) idx.
Proof.
  induction idx as [|i idx IH]; cbn [cursegs_bad]; [constructor|].
  intros (bad & Hb & H)%res_bind_Ok. destruct bad; [done|]. constructor; [|by apply IH].
  unfold curseg_bad in Hb. apply res_bind_Ok in Hb as (s & Hs & Hb).
  destruct (Z.leb_spec m s); [done|]. apply res_bind_Ok in Hb as (o & Ho & Hb).
  apply Ok_inj in Hb. exists s, o. split_and!; try done. lia.
Qed.

Record ckpt_ok (sb : f2fs_super_block) (cp : list Z) (blocks_per_seg : Z) : Prop := {
  co_node : Forall (fun i => curseg_ok cp (ofs_cur_node_segno i) (ofs_cur_node_blkoff i)
                     (sb_segment_count_main sb) blocks_per_seg) [0; 1; 2];
  co_data : Forall (fun i => curseg_ok cp (ofs_cur_data_segno i) (ofs_cur_data_blkoff i)
                     (sb_segment_count_main sb) blocks_per_seg) [0; 1; 2];
  co_sit : __bitmap_size cp SIT_BITMAP =
    Ok (u32 (Z.shiftl (sb_segment_count_sit sb / 2) (sb_log_blocks_per_seg sb)) / 8);
  co_nat : __bitmap_size cp NAT_BITMAP =
    Ok (u32 (Z.shiftl (sb_segment_count_nat sb / 2) (sb_log_blocks_per_seg sb)) / 8)
}.

(** The superblock keeps its areas and its checksum-free members. *)
Lemma update_superblock_payload d sb mask d' sb' :
  update_superblock d sb mask = Ok (d', sb') -> sb_cp_payload sb' = sb_cp_payload sb.
Proof.
  unfold update_superblock. intros (sb1 & H1 & H)%res_bind_Ok.
  apply res_bind_Ok in H as (buf & _ & H). apply res_bind_Ok in H as (d1 & _ & [= _ <-]).
  destruct (has_feature _ _) in H1; [|by injection H1 as ->].
  apply res_bind_Ok in H1 as (crc & _ & [= <-]). done.
Qed.

Lemma check_cursegs_inv st bps st' :
  check_cursegs_and_bitmaps st bps = Ok (0, st') ->
  ckpt_ok (cs_sb st) (cs_cp st) bps /\ cs_cp st' = cs_cp st /\
  exists s, get_le32 (cs_cp st) ofs_cp_pack_start_sum = Ok s /\
    (u32 (sb_cp_payload (cs_sb st) + 1) <= s <= u32 (bps - 1 - NR_CURSEG_TYPES) /\ st' = st \/
     (s < u32 (sb_cp_payload (cs_sb st) + 1) \/ u32 (bps - 1 - NR_CURSEG_TYPES) < s) /\
     has_feature (sb_feature (cs_sb st)) F2FS_FEATURE_SB_CHKSUM = false /\
     sb_cp_payload (cs_sb st') = u32 (s - 1) /\
     sb_same_layout (cs_sb st) (cs_sb st')).
Proof.
  unfold check_cursegs_and_bitmaps. intros (b1 & Hn & H)%res_bind_Ok. destruct b1; [done|].
  apply res_bind_Ok in H as (b2 & Hd & H). destruct b2; [done|].
  apply res_bind_Ok in H as (ss & Hss & H). apply res_bind_Ok in H as (ns & Hns & H).
  destruct (_ || _) eqn:E in H; [done|]. apply orb_false_elim in E as [E1 E2].
  apply negb_false_iff in E1, E2. apply Z.eqb_eq in E1, E2. subst ss ns.
  apply res_bind_Ok in H as (s & Hs & H).
  assert (ckpt_ok (cs_sb st) (cs_cp st) bps) as Hok
    by (split; [by apply cursegs_bad_false|by apply cursegs_bad_false|done|done]).
  split; [done|]. destruct (_ || _) eqn:E in H.
  - destruct (has_feature _ _) eqn:Hf in H; [done|]. apply res_bind_Ok in H as ([d sb'] & Hu & H).
    apply Ok_inj in H. injection H as <-. split; [done|]. exists s. split; [done|]. right. cbn [cs_sb].
    split; [lia|]. split; [done|]. split; [by rewrite (update_superblock_payload _ _ _ _ _ Hu)|].
    apply update_superblock_layout in Hu. exact Hu.
  - apply Ok_inj in H. injection H as <-. split; [done|]. exists s. split; [done|]. left. split; [lia|done].
Qed.

Lemma check_user_block_count_inv st blks flag st' :
  check_user_block_count st blks flag = Ok (inr st') ->
  cs_sb st' = cs_sb st /\
  (cs_cp st' = cs_cp st \/ exists v, set_le64 (cs_cp st) ofs_user_block_count v = Ok (cs_cp st')).
Proof.
  unfold check_user_block_count. intros (u & _ & H)%res_bind_Ok.
  destruct (_ || _) in H; [|injection H as <-; auto].
  destruct (f2fs_should_proceed _ _ _) as [c p]. destruct (negb p); [done|].
  destruct (negb (fc_fix_on c)); [done|]. destruct (negb (Z.land flag _ =? 0)).
  - destruct (negb (_ =? sb_segment_count_main (cs_sb st))); [done|].
    apply res_bind_Ok in H as (o & _ & H). apply res_bind_Ok in H as (cp & Hcp & H).
    apply Ok_inj in H. injection H as <-. cbn [cs_sb cs_cp]. eauto.
  - apply Ok_inj in H. injection H as <-. cbn [cs_sb cs_cp]. auto.
Qed.

(** * Properties *)

(** Block writes, in order. *)
Definition apply_writes (d : disk) (ws : list (Z * list Z)) : disk :=
  fold_left (fun d w => <[w.1 := w.2]> d) ws d.

Lemma apply_writes_has_block ws : forall d a,
  has_block d a -> Forall (fun w => length w.2 = 4096%nat /\ bytes w.2) ws -> has_block (apply_writes d ws) a.
Proof.
  induction ws as [|[w b] ws IH]; intros d a Ha Hws; [done|].
  apply Forall_cons in Hws as [[Hl Hb] Hws]. apply IH; [|done]. cbn [fst snd] in *.
  destruct (decide (a = w)) as [->|Hne].
  - exists b. by rewrite lookup_insert_eq.
  - destruct Ha as (x & Hx & ?). exists x. by rewrite lookup_insert_ne.
Qed.

Lemma apply_writes_outside ws : forall d a,
  Forall (fun w => w.1 <> a) ws -> apply_writes d ws !! a = d !! a.
Proof.
  induction ws as [|[w b] ws IH]; intros d a Hws; [done|].
  apply Forall_cons in Hws as [Hne Hws]. 
  change (apply_writes d ((w, b) :: ws)) with (apply_writes (<[w := b]> d) ws). rewrite IH by done. by apply lookup_insert_ne.
Qed.


(** A pack of one block, with version 1 and its checksum, and a device with
    this pack first and a zeroed second one. *)
Definition zero_block : list Z := replicate 4096 0.
Definition sample_pack0 : list Z :=
  splice sample_cp ofs_cp_pack_total_block_count (le_bytes 4 1).
Definition sample_pack : list Z := splice sample_pack0 CP_CHKSUM_OFFSET (le_bytes 4 3989691975).
(** A device whose blocks from [start] on are zero. *)
Definition zero_disk (start : Z) (n : nat) : disk :=
  list_to_map ((fun i => (start + Z.of_nat i, zero_block)) <$> seq 0 n).

Lemma zero_disk_lookup start n a : start <= a < start + Z.of_nat n -> zero_disk start n !! a = Some zero_block.
Proof.
  intros Ha. apply elem_of_list_to_map_1.
  - rewrite <- list_fmap_compose. apply NoDup_fmap_2; [|apply NoDup_seq]. intros x y Hxy. cbn in Hxy. lia.
  - apply list_elem_of_fmap. exists (Z.to_nat (a - start)). split; [f_equal; lia|]. apply elem_of_seq. lia.
Qed.

Lemma zero_disk_block start n a : start <= a < start + Z.of_nat n -> has_block (zero_disk start n) a.
Proof.
  intros Ha. exists zero_block. split; [by apply zero_disk_lookup|].
  split; [apply length_replicate|]. by apply Forall_replicate.
Qed.

Definition sample_cp_disk : disk := <[512 := sample_pack]> (zero_disk 511 1025).

Lemma sample_cp_disk_block a : 511 <= a < 1536 -> has_block sample_cp_disk a.
Proof.
  intros Ha. unfold sample_cp_disk. destruct (decide (a = 512)) as [->|Hne].
  - exists sample_pack. rewrite lookup_insert_eq. split; [done|]. split; [vm_compute; reflexivity|].
    apply bytes_forallb. vm_compute. reflexivity.
  - destruct (zero_disk_block 511 1025 a) as (b & Hb & Hr); [lia|]. exists b.
    rewrite lookup_insert_ne by congruence. exact (conj Hb Hr).
Qed.

Lemma sample_switch_invalid :
  validate_checkpoint (apply_writes sample_cp_disk [(1024, sample_cp)]) 512
    (pack_start (sample_sb 0 1 31 2) (3 - 1)) = Ok None.
Proof. vm_compute. reflexivity. Qed.


(** C34: When both packs are valid the later version wins also across the
    wrap-around of the 64-bit counter: from a version [v1] and up to [2^63 - 1]
    checkpoints later, the later pack is chosen whichever half it is in. *)
Theorem newest_pack_chosen (p1 p2 : list Z) (v n : Z) :
  is_u64 v -> 0 < n < 2 ^ 63 ->
  choose_pack (Some (p1, v)) (Some (p2, u64 (v + n))) = Some (p2, 2) /\
  choose_pack (Some (p1, u64 (v + n))) (Some (p2, v)) = Some (p1, 1).
Proof.
  intros Hv Hn. unfold is_u64 in Hv.
  assert (ver_after (u64 (v + n)) v = true) as H1.
  { unfold ver_after, s64, sgn, u64. rewrite Zminus_mod_idemp_l.
    replace (v + n - v) with n by lia. rewrite Z.mod_small by lia.
    destruct (Z.ltb_spec n (2 ^ (64 - 1))); lia. }
  assert (ver_after v (u64 (v + n)) = false) as H2.
  { unfold ver_after, s64, sgn, u64. rewrite Zminus_mod_idemp_r.
    replace (v - (v + n)) with (- n) by lia.
    rewrite <- (Z.mod_add (- n) 1) by lia. rewrite Z.mod_small by lia.
    destruct (Z.ltb_spec (- n + 1 * 2 ^ 64) (2 ^ (64 - 1))); lia. }
  cbn [choose_pack]. by rewrite H1, H2.
Qed.

Lemma newest_pack_chosen_witness :
  choose_pack (Some ([1], 2 ^ 64 - 1)) (Some ([2], 0)) = Some ([2], 2).
Proof.
  exact (proj1 (newest_pack_chosen [1] [2] (2 ^ 64 - 1) 1 ltac:(unfold is_u64; lia) ltac:(lia))).
Defined.

(** C31: A checkpoint that [sanity_check_ckpt] lets pass has its six active logs
    inside the main area and inside their segments, version bitmaps of exactly
    the size the SIT and NAT areas call for, and (up to 32-bit wrap-around) the
    metadata and reserved segments below the segments of the volume. *)
Theorem sanity_check_ckpt_sound (st st' : ckpt_state) (blocks_per_seg blks_per_seg : Z) :
  sanity_check_ckpt st blocks_per_seg blks_per_seg = Ok (0, st') ->
  ckpt_ok (cs_sb st) (cs_cp st') blocks_per_seg /\ sb_same_layout (cs_sb st) (cs_sb st') /\
  exists rsvd, get_le32 (cs_cp st) ofs_rsvd_segment_count = Ok rsvd /\
    u32 (sb_segment_count_ckpt (cs_sb st) + sb_segment_count_sit (cs_sb st) +
         sb_segment_count_nat (cs_sb st) + rsvd + sb_segment_count_ssa (cs_sb st)) <
    sb_segment_count (cs_sb st).
Proof.
  unfold sanity_check_ckpt. intros (? & _ & H)%res_bind_Ok. apply res_bind_Ok in H as (flag & _ & H).
  apply res_bind_Ok in H as (rsvd & Hr & H). destruct (Z.leb_spec (sb_segment_count (cs_sb st))
    (u32 (sb_segment_count_ckpt (cs_sb st) + sb_segment_count_sit (cs_sb st) +
          sb_segment_count_nat (cs_sb st) + rsvd + sb_segment_count_ssa (cs_sb st)))); [done|].
  apply res_bind_Ok in H as (ovp & _ & H). destruct (_ && _) in H; [done|].
  apply res_bind_Ok in H as (r & Hu & H). destruct r as [r|st1].
  { exfalso. revert Hu H. unfold check_user_block_count. intros (u & _ & Hu)%res_bind_Ok.
    repeat match type of Hu with
    | (if ?b then _ else _) = _ => destruct b
    | (let '(_, _) := ?x in _) = _ => destruct x
    | (?m ≫= _) = _ => apply res_bind_Ok in Hu as (? & _ & Hu)
    end; try done; injection Hu as <-; done. }
  apply check_user_block_count_inv in Hu as [Hsb _].
  apply check_cursegs_inv in H as (Hok & Hcp & s & _ & Hs). rewrite Hcp, <- Hsb. split; [done|].
  split; [|by exists rsvd; rewrite Hsb].
  destruct Hs as [[_ ->]|(_ & _ & _ & Hl)]; [by repeat split|done].
Qed.

(** A checkpoint of [sample_sb] with the given user blocks and summary start. *)
Definition sample_ckpt (user_blocks start_sum : Z) : list Z :=
  fold_left (fun l f => splice l f.1.1 (le_bytes f.1.2 f.2))
    [(ofs_user_block_count, 8%nat, user_blocks); (ofs_rsvd_segment_count, 4%nat, 4);
     (ofs_overprov_segment_count, 4%nat, 6); (ofs_cp_pack_start_sum, 4%nat, start_sum);
     (ofs_sit_ver_bitmap_bytesize, 4%nat, 64); (ofs_nat_ver_bitmap_bytesize, 4%nat, 64)]
    (replicate 4096 0).
Definition sample_ckpt_state (user_blocks start_sum : Z) : ckpt_state := {|
  cs_config := {| fc_fix_on := false; fc_auto_fix := true; fc_preen_mode := false; fc_bug_on := false |};
  cs_cp := sample_ckpt user_blocks start_sum; cs_sb := sample_sb 0 1 31 2; cs_disk := sample_disk |}.

Lemma sanity_check_ckpt_sound_witness :
  sanity_check_ckpt (sample_ckpt_state 9000 1) 512 512 = Ok (0, sample_ckpt_state 9000 1) /\
  ckpt_ok (sample_sb 0 1 31 2) (sample_ckpt 9000 1) 512.
Proof.
  assert (H : sanity_check_ckpt (sample_ckpt_state 9000 1) 512 512 = Ok (0, sample_ckpt_state 9000 1))
    by (vm_compute; reflexivity).
  split; [exact H|]. exact (proj1 (sanity_check_ckpt_sound _ _ _ _ H)).
Defined.

(** [sanity_check_ckpt] adds one segment to the main area before it bounds
    [user_block_count], whatever the features of the volume (the condition
    tests the constant F2FS_FEATURE_RO instead of the superblock): a writable
    volume whose user blocks are all the blocks of the main area, leaving
    nothing to the over-provisioning, passes this check. *)
Theorem user_block_count_one_segment_too_many (st : ckpt_state) (blks_per_seg flag : Z) :
  sb_log_blocks_per_seg (cs_sb st) = 9 -> 0 < sb_segment_count_main (cs_sb st) < 2 ^ 23 - 1 ->
  get_le64 (cs_cp st) ofs_user_block_count = Ok (512 * sb_segment_count_main (cs_sb st)) ->
  check_user_block_count st blks_per_seg flag = Ok (inr st).
Proof.
  intros Hlog Hm Hu. unfold check_user_block_count. rewrite Hu, Hlog. cbn [mbind res_bind].
  rewrite (u32_id (512 * _)), (u32_id (_ + 1)), shiftl_9 by (unfold is_u32; lia).
  by replace (_ || _) with false by lia.
Qed.

Lemma user_block_count_one_segment_too_many_witness :
  has_feature (sb_feature (cs_sb (sample_ckpt_state 12288 1))) F2FS_FEATURE_RO = false /\
  check_user_block_count (sample_ckpt_state 12288 1) 512 0 = Ok (inr (sample_ckpt_state 12288 1)).
Proof.
  split; [reflexivity|].
  apply user_block_count_one_segment_too_many; [reflexivity|cbn; lia|vm_compute; reflexivity].
Defined.

(** The repair of an out-of-range [cp_pack_start_sum] can make a volume
    unmountable: when the value is too large (above block 505 of the pack), the
    superblock without checksum gets [cp_payload = cp_pack_start_sum - 1], and
    the next [get_valid_checkpoint] refuses that payload on any device. *)
Theorem payload_repair_unmountable (st st' : ckpt_state) (s : Z) (d : disk) :
  get_le32 (cs_cp st) ofs_cp_pack_start_sum = Ok s -> 505 < s < 2 ^ 32 ->
  check_cursegs_and_bitmaps st 512 = Ok (0, st') ->
  get_valid_checkpoint d (cs_sb st') 512 = Ok (-22, None).
Proof.
  intros Hs Hr (_ & _ & s' & Hs' & Hc)%check_cursegs_inv. rewrite Hs in Hs'. apply Ok_inj in Hs' as <-.
  change (u32 (512 - 1 - NR_CURSEG_TYPES)) with 505 in Hc.
  destruct Hc as [[? _]|(_ & _ & Hp & _)]; [lia|]. rewrite u32_id in Hp by (unfold is_u32; lia).
  unfold get_valid_checkpoint. change ((_ + F2FS_BLKSIZE - 1) / F2FS_BLKSIZE) with 5.
  by replace (5 <? _) with true by lia.
Qed.

Lemma res_ok_zero {A} (m : res (Z * A)) :
  match m with Ok (r, _) => r =? 0 | _ => false end = true -> exists st, m = Ok (0, st).
Proof. destruct m as [[r st]| | |]; try done. intros ->%Z.eqb_eq. by exists st. Qed.

Lemma payload_repair_unmountable_witness :
  exists st', check_cursegs_and_bitmaps (sample_ckpt_state 9000 506) 512 = Ok (0, st') /\
    get_valid_checkpoint sample_disk (cs_sb st') 512 = Ok (-22, None).
Proof.
  destruct (res_ok_zero (check_cursegs_and_bitmaps (sample_ckpt_state 9000 506) 512)) as [st' E];
    [vm_compute; reflexivity|].
  exists st'. split; [exact E|].
  apply (payload_repair_unmountable (sample_ckpt_state 9000 506) st' 506);
    [vm_compute; reflexivity|lia|exact E].
Defined.

(** A 2 TiB device formatted with [-i] (large NAT bitmap). *)
Definition large_nat_mkfs : mkfs_config :=
  let c := sample_mkfs 1 (2 ^ 32) in {|
  mc_sector_size := mc_sector_size c; mc_sectors_per_blk := mc_sectors_per_blk c;
  mc_blks_per_seg := mc_blks_per_seg c; mc_segs_per_sec := mc_segs_per_sec c;
  mc_secs_per_zone := mc_secs_per_zone c; mc_segs_per_zone := mc_segs_per_zone c;
  mc_start_sector := mc_start_sector c; mc_total_sectors := mc_total_sectors c;
  mc_total_segments := mc_total_segments c; mc_feature := mc_feature c;
  mc_zoned_mode := mc_zoned_mode c; mc_zone_blocks := mc_zone_blocks c; mc_large_nat_bitmap := true;
  mc_heap := mc_heap c; mc_overprovision := dbl_of_Z 1; mc_devices := mc_devices c;
  mc_quota_bits := mc_quota_bits c; mc_vol_label := mc_vol_label c; mc_ext_media := mc_ext_media c;
  mc_ext_hot := mc_ext_hot c; mc_s_encoding := mc_s_encoding c;
  mc_s_encoding_flags := mc_s_encoding_flags c; mc_uuid := mc_uuid c; mc_version := mc_version c |}.

(** mkfs and fsck disagree on [cp_payload]: for a 2 TiB device with a large
    NAT bitmap mkfs succeeds with a payload of 7 blocks, which
    [get_valid_checkpoint] (bounding it by the size of the SIT bitmap alone)
    rejects whatever the device holds. *)
Theorem large_nat_payload_rejected :
  match f2fs_prepare_super_block large_nat_mkfs with
  | Ok (Some r) => sb_cp_payload (mr_sb r) = 7 /\
                   forall d, get_valid_checkpoint d (mr_sb r) 512 = Ok (-22, None)
  | _ => False
  end.
Proof.
  assert (match f2fs_prepare_super_block large_nat_mkfs with
          | Ok (Some r) => sb_cp_payload (mr_sb r) | _ => 0 end = 7) as H by (vm_compute; reflexivity).
  destruct (f2fs_prepare_super_block large_nat_mkfs) as [[r|]| | |]; try done.
  split; [done|]. intros d. unfold get_valid_checkpoint. by rewrite H.
Qed.

(** The SIT and NAT version bitmaps never share a byte: wherever
    [__bitmap_ptr] places them (large NAT bitmap, payload blocks or both in the
    first block), the two ranges given by [__bitmap_size] are disjoint, provided
    a NAT bitmap that sits in the first block next to payload blocks ends
    before them. *)
Theorem version_bitmaps_disjoint (sb : f2fs_super_block) (cp : list Z) (ps pn ss sn : Z) :
  bytes cp -> __bitmap_size cp SIT_BITMAP = Ok ss -> __bitmap_size cp NAT_BITMAP = Ok sn ->
  ss < 2 ^ 31 -> sn < 2 ^ 31 -> ofs_sit_nat_version_bitmap + sn <= F2FS_BLKSIZE \/ sb_cp_payload sb <= 0 \/
    is_set_ckpt_flags cp CP_LARGE_NAT_BITMAP_FLAG = Ok true ->
  __bitmap_ptr sb cp SIT_BITMAP = Ok ps -> __bitmap_ptr sb cp NAT_BITMAP = Ok pn ->
  ofs_sit_nat_version_bitmap <= ps /\ ofs_sit_nat_version_bitmap <= pn /\
  (ps + ss <= pn \/ pn + sn <= ps).
Proof.
  unfold __bitmap_size, __bitmap_ptr. intros Hb Hss Hsn Hs31 Hn31 Hpay Hps Hpn.
  pose proof (get_le_range _ _ _ _ Hb Hss) as Hs. pose proof (get_le_range _ _ _ _ Hb Hsn) as Hn.
  assert (forall x, 0 <= x < 2 ^ 31 -> s32 x = x) as H32.
  { intros x Hx. unfold s32, sgn. rewrite Z.mod_small by lia.
    destruct (Z.ltb_spec x (2 ^ (32 - 1))); lia. }
  apply res_bind_Ok in Hps as (lg & Hlg & Hps). rewrite Hlg in Hpn. cbn [mbind res_bind] in Hpn.
  unfold ofs_sit_nat_version_bitmap in *. destruct lg.
  - rewrite Hsn in Hps. cbn [mbind res_bind] in Hps. cbn [mbind res_bind] in Hpn.
    destruct (get_le32 cp ofs_cp_checksum_offset) as [co| | |]; try done. cbn [mbind res_bind] in Hps, Hpn.
    apply Ok_inj in Hps, Hpn. rewrite H32 in Hps by lia. change (s32 0) with 0 in Hpn.
    destruct (co =? CP_MIN_CHKSUM_OFFSET); lia.
  - destruct (Z.ltb_spec 0 (sb_cp_payload sb)).
    + apply Ok_inj in Hps, Hpn. destruct Hpay as [?|[?|Hl]]; [lia|lia|congruence].
    + rewrite Hss in Hpn. cbn [mbind res_bind] in Hps, Hpn. apply Ok_inj in Hps, Hpn.
      rewrite H32 in Hpn by lia. change (s32 0) with 0 in Hps. lia.
Qed.

Lemma version_bitmaps_disjoint_witness :
  __bitmap_ptr (sample_sb 0 1 31 2) (sample_ckpt 9000 1) SIT_BITMAP = Ok 192 /\
  __bitmap_ptr (sample_sb 0 1 31 2) (sample_ckpt 9000 1) NAT_BITMAP = Ok 256 /\
  (192 + 64 <= 256 \/ 256 + 64 <= 192).
Proof.
  assert (H1 : __bitmap_ptr (sample_sb 0 1 31 2) (sample_ckpt 9000 1) SIT_BITMAP = Ok 192)
    by (vm_compute; reflexivity).
  assert (H2 : __bitmap_ptr (sample_sb 0 1 31 2) (sample_ckpt 9000 1) NAT_BITMAP = Ok 256)
    by (vm_compute; reflexivity).
  split; [exact H1|]. split; [exact H2|].
  refine (proj2 (proj2 (version_bitmaps_disjoint (sample_sb 0 1 31 2) (sample_ckpt 9000 1) 192 256 64 64
    _ _ _ _ _ _ H1 H2))); [|vm_compute; reflexivity|vm_compute; reflexivity|lia|lia|left; done].
  unfold sample_ckpt. cbn [fold_left fst snd].
  repeat (apply bytes_splice; [|apply bytes_le_bytes]). apply Forall_replicate. unfold is_u8; lia.
Defined.
