(* ===== verification/Nat.v ===== *)
(** The node address table (fsck/mount.c, fsck/node.c, fsck/f2fs.h): where the
    entry of a node id lies ([current_nat_addr], the version bitmap, the journal
    in the summary block of the hot data segment), reading and changing entries,
    flushing the journal, and the bitmap of used node ids from which
    [f2fs_alloc_nid] allocates.

    A NAT entry is the nine bytes the code copies with [memcpy]; blocks are read
    from and written to the [disk] of Superblock.v. The abstract view is [nat_of],
    the entry the tools see for a node id: the journal's, or else the block's. *)
From Stdlib Require Import ZArith Lia List Bool.
From stdpp Require Import base numbers list gmap.
From S2P Require Import Prelude Codec Bits Crc Superblock Mkfs Checkpoint.

(** * State *)

Inductive f2fs_config_func := MKFS | FSCK | DUMP | DEFRAG | RESIZE | SLOAD | LABEL.
Definition is_fsck (f : f2fs_config_func) : bool := match f with FSCK => true | _ => false end.
(** [c.func == SLOAD || c.func == FSCK] *)
Definition keeps_nids (f : f2fs_config_func) : bool := match f with SLOAD | FSCK => true | _ => false end.

(** [struct f2fs_nm_info]; [nid_bitmap] is empty while the pointer is unset. *)
Record f2fs_nm_info := {
  nm_nat_blkaddr : Z;
  nm_nat_blocks : Z;
  nm_max_nid : Z;
  nm_init_scan_nid : Z;
  nm_next_scan_nid : Z;
  nm_nat_bitmap : list Z;
  nm_nid_bitmap : list Z;
}.

(** What the NAT code reads and changes of [struct f2fs_sb_info] and [c]:
    [ns_sum] is the summary block of [CURSEG_HOT_DATA], [ns_entries] the array
    [F2FS_FSCK(sbi)->entries] of [nr_nat_entries] cached entries. *)
Record nat_state := {
  ns_func : f2fs_config_func;
  ns_fix_on : bool;
  ns_sb : f2fs_super_block;
  ns_log : Z;
  ns_main_blkaddr : Z;
  ns_node_ino : Z;
  ns_meta_ino : Z;
  ns_nm : f2fs_nm_info;
  ns_sum : list Z;
  ns_disk : disk;
  ns_entries : list (list Z);
}.

Definition with_disk (st : nat_state) (d : disk) : nat_state := {|
  ns_func := ns_func st; ns_fix_on := ns_fix_on st; ns_sb := ns_sb st; ns_log := ns_log st;
  ns_main_blkaddr := ns_main_blkaddr st; ns_node_ino := ns_node_ino st; ns_meta_ino := ns_meta_ino st;
  ns_nm := ns_nm st; ns_sum := ns_sum st; ns_disk := d; ns_entries := ns_entries st |}.
Definition with_sum (st : nat_state) (s : list Z) : nat_state := {|
  ns_func := ns_func st; ns_fix_on := ns_fix_on st; ns_sb := ns_sb st; ns_log := ns_log st;
  ns_main_blkaddr := ns_main_blkaddr st; ns_node_ino := ns_node_ino st; ns_meta_ino := ns_meta_ino st;
  ns_nm := ns_nm st; ns_sum := s; ns_disk := ns_disk st; ns_entries := ns_entries st |}.
Definition with_entries (st : nat_state) (e : list (list Z)) : nat_state := {|
  ns_func := ns_func st; ns_fix_on := ns_fix_on st; ns_sb := ns_sb st; ns_log := ns_log st;
  ns_main_blkaddr := ns_main_blkaddr st; ns_node_ino := ns_node_ino st; ns_meta_ino := ns_meta_ino st;
  ns_nm := ns_nm st; ns_sum := ns_sum st; ns_disk := ns_disk st; ns_entries := e |}.
Definition with_fix_on (st : nat_state) : nat_state := {|
  ns_func := ns_func st; ns_fix_on := true; ns_sb := ns_sb st; ns_log := ns_log st;
  ns_main_blkaddr := ns_main_blkaddr st; ns_node_ino := ns_node_ino st; ns_meta_ino := ns_meta_ino st;
  ns_nm := ns_nm st; ns_sum := ns_sum st; ns_disk := ns_disk st; ns_entries := ns_entries st |}.
Definition with_nm (st : nat_state) (nm : f2fs_nm_info) : nat_state := {|
  ns_func := ns_func st; ns_fix_on := ns_fix_on st; ns_sb := ns_sb st; ns_log := ns_log st;
  ns_main_blkaddr := ns_main_blkaddr st; ns_node_ino := ns_node_ino st; ns_meta_ino := ns_meta_ino st;
  ns_nm := nm; ns_sum := ns_sum st; ns_disk := ns_disk st; ns_entries := ns_entries st |}.
Definition with_nid_bitmap (st : nat_state) (bm : list Z) : nat_state :=
  with_nm st {|
    nm_nat_blkaddr := nm_nat_blkaddr (ns_nm st); nm_nat_blocks := nm_nat_blocks (ns_nm st);
    nm_max_nid := nm_max_nid (ns_nm st); nm_init_scan_nid := nm_init_scan_nid (ns_nm st);
    nm_next_scan_nid := nm_next_scan_nid (ns_nm st); nm_nat_bitmap := nm_nat_bitmap (ns_nm st);
    nm_nid_bitmap := bm |}.

(** * Layout *)

Definition SIZE_OF_NAT_ENTRY : Z := 9.
Definition NAT_BLOCK_OFFSET (start_nid : Z) : Z := start_nid / NAT_ENTRY_PER_BLOCK.

(** Members of [struct f2fs_nat_entry]. *)
Definition ofs_ne_version : Z := 0.
Definition ofs_ne_ino : Z := 1.
Definition ofs_ne_block_addr : Z := 5.

(** The journal in a summary block: its count and the entries after it. *)
Definition ofs_journal : Z := 3584.
Definition SUM_JOURNAL_SIZE : Z := 507.
Definition SIZE_OF_NAT_JOURNAL_ENTRY : Z := 13.
Definition NAT_JOURNAL_ENTRIES : Z := (SUM_JOURNAL_SIZE - 2) / SIZE_OF_NAT_JOURNAL_ENTRY.

Definition nats_in_cursum (sum : list Z) : res Z := get_le16 sum ofs_journal.
Definition ofs_nid_in_journal (i : Z) : Z := ofs_journal + 2 + SIZE_OF_NAT_JOURNAL_ENTRY * i.
Definition ofs_nat_in_journal (i : Z) : Z := ofs_nid_in_journal i + 4.
Definition nid_in_journal (sum : list Z) (i : Z) : res Z := get_le32 sum (ofs_nid_in_journal i).
Definition nat_in_journal (sum : list Z) (i : Z) : res (list Z) :=
  rd_bytes sum (ofs_nat_in_journal i) (Z.to_nat SIZE_OF_NAT_ENTRY).

Definition IS_VALID_NID (st : nat_state) (nid : Z) : res bool :=
  _ ← defined_ ((1 <=? ns_log st) && (ns_log st <=? 64));
  Ok (nid <? u64 (Z.shiftl (u64 (NAT_ENTRY_PER_BLOCK * sb_segment_count_nat (ns_sb st))) (ns_log st - 1))).

Definition NULL_ADDR : Z := 0.
Definition NEW_ADDR : Z := u32 (-1).

Definition IS_VALID_BLK_ADDR (st : nat_state) (addr : Z) : bool :=
  if (addr =? NULL_ADDR) || (addr =? NEW_ADDR) then true
  else if (sb_block_count (ns_sb st) <=? addr) || (addr <? ns_main_blkaddr st) then false
  else true.

(** * Reading entries *)

(** The block of the entry and [*pack]. [seg_off] is an [int], the sum with
    [nat_blkaddr] an unsigned one, the rest [unsigned long]. *)
Definition current_nat_addr (st : nat_state) (start : Z) : res (Z * Z) :=
  let nm := ns_nm st in
  let block_off := NAT_BLOCK_OFFSET start in
  _ ← defined_ ((0 <=? ns_log st) && (ns_log st <? 31));
  let seg_off := s32 (Z.shiftr block_off (ns_log st)) in
  let block_addr := u64 (u32 (nm_nat_blkaddr nm + Z.shiftl (Z.shiftl seg_off (ns_log st)) 1)
                         + Z.land block_off (Z.shiftl 1 (ns_log st) - 1)) in
  b ← f2fs_test_bit block_off (nm_nat_bitmap nm);
  if b =? 0 then Ok (block_addr, 1)
  else Ok (u64 (block_addr + Z.shiftl 1 (ns_log st)), 2).

(** The index of the first journal entry of [nid] below [n]. *)
Fixpoint journal_find (n : nat) (sum : list Z) (i nid : Z) : res (option Z) :=
  match n with
  | O => Ok None
  | S n =>
      nid' ← nid_in_journal sum i;
      if nid' =? nid then Ok (Some i) else journal_find n sum (i + 1) nid
  end.

(** [Some raw_nat] where the C code returns an index. *)
Definition lookup_nat_in_journal (st : nat_state) (nid : Z) : res (option (list Z)) :=
  n ← nats_in_cursum (ns_sum st);
  r ← journal_find (Z.to_nat n) (ns_sum st) 0 nid;
  match r with
  | Some i => ne ← nat_in_journal (ns_sum st) i; Ok (Some ne)
  | None => Ok None
  end.

(** Entry [off] of a NAT block. *)
Definition nat_block_entry (blk : list Z) (off : Z) : res (list Z) :=
  rd_bytes blk (SIZE_OF_NAT_ENTRY * off) (Z.to_nat SIZE_OF_NAT_ENTRY).

Definition get_nat_entry (st : nat_state) (nid : Z) : res (list Z) :=
  j ← lookup_nat_in_journal st nid;
  match j with
  | Some ne => Ok ne
  | None =>
      let entry_off := nid mod NAT_ENTRY_PER_BLOCK in
      '(block_addr, _) ← current_nat_addr st nid;
      nat_block ← disk_read_or_die (ns_disk st) block_addr;
      nat_block_entry nat_block entry_off
  end.

Record node_info := { ni_nid : Z; ni_ino : Z; ni_blk_addr : Z; ni_version : Z }.

Definition node_info_from_raw_nat (nid : Z) (raw_nat : list Z) : res node_info :=
  ino ← get_le32 raw_nat ofs_ne_ino;
  blk ← get_le32 raw_nat ofs_ne_block_addr;
  ver ← rd raw_nat ofs_ne_version;
  Ok {| ni_nid := nid; ni_ino := ino; ni_blk_addr := blk; ni_version := ver |}.

Definition get_node_info (st : nat_state) (nid : Z) : res node_info :=
  let uncached := raw ← get_nat_entry st nid; node_info_from_raw_nat nid raw in
  if is_fsck (ns_func st) && negb (Z.of_nat (length (ns_entries st)) =? 0) then
    e ← rd (ns_entries st) nid;
    ni ← node_info_from_raw_nat nid e;
    if ni_blk_addr ni =? 0 then uncached else Ok ni
  else uncached.

(** * Changing entries *)

Definition update_nat_blkaddr (st : nat_state) (ino nid newaddr : Z) : res nat_state :=
  let entry_off := nid mod NAT_ENTRY_PER_BLOCK in
  let e := SIZE_OF_NAT_ENTRY * entry_off in
  '(block_addr, _) ← current_nat_addr st nid;
  nat_block ← disk_read_or_die (ns_disk st) block_addr;
  nat_block ← (if ino =? 0 then Ok nat_block else set_le32 nat_block (e + ofs_ne_ino) ino);
  nat_block ← set_le32 nat_block (e + ofs_ne_block_addr) newaddr;
  entries ← (if is_fsck (ns_func st) then
               ne ← nat_block_entry nat_block entry_off; wr (ns_entries st) nid ne
             else Ok (ns_entries st));
  d ← disk_write_or_die (ns_disk st) block_addr nat_block;
  Ok (with_disk (with_entries st entries) d).

Definition nullify_nat_entry (st : nat_state) (nid : Z) : res nat_state :=
  n ← nats_in_cursum (ns_sum st);
  r ← journal_find (Z.to_nat n) (ns_sum st) 0 nid;
  match r with
  | Some i =>
      sum ← wr_list (ns_sum st) (ofs_nat_in_journal i) (replicate (Z.to_nat SIZE_OF_NAT_ENTRY) 0);
      Ok (with_sum st sum)
  | None =>
      let entry_off := nid mod NAT_ENTRY_PER_BLOCK in
      let e := SIZE_OF_NAT_ENTRY * entry_off in
      '(block_addr, _) ← current_nat_addr st nid;
      nat_block ← disk_read_or_die (ns_disk st) block_addr;
      nat_block ← (if (nid =? ns_node_ino st) || (nid =? ns_meta_ino st)
                   then set_le32 nat_block (e + ofs_ne_block_addr) 1
                   else wr_list nat_block e (replicate (Z.to_nat SIZE_OF_NAT_ENTRY) 0));
      d ← disk_write_or_die (ns_disk st) block_addr nat_block;
      Ok (with_disk st d)
  end.

(** One turn of the [goto next] loop. *)
Definition flush_nat_journal_entry (st : nat_state) (i : Z) : res nat_state :=
  nid ← nid_in_journal (ns_sum st) i;
  let entry_off := nid mod NAT_ENTRY_PER_BLOCK in
  '(block_addr, _) ← current_nat_addr st nid;
  nat_block ← disk_read_or_die (ns_disk st) block_addr;
  ne ← nat_in_journal (ns_sum st) i;
  nat_block ← wr_list nat_block (SIZE_OF_NAT_ENTRY * entry_off) ne;
  d ← disk_write_or_die (ns_disk st) block_addr nat_block;
  Ok (with_disk st d).

Fixpoint flush_nat_journal_loop (n : nat) (st : nat_state) (i : Z) : res nat_state :=
  match n with
  | O => Ok st
  | S n => st ← flush_nat_journal_entry st i; flush_nat_journal_loop n st (i + 1)
  end.

(** The journal's count does not change in the loop; the number of flushed
    entries and the state with an empty journal. *)
Definition flush_nat_journal_entries (st : nat_state) : res (Z * nat_state) :=
  n ← nats_in_cursum (ns_sum st);
  st ← flush_nat_journal_loop (Z.to_nat n) st 0;
  sum ← set_le16 (ns_sum st) ofs_journal 0;
  Ok (n, with_sum st sum).

(** * The bitmap of used node ids *)

Fixpoint early_init_loop (n : nat) (st : nat_state) (i : Z) : res nat_state :=
  match n with
  | O => Ok st
  | S n =>
      ne ← nat_in_journal (ns_sum st) i;
      addr ← get_le32 ne ofs_ne_block_addr;
      if negb (IS_VALID_BLK_ADDR st addr) then
        sum ← set_le16 (ns_sum st) ofs_journal i; Ok (with_fix_on (with_sum st sum))
      else
        nid ← nid_in_journal (ns_sum st) i;
        valid ← IS_VALID_NID st nid;
        if valid : bool then
          st ← (if addr =? NULL_ADDR then Ok st
                else '(_, bm) ← f2fs_set_bit nid (nm_nid_bitmap (ns_nm st)); Ok (with_nid_bitmap st bm));
          early_init_loop n st (i + 1)
        else sum ← set_le16 (ns_sum st) ofs_journal i; Ok (with_fix_on (with_sum st sum))
  end.

(** After [n_nats = i] the loop condition [i + 1 < n_nats] is false. *)
Definition f2fs_early_init_nid_bitmap (st : nat_state) : res nat_state :=
  if negb (keeps_nids (ns_func st)) then Ok st
  else
    let size := u32 (nm_max_nid (ns_nm st) + BITS_PER_BYTE - 1) / BITS_PER_BYTE in
    let st := with_nid_bitmap st (replicate (Z.to_nat size) 0) in
    '(_, bm) ← f2fs_set_bit 0 (nm_nid_bitmap (ns_nm st));
    let st := with_nid_bitmap st bm in
    n ← nats_in_cursum (ns_sum st);
    st ← (if NAT_JOURNAL_ENTRIES <? n then
            sum ← set_le16 (ns_sum st) ofs_journal NAT_JOURNAL_ENTRIES; Ok (with_fix_on (with_sum st sum))
          else Ok st);
    n ← nats_in_cursum (ns_sum st);
    early_init_loop (Z.to_nat n) st 0.

Fixpoint late_init_loop (n : nat) (st : nat_state) (nid : Z) (nat_block : list Z) : res nat_state :=
  match n with
  | O => Ok st
  | S n =>
      nat_block ← (if nid mod NAT_ENTRY_PER_BLOCK =? 0 then
                     '(start_blk, _) ← current_nat_addr st nid; disk_read_or_die (ns_disk st) start_blk
                   else Ok nat_block);
      ne ← nat_block_entry nat_block (nid mod NAT_ENTRY_PER_BLOCK);
      addr ← get_le32 ne ofs_ne_block_addr;
      st ← (if addr =? 0 then Ok st
            else '(_, bm) ← f2fs_set_bit nid (nm_nid_bitmap (ns_nm st)); Ok (with_nid_bitmap st bm));
      late_init_loop n st (nid + 1) nat_block
  end.

Definition f2fs_late_init_nid_bitmap (st : nat_state) : res nat_state :=
  if negb (keeps_nids (ns_func st)) then Ok st
  else late_init_loop (Z.to_nat (nm_max_nid (ns_nm st))) st 0 [].

Definition ofs_next_free_nid : Z := 152.

(** The members [init_node_manager] sets; [cp] is the checkpoint with its payload.
    A negative size makes [malloc] fail, and the error is [-ENOMEM]. *)
Definition init_node_manager (st : nat_state) (cp : list Z) : res (Z * nat_state) :=
  let sb := ns_sb st in
  let nat_segs := Z.shiftr (sb_segment_count_nat sb) 1 in
  _ ← defined_ ((0 <=? sb_log_blocks_per_seg sb) && (sb_log_blocks_per_seg sb <? 32));
  let nat_blocks := u32 (Z.shiftl nat_segs (sb_log_blocks_per_seg sb)) in
  next_free ← get_le32 cp ofs_next_free_nid;
  size ← __bitmap_size cp NAT_BITMAP;
  let nm bm := {|
    nm_nat_blkaddr := sb_nat_blkaddr sb; nm_nat_blocks := nat_blocks;
    nm_max_nid := u32 (NAT_ENTRY_PER_BLOCK * nat_blocks);
    nm_init_scan_nid := next_free; nm_next_scan_nid := next_free;
    nm_nat_bitmap := bm; nm_nid_bitmap := nm_nid_bitmap (ns_nm st) |} in
  if s32 size <? 0 then Ok (-12, with_nm st (nm (nm_nat_bitmap (ns_nm st))))
  else
    version_bitmap ← __bitmap_ptr sb cp NAT_BITMAP;
    bm ← rd_bytes cp version_bitmap (Z.to_nat (s32 size));
    st ← f2fs_early_init_nid_bitmap (with_nm st (nm bm));
    Ok (0, st).

Fixpoint alloc_nid_loop (n : nat) (bm : list Z) (i : Z) : res Z :=
  match n with
  | O => Ok i
  | S n => b ← f2fs_test_bit i bm; if b =? 0 then Ok i else alloc_nid_loop n bm (i + 1)
  end.

Definition f2fs_alloc_nid (st : nat_state) : res (Z * nat_state) :=
  let bm := nm_nid_bitmap (ns_nm st) in
  i ← alloc_nid_loop (Z.to_nat (nm_max_nid (ns_nm st))) bm 0;
  _ ← assert_ (i <? nm_max_nid (ns_nm st));
  '(_, bm) ← f2fs_set_bit i bm;
  Ok (i, with_nid_bitmap st bm).

Definition f2fs_release_nid (st : nat_state) (nid : Z) : res nat_state :=
  let bm := nm_nid_bitmap (ns_nm st) in
  _ ← assert_ (nid <? nm_max_nid (ns_nm st));
  b ← f2fs_test_bit nid bm;
  _ ← assert_ (negb (b =? 0));
  '(_, bm) ← f2fs_clear_bit nid bm;
  Ok (with_nid_bitmap st bm).

(** * The table as the tools see it *)

(** A mounted volume: [k] pairs of NAT segments of 512 blocks, all readable, a
    version bitmap and a summary block with a journal that fits. *)
Record nat_ok (st : nat_state) (k : Z) : Prop := {
  no_log : ns_log st = 9;
  no_segs : sb_segment_count_nat (ns_sb st) = 2 * k;
  no_pos : 0 < k;
  no_max : nm_max_nid (ns_nm st) = 455 * (512 * k);
  no_max32 : 455 * (512 * k) < 2 ^ 32;
  no_addr : 0 <= nm_nat_blkaddr (ns_nm st) /\ nm_nat_blkaddr (ns_nm st) + 1024 * k <= 2 ^ 32;
  no_bitmap : bytes (nm_nat_bitmap (ns_nm st)) /\ 512 * k <= nbits (nm_nat_bitmap (ns_nm st));
  no_disk : forall a, nm_nat_blkaddr (ns_nm st) <= a < nm_nat_blkaddr (ns_nm st) + 1024 * k ->
    has_block (ns_disk st) a;
  no_sum : length (ns_sum st) = 4096%nat /\ bytes (ns_sum st);
}.

Definition valid_nid (st : nat_state) (nid : Z) : Prop := 0 <= nid < nm_max_nid (ns_nm st).

(** The block of the current copy of a node id's entry. *)
Definition nat_addr (st : nat_state) (nid : Z) : Z :=
  let bo := nid / 455 in
  nm_nat_blkaddr (ns_nm st) + 1024 * (bo / 512) + bo mod 512
  + (if bit_be (nm_nat_bitmap (ns_nm st)) bo then 512 else 0).

(** The entry in that block. *)
Definition block_entry (st : nat_state) (nid : Z) : res (list Z) :=
  blk ← disk_read_or_die (ns_disk st) (nat_addr st nid); nat_block_entry blk (nid mod 455).

Lemma s32_small z : 0 <= z < 2 ^ 31 -> s32 z = z.
Proof.
  intros H. unfold s32, sgn. cbv zeta. rewrite Z.mod_small by lia.
  change (32 - 1) with 31. by replace (z <? 2 ^ 31) with true by lia.
Qed.

Lemma test_bit_be l i : bytes l -> 0 <= i < nbits l ->
  exists v, f2fs_test_bit i l = Ok v /\ (v =? 0) = negb (bit_be l i).
Proof.
  intros Hl Hi. destruct (@bm_test_ok _ be_bitmap_laws l i Hl Hi) as (v & Hv & Hb).
  exists v. split; [done|]. cbn in Hb. by rewrite <- Hb, negb_involutive.
Qed.

Section Table.
Context (st : nat_state) (k : Z) (Hok : nat_ok st k).

Lemma nat_addr_range nid : valid_nid st nid ->
  nm_nat_blkaddr (ns_nm st) <= nat_addr st nid < nm_nat_blkaddr (ns_nm st) + 1024 * k.
Proof.
  intros Hn. unfold valid_nid in Hn. rewrite (no_max _ _ Hok) in Hn. unfold nat_addr. cbv zeta.
  destruct (bit_be _ _); Z.to_euclidean_division_equations; lia.
Qed.

Lemma current_nat_addr_eq nid : valid_nid st nid ->
  exists pack, current_nat_addr st nid = Ok (nat_addr st nid, pack).
Proof.
  intros Hn. pose proof (nat_addr_range nid Hn) as Hr. unfold valid_nid in Hn.
  destruct Hok as [Hlog _ _ Hmax Hmax32 Haddr [Hbm Hnb] _ _]. rewrite Hmax in Hn.
  unfold current_nat_addr, NAT_BLOCK_OFFSET. change NAT_ENTRY_PER_BLOCK with 455. rewrite Hlog.
  cbn [mbind res_bind]. change (defined_ _) with (@Ok unit tt).
  assert (0 <= nid / 455 < 512 * k) as Hbo by (Z.to_euclidean_division_equations; lia).
  destruct (test_bit_be (nm_nat_bitmap (ns_nm st)) (nid / 455)) as (v & Hv & Hb); [done|lia|].
  cbn [mbind res_bind]. rewrite Hv. cbn [mbind res_bind]. rewrite Hb.
  change (Z.shiftl 1 9 - 1) with (2 ^ 9 - 1). rewrite land_ones_mod by lia.
  rewrite !Z.shiftl_mul_pow2, Z.shiftr_div_pow2 by lia. change (2 ^ 9) with 512. change (2 ^ 1) with 2.
  rewrite s32_small by (Z.to_euclidean_division_equations; lia).
  assert (nm_nat_blkaddr (ns_nm st) + nid / 455 / 512 * 512 * 2 + nid / 455 mod 512 + 512
    <= nm_nat_blkaddr (ns_nm st) + 1024 * k) by (Z.to_euclidean_division_equations; lia).
  rewrite u32_id by (unfold is_u32; Z.to_euclidean_division_equations; lia).
  rewrite (u64_id (nm_nat_blkaddr _ + _ + _)) by (unfold is_u64; Z.to_euclidean_division_equations; lia).
  unfold nat_addr. cbv zeta. destruct (bit_be _ _); cbn [negb]; eexists; f_equal; f_equal; [|lia].
  rewrite u64_id by (unfold is_u64; Z.to_euclidean_division_equations; lia). lia.
Qed.

(** The entries of two node ids share a block only if they are in the same group
    of 455. *)
Lemma nat_addr_inj n1 n2 : valid_nid st n1 -> valid_nid st n2 ->
  nat_addr st n1 = nat_addr st n2 -> n1 / 455 = n2 / 455.
Proof.
  intros H1 H2. unfold nat_addr. cbv zeta.
  destruct (Z.eq_dec (n1 / 455) (n2 / 455)) as [E|Hne]; [by rewrite E|].
  destruct (bit_be _ (n1 / 455)), (bit_be _ (n2 / 455)); Z.to_euclidean_division_equations; lia.
Qed.

Lemma nat_block_has nid : valid_nid st nid ->
  exists blk, ns_disk st !! nat_addr st nid = Some blk /\ length blk = 4096%nat /\ bytes blk.
Proof. intros Hn. apply (no_disk _ _ Hok). by apply nat_addr_range. Qed.

Lemma get_nat_entry_eq nid : valid_nid st nid ->
  get_nat_entry st nid =
    (j ← lookup_nat_in_journal st nid; match j with Some ne => Ok ne | None => block_entry st nid end).
Proof.
  intros Hn. unfold get_nat_entry. destruct (current_nat_addr_eq nid Hn) as [p ->].
  change NAT_ENTRY_PER_BLOCK with 455. done.
Qed.

Lemma block_entry_total nid : valid_nid st nid ->
  exists raw, block_entry st nid = Ok raw /\ length raw = 9%nat /\ bytes raw.
Proof.
  intros Hn. destruct (nat_block_has nid Hn) as (blk & Hb & Hl & Hby).
  unfold block_entry, disk_read_or_die, disk_read. rewrite Hb. cbn [mbind res_bind].
  unfold nat_block_entry, SIZE_OF_NAT_ENTRY. rewrite rd_bytes_Ok by (Z.to_euclidean_division_equations; lia).
  eexists. split; [done|]. split; [|by apply Forall_take, Forall_drop].
  rewrite length_take, length_drop. Z.to_euclidean_division_equations. lia.
Qed.
End Table.

(** Replacing a block in which only the entry of [nid] differs. *)
Lemma block_write st k nid blk blk' :
  nat_ok st k -> valid_nid st nid -> ns_disk st !! nat_addr st nid = Some blk ->
  length blk' = 4096%nat -> bytes blk' ->
  (forall i, i < 9 * (nid mod 455) \/ 9 * (nid mod 455) + 9 <= i -> rd blk' i = rd blk i) ->
  let st' := with_disk st (<[nat_addr st nid := blk']> (ns_disk st)) in
  nat_ok st' k /\ block_entry st' nid = nat_block_entry blk' (nid mod 455) /\
  forall n2, valid_nid st n2 -> n2 <> nid -> block_entry st' n2 = block_entry st n2.
Proof.
  intros Hok Hn Hblk Hl Hby Hfr st'. subst st'. split; [|split].
  - destruct Hok as [H1 H2 H3 H4 H5 H6 H7 H8 H9].
    constructor; cbn [ns_log ns_sb ns_nm ns_disk ns_sum with_disk]; try done.
    intros a Ha. destruct (decide (a = nat_addr st nid)) as [->|Hne].
    + exists blk'. by rewrite lookup_insert_eq.
    + destruct (H8 a Ha) as (b & Hb & ?). exists b. by rewrite lookup_insert_ne.
  - unfold block_entry, disk_read_or_die, disk_read.
    change (nat_addr (with_disk _ _) nid) with (nat_addr st nid). cbn [ns_disk with_disk].
    by rewrite lookup_insert_eq.
  - intros n2 Hn2 Hne. unfold block_entry, disk_read_or_die, disk_read.
    change (nat_addr (with_disk _ _) n2) with (nat_addr st n2). cbn [ns_disk with_disk].
    destruct (Z.eq_dec (nat_addr st n2) (nat_addr st nid)) as [E|E]; [|by rewrite lookup_insert_ne].
    rewrite E, lookup_insert_eq, Hblk. cbn [mbind res_bind].
    apply (nat_addr_inj st n2 nid) in E; [|done..].
    unfold nat_block_entry, SIZE_OF_NAT_ENTRY. apply rd_bytes_ext. intros i Hi. apply Hfr.
    Z.to_euclidean_division_equations. lia.
Qed.

(** Reading a member of an entry in its block. *)
Lemma rd_sub l e n raw i :
  0 <= e -> e + Z.of_nat n <= Z.of_nat (length l) -> rd_bytes l e n = Ok raw -> 0 <= i < Z.of_nat n ->
  rd raw i = rd l (e + i).
Proof.
  intros H0 Hl. rewrite rd_bytes_Ok by lia. intros <-%Ok_inj Hi. unfold rd.
  replace (i <? 0) with false by lia. replace (e + i <? 0) with false by lia.
  rewrite lookup_take_lt by lia. rewrite lookup_drop. by rewrite Z2Nat.inj_add by lia.
Qed.

Lemma rd_bytes_sub m l e n raw ofs :
  0 <= e -> e + Z.of_nat n <= Z.of_nat (length l) -> rd_bytes l e n = Ok raw ->
  0 <= ofs -> ofs + Z.of_nat m <= Z.of_nat n -> rd_bytes raw ofs m = rd_bytes l (e + ofs) m.
Proof.
  intros H0 Hl Hr. revert ofs. induction m as [|m IH]; intros ofs Ho Hm; cbn [rd_bytes]; [done|].
  rewrite (rd_sub l e n raw) by (done || lia).
  replace (e + ofs + 1) with (e + (ofs + 1)) by lia. by rewrite IH by lia.
Qed.

Lemma get_le_sub m l e n raw ofs :
  0 <= e -> e + Z.of_nat n <= Z.of_nat (length l) -> rd_bytes l e n = Ok raw ->
  0 <= ofs -> ofs + Z.of_nat m <= Z.of_nat n -> get_le m raw ofs = get_le m l (e + ofs).
Proof. intros H0 Hl Hr Ho Hm. unfold get_le. by rewrite (rd_bytes_sub m l e n raw ofs). Qed.

(** * The journal *)

Lemma nid_in_journal_total sum i :
  length sum = 4096%nat -> 0 <= i < 38 -> exists nid, nid_in_journal sum i = Ok nid.
Proof. intros Hl Hi. apply get_le_total; unfold ofs_nid_in_journal, ofs_journal, SIZE_OF_NAT_JOURNAL_ENTRY; lia. Qed.

Lemma nat_in_journal_total sum i :
  length sum = 4096%nat -> bytes sum -> 0 <= i < 38 ->
  exists ne, nat_in_journal sum i = Ok ne /\ length ne = 9%nat /\ bytes ne.
Proof.
  intros Hl Hb Hi. unfold nat_in_journal, ofs_nat_in_journal, ofs_nid_in_journal, ofs_journal,
    SIZE_OF_NAT_JOURNAL_ENTRY, SIZE_OF_NAT_ENTRY.
  rewrite rd_bytes_Ok by lia. eexists. split; [done|]. split; [|by apply Forall_take, Forall_drop].
  rewrite length_take, length_drop. lia.
Qed.

Lemma journal_find_spec n sum i nid :
  length sum = 4096%nat -> 0 <= i -> i + Z.of_nat n <= 38 ->
  exists r, journal_find n sum i nid = Ok r /\
    match r with
    | Some j => i <= j < i + Z.of_nat n /\ nid_in_journal sum j = Ok nid
    | None => forall j, i <= j < i + Z.of_nat n -> nid_in_journal sum j <> Ok nid
    end.
Proof.
  intros Hl. revert i. induction n as [|n IH]; intros i H0 Hn; cbn [journal_find].
  - exists None. split; [done|]. intros j Hj. lia.
  - destruct (nid_in_journal_total sum i Hl) as [x Hx]; [lia|]. rewrite Hx. cbn [mbind res_bind].
    destruct (Z.eqb_spec x nid) as [->|Hne].
    + exists (Some i). split; [done|]. split; [lia|done].
    + destruct (IH (i + 1)) as (r & Hr & Hspec); [lia..|]. exists r. split; [done|]. destruct r as [j|].
      * destruct Hspec. split; [lia|done].
      * intros j Hj. destruct (Z.eq_dec j i) as [->|]; [|apply Hspec; lia].
        rewrite Hx. intros E%Ok_inj. done.
Qed.

(** The journal is well formed: it has at most [NAT_JOURNAL_ENTRIES] entries. *)
Definition journal_count (st : nat_state) (n : Z) : Prop :=
  nats_in_cursum (ns_sum st) = Ok n /\ 0 <= n <= 38.

Lemma lookup_journal_spec st k n nid :
  nat_ok st k -> journal_count st n ->
  (exists j ne, 0 <= j < n /\ nid_in_journal (ns_sum st) j = Ok nid /\
     nat_in_journal (ns_sum st) j = Ok ne /\ lookup_nat_in_journal st nid = Ok (Some ne)) \/
  (forall j, 0 <= j < n -> nid_in_journal (ns_sum st) j <> Ok nid) /\ lookup_nat_in_journal st nid = Ok None.
Proof.
  intros Hok [Hn Hr]. destruct (no_sum _ _ Hok) as [Hl Hb]. unfold lookup_nat_in_journal. rewrite Hn.
  destruct (journal_find_spec (Z.to_nat n) (ns_sum st) 0 nid Hl) as (r & Hf & Hs); [lia..|].
  cbn [mbind res_bind]. rewrite Hf. cbn [mbind res_bind]. destruct r as [j|].
  - destruct Hs as [Hj Hnid]. destruct (nat_in_journal_total (ns_sum st) j Hl Hb) as (ne & Hne & _); [lia|].
    left. exists j, ne. rewrite Hne. split; [lia|done].
  - right. split; [|done]. intros j Hj. apply Hs. lia.
Qed.

(** Changing the disk does not change what the journal says. *)
Lemma lookup_journal_with_disk st d nid :
  lookup_nat_in_journal (with_disk st d) nid = lookup_nat_in_journal st nid.
Proof. done. Qed.

(** * Flushing the journal *)

Lemma flush_entry_spec st k n i nid ne :
  nat_ok st k -> journal_count st n -> 0 <= i < n ->
  nid_in_journal (ns_sum st) i = Ok nid -> nat_in_journal (ns_sum st) i = Ok ne -> valid_nid st nid ->
  exists d, flush_nat_journal_entry st i = Ok (with_disk st d) /\ nat_ok (with_disk st d) k /\
    block_entry (with_disk st d) nid = Ok ne /\
    forall n2, valid_nid st n2 -> n2 <> nid -> block_entry (with_disk st d) n2 = block_entry st n2.
Proof.
  intros Hok [_ Hn] Hi Hnid Hne Hv. destruct (no_sum _ _ Hok) as [Hl Hb].
  destruct (nat_in_journal_total (ns_sum st) i Hl Hb) as (ne' & Hne' & Hlen & Hby); [lia|].
  rewrite Hne in Hne'. apply Ok_inj in Hne' as <-.
  destruct (nat_block_has st k Hok nid Hv) as (blk & Hblk & Hbl & Hbb).
  destruct (current_nat_addr_eq st k Hok nid Hv) as [p Hp].
  assert (0 <= nid mod 455 < 455) as Hm by (apply Z.mod_pos_bound; lia).
  destruct (block_write st k nid blk (splice blk (9 * (nid mod 455)) ne) Hok Hv Hblk) as (Hok' & He & Ho).
  { rewrite length_splice by lia. done. }
  { by apply bytes_splice. }
  { intros j Hj. apply rd_splice_ne; lia. }
  exists (<[nat_addr st nid := splice blk (9 * (nid mod 455)) ne]> (ns_disk st)).
  split; [|split; [done|split; [|done]]].
  - unfold flush_nat_journal_entry. rewrite Hnid. cbn [mbind res_bind]. rewrite Hp.
    cbn [mbind res_bind]. unfold disk_read_or_die, disk_read. rewrite Hblk. cbn [mbind res_bind].
    rewrite Hne. cbn [mbind res_bind]. change NAT_ENTRY_PER_BLOCK with 455. unfold SIZE_OF_NAT_ENTRY.
    rewrite wr_list_splice by lia. cbn [mbind res_bind]. by rewrite disk_write_present by (by exists blk).
  - rewrite He. unfold nat_block_entry, SIZE_OF_NAT_ENTRY, splice.
    apply rd_bytes_app; [rewrite length_take; lia|done].
Qed.

(** The node ids in the journal are valid and different. *)
Definition journal_nids_ok (st : nat_state) (n : Z) : Prop :=
  (forall j nid, 0 <= j < n -> nid_in_journal (ns_sum st) j = Ok nid -> valid_nid st nid) /\
  (forall j1 j2 nid, 0 <= j1 < n -> 0 <= j2 < n ->
     nid_in_journal (ns_sum st) j1 = Ok nid -> nid_in_journal (ns_sum st) j2 = Ok nid -> j1 = j2).

Lemma flush_loop_spec m : forall st k n i,
  nat_ok st k -> journal_count st n -> journal_nids_ok st n -> 0 <= i -> i + Z.of_nat m = n ->
  exists d, flush_nat_journal_loop m st i = Ok (with_disk st d) /\ nat_ok (with_disk st d) k /\
    (forall j nid ne, i <= j < n -> nid_in_journal (ns_sum st) j = Ok nid ->
       nat_in_journal (ns_sum st) j = Ok ne -> block_entry (with_disk st d) nid = Ok ne) /\
    (forall nid, valid_nid st nid -> (forall j, i <= j < n -> nid_in_journal (ns_sum st) j <> Ok nid) ->
       block_entry (with_disk st d) nid = block_entry st nid).
Proof.
  induction m as [|m IH]; intros st k n i Hok Hc Hj H0 Hn; cbn [flush_nat_journal_loop].
  - exists (ns_disk st). destruct st; cbn. split; [done|]. split; [done|]. split; [lia|done].
  - destruct (no_sum _ _ Hok) as [Hl Hb]. pose proof Hc as [_ Hc38]. pose proof Hj as [Hval Hdist].
    destruct (nid_in_journal_total (ns_sum st) i Hl) as [nid Hnid]; [lia|].
    destruct (nat_in_journal_total (ns_sum st) i Hl Hb) as (ne & Hne & _); [lia|].
    assert (valid_nid st nid) as Hv by (apply (Hval i nid); [lia|done]).
    destruct (flush_entry_spec st k n i nid ne Hok Hc) as (d & Hf & Hok1 & He & Ho); [lia|done..|].
    rewrite Hf. cbn [mbind res_bind].
    destruct (IH (with_disk st d) k n (i + 1) Hok1 Hc Hj) as (d' & Hf' & Hok' & Hin & Hout); [lia..|].
    exists d'. split; [done|]. split; [done|]. split.
    + intros j nid' ne' Hjr Hnid' Hne'. destruct (Z.eq_dec j i) as [->|Hji]; [|apply (Hin j); [lia|done..]].
      rewrite Hnid in Hnid'. apply Ok_inj in Hnid' as <-. rewrite Hne in Hne'. apply Ok_inj in Hne' as <-.
      rewrite <- He. apply Hout; [done|]. intros j Hjr' Hjn.
      assert (j = i) by (apply (Hdist j i nid); [lia|lia|done|done]). lia.
    + intros nid' Hv' Hno. rewrite Hout; [apply Ho; [done|]| |]; [|done|].
      * intros ->. apply (Hno i); [lia|done].
      * intros j Hjr. apply Hno. lia.
Qed.

(** * Updating an entry *)

(** A block with the members of the entry at [e] set. *)
Definition updated_block (blk : list Z) (e ino newaddr : Z) : list Z :=
  splice (if ino =? 0 then blk else splice blk (e + 1) (le_bytes 4 ino)) (e + 5) (le_bytes 4 newaddr).

Lemma updated_block_spec blk e ino newaddr :
  length blk = 4096%nat -> bytes blk -> 0 <= e -> e + 9 <= 4096 -> is_u32 ino -> is_u32 newaddr ->
  let b := updated_block blk e ino newaddr in
  length b = 4096%nat /\ bytes b /\ (forall i, i < e \/ e + 9 <= i -> rd b i = rd blk i) /\
  get_le32 b (e + 5) = Ok newaddr /\
  get_le32 b (e + 1) = (if ino =? 0 then get_le32 blk (e + 1) else Ok ino) /\ rd b (e + 0) = rd blk (e + 0).
Proof.
  intros Hl Hb H0 He Hi Hn b.
  set (b1 := if ino =? 0 then blk else splice blk (e + 1) (le_bytes 4 ino)).
  assert (length b1 = 4096%nat /\ bytes b1) as [Hl1 Hb1].
  { subst b1. destruct (ino =? 0); [done|]. split; [rewrite length_splice; rewrite ?length_le_bytes; lia|].
    apply bytes_splice; [done|apply bytes_le_bytes]. }
  assert (forall i, i < e + 1 \/ e + 5 <= i -> rd b1 i = rd blk i) as Hf1.
  { intros i Hi'. subst b1. destruct (ino =? 0); [done|]. apply rd_splice_ne; rewrite ?length_le_bytes; lia. }
  change b with (splice b1 (e + 5) (le_bytes 4 newaddr)).
  split; [rewrite length_splice; rewrite ?length_le_bytes; lia|].
  split; [apply bytes_splice; [done|apply bytes_le_bytes]|]. split.
  { intros i Hi'. rewrite rd_splice_ne by (rewrite ?length_le_bytes; lia). apply Hf1. lia. }
  split; [apply get_set_le; unfold is_u32 in *; cbn; lia|]. split.
  - rewrite get_le_splice_ne by (rewrite ?length_le_bytes; lia). subst b1. destruct (ino =? 0); [done|].
    apply get_set_le; unfold is_u32 in *; cbn; lia.
  - rewrite rd_splice_ne by (rewrite ?length_le_bytes; lia). apply Hf1. lia.
Qed.

Lemma update_nat_blkaddr_eq st k ino nid newaddr blk raw' :
  nat_ok st k -> valid_nid st nid -> ns_disk st !! nat_addr st nid = Some blk -> length blk = 4096%nat ->
  (is_fsck (ns_func st) = true -> nid < Z.of_nat (length (ns_entries st))) ->
  let b := updated_block blk (9 * (nid mod 455)) ino newaddr in
  nat_block_entry b (nid mod 455) = Ok raw' ->
  update_nat_blkaddr st ino nid newaddr
  = Ok (with_disk (with_entries st (if is_fsck (ns_func st) then <[Z.to_nat nid := raw']> (ns_entries st)
                                    else ns_entries st))
          (<[nat_addr st nid := b]> (ns_disk st))).
Proof.
  intros Hok Hv Hblk Hl Hent b Hraw. destruct (current_nat_addr_eq st k Hok nid Hv) as [p Hp].
  assert (0 <= nid mod 455 < 455) as Hm by (apply Z.mod_pos_bound; lia).
  unfold update_nat_blkaddr. rewrite Hp. cbn [mbind res_bind].
  unfold disk_read_or_die, disk_read. rewrite Hblk. cbn [mbind res_bind].
  change NAT_ENTRY_PER_BLOCK with 455. unfold SIZE_OF_NAT_ENTRY, ofs_ne_ino, ofs_ne_block_addr, set_le.
  rewrite (wr_list_splice blk) by (rewrite ?length_le_bytes; lia).
  assert ((if ino =? 0 then Ok blk else Ok (splice blk (9 * (nid mod 455) + 1) (le_bytes 4 ino)))
    = Ok (if ino =? 0 then blk else splice blk (9 * (nid mod 455) + 1) (le_bytes 4 ino))) as ->
    by (by destruct (ino =? 0)).
  cbn [mbind res_bind]. rewrite wr_list_splice by (destruct (ino =? 0);
    rewrite ?length_splice; rewrite ?length_le_bytes; lia).
  cbn [mbind res_bind]. fold (updated_block blk (9 * (nid mod 455)) ino newaddr). fold b. rewrite Hraw.
  assert (is_Some (ns_disk st !! nat_addr st nid)) as Hs by (by exists blk).
  destruct (is_fsck (ns_func st)); cbn [mbind res_bind]; [|by rewrite disk_write_present].
  rewrite wr_total by (unfold valid_nid in Hv; specialize (Hent eq_refl); lia).
  cbn [mbind res_bind]. by rewrite disk_write_present.
Qed.

(** * The bitmap of used node ids *)

Definition nid_bit (st : nat_state) (nid : Z) : bool := bit_be (nm_nid_bitmap (ns_nm st)) nid.
Definition nid_bitmap_ok (st : nat_state) : Prop :=
  bytes (nm_nid_bitmap (ns_nm st)) /\ nm_max_nid (ns_nm st) <= nbits (nm_nid_bitmap (ns_nm st)).

Lemma set_nid_bit st nid :
  nid_bitmap_ok st -> valid_nid st nid ->
  exists v bm, f2fs_set_bit nid (nm_nid_bitmap (ns_nm st)) = Ok (v, bm) /\
    nid_bitmap_ok (with_nid_bitmap st bm) /\
    forall i, 0 <= i -> nid_bit (with_nid_bitmap st bm) i = (i =? nid) || nid_bit st i.
Proof.
  intros [Hb Hn] [H0 Hv].
  destruct (@bm_set_ok _ be_bitmap_laws (nm_nid_bitmap (ns_nm st)) nid Hb ltac:(lia)) as (v & bm & Hs & _ & Hl & Hby & Hbit).
  exists v, bm. split; [done|]. split; [split; cbn; [done|]|done].
  unfold nbits in *. by rewrite Hl.
Qed.

Lemma nat_ok_with_nid_bitmap st k bm : nat_ok st k -> nat_ok (with_nid_bitmap st bm) k.
Proof. intros []. by constructor. Qed.

Lemma nat_ok_with_count st k c : nat_ok st k -> nat_ok (with_sum st (splice (ns_sum st) ofs_journal (le_bytes 2 c))) k.
Proof.
  intros [H1 H2 H3 H4 H5 H6 H7 H8 [Hl Hb]]. constructor; try done. cbn [ns_sum with_sum].
  split; [rewrite length_splice; unfold ofs_journal; rewrite ?length_le_bytes; lia|].
  apply bytes_splice; [done|apply bytes_le_bytes].
Qed.

Lemma set_count st k c : nat_ok st k ->
  set_le16 (ns_sum st) ofs_journal c = Ok (splice (ns_sum st) ofs_journal (le_bytes 2 c)).
Proof.
  intros Hok. destruct (no_sum _ _ Hok) as [Hl _]. unfold set_le.
  apply wr_list_splice; unfold ofs_journal; rewrite ?length_le_bytes; lia.
Qed.

Lemma get_count st k c : nat_ok st k -> 0 <= c < 2 ^ 16 ->
  nats_in_cursum (splice (ns_sum st) ofs_journal (le_bytes 2 c)) = Ok c.
Proof.
  intros Hok Hc. destruct (no_sum _ _ Hok) as [Hl _]. apply get_set_le; unfold ofs_journal; cbn; lia.
Qed.

Lemma is_valid_nid_iff st k nid : nat_ok st k ->
  IS_VALID_NID st nid = Ok (nid <? nm_max_nid (ns_nm st)).
Proof.
  intros [Hlog Hsegs Hpos Hmax H32 _ _ _ _]. unfold IS_VALID_NID. rewrite Hlog, Hsegs, Hmax.
  change (defined_ _) with (@Ok unit tt). cbn [mbind res_bind]. change NAT_ENTRY_PER_BLOCK with 455.
  change (9 - 1) with 8. rewrite Z.shiftl_mul_pow2 by lia.
  rewrite (u64_id (455 * _)) by (unfold is_u64; lia). rewrite u64_id by (unfold is_u64; lia).
  do 2 f_equal. lia.
Qed.

(** A used entry of the journal below [n] has its bit set. *)
Definition journal_marked (st : nat_state) (lo hi : Z) : Prop :=
  forall j nid ne a, lo <= j < hi -> nid_in_journal (ns_sum st) j = Ok nid ->
    nat_in_journal (ns_sum st) j = Ok ne -> get_le32 ne ofs_ne_block_addr = Ok a -> a <> 0 ->
    nid_bit st nid = true.

Definition bits_grow (st st' : nat_state) : Prop := forall i, 0 <= i -> nid_bit st i = true -> nid_bit st' i = true.

(** What the loop over the journal from entry [lo] on leaves behind: a well-formed
    state with a journal of [n] entries, all of them marked from [lo] on. *)
Record early_post (st st' : nat_state) (k lo n : Z) : Prop := {
  ep_ok : nat_ok st' k;
  ep_bitmap : nid_bitmap_ok st';
  ep_func : ns_func st' = ns_func st;
  ep_count : journal_count st' n;
  ep_lo : lo <= n;
  ep_grow : bits_grow st st';
  ep_marked : journal_marked st' lo n;
  ep_sum : forall i, 0 <= i -> nid_in_journal (ns_sum st') i = nid_in_journal (ns_sum st) i /\
    nat_in_journal (ns_sum st') i = nat_in_journal (ns_sum st) i;
}.

Lemma early_stop st k i :
  nat_ok st k -> nid_bitmap_ok st -> 0 <= i <= 38 ->
  exists st', (sum ← set_le16 (ns_sum st) ofs_journal i; Ok (with_fix_on (with_sum st sum))) = Ok st' /\
    early_post st st' k i i.
Proof.
  intros Hok Hbm Hi. rewrite (set_count st k i Hok). cbn [mbind res_bind]. eexists. split; [done|].
  pose proof (nat_ok_with_count st k i Hok) as [A1 A2 A3 A4 A5 A6 A7 A8 A9].
  destruct (no_sum _ _ Hok) as [Hl _]. constructor; try done.
  - split; [cbn; apply (get_count st k); [done|lia]|lia].
  - by intros j.
  - intros j ? ? ? Hj. lia.
  - intros j Hj. cbn [ns_sum with_fix_on with_sum].
    unfold nid_in_journal, nat_in_journal, ofs_nat_in_journal, ofs_nid_in_journal, ofs_journal,
      SIZE_OF_NAT_JOURNAL_ENTRY, SIZE_OF_NAT_ENTRY.
    split; [apply get_le_splice_ne|apply rd_bytes_ext; intros; apply rd_splice_ne];
      rewrite ?length_le_bytes; lia.
Qed.

(** One entry that passes the checks. *)
Lemma early_mark st k nid addr :
  nat_ok st k -> nid_bitmap_ok st -> valid_nid st nid ->
  exists st1, (if addr =? NULL_ADDR then Ok st
    else '(_, bm) ← f2fs_set_bit nid (nm_nid_bitmap (ns_nm st)); Ok (with_nid_bitmap st bm)) = Ok st1 /\
    nat_ok st1 k /\ nid_bitmap_ok st1 /\ bits_grow st st1 /\ (addr <> 0 -> nid_bit st1 nid = true) /\
    exists bm, st1 = with_nid_bitmap st bm.
Proof.
  intros Hok Hbm Hv. unfold NULL_ADDR. destruct (Z.eqb_spec addr 0) as [->|Hne].
  - exists st. do 3 (split; [done|]). split; [by intros i|]. split; [done|].
    exists (nm_nid_bitmap (ns_nm st)). by destruct st as [? ? ? ? ? ? ? [] ? ? ?].
  - destruct (set_nid_bit st nid Hbm Hv) as (v & bm & Hs & Hok1 & Hbit). rewrite Hs. cbn [mbind res_bind].
    eexists. split; [done|]. split; [by apply nat_ok_with_nid_bitmap|]. split; [done|]. split.
    + intros i Hi Hb. rewrite Hbit, Hb by done. apply orb_true_r.
    + split; [|by exists bm]. intros _. rewrite Hbit by apply Hv. by rewrite Z.eqb_refl.
Qed.

Lemma early_loop_spec m : forall st k i,
  nat_ok st k -> nid_bitmap_ok st -> 0 <= i -> i + Z.of_nat m <= 38 ->
  nats_in_cursum (ns_sum st) = Ok (i + Z.of_nat m) ->
  exists st' n, early_init_loop m st i = Ok st' /\ early_post st st' k i n.
Proof.
  induction m as [|m IH]; intros st k i Hok Hbm H0 H38 Hcnt; cbn [early_init_loop].
  { exists st, i. rewrite Z.add_0_r in Hcnt. split; [done|].
    constructor; try done; [split; [done|lia]|by intros j|intros j ? ? ? Hj; lia]. }
  destruct (no_sum _ _ Hok) as [Hl Hb].
  destruct (nat_in_journal_total (ns_sum st) i Hl Hb) as (ne & Hne & Hnl & _); [lia|].
  destruct (get_le_total 4 ne ofs_ne_block_addr) as [addr Haddr]; [done|rewrite Hnl; done|].
  destruct (nid_in_journal_total (ns_sum st) i Hl) as [nid Hnid]; [lia|].
  rewrite Hne. cbn [mbind res_bind]. rewrite Haddr. cbn [mbind res_bind].
  destruct (early_stop st k i Hok Hbm) as (stop & Hstop & Hpost); [lia|].
  destruct (IS_VALID_BLK_ADDR st addr); cbn [negb]; [|by exists stop, i].
  rewrite Hnid. cbn [mbind res_bind]. rewrite (is_valid_nid_iff st k nid Hok). cbn [mbind res_bind].
  destruct (Z.ltb_spec nid (nm_max_nid (ns_nm st))) as [Hlt|]; [|by exists stop, i].
  assert (valid_nid st nid) as Hv.
  { split; [|done]. unfold nid_in_journal in Hnid. by apply get_le_range in Hnid as [? _]. }
  destruct (early_mark st k nid addr Hok Hbm Hv) as (st1 & Hst1 & Hok1 & Hbm1 & Hg1 & Hset & bm & ->).
  rewrite Hst1. cbn [mbind res_bind].
  destruct (IH (with_nid_bitmap st bm) k (i + 1) Hok1 Hbm1) as (st' & n & Hr & [P1 P2 P3 P4 P5 P6 P7 P8]);
    [lia|lia|etransitivity; [exact Hcnt|f_equal; lia]|].
  exists st', n. split; [done|]. constructor; try done; [lia| |].
  - intros j Hj Hbj. apply P6, Hg1; done.
  - intros j nid' ne' a Hj Hn' Hne' Ha Hne0. destruct (Z.eq_dec j i) as [->|Hji]; [|eapply (P7 j); try done; lia].
    destruct (P8 i H0) as [E1 E2]. rewrite E1 in Hn'. rewrite E2 in Hne'. cbn [ns_sum with_nid_bitmap with_nm] in *.
    rewrite Hnid in Hn'. apply Ok_inj in Hn' as <-. rewrite Hne in Hne'. apply Ok_inj in Hne' as <-.
    rewrite Haddr in Ha. apply Ok_inj in Ha as <-. apply P6; [apply Hv|by apply Hset].
Qed.


(** A used entry in a block has its bit set. *)
Definition blocks_marked (st0 st : nat_state) (lo : Z) : Prop :=
  forall x raw a, lo <= x < nm_max_nid (ns_nm st) -> block_entry st0 x = Ok raw ->
    get_le32 raw ofs_ne_block_addr = Ok a -> a <> 0 -> nid_bit st x = true.

Lemma late_loop_spec m : forall st k nid blk,
  nat_ok st k -> nid_bitmap_ok st -> 0 <= nid -> nid + Z.of_nat m = nm_max_nid (ns_nm st) ->
  (nid mod 455 <> 0 -> (0 < m)%nat -> ns_disk st !! nat_addr st nid = Some blk) ->
  exists bm, late_init_loop m st nid blk = Ok (with_nid_bitmap st bm) /\
    nid_bitmap_ok (with_nid_bitmap st bm) /\ bits_grow st (with_nid_bitmap st bm) /\
    blocks_marked st (with_nid_bitmap st bm) nid.
Proof.
  induction m as [|m IH]; intros st k nid blk Hok Hbm H0 Hm Hblk; cbn [late_init_loop].
  { exists (nm_nid_bitmap (ns_nm st)). destruct st as [? ? ? ? ? ? ? [] ? ? ?]. cbn in *.
    split; [done|]. split; [done|]. split; [by intros i|]. intros x raw a Hx. cbn in Hx. lia. }
  assert (valid_nid st nid) as Hv by (split; lia).
  destruct (nat_block_has st k Hok nid Hv) as (b & Hb & Hbl & Hbb).
  destruct (current_nat_addr_eq st k Hok nid Hv) as [p Hp].
  change NAT_ENTRY_PER_BLOCK with 455. rewrite Hp. cbn [mbind res_bind].
  assert ((if nid mod 455 =? 0 then disk_read_or_die (ns_disk st) (nat_addr st nid) else Ok blk) = Ok b) as ->.
  { unfold disk_read_or_die, disk_read. rewrite Hb. destruct (Z.eqb_spec (nid mod 455) 0); [done|].
    rewrite (Hblk ltac:(done) ltac:(lia)) in Hb. congruence. }
  cbn [mbind res_bind].
  destruct (block_entry_total st k Hok nid Hv) as (raw & Hraw & Hrl & _).
  pose proof Hraw as Hraw2. unfold block_entry, disk_read_or_die, disk_read in Hraw2. rewrite Hb in Hraw2.
  cbn [mbind res_bind] in Hraw2. rewrite Hraw2. cbn [mbind res_bind].
  destruct (get_le_total 4 raw ofs_ne_block_addr) as [addr Haddr]; [done|rewrite Hrl; done|].
  rewrite Haddr. cbn [mbind res_bind].
  destruct (early_mark st k nid addr Hok Hbm Hv) as (st1 & Hst1 & Hok1 & Hbm1 & Hg1 & Hset & bm1 & ->).
  unfold NULL_ADDR in Hst1. rewrite Hst1. cbn [mbind res_bind].
  destruct (IH (with_nid_bitmap st bm1) k (nid + 1) b Hok1 Hbm1) as (bm & Hr & Hbm' & Hg & Hmk);
    [lia|cbn; lia| |].
  { intros Hne _. cbn [ns_disk with_nid_bitmap with_nm]. rewrite <- Hb. f_equal.
    assert ((nid + 1) / 455 = nid / 455) as E by (Z.to_euclidean_division_equations; lia).
    unfold nat_addr. cbn. by rewrite E. }
  exists bm. split; [done|]. split; [done|]. split; [intros i Hi Hbi; apply Hg, Hg1; done|].
  intros x raw' a Hx Hrx Hax Hne. destruct (Z.eq_dec x nid) as [->|Hxn].
  - rewrite Hraw in Hrx. apply Ok_inj in Hrx as <-. rewrite Haddr in Hax. apply Ok_inj in Hax as <-.
    apply Hg; [done|by apply Hset].
  - apply (Hmk x raw' a); [cbn in *; lia|done..].
Qed.

Lemma alloc_loop_spec m : forall st i,
  nid_bitmap_ok st -> 0 <= i -> i + Z.of_nat m = nm_max_nid (ns_nm st) ->
  exists r, alloc_nid_loop m (nm_nid_bitmap (ns_nm st)) i = Ok r /\ i <= r <= nm_max_nid (ns_nm st) /\
    (forall x, i <= x < r -> nid_bit st x = true) /\ (r < nm_max_nid (ns_nm st) -> nid_bit st r = false).
Proof.
  induction m as [|m IH]; intros st i Hbm H0 Hm; cbn [alloc_nid_loop].
  { exists i. split; [done|]. split; [lia|]. split; intros; lia. }
  pose proof Hbm as [Hb Hn]. destruct (test_bit_be (nm_nid_bitmap (ns_nm st)) i Hb) as (v & Hv & Hz); [lia|].
  rewrite Hv. cbn [mbind res_bind]. rewrite Hz. destruct (bit_be _ i) eqn:Hbit; cbn [negb].
  - destruct (IH st (i + 1) Hbm) as (r & Hr & Hrr & Hlow & Hfree); [lia..|]. exists r.
    split; [done|]. split; [lia|]. split; [|done]. intros x Hx.
    destruct (Z.eq_dec x i) as [->|]; [done|apply Hlow; lia].
  - exists i. split; [done|]. split; [lia|]. split; [intros; lia|done].
Qed.

Lemma early_init_spec st k :
  nat_ok st k -> keeps_nids (ns_func st) = true ->
  exists st' n, f2fs_early_init_nid_bitmap st = Ok st' /\ nat_ok st' k /\ nid_bitmap_ok st' /\
    ns_func st' = ns_func st /\ journal_count st' n /\ nid_bit st' 0 = true /\ journal_marked st' 0 n.
Proof.
  intros Hok Hk. unfold f2fs_early_init_nid_bitmap. rewrite Hk. cbn [negb].
  pose proof Hok as [_ _ Hpos Hmax Hmax32 _ _ _ [Hl Hb]]. unfold BITS_PER_BYTE.
  rewrite u32_id by (unfold is_u32; lia). cbv zeta.
  set (st0 := with_nid_bitmap st (replicate (Z.to_nat ((nm_max_nid (ns_nm st) + 8 - 1) / 8)) 0)).
  assert (nid_bitmap_ok st0) as Hbm0.
  { split; cbn; [apply Forall_replicate; unfold is_u8; lia|]. unfold nbits. rewrite length_replicate.
    Z.to_euclidean_division_equations. lia. }
  destruct (set_nid_bit st0 0 Hbm0) as (v & bm & Hs & Hbm1 & Hbit); [split; cbn; lia|].
  rewrite Hs. cbn [mbind res_bind]. set (st1 := with_nid_bitmap st0 bm).
  assert (nat_ok st1 k) as Hok1 by (by apply nat_ok_with_nid_bitmap, nat_ok_with_nid_bitmap).
  destruct (get_le_total 2 (ns_sum st) ofs_journal) as [n Hn]; [done|rewrite Hl; done|].
  change (nats_in_cursum (ns_sum st1)) with (get_le16 (ns_sum st) ofs_journal). rewrite Hn. cbn [mbind res_bind].
  pose proof (get_le_range 2 _ _ _ Hb Hn) as Hr. change NAT_JOURNAL_ENTRIES with 38.
  assert (nid_bit st1 0 = true) as H0 by (unfold st1; by rewrite Hbit).
  assert (exists st2 n2, (if 38 <? n then sum ← set_le16 (ns_sum st1) ofs_journal 38; Ok (with_fix_on (with_sum st1 sum))
    else Ok st1) = Ok st2 /\ nat_ok st2 k /\ nid_bitmap_ok st2 /\ ns_func st2 = ns_func st /\
    journal_count st2 n2 /\ nid_bit st2 0 = true) as (st2 & n2 & Hs2 & Hok2 & Hbm2 & Hf2 & [Hc2 Hc2r] & Hb2).
  { destruct (Z.ltb_spec 38 n).
    - destruct (early_stop st1 k 38 Hok1 Hbm1) as (st2 & E & [P1 P2 P3 P4 _ P6 _ _]); [lia|].
      exists st2, 38. do 5 (split; [done|]). by apply P6.
    - exists st1, n. do 4 (split; [done|]). split; [|done]. split; [exact Hn|lia]. }
  rewrite Hs2. cbn [mbind res_bind]. rewrite Hc2. cbn [mbind res_bind].
  destruct (early_loop_spec (Z.to_nat n2) st2 k 0 Hok2 Hbm2) as (st' & n' & E & [P1 P2 P3 P4 _ P6 P7 _]);
    [lia|lia|rewrite Hc2; f_equal; lia|].
  exists st', n'. split; [done|]. split; [done|]. split; [done|]. split; [by rewrite P3|]. split; [done|].
  split; [by apply P6|done].
Qed.

(** A node id whose bit is clear has no block. *)
Lemma unmarked_unused st k n nid :
  nat_ok st k -> journal_count st n -> valid_nid st nid ->
  journal_marked st 0 n -> blocks_marked st st 0 -> nid_bit st nid = false ->
  exists raw, get_nat_entry st nid = Ok raw /\ get_le32 raw ofs_ne_block_addr = Ok 0.
Proof.
  intros Hok Hc Hv Hj Hmk Hfree. rewrite (get_nat_entry_eq st k Hok nid Hv).
  destruct (lookup_journal_spec st k n nid Hok Hc) as [(j & ne & Hjr & Hjn & Hne & ->)|[_ ->]]; cbn [mbind res_bind].
  - exists ne. split; [done|]. destruct (no_sum _ _ Hok) as [Hsl Hsb]. destruct Hc as [_ Hcr].
    destruct (nat_in_journal_total (ns_sum st) j Hsl Hsb) as (ne' & E & Hnl & _); [lia|].
    rewrite Hne in E. apply Ok_inj in E as <-.
    destruct (get_le_total 4 ne ofs_ne_block_addr) as [a Ha]; [done|rewrite Hnl; done|].
    destruct (Z.eq_dec a 0) as [->|Hne0]; [done|]. rewrite (Hj j nid ne a) in Hfree; done.
  - destruct (block_entry_total st k Hok nid Hv) as (raw & Hraw & Hrl & _). exists raw. split; [done|].
    destruct (get_le_total 4 raw ofs_ne_block_addr) as [a Ha]; [done|rewrite Hrl; done|].
    destruct (Z.eq_dec a 0) as [->|Hne0]; [done|]. rewrite (Hmk nid raw a) in Hfree; [done|apply Hv|done..].
Qed.

(** * Properties *)

(** C15: Flushing the NAT journal does not change the table: for a journal of valid,
    different node ids, [flush_nat_journal_entries] writes every entry to its
    block, empties the journal, reports how many there were, and afterwards the
    tools see the same entry as before for every node id of the volume. *)
Theorem flush_nat_journal_preserves (st : nat_state) (k n : Z) :
  nat_ok st k -> journal_count st n -> journal_nids_ok st n ->
  exists st', flush_nat_journal_entries st = Ok (n, st') /\ nat_ok st' k /\
    nats_in_cursum (ns_sum st') = Ok 0 /\
    forall nid, valid_nid st nid -> get_nat_entry st' nid = get_nat_entry st nid.
Proof.
  intros Hok Hc Hj. destruct (no_sum _ _ Hok) as [Hl Hb]. pose proof Hc as [Hn Hr].
  destruct (flush_loop_spec (Z.to_nat n) st k n 0 Hok Hc Hj) as (d & Hf & Hok' & Hin & Hout); [lia..|].
  set (sum' := splice (ns_sum st) ofs_journal (le_bytes 2 0)).
  exists (with_sum (with_disk st d) sum'). assert (nats_in_cursum sum' = Ok 0) as H0.
  { apply get_set_le; unfold ofs_journal; lia. }
  assert (nat_ok (with_sum (with_disk st d) sum') k) as Hok2.
  { destruct Hok' as [H1 H2 H3 H4 H5 H6 H7 H8 H9]. constructor; try done. cbn [ns_sum with_sum]. subst sum'.
    split; [rewrite length_splice; unfold ofs_journal; rewrite ?length_le_bytes; lia|].
    apply bytes_splice; [done|apply bytes_le_bytes]. }
  split; [|split; [done|split; [done|]]].
  - unfold flush_nat_journal_entries. rewrite Hn. cbn [mbind res_bind]. rewrite Hf. cbn [mbind res_bind].
    unfold set_le. cbn [ns_sum with_disk].
    by rewrite wr_list_splice by (unfold ofs_journal; rewrite ?length_le_bytes; lia).
  - intros nid Hv. rewrite (get_nat_entry_eq _ k Hok2 nid Hv), (get_nat_entry_eq st k Hok nid Hv).
    unfold lookup_nat_in_journal at 1. cbn [ns_sum with_sum]. rewrite H0. cbn [mbind res_bind Z.to_nat journal_find].
    change (block_entry (with_sum (with_disk st d) sum') nid) with (block_entry (with_disk st d) nid).
    destruct (lookup_journal_spec st k n nid Hok Hc) as [(j & ne & Hjr & Hnid & Hne & ->)|[Hno ->]];
      cbn [mbind res_bind].
    + by apply (Hin j).
    + by apply Hout.
Qed.

(** A volume with one pair of NAT segments and a journal of the given entries
    (node id, inode, block). *)
Definition sample_journal (es : list (Z * Z * Z)) : list Z :=
  replicate 3584 0 ++ le_bytes 2 (Z.of_nat (length es)) ++
  mjoin ((fun e => le_bytes 4 e.1.1 ++ 0 :: le_bytes 4 e.1.2 ++ le_bytes 4 e.2) <$> es) ++
  replicate (510 - 13 * length es) 0.
Definition sample_nat (sb : f2fs_super_block) (es : list (Z * Z * Z)) : nat_state := {|
  ns_func := SLOAD; ns_fix_on := false; ns_sb := sb; ns_log := 9; ns_main_blkaddr := 4096;
  ns_node_ino := 1; ns_meta_ino := 2;
  ns_nm := {| nm_nat_blkaddr := 2560; nm_nat_blocks := 512; nm_max_nid := 232960; nm_init_scan_nid := 4;
              nm_next_scan_nid := 4; nm_nat_bitmap := replicate 64 0; nm_nid_bitmap := [] |};
  ns_sum := sample_journal es; ns_disk := zero_disk 2560 1024; ns_entries := [] |}.

Lemma sample_nat_ok es :
  length (sample_journal es) = 4096%nat -> bytes (sample_journal es) ->
  nat_ok (sample_nat (sample_sb 0 1 31 2) es) 1.
Proof.
  intros Hl Hb. constructor; cbn [sample_nat ns_log ns_sb ns_nm ns_disk ns_sum nm_max_nid nm_nat_blkaddr nm_nat_bitmap];
    try done; try lia.
  - split; [|vm_compute; discriminate]. apply bytes_forallb. reflexivity.
  - intros a Ha. apply zero_disk_block. lia.
Qed.

Lemma flush_nat_journal_preserves_witness :
  exists st', flush_nat_journal_entries (sample_nat (sample_sb 0 1 31 2) [(5, 5, 5000); (500, 5, 5001)])
    = Ok (2, st') /\
  get_nat_entry st' 500 = Ok (0 :: le_bytes 4 5 ++ le_bytes 4 5001).
Proof.
  destruct (flush_nat_journal_preserves (sample_nat (sample_sb 0 1 31 2) [(5, 5, 5000); (500, 5, 5001)]) 1 2)
    as (st' & Hf & _ & _ & He).
  - apply sample_nat_ok; [vm_compute; reflexivity|apply bytes_forallb; vm_compute; reflexivity].
  - split; [vm_compute; reflexivity|lia].
  - assert (nid_in_journal (sample_journal [(5, 5, 5000); (500, 5, 5001)]) 0 = Ok 5) as H0
      by (vm_compute; reflexivity).
    assert (nid_in_journal (sample_journal [(5, 5, 5000); (500, 5, 5001)]) 1 = Ok 500) as H1
      by (vm_compute; reflexivity).
    split; cbn [sample_nat ns_sum].
    + intros j nid Hj Hn. assert (j = 0 \/ j = 1) as [-> | ->] by lia; rewrite ?H0, ?H1 in Hn;
        apply Ok_inj in Hn as <-; unfold valid_nid; cbn; lia.
    + intros j1 j2 nid Hj1 Hj2 Hn1 Hn2. assert (j1 = 0 \/ j1 = 1) as [-> | ->] by lia;
        assert (j2 = 0 \/ j2 = 1) as [-> | ->] by lia; rewrite ?H0, ?H1 in *; congruence.
  - exists st'. split; [exact Hf|]. rewrite He; [vm_compute; reflexivity|unfold valid_nid; cbn; lia].
Defined.

(** [update_nat_blkaddr] changes the entry of [nid] in its block and nothing
    else of the table: afterwards the block holds the new address, the new owner
    if one was given, and the old version, and every other node id has the entry
    it had. The change is seen by [get_nat_entry] if the journal has no entry for
    [nid]; a journal entry hides it. *)
Theorem nat_update_lookup (st : nat_state) (k n ino nid newaddr : Z) :
  nat_ok st k -> journal_count st n -> valid_nid st nid -> is_u32 ino -> is_u32 newaddr ->
  (is_fsck (ns_func st) = true -> nid < Z.of_nat (length (ns_entries st))) ->
  exists st' raw raw', update_nat_blkaddr st ino nid newaddr = Ok st' /\ nat_ok st' k /\
    block_entry st nid = Ok raw /\ block_entry st' nid = Ok raw' /\
    get_le32 raw' ofs_ne_block_addr = Ok newaddr /\
    get_le32 raw' ofs_ne_ino = (if ino =? 0 then get_le32 raw ofs_ne_ino else Ok ino) /\
    rd raw' ofs_ne_version = rd raw ofs_ne_version /\
    (forall n2, valid_nid st n2 -> n2 <> nid -> get_nat_entry st' n2 = get_nat_entry st n2) /\
    match lookup_nat_in_journal st nid with
    | Ok (Some ne) => get_nat_entry st' nid = Ok ne
    | _ => get_nat_entry st' nid = Ok raw'
    end.
Proof.
  intros Hok Hc Hv Hino Hnew Hent.
  destruct (nat_block_has st k Hok nid Hv) as (blk & Hblk & Hbl & Hbb).
  assert (0 <= nid mod 455 < 455) as Hm by (apply Z.mod_pos_bound; lia).
  destruct (updated_block_spec blk (9 * (nid mod 455)) ino newaddr) as (Hl & Hby & Hf & H5 & H1 & H0); [lia..|done|lia|lia|done|done|].
  set (b := updated_block blk (9 * (nid mod 455)) ino newaddr) in *.
  assert (exists raw, nat_block_entry blk (nid mod 455) = Ok raw) as [raw Hraw]
    by (eexists; unfold nat_block_entry, SIZE_OF_NAT_ENTRY; apply rd_bytes_Ok; lia).
  assert (exists raw', nat_block_entry b (nid mod 455) = Ok raw') as [raw' Hraw']
    by (eexists; unfold nat_block_entry, SIZE_OF_NAT_ENTRY; apply rd_bytes_Ok; lia).
  destruct (block_write st k nid blk b Hok Hv Hblk Hl Hby Hf) as (Hok' & He & Ho).
  pose proof (update_nat_blkaddr_eq st k ino nid newaddr blk raw' Hok Hv Hblk Hbl Hent Hraw') as Hu.
  fold b in Hu. eexists _, raw, raw'. split; [exact Hu|].
  assert (nat_ok (with_disk (with_entries st (if is_fsck (ns_func st) then <[Z.to_nat nid := raw']> (ns_entries st)
    else ns_entries st)) (<[nat_addr st nid := b]> (ns_disk st))) k) as Hok2.
  { destruct Hok' as [A1 A2 A3 A4 A5 A6 A7 A8 A9]. by constructor. }
  split; [done|]. split; [|split; [by rewrite <- Hraw'|]].
  { unfold block_entry, disk_read_or_die, disk_read. by rewrite Hblk. }
  unfold ofs_ne_block_addr, ofs_ne_ino, ofs_ne_version.
  rewrite !(get_le_sub 4 b (9 * (nid mod 455)) 9 raw'), (get_le_sub 4 blk (9 * (nid mod 455)) 9 raw) by (done || lia).
  rewrite (rd_sub b (9 * (nid mod 455)) 9 raw'), (rd_sub blk (9 * (nid mod 455)) 9 raw) by (done || lia).
  split; [done|]. split; [done|]. split; [done|]. split.
  - intros n2 Hv2 Hne. rewrite (get_nat_entry_eq _ k Hok2 n2 Hv2), (get_nat_entry_eq st k Hok n2 Hv2).
    f_equal. by rewrite <- (Ho n2 Hv2 Hne).
  - rewrite (get_nat_entry_eq _ k Hok2 nid Hv).
    destruct (lookup_journal_spec st k n nid Hok Hc) as [(j & ne & _ & _ & _ & E)|[_ E]].
    + rewrite E. change (lookup_nat_in_journal (with_disk _ _) nid) with (lookup_nat_in_journal st nid). by rewrite E.
    + rewrite E. change (lookup_nat_in_journal (with_disk _ _) nid) with (lookup_nat_in_journal st nid). rewrite E.
      cbn [mbind res_bind]. by rewrite <- Hraw'.
Qed.

Lemma nat_update_lookup_witness : exists st' raw',
  update_nat_blkaddr (sample_nat (sample_sb 0 1 31 2) [(500, 5, 5001)]) 7 460 6000 = Ok st' /\
  get_nat_entry st' 460 = Ok raw' /\ get_le32 raw' ofs_ne_block_addr = Ok 6000 /\
  get_le32 raw' ofs_ne_ino = Ok 7 /\ get_nat_entry st' 500 = Ok (0 :: le_bytes 4 5 ++ le_bytes 4 5001).
Proof.
  destruct (nat_update_lookup (sample_nat (sample_sb 0 1 31 2) [(500, 5, 5001)]) 1 1 7 460 6000)
    as (st' & raw & raw' & Hu & _ & _ & _ & Ha & Hi & _ & Ho & Hg).
  - apply sample_nat_ok; [vm_compute; reflexivity|apply bytes_forallb; vm_compute; reflexivity].
  - split; [vm_compute; reflexivity|lia].
  - unfold valid_nid. cbn. lia.
  - unfold is_u32. lia.
  - unfold is_u32. lia.
  - intros E. discriminate E.
  - exists st', raw'. split; [exact Hu|]. split; [exact Hg|]. split; [exact Ha|]. split; [exact Hi|].
    rewrite Ho; [vm_compute; reflexivity|unfold valid_nid; cbn; lia|lia].
Defined.



Lemma set_bit_past l nr : nbits l <= nr -> f2fs_set_bit nr l = Oob.
Proof.
  intros H. unfold f2fs_set_bit, rd. cbv zeta. rewrite shiftr3_div.
  assert (Z.of_nat (length l) <= nr / 8) by (unfold nbits in H; Z.to_euclidean_division_equations; lia).
  replace (nr / 8 <? 0) with false by lia. by rewrite lookup_ge_None_2 by lia.
Qed.

(** C38: The bound on journal node ids does not fit an odd number of NAT segments.
    [IS_VALID_NID] doubles the check's segment count exactly, [max_nid] halves it
    first: with [2k + 1] segments a journal entry whose node id lies in between
    passes the checks and makes [f2fs_early_init_nid_bitmap] set a bit past the
    end of the bitmap. *)
Theorem odd_nat_segments_overrun (st : nat_state) (k n nid addr : Z) (ne : list Z) :
  ns_log st = 9 -> sb_segment_count_nat (ns_sb st) = 2 * k + 1 -> 0 < k -> 455 * (512 * k) < 2 ^ 32 ->
  nm_max_nid (ns_nm st) = 455 * (512 * k) -> keeps_nids (ns_func st) = true ->
  nats_in_cursum (ns_sum st) = Ok n -> 1 <= n <= 38 ->
  nid_in_journal (ns_sum st) 0 = Ok nid -> nat_in_journal (ns_sum st) 0 = Ok ne ->
  get_le32 ne ofs_ne_block_addr = Ok addr -> addr <> 0 -> IS_VALID_BLK_ADDR st addr = true ->
  455 * (512 * k) <= nid < 455 * (512 * k + 256) ->
  f2fs_early_init_nid_bitmap st = Oob.
Proof.
  intros Hlog Hseg Hk H32 Hmax Hfn Hn Hnr Hnid Hne Haddr Ha0 Hva Hrange.
  unfold f2fs_early_init_nid_bitmap. rewrite Hfn. cbn [negb]. unfold BITS_PER_BYTE.
  rewrite u32_id by (unfold is_u32; lia). cbv zeta.
  set (bm0 := replicate (Z.to_nat ((nm_max_nid (ns_nm st) + 8 - 1) / 8)) 0).
  destruct (@bm_set_ok _ be_bitmap_laws bm0 0) as (v & bm & Hs & _ & Hl & _ & _).
  { apply Forall_replicate. unfold is_u8. lia. }
  { unfold nbits, bm0. rewrite length_replicate. Z.to_euclidean_division_equations. lia. }
  cbn [bm_set be_bitmap] in Hs. cbn [ns_nm with_nid_bitmap with_nm nm_nid_bitmap]. rewrite Hs. cbn [mbind res_bind].
  cbn [ns_sum with_nid_bitmap with_nm]. rewrite Hn. cbn [mbind res_bind]. change NAT_JOURNAL_ENTRIES with 38.
  replace (38 <? n) with false by lia. cbn [mbind res_bind ns_sum with_nid_bitmap with_nm]. rewrite Hn.
  cbn [mbind res_bind]. replace (Z.to_nat n) with (S (Z.to_nat (n - 1))) by lia. cbn [early_init_loop].
  cbn [ns_sum with_nid_bitmap with_nm]. rewrite Hne. cbn [mbind res_bind]. rewrite Haddr. cbn [mbind res_bind].
  change (IS_VALID_BLK_ADDR (with_nid_bitmap _ _) addr) with (IS_VALID_BLK_ADDR st addr). rewrite Hva. cbn [negb].
  rewrite Hnid. cbn [mbind res_bind]. unfold IS_VALID_NID. cbn [ns_log ns_sb with_nid_bitmap with_nm].
  rewrite Hlog, Hseg. change (defined_ _) with (@Ok unit tt). cbn [mbind res_bind].
  change NAT_ENTRY_PER_BLOCK with 455. change (9 - 1) with 8. rewrite Z.shiftl_mul_pow2 by lia.
  rewrite (u64_id (455 * _)) by (unfold is_u64; lia). rewrite u64_id by (unfold is_u64; lia).
  replace (nid <? 455 * (2 * k + 1) * 2 ^ 8) with true by lia. unfold NULL_ADDR.
  apply Z.eqb_neq in Ha0. rewrite Ha0. cbn [ns_nm with_nid_bitmap with_nm nm_nid_bitmap].
  rewrite set_bit_past; [done|]. unfold nbits. rewrite Hl. unfold bm0. rewrite length_replicate.
  Z.to_euclidean_division_equations. lia.
Qed.

(** A volume with three NAT segments, which [sanity_check_raw_super] accepts. *)
Definition odd_nat_sb : f2fs_super_block :=
  sb_of_bytes (fold_left (fun l f => splice l f.1 (le_bytes 4 f.2))
    [(44, 23); (60, 3); (68, 23); (88, 4096); (92, 4608)] (sb_bytes (sample_sb 0 1 31 2))).

Lemma odd_nat_sb_accepted :
  match sanity_check_raw_super false sample_disk odd_nat_sb 0 with Ok (r, _, _) => r =? 0 | _ => false end = true.
Proof. vm_compute. reflexivity. Qed.

Lemma odd_nat_segments_overrun_witness :
  f2fs_early_init_nid_bitmap (sample_nat odd_nat_sb [(232960, 5, 5000)]) = Oob.
Proof.
  apply (odd_nat_segments_overrun (sample_nat odd_nat_sb [(232960, 5, 5000)]) 1 1 232960 5000
    (0 :: le_bytes 4 5 ++ le_bytes 4 5000)); try reflexivity; try lia; vm_compute; reflexivity.
Defined.
