(* ===== verification/NatBits.v ===== *)
(** Bits of the node address table (fsck/mount.c): the blocks at the end of a
    checkpoint segment that tell which blocks of the table are full and which are
    empty, as [write_nat_bits] stores and [check_nat_bits] checks them.

    Code that writes blocks keeps the device and the list of its writes, in order;
    [wrote R] says that a run of it only touched blocks in [R]. *)
From Stdlib Require Import ZArith Lia List Bool.
From stdpp Require Import base numbers list gmap.
From S2P Require Import Prelude Codec Bits Crc Superblock Mkfs Checkpoint Nat.

(** * Writes *)

Definition wlog : Type := disk * list (Z * list Z).
Definition put (w : wlog) (a : Z) (b : list Z) : res wlog :=
  d ← disk_write_or_die w.1 a b; Ok (d, w.2 ++ [(a, b)]).

Definition CP_NAT_BITS_FLAG : Z := 0x80.

Definition get_cp_crc (cp : list Z) : res Z :=
  cp_ver ← get_le64 cp ofs_checkpoint_ver;
  crc_offset ← get_le32 cp ofs_cp_checksum_offset;
  crc ← get_le32 cp crc_offset;
  Ok (Z.lor cp_ver (Z.shiftl crc 32)).

(** * Bits of the node address table *)

Definition nat_bits_blocks_of (nat_bits_bytes : Z) : Z :=
  Z.shiftr (u32 (u32 (Z.shiftl nat_bits_bytes 1) + 8 + 4096 - 1)) 12.

Definition update_nat_bits_flags (sb : f2fs_super_block) (cp : list Z) (flags : Z) : res Z :=
  let nat_bits_blocks := nat_bits_blocks_of (u32 (Z.shiftl (sb_segment_count_nat sb) 5)) in
  _ ← defined_ (sb_log_blocks_per_seg sb <? 31);
  total ← get_le32 cp ofs_cp_pack_total_block_count;
  Ok (if total <=? u32 (Z.shiftl 1 (sb_log_blocks_per_seg sb) - nat_bits_blocks)
      then Z.lor flags CP_NAT_BITS_FLAG else Z.land flags (u32 (Z.lnot CP_NAT_BITS_FLAG))).

(** The entries of one block that are in use; node id 0 counts as used. *)
Fixpoint count_valid_nats (n : nat) (nat_block : list Z) (i j valid : Z) : res Z :=
  match n with
  | O => Ok valid
  | S n =>
      used ← (if (i =? 0) && (j =? 0) then Ok true
              else a ← get_le32 nat_block (SIZE_OF_NAT_ENTRY * j + ofs_ne_block_addr); Ok (negb (a =? NULL_ADDR)));
      count_valid_nats n nat_block i (j + 1) (if used : bool then valid + 1 else valid)
  end.

(** The address of block [i] of the table in the copy in force. *)
Definition nat_bits_blkaddr (sb : f2fs_super_block) (nm : f2fs_nm_info) (i : Z) : res Z :=
  let log := sb_log_blocks_per_seg sb in
  let blkaddr := u32 (sb_nat_blkaddr sb + Z.shiftl (Z.shiftl (Z.shiftr i log) log) 1 + Z.land i (Z.shiftl 1 log - 1)) in
  b ← (if i <? nm_nat_blocks nm then f2fs_test_bit i (nm_nat_bitmap nm) else Ok 0);
  Ok (if b =? 0 then blkaddr else u32 (blkaddr + Z.shiftl 1 log)).

Fixpoint nat_bits_loop (n : nat) (d : disk) (sb : f2fs_super_block) (nm : f2fs_nm_info) (i : Z)
    (full_nat_bits empty_nat_bits : list Z) : res (list Z * list Z) :=
  match n with
  | O => Ok (full_nat_bits, empty_nat_bits)
  | S n =>
      blkaddr ← nat_bits_blkaddr sb nm i;
      nat_block ← disk_read_or_die d blkaddr;
      valid ← count_valid_nats (Z.to_nat NAT_ENTRY_PER_BLOCK) nat_block i 0 0;
      if valid =? 0 then
        '(_, empty) ← test_and_set_bit_le i empty_nat_bits; nat_bits_loop n d sb nm (i + 1) full_nat_bits empty
      else if valid =? NAT_ENTRY_PER_BLOCK then
        '(_, full) ← test_and_set_bit_le i full_nat_bits; nat_bits_loop n d sb nm (i + 1) full empty_nat_bits
      else nat_bits_loop n d sb nm (i + 1) full_nat_bits empty_nat_bits
  end.

(** The blocks of [buf]; a write that fails is only reported. *)
Fixpoint put_blocks (n : nat) (w : wlog) (buf : list Z) (a : Z) (bug : bool) : wlog * bool :=
  match n with
  | O => (w, bug)
  | S n =>
      let b := take 4096 buf in
      match disk_write w.1 a b with
      | Some d => put_blocks n (d, w.2 ++ [(a, b)]) (drop 4096 buf) (a + 1) bug
      | None => put_blocks n w (drop 4096 buf) (a + 1) true
      end
  end.

Definition write_nat_bits (w : wlog) (sb : f2fs_super_block) (cp : list Z) (nm : f2fs_nm_info) (set : Z) (bug : bool)
    : res (wlog * bool) :=
  let log := sb_log_blocks_per_seg sb in
  _ ← defined_ ((1 <=? log) && (log <? 31));
  let nat_blocks := u32 (Z.shiftl (sb_segment_count_nat sb) (log - 1)) in
  let nat_bits_bytes := Z.shiftr nat_blocks 3 in
  let nat_bits_blocks := nat_bits_blocks_of nat_bits_bytes in
  let zeros := replicate (Z.to_nat nat_bits_bytes) 0 in
  '(full, empty) ← nat_bits_loop (Z.to_nat nat_blocks) w.1 sb nm 0 zeros zeros;
  crc ← get_cp_crc cp;
  let used := le_bytes 8 crc ++ full ++ empty in
  let nat_bits := used ++ replicate (Z.to_nat (4096 * nat_bits_blocks) - length used) 0 in
  let blkaddr := u32 (sb_segment0_blkaddr sb + u32 (Z.shiftl set log) - nat_bits_blocks) in
  Ok (put_blocks (Z.to_nat nat_bits_blocks) w nat_bits blkaddr bug).

(** The blocks read back; one that cannot be read is reported and stays zero. *)
Fixpoint load_blocks (n : nat) (d : disk) (a : Z) (bug : bool) : list Z * bool :=
  match n with
  | O => ([], bug)
  | S n =>
      let '(b, bug) := match disk_read d a with Some b => (b, bug) | None => (replicate (Z.to_nat F2FS_BLKSIZE) 0, true) end in
      let '(rest, bug) := load_blocks n d (a + 1) bug in
      (b ++ rest, bug)
  end.

Fixpoint count_nids (n : nat) (nid_bitmap : list Z) (nid valid : Z) : res Z :=
  match n with
  | O => Ok valid
  | S n => b ← f2fs_test_bit nid nid_bitmap; count_nids n nid_bitmap (u32 (nid + 1)) (if b =? 0 then valid else valid + 1)
  end.

Fixpoint check_nat_bits_loop (n : nat) (nid_bitmap full_nat_bits empty_nat_bits : list Z) (i : Z) : res Z :=
  match n with
  | O => Ok 0
  | S n =>
      empty ← test_bit_le i empty_nat_bits;
      full ← test_bit_le i full_nat_bits;
      valid ← count_nids (Z.to_nat NAT_ENTRY_PER_BLOCK) nid_bitmap (u32 (i * NAT_ENTRY_PER_BLOCK)) 0;
      let bad := if valid =? 0 then (empty =? 0) || negb (full =? 0)
                 else if valid =? NAT_ENTRY_PER_BLOCK then negb (empty =? 0) || (full =? 0)
                 else negb (empty =? 0) || negb (full =? 0) in
      if bad : bool then Ok (-1) else check_nat_bits_loop n nid_bitmap full_nat_bits empty_nat_bits (i + 1)
  end.

(** The return value, and whether a block could not be read; [sum] is the summary
    of the hot data segment, whose journal has to be empty. *)
Definition check_nat_bits (d : disk) (sb : f2fs_super_block) (cp : list Z) (nm : f2fs_nm_info) (sum : list Z)
    (cur_cp : Z) (fix_on bug : bool) : res (Z * bool) :=
  let log := sb_log_blocks_per_seg sb in
  _ ← defined_ ((1 <=? log) && (log <? 31));
  let nat_blocks := u32 (Z.shiftl (sb_segment_count_nat sb) (log - 1)) in
  let nat_bits_bytes := Z.shiftr nat_blocks 3 in
  let nat_bits_blocks := nat_bits_blocks_of nat_bits_bytes in
  let blkaddr := u32 (sb_segment0_blkaddr sb + u32 (Z.shiftl cur_cp log) - nat_bits_blocks) in
  let '(nat_bits, bug) := load_blocks (Z.to_nat nat_bits_blocks) d blkaddr bug in
  stamp ← get_le64 nat_bits 0;
  crc ← get_cp_crc cp;
  n ← nats_in_cursum sum;
  if negb (stamp =? crc) || negb (n =? 0) then Ok (if fix_on then -1 else 0, bug)
  else
    full ← rd_bytes nat_bits 8 (Z.to_nat nat_bits_bytes);
    empty ← rd_bytes nat_bits (8 + nat_bits_bytes) (Z.to_nat nat_bits_bytes);
    err ← check_nat_bits_loop (Z.to_nat nat_blocks) (nm_nid_bitmap nm) full empty 0;
    Ok (err, bug).

(** * What a run of writes touches *)

(** [w'] is [w] after more writes of whole blocks, all of them in [R]. *)
Definition wrote (R : Z -> Prop) (w w' : wlog) : Prop :=
  exists ws, w'.2 = w.2 ++ ws /\ w'.1 = apply_writes w.1 ws /\
    Forall (fun x => length x.2 = 4096%nat /\ bytes x.2 /\ R x.1) ws.

Lemma apply_writes_app d ws ws' : apply_writes d (ws ++ ws') = apply_writes (apply_writes d ws) ws'.
Proof. apply fold_left_app. Qed.

Section Wrote.
Context (R : Z -> Prop).

Lemma wrote_refl w : wrote R w w.
Proof. exists []. by rewrite app_nil_r. Qed.

Lemma wrote_trans w1 w2 w3 : wrote R w1 w2 -> wrote R w2 w3 -> wrote R w1 w3.
Proof.
  intros (ws & H1 & H2 & H3) (ws' & H1' & H2' & H3'). exists (ws ++ ws').
  rewrite H1', H2', H1, H2, app_assoc, apply_writes_app. split; [done|]. split; [done|]. by apply Forall_app.
Qed.

Lemma wrote_outside w w' a : wrote R w w' -> ~ R a -> w'.1 !! a = w.1 !! a.
Proof.
  intros (ws & _ & -> & H) Ha. apply apply_writes_outside. eapply Forall_impl; [exact H|].
  intros x (_ & _ & Hx) <-. contradiction.
Qed.

Lemma wrote_has_block w w' a : wrote R w w' -> has_block w.1 a -> has_block w'.1 a.
Proof.
  intros (ws & _ & -> & H) Ha. apply apply_writes_has_block; [done|]. eapply Forall_impl; [exact H|]. by intros x (? & ? & _).
Qed.

Lemma put_wrote w a b : has_block w.1 a -> length b = 4096%nat -> bytes b -> R a ->
  exists w', put w a b = Ok w' /\ wrote R w w' /\ w'.1 !! a = Some b /\ w'.2 = w.2 ++ [(a, b)].
Proof.
  intros (x & Hx & _) Hl Hb Ha. unfold put. rewrite disk_write_present by (by exists x). rewrite res_bind_ret.
  eexists. split; [done|]. split; [|split; [apply lookup_insert_eq|done]].
  exists [(a, b)]. split; [done|]. split; [done|]. by repeat constructor.
Qed.
End Wrote.

Lemma wrote_mono (R R' : Z -> Prop) w w' : (forall a, R a -> R' a) -> wrote R w w' -> wrote R' w w'.
Proof.
  intros HR (ws & H1 & H2 & H3). exists ws. split; [done|]. split; [done|]. eapply Forall_impl; [exact H3|].
  intros x (? & ? & ?). auto.
Qed.

(** Block [j] of a buffer. *)
Definition buf_block (buf : list Z) (j : nat) : list Z := take 4096 (drop (4096 * j) buf).

Lemma put_blocks_wrote n : forall w buf a bug, length buf = (4096 * n)%nat -> bytes buf ->
  (forall x, a <= x < a + Z.of_nat n -> has_block w.1 x) ->
  exists w', put_blocks n w buf a bug = (w', bug) /\ wrote (fun x => a <= x < a + Z.of_nat n) w w' /\
    forall j, (j < n)%nat -> w'.1 !! (a + Z.of_nat j) = Some (buf_block buf j).
Proof.
  induction n as [|n IH]; intros w buf a bug Hl Hb Hd; cbn [put_blocks].
  { exists w. split; [done|]. split; [apply wrote_refl|lia]. }
  set (R := fun x => a <= x < a + Z.of_nat (S n)).
  destruct (put_wrote R w a (take 4096 buf)) as (w1 & Hw1 & Hwr & Hv1 & _);
    [apply Hd; lia|rewrite length_take; lia|by apply Forall_take|unfold R; lia|].
  unfold put, disk_write_or_die in Hw1. destruct (disk_write w.1 a (take 4096 buf)) as [d|]; [|done].
  rewrite res_bind_ret in Hw1. injection Hw1 as <-.
  destruct (IH (d, w.2 ++ [(a, take 4096 buf)]) (drop 4096 buf) (a + 1) bug) as (w' & -> & Hw' & Hv').
  - rewrite length_drop. lia.
  - by apply Forall_drop.
  - intros x Hx. eapply wrote_has_block; [exact Hwr|]. apply Hd. lia.
  - exists w'. split; [done|]. split.
    + eapply wrote_trans; [exact Hwr|]. eapply wrote_mono; [|exact Hw']. unfold R. lia.
    + intros [|j] Hj.
      * rewrite Z.add_0_r, (wrote_outside _ _ _ a Hw') by lia. exact Hv1.
      * replace (a + Z.of_nat (S j)) with (a + 1 + Z.of_nat j) by lia. rewrite Hv' by lia.
        unfold buf_block. rewrite drop_drop. do 3 f_equal. lia.
Qed.

(** * Bits of the node address table *)

(** Is entry [j] of block [i] of the table in use? *)
Definition nat_used (blk : list Z) (i j : Z) : bool :=
  ((i =? 0) && (j =? 0)) ||
  match get_le32 blk (SIZE_OF_NAT_ENTRY * j + ofs_ne_block_addr) with Ok a => negb (a =? NULL_ADDR) | _ => false end.
Definition all_used (blk : list Z) (i : Z) (js : list Z) : bool := forallb (nat_used blk i) js.
Definition none_used (blk : list Z) (i : Z) (js : list Z) : bool := forallb (fun j => negb (nat_used blk i j)) js.

Lemma count_valid_nats_spec n blk i : forall j v, length blk = 4096%nat -> 0 <= j ->
  j + Z.of_nat n <= NAT_ENTRY_PER_BLOCK -> exists r, count_valid_nats n blk i j v = Ok r /\ v <= r <= v + Z.of_nat n /\
    (r =? v) = none_used blk i (seqZ j (Z.of_nat n)) /\ (r =? v + Z.of_nat n) = all_used blk i (seqZ j (Z.of_nat n)).
Proof.
  induction n as [|n IH]; intros j v Hl H0 Hj; cbn [count_valid_nats].
  { exists v. cbn. split; [done|]. split; [lia|]. rewrite Z.add_0_r, Z.eqb_refl. done. }
  assert ((if (i =? 0) && (j =? 0) then Ok true
           else a ← get_le32 blk (SIZE_OF_NAT_ENTRY * j + ofs_ne_block_addr); Ok (negb (a =? NULL_ADDR)))
          = Ok (nat_used blk i j)) as ->.
  { unfold nat_used. destruct (_ && _); [done|].
    unfold NAT_ENTRY_PER_BLOCK, SIZE_OF_NAT_ENTRY, ofs_ne_block_addr in *.
    destruct (get_le_total 4 blk (9 * j + 5)) as [a ->]; [lia|rewrite Hl; lia|]. done. }
  rewrite res_bind_ret. destruct (IH (j + 1) (if nat_used blk i j then v + 1 else v)) as (r & -> & Hr & H1 & H2); [done|lia..|].
  exists r. split; [done|]. rewrite (seqZ_cons j) by lia. unfold all_used, none_used. cbn [forallb].
  replace (Z.pred (Z.of_nat (S n))) with (Z.of_nat n) by lia. replace (Z.succ j) with (j + 1) by lia.
  fold (all_used blk i (seqZ (j + 1) (Z.of_nat n))) (none_used blk i (seqZ (j + 1) (Z.of_nat n))).
  destruct (nat_used blk i j); cbn [negb andb]; (split; [lia|]).
  - rewrite <- H2. split; [apply Z.eqb_neq; lia|f_equal; lia].
  - rewrite <- H1. split; [done|apply Z.eqb_neq; lia].
Qed.

Section NatBits.
Context (d : disk) (sb : f2fs_super_block) (nm : f2fs_nm_info) (N : Z).
Context (Hblk : forall x, 0 <= x < N -> exists a, nat_bits_blkaddr sb nm x = Ok a /\ has_block d a).

(** Block [x] of the table, in the copy in force. *)
Definition nat_blk (x : Z) : list Z :=
  match nat_bits_blkaddr sb nm x with Ok a => default [] (d !! a) | _ => [] end.
Definition block_full (x : Z) : bool := all_used (nat_blk x) x (seqZ 0 NAT_ENTRY_PER_BLOCK).
Definition block_empty (x : Z) : bool := none_used (nat_blk x) x (seqZ 0 NAT_ENTRY_PER_BLOCK).

Lemma set_bit_at l i (f : Z -> bool) : bytes l -> 0 <= i < nbits l ->
  exists v l', test_and_set_bit_le i l = Ok (v, l') /\ length l' = length l /\ bytes l' /\
    forall x, 0 <= x -> bit_le l' x = (x =? i) || bit_le l x.
Proof.
  intros Hl Hi. destruct (@bm_set_ok _ le_bitmap_laws l i Hl Hi) as (v & l' & ? & _ & ? & ? & ?). by exists v, l'.
Qed.

Lemma nat_bits_loop_spec n : forall i full empty, bytes full -> bytes empty -> length empty = length full ->
  0 <= i -> i + Z.of_nat n <= N -> N <= nbits full ->
  exists full' empty', nat_bits_loop n d sb nm i full empty = Ok (full', empty') /\
    bytes full' /\ bytes empty' /\ length full' = length full /\ length empty' = length full /\
    forall x, 0 <= x ->
      bit_le full' x = ((i <=? x) && (x <? i + Z.of_nat n) && block_full x) || bit_le full x /\
      bit_le empty' x = ((i <=? x) && (x <? i + Z.of_nat n) && block_empty x) || bit_le empty x.
Proof.
  induction n as [|n IH]; intros i full empty Hf He Hl H0 Hn HN; cbn [nat_bits_loop].
  { exists full, empty. replace (i + Z.of_nat 0) with i by lia. repeat split; try done;
      (destruct (Z.leb_spec i x), (Z.ltb_spec x i); [lia|done..]). }
  destruct (Hblk i) as (a & Ha & b & Hb & Hbl & Hbb); [lia|]. rewrite Ha, res_bind_ret.
  unfold disk_read_or_die, disk_read. rewrite Hb, res_bind_ret.
  assert (nat_blk i = b) as Hnb by (unfold nat_blk; by rewrite Ha, Hb).
  destruct (count_valid_nats_spec (Z.to_nat NAT_ENTRY_PER_BLOCK) b i 0 0) as (r & -> & _ & H1 & H2); [done|done|done|].
  rewrite Z2Nat.id in H1, H2 by done. change (0 + NAT_ENTRY_PER_BLOCK) with NAT_ENTRY_PER_BLOCK in H2.
  rewrite <- Hnb in H1, H2. fold (block_empty i) in H1. fold (block_full i) in H2. rewrite res_bind_ret, H1, H2.
  assert (block_empty i = true -> block_full i = false) as Hex.
  { rewrite <- H1, <- H2. intros ->%Z.eqb_eq. done. }
  unfold nbits in *.
  assert (forall x, (i <=? x) && (x <? i + Z.of_nat (S n)) = (x =? i) || (i + 1 <=? x) && (x <? i + 1 + Z.of_nat n)) as Hx.
  { intros x. destruct (Z.leb_spec i x), (Z.ltb_spec x (i + Z.of_nat (S n))), (Z.eqb_spec x i), (Z.leb_spec (i + 1) x),
      (Z.ltb_spec x (i + 1 + Z.of_nat n)); done || lia. }
  destruct (block_empty i) eqn:Eb.
  - destruct (set_bit_at empty i block_empty) as (v & e' & -> & Hel & Heb & Hbit); [done|unfold nbits; lia|].
    rewrite res_bind_ret.
    destruct (IH (i + 1) full e') as (f2 & e2 & -> & ? & ? & ? & ? & Hs); [done..|lia|lia|lia|lia|].
    exists f2, e2. repeat split; try done; destruct (Hs x) as [Hsf Hse]; try done; [rewrite Hsf|rewrite Hse, Hbit by done].
    + rewrite Hx. destruct (Z.eqb_spec x i) as [->|]; [|done]. rewrite Hex by done.
      replace (i + 1 <=? i) with false by lia. done.
    + rewrite Hx. destruct (Z.eqb_spec x i) as [->|]; [rewrite Eb; by rewrite orb_true_r|done].
  - destruct (block_full i) eqn:Ef.
    + destruct (set_bit_at full i block_full) as (v & f' & -> & Hfl & Hfb & Hbit); [done|unfold nbits; lia|].
      rewrite res_bind_ret.
      destruct (IH (i + 1) f' empty) as (f2 & e2 & -> & ? & ? & ? & ? & Hs); [done..|lia|lia|lia|lia|].
      exists f2, e2. repeat split; try done; try lia; destruct (Hs x) as [Hsf Hse]; try done; [rewrite Hsf, Hbit by done|rewrite Hse];
        rewrite Hx; (destruct (Z.eqb_spec x i) as [->|]; [rewrite ?Ef, ?Eb|done]); [by rewrite orb_true_r|].
      replace (i + 1 <=? i) with false by lia. done.
    + destruct (IH (i + 1) full empty) as (f2 & e2 & -> & ? & ? & ? & ? & Hs); [done..|lia|lia|lia|].
      exists f2, e2. repeat split; try done; destruct (Hs x) as [Hsf Hse]; try done; [rewrite Hsf|rewrite Hse];
        rewrite Hx; (destruct (Z.eqb_spec x i) as [->|]; [rewrite ?Ef, ?Eb|done]);
        replace (i + 1 <=? i) with false by lia; done.
Qed.
End NatBits.

(** The number of blocks that hold the bits. *)
Definition nat_bits_size (sb : f2fs_super_block) : Z := (64 * sb_segment_count_nat sb + 4103) / 4096.

Lemma nat_bits_size_eq sb : 0 <= sb_segment_count_nat sb <= 2 ^ 14 ->
  nat_bits_blocks_of (32 * sb_segment_count_nat sb) = nat_bits_size sb.
Proof.
  intros Hn. unfold nat_bits_blocks_of, nat_bits_size. rewrite Z.shiftl_mul_pow2 by lia. change (2 ^ 1) with 2.
  rewrite (u32_id (_ * 2)) by (unfold is_u32; lia). rewrite u32_id by (unfold is_u32; lia).
  rewrite Z.shiftr_div_pow2 by lia. change (2 ^ 12) with 4096. f_equal. lia.
Qed.

(** * Writing the bits *)

(** The table is readable: every block of it, in the copy in force. *)
Definition nat_readable (d : disk) (sb : f2fs_super_block) (nm : f2fs_nm_info) : Prop :=
  forall x, 0 <= x < 256 * sb_segment_count_nat sb -> exists a, nat_bits_blkaddr sb nm x = Ok a /\ has_block d a.

(** The two bitmaps of a buffer. *)
Definition full_bits (sb : f2fs_super_block) (buf : list Z) : list Z :=
  take (Z.to_nat (32 * sb_segment_count_nat sb)) (drop 8 buf).
Definition empty_bits (sb : f2fs_super_block) (buf : list Z) : list Z :=
  take (Z.to_nat (32 * sb_segment_count_nat sb)) (drop (8 + Z.to_nat (32 * sb_segment_count_nat sb)) buf).

(** What is stored: the stamp, a bit per full block, a bit per empty block. *)
Record nat_bits_buf (d : disk) (sb : f2fs_super_block) (nm : f2fs_nm_info) (stamp : Z) (buf : list Z) : Prop := {
  nb_len : length buf = (4096 * Z.to_nat (nat_bits_size sb))%nat;
  nb_stamp : take 8 buf = le_bytes 8 stamp;
  nb_bytes : bytes buf;
  nb_bits : forall x, 0 <= x < 256 * sb_segment_count_nat sb ->
    bit_le (full_bits sb buf) x = block_full d sb nm x /\ bit_le (empty_bits sb buf) x = block_empty d sb nm x;
}.

Lemma bit_le_zeros n x : bit_le (replicate n 0) x = false.
Proof.
  unfold bit_le, bit_at. destruct (replicate n 0 !! _) as [c|] eqn:E; [|done].
  apply lookup_replicate in E as [-> _]. apply Z.testbit_0_l.
Qed.

(** Where the bits of pack [k] lie, on a device that has the blocks. *)
Definition nat_bits_start (sb : f2fs_super_block) (k : Z) : Z := sb_segment0_blkaddr sb + 512 * k - nat_bits_size sb.
Record nat_bits_geom (d : disk) (sb : f2fs_super_block) (nm : f2fs_nm_info) (k : Z) : Prop := {
  ng_log : sb_log_blocks_per_seg sb = 9;
  ng_segs : 0 <= sb_segment_count_nat sb <= 2 ^ 14;
  ng_pack : 0 <= k <= 2;
  ng_start : 0 <= nat_bits_start sb k /\ nat_bits_start sb k + nat_bits_size sb <= 2 ^ 32;
  ng_nat : nat_readable d sb nm;
  ng_blocks : forall x, nat_bits_start sb k <= x < nat_bits_start sb k + nat_bits_size sb -> has_block d x;
}.

Section WriteNatBits.
Context (w : wlog) (sb : f2fs_super_block) (cp : list Z) (nm : f2fs_nm_info) (set stamp : Z) (bug : bool).
Let nb : Z := nat_bits_size sb.
Let start : Z := sb_segment0_blkaddr sb + 512 * set - nb.
Context (Hlog : sb_log_blocks_per_seg sb = 9) (Hn : 0 <= sb_segment_count_nat sb <= 2 ^ 14).
Context (Hset : 0 <= set <= 2) (Hstart : 0 <= start /\ start + nb <= 2 ^ 32).
Context (Hnat : nat_readable w.1 sb nm) (Hcrc : get_cp_crc cp = Ok stamp).
Context (Hblk : forall x, start <= x < start + nb -> has_block w.1 x).

Lemma write_nat_bits_spec : exists w' buf, write_nat_bits w sb cp nm set bug = Ok (w', bug) /\
  wrote (fun x => start <= x < start + nb) w w' /\ nat_bits_buf w.1 sb nm stamp buf /\
  forall j, (j < Z.to_nat nb)%nat -> w'.1 !! (start + Z.of_nat j) = Some (buf_block buf j).
Proof.
  unfold write_nat_bits. rewrite Hlog. change (defined_ _) with (@Ok unit tt). rewrite res_bind_ret. cbv zeta.
  change (9 - 1) with 8. rewrite (Z.shiftl_mul_pow2 _ 8), Z.shiftr_div_pow2 by lia.
  change (2 ^ 8) with 256. change (2 ^ 3) with 8. rewrite (u32_id (_ * 256)) by (unfold is_u32; lia).
  replace (sb_segment_count_nat sb * 256 / 8) with (32 * sb_segment_count_nat sb) by (Z.to_euclidean_division_equations; lia).
  rewrite nat_bits_size_eq by lia. fold nb. rewrite (Z.mul_comm _ 256).
  assert (1 <= nb <= 257 /\ 8 + 64 * sb_segment_count_nat sb <= 4096 * nb) as [Hnb Hfit]
    by (unfold nb, nat_bits_size; Z.to_euclidean_division_equations; lia).
  set (n := Z.to_nat (32 * sb_segment_count_nat sb)). set (zeros := replicate n 0).
  assert (bytes zeros) as Hz by (apply Forall_replicate; unfold is_u8; lia).
  assert (length zeros = n) as Hzl by apply length_replicate.
  destruct (nat_bits_loop_spec w.1 sb nm (256 * sb_segment_count_nat sb) Hnat (Z.to_nat (256 * sb_segment_count_nat sb))
    0 zeros zeros) as (full & empty & -> & Hfb & Heb & Hfl & Hel & Hbits); [done..|lia|lia|unfold nbits; lia|].
  rewrite res_bind_ret, Hcrc, res_bind_ret.
  set (buf := (le_bytes 8 stamp ++ full ++ empty) ++ _).
  rewrite (Z.shiftl_mul_pow2 _ 9) by lia. change (2 ^ 9) with 512. rewrite (u32_id (set * 512)) by (unfold is_u32; lia).
  replace (sb_segment0_blkaddr sb + set * 512 - nb) with start by (unfold start; lia).
  rewrite u32_id by (unfold is_u32; lia).
  assert (length buf = (4096 * Z.to_nat nb)%nat) as Hbl.
  { unfold buf. rewrite !length_app, length_replicate, length_le_bytes. lia. }
  assert (bytes buf) as Hbb.
  { unfold buf. apply Forall_app. split; [|apply Forall_replicate; unfold is_u8; lia].
    apply Forall_app. split; [apply bytes_le_bytes|by apply Forall_app]. }
  destruct (put_blocks_wrote (Z.to_nat nb) w buf start bug) as (w' & -> & Hw' & Hv'); [done|done| |].
  { intros x Hx. apply Hblk. lia. }
  exists w', buf. split; [done|]. split; [eapply wrote_mono; [|exact Hw']; cbn beta; lia|]. split; [|done].
  constructor; [done|by unfold buf; rewrite <- !app_assoc, take_app_length' by by rewrite length_le_bytes|done|].
  unfold full_bits, empty_bits. fold n. unfold buf. rewrite <- !app_assoc. rewrite drop_app_length' by by rewrite length_le_bytes.
  rewrite <- drop_drop. rewrite drop_app_length' by by rewrite length_le_bytes.
  rewrite take_app_length', drop_app_length', take_app_length' by congruence.
  intros x Hx. destruct (Hbits x) as [H1 H2]; [lia|]. rewrite H1, H2. unfold zeros. rewrite !bit_le_zeros, !orb_false_r.
  replace (0 <=? x) with true by lia. rewrite (proj2 (Z.ltb_lt x _)) by lia. done.
Qed.
End WriteNatBits.

(** * Checking the bits *)

Lemma load_blocks_eq n : forall d a buf bug, length buf = (4096 * n)%nat ->
  (forall j, (j < n)%nat -> d !! (a + Z.of_nat j) = Some (buf_block buf j)) -> load_blocks n d a bug = (buf, bug).
Proof.
  induction n as [|n IH]; intros d a buf bug Hl Hd; cbn [load_blocks]; [by destruct buf|].
  unfold disk_read. pose proof (Hd 0%nat ltac:(lia)) as H0. rewrite Z.add_0_r in H0. rewrite H0.
  rewrite (IH d (a + 1) (drop 4096 buf)).
  - unfold buf_block. rewrite drop_0. by rewrite take_drop.
  - rewrite length_drop. lia.
  - intros j Hj. replace (a + 1 + Z.of_nat j) with (a + Z.of_nat (S j)) by lia. rewrite Hd by lia.
    unfold buf_block. rewrite drop_drop. do 3 f_equal. lia.
Qed.

Lemma count_nids_spec bm n : forall nid v, bytes bm -> 0 <= nid -> nid + Z.of_nat n <= nbits bm -> nbits bm < 2 ^ 32 ->
  exists r, count_nids n bm nid v = Ok r /\ v <= r <= v + Z.of_nat n /\
    (r =? v) = forallb (fun x => negb (bit_be bm x)) (seqZ nid (Z.of_nat n)) /\
    (r =? v + Z.of_nat n) = forallb (bit_be bm) (seqZ nid (Z.of_nat n)).
Proof.
  induction n as [|n IH]; intros nid v Hb H0 Hn Hs; cbn [count_nids].
  { exists v. cbn. split; [done|]. split; [lia|]. rewrite Z.add_0_r, Z.eqb_refl. done. }
  destruct (test_bit_be bm nid Hb ltac:(lia)) as (b & -> & Hz). rewrite res_bind_ret, Hz, u32_id by (unfold is_u32; lia).
  destruct (IH (nid + 1) (if negb (bit_be bm nid) then v else v + 1)) as (r & -> & Hr & H1 & H2); [done|lia..|].
  exists r. split; [done|]. rewrite (seqZ_cons nid) by lia. cbn [forallb].
  replace (Z.pred (Z.of_nat (S n))) with (Z.of_nat n) by lia. replace (Z.succ nid) with (nid + 1) by lia.
  destruct (bit_be bm nid); cbn [negb andb] in *; (split; [lia|]).
  - rewrite <- H2. split; [apply Z.eqb_neq; lia|f_equal; lia].
  - rewrite <- H1. split; [done|apply Z.eqb_neq; lia].
Qed.

Lemma forallb_shift (f g : Z -> bool) a n : (forall j, 0 <= j < n -> f (a + j) = g j) ->
  forallb f (seqZ a n) = forallb g (seqZ 0 n).
Proof.
  intros H. apply eq_true_iff_eq. rewrite !forallb_forall. split; intros Hall x Hx;
    apply list_elem_of_In, elem_of_seqZ in Hx.
  - rewrite <- H by lia. apply Hall, list_elem_of_In, elem_of_seqZ. lia.
  - replace x with (a + (x - a)) by lia. rewrite H by lia. apply Hall, list_elem_of_In, elem_of_seqZ. lia.
Qed.

(** The bitmap of node ids agrees with the table. *)
Definition nids_match (d : disk) (sb : f2fs_super_block) (nm : f2fs_nm_info) : Prop :=
  let N := 256 * sb_segment_count_nat sb in
  bytes (nm_nid_bitmap nm) /\ NAT_ENTRY_PER_BLOCK * N <= nbits (nm_nid_bitmap nm) < 2 ^ 32 /\
  forall i j, 0 <= i < N -> 0 <= j < NAT_ENTRY_PER_BLOCK ->
    bit_be (nm_nid_bitmap nm) (i * NAT_ENTRY_PER_BLOCK + j) = nat_used (nat_blk d sb nm i) i j.

Section CheckNatBits.
Context (d : disk) (sb : f2fs_super_block) (nm : f2fs_nm_info) (full empty : list Z).
Let N : Z := 256 * sb_segment_count_nat sb.
Context (Hm : nids_match d sb nm) (Hf : bytes full) (He : bytes empty).
Context (Hfl : N <= nbits full) (Hel : N <= nbits empty).

(** The bits of block [x] tell the truth. *)
Definition bits_right (x : Z) : bool :=
  Bool.eqb (bit_le full x) (block_full d sb nm x) && Bool.eqb (bit_le empty x) (block_empty d sb nm x).

Lemma block_count i : 0 <= i < N -> exists r,
  count_nids (Z.to_nat NAT_ENTRY_PER_BLOCK) (nm_nid_bitmap nm) (u32 (i * NAT_ENTRY_PER_BLOCK)) 0 = Ok r /\
  (r =? 0) = block_empty d sb nm i /\ (r =? NAT_ENTRY_PER_BLOCK) = block_full d sb nm i.
Proof.
  intros Hi. destruct Hm as (Hb & Hn & Hu). fold N in Hn, Hu. unfold NAT_ENTRY_PER_BLOCK in *.
  rewrite u32_id by (unfold is_u32; lia).
  destruct (count_nids_spec (nm_nid_bitmap nm) (Z.to_nat 455) (i * 455) 0) as (r & -> & _ & H1 & H2); [done|lia..|].
  exists r. split; [done|]. rewrite Z2Nat.id, Z.add_0_l in * by lia. rewrite H1, H2.
  split; apply forallb_shift; intros j Hj; (rewrite Hu; [done|lia|exact Hj]).
Qed.

Lemma check_nat_bits_loop_eq n : forall i, 0 <= i -> i + Z.of_nat n = N ->
  check_nat_bits_loop n (nm_nid_bitmap nm) full empty i =
    Ok (if forallb bits_right (seqZ i (Z.of_nat n)) then 0 else -1).
Proof.
  induction n as [|n IH]; intros i H0 Hn; cbn [check_nat_bits_loop]; [done|].
  destruct (@bm_test_ok _ le_bitmap_laws empty i He ltac:(lia)) as (e & He1 & He2).
  destruct (@bm_test_ok _ le_bitmap_laws full i Hf ltac:(lia)) as (f & Hf1 & Hf2).
  cbn [le_bitmap bm_test bm_bit] in *. rewrite He1, res_bind_ret, Hf1, res_bind_ret.
  destruct (block_count i ltac:(lia)) as (r & -> & H1 & H2). rewrite res_bind_ret, H1, H2.
  assert (block_empty d sb nm i = true -> block_full d sb nm i = false) as Hex.
  { rewrite <- H1, <- H2. intros ->%Z.eqb_eq. done. }
  rewrite (seqZ_cons i) by lia. cbn [forallb]. unfold bits_right at 1. rewrite <- He2, <- Hf2.
  replace (Z.pred (Z.of_nat (S n))) with (Z.of_nat n) by lia. replace (Z.succ i) with (i + 1) by lia.
  destruct (block_empty d sb nm i), (block_full d sb nm i), (e =? 0), (f =? 0); try done; try (by specialize (Hex eq_refl));
    apply IH; lia.
Qed.
End CheckNatBits.

(** The check of a stored buffer with the right stamp. *)
Lemma check_nat_bits_eq d0 d sb cp nm sum k stamp buf fix_on bug :
  let nb := nat_bits_size sb in let start := sb_segment0_blkaddr sb + 512 * k - nb in
  let full := full_bits sb buf in let empty := empty_bits sb buf in
  sb_log_blocks_per_seg sb = 9 -> 0 <= sb_segment_count_nat sb <= 2 ^ 14 -> 0 <= k <= 2 ->
  0 <= start /\ start + nb <= 2 ^ 32 -> nids_match d0 sb nm -> get_cp_crc cp = Ok stamp -> nats_in_cursum sum = Ok 0 ->
  length buf = (4096 * Z.to_nat nb)%nat -> bytes buf -> get_le64 buf 0 = Ok stamp ->
  (forall j, (j < Z.to_nat nb)%nat -> d !! (start + Z.of_nat j) = Some (buf_block buf j)) ->
  check_nat_bits d sb cp nm sum k fix_on bug =
    Ok (if forallb (bits_right d0 sb nm full empty) (seqZ 0 (256 * sb_segment_count_nat sb)) then 0 else -1, bug).
Proof.
  intros nb start full empty Hlog Hn Hk Hstart Hm Hcrc Hj Hbl Hbb Hst Hd. unfold check_nat_bits. rewrite Hlog.
  change (defined_ _) with (@Ok unit tt). rewrite res_bind_ret. cbv zeta.
  change (9 - 1) with 8. rewrite (Z.shiftl_mul_pow2 _ 8), Z.shiftr_div_pow2 by lia.
  change (2 ^ 8) with 256. change (2 ^ 3) with 8. rewrite (u32_id (_ * 256)) by (unfold is_u32; lia).
  replace (sb_segment_count_nat sb * 256 / 8) with (32 * sb_segment_count_nat sb) by (Z.to_euclidean_division_equations; lia).
  rewrite nat_bits_size_eq by lia. fold nb. rewrite (Z.mul_comm _ 256).
  assert (1 <= nb <= 257 /\ 8 + 64 * sb_segment_count_nat sb <= 4096 * nb) as [Hnb Hfit]
    by (unfold nb, nat_bits_size; Z.to_euclidean_division_equations; lia).
  rewrite (Z.shiftl_mul_pow2 _ 9) by lia. change (2 ^ 9) with 512. rewrite (u32_id (k * 512)) by (unfold is_u32; lia).
  replace (sb_segment0_blkaddr sb + k * 512 - nb) with start by (unfold start; lia).
  rewrite u32_id by (unfold is_u32; lia). rewrite (load_blocks_eq _ _ _ buf) by done.
  rewrite Hst, res_bind_ret, Hcrc, res_bind_ret, Hj, res_bind_ret, Z.eqb_refl. cbn [negb orb Z.eqb].
  rewrite !rd_bytes_Ok, !res_bind_ret by lia. set (n := Z.to_nat (32 * _)). change (Z.to_nat 8) with 8%nat.
  replace (Z.to_nat (8 + 32 * sb_segment_count_nat sb)) with (8 + n)%nat by (unfold n; lia).
  fold n in full, empty. change (take n (drop 8 buf)) with full. change (take n (drop (8 + n) buf)) with empty.
  assert (length full = n /\ length empty = n) as [Hfl Hel]
    by (unfold full, empty, full_bits, empty_bits; fold n; rewrite !length_take, !length_drop; unfold n; lia).
  rewrite (check_nat_bits_loop_eq d0 sb nm full empty) by (done || (by apply Forall_take, Forall_drop) || (unfold nbits; lia) || lia).
  rewrite res_bind_ret, Z2Nat.id by lia. done.
Qed.


(** C24: What [write_nat_bits] stores is what [check_nat_bits] asks for: with the
    bits written for pack [k] and no entry left in the journal, the check of the
    same pack returns 0 if the bitmap of node ids agrees with the table; and the
    check is exact: of all buffers with the stamp of the checkpoint it accepts
    those whose full and empty bits are the ones that were written. *)
Theorem nat_bits_write_check (d : disk) (sb : f2fs_super_block) (cp : list Z) (nm : f2fs_nm_info) (sum : list Z)
    (k stamp : Z) (fix_on bug : bool) :
  nat_bits_geom d sb nm k -> nids_match d sb nm -> is_u64 stamp -> get_cp_crc cp = Ok stamp -> nats_in_cursum sum = Ok 0 ->
  exists w' buf, write_nat_bits (d, []) sb cp nm k bug = Ok (w', bug) /\
    w'.1 = apply_writes d w'.2 /\
    Forall (fun x => nat_bits_start sb k <= x.1 < nat_bits_start sb k + nat_bits_size sb) w'.2 /\
    check_nat_bits w'.1 sb cp nm sum k fix_on bug = Ok (0, bug) /\
    forall d' buf', length buf' = length buf -> bytes buf' -> get_le64 buf' 0 = Ok stamp ->
      (forall j, (j < Z.to_nat (nat_bits_size sb))%nat -> d' !! (nat_bits_start sb k + Z.of_nat j) = Some (buf_block buf' j)) ->
      check_nat_bits d' sb cp nm sum k fix_on bug = Ok (0, bug) <->
      (forall x, 0 <= x < 256 * sb_segment_count_nat sb ->
         bit_le (full_bits sb buf') x = bit_le (full_bits sb buf) x /\
         bit_le (empty_bits sb buf') x = bit_le (empty_bits sb buf) x).
Proof.
  intros [Hlog Hsegs Hk Hstart Hnat Hblk] Hm Hs64 Hcrc Hj.
  destruct (write_nat_bits_spec (d, []) sb cp nm k stamp bug) as (w' & buf & Hw & (ws & Hws1 & Hws2 & Hws3) & [Hl Hst Hb Hbits] & Hv);
    [done..|]. cbn [fst snd app] in *. subst ws.
  assert (get_le64 buf 0 = Ok stamp) as Hst'.
  { unfold get_le. rewrite rd_bytes_Ok, res_bind_ret by (unfold nat_bits_size in *; Z.to_euclidean_division_equations; lia).
    rewrite drop_0, Hst. f_equal. by apply le_val_bytes. }
  assert (forall d' buf', length buf' = length buf -> bytes buf' -> get_le64 buf' 0 = Ok stamp ->
    (forall j, (j < Z.to_nat (nat_bits_size sb))%nat -> d' !! (nat_bits_start sb k + Z.of_nat j) = Some (buf_block buf' j)) ->
    check_nat_bits d' sb cp nm sum k fix_on bug = Ok (if forallb (bits_right d sb nm (full_bits sb buf') (empty_bits sb buf'))
      (seqZ 0 (256 * sb_segment_count_nat sb)) then 0 else -1, bug)) as Hchk.
  { intros d' buf' Hl' Hb' Hs' Hd'. apply (check_nat_bits_eq d d' sb cp nm sum k stamp buf'); try done. by rewrite Hl'. }
  assert (forall buf', forallb (bits_right d sb nm (full_bits sb buf') (empty_bits sb buf')) (seqZ 0 (256 * sb_segment_count_nat sb)) = true
    <-> (forall x, 0 <= x < 256 * sb_segment_count_nat sb -> bit_le (full_bits sb buf') x = bit_le (full_bits sb buf) x /\
         bit_le (empty_bits sb buf') x = bit_le (empty_bits sb buf) x)) as Hiff.
  { intros buf'. rewrite forallb_forall. setoid_rewrite <- list_elem_of_In. setoid_rewrite elem_of_seqZ.
    unfold bits_right. setoid_rewrite andb_true_iff. setoid_rewrite eqb_true_iff.
    split; intros H x Hx; (destruct (Hbits x) as [E1 E2]; [lia|]); specialize (H x Hx); [rewrite E1, E2|rewrite <- E1, <- E2]; exact H. }
  exists w', buf. split; [exact Hw|]. split; [exact Hws2|]. split; [|split].
  - eapply Forall_impl; [exact Hws3|]. intros x (_ & _ & Hx). exact Hx.
  - rewrite (Hchk w'.1 buf) by done. by rewrite (proj2 (Hiff buf)).
  - intros d' buf' Hl' Hb' Hs' Hd'. rewrite (Hchk d' buf') by done. rewrite <- Hiff.
    by destruct (forallb _ _).
Qed.

(** A small table, of which only node id 0 is in use. *)
Definition sample_nm : f2fs_nm_info := ns_nm (sample_nat (sample_sb 0 1 31 2) []).

Lemma sample_nat_readable d : (forall x, 512 <= x < 3608 -> has_block d x) ->
  nat_readable d (sample_sb 0 1 31 2) sample_nm.
Proof.
  intros Hd. unfold nat_readable. change (256 * _) with 512. intros x Hx.
  destruct (test_bit_be (replicate 64 0) x) as (v & Hv & _); [apply bytes_forallb; reflexivity|unfold nbits; cbn; lia|].
  unfold nat_bits_blkaddr. cbn [sample_nm sample_nat ns_nm nm_nat_blocks nm_nat_bitmap].
  replace (x <? 512) with true by lia. rewrite Hv, res_bind_ret. eexists. split; [reflexivity|].
  change (sb_log_blocks_per_seg _) with 9. change (sb_nat_blkaddr _) with 2560. change (Z.shiftl 1 9) with 512.
  change (512 - 1) with (2 ^ 9 - 1). rewrite land_ones_mod by lia.
  rewrite !Z.shiftl_mul_pow2, Z.shiftr_div_pow2 by lia. change (2 ^ 9) with 512.
  replace (x / 512) with 0 by (Z.to_euclidean_division_equations; lia). rewrite (Z.mod_small x) by lia.
  rewrite (u32_id (2560 + _ + x)) by (unfold is_u32; lia). rewrite (u32_id (_ + 512)) by (unfold is_u32; lia).
  apply Hd. destruct (v =? 0); lia.
Qed.

Definition sample_nid_bitmap : list Z := 128 :: replicate (Z.to_nat 29119) 0.
Definition sample_nm_nids : f2fs_nm_info := {|
  nm_nat_blkaddr := 2560; nm_nat_blocks := 512; nm_max_nid := 232960; nm_init_scan_nid := 4;
  nm_next_scan_nid := 4; nm_nat_bitmap := replicate 64 0; nm_nid_bitmap := sample_nid_bitmap |}.

Lemma sample_nid_bit x : 0 <= x -> bit_be sample_nid_bitmap x = (x =? 0).
Proof.
  intros Hx. unfold bit_be, bit_at, sample_nid_bitmap. rewrite shiftr3_div. unfold pos_be. rewrite land7_mod.
  destruct (Z.lt_ge_cases x 8) as [H8|H8].
  - rewrite Z.div_small by lia. change (Z.to_nat 0) with 0%nat. cbn [lookup list_lookup].
    rewrite Z.mod_small by lia. assert (x = 0 \/ x = 1 \/ x = 2 \/ x = 3 \/ x = 4 \/ x = 5 \/ x = 6 \/ x = 7) as H by lia.
    by repeat destruct H as [->|H]; [..|subst x].
  - replace (Z.to_nat (x / 8)) with (S (Z.to_nat (x / 8 - 1))) by (Z.to_euclidean_division_equations; lia).
    change ((128 :: ?l) !! S ?n) with (l !! n).
    replace (x =? 0) with false by lia. destruct (replicate _ 0 !! _) as [c|] eqn:E; [|done].
    apply lookup_replicate in E as [-> _]. apply Z.testbit_0_l.
Qed.

Lemma zero_block_unused i j : 0 <= j < 455 -> nat_used zero_block i j = (i =? 0) && (j =? 0).
Proof.
  intros Hj. unfold nat_used. rewrite <- (orb_false_r ((i =? 0) && (j =? 0))) at 2. f_equal.
  unfold SIZE_OF_NAT_ENTRY, ofs_ne_block_addr, get_le, zero_block. rewrite rd_bytes_Ok by (rewrite ?length_replicate; lia).
  rewrite res_bind_ret, drop_replicate, take_replicate.
  replace (4 `min` _)%nat with 4%nat by lia. done.
Qed.

Lemma zero_disk_only start n a b : zero_disk start n !! a = Some b -> b = zero_block.
Proof.
  intros H. apply elem_of_list_to_map_2, list_elem_of_fmap in H as (i & [= _ ->] & _). done.
Qed.

Lemma sample_nids_match : nids_match (zero_disk 512 (Z.to_nat 3096)) (sample_sb 0 1 31 2) sample_nm_nids.
Proof.
  unfold nids_match. change (256 * _) with 512. cbn [sample_nm_nids nm_nid_bitmap]. split.
  { constructor; [unfold is_u8; lia|]. apply Forall_replicate. unfold is_u8. lia. }
  split.
  { unfold nbits, sample_nid_bitmap. cbn [length]. rewrite length_replicate. unfold NAT_ENTRY_PER_BLOCK. lia. }
  unfold NAT_ENTRY_PER_BLOCK. intros i j Hi Hj. rewrite sample_nid_bit by lia.
  assert (nat_blk (zero_disk 512 (Z.to_nat 3096)) (sample_sb 0 1 31 2) sample_nm_nids i = zero_block) as ->.
  { unfold nat_blk. destruct (sample_nat_readable (zero_disk 512 (Z.to_nat 3096))) with (x := i) as (a & Ha & b & Hb & _).
    - intros x Hx. apply zero_disk_block. lia.
    - change (256 * _) with 512. lia.
    - change (nat_bits_blkaddr _ sample_nm_nids i) with (nat_bits_blkaddr (sample_sb 0 1 31 2) sample_nm i). rewrite Ha.
      rewrite Hb. by apply (zero_disk_only 512 (Z.to_nat 3096) a). }
  rewrite zero_block_unused by lia. destruct (Z.eqb_spec i 0), (Z.eqb_spec j 0); cbn [andb]; apply Z.eqb_eq || apply Z.eqb_neq; lia.
Qed.

Lemma nat_bits_write_check_witness : exists w' stamp,
  get_cp_crc sample_cp = Ok stamp /\
  write_nat_bits (zero_disk 512 (Z.to_nat 3096), []) (sample_sb 0 1 31 2) sample_cp sample_nm_nids 1 false = Ok (w', false) /\
  check_nat_bits w'.1 (sample_sb 0 1 31 2) sample_cp sample_nm_nids zero_block 1 true false = Ok (0, false).
Proof.
  assert (forall x, 512 <= x < 3608 -> has_block (zero_disk 512 (Z.to_nat 3096)) x) as Hd
    by (intros x Hx; apply zero_disk_block; lia).
  assert (nat_bits_start (sample_sb 0 1 31 2) 1 = 1023 /\ nat_bits_size (sample_sb 0 1 31 2) = 1) as [Es En]
    by (split; vm_compute; reflexivity).
  assert (nat_bits_geom (zero_disk 512 (Z.to_nat 3096)) (sample_sb 0 1 31 2) sample_nm_nids 1) as G.
  { constructor; rewrite ?Es, ?En; [reflexivity|vm_compute; split; discriminate|lia|lia| |intros x Hx; apply Hd; lia].
    exact (sample_nat_readable _ Hd). }
  assert (get_cp_crc sample_cp = Ok 1) as Hc by (vm_compute; reflexivity).
  destruct (nat_bits_write_check _ _ sample_cp _ zero_block 1 1 true false G sample_nids_match) as (w' & buf & H1 & _ & _ & H2 & _).
  - unfold is_u64. lia.
  - exact Hc.
  - vm_compute. reflexivity.
  - exists w', 1. split; [exact Hc|]. split; [exact H1|exact H2].
Defined.
