(* ===== verification/Segment.v ===== *)
(** Segments of the main area (fsck/mount.c, fsck/segment.c, fsck/f2fs.h): the
    address arithmetic between blocks, segments and sections, the cached segment
    entries, the summaries, the search for a free block, its reservation, and
    moving the current segments.

    The state is split into what the code only reads ([seg_cfg]) and what it
    changes ([seg_state]). The abstract view is the set of used blocks, given by
    the validity maps; the invariant [seg_inv] ties the block counts to it. *)
From Stdlib Require Import ZArith Lia List Bool.
From stdpp Require Import base numbers list gmap.
From S2P Require Import Prelude Codec Bits Crc Superblock Mkfs Checkpoint Nat.

(** * State *)

Definition CURSEG_HOT_DATA : Z := 0.
Definition CURSEG_WARM_DATA : Z := 1.
Definition CURSEG_COLD_DATA : Z := 2.
Definition CURSEG_HOT_NODE : Z := 3.
Definition CURSEG_WARM_NODE : Z := 4.
Definition CURSEG_COLD_NODE : Z := 5.
Definition NO_CHECK_TYPE : Z := 6.

Definition IS_DATASEG (t : Z) : bool := (t =? CURSEG_HOT_DATA) || (t =? CURSEG_COLD_DATA) || (t =? CURSEG_WARM_DATA).
Definition IS_NODESEG (t : Z) : bool := (t =? CURSEG_HOT_NODE) || (t =? CURSEG_COLD_NODE) || (t =? CURSEG_WARM_NODE).

(** [struct seg_entry]; [se_ckpt_map] is empty where the pointer is not set. *)
Record seg_entry := {
  se_valid_blocks : Z;
  se_ckpt_valid_blocks : Z;
  se_cur_map : list Z;
  se_ckpt_map : list Z;
  se_type : Z;
  se_orig_type : Z;
  se_ckpt_type : Z;
  se_mtime : Z;
  se_dirty : bool;
}.

Definition LFS : Z := 0.
Definition SSR : Z := 1.

Record curseg_info := {
  cs_sum_blk : list Z;
  cs_alloc_type : Z;
  cs_segno : Z;
  cs_next_blkoff : Z;
}.

Record seg_cfg := {
  g_func : f2fs_config_func;
  g_zoned_hm : bool;
  g_super : f2fs_super_block;
  g_ckpt : list Z;
  g_log : Z;
  g_segs_per_sec : Z;
  g_main_blkaddr : Z;
  g_ssa_blkaddr : Z;
  g_main_segments : Z;
  g_segment_count : Z;
  g_reserved_segments : Z;
  g_user_block_count : Z;
  g_total_node_count : Z;
  g_sit_base_addr : Z;
  g_sit_blocks : Z;
  g_sit_bitmap : list Z;
}.

(** The counters of [sbi] and of [fsck->chk]. *)
Record seg_counts := {
  n_valid_block : Z;
  n_valid_node : Z;
  n_valid_inode : Z;
  n_chk_blk : Z;
  n_chk_node : Z;
  n_chk_inode : Z;
}.

Record seg_state := {
  sg : seg_cfg;
  sg_sentries : list seg_entry;
  sg_cursegs : list curseg_info;
  sg_counts : seg_counts;
  sg_main_bitmap : list Z;
  sg_sit_area : list Z;
  sg_disk : disk;
}.

Definition with_sentries (st : seg_state) (ses : list seg_entry) : seg_state := {|
  sg := sg st; sg_sentries := ses; sg_cursegs := sg_cursegs st; sg_counts := sg_counts st;
  sg_main_bitmap := sg_main_bitmap st; sg_sit_area := sg_sit_area st; sg_disk := sg_disk st |}.
Definition with_cursegs (st : seg_state) (cs : list curseg_info) : seg_state := {|
  sg := sg st; sg_sentries := sg_sentries st; sg_cursegs := cs; sg_counts := sg_counts st;
  sg_main_bitmap := sg_main_bitmap st; sg_sit_area := sg_sit_area st; sg_disk := sg_disk st |}.
Definition with_counts (st : seg_state) (n : seg_counts) : seg_state := {|
  sg := sg st; sg_sentries := sg_sentries st; sg_cursegs := sg_cursegs st; sg_counts := n;
  sg_main_bitmap := sg_main_bitmap st; sg_sit_area := sg_sit_area st; sg_disk := sg_disk st |}.
Definition with_area_maps (st : seg_state) (main sit : list Z) : seg_state := {|
  sg := sg st; sg_sentries := sg_sentries st; sg_cursegs := sg_cursegs st; sg_counts := sg_counts st;
  sg_main_bitmap := main; sg_sit_area := sit; sg_disk := sg_disk st |}.
Definition with_seg_disk (st : seg_state) (d : disk) : seg_state := {|
  sg := sg st; sg_sentries := sg_sentries st; sg_cursegs := sg_cursegs st; sg_counts := sg_counts st;
  sg_main_bitmap := sg_main_bitmap st; sg_sit_area := sg_sit_area st; sg_disk := d |}.

(** * Addresses *)

Definition blocks_per_seg (g : seg_cfg) : Z := Z.shiftl 1 (g_log g).
Definition START_BLOCK (g : seg_cfg) (segno : Z) : Z :=
  u32 (g_main_blkaddr g + u32 (Z.shiftl segno (g_log g))).
Definition GET_SUM_BLKADDR (g : seg_cfg) (segno : Z) : Z := u32 (g_ssa_blkaddr g + segno).
Definition BLKOFF_FROM_MAIN (g : seg_cfg) (blk_addr : Z) : res Z :=
  _ ← assert_ (g_main_blkaddr g <=? blk_addr); Ok (blk_addr - g_main_blkaddr g).
Definition GET_SEGNO (g : seg_cfg) (blk_addr : Z) : res Z :=
  off ← BLKOFF_FROM_MAIN g blk_addr; Ok (u32 (Z.shiftr off (g_log g))).
Definition OFFSET_IN_SEG (g : seg_cfg) (blk_addr : Z) : res Z :=
  off ← BLKOFF_FROM_MAIN g blk_addr;
  _ ← defined_ ((0 <=? g_log g) && (g_log g <? 31));
  Ok (u32 (off mod Z.shiftl 1 (g_log g))).
Definition TOTAL_SEGS (g : seg_cfg) : Z := g_main_segments g.
Definition RO (g : seg_cfg) : bool := has_feature (sb_feature (g_super g)) F2FS_FEATURE_RO.

Definition IS_CUR_SEGNO (st : seg_state) (segno : Z) : bool :=
  existsb (fun c => segno =? cs_segno c) (take (Z.to_nat NO_CHECK_TYPE) (sg_cursegs st)).

(** * Segment entries *)

Definition CP_UMOUNT_FLAG : Z := 0x1.
Definition need_fsync_data_record (g : seg_cfg) : res bool :=
  f ← is_set_ckpt_flags (g_ckpt g) CP_UMOUNT_FLAG; Ok (negb f || g_zoned_hm g).

Definition get_seg_entry (st : seg_state) (segno : Z) : res seg_entry := rd (sg_sentries st) segno.
Definition set_seg_entry (st : seg_state) (segno : Z) (se : seg_entry) : res seg_state :=
  ses ← wr (sg_sentries st) segno se; Ok (with_sentries st ses).

Definition get_seg_vblocks (g : seg_cfg) (se : seg_entry) : res Z :=
  n ← need_fsync_data_record g; Ok (if n : bool then se_ckpt_valid_blocks se else se_valid_blocks se).
Definition get_seg_bitmap (g : seg_cfg) (se : seg_entry) : res (list Z) :=
  n ← need_fsync_data_record g; Ok (if n : bool then se_ckpt_map se else se_cur_map se).
Definition get_seg_type (g : seg_cfg) (se : seg_entry) : res Z :=
  n ← need_fsync_data_record g; Ok (if n : bool then se_ckpt_type se else se_type se).

Definition set_se_type (se : seg_entry) (t : Z) : seg_entry := {|
  se_valid_blocks := se_valid_blocks se; se_ckpt_valid_blocks := se_ckpt_valid_blocks se;
  se_cur_map := se_cur_map se; se_ckpt_map := se_ckpt_map se; se_type := t;
  se_orig_type := se_orig_type se; se_ckpt_type := se_ckpt_type se; se_mtime := se_mtime se;
  se_dirty := se_dirty se |}.
Definition set_se_dirty (se : seg_entry) : seg_entry := {|
  se_valid_blocks := se_valid_blocks se; se_ckpt_valid_blocks := se_ckpt_valid_blocks se;
  se_cur_map := se_cur_map se; se_ckpt_map := se_ckpt_map se; se_type := se_type se;
  se_orig_type := se_orig_type se; se_ckpt_type := se_ckpt_type se; se_mtime := se_mtime se;
  se_dirty := true |}.

(** [is_usable_seg] is constant without zoned-device support. *)
Definition is_usable_seg (g : seg_cfg) (segno : Z) : bool := true.
Definition get_usable_seg_count (g : seg_cfg) : Z := TOTAL_SEGS g.

Fixpoint get_free_segments_loop (n : nat) (st : seg_state) (i free_segs : Z) : res Z :=
  match n with
  | O => Ok free_segs
  | S n =>
      se ← get_seg_entry st i;
      let free := (se_valid_blocks se =? 0) && negb (IS_CUR_SEGNO st i) && is_usable_seg (sg st) i in
      get_free_segments_loop n st (i + 1) (if free then u32 (free_segs + 1) else free_segs)
  end.
Definition get_free_segments (st : seg_state) : res Z :=
  get_free_segments_loop (Z.to_nat (TOTAL_SEGS (sg st))) st 0 0.

Fixpoint set_section_type_loop (n : nat) (st : seg_state) (segno type : Z) : res seg_state :=
  match n with
  | O => Ok st
  | S n =>
      se ← get_seg_entry st segno;
      st ← set_seg_entry st segno (set_se_type se (u8 type));
      set_section_type_loop n st (u32 (segno + 1)) type
  end.
Definition set_section_type (st : seg_state) (segno type : Z) : res seg_state :=
  if g_segs_per_sec (sg st) =? 1 then Ok st
  else set_section_type_loop (Z.to_nat (g_segs_per_sec (sg st))) st segno type.

(** * Searching a free block *)

(** [i == sbi->segs_per_sec] after the loop over the other segments of the section. *)
Fixpoint section_unused (n : nat) (st : seg_state) (segno : Z) : res bool :=
  match n with
  | O => Ok true
  | S n =>
      se2 ← get_seg_entry st segno;
      v ← get_seg_vblocks (sg st) se2;
      if v =? 0 then section_unused n st (u32 (segno + 1)) else Ok false
  end.

(** One turn of the [while] loop at [to]: the block is taken (and the type of its
    section set), or the search goes on elsewhere. [write_pointer_at_zone_start]
    is constant without zoned-device support. *)
Definition find_next_free_step (st : seg_state) (to left want_type : Z) (new_sec not_enough : bool)
    : res (seg_state + Z) :=
  let g := sg st in
  segno ← GET_SEGNO g to;
  offset ← OFFSET_IN_SEG g to;
  se ← get_seg_entry st segno;
  vblocks ← get_seg_vblocks g se;
  bitmap ← get_seg_bitmap g se;
  type ← get_seg_type g se;
  let next_segment :=
    if left =? 0 then START_BLOCK g (u32 (segno + 1)) else u32 (START_BLOCK g segno - 1) in
  if vblocks =? blocks_per_seg g then Ok (inr next_segment)
  else if negb (RO g) && IS_CUR_SEGNO st segno then Ok (inr next_segment)
  else if (vblocks =? 0) && not_enough then Ok (inr next_segment)
  else
    fresh ← (if vblocks =? 0 then
               _ ← defined_ (negb (g_segs_per_sec g =? 0));
               if segno mod g_segs_per_sec g =? 0
               then section_unused (Z.to_nat (g_segs_per_sec g - 1)) st (u32 (segno + 1)) else Ok false
             else Ok false);
    if fresh : bool then st ← set_section_type st segno want_type; Ok (inl st)
    else
      free ← (if (type =? want_type) && negb new_sec
              then b ← f2fs_test_bit offset bitmap; Ok (b =? 0) else Ok false);
      if free : bool then Ok (inl st)
      else Ok (inr (if left =? 0 then to + 1 else to - 1)).

Fixpoint find_next_free_loop (fuel : nat) (st : seg_state) (to left want_type : Z)
    (new_sec not_enough : bool) (end_blkaddr : Z) : res (Z * Z * seg_state) :=
  match fuel with
  | O => NoFuel
  | S fuel =>
      if (g_main_blkaddr (sg st) <=? to) && (to <? end_blkaddr) then
        r ← find_next_free_step st to left want_type new_sec not_enough;
        match r with
        | inl st => Ok (0, to, st)
        | inr to => find_next_free_loop fuel st to left want_type new_sec not_enough end_blkaddr
        end
      else Ok (-1, to, st)
  end.

(** The return value, [*to] and the state; every turn moves [*to] by at least one
    block inside the main area. *)
Definition find_next_free_block (st : seg_state) (to left want_type : Z) (new_sec : bool)
    : res (Z * Z * seg_state) :=
  let g := sg st in
  _ ← defined_ ((0 <=? sb_log_blocks_per_seg (g_super g)) && (sb_log_blocks_per_seg (g_super g) <? 32));
  let end_blkaddr := u32 (u32 (Z.shiftl (sb_segment_count_main (g_super g))
                                        (sb_log_blocks_per_seg (g_super g)))
                          + sb_main_blkaddr (g_super g)) in
  let to := if 0 <? to then to - left else to in
  free ← get_free_segments st;
  let not_enough := free <=? u32 (g_reserved_segments g + 1) in
  find_next_free_loop (S (Z.to_nat (end_blkaddr - g_main_blkaddr g))) st to left want_type new_sec
    not_enough end_blkaddr.

(** * Summaries *)

Inductive seg_type := SEG_TYPE_DATA | SEG_TYPE_CUR_DATA | SEG_TYPE_NODE | SEG_TYPE_CUR_NODE | SEG_TYPE_MAX.

Definition SUMMARY_SIZE : Z := 7.
Definition ENTRIES_IN_SUM : Z := 512.
Definition SUM_ENTRIES_SIZE : Z := SUMMARY_SIZE * ENTRIES_IN_SUM.
Definition ofs_sum_footer : Z := 4091.
Definition SUM_TYPE_NODE : Z := 1.
Definition SUM_TYPE_DATA : Z := 0.

(** [set_summary]: the seven bytes of a [struct f2fs_summary]. *)
Definition set_summary (nid ofs_in_node version : Z) : list Z :=
  le_bytes 4 nid ++ [u8 version] ++ le_bytes 2 (u16 ofs_in_node).

Definition IS_SUM_NODE_SEG (sum_blk : list Z) : res bool :=
  t ← rd sum_blk ofs_sum_footer; Ok (t =? SUM_TYPE_NODE).
Definition IS_SUM_DATA_SEG (sum_blk : list Z) : res bool :=
  t ← rd sum_blk ofs_sum_footer; Ok (t =? SUM_TYPE_DATA).

(** The first index from [i] on with [segno == get_cp(...[i])]. *)
Fixpoint find_cp_segno (n : nat) (cp : list Z) (ofs : Z -> Z) (i segno : Z) : res (option Z) :=
  match n with
  | O => Ok None
  | S n =>
      s ← get_le32 cp (ofs i);
      if segno =? s then Ok (Some i) else find_cp_segno n cp ofs (i + 1) segno
  end.

(** The summary block, the current segment it is shared with (if any), the type
    and whether the type is given as a negative number. *)
Definition get_sum_block (st : seg_state) (segno : Z) : res (list Z * option Z * seg_type * bool) :=
  let g := sg st in
  node ← find_cp_segno 3 (g_ckpt g) ofs_cur_node_segno 0 segno;
  match node with
  | Some type =>
      curseg ← rd (sg_cursegs st) (CURSEG_HOT_NODE + type);
      is_node ← IS_SUM_NODE_SEG (cs_sum_blk curseg);
      Ok (cs_sum_blk curseg, Some (CURSEG_HOT_NODE + type), SEG_TYPE_CUR_NODE, negb is_node)
  | None =>
      data ← find_cp_segno 3 (g_ckpt g) ofs_cur_data_segno 0 segno;
      match data with
      | Some type =>
          curseg ← rd (sg_cursegs st) type;
          is_node ← IS_SUM_NODE_SEG (cs_sum_blk curseg);
          Ok (cs_sum_blk curseg, Some type, SEG_TYPE_CUR_DATA, is_node)
      | None =>
          sum_blk ← disk_read_or_die (sg_disk st) (GET_SUM_BLKADDR g segno);
          is_node ← IS_SUM_NODE_SEG sum_blk;
          is_data ← IS_SUM_DATA_SEG sum_blk;
          Ok (sum_blk, None, if is_node : bool then SEG_TYPE_NODE
                             else if is_data : bool then SEG_TYPE_DATA else SEG_TYPE_MAX, false)
      end
  end.

Definition get_sum_entry (st : seg_state) (blk_addr : Z) : res (list Z * seg_type * bool) :=
  segno ← GET_SEGNO (sg st) blk_addr;
  offset ← OFFSET_IN_SEG (sg st) blk_addr;
  '(sum_blk, _, type, neg) ← get_sum_block st segno;
  e ← rd_bytes sum_blk (SUMMARY_SIZE * offset) (Z.to_nat SUMMARY_SIZE);
  Ok (e, type, neg).

Definition set_sum_blk (c : curseg_info) (b : list Z) : curseg_info := {|
  cs_sum_blk := b; cs_alloc_type := cs_alloc_type c; cs_segno := cs_segno c;
  cs_next_blkoff := cs_next_blkoff c |}.

(** Storing through the pointer that [get_sum_block] returned. *)
Definition store_sum_blk (st : seg_state) (shared : option Z) (b : list Z) : res seg_state :=
  match shared with
  | Some i => c ← rd (sg_cursegs st) i; cs ← wr (sg_cursegs st) i (set_sum_blk c b); Ok (with_cursegs st cs)
  | None => Ok st
  end.

Definition update_sum_entry (st : seg_state) (blk_addr : Z) (sum : list Z) : res seg_state :=
  let g := sg st in
  if RO g then Ok st
  else
    segno ← GET_SEGNO g blk_addr;
    offset ← OFFSET_IN_SEG g blk_addr;
    se ← get_seg_entry st segno;
    '(sum_blk, shared, _, _) ← get_sum_block st segno;
    sum_blk ← wr_list sum_blk (SUMMARY_SIZE * offset) sum;
    sum_blk ← wr sum_blk ofs_sum_footer (if IS_NODESEG (se_type se) then SUM_TYPE_NODE else SUM_TYPE_DATA);
    st ← store_sum_blk st shared sum_blk;
    d ← disk_write_or_die (sg_disk st) (GET_SUM_BLKADDR g segno) sum_blk;
    Ok (with_seg_disk st d).

(** * The maps of fsck *)

Definition f2fs_set_main_bitmap (st : seg_state) (blk type : Z) : res (Z * seg_state) :=
  segno ← GET_SEGNO (sg st) blk;
  se ← get_seg_entry st segno;
  let fix_ := (NO_CHECK_TYPE <=? se_type se) || negb (Bool.eqb (IS_DATASEG (se_type se)) (IS_DATASEG type)) in
  st ← (if fix_ then set_seg_entry st segno (set_se_type se (u8 type)) else Ok st);
  off ← BLKOFF_FROM_MAIN (sg st) blk;
  '(r, bm) ← f2fs_set_bit off (sg_main_bitmap st);
  Ok (r, with_area_maps st bm (sg_sit_area st)).

Definition f2fs_test_main_bitmap (st : seg_state) (blk : Z) : res Z :=
  off ← BLKOFF_FROM_MAIN (sg st) blk; f2fs_test_bit off (sg_main_bitmap st).

Definition f2fs_clear_main_bitmap (st : seg_state) (blk : Z) : res (Z * seg_state) :=
  off ← BLKOFF_FROM_MAIN (sg st) blk;
  '(r, bm) ← f2fs_clear_bit off (sg_main_bitmap st);
  Ok (r, with_area_maps st bm (sg_sit_area st)).

Definition f2fs_test_sit_bitmap (st : seg_state) (blk : Z) : res Z :=
  off ← BLKOFF_FROM_MAIN (sg st) blk; f2fs_test_bit off (sg_sit_area st).

Definition f2fs_set_sit_bitmap (st : seg_state) (blk : Z) : res (Z * seg_state) :=
  off ← BLKOFF_FROM_MAIN (sg st) blk;
  '(r, bm) ← f2fs_set_bit off (sg_sit_area st);
  Ok (r, with_area_maps st (sg_main_bitmap st) bm).

(** * Reserving a block *)

Definition ENOSPC : Z := 28.

(** The checks when a new block is accounted for. *)
Definition no_space (st : seg_state) (is_node : bool) : bool :=
  let g := sg st in let n := sg_counts st in
  if is_fsck (g_func g) then
    (g_user_block_count g <=? n_chk_blk n) || (is_node && (n_valid_node n <=? n_chk_node n))
  else
    (g_user_block_count g <=? n_valid_block n) || (is_node && (g_total_node_count g <=? n_valid_node n)).

(** [se->valid_blocks++] and its companions. *)
Definition mark_block (g : seg_cfg) (se : seg_entry) (type offset : Z) : res seg_entry :=
  '(_, cur) ← f2fs_set_bit offset (se_cur_map se);
  rec_ ← need_fsync_data_record g;
  if rec_ : bool then
    '(_, ckpt) ← f2fs_set_bit offset (se_ckpt_map se);
    Ok {| se_valid_blocks := u16 (se_valid_blocks se + 1);
          se_ckpt_valid_blocks := u16 (se_ckpt_valid_blocks se + 1);
          se_cur_map := cur; se_ckpt_map := ckpt; se_type := u8 type; se_orig_type := se_orig_type se;
          se_ckpt_type := u8 type; se_mtime := se_mtime se; se_dirty := se_dirty se |}
  else
    Ok {| se_valid_blocks := u16 (se_valid_blocks se + 1); se_ckpt_valid_blocks := se_ckpt_valid_blocks se;
          se_cur_map := cur; se_ckpt_map := se_ckpt_map se; se_type := u8 type;
          se_orig_type := se_orig_type se; se_ckpt_type := se_ckpt_type se; se_mtime := se_mtime se;
          se_dirty := se_dirty se |}.

Definition count_block (g : seg_cfg) (n : seg_counts) (is_node is_inode : bool) : seg_counts :=
  let one (b : bool) := if b then 1 else 0 in
  let f := is_fsck (g_func g) in {|
  n_valid_block := u32 (n_valid_block n + 1);
  n_valid_node := u32 (n_valid_node n + one is_node);
  n_valid_inode := u32 (n_valid_inode n + one (is_node && is_inode));
  n_chk_blk := u64 (n_chk_blk n + one f);
  n_chk_node := u32 (n_chk_node n + one (f && is_node));
  n_chk_inode := u32 (n_chk_inode n + one (f && is_node && is_inode)) |}.

(** The return value, [*to] and the state. *)
Definition reserve_new_block (st : seg_state) (to : Z) (sum : list Z) (type : Z) (is_inode : bool)
    : res (Z * Z * seg_state) :=
  let g := sg st in
  let is_node := IS_NODESEG type in
  if (to =? NULL_ADDR) && no_space st is_node then Ok (- ENOSPC, to, st)
  else
    '(ret, blkaddr, st) ← find_next_free_block st (g_main_blkaddr g) 0 type false;
    _ ← assert_ (ret =? 0);
    segno ← GET_SEGNO g blkaddr;
    offset ← OFFSET_IN_SEG g blkaddr;
    se ← get_seg_entry st segno;
    se ← mark_block g se type offset;
    st ← set_seg_entry st segno se;
    st ← (if is_fsck (g_func g) then
            '(_, st) ← f2fs_set_main_bitmap st (u32 blkaddr) type;
            '(_, st) ← f2fs_set_sit_bitmap st (u32 blkaddr);
            Ok st
          else Ok st);
    let st := if to =? NULL_ADDR then with_counts st (count_block g (sg_counts st) is_node is_inode) else st in
    se ← get_seg_entry st segno;
    st ← set_seg_entry st segno (set_se_dirty se);
    st ← update_sum_entry st (u32 blkaddr) sum;
    Ok (0, u32 blkaddr, st).

(** * Current segments *)

(** The first block below [n] that the map does not mark. *)
Fixpoint first_free_offset (n : nat) (map : list Z) (i : Z) : res (option Z) :=
  match n with
  | O => Ok None
  | S n => b ← f2fs_test_bit i map; if b =? 0 then Ok (Some i) else first_free_offset n map (i + 1)
  end.

Definition EINVAL : Z := 22.

Definition set_curseg_pos (c : curseg_info) (segno next_blkoff alloc_type : Z) : curseg_info := {|
  cs_sum_blk := cs_sum_blk c; cs_alloc_type := alloc_type; cs_segno := segno; cs_next_blkoff := next_blkoff |}.

Definition relocate_curseg_offset (st : seg_state) (type : Z) : res (Z * seg_state) :=
  let g := sg st in
  curseg ← rd (sg_cursegs st) type;
  se ← get_seg_entry st (cs_segno curseg);
  if g_zoned_hm g then Ok (- EINVAL, st)
  else
    i ← first_free_offset (Z.to_nat (blocks_per_seg g)) (se_cur_map se) 0;
    match i with
    | None => Ok (- EINVAL, st)
    | Some i =>
        cs ← wr (sg_cursegs st) type (set_curseg_pos curseg (cs_segno curseg) (u16 i) SSR);
        Ok (0, with_cursegs st cs)
    end.

Definition reset_curseg (st : seg_state) (type : Z) : res seg_state :=
  curseg ← rd (sg_cursegs st) type;
  b ← wr_list (cs_sum_blk curseg) ofs_sum_footer (replicate 5 0);
  b ← (if IS_DATASEG type then wr b ofs_sum_footer SUM_TYPE_DATA else Ok b);
  b ← (if IS_NODESEG type then wr b ofs_sum_footer SUM_TYPE_NODE else Ok b);
  st ← store_sum_blk st (Some type) b;
  se ← get_seg_entry st (cs_segno curseg);
  set_seg_entry st (cs_segno curseg) (set_se_dirty (set_se_type se (u8 type))).

Definition move_one_curseg_info (st : seg_state) (from left i : Z) : res seg_state :=
  let g := sg st in
  curseg ← rd (sg_cursegs st) i;
  if RO g && negb (i =? CURSEG_HOT_DATA) && negb (i =? CURSEG_HOT_NODE) then Ok st
  else
    st ← (if RO g then Ok st
          else d ← disk_write_or_die (sg_disk st) (GET_SUM_BLKADDR g (cs_segno curseg)) (cs_sum_blk curseg);
               Ok (with_seg_disk st d));
    '(ret, to, st) ← find_next_free_block st from left i (g_zoned_hm g);
    _ ← assert_ (ret =? 0);
    segno ← GET_SEGNO g to;
    off ← OFFSET_IN_SEG g to;
    let curseg := set_curseg_pos curseg segno (u16 off) (if g_zoned_hm g then LFS else SSR) in
    buf ← disk_read_or_die (sg_disk st) (GET_SUM_BLKADDR g segno);
    entries ← rd_bytes buf 0 (Z.to_nat SUM_ENTRIES_SIZE);
    b ← wr_list (cs_sum_blk curseg) 0 entries;
    cs ← wr (sg_cursegs st) i (set_sum_blk curseg b);
    reset_curseg (with_cursegs st cs) i.

Fixpoint move_curseg_loop (n : nat) (st : seg_state) (from left i : Z) : res seg_state :=
  match n with
  | O => Ok st
  | S n => st ← move_one_curseg_info st from left i; move_curseg_loop n st from left (i + 1)
  end.
Definition move_curseg_info (st : seg_state) (from left : Z) : res seg_state :=
  move_curseg_loop (Z.to_nat NO_CHECK_TYPE) st from left 0.

Definition update_curseg_info (st : seg_state) (type : Z) : res seg_state :=
  '(r, st) ← relocate_curseg_offset st type;
  if r =? 0 then Ok st else move_one_curseg_info st (g_main_blkaddr (sg st)) 0 type.

(** * Facts on validity maps *)

Lemma popcount_bounds l : bytes l -> 0 <= popcount l <= nbits l.
Proof.
  unfold nbits. induction 1 as [|c l Hc Hl IH]; [cbn; lia|]. rewrite popcount_cons. cbn [length].
  pose (chk := fun c => (0 <=? default 0 (bits_in_byte !! Z.to_nat c)) &&
                        (default 0 (bits_in_byte !! Z.to_nat c) <=? 8)).
  assert (chk c = true) as H by (apply byte_cases; [by vm_compute|done]). subst chk. cbv beta in H.
  apply andb_true_iff in H as [?%Z.leb_le ?%Z.leb_le]. lia.
Qed.

Lemma popcount_zero_clear l i : bytes l -> popcount l = 0 -> 0 <= i < nbits l -> bit_be l i = false.
Proof.
  intros Hb Hz Hi. destruct (@bm_clear_ok _ be_bitmap_laws l i Hb Hi) as (v & l' & Hc & _ & Hl & Hb' & _).
  pose proof (f2fs_clear_bit_popcount i l v l' Hb Hi Hc) as Hp. pose proof (popcount_bounds l' Hb') as Hp'.
  destruct (bit_be l i); [|done]. unfold count_le in Hp. lia.
Qed.

(** Setting a clear bit. *)
Lemma set_clear_bit l i : bytes l -> length l = 64%nat -> 0 <= i < 512 -> bit_be l i = false ->
  exists v l', f2fs_set_bit i l = Ok (v, l') /\ bytes l' /\ length l' = 64%nat /\ popcount l' = popcount l + 1 /\
    forall j, 0 <= j -> bit_be l' j = (j =? i) || bit_be l j.
Proof.
  intros Hb Hl Hi Hc. assert (0 <= i < nbits l) as Hn by (unfold nbits; lia).
  destruct (@bm_set_ok _ be_bitmap_laws l i Hb Hn) as (v & l' & Hs & _ & Hl' & Hb' & Hbit).
  exists v, l'. split; [done|]. split; [done|]. split; [by rewrite Hl'|]. split; [|done].
  rewrite (f2fs_set_bit_popcount i l v l' Hb Hn Hs), Hc. done.
Qed.

(** * The invariant *)

(** A cached entry counts the blocks of its maps, and the map for recovered data
    contains the current one. *)
Record se_ok (need : bool) (se : seg_entry) : Prop := {
  so_cur : length (se_cur_map se) = 64%nat /\ bytes (se_cur_map se);
  so_count : se_valid_blocks se = popcount (se_cur_map se);
  so_ckpt : need = true -> length (se_ckpt_map se) = 64%nat /\ bytes (se_ckpt_map se);
  so_ckpt_count : need = true -> se_ckpt_valid_blocks se = popcount (se_ckpt_map se);
  so_subset : need = true -> forall i, 0 <= i < 512 ->
    bit_be (se_cur_map se) i = true -> bit_be (se_ckpt_map se) i = true;
}.

Record cfg_ok (g : seg_cfg) (need : bool) (n : Z) : Prop := {
  co_log : g_log g = 9;
  co_sb_log : sb_log_blocks_per_seg (g_super g) = 9;
  co_need : need_fsync_data_record g = Ok need;
  co_segs : g_main_segments g = n;
  co_sb_segs : sb_segment_count_main (g_super g) = n;
  co_main : 0 < g_main_blkaddr g /\ sb_main_blkaddr (g_super g) = g_main_blkaddr g;
  co_end : g_main_blkaddr g + 512 * n < 2 ^ 32;
  co_sec : 0 < g_segs_per_sec g /\ (g_segs_per_sec g | n);
}.

Record seg_inv (st : seg_state) (need : bool) : Prop := {
  si_cfg : cfg_ok (sg st) need (Z.of_nat (length (sg_sentries st)));
  si_entries : Forall (se_ok need) (sg_sentries st);
  si_cursegs : length (sg_cursegs st) = 6%nat;
}.

(** The validity map that allocation goes by. *)
Definition live_map (need : bool) (se : seg_entry) : list Z := if need then se_ckpt_map se else se_cur_map se.
Definition live_count (need : bool) (se : seg_entry) : Z :=
  if need then se_ckpt_valid_blocks se else se_valid_blocks se.
Definition live_type (need : bool) (se : seg_entry) : Z := if need then se_ckpt_type se else se_type se.

Lemma live_ok need se : se_ok need se ->
  length (live_map need se) = 64%nat /\ bytes (live_map need se) /\ live_count need se = popcount (live_map need se).
Proof. intros [[H1 H2] H3 H4 H5 _]. destruct need; cbn; [|done]. destruct (H4 eq_refl). auto. Qed.

Lemma live_clear_cur need se i : se_ok need se -> 0 <= i < 512 ->
  bit_be (live_map need se) i = false -> bit_be (se_cur_map se) i = false.
Proof.
  intros [_ _ _ _ Hsub] Hi Hl. destruct need; cbn in *; [|done].
  destruct (bit_be (se_cur_map se) i) eqn:E; [|done]. rewrite (Hsub eq_refl i Hi E) in Hl. done.
Qed.

(** Two states whose entries differ in their types only. *)
Definition same_maps (a b : seg_entry) : Prop := exists t, b = set_se_type a t.
Definition same_but_types (st st' : seg_state) : Prop :=
  exists ses, st' = with_sentries st ses /\ Forall2 same_maps (sg_sentries st) ses.

Lemma same_maps_refl a : same_maps a a.
Proof. exists (se_type a). by destruct a. Qed.

Lemma same_but_types_refl st : same_but_types st st.
Proof.
  exists (sg_sentries st). split; [by destruct st|]. apply Forall2_same_length_lookup. split; [done|].
  intros i x y Hx Hy. rewrite Hx in Hy. injection Hy as ->. apply same_maps_refl.
Qed.

Lemma same_maps_ok need a b : same_maps a b -> se_ok need a -> se_ok need b.
Proof. intros [t ->] []. by constructor. Qed.

Lemma same_but_types_inv st st' need : same_but_types st st' -> seg_inv st need -> seg_inv st' need.
Proof.
  intros (ses & -> & Hf) [H1 H2 H3]. constructor; cbn [sg sg_sentries sg_cursegs with_sentries].
  - by rewrite <- (Forall2_length _ _ _ Hf).
  - eapply Forall2_Forall_r; [exact Hf|]. eapply Forall_impl; [exact H2|].
    intros a Ha b Hb. by apply (same_maps_ok need a).
  - done.
Qed.

Lemma same_but_types_trans a b c : same_but_types a b -> same_but_types b c -> same_but_types a c.
Proof.
  intros (s1 & -> & F1) (s2 & -> & F2). exists s2. split; [done|]. cbn [sg_sentries with_sentries] in F2.
  apply Forall2_same_length_lookup. split; [by rewrite (Forall2_length _ _ _ F1), (Forall2_length _ _ _ F2)|].
  intros i x z Hx Hz. destruct (Forall2_lookup_l _ _ _ _ _ F1 Hx) as (y & Hy & [t1 ->]).
  destruct (Forall2_lookup_l _ _ _ _ _ F2 Hy) as (z' & Hz' & [t2 ->]). rewrite Hz in Hz'. injection Hz' as ->.
  exists t2. done.
Qed.

(** * Searching *)

Section Search.
Context (need : bool).
Implicit Types st : seg_state.

Lemma segno_of g n to : cfg_ok g need n -> g_main_blkaddr g <= to < g_main_blkaddr g + 512 * n ->
  GET_SEGNO g to = Ok ((to - g_main_blkaddr g) / 512) /\
  OFFSET_IN_SEG g to = Ok ((to - g_main_blkaddr g) mod 512).
Proof.
  intros [Hl _ _ _ _ [Hm _] He _] Hto. unfold GET_SEGNO, OFFSET_IN_SEG, BLKOFF_FROM_MAIN. rewrite Hl.
  replace (g_main_blkaddr g <=? to) with true by lia. change (defined_ _) with (@Ok unit tt).
  cbn [assert_ mbind res_bind]. rewrite Z.shiftr_div_pow2 by lia. change (2 ^ 9) with 512. change (Z.shiftl 1 9) with 512.
  split; f_equal; apply u32_id; unfold is_u32; Z.to_euclidean_division_equations; lia.
Qed.

Lemma start_block_eq g n s : cfg_ok g need n -> 0 <= s <= n -> START_BLOCK g s = g_main_blkaddr g + 512 * s.
Proof.
  intros [Hl _ _ _ _ [Hm _] He _] Hs. unfold START_BLOCK. rewrite Hl, Z.shiftl_mul_pow2 by lia.
  change (2 ^ 9) with 512. rewrite (u32_id (s * 512)) by (unfold is_u32; lia).
  rewrite u32_id by (unfold is_u32; lia). lia.
Qed.

Lemma seg_entry_at st segno : seg_inv st need -> 0 <= segno < Z.of_nat (length (sg_sentries st)) ->
  exists se, get_seg_entry st segno = Ok se /\ se_ok need se /\ sg_sentries st !! Z.to_nat segno = Some se.
Proof.
  intros [_ Hf _] Hs. destruct (rd_total (sg_sentries st) segno Hs) as [se Hse].
  exists se. split; [done|]. apply rd_Ok in Hse as [_ Hse]. split; [|done].
  by apply (Forall_lookup_1 _ _ _ _ Hf Hse).
Qed.

Lemma live_accessors g n se : cfg_ok g need n ->
  get_seg_vblocks g se = Ok (live_count need se) /\ get_seg_bitmap g se = Ok (live_map need se) /\
  get_seg_type g se = Ok (live_type need se).
Proof.
  intros Hc. unfold get_seg_vblocks, get_seg_bitmap, get_seg_type. rewrite (co_need _ _ _ Hc).
  cbn [mbind res_bind]. by destruct need.
Qed.

Lemma free_segments_total n st i acc : seg_inv st need -> 0 <= i ->
  i + Z.of_nat n <= Z.of_nat (length (sg_sentries st)) -> exists r, get_free_segments_loop n st i acc = Ok r.
Proof.
  intros Hi. revert i acc. induction n as [|n IH]; intros i acc H0 Hn; cbn [get_free_segments_loop]; [by eexists|].
  destruct (seg_entry_at st i Hi) as (se & -> & _); [lia|]. cbn [mbind res_bind]. apply IH; lia.
Qed.

Lemma section_unused_total n st segno : seg_inv st need -> 0 <= segno ->
  segno + Z.of_nat n <= Z.of_nat (length (sg_sentries st)) -> exists r, section_unused n st segno = Ok r.
Proof.
  intros Hi. pose proof (si_cfg _ _ Hi) as Hc. revert segno.
  induction n as [|n IH]; intros segno H0 Hn; cbn [section_unused]; [by eexists|].
  destruct (seg_entry_at st segno Hi) as (se & -> & _); [lia|]. cbn [mbind res_bind].
  destruct (live_accessors (sg st) _ se Hc) as (-> & _ & _). cbn [mbind res_bind].
  destruct (_ =? 0); [|by eexists]. destruct Hc. rewrite u32_id by (unfold is_u32; lia). apply IH; lia.
Qed.

Lemma set_entry_same st segno se t : sg_sentries st !! Z.to_nat segno = Some se -> 0 <= segno ->
  exists st', set_seg_entry st segno (set_se_type se t) = Ok st' /\ same_but_types st st'.
Proof.
  intros Hse H0. unfold set_seg_entry. rewrite wr_total by (apply lookup_lt_Some in Hse; lia).
  cbn [mbind res_bind]. eexists. split; [done|]. exists (<[Z.to_nat segno := set_se_type se t]> (sg_sentries st)).
  split; [done|]. apply Forall2_same_length_lookup. split; [by rewrite length_insert|].
  intros i x y Hx Hy. destruct (decide (i = Z.to_nat segno)) as [->|Hne].
  - rewrite list_lookup_insert_eq in Hy by (by apply lookup_lt_Some in Hse). rewrite Hse in Hx. exists t. congruence.
  - rewrite list_lookup_insert_ne in Hy by done. rewrite Hx in Hy. injection Hy as ->. apply same_maps_refl.
Qed.

Lemma section_type_total n : forall st segno t, seg_inv st need -> 0 <= segno ->
  segno + Z.of_nat n <= Z.of_nat (length (sg_sentries st)) ->
  exists st', set_section_type_loop n st segno t = Ok st' /\ same_but_types st st'.
Proof.
  induction n as [|n IH]; intros st segno t Hi H0 Hn; cbn [set_section_type_loop].
  { exists st. split; [done|apply same_but_types_refl]. }
  destruct (seg_entry_at st segno Hi) as (se & -> & _ & Hse); [lia|]. cbn [mbind res_bind].
  destruct (set_entry_same st segno se (u8 t) Hse H0) as (st1 & -> & Hs1). cbn [mbind res_bind].
  pose proof (same_but_types_inv _ _ _ Hs1 Hi) as Hi1. pose proof (si_cfg _ _ Hi) as [].
  destruct Hs1 as (ses & -> & Hf). pose proof (Forall2_length _ _ _ Hf) as Hlen.
  rewrite u32_id by (unfold is_u32; lia).
  destruct (IH (with_sentries st ses) (segno + 1) t Hi1) as (st' & Hr & Hs); [lia|cbn; lia|].
  exists st'. split; [done|]. eapply same_but_types_trans; [|exact Hs]. by exists ses.
Qed.

Definition seg_index (g : seg_cfg) (blk : Z) : Z := (blk - g_main_blkaddr g) / 512.
Definition seg_off (g : seg_cfg) (blk : Z) : Z := (blk - g_main_blkaddr g) mod 512.

(** A block of the main area that no map uses, outside of the current segments
    (which a read-only volume does not keep apart). *)
Definition allocatable (st : seg_state) (blk : Z) : Prop :=
  g_main_blkaddr (sg st) <= blk < g_main_blkaddr (sg st) + 512 * g_main_segments (sg st) /\
  (RO (sg st) = true \/ IS_CUR_SEGNO st (seg_index (sg st) blk) = false) /\
  exists se, sg_sentries st !! Z.to_nat (seg_index (sg st) blk) = Some se /\
    bit_be (live_map need se) (seg_off (sg st) blk) = false.

Lemma set_section_type_total st segno t : seg_inv st need -> 0 <= segno ->
  segno + g_segs_per_sec (sg st) <= Z.of_nat (length (sg_sentries st)) ->
  exists st', set_section_type st segno t = Ok st' /\ same_but_types st st'.
Proof.
  intros Hi H0 Hn. unfold set_section_type. destruct (_ =? 1); [exists st; split; [done|apply same_but_types_refl]|].
  destruct (co_sec _ _ _ (si_cfg _ _ Hi)) as [? _]. apply section_type_total; [done..|lia].
Qed.

Lemma section_inside st segno : seg_inv st need ->
  0 <= segno < Z.of_nat (length (sg_sentries st)) -> segno mod g_segs_per_sec (sg st) = 0 ->
  segno + g_segs_per_sec (sg st) <= Z.of_nat (length (sg_sentries st)).
Proof.
  intros Hi Hs Hm. destruct (co_sec _ _ _ (si_cfg _ _ Hi)) as [Hp [q Hq]].
  apply Z.mod_divide in Hm as [r Hr]; [|lia]. rewrite Hq in Hs |- *. rewrite Hr in Hs |- *.
  assert (r < q) by nia. nia.
Qed.

(** The test for a section without used blocks. *)
Lemma fresh_section_total st segno v : seg_inv st need -> 0 <= segno < Z.of_nat (length (sg_sentries st)) ->
  exists fresh, (if v =? 0 then _ ← defined_ (negb (g_segs_per_sec (sg st) =? 0));
     if segno mod g_segs_per_sec (sg st) =? 0
     then section_unused (Z.to_nat (g_segs_per_sec (sg st) - 1)) st (segno + 1) else Ok false
     else Ok false) = Ok fresh /\ (fresh = true -> v = 0 /\ segno mod g_segs_per_sec (sg st) = 0).
Proof.
  intros Hi Hs. destruct (Z.eqb_spec v 0) as [H0|]; [|by exists false].
  destruct (co_sec _ _ _ (si_cfg _ _ Hi)) as [Hsp _]. replace (g_segs_per_sec (sg st) =? 0) with false by lia.
  cbn [negb defined_ mbind res_bind].
  destruct (Z.eqb_spec (segno mod g_segs_per_sec (sg st)) 0) as [Hm|]; [|by exists false].
  pose proof (section_inside st _ Hi Hs Hm).
  destruct (section_unused_total (Z.to_nat (g_segs_per_sec (sg st) - 1)) st (segno + 1) Hi) as [r Hr]; [lia..|].
  exists r. by split.
Qed.

Lemma find_step_spec st to want new_sec ne :
  seg_inv st need -> g_main_blkaddr (sg st) <= to < g_main_blkaddr (sg st) + 512 * g_main_segments (sg st) ->
  (exists st', find_next_free_step st to 0 want new_sec ne = Ok (inl st') /\ same_but_types st st' /\
     allocatable st to) \/
  (exists to', find_next_free_step st to 0 want new_sec ne = Ok (inr to') /\
     to < to' <= g_main_blkaddr (sg st) + 512 * g_main_segments (sg st)).
Proof.
  intros Hi Hto. pose proof (si_cfg _ _ Hi) as Hc. pose proof (co_segs _ _ _ Hc) as Hn.
  rewrite Hn in Hto |- *. destruct (segno_of (sg st) _ to Hc Hto) as [Hsn Hoff].
  unfold find_next_free_step. cbv zeta. rewrite Hsn. cbn [mbind res_bind]. rewrite Hoff. cbn [mbind res_bind].
  fold (seg_index (sg st) to) (seg_off (sg st) to).
  assert (0 <= seg_index (sg st) to < Z.of_nat (length (sg_sentries st)) /\ 0 <= seg_off (sg st) to < 512
    /\ to = g_main_blkaddr (sg st) + 512 * seg_index (sg st) to + seg_off (sg st) to) as (Hs & Ho & Hto')
    by (clear - Hto; unfold seg_index, seg_off; Z.to_euclidean_division_equations; lia).
  destruct (seg_entry_at st (seg_index (sg st) to) Hi Hs) as (se & -> & Hse & Hlk). cbn [mbind res_bind].
  destruct (live_accessors (sg st) _ se Hc) as (-> & -> & ->). cbn [mbind res_bind].
  destruct (live_ok need se Hse) as (Hml & Hmb & Hmc). change (0 =? 0) with true. cbn [negb].
  assert (blocks_per_seg (sg st) = 512) as -> by (unfold blocks_per_seg; by rewrite (co_log _ _ _ Hc)).
  pose proof (co_end _ _ _ Hc) as Hend. destruct (co_main _ _ _ Hc) as [Hmain _].
  rewrite u32_id by (unfold is_u32; lia). rewrite (start_block_eq (sg st) _ _ Hc) by lia.
  assert (to < g_main_blkaddr (sg st) + 512 * (seg_index (sg st) to + 1)
    <= g_main_blkaddr (sg st) + 512 * Z.of_nat (length (sg_sentries st))) as Hnext by lia.
  destruct (live_count need se =? 512); [right; by eexists|].
  destruct (negb (RO (sg st)) && IS_CUR_SEGNO st (seg_index (sg st) to)) eqn:Hcur; [right; by eexists|].
  destruct ((live_count need se =? 0) && ne); [right; by eexists|].
  assert (bit_be (live_map need se) (seg_off (sg st) to) = false -> allocatable st to) as Hal.
  { intros Hb. split; [by rewrite Hn|]. split; [|by exists se]. apply andb_false_iff in Hcur as [Hr|Hr]; [left|by right].
    by apply negb_false_iff. }
  destruct (fresh_section_total st (seg_index (sg st) to) (live_count need se) Hi Hs) as (fresh & Hfr & Hfresh).
  rewrite Hfr. cbn [mbind res_bind]. destruct fresh.
  - destruct (Hfresh eq_refl) as [H0 Hm]. left.
    destruct (set_section_type_total st (seg_index (sg st) to) want Hi) as (st' & -> & Hsame);
      [lia|by apply section_inside|]. exists st'. split; [done|]. split; [done|]. apply Hal.
    apply popcount_zero_clear; [done|by rewrite <- Hmc|unfold nbits; lia].
  - destruct ((live_type need se =? want) && negb new_sec).
    + destruct (test_bit_be (live_map need se) (seg_off (sg st) to) Hmb) as (v & -> & Hv); [unfold nbits; lia|].
      cbn [mbind res_bind]. rewrite Hv. destruct (bit_be _ _) eqn:Hb; cbn [negb].
      * right. eexists. split; [done|lia].
      * left. exists st. split; [done|]. split; [apply same_but_types_refl|by apply Hal].
    + right. eexists. split; [done|lia].
Qed.

Lemma free_search_spec fuel st to want new_sec ne :
  let end_ := g_main_blkaddr (sg st) + 512 * g_main_segments (sg st) in
  seg_inv st need -> g_main_blkaddr (sg st) <= to <= end_ -> end_ - to < Z.of_nat fuel ->
  exists r to' st', find_next_free_loop fuel st to 0 want new_sec ne end_ = Ok (r, to', st') /\
    same_but_types st st' /\ (r = -1 \/ r = 0 /\ allocatable st to').
Proof.
  intros end_ Hi. revert to. induction fuel as [|fuel IH]; intros to Hto Hf; [lia|]. cbn [find_next_free_loop].
  replace (g_main_blkaddr (sg st) <=? to) with true by lia. cbn [andb].
  destruct (Z.ltb_spec to end_).
  - destruct (find_step_spec st to want new_sec ne Hi) as [(st' & -> & Hs & Ha)|(to' & -> & Hr)]; [lia| |];
      cbn [mbind res_bind].
    + exists 0, to, st'. split; [done|]. split; [done|]. right. by split.
    + apply IH; lia.
  - exists (-1), to, st. split; [done|]. split; [apply same_but_types_refl|by left].
Qed.

Lemma find_next_free_block_total st want new_sec :
  seg_inv st need ->
  exists r to' st', find_next_free_block st (g_main_blkaddr (sg st)) 0 want new_sec = Ok (r, to', st') /\
    same_but_types st st' /\ (r = -1 \/ r = 0 /\ allocatable st to').
Proof.
  intros Hi. pose proof (si_cfg _ _ Hi) as Hc. pose proof Hc as [C1 C2 C3 C4 C5 [C6 C6'] C7 C8].
  unfold find_next_free_block. cbv zeta. rewrite C2, C5, C6'. change (defined_ _) with (@Ok unit tt). cbn [mbind res_bind].
  rewrite Z.shiftl_mul_pow2 by lia. change (2 ^ 9) with 512.
  rewrite (u32_id (_ * 512)) by (unfold is_u32; lia). rewrite (u32_id (_ * 512 + _)) by (unfold is_u32; lia).
  unfold get_free_segments, TOTAL_SEGS. destruct (free_segments_total (Z.to_nat (g_main_segments (sg st))) st 0 0 Hi)
    as [f ->]; [lia|lia|]. cbn [mbind res_bind]. replace (0 <? g_main_blkaddr (sg st)) with true by lia.
  replace (Z.of_nat (length (sg_sentries st)) * 512 + g_main_blkaddr (sg st))
    with (g_main_blkaddr (sg st) + 512 * g_main_segments (sg st)) by lia.
  rewrite Z.sub_0_r. apply free_search_spec; [done|lia|lia].
Qed.
End Search.

(** * Reserving *)

(** States that agree on the maps, the counts of the entries and the current
    segments. *)
Definition se_same (a b : seg_entry) : Prop :=
  se_valid_blocks b = se_valid_blocks a /\ se_ckpt_valid_blocks b = se_ckpt_valid_blocks a /\
  se_cur_map b = se_cur_map a /\ se_ckpt_map b = se_ckpt_map a.

Record st_same (st st' : seg_state) : Prop := {
  ss_cfg : sg st' = sg st;
  ss_entries : Forall2 se_same (sg_sentries st) (sg_sentries st');
  ss_cursegs : cs_segno <$> sg_cursegs st' = cs_segno <$> sg_cursegs st;
}.

Definition block_used (st : seg_state) (blk : Z) : bool :=
  match sg_sentries st !! Z.to_nat (seg_index (sg st) blk) with
  | Some se => bit_be (se_cur_map se) (seg_off (sg st) blk)
  | None => false
  end.

Lemma Forall2_refl_on {A} (R : A -> A -> Prop) l : (forall x, R x x) -> Forall2 R l l.
Proof. intros H. induction l; constructor; auto. Qed.

Lemma st_same_refl st : st_same st st.
Proof. constructor; [done| |done]. by apply Forall2_refl_on. Qed.

Lemma st_same_trans a b c : st_same a b -> st_same b c -> st_same a c.
Proof.
  intros [A1 A2 A3] [B1 B2 B3]. constructor; [congruence| |congruence].
  apply Forall2_same_length_lookup. split; [by rewrite (Forall2_length _ _ _ A2), (Forall2_length _ _ _ B2)|].
  intros i x z Hx Hz. destruct (Forall2_lookup_l _ _ _ _ _ A2 Hx) as (y & Hy & ? & ? & ? & ?).
  destruct (Forall2_lookup_l _ _ _ _ _ B2 Hy) as (z' & Hz' & ? & ? & ? & ?). rewrite Hz in Hz'. injection Hz' as ->.
  repeat split; congruence.
Qed.

Lemma types_same st st' : same_but_types st st' -> st_same st st'.
Proof.
  intros (ses & -> & Hf). constructor; [done| |done]. eapply Forall2_impl; [exact Hf|]. by intros a b [t ->].
Qed.

Lemma st_same_inv st st' need : st_same st st' -> seg_inv st need -> seg_inv st' need.
Proof.
  intros [Hg Hf Hc] [H1 H2 H3]. constructor.
  - rewrite Hg. by rewrite <- (Forall2_length _ _ _ Hf).
  - eapply Forall2_Forall_r; [exact Hf|]. eapply Forall_impl; [exact H2|].
    intros a [A1 A2 A3 A4 A5] b (E1 & E2 & E3 & E4). constructor; rewrite ?E1, ?E2, ?E3, ?E4; done.
  - apply (f_equal length) in Hc. rewrite !length_fmap in Hc. congruence.
Qed.

Lemma st_same_used st st' blk : st_same st st' -> block_used st' blk = block_used st blk.
Proof.
  intros [Hg Hf _]. unfold block_used. rewrite Hg.
  destruct (sg_sentries st !! _) as [a|] eqn:Ha.
  - destruct (Forall2_lookup_l _ _ _ _ _ Hf Ha) as (b & -> & _ & _ & -> & _). done.
  - destruct (sg_sentries st' !! _) as [b|] eqn:Hb; [|done].
    destruct (Forall2_lookup_r _ _ _ _ _ Hf Hb) as (a & Ha' & _). congruence.
Qed.

(** Replacing one entry by one with the same maps. *)
Lemma set_entry_st_same st segno se se' :
  get_seg_entry st segno = Ok se -> se_same se se' ->
  exists st', set_seg_entry st segno se' = Ok st' /\ st_same st st' /\
    st' = with_sentries st (<[Z.to_nat segno := se']> (sg_sentries st)).
Proof.
  intros Hse Hs. apply rd_Ok in Hse as [H0 Hse]. unfold set_seg_entry.
  rewrite wr_total by (apply lookup_lt_Some in Hse; lia). eexists. split; [done|]. split; [|done].
  constructor; [done| |done]. cbn [sg_sentries with_sentries]. rewrite <- (list_insert_id _ _ _ Hse) at 1.
  apply Forall2_insert; [|done]. by apply Forall2_refl_on.
Qed.

Lemma mark_block_spec need g n se type off :
  cfg_ok g need n -> se_ok need se -> 0 <= off < 512 -> bit_be (live_map need se) off = false ->
  exists se', mark_block g se type off = Ok se' /\ se_ok need se' /\
    forall i, 0 <= i -> bit_be (se_cur_map se') i = (i =? off) || bit_be (se_cur_map se) i.
Proof.
  intros Hc Hse Ho Hfree. pose proof (live_clear_cur need se off Hse Ho Hfree) as Hcur.
  pose proof Hse as [[L1 B1] N1 K1 K2 Hsub].
  destruct (set_clear_bit _ _ B1 L1 Ho Hcur) as (v & cur & Hs & Bc & Lc & Pc & Hbit).
  pose proof (popcount_bounds _ B1) as Hp. unfold nbits in Hp.
  unfold mark_block. rewrite Hs. cbn [mbind res_bind]. rewrite (co_need _ _ _ Hc). cbn [mbind res_bind].
  destruct need.
  - destruct (K1 eq_refl) as [L2 B2]. cbn [live_map] in Hfree. pose proof (popcount_bounds _ B2) as Hp2. unfold nbits in Hp2.
    destruct (set_clear_bit _ _ B2 L2 Ho Hfree) as (v2 & ck & Hs2 & Bk & Lk & Pk & Hbit2).
    rewrite Hs2. cbn [mbind res_bind]. eexists. split; [done|]. split; [|done].
    constructor; cbn [se_valid_blocks se_ckpt_valid_blocks se_cur_map se_ckpt_map]; try done.
    + rewrite u16_id by (unfold is_u16; lia). lia.
    + intros _. rewrite u16_id by (unfold is_u16; specialize (K2 eq_refl); lia). specialize (K2 eq_refl). lia.
    + intros _ i Hi Hb. rewrite Hbit in Hb by lia. rewrite Hbit2 by lia.
      apply orb_true_iff in Hb as [->|Hb]; [done|]. rewrite (Hsub eq_refl i Hi Hb). apply orb_true_r.
  - eexists. split; [done|]. split; [|done].
    constructor; cbn [se_valid_blocks se_ckpt_valid_blocks se_cur_map se_ckpt_map]; try done.
    rewrite u16_id by (unfold is_u16; lia). lia.
Qed.

(** What the operations need besides the entries: the checkpoint block, a summary
    block per segment on disk and per current segment, and the maps of fsck. *)
Definition sum_block (b : list Z) : Prop := length b = 4096%nat /\ bytes b.
Record books_ok (st : seg_state) : Prop := {
  bo_cp : (4096 <= length (g_ckpt (sg st)))%nat;
  bo_cursegs : length (sg_cursegs st) = 6%nat /\ Forall (fun c => sum_block (cs_sum_blk c)) (sg_cursegs st);
  bo_ssa : 0 <= g_ssa_blkaddr (sg st) /\ g_ssa_blkaddr (sg st) + Z.of_nat (length (sg_sentries st)) <= 2 ^ 32;
  bo_disk : forall s, 0 <= s < Z.of_nat (length (sg_sentries st)) -> has_block (sg_disk st) (g_ssa_blkaddr (sg st) + s);
  bo_main : is_fsck (g_func (sg st)) = true -> bytes (sg_main_bitmap st) /\
    (64 * length (sg_sentries st) <= length (sg_main_bitmap st))%nat;
  bo_sit : is_fsck (g_func (sg st)) = true -> bytes (sg_sit_area st) /\
    (64 * length (sg_sentries st) <= length (sg_sit_area st))%nat;
}.

Lemma find_cp_segno_total n cp ofs i segno :
  (forall j, i <= j < i + Z.of_nat n -> 0 <= ofs j /\ ofs j + 4 <= Z.of_nat (length cp)) ->
  exists r, find_cp_segno n cp ofs i segno = Ok r /\ forall k, r = Some k -> i <= k < i + Z.of_nat n.
Proof.
  revert i. induction n as [|n IH]; intros i Hi; cbn [find_cp_segno]; [by exists None|].
  destruct (get_le_total 4 cp (ofs i)) as [v Hv]; [destruct (Hi i); lia..|].
  rewrite Hv. cbn [mbind res_bind]. destruct (segno =? v).
  - exists (Some i). split; [done|]. intros k [= <-]. lia.
  - destruct (IH (i + 1)) as (r & -> & Hr); [intros j Hj; apply Hi; lia|]. exists r. split; [done|].
    intros k Hk. specialize (Hr k Hk). lia.
Qed.

(** Where the summary block of a segment is kept. *)
Definition sum_home (st : seg_state) (segno : Z) (shared : option Z) (b : list Z) : Prop :=
  match shared with
  | Some i => 0 <= i /\ exists c, sg_cursegs st !! Z.to_nat i = Some c /\ cs_sum_blk c = b
  | None => sg_disk st !! (g_ssa_blkaddr (sg st) + segno) = Some b
  end.

Lemma ssa_addr st segno : books_ok st -> 0 <= segno < Z.of_nat (length (sg_sentries st)) ->
  GET_SUM_BLKADDR (sg st) segno = g_ssa_blkaddr (sg st) + segno.
Proof. intros [_ _ [H1 H2] _ _ _] Hs. unfold GET_SUM_BLKADDR. apply u32_id. unfold is_u32. lia. Qed.

Lemma rd_lookup {A} (l : list A) i x : 0 <= i -> l !! Z.to_nat i = Some x -> rd l i = Ok x.
Proof. intros. by apply rd_Ok. Qed.

Lemma sum_type_total b : sum_block b -> exists t, rd b ofs_sum_footer = Ok t.
Proof. intros [Hl _]. apply rd_total. unfold ofs_sum_footer. lia. Qed.

(** The summary block of a segment is found, and it is the same whenever the
    block at its place is replaced. *)
Lemma get_sum_block_spec st segno : books_ok st -> 0 <= segno < Z.of_nat (length (sg_sentries st)) ->
  exists shared b ty neg, get_sum_block st segno = Ok (b, shared, ty, neg) /\ sum_block b /\ sum_home st segno shared b /\
    forall st' b', sg st' = sg st -> sum_block b' -> sum_home st' segno shared b' ->
      exists ty' neg', get_sum_block st' segno = Ok (b', shared, ty', neg').
Proof.
  intros Hb Hs. pose proof Hb as [Hcp [Hl6 Hcs] _ Hd _ _].
  assert (forall i, 0 <= i < 6 -> exists c, rd (sg_cursegs st) i = Ok c /\ sum_block (cs_sum_blk c) /\
    sum_home st segno (Some i) (cs_sum_blk c)) as Hc.
  { intros i Hi. destruct (rd_total (sg_cursegs st) i) as [c Hc]; [lia|]. exists c. split; [done|].
    apply rd_Ok in Hc as [Hi0 Hc]. split; [by apply (Forall_lookup_1 _ _ _ _ Hcs Hc)|]. split; [lia|by exists c]. }
  unfold get_sum_block. cbv zeta.
  destruct (find_cp_segno_total 3 (g_ckpt (sg st)) ofs_cur_node_segno 0 segno) as (node & Hn & Hnode);
    [unfold ofs_cur_node_segno; lia|]. rewrite Hn. cbn [mbind res_bind].
  destruct node as [t|].
  { specialize (Hnode t eq_refl). destruct (Hc (CURSEG_HOT_NODE + t)) as (c & -> & Hsb & Hh);
      [unfold CURSEG_HOT_NODE; lia|]. cbn [mbind res_bind]. unfold IS_SUM_NODE_SEG.
    destruct (sum_type_total _ Hsb) as [ft ->]. cbn [mbind res_bind].
    do 4 eexists. split; [done|]. split; [done|]. split; [done|]. intros st' b' Hg Hb' [Hi0 (c' & Hc' & <-)].
    rewrite Hg, Hn. cbn [mbind res_bind]. rewrite (rd_lookup _ _ _ Hi0 Hc'). cbn [mbind res_bind].
    destruct (sum_type_total _ Hb') as [ft' ->]. cbn [mbind res_bind]. by do 2 eexists. }
  destruct (find_cp_segno_total 3 (g_ckpt (sg st)) ofs_cur_data_segno 0 segno) as (data & Hdt & Hdata);
    [unfold ofs_cur_data_segno; lia|]. rewrite Hdt. cbn [mbind res_bind].
  destruct data as [t|].
  { specialize (Hdata t eq_refl). destruct (Hc t) as (c & -> & Hsb & Hh); [lia|]. cbn [mbind res_bind].
    unfold IS_SUM_NODE_SEG. destruct (sum_type_total _ Hsb) as [ft ->]. cbn [mbind res_bind].
    do 4 eexists. split; [done|]. split; [done|]. split; [done|]. intros st' b' Hg Hb' [Hi0 (c' & Hc' & <-)].
    rewrite Hg, Hn. cbn [mbind res_bind]. rewrite Hdt. cbn [mbind res_bind].
    rewrite (rd_lookup _ _ _ Hi0 Hc'). cbn [mbind res_bind].
    destruct (sum_type_total _ Hb') as [ft' ->]. cbn [mbind res_bind]. by do 2 eexists. }
  destruct (Hd segno Hs) as (b & Hblk & Hbl & Hbb). unfold IS_SUM_NODE_SEG, IS_SUM_DATA_SEG.
  rewrite (ssa_addr st segno Hb Hs). unfold disk_read_or_die, disk_read. rewrite Hblk. cbn [mbind res_bind].
  destruct (sum_type_total b) as [ft ->]; [by split|]. cbn [mbind res_bind].
  do 4 eexists. split; [done|]. split; [by split|]. split; [done|]. intros st' b' Hg Hb' Hh.
  rewrite Hg, Hn. cbn [mbind res_bind]. rewrite Hdt. cbn [mbind res_bind].
  rewrite (ssa_addr st segno Hb Hs). cbn [sum_home] in Hh. rewrite Hg in Hh. rewrite Hh. cbn [mbind res_bind].
  destruct (sum_type_total _ Hb') as [ft' ->]. cbn [mbind res_bind]. by do 2 eexists.
Qed.

(** The block that [update_sum_entry] writes. *)
Definition summed_block (b : list Z) (off : Z) (sum : list Z) (t : Z) : list Z :=
  <[Z.to_nat ofs_sum_footer := t]> (splice b (SUMMARY_SIZE * off) sum).

Lemma summed_block_spec b off sum t :
  sum_block b -> 0 <= off < 512 -> length sum = 7%nat -> bytes sum -> is_u8 t ->
  (b' ← wr_list b (SUMMARY_SIZE * off) sum; wr b' ofs_sum_footer t) = Ok (summed_block b off sum t) /\
  sum_block (summed_block b off sum t) /\
  rd_bytes (summed_block b off sum t) (SUMMARY_SIZE * off) (Z.to_nat SUMMARY_SIZE) = Ok sum.
Proof.
  intros [Hl Hb] Ho Hs Hsb Ht. unfold summed_block, SUMMARY_SIZE, ofs_sum_footer.
  assert (length (splice b (7 * off) sum) = 4096%nat) as Hl' by (rewrite length_splice; lia).
  split; [|split].
  - rewrite wr_list_splice by lia. cbn [mbind res_bind]. by rewrite wr_total by lia.
  - split; [by rewrite length_insert|]. apply bytes_insert; [by apply bytes_splice|done].
  - rewrite (rd_bytes_ext (splice b (7 * off) sum)).
    + unfold splice. apply rd_bytes_app; [rewrite length_take; lia|]. rewrite Hs. done.
    + intros i Hi. change (Z.to_nat 7) with 7%nat in Hi. rewrite rd_insert by lia. by replace (i =? 4091) with false by lia.
Qed.

(** Storing a summary block back to its place and to the summary area. *)
Definition stored_cursegs (st : seg_state) (shared : option Z) (b : list Z) : list curseg_info :=
  match shared with
  | Some i => alter (fun c => set_sum_blk c b) (Z.to_nat i) (sg_cursegs st)
  | None => sg_cursegs st
  end.

Lemma store_sum_blk_eq st segno shared b b' : sum_home st segno shared b ->
  store_sum_blk st shared b' = Ok (with_cursegs st (stored_cursegs st shared b')).
Proof.
  intros Hh. destruct shared as [i|]; cbn [store_sum_blk stored_cursegs]; [|by destruct st].
  destruct Hh as [Hi (c & Hc & _)]. rewrite (rd_lookup _ _ _ Hi Hc). cbn [mbind res_bind].
  rewrite wr_total by (apply lookup_lt_Some in Hc; lia). cbn [mbind res_bind]. do 2 f_equal.
  apply list_eq. intros j. destruct (decide (j = Z.to_nat i)) as [->|Hne].
  - rewrite list_lookup_insert_eq by (by apply lookup_lt_Some in Hc). by rewrite list_lookup_alter_eq, Hc.
  - by rewrite list_lookup_insert_ne, list_lookup_alter_ne by done.
Qed.

Lemma stored_cursegs_segno st shared b : cs_segno <$> stored_cursegs st shared b = cs_segno <$> sg_cursegs st.
Proof.
  destruct shared as [i|]; [|done]. cbn [stored_cursegs]. apply list_eq. intros j. rewrite !list_lookup_fmap.
  destruct (decide (j = Z.to_nat i)) as [->|Hne].
  - rewrite list_lookup_alter_eq. by destruct (sg_cursegs st !! _).
  - by rewrite list_lookup_alter_ne by done.
Qed.

Lemma stored_cursegs_ok st shared b : sum_block b ->
  length (sg_cursegs st) = 6%nat /\ Forall (fun c => sum_block (cs_sum_blk c)) (sg_cursegs st) ->
  length (stored_cursegs st shared b) = 6%nat /\
  Forall (fun c => sum_block (cs_sum_blk c)) (stored_cursegs st shared b).
Proof.
  intros Hb [Hl Hf]. destruct shared as [i|]; [|done]. cbn [stored_cursegs].
  split; [by rewrite length_alter|]. apply Forall_alter; [done|]. by intros.
Qed.

(** The state after the summary of block [blk] has been set: nothing else moves. *)
Record summed (st st' : seg_state) : Prop := {
  sd_same : st_same st st';
  sd_entries : sg_sentries st' = sg_sentries st;
  sd_counts : sg_counts st' = sg_counts st;
  sd_books : books_ok st';
}.

Lemma update_sum_entry_spec need st blk sum :
  seg_inv st need -> books_ok st -> length sum = 7%nat -> bytes sum ->
  g_main_blkaddr (sg st) <= blk < g_main_blkaddr (sg st) + 512 * g_main_segments (sg st) ->
  exists st', update_sum_entry st blk sum = Ok st' /\ summed st st' /\
    (RO (sg st) = false -> exists ty neg, get_sum_entry st' blk = Ok (sum, ty, neg)).
Proof.
  intros Hi Hb Hsl Hsb Hblk. unfold update_sum_entry. cbv zeta. destruct (RO (sg st)) eqn:Hro.
  { exists st. split; [done|]. split; [|done]. by constructor; [apply st_same_refl|..]. }
  pose proof (si_cfg _ _ Hi) as Hc. rewrite (co_segs _ _ _ Hc) in Hblk.
  destruct (segno_of need (sg st) _ blk Hc Hblk) as [Hsn Hoff]. rewrite Hsn. cbn [mbind res_bind].
  rewrite Hoff. cbn [mbind res_bind]. fold (seg_index (sg st) blk) (seg_off (sg st) blk) in Hsn, Hoff |- *.
  assert (0 <= seg_index (sg st) blk < Z.of_nat (length (sg_sentries st)) /\ 0 <= seg_off (sg st) blk < 512)
    as [Hs Ho] by (clear - Hblk; unfold seg_index, seg_off; Z.to_euclidean_division_equations; lia).
  destruct (seg_entry_at need st _ Hi Hs) as (se & -> & _ & _). cbn [mbind res_bind].
  destruct (get_sum_block_spec st _ Hb Hs) as (shared & b & ty & neg & -> & Hbb & Hh & Hagain). cbn [mbind res_bind].
  set (t := if IS_NODESEG (se_type se) then SUM_TYPE_NODE else SUM_TYPE_DATA).
  destruct (summed_block_spec b (seg_off (sg st) blk) sum t Hbb Ho Hsl Hsb) as (Hw & Hsb' & Hrd);
    [unfold t, is_u8, SUM_TYPE_NODE, SUM_TYPE_DATA; destruct (IS_NODESEG _); lia|].
  set (b' := summed_block _ _ _ _) in *. apply res_bind_Ok in Hw as (b1 & -> & Hw). cbn [mbind res_bind].
  rewrite Hw. cbn [mbind res_bind]. rewrite (store_sum_blk_eq st _ shared b b' Hh). cbn [mbind res_bind].
  cbn [sg_disk with_cursegs]. rewrite (ssa_addr st _ Hb Hs). destruct (bo_disk _ Hb _ Hs) as (ob & Hob & _).
  rewrite disk_write_present by (by exists ob). cbn [mbind res_bind].
  eexists. split; [done|]. split.
  - constructor; [constructor; [done|by apply Forall2_refl_on|apply stored_cursegs_segno]|done|done|].
    destruct Hb as [B1 B2 B3 B4 B5 B6]. constructor; cbn; try done; [by apply stored_cursegs_ok|].
    intros s Hs'. destruct (decide (s = seg_index (sg st) blk)) as [->|Hne].
    + exists b'. by rewrite lookup_insert_eq.
    + destruct (B4 s Hs') as (x & Hx & Hx'). exists x. rewrite lookup_insert_ne by lia. done.
  - intros _. unfold get_sum_entry. cbn [sg with_seg_disk with_cursegs]. rewrite Hsn. cbn [mbind res_bind].
    rewrite Hoff. cbn [mbind res_bind].
    destruct (Hagain (with_seg_disk (with_cursegs st (stored_cursegs st shared b'))
      (<[g_ssa_blkaddr (sg st) + seg_index (sg st) blk := b']> (sg_disk st))) b') as (ty' & neg' & Hg); [done|done| |].
    + destruct shared as [i|]; cbn; [|by rewrite lookup_insert_eq]. destruct Hh as [Hi0 (c & Hcu & _)].
      split; [done|]. eexists. by rewrite list_lookup_alter_eq, Hcu.
    + unfold with_seg_disk, with_cursegs in Hg |- *. cbn in Hg |- *. setoid_rewrite Hg. cbn [mbind res_bind].
      setoid_rewrite Hrd. by do 2 eexists.
Qed.

Lemma books_with_entries st ses : books_ok st -> length ses = length (sg_sentries st) -> books_ok (with_sentries st ses).
Proof. intros [] Hl. constructor; cbn [sg sg_sentries sg_cursegs sg_disk sg_main_bitmap sg_sit_area with_sentries]; by rewrite ?Hl. Qed.

(** Marking a block in the maps of fsck. *)
Lemma fsck_maps_spec need st blk type :
  seg_inv st need -> books_ok st -> is_fsck (g_func (sg st)) = true ->
  g_main_blkaddr (sg st) <= blk < g_main_blkaddr (sg st) + 512 * g_main_segments (sg st) ->
  exists st', ('(_, st) ← f2fs_set_main_bitmap st blk type; '(_, st) ← f2fs_set_sit_bitmap st blk; Ok st) = Ok st' /\
    st_same st st' /\ sg_counts st' = sg_counts st /\ books_ok st'.
Proof.
  intros Hi Hb Hf Hblk. pose proof (si_cfg _ _ Hi) as Hc. rewrite (co_segs _ _ _ Hc) in Hblk.
  destruct (segno_of need (sg st) _ blk Hc Hblk) as [Hsn _]. unfold f2fs_set_main_bitmap. rewrite Hsn. cbn [mbind res_bind].
  assert (0 <= (blk - g_main_blkaddr (sg st)) / 512 < Z.of_nat (length (sg_sentries st)))
    as Hs by (clear - Hblk; Z.to_euclidean_division_equations; lia).
  destruct (seg_entry_at need st _ Hi Hs) as (se & Hse & _ & _). rewrite Hse. cbn [mbind res_bind].
  match goal with |- context [if ?x then set_seg_entry _ _ _ else _] => set (fix_ := x) end.
  assert (exists st1, (if fix_ then set_seg_entry st ((blk - g_main_blkaddr (sg st)) / 512) (set_se_type se (u8 type))
      else Ok st) = Ok st1 /\ st_same st st1 /\ exists ses, length ses = length (sg_sentries st) /\ st1 = with_sentries st ses)
    as (st1 & -> & Hs1 & ses & Hlen & ->).
  { destruct fix_.
    - destruct (set_entry_st_same st _ se (set_se_type se (u8 type)) Hse) as (st1 & -> & Hs1 & ->); [done|].
      eexists. split; [done|]. split; [done|]. eexists. split; [|done]. by rewrite length_insert.
    - exists st. split; [done|]. split; [apply st_same_refl|]. exists (sg_sentries st). split; [done|by destruct st]. }
  cbn [mbind res_bind sg with_sentries]. unfold f2fs_set_sit_bitmap, BLKOFF_FROM_MAIN.
  replace (g_main_blkaddr (sg st) <=? blk) with true by lia. cbn [assert_ mbind res_bind sg_main_bitmap].
  destruct (bo_main _ Hb Hf) as [Bm Lm]. destruct (bo_sit _ Hb Hf) as [Bs Ls].
  destruct (@bm_set_ok _ be_bitmap_laws (sg_main_bitmap st) (blk - g_main_blkaddr (sg st)) Bm)
    as (v1 & m1 & Hm1 & _ & Lm1 & Bm1 & _); [unfold nbits; lia|].
  setoid_rewrite Hm1. cbn [mbind res_bind sg with_area_maps with_sentries sg_sit_area].
  replace (g_main_blkaddr (sg st) <=? blk) with true by lia. cbn [assert_ mbind res_bind].
  destruct (@bm_set_ok _ be_bitmap_laws (sg_sit_area st) (blk - g_main_blkaddr (sg st)) Bs)
    as (v2 & m2 & Hm2 & _ & Lm2 & Bm2 & _); [unfold nbits; lia|].
  setoid_rewrite Hm2. cbn [mbind res_bind]. eexists. split; [done|]. split; [|split; [done|]].
  - destruct Hs1. by constructor.
  - apply (books_with_entries st ses) in Hb as []; [|done]. constructor; try done; intros _; cbn; split; [done|lia|done|lia].
Qed.

Lemma allocatable_same need st st' blk : same_but_types st st' -> allocatable need st blk -> allocatable need st' blk.
Proof.
  intros (ses & -> & Hf) (H1 & H2 & se & Hse & Hbit). split; [done|]. split; [done|].
  destruct (Forall2_lookup_l _ _ _ _ _ Hf Hse) as (se' & Hse' & t & ->). eexists. split; [exact Hse'|]. by destruct need.
Qed.

Lemma main_block g n blk :
  g_main_blkaddr g <= blk < g_main_blkaddr g + 512 * n -> 0 <= seg_index g blk < n /\ 0 <= seg_off g blk < 512 /\
  blk = g_main_blkaddr g + 512 * seg_index g blk + seg_off g blk.
Proof. intros Hb. unfold seg_index, seg_off. Z.to_euclidean_division_equations; lia. Qed.

(** Marking an allocatable block makes that block used and no other. *)
Lemma mark_step need st blk type : seg_inv st need -> allocatable need st blk ->
  let s := seg_index (sg st) blk in
  exists se se', get_seg_entry st s = Ok se /\ mark_block (sg st) se type (seg_off (sg st) blk) = Ok se' /\
    let st' := with_sentries st (<[Z.to_nat s := se']> (sg_sentries st)) in
    set_seg_entry st s se' = Ok st' /\ seg_inv st' need /\ block_used st blk = false /\
    forall b, g_main_blkaddr (sg st) <= b < g_main_blkaddr (sg st) + 512 * g_main_segments (sg st) ->
      block_used st' b = (b =? blk) || block_used st b.
Proof.
  intros Hi (Hblk & _ & se & Hse & Hfree). cbv zeta. pose proof (si_cfg _ _ Hi) as Hc.
  pose proof (main_block (sg st) _ blk Hblk) as (Hs & Ho & Heq).
  rewrite (co_segs _ _ _ Hc) in Hs. pose proof (Forall_lookup_1 _ _ _ _ (si_entries _ _ Hi) Hse) as Hok.
  destruct (mark_block_spec need (sg st) _ se type _ Hc Hok Ho Hfree) as (se' & Hm & Hok' & Hbits).
  exists se, se'. split; [apply rd_lookup; [lia|done]|]. split; [done|].
  split; [unfold set_seg_entry; by rewrite wr_total by lia|]. split; [|split].
  - destruct Hi as [I1 I2 I3]. constructor; cbn [sg sg_sentries sg_cursegs with_sentries];
      [by rewrite length_insert|by apply Forall_insert|done].
  - unfold block_used. rewrite Hse. by apply (live_clear_cur need).
  - intros b Hb. pose proof (main_block (sg st) _ b Hb) as (Hs' & Ho' & Heq').
    unfold block_used. cbn [sg sg_sentries with_sentries].
    destruct (decide (seg_index (sg st) b = seg_index (sg st) blk)) as [E|E].
    + rewrite E, list_lookup_insert_eq, Hse, Hbits by (try (apply lookup_lt_Some in Hse; lia); lia).
      f_equal. destruct (Z.eqb_spec b blk); destruct (Z.eqb_spec (seg_off (sg st) b) (seg_off (sg st) blk)); congruence || lia.
    + rewrite list_lookup_insert_ne by lia. destruct (Z.eqb_spec b blk); [congruence|done].
Qed.

(** The marked state [st] with the counts and the summary of block [blk] set. *)
Lemma reserve_tail need st blk sum type acct n :
  seg_inv st need -> books_ok st -> length sum = 7%nat -> bytes sum ->
  g_main_blkaddr (sg st) <= blk < g_main_blkaddr (sg st) + 512 * g_main_segments (sg st) ->
  let s := seg_index (sg st) blk in
  exists st', (st1 ← (if is_fsck (g_func (sg st)) then
                        '(_, st) ← f2fs_set_main_bitmap st blk type; '(_, st) ← f2fs_set_sit_bitmap st blk; Ok st
                      else Ok st);
               se ← get_seg_entry (if acct : bool then with_counts st1 (n (sg_counts st1)) else st1) s;
               st2 ← set_seg_entry (if acct : bool then with_counts st1 (n (sg_counts st1)) else st1) s (set_se_dirty se);
               st3 ← update_sum_entry st2 blk sum;
               Ok (0, blk, st3)) = Ok (0, blk, st') /\
    st_same st st' /\ books_ok st' /\ sg_counts st' = (if acct then n (sg_counts st) else sg_counts st) /\
    (RO (sg st) = false -> exists ty neg, get_sum_entry st' blk = Ok (sum, ty, neg)).
Proof.
  intros Hi Hb Hsl Hsb Hblk. cbv zeta. pose proof (main_block (sg st) _ blk Hblk) as (Hs & _ & _).
  assert (exists st1, (if is_fsck (g_func (sg st)) then
      '(_, st) ← f2fs_set_main_bitmap st blk type; '(_, st) ← f2fs_set_sit_bitmap st blk; Ok st else Ok st) = Ok st1 /\
      st_same st st1 /\ sg_counts st1 = sg_counts st /\ books_ok st1) as (st1 & -> & S1 & C1 & B1).
  { destruct (is_fsck _) eqn:Hf; [by apply (fsck_maps_spec need)|].
    exists st. split; [done|]. split; [apply st_same_refl|done]. }
  cbn [mbind res_bind]. set (st2 := if acct then _ else _).
  assert (st_same st st2 /\ books_ok st2 /\ sg_counts st2 = if acct then n (sg_counts st) else sg_counts st)
    as (S2 & B2 & C2).
  { unfold st2. destruct acct; [|done]. rewrite C1. destruct S1, B1. split; [by constructor|]. split; [by constructor|done]. }
  pose proof (st_same_inv _ _ _ S2 Hi) as Hi2. rewrite (co_segs _ _ _ (si_cfg _ _ Hi)) in Hs.
  rewrite (Forall2_length _ _ _ (ss_entries _ _ S2)) in Hs.
  destruct (seg_entry_at need st2 _ Hi2 Hs) as (se & Hse & _ & _). rewrite Hse. cbn [mbind res_bind].
  destruct (set_entry_st_same st2 _ se (set_se_dirty se) Hse) as (st3 & -> & S3 & E3); [done|]. cbn [mbind res_bind].
  pose proof (st_same_inv _ _ _ S3 Hi2) as Hi3.
  assert (books_ok st3) as B3 by (rewrite E3; apply books_with_entries; [done|by rewrite length_insert]).
  assert (sg st3 = sg st) as G3 by (rewrite (ss_cfg _ _ S3); apply (ss_cfg _ _ S2)).
  destruct (update_sum_entry_spec need st3 blk sum Hi3 B3 Hsl Hsb) as (st4 & -> & [S4 E4 C4 B4] & Hsum); [by rewrite G3|].
  cbn [mbind res_bind]. exists st4. split; [done|].
  split; [eapply st_same_trans; [|exact S4]; by eapply st_same_trans|]. split; [done|]. rewrite G3 in Hsum.
  split; [|done]. rewrite C4, <- C2, E3. done.
Qed.

(** The three outcomes of a reservation. *)
Lemma reserve_outcomes (st : seg_state) (need : bool) (to : Z) (sum : list Z) (type : Z) (is_inode : bool) :
  seg_inv st need -> books_ok st -> length sum = 7%nat -> bytes sum ->
  (reserve_new_block st to sum type is_inode = Ok (- ENOSPC, to, st) /\
     to = NULL_ADDR /\ no_space st (IS_NODESEG type) = true) \/
  (reserve_new_block st to sum type is_inode = Die /\
     exists t st', find_next_free_block st (g_main_blkaddr (sg st)) 0 type false = Ok (-1, t, st')) \/
  (exists blk st', reserve_new_block st to sum type is_inode = Ok (0, blk, st') /\
     allocatable need st blk /\ block_used st blk = false /\
     seg_inv st' need /\ books_ok st' /\
     (forall b, g_main_blkaddr (sg st) <= b < g_main_blkaddr (sg st) + 512 * g_main_segments (sg st) ->
        block_used st' b = (b =? blk) || block_used st b) /\
     sg_counts st' = (if to =? NULL_ADDR then count_block (sg st) (sg_counts st) (IS_NODESEG type) is_inode
                      else sg_counts st) /\
     (RO (sg st) = false -> exists ty neg, get_sum_entry st' blk = Ok (sum, ty, neg))).
Proof.
  intros Hi Hb Hsl Hsb. unfold reserve_new_block. cbv zeta.
  destruct ((to =? NULL_ADDR) && no_space st (IS_NODESEG type)) eqn:Hn.
  { left. apply andb_true_iff in Hn as [Hto Hn]. apply Z.eqb_eq in Hto. done. }
  destruct (find_next_free_block_total need st type false Hi) as (r & blk & st1 & Hf & Hsame & Hr). rewrite Hf.
  cbn [mbind res_bind]. right. destruct Hr as [->|[-> Hal]]; [left; split; [done|by do 2 eexists]|right].
  change (assert_ (0 =? 0)) with (@Ok unit tt). cbn [mbind res_bind].
  pose proof (same_but_types_inv _ _ _ Hsame Hi) as Hi1. pose proof (types_same _ _ Hsame) as S1.
  pose proof (allocatable_same _ _ _ _ Hsame Hal) as Hal1.
  destruct Hsame as (ses & -> & Hf2). pose proof (Forall2_length _ _ _ Hf2) as Hlen.
  pose proof (si_cfg _ _ Hi) as Hc. pose proof Hal as [Hblk _]. rewrite (co_segs _ _ _ Hc) in Hblk.
  destruct (segno_of need (sg st) _ blk Hc Hblk) as [Hsn Hoff]. rewrite Hsn. cbn [mbind res_bind].
  rewrite Hoff. cbn [mbind res_bind]. fold (seg_index (sg st) blk) (seg_off (sg st) blk).
  destruct (mark_step need _ blk type Hi1 Hal1) as (se & se' & Hse & Hm & Hset & Hi2 & Hun & Hused).
  cbn [sg with_sentries] in Hse, Hm, Hset, Hused. rewrite Hse. cbn [mbind res_bind]. rewrite Hm. cbn [mbind res_bind].
  rewrite Hset. cbn [mbind res_bind].
  rewrite u32_id by (destruct Hc as [_ _ _ _ _ [? _] ? _]; unfold is_u32; lia).
  set (st2 := with_sentries (with_sentries st ses) _) in *.
  assert (books_ok st2) as B2 
    by (apply books_with_entries; [by apply books_with_entries|by rewrite length_insert]).
  destruct (reserve_tail need st2 blk sum type (to =? NULL_ADDR)
    (fun n => count_block (sg st) n (IS_NODESEG type) is_inode) Hi2 B2 Hsl Hsb) as (st' & Ht & S' & B' & C' & Hsum);
    [exact (proj1 Hal)|].
  exists blk, st'. split; [exact Ht|]. split; [done|].
  split; [by rewrite <- (st_same_used _ _ _ S1)|]. split; [by apply (st_same_inv st2)|]. split; [done|].
  split; [|split; [exact C'|exact Hsum]]. intros b Hbb.
  rewrite (st_same_used _ _ b S'), Hused by exact Hbb. by rewrite <- (st_same_used _ _ b S1).
Qed.

(** C2: Reserving a block never hands out one that is in use. On a consistent
    volume [reserve_new_block] either refuses for lack of space without changing
    anything, or stops because the search found no block, or returns a block of the
    main area that was not used and not in a current segment. In the last case
    exactly that block becomes used, block counts and validity maps still agree,
    the totals are raised only when the caller had no block before, and the
    summary read back for the block is the one given. *)
Theorem reserve_new_block_safe (st : seg_state) (need : bool) (to : Z) (sum : list Z) (type : Z) (is_inode : bool) :
  seg_inv st need -> books_ok st -> length sum = 7%nat -> bytes sum ->
  (reserve_new_block st to sum type is_inode = Ok (- ENOSPC, to, st) /\
     to = NULL_ADDR /\ no_space st (IS_NODESEG type) = true) \/
  (reserve_new_block st to sum type is_inode = Die /\
     exists t st', find_next_free_block st (g_main_blkaddr (sg st)) 0 type false = Ok (-1, t, st')) \/
  (exists blk st', reserve_new_block st to sum type is_inode = Ok (0, blk, st') /\
     allocatable need st blk /\ block_used st blk = false /\
     seg_inv st' need /\ books_ok st' /\
     (forall b, g_main_blkaddr (sg st) <= b < g_main_blkaddr (sg st) + 512 * g_main_segments (sg st) ->
        block_used st' b = (b =? blk) || block_used st b) /\
     sg_counts st' = (if to =? NULL_ADDR then count_block (sg st) (sg_counts st) (IS_NODESEG type) is_inode
                      else sg_counts st) /\
     (RO (sg st) = false -> exists ty neg, get_sum_entry st' blk = Ok (sum, ty, neg))).
Proof. apply reserve_outcomes. Qed.

(** A volume whose segments 0 to 5 are current, with eight used blocks at the start
    of segment 6 and an uncleanly unmounted checkpoint. *)
Definition sample_map (i : nat) : list Z := if (i =? 6)%nat then 255 :: replicate 63 0 else replicate 64 0.
Definition sample_entry (i : nat) : seg_entry :=
  let n := if (i =? 6)%nat then 8 else 0 in {|
  se_valid_blocks := n; se_ckpt_valid_blocks := n; se_cur_map := sample_map i; se_ckpt_map := sample_map i;
  se_type := 0; se_orig_type := 0; se_ckpt_type := 0; se_mtime := 0; se_dirty := (i =? 6)%nat |}.
Definition sample_seg_state : seg_state := {|
  sg := {| g_func := FSCK; g_zoned_hm := false; g_super := sample_sb 0 1 31 2; g_ckpt := zero_block; g_log := 9;
           g_segs_per_sec := 1; g_main_blkaddr := 4096; g_ssa_blkaddr := 3584; g_main_segments := 24;
           g_segment_count := 31; g_reserved_segments := 8; g_user_block_count := 8000; g_total_node_count := 1000;
           g_sit_base_addr := 1536; g_sit_blocks := 512; g_sit_bitmap := replicate 64 0 |};
  sg_sentries := sample_entry <$> seq 0 24;
  sg_cursegs := (fun i => {| cs_sum_blk := zero_block; cs_alloc_type := 0; cs_segno := Z.of_nat i;
                             cs_next_blkoff := 0 |}) <$> seq 0 6;
  sg_counts := {| n_valid_block := 8; n_valid_node := 0; n_valid_inode := 0; n_chk_blk := 8; n_chk_node := 0;
                  n_chk_inode := 0 |};
  sg_main_bitmap := replicate 1536 0; sg_sit_area := replicate 1536 0; sg_disk := zero_disk 1536 2072 |}.

Lemma sample_entry_ok i : se_ok true (sample_entry i).
Proof.
  unfold sample_entry, sample_map. destruct (i =? 6)%nat; constructor;
    cbn [se_valid_blocks se_ckpt_valid_blocks se_cur_map se_ckpt_map]; try intros _;
    try (split; [done|]); try (apply bytes_forallb); try (vm_compute; reflexivity); by intros.
Qed.

Lemma sample_seg_inv : seg_inv sample_seg_state true.
Proof.
  constructor; [constructor| |reflexivity].
  all: try (vm_compute; reflexivity).
  - split; [cbn; lia|vm_compute; reflexivity].
  - split; [cbn; lia|apply Z.divide_1_l].
  - cbn [sample_seg_state sg_sentries]. apply Forall_fmap, Forall_true, sample_entry_ok.
Qed.

Lemma sample_books_ok : books_ok sample_seg_state.
Proof.
  assert (bytes zero_block) as Hz by (apply bytes_forallb; vm_compute; reflexivity).
  assert (bytes (replicate 1536 0)) as Hm by (apply bytes_forallb; vm_compute; reflexivity).
  constructor; cbn [sample_seg_state sg g_ckpt g_func g_ssa_blkaddr sg_cursegs sg_sentries sg_main_bitmap sg_sit_area sg_disk].
  - unfold zero_block. rewrite length_replicate. lia.
  - split; [done|]. apply Forall_fmap, Forall_true. intros i. by split.
  - rewrite length_fmap, length_seq. lia.
  - intros s Hs. rewrite length_fmap, length_seq in Hs. apply zero_disk_block. lia.
  - intros _. split; [done|]. rewrite length_fmap, length_seq, length_replicate. lia.
  - intros _. split; [done|]. rewrite length_fmap, length_seq, length_replicate. lia.
Qed.

Definition reserved_at (r : res (Z * Z * seg_state)) : option (Z * Z) :=
  match r with Ok (ret, blk, _) => Some (ret, blk) | _ => None end.

Lemma reserve_new_block_safe_witness : exists st',
  reserve_new_block sample_seg_state 0 (set_summary 7 3 0) CURSEG_HOT_DATA false = Ok (0, 7176, st') /\
  block_used st' 7176 = true /\ seg_inv st' true.
Proof.
  assert (reserved_at (reserve_new_block sample_seg_state 0 (set_summary 7 3 0) CURSEG_HOT_DATA false) = Some (0, 7176)) as Hr
    by (vm_compute; reflexivity).
  assert (length (set_summary 7 3 0) = 7%nat) as Hl by reflexivity.
  assert (bytes (set_summary 7 3 0)) as Hb by (apply bytes_forallb; vm_compute; reflexivity).
  destruct (reserve_new_block_safe sample_seg_state true 0 (set_summary 7 3 0) CURSEG_HOT_DATA false
    sample_seg_inv sample_books_ok Hl Hb) as [(H & _)|[(H & _)|(blk & st' & H & _ & _ & Hi & _ & Hu & _)]];
    rewrite H in Hr; cbn [reserved_at] in Hr; [discriminate Hr..|].
  injection Hr as ->. exists st'. split; [exact H|]. split; [|exact Hi].
  specialize (Hu 7176). rewrite Z.eqb_refl in Hu. apply Hu.
  cbn [sample_seg_state sg g_main_blkaddr g_main_segments]. lia.
Defined.
