(* ===== verification/Sit.v ===== *)
(** The segment information table (fsck/mount.c, fsck/f2fs.h, include/f2fs_fs.h):
    raw entries in their blocks and in the journal, the check of an entry, building
    the cached entries, and the three ways of writing them back.

    The state is that of the segments with the two flags of the configuration that
    the operations raise. The blocks of the table exist twice; [g_sit_bitmap] says
    which copy of a block is current. *)
From Stdlib Require Import ZArith Lia List Bool.
From stdpp Require Import base numbers list gmap.
From S2P Require Import Prelude Codec Bits Crc Superblock Mkfs Checkpoint Nat Segment.

(** * Raw entries *)

Definition SIT_VBLOCK_MAP_SIZE : Z := 64.
Definition SIZE_OF_SIT_ENTRY : Z := 74.
Definition SIT_VBLOCKS_SHIFT : Z := 10.
Definition SIT_VBLOCKS_MASK : Z := Z.shiftl 1 SIT_VBLOCKS_SHIFT - 1.
Definition ofs_vblocks : Z := 0.
Definition ofs_valid_map : Z := 2.
Definition ofs_mtime : Z := 66.

Definition GET_SIT_VBLOCKS (raw_sit : list Z) : res Z :=
  v ← get_le16 raw_sit ofs_vblocks; Ok (Z.land v SIT_VBLOCKS_MASK).
Definition GET_SIT_TYPE (raw_sit : list Z) : res Z :=
  v ← get_le16 raw_sit ofs_vblocks; Ok (Z.shiftr (Z.land v (Z.lnot SIT_VBLOCKS_MASK)) SIT_VBLOCKS_SHIFT).
Definition sit_valid_map (raw_sit : list Z) : res (list Z) :=
  rd_bytes raw_sit ofs_valid_map (Z.to_nat SIT_VBLOCK_MAP_SIZE).

Definition SIT_ENTRY_OFFSET (segno : Z) : Z := segno mod SIT_ENTRY_PER_BLOCK.
Definition SIT_BLOCK_OFFSET (segno : Z) : Z := segno / SIT_ENTRY_PER_BLOCK.
Definition SIT_BLK_CNT (g : seg_cfg) : Z :=
  u64 (g_main_segments g + SIT_ENTRY_PER_BLOCK - 1) / SIT_ENTRY_PER_BLOCK.

(** The journal of the summary of the cold data segment. *)
Definition SIZE_OF_SIT_JOURNAL_ENTRY : Z := 78.
Definition SIT_JOURNAL_ENTRIES : Z := (SUM_JOURNAL_SIZE - 2) / SIZE_OF_SIT_JOURNAL_ENTRY.
Definition sits_in_cursum (sum : list Z) : res Z := get_le16 sum ofs_journal.
Definition ofs_segno_in_journal (i : Z) : Z := ofs_journal + 2 + SIZE_OF_SIT_JOURNAL_ENTRY * i.
Definition segno_in_journal (sum : list Z) (i : Z) : res Z := get_le32 sum (ofs_segno_in_journal i).
Definition sit_in_journal (sum : list Z) (i : Z) : res (list Z) :=
  rd_bytes sum (ofs_segno_in_journal i + 4) (Z.to_nat SIZE_OF_SIT_ENTRY).

(** * Blocks of the table *)

Definition check_seg_range (g : seg_cfg) (segno : Z) : res unit :=
  assert_ (segno <=? u32 (g_segment_count g - 1)).

Definition current_sit_addr (g : seg_cfg) (segno : Z) : res Z :=
  let offset := SIT_BLOCK_OFFSET segno in
  let blk_addr := u32 (g_sit_base_addr g + offset) in
  _ ← check_seg_range g segno;
  b ← f2fs_test_bit offset (g_sit_bitmap g);
  Ok (if b =? 0 then blk_addr else u32 (blk_addr + g_sit_blocks g)).

Definition get_current_sit_page (st : seg_state) (segno : Z) : res (list Z) :=
  blk_addr ← current_sit_addr (sg st) segno; disk_read_or_die (sg_disk st) blk_addr.
Definition rewrite_current_sit_page (st : seg_state) (segno : Z) (sit_blk : list Z) : res seg_state :=
  blk_addr ← current_sit_addr (sg st) segno;
  d ← disk_write_or_die (sg_disk st) blk_addr sit_blk;
  Ok (with_seg_disk st d).

(** [&sit_blk->entries[SIT_ENTRY_OFFSET(sit_i, segno)]] *)
Definition ofs_sit_entry (segno : Z) : Z := SIZE_OF_SIT_ENTRY * SIT_ENTRY_OFFSET segno.
Definition sit_block_entry (sit_blk : list Z) (segno : Z) : res (list Z) :=
  rd_bytes sit_blk (ofs_sit_entry segno) (Z.to_nat SIZE_OF_SIT_ENTRY).

(** * Reading *)

(** Summing [get_bits_in_byte] over a validity map. *)
Fixpoint sum_bits (l : list Z) (acc : Z) : res Z :=
  match l with
  | [] => Ok acc
  | b :: l => n ← get_bits_in_byte b; sum_bits l (acc + n)
  end.

(** Whether the entry is sound; [c.bug_on] is set when it is not. *)
Definition check_block_count (g : seg_cfg) (segno : Z) (raw_sit : list Z) : res bool :=
  let end_segno := u32 (g_segment_count g - 1) in
  vblocks ← GET_SIT_VBLOCKS raw_sit;
  type ← GET_SIT_TYPE raw_sit;
  map ← sit_valid_map raw_sit;
  valid_blocks ← sum_bits map 0;
  Ok ((vblocks <=? blocks_per_seg g) && (segno <=? end_segno) && (vblocks =? valid_blocks) &&
      (type <? NO_CHECK_TYPE)).

Definition __seg_info_from_raw_sit (se : seg_entry) (raw_sit : list Z) : res seg_entry :=
  vblocks ← GET_SIT_VBLOCKS raw_sit;
  map ← sit_valid_map raw_sit;
  type ← GET_SIT_TYPE raw_sit;
  mtime ← get_le64 raw_sit ofs_mtime;
  Ok {| se_valid_blocks := u16 vblocks; se_ckpt_valid_blocks := se_ckpt_valid_blocks se; se_cur_map := map;
        se_ckpt_map := se_ckpt_map se; se_type := u8 type; se_orig_type := u8 type; se_ckpt_type := se_ckpt_type se;
        se_mtime := mtime; se_dirty := se_dirty se |}.

Definition seg_info_from_raw_sit (g : seg_cfg) (se : seg_entry) (raw_sit : list Z) : res seg_entry :=
  se ← __seg_info_from_raw_sit se raw_sit;
  rec_ ← need_fsync_data_record g;
  if rec_ : bool then
    Ok {| se_valid_blocks := se_valid_blocks se; se_ckpt_valid_blocks := se_valid_blocks se;
          se_cur_map := se_cur_map se; se_ckpt_map := se_cur_map se; se_type := se_type se;
          se_orig_type := se_orig_type se; se_ckpt_type := se_type se; se_mtime := se_mtime se;
          se_dirty := se_dirty se |}
  else Ok se.

(** The entry of [segno] is checked and cached; [bug] is [c.bug_on]. *)
Definition load_sit_entry (st : seg_state) (bug : bool) (segno : Z) (sit : list Z) : res (seg_state * bool) :=
  se ← get_seg_entry st segno;
  ok ← check_block_count (sg st) segno sit;
  se ← seg_info_from_raw_sit (sg st) se sit;
  st ← set_seg_entry st segno se;
  Ok (st, bug || negb ok).

Definition f2fs_is_valid_sit_blkaddr (g : seg_cfg) (blkaddr : Z) : bool := blkaddr <? SIT_BLK_CNT g.

(** The number of blocks read ahead; reading ahead only checks the addresses. *)
Fixpoint ra_sit_pages (nrpages : nat) (g : seg_cfg) (blkno : Z) : res Z :=
  match nrpages with
  | O => Ok blkno
  | S n =>
      if f2fs_is_valid_sit_blkaddr g blkno then
        _ ← current_sit_addr g (u32 (blkno * SIT_ENTRY_PER_BLOCK)); ra_sit_pages n g (u32 (blkno + 1))
      else Ok blkno
  end.
Definition MAX_RA_BLOCKS : Z := 64.
Definition f2fs_ra_sit_pages (g : seg_cfg) (start nrpages : Z) : res Z :=
  e ← ra_sit_pages (Z.to_nat nrpages) g start; Ok (u32 (e - start)).

(** [for (; segno < end && segno < TOTAL_SEGS(sbi); segno++)] *)
Fixpoint build_sit_blocks (n : nat) (st : seg_state) (bug : bool) (segno : Z) : res (seg_state * bool) :=
  match n with
  | O => Ok (st, bug)
  | S n =>
      sit_blk ← get_current_sit_page st segno;
      sit ← sit_block_entry sit_blk segno;
      '(st, bug) ← load_sit_entry st bug segno sit;
      build_sit_blocks n st bug (u32 (segno + 1))
  end.

Fixpoint build_sit_batches (fuel : nat) (st : seg_state) (bug : bool) (start_blk : Z) : res (seg_state * bool) :=
  match fuel with
  | O => NoFuel
  | S fuel =>
      readed ← f2fs_ra_sit_pages (sg st) start_blk MAX_RA_BLOCKS;
      let segno := u32 (start_blk * SIT_ENTRY_PER_BLOCK) in
      let end_ := u32 (u32 (start_blk + readed) * SIT_ENTRY_PER_BLOCK) in
      '(st, bug) ← build_sit_blocks (Z.to_nat (Z.min end_ (TOTAL_SEGS (sg st)) - segno)) st bug segno;
      let start_blk := u32 (start_blk + readed) in
      if start_blk <? SIT_BLK_CNT (sg st) then build_sit_batches fuel st bug start_blk else Ok (st, bug)
  end.

(** The loop over the journal reads the number of entries again in every turn, and
    an invalid segment number cuts the journal there. The flags are [c.bug_on]
    and [c.fix_on]. *)
Fixpoint build_sit_journal (n : nat) (st : seg_state) (bug fix_on : bool) (i : Z) : res (seg_state * bool * bool) :=
  match n with
  | O => NoFuel
  | S n =>
      curseg ← rd (sg_cursegs st) CURSEG_COLD_DATA;
      count ← sits_in_cursum (cs_sum_blk curseg);
      if i <? count then
        segno ← segno_in_journal (cs_sum_blk curseg) i;
        if TOTAL_SEGS (sg st) <=? segno then
          sum ← set_le16 (cs_sum_blk curseg) ofs_journal (u16 i);
          st ← store_sum_blk st (Some CURSEG_COLD_DATA) sum;
          build_sit_journal n st bug true (i + 1)
        else
          sit ← sit_in_journal (cs_sum_blk curseg) i;
          '(st, bug) ← load_sit_entry st bug segno sit;
          build_sit_journal n st bug fix_on (i + 1)
      else Ok (st, bug, fix_on)
  end.

Definition build_sit_entries (st : seg_state) (bug fix_on : bool) : res (seg_state * bool * bool) :=
  '(st, bug) ← build_sit_batches (S (Z.to_nat (SIT_BLK_CNT (sg st)))) st bug 0;
  curseg ← rd (sg_cursegs st) CURSEG_COLD_DATA;
  count ← sits_in_cursum (cs_sum_blk curseg);
  '(st, fix_on) ← (if SIT_JOURNAL_ENTRIES <? count then
                     sum ← set_le16 (cs_sum_blk curseg) ofs_journal SIT_JOURNAL_ENTRIES;
                     st ← store_sum_blk st (Some CURSEG_COLD_DATA) sum;
                     Ok (st, true)
                   else Ok (st, fix_on));
  build_sit_journal (S (Z.to_nat SIT_JOURNAL_ENTRIES)) st bug fix_on 0.

(** [build_sit_area_bitmap]: the bitmap, [chk.sit_valid_blocks] and
    [chk.sit_free_segs]. A segment without valid blocks is free unless the
    checkpoint names it as a current one. *)
Definition cp_names_segno (cp : list Z) (segno : Z) : res bool :=
  node ← find_cp_segno 3 cp ofs_cur_node_segno 0 segno;
  data ← find_cp_segno 3 cp ofs_cur_data_segno 0 segno;
  Ok (match node, data with None, None => false | _, _ => true end).

Fixpoint sit_area_loop (n : nat) (st : seg_state) (segno : Z) (area : list Z) (sum_vblocks free_segs : Z)
    : res (list Z * Z * Z) :=
  match n with
  | O => Ok (area, sum_vblocks, free_segs)
  | S n =>
      se ← get_seg_entry st segno;
      area ← wr_list area (SIT_VBLOCK_MAP_SIZE * segno) (se_cur_map se);
      if (se_valid_blocks se =? 0) && is_usable_seg (sg st) segno then
        cur ← cp_names_segno (g_ckpt (sg st)) segno;
        sit_area_loop n st (segno + 1) area sum_vblocks (if cur : bool then free_segs else u32 (free_segs + 1))
      else sit_area_loop n st (segno + 1) area (u32 (sum_vblocks + se_valid_blocks se)) free_segs
  end.

Definition build_sit_area_bitmap (st : seg_state) (main_area_bitmap_sz : Z) : res (seg_state * Z * Z) :=
  let sz := u32 (g_main_segments (sg st) * SIT_VBLOCK_MAP_SIZE) in
  _ ← assert_ (sz =? main_area_bitmap_sz);
  '(area, sum_vblocks, free_segs) ←
    sit_area_loop (Z.to_nat (TOTAL_SEGS (sg st))) st 0 (replicate (Z.to_nat sz) 0) 0 0;
  Ok (with_area_maps st (sg_main_bitmap st) area, sum_vblocks, free_segs).

(** * Writing *)

(** Storing a map and [vblocks] through a pointer to the entry at [e]. *)
Definition store_sit (sit_blk : list Z) (e : Z) (map : list Z) (type valid_blocks : Z) : res (list Z) :=
  sit_blk ← wr_list sit_blk (e + ofs_valid_map) map;
  set_le16 sit_blk (e + ofs_vblocks) (u16 (Z.lor (Z.shiftl type SIT_VBLOCKS_SHIFT) valid_blocks)).

(** The segment cache with the map and the count of [main_area_bitmap]. *)
Definition set_se_map (se : seg_entry) (map : list Z) (n : Z) : seg_entry := {|
  se_valid_blocks := n; se_ckpt_valid_blocks := se_ckpt_valid_blocks se;
  se_cur_map := map; se_ckpt_map := se_ckpt_map se; se_type := se_type se;
  se_orig_type := se_orig_type se; se_ckpt_type := se_ckpt_type se; se_mtime := se_mtime se;
  se_dirty := se_dirty se |}.

Fixpoint rewrite_sit_loop (n : nat) (st : seg_state) (bug : bool) (segno : Z) : res (seg_state * bool) :=
  match n with
  | O => Ok (st, bug)
  | S n =>
      sit_blk ← get_current_sit_page st segno;
      map ← rd_bytes (sg_main_bitmap st) (SIT_VBLOCK_MAP_SIZE * segno) (Z.to_nat SIT_VBLOCK_MAP_SIZE);
      valid_blocks ← sum_bits map 0;
      se ← get_seg_entry st segno;
      st ← set_seg_entry st segno (set_se_map se map (u16 valid_blocks));
      let bad := NO_CHECK_TYPE <=? se_type se in
      sit_blk ← store_sit sit_blk (ofs_sit_entry segno) map (if bad then 0 else se_type se) (u16 valid_blocks);
      st ← rewrite_current_sit_page st segno sit_blk;
      rewrite_sit_loop n st (bug || bad) (segno + 1)
  end.

Definition rewrite_sit_area_bitmap (st : seg_state) (bug : bool) : res (seg_state * bool) :=
  curseg ← rd (sg_cursegs st) CURSEG_COLD_DATA;
  sum ← set_le16 (cs_sum_blk curseg) ofs_journal 0;
  st ← store_sum_blk st (Some CURSEG_COLD_DATA) sum;
  rewrite_sit_loop (Z.to_nat (TOTAL_SEGS (sg st))) st bug 0.

Fixpoint flush_sit_journal_loop (n : nat) (st : seg_state) (i : Z) : res (seg_state * Z) :=
  match n with
  | O => NoFuel
  | S n =>
      curseg ← rd (sg_cursegs st) CURSEG_COLD_DATA;
      count ← sits_in_cursum (cs_sum_blk curseg);
      if i <? count then
        segno ← segno_in_journal (cs_sum_blk curseg) i;
        se ← get_seg_entry st segno;
        sit_blk ← get_current_sit_page st segno;
        sit_blk ← store_sit sit_blk (ofs_sit_entry segno) (se_cur_map se) (se_type se) (se_valid_blocks se);
        sit_blk ← set_le 8 sit_blk (ofs_sit_entry segno + ofs_mtime) (se_mtime se);
        st ← rewrite_current_sit_page st segno sit_blk;
        flush_sit_journal_loop n st (i + 1)
      else Ok (st, i)
  end.

(** The number of flushed entries and the state; a journal holds less than 2^16
    entries. *)
Definition flush_sit_journal_entries (st : seg_state) : res (Z * seg_state) :=
  '(st, i) ← flush_sit_journal_loop (Z.to_nat (2 ^ 16)) st 0;
  curseg ← rd (sg_cursegs st) CURSEG_COLD_DATA;
  sum ← set_le16 (cs_sum_blk curseg) ofs_journal 0;
  st ← store_sum_blk st (Some CURSEG_COLD_DATA) sum;
  Ok (i, st).

Fixpoint flush_sit_loop (n : nat) (st : seg_state) (segno : Z) : res seg_state :=
  match n with
  | O => Ok st
  | S n =>
      se ← get_seg_entry st segno;
      if se_dirty se then
        sit_blk ← get_current_sit_page st segno;
        sit_blk ← store_sit sit_blk (ofs_sit_entry segno) (se_cur_map se) (se_type se) (se_valid_blocks se);
        st ← rewrite_current_sit_page st segno sit_blk;
        flush_sit_loop n st (segno + 1)
      else flush_sit_loop n st (segno + 1)
  end.
Definition flush_sit_entries (st : seg_state) : res seg_state :=
  flush_sit_loop (Z.to_nat (TOTAL_SEGS (sg st))) st 0.

(** * Entries, decoded *)

(** The three parts of a raw entry that the cache takes over. *)
Record raw_holds (raw map : list Z) (n t : Z) : Prop := {
  rh_count : GET_SIT_VBLOCKS raw = Ok n;
  rh_map : sit_valid_map raw = Ok map;
  rh_type : GET_SIT_TYPE raw = Ok t;
}.

(** What [check_block_count] accepts. *)
Definition raw_sound (raw : list Z) : Prop :=
  exists map t, raw_holds raw map (popcount map) t /\ popcount map <= 512 /\ t < NO_CHECK_TYPE.

Definition raw_entry (raw : list Z) : Prop := length raw = 74%nat /\ bytes raw.

Lemma vblocks_split v : 0 <= v < 2 ^ 16 ->
  Z.land v SIT_VBLOCKS_MASK = v mod 1024 /\
  Z.shiftr (Z.land v (Z.lnot SIT_VBLOCKS_MASK)) SIT_VBLOCKS_SHIFT = v / 1024.
Proof.
  intros Hv. unfold SIT_VBLOCKS_MASK, SIT_VBLOCKS_SHIFT. split.
  - change (Z.shiftl 1 10 - 1) with (2 ^ 10 - 1). by rewrite land_ones_mod by lia.
  - rewrite Z.shiftr_land. change (Z.shiftr (Z.lnot (Z.shiftl 1 10 - 1)) 10) with (-1).
    rewrite Z.land_m1_r, Z.shiftr_div_pow2 by lia. done.
Qed.

Lemma vblocks_join t n : 0 <= t < 64 -> 0 <= n < 1024 ->
  u16 (Z.lor (Z.shiftl t SIT_VBLOCKS_SHIFT) n) = 1024 * t + n.
Proof.
  intros Ht Hn. unfold SIT_VBLOCKS_SHIFT. rewrite lor_shiftl_add by lia. rewrite Z.shiftl_mul_pow2 by lia.
  rewrite u16_id by (unfold is_u16; lia). lia.
Qed.

Lemma rd_bytes_bytes l ofs n r : bytes l -> rd_bytes l ofs n = Ok r -> bytes r /\ length r = n.
Proof.
  intros Hb. revert ofs r. induction n as [|n IH]; intros ofs r; cbn [rd_bytes].
  - intros [= <-]. split; [constructor|done].
  - intros (b & Hrd & H)%res_bind_Ok. apply res_bind_Ok in H as (bs & Hbs & [= <-]).
    apply IH in Hbs as [? <-]. split; [constructor; [exact (bytes_rd _ _ _ Hb Hrd)|done]|done].
Qed.

Lemma raw_total raw : raw_entry raw -> exists map n t, raw_holds raw map n t /\
  length map = 64%nat /\ bytes map /\ 0 <= n < 1024 /\ 0 <= t < 64.
Proof.
  intros [Hl Hb]. destruct (get_le_total 2 raw 0) as [v Hv]; [lia..|].
  pose proof (get_le_range 2 raw 0 v Hb Hv) as Hr.
  change (2 ^ (8 * Z.of_nat 2)) with (2 ^ 16) in Hr. destruct (vblocks_split v Hr) as [H1 H2].
  assert (sit_valid_map raw = Ok (take 64 (drop 2 raw))) as Hm by (apply (rd_bytes_Ok raw 2 64); lia).
  destruct (rd_bytes_bytes _ _ _ _ Hb Hm) as [Hmb Hml].
  exists (take 64 (drop 2 raw)), (v mod 1024), (v / 1024). split; [|split; [done|split; [done|]]].
  - constructor; [|done|]; unfold GET_SIT_VBLOCKS, GET_SIT_TYPE, ofs_vblocks; rewrite Hv; cbn [mbind res_bind];
      by rewrite ?H1, ?H2.
  - Z.to_euclidean_division_equations. lia.
Qed.

Lemma sum_bits_popcount l acc : bytes l -> sum_bits l acc = Ok (acc + popcount l).
Proof.
  intros Hb. revert acc. induction Hb as [|c l Hc Hl IH]; intros acc; cbn [sum_bits]; [by rewrite Z.add_0_r|].
  rewrite popcount_cons. unfold get_bits_in_byte. destruct (rd_total bits_in_byte c) as [v Hv].
  { unfold is_u8 in Hc. change (length bits_in_byte) with 256%nat. lia. }
  rewrite Hv. cbn [mbind res_bind]. apply rd_Ok in Hv as [_ ->]. rewrite IH.
  cbn [default from_option id]. f_equal. apply (eq_sym (Z.add_assoc acc v (popcount l))).
Qed.

Definition raw_okb (map : list Z) (n t : Z) : bool := (n <=? 512) && (n =? popcount map) && (t <? NO_CHECK_TYPE).

Lemma check_block_count_eq g segno raw map n t :
  g_log g = 9 -> 0 <= segno < g_segment_count g -> g_segment_count g <= 2 ^ 32 ->
  raw_holds raw map n t -> bytes map -> check_block_count g segno raw = Ok (raw_okb map n t).
Proof.
  intros Hlog Hs Hc [H1 H2 H3] Hb. unfold check_block_count. rewrite H1. cbn [mbind res_bind]. rewrite H3.
  cbn [mbind res_bind]. rewrite H2. cbn [mbind res_bind]. rewrite (sum_bits_popcount _ _ Hb). cbn [mbind res_bind].
  unfold raw_okb, blocks_per_seg. rewrite Hlog, u32_id by (unfold is_u32; lia).
  replace (segno <=? g_segment_count g - 1) with true by lia. by rewrite andb_true_r.
Qed.

Lemma raw_okb_sound raw map n t : raw_holds raw map n t -> (raw_okb map n t = true <-> raw_sound raw).
Proof.
  intros H. unfold raw_okb. rewrite !andb_true_iff, Z.leb_le, Z.eqb_eq, Z.ltb_lt. split.
  - intros [[H1 ->] H3]. by exists map, t.
  - intros (map' & t' & [E1 E2 E3] & H4 & H5). destruct H as [D1 D2 D3]. rewrite D2 in E2. apply Ok_inj in E2 as ->.
    rewrite D1 in E1. apply Ok_inj in E1 as ->. rewrite D3 in E3. apply Ok_inj in E3 as ->. done.
Qed.

(** A cached entry made from [raw]. *)
Record is_loaded (need : bool) (raw : list Z) (se : seg_entry) : Prop := {
  il_raw : raw_holds raw (se_cur_map se) (se_valid_blocks se) (se_type se);
  il_map : length (se_cur_map se) = 64%nat /\ bytes (se_cur_map se);
  il_ckpt : need = true -> se_ckpt_map se = se_cur_map se /\ se_ckpt_valid_blocks se = se_valid_blocks se /\
    se_ckpt_type se = se_type se;
}.

Lemma loaded_ok need raw se : is_loaded need raw se -> raw_sound raw -> se_ok need se.
Proof.
  intros [[H1 H2 H3] Hm Hck] (map & t & [E1 E2 E3] & _ & _).
  rewrite H2 in E2. apply Ok_inj in E2 as <-. rewrite H1 in E1. apply Ok_inj in E1 as Hn.
  constructor; [done|done| | |]; intros Hneed; destruct (Hck Hneed) as (Em & En & _).
  - by rewrite Em.
  - by rewrite Em, En.
  - intros i _. by rewrite Em.
Qed.

(** * The table on disk *)

Record sit_ok (st : seg_state) (need : bool) : Prop := {
  to_log : g_log (sg st) = 9;
  to_need : need_fsync_data_record (sg st) = Ok need;
  to_segs : g_main_segments (sg st) = Z.of_nat (length (sg_sentries st));
  to_count : Z.of_nat (length (sg_sentries st)) <= g_segment_count (sg st) < 2 ^ 31;
  to_blocks : 0 <= g_sit_base_addr (sg st) /\ 0 < Z.of_nat (length (sg_sentries st)) <= 55 * g_sit_blocks (sg st) /\
    g_sit_base_addr (sg st) + 2 * g_sit_blocks (sg st) <= 2 ^ 32;
  to_bitmap : bytes (g_sit_bitmap (sg st)) /\ g_sit_blocks (sg st) <= nbits (g_sit_bitmap (sg st));
  to_disk : forall a, g_sit_base_addr (sg st) <= a < g_sit_base_addr (sg st) + 2 * g_sit_blocks (sg st) ->
    has_block (sg_disk st) a;
  to_cursegs : length (sg_cursegs st) = 6%nat /\ Forall (fun c => sum_block (cs_sum_blk c)) (sg_cursegs st);
}.

Definition valid_segno (st : seg_state) (segno : Z) : Prop := 0 <= segno < Z.of_nat (length (sg_sentries st)).

(** The block that holds the entry of [segno], and the entry. *)
Definition sit_addr (g : seg_cfg) (segno : Z) : Z :=
  g_sit_base_addr g + segno / 55 + (if bit_be (g_sit_bitmap g) (segno / 55) then g_sit_blocks g else 0).
Definition disk_sit (st : seg_state) (segno : Z) : res (list Z) :=
  b ← disk_read_or_die (sg_disk st) (sit_addr (sg st) segno); sit_block_entry b segno.

Section Table.
Context (st : seg_state) (need : bool) (Hok : sit_ok st need).

Lemma sit_addr_range segno : valid_segno st segno ->
  g_sit_base_addr (sg st) <= sit_addr (sg st) segno < g_sit_base_addr (sg st) + 2 * g_sit_blocks (sg st).
Proof.
  intros Hs. unfold valid_segno in Hs. destruct (to_blocks _ _ Hok) as (Hb & Hn & _). unfold sit_addr.
  destruct (bit_be _ _); Z.to_euclidean_division_equations; lia.
Qed.

Lemma current_sit_addr_eq segno : valid_segno st segno ->
  current_sit_addr (sg st) segno = Ok (sit_addr (sg st) segno).
Proof.
  intros Hs. pose proof (sit_addr_range segno Hs) as Hr. unfold valid_segno in Hs.
  destruct Hok as [_ _ _ Hc (Hb & Hn & He) [Hbm Hnb] _ _].
  unfold current_sit_addr, check_seg_range, SIT_BLOCK_OFFSET. change SIT_ENTRY_PER_BLOCK with 55. cbv zeta.
  rewrite (u32_id (g_segment_count _ - 1)) by (unfold is_u32; lia).
  replace (segno <=? g_segment_count (sg st) - 1) with true by lia. cbn [assert_ mbind res_bind].
  assert (0 <= segno / 55 < g_sit_blocks (sg st)) as Ho by (clear - Hs Hn; Z.to_euclidean_division_equations; lia).
  destruct (test_bit_be (g_sit_bitmap (sg st)) (segno / 55) Hbm) as (v & -> & Hv); [lia|].
  cbn [mbind res_bind]. rewrite Hv. rewrite (u32_id (g_sit_base_addr _ + _)) by (unfold is_u32; lia).
  unfold sit_addr. destruct (bit_be _ _); cbn [negb]; f_equal; [|lia]. apply u32_id. unfold is_u32. lia.
Qed.

Lemma sit_addr_inj s1 s2 : valid_segno st s1 -> valid_segno st s2 ->
  sit_addr (sg st) s1 = sit_addr (sg st) s2 -> s1 / 55 = s2 / 55.
Proof.
  unfold valid_segno, sit_addr. intros H1 H2. destruct (to_blocks _ _ Hok) as (_ & Hn & _).
  destruct (Z.eq_dec (s1 / 55) (s2 / 55)) as [E|Hne]; [by rewrite E|].
  destruct (bit_be _ (s1 / 55)), (bit_be _ (s2 / 55)); Z.to_euclidean_division_equations; lia.
Qed.

Lemma get_page_eq segno : valid_segno st segno -> exists b,
  get_current_sit_page st segno = Ok b /\ sg_disk st !! sit_addr (sg st) segno = Some b /\ sum_block b.
Proof.
  intros Hs. destruct (to_disk _ _ Hok _ (sit_addr_range segno Hs)) as (b & Hb & Hl). exists b.
  unfold get_current_sit_page, disk_read_or_die, disk_read. rewrite (current_sit_addr_eq segno Hs).
  cbn [mbind res_bind]. by rewrite Hb.
Qed.

Lemma page_entry b segno : sum_block b -> 0 <= segno -> exists raw, sit_block_entry b segno = Ok raw /\ raw_entry raw.
Proof.
  intros [Hl Hb] Hs. unfold sit_block_entry, ofs_sit_entry, SIT_ENTRY_OFFSET, SIZE_OF_SIT_ENTRY.
  change SIT_ENTRY_PER_BLOCK with 55. assert (0 <= segno mod 55 < 55) by (apply Z.mod_pos_bound; lia).
  eexists. assert (rd_bytes b (74 * (segno mod 55)) 74 = Ok (take 74 (drop (Z.to_nat (74 * (segno mod 55))) b))) as Hr
    by (apply rd_bytes_Ok; lia). split; [exact Hr|]. by destruct (rd_bytes_bytes _ _ _ _ Hb Hr).
Qed.

Lemma disk_sit_eq segno : valid_segno st segno -> exists raw,
  disk_sit st segno = Ok raw /\ (b ← get_current_sit_page st segno; sit_block_entry b segno) = Ok raw /\ raw_entry raw.
Proof.
  intros Hs. destruct (get_page_eq segno Hs) as (b & Hg & Hb & Hsb). destruct (page_entry b segno Hsb) as (raw & Hr & He).
  { unfold valid_segno in Hs. lia. }
  exists raw. rewrite Hg. unfold disk_sit, disk_read_or_die, disk_read. rewrite Hb. done.
Qed.

(** Loading an entry caches it and reports whether it is sound. *)
Lemma load_sit_entry_spec bug segno raw : valid_segno st segno -> raw_entry raw ->
  exists se' bug', load_sit_entry st bug segno raw
      = Ok (with_sentries st (<[Z.to_nat segno := se']> (sg_sentries st)), bug') /\
    is_loaded need raw se' /\ (bug' = false <-> bug = false /\ raw_sound raw).
Proof.
  intros Hs Hr. destruct (raw_total raw Hr) as (map & n & t & Hh & Hml & Hmb & Hn & Ht). unfold valid_segno in Hs.
  destruct (rd_total (sg_sentries st) segno Hs) as [se Hse]. unfold load_sit_entry, get_seg_entry. rewrite Hse.
  cbn [mbind res_bind]. destruct (to_count _ _ Hok).
  rewrite (check_block_count_eq (sg st) segno raw map n t (to_log _ _ Hok)) by (try done; lia). cbn [mbind res_bind].
  unfold seg_info_from_raw_sit, __seg_info_from_raw_sit. pose proof Hh as [H1 H2 H3]. rewrite H1. cbn [mbind res_bind].
  rewrite H2. cbn [mbind res_bind]. rewrite H3. cbn [mbind res_bind].
  destruct (get_le_total 8 raw ofs_mtime) as [m Hm]; [unfold ofs_mtime; destruct Hr; lia..|]. rewrite Hm.
  cbn [mbind res_bind]. rewrite (to_need _ _ Hok). cbn [mbind res_bind].
  rewrite (u16_id n) by (unfold is_u16; lia). rewrite (u8_id t) by (unfold is_u8; lia).
  assert (bug || negb (raw_okb map n t) = false <-> bug = false /\ raw_sound raw) as Hbug
    by (rewrite orb_false_iff, negb_false_iff, <- (raw_okb_sound raw map n t Hh); done).
  unfold set_seg_entry. destruct need; cbn [mbind res_bind]; rewrite wr_total by done; cbn [mbind res_bind];
    do 2 eexists; (split; [reflexivity|]); (split; [by constructor|exact Hbug]).
Qed.
End Table.

Lemma sit_ok_with_sentries st need ses : sit_ok st need -> length ses = length (sg_sentries st) ->
  sit_ok (with_sentries st ses) need.
Proof. intros [] Hl. constructor; cbn [sg sg_sentries sg_cursegs sg_disk with_sentries]; by rewrite ?Hl. Qed.

(** * Building the cache *)

(** The entries of [lo <= i < hi] are loaded from the table and the others kept;
    the flag tells whether all of them are sound. *)
Record loaded_from (need : bool) (st : seg_state) (lo hi : Z) (bug : bool) (ses : list seg_entry) (bug' : bool) : Prop := {
  lf_length : length ses = length (sg_sentries st);
  lf_in : forall i, lo <= i < hi -> exists raw se, disk_sit st i = Ok raw /\ raw_entry raw /\
    ses !! Z.to_nat i = Some se /\ is_loaded need raw se /\ (bug' = false -> raw_sound raw);
  lf_out : forall i, 0 <= i -> i < lo \/ hi <= i -> ses !! Z.to_nat i = sg_sentries st !! Z.to_nat i;
  lf_bug : bug' = false -> bug = false;
  lf_sound : bug = false -> (forall i raw, lo <= i < hi -> disk_sit st i = Ok raw -> raw_sound raw) -> bug' = false;
}.

Lemma loaded_none need st lo bug : loaded_from need st lo lo bug (sg_sentries st) bug.
Proof. constructor; try done. intros i Hi. lia. Qed.

Lemma loaded_trans need st lo mid hi b0 b1 b2 ses1 ses2 :
  0 <= lo <= mid -> mid <= hi -> loaded_from need st lo mid b0 ses1 b1 ->
  loaded_from need (with_sentries st ses1) mid hi b1 ses2 b2 -> loaded_from need st lo hi b0 ses2 b2.
Proof.
  intros Hlo Hhi [A1 A2 A3 A4 A5] [B1 B2 B3 B4 B5]. cbn [sg_sentries with_sentries] in B1, B3. constructor.
  - congruence.
  - intros i Hi. destruct (Z.lt_ge_cases i mid) as [Hm|Hm]; [|apply (B2 i); lia].
    destruct (A2 i) as (raw & se & H1 & H2 & H3 & H4 & H5); [lia|]. exists raw, se. rewrite B3 by lia.
    split; [done|]. split; [done|]. split; [done|]. split; [done|]. intros E. by apply H5, B4.
  - intros i H0 Hi. rewrite B3 by lia. apply A3; lia.
  - intros E. by apply A4, B4.
  - intros Hb Hs. apply B5; [apply A5; [done|]|]; intros i raw Hi Hr; apply (Hs i raw); [lia|done|lia|done].
Qed.

Lemma loaded_one need st bug segno raw se' bug' :
  valid_segno st segno -> disk_sit st segno = Ok raw -> raw_entry raw -> is_loaded need raw se' ->
  (bug' = false <-> bug = false /\ raw_sound raw) ->
  loaded_from need st segno (segno + 1) bug (<[Z.to_nat segno := se']> (sg_sentries st)) bug'.
Proof.
  unfold valid_segno. intros Hs Hd Hr Hl Hb. constructor.
  - by rewrite length_insert.
  - intros i Hi. assert (i = segno) as -> by lia. exists raw, se'. rewrite list_lookup_insert_eq by lia.
    split; [done|]. split; [done|]. split; [done|]. split; [done|]. intros E. apply Hb in E as [_ E]. exact E.
  - intros i H0 Hi. by rewrite list_lookup_insert_ne by lia.
  - intros E. apply Hb in E as [E _]. exact E.
  - intros E Hall. apply Hb. split; [done|]. apply (Hall segno); [lia|done].
Qed.

Lemma build_blocks_spec need n : forall st bug segno,
  sit_ok st need -> 0 <= segno -> segno + Z.of_nat n <= Z.of_nat (length (sg_sentries st)) ->
  exists ses bug', build_sit_blocks n st bug segno = Ok (with_sentries st ses, bug') /\
    loaded_from need st segno (segno + Z.of_nat n) bug ses bug'.
Proof.
  induction n as [|n IH]; intros st bug segno Hok H0 Hn; cbn [build_sit_blocks].
  { exists (sg_sentries st), bug. split; [by destruct st|]. rewrite Z.add_0_r. apply loaded_none. }
  assert (valid_segno st segno) as Hs by (unfold valid_segno; lia).
  destruct (disk_sit_eq st need Hok segno Hs) as (raw & Hd & Hg & Hr). apply res_bind_Ok in Hg as (b & -> & Hg).
  cbn [mbind res_bind]. rewrite Hg. cbn [mbind res_bind].
  destruct (load_sit_entry_spec st need Hok bug segno raw Hs Hr) as (se' & b1 & -> & Hl & Hb). cbn [mbind res_bind].
  pose proof (loaded_one need st bug segno raw se' b1 Hs Hd Hr Hl Hb) as L1.
  set (ses1 := <[_ := _]> _) in *. pose proof (lf_length _ _ _ _ _ _ _ L1) as Hlen.
  destruct (to_count _ _ Hok). rewrite u32_id by (unfold is_u32; lia).
  destruct (IH (with_sentries st ses1) b1 (segno + 1)) as (ses & b2 & -> & L2);
    [by apply sit_ok_with_sentries|lia|cbn [sg_sentries with_sentries]; lia|].
  exists ses, b2. split; [done|]. eapply (loaded_trans need st segno (segno + 1)); [lia|lia|exact L1|].
  by replace (segno + Z.of_nat (S n)) with (segno + 1 + Z.of_nat n) by lia.
Qed.

Lemma blk_cnt_eq st need : sit_ok st need ->
  SIT_BLK_CNT (sg st) = (Z.of_nat (length (sg_sentries st)) + 54) / 55 /\ 0 < SIT_BLK_CNT (sg st) < 2 ^ 31.
Proof.
  intros [_ _ Hs Hc (_ & Hn & _) _ _ _]. unfold SIT_BLK_CNT. change SIT_ENTRY_PER_BLOCK with 55.
  rewrite Hs, u64_id by (unfold is_u64; lia).
  replace (Z.of_nat (length (sg_sentries st)) + 55 - 1) with (Z.of_nat (length (sg_sentries st)) + 54) by lia.
  split; [done|]. Z.to_euclidean_division_equations; lia.
Qed.

Lemma ra_pages_eq need n : forall st blkno, sit_ok st need -> 0 <= blkno <= SIT_BLK_CNT (sg st) ->
  ra_sit_pages n (sg st) blkno = Ok (Z.min (blkno + Z.of_nat n) (SIT_BLK_CNT (sg st))).
Proof.
  induction n as [|n IH]; intros st blkno Hok Hb; cbn [ra_sit_pages]; [f_equal; lia|].
  unfold f2fs_is_valid_sit_blkaddr. destruct (blk_cnt_eq st need Hok) as [Hcnt Hpos].
  destruct (Z.ltb_spec blkno (SIT_BLK_CNT (sg st))); [|f_equal; lia].
  change SIT_ENTRY_PER_BLOCK with 55. destruct (to_count _ _ Hok) as [Hc _].
  assert (0 <= blkno * 55 < Z.of_nat (length (sg_sentries st))) as Hv
    by (rewrite Hcnt in *; clear - Hb H; Z.to_euclidean_division_equations; lia).
  destruct (to_count _ _ Hok). rewrite (u32_id (blkno * 55)) by (unfold is_u32; lia).
  rewrite (current_sit_addr_eq st need Hok (blkno * 55) Hv). cbn [mbind res_bind].
  rewrite u32_id by (unfold is_u32; lia). rewrite IH by (try done; lia). f_equal. lia.
Qed.

Lemma build_batches_spec need fuel : forall st bug start, sit_ok st need ->
  0 <= start < SIT_BLK_CNT (sg st) -> SIT_BLK_CNT (sg st) - start < Z.of_nat fuel ->
  exists ses bug', build_sit_batches fuel st bug start = Ok (with_sentries st ses, bug') /\
    loaded_from need st (55 * start) (Z.of_nat (length (sg_sentries st))) bug ses bug'.
Proof.
  induction fuel as [|fuel IH]; intros st bug start Hok Hs Hf; [lia|]. cbn [build_sit_batches].
  destruct (blk_cnt_eq st need Hok) as [Hcnt Hpos]. destruct (to_count _ _ Hok) as [Hc Hc'].
  unfold f2fs_ra_sit_pages. rewrite (ra_pages_eq need) by (try done; lia). cbn [mbind res_bind].
  change (Z.of_nat (Z.to_nat MAX_RA_BLOCKS)) with 64. change SIT_ENTRY_PER_BLOCK with 55.
  set (e := Z.min (start + 64) (SIT_BLK_CNT (sg st))).
  rewrite (u32_id (e - start)) by (unfold is_u32; lia). replace (start + (e - start)) with e by lia.
  rewrite (u32_id e) by (unfold is_u32; lia).
  assert (start * 55 < Z.of_nat (length (sg_sentries st)) /\ (e < SIT_BLK_CNT (sg st) -> e * 55 < Z.of_nat (length (sg_sentries st)))
    /\ SIT_BLK_CNT (sg st) * 55 < 2 ^ 32 /\ (e = SIT_BLK_CNT (sg st) -> Z.of_nat (length (sg_sentries st)) <= e * 55))
    as (H1 & H2 & H3 & H4) by (rewrite Hcnt in *; clear - Hs Hc Hc'; Z.to_euclidean_division_equations; lia).
  rewrite (u32_id (start * 55)), (u32_id (e * 55)) by (unfold is_u32; lia).
  unfold TOTAL_SEGS. rewrite (to_segs _ _ Hok).
  destruct (build_blocks_spec need (Z.to_nat (Z.min (e * 55) (Z.of_nat (length (sg_sentries st))) - start * 55))
    st bug (start * 55) Hok) as (ses1 & b1 & -> & L1); [lia|lia|]. cbn [mbind res_bind sg with_sentries].
  rewrite (Z.mul_comm 55 start). pose proof (lf_length _ _ _ _ _ _ _ L1) as Hlen.
  destruct (Z.ltb_spec e (SIT_BLK_CNT (sg st))) as [He|He].
  - destruct (IH (with_sentries st ses1) b1 e) as (ses & b2 & -> & L2);
      [by apply sit_ok_with_sentries|cbn [sg with_sentries]; lia|cbn [sg with_sentries]; lia|].
    exists ses, b2. split; [done|]. eapply loaded_trans; [| |exact L1|]; [lia|lia|].
    cbn [sg_sentries with_sentries] in L2. rewrite Hlen in L2.
    by replace (start * 55 + _) with (55 * e) by lia.
  - exists ses1, b1. split; [done|]. by replace (Z.of_nat (length (sg_sentries st))) with
      (start * 55 + Z.of_nat (Z.to_nat (Z.min (e * 55) (Z.of_nat (length (sg_sentries st))) - start * 55))) at 1 by lia.
Qed.

(** Storing the number of entries of the journal. *)
Lemma set_journal_count st need c v : sit_ok st need -> rd (sg_cursegs st) CURSEG_COLD_DATA = Ok c -> 0 <= v < 2 ^ 16 ->
  exists sum st', set_le16 (cs_sum_blk c) ofs_journal v = Ok sum /\
    store_sum_blk st (Some CURSEG_COLD_DATA) sum = Ok st' /\ sit_ok st' need /\
    st' = with_cursegs st (sg_cursegs st') /\
    rd (sg_cursegs st') CURSEG_COLD_DATA = Ok (set_sum_blk c sum) /\ sits_in_cursum sum = Ok v /\
    (forall i, 0 <= i -> segno_in_journal sum i = segno_in_journal (cs_sum_blk c) i /\
       sit_in_journal sum i = sit_in_journal (cs_sum_blk c) i).
Proof.
  intros Hok Hc Hv. pose proof Hc as Hc'. apply rd_Ok in Hc' as [_ Hlk].
  destruct (to_cursegs _ _ Hok) as [Hl6 Hf]. pose proof (Forall_lookup_1 _ _ _ _ Hf Hlk) as [Hsl Hsb].
  assert (set_le 2 (cs_sum_blk c) ofs_journal v = Ok (splice (cs_sum_blk c) ofs_journal (le_bytes 2 v))) as Hset
    by (apply wr_list_splice; unfold ofs_journal; rewrite ?length_le_bytes; lia).
  set (sum := splice _ _ _) in Hset.
  assert (sum_block sum) as Hsum.
  { split; [unfold sum; rewrite length_splice; unfold ofs_journal; rewrite ?length_le_bytes; lia|].
    apply bytes_splice; [done|apply bytes_le_bytes]. }
  exists sum, (with_cursegs st (stored_cursegs st (Some CURSEG_COLD_DATA) sum)). split; [exact Hset|].
  split; [apply (store_sum_blk_eq st 0 _ (cs_sum_blk c)); split; [done|by exists c]|].
  split; [|split; [done|split; [|split]]].
  - destruct Hok. constructor; cbn [sg sg_sentries sg_cursegs sg_disk with_cursegs]; try done.
    by apply stored_cursegs_ok.
  - cbn [sg_cursegs with_cursegs stored_cursegs]. apply rd_lookup; [done|]. by rewrite list_lookup_alter_eq, Hlk.
  - apply get_set_le; unfold ofs_journal; lia.
  - intros i Hi. unfold segno_in_journal, sit_in_journal, ofs_segno_in_journal, SIZE_OF_SIT_JOURNAL_ENTRY, sum.
    split; [apply get_set_le_ne|apply rd_bytes_ext; intros j Hj; apply rd_splice_ne];
      unfold ofs_journal in *; rewrite ?length_le_bytes; lia.
Qed.

(** The raw entry in force for [segno]: the last one of the journal, else [cur].
    The journal ends at its first invalid segment number. *)
Fixpoint sit_in_force (n : nat) (total : Z) (sum : list Z) (i segno : Z) (cur : list Z) : res (list Z) :=
  match n with
  | O => Ok cur
  | S n =>
      s ← segno_in_journal sum i;
      if total <=? s then Ok cur
      else sit ← sit_in_journal sum i;
           sit_in_force n total sum (i + 1) segno (if s =? segno then sit else cur)
  end.

Lemma sit_journal_total sum i : sum_block sum -> 0 <= i < 6 ->
  exists s sit, segno_in_journal sum i = Ok s /\ 0 <= s /\ sit_in_journal sum i = Ok sit /\ raw_entry sit.
Proof.
  intros [Hl Hb] Hi. unfold segno_in_journal, sit_in_journal, ofs_segno_in_journal, SIZE_OF_SIT_JOURNAL_ENTRY, ofs_journal.
  destruct (get_le_total 4 sum (3584 + 2 + 78 * i)) as [s Hs]; [lia..|]. rewrite Hs.
  assert (rd_bytes sum (3584 + 2 + 78 * i + 4) (Z.to_nat SIZE_OF_SIT_ENTRY)
    = Ok (take 74 (drop (Z.to_nat (3584 + 2 + 78 * i + 4)) sum))) as Hr.
  { apply (rd_bytes_Ok _ _ 74); lia. }
  do 2 eexists. split; [done|]. split; [apply get_le_range in Hs; [lia|done]|]. split; [exact Hr|].
  by destruct (rd_bytes_bytes _ _ _ _ Hb Hr).
Qed.

(** The state after the journal has been taken into account. *)
Record journal_loaded (need : bool) (st st' : seg_state) (m : nat) (sum : list Z) (i : Z) (bug bug' : bool) : Prop := {
  jl_ok : sit_ok st' need;
  jl_cfg : sg st' = sg st;
  jl_disk : sg_disk st' = sg_disk st;
  jl_length : length (sg_sentries st') = length (sg_sentries st);
  jl_bug : bug' = false -> bug = false;
  jl_entries : forall s raw se, 0 <= s -> raw_entry raw -> sg_sentries st !! Z.to_nat s = Some se -> is_loaded need raw se ->
    exists raw' se', sit_in_force m (Z.of_nat (length (sg_sentries st))) sum i s raw = Ok raw' /\
      sg_sentries st' !! Z.to_nat s = Some se' /\ is_loaded need raw' se' /\
      (bug' = false -> raw_sound raw -> raw_sound raw');
}.

Lemma build_journal_spec need n : forall st bug fix_on i c count,
  sit_ok st need -> rd (sg_cursegs st) CURSEG_COLD_DATA = Ok c -> sits_in_cursum (cs_sum_blk c) = Ok count ->
  0 <= i <= count -> count <= 6 -> count - i < Z.of_nat n ->
  exists st' bug' fix', build_sit_journal n st bug fix_on i = Ok (st', bug', fix') /\
    journal_loaded need st st' (Z.to_nat (count - i)) (cs_sum_blk c) i bug bug' /\
    (count = i -> st' = st /\ bug' = bug /\ fix' = fix_on).
Proof.
  induction n as [|n IH]; intros st bug fix_on i c count Hok Hc Hn Hi H6 Hf; [lia|]. cbn [build_sit_journal].
  rewrite Hc. cbn [mbind res_bind]. rewrite Hn. cbn [mbind res_bind]. destruct (Z.ltb_spec i count) as [Hlt|Hge].
  2: { assert (count = i) as -> by lia. rewrite Z.sub_diag. exists st, bug, fix_on. split; [done|]. split; [|done].
       constructor; try done. intros s raw se _ _ Hse Hl. by exists raw, se. }
  assert (sum_block (cs_sum_blk c)) as Hsum.
  { pose proof Hc as Hc'. apply rd_Ok in Hc' as [_ Hlk]. by apply (Forall_lookup_1 _ _ _ _ (proj2 (to_cursegs _ _ Hok)) Hlk). }
  destruct (sit_journal_total (cs_sum_blk c) i Hsum) as (s0 & sit & Hs0 & Hpos & Hsit & Hraw); [lia|].
  rewrite Hs0. cbn [mbind res_bind]. unfold TOTAL_SEGS. rewrite (to_segs _ _ Hok).
  replace (Z.to_nat (count - i)) with (S (Z.to_nat (count - (i + 1)))) by lia.
  destruct (Z.leb_spec (Z.of_nat (length (sg_sentries st))) s0) as [Hbad|Hgood].
  - rewrite u16_id by (unfold is_u16; lia).
    destruct (set_journal_count st need c i Hok Hc) as (sum & st1 & Hset & Hst & Hok1 & E1 & Hc1 & Hn1 & _); [lia|].
    rewrite Hset. cbn [mbind res_bind]. rewrite Hst. cbn [mbind res_bind].
    destruct n as [|n]; [lia|]. cbn [build_sit_journal]. rewrite Hc1. cbn [mbind res_bind cs_sum_blk set_sum_blk].
    rewrite Hn1. cbn [mbind res_bind]. replace (i + 1 <? i) with false by lia.
    exists st1, bug, true. split; [done|]. split; [|lia]. rewrite E1. rewrite E1 in Hok1. constructor; try done.
    intros s raw se _ _ Hse Hl. exists raw, se. split; [|done]. cbn [sit_in_force]. rewrite Hs0. cbn [mbind res_bind].
    by replace (Z.of_nat (length (sg_sentries st)) <=? s0) with true by lia.
  - rewrite Hsit. cbn [mbind res_bind].
    destruct (load_sit_entry_spec st need Hok bug s0 sit) as (se0 & b1 & -> & Hl0 & Hb1); [by split|done|].
    cbn [mbind res_bind]. set (ses1 := <[_ := _]> _).
    assert (length ses1 = length (sg_sentries st)) as Hlen by (unfold ses1; by rewrite length_insert).
    destruct (IH (with_sentries st ses1) b1 fix_on (i + 1) c count) as (st' & b2 & fix' & -> & J & _);
      [by apply sit_ok_with_sentries|done|done|lia|done|lia|].
    exists st', b2, fix'. split; [done|]. split; [|lia]. destruct J as [J1 J2 J3 J4 J5 J6].
    cbn [sg sg_disk sg_sentries with_sentries] in *. rewrite Hlen in J4, J6. constructor; try done.
    + intros E. apply J5, Hb1 in E as [E _]. exact E.
    + intros s raw se H0 Hr Hse Hl. cbn [sit_in_force]. rewrite Hs0. cbn [mbind res_bind].
      replace (Z.of_nat (length (sg_sentries st)) <=? s0) with false by lia. rewrite Hsit. cbn [mbind res_bind].
      destruct (Z.eqb_spec s0 s) as [<-|Hne].
      * destruct (J6 s0 sit se0) as (raw' & se' & A & B & C & D); [done|done|unfold ses1; apply list_lookup_insert_eq; lia|done|].
        exists raw', se'. split; [done|]. split; [done|]. split; [done|]. intros E _. apply D; [done|].
        apply J5, Hb1 in E as [_ E]. exact E.
      * apply (J6 s raw se); [done|done| |done]. unfold ses1. by rewrite list_lookup_insert_ne by lia.
Qed.

(** The cache as a function of the table and the journal. *)
Record sit_built (need : bool) (st st' : seg_state) (count : Z) (sum : list Z) (bug bug' : bool) : Prop := {
  sb_ok : sit_ok st' need;
  sb_cfg : sg st' = sg st;
  sb_disk : sg_disk st' = sg_disk st;
  sb_length : length (sg_sentries st') = length (sg_sentries st);
  sb_entries : forall s, valid_segno st s -> exists old raw se,
    disk_sit st s = Ok old /\
    sit_in_force (Z.to_nat (Z.min count SIT_JOURNAL_ENTRIES)) (Z.of_nat (length (sg_sentries st))) sum 0 s old = Ok raw /\
    sg_sentries st' !! Z.to_nat s = Some se /\ is_loaded need raw se /\ (bug' = false -> raw_sound raw);
  sb_clean : count = 0 -> bug = false ->
    (forall s raw, valid_segno st s -> disk_sit st s = Ok raw -> raw_sound raw) -> bug' = false;
}.

Lemma sit_in_force_ext sum sum' total n : forall i s cur,
  (forall j, 0 <= j -> segno_in_journal sum' j = segno_in_journal sum j /\ sit_in_journal sum' j = sit_in_journal sum j) ->
  0 <= i -> sit_in_force n total sum' i s cur = sit_in_force n total sum i s cur.
Proof.
  induction n as [|n IH]; intros i s cur Hj Hi; cbn [sit_in_force]; [done|]. destruct (Hj i Hi) as [-> ->].
  destruct (segno_in_journal sum i); cbn [mbind res_bind]; try done. destruct (total <=? _); [done|].
  destruct (sit_in_journal sum i); cbn [mbind res_bind]; try done. apply IH; [done|lia].
Qed.

Lemma build_sit_entries_spec st need bug fix_on : sit_ok st need ->
  exists c count st' bug' fix', rd (sg_cursegs st) CURSEG_COLD_DATA = Ok c /\ sits_in_cursum (cs_sum_blk c) = Ok count /\
    build_sit_entries st bug fix_on = Ok (st', bug', fix') /\ sit_built need st st' count (cs_sum_blk c) bug bug'.
Proof.
  intros Hok. destruct (blk_cnt_eq st need Hok) as [_ Hpos]. destruct (to_cursegs _ _ Hok) as [Hl6 Hf6].
  destruct (rd_total (sg_cursegs st) CURSEG_COLD_DATA) as [c Hc]; [rewrite Hl6; unfold CURSEG_COLD_DATA; lia|].
  pose proof Hc as Hc'. apply rd_Ok in Hc' as [_ Hlk]. pose proof (Forall_lookup_1 _ _ _ _ Hf6 Hlk) as [Hsl Hsb].
  destruct (get_le_total 2 (cs_sum_blk c) ofs_journal) as [count Hcount]; [unfold ofs_journal; lia..|].
  pose proof (get_le_range 2 _ _ _ Hsb Hcount) as Hr. change (2 ^ (8 * Z.of_nat 2)) with (2 ^ 16) in Hr.
  unfold build_sit_entries.
  destruct (build_batches_spec need (S (Z.to_nat (SIT_BLK_CNT (sg st)))) st bug 0 Hok) as (ses & b1 & -> & L); [lia..|].
  pose proof (lf_length _ _ _ _ _ _ _ L) as Hlen. cbn [mbind res_bind].
  pose proof (sit_ok_with_sentries st need ses Hok Hlen) as Hok1.
  change (sg_cursegs (with_sentries st ses)) with (sg_cursegs st). rewrite Hc. cbn [mbind res_bind].
  change (sits_in_cursum (cs_sum_blk c) = Ok count) in Hcount. rewrite Hcount. cbn [mbind res_bind].
  assert (exists st2 fix2 c2, (if SIT_JOURNAL_ENTRIES <? count then
        sum ← set_le16 (cs_sum_blk c) ofs_journal SIT_JOURNAL_ENTRIES;
        st ← store_sum_blk (with_sentries st ses) (Some CURSEG_COLD_DATA) sum; Ok (st, true)
      else Ok (with_sentries st ses, fix_on)) = Ok (st2, fix2) /\ sit_ok st2 need /\
      st2 = with_cursegs (with_sentries st ses) (sg_cursegs st2) /\ rd (sg_cursegs st2) CURSEG_COLD_DATA = Ok c2 /\
      sits_in_cursum (cs_sum_blk c2) = Ok (Z.min count SIT_JOURNAL_ENTRIES) /\
      forall j, 0 <= j -> segno_in_journal (cs_sum_blk c2) j = segno_in_journal (cs_sum_blk c) j /\
        sit_in_journal (cs_sum_blk c2) j = sit_in_journal (cs_sum_blk c) j) as (st2 & fix2 & c2 & -> & Hok2 & E2 & Hc2 & Hn2 & Hj).
  { destruct (Z.ltb_spec SIT_JOURNAL_ENTRIES count) as [Hgt|Hle].
    - destruct (set_journal_count (with_sentries st ses) need c SIT_JOURNAL_ENTRIES Hok1 Hc)
        as (sum & st2 & Hset & Hst & Hok2 & E2 & Hc2 & Hn2 & Hj); [by vm_compute|].
      setoid_rewrite Hset. cbn [mbind res_bind]. setoid_rewrite Hst. cbn [mbind res_bind].
      exists st2, true, (set_sum_blk c sum). rewrite Z.min_r by lia. done.
    - exists (with_sentries st ses), fix_on, c. rewrite Z.min_l by lia. done. }
  cbn [mbind res_bind]. change SIT_JOURNAL_ENTRIES with 6 in *.
  destruct (build_journal_spec need (S (Z.to_nat 6)) st2 b1 fix2 0 c2 (Z.min count 6) Hok2 Hc2 Hn2)
    as (st' & b2 & fix' & -> & J & J0); [lia..|].
  exists c, count, st', b2, fix'. split; [done|]. split; [done|]. split; [done|]. destruct J as [J1 J2 J3 J4 J5 J6].
  assert (sg_sentries st2 = ses) as Hses by (by rewrite E2). rewrite Hses in J4, J6. rewrite Z.sub_0_r in J6.
  constructor; [done|by rewrite J2, E2|by rewrite J3, E2|congruence| |].
  - intros s Hs. destruct (lf_in _ _ _ _ _ _ _ L s) as (old & se & H1 & H2 & H3 & H4 & H5); [unfold valid_segno in Hs; lia|].
    destruct (J6 s old se) as (raw & se' & A & B & C & D); [unfold valid_segno in Hs; lia|done..|].
    exists old, raw, se'. rewrite Hlen in A. rewrite (sit_in_force_ext (cs_sum_blk c)) in A by (try done; lia).
    split; [done|]. split; [done|]. split; [done|]. split; [done|]. intros E. apply D; [done|]. by apply H5, J5.
  - intros -> Hb Hall. destruct J0 as (_ & -> & _); [lia|]. apply (lf_sound _ _ _ _ _ _ _ L); [done|].
    intros i raw Hi. apply Hall. unfold valid_segno. lia.
Qed.

(** * Writing entries back *)

(** A map with its count and type that an entry can hold. *)
Record sit_fits (map : list Z) (t n : Z) : Prop := {
  sf_map : length map = 64%nat /\ bytes map;
  sf_type : 0 <= t < 64;
  sf_count : 0 <= n < 1024;
}.

Definition frame_sit (b b' : list Z) (segno : Z) : Prop :=
  forall i, i < 74 * (segno mod 55) \/ 74 * (segno mod 55) + 74 <= i -> rd b' i = rd b i.

Lemma store_sit_spec b segno map t n : sum_block b -> 0 <= segno -> sit_fits map t n ->
  exists b', store_sit b (ofs_sit_entry segno) map t n = Ok b' /\ sum_block b' /\ frame_sit b b' segno /\
    exists raw, sit_block_entry b' segno = Ok raw /\ raw_entry raw /\ raw_holds raw map n t.
Proof.
  intros [Hl Hb] Hs [[Hml Hmb] Ht Hn].
  unfold store_sit, ofs_sit_entry, SIT_ENTRY_OFFSET, SIZE_OF_SIT_ENTRY, ofs_valid_map, ofs_vblocks, frame_sit.
  change SIT_ENTRY_PER_BLOCK with 55. assert (0 <= segno mod 55 < 55) as Ho by (apply Z.mod_pos_bound; lia).
  set (e := 74 * (segno mod 55)). rewrite wr_list_splice by lia. cbn [mbind res_bind]. rewrite vblocks_join by lia.
  unfold set_le. assert (length (splice b (e + 2) map) = 4096%nat) as Hl1 by (rewrite length_splice; lia).
  rewrite Z.add_0_r. rewrite wr_list_splice by (rewrite ?length_le_bytes; lia).
  set (b1 := splice b (e + 2) map) in *. set (b' := splice b1 e (le_bytes 2 (1024 * t + n))).
  assert (sum_block b') as Hsb.
  { split; [unfold b'; rewrite length_splice; rewrite ?length_le_bytes; lia|]. repeat apply bytes_splice; try done. apply bytes_le_bytes. }
  exists b'. split; [done|]. split; [done|]. split.
  { intros i Hi. unfold b', b1. by rewrite !rd_splice_ne by (rewrite ?length_le_bytes, ?length_splice; lia). }
  destruct (page_entry b' segno Hsb Hs) as (raw & Hraw & He). exists raw. split; [done|]. split; [done|].
  destruct Hsb as [Hl' _]. assert (get_le 2 raw 0 = Ok (1024 * t + n)) as Hv.
  { rewrite (get_le_sub 2 b' e 74 raw 0) by (exact Hraw || lia). rewrite Z.add_0_r.
    apply get_set_le; [lia|lia|]. change (2 ^ (8 * Z.of_nat 2)) with (2 ^ 16). lia. }
  destruct (vblocks_split (1024 * t + n)) as [V1 V2]; [lia|].
  constructor; unfold GET_SIT_VBLOCKS, GET_SIT_TYPE, ofs_vblocks; rewrite ?Hv; cbn [mbind res_bind]; rewrite ?V1, ?V2.
  - f_equal. Z.to_euclidean_division_equations; lia.
  - unfold sit_valid_map, ofs_valid_map. change (Z.to_nat SIT_VBLOCK_MAP_SIZE) with 64%nat.
    rewrite (rd_bytes_sub 64 b' e 74 raw 2) by (exact Hraw || lia). rewrite (rd_bytes_ext b1).
    + apply rd_bytes_app; [rewrite length_take; lia|done].
    + intros i Hi. apply rd_splice_ne; rewrite ?length_le_bytes; lia.
  - f_equal. Z.to_euclidean_division_equations; lia.
Qed.

(** Writing a page in which only the entry of [segno] differs. *)
Lemma sit_page_write st need segno b b' :
  sit_ok st need -> valid_segno st segno -> sg_disk st !! sit_addr (sg st) segno = Some b -> sum_block b' ->
  frame_sit b b' segno ->
  let st' := with_seg_disk st (<[sit_addr (sg st) segno := b']> (sg_disk st)) in
  rewrite_current_sit_page st segno b' = Ok st' /\ sit_ok st' need /\
  disk_sit st' segno = sit_block_entry b' segno /\
  forall s, valid_segno st s -> s <> segno -> disk_sit st' s = disk_sit st s.
Proof.
  intros Hok Hs Hb Hsb Hfr st'. split; [|split; [|split]].
  - unfold rewrite_current_sit_page. rewrite (current_sit_addr_eq st need Hok segno Hs). cbn [mbind res_bind].
    by rewrite disk_write_present by (by exists b).
  - destruct Hok. constructor; try done. intros a Ha. unfold st'. cbn [sg_disk with_seg_disk].
    destruct (decide (a = sit_addr (sg st) segno)) as [->|Hne]; [exists b'; by rewrite lookup_insert_eq|].
    destruct (to_disk0 a Ha) as (x & Hx & Hx'). exists x. by rewrite lookup_insert_ne by done.
  - unfold disk_sit, disk_read_or_die, disk_read, st'. cbn [sg sg_disk with_seg_disk]. by rewrite lookup_insert_eq.
  - intros s Hs' Hne. unfold disk_sit, disk_read_or_die, disk_read, st'. cbn [sg sg_disk with_seg_disk].
    destruct (Z.eq_dec (sit_addr (sg st) s) (sit_addr (sg st) segno)) as [E|E]; [|by rewrite lookup_insert_ne].
    rewrite E, lookup_insert_eq, Hb. cbn [mbind res_bind]. apply (sit_addr_inj st need Hok s segno Hs' Hs) in E.
    unfold valid_segno in Hs, Hs'. unfold sit_block_entry, ofs_sit_entry, SIT_ENTRY_OFFSET, SIZE_OF_SIT_ENTRY.
    change SIT_ENTRY_PER_BLOCK with 55. apply rd_bytes_ext. intros i Hi. apply Hfr.
    change (Z.of_nat (Z.to_nat 74)) with 74 in Hi. clear - Hi Hne E Hs Hs'. Z.to_euclidean_division_equations. lia.
Qed.

(** The table holds map, count and type for [segno]. *)
Definition table_holds (st : seg_state) (segno : Z) (map : list Z) (t n : Z) : Prop :=
  exists raw, disk_sit st segno = Ok raw /\ raw_entry raw /\ raw_holds raw map n t.

Lemma put_sit_spec st need segno map t n : sit_ok st need -> valid_segno st segno -> sit_fits map t n ->
  exists b b' d, get_current_sit_page st segno = Ok b /\ store_sit b (ofs_sit_entry segno) map t n = Ok b' /\
    let st' := with_seg_disk st d in rewrite_current_sit_page st segno b' = Ok st' /\ sit_ok st' need /\
    table_holds st' segno map t n /\
    forall s, valid_segno st s -> s <> segno -> disk_sit st' s = disk_sit st s.
Proof.
  intros Hok Hs Hfit. destruct (get_page_eq st need Hok segno Hs) as (b & Hg & Hb & Hsb).
  destruct (store_sit_spec b segno map t n Hsb) as (b' & Hst & Hsb' & Hfr & raw & Hr & He & Hh);
    [unfold valid_segno in Hs; lia|done|].
  destruct (sit_page_write st need segno b b' Hok Hs Hb Hsb' Hfr) as (Hw & Hok' & Hd & Hother).
  exists b, b', (<[sit_addr (sg st) segno := b']> (sg_disk st)).
  split; [done|]. split; [done|]. split; [done|]. split; [done|]. split; [|done]. exists raw. by rewrite Hd.
Qed.

(** Entries that may be written: counts that match and known types. *)
Definition entry_writable (need : bool) (se : seg_entry) : Prop := se_ok need se /\ 0 <= se_type se < NO_CHECK_TYPE.

Lemma writable_fits need se : entry_writable need se -> sit_fits (se_cur_map se) (se_type se) (se_valid_blocks se).
Proof.
  unfold entry_writable, NO_CHECK_TYPE. intros [[[Hl Hb] Hc _ _ _] Ht]. pose proof (popcount_bounds _ Hb) as Hp. unfold nbits in Hp.
  constructor; [done|lia|lia].
Qed.

Lemma flush_sit_loop_spec need n : forall st segno, sit_ok st need -> Forall (entry_writable need) (sg_sentries st) ->
  0 <= segno -> segno + Z.of_nat n <= Z.of_nat (length (sg_sentries st)) ->
  exists d, flush_sit_loop n st segno = Ok (with_seg_disk st d) /\ sit_ok (with_seg_disk st d) need /\
    forall s se, 0 <= s -> sg_sentries st !! Z.to_nat s = Some se ->
      if bool_decide (segno <= s < segno + Z.of_nat n) && se_dirty se
      then table_holds (with_seg_disk st d) s (se_cur_map se) (se_type se) (se_valid_blocks se)
      else disk_sit (with_seg_disk st d) s = disk_sit st s.
Proof.
  induction n as [|n IH]; intros st segno Hok Hw H0 Hn; cbn [flush_sit_loop].
  { exists (sg_disk st). split; [by destruct st|]. split; [by destruct st|]. intros s se Hs _.
    rewrite bool_decide_eq_false_2 by lia. done. }
  destruct (rd_total (sg_sentries st) segno) as [se Hse]; [lia|]. unfold get_seg_entry. rewrite Hse. cbn [mbind res_bind].
  apply rd_Ok in Hse as [_ Hlk]. destruct (se_dirty se) eqn:Hdirty.
  - destruct (put_sit_spec st need segno (se_cur_map se) (se_type se) (se_valid_blocks se) Hok) as (b & b' & d & -> & Hst & Hrw & Hok' & Hth & Hother);
      [unfold valid_segno; lia|apply (writable_fits need), (Forall_lookup_1 _ _ _ _ Hw Hlk)|].
    cbn [mbind res_bind]. rewrite Hst. cbn [mbind res_bind]. rewrite Hrw. cbn [mbind res_bind].
    destruct (IH (with_seg_disk st d) (segno + 1) Hok' Hw) as (d2 & -> & Hok2 & H2); [lia|cbn; lia|].
    exists d2. split; [done|]. split; [done|]. intros s se' Hs Hse'. specialize (H2 s se' Hs Hse').
    destruct (Z.eq_dec s segno) as [->|Hne].
    + rewrite Hlk in Hse'. injection Hse' as <-. rewrite bool_decide_eq_false_2 in H2 by lia. cbn [andb] in H2.
      rewrite bool_decide_eq_true_2, Hdirty by lia. destruct Hth as (raw & Hd & Hr). exists raw.
      split; [|done]. rewrite <- Hd. exact H2.
    + replace (bool_decide (segno <= s < segno + Z.of_nat (S n))) with (bool_decide (segno + 1 <= s < segno + 1 + Z.of_nat n))
        by (apply bool_decide_ext; lia).
      destruct (bool_decide _ && se_dirty se'); [exact H2|]. rewrite <- (Hother s); [exact H2| |done].
      unfold valid_segno. apply lookup_lt_Some in Hse'. lia.
  - destruct (IH st (segno + 1) Hok Hw) as (d2 & -> & Hok2 & H2); [lia|lia|].
    exists d2. split; [done|]. split; [done|]. intros s se' Hs Hse'. specialize (H2 s se' Hs Hse').
    destruct (Z.eq_dec s segno) as [->|Hne].
    + rewrite Hlk in Hse'. injection Hse' as <-. rewrite Hdirty, andb_false_r in H2 |- *. exact H2.
    + by replace (bool_decide (segno <= s < segno + Z.of_nat (S n))) with (bool_decide (segno + 1 <= s < segno + 1 + Z.of_nat n))
        by (apply bool_decide_ext; lia).
Qed.

(** The part of the bitmap of fsck for one segment, and the type that is written. *)
Definition main_map (st : seg_state) (s : Z) : list Z := take 64 (drop (Z.to_nat (64 * s)) (sg_main_bitmap st)).
Definition written_type (se : seg_entry) : Z := if NO_CHECK_TYPE <=? se_type se then 0 else se_type se.

Lemma main_map_spec st s : bytes (sg_main_bitmap st) ->
  0 <= s -> 64 * s + 64 <= Z.of_nat (length (sg_main_bitmap st)) ->
  rd_bytes (sg_main_bitmap st) (SIT_VBLOCK_MAP_SIZE * s) (Z.to_nat SIT_VBLOCK_MAP_SIZE) = Ok (main_map st s) /\
  sum_bits (main_map st s) 0 = Ok (popcount (main_map st s)) /\ 0 <= popcount (main_map st s) <= 512 /\
  length (main_map st s) = 64%nat /\ bytes (main_map st s).
Proof.
  intros Hb Hs Hl. unfold SIT_VBLOCK_MAP_SIZE.
  assert (rd_bytes (sg_main_bitmap st) (64 * s) (Z.to_nat 64) = Ok (main_map st s)) as Hr by (apply (rd_bytes_Ok _ _ 64); lia).
  destruct (rd_bytes_bytes _ _ _ _ Hb Hr) as [Hmb Hml]. split; [done|].
  split; [by rewrite sum_bits_popcount|]. pose proof (popcount_bounds _ Hmb) as Hp. unfold nbits in Hp.
  rewrite Hml in Hp. split; [lia|done].
Qed.

Definition rewritten (st st' : seg_state) (s : Z) (se : seg_entry) : Prop :=
  sg_sentries st' !! Z.to_nat s = Some (set_se_map se (main_map st s) (popcount (main_map st s))) /\
  table_holds st' s (main_map st s) (written_type se) (popcount (main_map st s)).

Lemma rewrite_loop_spec need n : forall st bug segno, sit_ok st need ->
  Forall (fun se => 0 <= se_type se) (sg_sentries st) ->
  bytes (sg_main_bitmap st) -> (64 * length (sg_sentries st) <= length (sg_main_bitmap st))%nat ->
  0 <= segno -> segno + Z.of_nat n <= Z.of_nat (length (sg_sentries st)) ->
  exists ses d bug', let st' := with_seg_disk (with_sentries st ses) d in
    rewrite_sit_loop n st bug segno = Ok (st', bug') /\ sit_ok st' need /\ length ses = length (sg_sentries st) /\
    forall s se, 0 <= s -> sg_sentries st !! Z.to_nat s = Some se ->
      if bool_decide (segno <= s < segno + Z.of_nat n) then rewritten st st' s se
      else sg_sentries st' !! Z.to_nat s = Some se /\ disk_sit st' s = disk_sit st s.
Proof.
  induction n as [|n IH]; intros st bug segno Hok Ht Hmb Hml H0 Hn; cbn [rewrite_sit_loop].
  { exists (sg_sentries st), (sg_disk st), bug. cbv zeta. split; [by destruct st|]. split; [by destruct st|].
    split; [done|]. intros s se Hs Hse. rewrite bool_decide_eq_false_2 by lia. by destruct st. }
  assert (valid_segno st segno) as Hs by (unfold valid_segno; lia).
  destruct (rd_total (sg_sentries st) segno Hs) as [se Hse]. pose proof Hse as Hlk. apply rd_Ok in Hlk as [_ Hlk].
  destruct (main_map_spec st segno Hmb) as (Hrd & Hsum & Hpc & Hmlen & Hmbytes); [lia|lia|].
  set (map := main_map st segno) in *. set (se1 := set_se_map se map (popcount map)).
  set (ses1 := <[Z.to_nat segno := se1]> (sg_sentries st)).
  assert (length ses1 = length (sg_sentries st)) as Hlen by (unfold ses1; by rewrite length_insert).
  pose proof (Forall_lookup_1 _ _ _ _ Ht Hlk) as Hty. cbv beta in Hty.
  assert (sit_fits map (written_type se) (popcount map)) as Hfit.
  { constructor; [done| |lia]. unfold written_type. destruct (Z.leb_spec NO_CHECK_TYPE (se_type se)); unfold NO_CHECK_TYPE in *; lia. }
  destruct (put_sit_spec (with_sentries st ses1) need segno map (written_type se) (popcount map))
    as (b & b' & d & Hg & Hst & Hrw & Hok' & Hth & Hother);
    [by apply sit_ok_with_sentries|unfold valid_segno; cbn [sg_sentries with_sentries]; lia|done|].
  change (get_current_sit_page (with_sentries st ses1) segno) with (get_current_sit_page st segno) in Hg.
  rewrite Hg. cbn [mbind res_bind]. rewrite Hrd. cbn [mbind res_bind]. rewrite Hsum. cbn [mbind res_bind].
  unfold get_seg_entry. rewrite Hse. cbn [mbind res_bind]. rewrite (u16_id (popcount map)) by (unfold is_u16; lia).
  unfold set_seg_entry. rewrite wr_total by done. cbn [mbind res_bind]. fold (written_type se). fold map se1 ses1.
  rewrite Hst. cbn [mbind res_bind]. rewrite Hrw. cbn [mbind res_bind].
  destruct (IH (with_seg_disk (with_sentries st ses1) d) (bug || (NO_CHECK_TYPE <=? se_type se)) (segno + 1))
    as (ses & d2 & bug' & Hrec & Hok2 & Hlen2 & H2); cbn [sg_sentries sg_main_bitmap with_seg_disk with_sentries] in *;
    [done|by apply Forall_insert|done|lia|lia|lia|].
  exists ses, d2, bug'. cbv zeta. split; [exact Hrec|]. split; [done|]. split; [lia|]. intros s se' Hs' Hse'.
  destruct (Z.eq_dec s segno) as [->|Hne].
  - rewrite Hlk in Hse'. injection Hse' as <-. specialize (H2 segno se1 Hs').
    rewrite bool_decide_eq_false_2 in H2 by lia. rewrite bool_decide_eq_true_2 by lia.
    destruct H2 as [H2 H3]; [unfold ses1; apply list_lookup_insert_eq; unfold valid_segno in Hs; lia|].
    split; [exact H2|]. destruct Hth as (raw & Hd & Hr). exists raw. split; [|done]. by rewrite <- Hd.
  - specialize (H2 s se' Hs'). unfold ses1 in H2. rewrite list_lookup_insert_ne in H2 by lia. specialize (H2 Hse').
    replace (bool_decide (segno <= s < segno + Z.of_nat (S n))) with (bool_decide (segno + 1 <= s < segno + 1 + Z.of_nat n))
      by (apply bool_decide_ext; lia).
    destruct (bool_decide _); [exact H2|]. destruct H2 as [H2 H3]. split; [exact H2|].
    specialize (Hother s). cbn [sg_sentries with_sentries] in Hother. etransitivity; [exact H3|]. apply Hother; [|done].
    unfold valid_segno. cbn [sg_sentries with_sentries]. apply lookup_lt_Some in Hse'. lia.
Qed.

(** * Mounting what was written *)

(** Building the cache from a table without a journal. *)
Lemma remount_spec st need c fresh fix_on (map : Z -> list Z) (type : Z -> Z) :
  sit_ok st need -> rd (sg_cursegs st) CURSEG_COLD_DATA = Ok c -> sits_in_cursum (cs_sum_blk c) = Ok 0 ->
  length fresh = length (sg_sentries st) ->
  (forall s, valid_segno st s -> table_holds st s (map s) (type s) (popcount (map s)) /\
     popcount (map s) <= 512 /\ type s < NO_CHECK_TYPE) ->
  exists st' fix', build_sit_entries (with_sentries st fresh) false fix_on = Ok (st', false, fix') /\
    sg st' = sg st /\ length (sg_sentries st') = length (sg_sentries st) /\ sit_ok st' need /\
    forall s, valid_segno st s -> exists se, sg_sentries st' !! Z.to_nat s = Some se /\ se_ok need se /\
      se_cur_map se = map s /\ se_valid_blocks se = popcount (map s) /\ se_type se = type s.
Proof.
  intros Hok Hc Hn Hlen Hall. pose proof (sit_ok_with_sentries st need fresh Hok Hlen) as Hok1.
  assert (forall s, valid_segno (with_sentries st fresh) s <-> valid_segno st s) as Hv
    by (intros s; unfold valid_segno; cbn [sg_sentries with_sentries]; by rewrite Hlen).
  destruct (build_sit_entries_spec (with_sentries st fresh) need false fix_on Hok1)
    as (c' & count & st' & bug' & fix' & Hc' & Hcount & Hb & B).
  cbn [sg_cursegs with_sentries] in Hc'. rewrite Hc in Hc'. apply Ok_inj in Hc' as <-. rewrite Hn in Hcount.
  apply Ok_inj in Hcount as <-. destruct B as [B1 B2 B3 B4 B5 B6].
  assert (bug' = false) as ->.
  { apply B6; [done|done|]. intros s raw Hs Hd. apply Hv in Hs. destruct (Hall s Hs) as ((raw' & Hd' & _ & Hh) & Hp & Ht).
    change (disk_sit st s = Ok raw) in Hd. rewrite Hd in Hd'. apply Ok_inj in Hd' as <-. by exists (map s), (type s). }
  exists st', fix'. split; [done|]. split; [done|]. cbn [sg_sentries with_sentries] in B4. split; [congruence|].
  split; [done|]. intros s Hs. destruct (B5 s) as (old & raw & se & H1 & H2 & H3 & H4 & H5); [by apply Hv|].
  cbn [sit_in_force Z.min Z.to_nat] in H2. change (Z.to_nat (Z.min 0 SIT_JOURNAL_ENTRIES)) with 0%nat in H2.
  cbn [sit_in_force] in H2. apply Ok_inj in H2 as <-.
  destruct (Hall s Hs) as ((raw' & Hd' & _ & [E1 E2 E3]) & _). change (disk_sit st s = Ok old) in H1.
  rewrite H1 in Hd'. apply Ok_inj in Hd' as <-. exists se. split; [done|]. split; [by apply (loaded_ok need old), H5|].
  destruct H4 as [[F1 F2 F3] _ _]. rewrite E2 in F2. apply Ok_inj in F2. rewrite E1 in F1. apply Ok_inj in F1.
  rewrite E3 in F3. apply Ok_inj in F3. done.
Qed.

(** C11: Building the segment cache at mount always returns: every segment gets the
    entry in force, the last valid one of the journal or else that of the current
    copy of its table block. If no defect was reported, the cache satisfies the
    invariant that block allocation relies on: every count is the number of
    blocks in the map. *)
Theorem build_sit_entries_establishes (st : seg_state) (need bug fix_on : bool) :
  sit_ok st need -> cfg_ok (sg st) need (Z.of_nat (length (sg_sentries st))) ->
  exists c count st' bug' fix',
    rd (sg_cursegs st) CURSEG_COLD_DATA = Ok c /\ sits_in_cursum (cs_sum_blk c) = Ok count /\
    build_sit_entries st bug fix_on = Ok (st', bug', fix') /\ sg_disk st' = sg_disk st /\
    (forall s, valid_segno st s -> exists old raw se,
       disk_sit st s = Ok old /\
       sit_in_force (Z.to_nat (Z.min count SIT_JOURNAL_ENTRIES)) (Z.of_nat (length (sg_sentries st)))
         (cs_sum_blk c) 0 s old = Ok raw /\
       sg_sentries st' !! Z.to_nat s = Some se /\ is_loaded need raw se) /\
    (bug' = false -> seg_inv st' need).
Proof.
  intros Hok Hcfg. destruct (build_sit_entries_spec st need bug fix_on Hok) as (c & count & st' & bug' & fix' & Hc & Hn & Hb & B).
  exists c, count, st', bug', fix'. destruct B as [B1 B2 B3 B4 B5 B6]. repeat (split; [done|]). split.
  - intros s Hs. destruct (B5 s Hs) as (old & raw & se & H1 & H2 & H3 & H4 & _). by exists old, raw, se.
  - intros E. constructor; [by rewrite B2, B4| |exact (proj1 (to_cursegs _ _ B1))]. apply Forall_lookup_2.
    intros i se Hse. destruct (B5 (Z.of_nat i)) as (old & raw & se' & _ & _ & H3 & H4 & H5).
    { unfold valid_segno. apply lookup_lt_Some in Hse. lia. }
    rewrite Nat2Z.id, Hse in H3. injection H3 as <-. by apply (loaded_ok need raw), H5.
Qed.

(** C10: What [flush_sit_entries] writes is what the next mount reads: with the
    journal emptied and the clean entries in step with the table, flushing
    returns, and building the cache again, whatever it held before, reports no
    defect and gives every segment the map, the count and the type it had. *)
Theorem sit_flush_mount_roundtrip (st : seg_state) (need : bool) (c : curseg_info) :
  sit_ok st need -> Forall (entry_writable need) (sg_sentries st) ->
  rd (sg_cursegs st) CURSEG_COLD_DATA = Ok c -> sits_in_cursum (cs_sum_blk c) = Ok 0 ->
  (forall s se, 0 <= s -> sg_sentries st !! Z.to_nat s = Some se -> se_dirty se = false ->
     table_holds st s (se_cur_map se) (se_type se) (se_valid_blocks se)) ->
  exists st1, flush_sit_entries st = Ok st1 /\
    forall fresh fix_on, length fresh = length (sg_sentries st) ->
    exists st2 fix', build_sit_entries (with_sentries st1 fresh) false fix_on = Ok (st2, false, fix') /\
      forall s se, 0 <= s -> sg_sentries st !! Z.to_nat s = Some se ->
        exists se2, sg_sentries st2 !! Z.to_nat s = Some se2 /\ se_ok need se2 /\
          se_cur_map se2 = se_cur_map se /\ se_valid_blocks se2 = se_valid_blocks se /\ se_type se2 = se_type se.
Proof.
  intros Hok Hw Hc Hn Hclean. unfold flush_sit_entries, TOTAL_SEGS. rewrite (to_segs _ _ Hok), Nat2Z.id.
  destruct (flush_sit_loop_spec need (length (sg_sentries st)) st 0 Hok Hw) as (d & Hf & Hok1 & Hd); [lia|lia|].
  exists (with_seg_disk st d). split; [done|]. intros fresh fix_on Hlen.
  set (e := fun s => default (sample_entry 0) (sg_sentries st !! Z.to_nat s)).
  assert (forall s, valid_segno st s -> sg_sentries st !! Z.to_nat s = Some (e s)) as He.
  { intros s Hs. unfold valid_segno in Hs. destruct (lookup_lt_is_Some_2 (sg_sentries st) (Z.to_nat s)) as [x Hx]; [lia|].
    unfold e. by rewrite Hx. }
  destruct (remount_spec (with_seg_disk st d) need c fresh fix_on (fun s => se_cur_map (e s)) (fun s => se_type (e s)))
    as (st2 & fix' & Hb & _ & _ & _ & H2); [done|done|done|done| |].
  - intros s Hs. specialize (He s Hs). pose proof (Forall_lookup_1 _ _ _ _ Hw He) as [Hse Hty].
    pose proof (writable_fits need (e s) (conj Hse Hty)) as [_ _ Hcnt]. rewrite <- (so_count _ _ Hse).
    unfold valid_segno in Hs. cbn [sg_sentries with_seg_disk] in Hs. specialize (Hd s (e s) ltac:(lia) He).
    rewrite bool_decide_eq_true_2 in Hd by lia. cbn [andb] in Hd. split; [|split; [|lia]].
    + destruct (se_dirty (e s)) eqn:Edirty; [exact Hd|]. destruct (Hclean s (e s)) as (raw & Hr & Hh); [lia|done|done|].
      exists raw. split; [by rewrite Hd|done].
    + rewrite (so_count _ _ Hse). destruct (so_cur _ _ Hse) as [Hl Hby]. pose proof (popcount_bounds _ Hby) as Hp.
      unfold nbits in Hp. lia.
  - exists st2, fix'. split; [exact Hb|]. intros s se Hs Hse.
    assert (valid_segno st s) as Hv by (unfold valid_segno; apply lookup_lt_Some in Hse; lia).
    destruct (H2 s Hv) as (se2 & A & B & C & D & E). specialize (He s Hv). rewrite Hse in He. injection He as He.
    rewrite <- He in C, D, E. exists se2. split; [done|]. split; [done|]. split; [done|]. split; [|done].
    rewrite D. symmetry. apply (so_count need). by apply (Forall_lookup_1 _ _ _ _ Hw Hse).
Qed.

Lemma main_map_bit st s off : 0 <= s -> 0 <= off < 512 ->
  bit_be (main_map st s) off = bit_be (sg_main_bitmap st) (512 * s + off).
Proof.
  intros Hs Ho. unfold bit_be, bit_at, pos_be, main_map. rewrite !shiftr3_div, !land7_mod.
  replace ((512 * s + off) / 8) with (64 * s + off / 8) by (Z.to_euclidean_division_equations; lia).
  replace ((512 * s + off) mod 8) with (off mod 8) by (Z.to_euclidean_division_equations; lia).
  assert (0 <= off / 8 < 64) by (Z.to_euclidean_division_equations; lia).
  rewrite lookup_take_lt by lia. rewrite lookup_drop. by rewrite Z2Nat.inj_add by lia.
Qed.

(** C6: After fsck has rewritten the segment table from its bitmap of reachable
    blocks, the next mount sees exactly those blocks: the rewrite returns, building
    the cache from the table reports no defect, the cache satisfies the allocation
    invariant, and a block of the main area is used if and only if its bit is set
    in the bitmap of fsck. *)
Theorem sit_rewrite_mount (st : seg_state) (need bug : bool) :
  sit_ok st need -> cfg_ok (sg st) need (Z.of_nat (length (sg_sentries st))) ->
  Forall (fun se => 0 <= se_type se) (sg_sentries st) ->
  bytes (sg_main_bitmap st) -> (64 * length (sg_sentries st) <= length (sg_main_bitmap st))%nat ->
  exists st1 bug1, rewrite_sit_area_bitmap st bug = Ok (st1, bug1) /\
    forall fresh fix_on, length fresh = length (sg_sentries st) ->
    exists st2 fix', build_sit_entries (with_sentries st1 fresh) false fix_on = Ok (st2, false, fix') /\
      seg_inv st2 need /\
      forall blk, g_main_blkaddr (sg st) <= blk < g_main_blkaddr (sg st) + 512 * g_main_segments (sg st) ->
        block_used st2 blk = bit_be (sg_main_bitmap st) (blk - g_main_blkaddr (sg st)).
Proof.
  intros Hok Hcfg Ht Hmb Hml. unfold rewrite_sit_area_bitmap. destruct (to_cursegs _ _ Hok) as [Hl6 _].
  destruct (rd_total (sg_cursegs st) CURSEG_COLD_DATA) as [c Hc]; [rewrite Hl6; unfold CURSEG_COLD_DATA; lia|].
  rewrite Hc. cbn [mbind res_bind].
  destruct (set_journal_count st need c 0 Hok Hc) as (sum & st0 & Hset & Hst & Hok0 & E0 & Hc0 & Hn0 & _); [lia|].
  rewrite Hset. cbn [mbind res_bind]. rewrite Hst. cbn [mbind res_bind]. unfold TOTAL_SEGS.
  rewrite (to_segs _ _ Hok0), Nat2Z.id. rewrite E0. rewrite E0 in Hok0, Hc0.
  destruct (rewrite_loop_spec need (length (sg_sentries st)) (with_cursegs st (sg_cursegs st0)) bug 0 Hok0 Ht Hmb Hml)
    as (ses & d & bug1 & Hrw & Hok1 & Hlen1 & H1); [lia|cbn; lia|]. cbn [sg_sentries with_cursegs] in Hrw, Hlen1 |- *.
  eexists _, bug1. split; [exact Hrw|]. intros fresh fix_on Hlen.
  set (st1 := with_seg_disk _ _) in *.
  assert (forall s, valid_segno st1 s -> exists se, sg_sentries st !! Z.to_nat s = Some se /\
    rewritten (with_cursegs st (sg_cursegs st0)) st1 s se) as Hre.
  { intros s Hs. unfold valid_segno in Hs. cbn [st1 sg_sentries with_seg_disk with_sentries] in Hs.
    destruct (lookup_lt_is_Some_2 (sg_sentries st) (Z.to_nat s)) as [se Hse]; [lia|]. exists se. split; [done|].
    specialize (H1 s se ltac:(lia) Hse). by rewrite bool_decide_eq_true_2 in H1 by lia. }
  set (ty := fun s => written_type (default (sample_entry 0) (sg_sentries st !! Z.to_nat s))).
  destruct (remount_spec st1 need (set_sum_blk c sum) fresh fix_on (main_map st) ty)
    as (st2 & fix' & Hb & Hg2 & Hl2 & Hok2 & H2); [done|done|done|by rewrite Hlen| |].
  - intros s Hs. destruct (Hre s Hs) as (se & Hse & _ & Hth). unfold ty. rewrite Hse. cbn [default].
    unfold valid_segno in Hs. cbn [st1 sg_sentries with_seg_disk with_sentries] in Hs.
    destruct (main_map_spec st s Hmb) as (_ & _ & Hp & _ & _); [lia|lia|].
    split; [exact Hth|]. split; [lia|]. unfold written_type, NO_CHECK_TYPE. cbn [default from_option id].
    destruct (Z.leb_spec 6 (se_type se)); lia.
  - exists st2, fix'. split; [exact Hb|]. cbn [st1 sg_sentries with_seg_disk with_sentries] in Hl2.
    assert (sg st2 = sg st) as Hg by (by rewrite Hg2). split.
    + constructor; [rewrite Hg, Hl2, Hlen1; done| |exact (proj1 (to_cursegs _ _ Hok2))]. apply Forall_lookup_2.
      intros i se Hse. destruct (H2 (Z.of_nat i)) as (se' & A & B & _).
      { unfold valid_segno. cbn [st1 sg_sentries with_seg_disk with_sentries]. apply lookup_lt_Some in Hse. lia. }
      rewrite Nat2Z.id, Hse in A. by injection A as <-.
    + intros blk Hblk. rewrite (to_segs _ _ Hok) in Hblk. destruct (main_block (sg st) _ blk Hblk) as (Hi & Ho & Heq).
      unfold block_used. rewrite Hg. destruct (H2 (seg_index (sg st) blk)) as (se & -> & _ & -> & _);
        [unfold valid_segno; cbn [st1 sg_sentries with_seg_disk with_sentries]; lia|].
      rewrite main_map_bit by lia. f_equal. lia.
Qed.

(** * Instances *)

Lemma sample_sit_ok area : sit_ok (with_area_maps sample_seg_state area []) true.
Proof.
  constructor.
  - reflexivity.
  - vm_compute. reflexivity.
  - reflexivity.
  - split; [vm_compute; discriminate|reflexivity].
  - cbn [sample_seg_state with_area_maps sg sg_sentries g_sit_base_addr g_sit_blocks]. rewrite length_fmap, length_seq. lia.
  - split; [apply bytes_forallb; vm_compute; reflexivity|vm_compute; discriminate].
  - intros a Ha. apply zero_disk_block. cbn in Ha. lia.
  - exact (bo_cursegs _ sample_books_ok).
Qed.

Lemma sample_table s area : valid_segno sample_seg_state s ->
  table_holds (with_area_maps sample_seg_state area []) s (replicate 64 0) 0 0.
Proof.
  intros Hs. assert (raw_holds (replicate 74 0) (replicate 64 0) 0 0) as Hh by (constructor; vm_compute; reflexivity).
  exists (replicate 74 0). split; [|split; [|done]].
  - unfold valid_segno in Hs. cbn [sample_seg_state sg_sentries] in Hs. rewrite length_fmap, length_seq in Hs.
    unfold disk_sit, disk_read_or_die, disk_read. cbn [with_area_maps sg_disk sample_seg_state sg].
    rewrite zero_disk_lookup.
    + cbn [mbind res_bind]. unfold sit_block_entry, ofs_sit_entry, SIT_ENTRY_OFFSET, SIZE_OF_SIT_ENTRY, zero_block.
      change SIT_ENTRY_PER_BLOCK with 55. assert (0 <= s mod 55 < 55) by (apply Z.mod_pos_bound; lia).
      rewrite rd_bytes_Ok by (rewrite ?length_replicate; lia). rewrite drop_replicate, take_replicate.
      by replace (Nat.min _ _) with 74%nat by lia.
    + unfold sit_addr. cbn [g_sit_base_addr g_sit_bitmap g_sit_blocks]. destruct (bit_be _ _); Z.to_euclidean_division_equations; lia.
  - split; [done|]. apply bytes_forallb. vm_compute. reflexivity.
Qed.

Definition flags_of {A} (r : res (A * bool * bool)) : option (bool * bool) :=
  match r with Ok (_, a, b) => Some (a, b) | _ => None end.

Lemma build_sit_entries_establishes_witness : exists st',
  build_sit_entries (with_area_maps sample_seg_state [] []) false false = Ok (st', false, false) /\ seg_inv st' true.
Proof.
  destruct (build_sit_entries_establishes (with_area_maps sample_seg_state [] []) true false false
    (sample_sit_ok []) (si_cfg _ _ sample_seg_inv)) as (c & n & st' & b & f & _ & _ & Hb & _ & _ & Hi).
  assert (flags_of (build_sit_entries (with_area_maps sample_seg_state [] []) false false) = Some (false, false)) as Hf
    by (vm_compute; reflexivity).
  rewrite Hb in Hf. injection Hf as -> ->. exists st'. split; [exact Hb|]. exact (Hi eq_refl).
Defined.

Lemma sit_flush_mount_roundtrip_witness : exists st1 st2 fix' se2,
  flush_sit_entries (with_area_maps sample_seg_state [] []) = Ok st1 /\
  build_sit_entries (with_sentries st1 (sg_sentries sample_seg_state)) false false = Ok (st2, false, fix') /\
  sg_sentries st2 !! 6%nat = Some se2 /\ se_valid_blocks se2 = 8.
Proof.
  destruct (sit_flush_mount_roundtrip (with_area_maps sample_seg_state [] []) true
    {| cs_sum_blk := zero_block; cs_alloc_type := 0; cs_segno := 2; cs_next_blkoff := 0 |} (sample_sit_ok []))
    as (st1 & Hf & Hb).
  - cbn [with_area_maps sample_seg_state sg_sentries]. apply Forall_fmap, Forall_true. intros i.
    split; [apply sample_entry_ok|]. cbn. unfold NO_CHECK_TYPE. lia.
  - reflexivity.
  - vm_compute. reflexivity.
  - intros s se Hs Hse Hd. cbn [with_area_maps sample_seg_state sg_sentries] in Hse. apply list_lookup_fmap_Some in Hse as (i & -> & Hi).
    apply lookup_seq in Hi as [-> Hi]. assert (valid_segno sample_seg_state s) as Hv
      by (unfold valid_segno; cbn [sample_seg_state sg_sentries]; rewrite length_fmap, length_seq; lia).
    unfold sample_entry in Hd |- *. cbn [se_dirty se_cur_map se_type se_valid_blocks] in Hd |- *. unfold sample_map. rewrite Hd.
    by apply sample_table.
  - destruct (Hb (sg_sentries sample_seg_state) false eq_refl) as (st2 & fix' & Hbuild & He).
    destruct (He 6 (sample_entry 6)) as (se2 & H1 & _ & _ & H2 & _); [lia|reflexivity|].
    exists st1, st2, fix', se2. split; [exact Hf|]. split; [exact Hbuild|]. split; [exact H1|exact H2].
Defined.

Lemma sit_rewrite_mount_witness : exists st1 bug1 st2 fix',
  rewrite_sit_area_bitmap (with_area_maps sample_seg_state (128 :: replicate 1535 0) []) false = Ok (st1, bug1) /\
  build_sit_entries (with_sentries st1 (sg_sentries sample_seg_state)) false false = Ok (st2, false, fix') /\
  block_used st2 4096 = true /\ block_used st2 4097 = false.
Proof.
  destruct (sit_rewrite_mount (with_area_maps sample_seg_state (128 :: replicate 1535 0) []) true false
    (sample_sit_ok _) (si_cfg _ _ sample_seg_inv)) as (st1 & bug1 & Hr & Hb).
  - cbn [with_area_maps sample_seg_state sg_sentries]. apply Forall_fmap, Forall_true. intros i. cbn. lia.
  - apply bytes_forallb. vm_compute. reflexivity.
  - vm_compute. lia.
  - destruct (Hb (sg_sentries sample_seg_state) false eq_refl) as (st2 & fix' & Hbuild & _ & Hu).
    exists st1, bug1, st2, fix'. split; [exact Hr|]. split; [exact Hbuild|].
    split; (rewrite Hu; [vm_compute; reflexivity|cbn; lia]).
Defined.
