(* ===== verification/Fsck.v ===== *)
(** Checks of fsck/fsck.c that keep their own small state: the list of files with
    several links, the comparison of an inode's extent with its blocks, and the
    position of a directory entry in the hash table of its directory. *)
From Stdlib Require Import ZArith Lia List Bool Sorting.Sorted.
From stdpp Require Import base numbers list gmap.
From S2P Require Import Prelude Bits Crc Node Dir Superblock Checkpoint Nat Segment.

(** * Files with several links *)

Record hard_link_node := { hl_nid : Z; hl_links : Z; hl_actual_links : Z }.

(** The loop that looks for the place of the new node, and the insertion there. *)
Fixpoint insert_hard_link (tmp : list hard_link_node) (node : hard_link_node) : res (list hard_link_node) :=
  match tmp with
  | [] => Ok [node]
  | t :: rest =>
      if hl_nid node <? hl_nid t then
        _ ← assert_ (negb (hl_nid t =? hl_nid node));
        rest ← insert_hard_link rest node; Ok (t :: rest)
      else Ok (node :: t :: rest)
  end.
Definition add_into_hard_link_list (head : list hard_link_node) (nid link_cnt : Z) : res (list hard_link_node) :=
  insert_hard_link head {| hl_nid := nid; hl_links := link_cnt; hl_actual_links := 1 |}.

(** [-EINVAL] is [None]. A node whose count reaches one is removed. *)
Fixpoint find_and_dec_hard_link_list (node : list hard_link_node) (nid : Z) : option (list hard_link_node) :=
  match node with
  | [] => None
  | n :: rest =>
      if nid <? hl_nid n then rest ← find_and_dec_hard_link_list rest nid; Some (n :: rest)
      else if negb (nid =? hl_nid n) then None
      else
        let n := {| hl_nid := hl_nid n; hl_links := u32 (hl_links n - 1);
                    hl_actual_links := u32 (hl_actual_links n + 1) |} in
        if hl_links n =? 1 then Some rest else Some (n :: rest)
  end.

(** The list, the files found so far (the bits of their inode blocks in the main
    area), [chk.multi_hard_link_files] and the link counts in the inodes. *)
Record hl_state := {
  hs_head : list hard_link_node;
  hs_found : gset Z;
  hs_multi : Z;
  hs_i_links : gmap Z Z;
}.

(** [fsck_chk_inode_blk] reached through an entry for a file that is neither an
    orphan nor a quota file; the flag says that the tree below the inode is
    checked too. *)
Definition chk_file_links (fix_on : bool) (st : hl_state) (nid : Z) : res (hl_state * bool) :=
  let i_links := default 0 (hs_i_links st !! nid) in
  if bool_decide (nid ∈ hs_found st) then
    match find_and_dec_hard_link_list (hs_head st) nid with
    | Some head => Ok ({| hs_head := head; hs_found := hs_found st; hs_multi := hs_multi st; hs_i_links := hs_i_links st |}, false)
    | None =>
        Ok ({| hs_head := hs_head st; hs_found := hs_found st; hs_multi := hs_multi st;
               hs_i_links := if fix_on then <[nid := u32 (i_links + 1)]> (hs_i_links st) else hs_i_links st |}, false)
    end
  else
    head ← (if 1 <? i_links then add_into_hard_link_list (hs_head st) nid i_links else Ok (hs_head st));
    Ok ({| hs_head := head; hs_found := {[nid]} ∪ hs_found st;
           hs_multi := if 1 <? i_links then u32 (hs_multi st + 1) else hs_multi st; hs_i_links := hs_i_links st |}, true).

Fixpoint chk_files_links (fix_on : bool) (st : hl_state) (nids : list Z) : res hl_state :=
  match nids with
  | [] => Ok st
  | nid :: nids => '(st, _) ← chk_file_links fix_on st nid; chk_files_links fix_on st nids
  end.

(** [fix_hard_links]: the counts written to the inodes that are left. *)
Fixpoint fix_hard_links_loop (node : list hard_link_node) (i_links : gmap Z Z) : gmap Z Z :=
  match node with
  | [] => i_links
  | n :: rest => fix_hard_links_loop rest (<[hl_nid n := hl_actual_links n]> i_links)
  end.

(** The inode block that [fix_hard_links] hands to [dev_write_block]. *)
Definition fix_inode_links (node_blk : list Z) (actual_links : Z) : res (list Z) :=
  set_le32 node_blk ofs_i_links actual_links.

(** [write_inode] of lib/libf2fs.c, which the other writers of inodes use; the flag
    is the feature [F2FS_FEATURE_INODE_CHKSUM]. *)
Definition write_inode (chksum_feature : bool) (chksum_seed : Z) (d : disk) (inode : list Z) (blkaddr : Z)
    : res (disk * list Z) :=
  inode ← (if chksum_feature then c ← f2fs_inode_chksum chksum_seed inode; set_le32 inode ofs_i_inode_checksum c
           else Ok inode);
  d ← disk_write_or_die d blkaddr inode;
  Ok (d, inode).

(** * Extents *)

Record extent_info := { ei_fofs : Z; ei_blk : Z; ei_len : Z }.
Definition FSCK_UNMATCHED_EXTENT : Z := 1.
Definition FSCK_INLINE_INODE : Z := 2.

(** The members of [struct child_info] that the check uses. *)
Record child_ext := { ce_state : Z; ce_pgofs : Z; ce_ei : extent_info; ce_last_blk : Z }.

Definition ce_unmatched (c : child_ext) : child_ext := {|
  ce_state := Z.lor (ce_state c) FSCK_UNMATCHED_EXTENT; ce_pgofs := ce_pgofs c; ce_ei := ce_ei c;
  ce_last_blk := ce_last_blk c |}.
Definition set_last_blk (c : child_ext) (b : Z) : child_ext := {|
  ce_state := ce_state c; ce_pgofs := ce_pgofs c; ce_ei := ce_ei c; ce_last_blk := b |}.

Definition check_extent_info (child : child_ext) (blkaddr : Z) (last : bool) : child_ext :=
  let ei := ce_ei child in
  let pgofs := ce_pgofs child in
  if ei_len ei =? 0 then child
  else if negb (Z.land (ce_state child) FSCK_UNMATCHED_EXTENT =? 0) then child
  else if negb (Z.land (ce_state child) FSCK_INLINE_INODE =? 0) then ce_unmatched child
  else if last then
    if negb (ce_last_blk child =? u32 (ei_blk ei + ei_len ei - 1)) then ce_unmatched child else child
  else
    let is_hole := (blkaddr =? NULL_ADDR) || (blkaddr =? NEW_ADDR) in
    if (ei_fofs ei <=? pgofs) && (pgofs <? u32 (ei_fofs ei + ei_len ei)) then
      if is_hole || negb (blkaddr =? u32 (pgofs - ei_fofs ei + ei_blk ei)) then ce_unmatched child
      else if ce_last_blk child =? 0 then
        if negb (pgofs =? ei_fofs ei) then ce_unmatched child else set_last_blk child blkaddr
      else if negb (u32 (ce_last_blk child + 1) =? blkaddr) then ce_unmatched child
      else set_last_blk child blkaddr
    else if is_hole then child
    else if (blkaddr <? ei_blk ei) || (u32 (ei_blk ei + ei_len ei) <=? blkaddr) then child
    else ce_unmatched child.

(** The caller walks over the blocks of the file in the order of their offsets,
    leaving out those below missing node blocks, and closes with [last]. *)
Definition set_pgofs (c : child_ext) (pgofs : Z) : child_ext := {|
  ce_state := ce_state c; ce_pgofs := pgofs; ce_ei := ce_ei c; ce_last_blk := ce_last_blk c |}.
Fixpoint check_extent_walk (child : child_ext) (blks : list (Z * Z)) : child_ext :=
  match blks with
  | [] => check_extent_info child 0 true
  | (pgofs, blkaddr) :: rest => check_extent_walk (check_extent_info (set_pgofs child pgofs) blkaddr false) rest
  end.

(** * Position of an entry *)

Fixpoint get_current_level_loop (n : nat) (dir_level pgofs i bidx : Z) : Z :=
  match n with
  | O => i
  | S n =>
      let bidx := u32 (bidx + u32 (dir_buckets i dir_level * bucket_blocks i)) in
      if pgofs <? bidx then i else get_current_level_loop n dir_level pgofs (i + 1) bidx
  end.
Definition __get_current_level (dir_level pgofs : Z) : Z :=
  get_current_level_loop (Z.to_nat MAX_DIR_HASH_DEPTH) dir_level pgofs 0 0.

Definition f2fs_check_dirent_position (hash_code pgofs dir_level : Z) : Z :=
  let level := __get_current_level dir_level pgofs in
  let nbucket := dir_buckets level dir_level in
  let nblock := bucket_blocks level in
  let bidx := u32 (dir_block_index level dir_level (hash_code mod nbucket)) in
  let end_block := u32 (bidx + nblock) in
  if (bidx <=? pgofs) && (pgofs <? end_block) then 0 else 1.

(** * The list as a finite map *)

Definition hl_desc (a b : hard_link_node) : Prop := hl_nid b < hl_nid a.

Fixpoint hl_lookup (l : list hard_link_node) (nid : Z) : option (Z * Z) :=
  match l with
  | [] => None
  | n :: l => if hl_nid n =? nid then Some (hl_links n, hl_actual_links n) else hl_lookup l nid
  end.

Lemma hl_lookup_below l nid : Forall (fun n => hl_nid n < nid) l -> hl_lookup l nid = None.
Proof.
  induction 1 as [|n l Hn _ IH]; cbn [hl_lookup]; [done|]. destruct (Z.eqb_spec (hl_nid n) nid); [lia|done].
Qed.

Lemma hl_desc_below n l nid : StronglySorted hl_desc (n :: l) -> hl_nid n <= nid -> hl_lookup l nid = None.
Proof.
  intros Hs Hn. apply StronglySorted_inv in Hs as [_ Hs]. apply hl_lookup_below. eapply Forall_impl; [exact Hs|].
  unfold hl_desc. intros a Ha. lia.
Qed.

Lemma insert_hard_link_spec l node : StronglySorted hl_desc l -> hl_lookup l (hl_nid node) = None ->
  exists l', insert_hard_link l node = Ok l' /\ StronglySorted hl_desc l' /\
    (forall P : hard_link_node -> Prop, P node -> Forall P l -> Forall P l') /\
    forall k, hl_lookup l' k = if k =? hl_nid node then Some (hl_links node, hl_actual_links node) else hl_lookup l k.
Proof.
  induction l as [|t l IH]; intros Hs Hn; cbn [insert_hard_link].
  { exists [node]. split; [done|]. split; [repeat constructor|]. split; [by constructor|]. intros k. cbn [hl_lookup].
    by rewrite Z.eqb_sym. }
  pose proof (StronglySorted_inv Hs) as [Hs' Ht]. cbn [hl_lookup] in Hn.
  destruct (Z.eqb_spec (hl_nid t) (hl_nid node)) as [|Hne]; [done|].
  destruct (Z.ltb_spec (hl_nid node) (hl_nid t)) as [Hlt|Hge].
  - destruct (Z.eqb_spec (hl_nid t) (hl_nid node)); [lia|]. cbn [negb assert_ mbind res_bind].
    destruct (IH Hs' Hn) as (l' & -> & Hsl & HP & Hl). cbn [mbind res_bind]. exists (t :: l'). split; [done|].
    split; [constructor; [done|by apply (HP (hl_desc t))]|].
    split; [intros P Hp Hf; inversion Hf; constructor; [done|by apply HP]|].
    intros k. cbn [hl_lookup]. rewrite Hl. destruct (Z.eqb_spec (hl_nid t) k), (Z.eqb_spec k (hl_nid node)); congruence || done.
  - exists (node :: t :: l). split; [done|]. split; [constructor; [done|]|split; [by constructor|]].
    + constructor; [unfold hl_desc; lia|]. eapply Forall_impl; [exact Ht|]. unfold hl_desc. intros a Ha. lia.
    + intros k. cbn [hl_lookup]. rewrite (Z.eqb_sym k). done.
Qed.

(** What a node becomes when one more entry for the file is found. *)
Definition hl_dec (v : Z * Z) : option (Z * Z) :=
  if u32 (v.1 - 1) =? 1 then None else Some (u32 (v.1 - 1), u32 (v.2 + 1)).

Lemma find_and_dec_spec l nid : StronglySorted hl_desc l ->
  match hl_lookup l nid with
  | None => find_and_dec_hard_link_list l nid = None
  | Some v => exists l', find_and_dec_hard_link_list l nid = Some l' /\ StronglySorted hl_desc l' /\
      (forall m, Forall (hl_desc m) l -> Forall (hl_desc m) l') /\
      forall k, hl_lookup l' k = if k =? nid then hl_dec v else hl_lookup l k
  end.
Proof.
  induction l as [|n l IH]; intros Hs; cbn [hl_lookup find_and_dec_hard_link_list]; [done|].
  pose proof (StronglySorted_inv Hs) as [Hs' Hn]. specialize (IH Hs').
  destruct (Z.eqb_spec (hl_nid n) nid) as [E|Hne].
  - subst nid. rewrite Z.ltb_irrefl, Z.eqb_refl. cbn [negb hl_links]. unfold hl_dec. cbn [fst snd].
    pose proof (hl_desc_below n l (hl_nid n) Hs ltac:(lia)) as Hnone.
    destruct (u32 (hl_links n - 1) =? 1); eexists; (split; [reflexivity|]).
    + split; [done|]. split; [intros m Hm; by inversion Hm|]. intros k.
      rewrite (Z.eqb_sym (hl_nid n)). destruct (Z.eqb_spec k (hl_nid n)) as [->|]; done.
    + split; [by constructor|]. split; [intros m Hm; inversion Hm; by constructor|]. intros k. cbn [hl_lookup hl_nid hl_links hl_actual_links].
      rewrite (Z.eqb_sym (hl_nid n)). by destruct (Z.eqb_spec k (hl_nid n)).
  - destruct (Z.ltb_spec nid (hl_nid n)) as [Hlt|Hge].
    + destruct (hl_lookup l nid) as [v|]; [|by rewrite IH].
      destruct IH as (l' & -> & Hsl & HP & Hl). cbn [mbind option_bind]. exists (n :: l'). split; [done|].
      split; [constructor; [done|by apply HP]|]. split; [intros m Hm; inversion Hm; constructor; [done|by apply HP]|].
      intros k. cbn [hl_lookup]. rewrite Hl. destruct (Z.eqb_spec (hl_nid n) k), (Z.eqb_spec k nid); congruence || done.
    + rewrite (hl_desc_below n l nid Hs) by lia. destruct (Z.eqb_spec nid (hl_nid n)); [lia|done].
Qed.

(** * Counting links *)

(** How often [nid] is in the list of entries found. *)
Definition entries_for (nids : list Z) (nid : Z) : Z := Z.of_nat (count_occ Z.eq_dec nids nid).

(** The state for a file with [L] links in its inode and [c] entries found. *)
Definition file_state (st : hl_state) (nid L c : Z) : Prop :=
  if c <? L then hl_lookup (hs_head st) nid = Some (L - c + 1, c) /\ hs_i_links st !! nid = Some L
  else hl_lookup (hs_head st) nid = None /\ hs_i_links st !! nid = Some c.

Record links_inv (i_links : gmap Z Z) (st : hl_state) (c : Z -> Z) : Prop := {
  lk_sorted : StronglySorted hl_desc (hs_head st);
  lk_found : forall nid, nid ∈ hs_found st <-> 0 < c nid;
  lk_none : forall nid, c nid = 0 -> hl_lookup (hs_head st) nid = None /\ hs_i_links st !! nid = i_links !! nid;
  lk_files : forall nid, 0 < c nid -> exists L, i_links !! nid = Some L /\ 1 <= L < 2 ^ 32 /\ file_state st nid L (c nid);
}.

Definition count_one (c : Z -> Z) (nid k : Z) : Z := c k + (if k =? nid then 1 else 0).

(** One more entry for [nid]: only the state of that file changes. *)
Lemma links_inv_step i_links st c nid L head multi ils :
  links_inv i_links st c -> 0 <= c nid -> i_links !! nid = Some L -> 1 <= L < 2 ^ 32 ->
  StronglySorted hl_desc head -> (forall k, k <> nid -> hl_lookup head k = hl_lookup (hs_head st) k) ->
  (forall k, k <> nid -> ils !! k = hs_i_links st !! k) ->
  let st' := {| hs_head := head; hs_found := {[nid]} ∪ hs_found st; hs_multi := multi; hs_i_links := ils |} in
  file_state st' nid L (c nid + 1) -> links_inv i_links st' (count_one c nid).
Proof.
  intros [I1 I2 I3 I4] Hc HL HLr Hs Hh Hi st' Hf. constructor; cbn [hs_head hs_found hs_i_links st'].
  - done.
  - intros k. unfold count_one. rewrite elem_of_union, elem_of_singleton, I2.
    destruct (Z.eqb_spec k nid) as [->|Hne]; split; [lia|by left|intros [?|?]; [done|lia]|right; lia].
  - intros k. unfold count_one. destruct (Z.eqb_spec k nid) as [->|]; [lia|]. rewrite Z.add_0_r. intros Hk.
    rewrite Hh, Hi by done. by apply I3.
  - intros k. unfold count_one. destruct (Z.eqb_spec k nid) as [->|Hne].
    + intros _. exists L. done.
    + rewrite Z.add_0_r. intros Hk. destruct (I4 k Hk) as (L' & H1 & H2 & H3). exists L'. split; [done|]. split; [done|].
      unfold file_state in *. cbn [hs_head hs_i_links st']. by rewrite Hh, Hi by done.
Qed.

Lemma chk_file_links_spec i_links st c nid L :
  links_inv i_links st c -> 0 <= c nid < 2 ^ 32 - 1 -> i_links !! nid = Some L -> 1 <= L < 2 ^ 32 ->
  exists st' deep, chk_file_links true st nid = Ok (st', deep) /\ links_inv i_links st' (count_one c nid).
Proof.
  intros Hinv Hc HL HLr. pose proof Hinv as [I1 I2 I3 I4]. unfold chk_file_links. case_bool_decide as Hfound.
  - apply I2 in Hfound as Hpos. destruct (I4 nid Hpos) as (L' & HL' & _ & Hf). rewrite HL in HL'. injection HL' as <-.
    assert (hs_found st = {[nid]} ∪ hs_found st) as Hfs by set_solver.
    pose proof (find_and_dec_spec (hs_head st) nid I1) as Hdec. unfold file_state in Hf.
    destruct (Z.ltb_spec (c nid) L) as [Hlt|Hge]; destruct Hf as [Hlk Hil]; rewrite Hlk in Hdec.
    + destruct Hdec as (l' & -> & Hsl & _ & Hl). eexists _, _. split; [reflexivity|]. rewrite Hfs.
      apply (links_inv_step i_links st c nid L); try done; try lia.
      * intros k Hk. rewrite Hl. by destruct (Z.eqb_spec k nid).
      * unfold file_state. cbn [hs_head hs_i_links]. rewrite Hl, Z.eqb_refl. unfold hl_dec. cbn [fst snd].
        rewrite !u32_id by (unfold is_u32; lia).
        destruct (Z.ltb_spec (c nid + 1) L), (Z.eqb_spec (L - c nid + 1 - 1) 1); try lia;
          (split; [|rewrite Hil; f_equal; lia]); [f_equal; f_equal; lia|done].
    + rewrite Hdec. eexists _, _. split; [reflexivity|]. rewrite Hfs, Hil. cbn [default from_option id].
      rewrite u32_id by (unfold is_u32; lia). apply (links_inv_step i_links st c nid L); try done; try lia.
      * intros k Hk. by rewrite lookup_insert_ne.
      * unfold file_state. cbn [hs_head hs_i_links]. replace (c nid + 1 <? L) with false by lia.
        by rewrite lookup_insert_eq.
  - assert (c nid = 0) as H0 by (rewrite I2 in Hfound; lia). destruct (I3 nid H0) as [Hlk Hil].
    rewrite Hil, HL. cbn [default from_option id]. destruct (Z.ltb_spec 1 L) as [Hgt|Hle].
    + unfold add_into_hard_link_list.
      destruct (insert_hard_link_spec (hs_head st) {| hl_nid := nid; hl_links := L; hl_actual_links := 1 |} I1 Hlk)
        as (l' & -> & Hsl & _ & Hl). cbn [mbind res_bind]. eexists _, _. split; [reflexivity|].
      apply (links_inv_step i_links st c nid L); try done; try lia.
      * intros k Hk. rewrite Hl. cbn [hl_nid]. by destruct (Z.eqb_spec k nid).
      * unfold file_state. cbn [hs_head hs_i_links]. rewrite H0, Hl. cbn [hl_nid hl_links hl_actual_links].
        rewrite Z.eqb_refl. replace (0 + 1 <? L) with true by lia. rewrite Hil, HL. split; [f_equal; f_equal; lia|done].
    + cbn [mbind res_bind]. eexists _, _. split; [reflexivity|]. apply (links_inv_step i_links st c nid L); try done; try lia.
      unfold file_state. cbn [hs_head hs_i_links]. rewrite H0. replace (0 + 1 <? L) with false by lia.
      rewrite Hil, HL. split; [done|]. f_equal. lia.
Qed.

Lemma chk_files_links_spec i_links nids : forall st c,
  links_inv i_links st c -> (forall k, 0 <= c k /\ c k + Z.of_nat (length nids) < 2 ^ 32) ->
  Forall (fun nid => exists L, i_links !! nid = Some L /\ 1 <= L < 2 ^ 32) nids ->
  exists st', chk_files_links true st nids = Ok st' /\ links_inv i_links st' (fun k => c k + entries_for nids k).
Proof.
  induction nids as [|nid nids IH]; intros st c Hinv Hc Hall; cbn [chk_files_links].
  { exists st. split; [done|]. destruct Hinv as [H1 H2 H3 H4].
    constructor; try done; intros k; unfold entries_for; cbn [count_occ Z.of_nat]; rewrite Z.add_0_r; auto. }
  inversion Hall as [|? ? (L & HL & HLr) Hall']. subst. cbn [length] in Hc.
  destruct (chk_file_links_spec i_links st c nid L Hinv) as (st1 & deep & -> & Hinv1); [specialize (Hc nid); lia|done|done|].
  cbn [mbind res_bind]. destruct (IH st1 (count_one c nid) Hinv1) as (st' & Hr & Hinv').
  { intros k. specialize (Hc k). unfold count_one. destruct (k =? nid); lia. }
  { done. }
  exists st'. split; [done|].
  assert (forall k, count_one c nid k + entries_for nids k = c k + entries_for (nid :: nids) k) as Heq.
  { intros k. unfold count_one, entries_for. cbn [count_occ]. destruct (Z.eqb_spec k nid), (Z.eq_dec nid k); lia. }
  destruct Hinv' as [H1 H2 H3 H4]. constructor; try done; intros k; rewrite <- Heq; auto.
Qed.

Lemma fix_loop_lookup l m k : StronglySorted hl_desc l ->
  fix_hard_links_loop l m !! k = match hl_lookup l k with Some v => Some v.2 | None => m !! k end.
Proof.
  revert m. induction l as [|n l IH]; intros m Hs; cbn [fix_hard_links_loop hl_lookup]; [done|].
  pose proof (StronglySorted_inv Hs) as [Hs' _]. rewrite IH by done.
  destruct (Z.eqb_spec (hl_nid n) k) as [<-|Hne].
  - rewrite (hl_desc_below n l (hl_nid n) Hs) by lia. by rewrite lookup_insert_eq.
  - by rewrite lookup_insert_ne.
Qed.

(** C25: Link counts are repaired to what the directories say. Whatever counts (at
    least one) the inodes hold, after the entries of a volume have been visited
    in any order and the remaining list has been written back, the count of every
    file found is the number of entries for it, and no other count is changed. *)
Theorem hard_links_repaired (i_links : gmap Z Z) (nids : list Z) :
  Z.of_nat (length nids) < 2 ^ 32 ->
  Forall (fun nid => exists L, i_links !! nid = Some L /\ 1 <= L < 2 ^ 32) nids ->
  exists st, chk_files_links true {| hs_head := []; hs_found := ∅; hs_multi := 0; hs_i_links := i_links |} nids = Ok st /\
    forall nid, fix_hard_links_loop (hs_head st) (hs_i_links st) !! nid =
      if entries_for nids nid =? 0 then i_links !! nid else Some (entries_for nids nid).
Proof.
  intros Hlen Hall.
  destruct (chk_files_links_spec i_links nids {| hs_head := []; hs_found := ∅; hs_multi := 0; hs_i_links := i_links |} (fun _ => 0))
    as (st & Hr & [I1 I2 I3 I4]).
  - constructor; cbn [hs_head hs_found hs_i_links]; [constructor|intros; set_solver by lia|done|lia].
  - intros _. lia.
  - done.
  - exists st. split; [done|]. intros nid. rewrite (fix_loop_lookup _ _ _ I1).
    assert (0 <= entries_for nids nid) by (unfold entries_for; lia). destruct (Z.eqb_spec (entries_for nids nid) 0) as [H0|H0].
    + destruct (I3 nid) as [-> ->]; [lia|done].
    + destruct (I4 nid) as (L & _ & _ & Hf); [lia|]. rewrite Z.add_0_l in Hf. unfold file_state in Hf.
      destruct (entries_for nids nid <? L); destruct Hf as [-> Hi]; [done|exact Hi].
Qed.

Lemma hard_links_repaired_witness : exists st,
  chk_files_links true {| hs_head := []; hs_found := ∅; hs_multi := 0; hs_i_links := <[7 := 1]> (<[9 := 5]> ∅) |} [7; 9; 7; 9; 7] = Ok st /\
  fix_hard_links_loop (hs_head st) (hs_i_links st) !! 7 = Some 3 /\
  fix_hard_links_loop (hs_head st) (hs_i_links st) !! 9 = Some 2.
Proof.
  destruct (hard_links_repaired (<[7 := 1]> (<[9 := 5]> ∅)) [7; 9; 7; 9; 7]) as (st & Hr & Hf); [cbn; lia| |].
  - repeat constructor; eexists; (split; [reflexivity|lia]).
  - exists st. split; [exact Hr|]. rewrite !Hf. done.
Defined.

(** * Extents *)

Section Extent.
Context (ei : extent_info).
Hypothesis ei_range : 1 <= ei_blk ei /\ ei_blk ei + ei_len ei < 2 ^ 32 /\ 0 <= ei_fofs ei /\
  0 < ei_len ei /\ ei_fofs ei + ei_len ei < 2 ^ 32.

Definition in_ext (p : Z) : Prop := ei_fofs ei <= p < ei_fofs ei + ei_len ei.
Definition a_hole (b : Z) : Prop := b = NULL_ADDR \/ b = NEW_ADDR.

(** A block at offset [p] that does not contradict the extent. *)
Definition agrees (p b : Z) : Prop :=
  (in_ext p -> b = ei_blk ei + (p - ei_fofs ei)) /\
  (~ in_ext p -> ~ a_hole b -> ~ ei_blk ei <= b < ei_blk ei + ei_len ei).

Definition in_extb (p : Z) : bool := (ei_fofs ei <=? p) && (p <? ei_fofs ei + ei_len ei).
Definition agreesb (p b : Z) : bool :=
  if in_extb p then b =? ei_blk ei + (p - ei_fofs ei)
  else (b =? NULL_ADDR) || (b =? NEW_ADDR) || (b <? ei_blk ei) || (ei_blk ei + ei_len ei <=? b).

Lemma in_extb_spec p : reflect (in_ext p) (in_extb p).
Proof.
  apply iff_reflect. unfold in_extb, in_ext. by rewrite andb_true_iff, Z.leb_le, Z.ltb_lt.
Qed.

Lemma agreesb_spec p b : reflect (agrees p b) (agreesb p b).
Proof.
  apply iff_reflect. unfold agreesb, agrees, a_hole. destruct (in_extb_spec p).
  - rewrite Z.eqb_eq. tauto.
  - rewrite !orb_true_iff, !Z.eqb_eq, Z.ltb_lt, Z.leb_le.
    destruct (Z.eq_dec b NULL_ADDR), (Z.eq_dec b NEW_ADDR); intuition lia.
Qed.

(** The extent describes the walk, from the [n]-th block of the extent on. *)
Definition matches_from (n : Z) (blks : list (Z * Z)) : Prop :=
  (forall i, ei_fofs ei + n <= i < ei_fofs ei + ei_len ei -> (i, ei_blk ei + (i - ei_fofs ei)) ∈ blks) /\
  Forall (fun pb => agrees pb.1 pb.2) blks.

Definition walk_state (n pgofs : Z) : child_ext := {|
  ce_state := 0; ce_pgofs := pgofs; ce_ei := ei; ce_last_blk := if n =? 0 then 0 else ei_blk ei + n - 1 |}.

Definition unmatched (c : child_ext) : bool := negb (Z.land (ce_state c) FSCK_UNMATCHED_EXTENT =? 0).

Lemma unmatched_set c : ce_state c = 0 -> unmatched (ce_unmatched c) = true.
Proof. intros H. unfold unmatched, ce_unmatched. cbn [ce_state]. by rewrite H. Qed.

Lemma unmatched_sticky blks : forall c, unmatched c = true -> unmatched (check_extent_walk c blks) = true.
Proof.
  assert (forall c b last, unmatched c = true -> check_extent_info c b last = c) as Hkeep.
  { intros c b last Hc. unfold check_extent_info. unfold unmatched in Hc.
    destruct (ei_len (ce_ei c) =? 0); [done|]. by rewrite Hc. }
  induction blks as [|[p b] blks IH]; intros c Hc; cbn [check_extent_walk]; [by rewrite Hkeep|].
  rewrite Hkeep by exact Hc. apply IH. exact Hc.
Qed.

(** One block: the check goes on with the next block of the extent, goes on as
    before, or fails. *)
Lemma check_extent_step n p b : 0 <= n <= ei_len ei -> 0 <= p < 2 ^ 32 -> 0 <= b < 2 ^ 32 ->
  check_extent_info (walk_state n p) b false =
    if in_extb p then
      if (p =? ei_fofs ei + n) && (b =? ei_blk ei + n) then walk_state (n + 1) p else ce_unmatched (walk_state n p)
    else if agreesb p b then walk_state n p else ce_unmatched (walk_state n p).
Proof.
  intros Hn Hp Hb. unfold check_extent_info.
  cbn [walk_state ce_state ce_pgofs ce_ei ce_last_blk set_last_blk].
  change (Z.land 0 _) with 0. cbn [negb Z.eqb]. replace (ei_len ei =? 0) with false by lia.
  rewrite (u32_id (ei_fofs ei + ei_len ei)), (u32_id (ei_blk ei + ei_len ei)) by (unfold is_u32; lia).
  fold (in_extb p). unfold agreesb. destruct (in_extb_spec p) as [Hin|Hout]; unfold in_ext in *.
  - rewrite (u32_id (p - _ + _)) by (unfold is_u32; lia).
    destruct (Z.eqb_spec p (ei_fofs ei + n)) as [->|Hp']; [destruct (Z.eqb_spec b (ei_blk ei + n)) as [->|Hb']|]; cbn [andb].
    + replace (ei_blk ei + n =? NULL_ADDR) with false by (unfold NULL_ADDR; lia).
      replace (ei_blk ei + n =? NEW_ADDR) with false by (change NEW_ADDR with (2 ^ 32 - 1); lia).
      replace (ei_fofs ei + n - ei_fofs ei + ei_blk ei) with (ei_blk ei + n) by lia. rewrite Z.eqb_refl. cbn [orb negb].
      unfold walk_state. replace (n + 1 =? 0) with false by lia. replace (ei_blk ei + (n + 1) - 1) with (ei_blk ei + n) by lia.
      destruct (Z.eqb_spec n 0) as [->|Hn0]; cbn [Z.eqb].
      * by rewrite Z.add_0_r, Z.eqb_refl.
      * replace (ei_blk ei + n - 1 =? 0) with false by lia. rewrite u32_id by (unfold is_u32; lia).
        by replace (ei_blk ei + n - 1 + 1 =? ei_blk ei + n) with true by lia.
    + destruct ((b =? NULL_ADDR) || (b =? NEW_ADDR)); [done|]. cbn [orb].
      by replace (b =? _) with false by lia.
    + destruct ((b =? NULL_ADDR) || (b =? NEW_ADDR)); [done|]. cbn [orb].
      destruct (Z.eqb_spec b (p - ei_fofs ei + ei_blk ei)) as [->|]; [|done]. cbn [negb].
      destruct (Z.eqb_spec n 0) as [->|Hn0]; cbn [Z.eqb].
      * by replace (p =? ei_fofs ei) with false by lia.
      * replace (ei_blk ei + n - 1 =? 0) with false by lia. rewrite u32_id by (unfold is_u32; lia).
        by replace (ei_blk ei + n - 1 + 1 =? p - ei_fofs ei + ei_blk ei) with false by lia.
  - destruct (b =? NULL_ADDR), (b =? NEW_ADDR), (b <? ei_blk ei), (ei_blk ei + ei_len ei <=? b); reflexivity.
Qed.

(** The order of the walk, and addresses of their width. *)
Fixpoint walk_ok (lo : Z) (blks : list (Z * Z)) : Prop :=
  match blks with
  | [] => True
  | (p, b) :: rest => lo <= p < 2 ^ 32 /\ 0 <= b < 2 ^ 32 /\ walk_ok (p + 1) rest
  end.

Lemma walk_ok_from lo blks p b : walk_ok lo blks -> (p, b) ∈ blks -> lo <= p.
Proof.
  revert lo. induction blks as [|[p' b'] blks IH]; intros lo; cbn [walk_ok]; [intros _ H; by apply elem_of_nil in H|].
  intros (H1 & _ & H2) Hin. apply elem_of_cons in Hin as [[= -> ->]|Hin]; [lia|]. specialize (IH _ H2 Hin). lia.
Qed.

Lemma matches_skip n p b blks : 0 <= n -> (~ in_ext p \/ p < ei_fofs ei + n) -> agrees p b ->
  (matches_from n ((p, b) :: blks) <-> matches_from n blks).
Proof.
  unfold in_ext. intros Hn Hp Ha. unfold matches_from. rewrite Forall_cons. cbn [fst snd]. split; intros [H1 H2].
  - split; [|tauto]. intros i Hi. specialize (H1 i Hi). apply elem_of_cons in H1 as [E|H1]; [injection E as -> _; lia|done].
  - split; [|done]. intros i Hi. apply elem_of_cons. right. by apply H1.
Qed.

Lemma matches_next n b blks : 0 <= n < ei_len ei -> b = ei_blk ei + n ->
  (matches_from n ((ei_fofs ei + n, b) :: blks) <-> matches_from (n + 1) blks).
Proof.
  intros Hn ->. assert (agrees (ei_fofs ei + n) (ei_blk ei + n)) as Ha by (unfold agrees, in_ext; split; intros; lia).
  rewrite <- (matches_skip (n + 1) (ei_fofs ei + n) (ei_blk ei + n) blks) by (done || lia). unfold matches_from.
  split; intros [H1 H2]; (split; [|done]); intros i Hi; [apply H1; lia|].
  destruct (Z.eq_dec i (ei_fofs ei + n)) as [->|Hne]; [|apply H1; lia].
  apply elem_of_cons. left. f_equal. lia.
Qed.

Lemma check_extent_walk_spec blks : forall n lo q, 0 <= n <= ei_len ei -> n = 0 \/ ei_fofs ei + n <= lo ->
  0 <= lo -> walk_ok lo blks ->
  (unmatched (check_extent_walk (walk_state n q) blks) = false <-> matches_from n blks).
Proof.
  induction blks as [|[p b] blks IH]; intros n lo q Hn Hlo H0 Hw; cbn [check_extent_walk].
  - unfold check_extent_info. cbn [walk_state ce_state ce_pgofs ce_ei ce_last_blk]. change (Z.land 0 _) with 0.
    replace (ei_len ei =? 0) with false by lia. cbn [negb Z.eqb]. rewrite u32_id by (unfold is_u32; lia).
    unfold matches_from. destruct (Z.eqb_spec (if n =? 0 then 0 else ei_blk ei + n - 1) (ei_blk ei + ei_len ei - 1)) as [E|E];
      cbn [negb]; destruct (Z.eqb_spec n 0); rewrite ?unmatched_set by done.
    + lia.
    + split; [|done]. intros _. split; [intros i Hi; lia|constructor].
    + split; [done|]. intros [H _]. specialize (H (ei_fofs ei) ltac:(lia)). by apply elem_of_nil in H.
    + split; [done|]. intros [H _]. specialize (H (ei_fofs ei + n) ltac:(lia)). by apply elem_of_nil in H.
  - cbn [walk_ok] in Hw. destruct Hw as (Hp & Hb & Hw). change (set_pgofs (walk_state n q) p) with (walk_state n p).
    rewrite check_extent_step by lia. destruct (in_extb_spec p) as [Hin|Hout].
    + destruct (Z.eqb_spec p (ei_fofs ei + n)) as [->|Hne]; [destruct (Z.eqb_spec b (ei_blk ei + n)) as [->|Hnb]|]; cbn [andb].
      * unfold in_ext in Hin. rewrite (IH (n + 1) (ei_fofs ei + n + 1)) by (try done; lia).
        symmetry. apply matches_next; [lia|done].
      * rewrite unmatched_sticky by (by apply unmatched_set). split; [done|]. intros [_ Hf].
        apply Forall_cons in Hf as [[Ha _] _]. cbn [fst snd] in Ha. specialize (Ha Hin). lia.
      * rewrite unmatched_sticky by (by apply unmatched_set). split; [done|]. intros [H Hf]. exfalso. unfold in_ext in Hin.
        specialize (H (ei_fofs ei + n) ltac:(lia)). apply elem_of_cons in H as [[= E _]|H]; [lia|].
        apply (walk_ok_from _ _ _ _ Hw) in H. lia.
    + destruct (agreesb_spec p b) as [Ha|Ha].
      * rewrite (IH n (p + 1)) by (try done; lia). symmetry. apply matches_skip; [lia|by left|done].
      * rewrite unmatched_sticky by (by apply unmatched_set). split; [done|]. intros [_ Hf].
        by apply Forall_cons in Hf as [Hf _].
Qed.
End Extent.

(** C26: The running check of an inode's extent decides the property it stands for.
    Walking over the blocks of a file in order and closing the walk leaves the
    extent unmarked if and only if every file offset of the extent is present with
    exactly the block the extent gives it, and no block at another offset lies in
    the extent's range. *)
Theorem check_extent_exact (ei : extent_info) (blks : list (Z * Z)) :
  1 <= ei_blk ei /\ ei_blk ei + ei_len ei < 2 ^ 32 /\ 0 <= ei_fofs ei /\
    0 < ei_len ei /\ ei_fofs ei + ei_len ei < 2 ^ 32 ->
  walk_ok 0 blks ->
  let child := {| ce_state := 0; ce_pgofs := 0; ce_ei := ei; ce_last_blk := 0 |} in
  Z.land (ce_state (check_extent_walk child blks)) FSCK_UNMATCHED_EXTENT = 0 <->
  (forall i, ei_fofs ei <= i < ei_fofs ei + ei_len ei -> (i, ei_blk ei + (i - ei_fofs ei)) ∈ blks) /\
  Forall (fun pb => agrees ei pb.1 pb.2) blks.
Proof.
  intros Hr Hw child. pose proof (check_extent_walk_spec ei Hr blks 0 0 0 ltac:(lia) ltac:(by left) ltac:(lia) Hw) as H.
  unfold matches_from, unmatched in H. rewrite Z.add_0_r in H. rewrite <- H, negb_false_iff, Z.eqb_eq. done.
Qed.

Lemma check_extent_exact_witness :
  Z.land (ce_state (check_extent_walk
    {| ce_state := 0; ce_pgofs := 0; ce_ei := {| ei_fofs := 1; ei_blk := 5000; ei_len := 2 |}; ce_last_blk := 0 |}
    [(0, 0); (1, 5000); (2, 5001); (7, 5001)])) FSCK_UNMATCHED_EXTENT <> 0 /\
  ~ Forall (fun pb => agrees {| ei_fofs := 1; ei_blk := 5000; ei_len := 2 |} pb.1 pb.2) [(0, 0); (1, 5000); (2, 5001); (7, 5001)].
Proof.
  split; [vm_compute; discriminate|]. intros Hf.
  assert (Z.land (ce_state (check_extent_walk
    {| ce_state := 0; ce_pgofs := 0; ce_ei := {| ei_fofs := 1; ei_blk := 5000; ei_len := 2 |}; ce_last_blk := 0 |}
    [(0, 0); (1, 5000); (2, 5001); (7, 5001)])) FSCK_UNMATCHED_EXTENT = 0) as H; [|vm_compute in H; discriminate].
  apply (check_extent_exact {| ei_fofs := 1; ei_blk := 5000; ei_len := 2 |} [(0, 0); (1, 5000); (2, 5001); (7, 5001)]).
  - cbn. lia.
  - cbn. lia.
  - split; [|exact Hf]. cbn. intros i Hi. assert (i = 1 \/ i = 2) as [-> | ->] by lia; set_solver.
Defined.

(** * Position of an entry *)

(** Blocks of the levels below [l]. *)
Definition level_start (l dl : Z) : Z := dir_block_index_loop (Z.to_nat l) dl.

Lemma level_start_next l dl : 0 <= l <= 30 -> 0 <= dl < 256 ->
  level_start (l + 1) dl = level_start l dl + 2 * dir_buckets l dl /\ 0 <= level_start l dl.
Proof.
  intros Hl Hd. unfold level_start. replace (Z.to_nat (l + 1)) with (S (Z.to_nat l)) by lia. cbn [dir_block_index_loop].
  destruct (dir_block_index_loop_bounds (Z.to_nat l) dl) as [Hb _]; [lia..|]. rewrite Z2Nat.id by lia.
  pose proof (dir_buckets_le l dl ltac:(lia) ltac:(lia) ltac:(lia)).
  unfold bucket_blocks. change (MAX_DIR_HASH_DEPTH / 2) with 31. replace (l <? 31) with true by lia.
  rewrite u32_id by (unfold is_u32; lia). rewrite u64_id by (unfold is_u64; lia). lia.
Qed.

Lemma level_30_buckets dl : 0 <= dl < 256 -> dir_buckets 30 dl = 2 ^ 30.
Proof.
  intros Hd. unfold dir_buckets. rewrite u32_id by (unfold is_u32; lia). change (MAX_DIR_HASH_DEPTH / 2) with 31.
  destruct (Z.ltb_spec (30 + dl) 31); [|done]. by replace (30 + dl) with 30 by lia.
Qed.

Lemma current_level_spec n : forall dl pgofs i, 0 <= dl < 256 -> 0 <= pgofs < 2 ^ 31 -> 0 <= i ->
  31 <= i + Z.of_nat n -> level_start i dl <= pgofs -> i <= 30 ->
  let l := get_current_level_loop n dl pgofs i (level_start i dl) in
  0 <= l <= 30 /\ level_start l dl <= pgofs < level_start l dl + 2 * dir_buckets l dl.
Proof.
  induction n as [|n IH]; intros dl pgofs i Hd Hp Hi Hn Hs Hi30; [lia|]. cbn [get_current_level_loop].
  destruct (level_start_next i dl) as [Hnext Hpos]; [lia|done|].
  pose proof (dir_buckets_le i dl ltac:(lia) ltac:(lia) ltac:(lia)).
  replace (bucket_blocks i) with 2 by (unfold bucket_blocks; change (MAX_DIR_HASH_DEPTH / 2) with 31; by replace (i <? 31) with true by lia).
  rewrite (u32_id (dir_buckets i dl * 2)) by (unfold is_u32; lia).
  replace (level_start i dl + dir_buckets i dl * 2) with (level_start (i + 1) dl) by lia.
  rewrite u32_id by (unfold is_u32; lia). destruct (Z.ltb_spec pgofs (level_start (i + 1) dl)) as [Hlt|Hge].
  - cbv zeta. lia.
  - destruct (Z.eq_dec i 30) as [->|Hne]; [rewrite level_30_buckets in Hnext by done; lia|]. apply IH; lia.
Qed.

(** The level of a block is unique. *)
Lemma level_unique l l' dl b : 0 <= dl < 256 -> 0 <= l <= 30 -> 0 <= l' <= 30 ->
  level_start l dl <= b < level_start l dl + 2 * dir_buckets l dl ->
  level_start l' dl <= b < level_start l' dl + 2 * dir_buckets l' dl -> l = l'.
Proof.
  intros Hd Hl Hl' H H'. destruct (Z.lt_trichotomy l l') as [Hlt|[->|Hlt]]; [|done|].
  - destruct (dir_block_index_loop_bounds (Z.to_nat l') dl) as [_ Hm]; [lia..|]. specialize (Hm (Z.to_nat l) ltac:(lia)).
    rewrite Z2Nat.id in Hm by lia. unfold level_start in *. lia.
  - destruct (dir_block_index_loop_bounds (Z.to_nat l) dl) as [_ Hm]; [lia..|]. specialize (Hm (Z.to_nat l') ltac:(lia)).
    rewrite Z2Nat.id in Hm by lia. unfold level_start in *. lia.
Qed.

(** Where the directory operations look for a hash code at a level. *)
Definition in_bucket (hash_code level dl b : Z) : Prop :=
  let idx := hash_code mod dir_buckets level dl in
  dir_block_index level dl idx <= b < dir_block_index level dl idx + bucket_blocks level.

Lemma in_bucket_eq hash_code l dl : 0 <= hash_code -> 0 <= l <= 30 -> 0 <= dl < 256 ->
  let idx := hash_code mod dir_buckets l dl in
  dir_block_index l dl idx = level_start l dl + 2 * idx /\ bucket_blocks l = 2 /\ 0 <= idx < dir_buckets l dl.
Proof.
  intros Hh Hl Hd idx. pose proof (dir_buckets_le l dl ltac:(lia) ltac:(lia) ltac:(lia)).
  assert (0 <= idx < dir_buckets l dl) as Hidx by (apply Z.mod_pos_bound; lia).
  assert (bucket_blocks l = 2) as Hb
    by (unfold bucket_blocks; change (MAX_DIR_HASH_DEPTH / 2) with 31; by replace (l <? 31) with true by lia).
  split; [|done]. rewrite dir_block_index_eq by lia. rewrite Hb. unfold level_start. lia.
Qed.

(** C27: The position check of fsck agrees with the hash table layout that the
    directory operations use. For a block below 2^31 of a directory, fsck, which
    works backwards from the block to its level, accepts an entry there if and
    only if the block belongs to the bucket of the entry's hash code at some
    level, that is, if a lookup of the name would read that block. *)
Theorem dirent_position_exact (hash_code pgofs dir_level : Z) :
  0 <= hash_code < 2 ^ 32 -> 0 <= pgofs < 2 ^ 31 -> 0 <= dir_level < 256 ->
  f2fs_check_dirent_position hash_code pgofs dir_level = 0 <->
  exists level, 0 <= level <= 30 /\ in_bucket hash_code level dir_level pgofs.
Proof.
  intros Hh Hp Hd. unfold f2fs_check_dirent_position, __get_current_level, in_bucket. cbv zeta.
  change (get_current_level_loop (Z.to_nat MAX_DIR_HASH_DEPTH) dir_level pgofs 0 0)
    with (get_current_level_loop 63 dir_level pgofs 0 (level_start 0 dir_level)).
  destruct (current_level_spec 63 dir_level pgofs 0) as [Hl Hr]; [lia|lia|lia|lia|change (level_start 0 dir_level) with 0; lia|lia|].
  set (l := get_current_level_loop _ _ _ _ _) in *.
  destruct (in_bucket_eq hash_code l dir_level) as (E & Eb & Hidx); [lia..|]. rewrite E, Eb.
  pose proof (dir_buckets_le l dir_level ltac:(lia) ltac:(lia) ltac:(lia)).
  destruct (level_start_next l dir_level) as [_ Hpos]; [lia..|].
  rewrite (u32_id (level_start l dir_level + _)) by (unfold is_u32; lia). rewrite u32_id by (unfold is_u32; lia).
  assert (((level_start l dir_level + 2 * (hash_code mod dir_buckets l dir_level) <=? pgofs) &&
    (pgofs <? level_start l dir_level + 2 * (hash_code mod dir_buckets l dir_level) + 2)) = true <->
    exists level, 0 <= level <= 30 /\ in_bucket hash_code level dir_level pgofs) as Hiff.
  { rewrite andb_true_iff, Z.leb_le, Z.ltb_lt. split.
    - intros Hin. exists l. split; [done|]. unfold in_bucket. by rewrite E, Eb.
    - intros (l' & Hl' & Hin). unfold in_bucket in Hin.
      destruct (in_bucket_eq hash_code l' dir_level) as (E' & Eb' & Hidx'); [lia..|]. rewrite E', Eb' in Hin.
      assert (l = l') as <- by (apply (level_unique l l' dir_level pgofs); lia). lia. }
  unfold in_bucket in Hiff. rewrite <- Hiff. destruct (_ && _); split; congruence.
Qed.

Lemma dirent_position_exact_witness :
  f2fs_check_dirent_position 0x12345 30 0 <> 0 /\ f2fs_check_dirent_position 0x12345 40 0 = 0 /\ in_bucket 0x12345 4 0 40.
Proof.
  split; [vm_compute; discriminate|]. assert (f2fs_check_dirent_position 0x12345 40 0 = 0) as H by reflexivity.
  split; [exact H|]. apply dirent_position_exact in H as (l & Hl & Hin); [|lia|lia|lia].
  unfold in_bucket. vm_compute. split; [discriminate|reflexivity].
Defined.

(** * Checksums of repaired inodes *)

(** The bytes an inode's checksum is computed over. *)
Definition inode_covered (node : list Z) : list Z := take (Z.to_nat 368) node ++ [0; 0; 0; 0] ++ drop (Z.to_nat (368 + 4)) node.
Definition inode_seed (seed : Z) (node : list Z) : Z :=
  crc_of (crc_of seed (take (Z.to_nat 4) (drop (Z.to_nat 4076) node))) (take (Z.to_nat 4) (drop (Z.to_nat 68) node)).

Lemma inode_chksum_eq seed node : length node = 4096%nat ->
  f2fs_inode_chksum seed node = Ok (crc_of (inode_seed seed node) (inode_covered node)).
Proof.
  intros Hl. unfold f2fs_inode_chksum, ofs_footer_ino, ofs_i_generation, ofs_i_inode_checksum, inode_seed, inode_covered.
  rewrite (f2fs_cal_crc32_eq seed node 4076 4) by lia. rewrite res_bind_ret.
  rewrite (f2fs_cal_crc32_eq _ node 68 4) by lia. rewrite res_bind_ret.
  rewrite (f2fs_cal_crc32_eq _ node 0 368) by lia. rewrite res_bind_ret.
  rewrite (f2fs_cal_crc32_eq _ (le_bytes 4 0) 0 4) by (rewrite ?length_le_bytes; lia). rewrite res_bind_ret.
  rewrite (f2fs_cal_crc32_eq _ node (368 + 4) (4096 - (368 + 4))) by lia.
  rewrite (take_ge (drop (Z.to_nat (368 + 4)) node)) by (rewrite length_drop; lia).
  rewrite !crc_of_app. rewrite (drop_0 node : drop (Z.to_nat 0) node = node). reflexivity.
Qed.

Lemma splice_outside l ofs xs k n : 0 <= ofs -> ofs + Z.of_nat (length xs) <= Z.of_nat (length l) ->
  Z.of_nat k + Z.of_nat n <= ofs \/ ofs + Z.of_nat (length xs) <= Z.of_nat k ->
  take n (drop k (splice l ofs xs)) = take n (drop k l).
Proof.
  intros H0 Hl Ho. apply list_eq. intros i. destruct (Nat.lt_ge_cases i n) as [Hi|Hi].
  - rewrite !lookup_take_lt, !lookup_drop, lookup_splice by lia. case_decide; [lia|done].
  - by rewrite !lookup_take_ge by lia.
Qed.

Lemma drop_splice_past l ofs xs k : 0 <= ofs -> ofs + Z.of_nat (length xs) <= Z.of_nat (length l) ->
  ofs + Z.of_nat (length xs) <= Z.of_nat k -> drop k (splice l ofs xs) = drop k l.
Proof.
  intros H0 Hl Hk. rewrite <- (take_ge (drop k (splice l ofs xs)) (length l)), <- (take_ge (drop k l) (length l)).
  - by apply splice_outside; [| |right].
  - rewrite length_drop. lia.
  - rewrite length_drop, length_splice; lia.
Qed.

(** The checksum does not cover its own field. *)
Lemma inode_chksum_own_field seed node v : length node = 4096%nat ->
  f2fs_inode_chksum seed (splice node ofs_i_inode_checksum (le_bytes 4 v)) = f2fs_inode_chksum seed node.
Proof.
  intros Hl. unfold ofs_i_inode_checksum. rewrite !inode_chksum_eq by (rewrite ?length_splice; rewrite ?length_le_bytes; lia).
  unfold inode_seed, inode_covered. rewrite !splice_outside by (rewrite ?length_le_bytes; lia).
  rewrite drop_splice_past by (rewrite ?length_le_bytes; lia).
  rewrite <- (drop_0 (splice node 368 _)). rewrite (splice_outside node 368 (le_bytes 4 v) 0) by (rewrite ?length_le_bytes; lia).
  by rewrite drop_0.
Qed.

Lemma take_split {A} (l : list A) (a b : nat) : (a <= b)%nat -> take b l = take a l ++ take (b - a) (drop a l).
Proof. intros H. rewrite take_take_drop. f_equal. lia. Qed.

Lemma take_splice_parts l ofs xs n : 0 <= ofs -> (Z.to_nat ofs + length xs <= n)%nat -> ofs + Z.of_nat (length xs) <= Z.of_nat (length l) ->
  take n (splice l ofs xs) = take (Z.to_nat ofs) l ++ xs ++ take (n - (Z.to_nat ofs + length xs)) (drop (Z.to_nat ofs + length xs) l).
Proof.
  intros H0 Hn Hl. unfold splice. rewrite take_app_ge by (rewrite length_take; lia). rewrite length_take, Nat.min_l by lia.
  rewrite take_app_ge by lia. do 3 f_equal. lia.
Qed.

(** The link count is covered by the checksum, which finds any change of it. *)
Lemma inode_chksum_links seed node links old : is_u32 seed -> length node = 4096%nat -> bytes node ->
  get_le32 node ofs_i_links = Ok old -> is_u32 links ->
  f2fs_inode_chksum seed (splice node ofs_i_links (le_bytes 4 links)) = f2fs_inode_chksum seed node -> links = old.
Proof.
  intros Hs Hl Hb Hold Hlinks. unfold ofs_i_links in *.
  rewrite !inode_chksum_eq by (rewrite ?length_splice; rewrite ?length_le_bytes; lia). intros E. apply Ok_inj in E.
  unfold inode_seed, inode_covered in E. rewrite !splice_outside in E by (rewrite ?length_le_bytes; lia).
  rewrite drop_splice_past in E by (rewrite ?length_le_bytes; lia).
  rewrite take_splice_parts in E by (rewrite ?length_le_bytes; lia). rewrite length_le_bytes in E.
  rewrite (take_split node (Z.to_nat 12) (Z.to_nat 368)) in E by lia.
  rewrite (take_split (drop (Z.to_nat 12) node) 4 (Z.to_nat 368 - Z.to_nat 12)) in E by lia.
  rewrite drop_drop, <- !app_assoc in E. rewrite <- Nat.sub_add_distr in E.
  apply crc_window in E; [| | | | | | |].
  - unfold get_le in Hold. rewrite rd_bytes_Ok in Hold by lia. rewrite res_bind_ret in Hold.
    rewrite <- E in Hold. apply Ok_inj in Hold as <-. symmetry. apply le_val_bytes. exact Hlinks.
  - repeat (apply crc_of_range; [|by apply Forall_take, Forall_drop]). done.
  - by apply Forall_take.
  - apply bytes_le_bytes.
  - by apply Forall_take, Forall_drop.
  - repeat apply Forall_app_2; [by apply Forall_take, Forall_drop| |by apply Forall_drop]. repeat constructor; unfold is_u8; lia.
  - rewrite length_le_bytes, length_take, length_drop. lia.
  - rewrite length_le_bytes. lia.
Qed.

(** C37: Repairing a link count leaves a broken inode: [fix_hard_links] stores the
    new count with [dev_write_block], not with [write_inode], so that on a volume
    with inode checksums an inode whose checksum was right has a wrong one as
    soon as the count changes. [write_inode] would have stored the right one. *)
Theorem hard_link_fix_breaks_checksum (seed : Z) (node : list Z) (c0 old links : Z) :
  is_u32 seed -> length node = 4096%nat -> bytes node ->
  f2fs_inode_chksum seed node = Ok c0 -> get_le32 node ofs_i_inode_checksum = Ok c0 ->
  get_le32 node ofs_i_links = Ok old -> is_u32 links -> links <> old ->
  exists node' c1, fix_inode_links node links = Ok node' /\
    get_le32 node' ofs_i_inode_checksum = Ok c0 /\ f2fs_inode_chksum seed node' = Ok c1 /\ c1 <> c0 /\
    forall d a, is_Some (d !! a) -> exists d' inode, write_inode true seed d node' a = Ok (d', inode) /\
      get_le32 inode ofs_i_inode_checksum = Ok c1 /\ f2fs_inode_chksum seed inode = Ok c1.
Proof.
  intros Hseed Hl Hb Hc0 Hst Hold Hlinks Hne. unfold fix_inode_links.
  assert (forall ofs v, 0 <= ofs <= 4092 -> set_le32 node ofs v = Ok (splice node ofs (le_bytes 4 v))) as Hset
    by (intros; apply wr_list_splice; rewrite ?length_le_bytes; lia).
  rewrite Hset by (unfold ofs_i_links; lia). set (node' := splice _ _ _).
  assert (length node' = 4096%nat) as Hl' by (unfold node'; rewrite length_splice; rewrite ?length_le_bytes; unfold ofs_i_links; lia).
  assert (bytes node') as Hb' by (apply bytes_splice; [done|apply bytes_le_bytes]).
  assert (get_le 4 node' ofs_i_links = Ok links) as Hnew by (apply get_set_le; [unfold ofs_i_links; lia|unfold ofs_i_links; lia|exact Hlinks]).
  exists node', (crc_of (inode_seed seed node') (inode_covered node')). split; [done|]. split; [|split; [|split]].
  - rewrite <- Hst. unfold node', ofs_i_inode_checksum. apply get_set_le_ne; unfold ofs_i_links; lia.
  - by apply inode_chksum_eq.
  - intros E. apply Hne. apply (inode_chksum_links seed node links old); try done. fold node'.
    rewrite Hc0, <- E. by apply inode_chksum_eq.
  - intros d a Ha. unfold write_inode. rewrite inode_chksum_eq by done. rewrite res_bind_ret.
    set (c1 := crc_of _ _).
    assert (is_u32 c1) as Hc1.
    { apply crc_of_range; [repeat (apply crc_of_range; [|by apply Forall_take, Forall_drop]); done|].
      repeat apply Forall_app_2; [by apply Forall_take|repeat constructor; unfold is_u8; lia|by apply Forall_drop]. }
    unfold set_le. rewrite wr_list_splice by (unfold ofs_i_inode_checksum; rewrite ?length_le_bytes; lia). rewrite res_bind_ret.
    rewrite disk_write_present by done. rewrite res_bind_ret. do 2 eexists. split; [done|]. split.
    + apply get_set_le; [unfold ofs_i_inode_checksum; lia|unfold ofs_i_inode_checksum; lia|exact Hc1].
    + rewrite inode_chksum_own_field by done. by apply inode_chksum_eq.
Qed.

(** An inode with two links and its checksum under seed 7. *)
Definition sample_inode : list Z :=
  splice (splice zero_block ofs_i_links (le_bytes 4 2)) ofs_i_inode_checksum (le_bytes 4 1814770618).

Lemma hard_link_fix_breaks_checksum_witness : exists node' c0 c1,
  fix_inode_links sample_inode 3 = Ok node' /\ get_le32 node' ofs_i_inode_checksum = Ok c0 /\
  f2fs_inode_chksum 7 node' = Ok c1 /\ c1 <> c0.
Proof.
  assert (f2fs_inode_chksum 7 sample_inode = Ok 1814770618) as H1 by (vm_compute; reflexivity).
  assert (get_le32 sample_inode ofs_i_inode_checksum = Ok 1814770618) as H2 by (vm_compute; reflexivity).
  assert (get_le32 sample_inode ofs_i_links = Ok 2) as H3 by (vm_compute; reflexivity).
  assert (length sample_inode = 4096%nat) as H4 by (vm_compute; reflexivity).
  assert (bytes sample_inode) as H5 by (apply bytes_forallb; vm_compute; reflexivity).
  destruct (hard_link_fix_breaks_checksum 7 sample_inode 1814770618 2 3) as (node' & c1 & A & B & C & D & _);
    [unfold is_u32; lia|exact H4|exact H5|exact H1|exact H2|exact H3|unfold is_u32; lia|lia|].
  exists node', 1814770618, c1. split; [exact A|]. split; [exact B|]. split; [exact C|exact D].
Defined.
