(* ===== verification/Curseg.v ===== *)
(** The current segments as mount loads them (fsck/mount.c): [build_curseg] with
    the summaries of a pack in their normal form, one block each, or in the
    compacted form that packs the entries of the data segments. *)
From Stdlib Require Import ZArith Lia List Bool.
From stdpp Require Import base numbers list gmap.
From S2P Require Import Prelude Codec Bits Crc Node Superblock Mkfs Checkpoint Nat Segment.

Definition NR_CURSEG_TYPE : Z := 6.
Definition NR_CURSEG_DATA_TYPE : Z := 3.
Definition NR_CURSEG_NODE_TYPE : Z := 3.
Definition CP_COMPACT_SUM_FLAG : Z := 0x4.
Definition SUM_FOOTER_SIZE : Z := 5.
Definition ofs_alloc_type (i : Z) : Z := 176 + i.

(** * Compacted summaries *)

(** The entries [j] up to [blk_off] of one segment: its summary, and the buffer,
    the offset in it and the next block of the pack. *)
Fixpoint compacted_entries (n : nat) (d : disk) (sum kaddr : list Z) (offset start j : Z)
    : res (list Z * list Z * Z * Z) :=
  match n with
  | O => Ok (sum, kaddr, offset, start)
  | S n =>
      s ← rd_bytes kaddr offset (Z.to_nat SUMMARY_SIZE);
      sum ← wr_list sum (SUMMARY_SIZE * j) s;
      let offset := offset + SUMMARY_SIZE in
      if offset + SUMMARY_SIZE <=? F2FS_BLKSIZE - SUM_FOOTER_SIZE then
        compacted_entries n d sum kaddr offset start (j + 1)
      else
        kaddr ← disk_read_or_die d start;
        compacted_entries n d sum kaddr 0 (u32 (start + 1)) (j + 1)
  end.

Fixpoint compacted_loop (n : nat) (st : seg_state) (kaddr : list Z) (offset start i : Z) : res seg_state :=
  match n with
  | O => Ok st
  | S n =>
      st ← reset_curseg st i;
      curseg ← rd (sg_cursegs st) i;
      let blk_off := u16 (if cs_alloc_type curseg =? SSR then blocks_per_seg (sg st) else cs_next_blkoff curseg) in
      _ ← assert_ (blk_off <=? ENTRIES_IN_SUM);
      '(sum, kaddr, offset, start) ←
        compacted_entries (Z.to_nat blk_off) (sg_disk st) (cs_sum_blk curseg) kaddr offset start 0;
      st ← store_sum_blk st (Some i) sum;
      compacted_loop n st kaddr offset start (i + 1)
  end.

(** The journal of a current segment replaced. *)
Definition load_journal (st : seg_state) (i : Z) (journal : list Z) : res seg_state :=
  curseg ← rd (sg_cursegs st) i;
  sum ← wr_list (cs_sum_blk curseg) ofs_journal journal;
  store_sum_blk st (Some i) sum.

Definition read_compacted_summaries (st : seg_state) (cur_cp : Z) : res seg_state :=
  let g := sg st in
  start ← start_sum_block (g_super g) (blocks_per_seg g) cur_cp (g_ckpt g);
  kaddr ← disk_read_or_die (sg_disk st) start;
  nats ← rd_bytes kaddr 0 (Z.to_nat SUM_JOURNAL_SIZE);
  st ← load_journal st CURSEG_HOT_DATA nats;
  sits ← rd_bytes kaddr SUM_JOURNAL_SIZE (Z.to_nat SUM_JOURNAL_SIZE);
  st ← load_journal st CURSEG_COLD_DATA sits;
  compacted_loop 3 st kaddr (2 * SUM_JOURNAL_SIZE) (u32 (start + 1)) CURSEG_HOT_DATA.

(** * Normal summaries *)

Fixpoint restore_node_loop (n : nat) (d : disk) (sum_blk : list Z) (addr i : Z) : res (list Z) :=
  match n with
  | O => Ok sum_blk
  | S n =>
      node_blk ← disk_read_or_die d addr;
      nid ← rd_bytes node_blk ofs_nid 4;
      sum_blk ← wr_list sum_blk (SUMMARY_SIZE * i) nid;
      restore_node_loop n d sum_blk (u32 (addr + 1)) (i + 1)
  end.
Definition restore_node_summary (g : seg_cfg) (d : disk) (segno : Z) (sum_blk : list Z) : res (list Z) :=
  restore_node_loop (Z.to_nat (blocks_per_seg g)) d sum_blk (START_BLOCK g segno) 0.

Definition read_normal_summaries (st : seg_state) (cur_cp type : Z) : res seg_state :=
  let g := sg st in
  let cp := g_ckpt g in
  let addr := sum_blk_addr (g_super g) (blocks_per_seg g) cur_cp cp in
  umount ← is_set_ckpt_flags cp CP_UMOUNT_FLAG;
  '(segno, blk_addr) ←
    (if IS_DATASEG type then
       segno ← get_le32 cp (ofs_cur_data_segno type);
       blk_addr ← (if umount : bool then addr NR_CURSEG_TYPE type else addr NR_CURSEG_DATA_TYPE type);
       Ok (segno, blk_addr)
     else
       segno ← get_le32 cp (ofs_cur_node_segno (type - CURSEG_HOT_NODE));
       blk_addr ← (if umount : bool then addr NR_CURSEG_NODE_TYPE (type - CURSEG_HOT_NODE)
                   else Ok (GET_SUM_BLKADDR g segno));
       Ok (segno, blk_addr));
  sum_blk ← disk_read_or_die (sg_disk st) blk_addr;
  sum_blk ← (if IS_NODESEG type && negb umount then restore_node_summary g (sg_disk st) segno sum_blk
             else Ok sum_blk);
  st ← store_sum_blk st (Some type) sum_blk;
  reset_curseg st type.

Fixpoint normal_loop (n : nat) (st : seg_state) (cur_cp type : Z) : res seg_state :=
  match n with
  | O => Ok st
  | S n => st ← read_normal_summaries st cur_cp type; normal_loop n st cur_cp (type + 1)
  end.

Definition restore_curseg_summaries (st : seg_state) (cur_cp : Z) : res seg_state :=
  compact ← is_set_ckpt_flags (g_ckpt (sg st)) CP_COMPACT_SUM_FLAG;
  if compact : bool then
    st ← read_compacted_summaries st cur_cp;
    normal_loop 3 st cur_cp CURSEG_HOT_NODE
  else normal_loop 6 st cur_cp CURSEG_HOT_DATA.

(** The array of current segments, with empty summaries. *)
Fixpoint curseg_array (n : nat) (g : seg_cfg) (i : Z) : res (list curseg_info) :=
  match n with
  | O => Ok []
  | S n =>
      let cp := g_ckpt g in
      '(blk_off, segno) ←
        (if i <=? CURSEG_COLD_DATA then
           blk_off ← get_le16 cp (ofs_cur_data_blkoff i);
           segno ← get_le32 cp (ofs_cur_data_segno i);
           Ok (blk_off, segno)
         else
           blk_off ← get_le16 cp (ofs_cur_node_blkoff (i - CURSEG_HOT_NODE));
           segno ← get_le32 cp (ofs_cur_node_segno (i - CURSEG_HOT_NODE));
           Ok (blk_off, segno));
      _ ← assert_ (segno <? TOTAL_SEGS g);
      _ ← assert_ (blk_off <? 512);
      alloc_type ← rd cp (ofs_alloc_type i);
      rest ← curseg_array n g (i + 1);
      Ok ({| cs_sum_blk := replicate (Z.to_nat F2FS_BLKSIZE) 0; cs_alloc_type := alloc_type;
             cs_segno := segno; cs_next_blkoff := blk_off |} :: rest)
  end.

Definition build_curseg (st : seg_state) (cur_cp : Z) : res seg_state :=
  cs ← curseg_array (Z.to_nat NR_CURSEG_TYPE) (sg st) 0;
  restore_curseg_summaries (with_cursegs st cs) cur_cp.

(** * Loading normal summaries *)

(** The footer that [reset_curseg] writes. *)
Definition sum_footer (type : Z) : list Z := (if IS_NODESEG type then SUM_TYPE_NODE else SUM_TYPE_DATA) :: replicate 4 0.
Definition footed (type : Z) (b : list Z) : list Z := splice b ofs_sum_footer (sum_footer type).

Lemma set_footer type b : 0 <= type < 6 -> length b = 4096%nat ->
  (b ← wr_list b ofs_sum_footer (replicate 5 0);
   b ← (if IS_DATASEG type then wr b ofs_sum_footer SUM_TYPE_DATA else Ok b);
   if IS_NODESEG type then wr b ofs_sum_footer SUM_TYPE_NODE else Ok b) = Ok (footed type b).
Proof.
  intros Ht Hl. unfold ofs_sum_footer. rewrite wr_list_splice by (cbn [length replicate]; lia).
  rewrite res_bind_ret. destruct (app_eq_inv_length b (Z.to_nat 4091)) as (pre & r & -> & Hp); [lia|].
  rewrite length_app in Hl. unfold footed, ofs_sum_footer.
  rewrite <- (app_nil_r r). rewrite !splice_app by (cbn [length sum_footer replicate]; lia).
  assert (forall x, wr (pre ++ replicate 5 0 ++ []) 4091 x = Ok (pre ++ (x :: replicate 4 0) ++ [])) as Hw.
  { intros x. apply (wr_app pre (replicate 4 0 ++ []) x 0 4091). lia. }
  assert (type = 0 \/ type = 1 \/ type = 2 \/ type = 3 \/ type = 4 \/ type = 5) as H by lia.
  repeat destruct H as [->|H]; [..|subst type]; cbv [IS_DATASEG IS_NODESEG CURSEG_HOT_DATA CURSEG_WARM_DATA
    CURSEG_COLD_DATA CURSEG_HOT_NODE CURSEG_WARM_NODE CURSEG_COLD_NODE Z.eqb Pos.eqb orb sum_footer];
    rewrite ?Hw, ?res_bind_ret, ?Hw; done.
Qed.

Definition with_loaded (st : seg_state) (type : Z) (c : curseg_info) (ses : list seg_entry) : seg_state :=
  with_sentries (with_cursegs st (<[Z.to_nat type := c]> (sg_cursegs st))) ses.

Lemma reset_curseg_eq st type c : 0 <= type < 6 -> sg_cursegs st !! Z.to_nat type = Some c ->
  length (cs_sum_blk c) = 4096%nat -> 0 <= cs_segno c < Z.of_nat (length (sg_sentries st)) ->
  exists ses, reset_curseg st type = Ok (with_loaded st type (set_sum_blk c (footed type (cs_sum_blk c))) ses) /\
    length ses = length (sg_sentries st).
Proof.
  intros Ht Hc Hl Hs. unfold reset_curseg. rewrite (rd_lookup _ _ _ (proj1 Ht) Hc), res_bind_ret.
  pose proof (set_footer type _ Ht Hl) as Hf. apply res_bind_Ok in Hf as (b1 & -> & Hf). rewrite res_bind_ret.
  apply res_bind_Ok in Hf as (b2 & -> & Hf). rewrite res_bind_ret, Hf, res_bind_ret.
  unfold store_sum_blk. rewrite (rd_lookup _ _ _ (proj1 Ht) Hc), res_bind_ret.
  rewrite wr_total by (apply lookup_lt_Some in Hc; lia). rewrite !res_bind_ret.
  unfold get_seg_entry, set_seg_entry. cbn [sg_sentries with_cursegs].
  destruct (rd_total (sg_sentries st) _ Hs) as [se ->]. rewrite res_bind_ret.
  rewrite wr_total by done. rewrite res_bind_ret. eexists. split; [done|]. by rewrite length_insert.
Qed.

(** The checkpoint names the segment, the offset and the mode of current segment [i]. *)
Definition cp_keeps (cp : list Z) (i : Z) (c : curseg_info) : Prop :=
  (if i <=? CURSEG_COLD_DATA
   then get_le16 cp (ofs_cur_data_blkoff i) = Ok (cs_next_blkoff c) /\ get_le32 cp (ofs_cur_data_segno i) = Ok (cs_segno c)
   else get_le16 cp (ofs_cur_node_blkoff (i - CURSEG_HOT_NODE)) = Ok (cs_next_blkoff c) /\
        get_le32 cp (ofs_cur_node_segno (i - CURSEG_HOT_NODE)) = Ok (cs_segno c)) /\
  rd cp (ofs_alloc_type i) = Ok (cs_alloc_type c).

Definition curseg_ok (segs : Z) (c : curseg_info) : Prop :=
  0 <= cs_segno c < segs /\ 0 <= cs_next_blkoff c < 512 /\ is_u8 (cs_alloc_type c) /\
  length (cs_sum_blk c) = 4096%nat /\ bytes (cs_sum_blk c).

Definition blank (c : curseg_info) : curseg_info := set_sum_blk c (replicate (Z.to_nat F2FS_BLKSIZE) 0).

Lemma curseg_array_eq g css : forall i,
  (forall j c, css !! j = Some c -> cp_keeps (g_ckpt g) (i + Z.of_nat j) c /\ curseg_ok (g_main_segments g) c) ->
  curseg_array (length css) g i = Ok (map blank css).
Proof.
  induction css as [|c css IH]; intros i H; cbn [length curseg_array]; [done|].
  destruct (H 0%nat c eq_refl) as [[Hp Ha] (Hs & Ho & _)]. rewrite Z.add_0_r in Hp, Ha.
  assert ((if i <=? CURSEG_COLD_DATA then
       blk_off ← get_le16 (g_ckpt g) (ofs_cur_data_blkoff i);
       segno ← get_le32 (g_ckpt g) (ofs_cur_data_segno i); Ok (blk_off, segno)
     else
       blk_off ← get_le16 (g_ckpt g) (ofs_cur_node_blkoff (i - CURSEG_HOT_NODE));
       segno ← get_le32 (g_ckpt g) (ofs_cur_node_segno (i - CURSEG_HOT_NODE));
       Ok (blk_off, segno)) = Ok (cs_next_blkoff c, cs_segno c)) as ->.
  { destruct (i <=? CURSEG_COLD_DATA); destruct Hp as [Hp1 Hp2]; by rewrite Hp1, res_bind_ret, Hp2. }
  rewrite res_bind_ret. unfold TOTAL_SEGS. replace (cs_segno c <? g_main_segments g) with true by lia.
  replace (cs_next_blkoff c <? 512) with true by lia. cbn [assert_]. rewrite !res_bind_ret, Ha, res_bind_ret.
  rewrite IH; [done|]. intros j c' Hc'. replace (i + 1 + Z.of_nat j) with (i + Z.of_nat (S j)) by lia. by apply H.
Qed.

Section Load.
Context (g : seg_cfg) (cur_cp t : Z).
Context (Humount : is_set_ckpt_flags (g_ckpt g) CP_UMOUNT_FLAG = Ok true).
Context (Htotal : get_le32 (g_ckpt g) ofs_cp_pack_total_block_count = Ok t).
Let start : Z := __start_cp_addr (g_super g) (blocks_per_seg g) cur_cp.
Context (Hrange : 0 <= start + t - 7 /\ start + t <= 2 ^ 32).

Lemma sum_addr_eq base type : 0 <= start + t - (base + 1) + type < 2 ^ 32 ->
  sum_blk_addr (g_super g) (blocks_per_seg g) cur_cp (g_ckpt g) base type = Ok (start + t - (base + 1) + type).
Proof. intros H. unfold sum_blk_addr. rewrite Htotal, res_bind_ret. fold start. by rewrite u32_id. Qed.

Lemma read_normal_eq st type c b : sg st = g -> 0 <= type < 6 -> cp_keeps (g_ckpt g) type c ->
  sg_cursegs st !! Z.to_nat type = Some (blank c) ->
  sg_disk st !! (start + t - 7 + type) = Some b -> length b = 4096%nat ->
  0 <= cs_segno c < Z.of_nat (length (sg_sentries st)) ->
  exists ses, read_normal_summaries st cur_cp type = Ok (with_loaded st type (set_sum_blk c (footed type b)) ses) /\
    length ses = length (sg_sentries st).
Proof.
  intros Hg Ht [Hk _] Hc Hb Hl Hs. unfold read_normal_summaries. rewrite Hg, Humount, res_bind_ret.
  match goal with |- context [mbind _ (if IS_DATASEG type then ?a else ?b)] =>
    assert ((if IS_DATASEG type then a else b) = Ok (cs_segno c, start + t - 7 + type)) as Ha end.
  { assert (IS_DATASEG type = (type <=? CURSEG_COLD_DATA)) as ->
      by (unfold IS_DATASEG, CURSEG_HOT_DATA, CURSEG_WARM_DATA, CURSEG_COLD_DATA; lia).
    unfold NR_CURSEG_TYPE, NR_CURSEG_NODE_TYPE, CURSEG_COLD_DATA, CURSEG_HOT_NODE in *.
    destruct (Z.leb_spec type 2); destruct Hk as [_ ->]; rewrite res_bind_ret, sum_addr_eq by lia;
      rewrite res_bind_ret; do 2 f_equal; lia. }
  rewrite Ha, res_bind_ret. unfold disk_read_or_die, disk_read. rewrite Hb, res_bind_ret.
  rewrite andb_false_r, res_bind_ret. unfold store_sum_blk. rewrite (rd_lookup _ _ _ (proj1 Ht) Hc), res_bind_ret.
  rewrite wr_total by (apply lookup_lt_Some in Hc; lia). rewrite !res_bind_ret.
  pose proof (lookup_lt_Some _ _ _ Hc) as Hlt.
  destruct (reset_curseg_eq (with_cursegs st (<[Z.to_nat type := set_sum_blk (blank c) b]> (sg_cursegs st))) type
              (set_sum_blk c b)) as (ses & -> & Hses); [done| |done..|].
  - cbn [sg_cursegs with_cursegs]. by rewrite list_lookup_insert_eq.
  - exists ses. split; [|done]. unfold with_loaded, with_cursegs, with_sentries.
    cbn [sg sg_sentries sg_cursegs sg_counts sg_main_bitmap sg_sit_area sg_disk]. by rewrite list_insert_insert_eq.
Qed.

(** Every current segment loaded from its block of the pack. *)
Lemma normal_loop_eq todo : forall st done, sg st = g -> (length done + length todo = 6)%nat ->
  sg_cursegs st = done ++ map blank todo ->
  (forall j c, todo !! j = Some c -> let i := Z.of_nat (length done + j) in
     cp_keeps (g_ckpt g) i c /\ 0 <= cs_segno c < Z.of_nat (length (sg_sentries st)) /\
     length (cs_sum_blk c) = 4096%nat /\ sg_disk st !! (start + t - 7 + i) = Some (cs_sum_blk c)) ->
  exists ses, normal_loop (length todo) st cur_cp (Z.of_nat (length done)) =
      Ok (with_sentries (with_cursegs st (done ++ imap (fun j c =>
            set_sum_blk c (footed (Z.of_nat (length done + j)) (cs_sum_blk c))) todo)) ses) /\
    length ses = length (sg_sentries st).
Proof.
  induction todo as [|c todo IH]; intros st pre Hg Hl Hcs H; cbn [length normal_loop].
  { exists (sg_sentries st). split; [|done]. cbn [map] in Hcs. rewrite imap_nil, <- Hcs. by destruct st. }
  destruct (H 0%nat c eq_refl) as (Hk & Hs & Hlen & Hd). rewrite Nat.add_0_r in Hk, Hd. cbn [length] in Hl.
  destruct (read_normal_eq st (Z.of_nat (length pre)) c (cs_sum_blk c)) as (ses & -> & Hses); [done|lia|done| |done..|].
  { rewrite Hcs, Nat2Z.id. cbn [map]. by rewrite lookup_app_r, Nat.sub_diag by lia. }
  rewrite res_bind_ret. set (c' := set_sum_blk c _).
  replace (Z.of_nat (length pre) + 1) with (Z.of_nat (length (pre ++ [c']))) by (rewrite length_app; cbn [length]; lia).
  destruct (IH (with_loaded st (Z.of_nat (length pre)) c' ses) (pre ++ [c'])) as (ses' & -> & Hses').
  - done.
  - rewrite length_app. cbn [length]. lia.
  - unfold with_loaded. cbn [sg_cursegs with_cursegs with_sentries]. rewrite Hcs, Nat2Z.id. cbn [map].
    by rewrite insert_app_r_alt, Nat.sub_diag, <- app_assoc by lia.
  - intros j c2 Hj. unfold with_loaded. cbn [sg_sentries sg_disk with_cursegs with_sentries]. rewrite Hses.
    replace (length (pre ++ [c']) + j)%nat with (length pre + S j)%nat by (rewrite length_app; cbn [length]; lia).
    by apply H.
  - exists ses'. split; [|by rewrite Hses'; cbn]. f_equal. unfold with_loaded, with_cursegs, with_sentries. cbn.
    rewrite <- app_assoc. cbn [app]. unfold c'. rewrite Nat.add_0_r. do 3 f_equal. apply imap_ext.
    intros i x _. cbn. rewrite length_app. cbn [length]. do 2 f_equal. lia.
Qed.
End Load.

(** What mount makes of the current segments [css] of a pack with normal summaries. *)
Definition reloaded (css : list curseg_info) : list curseg_info :=
  imap (fun j c => set_sum_blk c (footed (Z.of_nat j) (cs_sum_blk c))) css.

(** The pack [cur_cp] keeps [css]: their positions and, at its end, their summaries. *)
Record pack_keeps (g : seg_cfg) (d : disk) (cur_cp t : Z) (css : list curseg_info) : Prop := {
  pk_umount : is_set_ckpt_flags (g_ckpt g) CP_UMOUNT_FLAG = Ok true;
  pk_compact : is_set_ckpt_flags (g_ckpt g) CP_COMPACT_SUM_FLAG = Ok false;
  pk_total : get_le32 (g_ckpt g) ofs_cp_pack_total_block_count = Ok t;
  pk_range : 0 <= __start_cp_addr (g_super g) (blocks_per_seg g) cur_cp + t - 7 /\
             __start_cp_addr (g_super g) (blocks_per_seg g) cur_cp + t <= 2 ^ 32;
  pk_six : length css = 6%nat;
  pk_each : forall j c, css !! j = Some c ->
    cp_keeps (g_ckpt g) (Z.of_nat j) c /\ curseg_ok (g_main_segments g) c /\
    d !! (__start_cp_addr (g_super g) (blocks_per_seg g) cur_cp + t - 7 + Z.of_nat j) = Some (cs_sum_blk c);
}.

Lemma build_curseg_normal st cur_cp t css :
  pack_keeps (sg st) (sg_disk st) cur_cp t css -> g_main_segments (sg st) = Z.of_nat (length (sg_sentries st)) ->
  exists ses, build_curseg st cur_cp = Ok (with_sentries (with_cursegs st (reloaded css)) ses) /\
    length ses = length (sg_sentries st).
Proof.
  intros [Hu Hcm Ht Hr H6 He] Hn. unfold build_curseg. change (Z.to_nat NR_CURSEG_TYPE) with 6%nat. rewrite <- H6.
  rewrite curseg_array_eq by (intros j c Hj; rewrite Z.add_0_l; by destruct (He j c Hj) as (? & ? & ?)).
  rewrite res_bind_ret. unfold restore_curseg_summaries. cbn [sg with_cursegs]. rewrite Hcm, res_bind_ret.
  destruct (normal_loop_eq (sg st) cur_cp t Hu Ht Hr css (with_cursegs st (map blank css)) []) as (ses & Hl & Hses);
    [done..| |].
  - intros j c Hj. destruct (He j c Hj) as (? & (? & ? & ? & ? & ?) & ?).
    cbn [sg_sentries sg_disk with_cursegs length Nat.add]. by rewrite <- Hn.
  - rewrite H6 in Hl. exists ses. by split.
Qed.
