(* ===== verification/CkptWrite.v ===== *)
(** Writing checkpoints (fsck/mount.c): the members and flags, the positions of the
    current segments, one pack, and the pair of packs.

    The operations work on the state of the segments, whose [g_ckpt] is the
    checkpoint in memory (its first block, followed by the payload), and keep the
    list of the block writes they make, in order. *)
From Stdlib Require Import ZArith Lia List Bool.
From stdpp Require Import base numbers list gmap.
From S2P Require Import Prelude Codec Bits Crc Superblock Mkfs Checkpoint Nat NatBits Segment Curseg.

Definition with_ckpt (st : seg_state) (cp : list Z) : seg_state :=
  let g := sg st in {|
  sg := {| g_func := g_func g; g_zoned_hm := g_zoned_hm g; g_super := g_super g; g_ckpt := cp; g_log := g_log g;
           g_segs_per_sec := g_segs_per_sec g; g_main_blkaddr := g_main_blkaddr g; g_ssa_blkaddr := g_ssa_blkaddr g;
           g_main_segments := g_main_segments g; g_segment_count := g_segment_count g;
           g_reserved_segments := g_reserved_segments g; g_user_block_count := g_user_block_count g;
           g_total_node_count := g_total_node_count g; g_sit_base_addr := g_sit_base_addr g;
           g_sit_blocks := g_sit_blocks g; g_sit_bitmap := g_sit_bitmap g |};
  sg_sentries := sg_sentries st; sg_cursegs := sg_cursegs st; sg_counts := sg_counts st;
  sg_main_bitmap := sg_main_bitmap st; sg_sit_area := sg_sit_area st; sg_disk := sg_disk st |}.

(** * Members of the checkpoint *)

Definition ofs_valid_block_count : Z := 16.
Definition ofs_free_segment_count : Z := 32.
Definition ofs_valid_node_count : Z := 144.
Definition ofs_valid_inode_count : Z := 148.

Definition CP_DISABLED_FLAG : Z := 0x1000.
Definition CP_TRIMMED_FLAG : Z := 0x100.
Definition CP_ORPHAN_PRESENT_FLAG : Z := 0x2.

(** * Packs *)

Fixpoint zero_journal_loop (n : nat) (st : seg_state) (i : Z) : res seg_state :=
  match n with
  | O => Ok st
  | S n =>
      curseg ← rd (sg_cursegs st) i;
      sum ← set_le16 (cs_sum_blk curseg) ofs_journal 0;
      st ← store_sum_blk st (Some i) sum;
      zero_journal_loop n st (i + 1)
  end.
Definition zero_journal_entries (st : seg_state) : res seg_state := zero_journal_loop (Z.to_nat NO_CHECK_TYPE) st 0.

Fixpoint write_curseg_loop (n : nat) (st : seg_state) (cp : list Z) (i : Z) : res (list Z) :=
  match n with
  | O => Ok cp
  | S n =>
      curseg ← rd (sg_cursegs st) i;
      cp ← wr cp (ofs_alloc_type i) (cs_alloc_type curseg);
      cp ← (if i <? CURSEG_HOT_NODE then
              cp ← set_le32 cp (ofs_cur_data_segno i) (cs_segno curseg);
              set_le16 cp (ofs_cur_data_blkoff i) (cs_next_blkoff curseg)
            else
              cp ← set_le32 cp (ofs_cur_node_segno (i - CURSEG_HOT_NODE)) (cs_segno curseg);
              set_le16 cp (ofs_cur_node_blkoff (i - CURSEG_HOT_NODE)) (cs_next_blkoff curseg));
      write_curseg_loop n st cp (i + 1)
  end.
Definition write_curseg_info (st : seg_state) : res seg_state :=
  cp ← write_curseg_loop (Z.to_nat NO_CHECK_TYPE) st (g_ckpt (sg st)) 0; Ok (with_ckpt st cp).

(** The summaries of the current segments, in the pack and in the summary area. *)
Fixpoint write_summaries (n : nat) (w : wlog) (st : seg_state) (cp_blk_no i : Z) : res wlog :=
  match n with
  | O => Ok w
  | S n =>
      curseg ← rd (sg_cursegs st) i;
      w ← put w cp_blk_no (cs_sum_blk curseg);
      w ← (if RO (sg st) then Ok w
           else put w (GET_SUM_BLKADDR (sg st) (cs_segno curseg)) (cs_sum_blk curseg));
      write_summaries n w st (cp_blk_no + 1) (i + 1)
  end.

(** The members that [write_checkpoint] sets: the checkpoint, the flags and the
    number of orphan blocks. *)
Definition fill_checkpoint (st : seg_state) : res (list Z * Z * Z) :=
  let g := sg st in
  let cp := g_ckpt g in
  let n := sg_counts st in
  orphan ← is_set_ckpt_flags cp CP_ORPHAN_PRESENT_FLAG;
  orphan_blks ← (if orphan : bool then s ← __start_sum_addr cp; Ok (u32 (s - 1)) else Ok 0);
  trimmed ← is_set_ckpt_flags cp CP_TRIMMED_FLAG;
  disabled ← is_set_ckpt_flags cp CP_DISABLED_FLAG;
  large ← is_set_ckpt_flags cp CP_LARGE_NAT_BITMAP_FLAG;
  let add (b : bool) (f flags : Z) := if b then Z.lor flags f else flags in
  let flags := add large CP_LARGE_NAT_BITMAP_FLAG (add disabled CP_DISABLED_FLAG
                 (add trimmed CP_TRIMMED_FLAG (add orphan CP_ORPHAN_PRESENT_FLAG CP_UMOUNT_FLAG))) in
  cp ← set_le32 cp ofs_cp_checksum_offset (if large : bool then CP_MIN_CHKSUM_OFFSET else CP_CHKSUM_OFFSET);
  free ← get_free_segments st;
  cp ← set_le32 cp ofs_free_segment_count free;
  let fsck := is_fsck (g_func g) in
  cp ← set_le64 cp ofs_valid_block_count (if fsck then n_chk_blk n else n_valid_block n);
  cp ← set_le32 cp ofs_valid_node_count (if fsck then n_chk_node n else n_valid_node n);
  cp ← set_le32 cp ofs_valid_inode_count (if fsck then n_chk_inode n else n_valid_inode n);
  cp ← set_le32 cp ofs_cp_pack_total_block_count (u32 (8 + orphan_blks + sb_cp_payload (g_super g)));
  flags ← update_nat_bits_flags (g_super g) cp flags;
  cp ← set_le32 cp ofs_ckpt_flags flags;
  crc ← f2fs_checkpoint_chksum cp;
  off ← get_le32 cp ofs_cp_checksum_offset;
  cp ← set_le32 cp off crc;
  Ok (cp, flags, orphan_blks).

Definition write_checkpoint (st : seg_state) (nm : f2fs_nm_info) (cur_cp : Z) (bug : bool)
    : res (seg_state * list (Z * list Z) * bool) :=
  let sb := g_super (sg st) in
  '(cp, flags, orphan_blks) ← fill_checkpoint st;
  _ ← defined_ (sb_log_blocks_per_seg sb <? 31);
  let cp_blk_no := if cur_cp =? 2 then sb_cp_blkaddr sb + Z.shiftl 1 (sb_log_blocks_per_seg sb) else sb_cp_blkaddr sb in
  let block := take 4096 cp in
  w ← put (sg_disk st, []) cp_blk_no block;
  let cp_blk_no := cp_blk_no + 1 + sb_cp_payload sb + orphan_blks in
  w ← write_summaries (Z.to_nat NO_CHECK_TYPE) w st cp_blk_no 0;
  '(w, bug) ← (if negb (Z.land flags CP_NAT_BITS_FLAG =? 0) then write_nat_bits w sb cp nm cur_cp bug
               else Ok (w, bug));
  w ← put w (cp_blk_no + NO_CHECK_TYPE) block;
  Ok (with_ckpt (with_seg_disk st w.1) cp, w.2, bug).

(** Copying the pack in force to the other one. *)
Fixpoint read_blocks (n : nat) (d : disk) (a : Z) : res (list (list Z)) :=
  match n with
  | O => Ok []
  | S n => b ← disk_read_or_die d a; rest ← read_blocks n d (a + 1); Ok (b :: rest)
  end.
Fixpoint put_list (w : wlog) (a : Z) (bs : list (list Z)) : res wlog :=
  match bs with
  | [] => Ok w
  | b :: bs => w ← put w a b; put_list w (a + 1) bs
  end.
Definition duplicate_checkpoint (sb : f2fs_super_block) (d : disk) (cur_cp : Z) (cp_backuped : bool) : res wlog :=
  if cp_backuped then Ok (d, [])
  else
    _ ← defined_ (sb_log_blocks_per_seg sb <? 31);
    let seg_size := Z.shiftl 1 (sb_log_blocks_per_seg sb) in
    let cp1 := sb_cp_blkaddr sb in
    let '(src, dst) := if cur_cp =? 1 then (cp1, cp1 + seg_size) else (cp1 + seg_size, cp1) in
    bs ← read_blocks (Z.to_nat seg_size) d src;
    put_list (d, []) dst bs.

Definition write_checkpoints (st : seg_state) (nm : f2fs_nm_info) (cur_cp : Z) (cp_backuped bug : bool)
    : res (seg_state * list (Z * list Z) * bool) :=
  w ← duplicate_checkpoint (g_super (sg st)) (sg_disk st) cur_cp cp_backuped;
  '(st, ws, bug) ← write_checkpoint (with_seg_disk st w.1) nm 1 bug;
  Ok (st, w.2 ++ ws, bug).

(** * Summaries *)

Definition in_ssa (g : seg_cfg) (a : Z) : Prop := g_ssa_blkaddr g <= a < g_ssa_blkaddr g + g_main_segments g.

Section Summaries.
Context (st : seg_state).
Context (Hssa : 0 <= g_ssa_blkaddr (sg st) /\ g_ssa_blkaddr (sg st) + g_main_segments (sg st) <= 2 ^ 32).
Context (Hcur : Forall (curseg_ok (g_main_segments (sg st))) (sg_cursegs st)).

Lemma write_summaries_spec todo : forall w done a, sg_cursegs st = done ++ todo ->
  a + Z.of_nat (length todo) <= g_ssa_blkaddr (sg st) ->
  (forall x, a <= x < a + Z.of_nat (length todo) \/ in_ssa (sg st) x -> has_block w.1 x) ->
  exists w', write_summaries (length todo) w st a (Z.of_nat (length done)) = Ok w' /\
    wrote (fun x => a <= x < a + Z.of_nat (length todo) \/ in_ssa (sg st) x) w w' /\
    forall j c, todo !! j = Some c -> w'.1 !! (a + Z.of_nat j) = Some (cs_sum_blk c).
Proof.
  induction todo as [|c todo IH]; intros w pre a Hcs Ha Hd; cbn [length write_summaries].
  { exists w. split; [done|]. split; [apply wrote_refl|done]. }
  assert (sg_cursegs st !! length pre = Some c) as Hc by (by rewrite Hcs, lookup_app_r, Nat.sub_diag by lia).
  destruct (Forall_lookup_1 _ _ _ _ Hcur Hc) as (Hs & _ & _ & Hl & Hb).
  rewrite (rd_lookup _ _ c) by (rewrite ?Nat2Z.id; done || lia). rewrite res_bind_ret.
  cbn [length] in *. set (R := fun x => a <= x < a + Z.of_nat (S (length todo)) \/ in_ssa (sg st) x).
  destruct (put_wrote R w a (cs_sum_blk c)) as (w1 & -> & Hw1 & Hv1 & _); [apply Hd; lia|done..|unfold R; lia|].
  rewrite res_bind_ret.
  assert (exists w2, (if RO (sg st) then Ok w1 else put w1 (GET_SUM_BLKADDR (sg st) (cs_segno c)) (cs_sum_blk c)) = Ok w2
    /\ wrote R w1 w2 /\ w2.1 !! a = Some (cs_sum_blk c)) as (w2 & -> & Hw2 & Hv2).
  { destruct (RO (sg st)); [exists w1; split; [done|]; split; [apply wrote_refl|done]|].
    unfold GET_SUM_BLKADDR. rewrite u32_id by (unfold is_u32; lia).
    destruct (put_wrote (in_ssa (sg st)) w1 (g_ssa_blkaddr (sg st) + cs_segno c) (cs_sum_blk c)) as (w2 & -> & Hw2 & _ & _);
      [|done..|unfold in_ssa; lia|].
    - eapply wrote_has_block; [exact Hw1|]. apply Hd. right. unfold in_ssa. lia.
    - exists w2. split; [done|]. split; [eapply wrote_mono; [|exact Hw2]; by right|].
      rewrite (wrote_outside _ _ _ a Hw2); [done|]. unfold in_ssa. lia. }
  rewrite res_bind_ret. pose proof (wrote_trans _ _ _ _ Hw1 Hw2) as Hw12.
  replace (Z.of_nat (length pre) + 1) with (Z.of_nat (length (pre ++ [c]))) by (rewrite length_app; cbn [length]; lia).
  destruct (IH w2 (pre ++ [c]) (a + 1)) as (w' & -> & Hw' & Hv').
  - by rewrite Hcs, <- app_assoc.
  - lia.
  - intros x Hx. eapply wrote_has_block; [exact Hw12|]. apply Hd. destruct Hx; [left; lia|by right].
  - exists w'. split; [done|]. split.
    + eapply wrote_trans; [exact Hw12|]. eapply wrote_mono; [|exact Hw']. unfold R. intros x [?|?]; [left; lia|by right].
    + intros [|j] c' Hj.
      * injection Hj as <-. rewrite Z.add_0_r, (wrote_outside _ _ _ a Hw'); [done|]. unfold in_ssa. lia.
      * rewrite <- (Hv' j c' Hj). f_equal. lia.
Qed.
End Summaries.

(** * The members of a new checkpoint *)

(** The blocks that hold orphans. *)
Definition orphan_blocks (cp : list Z) : res Z :=
  orphan ← is_set_ckpt_flags cp CP_ORPHAN_PRESENT_FLAG;
  if orphan : bool then s ← __start_sum_addr cp; Ok (u32 (s - 1)) else Ok 0.

(** The bytes of a checkpoint that [write_checkpoint] does not set (the checksum
    comes after them). *)
Definition kept_byte (i : Z) : Prop :=
  0 <= i < 16 \/ 24 <= i < 32 \/ 36 <= i < 132 \/ 140 <= i < 144 \/ 152 <= i < 164 \/ 168 <= i < 192.

(** The counts that go into a checkpoint: blocks, nodes and inodes. *)
Definition ckpt_counts (st : seg_state) : Z * Z * Z :=
  let n := sg_counts st in let fsck := is_fsck (g_func (sg st)) in
  (if fsck then n_chk_blk n else n_valid_block n, if fsck then n_chk_node n else n_valid_node n,
   if fsck then n_chk_inode n else n_valid_inode n).

Record filled (sb : f2fs_super_block) (n : Z * Z * Z) (cp cp' : list Z) (flags o : Z) : Prop := {
  fl_len : length cp' = length cp;
  fl_bytes : bytes cp';
  fl_verify : verify_checksum_chksum (take 4096 cp') = Ok 0;
  fl_total : get_le32 cp' ofs_cp_pack_total_block_count = Ok (8 + o + sb_cp_payload sb);
  fl_umount : is_set_ckpt_flags cp' CP_UMOUNT_FLAG = Ok true;
  fl_compact : is_set_ckpt_flags cp' CP_COMPACT_SUM_FLAG = Ok false;
  fl_nat : Z.land flags CP_NAT_BITS_FLAG <> 0 -> 8 + o + sb_cp_payload sb <= 512 - nat_bits_size sb;
  fl_blocks : is_u64 n.1.1 -> get_le64 cp' ofs_valid_block_count = Ok n.1.1;
  fl_nodes : is_u32 n.1.2 -> get_le32 cp' ofs_valid_node_count = Ok n.1.2;
  fl_inodes : is_u32 n.2 -> get_le32 cp' ofs_valid_inode_count = Ok n.2;
  fl_kept : forall i, kept_byte i -> rd cp' i = rd cp i;
}.

(** The flags of the new checkpoint, with or without the bits of the table. *)
Definition base_flags (orphan trimmed disabled large : bool) : Z :=
  let add (b : bool) (f flags : Z) := if b then Z.lor flags f else flags in
  add large CP_LARGE_NAT_BITMAP_FLAG (add disabled CP_DISABLED_FLAG
    (add trimmed CP_TRIMMED_FLAG (add orphan CP_ORPHAN_PRESENT_FLAG CP_UMOUNT_FLAG))).
Definition nat_flag (flags : Z) (b : bool) : Z :=
  if b then Z.lor flags CP_NAT_BITS_FLAG else Z.land flags (u32 (Z.lnot CP_NAT_BITS_FLAG)).

Lemma new_flags_ok o' t d l b : let f := nat_flag (base_flags o' t d l) b in
  (0 <= f < 2 ^ 32) /\ (Z.land f CP_UMOUNT_FLAG =? 0) = false /\ (Z.land f CP_COMPACT_SUM_FLAG =? 0) = true /\
  (Z.land f CP_NAT_BITS_FLAG =? 0) = negb b.
Proof. by destruct o', t, d, l, b; vm_compute. Qed.

(** The last step: the checksum over the rest. *)
Lemma seal_checkpoint cp off : (4096 <= length cp)%nat -> bytes cp ->
  get_le32 cp ofs_cp_checksum_offset = Ok off -> CP_MIN_CHKSUM_OFFSET <= off <= CP_CHKSUM_OFFSET ->
  exists crc, f2fs_checkpoint_chksum cp = Ok crc /\ set_le32 cp off crc = Ok (edit cp [(off, le_bytes 4 crc)]) /\
    verify_checksum_chksum (take 4096 (edit cp [(off, le_bytes 4 crc)])) = Ok 0.
Proof.
  intros Hl Hb Hoff Hr. pose proof Hr as Hr'. unfold CP_MIN_CHKSUM_OFFSET, CP_CHKSUM_OFFSET in Hr'.
  rewrite (checkpoint_chksum_take cp off) by done. eexists. split; [done|]. split; [apply set_le_Ok; lia|].
  cbn [edit fold_left fst snd]. rewrite take_splice by (rewrite ?length_le_bytes; lia).
  apply chksum_stored; [rewrite length_take; lia|by apply Forall_take| |done].
  rewrite get_le_take by (unfold ofs_cp_checksum_offset; lia). exact Hoff.
Qed.

Section Fill.
Context (st : seg_state) (need : bool) (o : Z) (Hinv : seg_inv st need).
Let cp : list Z := g_ckpt (sg st).
Let sb : f2fs_super_block := g_super (sg st).
Context (Hb : bytes cp) (Hl : (4096 <= length cp)%nat).
Context (Ho : orphan_blocks cp = Ok o) (Ho0 : 0 <= o) (Hp : 0 <= sb_cp_payload sb).
Context (Ht : 8 + o + sb_cp_payload sb <= 512).
Context (Hn : 0 <= sb_segment_count_nat sb <= 2 ^ 14).

Lemma update_nat_bits_flags_eq cp1 flags :
  get_le32 cp1 ofs_cp_pack_total_block_count = Ok (8 + o + sb_cp_payload sb) ->
  exists b : bool, update_nat_bits_flags sb cp1 flags = Ok (nat_flag flags b) /\
    (b = true -> 8 + o + sb_cp_payload sb <= 512 - nat_bits_size sb).
Proof.
  intros Htot. unfold update_nat_bits_flags. cbv zeta.
  rewrite (Z.shiftl_mul_pow2 _ 5) by lia. change (2 ^ 5) with 32.
  rewrite (u32_id (_ * 32)) by (unfold is_u32; lia). rewrite (Z.mul_comm _ 32), nat_bits_size_eq by lia.
  pose proof (co_sb_log _ _ _ (si_cfg _ _ Hinv)) as Hlog. fold sb in Hlog. rewrite Hlog.
  change (defined_ (9 <? 31)) with (@Ok unit tt). rewrite res_bind_ret, Htot, res_bind_ret.
  change (Z.shiftl 1 9) with 512.
  assert (0 <= nat_bits_size sb <= 257) by (unfold nat_bits_size; Z.to_euclidean_division_equations; lia).
  rewrite u32_id by (unfold is_u32; lia). eexists. split; [done|]. intros H'%Z.leb_le. lia.
Qed.

(** One more member stored in the edited checkpoint. *)
Lemma set_le_edit n es ofs v : Forall (edit_in (length cp)) es -> 0 <= ofs -> ofs + Z.of_nat n <= 4096 ->
  set_le n (edit cp es) ofs v = Ok (edit cp (es ++ [(ofs, le_bytes n v)])).
Proof. intros He H0 Hm. rewrite edit_snoc. cbn [fst snd]. apply set_le_Ok; [done|]. rewrite length_edit by done. lia. Qed.

Lemma get_le_edit es n ofs v : Forall (edit_in (length cp)) (es ++ [(ofs, le_bytes n v)]) ->
  0 <= v < 2 ^ (8 * Z.of_nat n) -> get_le n (edit cp (es ++ [(ofs, le_bytes n v)])) ofs = Ok v.
Proof.
  intros He Hv. apply Forall_app in He as [He [[H1 H2] _]%Forall_cons]. cbn [fst snd] in *. rewrite length_le_bytes in H2.
  rewrite edit_snoc. cbn [fst snd]. apply get_set_le; [done|by rewrite length_edit|done].
Qed.

#[local] Ltac members :=
  cbn [app]; repeat (apply Forall_cons; split); try apply Forall_nil; unfold edit_in; cbn [fst snd];
  rewrite ?length_le_bytes; cbv [ofs_cp_checksum_offset ofs_free_segment_count ofs_valid_block_count ofs_valid_node_count
    ofs_valid_inode_count ofs_cp_pack_total_block_count ofs_ckpt_flags]; lia.
#[local] Ltac store_member := rewrite set_le_edit by (done || members); rewrite res_bind_ret; cbn [app].

(** The members that do not depend on the flags. *)
Definition count_members (off free vb vn vi total : Z) : list (Z * list Z) :=
  [(ofs_cp_checksum_offset, le_bytes 4 off); (ofs_free_segment_count, le_bytes 4 free);
   (ofs_valid_block_count, le_bytes 8 vb); (ofs_valid_node_count, le_bytes 4 vn);
   (ofs_valid_inode_count, le_bytes 4 vi); (ofs_cp_pack_total_block_count, le_bytes 4 total)].

Lemma filled_edit off free vb vn vi flags crc :
  let total := 8 + o + sb_cp_payload sb in
  let es := count_members off free vb vn vi total ++ [(ofs_ckpt_flags, le_bytes 4 flags); (off, le_bytes 4 crc)] in
  CP_MIN_CHKSUM_OFFSET <= off <= CP_CHKSUM_OFFSET -> 0 <= flags < 2 ^ 32 ->
  (Z.land flags CP_UMOUNT_FLAG =? 0) = false -> (Z.land flags CP_COMPACT_SUM_FLAG =? 0) = true ->
  (Z.land flags CP_NAT_BITS_FLAG <> 0 -> total <= 512 - nat_bits_size sb) ->
  verify_checksum_chksum (take 4096 (edit cp es)) = Ok 0 ->
  filled sb (vb, vn, vi) cp (edit cp es) flags o.
Proof.
  intros total es Hoff Hf Hu Hc Hnat Hv. unfold CP_MIN_CHKSUM_OFFSET, CP_CHKSUM_OFFSET in Hoff.
  assert (Forall (edit_in (length cp)) es) as He by (unfold es, count_members; members).
  assert (get_le32 (edit cp es) ofs_ckpt_flags = Ok flags) as Hfl.
  { change (edit cp es) with
      (edit (edit cp (count_members off free vb vn vi total ++ [(ofs_ckpt_flags, le_bytes 4 flags)])) [(off, le_bytes 4 crc)]).
    rewrite get_le_edit_ne; [apply get_le_edit; [unfold count_members; members|done]| |].
    - rewrite length_edit by (unfold count_members; members). members.
    - members. }
  assert (forall j n ofs v, es !! j = Some (ofs, le_bytes n v) -> (j < 6)%nat -> 0 <= v < 2 ^ (8 * Z.of_nat n) ->
    Forall (fun e => ofs + Z.of_nat n <= e.1 \/ e.1 + Z.of_nat (length e.2) <= ofs) (drop (S j) es) ->
    get_le n (edit cp es) ofs = Ok v) as Hget.
  { intros j n ofs v Hj _ Hr Hd. rewrite <- (take_drop_middle es j _ Hj) in He |- *.
    rewrite (cons_middle _ (take j es)), app_assoc in He |- *. rewrite edit_app.
    apply Forall_app in He as [He1 He2]. rewrite get_le_edit_ne; [by apply get_le_edit| |done].
    by rewrite length_edit. }
  constructor.
  - by apply length_edit.
  - apply bytes_edit; [done|]. unfold es, count_members. cbn [app].
    repeat (apply Forall_cons; split; [cbn [snd]; apply bytes_le_bytes|]). by apply Forall_nil.
  - done.
  - apply (Hget 5%nat); [done|lia|change (8 * Z.of_nat 4) with 32; lia|members].
  - unfold is_set_ckpt_flags. by rewrite Hfl, res_bind_ret, Hu.
  - unfold is_set_ckpt_flags. by rewrite Hfl, res_bind_ret, Hc.
  - done.
  - intros Hr. apply (Hget 2%nat); [done|lia|exact Hr|members].
  - intros Hr. apply (Hget 3%nat); [done|lia|exact Hr|members].
  - intros Hr. apply (Hget 4%nat); [done|lia|exact Hr|members].
  - intros i Hi. unfold kept_byte in Hi. apply rd_edit_ne; [done|]. unfold es, count_members. members.
Qed.

Lemma fill_tail orphan trimmed disabled large free vb vn vi :
  let off := if large : bool then CP_MIN_CHKSUM_OFFSET else CP_CHKSUM_OFFSET in
  let cp6 := edit cp (count_members off free vb vn vi (8 + o + sb_cp_payload sb)) in
  exists cp' b,
    (flags ← update_nat_bits_flags sb cp6 (base_flags orphan trimmed disabled large);
     cp7 ← set_le32 cp6 ofs_ckpt_flags flags;
     crc ← f2fs_checkpoint_chksum cp7; off ← get_le32 cp7 ofs_cp_checksum_offset;
     cp8 ← set_le32 cp7 off crc; Ok (cp8, flags, o)) = Ok (cp', nat_flag (base_flags orphan trimmed disabled large) b, o) /\
    filled sb (vb, vn, vi) cp cp' (nat_flag (base_flags orphan trimmed disabled large) b) o.
Proof.
  intros off cp6. assert (CP_MIN_CHKSUM_OFFSET <= off <= CP_CHKSUM_OFFSET) as Hoff by (unfold off; by destruct large).
  set (total := 8 + o + sb_cp_payload sb) in *.
  pose proof Hoff as Hoff'. unfold CP_MIN_CHKSUM_OFFSET, CP_CHKSUM_OFFSET in Hoff'.
  destruct (update_nat_bits_flags_eq cp6 (base_flags orphan trimmed disabled large)) as (b & Hu & Hnat).
  { unfold cp6, count_members. apply (get_le_edit [_; _; _; _; _]); [members|change (8 * Z.of_nat 4) with 32; lia]. }
  fold total in Hnat. rewrite Hu, res_bind_ret.
  destruct (new_flags_ok orphan trimmed disabled large b) as (Hf & Hum & Hcm & Hnb).
  set (flags := nat_flag _ b) in *. set (es := count_members off free vb vn vi total ++ [(ofs_ckpt_flags, le_bytes 4 flags)]).
  assert (Forall (edit_in (length cp)) es) as He by (unfold es, count_members; members).
  assert (set_le32 cp6 ofs_ckpt_flags flags = Ok (edit cp es)) as Hset
    by (unfold cp6; rewrite set_le_edit by (done || (unfold count_members; members)); done).
  assert (get_le32 (edit cp es) ofs_cp_checksum_offset = Ok off) as Hgo.
  { change (edit cp es) with (edit (edit cp ([] ++ [(ofs_cp_checksum_offset, le_bytes 4 off)])) (drop 1 es)).
    rewrite get_le_edit_ne; [apply get_le_edit; [members|change (8 * Z.of_nat 4) with 32; lia]| |].
    - rewrite length_edit by members. unfold es, count_members. cbn [app drop]. members.
    - unfold es, count_members. cbn [app drop]. members. }
  destruct (seal_checkpoint (edit cp es) off) as (crc & Hcrc & Hst & Hv); [by rewrite length_edit| |done..|].
  { apply bytes_edit; [done|]. unfold es, count_members. cbn [app].
    repeat (apply Forall_cons; split; [cbn [snd]; apply bytes_le_bytes|]). by apply Forall_nil. }
  rewrite <- edit_app in Hst, Hv. eexists (edit cp (es ++ [(off, le_bytes 4 crc)])), b. fold flags. split.
  - rewrite Hset, res_bind_ret, Hcrc, res_bind_ret, Hgo, res_bind_ret, Hst, res_bind_ret. done.
  - apply (filled_edit off free vb vn vi flags crc); try done.
    rewrite <- Z.eqb_neq, Hnb. intros Hb'%negb_false_iff. auto.
Qed.

Lemma fill_checkpoint_spec : exists cp' flags, fill_checkpoint st = Ok (cp', flags, o) /\ filled sb (ckpt_counts st) cp cp' flags o.
Proof.
  assert (forall f, exists b, is_set_ckpt_flags cp f = Ok b) as Hflag.
  { intros f. unfold is_set_ckpt_flags. destruct (get_le_total 4 cp ofs_ckpt_flags) as [v ->]; [done|unfold ofs_ckpt_flags; lia|].
    rewrite res_bind_ret. by eexists. }
  unfold fill_checkpoint. fold cp sb. cbv zeta. unfold orphan_blocks in Ho.
  destruct (Hflag CP_ORPHAN_PRESENT_FLAG) as [orphan Horph]. rewrite Horph in Ho |- *. cbn [mbind res_bind] in Ho. rewrite res_bind_ret.
  rewrite Ho, res_bind_ret. destruct (Hflag CP_TRIMMED_FLAG) as [trimmed ->], (Hflag CP_DISABLED_FLAG) as [disabled ->],
    (Hflag CP_LARGE_NAT_BITMAP_FLAG) as [large ->]. rewrite !res_bind_ret.
  set (flags0 := (if large then _ else _)). set (off := if large then CP_MIN_CHKSUM_OFFSET else CP_CHKSUM_OFFSET).
  assert (CP_MIN_CHKSUM_OFFSET <= off <= CP_CHKSUM_OFFSET) as Hoff by (unfold off; by destruct large).
  destruct (free_segments_total need (Z.to_nat (TOTAL_SEGS (sg st))) st 0 0 Hinv) as [free Hfree]; [lia| |].
  { unfold TOTAL_SEGS. rewrite (co_segs _ _ _ (si_cfg _ _ Hinv)). lia. }
  unfold get_free_segments. rewrite Hfree, u32_id by (unfold is_u32; lia).
  change (set_le32 cp) with (set_le32 (edit cp [])). store_member. rewrite res_bind_ret. do 5 store_member.
  match goal with |- context [edit cp [_; _; (_, le_bytes 8 ?vb); (_, le_bytes 4 ?vn); (_, le_bytes 4 ?vi); _]] =>
    destruct (fill_tail orphan trimmed disabled large free vb vn vi) as (cp' & b & Hr & Hf) end.
  exists cp', (nat_flag (base_flags orphan trimmed disabled large) b). by split.
Qed.
End Fill.

(** * Positions of the current segments *)

(** What [write_curseg_info] stores for current segment [i]. *)
Definition curseg_members (i : Z) (c : curseg_info) : list (Z * list Z) :=
  (ofs_alloc_type i, [cs_alloc_type c]) ::
  if i <? CURSEG_HOT_NODE
  then [(ofs_cur_data_segno i, le_bytes 4 (cs_segno c)); (ofs_cur_data_blkoff i, le_bytes 2 (cs_next_blkoff c))]
  else [(ofs_cur_node_segno (i - CURSEG_HOT_NODE), le_bytes 4 (cs_segno c));
        (ofs_cur_node_blkoff (i - CURSEG_HOT_NODE), le_bytes 2 (cs_next_blkoff c))].

#[local] Ltac members :=
  unfold curseg_members, ofs_alloc_type, ofs_cur_data_segno, ofs_cur_data_blkoff, ofs_cur_node_segno, ofs_cur_node_blkoff,
    CURSEG_HOT_NODE in *;
  try match goal with |- context [if ?i <? 3 then _ else _] => destruct (Z.ltb_spec i 3) end;
  repeat (apply Forall_cons; split); try apply Forall_nil; unfold edit_in; cbn [fst snd length];
  rewrite ?length_le_bytes; lia.

Lemma curseg_members_in n i c : (4096 <= n)%nat -> 0 <= i < 6 -> Forall (edit_in n) (curseg_members i c).
Proof. intros. members. Qed.

Lemma wr_edit l ofs x : 0 <= ofs < Z.of_nat (length l) -> wr l ofs x = Ok (edit l [(ofs, [x])]).
Proof.
  intros H. pose proof (wr_list_splice l ofs [x] ltac:(lia) ltac:(cbn; lia)) as Hw. cbn [wr_list] in Hw.
  by destruct (wr l ofs x).
Qed.

Lemma three_members cp a s b x segno blkoff : (4096 <= length cp)%nat ->
  0 <= a < 4096 -> 0 <= s -> s + 4 <= 4096 -> 0 <= b -> b + 2 <= 4096 ->
  (a < s \/ s + 4 <= a) -> (a < b \/ b + 2 <= a) -> (s + 4 <= b \/ b + 2 <= s) ->
  0 <= segno < 2 ^ 32 -> 0 <= blkoff < 2 ^ 16 ->
  let cp' := edit cp [(a, [x]); (s, le_bytes 4 segno); (b, le_bytes 2 blkoff)] in
  get_le16 cp' b = Ok blkoff /\ get_le32 cp' s = Ok segno /\ rd cp' a = Ok x.
Proof.
  intros Hl Ha Hs Hs4 Hb Hb2 D1 D2 D3 Hsr Hbr cp'. unfold cp'. cbn [edit fold_left fst snd].
  set (l1 := splice cp a [x]). assert (length l1 = length cp) as Hl1 by (apply length_splice; cbn [length]; lia).
  set (l2 := splice l1 s _). assert (length l2 = length cp) as Hl2
    by (unfold l2; rewrite length_splice; rewrite ?length_le_bytes; lia).
  split; [|split].
  - apply get_set_le; [lia..|exact Hbr].
  - rewrite get_le_splice_ne by (rewrite ?length_le_bytes; lia). apply get_set_le; [lia..|exact Hsr].
  - rewrite rd_splice_ne by (rewrite ?length_le_bytes; lia). unfold l2.
    rewrite rd_splice_ne by (rewrite ?length_le_bytes; lia). unfold l1, rd.
    replace (a <? 0) with false by lia. rewrite lookup_splice by (cbn [length]; lia).
    cbn [length]. case_decide; [by rewrite Nat.sub_diag|lia].
Qed.

Lemma cp_keeps_self cp i c segs : (4096 <= length cp)%nat -> 0 <= i < 6 -> curseg_ok segs c -> segs <= 2 ^ 32 ->
  cp_keeps (edit cp (curseg_members i c)) i c.
Proof.
  intros Hl Hi (Hs & Ho & _) Hsegs. unfold cp_keeps, curseg_members, CURSEG_COLD_DATA, CURSEG_HOT_NODE.
  unfold ofs_alloc_type, ofs_cur_data_segno, ofs_cur_data_blkoff, ofs_cur_node_segno, ofs_cur_node_blkoff.
  destruct (Z.ltb_spec i 3), (Z.leb_spec i 2); try lia; apply and_assoc, three_members; lia.
Qed.

(** What one current segment stores does not concern the others. *)
Lemma cp_keeps_other cp i j c c' : (4096 <= length cp)%nat -> 0 <= i < 6 -> 0 <= j < 6 -> i <> j ->
  cp_keeps cp j c -> cp_keeps (edit cp (curseg_members i c')) j c.
Proof.
  intros Hl Hi Hj Hne. pose proof (curseg_members_in (length cp) i c' Hl Hi) as Hin. unfold cp_keeps, CURSEG_COLD_DATA.
  destruct (Z.leb_spec j 2); intros [[H1 H2] H3]; rewrite !get_le_edit_ne, rd_edit_ne; try done; members.
Qed.

Lemma cp_keeps_ext cp cp' j c : (forall i, 36 <= i < 132 \/ 176 <= i < 192 -> rd cp' i = rd cp i) -> 0 <= j < 6 ->
  cp_keeps cp j c -> cp_keeps cp' j c.
Proof.
  intros He Hj. assert (forall n o, 36 <= o -> o + Z.of_nat n <= 132 -> get_le n cp' o = get_le n cp o) as Hg.
  { intros n o H1 H2. unfold get_le. f_equal. apply rd_bytes_ext. intros i Hi. apply He. lia. }
  unfold cp_keeps, CURSEG_COLD_DATA, CURSEG_HOT_NODE, ofs_alloc_type, ofs_cur_data_segno, ofs_cur_data_blkoff,
    ofs_cur_node_segno, ofs_cur_node_blkoff.
  destruct (Z.leb_spec j 2); rewrite !Hg, He by lia; done.
Qed.

(** The checkpoint after [write_curseg_info]. *)
Record curseg_stored (cp cp' : list Z) (css : list curseg_info) : Prop := {
  cst_len : length cp' = length cp;
  cst_bytes : bytes cp -> bytes cp';
  cst_keeps : forall j c, css !! j = Some c -> cp_keeps cp' (Z.of_nat j) c;
  cst_rest : forall i, i < 36 \/ 132 <= i < 176 \/ 192 <= i -> rd cp' i = rd cp i;
}.

Section WriteCurseg.
Context (st : seg_state) (segs : Z) (Hsegs : segs <= 2 ^ 32).
Context (Hsix : length (sg_cursegs st) = 6%nat) (Hcur : Forall (curseg_ok segs) (sg_cursegs st)).

Lemma curseg_step cp i c : (4096 <= length cp)%nat -> 0 <= i < 6 ->
  (cp ← wr cp (ofs_alloc_type i) (cs_alloc_type c);
   if i <? CURSEG_HOT_NODE then
     cp ← set_le32 cp (ofs_cur_data_segno i) (cs_segno c); set_le16 cp (ofs_cur_data_blkoff i) (cs_next_blkoff c)
   else
     cp ← set_le32 cp (ofs_cur_node_segno (i - CURSEG_HOT_NODE)) (cs_segno c);
     set_le16 cp (ofs_cur_node_blkoff (i - CURSEG_HOT_NODE)) (cs_next_blkoff c)) = Ok (edit cp (curseg_members i c)).
Proof.
  intros Hl Hi. pose proof (curseg_members_in (length cp) i c Hl Hi) as Hin. unfold curseg_members in *.
  unfold ofs_alloc_type in *. rewrite wr_edit, res_bind_ret by lia. apply Forall_cons in Hin as [Ha Hin].
  assert (length (edit cp [(176 + i, [cs_alloc_type c])]) = length cp) as Hl1 by (apply length_edit; apply Forall_cons; by split).
  assert (forall s b, edit_in (length cp) (s, le_bytes 4 (cs_segno c)) -> edit_in (length cp) (b, le_bytes 2 (cs_next_blkoff c)) ->
    (cp ← set_le32 (edit cp [(176 + i, [cs_alloc_type c])]) s (cs_segno c); set_le16 cp b (cs_next_blkoff c)) =
    Ok (edit cp [(176 + i, [cs_alloc_type c]); (s, le_bytes 4 (cs_segno c)); (b, le_bytes 2 (cs_next_blkoff c))])) as Hs.
  { intros s b [H1 H2] [H3 H4]. cbn [fst snd] in *. rewrite length_le_bytes in H2, H4.
    rewrite set_le_Ok, res_bind_ret by (rewrite ?Hl1; lia). rewrite set_le_Ok; [done|lia|].
    rewrite length_splice; rewrite ?length_le_bytes, ?Hl1; lia. }
  destruct (i <? CURSEG_HOT_NODE); apply Forall_cons in Hin as [H1 [H2 _]%Forall_cons]; by apply Hs.
Qed.

Lemma write_curseg_loop_spec cp0 todo : forall done cp, (4096 <= length cp0)%nat ->
  sg_cursegs st = done ++ todo -> curseg_stored cp0 cp done ->
  exists cp', write_curseg_loop (length todo) st cp (Z.of_nat (length done)) = Ok cp' /\ curseg_stored cp0 cp' (done ++ todo).
Proof.
  induction todo as [|c todo IH]; intros pre cp Hl Hcs Hst; cbn [length write_curseg_loop].
  { exists cp. by rewrite app_nil_r. }
  assert (sg_cursegs st !! length pre = Some c) as Hc by (by rewrite Hcs, lookup_app_r, Nat.sub_diag by lia).
  pose proof (Forall_lookup_1 _ _ _ _ Hcur Hc) as Hok. pose proof (lookup_lt_Some _ _ _ Hc) as Hlt.
  rewrite (rd_lookup _ _ c) by (rewrite ?Nat2Z.id; done || lia). rewrite res_bind_ret.
  destruct Hst as [Hlen Hby Hk Hr]. assert (4096 <= length cp)%nat as Hl' by lia.
  pose proof (curseg_step cp (Z.of_nat (length pre)) c Hl' ltac:(lia)) as Hs.
  apply res_bind_Ok in Hs as (cp1 & -> & Hs). rewrite res_bind_ret, Hs, res_bind_ret.
  replace (Z.of_nat (length pre) + 1) with (Z.of_nat (length (pre ++ [c]))) by (rewrite length_app; cbn [length]; lia).
  pose proof (curseg_members_in (length cp) (Z.of_nat (length pre)) c Hl' ltac:(lia)) as Hin.
  destruct (IH (pre ++ [c]) (edit cp (curseg_members (Z.of_nat (length pre)) c))) as (cp' & -> & Hst'); [done| | |].
  - by rewrite <- app_assoc.
  - constructor.
    + by rewrite length_edit.
    + intros Hb. apply bytes_edit; [auto|]. destruct Hok as (_ & _ & Ha & _). unfold curseg_members.
      apply Forall_cons. split; [cbn [snd]; by apply Forall_singleton|].
      destruct (_ <? _); repeat (apply Forall_cons; split; [cbn [snd]; apply bytes_le_bytes|]); by apply Forall_nil.
    + intros j c' Hj. apply lookup_snoc_Some in Hj as [[Hj Hj'] | [-> <-]].
      * apply cp_keeps_other; [done|lia..|by apply Hk].
      * apply (cp_keeps_self _ _ _ segs); [done|lia|done|done].
    + intros i Hi. rewrite <- (Hr i Hi). apply rd_edit_ne; [done|]. members.
  - exists cp'. rewrite <- app_assoc in Hst'. by split.
Qed.

Lemma write_curseg_info_spec : (4096 <= length (g_ckpt (sg st)))%nat ->
  exists cp', write_curseg_info st = Ok (with_ckpt st cp') /\ curseg_stored (g_ckpt (sg st)) cp' (sg_cursegs st).
Proof.
  intros Hl. unfold write_curseg_info. change (Z.to_nat NO_CHECK_TYPE) with 6%nat. rewrite <- Hsix.
  destruct (write_curseg_loop_spec (g_ckpt (sg st)) (sg_cursegs st) [] (g_ckpt (sg st))) as (cp' & Hw & Hst); [done..| |].
  - by constructor.
  - cbn [length] in Hw. change (Z.of_nat 0) with 0 in Hw. rewrite Hw, res_bind_ret. by exists cp'.
Qed.
End WriteCurseg.

(** * A pack, written and mounted *)

(** The state and the volume that a pack is written from: pack [k], [o] blocks of
    orphans. *)
Record ckpt_geom (st : seg_state) (nm : f2fs_nm_info) (need : bool) (k o : Z) : Prop := {
  cg_inv : seg_inv st need;
  cg_k : k = 1 \/ k = 2;
  cg_cp : 1 <= sb_cp_blkaddr (g_super (sg st)) /\ sb_segment0_blkaddr (g_super (sg st)) = sb_cp_blkaddr (g_super (sg st));
  cg_ssa : sb_cp_blkaddr (g_super (sg st)) + 1024 <= g_ssa_blkaddr (sg st) /\
           g_ssa_blkaddr (sg st) + g_main_segments (sg st) <= 2 ^ 32;
  cg_orphan : orphan_blocks (g_ckpt (sg st)) = Ok o /\ 0 <= o;
  cg_total : 0 <= sb_cp_payload (g_super (sg st)) /\ 8 + o + sb_cp_payload (g_super (sg st)) <= 512;
  cg_nat : 0 <= sb_segment_count_nat (g_super (sg st)) <= 2 ^ 14 /\ nat_readable (sg_disk st) (g_super (sg st)) nm;
  cg_mem : bytes (g_ckpt (sg st)) /\ (4096 <= length (g_ckpt (sg st)))%nat;
  cg_blocks : forall x, pack_start (g_super (sg st)) k <= x < pack_start (g_super (sg st)) k + 512 \/ in_ssa (sg st) x ->
    has_block (sg_disk st) x;
  cg_cur : Forall (curseg_ok (g_main_segments (sg st))) (sg_cursegs st);
}.

(** The blocks of pack [k] and of the summary area. *)
Definition pack_or_ssa (g : seg_cfg) (k x : Z) : Prop :=
  pack_start (g_super g) k <= x < pack_start (g_super g) k + 512 \/ in_ssa g x.

Lemma verify_offset cp : verify_checksum_chksum cp = Ok 0 ->
  exists off, get_le32 cp ofs_cp_checksum_offset = Ok off /\ CP_MIN_CHKSUM_OFFSET <= off <= CP_CHKSUM_OFFSET.
Proof.
  unfold verify_checksum_chksum. intros (off & Hoff & H)%res_bind_Ok. exists off. split; [done|].
  destruct ((off <? CP_MIN_CHKSUM_OFFSET) || (CP_CHKSUM_OFFSET <? off)) eqn:E; [discriminate H|]. lia.
Qed.

Lemma filled_crc sb n cp cp' flags o : filled sb n cp cp' flags o -> (4096 <= length cp)%nat ->
  exists stamp, get_cp_crc cp' = Ok stamp.
Proof.
  intros [Hl Hb Hv _ _ _ _ _ _ _ _] Hlen. unfold get_cp_crc.
  destruct (get_le_total 8 cp' ofs_checkpoint_ver) as [v ->]; [done|unfold ofs_checkpoint_ver; lia|]. rewrite res_bind_ret.
  destruct (verify_offset _ Hv) as (off & Hoff & Hr). rewrite get_le_take in Hoff by (unfold ofs_cp_checksum_offset; lia).
  rewrite Hoff, res_bind_ret. unfold CP_MIN_CHKSUM_OFFSET, CP_CHKSUM_OFFSET in Hr.
  destruct (get_le_total 4 cp' off) as [c ->]; [lia..|]. rewrite res_bind_ret. by eexists.
Qed.

Section WritePack.
Context (st : seg_state) (nm : f2fs_nm_info) (need : bool) (k o : Z) (bug : bool) (G : ckpt_geom st nm need k o).
Let sb : f2fs_super_block := g_super (sg st).
Let start : Z := pack_start sb k.
Let total : Z := 8 + o + sb_cp_payload sb.

(** The bits fit between the pack and the end of its segment. *)
Lemma nat_bits_step w cp' flags : wrote (pack_or_ssa (sg st) k) (sg_disk st, []) w ->
  filled sb (ckpt_counts st) (g_ckpt (sg st)) cp' flags o ->
  exists w', (if negb (Z.land flags CP_NAT_BITS_FLAG =? 0) then write_nat_bits w sb cp' nm k bug else Ok (w, bug)) = Ok (w', bug) /\
    wrote (fun x => start + total <= x < start + 512) w w' /\
    (Z.land flags CP_NAT_BITS_FLAG <> 0 -> exists stamp buf, get_cp_crc cp' = Ok stamp /\ nat_bits_buf w.1 sb nm stamp buf /\
       forall j, (j < Z.to_nat (nat_bits_size sb))%nat ->
         w'.1 !! (start + 512 - nat_bits_size sb + Z.of_nat j) = Some (buf_block buf j)).
Proof.
  intros Hw Hfl. destruct G as [Hinv Hk [Hcp H0] [Hssa1 Hssa2] [_ Ho0] [Hp Ht] [Hn Hnat] [_ Hl] Hblk _].
  fold sb in Hcp, H0, Hssa1, Hp, Ht, Hn, Hnat, Hblk. fold total in Ht. fold start in Hblk.
  destruct (Z.eqb_spec (Z.land flags CP_NAT_BITS_FLAG) 0) as [E|E]; cbn [negb].
  { exists w. split; [done|]. split; [apply wrote_refl|done]. }
  pose proof (fl_nat _ _ _ _ _ _ Hfl E) as Hfit. fold total in Hfit.
  destruct (filled_crc _ _ _ _ _ _ Hfl Hl) as [stamp Hstamp].
  pose proof (co_sb_log _ _ _ (si_cfg _ _ Hinv)) as Hlog. fold sb in Hlog.
  pose proof (co_segs _ _ _ (si_cfg _ _ Hinv)) as Hms. assert (8 <= total) as Ht0 by (unfold total; lia).
  assert (sb_segment0_blkaddr sb + 512 * k = start + 512 /\ 1 <= start /\ start + 512 <= 2 ^ 32) as (Hseg & Hs1 & Hs2)
    by (unfold start, pack_start; rewrite H0; destruct Hk as [-> | ->]; cbn; lia).
  assert (1 <= nat_bits_size sb) as Hnb by (unfold nat_bits_size; Z.to_euclidean_division_equations; lia).
  destruct (write_nat_bits_spec w sb cp' nm k stamp bug) as (w' & buf & -> & Hw' & Hbuf & Hv).
  1-3: done || lia.
  - rewrite Hseg. lia.
  - intros x Hx. destruct (Hnat x Hx) as (a & Ha & Hd). exists a. split; [done|]. by apply (wrote_has_block _ _ _ _ Hw).
  - done.
  - rewrite Hseg. intros x Hx. apply (wrote_has_block _ _ _ _ Hw), Hblk. lia.
  - rewrite Hseg in Hw', Hv. exists w'. split; [done|]. split; [|by intros _; exists stamp, buf].
    eapply wrote_mono; [|exact Hw']. cbn beta. lia.
Qed.

Lemma write_checkpoint_spec : exists st' ws cp' flags,
  write_checkpoint st nm k bug = Ok (st', ws, bug) /\ filled sb (ckpt_counts st) (g_ckpt (sg st)) cp' flags o /\
  wrote (pack_or_ssa (sg st) k) (sg_disk st, []) (sg_disk st', ws) /\
  st' = with_ckpt (with_seg_disk st (sg_disk st')) cp' /\ (exists ws', ws = (start, take 4096 cp') :: ws') /\
  sg_disk st' !! start = Some (take 4096 cp') /\ sg_disk st' !! (start + total - 1) = Some (take 4096 cp') /\
  forall j c, sg_cursegs st !! j = Some c -> sg_disk st' !! (start + total - 7 + Z.of_nat j) = Some (cs_sum_blk c).
Proof.
  destruct G as [Hinv Hk [Hcp H0] [Hssa1 Hssa2] [Ho Ho0] [Hp Ht] [Hn Hnat] [Hb Hl] Hblk Hcur].
  fold sb in Hcp, H0, Hssa1, Hp, Ht, Hn, Hnat, Hblk. fold total in Ht. fold start in Hblk.
  destruct (fill_checkpoint_spec st need o Hinv Hb Hl Ho Ho0 Hp Ht Hn) as (cp' & flags & Hf & Hfl). fold sb in Hfl.
  pose proof (co_sb_log _ _ _ (si_cfg _ _ Hinv)) as Hlog. fold sb in Hlog. pose proof (si_cursegs _ _ Hinv) as H6.
  unfold write_checkpoint. fold sb. cbv zeta. rewrite Hf, res_bind_ret, Hlog.
  change (defined_ (9 <? 31)) with (@Ok unit tt). rewrite res_bind_ret. change (Z.shiftl 1 9) with 512.
  fold (pack_start sb k) start. set (block := take 4096 cp').
  assert (length block = 4096%nat /\ bytes block) as [Hbl Hbb].
  { unfold block. rewrite length_take, (fl_len _ _ _ _ _ _ Hfl). split; [lia|]. apply Forall_take, Hfl. }
  assert (1 <= start /\ start + 512 <= g_ssa_blkaddr (sg st)) as [Hs1 Hs2]
    by (unfold start, pack_start; destruct (k =? 2); lia).
  set (R := pack_or_ssa (sg st) k).
  destruct (put_wrote R (sg_disk st, []) start block) as (w1 & -> & Hw1 & Hv1 & Hlog1);
    [apply Hblk; lia|done|done|unfold R, pack_or_ssa; fold sb start; lia|]. rewrite res_bind_ret.
  fold total. replace (start + 1 + sb_cp_payload sb + o) with (start + total - 7) by (unfold total; lia).
  assert (forall w x, wrote R (sg_disk st, []) w -> R x -> has_block w.1 x) as Hhas.
  { intros w x Hw Hx. eapply wrote_has_block; [exact Hw|]. by apply Hblk. }
  destruct (write_summaries_spec st ltac:(lia) Hcur (sg_cursegs st) w1 [] (start + total - 7)) as (w2 & Hw2 & Hwr2 & Hv2).
  { done. }
  { rewrite H6. lia. }
  { intros x Hx. apply (Hhas w1); [done|]. rewrite H6 in Hx. unfold R, pack_or_ssa. fold sb start.
    destruct Hx; [left; unfold total in *; lia|by right]. }
  change (Z.to_nat NO_CHECK_TYPE) with 6%nat. rewrite H6 in Hw2, Hwr2. cbn [length] in Hw2. change (Z.of_nat 0) with 0 in Hw2.
  rewrite Hw2, res_bind_ret.
  assert (wrote R (sg_disk st, []) w2) as Hw12.
  { eapply wrote_trans; [exact Hw1|]. eapply wrote_mono; [|exact Hwr2]. unfold R, pack_or_ssa. fold sb start. cbn beta.
    intros x [?|?]; [left; unfold total in *; lia|by right]. }
  destruct (nat_bits_step w2 cp' flags Hw12 Hfl) as (w3 & -> & Hw3 & _). rewrite res_bind_ret.
  assert (wrote R (sg_disk st, []) w3) as Hw13.
  { eapply wrote_trans; [exact Hw12|]. eapply wrote_mono; [|exact Hw3]. unfold R, pack_or_ssa. fold sb start. cbn beta.
    unfold total in *. lia. }
  replace (start + total - 7 + NO_CHECK_TYPE) with (start + total - 1) by (unfold NO_CHECK_TYPE; lia).
  assert (R (start + total - 1)) as HR by (unfold R, pack_or_ssa; fold sb start; unfold total in *; lia).
  destruct (put_wrote (fun x => x = start + total - 1) w3 (start + total - 1) block) as (w4 & -> & Hw4 & Hv4 & _);
    [by apply (Hhas w3)|done..|]. rewrite res_bind_ret.
  eexists _, _, cp', flags. split; [done|]. split; [done|]. cbn [sg_disk with_ckpt with_seg_disk]. split.
  { eapply wrote_trans; [exact Hw13|]. destruct w4. eapply wrote_mono; [|exact Hw4]. by intros x ->. }
  split; [done|]. split.
  { destruct Hwr2 as (a2 & E2 & _), Hw3 as (a3 & E3 & _), Hw4 as (a4 & E4 & _). rewrite E4, E3, E2, Hlog1. by eexists. }
  unfold total in *.
  assert (forall x v, w2.1 !! x = Some v -> start <= x < start + 8 + o + sb_cp_payload sb - 1 -> w4.1 !! x = Some v) as Hkeep.
  { intros x v Hv Hx. rewrite (wrote_outside _ _ _ x Hw4), (wrote_outside _ _ _ x Hw3) by lia. done. }
  split; [apply Hkeep; [|lia]|split; [done|]].
  - rewrite (wrote_outside _ _ _ start Hwr2); [done|]. unfold in_ssa. lia.
  - intros j c Hc. apply Hkeep; [by apply Hv2|]. apply lookup_lt_Some in Hc. lia.
Qed.
End WritePack.

(** A page of the checkpoint in memory, as mount reads it. *)
Lemma rd_page (cp rest : list Z) i : (4096 <= length cp)%nat -> 0 <= i < 4096 -> rd (take 4096 cp ++ rest) i = rd cp i.
Proof.
  intros Hl Hi. unfold rd. destruct (i <? 0); [done|].
  rewrite lookup_app_l by (rewrite length_take; lia). by rewrite lookup_take_lt by lia.
Qed.

(** Storing the positions first changes nothing else. *)
Lemma geom_with_cursegs st nm need k o cp1 :
  ckpt_geom st nm need k o -> curseg_stored (g_ckpt (sg st)) cp1 (sg_cursegs st) -> ckpt_geom (with_ckpt st cp1) nm need k o.
Proof.
  intros [Hinv Hk Hcp Hssa Ho Ht Hn [Hb Hl] Hblk Hcur] [Hlen Hby _ Hr].
  assert (forall f, is_set_ckpt_flags cp1 f = is_set_ckpt_flags (g_ckpt (sg st)) f) as Hfl.
  { intros f. unfold is_set_ckpt_flags. rewrite (get_le_ext 4 (g_ckpt (sg st)) cp1); [done|].
    intros i Hi. apply Hr. unfold ofs_ckpt_flags in Hi. lia. }
  constructor; cbn [sg with_ckpt g_super g_ckpt g_ssa_blkaddr g_main_segments sg_disk sg_cursegs]; try done.
  - destruct Hinv as [[] He H6]. constructor; [|done..]. constructor; try done.
    unfold need_fsync_data_record in *. cbn [sg with_ckpt g_ckpt g_zoned_hm]. by rewrite Hfl.
  - unfold orphan_blocks, __start_sum_addr in *. rewrite Hfl, (get_le_ext 4 (g_ckpt (sg st)) cp1); [done|].
    intros i Hi. apply Hr. unfold ofs_cp_pack_start_sum in Hi. lia.
  - split; [auto|by rewrite Hlen].
Qed.

(** A pack is valid when its first and last block are sealed pages of one version. *)
Lemma pack_of_pages d start page last total v :
  verify_checksum_chksum page = Ok 0 -> get_le32 page ofs_cp_pack_total_block_count = Ok total ->
  get_le64 page ofs_checkpoint_ver = Ok v -> total <= 512 -> 0 <= start + total - 1 < 2 ^ 32 ->
  verify_checksum_chksum last = Ok 0 -> get_le64 last ofs_checkpoint_ver = Ok v ->
  d !! start = Some page -> d !! (start + total - 1) = Some last ->
  validate_checkpoint d 512 start = Ok (Some (page, v)).
Proof.
  intros Hver Htot Hv Ht Hr Hver2 Hv2 H1 H2.
  unfold validate_checkpoint, get_checkpoint_version, disk_read_or_die, disk_read.
  rewrite H1, res_bind_ret, Hver, !res_bind_ret. cbn [Z.eqb]. rewrite Htot, res_bind_ret.
  replace (512 <? total) with false by lia. rewrite Hv, res_bind_ret, u32_id by done.
  rewrite H2, res_bind_ret, Hver2, !res_bind_ret. cbn [Z.eqb]. by rewrite Hv2, res_bind_ret, Z.eqb_refl.
Qed.

(** Validation looks at the blocks around a pack only. *)
Lemma validate_local d d' a : 1 <= a -> a + 512 <= 2 ^ 32 -> pack_area d a ->
  (forall i, a - 1 <= i < a + 512 -> d' !! i = d !! i) -> validate_checkpoint d' 512 a = validate_checkpoint d 512 a.
Proof.
  intros H1 H2 Hp Hag.
  assert (forall i, a - 1 <= i < a + 512 -> get_checkpoint_version d' i = get_checkpoint_version d i) as Hv.
  { intros i Hi. unfold get_checkpoint_version, disk_read_or_die, disk_read. by rewrite Hag. }
  unfold validate_checkpoint. rewrite Hv by lia.
  destruct (get_checkpoint_version_total d a) as (p1 & -> & Hp1); [apply Hp; lia|]. rewrite !res_bind_ret.
  destruct p1 as [page|]; [|done]. destruct Hp1 as (_ & Hl & Hb).
  destruct (get_le_total 4 page ofs_cp_pack_total_block_count) as [t Ht]; [done|rewrite Hl; done|].
  pose proof (get_le_range _ _ _ _ Hb Ht) as Hr. change (8 * Z.of_nat 4) with 32 in Hr. rewrite Ht, !res_bind_ret.
  destruct (Z.ltb_spec 512 t); [done|]. rewrite u32_id by (unfold is_u32; lia). by rewrite Hv by lia.
Qed.

(** The page that is written is sealed and has the version and size of its pack. *)
Lemma filled_page sb n cp cp' flags o v : (4096 <= length cp)%nat -> filled sb n cp cp' flags o ->
  get_le64 cp ofs_checkpoint_ver = Ok v -> let page := take 4096 cp' in
  verify_checksum_chksum page = Ok 0 /\ get_le64 page ofs_checkpoint_ver = Ok v /\
  get_le32 page ofs_cp_pack_total_block_count = Ok (8 + o + sb_cp_payload sb).
Proof.
  intros Hl Hfl Hv page. unfold page. split; [apply Hfl|].
  rewrite !get_le_take by (unfold ofs_checkpoint_ver, ofs_cp_pack_total_block_count; lia). split; [|apply Hfl].
  rewrite <- Hv. apply get_le_ext. intros i Hi. apply (fl_kept _ _ _ _ _ _ Hfl). unfold kept_byte, ofs_checkpoint_ver in *. lia.
Qed.

(** The positions and summaries that a written pack keeps. *)
Lemma written_pack_keeps st nm need k o cp1 cp' flags n rest d :
  ckpt_geom st nm need k o -> curseg_stored (g_ckpt (sg st)) cp1 (sg_cursegs st) ->
  filled (g_super (sg st)) n cp1 cp' flags o ->
  (forall j c, sg_cursegs st !! j = Some c ->
    d !! (pack_start (g_super (sg st)) k + (8 + o + sb_cp_payload (g_super (sg st))) - 7 + Z.of_nat j) = Some (cs_sum_blk c)) ->
  pack_keeps (sg (with_ckpt st (take 4096 cp' ++ rest))) d k (8 + o + sb_cp_payload (g_super (sg st))) (sg_cursegs st).
Proof.
  intros [Hinv Hk [Hcp _] [Hssa1 Hssa2] [_ Ho0] [Hp Ht] _ [_ Hl] _ Hcur] Hst Hfl Hsum.
  assert (4096 <= length cp')%nat as Hl'
    by (rewrite (fl_len _ _ _ _ _ _ Hfl), (cst_len _ _ _ Hst); done).
  assert (forall n' ofs, 0 <= ofs -> ofs + Z.of_nat n' <= 4096 -> get_le n' (take 4096 cp' ++ rest) ofs = get_le n' cp' ofs) as Hg.
  { intros n' ofs H1 H2. apply get_le_ext. intros i Hi. apply rd_page; [done|lia]. }
  assert (blocks_per_seg (sg (with_ckpt st (take 4096 cp' ++ rest))) = 512) as Hbps.
  { unfold blocks_per_seg. cbn [sg with_ckpt g_log]. by rewrite (co_log _ _ _ (si_cfg _ _ Hinv)). }
  assert (g_main_segments (sg st) = Z.of_nat (length (sg_sentries st))) as Hms by apply (si_cfg _ _ Hinv).
  assert (__start_cp_addr (g_super (sg st)) 512 k = pack_start (g_super (sg st)) k) as Hps
    by (apply pack_start_eq; [unfold is_u32|]; lia).
  pose proof (si_cursegs _ _ Hinv) as H6.
  constructor; rewrite ?Hbps; cbn [sg with_ckpt g_super g_ckpt g_main_segments]; rewrite ?Hps.
  - unfold is_set_ckpt_flags. rewrite Hg by (unfold ofs_ckpt_flags; lia). apply Hfl.
  - unfold is_set_ckpt_flags. rewrite Hg by (unfold ofs_ckpt_flags; lia). apply Hfl.
  - rewrite Hg by (unfold ofs_cp_pack_total_block_count; lia). apply Hfl.
  - unfold pack_start. destruct (k =? 2); lia.
  - done.
  - intros j c Hc. pose proof (lookup_lt_Some _ _ _ Hc). split; [|split; [by apply (Forall_lookup_1 _ _ _ _ Hcur Hc)|by apply Hsum]].
    apply (cp_keeps_ext cp1); [|lia|by apply (cst_keeps _ _ _ Hst)].
    intros i Hi. rewrite rd_page by (done || lia). apply (fl_kept _ _ _ _ _ _ Hfl). unfold kept_byte. lia.
Qed.

(** C5: Writing a checkpoint pack and mounting it gives back the state: after
    [write_curseg_info], [write_checkpoint] of pack [k] terminates, every block it
    writes lies in the segment of the pack or in the summary area, the pack on the
    device is valid under the version of the checkpoint, its page holds the counts
    of the check, and [build_curseg] with that page, whatever payload follows it,
    loads the current segments that were written, with their summaries (their
    footers reset to the types). *)
Theorem checkpoint_write_mount (st : seg_state) (nm : f2fs_nm_info) (need : bool) (k o : Z) (bug : bool) :
  ckpt_geom st nm need k o ->
  is_u64 (ckpt_counts st).1.1 -> is_u32 (ckpt_counts st).1.2 -> is_u32 (ckpt_counts st).2 ->
  exists st1 st2 ws page v,
    write_curseg_info st = Ok st1 /\ write_checkpoint st1 nm k bug = Ok (st2, ws, bug) /\
    sg_disk st2 = apply_writes (sg_disk st) ws /\ Forall (fun w => pack_or_ssa (sg st) k w.1) ws /\
    get_le64 (g_ckpt (sg st)) ofs_checkpoint_ver = Ok v /\
    validate_checkpoint (sg_disk st2) 512 (pack_start (g_super (sg st)) k) = Ok (Some (page, v)) /\
    get_le64 page ofs_valid_block_count = Ok (ckpt_counts st).1.1 /\
    get_le32 page ofs_valid_node_count = Ok (ckpt_counts st).1.2 /\
    get_le32 page ofs_valid_inode_count = Ok (ckpt_counts st).2 /\
    forall rest, exists ses, let st3 := with_ckpt st2 (page ++ rest) in
      build_curseg st3 k = Ok (with_sentries (with_cursegs st3 (reloaded (sg_cursegs st))) ses).
Proof.
  intros G Hc1 Hc2 Hc3. pose proof G as [Hinv Hk [Hcp _] [Hssa1 Hssa2] [_ Ho0] [Hp Ht] _ [Hb Hl] _ Hcur].
  assert (g_main_segments (sg st) = Z.of_nat (length (sg_sentries st))) as Hms by apply (si_cfg _ _ Hinv).
  destruct (write_curseg_info_spec st (g_main_segments (sg st)) ltac:(lia) (si_cursegs _ _ Hinv) Hcur Hl) as (cp1 & Hw & Hst).
  pose proof (geom_with_cursegs st nm need k o cp1 G Hst) as G1.
  destruct (write_checkpoint_spec _ nm need k o bug G1) as (st2 & ws & cp' & flags & Hwc & Hfl & Hwr & Hst2 & _ & Hd1 & Hd2 & Hd3).
  cbn [sg with_ckpt g_super g_ckpt sg_disk sg_cursegs] in Hfl, Hwr, Hd1, Hd2, Hd3.
  destruct Hwr as (ws' & E1 & E2 & Hws). cbn [fst snd app] in E1, E2. subst ws'.
  assert (4096 <= length cp')%nat as Hl' by (rewrite (fl_len _ _ _ _ _ _ Hfl), (cst_len _ _ _ Hst); done).
  assert (exists v, get_le64 (g_ckpt (sg st)) ofs_checkpoint_ver = Ok v) as [v Hv]
    by (apply get_le_total; unfold ofs_checkpoint_ver; lia).
  destruct (filled_page _ _ _ _ _ _ v ltac:(by rewrite (cst_len _ _ _ Hst)) Hfl) as (Hver & Hv' & Htot).
  { rewrite <- Hv. unfold ofs_checkpoint_ver. apply get_le_ext. intros i Hi. apply (cst_rest _ _ _ Hst). lia. }
  exists (with_ckpt st cp1), st2, ws, (take 4096 cp'), v. split; [done|]. split; [done|]. split; [done|]. split.
  { eapply Forall_impl; [exact Hws|]. intros w (_ & _ & H). exact H. }
  split; [done|]. split; [|split; [|split; [|split]]].
  - apply (pack_of_pages _ _ _ (take 4096 cp') (8 + o + sb_cp_payload (g_super (sg st)))); try assumption.
    unfold pack_start. destruct (k =? 2); lia.
  - rewrite get_le_take by (unfold ofs_valid_block_count; lia). by apply Hfl.
  - rewrite get_le_take by (unfold ofs_valid_node_count; lia). by apply Hfl.
  - rewrite get_le_take by (unfold ofs_valid_inode_count; lia). by apply Hfl.
  - intros rest. cbv zeta.
    pose proof (written_pack_keeps st nm need k o cp1 cp' flags _ rest (sg_disk st2) G Hst Hfl Hd3) as Hpk.
    destruct (build_curseg_normal (with_ckpt st2 (take 4096 cp' ++ rest)) k
      (8 + o + sb_cp_payload (g_super (sg st))) (sg_cursegs st)) as (ses & Hbc & _).
    + rewrite Hst2. exact Hpk.
    + rewrite Hst2. exact Hms.
    + by exists ses.
Qed.

(** A small volume with this checkpoint in memory and this device. *)
Definition sample_ckpt_state (cp : list Z) (d : disk) : seg_state := with_ckpt (with_seg_disk sample_seg_state d) cp.

Section Sample.
Context (cp : list Z) (d : disk) (Hd : forall x, 512 <= x < 3608 -> has_block d x).


Lemma sample_ckpt_geom k : k = 1 \/ k = 2 -> bytes cp -> length cp = 4096%nat ->
  is_set_ckpt_flags cp CP_UMOUNT_FLAG = Ok false -> orphan_blocks cp = Ok 0 ->
  ckpt_geom (sample_ckpt_state cp d) sample_nm true k 0.
Proof.
  intros Hk Hb Hl Hu Ho. assert (bytes zero_block) as Hz by (apply bytes_forallb; vm_compute; reflexivity).
  constructor; cbn [sample_ckpt_state sample_seg_state with_ckpt with_seg_disk sg g_super g_ckpt g_ssa_blkaddr g_main_segments
    sg_disk sg_cursegs]; try done.
  - destruct sample_seg_inv as [[] He H6]. constructor; [|done..]. constructor; try done.
    unfold need_fsync_data_record. cbn [sg with_ckpt with_seg_disk sample_ckpt_state g_ckpt g_zoned_hm]. by rewrite Hu, res_bind_ret.
  - split; [vm_compute; split; discriminate|by apply sample_nat_readable].
  - split; [done|lia].
  - intros x Hx. apply Hd. destruct Hx as [Hx|Hx].
    + unfold pack_start in Hx. change (sb_cp_blkaddr _) with 512 in Hx. destruct (k =? 2); lia.
    + unfold in_ssa in Hx. cbn in Hx. lia.
  - apply Forall_fmap, Forall_forall. intros i Hi. apply elem_of_seq in Hi.
    split; [cbn; lia|]. split; [cbn; lia|]. split; [unfold is_u8; cbn; lia|]. split; [reflexivity|exact Hz].
Qed.
End Sample.

Lemma checkpoint_write_mount_witness : exists st1 st2 ws page,
  write_curseg_info (sample_ckpt_state zero_block (zero_disk 512 (Z.to_nat 3096))) = Ok st1 /\ write_checkpoint st1 sample_nm 2 false = Ok (st2, ws, false) /\
  validate_checkpoint (sg_disk st2) 512 1024 = Ok (Some (page, 0)) /\ get_le64 page ofs_valid_block_count = Ok 8.
Proof.
  assert (ckpt_geom (sample_ckpt_state zero_block (zero_disk 512 (Z.to_nat 3096))) sample_nm true 2 0) as G.
  { apply sample_ckpt_geom; [|by right|apply bytes_forallb; vm_compute; reflexivity|reflexivity|vm_compute; reflexivity..].
    intros x Hx. apply zero_disk_block. lia. }
  destruct (checkpoint_write_mount _ sample_nm true 2 0 false G)
    as (st1 & st2 & ws & page & v & H1 & H2 & _ & _ & Hv & H3 & H4 & _).
  1-3: cbn; unfold is_u64, is_u32; lia.
  change (get_le64 _ _) with (@Ok Z 0) in Hv. apply Ok_inj in Hv as <-. exists st1, st2, ws, page.
  split; [exact H1|]. split; [exact H2|]. split; [exact H3|exact H4].
Defined.

(** C36: The two copies of the page do not protect a pack that is rewritten in
    place. [write_checkpoint] keeps the version, so when pack 1 holds a checkpoint of
    that version and of the same length, the first of the writes alone makes a pack
    that is accepted: with the power gone after it, [get_valid_checkpoint] takes the
    new page, although none of the summaries of the pack has been written. *)
Theorem torn_checkpoint_accepted (st : seg_state) (nm : f2fs_nm_info) (need : bool) (o v : Z) (bug : bool)
    (last : list Z) (r2 : option (list Z * Z)) :
  let sb := g_super (sg st) in let d := sg_disk st in let start := pack_start sb 1 in
  let total := 8 + o + sb_cp_payload sb in
  ckpt_geom st nm need 1 o -> sb_cp_payload sb <= 5 -> pack_area d start -> pack_area d (pack_start sb 2) ->
  get_le64 (g_ckpt (sg st)) ofs_checkpoint_ver = Ok v ->
  d !! (start + total - 1) = Some last -> verify_checksum_chksum last = Ok 0 -> get_le64 last ofs_checkpoint_ver = Ok v ->
  validate_checkpoint d 512 (pack_start sb 2) = Ok r2 ->
  match r2 with Some (_, v2) => ver_after v2 v = false | None => True end ->
  exists st' page ws rest, write_checkpoint st nm 1 bug = Ok (st', (start, page) :: ws, bug) /\
    let torn := apply_writes d [(start, page)] in
    get_valid_checkpoint torn sb 512 = Ok (0, Some (page ++ rest, 1)) /\
    forall j, 0 <= j < 6 -> torn !! (start + total - 7 + j) = d !! (start + total - 7 + j).
Proof.
  intros sb d start total G Hp5 Ha1 Ha2 Hv Hlast Hver2 Hv2 Hr2 Hafter.
  destruct (write_checkpoint_spec st nm need 1 o bug G) as (st' & ws & cp' & flags & Hwc & Hfl & _ & _ & (ws' & ->) & _).
  pose proof G as [Hinv _ [Hcp _] [Hssa1 Hssa2] [_ Ho0] [Hp Ht] _ [Hb Hl] _ _]. fold sb in Hcp, Hssa1, Hp, Ht. fold total in Ht.
  assert (g_main_segments (sg st) = Z.of_nat (length (sg_sentries st))) as Hms by apply (si_cfg _ _ Hinv).
  pose proof (co_sb_log _ _ _ (si_cfg _ _ Hinv)) as Hlog. fold sb in Hlog.
  destruct (filled_page _ _ _ _ _ _ v Hl Hfl Hv) as (Hver & Hv' & Htot). fold sb in Htot. fold total in Htot.
  assert (length (take 4096 cp') = 4096%nat) as Hpl by (rewrite length_take, (fl_len _ _ _ _ _ _ Hfl); lia).
  assert (bytes (take 4096 cp')) as Hpb by (apply Forall_take, Hfl).
  set (page := take 4096 cp') in *. set (torn := apply_writes d [(start, page)]).
  assert (forall x, x <> start -> torn !! x = d !! x) as Hout
    by (intros x Hx; apply apply_writes_outside; by repeat constructor; cbn [fst]).
  assert (forall a, pack_area d a -> pack_area torn a) as Hpa.
  { intros a Ha i Hi. apply apply_writes_has_block; [by apply Ha|]. by repeat constructor. }
  assert (pack_start sb 1 = sb_cp_blkaddr sb /\ pack_start sb 2 = sb_cp_blkaddr sb + 512) as [E1 E2] by done.
  assert (validate_checkpoint torn 512 start = Ok (Some (page, v))) as Hva.
  { apply (pack_of_pages _ _ _ last total); try assumption.
    - unfold start. lia.
    - apply lookup_insert_eq.
    - rewrite Hout; [done|]. unfold total. lia. }
  assert (validate_checkpoint torn 512 (pack_start sb 2) = Ok r2) as Hvb.
  { rewrite <- Hr2. apply validate_local; [lia|lia|done|]. intros i Hi. apply Hout. unfold start. lia. }
  pose proof (get_valid_checkpoint_eq torn sb _ _ Hlog Hcp ltac:(lia) ltac:(lia) (Hpa _ Ha1) (Hpa _ Ha2) Hva Hvb) as Hg.
  assert (choose_pack (Some (page, v)) r2 = Some (page, 1)) as Hch
    by (destruct r2 as [[p2 v2]|]; cbn [choose_pack]; [by rewrite Hafter|done]).
  rewrite Hch in Hg. destruct Hg as [rest Hg]. exists st', page, ws', rest. split; [exact Hwc|]. split; [exact Hg|].
  intros j Hj. apply Hout. unfold total. lia.
Qed.


Lemma torn_checkpoint_accepted_witness : exists st' page ws rest,
  let d := <[519 := sample_cp_valid]> (zero_disk 511 (Z.to_nat 3097)) in
  write_checkpoint (sample_ckpt_state sample_cp d) sample_nm 1 false = Ok (st', (512, page) :: ws, false) /\
  get_valid_checkpoint (apply_writes d [(512, page)]) (sample_sb 0 1 31 2) 512 = Ok (0, Some (page ++ rest, 1)).
Proof.
  set (d := <[519 := sample_cp_valid]> (zero_disk 511 (Z.to_nat 3097))).
  assert (forall x, 511 <= x < 3608 -> has_block d x) as Hd.
  { intros x Hx. unfold d. destruct (decide (x = 519)) as [->|Hne].
    - exists sample_cp_valid. split; [apply lookup_insert_eq|]. split; [reflexivity|apply bytes_forallb; vm_compute; reflexivity].
    - destruct (zero_disk_block 511 (Z.to_nat 3097) x) as (b & Hb & Hr); [lia|]. exists b. rewrite lookup_insert_ne by congruence. split; [exact Hb|exact Hr]. }
  assert (d !! 519 = Some sample_cp_valid) as Hlast by apply lookup_insert_eq.
  assert (validate_checkpoint d 512 1024 = Ok None) as Hpack2.
  { unfold validate_checkpoint, get_checkpoint_version, disk_read_or_die, disk_read, d.
    rewrite lookup_insert_ne, zero_disk_lookup by lia. vm_compute. reflexivity. }
  clearbody d.
  assert (ckpt_geom (sample_ckpt_state sample_cp d) sample_nm true 1 0) as G.
  { apply sample_ckpt_geom; [intros x Hx; apply Hd; lia|by left|apply bytes_forallb; vm_compute; reflexivity|reflexivity|vm_compute; reflexivity..]. }
  destruct (torn_checkpoint_accepted (sample_ckpt_state sample_cp d) sample_nm true 0 1 false sample_cp_valid None)
    as (st' & page & ws & rest & H1 & H2 & _); [exact G|..].
  - vm_compute. discriminate.
  - intros i Hi. apply Hd. change (pack_start _ _) with 512 in Hi. lia.
  - intros i Hi. apply Hd. change (pack_start _ _) with 1024 in Hi. lia.
  - change (get_le64 sample_cp ofs_checkpoint_ver = Ok 1). vm_compute. reflexivity.
  - exact Hlast.
  - vm_compute. reflexivity.
  - vm_compute. reflexivity.
  - exact Hpack2.
  - exact I.
  - exists st', page, ws, rest. split; [exact H1|exact H2].
Defined.
