(* ===== verification/Quota.v ===== *)
(** Quota files (fsck/quotaio_tree.c and the entries of fsck/quotaio_v2.c): a file of
    1024-byte blocks. Block 0 has a header, block 1 is the root of a radix tree over
    the four bytes of an id, whose leaves name data blocks of up to 14 entries; free
    blocks and data blocks with room are on two lists.

    The file below is an interface: the read and write functions of the handle
    ([QuotaFile]) with what their users rely on ([QuotaFileLaws]). *)
From Stdlib Require Import ZArith Lia List Bool.
From stdpp Require Import base numbers list gmap.
From S2P Require Import Prelude Codec Bits.

(** * The file *)

(** [h->read] gives the bytes it read, whose number is its return value;
    [h->write] its return value and the file. *)
Class QuotaFile (F : Type) := {
  qf_read : F -> Z -> Z -> res (list Z);
  qf_write : F -> Z -> list Z -> res (Z * F);
}.

(** A file that satisfies [qf_ok] has a size, [qf_len], and bytes. The bytes beyond the
    size are there too, though they cannot be read: a write beyond the size makes the
    bytes before it readable, and these are whatever the blocks of the file hold. Reads
    stay in one block of 4096 bytes; writes up to [qf_room] succeed. *)
Class QuotaFileLaws (F : Type) `{QuotaFile F} := {
  qf_byte : F -> Z -> Z;
  qf_len : F -> Z;
  qf_room : F -> Z;
  qf_ok : F -> Prop;
  qf_byte_range : forall f x, is_u8 (qf_byte f x);
  qf_read_ok : forall f ofs n, qf_ok f -> 0 <= ofs < 2 ^ 32 -> 0 < n -> ofs / 4096 = (ofs + n - 1) / 4096 ->
    exists bs, qf_read f ofs n = Ok bs /\ Z.of_nat (length bs) = Z.max 0 (Z.min n (qf_len f - ofs)) /\
    forall i x, bs !! i = Some x -> x = qf_byte f (ofs + Z.of_nat i);
  qf_write_ok : forall f ofs bs, qf_ok f -> bytes bs -> 0 <= ofs -> 0 < Z.of_nat (length bs) -> ofs + Z.of_nat (length bs) <= qf_room f ->
    exists f', qf_write f ofs bs = Ok (Z.of_nat (length bs), f') /\ qf_room f' = qf_room f /\
    qf_len f' = Z.max (qf_len f) (ofs + Z.of_nat (length bs)) /\ qf_ok f' /\
    forall x, qf_byte f' x = if (ofs <=? x) && (x <? ofs + Z.of_nat (length bs))
                             then default 0 (bs !! Z.to_nat (x - ofs)) else qf_byte f x;
}.

(** * Structures *)

Definition QT_TREEOFF : Z := 1.
Definition QT_TREEDEPTH : Z := 4.
Definition QT_BLKSIZE_BITS : Z := 10.
Definition QT_BLKSIZE : Z := Z.shiftl 1 QT_BLKSIZE_BITS.

(** [struct qt_disk_dqdbheader] *)
Definition ofs_dqdh_next_free : Z := 0.
Definition ofs_dqdh_prev_free : Z := 4.
Definition ofs_dqdh_entries : Z := 8.
Definition SIZE_OF_DQDBHEADER : Z := 16.

Record qtree_mem_dqinfo := {
  dqi_blocks : Z;
  dqi_free_blk : Z;
  dqi_free_entry : Z;
  dqi_entry_size : Z;
}.

(** [struct util_dqblk] without its format specific part; every member is signed, of 64 bits. *)
Record util_dqblk := {
  dqb_ihardlimit : Z;
  dqb_isoftlimit : Z;
  dqb_curinodes : Z;
  dqb_bhardlimit : Z;
  dqb_bsoftlimit : Z;
  dqb_curspace : Z;
  dqb_btime : Z;
  dqb_itime : Z;
}.

Record dquot := {
  dq_id : Z;
  dq_dqb : util_dqblk;
  dqb_off : Z;
}.
Definition with_off (q : dquot) (off : Z) : dquot := {| dq_id := dq_id q; dq_dqb := dq_dqb q; dqb_off := off |}.

(** The handle of an open file; [qh_dirty] is [IOFL_INFODIRTY] of [qh_io_flags], and
    [qh_bgrace] to [qh_data_blocks] are the members of [qh_info]. *)
Record quota_handle (F : Type) := {
  qh_qf : F;
  qh_type : Z;
  qh_fmt : Z;
  qh_dirty : bool;
  qh_bgrace : Z;
  qh_igrace : Z;
  qh_flags : Z;
  qh_info : qtree_mem_dqinfo;
  qh_used_entries : Z;
  qh_data_blocks : Z;
}.
Arguments qh_qf {F}.
Arguments qh_type {F}.
Arguments qh_fmt {F}.
Arguments qh_dirty {F}.
Arguments qh_bgrace {F}.
Arguments qh_igrace {F}.
Arguments qh_flags {F}.
Arguments qh_info {F}.
Arguments qh_used_entries {F}.
Arguments qh_data_blocks {F}.

(** * Entries of the format v2r1 *)

Definition SIZE_OF_DQBLK : Z := 72.
Definition ofs_dqb_id : Z := 0.
Definition ofs_dqb_itime : Z := 64.

(** The bytes of an entry, in the order of [struct v2r1_disk_dqblk]. *)
Definition dqblk_bytes (id : Z) (b : util_dqblk) : list Z :=
  le_bytes 4 id ++ le_bytes 4 0 ++ le_bytes 8 (dqb_ihardlimit b) ++ le_bytes 8 (dqb_isoftlimit b) ++
  le_bytes 8 (dqb_curinodes b) ++ le_bytes 8 (dqb_bhardlimit b) ++ le_bytes 8 (dqb_bsoftlimit b) ++
  le_bytes 8 (dqb_curspace b) ++ le_bytes 8 (dqb_btime b) ++ le_bytes 8 (dqb_itime b).

(** The test on [n] bytes of [disk] from [p] on. *)
Fixpoint entry_unused_loop (n : nat) (disk : list Z) (p : Z) : res bool :=
  match n with
  | O => Ok true
  | S n => b ← rd disk p; if b =? 0 then entry_unused_loop n disk (p + 1) else Ok false
  end.
Definition qtree_entry_unused (info : qtree_mem_dqinfo) (disk : list Z) (p : Z) : res bool :=
  entry_unused_loop (Z.to_nat (dqi_entry_size info)) disk p.

Definition v2r1_mem2diskdqblk (info : qtree_mem_dqinfo) (q : dquot) : res (list Z) :=
  let d := dqblk_bytes (dq_id q) (dq_dqb q) in
  unused ← qtree_entry_unused info d 0;
  if unused : bool then set_le64 d ofs_dqb_itime 1 else Ok d.

(** [memcmp] with the entry that is empty but for [dqb_itime]. *)
Definition fake_entry : list Z := replicate 64 0 ++ le_bytes 8 1.
Definition v2r1_disk2memdqblk (disk : list Z) (p : Z) : res (Z * util_dqblk) :=
  id ← get_le32 disk p;
  ihard ← get_le64 disk (p + 8);
  isoft ← get_le64 disk (p + 16);
  curinodes ← get_le64 disk (p + 24);
  bhard ← get_le64 disk (p + 32);
  bsoft ← get_le64 disk (p + 40);
  curspace ← get_le64 disk (p + 48);
  btime ← get_le64 disk (p + 56);
  itime ← get_le64 disk (p + 64);
  e ← rd_bytes disk p (Z.to_nat SIZE_OF_DQBLK);
  Ok (id, {| dqb_ihardlimit := s64 ihard; dqb_isoftlimit := s64 isoft; dqb_curinodes := s64 curinodes;
             dqb_bhardlimit := s64 bhard; dqb_bsoftlimit := s64 bsoft; dqb_curspace := s64 curspace; dqb_btime := s64 btime;
             dqb_itime := if decide (e = fake_entry) then 0 else s64 itime |}).

Definition v2r1_is_id (info : qtree_mem_dqinfo) (disk : list Z) (p id : Z) : res bool :=
  unused ← qtree_entry_unused info disk p;
  if unused : bool then Ok false else i ← get_le32 disk p; Ok (i =? id).

(** * The tree *)

Definition qtree_dqstr_in_blk (info : qtree_mem_dqinfo) : res Z :=
  _ ← defined_ (negb (dqi_entry_size info =? 0)); Ok ((QT_BLKSIZE - SIZE_OF_DQDBHEADER) / dqi_entry_size info).

Definition get_index (id depth : Z) : Z := Z.land (Z.shiftr id ((QT_TREEDEPTH - depth - 1) * 8)) 0xff.

Definition empty_buf : list Z := replicate (Z.to_nat QT_BLKSIZE) 0.

Definition set_free_blk (i : qtree_mem_dqinfo) (b : Z) : qtree_mem_dqinfo := {|
  dqi_blocks := dqi_blocks i; dqi_free_blk := b; dqi_free_entry := dqi_free_entry i; dqi_entry_size := dqi_entry_size i |}.
Definition set_free_entry (i : qtree_mem_dqinfo) (b : Z) : qtree_mem_dqinfo := {|
  dqi_blocks := dqi_blocks i; dqi_free_blk := dqi_free_blk i; dqi_free_entry := b; dqi_entry_size := dqi_entry_size i |}.
Definition set_blocks (i : qtree_mem_dqinfo) (b : Z) : qtree_mem_dqinfo := {|
  dqi_blocks := b; dqi_free_blk := dqi_free_blk i; dqi_free_entry := dqi_free_entry i; dqi_entry_size := dqi_entry_size i |}.

Section Operations.
Context {F : Type} `{QuotaFile F}.
Implicit Types h : quota_handle F.

Definition with_qf h (f : F) : quota_handle F := {|
  qh_qf := f; qh_type := qh_type h; qh_fmt := qh_fmt h; qh_dirty := qh_dirty h; qh_bgrace := qh_bgrace h;
  qh_igrace := qh_igrace h; qh_flags := qh_flags h; qh_info := qh_info h; qh_used_entries := qh_used_entries h; qh_data_blocks := qh_data_blocks h |}.
(** New information, marked as changed. *)
Definition with_info h (i : qtree_mem_dqinfo) : quota_handle F := {|
  qh_qf := qh_qf h; qh_type := qh_type h; qh_fmt := qh_fmt h; qh_dirty := true; qh_bgrace := qh_bgrace h;
  qh_igrace := qh_igrace h; qh_flags := qh_flags h; qh_info := i; qh_used_entries := qh_used_entries h; qh_data_blocks := qh_data_blocks h |}.

Definition ENOSPC_ : Z := 28.
Definition EIO : Z := 5.

Definition read_blk h (blk : Z) : res (list Z) :=
  bs ← qf_read (qh_qf h) (u32 (Z.shiftl blk QT_BLKSIZE_BITS)) QT_BLKSIZE;
  Ok (bs ++ replicate (Z.to_nat QT_BLKSIZE - length bs) 0).

Definition write_blk h (blk : Z) (buf : list Z) : res (Z * quota_handle F) :=
  '(err, f) ← qf_write (qh_qf h) (u32 (Z.shiftl blk QT_BLKSIZE_BITS)) buf;
  Ok (if err =? QT_BLKSIZE then 0 else - ENOSPC_, with_qf h f).

Definition get_free_dqblk h : res (Z * quota_handle F) :=
  let info := qh_info h in
  if negb (dqi_free_blk info =? 0) then
    let blk := dqi_free_blk info in
    buf ← read_blk h blk;
    next ← get_le32 buf ofs_dqdh_next_free;
    Ok (s32 blk, with_info h (set_free_blk info next))
  else
    '(err, h) ← write_blk h (dqi_blocks info) empty_buf;
    if err <? 0 then Ok (- ENOSPC_, h)
    else Ok (s32 (dqi_blocks info), with_info h (set_blocks info (u32 (dqi_blocks info + 1)))).

Definition put_free_dqblk h (buf : list Z) (blk : Z) : res (quota_handle F) :=
  let info := qh_info h in
  buf ← set_le32 buf ofs_dqdh_next_free (dqi_free_blk info);
  buf ← set_le32 buf ofs_dqdh_prev_free 0;
  buf ← set_le16 buf ofs_dqdh_entries 0;
  '(_, h) ← write_blk (with_info h (set_free_blk info blk)) blk buf;
  Ok h.

(** One member of another block of a list replaced. *)
Definition relink h (blk ofs v : Z) : res (quota_handle F) :=
  tmpbuf ← read_blk h blk;
  tmpbuf ← set_le32 tmpbuf ofs v;
  '(_, h) ← write_blk h blk tmpbuf;
  Ok h.

(** The buffer, off the list, and the handle. *)
Definition remove_free_dqentry h (buf : list Z) (blk : Z) : res (list Z * quota_handle F) :=
  nextblk ← get_le32 buf ofs_dqdh_next_free;
  prevblk ← get_le32 buf ofs_dqdh_prev_free;
  h ← (if negb (nextblk =? 0) then relink h nextblk ofs_dqdh_prev_free prevblk else Ok h);
  h ← (if negb (prevblk =? 0) then relink h prevblk ofs_dqdh_next_free nextblk
       else Ok (with_info h (set_free_entry (qh_info h) nextblk)));
  buf ← set_le32 buf ofs_dqdh_prev_free 0;
  buf ← set_le32 buf ofs_dqdh_next_free 0;
  '(_, h) ← write_blk h blk buf;
  Ok (buf, h).

Definition insert_free_dqentry h (buf : list Z) (blk : Z) : res (quota_handle F) :=
  let info := qh_info h in
  buf ← set_le32 buf ofs_dqdh_next_free (dqi_free_entry info);
  buf ← set_le32 buf ofs_dqdh_prev_free 0;
  '(_, h) ← write_blk h blk buf;
  h ← (if negb (dqi_free_entry info =? 0) then relink h (dqi_free_entry info) ofs_dqdh_prev_free blk else Ok h);
  Ok (with_info h (set_free_entry (qh_info h) blk)).

(** The first slot from [i] on that is not used, or the number of slots. *)
Fixpoint unused_slot (n : nat) (info : qtree_mem_dqinfo) (buf : list Z) (i : Z) : res Z :=
  match n with
  | O => Ok i
  | S n =>
      unused ← qtree_entry_unused info buf (SIZE_OF_DQDBHEADER + i * dqi_entry_size info);
      if unused : bool then Ok i else unused_slot n info buf (i + 1)
  end.

(** The return value, [*err], the offset for the dquot and the handle. *)
Definition find_free_dqentry h (off : Z) : res (Z * Z * Z * quota_handle F) :=
  let info := qh_info h in
  '(blk, buf, h) ← (if negb (dqi_free_entry info =? 0) then
                      buf ← read_blk h (dqi_free_entry info); Ok (s32 (dqi_free_entry info), buf, h)
                    else
                      '(blk, h) ← get_free_dqblk h;
                      if blk <? 0 then Ok (blk, empty_buf, h)
                      else Ok (blk, empty_buf, with_info h (set_free_entry (qh_info h) blk)));
  if (dqi_free_entry info =? 0) && (blk <? 0) then Ok (0, blk, off, h)
  else
    entries ← get_le16 buf ofs_dqdh_entries;
    n ← qtree_dqstr_in_blk info;
    '(buf, h) ← (if n <=? entries + 1 then remove_free_dqentry h buf (u32 blk) else Ok (buf, h));
    entries ← get_le16 buf ofs_dqdh_entries;
    buf ← set_le16 buf ofs_dqdh_entries (u16 (entries + 1));
    i ← unused_slot (Z.to_nat n) info buf 0;
    '(_, h) ← write_blk h (u32 blk) buf;
    _ ← defined_ ((0 <=? blk) && (blk <? 2 ^ 21));
    Ok (u32 blk, 0, Z.shiftl blk QT_BLKSIZE_BITS + SIZE_OF_DQDBHEADER + i * dqi_entry_size info, h).

(** The return value, [*treeblk], the offset for the dquot and the handle. *)
Fixpoint do_insert_tree (n : nat) h (id off treeblk depth : Z) : res (Z * Z * Z * quota_handle F) :=
  match n with
  | O => NoFuel
  | S n =>
      '(newact, ret, treeblk, buf, h) ←
        (if treeblk =? 0 then
           '(ret, h) ← get_free_dqblk h;
           Ok (true, ret, if ret <? 0 then treeblk else u32 ret, empty_buf, h)
         else buf ← read_blk h treeblk; Ok (false, 0, treeblk, buf, h));
      if (newact : bool) && (ret <? 0) then Ok (ret, treeblk, off, h)
      else
        let slot := 4 * get_index id depth in
        newblk ← get_le32 buf slot;
        let newson := newblk =? 0 in
        '(ret, newblk, off, h) ←
          (if depth =? QT_TREEDEPTH - 1 then
             '(newblk, ret, off, h) ← find_free_dqentry h off; Ok (ret, newblk, off, h)
           else do_insert_tree n h id off newblk (depth + 1));
        if newson && (0 <=? ret) then
          buf ← set_le32 buf slot newblk;
          '(ret, h) ← write_blk h treeblk buf;
          Ok (ret, treeblk, off, h)
        else if newact && (ret <? 0) then
          h ← put_free_dqblk h buf treeblk;
          Ok (ret, treeblk, off, h)
        else Ok (ret, treeblk, off, h)
  end.

Definition dq_insert_tree h (q : dquot) : res (Z * Z * quota_handle F) :=
  '(ret, _, off, h) ← do_insert_tree 4 h (dq_id q) (dqb_off q) QT_TREEOFF 0; Ok (ret, off, h).

(** The return value, the dquot and the handle. *)
Definition qtree_write_dquot h (q : dquot) : res (Z * dquot * quota_handle F) :=
  '(ret, off, h) ← (if dqb_off q =? 0 then dq_insert_tree h q else Ok (0, dqb_off q, h));
  let q := with_off q off in
  if negb (ret =? 0) then Ok (- EIO, q, h)
  else
    ddquot ← v2r1_mem2diskdqblk (qh_info h) q;
    '(ret, f) ← qf_write (qh_qf h) (dqb_off q) ddquot;
    Ok (if ret =? dqi_entry_size (qh_info h) then 0 else s32 ret, q, with_qf h f).

Definition free_dqentry h (off blk : Z) : res (quota_handle F) :=
  buf ← read_blk h blk;
  entries ← get_le16 buf ofs_dqdh_entries;
  let entries := u16 (entries - 1) in
  buf ← set_le16 buf ofs_dqdh_entries entries;
  if entries =? 0 then
    '(buf, h) ← remove_free_dqentry h buf blk;
    put_free_dqblk h buf blk
  else
    buf ← wr_list buf (Z.land off (QT_BLKSIZE - 1)) (replicate (Z.to_nat (dqi_entry_size (qh_info h))) 0);
    n ← qtree_dqstr_in_blk (qh_info h);
    if entries =? n - 1 then insert_free_dqentry h buf blk
    else '(_, h) ← write_blk h blk buf; Ok h.

(** [*blk] and the handle. *)
Fixpoint remove_tree (n : nat) h (id off blk depth : Z) : res (Z * quota_handle F) :=
  match n with
  | O => NoFuel
  | S n =>
      buf ← read_blk h blk;
      let slot := 4 * get_index id depth in
      newblk ← get_le32 buf slot;
      '(newblk, h) ← (if depth =? QT_TREEDEPTH - 1 then h ← free_dqentry h off newblk; Ok (0, h)
                      else remove_tree n h id off newblk (depth + 1));
      if newblk =? 0 then
        buf ← set_le32 buf slot 0;
        empty ← entry_unused_loop (Z.to_nat QT_BLKSIZE) buf 0;
        if (empty : bool) && negb (blk =? QT_TREEOFF) then h ← put_free_dqblk h buf blk; Ok (0, h)
        else '(_, h) ← write_blk h blk buf; Ok (blk, h)
      else Ok (blk, h)
  end.

Definition qtree_delete_dquot h (q : dquot) : res (dquot * quota_handle F) :=
  if dqb_off q =? 0 then Ok (q, h)
  else '(_, h) ← remove_tree 4 h (dq_id q) (dqb_off q) QT_TREEOFF 0; Ok (with_off q 0, h).

Fixpoint find_slot (n : nat) (info : qtree_mem_dqinfo) (buf : list Z) (id i : Z) : res Z :=
  match n with
  | O => Ok i
  | S n =>
      is_id ← v2r1_is_id info buf (SIZE_OF_DQDBHEADER + i * dqi_entry_size info) id;
      if is_id : bool then Ok i else find_slot n info buf id (i + 1)
  end.
Definition find_block_dqentry h (id blk : Z) : res Z :=
  buf ← read_blk h blk;
  n ← qtree_dqstr_in_blk (qh_info h);
  i ← find_slot (Z.to_nat n) (qh_info h) buf id 0;
  Ok (u32 (Z.shiftl blk QT_BLKSIZE_BITS) + SIZE_OF_DQDBHEADER + i * dqi_entry_size (qh_info h)).

Fixpoint find_tree_dqentry (n : nat) h (id blk depth : Z) : res Z :=
  match n with
  | O => NoFuel
  | S n =>
      buf ← read_blk h blk;
      blk ← get_le32 buf (4 * get_index id depth);
      if blk =? 0 then Ok 0
      else if depth <? QT_TREEDEPTH - 1 then find_tree_dqentry n h id blk (depth + 1)
      else find_block_dqentry h id blk
  end.
Definition find_dqentry h (id : Z) : res Z := find_tree_dqentry 4 h id QT_TREEOFF 0.

Definition zero_dqblk : util_dqblk := {|
  dqb_ihardlimit := 0; dqb_isoftlimit := 0; dqb_curinodes := 0; dqb_bhardlimit := 0; dqb_bsoftlimit := 0;
  dqb_curspace := 0; dqb_btime := 0; dqb_itime := 0 |}.

(** A buffer that the read left short is not initialised: reading it is not defined. *)
Definition qtree_read_dquot h (id : Z) : res dquot :=
  offset ← find_dqentry h id;
  if 0 <? offset then
    ddquot ← qf_read (qh_qf h) offset (dqi_entry_size (qh_info h));
    '(id, b) ← v2r1_disk2memdqblk ddquot 0;
    Ok {| dq_id := id; dq_dqb := b; dqb_off := offset |}
  else Ok {| dq_id := id; dq_dqb := zero_dqblk; dqb_off := 0 |}.
End Operations.
