(* ===== verification/QuotaTree.v ===== *)
(** The quota tree refines a finite map from ids to entries.

    The proofs work on the blocks of a file as a function ([rep]), and on a ghost
    description of what the blocks are for: [gn] maps the prefixes of ids to tree
    blocks and whole ids to data blocks, [gd] gives the slots of the data blocks, [ge]
    is the list of data blocks with room, [gf] the list of free blocks. *)
From Stdlib Require Import ZArith Lia List Bool.
From stdpp Require Import base numbers list gmap.
From S2P Require Import Prelude Codec Bits Quota.

(** * Fields of a block *)

Definition getv (n : nat) (l : list Z) (ofs : Z) : Z := match get_le n l ofs with Ok v => v | _ => 0 end.

Lemma getv_Ok n l ofs : 0 <= ofs -> ofs + Z.of_nat n <= Z.of_nat (length l) -> get_le n l ofs = Ok (getv n l ofs).
Proof. intros H0 H1. unfold getv, get_le. by rewrite rd_bytes_Ok, res_bind_ret by lia. Qed.

Lemma getv_range n l ofs : bytes l -> 0 <= ofs -> ofs + Z.of_nat n <= Z.of_nat (length l) ->
  0 <= getv n l ofs < 2 ^ (8 * Z.of_nat n).
Proof. intros Hb H0 H1. apply (get_le_range n l ofs); [done|by apply getv_Ok]. Qed.

Lemma getv_set n l ofs v : 0 <= ofs -> ofs + Z.of_nat n <= Z.of_nat (length l) -> 0 <= v < 2 ^ (8 * Z.of_nat n) ->
  getv n (splice l ofs (le_bytes n v)) ofs = v.
Proof. intros. unfold getv. by rewrite get_set_le. Qed.

Lemma getv_set_ne m l ofs xs ofs' : 0 <= ofs -> ofs + Z.of_nat (length xs) <= Z.of_nat (length l) ->
  ofs' + Z.of_nat m <= ofs \/ ofs + Z.of_nat (length xs) <= ofs' -> getv m (splice l ofs xs) ofs' = getv m l ofs'.
Proof. intros. unfold getv. by rewrite get_le_splice_ne. Qed.

Lemma le_val_zeros n : le_val (replicate n 0) = 0.
Proof. induction n as [|n IH]; [done|]. cbn [replicate le_val]. rewrite IH. lia. Qed.

Lemma getv_zeros n m ofs : 0 <= ofs -> ofs + Z.of_nat n <= Z.of_nat m -> getv n (replicate m 0) ofs = 0.
Proof.
  intros H0 H. unfold getv, get_le. rewrite rd_bytes_Ok, res_bind_ret by (rewrite ?length_replicate; lia).
  by rewrite drop_replicate, take_replicate, le_val_zeros.
Qed.

(** * Blocks *)

Lemma s32_blk b : 0 <= b < 2 ^ 31 -> s32 b = b.
Proof. intros Hb. unfold s32, sgn. rewrite Z.mod_small by lia. change (2 ^ (32 - 1)) with (2 ^ 31). by rewrite (proj2 (Z.ltb_lt _ _)) by lia. Qed.

Definition upd (B : Z -> list Z) (b : Z) (buf : list Z) : Z -> list Z := fun x => if x =? b then buf else B x.

Lemma upd_eq B b buf : upd B b buf b = buf.
Proof. unfold upd. by rewrite Z.eqb_refl. Qed.
Lemma upd_ne B b buf x : x <> b -> upd B b buf x = B x.
Proof. intros Hx. unfold upd. by rewrite (proj2 (Z.eqb_neq x b)). Qed.

Definition good_buf (buf : list Z) : Prop := length buf = 1024%nat /\ bytes buf.

Lemma good_empty : good_buf empty_buf.
Proof. split; [apply length_replicate|]. apply Forall_replicate. unfold is_u8. lia. Qed.
Lemma good_splice buf ofs xs : good_buf buf -> 0 <= ofs -> ofs + Z.of_nat (length xs) <= 1024 -> bytes xs ->
  good_buf (splice buf ofs xs).
Proof. intros [Hl Hb] H0 H1 Hx. split; [rewrite length_splice; lia|by apply bytes_splice]. Qed.

(** * What the blocks are for *)

Definition ref (buf : list Z) (j : Z) : Z := getv 4 buf (4 * j).
Definition nextf (buf : list Z) : Z := getv 4 buf ofs_dqdh_next_free.
Definition prevf (buf : list Z) : Z := getv 4 buf ofs_dqdh_prev_free.
Definition entf (buf : list Z) : Z := getv 2 buf ofs_dqdh_entries.

(** A slot is free or holds the entry of an id. *)
Abbreviation slots := (list (option (Z * list Z))).
Definition zeros72 : list Z := replicate 72 0.
Definition slot (buf : list Z) (j : nat) : list Z := take 72 (drop (16 + 72 * j) buf).
Definition slot_val (o : option (Z * list Z)) : list Z := match o with Some (_, e) => e | None => zeros72 end.
Definition weight (o : option (Z * list Z)) : nat := match o with Some _ => 1 | None => 0 end.
Fixpoint cnt (s : slots) : nat := match s with [] => 0 | o :: s => weight o + cnt s end.

Record data_ok (buf : list Z) (s : slots) : Prop := {
  do_len : length s = 14%nat;
  do_cnt : entf buf = Z.of_nat (cnt s);
  do_slot : forall j o, s !! j = Some o -> slot buf j = slot_val o;
}.

(** ** Stores in the header of a block *)

Definition set_next (buf : list Z) (v : Z) : list Z := splice buf ofs_dqdh_next_free (le_bytes 4 v).
Definition set_prev (buf : list Z) (v : Z) : list Z := splice buf ofs_dqdh_prev_free (le_bytes 4 v).
Definition set_ent (buf : list Z) (v : Z) : list Z := splice buf ofs_dqdh_entries (le_bytes 2 v).

Ltac hdr := unfold set_next, set_prev, set_ent, nextf, prevf, entf, ofs_dqdh_next_free, ofs_dqdh_prev_free, ofs_dqdh_entries in *.

Lemma set_next_Ok buf v : good_buf buf -> set_le32 buf ofs_dqdh_next_free v = Ok (set_next buf v).
Proof. intros [Hl _]. apply set_le_Ok; hdr; lia. Qed.
Lemma set_prev_Ok buf v : good_buf buf -> set_le32 buf ofs_dqdh_prev_free v = Ok (set_prev buf v).
Proof. intros [Hl _]. apply set_le_Ok; hdr; lia. Qed.
Lemma set_ent_Ok buf v : good_buf buf -> set_le16 buf ofs_dqdh_entries v = Ok (set_ent buf v).
Proof. intros [Hl _]. apply set_le_Ok; hdr; lia. Qed.
Lemma nextf_Ok buf : good_buf buf -> get_le32 buf ofs_dqdh_next_free = Ok (nextf buf).
Proof. intros [Hl _]. apply getv_Ok; hdr; lia. Qed.
Lemma prevf_Ok buf : good_buf buf -> get_le32 buf ofs_dqdh_prev_free = Ok (prevf buf).
Proof. intros [Hl _]. apply getv_Ok; hdr; lia. Qed.
Lemma entf_Ok buf : good_buf buf -> get_le16 buf ofs_dqdh_entries = Ok (entf buf).
Proof. intros [Hl _]. apply getv_Ok; hdr; lia. Qed.

Lemma good_set_next buf v : good_buf buf -> good_buf (set_next buf v).
Proof. intros Hg. apply good_splice; [done|hdr; lia|rewrite length_le_bytes; hdr; lia|apply bytes_le_bytes]. Qed.
Lemma good_set_prev buf v : good_buf buf -> good_buf (set_prev buf v).
Proof. intros Hg. apply good_splice; [done|hdr; lia|rewrite length_le_bytes; hdr; lia|apply bytes_le_bytes]. Qed.
Lemma good_set_ent buf v : good_buf buf -> good_buf (set_ent buf v).
Proof. intros Hg. apply good_splice; [done|hdr; lia|rewrite length_le_bytes; hdr; lia|apply bytes_le_bytes]. Qed.
Create HintDb quota.
Create Rewrite HintDb quota.
#[export] Hint Resolve good_empty good_set_next good_set_prev good_set_ent : quota.

Lemma nextf_set_next buf v : good_buf buf -> is_u32 v -> nextf (set_next buf v) = v.
Proof. intros [Hl _] Hv. hdr. apply getv_set; [lia|lia|apply Hv]. Qed.
Lemma prevf_set_prev buf v : good_buf buf -> is_u32 v -> prevf (set_prev buf v) = v.
Proof. intros [Hl _] Hv. hdr. apply getv_set; [lia|lia|apply Hv]. Qed.
Lemma entf_set_ent buf v : good_buf buf -> is_u16 v -> entf (set_ent buf v) = v.
Proof. intros [Hl _] Hv. hdr. apply getv_set; [lia|lia|apply Hv]. Qed.
Lemma nextf_set_prev buf v : good_buf buf -> nextf (set_prev buf v) = nextf buf.
Proof. intros [Hl _]. hdr. apply getv_set_ne; rewrite ?length_le_bytes; lia. Qed.
Lemma nextf_set_ent buf v : good_buf buf -> nextf (set_ent buf v) = nextf buf.
Proof. intros [Hl _]. hdr. apply getv_set_ne; rewrite ?length_le_bytes; lia. Qed.
Lemma prevf_set_next buf v : good_buf buf -> prevf (set_next buf v) = prevf buf.
Proof. intros [Hl _]. hdr. apply getv_set_ne; rewrite ?length_le_bytes; lia. Qed.
Lemma prevf_set_ent buf v : good_buf buf -> prevf (set_ent buf v) = prevf buf.
Proof. intros [Hl _]. hdr. apply getv_set_ne; rewrite ?length_le_bytes; lia. Qed.
Lemma entf_set_next buf v : good_buf buf -> entf (set_next buf v) = entf buf.
Proof. intros [Hl _]. hdr. apply getv_set_ne; rewrite ?length_le_bytes; lia. Qed.
Lemma entf_set_prev buf v : good_buf buf -> entf (set_prev buf v) = entf buf.
Proof. intros [Hl _]. hdr. apply getv_set_ne; rewrite ?length_le_bytes; lia. Qed.

Lemma slot_splice_ne buf ofs xs j : good_buf buf -> 0 <= ofs -> ofs + Z.of_nat (length xs) <= 1024 ->
  ofs + Z.of_nat (length xs) <= 16 + 72 * Z.of_nat j \/ 16 + 72 * (Z.of_nat j + 1) <= ofs -> slot (splice buf ofs xs) j = slot buf j.
Proof.
  intros [Hl _] H0 H1 Hd. unfold slot. apply list_eq. intros k. destruct (decide (k < 72)%nat) as [Hk|Hk].
  - rewrite !lookup_take_lt, !lookup_drop, lookup_splice by lia. case_decide; [lia|done].
  - by rewrite !lookup_take_ge by lia.
Qed.
Lemma slot_splice_eq buf j e : good_buf buf -> length e = 72%nat -> (j < 14)%nat -> slot (splice buf (16 + 72 * Z.of_nat j) e) j = e.
Proof.
  intros [Hl _] He Hj. unfold slot. apply list_eq. intros k. destruct (decide (k < 72)%nat) as [Hk|Hk].
  - rewrite lookup_take_lt, lookup_drop, lookup_splice by lia. case_decide; [f_equal; lia|lia].
  - rewrite lookup_take_ge by lia. symmetry. apply lookup_ge_None_2. lia.
Qed.
Lemma slot_set_next buf v j : good_buf buf -> slot (set_next buf v) j = slot buf j.
Proof. intros Hg. apply slot_splice_ne; rewrite ?length_le_bytes; hdr; first [done | lia]. Qed.
Lemma slot_set_prev buf v j : good_buf buf -> slot (set_prev buf v) j = slot buf j.
Proof. intros Hg. apply slot_splice_ne; rewrite ?length_le_bytes; hdr; first [done | lia]. Qed.
Lemma slot_set_ent buf v j : good_buf buf -> slot (set_ent buf v) j = slot buf j.
Proof. intros Hg. apply slot_splice_ne; rewrite ?length_le_bytes; hdr; first [done | lia]. Qed.

Ltac u_range := unfold is_u32, is_u16 in *; lia.
Hint Rewrite nextf_set_next prevf_set_prev entf_set_ent using (first [solve [auto 6 with quota] | u_range]) : quota.
Hint Rewrite nextf_set_prev nextf_set_ent prevf_set_next prevf_set_ent entf_set_next entf_set_prev
  slot_set_next slot_set_prev slot_set_ent using (solve [auto 6 with quota]) : quota.

(** The same entries, though the links may differ. *)
Definition same_data (buf buf' : list Z) : Prop := entf buf' = entf buf /\ forall j, slot buf' j = slot buf j.

Lemma data_ok_same buf buf' s : same_data buf buf' -> data_ok buf s -> data_ok buf' s.
Proof. intros [He Hs] []. constructor; [done|by rewrite He|]. intros j o Hj. rewrite Hs. by apply do_slot0. Qed.

(** The indices of an id in the tree. *)
Definition path (id : Z) : list Z := [get_index id 0; get_index id 1; get_index id 2; get_index id 3].

Record ghost := {
  gn : gmap (list Z) Z;
  gd : gmap Z slots;
  ge : list Z;
  gf : list Z;
}.

Fixpoint dll (B : Z -> list Z) (prev : Z) (l : list Z) : Prop :=
  match l with
  | [] => True
  | b :: l => prevf (B b) = prev /\ nextf (B b) = hd 0 l /\ dll B b l
  end.
Fixpoint sll (B : Z -> list Z) (l : list Z) : Prop :=
  match l with [] => True | b :: l => nextf (B b) = hd 0 l /\ sll B l end.

Definition holds (d : gmap Z slots) (id b : Z) (j : nat) (e : list Z) : Prop :=
  exists s, d !! b = Some s /\ s !! j = Some (Some (id, e)).

(** The entry of [pend] is reserved but not yet written. *)
Definition good_entry (pend : option Z) (id : Z) (e : list Z) : Prop :=
  length e = 72%nat /\ bytes e /\
  if decide (pend = Some id) then e = zeros72 else e <> zeros72 /\ getv 4 e 0 = id.

(** The tree: the references of a block are those of the prefix it stands for. The
    blocks of the prefixes in [X] are exempt, their references are being updated. *)
Record tree_ok (B : Z -> list Z) (n : gmap (list Z) Z) (X : list Z -> Prop) : Prop := {
  to_root : n !! [] = Some QT_TREEOFF;
  to_key : forall p b, n !! p = Some b -> (length p <= 4)%nat /\ Forall (fun j => 0 <= j < 256) p;
  to_pos : forall p b, n !! p = Some b -> 1 <= b < 2 ^ 21;
  to_closed : forall p j b, n !! (p ++ [j]) = Some b -> is_Some (n !! p);
  to_refs : forall p b j, n !! p = Some b -> (length p <= 3)%nat -> ~ X p -> 0 <= j < 256 ->
    ref (B b) j = default 0 (n !! (p ++ [j]));
  to_inj : forall p q b, n !! p = Some b -> n !! q = Some b -> (length p <= 3)%nat -> (length q <= 3)%nat -> p = q;
}.

(** The data blocks and their entries. *)
Record data_inv (B : Z -> list Z) (d : gmap Z slots) (pend : option Z) : Prop := {
  di_data : forall b s, d !! b = Some s -> data_ok (B b) s;
  di_entry : forall id b j e, holds d id b j e -> is_u32 id /\ good_entry pend id e;
  di_once : forall id b j e b' j' e', holds d id b j e -> holds d id b' j' e' -> b = b' /\ j = j';
}.

(** The list of data blocks with room. *)
Record part_ok (B : Z -> list Z) (head : Z) (d : gmap Z slots) (l : list Z) : Prop := {
  po_head : head = hd 0 l;
  po_dll : dll B 0 l;
  po_nodup : NoDup l;
  po_iff : forall b, b ∈ l <-> exists s, d !! b = Some s /\ (cnt s < 14)%nat;
}.

(** The list of free blocks. *)
Record free_ok (B : Z -> list Z) (head : Z) (l : list Z) : Prop := {
  fo_head : head = hd 0 l;
  fo_sll : sll B l;
  fo_nodup : NoDup l;
}.

(** No block has two uses, and all are in the file. *)
Record place (blocks : Z) (g : ghost) : Prop := {
  pl_nodes : forall p b, gn g !! p = Some b -> (length p <= 3)%nat -> 1 <= b < blocks /\ gd g !! b = None /\ b ∉ gf g;
  pl_datas : forall b, is_Some (gd g !! b) -> 1 <= b < blocks /\ b ∉ gf g;
  pl_frees : forall b, b ∈ gf g -> 1 <= b < blocks;
}.

Definition where_ok (g : ghost) : Prop :=
  forall id b, is_u32 id -> gn g !! path id = Some b <-> exists j e, holds (gd g) id b j e.

Record qinv (B : Z -> list Z) (i : qtree_mem_dqinfo) (g : ghost) (X : list Z -> Prop) (pend : option Z) : Prop := {
  qi_tree : tree_ok B (gn g) X;
  qi_data : data_inv B (gd g) pend;
  qi_part : part_ok B (dqi_free_entry i) (gd g) (ge g);
  qi_free : free_ok B (dqi_free_blk i) (gf g);
  qi_place : place (dqi_blocks i) g;
  qi_where : where_ok g;
}.

(** ** Only the blocks that are used matter *)

Lemma dll_ext B B' l : forall prev, (forall b, b ∈ l -> prevf (B' b) = prevf (B b) /\ nextf (B' b) = nextf (B b)) ->
  dll B prev l -> dll B' prev l.
Proof.
  induction l as [|b l IH]; intros prev He; [done|]. cbn [dll]. intros (H1 & H2 & H3).
  destruct (He b) as [-> ->]; [left|]. split; [done|]. split; [done|]. apply IH; [|done]. intros x Hx. apply He. by right.
Qed.
Lemma sll_ext B B' l : (forall b, b ∈ l -> B' b = B b) -> sll B l -> sll B' l.
Proof.
  induction l as [|b l IH]; intros He; [done|]. cbn [sll]. intros (H1 & H2).
  rewrite He by left. split; [done|]. apply IH; [|done]. intros x Hx. apply He. by right.
Qed.

Lemma tree_ok_ext B B' n X : (forall p b, n !! p = Some b -> (length p <= 3)%nat -> ~ X p -> B' b = B b) ->
  tree_ok B n X -> tree_ok B' n X.
Proof. intros He []. constructor; try done. intros p b j Hp Hl Hx Hj. rewrite (He p) by done. by apply to_refs0. Qed.

Lemma data_inv_ext B B' d pend : (forall b, is_Some (d !! b) -> B' b = B b) -> data_inv B d pend -> data_inv B' d pend.
Proof. intros He []. constructor; try done. intros b s Hs. rewrite He by (by exists s). by apply di_data0. Qed.

Lemma part_ok_ext B B' head d l :
  (forall b, b ∈ l -> prevf (B' b) = prevf (B b) /\ nextf (B' b) = nextf (B b)) -> part_ok B head d l -> part_ok B' head d l.
Proof. intros He []. constructor; try done. by eapply dll_ext. Qed.

Lemma part_ok_ext' B B' head d l : (forall b, is_Some (d !! b) -> B' b = B b) -> part_ok B head d l -> part_ok B' head d l.
Proof.
  intros He P. apply (part_ok_ext B); [|done]. intros b Hb. apply (po_iff _ _ _ _ P) in Hb as (s & Hs & _).
  by rewrite He by (by exists s).
Qed.

Lemma free_ok_ext B B' head l : (forall b, b ∈ l -> B' b = B b) -> free_ok B head l -> free_ok B' head l.
Proof. intros He []. constructor; try done. by eapply sll_ext. Qed.

(** Exempting more. *)
Lemma tree_ok_weaken B n (X X' : list Z -> Prop) : (forall p, X p -> X' p) -> tree_ok B n X -> tree_ok B n X'.
Proof. intros HX []. constructor; try done. intros p b j Hp Hl Hx. apply to_refs0; auto. Qed.

(** A block the description does not know. *)
Definition fresh (g : ghost) (b : Z) : Prop :=
  (forall p, gn g !! p = Some b -> (3 < length p)%nat) /\ gd g !! b = None /\ b ∉ gf g.

Lemma fresh_upd B i g X pend b buf : fresh g b -> qinv B i g X pend -> qinv (upd B b buf) i g X pend.
Proof.
  intros (Hn & Hd & Hf) [T D P Fr Pl W]. constructor; try done.
  - eapply tree_ok_ext; [|done]. intros p c Hp Hl _. apply upd_ne. intros ->. apply Hn in Hp. lia.
  - eapply data_inv_ext; [|done]. intros c [s Hs]. apply upd_ne. intros ->. congruence.
  - eapply part_ok_ext'; [|done]. intros c [s Hs]. apply upd_ne. intros ->. congruence.
  - eapply free_ok_ext; [|done]. intros c Hc. apply upd_ne. intros ->. done.
Qed.

(** ** Slots *)

Lemma entry_unused_eq n : forall l p, 0 <= p -> p + Z.of_nat n <= Z.of_nat (length l) ->
  entry_unused_loop n l p = Ok (bool_decide (take n (drop (Z.to_nat p) l) = replicate n 0)).
Proof.
  induction n as [|n IH]; intros l p H0 H1; [done|]. cbn [entry_unused_loop].
  destruct (rd_total l p) as [b Hb]; [lia|]. rewrite Hb, res_bind_ret. apply rd_Ok in Hb as [_ Hb].
  rewrite (drop_S l b (Z.to_nat p) Hb). cbn [take replicate]. destruct (Z.eqb_spec b 0) as [->|Hne].
  - rewrite IH by lia. replace (Z.to_nat (p + 1)) with (S (Z.to_nat p)) by lia. f_equal. apply bool_decide_ext.
    split; [by intros ->|by intros [= ->]].
  - by rewrite bool_decide_false by congruence.
Qed.

Lemma slot_unused info buf j : good_buf buf -> dqi_entry_size info = 72 -> (j < 14)%nat ->
  qtree_entry_unused info buf (SIZE_OF_DQDBHEADER + Z.of_nat j * dqi_entry_size info) = Ok (bool_decide (slot buf j = zeros72)).
Proof.
  intros [Hl _] Hs Hj. unfold qtree_entry_unused, SIZE_OF_DQDBHEADER. rewrite Hs.
  rewrite entry_unused_eq by lia. unfold slot, zeros72. by replace (Z.to_nat (16 + Z.of_nat j * 72)) with (16 + 72 * j)%nat by lia.
Qed.

Lemma unused_slot_spec info buf n : forall k, good_buf buf -> dqi_entry_size info = 72 -> (n + k = 14)%nat ->
  (exists j, (k <= j < 14)%nat /\ slot buf j = zeros72) ->
  exists j, (j < 14)%nat /\ slot buf j = zeros72 /\ unused_slot n info buf (Z.of_nat k) = Ok (Z.of_nat j).
Proof.
  induction n as [|n IH]; intros k Hg Hs Hk (j & Hj & Hz); [lia|]. cbn [unused_slot].
  rewrite slot_unused, res_bind_ret by (done || lia). case_bool_decide as Hu.
  - exists k. split; [lia|done].
  - replace (Z.of_nat k + 1) with (Z.of_nat (S k)) by lia. apply IH; [done|done|lia|].
    exists j. split; [|done]. destruct (decide (j = k)) as [->|]; [done|lia].
Qed.

Lemma cnt_insert s : forall j o o', s !! j = Some o -> (cnt (<[j := o']> s) + weight o = cnt s + weight o')%nat.
Proof.
  induction s as [|x s IH]; intros j o o' Hj; [done|]. destruct j as [|j].
  - injection Hj as ->. change (<[0%nat := o']> (o :: s)) with (o' :: s). cbn [cnt]. lia.
  - specialize (IH j o o' Hj). change (<[S j := o']> (x :: s)) with (x :: <[j := o']> s). cbn [cnt]. lia.
Qed.

Lemma cnt_free s : (cnt s < length s)%nat -> exists j, s !! j = Some None.
Proof.
  induction s as [|x s IH]; intros Hc; [cbn in Hc; lia|]. cbn [cnt length] in Hc. destruct x as [x|].
  - destruct IH as [j Hj]; [cbn in Hc; lia|]. by exists (S j).
  - by exists 0%nat.
Qed.

Lemma cnt_le s : (cnt s <= length s)%nat.
Proof. induction s as [|[] s IH]; cbn; lia. Qed.

Lemma cnt_pos s j x : s !! j = Some (Some x) -> (0 < cnt s)%nat.
Proof. intros Hj. pose proof (cnt_insert s j _ None Hj) as Hc. cbn [weight] in Hc. lia. Qed.

(** The entries when one slot is set. *)
Definition set_slot (d : gmap Z slots) (b : Z) (s : slots) (j : nat) (o : option (Z * list Z)) : gmap Z slots :=
  <[b := <[j := o]> s]> d.

Lemma holds_set d b s j o id b' j' e : d !! b = Some s -> (j < length s)%nat ->
  holds (set_slot d b s j o) id b' j' e <-> if decide (b' = b /\ j' = j) then o = Some (id, e) else holds d id b' j' e.
Proof.
  intros Hb Hj. unfold holds, set_slot. destruct (decide (b' = b)) as [->|Hne].
  - rewrite lookup_insert_eq. destruct (decide (j' = j)) as [->|Hnj].
    + rewrite decide_True by done. split.
      * intros (t & [= <-] & Ht). rewrite list_lookup_insert_eq in Ht by done. congruence.
      * intros ->. eexists. split; [done|]. by rewrite list_lookup_insert_eq.
    + rewrite decide_False by tauto. rewrite Hb. split; intros (t & [= <-] & Ht); eexists; (split; [done|]);
        rewrite list_lookup_insert_ne in * by done; done.
  - rewrite lookup_insert_ne, decide_False by (done || tauto). done.
Qed.

Lemma set_slot_some d b s j o b' : d !! b = Some s -> is_Some (set_slot d b s j o !! b') <-> is_Some (d !! b').
Proof.
  intros Hb. unfold set_slot. destruct (decide (b' = b)) as [->|]; [rewrite lookup_insert_eq, Hb|by rewrite lookup_insert_ne].
  split; by eauto.
Qed.

(** A slot set in the block and in the description. *)
Lemma data_ok_set buf buf' s j o : data_ok buf s -> (j < 14)%nat -> entf buf' = Z.of_nat (cnt (<[j := o]> s)) ->
  slot buf' j = slot_val o -> (forall j', j' <> j -> slot buf' j' = slot buf j') -> data_ok buf' (<[j := o]> s).
Proof.
  intros [Hl Hc Hs] Hj He Ho Hne. constructor; [by rewrite length_insert|done|]. intros j' o' Hj'.
  destruct (decide (j' = j)) as [->|Hn].
  - rewrite list_lookup_insert_eq in Hj' by lia. by injection Hj' as <-.
  - rewrite list_lookup_insert_ne in Hj' by done. rewrite Hne by done. by apply Hs.
Qed.

Lemma lookup_free k j (o : option (Z * list Z)) : replicate k None !! j = Some o -> o = None.
Proof. intros Hj. by apply lookup_replicate in Hj as [-> _]. Qed.

Lemma holds_new d b k id b' j e : d !! b = None -> holds (<[b := replicate k None]> d) id b' j e <-> holds d id b' j e.
Proof.
  intros Hb. unfold holds. destruct (decide (b' = b)) as [->|]; [|by rewrite lookup_insert_ne].
  rewrite lookup_insert_eq, Hb. split; intros (s & Hs & Hj); [|done]. injection Hs as <-. apply lookup_free in Hj. done.
Qed.

Lemma data_ok_empty : data_ok empty_buf (replicate 14 None).
Proof.
  constructor; [done|done|]. intros j o Hj. pose proof (lookup_lt_Some _ _ _ Hj) as Hl. apply lookup_free in Hj as ->.
  cbn [length replicate] in Hl. unfold slot, empty_buf, zeros72, slot_val. change (Z.to_nat QT_BLKSIZE) with 1024%nat.
  rewrite drop_replicate, take_replicate. f_equal. lia.
Qed.

Lemma data_new B d pend b : d !! b = None -> data_inv B d pend ->
  data_inv (upd B b empty_buf) (<[b := replicate 14 None]> d) pend.
Proof.
  intros Hb [D E O]. constructor.
  - intros c s Hc. destruct (decide (c = b)) as [->|Hne].
    + rewrite lookup_insert_eq in Hc. injection Hc as <-. rewrite upd_eq. apply data_ok_empty.
    + rewrite lookup_insert_ne in Hc by done. rewrite upd_ne by done. by apply D.
  - intros id c j e Hh. apply holds_new in Hh; [|done]. by apply (E id c j).
  - intros id c j e c' j' e' Hh Hh'. apply holds_new in Hh, Hh'; [|done|done]. by apply (O id c j e c' j' e').
Qed.

Lemma data_set B d pend pend' b s j o buf : data_inv B d pend -> d !! b = Some s -> (j < 14)%nat -> data_ok buf (<[j := o]> s) ->
  (forall id e, o = Some (id, e) -> is_u32 id /\ good_entry pend' id e /\
    forall b' j' e', holds d id b' j' e' -> b' = b /\ j' = j) ->
  (forall id b' j' e, holds d id b' j' e -> ~ (b' = b /\ j' = j) -> good_entry pend id e -> good_entry pend' id e) ->
  data_inv (upd B b buf) (set_slot d b s j o) pend'.
Proof.
  intros [D E O] Hb Hj Hok Hnew Hold. assert (Hjs : (j < length s)%nat) by (rewrite (do_len _ _ (D b s Hb)); done).
  constructor.
  - intros c t Hc. unfold set_slot in Hc. destruct (decide (c = b)) as [->|Hne].
    + rewrite lookup_insert_eq in Hc. injection Hc as <-. by rewrite upd_eq.
    + rewrite lookup_insert_ne in Hc by done. rewrite upd_ne by done. by apply D.
  - intros id c k e Hh. apply holds_set in Hh; [|done|done]. case_decide as Hck.
    + destruct (Hnew id e Hh) as (? & ? & _). done.
    + destruct (E _ _ _ _ Hh). split; [done|]. by apply (Hold id c k e).
  - intros id c k e c' k' e' Hh Hh'. apply holds_set in Hh, Hh'; [|done..].
    destruct (decide (c = b /\ k = j)) as [[-> ->]|Hck], (decide (c' = b /\ k' = j)) as [[-> ->]|Hck'].
    + done.
    + destruct (Hnew id e Hh) as (_ & _ & Hu). by destruct (Hu _ _ _ Hh') as [-> ->].
    + destruct (Hnew id e' Hh') as (_ & _ & Hu). by destruct (Hu _ _ _ Hh) as [-> ->].
    + by apply (O id c k e c' k' e').
Qed.

(** ** The indices of ids, and new blocks of the tree *)

Lemma get_index_range id k : 0 <= get_index id k < 256.
Proof. unfold get_index. change 255 with (Z.ones 8). rewrite Z.land_ones by lia. apply Z.mod_pos_bound. lia. Qed.

Lemma get_index_eq id k : 0 <= k < 4 -> get_index id k = id / 2 ^ (8 * (3 - k)) mod 256.
Proof.
  intros Hk. unfold get_index, QT_TREEDEPTH. change 255 with (Z.ones 8). rewrite Z.land_ones, Z.shiftr_div_pow2 by lia.
  by replace ((4 - k - 1) * 8) with (8 * (3 - k)) by lia.
Qed.

Lemma path_inj id id' : is_u32 id -> is_u32 id' -> path id = path id' -> id = id'.
Proof.
  unfold path, is_u32. intros Hi Hi'. rewrite !get_index_eq by lia. cbn. intros [= H0 H1 H2 H3].
  rewrite !Z.div_1_r in H3. Z.to_euclidean_division_equations. lia.
Qed.

Lemma path_range id : Forall (fun j => 0 <= j < 256) (path id).
Proof. repeat (apply Forall_cons; split; [apply get_index_range|]). by apply Forall_nil. Qed.

Lemma path_take_S id k : (k < 4)%nat -> take (S k) (path id) = take k (path id) ++ [get_index id (Z.of_nat k)].
Proof. intros Hk. do 4 (destruct k as [|k]; [done|]). lia. Qed.

Lemma path_take_inj id k k' : (k <= 4)%nat -> (k' <= 4)%nat -> take k (path id) = take k' (path id) -> k = k'.
Proof. intros Hk Hk' He. apply (f_equal length) in He. rewrite !length_take in He. cbn in He. lia. Qed.

Lemma length_path_take id k : (k <= 4)%nat -> length (take k (path id)) = k.
Proof. intros Hk. rewrite length_take. cbn. lia. Qed.

Lemma tree_add B n (X X' : list Z -> Prop) q j b : tree_ok B n X -> (forall p, X p -> X' p) -> n !! (q ++ [j]) = None ->
  is_Some (n !! q) -> X q -> (length q <= 3)%nat -> 0 <= j < 256 -> 1 <= b < 2 ^ 21 ->
  ((length q <= 2)%nat -> X' (q ++ [j]) /\ forall p, n !! p = Some b -> (3 < length p)%nat) ->
  tree_ok B (<[q ++ [j] := b]> n) X'.
Proof.
  intros T HX Hnone [bq Hq] HXq Hl Hj Hb Hnew. pose proof (tree_ok_weaken B n X X' HX T) as T'. destruct T' as [T1 T2 T3 T4 T5 T6].
  constructor.
  - rewrite lookup_insert_ne by (by destruct q). done.
  - intros p c [(<- & _)|(_ & Hp)]%lookup_insert_Some; [|by apply T2 in Hp]. split; [rewrite length_app; cbn; lia|].
    apply Forall_app. split; [by apply (T2 q bq)|]. apply Forall_cons. split; [done|by apply Forall_nil].
  - intros p c [(_ & <-)|(_ & Hp)]%lookup_insert_Some; [done|by apply T3 in Hp].
  - intros p k c [(He & _)|(_ & Hp)]%lookup_insert_Some.
    + apply app_inj_tail in He as [<- _]. rewrite lookup_insert_ne; [by exists bq|]. intros Hx%(f_equal length). rewrite length_app in Hx. cbn in Hx. lia.
    + apply T4 in Hp. destruct (decide (q ++ [j] = p)) as [->|]; [rewrite lookup_insert_eq; by eexists|by rewrite lookup_insert_ne].
  - intros p c k [(<- & <-)|(_ & Hp)]%lookup_insert_Some Hlp Hx Hk.
    + destruct Hx. apply Hnew. rewrite length_app in Hlp. cbn in Hlp. lia.
    + rewrite lookup_insert_ne; [by apply T5|]. intros He%app_inj_tail. destruct He as [-> _]. apply Hx, HX, HXq.
  - intros p p' c Hp Hp' Hlp Hlp'. apply lookup_insert_Some in Hp as [(<- & <-)|(_ & Hp)], Hp' as [(<- & Hc)|(_ & Hp')]; [done| | |].
    + destruct Hnew as [_ Hu]; [rewrite length_app in Hlp; cbn in Hlp; lia|]. apply Hu in Hp'. lia.
    + destruct Hnew as [_ Hu]; [rewrite length_app in Hlp'; cbn in Hlp'; lia|]. subst c. apply Hu in Hp. lia.
    + by apply (T6 p p' c).
Qed.

(** ** Lists of blocks *)

Definition lastd (prev : Z) (l : list Z) : Z := default prev (last l).

Lemma dll_mid B b l2 : forall l1 prev, dll B prev (l1 ++ b :: l2) -> prevf (B b) = lastd prev l1 /\ nextf (B b) = hd 0 l2.
Proof.
  induction l1 as [|a l1 IH]; intros prev; cbn [app dll].
  - intros (H1 & H2 & _). done.
  - intros (_ & _ & H). destruct (IH _ H) as [-> ->]. split; [|done]. unfold lastd. rewrite last_cons. by destruct (last l1).
Qed.

Lemma dll_unlink B B' b l2 : forall l1 prev, dll B prev (l1 ++ b :: l2) -> NoDup (l1 ++ b :: l2) ->
  (forall x, x ∈ l1 ++ l2 -> prevf (B' x) = if decide (head l2 = Some x) then lastd prev l1 else prevf (B x)) ->
  (forall x, x ∈ l1 ++ l2 -> nextf (B' x) = if decide (last l1 = Some x) then hd 0 l2 else nextf (B x)) ->
  dll B' prev (l1 ++ l2).
Proof.
  induction l1 as [|a l1 IH]; intros prev; cbn [app dll].
  - intros (_ & _ & H) [_ Hnd]%NoDup_cons Hp Hn. destruct l2 as [|c l2]; [done|]. cbn [dll] in *. destruct H as (_ & H2 & H3).
    apply NoDup_cons in Hnd as [Hc _]. split_and!.
    + rewrite Hp by left. by rewrite decide_True.
    + rewrite Hn by left. by rewrite decide_False.
    + eapply dll_ext; [|exact H3]. intros x Hx. rewrite Hp, Hn by (by right). rewrite !decide_False; [done|done|].
      intros [= ->]. done.
  - intros (H1 & H2 & H3) [Ha Hnd]%NoDup_cons Hp Hn.
    assert (Hal : a ∉ l1 ++ l2) by (intros [Hx|Hx]%elem_of_app; apply Ha, elem_of_app; [by left|right; by right]).
    split_and!.
    + rewrite Hp by left. rewrite decide_False; [done|]. intros Hx%head_Some_elem_of. apply Hal, elem_of_app. by right.
    + rewrite Hn by left. destruct l1 as [|c l1]; [by rewrite decide_True|]. rewrite decide_False; [by rewrite H2|].
      rewrite last_cons_cons. intros Hx%last_Some_elem_of. apply Hal, elem_of_app. by left.
    + apply IH; [done|done| |].
      * intros x Hx. rewrite Hp by (by right). case_decide; [|done]. unfold lastd. rewrite last_cons. by destruct (last l1).
      * intros x Hx. rewrite Hn by (by right). rewrite last_cons. destruct (last l1) as [y|]; [done|].
        rewrite decide_False; [|intros [= ->]; done]. by rewrite decide_False.
Qed.

Section Tree.
Context {F : Type} `{QuotaFileLaws F}.
Implicit Types (h : quota_handle F) (i : qtree_mem_dqinfo) (B : Z -> list Z).

Definition blk_of (f : F) (b : Z) : list Z := (fun j => qf_byte f (1024 * b + Z.of_nat j)) <$> seq 0 1024.

Lemma blk_of_lookup f b j : (j < 1024)%nat -> blk_of f b !! j = Some (qf_byte f (1024 * b + Z.of_nat j)).
Proof. intros Hj. unfold blk_of. rewrite list_lookup_fmap, lookup_seq_lt by lia. done. Qed.
Lemma blk_of_good f b : good_buf (blk_of f b).
Proof.
  split; [unfold blk_of; by rewrite length_fmap, length_seq|]. apply Forall_fmap, Forall_true. intros j. apply qf_byte_range.
Qed.

(** The handle [h] is a file with the blocks [B] and the information [i]; [L] blocks
    can be written. *)
Record rep (L : Z) h B i : Prop := {
  rep_info : qh_info h = i;
  rep_size : dqi_entry_size i = 72;
  rep_room : L <= 2 ^ 21 /\ 1024 * L <= qf_room (qh_qf h);
  rep_len : dqi_blocks i = 2 \/ 1024 * dqi_blocks i <= qf_len (qh_qf h);
  rep_ok : qf_ok (qh_qf h) /\ 32 <= qf_len (qh_qf h);
  rep_blk : forall b, 0 <= b < 2 ^ 21 -> blk_of (qh_qf h) b = B b;
}.

Lemma rep_good L h B i b : rep L h B i -> 0 <= b < 2 ^ 21 -> good_buf (B b).
Proof. intros R Hb. rewrite <- (rep_blk _ _ _ _ R b Hb). apply blk_of_good. Qed.

Lemma rep_with_info L h B i j : rep L h B i -> dqi_entry_size j = 72 -> dqi_blocks j = dqi_blocks i -> rep L (with_info h j) B j.
Proof. intros [] Hj Hb. constructor; try done. by rewrite Hb. Qed.
Lemma rep_grow L h B i j : rep L h B i -> dqi_entry_size j = 72 -> 1024 * dqi_blocks j <= qf_len (qh_qf h) -> rep L (with_info h j) B j.
Proof. intros [] Hj Hb. constructor; try done. by right. Qed.

Lemma shift_blk b : 0 <= b < 2 ^ 21 -> u32 (Z.shiftl b QT_BLKSIZE_BITS) = 1024 * b.
Proof.
  intros Hb. unfold QT_BLKSIZE_BITS. rewrite Z.shiftl_mul_pow2 by lia. change (2 ^ 10) with 1024.
  rewrite u32_id by (unfold is_u32; lia). lia.
Qed.

(** Reading a block of the file, as far as the size goes. *)
Lemma read_blk_len L h B i b : rep L h B i -> 0 <= b < 2 ^ 21 ->
  exists bs, read_blk h b = Ok (bs ++ replicate (1024 - length bs) 0) /\ Z.of_nat (length bs) = Z.max 0 (Z.min 1024 (qf_len (qh_qf h) - 1024 * b)) /\
    forall j x, bs !! j = Some x -> x = qf_byte (qh_qf h) (1024 * b + Z.of_nat j).
Proof.
  intros R Hb. unfold read_blk. rewrite shift_blk by done.
  destruct (qf_read_ok (qh_qf h) (1024 * b) QT_BLKSIZE) as (bs & -> & Hl & Hbs); [apply R|lia|done| |].
  { unfold QT_BLKSIZE, QT_BLKSIZE_BITS. change (Z.shiftl 1 10) with 1024. Z.to_euclidean_division_equations. lia. }
  rewrite res_bind_ret. by exists bs.
Qed.

Lemma read_blk_eq L h B i b : rep L h B i -> 2 < dqi_blocks i <= L -> 0 <= b < dqi_blocks i -> read_blk h b = Ok (B b).
Proof.
  intros R H2 Hb. destruct (rep_room _ _ _ _ R) as [HL' _]. destruct (read_blk_len L h B i b R) as (bs & -> & Hl & Hbs); [lia|]. f_equal.
  assert (1024 * dqi_blocks i <= qf_len (qh_qf h)) by (destruct (rep_len _ _ _ _ R); lia).
  assert (Hlen : length bs = 1024%nat) by lia. rewrite Hlen, app_nil_r. rewrite <- (rep_blk _ _ _ _ R b) by lia.
  apply list_eq. intros j. destruct (decide (j < 1024)%nat) as [Hj|Hj].
  - rewrite blk_of_lookup by done. destruct (lookup_lt_is_Some_2 bs j) as [x Hx]; [lia|]. rewrite Hx. f_equal. by apply Hbs.
  - rewrite (lookup_ge_None_2 (blk_of _ _)) by (destruct (blk_of_good (qh_qf h) b); lia). apply lookup_ge_None_2. lia.
Qed.

(** The root of a new file is beyond its size. *)
Lemma read_root_new L h B i : rep L h B i -> qf_len (qh_qf h) <= 1024 -> read_blk h QT_TREEOFF = Ok empty_buf.
Proof.
  intros R Hn. destruct (read_blk_len L h B i QT_TREEOFF R) as (bs & -> & Hl & _); [unfold QT_TREEOFF; lia|].
  unfold QT_TREEOFF in Hl. assert (Hlen : length bs = 0%nat) by lia. by apply nil_length_inv in Hlen as ->.
Qed.

Lemma write_blk_eq L h B i b buf : rep L h B i -> 0 <= b < L -> good_buf buf ->
  exists h', write_blk h b buf = Ok (0, h') /\ rep L h' (upd B b buf) i /\ 1024 * (b + 1) <= qf_len (qh_qf h').
Proof.
  intros R Hb [Hl Hbb]. destruct (rep_room _ _ _ _ R) as [HL Hroom]. unfold write_blk. rewrite shift_blk by lia.
  destruct (qf_write_ok (qh_qf h) (1024 * b) buf) as (f' & -> & Hr & Hn & Hok & Hby); [apply R|done|lia|lia|lia|]. rewrite res_bind_ret.
  rewrite Hl in *. eexists. split; [reflexivity|]. destruct R as [Hi Hs _ Hle [Hk Hk'] HB]. split; [|cbn; lia].
  constructor; [done|done|cbn; lia|cbn; destruct Hle; [by left|right; lia]|cbn; split; [exact Hok|lia]|].
  intros x Hx. apply list_eq. intros j. cbn [with_qf qh_qf]. destruct (decide (j < 1024)%nat) as [Hj|Hj].
  - rewrite blk_of_lookup, Hby by done. unfold upd. destruct (Z.eqb_spec x b) as [->|Hne].
    + rewrite (proj2 (Z.leb_le _ _)), (proj2 (Z.ltb_lt _ _)) by lia. cbn [andb].
      replace (Z.to_nat (1024 * b + Z.of_nat j - 1024 * b)) with j by lia.
      destruct (lookup_lt_is_Some_2 buf j) as [y Hy]; [lia|]. by rewrite Hy.
    + rewrite <- HB, blk_of_lookup by done.
      destruct (Z.leb_spec (1024 * b) (1024 * x + Z.of_nat j)), (Z.ltb_spec (1024 * x + Z.of_nat j) (1024 * b + Z.of_nat 1024)); cbn [andb]; try done. lia.
  - rewrite (lookup_ge_None_2 (blk_of _ _)) by (destruct (blk_of_good f' x); lia). symmetry. apply lookup_ge_None_2.
    unfold upd. destruct (x =? b); [lia|]. rewrite <- HB by done. destruct (blk_of_good (qh_qf h) x). lia.
Qed.

(** ** Taking a free block *)

Definition take_free (g : ghost) : ghost := {| gn := gn g; gd := gd g; ge := ge g; gf := tail (gf g) |}.

(** What an operation that may extend the file says about its number of blocks. *)
Definition grows (k : Z) i i' : Prop := dqi_blocks i <= dqi_blocks i' <= dqi_blocks i + k.

Lemma qinv_blocks B i g X pend : qinv B i g X pend -> 2 <= dqi_blocks i.
Proof.
  intros Q. destruct (pl_nodes _ _ (qi_place _ _ _ _ _ Q) [] QT_TREEOFF) as [Hb _].
  - apply (to_root _ _ _ (qi_tree _ _ _ _ _ Q)).
  - cbn. lia.
  - unfold QT_TREEOFF in Hb. lia.
Qed.

Lemma place_take blocks blocks' g : blocks <= blocks' -> place blocks g -> place blocks' (take_free g).
Proof.
  intros Hle []. assert (Ht : forall b, b ∈ tail (gf g) -> b ∈ gf g) by (intros b Hb; destruct (gf g); [done|by right]).
  constructor; cbn.
  - intros p b Hp Hl. destruct (pl_nodes0 p b Hp Hl) as (H1 & H2 & H3). split; [lia|]. split; [done|auto].
  - intros b Hb. destruct (pl_datas0 b Hb) as (H1 & H2). split; [lia|auto].
  - intros b Hb. apply Ht, pl_frees0 in Hb. lia.
Qed.

Lemma get_free_spec L h B i g X pend : rep L h B i -> qinv B i g X pend -> dqi_blocks i + 1 <= L ->
  exists blk h' B' i', get_free_dqblk h = Ok (blk, h') /\ rep L h' B' i' /\ qinv B' i' (take_free g) X pend /\
    fresh (take_free g) blk /\ 1 <= blk < dqi_blocks i' /\ grows 1 i i' /\ (forall p, gn g !! p = Some blk -> (3 < length p)%nat) /\
    (forall b, b <> blk -> B' b = B b).
Proof.
  intros R Q HL. pose proof (qinv_blocks _ _ _ _ _ Q) as H2. destruct (rep_room _ _ _ _ R) as [HL' _].
  destruct Q as [T D P Fr Pl W]. unfold get_free_dqblk. rewrite (rep_info _ _ _ _ R).
  destruct (gf g) as [|blk f] eqn:Hf.
  - rewrite (fo_head _ _ _ Fr). cbn [hd Z.eqb negb].
    destruct (write_blk_eq L h B i (dqi_blocks i) empty_buf R) as (h' & -> & R' & Hlen); [lia|apply good_empty|].
    rewrite res_bind_ret. cbn [Z.ltb Z.compare]. rewrite u32_id by (unfold is_u32; lia). rewrite s32_blk by lia.
    assert (Hg : fresh g (dqi_blocks i)).
    { split_and!.
      - intros p Hp. destruct (decide (length p <= 3)%nat) as [Hl|]; [|lia]. destruct (pl_nodes _ _ Pl p _ Hp Hl). lia.
      - destruct (gd g !! dqi_blocks i) eqn:Hd; [|done]. destruct (pl_datas _ _ Pl (dqi_blocks i)); [by eexists|lia].
      - rewrite Hf. apply not_elem_of_nil. }
    do 4 eexists. split; [reflexivity|]. split; [eapply rep_grow; [exact R'|exact (rep_size _ _ _ _ R)|cbn; lia]|].
    split.
    { destruct (fresh_upd B i g X pend (dqi_blocks i) empty_buf Hg) as [T' D' P' Fr' _ _]; [by constructor; rewrite ?Hf|].
      constructor; cbn; try done; [|apply place_take with (dqi_blocks i); [lia|done]].
      rewrite Hf in *. done. }
    split; [|split; [|split; [|split]]].
    + destruct Hg as (? & ? & ?). split_and!; cbn; try done. rewrite Hf. apply not_elem_of_nil.
    + cbn. lia.
    + unfold grows. cbn. lia.
    + apply Hg.
    + intros b Hb. by apply upd_ne.
  - assert (Hblk : 1 <= blk < dqi_blocks i) by (apply (pl_frees _ _ Pl); rewrite Hf; left).
    rewrite (fo_head _ _ _ Fr). cbn [hd]. rewrite (proj2 (Z.eqb_neq _ _)) by lia. cbn [negb].
    assert (blk <> QT_TREEOFF).
    { intros ->. destruct (pl_nodes _ _ Pl [] QT_TREEOFF) as (_ & _ & Hx); [apply T|cbn; lia|]. apply Hx. rewrite Hf. left. }
    rewrite (read_blk_eq L h B i blk R) by (unfold QT_TREEOFF in *; lia). rewrite res_bind_ret.
    destruct (rep_good L h B i blk R) as [Hlen Hby]; [lia|].
    rewrite getv_Ok, res_bind_ret by (unfold ofs_dqdh_next_free; lia).
    rewrite s32_blk by lia.
    destruct (fo_sll _ _ _ Fr) as [Hnx Hs]. destruct (proj1 (NoDup_cons _ _) (fo_nodup _ _ _ Fr)) as [Hnin Hnd].
    do 4 eexists. split; [reflexivity|]. split; [eapply rep_with_info; [exact R|exact (rep_size _ _ _ _ R)|done]|].
    split; [|split; [|split; [|split; [|split]]]].
    + constructor; cbn; try done; [|apply place_take with (dqi_blocks i); [lia|done]].
      rewrite Hf. by constructor.
    + split_and!; cbn; [| |by rewrite Hf].
      * intros p Hp. destruct (decide (length p <= 3)%nat) as [Hl|]; [|lia]. destruct (pl_nodes _ _ Pl p _ Hp Hl) as (_ & _ & Hx).
        destruct Hx. rewrite Hf. left.
      * destruct (gd g !! blk) eqn:Hd; [|done]. destruct (pl_datas _ _ Pl blk) as [_ Hx]; [by eexists|]. destruct Hx. rewrite Hf. left.
    + cbn. lia.
    + unfold grows. cbn. lia.
    + intros p Hp. destruct (decide (length p <= 3)%nat) as [Hl|]; [|lia]. destruct (pl_nodes _ _ Pl p _ Hp Hl) as (_ & _ & Hx).
      destruct Hx. rewrite Hf. left.
    + done.
Qed.

(** ** The list of data blocks with room *)

Lemma relink_eq L h B i b ofs v : rep L h B i -> 2 < dqi_blocks i <= L -> 0 <= b < dqi_blocks i -> 0 <= ofs <= 1020 ->
  exists h', relink h b ofs v = Ok h' /\ rep L h' (upd B b (splice (B b) ofs (le_bytes 4 v))) i.
Proof.
  intros R H2 Hb Ho. destruct (rep_room _ _ _ _ R) as [HL _]. unfold relink. rewrite (read_blk_eq L h B i b R), res_bind_ret by lia.
  destruct (rep_good L h B i b R) as [Hl Hy]; [lia|]. rewrite set_le_Ok, res_bind_ret by lia.
  destruct (write_blk_eq L h B i b (splice (B b) ofs (le_bytes 4 v)) R) as (h' & -> & R' & _); [lia| |].
  { apply good_splice; [done|lia|rewrite length_le_bytes; lia|apply bytes_le_bytes]. }
  rewrite res_bind_ret. by exists h'.
Qed.

(** A block or none, [0]. *)
Definition upd_opt B (o : option Z) (f : list Z -> list Z) : Z -> list Z :=
  match o with Some b => upd B b (f (B b)) | None => B end.

Lemma upd_opt_ne B o f x : o <> Some x -> upd_opt B o f x = B x.
Proof. intros Ho. destruct o as [b|]; [|done]. apply upd_ne. congruence. Qed.
Lemma upd_opt_eq B o f x : o = Some x -> upd_opt B o f x = f (B x).
Proof. intros ->. apply upd_eq. Qed.

Lemma hd_head (l : list Z) : hd 0 l = default 0 (head l).
Proof. by destruct l. Qed.

(** The neighbours of a block that leaves the list. *)
Lemma unlink_spec L h B i nx pv : rep L h B i -> 2 < dqi_blocks i <= L ->
  (forall b, nx = Some b -> 1 <= b < dqi_blocks i) -> (forall b, pv = Some b -> 1 <= b < dqi_blocks i) ->
  exists h', (let n := default 0 nx in let p := default 0 pv in
    h ← (if negb (n =? 0) then relink h n ofs_dqdh_prev_free p else Ok h);
    if negb (p =? 0) then relink h p ofs_dqdh_next_free n
    else Ok (with_info h (set_free_entry (qh_info h) n))) = Ok h' /\
    rep L h' (upd_opt (upd_opt B nx (fun buf => set_prev buf (default 0 pv))) pv (fun buf => set_next buf (default 0 nx)))
      (match pv with Some _ => i | None => set_free_entry i (default 0 nx) end).
Proof.
  intros R H2 Hn Hp. cbv zeta.
  assert (exists h1, (if negb (default 0 nx =? 0) then relink h (default 0 nx) ofs_dqdh_prev_free (default 0 pv) else Ok h) = Ok h1 /\
    rep L h1 (upd_opt B nx (fun buf => set_prev buf (default 0 pv))) i) as (h1 & -> & R1).
  { destruct nx as [n|]; [|by exists h]. specialize (Hn n eq_refl). cbn [default upd_opt]. unfold id.
    rewrite (proj2 (Z.eqb_neq _ _)) by lia. apply relink_eq; [done|done|lia|hdr; lia]. }
  rewrite res_bind_ret. destruct pv as [p|].
  - specialize (Hp p eq_refl). cbn [default]. unfold id. rewrite (proj2 (Z.eqb_neq _ _)) by lia. cbn [negb].
    apply (relink_eq L h1 _ i p); [done|done|lia|hdr; lia].
  - cbn [default]. cbn [Z.eqb negb]. eexists. split; [reflexivity|]. rewrite (rep_info _ _ _ _ R1).
    eapply rep_with_info; [exact R1|exact (rep_size _ _ _ _ R)|done].
Qed.

Lemma remove_free_spec L h B i b l1 l2 buf : rep L h B i -> dqi_free_entry i = hd 0 (l1 ++ b :: l2) ->
  dll B 0 (l1 ++ b :: l2) -> NoDup (l1 ++ b :: l2) -> 2 < dqi_blocks i <= L -> Forall (fun x => 1 <= x < dqi_blocks i) (l1 ++ b :: l2) ->
  good_buf buf -> nextf buf = nextf (B b) -> prevf buf = prevf (B b) ->
  exists h' B', let buf' := set_next (set_prev buf 0) 0 in let i' := set_free_entry i (hd 0 (l1 ++ l2)) in
    remove_free_dqentry h buf b = Ok (buf', h') /\ rep L h' B' i' /\ B' b = buf' /\ dll B' 0 (l1 ++ l2) /\
    (forall x, x ∈ l1 ++ l2 -> same_data (B x) (B' x)) /\ (forall x, x ∉ l1 ++ b :: l2 -> B' x = B x).
Proof.
  intros R Hi Hd Hnd H2 Hr Hg Hn Hp. destruct (dll_mid B b l2 l1 0 Hd) as [Hpb Hnb]. cbv zeta.
  rewrite Hpb in Hp. rewrite Hnb, hd_head in Hn. unfold lastd in Hp. destruct (rep_room _ _ _ _ R) as [HL _].
  assert (Hin : forall x, x ∈ l1 ++ l2 -> 1 <= x < dqi_blocks i /\ x <> b).
  { apply Forall_app in Hr as [Hr1 Hr2]. apply Forall_cons in Hr2 as [_ Hr2]. apply NoDup_app in Hnd as (_ & Hd12 & [Hb2 _]%NoDup_cons).
    intros x [Hx|Hx]%elem_of_app.
    - split; [by eapply Forall_forall in Hr1|]. intros ->. apply (Hd12 b Hx). left.
    - split; [by eapply Forall_forall in Hr2|]. by intros ->. }
  assert (Hb : 1 <= b < dqi_blocks i) by (rewrite Forall_forall in Hr; apply Hr, elem_of_app; right; left).
  destruct (unlink_spec L h B i (head l2) (last l1) R H2) as (h1 & Hu & R1).
  { intros x Hx%head_Some_elem_of. apply Hin, elem_of_app. by right. }
  { intros x Hx%last_Some_elem_of. apply Hin, elem_of_app. by left. }
  set (B1 := upd_opt (upd_opt B (head l2) _) (last l1) _) in *.
  destruct (write_blk_eq L h1 B1 _ b (set_next (set_prev buf 0) 0) R1) as (h2 & Hw & R2 & _); [lia|auto with quota|].
  assert (HB1 : forall x, B1 x = if decide (last l1 = Some x) then set_next (B x) (default 0 (head l2))
                                 else if decide (head l2 = Some x) then set_prev (B x) (default 0 (last l1)) else B x).
  { intros x. subst B1. destruct (decide (last l1 = Some x)) as [Hl|Hl]; [|rewrite upd_opt_ne by done; case_decide].
    - rewrite upd_opt_eq, upd_opt_ne; [done| |done]. intros Hx%head_Some_elem_of. apply last_Some_elem_of in Hl.
      apply NoDup_app in Hnd as (_ & Hd12 & _). apply (Hd12 x Hl). by right.
    - by apply upd_opt_eq with (o := head l2).
    - by apply upd_opt_ne. }
  assert (Hu1 : is_u32 (default 0 (head l2)) /\ is_u32 (default 0 (last l1))).
  { rewrite Forall_forall in Hr. split; [destruct l2 as [|y l2]|destruct (last l1) as [y|] eqn:Hl]; cbn; try u_range.
    - assert (1 <= y < dqi_blocks i) by (apply Hin, elem_of_app; right; left). unfold is_u32. lia.
    - apply last_Some_elem_of in Hl. assert (1 <= y < dqi_blocks i) by (apply Hin, elem_of_app; by left). unfold is_u32, id. lia. }
  destruct Hu1 as [Hun Hup].
  exists h2, (upd B1 b (set_next (set_prev buf 0) 0)). split_and!.
  - unfold remove_free_dqentry. rewrite nextf_Ok, res_bind_ret, prevf_Ok, res_bind_ret, Hn, Hp by done.
    cbv zeta in Hu. apply res_bind_Ok in Hu as (h0 & -> & Hu). rewrite res_bind_ret, Hu, res_bind_ret.
    rewrite set_prev_Ok, res_bind_ret, set_next_Ok, res_bind_ret, Hw by auto with quota. done.
  - replace (set_free_entry i _) with (match last l1 with Some _ => i | None => set_free_entry i (default 0 (head l2)) end); [done|].
    destruct l1 as [|a l1]; [by rewrite hd_head|]. cbn [app hd] in *. rewrite last_cons. rewrite <- Hi. by destruct (last l1), i.
  - apply upd_eq.
  - apply (dll_unlink B _ b); [done|done| |]; intros x Hx; destruct (Hin x Hx) as [Hxr Hxb]; rewrite upd_ne, HB1 by done.
    all: assert (good_buf (B x)) by (apply (rep_good L h B i x R); lia).
    + case_decide as Hla; [|by case_decide; autorewrite with quota].
      rewrite prevf_set_next by done. rewrite decide_False; [done|]. intros Hhe%head_Some_elem_of. apply last_Some_elem_of in Hla.
      apply NoDup_app in Hnd as (_ & Hd12 & _). apply (Hd12 x Hla). by right.
    + case_decide; [rewrite hd_head; by autorewrite with quota|]. by case_decide; autorewrite with quota.
  - intros x Hx. destruct (Hin x Hx) as [Hxr Hxb]. rewrite upd_ne, HB1 by done.
    assert (good_buf (B x)) by (apply (rep_good L h B i x R); lia).
    repeat case_decide; (split; [|intros j]); by autorewrite with quota.
  - intros x Hx. rewrite upd_ne, HB1 by (intros ->; apply Hx, elem_of_app; right; left). rewrite !decide_False; [done| |].
    + intros Hh%head_Some_elem_of. apply Hx, elem_of_app. right. by right.
    + intros Hh%last_Some_elem_of. apply Hx, elem_of_app. by left.
Qed.
End Tree.
