(* ===== verification/QuotaMap.v ===== *)
(** The operations of the quota tree (fsck/quotaio_tree.c) on the invariant of
    [QuotaTree], and the refinement: the file is a finite map from ids to entries. *)
From Stdlib Require Import ZArith Lia List Bool.
From stdpp Require Import base numbers list gmap.
From S2P Require Import Prelude Codec Bits Quota QuotaTree.

(** The strict prefixes of the path of [id] that are shorter than [d]. *)
Definition above (id : Z) (d : nat) (p : list Z) : Prop := exists k, (k < d)%nat /\ p = take k (path id).

Lemma above_S id d p : above id d p -> above id (S d) p.
Proof. intros (k & Hk & ->). exists k. split; [lia|done]. Qed.

(** What an insertion that started at depth [d] has done; [b] is the block its caller
    gets and [off] the offset of the entry. *)
Record inserted (id : Z) (d : nat) (B B' : Z -> list Z) (g g' : ghost) (b off : Z) : Prop := {
  in_gn : forall q, (forall k, (d <= k <= 4)%nat -> q <> take k (path id)) -> gn g' !! q = gn g !! q;
  in_keep : forall q c, gn g !! q = Some c -> gn g' !! q = Some c;
  in_child : gn g' !! take d (path id) = Some b;
  in_holds : forall id' c j e, id' <> id -> holds (gd g') id' c j e <-> holds (gd g) id' c j e;
  in_new : exists c j, holds (gd g') id c j zeros72 /\ off = 1024 * c + 16 + 72 * Z.of_nat j;
  in_blocks : forall p c, gn g !! p = Some c -> (length p <= 3)%nat -> above id d p -> B' c = B c;
  in_head : B' 0 = B 0;
}.

(** ** A slot for a new entry *)

(** The tree and the lists when the slot [j] of the data block [b] is given to [id]. *)
Definition reserve (g : ghost) (id b : Z) (s : slots) (j : nat) (l : list Z) : ghost := {|
  gn := <[path id := b]> (gn g); gd := set_slot (gd g) b s j (Some (id, zeros72)); ge := l; gf := gf g |}.

Lemma not_held g id b j e : where_ok g -> is_u32 id -> gn g !! path id = None -> ~ holds (gd g) id b j e.
Proof. intros W Hi Hn Hh. assert (gn g !! path id = Some b) by (apply W; eauto). congruence. Qed.

Lemma good_entry_pend id id' e : id' <> id -> good_entry None id' e -> good_entry (Some id) id' e.
Proof.
  intros Hne (Hl & Hb & He). split; [done|]. split; [done|]. rewrite decide_False in He by done.
  by rewrite decide_False by congruence.
Qed.
Lemma good_zeros id : good_entry (Some id) id zeros72.
Proof. split; [done|]. split; [apply Forall_replicate; unfold is_u8; lia|]. by rewrite decide_True. Qed.

Lemma reserve_where g id b s j l : where_ok g -> is_u32 id -> gn g !! path id = None -> gd g !! b = Some s ->
  s !! j = Some None -> where_ok (reserve g id b s j l).
Proof.
  intros W Hi Hn Hb Hj id' c Hi'. cbn [reserve gn gd]. pose proof (lookup_lt_Some _ _ _ Hj) as Hlt.
  destruct (decide (id' = id)) as [->|Hne].
  - rewrite lookup_insert_eq. split.
    + intros [= <-]. exists j, zeros72. apply holds_set; [done..|]. by rewrite decide_True.
    + intros (k & e & Hh). apply holds_set in Hh; [|done..]. case_decide as Hd; [by destruct Hd as [-> _]|].
      by destruct (not_held g id c k e W Hi Hn).
  - rewrite lookup_insert_ne by (intros He; by apply Hne, path_inj). rewrite (W id' c Hi'). split; intros (k & e & Hh); exists k, e.
    + apply holds_set; [done..|]. rewrite decide_False; [done|]. intros [-> ->]. destruct Hh as (t & Ht & Hk). congruence.
    + apply holds_set in Hh; [|done..]. case_decide; [congruence|done].
Qed.

Lemma reserve_place blocks g id b s j l : gd g !! b = Some s -> place blocks g -> place blocks (reserve g id b s j l).
Proof.
  intros Hb [P1 P2 P3]. constructor; cbn [reserve gn gd gf].
  - intros p c Hp Hl. rewrite lookup_insert_ne in Hp by (intros <-; cbn in Hl; lia). destruct (P1 p c Hp Hl) as (H1 & H2 & H3).
    split; [done|]. split; [|done]. apply eq_None_not_Some. rewrite set_slot_some by done. by rewrite H2, <- eq_None_not_Some.
  - intros c Hc. apply set_slot_some in Hc; [|done]. by apply P2.
  - done.
Qed.

(** The invariant when the block with the slot is written. *)
Lemma reserve_inv B i g X id b s j l buf i' : is_u32 id -> gn g !! path id = None -> X (take 3 (path id)) ->
  is_Some (gn g !! take 3 (path id)) -> gd g !! b = Some s -> s !! j = Some None -> dqi_blocks i <= 2 ^ 21 ->
  tree_ok B (gn g) X -> data_inv B (gd g) None -> free_ok B (dqi_free_blk i) (gf g) -> place (dqi_blocks i) g -> where_ok g ->
  entf buf = Z.of_nat (cnt s) + 1 -> (forall k, slot buf k = slot (B b) k) ->
  part_ok (upd B b buf) (dqi_free_entry i') (set_slot (gd g) b s j (Some (id, zeros72))) l ->
  dqi_blocks i' = dqi_blocks i -> dqi_free_blk i' = dqi_free_blk i ->
  qinv (upd B b buf) i' (reserve g id b s j l) X (Some id).
Proof.
  intros Hi Hn HX H3 Hb Hj HL T D Fr Pl W He Hs Po Hb' Hf'. pose proof (lookup_lt_Some _ _ _ Hj) as Hlt.
  pose proof (di_data _ _ _ D b s Hb) as Dok. rewrite (do_len _ _ Dok) in Hlt.
  destruct (pl_datas _ _ Pl b) as [Hbr Hbf]; [by eexists|].
  constructor; cbn [reserve gn gd ge gf].
  - eapply tree_ok_ext.
    { intros p c Hp Hl _. apply upd_ne. intros ->. rewrite lookup_insert_ne in Hp by (intros <-; cbn in Hl; lia).
      destruct (pl_nodes _ _ Pl p b Hp Hl) as (_ & Hx & _). congruence. }
    apply (tree_add B (gn g) X X (take 3 (path id)) (get_index id 3) b T); try done; [apply get_index_range|lia|cbn; lia].
  - eapply data_set; [exact D|done|done| | |].
    + apply data_ok_set with (B b); [done|done| | |intros k _; apply Hs].
      * pose proof (cnt_insert s j None (Some (id, zeros72)) Hj) as Hc. cbn [weight] in Hc. rewrite He. lia.
      * rewrite Hs. exact (do_slot _ _ Dok j None Hj).
    + intros id' e [= <- <-]. split; [done|]. split; [apply good_zeros|]. intros c k e Hh. by destruct (not_held g id c k e W Hi Hn).
    + intros id' c k e Hh _. apply good_entry_pend. intros ->. by destruct (not_held g id c k e W Hi Hn).
  - done.
  - rewrite Hf'. eapply free_ok_ext; [|exact Fr]. intros c Hc. apply upd_ne. by intros ->.
  - rewrite Hb'. by apply reserve_place.
  - by apply reserve_where.
Qed.

Lemma set_slot_room d b s j o c :
  (exists t, set_slot d b s j o !! c = Some t /\ (cnt t < 14)%nat) <->
  if decide (c = b) then (cnt (<[j := o]> s) < 14)%nat else exists t, d !! c = Some t /\ (cnt t < 14)%nat.
Proof.
  unfold set_slot. case_decide as Hc; [subst c; rewrite lookup_insert_eq|by rewrite lookup_insert_ne].
  split; [by intros (t & [= <-] & Ht)|by eauto].
Qed.

Lemma inserted_reserve id B B' g b s j l off : gn g !! path id = None -> gd g !! b = Some s -> s !! j = Some None ->
  off = 1024 * b + 16 + 72 * Z.of_nat j -> (forall p c, gn g !! p = Some c -> (length p <= 3)%nat -> B' c = B c) -> B' 0 = B 0 ->
  inserted id 4 B B' g (reserve g id b s j l) b off.
Proof.
  intros Hn Hb Hj -> HB H0. pose proof (lookup_lt_Some _ _ _ Hj) as Hlt. constructor; cbn [reserve gn gd].
  - intros q Hq. apply lookup_insert_ne. intros <-. by apply (Hq 4%nat).
  - intros q c Hq. rewrite lookup_insert_ne; [done|congruence].
  - apply lookup_insert_eq.
  - intros id' c k e Hne. rewrite holds_set by done. case_decide as Hd; [|done]. destruct Hd as [-> ->].
    split; [congruence|]. intros (t & Ht & Hk). congruence.
  - exists b, j. split; [|done]. apply holds_set; [done..|]. by rewrite decide_True.
  - eauto.
  - done.
Qed.

Lemma qinv_ext B B' i g X pend : (forall b, B' b = B b) -> qinv B i g X pend -> qinv B' i g X pend.
Proof.
  intros He [T D P Fr Pl W]. constructor; [eapply tree_ok_ext|eapply data_inv_ext|eapply part_ok_ext'|eapply free_ok_ext|exact Pl|exact W]; eauto.
Qed.

Lemma dqstr_14 info : dqi_entry_size info = 72 -> qtree_dqstr_in_blk info = Ok 14.
Proof. intros Hs. unfold qtree_dqstr_in_blk. by rewrite Hs. Qed.

Lemma data_inv_nonzero B d b s j o : data_inv B d None -> d !! b = Some s -> s !! j = Some (Some o) -> slot_val (Some o) <> zeros72.
Proof.
  intros D Hb Hj. destruct o as [id e]. destruct (di_entry _ _ _ D id b j e) as (_ & _ & _ & Hz); [by exists s|].
  rewrite decide_False in Hz by done. by destruct Hz.
Qed.

(** A free block that becomes a data block. *)
Definition new_data (g : ghost) (b : Z) : ghost := {|
  gn := gn g; gd := <[b := replicate 14 None]> (gd g); ge := b :: ge g; gf := gf g |}.

Lemma new_data_place blocks g b : fresh g b -> 1 <= b < blocks -> place blocks g -> place blocks (new_data g b).
Proof.
  intros (Hn & Hd & Hf) Hb [P1 P2 P3]. constructor; cbn [new_data gn gd gf]; [| |done].
  - intros p c Hp Hl. destruct (P1 p c Hp Hl) as (H1 & H2 & H3). split; [done|]. split; [|done].
    rewrite lookup_insert_ne; [done|]. intros ->. apply Hn in Hp. lia.
  - intros c Hc. destruct (decide (c = b)) as [->|]; [done|]. rewrite lookup_insert_ne in Hc by done. by apply P2.
Qed.

Lemma new_data_where g b : gd g !! b = None -> where_ok g -> where_ok (new_data g b).
Proof.
  intros Hd W id c Hi. cbn [new_data gn gd]. rewrite (W id c Hi). by setoid_rewrite holds_new.
Qed.

Lemma new_block_inv B i g X b : fresh g b -> tree_ok B (gn g) X -> data_inv B (gd g) None -> free_ok B (dqi_free_blk i) (gf g) ->
  place (dqi_blocks i) g -> where_ok g -> 1 <= b < dqi_blocks i ->
  let B' := upd B b empty_buf in let g' := new_data g b in
  tree_ok B' (gn g') X /\ data_inv B' (gd g') None /\ free_ok B' (dqi_free_blk i) (gf g') /\ place (dqi_blocks i) g' /\ where_ok g'.
Proof.
  intros Hfr T D Fr Pl W Hb. pose proof Hfr as (Hn & Hd & Hf). cbv zeta. split_and!.
  - eapply tree_ok_ext; [|exact T]. intros p c Hp Hl _. apply upd_ne. intros ->. apply Hn in Hp. lia.
  - by apply data_new.
  - eapply free_ok_ext; [|exact Fr]. intros c Hc. apply upd_ne. by intros ->.
  - by apply new_data_place.
  - by apply new_data_where.
Qed.

Lemma inserted_pre id d B B' g g0 g' b off : gn g0 = gn g ->
  (forall id' c j e, holds (gd g) id' c j e <-> holds (gd g0) id' c j e) ->
  inserted id d B B' g g' b off -> inserted id d B B' g0 g' b off.
Proof. intros Hn Hh []. constructor; rewrite ?Hn; try done. intros id' c j e Hne. by rewrite <- Hh, in_holds0. Qed.

Lemma data_inv_same B B' d pend : (forall b, is_Some (d !! b) -> same_data (B b) (B' b)) -> data_inv B d pend -> data_inv B' d pend.
Proof. intros He [D E O]. constructor; [|exact E|exact O]. intros b s Hs. apply (data_ok_same (B b)); [by apply He; exists s|by apply D]. Qed.

(** The blocks of the list with room are data blocks of the file. *)
Lemma part_in B i g X pend b : qinv B i g X pend -> b ∈ ge g ->
  exists s, gd g !! b = Some s /\ (cnt s < 14)%nat /\ data_ok (B b) s /\ 1 <= b < dqi_blocks i /\ b ∉ gf g.
Proof.
  intros [T D P Fr Pl W] Hb. apply (po_iff _ _ _ _ P) in Hb as (s & Hs & Hc). exists s. split; [done|]. split; [done|].
  split; [by apply (di_data _ _ _ D)|]. apply (pl_datas _ _ Pl). by eexists.
Qed.

(** A data block is not the root, so there are more than two blocks. *)
Lemma data_blocks B i g X pend b : qinv B i g X pend -> is_Some (gd g !! b) -> 1 < b < dqi_blocks i.
Proof.
  intros Q Hb. destruct (pl_datas _ _ (qi_place _ _ _ _ _ Q) b Hb) as [Hr _]. destruct (decide (b = QT_TREEOFF)) as [->|Hne]; [|unfold QT_TREEOFF in *; lia].
  destruct (pl_nodes _ _ (qi_place _ _ _ _ _ Q) [] QT_TREEOFF) as (_ & Hx & _); [apply Q|cbn; lia|]. destruct Hb. congruence.
Qed.
Lemma node_blocks B i g X pend p b : qinv B i g X pend -> gn g !! p = Some b -> (0 < length p <= 3)%nat -> 1 < b < dqi_blocks i.
Proof.
  intros Q Hb Hl. destruct (pl_nodes _ _ (qi_place _ _ _ _ _ Q) p b Hb) as (Hr & _); [lia|].
  destruct (decide (b = QT_TREEOFF)) as [->|Hne]; [|unfold QT_TREEOFF in *; lia].
  pose proof (to_inj _ _ _ (qi_tree _ _ _ _ _ Q) p [] _ Hb (to_root _ _ _ (qi_tree _ _ _ _ _ Q))) as Hx. rewrite Hx in Hl; cbn in *; lia.
Qed.

Lemma node_not_part B i g X pend p b : qinv B i g X pend -> gn g !! p = Some b -> (length p <= 3)%nat -> b ∉ ge g.
Proof.
  intros Q Hp Hl Hb. destruct (part_in _ _ _ _ _ _ Q Hb) as (s & Hs & _).
  destruct (pl_nodes _ _ (qi_place _ _ _ _ _ Q) p b Hp Hl) as (_ & Hx & _). congruence.
Qed.

Lemma part_single B B' head d b s j o : part_ok B head d [] -> prevf (B' b) = 0 -> nextf (B' b) = 0 -> (cnt (<[j := o]> s) < 14)%nat ->
  part_ok B' b (set_slot (<[b := s]> d) b s j o) [b].
Proof.
  intros [_ _ _ Piff] Hp Hx Hc. constructor; [done|done|apply NoDup_singleton|]. intros c. rewrite set_slot_room, list_elem_of_singleton.
  case_decide; [done|]. rewrite lookup_insert_ne, <- Piff by done. split; [done|]. by intros Hz%not_elem_of_nil.
Qed.

(** ** References of a tree block *)

Lemma ref_Ok buf j : good_buf buf -> 0 <= j < 256 -> get_le32 buf (4 * j) = Ok (ref buf j).
Proof. intros [Hl _] Hj. apply getv_Ok; lia. Qed.
Lemma set_ref_Ok buf j v : good_buf buf -> 0 <= j < 256 -> set_le32 buf (4 * j) v = Ok (splice buf (4 * j) (le_bytes 4 v)).
Proof. intros [Hl _] Hj. apply set_le_Ok; lia. Qed.
Lemma ref_set buf j v : good_buf buf -> 0 <= j < 256 -> is_u32 v -> ref (splice buf (4 * j) (le_bytes 4 v)) j = v.
Proof. intros [Hl _] Hj Hv. apply getv_set; [lia|lia|apply Hv]. Qed.
Lemma ref_set_ne buf j j' v : good_buf buf -> 0 <= j < 256 -> 0 <= j' < 256 -> j' <> j ->
  ref (splice buf (4 * j) (le_bytes 4 v)) j' = ref buf j'.
Proof. intros [Hl _] Hj Hj' Hne. apply getv_set_ne; rewrite ?length_le_bytes; lia. Qed.
Lemma good_ref buf j v : good_buf buf -> 0 <= j < 256 -> good_buf (splice buf (4 * j) (le_bytes 4 v)).
Proof. intros Hg Hj. apply good_splice; [done|lia|rewrite length_le_bytes; lia|apply bytes_le_bytes]. Qed.
Lemma ref_empty j : 0 <= j < 256 -> ref empty_buf j = 0.
Proof. intros Hj. apply getv_zeros; change (Z.to_nat QT_BLKSIZE) with 1024%nat; lia. Qed.

(** The references of the block on the path are up to date again. *)
Lemma tree_close B B' n id d b : tree_ok B n (above id (S d)) -> (d <= 3)%nat -> n !! take d (path id) = Some b ->
  (forall j, 0 <= j < 256 -> ref (B' b) j = default 0 (n !! (take d (path id) ++ [j]))) -> (forall c, c <> b -> B' c = B c) ->
  tree_ok B' n (above id d).
Proof.
  intros [T1 T2 T3 T4 T5 T6] Hd Hb Hr HB. constructor; try done. intros p c j Hp Hl HX Hj.
  destruct (decide (p = take d (path id))) as [->|Hne].
  - replace c with b by congruence. by apply Hr.
  - rewrite HB.
    + apply T5; try done. intros (k & Hk & ->). apply HX. exists k. split; [|done].
      destruct (decide (k = d)) as [->|]; [done|lia].
    + intros ->. apply Hne, (T6 _ _ b); try done. rewrite length_path_take; lia.
Qed.

Lemma close_inv B i g id d b buf pend : qinv B i g (above id (S d)) pend -> (d <= 3)%nat -> gn g !! take d (path id) = Some b ->
  (forall j, 0 <= j < 256 -> ref buf j = default 0 (gn g !! (take d (path id) ++ [j]))) -> qinv (upd B b buf) i g (above id d) pend.
Proof.
  intros [T D P Fr Pl W] Hd Hb Hr. destruct (pl_nodes _ _ Pl _ b Hb) as (_ & Hdn & Hfn); [rewrite length_path_take; lia|].
  constructor; try done.
  - apply (tree_close B _ _ _ _ b); [done|done|done|by rewrite upd_eq|]. intros c Hc. by apply upd_ne.
  - eapply data_inv_ext; [|exact D]. intros c [s Hs]. apply upd_ne. intros ->. congruence.
  - eapply part_ok_ext'; [|exact P]. intros c [s Hs]. apply upd_ne. intros ->. congruence.
  - eapply free_ok_ext; [|exact Fr]. intros c Hc. apply upd_ne. by intros ->.
Qed.

(** From the insertion below a block to the one at the block. *)
Lemma inserted_up id d B B1 B2 B3 g g1 g2 b nb off i1 X : (d <= 3)%nat -> inserted id (S d) B1 B2 g1 g2 nb off ->
  qinv B1 i1 g1 X None -> gn g1 !! take d (path id) = Some b -> gd g1 = gd g ->
  (forall q, q <> take d (path id) -> gn g1 !! q = gn g !! q) -> (forall q c, gn g !! q = Some c -> gn g1 !! q = Some c) ->
  (forall p c, gn g !! p = Some c -> (length p <= 3)%nat -> B1 c = B c) -> (forall c, c <> b -> B3 c = B2 c) -> B1 0 = B 0 ->
  inserted id d B B3 g g2 b off.
Proof.
  intros Hd [I1 I2 I3 I4 I5 I6 I7] Q Hb Hgd Hgn Hk HB HB3 H0. constructor.
  - intros q Hq. rewrite I1 by (intros k Hk'; apply Hq; lia). apply Hgn, Hq. lia.
  - eauto.
  - by apply I2.
  - intros id' c j e Hne. by rewrite I4, Hgd.
  - done.
  - intros p c Hp Hl (k & Hkd & ->). pose proof (Hk _ _ Hp) as Hp1. rewrite HB3.
    + rewrite (I6 (take k (path id)) c Hp1 Hl); [by apply (HB (take k (path id)))|]. exists k. split; [lia|done].
    + intros ->. assert (Hx : take k (path id) = take d (path id)).
      { apply (to_inj _ _ _ (qi_tree _ _ _ _ _ Q) _ _ b); try done. rewrite length_path_take; lia. }
      apply path_take_inj in Hx; lia.
  - pose proof (to_pos _ _ _ (qi_tree _ _ _ _ _ Q) _ _ Hb). rewrite HB3 by lia. congruence.
Qed.

(** A free block that becomes a tree block. *)
Definition new_node (g : ghost) (p : list Z) (b : Z) : ghost := {| gn := <[p := b]> (gn g); gd := gd g; ge := ge g; gf := gf g |}.

Lemma new_node_inv B i g id d b : qinv B i g (above id (S d)) None -> (S d <= 3)%nat -> fresh g b -> 1 <= b < dqi_blocks i ->
  dqi_blocks i <= 2 ^ 21 -> is_Some (gn g !! take d (path id)) -> gn g !! take (S d) (path id) = None ->
  qinv B i (new_node g (take (S d) (path id)) b) (above id (S (S d))) None.
Proof.
  intros [T D P Fr Pl W] Hd Hfr Hb HL Hpar Hnone. pose proof Hfr as (Hn & Hdn & Hfn).
  pose proof (length_path_take id (S d)) as Hlen. constructor; cbn [new_node gn gd ge gf]; try done.
  - rewrite path_take_S in * by lia. apply (tree_add B (gn g) (above id (S d))); try done; try lia.
    + apply above_S.
    + exists d. split; [lia|done].
    + rewrite length_path_take; lia.
    + apply get_index_range.
    + intros _. split; [|done]. exists (S d). split; [lia|]. by rewrite path_take_S by lia.
  - destruct Pl as [P1 P2 P3]. constructor; cbn; try done. intros p c [(<- & <-)|(_ & Hp)]%lookup_insert_Some Hl; [done|by apply (P1 p)].
  - intros id' c Hi. cbn [new_node gn gd]. rewrite lookup_insert_ne; [by apply W|]. intros Hx%(f_equal length). revert Hx. rewrite Hlen by lia. cbn. lia.
Qed.

(** Nothing is below a prefix that is not in the tree. *)
Lemma no_child B n X p j : tree_ok B n X -> n !! p = None -> n !! (p ++ [j]) = None.
Proof. intros T Hp. apply eq_None_not_Some. intros [b Hb]. apply (to_closed _ _ _ T) in Hb as [c Hc]. congruence. Qed.

Lemma inserted_sibling id d B B' g g' b off j : (d <= 3)%nat -> inserted id (S d) B B' g g' b off -> j <> get_index id (Z.of_nat d) ->
  gn g' !! (take d (path id) ++ [j]) = gn g !! (take d (path id) ++ [j]).
Proof.
  intros Hd I Hj. apply (in_gn _ _ _ _ _ _ _ _ I). intros k Hk He. pose proof (f_equal length He) as Hl.
  rewrite length_app, !length_path_take in Hl by lia. cbn in Hl. replace k with (S d) in He by lia.
  rewrite path_take_S in He by lia. apply app_inj_tail in He as [_ He]. done.
Qed.

(** ** The entry of an id in its block *)

Lemma slot_field buf j ofs n : good_buf buf -> (j < 14)%nat -> 0 <= ofs -> ofs + Z.of_nat n <= 72 ->
  get_le n buf (16 + 72 * Z.of_nat j + ofs) = get_le n (slot buf j) ofs.
Proof.
  intros [Hl _] Hj Ho Hn. unfold slot. rewrite get_le_take by lia. unfold get_le. rewrite !rd_bytes_Ok by (rewrite ?length_drop; lia).
  rewrite !res_bind_ret, drop_drop. do 4 f_equal. lia.
Qed.

Lemma length_slot buf j : good_buf buf -> (j < 14)%nat -> length (slot buf j) = 72%nat.
Proof. intros [Hl _] Hj. unfold slot. rewrite length_take, length_drop. lia. Qed.

Lemma is_id_slot info buf j id : good_buf buf -> dqi_entry_size info = 72 -> (j < 14)%nat ->
  v2r1_is_id info buf (SIZE_OF_DQDBHEADER + Z.of_nat j * dqi_entry_size info) id =
    Ok (bool_decide (slot buf j <> zeros72 /\ getv 4 (slot buf j) 0 = id)).
Proof.
  intros Hg Hs Hj. unfold v2r1_is_id. rewrite slot_unused, res_bind_ret by done. case_bool_decide as Hz.
  - rewrite bool_decide_false by tauto. done.
  - rewrite Hs. unfold SIZE_OF_DQDBHEADER. replace (16 + Z.of_nat j * 72) with (16 + 72 * Z.of_nat j + 0) by lia.
    rewrite slot_field, getv_Ok, res_bind_ret by (rewrite ?length_slot by done; done || lia). f_equal.
    destruct (Z.eqb_spec (getv 4 (slot buf j) 0) id); [by rewrite bool_decide_true|by rewrite bool_decide_false by tauto].
Qed.

Lemma find_slot_spec info buf id j n : forall k, good_buf buf -> dqi_entry_size info = 72 -> (n + k = 14)%nat -> (k <= j < 14)%nat ->
  (forall j', (j' < 14)%nat -> (slot buf j' <> zeros72 /\ getv 4 (slot buf j') 0 = id) <-> j' = j) ->
  find_slot n info buf id (Z.of_nat k) = Ok (Z.of_nat j).
Proof.
  induction n as [|n IH]; intros k Hg Hs Hk Hj Hu; [lia|]. cbn [find_slot]. rewrite is_id_slot, res_bind_ret by (done || lia).
  case_bool_decide as Hd.
  - apply Hu in Hd as ->; [done|lia].
  - replace (Z.of_nat k + 1) with (Z.of_nat (S k)) by lia. apply IH; try done; [lia|].
    assert (k <> j); [|lia]. intros ->. apply Hd, Hu; [lia|done].
Qed.

(** In a data block, the entry of an id is the only one with that id. *)
Lemma only_slot B d id b j e : data_inv B d None -> holds d id b j e -> forall j', (j' < 14)%nat ->
  (slot (B b) j' <> zeros72 /\ getv 4 (slot (B b) j') 0 = id) <-> j' = j.
Proof.
  intros D Hh j' Hj'. pose proof Hh as (s & Hs & Hj). pose proof (di_data _ _ _ D b s Hs) as Dok. split.
  - intros (Hz & Hid). destruct (lookup_lt_is_Some_2 s j') as [o Ho]; [rewrite (do_len _ _ Dok); done|].
    rewrite (do_slot _ _ Dok j' o Ho) in Hz, Hid. destruct o as [[id' e']|]; [|done]. cbn [slot_val] in *.
    assert (Hh' : holds d id' b j' e') by (by exists s). destruct (di_entry _ _ _ D _ _ _ _ Hh') as (_ & _ & _ & He').
    rewrite decide_False in He' by done. destruct He' as [_ He']. rewrite He' in Hid. subst id'.
    by destruct (di_once _ _ _ D _ _ _ _ _ _ _ Hh Hh').
  - intros ->. rewrite (do_slot _ _ Dok j _ Hj). cbn [slot_val]. destruct (di_entry _ _ _ D _ _ _ _ Hh) as (_ & _ & _ & He').
    by rewrite decide_False in He' by done.
Qed.

Lemma path_prefix B n X id k : tree_ok B n X -> (k <= 4)%nat -> is_Some (n !! path id) -> is_Some (n !! take k (path id)).
Proof.
  intros T Hk Hp. remember (4 - k)%nat as m eqn:Hm. revert k Hk Hm. induction m as [|m IH]; intros k Hk Hm.
  - replace k with 4%nat by lia. done.
  - destruct (IH (S k)) as [b Hb]; [lia|lia|]. rewrite path_take_S in Hb by lia. by apply (to_closed _ _ _ T) in Hb.
Qed.

(** ** Removing *)

(** What a removal that started at depth [d] has done; [b] is what its caller gets. *)
Record removed (id : Z) (d : nat) (B B' : Z -> list Z) (g g' : ghost) (b : Z) : Prop := {
  rm_gn : forall q, (forall k, (d <= k <= 4)%nat -> q <> take k (path id)) -> gn g' !! q = gn g !! q;
  rm_child : gn g' !! take d (path id) = if b =? 0 then None else gn g !! take d (path id);
  rm_holds : forall id' c j e, id' <> id -> holds (gd g') id' c j e <-> holds (gd g) id' c j e;
  rm_gone : gn g' !! path id = None;
  rm_blocks : forall p c, gn g !! p = Some c -> (length p <= 3)%nat -> above id d p -> B' c = B c;
  rm_head : B' 0 = B 0;
}.

Lemma tree_del B n (X X' : list Z -> Prop) q j : tree_ok B n X -> (forall p, X p -> X' p \/ p = q ++ [j]) -> X' q ->
  (forall k, n !! ((q ++ [j]) ++ [k]) = None) -> tree_ok B (delete (q ++ [j]) n) X'.
Proof.
  intros [T1 T2 T3 T4 T5 T6] HX Hq Hnc. constructor.
  - rewrite lookup_delete_ne by (by destruct q). done.
  - intros p c [_ Hp]%lookup_delete_Some. by apply T2 in Hp.
  - intros p c [_ Hp]%lookup_delete_Some. by apply T3 in Hp.
  - intros p k c [_ Hp]%lookup_delete_Some. destruct (decide (q ++ [j] = p)) as [<-|Hne].
    + rewrite Hnc in Hp. done.
    + rewrite lookup_delete_ne by done. by apply T4 in Hp.
  - intros p c k [Hne Hp]%lookup_delete_Some Hl Hx Hk. rewrite lookup_delete_ne; [|intros [<- _]%app_inj_tail; done].
    apply T5; try done. intros Hxp. destruct (HX p Hxp) as [Hy| ->]; done.
  - intros p p' c [_ Hp]%lookup_delete_Some [_ Hp']%lookup_delete_Some. by apply (T6 p p' c).
Qed.

(** The description without the entry [j] of the data block [b]. *)
Definition release (g : ghost) (id b : Z) (s : slots) (j : nat) (l : list Z) : ghost := {|
  gn := delete (path id) (gn g); gd := set_slot (gd g) b s j None; ge := l; gf := gf g |}.

Lemma below_path B n X id k : tree_ok B n X -> n !! (path id ++ [k]) = None.
Proof. intros T. apply eq_None_not_Some. intros [c Hc]. destruct (to_key _ _ _ T _ _ Hc) as [Hl _]. cbn in Hl. lia. Qed.

Lemma release_tree B g id X : tree_ok B (gn g) X -> X (take 3 (path id)) -> tree_ok B (delete (path id) (gn g)) X.
Proof.
  intros T HX. apply (tree_del B (gn g) X X (take 3 (path id)) (get_index id 3)); [done|by left|done|].
  intros k. exact (below_path B (gn g) X id k T).
Qed.

Lemma release_where g d' id b j e : where_ok g -> (forall id b j e b' j' e', holds (gd g) id b j e -> holds (gd g) id b' j' e' -> b = b' /\ j = j') ->
  is_u32 id -> holds (gd g) id b j e ->
  (forall id' c k e', holds d' id' c k e' <-> holds (gd g) id' c k e' /\ ~ (c = b /\ k = j)) ->
  forall id' c, is_u32 id' -> delete (path id) (gn g) !! path id' = Some c <-> exists k e', holds d' id' c k e'.
Proof.
  intros W O Hi Hh Hd id' c Hi'. setoid_rewrite Hd. destruct (decide (id' = id)) as [->|Hne].
  - rewrite lookup_delete_eq. split; [done|]. intros (k & e' & Hk & Hn). destruct Hn.
    by destruct (O _ _ _ _ _ _ _ Hk Hh).
  - rewrite lookup_delete_ne by (intros Hx; by apply Hne, path_inj). rewrite (W id' c Hi'). split; intros (k & e' & Hk).
    + exists k, e'. split; [done|]. intros [-> ->]. destruct Hk as (s & Hs & Hsj), Hh as (s' & Hs' & Hsj'). congruence.
    + exists k, e'. tauto.
Qed.

Lemma removed_leaf id B B' g g' : gn g' = delete (path id) (gn g) ->
  (forall id' c j e, id' <> id -> holds (gd g') id' c j e <-> holds (gd g) id' c j e) ->
  (forall p c, gn g !! p = Some c -> (length p <= 3)%nat -> B' c = B c) -> B' 0 = B 0 -> removed id 4 B B' g g' 0.
Proof.
  intros Hn Hh HB H0. constructor; rewrite ?Hn.
  - intros q Hq. apply lookup_delete_ne. intros <-. by apply (Hq 4%nat).
  - apply lookup_delete_eq.
  - done.
  - apply lookup_delete_eq.
  - eauto.
  - done.
Qed.

Lemma holds_release B d pend id b s j e : data_inv B d pend -> d !! b = Some s -> s !! j = Some (Some (id, e)) ->
  forall id' c k e', holds (set_slot d b s j None) id' c k e' <-> holds d id' c k e' /\ ~ (c = b /\ k = j).
Proof.
  intros D Hb Hj id' c k e'. rewrite holds_set by (done || by apply lookup_lt_Some in Hj). case_decide; [|tauto].
  split; [done|tauto].
Qed.

(** The other entries, when the slot of an id is emptied. *)
Lemma others_release d d' id b j e : (forall id' c k e', holds d' id' c k e' <-> holds d id' c k e' /\ ~ (c = b /\ k = j)) ->
  holds d id b j e -> forall id' c k e', id' <> id -> holds d' id' c k e' <-> holds d id' c k e'.
Proof.
  intros Hd (s & Hs & Hj) id' c k e' Hne. rewrite Hd. split; [tauto|]. intros Hh. split; [done|]. intros [-> ->].
  destruct Hh as (s' & Hs' & Hj'). congruence.
Qed.

Lemma release_inv B B' i i' g X id b s j e l : qinv B i g X None -> is_u32 id -> X (take 3 (path id)) ->
  gd g !! b = Some s -> s !! j = Some (Some (id, e)) ->
  (forall p c, gn g !! p = Some c -> (length p <= 3)%nat -> B' c = B c) -> (forall c, c ∈ gf g -> B' c = B c) ->
  (forall c, is_Some (gd g !! c) -> c <> b -> same_data (B c) (B' c)) ->
  entf (B' b) = Z.of_nat (cnt s) - 1 -> slot (B' b) j = zeros72 -> (forall k, k <> j -> slot (B' b) k = slot (B b) k) ->
  part_ok B' (dqi_free_entry i') (set_slot (gd g) b s j None) l -> dqi_blocks i' = dqi_blocks i -> dqi_free_blk i' = dqi_free_blk i -> B' 0 = B 0 ->
  qinv B' i' (release g id b s j l) X None /\ removed id 4 B B' g (release g id b s j l) 0.
Proof.
  intros [T D P Fr Pl W] Hi HX Hb Hj HBn HBf HBd He Hz Hs Po Hbl Hfb H0. assert (Hh : holds (gd g) id b j e) by (by exists s).
  pose proof (di_data _ _ _ D b s Hb) as Dok. pose proof (lookup_lt_Some _ _ _ Hj) as Hlt. rewrite (do_len _ _ Dok) in Hlt.
  pose proof (holds_release B (gd g) None id b s j e D Hb Hj) as Hrel. pose proof (cnt_pos s j _ Hj) as Hpos.
  split; [|apply removed_leaf; [done|by apply (others_release _ _ _ b j e)|done|done]].
  constructor; cbn [release gn gd ge gf]; try done.
  - eapply tree_ok_ext; [|by apply (release_tree B)]. intros p c [_ Hp]%lookup_delete_Some Hl _. by apply (HBn p).
  - assert (D' : data_inv (upd B b (B' b)) (set_slot (gd g) b s j None) None).
    { eapply data_set; [exact D|done|done| |done|done]. apply data_ok_set with (B b); try done.
      pose proof (cnt_insert s j _ None Hj) as Hc. cbn [weight] in Hc. lia. }
    eapply data_inv_same; [|exact D']. intros c Hc. apply set_slot_some in Hc; [|done].
    destruct (decide (c = b)) as [->|Hne]; [by rewrite upd_eq|rewrite upd_ne by done; by apply HBd].
  - rewrite Hfb. by eapply free_ok_ext.
  - rewrite Hbl. destruct Pl as [P1 P2 P3]. constructor; cbn [release gn gd gf]; try done.
    + intros p c [_ Hp]%lookup_delete_Some Hl. destruct (P1 p c Hp Hl) as (? & Hn & ?). split; [done|]. split; [|done].
      apply eq_None_not_Some. rewrite set_slot_some by done. by rewrite Hn, <- eq_None_not_Some.
    + intros c Hc. apply set_slot_some in Hc; [|done]. by apply P2.
  - intros id' c. apply (release_where g _ id b j e); try done. apply D.
Qed.

Lemma cnt_one s j k x y : cnt s = 1%nat -> s !! j = Some (Some x) -> s !! k = Some (Some y) -> k = j.
Proof.
  intros Hc Hj Hk. destruct (decide (k = j)) as [|Hne]; [done|]. pose proof (cnt_insert s j _ None Hj) as H1. cbn [weight] in H1.
  assert (Hk' : <[j := None]> s !! k = Some (Some y)) by (by rewrite list_lookup_insert_ne). apply cnt_pos in Hk'. lia.
Qed.

(** A data block that becomes free. *)
Definition drop_data (g : ghost) (id b : Z) (l : list Z) : ghost := {|
  gn := delete (path id) (gn g); gd := delete b (gd g); ge := l; gf := b :: gf g |}.

Lemma holds_delete d id b c k e : holds (delete b d) id c k e <-> holds d id c k e /\ c <> b.
Proof.
  unfold holds. destruct (decide (c = b)) as [->|Hne]; [rewrite lookup_delete_eq|rewrite lookup_delete_ne by done].
  - split; [by intros (? & ? & _)|tauto].
  - tauto.
Qed.

Lemma drop_inv B B' i i' g X id b s j e l : qinv B i g X None -> is_u32 id -> X (take 3 (path id)) ->
  gd g !! b = Some s -> s !! j = Some (Some (id, e)) -> cnt s = 1%nat ->
  (forall p c, gn g !! p = Some c -> (length p <= 3)%nat -> B' c = B c) ->
  (forall c, is_Some (gd g !! c) -> c <> b -> same_data (B c) (B' c)) -> free_ok B' (dqi_free_blk i') (b :: gf g) ->
  part_ok B' (dqi_free_entry i') (delete b (gd g)) l -> dqi_blocks i' = dqi_blocks i -> B' 0 = B 0 ->
  qinv B' i' (drop_data g id b l) X None /\ removed id 4 B B' g (drop_data g id b l) 0.
Proof.
  intros [T D P Fr Pl W] Hi HX Hb Hj Hc1 HBn HBd Hfo Po Hbl H0. assert (Hh : holds (gd g) id b j e) by (by exists s).
  assert (Hrel : forall id' c k e', holds (delete b (gd g)) id' c k e' <-> holds (gd g) id' c k e' /\ ~ (c = b /\ k = j)).
  { intros id' c k e'. rewrite holds_delete. split; intros [Hk Hn]; (split; [done|]); [tauto|]. intros ->. apply Hn. split; [done|].
    destruct Hk as (s' & Hs' & Hk). replace s' with s in * by congruence. by apply (cnt_one s j k _ _ Hc1 Hj Hk). }
  split; [|apply removed_leaf; [done|by apply (others_release _ _ _ b j e)|done|done]].
  constructor; cbn [drop_data gn gd ge gf]; try done.
  - eapply tree_ok_ext; [|by apply (release_tree B)]. intros p c [_ Hp]%lookup_delete_Some Hl _. by apply (HBn p).
  - destruct D as [D1 D2 D3]. constructor.
    + intros c t [Hne Hc]%lookup_delete_Some. apply (data_ok_same (B c)); [|by apply D1]. apply HBd; [by eexists|done].
    + intros id' c k e' Hk. apply Hrel in Hk as [Hk _]. by apply (D2 _ _ _ _ Hk).
    + intros id' c k e' c' k' e'' [Hk _]%Hrel [Hk' _]%Hrel. by apply (D3 id' c k e' c' k' e'').
  - rewrite Hbl. destruct Pl as [P1 P2 P3]. destruct (P2 b) as [Hbr Hbf]; [by eexists|]. constructor; cbn [drop_data gn gd gf].
    + intros p c [_ Hp]%lookup_delete_Some Hl. destruct (P1 p c Hp Hl) as (H1 & H2 & H3). split; [done|].
      assert (c <> b) by congruence. rewrite lookup_delete_ne by done. split; [done|]. by apply not_elem_of_cons.
    + intros c [t [Hne Hc]%lookup_delete_Some]. destruct (P2 c) as [H1 H2]; [by eexists|]. split; [done|]. by apply not_elem_of_cons.
    + intros c [->|Hc]%elem_of_cons; [done|by apply P3].
  - intros id' c. apply (release_where g _ id b j e); try done. apply D.
Qed.

Lemma removed_sibling id d B B' g g' b j : (d <= 3)%nat -> removed id (S d) B B' g g' b -> j <> get_index id (Z.of_nat d) ->
  gn g' !! (take d (path id) ++ [j]) = gn g !! (take d (path id) ++ [j]).
Proof.
  intros Hd I Hj. apply (rm_gn _ _ _ _ _ _ _ I). intros k Hk He. pose proof (f_equal length He) as Hl.
  rewrite length_app, !length_path_take in Hl by lia. cbn in Hl. replace k with (S d) in He by lia.
  rewrite path_take_S in He by lia. apply app_inj_tail in He as [_ He]. done.
Qed.

(** From the removal below a block to the one at the block, which stays. *)
Lemma removed_up id d B B2 B3 g g2 b b2 i X : (d <= 3)%nat -> removed id (S d) B B2 g g2 b2 -> qinv B i g X None ->
  gn g !! take d (path id) = Some b -> (forall c, c <> b -> B3 c = B2 c) -> removed id d B B3 g g2 b.
Proof.
  intros Hd [M1 M2 M3 M4 M5 M6] Q Hb HB. pose proof (to_pos _ _ _ (qi_tree _ _ _ _ _ Q) _ _ Hb) as Hpos. constructor; try done.
  - intros q Hq. apply M1. intros k Hk. apply Hq. lia.
  - rewrite (proj2 (Z.eqb_neq _ _)) by lia. apply M1. intros k Hk Hx. apply path_take_inj in Hx; lia.
  - intros p c Hp Hl (k & Hk & ->). rewrite HB.
    + apply (M5 (take k (path id)) c Hp Hl). exists k. split; [lia|done].
    + intros ->. assert (Hx : take k (path id) = take d (path id)).
      { apply (to_inj _ _ _ (qi_tree _ _ _ _ _ Q) _ _ b); try done. rewrite length_path_take; lia. }
      apply path_take_inj in Hx; lia.
  - rewrite HB by lia. done.
Qed.

Lemma no_children B n X p j buf : (forall j, 0 <= j < 256 -> ref buf j = default 0 (n !! (p ++ [j]))) ->
  take (Z.to_nat QT_BLKSIZE) buf = replicate (Z.to_nat QT_BLKSIZE) 0 -> tree_ok B n X -> n !! (p ++ [j]) = None.
Proof.
  intros Href Hz T. destruct (n !! (p ++ [j])) as [c|] eqn:Hc; [|done]. pose proof (to_pos _ _ _ T _ _ Hc) as Hpos.
  destruct (to_key _ _ _ T _ _ Hc) as [_ [_ [Hj _]%Forall_cons]%Forall_app]. specialize (Href j Hj). rewrite Hc in Href. cbn in Href.
  change (Z.to_nat QT_BLKSIZE) with 1024%nat in Hz. unfold ref, getv in Href. rewrite <- (get_le_take 4 1024), Hz in Href by lia.
  fold (getv 4 (replicate 1024 0) (4 * j)) in Href. rewrite getv_zeros in Href by lia. unfold id in Href. lia.
Qed.

Lemma put_free_ok B i l buf b : free_ok B (dqi_free_blk i) l -> b ∉ l -> good_buf buf -> is_u32 (dqi_free_blk i) ->
  free_ok (upd B b (set_ent (set_prev (set_next buf (dqi_free_blk i)) 0) 0)) b (b :: l).
Proof.
  intros [F1 F2 F3] Hb Hg Hu. constructor; [done| |by apply NoDup_cons]. cbn [sll]. rewrite upd_eq. split.
  - by autorewrite with quota.
  - eapply sll_ext; [|exact F2]. intros c Hc. apply upd_ne. by intros ->.
Qed.

Lemma free_head_u32 B i g X pend : qinv B i g X pend -> dqi_blocks i <= 2 ^ 21 -> is_u32 (dqi_free_blk i).
Proof.
  intros Q HL. rewrite (fo_head _ _ _ (qi_free _ _ _ _ _ Q)). destruct (gf g) as [|b l] eqn:Hf; [unfold is_u32; cbn; lia|].
  assert (1 <= b < dqi_blocks i); [|unfold is_u32; cbn; lia]. apply (pl_frees _ _ (qi_place _ _ _ _ _ Q)). rewrite Hf. left.
Qed.

(** A tree block that becomes free. *)
Definition drop_tree (g : ghost) (p : list Z) (b : Z) : ghost := {|
  gn := delete p (gn g); gd := gd g; ge := ge g; gf := b :: gf g |}.

Lemma drop_node B B2 i g g2 id d b buf b2 : removed id (S d) B B2 g g2 b2 -> qinv B2 i g2 (above id (S d)) None -> (d <= 3)%nat ->
  dqi_blocks i <= 2 ^ 21 -> gn g2 !! take d (path id) = Some b -> b <> QT_TREEOFF -> good_buf buf ->
  (forall j, gn g2 !! (take d (path id) ++ [j]) = None) ->
  let B3 := upd B2 b (set_ent (set_prev (set_next buf (dqi_free_blk i)) 0) 0) in let g3 := drop_tree g2 (take d (path id)) b in
  qinv B3 (set_free_blk i b) g3 (above id d) None /\ removed id d B B3 g g3 0.
Proof.
  intros M Q Hd HL Hb Hroot Hg Hnc. cbv zeta. pose proof (free_head_u32 _ _ _ _ _ Q HL) as Hu.
  destruct Q as [T D P Fr Pl W]. destruct (pl_nodes _ _ Pl _ _ Hb) as (Hbr & Hbd & Hbf); [rewrite length_path_take; lia|].
  destruct d as [|k]; [pose proof (to_root _ _ _ T) as Hx; cbn in Hb; congruence|].
  assert (HB3 : forall c buf, c <> b -> upd B2 b buf c = B2 c) by (intros c buf' Hc; by apply upd_ne).
  split.
  - constructor; cbn [drop_tree gn gd ge gf set_free_blk dqi_blocks dqi_free_blk dqi_free_entry].
    + eapply tree_ok_ext.
      { intros p c [Hne Hp]%lookup_delete_Some Hl _. apply HB3. intros ->. apply Hne, (to_inj _ _ _ T _ _ b); try done. rewrite length_path_take; lia. }
      rewrite path_take_S in * by lia. apply (tree_del B2 (gn g2) (above id (S (S k)))); try done; [|exists k; split; [lia|done]].
      intros p (m & Hm & ->). destruct (decide (m = S k)) as [->|]; [right; by rewrite path_take_S by lia|left; exists m; split; [lia|done]].
    + eapply data_inv_ext; [|exact D]. intros c [t Ht]. apply HB3. congruence.
    + eapply part_ok_ext'; [|exact P]. intros c [t Ht]. apply HB3. congruence.
    + by apply put_free_ok.
    + destruct Pl as [P1 P2 P3]. constructor; cbn [drop_tree gn gd gf].
      * intros p c [Hne Hp]%lookup_delete_Some Hl. destruct (P1 p c Hp Hl) as (H1 & H2 & H3). split; [done|]. split; [done|].
        apply not_elem_of_cons. split; [|done]. intros ->. apply Hne, (to_inj _ _ _ T _ _ b); try done. rewrite length_path_take; lia.
      * intros c Hc. destruct (P2 c Hc). split; [done|]. apply not_elem_of_cons. split; [|done]. intros ->. rewrite Hbd in Hc. by destruct Hc.
      * intros c [->|Hc]%elem_of_cons; [done|by apply P3].
    + intros id' c Hi. cbn [drop_tree gn gd]. rewrite lookup_delete_ne; [by apply W|].
      intros Hx%(f_equal length). revert Hx. rewrite length_path_take by lia. cbn. lia.
  - destruct M as [M1 M2 M3 M4 M5 M6]. constructor; cbn [drop_tree gn gd].
    + intros q Hq. rewrite lookup_delete_ne by (intros <-; by apply (Hq (S k)); [lia|]). apply M1. intros m Hm. apply Hq. lia.
    + apply lookup_delete_eq.
    + done.
    + apply lookup_delete_None. by right.
    + intros p c Hp Hl (m & Hm & ->). rewrite HB3; [apply (M5 (take m (path id)) c Hp Hl); exists m; split; [lia|done]|]. intros ->.
      rewrite <- M1 in Hp by (intros x Hx Hy; apply path_take_inj in Hy; lia).
      assert (Hx : take m (path id) = take (S k) (path id)) by (apply (to_inj _ _ _ T _ _ b); try done; rewrite length_path_take; lia).
      apply path_take_inj in Hx; lia.
    + rewrite HB3 by lia. done.
Qed.

(** Writing the entry of an id, whether it is there or only reserved. *)
Lemma entry_inv B i g X pend id b s j e e' : qinv B i g X pend -> (pend = None \/ pend = Some id) -> gd g !! b = Some s ->
  s !! j = Some (Some (id, e)) -> good_entry None id e' -> good_buf (B b) ->
  let g' := {| gn := gn g; gd := set_slot (gd g) b s j (Some (id, e')); ge := ge g; gf := gf g |} in
  qinv (upd B b (splice (B b) (16 + 72 * Z.of_nat j) e')) i g' X None /\
  forall id' c k x, holds (gd g') id' c k x <-> if decide (c = b /\ k = j) then id' = id /\ x = e' else holds (gd g) id' c k x.
Proof.
  intros [T D P Fr Pl W] Hpend Hb Hj He' Hg. cbv zeta. cbn [gd]. set (buf := splice (B b) _ e'). assert (Hh : holds (gd g) id b j e) by (by exists s).
  pose proof (di_data _ _ _ D b s Hb) as Dok. pose proof (lookup_lt_Some _ _ _ Hj) as Hlt. pose proof Hlt as Hlt'. rewrite (do_len _ _ Dok) in Hlt'.
  pose proof He' as (Hl' & Hb' & _). destruct Hg as [Hgl Hgb]. pose proof (conj Hgl Hgb : good_buf (B b)) as Hg.
  destruct (pl_datas _ _ Pl b) as [Hbr Hbf]; [by eexists|]. pose proof (cnt_insert s j _ (Some (id, e')) Hj) as Hc. cbn [weight] in Hc.
  assert (Hholds : forall id' c k x, holds (set_slot (gd g) b s j (Some (id, e'))) id' c k x <-> if decide (c = b /\ k = j) then id' = id /\ x = e' else holds (gd g) id' c k x).
  { intros id' c k x. rewrite holds_set by done. case_decide; [|done]. split; [by intros [= -> ->]|by intros [-> ->]]. }
  split; [|exact Hholds]. constructor; cbn [gn gd ge gf].
  - eapply tree_ok_ext; [|exact T]. intros p c Hp Hl _. apply upd_ne. intros ->. destruct (pl_nodes _ _ Pl p b Hp Hl) as (_ & Hx & _). congruence.
  - eapply data_set; [exact D|done|done| | |].
    + apply data_ok_set with (B b); [done|done| |by apply slot_splice_eq|].
      * unfold entf, buf, ofs_dqdh_entries. rewrite getv_set_ne by lia. fold ofs_dqdh_entries. fold (entf (B b)). rewrite (do_cnt _ _ Dok). lia.
      * intros k Hk. apply slot_splice_ne; [done|lia|lia|lia].
    + intros id' x [= <- <-]. destruct (di_entry _ _ _ D _ _ _ _ Hh) as [Hi _]. split; [done|]. split; [done|]. intros c k x Hx.
      by destruct (di_once _ _ _ D _ _ _ _ _ _ _ Hx Hh).
    + intros id' c k x Hx Hne (H1 & H2 & H3). split; [done|]. split; [done|]. rewrite decide_False by done.
      destruct Hpend as [-> | ->]; [by rewrite decide_False in H3 by done|]. destruct (decide (Some id = Some id')) as [[= <-]|Hn]; [|done].
      destruct Hne. by destruct (di_once _ _ _ D _ _ _ _ _ _ _ Hx Hh).
  - destruct P as [P1 P2 P3 P4]. constructor; [done| |done|].
    + eapply dll_ext; [|exact P2]. intros x _. unfold upd. destruct (Z.eqb_spec x b) as [->|]; [|done].
      unfold prevf, nextf, buf, ofs_dqdh_prev_free, ofs_dqdh_next_free. split; apply getv_set_ne; lia.
    + intros c. rewrite set_slot_room, P4. case_decide; [subst c|done]. split; [intros (t & Ht & Htc); replace t with s in * by congruence; lia|].
      intros Hx. exists s. split; [done|lia].
  - eapply free_ok_ext; [|exact Fr]. intros c Hcf. apply upd_ne. by intros ->.
  - destruct Pl as [P1 P2 P3]. constructor; cbn [gn gd gf]; try done.
    + intros p c Hp Hl. destruct (P1 p c Hp Hl) as (? & Hn & ?). split; [done|]. split; [|done].
      apply eq_None_not_Some. rewrite set_slot_some by done. by rewrite Hn, <- eq_None_not_Some.
    + intros c Hcd. apply set_slot_some in Hcd; [|done]. by apply P2.
  - intros id' c Hi. cbn [gn gd]. rewrite (W id' c Hi). split; intros (k & x & Hx).
    + destruct (decide (c = b /\ k = j)) as [[-> ->]|Hne]; [exists j, e'|exists k, x]; apply Hholds; [|by rewrite decide_False].
      rewrite decide_True by done. destruct Hx as (t & Ht & Hk). split; [congruence|done].
    + apply Hholds in Hx. case_decide as Hne; [|by eauto]. destruct Hne as [-> ->], Hx as [-> ->]. by exists j, e.
Qed.

Section Operations.
Context {F : Type} `{QuotaFileLaws F}.
Implicit Types (h : quota_handle F) (i : qtree_mem_dqinfo) (B : Z -> list Z).

(** The end of [find_free_dqentry]: the first free slot of [buf]. *)
Lemma find_slot_tail L h B i info buf b s : rep L h B i -> dqi_entry_size info = 72 -> 1 <= b < L -> good_buf buf -> data_ok buf s ->
  (forall j o, s !! j = Some (Some o) -> slot_val (Some o) <> zeros72) -> (cnt s < 14)%nat ->
  exists j h', s !! j = Some None /\
    (entries ← get_le16 buf ofs_dqdh_entries;
     buf ← set_le16 buf ofs_dqdh_entries (u16 (entries + 1));
     i ← unused_slot (Z.to_nat 14) info buf 0;
     '(_, h) ← write_blk h (u32 b) buf;
     _ ← defined_ ((0 <=? b) && (b <? 2 ^ 21));
     Ok (u32 b, 0, Z.shiftl b QT_BLKSIZE_BITS + SIZE_OF_DQDBHEADER + i * dqi_entry_size info, h)) =
    Ok (b, 0, 1024 * b + 16 + 72 * Z.of_nat j, h') /\
    rep L h' (upd B b (set_ent buf (Z.of_nat (cnt s) + 1))) i.
Proof.
  intros R Hsz Hb Hg Dok Hnz Hc. destruct (rep_room _ _ _ _ R) as [HL _]. destruct Dok as [Dl Dc Ds].
  rewrite entf_Ok, res_bind_ret, set_ent_Ok, res_bind_ret, Dc by done.
  rewrite u16_id by (unfold is_u16; lia). set (buf' := set_ent buf _).
  assert (Hg' : good_buf buf') by (by apply good_set_ent).
  destruct (cnt_free s) as [j0 Hj0]; [lia|].
  destruct (unused_slot_spec info buf' 14 0 Hg' Hsz) as (j & Hj & Hz & Hu); [done| |].
  { exists j0. split; [apply lookup_lt_Some in Hj0; lia|]. subst buf'. autorewrite with quota. exact (Ds j0 None Hj0). }
  exists j. assert (Hjs : s !! j = Some None).
  { destruct (lookup_lt_is_Some_2 s j) as [[o|] Ho]; [lia| |done]. destruct (Hnz j o Ho). rewrite <- (Ds j _ Ho).
    subst buf'. by autorewrite with quota in Hz. }
  change (Z.to_nat 14) with 14%nat. change (Z.of_nat 0) with 0 in Hu. rewrite Hu, res_bind_ret.
  rewrite u32_id by (unfold is_u32; lia).
  destruct (write_blk_eq L h B i b buf' R) as (h' & -> & R' & _); [lia|done|]. exists h'. rewrite res_bind_ret.
  rewrite (proj2 (Z.leb_le _ _)), (proj2 (Z.ltb_lt _ _)) by lia. cbn [andb defined_]. rewrite res_bind_ret.
  split; [done|]. split; [|done]. rewrite Z.shiftl_mul_pow2, Hsz by (unfold QT_BLKSIZE_BITS; lia).
  unfold QT_BLKSIZE_BITS, SIZE_OF_DQDBHEADER. do 3 f_equal. lia.
Qed.

(** The three cases of [find_free_dqentry]: a new block, a block that keeps room, a
    block that becomes full. *)
Definition found L h B i g (X : list Z -> Prop) id off : Prop :=
  exists b off' h' B' i' g', find_free_dqentry h off = Ok (b, 0, off', h') /\ rep L h' B' i' /\
    qinv B' i' g' X (Some id) /\ inserted id 4 B B' g g' b off' /\ grows 1 i i'.

Lemma find_free_new L h B i g X id off : rep L h B i -> qinv B i g X None -> is_u32 id -> gn g !! path id = None ->
  X (take 3 (path id)) -> is_Some (gn g !! take 3 (path id)) -> dqi_blocks i + 1 <= L -> ge g = [] -> found L h B i g X id off.
Proof.
  intros R Q Hi Hn HX H3 HL Hge. destruct (rep_room _ _ _ _ R) as [HL' _].
  pose proof (po_head _ _ _ _ (qi_part _ _ _ _ _ Q)) as Hh. rewrite Hge in Hh. cbn [hd] in Hh.
  destruct (get_free_spec L h B i g X None R Q HL) as (b & h1 & B1 & i1 & Hgf & R1 & Q1 & Hfr & Hb & Hgr & Hbn & HB1).
  assert (HbL : 1 <= b < L) by (unfold grows in Hgr; lia).
  set (i2 := set_free_entry i1 b). assert (R2 : rep L (with_info h1 i2) B1 i2) by (eapply rep_with_info; [exact R1|apply R1|done]).
  set (g1 := take_free g) in *. pose proof Hfr as (Hf1 & Hf2 & Hf3).
  destruct (find_slot_tail L (with_info h1 i2) B1 i2 i empty_buf b (replicate 14 None) R2 (rep_size _ _ _ _ R)) as (j & h' & Hj & Ht & R');
    [done|apply good_empty|apply data_ok_empty|by intros j o Hj%lookup_free|cbn; lia|].
  set (s := replicate 14 None) in *. set (buf := set_ent empty_buf _) in *.
  destruct Q1 as [T1 D1 P1 Fr1 Pl1 W1].
  assert (Q2 : qinv (upd (upd B1 b empty_buf) b buf) i2 (reserve (new_data g1 b) id b s j [b]) X (Some id)).
  { pose proof (new_block_inv B1 i1 g1 X b Hfr T1 D1 Fr1 Pl1 W1 Hb) as (T2 & D2 & Fr2 & Pl2 & W2).
    apply (reserve_inv (upd B1 b empty_buf) i2 (new_data g1 b)); try done; [apply lookup_insert_eq|cbn; unfold grows in *; lia| |].
    - intros k. subst buf. rewrite upd_eq. by autorewrite with quota.
    - apply (part_single B1 _ (dqi_free_entry i1)); [by rewrite <- Hge|subst buf; by rewrite upd_eq; autorewrite with quota..|].
      pose proof (cnt_insert s j None (Some (id, zeros72)) Hj) as Hc. cbn [weight] in Hc. change (cnt s) with 0%nat in Hc. lia. }
  exists b, (1024 * b + 16 + 72 * Z.of_nat j), h', (upd B1 b buf), i2, (reserve (new_data g1 b) id b s j [b]).
  split; [|split; [exact R'|split; [|split]]].
  - unfold find_free_dqentry. rewrite (rep_info _ _ _ _ R), Hh. cbn [Z.eqb negb]. rewrite Hgf, res_bind_ret.
    rewrite (proj2 (Z.ltb_ge _ _)) by lia. rewrite (rep_info _ _ _ _ R1). cbn beta iota. rewrite res_bind_ret, (proj2 (Z.ltb_ge _ _)) by lia. cbn [andb].
    change (get_le16 empty_buf ofs_dqdh_entries) with (Ok 0). rewrite res_bind_ret, (dqstr_14 i), res_bind_ret by apply R.
    change (14 <=? 0 + 1) with false. cbn beta iota. rewrite res_bind_ret. exact Ht.
  - eapply qinv_ext; [|exact Q2]. intros c. unfold upd. by destruct (c =? b).
  - apply (inserted_pre id 4 _ _ (new_data g1 b)); [done|intros; by apply holds_new|].
    apply inserted_reserve; [done|apply lookup_insert_eq|done|done|intros p c Hp Hl|].
    { assert (c <> b) by (intros ->; apply Hf1 in Hp; lia). rewrite upd_ne by done. by apply HB1. }
    rewrite upd_ne by lia. apply HB1. lia.
  - exact Hgr.
Qed.

Lemma find_free_room L h B i g X id off b l s : rep L h B i -> qinv B i g X None -> is_u32 id -> gn g !! path id = None ->
  X (take 3 (path id)) -> is_Some (gn g !! take 3 (path id)) -> dqi_blocks i + 1 <= L -> ge g = b :: l ->
  gd g !! b = Some s -> (cnt s < 13)%nat -> found L h B i g X id off.
Proof.
  intros R Q Hi Hn HX H3 HL Hge Hb Hc. destruct (rep_room _ _ _ _ R) as [HL' _].
  pose proof (po_head _ _ _ _ (qi_part _ _ _ _ _ Q)) as Hh. rewrite Hge in Hh. cbn [hd] in Hh.
  destruct (part_in B i g X None b Q) as (s' & Hs' & _ & Dok & Hbr & Hbf); [rewrite Hge; left|]. replace s' with s in * by congruence.
  assert (Hg : good_buf (B b)) by (apply (rep_good L h B i b R); lia).
  destruct (find_slot_tail L h B i i (B b) b s R (rep_size _ _ _ _ R)) as (j & h' & Hj & Ht & R'); [lia|done|done| |lia|].
  { intros j o. exact (data_inv_nonzero B (gd g) b s j o (qi_data _ _ _ _ _ Q) Hb). }
  set (buf := set_ent (B b) _) in *. pose proof (cnt_insert s j None (Some (id, zeros72)) Hj) as Hci. cbn [weight] in Hci.
  exists b, (1024 * b + 16 + 72 * Z.of_nat j), h', (upd B b buf), i, (reserve g id b s j (b :: l)).
  split; [|split; [exact R'|split; [|split]]].
  - unfold find_free_dqentry. rewrite (rep_info _ _ _ _ R), Hh, (proj2 (Z.eqb_neq b 0)) by lia. cbn [negb andb].
    pose proof (data_blocks _ _ _ _ _ b Q ltac:(by eexists)) as H1b.
    rewrite (read_blk_eq L h B i b R), res_bind_ret, s32_blk by lia. rewrite res_bind_ret. rewrite (entf_Ok _ Hg), (do_cnt _ _ Dok), res_bind_ret in *.
    rewrite (dqstr_14 i), res_bind_ret by apply R. rewrite (proj2 (Z.leb_gt 14 (Z.of_nat (cnt s) + 1))) by lia. rewrite res_bind_ret.
    rewrite (entf_Ok _ Hg), (do_cnt _ _ Dok), res_bind_ret. exact Ht.
  - destruct Q as [T D P Fr Pl W]. apply (reserve_inv B i); try done; [lia|subst buf; autorewrite with quota; lia| |].
    + intros k. subst buf. by autorewrite with quota.
    + rewrite Hge in P. destruct P as [Po Pd Pn Pi]. constructor; [done| |done|].
      * eapply dll_ext; [|exact Pd]. intros x _. unfold upd. destruct (Z.eqb_spec x b) as [->|]; [|done].
        subst buf. by autorewrite with quota.
      * intros c. rewrite set_slot_room, Pi. case_decide as Hd; [|done]. subst c. split; [intros; lia|intros _; exists s; split; [done|lia]].
  - apply inserted_reserve; try done; [|apply upd_ne; lia]. intros p c Hp Hl. apply upd_ne. intros ->.
    apply (node_not_part _ _ _ _ _ _ _ Q Hp Hl). rewrite Hge. left.
  - unfold grows. lia.
Qed.

Lemma find_free_full L h B i g X id off b l s : rep L h B i -> qinv B i g X None -> is_u32 id -> gn g !! path id = None ->
  X (take 3 (path id)) -> is_Some (gn g !! take 3 (path id)) -> dqi_blocks i + 1 <= L -> ge g = b :: l ->
  gd g !! b = Some s -> cnt s = 13%nat -> found L h B i g X id off.
Proof.
  intros R Q Hi Hn HX H3 HL Hge Hb Hc. destruct (rep_room _ _ _ _ R) as [HL' _].
  pose proof (qi_part _ _ _ _ _ Q) as P. rewrite Hge in P. destruct P as [Hh Pd Pn Pi]. cbn [hd] in Hh.
  assert (Hin : forall x, x ∈ b :: l -> 1 <= x < dqi_blocks i /\ x ∉ gf g).
  { intros x Hx. rewrite <- Hge in Hx. by destruct (part_in B i g X None x Q Hx) as (? & _ & _ & _ & ?). }
  destruct (part_in B i g X None b Q) as (s' & Hs' & _ & Dok & Hbr & Hbf); [rewrite Hge; left|]. replace s' with s in * by congruence.
  assert (Hg : good_buf (B b)) by (apply (rep_good L h B i b R); lia).
  pose proof (data_blocks _ _ _ _ _ b Q ltac:(by eexists)) as H1b.
  destruct (remove_free_spec L h B i b [] l (B b) R Hh Pd Pn) as (h1 & B1 & Hrm & R1 & HB1b & Hd1 & Hsame & HB1); [lia| |done|done|done|].
  { rewrite Forall_forall. intros x Hx. destruct (Hin x Hx). lia. }
  cbn [app] in *. set (buf1 := set_next (set_prev (B b) 0) 0) in *. set (i1 := set_free_entry i (hd 0 l)) in *.
  assert (Hsb : same_data (B b) buf1) by (subst buf1; split; [|intros k]; by autorewrite with quota).
  assert (Hg1 : good_buf buf1) by (subst buf1; auto with quota).
  destruct (find_slot_tail L h1 B1 i1 i buf1 b s R1 (rep_size _ _ _ _ R)) as (j & h' & Hj & Ht & R');
    [lia|done|by apply (data_ok_same (B b))| |lia|].
  { intros j o. exact (data_inv_nonzero B (gd g) b s j o (qi_data _ _ _ _ _ Q) Hb). }
  set (buf := set_ent buf1 _) in *. pose proof (cnt_insert s j None (Some (id, zeros72)) Hj) as Hci. cbn [weight] in Hci.
  assert (Hnode : forall p c, gn g !! p = Some c -> (length p <= 3)%nat -> c <> b /\ B1 c = B c).
  { intros p c Hp Hl. pose proof (node_not_part _ _ _ _ _ _ _ Q Hp Hl) as Hx. rewrite Hge in Hx.
    split; [intros ->; apply Hx; left|by apply HB1]. }
  exists b, (1024 * b + 16 + 72 * Z.of_nat j), h', (upd B1 b buf), i1, (reserve g id b s j l).
  split; [|split; [exact R'|split; [|split]]].
  - unfold find_free_dqentry. rewrite (rep_info _ _ _ _ R), Hh, (proj2 (Z.eqb_neq b 0)) by lia. cbn [negb andb].
    rewrite (read_blk_eq L h B i b R), res_bind_ret, s32_blk by lia. rewrite res_bind_ret. rewrite (entf_Ok _ Hg), (do_cnt _ _ Dok), res_bind_ret.
    rewrite (dqstr_14 i), res_bind_ret by apply R. rewrite (proj2 (Z.leb_le 14 (Z.of_nat (cnt s) + 1))) by lia.
    rewrite (u32_id b) in * by (unfold is_u32; lia). rewrite Hrm, res_bind_ret. exact Ht.
  - destruct Q as [T D P Fr Pl W]. apply (reserve_inv B1 i); try done; [lia| | | | | |].
    + eapply tree_ok_ext; [|exact T]. intros p c Hp Hl _. by apply (Hnode p c).
    + eapply data_inv_same; [|exact D]. intros c _. destruct (decide (c = b)) as [->|Hne]; [by rewrite HB1b|].
      destruct (decide (c ∈ l)) as [Hcl|Hcl]; [by apply Hsame|]. rewrite HB1; [done|]. by apply not_elem_of_cons.
    + eapply free_ok_ext; [|exact Fr]. intros c Hcf. apply HB1. intros Hx. by destruct (Hin c Hx).
    + subst buf. rewrite entf_set_ent by (done || u_range). done.
    + intros k. subst buf. rewrite HB1b. by autorewrite with quota.
    + apply NoDup_cons in Pn as [Hbl Pn]. constructor; [done| |done|].
      * eapply dll_ext; [|exact Hd1]. intros x Hx. rewrite upd_ne; [done|]. by intros ->.
      * intros c. rewrite set_slot_room. case_decide as Hd; [subst c; split; [done|lia]|]. rewrite <- Pi. rewrite elem_of_cons. tauto.
  - apply inserted_reserve; try done; [intros p c Hp Hl; destruct (Hnode p c Hp Hl); by rewrite upd_ne|].
    rewrite upd_ne by lia. apply HB1. intros Hx. destruct (Hin 0 Hx). lia.
  - unfold grows. cbn. lia.
Qed.

Lemma find_free_spec L h B i g X id off : rep L h B i -> qinv B i g X None -> is_u32 id -> gn g !! path id = None ->
  X (take 3 (path id)) -> is_Some (gn g !! take 3 (path id)) -> dqi_blocks i + 1 <= L -> found L h B i g X id off.
Proof.
  intros R Q Hi Hn HX H3 HL. destruct (ge g) as [|b l] eqn:Hge; [by apply find_free_new|].
  destruct (part_in B i g X None b Q) as (s & Hs & Hc & _); [rewrite Hge; left|].
  destruct (decide (cnt s = 13)%nat); [by apply (find_free_full L h B i g X id off b l s)|].
  apply (find_free_room L h B i g X id off b l s); try done. lia.
Qed.

(** The start of [do_insert_tree]: the block of the prefix, new or not. *)
Definition opened L h B i g id d tb : Prop :=
  exists na ret b buf h1 B1 i1 g1,
    (if tb =? 0 then
       '(ret, h) ← get_free_dqblk h;
       Ok (true, ret, if ret <? 0 then tb else u32 ret, empty_buf, h)
     else buf ← read_blk h tb; Ok (false, 0, tb, buf, h)) = Ok (na, ret, b, buf, h1) /\
    0 <= ret /\ rep L h1 B1 i1 /\ qinv B1 i1 g1 (above id (S d)) None /\ good_buf buf /\ 1 <= b < dqi_blocks i1 /\ grows 1 i i1 /\
    gn g1 !! take d (path id) = Some b /\ gd g1 = gd g /\ (forall q, q <> take d (path id) -> gn g1 !! q = gn g !! q) /\
    (forall q c, gn g !! q = Some c -> gn g1 !! q = Some c) /\
    (forall p c, gn g !! p = Some c -> (length p <= 3)%nat -> B1 c = B c) /\
    (forall j, 0 <= j < 256 -> ref buf j = default 0 (gn g1 !! (take d (path id) ++ [j]))) /\
    (buf = B1 b \/ forall j, 0 <= j < 256 -> ref buf j = 0) /\ B1 0 = B 0.

(** The root of a new file reads as zeros, whatever its block holds. *)
Lemma open_new L h B i g id : rep L h B i -> qinv B i g (above id 1) None -> qf_len (qh_qf h) <= 1024 ->
  (forall j, gn g !! [j] = None) -> opened L h B i g id 0 QT_TREEOFF.
Proof.
  intros R Q Hlen Hg. pose proof (to_root _ _ _ (qi_tree _ _ _ _ _ Q)) as Hr.
  destruct (pl_nodes _ _ (qi_place _ _ _ _ _ Q) _ _ Hr) as (Hbr & _); [cbn; lia|]. unfold opened.
  rewrite (read_root_new L h B i R Hlen), res_bind_ret.
  exists false, 0, QT_TREEOFF, empty_buf, h, B, i, g. split_and!; try done; try (unfold grows; lia).
  - apply good_empty.
  - intros j Hj. cbn. rewrite Hg. by apply ref_empty.
  - right. apply ref_empty.
Qed.

Lemma open_spec L h B i g id d tb : rep L h B i -> qinv B i g (above id d) None -> (d <= 3)%nat -> (d = 0%nat -> 2 < dqi_blocks i) ->
  tb = default 0 (gn g !! take d (path id)) -> (forall k, d = S k -> is_Some (gn g !! take k (path id))) -> dqi_blocks i + 1 <= L ->
  opened L h B i g id d tb.
Proof.
  intros R Q Hd H2 -> Hpar HL. destruct (rep_room _ _ _ _ R) as [HL' _]. pose proof (length_path_take id d) as Hlen. unfold opened.
  destruct (gn g !! take d (path id)) as [b|] eqn:Hb; cbn [default].
  - destruct (pl_nodes _ _ (qi_place _ _ _ _ _ Q) _ _ Hb) as (Hbr & _); [rewrite Hlen; lia|].
    assert (2 < dqi_blocks i).
    { destruct d as [|d]; [by apply H2|]. pose proof (node_blocks _ _ _ _ _ _ _ Q Hb ltac:(rewrite Hlen; lia)). lia. }
    unfold Datatypes.id. rewrite (proj2 (Z.eqb_neq _ _)), (read_blk_eq L h B i b R), res_bind_ret by lia.
    exists false, 0, b, (B b), h, B, i, g. split_and!; try done; try (unfold grows; lia).
    + destruct Q as [T D P Fr Pl W]. constructor; try done. eapply tree_ok_weaken; [|exact T]. apply above_S.
    + apply (rep_good L h B i b R). lia.
    + intros j Hj. apply (to_refs _ _ _ (qi_tree _ _ _ _ _ Q)); try done; [rewrite Hlen; lia|].
      intros (k & Hk & Hx). apply path_take_inj in Hx; lia.
    + by left.
  - destruct d as [|k]; [pose proof (to_root _ _ _ (qi_tree _ _ _ _ _ Q)); cbn in Hb; congruence|]. specialize (Hpar k eq_refl).
    destruct (get_free_spec L h B i g _ None R Q HL) as (b & h1 & B1 & i1 & -> & R1 & Q1 & Hfr & Hbr & Hgr & Hbn & HB1).
    cbn [Z.eqb]. rewrite res_bind_ret, (proj2 (Z.ltb_ge _ _)), u32_id by (unfold grows, is_u32 in *; lia).
    pose proof (fun j => no_child _ _ _ _ j (qi_tree _ _ _ _ _ Q) Hb) as Hnc.
    exists true, b, b, empty_buf, h1, B1, i1, (new_node (take_free g) (take (S k) (path id)) b). split_and!; try done; try lia.
    + apply new_node_inv; try done. unfold grows in *. lia.
    + apply good_empty.
    + apply lookup_insert_eq.
    + intros q Hq. by apply lookup_insert_ne.
    + intros q c Hq. cbn [new_node gn take_free]. rewrite lookup_insert_ne; [done|congruence].
    + intros p c Hp Hl. apply HB1. intros ->. apply Hbn in Hp. lia.
    + intros j Hj. cbn [new_node gn take_free]. rewrite ref_empty, lookup_insert_ne by (done || intros Hx%(f_equal length); rewrite length_app in Hx; cbn in Hx; lia).
      by rewrite Hnc.
    + right. apply ref_empty.
    + apply HB1. lia.
Qed.

(** The insertion from depth [d] on. *)
Definition insertion L h B i g id off tb d n : Prop :=
  exists b off' h' B' i' g', do_insert_tree n h id off tb (Z.of_nat d) = Ok (0, b, off', h') /\ rep L h' B' i' /\
    qinv B' i' g' (above id d) (Some id) /\ inserted id d B B' g g' b off' /\ grows (Z.of_nat n + 1) i i'.

(** The part of [do_insert_tree] below the block of the prefix, at either depth. *)
Definition descend n h id off nb (d : nat) : res (Z * Z * Z * quota_handle F) :=
  if Z.of_nat d =? QT_TREEDEPTH - 1 then '(newblk, ret, off, h) ← find_free_dqentry h off; Ok (ret, newblk, off, h)
  else do_insert_tree n h id off nb (Z.of_nat d + 1).

Lemma insert_step n d L h B i g id off tb : (d <= 3)%nat -> rep L h B i -> opened L h B i g id d tb -> dqi_blocks i + 1 <= L ->
  (forall h1 B1 i1 g1, rep L h1 B1 i1 -> qinv B1 i1 g1 (above id (S d)) None -> gn g1 !! path id = gn g !! path id ->
     is_Some (gn g1 !! take d (path id)) -> grows 1 i i1 ->
     exists b off' h' B' i' g', descend n h1 id off (default 0 (gn g1 !! take (S d) (path id))) d = Ok (0, b, off', h') /\ rep L h' B' i' /\
       qinv B' i' g' (above id (S d)) (Some id) /\ inserted id (S d) B1 B' g1 g' b off' /\ grows (Z.of_nat n + 1) i1 i') ->
  insertion L h B i g id off tb d (S n).
Proof.
  intros Hd R HO HL IH.
  destruct HO as (na & ret & b & buf & h1 & B1 & i1 & g1 & Ho & Hret & R1 & Q1 & Hg & Hb & Hgr & Hgb & Hgd & Hgn & Hkeep & HB1 & Href & Hbuf & HB10).
  destruct (IH h1 B1 i1 g1 R1 Q1) as (nb & off' & h2 & B2 & i2 & g2 & Hde & R2 & Q2 & I2 & Hgr2).
  { apply Hgn. intros Hx%(f_equal length). rewrite length_path_take in Hx by lia. cbn in Hx. lia. }
  { by eexists. }
  { done. }
  destruct (rep_room _ _ _ _ R) as [HL' _]. set (idx := get_index id (Z.of_nat d)).
  pose proof (get_index_range id (Z.of_nat d)) as Hidx. fold idx in Hidx.
  assert (Hps : take (S d) (path id) = take d (path id) ++ [idx]) by (apply path_take_S; lia).
  unfold descend in Hde. unfold insertion. cbn [do_insert_tree]. rewrite Ho, res_bind_ret.
  rewrite (proj2 (Z.ltb_ge ret 0)) by done. rewrite andb_false_r. cbv zeta. fold idx. rewrite (ref_Ok buf idx), res_bind_ret by done.
  rewrite (Href idx Hidx), <- Hps, Hde, res_bind_ret. change (0 <=? 0) with true. change (0 <? 0) with false. rewrite andb_true_r, andb_false_r.
  assert (Hch : forall j, j <> idx -> gn g2 !! (take d (path id) ++ [j]) = gn g1 !! (take d (path id) ++ [j])) by (intros j; by apply (inserted_sibling id d B1 B2 g1 g2 nb off')).
  pose proof (in_child _ _ _ _ _ _ _ _ I2) as Hnb. rewrite Hps in Hnb.
  pose proof (in_keep _ _ _ _ _ _ _ _ I2 _ _ Hgb) as Hgb2.
  destruct (gn g1 !! take (S d) (path id)) as [c|] eqn:Hc; cbn [default].
  - pose proof (to_pos _ _ _ (qi_tree _ _ _ _ _ Q1) _ _ Hc) as Hcr. unfold Datatypes.id. rewrite (proj2 (Z.eqb_neq _ _)) by lia. cbn [andb].
    assert (HB2 : B2 b = buf).
    { rewrite (in_blocks _ _ _ _ _ _ _ _ I2 (take d (path id)) b Hgb); [|rewrite length_path_take; lia|exists d; split; [lia|done]].
      destruct Hbuf as [->|Hz]; [done|]. specialize (Hz idx Hidx). rewrite Href, <- Hps, Hc in Hz by done. cbn in Hz. unfold Datatypes.id in Hz. lia. }
    exists b, off', h2, B2, i2, g2. split; [done|]. split; [done|]. split; [|split].
    + apply (qinv_ext (upd B2 b (B2 b))); [intros x; unfold upd; by destruct (Z.eqb_spec x b) as [->|]|]. apply close_inv; try done.
      intros j Hj. rewrite HB2, Href by done. f_equal. destruct (decide (j = idx)) as [->|Hne]; [|by rewrite Hch].
      rewrite <- Hps, Hc. symmetry. exact (in_keep _ _ _ _ _ _ _ _ I2 _ _ Hc).
    + by apply (inserted_up id d B B1 B2 B2 g g1 g2 b nb off' i1 _ Hd I2 Q1).
    + unfold grows in *. lia.
  - cbn [Z.eqb andb]. rewrite (set_ref_Ok buf idx), res_bind_ret by done. pose proof (to_pos _ _ _ (qi_tree _ _ _ _ _ Q2) _ _ Hnb) as Hnbr.
    destruct (write_blk_eq L h2 B2 i2 b (splice buf (4 * idx) (le_bytes 4 nb)) R2) as (h3 & -> & R3 & _); [unfold grows in *; lia|by apply good_ref|].
    rewrite res_bind_ret. do 6 eexists. split; [reflexivity|]. split; [exact R3|]. split; [|split].
    + apply close_inv; [done|done|done|]. intros j Hj. destruct (decide (j = idx)) as [->|Hne].
      * rewrite ref_set, Hnb by (done || unfold is_u32; lia). done.
      * by rewrite ref_set_ne, Href, Hch by done.
    + apply (inserted_up id d B B1 B2 _ g g1 g2 b nb off' i1 _ Hd I2 Q1); try done. intros x Hx. by apply upd_ne.
    + unfold grows in *. lia.
Qed.

Lemma insert_spec n : forall d L h B i g id off tb, (n + d = 4)%nat -> (1 <= n)%nat -> rep L h B i -> opened L h B i g id d tb ->
  is_u32 id -> gn g !! path id = None -> dqi_blocks i + Z.of_nat n + 1 <= L ->
  insertion L h B i g id off tb d n.
Proof.
  induction n as [|n IH]; intros d L h B i g id off tb Hnd Hn R HO Hi Hnone HL; [lia|].
  apply insert_step; try done; [lia|lia|]. intros h1 B1 i1 g1 R1 Q1 Hp1 Hd1 Hgr. unfold descend, QT_TREEDEPTH.
  destruct (decide (n = 0)%nat) as [->|Hn0].
  - assert (d = 3%nat) as -> by lia. cbn [Z.of_nat Pos.of_succ_nat Pos.succ Z.eqb Z.sub Z.opp Z.add Z.pos_sub Pos.pred_double Pos.eqb].
    destruct (find_free_spec L h1 B1 i1 g1 (above id 4) id off R1 Q1) as (b & off' & h' & B' & i' & g' & -> & R' & Q' & I' & Hgr');
      [done|congruence|by exists 3%nat; split; [lia|]|done|unfold grows in *; lia|].
    rewrite res_bind_ret. do 6 eexists. split; [reflexivity|]. split; [exact R'|]. split; [exact Q'|]. split; [exact I'|exact Hgr'].
  - rewrite (proj2 (Z.eqb_neq _ _)) by lia. replace (Z.of_nat d + 1) with (Z.of_nat (S d)) by lia.
    apply IH; try done; [lia|lia| |congruence|unfold grows in *; lia].
    apply open_spec; try done; try (unfold grows in *; lia). by intros k [= <-].
Qed.

(** ** Looking an id up *)

Definition none (p : list Z) : Prop := False.

Lemma find_block_spec L h B i g X id b j e : rep L h B i -> qinv B i g X None -> dqi_blocks i <= L -> holds (gd g) id b j e ->
  find_block_dqentry h id b = Ok (1024 * b + 16 + 72 * Z.of_nat j).
Proof.
  intros R Q HL Hh. destruct (rep_room _ _ _ _ R) as [HL' _]. pose proof Hh as (s & Hs & Hj).
  pose proof (di_data _ _ _ (qi_data _ _ _ _ _ Q) b s Hs) as Dok. destruct (pl_datas _ _ (qi_place _ _ _ _ _ Q) b) as [Hb _]; [by eexists|].
  pose proof (lookup_lt_Some _ _ _ Hj) as Hlt. rewrite (do_len _ _ Dok) in Hlt.
  pose proof (data_blocks _ _ _ _ _ b Q ltac:(by eexists)) as H1b.
  unfold find_block_dqentry. rewrite (read_blk_eq L h B i b R), res_bind_ret, (rep_info _ _ _ _ R) by lia.
  rewrite (dqstr_14 i), res_bind_ret by apply R. change (find_slot (Z.to_nat 14) i (B b) id 0) with (find_slot 14 i (B b) id (Z.of_nat 0)).
  rewrite (find_slot_spec i (B b) id j 14 0), res_bind_ret; [|apply (rep_good L h B i b R); lia|apply R|done|lia|].
  - rewrite shift_blk, (rep_size _ _ _ _ R) by lia. unfold SIZE_OF_DQDBHEADER. f_equal. lia.
  - exact (only_slot B (gd g) id b j e (qi_data _ _ _ _ _ Q) Hh).
Qed.

Lemma find_tree_spec L h B i g id n : forall d b, rep L h B i -> qinv B i g none None -> 2 < dqi_blocks i <= L ->
  (n + d = 4)%nat -> (1 <= n)%nat -> gn g !! take d (path id) = Some b ->
  find_tree_dqentry n h id b (Z.of_nat d) = match gn g !! path id with Some c => find_block_dqentry h id c | None => Ok 0 end.
Proof.
  induction n as [|n IH]; intros d b R Q HL Hnd Hn Hb; [lia|]. destruct (rep_room _ _ _ _ R) as [HL' _].
  destruct (pl_nodes _ _ (qi_place _ _ _ _ _ Q) _ _ Hb) as (Hbr & _); [rewrite length_path_take; lia|].
  pose proof (get_index_range id (Z.of_nat d)) as Hidx.
  cbn [find_tree_dqentry]. rewrite (read_blk_eq L h B i b R), res_bind_ret by lia.
  rewrite ref_Ok, res_bind_ret by (done || (apply (rep_good L h B i b R); lia)).
  rewrite (to_refs _ _ _ (qi_tree _ _ _ _ _ Q) _ _ _ Hb), <- path_take_S by (done || lia || (rewrite length_path_take; lia) || intros []).
  destruct (gn g !! take (S d) (path id)) as [c|] eqn:Hc; cbn [default].
  - pose proof (to_pos _ _ _ (qi_tree _ _ _ _ _ Q) _ _ Hc) as Hcr. unfold Datatypes.id. rewrite (proj2 (Z.eqb_neq _ _)) by lia.
    unfold QT_TREEDEPTH. destruct (Z.ltb_spec (Z.of_nat d) (4 - 1)).
    + replace (Z.of_nat d + 1) with (Z.of_nat (S d)) by lia. apply IH; try done; lia.
    + replace (S d) with 4%nat in Hc by lia. change (take 4 (path id)) with (path id) in Hc. by rewrite Hc.
  - cbn [Z.eqb]. destruct (gn g !! path id) as [c|] eqn:Hp; [|done].
    destruct (path_prefix B (gn g) none id (S d)) as [x Hx]; [apply Q|lia|by eexists|congruence].
Qed.

Lemma find_dqentry_held L h B i g id b j e : rep L h B i -> qinv B i g none None -> 2 < dqi_blocks i <= L -> is_u32 id ->
  holds (gd g) id b j e -> find_dqentry h id = Ok (1024 * b + 16 + 72 * Z.of_nat j).
Proof.
  intros R Q HL Hi Hh. unfold find_dqentry. change 0 with (Z.of_nat 0) at 1. rewrite (find_tree_spec L h B i g id 4 0 QT_TREEOFF R Q HL); [|done|lia|apply Q].
  rewrite (proj2 (qi_where _ _ _ _ _ Q id b Hi)) by eauto. apply (find_block_spec L h B i g none id b j e); (done || lia).
Qed.
Lemma find_dqentry_new L h B i id : rep L h B i -> qf_len (qh_qf h) <= 1024 -> find_dqentry h id = Ok 0.
Proof.
  intros R Hlen. unfold find_dqentry. cbn [find_tree_dqentry]. rewrite (read_root_new L h B i R Hlen), res_bind_ret.
  rewrite ref_Ok, res_bind_ret by (apply good_empty || apply get_index_range). by rewrite ref_empty by apply get_index_range.
Qed.
Lemma find_dqentry_none L h B i g id : rep L h B i -> qinv B i g none None -> 2 < dqi_blocks i <= L -> gn g !! path id = None ->
  find_dqentry h id = Ok 0.
Proof.
  intros R Q HL Hn. unfold find_dqentry. change 0 with (Z.of_nat 0) at 1. rewrite (find_tree_spec L h B i g id 4 0 QT_TREEOFF R Q HL); [|done|lia|apply Q].
  by rewrite Hn.
Qed.

(** ** Giving blocks back *)

Lemma put_free_spec L h B i buf b : rep L h B i -> good_buf buf -> 0 <= b < L ->
  exists h', put_free_dqblk h buf b = Ok h' /\
    rep L h' (upd B b (set_ent (set_prev (set_next buf (dqi_free_blk i)) 0) 0)) (set_free_blk i b).
Proof.
  intros R Hg Hb. unfold put_free_dqblk. rewrite (rep_info _ _ _ _ R).
  rewrite set_next_Ok, res_bind_ret, set_prev_Ok, res_bind_ret, set_ent_Ok, res_bind_ret by auto with quota.
  destruct (write_blk_eq L (with_info h (set_free_blk i b)) B (set_free_blk i b) b
    (set_ent (set_prev (set_next buf (dqi_free_blk i)) 0) 0)) as (h' & -> & R' & _); [eapply rep_with_info; [exact R|apply R|done]|done|auto with quota|].
  rewrite res_bind_ret. by exists h'.
Qed.


(** ** Emptying a slot *)

Definition freed L h B i g (X : list Z -> Prop) id off b : Prop :=
  exists h' B' i' g', free_dqentry h off b = Ok h' /\ rep L h' B' i' /\ qinv B' i' g' X None /\ removed id 4 B B' g g' 0 /\
    dqi_blocks i' = dqi_blocks i.

Lemma free_last L h B i g X id b s j e off : rep L h B i -> qinv B i g X None -> dqi_blocks i <= L -> is_u32 id ->
  X (take 3 (path id)) -> gd g !! b = Some s -> s !! j = Some (Some (id, e)) -> cnt s = 1%nat -> freed L h B i g X id off b.
Proof.
  intros R Q HL Hi HX Hb Hj Hc. destruct (rep_room _ _ _ _ R) as [HL' _]. pose proof (qi_part _ _ _ _ _ Q) as [Ph Pd Pn Pi].
  pose proof (data_blocks _ _ _ _ _ b Q ltac:(by eexists)) as H1b.
  assert (Hbe : b ∈ ge g) by (apply Pi; exists s; split; [done|lia]).
  apply list_elem_of_split in Hbe as (l1 & l2 & Hge). rewrite Hge in *.
  assert (Hin : forall x, x ∈ l1 ++ b :: l2 -> 1 <= x < dqi_blocks i /\ x ∉ gf g).
  { intros x Hx. rewrite <- Hge in Hx. by destruct (part_in B i g X None x Q Hx) as (? & _ & _ & _ & ?). }
  destruct (Hin b) as [Hbr Hbf]; [apply elem_of_app; right; left|].
  assert (Hg : good_buf (B b)) by (apply (rep_good L h B i b R); lia).
  assert (Hbl : b ∉ l1 ++ l2).
  { apply NoDup_app in Pn as (_ & Hx & [Hy _]%NoDup_cons). intros [Hb1|Hb2]%elem_of_app; [|done]. apply (Hx b Hb1). left. }
  pose proof (do_cnt _ _ (di_data _ _ _ (qi_data _ _ _ _ _ Q) b s Hb)) as Hent. rewrite Hc in Hent.
  destruct (remove_free_spec L h B i b l1 l2 (set_ent (B b) 0) R Ph Pd Pn) as (h1 & B1 & Hrm & R1 & HB1b & Hd1 & Hsame & HB1);
    [lia| |auto with quota|by autorewrite with quota|by autorewrite with quota|].
  { rewrite Forall_forall. intros x Hx. by destruct (Hin x Hx). }
  cbv zeta in *. set (buf1 := set_next (set_prev (set_ent (B b) 0) 0) 0) in *.
  destruct (put_free_spec L h1 B1 _ buf1 b R1) as (h2 & Hpf & R2); [subst buf1; auto with quota|lia|].
  exists h2, (upd B1 b (set_ent (set_prev (set_next buf1 (dqi_free_blk i)) 0) 0)), (set_free_blk (set_free_entry i (hd 0 (l1 ++ l2))) b), (drop_data g id b (l1 ++ l2)).
  split; [|split; [exact R2|]].
  - unfold free_dqentry. rewrite (read_blk_eq L h B i b R), res_bind_ret, entf_Ok, res_bind_ret, Hent by (done || lia).
    change (u16 (Z.of_nat 1 - 1)) with 0. rewrite set_ent_Ok, res_bind_ret by done. cbn [Z.eqb]. by rewrite Hrm, res_bind_ret.
  - assert (HBn : forall p c, gn g !! p = Some c -> (length p <= 3)%nat -> c <> b /\ B1 c = B c).
    { intros p c Hp Hl. pose proof (node_not_part _ _ _ _ _ _ _ Q Hp Hl) as Hx. rewrite Hge in Hx.
      split; [intros ->; apply Hx, elem_of_app; right; left|by apply HB1]. }
    apply and_assoc. split; [|done]. apply (drop_inv B _ i _ g X id b s j e); try done.
    + intros p c Hp Hl. destruct (HBn p c Hp Hl). by rewrite upd_ne.
    + intros c Hcd Hne. rewrite upd_ne by done. destruct (decide (c ∈ l1 ++ l2)) as [Hcl|Hcl]; [by apply Hsame|].
      rewrite HB1; [done|]. intros [Hx|[Hx|Hx]%elem_of_cons]%elem_of_app; [|done|]; apply Hcl, elem_of_app; tauto.
    + cbn [dqi_free_blk set_free_blk]. apply (put_free_ok B1 (set_free_entry i (hd 0 (l1 ++ l2)))); [|done|subst buf1; auto with quota|].
      * eapply free_ok_ext; [|apply Q]. intros c Hcf. apply HB1. intros Hx. by destruct (Hin c Hx).
      * apply (free_head_u32 B i g X None Q). lia.
    + constructor; [done| |by apply NoDup_app in Pn as (? & ? & [? ?]%NoDup_cons); apply NoDup_app; set_solver|].
      * eapply dll_ext; [|exact Hd1]. intros x Hx. rewrite upd_ne; [done|]. by intros ->.
      * intros c. destruct (decide (c = b)) as [->|Hne].
        -- rewrite lookup_delete_eq. split; [done|by intros (? & ? & _)].
        -- rewrite lookup_delete_ne, <- Pi by done. rewrite !elem_of_app, elem_of_cons. tauto.
    + rewrite upd_ne by lia. apply HB1. intros Hx. destruct (Hin 0 Hx). lia.
Qed.

(** The block without the entry. *)
Definition cleared (buf : list Z) (s : slots) (j : nat) : list Z :=
  splice (set_ent buf (Z.of_nat (cnt s) - 1)) (16 + 72 * Z.of_nat j) zeros72.

Lemma cleared_spec buf s j : good_buf buf -> (j < 14)%nat -> (1 <= cnt s <= 14)%nat ->
  good_buf (cleared buf s j) /\ entf (cleared buf s j) = Z.of_nat (cnt s) - 1 /\ slot (cleared buf s j) j = zeros72 /\
  (forall k, k <> j -> slot (cleared buf s j) k = slot buf k) /\ prevf (cleared buf s j) = prevf buf /\ nextf (cleared buf s j) = nextf buf.
Proof.
  intros Hg Hj Hc. assert (Hg' : good_buf (set_ent buf (Z.of_nat (cnt s) - 1))) by auto with quota. pose proof Hg' as [Hl _].
  unfold cleared. split_and!.
  - apply good_splice; [done|lia|change (length zeros72) with 72%nat; lia|]. apply Forall_replicate. unfold is_u8. lia.
  - unfold entf, ofs_dqdh_entries. rewrite getv_set_ne by (change (length zeros72) with 72%nat; lia).
    fold ofs_dqdh_entries. apply entf_set_ent; [done|u_range].
  - by apply slot_splice_eq.
  - intros k Hk. rewrite slot_splice_ne by (done || change (length zeros72) with 72%nat; lia). by apply slot_set_ent.
  - unfold prevf, ofs_dqdh_prev_free. rewrite getv_set_ne by (change (length zeros72) with 72%nat; lia). by apply prevf_set_ent.
  - unfold nextf, ofs_dqdh_next_free. rewrite getv_set_ne by (change (length zeros72) with 72%nat; lia). by apply nextf_set_ent.
Qed.

Lemma land_off b j : 0 <= b -> (j < 14)%nat -> Z.land (1024 * b + 16 + 72 * Z.of_nat j) (QT_BLKSIZE - 1) = 16 + 72 * Z.of_nat j.
Proof.
  intros Hb Hj. change (QT_BLKSIZE - 1) with (Z.ones 10). rewrite Z.land_ones by lia. change (2 ^ 10) with 1024.
  symmetry. apply (Z.mod_unique _ _ b); lia.
Qed.

(** [free_dqentry] on a block that keeps entries. *)
Lemma free_dqentry_eq L h B i b s j : rep L h B i -> 2 < dqi_blocks i <= L -> 1 <= b < dqi_blocks i -> data_ok (B b) s -> (j < 14)%nat -> (2 <= cnt s)%nat ->
  free_dqentry h (1024 * b + 16 + 72 * Z.of_nat j) b =
    if decide (cnt s = 14)%nat then insert_free_dqentry h (cleared (B b) s j) b
    else '(_, h) ← write_blk h b (cleared (B b) s j); Ok h.
Proof.
  intros R H2 Hb Dok Hj Hc. destruct (rep_room _ _ _ _ R) as [HL' _]. assert (Hg : good_buf (B b)) by (apply (rep_good L h B i b R); lia).
  pose proof (cnt_le s) as Hle. rewrite (do_len _ _ Dok) in Hle. unfold free_dqentry.
  rewrite (read_blk_eq L h B i b R), res_bind_ret, entf_Ok, res_bind_ret, (do_cnt _ _ Dok) by (done || lia).
  rewrite u16_id by (unfold is_u16; lia). rewrite set_ent_Ok, res_bind_ret, (proj2 (Z.eqb_neq _ _)) by (done || lia).
  rewrite (rep_info _ _ _ _ R), (rep_size _ _ _ _ R), land_off by lia. change (replicate (Z.to_nat 72) 0) with zeros72.
  assert (Hg' : good_buf (set_ent (B b) (Z.of_nat (cnt s) - 1))) by auto with quota. destruct Hg' as [Hl _].
  rewrite wr_list_splice, res_bind_ret by (change (length zeros72) with 72%nat; lia). rewrite (dqstr_14 i), res_bind_ret by apply R.
  fold (cleared (B b) s j). case_decide as Hd.
  - by rewrite (proj2 (Z.eqb_eq _ _)) by lia.
  - by rewrite (proj2 (Z.eqb_neq _ _)) by lia.
Qed.

Lemma free_some L h B i g X id b s j e : rep L h B i -> qinv B i g X None -> dqi_blocks i <= L -> is_u32 id ->
  X (take 3 (path id)) -> gd g !! b = Some s -> s !! j = Some (Some (id, e)) -> (2 <= cnt s < 14)%nat ->
  freed L h B i g X id (1024 * b + 16 + 72 * Z.of_nat j) b.
Proof.
  intros R Q HL Hi HX Hb Hj Hc. destruct (rep_room _ _ _ _ R) as [HL' _].
  pose proof (di_data _ _ _ (qi_data _ _ _ _ _ Q) b s Hb) as Dok. destruct (pl_datas _ _ (qi_place _ _ _ _ _ Q) b) as [Hbr Hbf]; [by eexists|].
  pose proof (data_blocks _ _ _ _ _ b Q ltac:(by eexists)) as H1b.
  pose proof (lookup_lt_Some _ _ _ Hj) as Hlt. rewrite (do_len _ _ Dok) in Hlt.
  assert (Hg : good_buf (B b)) by (apply (rep_good L h B i b R); lia).
  destruct (cleared_spec (B b) s j Hg Hlt) as (Cg & Ce & Cs & Cn & Cp & Cx); [lia|].
  destruct (write_blk_eq L h B i b (cleared (B b) s j) R) as (h' & Hw & R' & _); [lia|done|].
  exists h', (upd B b (cleared (B b) s j)), i, (release g id b s j (ge g)). split; [|split; [exact R'|]].
  - rewrite (free_dqentry_eq L h B i b s j R) by (done || lia). rewrite decide_False by lia. by rewrite Hw, res_bind_ret.
  - apply and_assoc. split; [|done]. apply (release_inv B _ i _ g X id b s j e); try done; rewrite ?upd_eq; try done.
    + intros p c Hp Hl. apply upd_ne. intros ->. destruct (pl_nodes _ _ (qi_place _ _ _ _ _ Q) p b Hp Hl) as (_ & Hx & _). congruence.
    + intros c Hcf. apply upd_ne. by intros ->.
    + intros c _ Hne. by rewrite upd_ne.
    + destruct (qi_part _ _ _ _ _ Q) as [Ph Pd Pn Pi]. constructor; [done| |done|].
      * eapply dll_ext; [|exact Pd]. intros x _. unfold upd. by destruct (Z.eqb_spec x b) as [->|].
      * intros c. rewrite set_slot_room, Pi. case_decide as Hd; [|done]. subst c. pose proof (cnt_insert s j _ None Hj) as Hci. cbn [weight] in Hci.
        split; [intros _; lia|intros _; exists s; split; [done|lia]].
    + apply upd_ne. lia.
Qed.

Lemma insert_free_spec L h B i b l buf : rep L h B i -> dqi_free_entry i = hd 0 l -> dll B 0 l -> NoDup (b :: l) ->
  2 < dqi_blocks i <= L -> Forall (fun x => 1 <= x < dqi_blocks i) (b :: l) -> good_buf buf ->
  exists h' B', insert_free_dqentry h buf b = Ok h' /\ rep L h' B' (set_free_entry i b) /\ dll B' 0 (b :: l) /\
    B' b = set_prev (set_next buf (hd 0 l)) 0 /\ (forall x, x ∈ l -> same_data (B x) (B' x)) /\ (forall x, x ∉ b :: l -> B' x = B x).
Proof.
  intros R Hh Hd [Hbl Hnd]%NoDup_cons Hbk [Hb Hr]%Forall_cons Hg. destruct (rep_room _ _ _ _ R) as [HL' _].
  unfold insert_free_dqentry. rewrite (rep_info _ _ _ _ R), Hh.
  rewrite set_next_Ok, res_bind_ret, set_prev_Ok, res_bind_ret by auto with quota. set (buf' := set_prev _ _).
  assert (Hg' : good_buf buf') by (subst buf'; auto with quota).
  destruct (write_blk_eq L h B i b buf' R) as (h1 & -> & R1 & _); [lia|done|]. rewrite res_bind_ret. destruct l as [|a l].
  - cbn [hd Z.eqb negb]. rewrite res_bind_ret, (rep_info _ _ _ _ R1). do 2 eexists. split; [reflexivity|].
    split; [eapply rep_with_info; [exact R1|apply R|done]|]. cbn [dll]. rewrite upd_eq. subst buf'. cbn [hd] in *. split_and!; try (by autorewrite with quota).
    + by intros x Hx%not_elem_of_nil.
    + intros x Hx. apply upd_ne. intros ->. apply Hx. left.
  - apply Forall_cons in Hr as [Ha Hr]. apply NoDup_cons in Hnd as [Hal Hnd]. apply not_elem_of_cons in Hbl as [Hba Hbl].
    cbn [hd]. rewrite (proj2 (Z.eqb_neq _ _)) by lia. cbn [negb].
    destruct (relink_eq L h1 (upd B b buf') i a ofs_dqdh_prev_free b R1) as (h2 & -> & R2); [lia|lia|hdr; lia|].
    rewrite res_bind_ret, (rep_info _ _ _ _ R2). fold (set_prev (upd B b buf' a) b) in R2. rewrite (upd_ne B b buf' a) in R2 by done.
    assert (Hga : good_buf (B a)) by (apply (rep_good L h B i a R); lia).
    do 2 eexists. split; [reflexivity|]. split; [eapply rep_with_info; [exact R2|apply R|done]|]. cbn [dll] in *. destruct Hd as (H1 & H2 & H3).
    rewrite !upd_eq, (upd_ne _ a _ b), upd_eq by congruence. split_and!; try (subst buf'; cbn [hd]; by autorewrite with quota).
    + eapply dll_ext; [|exact H3]. intros x Hx. rewrite !upd_ne; [done|by intros ->|by intros ->].
    + intros x [->|Hx]%elem_of_cons.
      * rewrite upd_eq. split; [|intros k]; by autorewrite with quota.
      * rewrite !upd_ne; [done|by intros ->|by intros ->].
    + intros x [Hxb [Hxa Hx]%not_elem_of_cons]%not_elem_of_cons. by rewrite !upd_ne by done.
Qed.

Lemma free_full L h B i g X id b s j e : rep L h B i -> qinv B i g X None -> dqi_blocks i <= L -> is_u32 id ->
  X (take 3 (path id)) -> gd g !! b = Some s -> s !! j = Some (Some (id, e)) -> cnt s = 14%nat ->
  freed L h B i g X id (1024 * b + 16 + 72 * Z.of_nat j) b.
Proof.
  intros R Q HL Hi HX Hb Hj Hc. destruct (rep_room _ _ _ _ R) as [HL' _].
  pose proof (di_data _ _ _ (qi_data _ _ _ _ _ Q) b s Hb) as Dok. destruct (pl_datas _ _ (qi_place _ _ _ _ _ Q) b) as [Hbr Hbf]; [by eexists|].
  pose proof (data_blocks _ _ _ _ _ b Q ltac:(by eexists)) as H1b.
  pose proof (lookup_lt_Some _ _ _ Hj) as Hlt. rewrite (do_len _ _ Dok) in Hlt.
  assert (Hg : good_buf (B b)) by (apply (rep_good L h B i b R); lia).
  destruct (cleared_spec (B b) s j Hg Hlt) as (Cg & Ce & Cs & Cn & _); [lia|]. set (buf := cleared (B b) s j) in *.
  pose proof (qi_part _ _ _ _ _ Q) as [Ph Pd Pn Pi].
  assert (Hbl : b ∉ ge g) by (intros (t & Ht & Htc)%Pi; replace t with s in * by congruence; lia).
  assert (Hin : forall x, x ∈ b :: ge g -> 1 <= x < dqi_blocks i /\ (x ∉ gf g) /\ is_Some (gd g !! x)).
  { intros x [->|Hx]%elem_of_cons; [by eauto|]. destruct (part_in B i g X None x Q Hx) as (t & Ht & _ & _ & H1 & H2). by eauto. }
  assert (Hhu : is_u32 (hd 0 (ge g))).
  { destruct (ge g) as [|x l]; [unfold is_u32; cbn; lia|]. destruct (Hin x) as [Hx _]; [right; left|]. unfold is_u32. cbn. lia. }
  destruct (insert_free_spec L h B i b (ge g) buf R Ph Pd) as (h' & B' & Hif & R' & Hd' & HBb & Hsame & HB'); [by apply NoDup_cons|lia| |done|].
  { rewrite Forall_forall. intros x Hx. destruct (Hin x Hx). lia. }
  exists h', B', (set_free_entry i b), (release g id b s j (b :: ge g)). split; [|split; [exact R'|]].
  - rewrite (free_dqentry_eq L h B i b s j R) by (done || lia). by rewrite decide_True.
  - apply and_assoc. split; [|done]. apply (release_inv B _ i _ g X id b s j e); try done.
    + intros p c Hp Hl. apply HB'. intros (_ & _ & [t Ht])%Hin. destruct (pl_nodes _ _ (qi_place _ _ _ _ _ Q) p c Hp Hl) as (_ & Hx & _). congruence.
    + intros c Hcf. apply HB'. intros (_ & Hx & _)%Hin. done.
    + intros c Hcd Hne. destruct (decide (c ∈ ge g)) as [Hx|Hx]; [by apply Hsame|]. rewrite HB'; [done|]. by apply not_elem_of_cons.
    + rewrite HBb. by autorewrite with quota.
    + rewrite HBb. by autorewrite with quota.
    + intros k Hk. rewrite HBb. autorewrite with quota. by apply Cn.
    + constructor; [done|done|by apply NoDup_cons|]. intros c. rewrite set_slot_room, elem_of_cons, Pi.
      pose proof (cnt_insert s j _ None Hj) as Hci. cbn [weight] in Hci. case_decide as Hd; [|tauto]. subst c.
      split; [intros _; lia|by left].
    + apply HB'. intros Hx. destruct (Hin 0 Hx). lia.
Qed.

Lemma free_spec L h B i g X id b j e : rep L h B i -> qinv B i g X None -> dqi_blocks i <= L -> is_u32 id ->
  X (take 3 (path id)) -> holds (gd g) id b j e -> freed L h B i g X id (1024 * b + 16 + 72 * Z.of_nat j) b.
Proof.
  intros R Q HL Hi HX (s & Hs & Hj). pose proof (cnt_pos s j _ Hj) as Hp. pose proof (cnt_le s) as Hle.
  rewrite (do_len _ _ (di_data _ _ _ (qi_data _ _ _ _ _ Q) b s Hs)) in Hle.
  destruct (decide (cnt s = 1)%nat); [by apply (free_last L h B i g X id b s j e)|].
  destruct (decide (cnt s = 14)%nat); [by apply (free_full L h B i g X id b s j e)|].
  apply (free_some L h B i g X id b s j e); try done. lia.
Qed.

(** ** The tree blocks above *)

Definition removal L h B i g id off b d n : Prop :=
  exists b' h' B' i' g', remove_tree n h id off b (Z.of_nat d) = Ok (b', h') /\ rep L h' B' i' /\ qinv B' i' g' (above id d) None /\
    removed id d B B' g g' b' /\ dqi_blocks i' = dqi_blocks i /\ (b' = 0 \/ b' = b).

Definition ascend n h id off nb (d : nat) : res (Z * quota_handle F) :=
  if Z.of_nat d =? QT_TREEDEPTH - 1 then free_dqentry h off nb ≫= (fun h => Ok (0, h)) else remove_tree n h id off nb (Z.of_nat d + 1).

Lemma qinv_weaken B i g (X X' : list Z -> Prop) pend : (forall p, X p -> X' p) -> qinv B i g X pend -> qinv B i g X' pend.
Proof. intros HX [T D P Fr Pl W]. constructor; try done. by eapply tree_ok_weaken. Qed.

Lemma remove_step n d L h B i g id off b nb : (d <= 3)%nat -> rep L h B i -> qinv B i g (above id d) None -> 2 < dqi_blocks i <= L ->
  gn g !! take d (path id) = Some b -> gn g !! take (S d) (path id) = Some nb ->
  (exists b2 h2 B2 i2 g2, ascend n h id off nb d = Ok (b2, h2) /\ rep L h2 B2 i2 /\ qinv B2 i2 g2 (above id (S d)) None /\
     removed id (S d) B B2 g g2 b2 /\ dqi_blocks i2 = dqi_blocks i /\ (b2 = 0 \/ b2 = nb)) ->
  removal L h B i g id off b d (S n).
Proof.
  intros Hd R Q HL Hb Hnb (b2 & h2 & B2 & i2 & g2 & Ha & R2 & Q2 & M2 & Hbl2 & Hb2). destruct (rep_room _ _ _ _ R) as [HL' _].
  destruct (pl_nodes _ _ (qi_place _ _ _ _ _ Q) _ _ Hb) as (Hbr & _); [rewrite length_path_take; lia|].
  set (idx := get_index id (Z.of_nat d)). pose proof (get_index_range id (Z.of_nat d)) as Hidx. fold idx in Hidx.
  assert (Hps : take (S d) (path id) = take d (path id) ++ [idx]) by (apply path_take_S; lia).
  assert (Hg : good_buf (B b)) by (apply (rep_good L h B i b R); lia).
  assert (Href : forall j, 0 <= j < 256 -> ref (B b) j = default 0 (gn g !! (take d (path id) ++ [j]))).
  { intros j Hj. apply (to_refs _ _ _ (qi_tree _ _ _ _ _ Q)); try done; [rewrite length_path_take; lia|].
    intros (k & Hk & Hx). apply path_take_inj in Hx; lia. }
  unfold ascend in Ha. unfold removal. cbn [remove_tree]. rewrite (read_blk_eq L h B i b R), res_bind_ret by lia. cbv zeta. fold idx.
  rewrite (ref_Ok (B b) idx), res_bind_ret, (Href idx Hidx), <- Hps, Hnb by done. cbn [default]. unfold Datatypes.id. rewrite Ha, res_bind_ret.
  assert (Hb2g : gn g2 !! take d (path id) = Some b).
  { rewrite (rm_gn _ _ _ _ _ _ _ M2); [done|]. intros k Hk Hx. apply path_take_inj in Hx; lia. }
  assert (Hch : forall j, j <> idx -> gn g2 !! (take d (path id) ++ [j]) = gn g !! (take d (path id) ++ [j])) by (intros j; by apply (removed_sibling id d B B2 g g2 b2)).
  pose proof (rm_child _ _ _ _ _ _ _ M2) as Hch2. rewrite Hps in Hch2.
  destruct (Z.eqb_spec b2 0) as [Hz|Hz].
  - set (buf := splice (B b) (4 * idx) (le_bytes 4 0)). rewrite (set_ref_Ok (B b) idx 0 Hg Hidx), res_bind_ret. fold buf.
    assert (Hgb : good_buf buf) by (by apply good_ref).
    assert (Href2 : forall j, 0 <= j < 256 -> ref buf j = default 0 (gn g2 !! (take d (path id) ++ [j]))).
    { intros j Hj. subst buf. destruct (decide (j = idx)) as [->|Hne]; [rewrite ref_set, Hch2 by (done || unfold is_u32; lia); done|].
      by rewrite ref_set_ne, Href, Hch by done. }
    rewrite (entry_unused_eq (Z.to_nat QT_BLKSIZE) buf 0), res_bind_ret, drop_0 by (try destruct Hgb as [-> _]; done).
    destruct (bool_decide _ && negb (b =? QT_TREEOFF)) eqn:He.
    + apply andb_prop in He as [He Hroot]. apply bool_decide_eq_true in He. apply negb_true_iff, Z.eqb_neq in Hroot.
      destruct (put_free_spec L h2 B2 i2 buf b R2 Hgb) as (h3 & -> & R3); [lia|]. rewrite res_bind_ret.
      exists 0, h3. do 3 eexists. split; [reflexivity|]. split; [exact R3|].
      apply and_assoc. split; [|split; [exact Hbl2|by left]]. apply (drop_node B B2 i2 g g2 id d b buf b2); try done; [lia|].
      intros j. exact (no_children B2 (gn g2) _ (take d (path id)) j buf Href2 He (qi_tree _ _ _ _ _ Q2)).
    + destruct (write_blk_eq L h2 B2 i2 b buf R2) as (h3 & -> & R3 & _); [lia|done|]. rewrite res_bind_ret.
      exists b, h3, (upd B2 b buf), i2, g2. split; [done|]. split; [exact R3|]. split; [by apply close_inv|].
      split; [|split; [done|by right]]. apply (removed_up id d B B2 _ g g2 b b2 i _ Hd M2 Q Hb). intros c Hc. by apply upd_ne.
  - exists b, h2, B2, i2, g2. split; [done|]. split; [done|]. split; [|split; [|split; [done|by right]]].
    + apply (qinv_ext (upd B2 b (B2 b))); [intros x; unfold upd; by destruct (Z.eqb_spec x b) as [->|]|]. apply close_inv; try done.
      rewrite (rm_blocks _ _ _ _ _ _ _ M2 (take d (path id)) b Hb); [|rewrite length_path_take; lia|exists d; split; [lia|done]].
      intros j Hj. rewrite Href by done. f_equal. destruct (decide (j = idx)) as [->|Hne]; [by rewrite Hch2|by rewrite Hch].
    + by apply (removed_up id d B B2 _ g g2 b b2 i _ Hd M2 Q Hb).
Qed.

Lemma remove_spec n : forall d L h B i g id b c j e, (n + d = 4)%nat -> (1 <= n)%nat -> rep L h B i -> qinv B i g (above id d) None ->
  dqi_blocks i <= L -> is_u32 id -> holds (gd g) id c j e -> gn g !! take d (path id) = Some b ->
  removal L h B i g id (1024 * c + 16 + 72 * Z.of_nat j) b d n.
Proof.
  induction n as [|n IH]; intros d L h B i g id b c j e Hnd Hn R Q HL Hi Hh Hb; [lia|].
  assert (Hp : gn g !! path id = Some c) by (apply Q; eauto).
  destruct (path_prefix B (gn g) _ id (S d) (qi_tree _ _ _ _ _ Q)) as [nb Hnb]; [lia|by eexists|].
  assert (1 < c < dqi_blocks i) by (apply (data_blocks _ _ _ _ _ c Q); destruct Hh as (? & ? & _); by eexists).
  apply (remove_step n d L h B i g id _ b nb); try done; [lia|lia|]. unfold ascend, QT_TREEDEPTH.
  pose proof (qinv_weaken B i g _ _ None (above_S id d) Q) as Q'. destruct (decide (n = 0)%nat) as [->|Hn0].
  - assert (d = 3%nat) as -> by lia. replace nb with c in * by (change (take 4 (path id)) with (path id) in Hnb; congruence).
    destruct (free_spec L h B i g (above id 4) id c j e) as (h' & B' & i' & g' & Hf & R' & Q2 & M' & Hbl); try done; [exists 3%nat; split; [lia|done]|].
    exists 0, h', B', i', g'. split; [|by split_and!; try done; left]. change (Z.of_nat 3 =? 4 - 1) with true. cbn iota. by rewrite Hf, res_bind_ret.
  - rewrite (proj2 (Z.eqb_neq _ _)) by lia. replace (Z.of_nat d + 1) with (Z.of_nat (S d)) by lia.
    apply (IH (S d) L h B i g id nb c j e); try done; lia.
Qed.

(** ** Writing an entry *)

Lemma write_entry_eq L h B i b j e : rep L h B i -> 1 <= b < L -> (j < 14)%nat -> length e = 72%nat -> bytes e ->
  exists f, qf_write (qh_qf h) (1024 * b + 16 + 72 * Z.of_nat j) e = Ok (72, f) /\
    rep L (with_qf h f) (upd B b (splice (B b) (16 + 72 * Z.of_nat j) e)) i.
Proof.
  intros R Hb Hj He Hby. destruct (rep_room _ _ _ _ R) as [HL Hroom]. assert (Hg : good_buf (B b)) by (apply (rep_good L h B i b R); lia).
  destruct (qf_write_ok (qh_qf h) (1024 * b + 16 + 72 * Z.of_nat j) e) as (f & Hw & Hr & Hn & Hok & Hf); [apply R|done|lia|rewrite He; lia|rewrite He; lia|].
  rewrite He in Hw, Hf. exists f. split; [exact Hw|]. constructor; [apply R|apply R|cbn; lia|cbn; destruct (rep_len _ _ _ _ R); [by left|right; lia]|destruct (rep_ok _ _ _ _ R) as [Hk Hk']; cbn; split; [exact Hok|lia]|]. intros x Hx. cbn [with_qf qh_qf].
  rewrite <- (rep_blk _ _ _ _ R b) in * by lia. apply list_eq. intros k. destruct (decide (k < 1024)%nat) as [Hk|Hk].
  - rewrite blk_of_lookup, Hf by done. unfold upd. destruct (Z.eqb_spec x b) as [->|Hne].
    + rewrite lookup_splice by (destruct Hg; lia). rewrite blk_of_lookup by done.
      destruct (Z.leb_spec (1024 * b + 16 + 72 * Z.of_nat j) (1024 * b + Z.of_nat k)), (Z.ltb_spec (1024 * b + Z.of_nat k) (1024 * b + 16 + 72 * Z.of_nat j + Z.of_nat 72)); cbn [andb]; case_decide; try lia; try done.
      replace (Z.to_nat (1024 * b + Z.of_nat k - (1024 * b + 16 + 72 * Z.of_nat j))) with (k - Z.to_nat (16 + 72 * Z.of_nat j))%nat by lia.
      by destruct (lookup_lt_is_Some_2 e (k - Z.to_nat (16 + 72 * Z.of_nat j))) as [y ->]; [lia|].
    + rewrite <- (rep_blk _ _ _ _ R), blk_of_lookup by done.
      destruct (Z.leb_spec (1024 * b + 16 + 72 * Z.of_nat j) (1024 * x + Z.of_nat k)), (Z.ltb_spec (1024 * x + Z.of_nat k) (1024 * b + 16 + 72 * Z.of_nat j + Z.of_nat 72)); cbn [andb]; try done. lia.
  - rewrite (lookup_ge_None_2 (blk_of f x)) by (destruct (blk_of_good f x); lia). symmetry. apply lookup_ge_None_2.
    unfold upd. destruct (x =? b); [rewrite length_splice; destruct Hg; lia|]. rewrite <- (rep_blk _ _ _ _ R) by done. destruct (blk_of_good (qh_qf h) x). lia.
Qed.
End Operations.
