(* ===== verification/QuotaV2.v ===== *)
(** Quota files as a whole: the format v2 (fsck/quotaio_v2.c), opening and closing
    (fsck/quotaio.c) and the scan of all entries (fsck/quotaio_tree.c).

    The file behind a handle is an inode, reached through [f2fs_read], [f2fs_write],
    [f2fs_quota_size] and [f2fs_filesize_update] of fsck/segment.c: the class
    [InodeFile]. *)
From Stdlib Require Import ZArith Lia List Bool.
From stdpp Require Import base numbers list gmap.
From S2P Require Import Prelude Codec Bits Quota.

(** * The inode *)

Class InodeFile (D : Type) := {
  f2fs_read : D -> Z -> Z -> res (list Z);
  f2fs_write : D -> Z -> list Z -> res (Z * D);
  f2fs_quota_size : D -> res Z;
  f2fs_filesize_update : D -> Z -> res D;
}.

(** A file is a sequence of bytes of which the first [inode_size] can be read; the ones
    beyond are what the blocks of the file hold there, and a write beyond the size makes
    them readable. Writes up to [inode_room] succeed. Reads stay in one block of 4096
    bytes. *)
Class InodeFileLaws (D : Type) `{InodeFile D} := {
  inode_byte : D -> Z -> Z;
  inode_size : D -> Z;
  inode_room : D -> Z;
  inode_ok : D -> Prop;
  inode_byte_range : forall f x, is_u8 (inode_byte f x);
  f2fs_quota_size_ok : forall f, inode_ok f -> f2fs_quota_size f = Ok (inode_size f);
  f2fs_read_ok : forall f ofs n, inode_ok f -> 0 <= ofs < 2 ^ 32 -> 0 < n -> ofs / 4096 = (ofs + n - 1) / 4096 ->
    exists bs, f2fs_read f ofs n = Ok bs /\ Z.of_nat (length bs) = Z.max 0 (Z.min n (inode_size f - ofs)) /\
    forall i x, bs !! i = Some x -> x = inode_byte f (ofs + Z.of_nat i);
  f2fs_write_ok : forall f ofs bs, inode_ok f -> bytes bs -> 0 <= ofs -> 0 < Z.of_nat (length bs) ->
    ofs + Z.of_nat (length bs) <= inode_room f ->
    exists f', f2fs_write f ofs bs = Ok (Z.of_nat (length bs), f') /\ inode_room f' = inode_room f /\
    inode_size f' = Z.max (inode_size f) (ofs + Z.of_nat (length bs)) /\ inode_ok f' /\
    forall x, inode_byte f' x = if (ofs <=? x) && (x <? ofs + Z.of_nat (length bs))
                                then default 0 (bs !! Z.to_nat (x - ofs)) else inode_byte f x;
  f2fs_filesize_update_ok : forall f n, inode_ok f -> 0 <= n <= inode_room f ->
    exists f', f2fs_filesize_update f n = Ok f' /\ inode_size f' = n /\ inode_room f' = inode_room f /\ inode_ok f' /\
    forall x, inode_byte f' x = inode_byte f x;
}.

(** [struct quota_file]; the member [filesize] is [qf_size]. *)
Record quota_file (D : Type) := { qf_data : D; qf_size : Z }.
Arguments qf_data {D}.
Arguments qf_size {D}.

Section Nomount.
Context {D : Type} `{InodeFile D}.

Definition quota_write_nomount (qf : quota_file D) (offset : Z) (buf : list Z) : res (Z * quota_file D) :=
  '(written, d) ← f2fs_write (qf_data qf) offset buf;
  let size := if qf_size qf <? offset + written then offset + written else qf_size qf in
  Ok (if negb (written =? Z.of_nat (length buf)) then u32 (- EIO) else written, {| qf_data := d; qf_size := size |}).

Definition quota_read_nomount (qf : quota_file D) (offset size : Z) : res (list Z) := f2fs_read (qf_data qf) offset size.

(** The functions [quota_file_open] and [quota_file_create] put in the handle. *)
#[export] Instance nomount_file : QuotaFile (quota_file D) := {
  qf_read := quota_read_nomount;
  qf_write := quota_write_nomount;
}.
End Nomount.

(** * The format *)

Definition V2_DQINFOOFF : Z := 8.
Definition V2_VERSION : Z := 1.
Definition V2_DQF_MASK : Z := 0.
Definition SIZE_OF_DQHEADER : Z := 8.
Definition SIZE_OF_DQINFO : Z := 24.
Definition QFMT_VFS_V1 : Z := 4.
Definition MAX_DQ_TIME : Z := 604800.
Definition MAX_IQ_TIME : Z := 604800.
Definition MAXQUOTAS : Z := 3.
Definition EINVAL_ : Z := 22.

(** [INITQMAGICS] *)
Definition file_magics (type : Z) : res Z :=
  match type with
  | 0 => Ok 0xd9c01f11
  | 1 => Ok 0xd9c01927
  | 2 => Ok 0xd9c03f14
  | _ => Oob
  end.

(** [enum qf_szchk_type_t], and what the walk over the inode left in [qf_szchk_type],
    [qf_last_blkofs] and [qf_maxsize]. *)
Inductive qf_szchk_type_t := QF_SZCHK_NONE | QF_SZCHK_ERR | QF_SZCHK_INLINE | QF_SZCHK_REGFILE.
Record qf_szchk := { szchk_type : qf_szchk_type_t; last_blkofs : Z; maxsize : Z }.

Section V2.
Context {F : Type} `{QuotaFile F}.
Implicit Types h : quota_handle F.

(** The bytes of [struct v2_disk_dqinfo]. *)
Definition v2_mem2diskdqinfo h : list Z :=
  le_bytes 4 (u32 (qh_bgrace h)) ++ le_bytes 4 (u32 (qh_igrace h)) ++ le_bytes 4 (Z.land (qh_flags h) V2_DQF_MASK) ++
  le_bytes 4 (dqi_blocks (qh_info h)) ++ le_bytes 4 (dqi_free_blk (qh_info h)) ++ le_bytes 4 (dqi_free_entry (qh_info h)).

Definition v2_disk2memdqinfo h (d : list Z) : res (quota_handle F) :=
  bgrace ← get_le32 d 0;
  igrace ← get_le32 d 4;
  flags ← get_le32 d 8;
  blocks ← get_le32 d 12;
  free_blk ← get_le32 d 16;
  free_entry ← get_le32 d 20;
  Ok {| qh_qf := qh_qf h; qh_type := qh_type h; qh_fmt := qh_fmt h; qh_dirty := qh_dirty h; qh_bgrace := bgrace;
        qh_igrace := igrace; qh_flags := Z.land flags V2_DQF_MASK;
        qh_info := {| dqi_blocks := blocks; dqi_free_blk := free_blk; dqi_free_entry := free_entry;
                      dqi_entry_size := dqi_entry_size (qh_info h) |};
        qh_used_entries := qh_used_entries h; qh_data_blocks := qh_data_blocks h |}.

(** The header, or [None] if it cannot be read. *)
Definition v2_read_header h : res (option (list Z)) :=
  dqh ← qf_read (qh_qf h) 0 SIZE_OF_DQHEADER;
  Ok (if Z.of_nat (length dqh) =? SIZE_OF_DQHEADER then Some dqh else None).

Definition v2_check_file h (type : Z) : res bool :=
  o ← v2_read_header h;
  match o with
  | None => Ok false
  | Some dqh =>
      be_magic ← rd_bytes dqh 0 4;
      magic ← file_magics type;
      if le_val (rev be_magic) =? magic then Ok false
      else version ← get_le32 dqh 4; Ok (version =? V2_VERSION)
  end.

Definition v2_write_info h : res (Z * quota_handle F) :=
  '(ret, f) ← qf_write (qh_qf h) V2_DQINFOOFF (v2_mem2diskdqinfo h);
  Ok (if negb (ret =? SIZE_OF_DQINFO) then -1 else 0, with_qf h f).

(** The information of a new file. *)
Definition new_info h : quota_handle F := {|
  qh_qf := qh_qf h; qh_type := qh_type h; qh_fmt := qh_fmt h; qh_dirty := qh_dirty h; qh_bgrace := MAX_DQ_TIME;
  qh_igrace := MAX_IQ_TIME; qh_flags := 0;
  qh_info := {| dqi_blocks := QT_TREEOFF + 1; dqi_free_blk := 0; dqi_free_entry := 0; dqi_entry_size := SIZE_OF_DQBLK |};
  qh_used_entries := qh_used_entries h; qh_data_blocks := qh_data_blocks h |}.

Definition v2_new_io h : res (Z * quota_handle F) :=
  if negb (qh_fmt h =? QFMT_VFS_V1) then Ok (-1, h)
  else
    magic ← file_magics (qh_type h);
    '(ret, f) ← qf_write (qh_qf h) 0 (le_bytes 4 magic ++ le_bytes 4 V2_VERSION);
    let h := with_qf h f in
    if negb (ret =? SIZE_OF_DQHEADER) then Ok (-1, h) else v2_write_info (new_info h).

Definition v2_commit_dquot h (q : dquot) : res (Z * dquot * quota_handle F) :=
  let b := dq_dqb q in
  if (dqb_curspace b =? 0) && (dqb_curinodes b =? 0) && (dqb_bsoftlimit b =? 0) && (dqb_isoftlimit b =? 0) &&
     (dqb_bhardlimit b =? 0) && (dqb_ihardlimit b =? 0) then
    '(q, h) ← qtree_delete_dquot h q; Ok (0, q, h)
  else qtree_write_dquot h q.
End V2.

(** * Scanning *)

Definition set_bit (bmp : list Z) (ind : Z) : res (list Z) :=
  b ← rd bmp (Z.shiftr ind 3); wr bmp (Z.shiftr ind 3) (u8 (Z.lor b (Z.shiftl 1 (Z.land ind 7)))).
Definition get_bit (bmp : list Z) (ind : Z) : res bool :=
  b ← rd bmp (Z.shiftr ind 3); Ok (negb (Z.land b (Z.shiftl 1 (Z.land ind 7)) =? 0)).

Section Scan.
Context {F : Type} `{QuotaFile F}.
Context {P : Type} (process_dquot : dquot -> P -> res (Z * P)).
Implicit Types h : quota_handle F.

(** The bitmap of the data blocks seen, the number of entries and the data of the
    callback. *)
Record scan := { sc_bitmap : list Z; sc_entries : Z; sc_data : P }.

Fixpoint report_slots (n : nat) h (blk : Z) (buf : list Z) (i : Z) (data : P) : res P :=
  match n with
  | O => Ok data
  | S n =>
      let ddata := SIZE_OF_DQDBHEADER + i * dqi_entry_size (qh_info h) in
      unused ← qtree_entry_unused (qh_info h) buf ddata;
      if unused : bool then report_slots n h blk buf (i + 1) data
      else
        '(id, b) ← v2r1_disk2memdqblk buf ddata;
        '(r, data) ← process_dquot {| dq_id := id; dq_dqb := b;
          dqb_off := u32 (Z.shiftl blk QT_BLKSIZE_BITS) + SIZE_OF_DQDBHEADER + i * dqi_entry_size (qh_info h) |} data;
        if r <? 0 then Ok data else report_slots n h blk buf (i + 1) data
  end.

Definition report_block h (blk : Z) (sc : scan) : res (Z * scan) :=
  bitmap ← set_bit (sc_bitmap sc) blk;
  buf ← read_blk h blk;
  entries ← get_le16 buf ofs_dqdh_entries;
  n ← qtree_dqstr_in_blk (qh_info h);
  data ← report_slots (Z.to_nat n) h blk buf 0 (sc_data sc);
  Ok (entries, {| sc_bitmap := bitmap; sc_entries := sc_entries sc; sc_data := data |}).

Definition check_reference h (blk : Z) : Z := if dqi_blocks (qh_info h) <=? blk then -1 else 0.

(** The references from [i] on; [-1] if the loop is left. *)
Fixpoint report_refs (n : nat) (body : Z -> scan -> res (Z * scan)) (buf : list Z) (i : Z) (sc : scan) : res (Z * scan) :=
  match n with
  | O => Ok (0, sc)
  | S n =>
      blk ← get_le32 buf (4 * i);
      if blk =? 0 then report_refs n body buf (i + 1) sc
      else
        '(r, sc) ← body blk sc;
        if negb (r =? 0) then Ok (-1, sc) else report_refs n body buf (i + 1) sc
  end.

Fixpoint report_tree (n : nat) h (blk depth : Z) (sc : scan) : res (Z * scan) :=
  match n with
  | O => NoFuel
  | S n =>
      buf ← read_blk h blk;
      report_refs (Z.to_nat (Z.shiftr QT_BLKSIZE 2)) (fun blk sc =>
        if negb (check_reference h blk =? 0) then Ok (-1, sc)
        else if depth =? QT_TREEDEPTH - 1 then
          seen ← get_bit (sc_bitmap sc) blk;
          if negb seen then
            '(num_entry, sc) ← report_block h blk sc;
            if num_entry <? 0 then Ok (-1, sc)
            else
              _ ← defined_ (sc_entries sc + num_entry <? 2 ^ 31);
              Ok (0, {| sc_bitmap := sc_bitmap sc; sc_entries := sc_entries sc + num_entry; sc_data := sc_data sc |})
          else Ok (0, sc)
        else report_tree n h blk (depth + 1) sc) buf 0 sc
  end.

Fixpoint find_set_bits (n : nat) (bmp : list Z) (i : Z) : res Z :=
  match n with
  | O => Ok 0
  | S n => b ← get_bit bmp i; k ← find_set_bits n bmp (i + 1); Ok (if b : bool then 1 + k else k)
  end.

Definition with_scan h (used blocks : Z) : quota_handle F := {|
  qh_qf := qh_qf h; qh_type := qh_type h; qh_fmt := qh_fmt h; qh_dirty := qh_dirty h; qh_bgrace := qh_bgrace h;
  qh_igrace := qh_igrace h; qh_flags := qh_flags h; qh_info := qh_info h; qh_used_entries := used; qh_data_blocks := blocks |}.

(** The return value, the data of the callback and the handle. *)
Definition qtree_scan_dquots h (data : P) : res (Z * P * quota_handle F) :=
  let size := Z.shiftr (u32 (dqi_blocks (qh_info h) + 7)) 3 in
  '(r, sc) ← report_tree 4 h QT_TREEOFF 0 {| sc_bitmap := replicate (Z.to_nat size) 0; sc_entries := 0; sc_data := data |};
  if negb (r =? 0) then Ok (-1, sc_data sc, h)
  else
    used ← find_set_bits (Z.to_nat (s32 (dqi_blocks (qh_info h)))) (sc_bitmap sc) 0;
    Ok (0, sc_data sc, with_scan h (u32 (sc_entries sc)) used).
End Scan.
Arguments sc_bitmap {P}.
Arguments sc_entries {P}.
Arguments sc_data {P}.
Arguments scan : clear implicits.

(** * Opening and closing *)

Section Open.
Context {D : Type} `{InodeFile D}.
Implicit Types h : quota_handle (quota_file D).

Definition v2_init_io (chk : qf_szchk) h : res (Z * quota_handle (quota_file D)) :=
  let set_size f n := {| qf_data := f; qf_size := n |} in
  let h := {| qh_qf := qh_qf h; qh_type := qh_type h; qh_fmt := qh_fmt h; qh_dirty := qh_dirty h; qh_bgrace := qh_bgrace h;
              qh_igrace := qh_igrace h; qh_flags := qh_flags h;
              qh_info := {| dqi_blocks := dqi_blocks (qh_info h); dqi_free_blk := dqi_free_blk (qh_info h);
                            dqi_free_entry := dqi_free_entry (qh_info h); dqi_entry_size := SIZE_OF_DQBLK |};
              qh_used_entries := qh_used_entries h; qh_data_blocks := qh_data_blocks h |} in
  ddqinfo ← qf_read (qh_qf h) V2_DQINFOOFF SIZE_OF_DQINFO;
  if negb (Z.of_nat (length ddqinfo) =? SIZE_OF_DQINFO) then Ok (-1, h)
  else
    h ← v2_disk2memdqinfo h ddqinfo;
    filesize ← f2fs_quota_size (qf_data (qh_qf h));
    let h := with_qf h (set_size (qf_data (qh_qf h)) filesize) in
    let small := Z.shiftr (u64 (filesize + F2FS_BLKSIZE - 1)) 12 <? u32 (last_blkofs chk + 1) in
    '(filesize, h) ← (match szchk_type chk with
                      | QF_SZCHK_REGFILE =>
                          if small || (maxsize chk <? filesize) then
                            let filesize := u32 (Z.shiftl (u32 (last_blkofs chk + 1)) 12) in
                            d ← f2fs_filesize_update (qf_data (qh_qf h)) filesize;
                            Ok (filesize, with_qf h (set_size d (qf_size (qh_qf h))))
                          else Ok (filesize, h)
                      | _ => Ok (filesize, h)
                      end);
    let i := qh_info h in
    if Z.shiftr (u64 (filesize + QT_BLKSIZE - 1)) QT_BLKSIZE_BITS <? dqi_blocks i then Ok (-1, h)
    else if dqi_blocks i <=? dqi_free_blk i then Ok (-1, h)
    else if dqi_blocks i <=? dqi_free_entry i then Ok (-1, h)
    else Ok (0, h).

(** A handle without information. *)
Definition blank_handle (qf : quota_file D) (qtype : Z) : quota_handle (quota_file D) := {|
  qh_qf := qf; qh_type := qtype; qh_fmt := QFMT_VFS_V1; qh_dirty := false; qh_bgrace := 0; qh_igrace := 0; qh_flags := 0;
  qh_info := {| dqi_blocks := 0; dqi_free_blk := 0; dqi_free_entry := 0; dqi_entry_size := 0 |};
  qh_used_entries := 0; qh_data_blocks := 0 |}.

(** On a handle of the caller, as [quota_compare_and_update] opens it; [size] is what
    the caller's [filesize] happened to be. *)
Definition quota_file_open (d : D) (size qtype : Z) (chk : qf_szchk) : res (Z * option (quota_handle (quota_file D))) :=
  if MAXQUOTAS <=? qtype then Ok (EINVAL_, None)
  else
    let h := blank_handle {| qf_data := d; qf_size := size |} qtype in
    ok ← v2_check_file h qtype;
    if negb ok then Ok (EIO, Some h)
    else '(r, h) ← v2_init_io chk h; Ok (if r <? 0 then EIO else 0, Some h).

Definition quota_file_create (d : D) (qtype : Z) : res (Z * quota_handle (quota_file D)) :=
  '(r, h) ← v2_new_io (blank_handle {| qf_data := d; qf_size := 0 |} qtype);
  Ok (if r <? 0 then EIO else 0, h).

Definition clean h : quota_handle (quota_file D) := {|
  qh_qf := qh_qf h; qh_type := qh_type h; qh_fmt := qh_fmt h; qh_dirty := false; qh_bgrace := qh_bgrace h;
  qh_igrace := qh_igrace h; qh_flags := qh_flags h; qh_info := qh_info h; qh_used_entries := qh_used_entries h;
  qh_data_blocks := qh_data_blocks h |}.

(** The error and the inode. *)
Definition quota_file_close h (update_filesize : bool) : res (Z * D) :=
  '(r, h) ← (if qh_dirty h then '(r, h) ← v2_write_info h; Ok (r, clean h) else Ok (0, h));
  if r <? 0 then Ok (EIO, qf_data (qh_qf h))
  else if update_filesize then d ← f2fs_filesize_update (qf_data (qh_qf h)) (u64 (qf_size (qh_qf h))); Ok (0, d)
  else Ok (0, qf_data (qh_qf h)).
End Open.
