(* ===== verification/QuotaFile.v ===== *)
(** The contract of a quota file: it is a finite map from ids to usage and limits.
    [quota_rep L h M] says that the handle [h] is a file with the entries [M]; reading,
    writing and deleting a dquot are lookup, insert and delete of [M], and a new file
    is the empty map. *)
From Stdlib Require Import ZArith Lia List Bool.
From stdpp Require Import base numbers list gmap.
From S2P Require Import Prelude Codec Bits Quota QuotaTree QuotaMap QuotaV2.

(** * Fields of packed structures *)

Lemma get_le_skip n xs ys ofs : Z.of_nat (length xs) <= ofs -> get_le n (xs ++ ys) ofs = get_le n ys (ofs - Z.of_nat (length xs)).
Proof.
  intros Ho. unfold get_le. f_equal. remember (ofs - Z.of_nat (length xs)) as o eqn:Eo. revert ofs o Eo Ho.
  induction n as [|n IH]; intros ofs o Eo Ho; [done|]. cbn [rd_bytes]. rewrite (IH (ofs + 1) (o + 1)) by lia.
  assert (rd (xs ++ ys) ofs = rd ys o) as ->; [|done]. unfold rd. rewrite !(proj2 (Z.ltb_ge _ _)) by lia.
  rewrite lookup_app_r by lia. by replace (Z.to_nat ofs - length xs)%nat with (Z.to_nat o) by lia.
Qed.

Lemma le_val_mod n : forall z, le_val (le_bytes n z) = z mod 2 ^ (8 * Z.of_nat n).
Proof.
  induction n as [|n IH]; intros z; [by rewrite Z.mod_1_r|]. cbn [le_bytes le_val]. rewrite IH.
  replace (8 * Z.of_nat (S n)) with (8 + 8 * Z.of_nat n) by lia. rewrite Z.pow_add_r by lia.
  change (2 ^ 8) with 256. rewrite Z.rem_mul_r by lia. done.
Qed.

Lemma get_le_head n v ys : get_le n (le_bytes n v ++ ys) 0 = Ok (v mod 2 ^ (8 * Z.of_nat n)).
Proof.
  unfold get_le. pose proof (rd_bytes_app [] (le_bytes n v) ys 0 n) as Hr. cbn [app] in Hr.
  rewrite Hr, res_bind_ret by (rewrite ?length_le_bytes; done). by rewrite le_val_mod.
Qed.

(** Reads one of several fields. *)
Ltac field := repeat (rewrite get_le_skip by (rewrite length_le_bytes; lia); rewrite length_le_bytes); apply get_le_head.

(** * Entries *)

Definition is_s64 (z : Z) : Prop := - 2 ^ 63 <= z < 2 ^ 63.

Record wf_dqblk (b : util_dqblk) : Prop := {
  wf_ihard : is_s64 (dqb_ihardlimit b);
  wf_isoft : is_s64 (dqb_isoftlimit b);
  wf_curinodes : is_s64 (dqb_curinodes b);
  wf_bhard : is_s64 (dqb_bhardlimit b);
  wf_bsoft : is_s64 (dqb_bsoftlimit b);
  wf_curspace : is_s64 (dqb_curspace b);
  wf_btime : is_s64 (dqb_btime b);
  wf_itime : is_s64 (dqb_itime b);
}.

Lemma s64_mod z : is_s64 z -> s64 (z mod 2 ^ (8 * Z.of_nat 8)) = z.
Proof.
  intros Hz. unfold s64, sgn, is_s64 in *. change (8 * Z.of_nat 8) with 64. rewrite Z.mod_mod by lia. change (64 - 1) with 63.
  destruct (Z.ltb_spec (z mod 2 ^ 64) (2 ^ 63)); Z.to_euclidean_division_equations; lia.
Qed.

(** The entry on disk, and what is read back: the entry that stands for an empty one
    loses its inode grace time. *)
Definition entry_of (id : Z) (b : util_dqblk) : list Z :=
  if decide (dqblk_bytes id b = zeros72) then fake_entry else dqblk_bytes id b.
Definition no_itime (b : util_dqblk) : util_dqblk := {|
  dqb_ihardlimit := dqb_ihardlimit b; dqb_isoftlimit := dqb_isoftlimit b; dqb_curinodes := dqb_curinodes b;
  dqb_bhardlimit := dqb_bhardlimit b; dqb_bsoftlimit := dqb_bsoftlimit b; dqb_curspace := dqb_curspace b;
  dqb_btime := dqb_btime b; dqb_itime := 0 |}.
Definition seen (id : Z) (b : util_dqblk) : util_dqblk := if decide (entry_of id b = fake_entry) then no_itime b else b.

Lemma length_dqblk id b : length (dqblk_bytes id b) = 72%nat.
Proof. unfold dqblk_bytes. by rewrite !length_app, !length_le_bytes. Qed.
Lemma bytes_dqblk id b : bytes (dqblk_bytes id b).
Proof. unfold dqblk_bytes. repeat (apply Forall_app; split; [apply bytes_le_bytes|]). apply bytes_le_bytes. Qed.

Lemma mem2disk_Ok info q : dqi_entry_size info = 72 -> v2r1_mem2diskdqblk info q = Ok (entry_of (dq_id q) (dq_dqb q)).
Proof.
  intros Hs. unfold v2r1_mem2diskdqblk, qtree_entry_unused, entry_of. rewrite Hs. change (Z.to_nat 72) with 72%nat.
  rewrite entry_unused_eq, res_bind_ret by (rewrite ?length_dqblk; lia). change (Z.to_nat 0) with 0%nat.
  rewrite drop_0, (firstn_all2 (dqblk_bytes _ _)) by (rewrite length_dqblk; lia). fold zeros72.
  case_decide as Hz; [rewrite bool_decide_true by done; rewrite Hz|by rewrite bool_decide_false]. done.
Qed.

Lemma fake_not_zeros : fake_entry <> zeros72.
Proof. discriminate. Qed.

Lemma entry_of_length id b : length (entry_of id b) = 72%nat.
Proof. unfold entry_of. case_decide; [done|apply length_dqblk]. Qed.
Lemma entry_of_bytes id b : bytes (entry_of id b).
Proof.
  unfold entry_of. case_decide; [|apply bytes_dqblk]. apply Forall_app. split; [apply Forall_replicate; unfold is_u8; lia|apply bytes_le_bytes].
Qed.

Lemma dqblk_id id b : getv 4 (dqblk_bytes id b) 0 = id mod 2 ^ 32.
Proof. unfold getv, dqblk_bytes. by rewrite get_le_head. Qed.

Lemma entry_of_good id b : is_u32 id -> good_entry None id (entry_of id b).
Proof.
  intros Hi. split; [apply entry_of_length|]. split; [apply entry_of_bytes|]. rewrite decide_False by done. unfold entry_of.
  case_decide as Hz; [split; [apply fake_not_zeros|]|split; [done|]].
  - pose proof (dqblk_id id b) as Hid. rewrite Hz, Z.mod_small in Hid by apply Hi. by rewrite <- Hid.
  - rewrite dqblk_id. apply Z.mod_small, Hi.
Qed.

Lemma disk2mem_dqblk id b : is_u32 id -> wf_dqblk b ->
  v2r1_disk2memdqblk (dqblk_bytes id b) 0 = Ok (id, if decide (dqblk_bytes id b = fake_entry) then no_itime b else b).
Proof.
  intros Hi [W1 W2 W3 W4 W5 W6 W7 W8]. set (d := dqblk_bytes id b).
  assert (Ed : d = le_bytes 4 id ++ le_bytes 4 0 ++ le_bytes 8 (dqb_ihardlimit b) ++ le_bytes 8 (dqb_isoftlimit b) ++
    le_bytes 8 (dqb_curinodes b) ++ le_bytes 8 (dqb_bhardlimit b) ++ le_bytes 8 (dqb_bsoftlimit b) ++
    le_bytes 8 (dqb_curspace b) ++ le_bytes 8 (dqb_btime b) ++ le_bytes 8 (dqb_itime b) ++ []) by (by rewrite app_nil_r).
  assert (H0 : get_le32 d 0 = Ok (id mod 2 ^ (8 * Z.of_nat 4))) by (rewrite Ed; field).
  assert (H1 : get_le64 d (0 + 8) = Ok (dqb_ihardlimit b mod 2 ^ (8 * Z.of_nat 8))) by (rewrite Ed; field).
  assert (H2 : get_le64 d (0 + 16) = Ok (dqb_isoftlimit b mod 2 ^ (8 * Z.of_nat 8))) by (rewrite Ed; field).
  assert (H3 : get_le64 d (0 + 24) = Ok (dqb_curinodes b mod 2 ^ (8 * Z.of_nat 8))) by (rewrite Ed; field).
  assert (H4 : get_le64 d (0 + 32) = Ok (dqb_bhardlimit b mod 2 ^ (8 * Z.of_nat 8))) by (rewrite Ed; field).
  assert (H5 : get_le64 d (0 + 40) = Ok (dqb_bsoftlimit b mod 2 ^ (8 * Z.of_nat 8))) by (rewrite Ed; field).
  assert (H6 : get_le64 d (0 + 48) = Ok (dqb_curspace b mod 2 ^ (8 * Z.of_nat 8))) by (rewrite Ed; field).
  assert (H7 : get_le64 d (0 + 56) = Ok (dqb_btime b mod 2 ^ (8 * Z.of_nat 8))) by (rewrite Ed; field).
  assert (H8 : get_le64 d (0 + 64) = Ok (dqb_itime b mod 2 ^ (8 * Z.of_nat 8))) by (rewrite Ed; field).
  pose proof (length_dqblk id b : length d = 72%nat) as Hl.
  unfold v2r1_disk2memdqblk. rewrite H0, res_bind_ret, H1, res_bind_ret, H2, res_bind_ret, H3, res_bind_ret, H4, res_bind_ret,
    H5, res_bind_ret, H6, res_bind_ret, H7, res_bind_ret, H8, res_bind_ret.
  rewrite rd_bytes_Ok, res_bind_ret by (unfold SIZE_OF_DQBLK; lia). change (Z.to_nat 0) with 0%nat.
  rewrite drop_0, (firstn_all2 d) by (unfold SIZE_OF_DQBLK; lia). rewrite !s64_mod by done. rewrite Z.mod_small by exact Hi.
  clearbody d. by case_decide; destruct b.
Qed.

(** An entry is read back as it was, but for the one that stands for an empty entry. *)
Lemma disk2mem_entry id b : is_u32 id -> wf_dqblk b -> v2r1_disk2memdqblk (entry_of id b) 0 = Ok (id, seen id b).
Proof.
  intros Hi Hw. unfold seen, entry_of. pose proof (disk2mem_dqblk id b Hi Hw) as Hd.
  destruct (decide (dqblk_bytes id b = zeros72)) as [Hz|Hz]; [|exact Hd].
  rewrite decide_True by done. rewrite Hz in Hd. change (v2r1_disk2memdqblk zeros72 0) with (Ok (0, zero_dqblk)) in Hd.
  rewrite decide_False in Hd by discriminate. injection Hd as <- <-. vm_compute. reflexivity.
Qed.

(** * The contract *)

Section Contract.
Context {F : Type} `{QuotaFileLaws F}.
Implicit Types (h : quota_handle F) (M : gmap Z util_dqblk).

Definition models (d : gmap Z slots) M : Prop :=
  (forall id b, M !! id = Some b -> is_u32 id /\ wf_dqblk b /\ exists c j, holds d id c j (entry_of id b)) /\
  (forall id c j e, holds d id c j e -> is_Some (M !! id)).

Lemma above_0 id p : above id 0 p <-> none p.
Proof. split; [intros (k & Hk & _); lia|done]. Qed.

(** A file without entries; of a new one not even the root is written. *)
Definition empty_ghost : ghost := {| gn := {[ [] := QT_TREEOFF ]}; gd := ∅; ge := []; gf := [] |}.

Lemma empty_inv B i id : dqi_blocks i = QT_TREEOFF + 1 -> dqi_free_blk i = 0 -> dqi_free_entry i = 0 ->
  qinv B i empty_ghost (above id 1) None.
Proof.
  intros Hb Hf He. constructor; cbn [empty_ghost gn gd ge gf].
  - constructor.
    + apply lookup_singleton_eq.
    + intros p b [<- _]%lookup_singleton_Some. split; [cbn; lia|by apply Forall_nil].
    + intros p b [_ <-]%lookup_singleton_Some. unfold QT_TREEOFF. lia.
    + intros p j b [Hx _]%lookup_singleton_Some. by destruct p.
    + intros p b j [<- <-]%lookup_singleton_Some _ Hx. destruct Hx. exists 0%nat. split; [lia|done].
    + intros p q b [<- _]%lookup_singleton_Some [<- _]%lookup_singleton_Some. done.
  - constructor; [intros b s Hx|intros ? b j e (s & Hx & _)|intros ? b j e b' j' e' (s & Hx & _)]; by rewrite lookup_empty in Hx.
  - constructor; [done|done|apply NoDup_nil_2|]. intros b. split; [by intros Hx%not_elem_of_nil|].
    intros (s & Hx & _). by rewrite lookup_empty in Hx.
  - constructor; [done|done|apply NoDup_nil_2].
  - rewrite Hb. constructor; cbn [empty_ghost gn gd gf].
    + intros p b [<- <-]%lookup_singleton_Some _. unfold QT_TREEOFF. split; [lia|]. split; [done|apply not_elem_of_nil].
    + intros b [s Hx]. by rewrite lookup_empty in Hx.
    + by intros b Hx%not_elem_of_nil.
  - intros id' b Hi. unfold empty_ghost. cbn [gn gd]. rewrite lookup_singleton_ne by done. split; [done|]. intros (j & e & s & Hx & _). by rewrite lookup_empty in Hx.
Qed.

(** A file [v2_new_io] has just made. *)
Definition new_file h : Prop :=
  dqi_blocks (qh_info h) = QT_TREEOFF + 1 /\ dqi_free_blk (qh_info h) = 0 /\ dqi_free_entry (qh_info h) = 0 /\ qf_len (qh_qf h) <= 1024.

(** The file of [h], which can have [L] blocks, has the entries [M]. *)
Definition quota_rep (L : Z) h M : Prop :=
  exists B g, rep L h B (qh_info h) /\ dqi_blocks (qh_info h) <= L /\ models (gd g) M /\
    (2 < dqi_blocks (qh_info h) /\ qinv B (qh_info h) g none None \/ new_file h /\ g = empty_ghost).

(** In a file with an entry the tree is there. *)
Lemma used_file h B g M id b : models (gd g) M -> M !! id = Some b ->
  2 < dqi_blocks (qh_info h) /\ qinv B (qh_info h) g none None \/ new_file h /\ g = empty_ghost ->
  2 < dqi_blocks (qh_info h) /\ qinv B (qh_info h) g none None.
Proof.
  intros [Hm _] Hb [Hq|[_ ->]]; [done|]. destruct (Hm id b Hb) as (_ & _ & c & j & s & Hs & _). cbn [empty_ghost gd] in Hs.
  by rewrite lookup_empty in Hs.
Qed.

(** The offset that looking an id up gives. *)
Lemma quota_find L h M id : quota_rep L h M -> is_u32 id ->
  exists off, find_dqentry h id = Ok off /\ match M !! id with Some _ => 0 < off | None => off = 0 end.
Proof.
  intros (B & g & R & HL & Hmod & HS) Hi. pose proof Hmod as [Hm Hn]. destruct (M !! id) as [b|] eqn:Hb.
  - destruct (used_file h B g M id b Hmod Hb HS) as [H2 Q]. destruct (Hm id b Hb) as (_ & _ & c & j & Hh). eexists. split; [by apply (find_dqentry_held L h B (qh_info h) g id c j (entry_of id b)); (done || lia)|].
    destruct Hh as (s & Hs & _). destruct (pl_datas _ _ (qi_place _ _ _ _ _ Q) c) as [Hc _]; [by eexists|]. lia.
  - exists 0. split; [|done]. destruct HS as [[H2 Q]|[(_ & _ & _ & Hlen) _]]; [|by apply (find_dqentry_new L h B (qh_info h))].
    apply (find_dqentry_none L h B (qh_info h) g id); try done. destruct (gn g !! path id) as [c|] eqn:Hc; [|done]. apply (qi_where _ _ _ _ _ Q) in Hc as (j & e & Hh); [|done].
    apply Hn in Hh as [x Hx]. congruence.
Qed.

Lemma quota_read L h M id off : quota_rep L h M -> is_u32 id -> find_dqentry h id = Ok off ->
  qtree_read_dquot h id = Ok {| dq_id := id; dq_dqb := match M !! id with Some b => seen id b | None => zero_dqblk end; dqb_off := off |}.
Proof.
  intros HR Hi Hf. destruct (quota_find L h M id HR Hi) as (off' & Hf' & Hoff). replace off' with off in * by congruence.
  destruct HR as (B & g & R & HL & Hmod & HS). destruct (rep_room _ _ _ _ R) as [HL' _].
  unfold qtree_read_dquot. rewrite Hf, res_bind_ret. destruct (M !! id) as [b|] eqn:Hb.
  - rewrite (proj2 (Z.ltb_lt _ _)) by done. destruct (used_file h B g M id b Hmod Hb HS) as [H2 Q]. destruct (proj1 Hmod id b Hb) as (_ & Hw & c & j & Hh).
    rewrite (find_dqentry_held L h B (qh_info h) g id c j (entry_of id b)) in Hf by (done || lia). injection Hf as <-.
    destruct Hh as (s & Hs & Hj). destruct (pl_datas _ _ (qi_place _ _ _ _ _ Q) c) as [Hc _]; [by eexists|].
    pose proof (di_data _ _ _ (qi_data _ _ _ _ _ Q) c s Hs) as Dok. pose proof (lookup_lt_Some _ _ _ Hj) as Hlt. rewrite (do_len _ _ Dok) in Hlt.
    rewrite (rep_size _ _ _ _ R).
    assert (Hlen : 1024 * (c + 1) <= qf_len (qh_qf h)) by (destruct (rep_len _ _ _ _ R); lia).
    destruct (qf_read_ok (qh_qf h) (1024 * c + 16 + 72 * Z.of_nat j) 72) as (bs & -> & Hl & Hbs); [apply R|lia|lia|Z.to_euclidean_division_equations; lia|].
    assert (bs = entry_of id b) as ->; [|by rewrite !res_bind_ret, disk2mem_entry, res_bind_ret].
    pose proof (do_slot _ _ Dok j _ Hj) as Hsl. cbn [slot_val] in Hsl. rewrite <- Hsl, <- (rep_blk _ _ _ _ R c) by lia.
    apply list_eq. intros k. destruct (decide (k < 72)%nat) as [Hk|Hk].
    + unfold slot. rewrite lookup_take_lt, lookup_drop, blk_of_lookup by lia.
      destruct (lookup_lt_is_Some_2 bs k) as [x Hx]; [lia|]. rewrite Hx, (Hbs k x Hx). do 2 f_equal. lia.
    + rewrite (lookup_ge_None_2 bs) by lia. symmetry. apply lookup_ge_None_2. rewrite length_slot; [lia|apply blk_of_good|done].
  - rewrite Hoff. done.
Qed.

(** Writing an entry in its slot. *)
Lemma write_slot L h B i g id c j e q : rep L h B i -> qinv B i g none (Some id) \/ qinv B i g none None -> dqi_blocks i <= L ->
  holds (gd g) id c j e -> is_u32 id -> dq_id q = id -> dqb_off q = 1024 * c + 16 + 72 * Z.of_nat j ->
  exists f B' g', qf_write (qh_qf h) (dqb_off q) (entry_of id (dq_dqb q)) = Ok (72, f) /\ rep L (with_qf h f) B' i /\
    qinv B' i g' none None /\ B' 0 = B 0 /\ holds (gd g') id c j (entry_of id (dq_dqb q)) /\
    forall id' c' k x, id' <> id -> holds (gd g') id' c' k x <-> holds (gd g) id' c' k x.
Proof.
  intros R Q HL (s & Hs & Hj) Hi Hid Hoff. destruct (rep_room _ _ _ _ R) as [HL' _].
  assert (exists pend, (pend = None \/ pend = Some id) /\ qinv B i g none pend) as (pend & Hp & Q') by (destruct Q; eauto).
  destruct (pl_datas _ _ (qi_place _ _ _ _ _ Q') c) as [Hc _]; [by eexists|].
  pose proof (do_len _ _ (di_data _ _ _ (qi_data _ _ _ _ _ Q') c s Hs)) as Hl. pose proof (lookup_lt_Some _ _ _ Hj) as Hlt. rewrite Hl in Hlt.
  assert (Hg : good_buf (B c)) by (apply (rep_good L h B i c R); lia). rewrite Hoff.
  destruct (write_entry_eq L h B i c j (entry_of id (dq_dqb q)) R) as (f & Hw & R'); [lia|done|apply entry_of_length|apply entry_of_bytes|].
  destruct (entry_inv B i g none pend id c s j e (entry_of id (dq_dqb q)) Q' Hp Hs Hj (entry_of_good id _ Hi) Hg) as [Q2 Hh].
  exists f. do 2 eexists. split; [exact Hw|]. split; [exact R'|]. split; [exact Q2|]. split; [apply upd_ne; lia|]. split.
  - apply Hh. by rewrite decide_True.
  - intros id' c' k x Hne. rewrite Hh. case_decide as Hd; [|done]. destruct Hd as [-> ->].
    split; [by intros [-> _]|]. intros (t & Ht & Hk). congruence.
Qed.

Lemma models_write d d' M id b c j : models d M -> is_u32 id -> wf_dqblk b -> holds d' id c j (entry_of id b) ->
  (forall id' c' k x, id' <> id -> holds d' id' c' k x <-> holds d id' c' k x) -> models d' (<[id := b]> M).
Proof.
  intros [Hm Hn] Hi Hw Hh Hd. split.
  - intros id' b' [(<- & <-)|(Hne & Hb)]%lookup_insert_Some; [by eauto|]. destruct (Hm id' b' Hb) as (Hi' & Hw' & c' & k & Hk).
    split; [done|]. split; [done|]. exists c', k. by apply Hd.
  - intros id' c' k x Hk. destruct (decide (id' = id)) as [->|Hne]; [rewrite lookup_insert_eq; by eauto|].
    rewrite lookup_insert_ne by done. apply Hd in Hk; [|done]. by apply (Hn id' c' k x).
Qed.

(** The first 32 bytes of a new file. *)
Definition new_head h (m : Z) : list Z := le_bytes 4 m ++ le_bytes 4 V2_VERSION ++ v2_mem2diskdqinfo (new_info h).

Lemma length_new_head h m : length (new_head h m) = 32%nat.
Proof. unfold new_head, v2_mem2diskdqinfo. by rewrite !length_app, !length_le_bytes. Qed.

Lemma new_io_run h : qf_ok (qh_qf h) -> qh_fmt h = QFMT_VFS_V1 -> 0 <= qh_type h < 3 -> 32 <= qf_room (qh_qf h) ->
  exists m f, file_magics (qh_type h) = Ok m /\ v2_new_io h = Ok (0, with_qf (new_info h) f) /\ qf_room f = qf_room (qh_qf h) /\
    qf_len f = Z.max (qf_len (qh_qf h)) 32 /\ qf_ok f /\
    forall x, qf_byte f x = if (0 <=? x) && (x <? 32) then default 0 (new_head h m !! Z.to_nat x) else qf_byte (qh_qf h) x.
Proof.
  intros Hok Hfmt Hty Hroom. unfold v2_new_io. rewrite Hfmt. change (negb (QFMT_VFS_V1 =? QFMT_VFS_V1)) with false. cbn iota.
  assert (exists m, file_magics (qh_type h) = Ok m) as [m Hm].
  { unfold file_magics. assert (qh_type h = 0 \/ qh_type h = 1 \/ qh_type h = 2) as [-> | [-> | ->]] by lia; by eexists. }
  rewrite Hm, res_bind_ret. set (hd := le_bytes 4 m ++ le_bytes 4 V2_VERSION). assert (Hl : length hd = 8%nat) by (subst hd; by rewrite length_app, !length_le_bytes).
  destruct (qf_write_ok (qh_qf h) 0 hd) as (f1 & -> & Hr1 & Hn1 & Hk1 & Hb1); [done|apply Forall_app; split; apply bytes_le_bytes|lia|lia|rewrite Hl; lia|].
  rewrite res_bind_ret, Hl in *. change (negb (Z.of_nat 8 =? SIZE_OF_DQHEADER)) with false. cbn iota.
  unfold v2_write_info. set (inf := v2_mem2diskdqinfo (new_info (with_qf h f1))).
  assert (Hl2 : length inf = 24%nat) by (subst inf; unfold v2_mem2diskdqinfo; by rewrite !length_app, !length_le_bytes).
  destruct (qf_write_ok f1 V2_DQINFOOFF inf) as (f2 & Hw2 & Hr2 & Hn2 & Hk2 & Hb2); [done| | |lia| |].
  { subst inf. unfold v2_mem2diskdqinfo. repeat (apply Forall_app; split; [apply bytes_le_bytes|]). apply bytes_le_bytes. }
  { unfold V2_DQINFOOFF. lia. }
  { rewrite Hl2. unfold V2_DQINFOOFF. lia. }
  cbn [new_info with_qf qh_qf]. rewrite Hw2, res_bind_ret, Hl2. change (negb (Z.of_nat 24 =? SIZE_OF_DQINFO)) with false. cbn iota.
  unfold V2_DQINFOOFF in *. rewrite Hl2 in *.
  exists m, f2. split; [done|]. split; [done|]. split; [lia|]. split; [lia|]. split; [done|]. intros x. rewrite Hb2, Hb1.
  assert (En : new_head h m = hd ++ inf) by (unfold new_head, hd, inf; by rewrite <- app_assoc).
  destruct (Z.leb_spec 8 x), (Z.ltb_spec x (8 + Z.of_nat 24)), (Z.leb_spec 0 x), (Z.ltb_spec x (0 + Z.of_nat 8)), (Z.ltb_spec x 32); cbn [andb]; try lia; try done; rewrite En.
  - rewrite lookup_app_r by lia. do 2 f_equal. lia.
  - rewrite lookup_app_l by lia. do 2 f_equal. lia.
Qed.

(** Creating a quota file, on a file of at most one block, gives a file without entries. *)
Lemma new_io_empty L h : qf_ok (qh_qf h) -> qh_fmt h = QFMT_VFS_V1 -> 0 <= qh_type h < 3 -> L <= 2 ^ 21 -> 2 <= L -> 1024 * L <= qf_room (qh_qf h) ->
  qf_len (qh_qf h) <= 1024 ->
  exists m f, file_magics (qh_type h) = Ok m /\ v2_new_io h = Ok (0, with_qf (new_info h) f) /\ quota_rep L (with_qf (new_info h) f) ∅ /\
    forall x, 0 <= x < 32 -> qf_byte f x = default 0 (new_head h m !! Z.to_nat x).
Proof.
  intros Hok Hfmt Hty HL HL2 Hroom Hz. destruct (new_io_run h Hok Hfmt Hty) as (m & f & Hm & Hn & Hr & Hlen & Hk & Hb); [lia|].
  exists m, f. split; [done|]. split; [done|]. split.
  - exists (blk_of f), empty_ghost. cbn [with_qf new_info qh_info]. split; [|split; [cbn; unfold QT_TREEOFF; lia|split]].
    + constructor; cbn; try done; [lia|by left|split; [done|lia]].
    + split; [by intros id b Hx; rewrite lookup_empty in Hx|]. intros id c j e (s & Hx & _). cbn [empty_ghost gd] in Hx. by rewrite lookup_empty in Hx.
    + right. split; [|done]. unfold new_file. cbn. split_and!; try done. lia.
  - intros x Hx. rewrite Hb, (proj2 (Z.leb_le _ _)), (proj2 (Z.ltb_lt _ _)) by lia. done.
Qed.

(** Reading a dquot is looking its id up in the map of the file: the usage and limits
    come back as they were written, and an id without an entry reads as zeros. *)
Theorem quota_read_lookup L h M id : quota_rep L h M -> is_u32 id ->
  exists off, find_dqentry h id = Ok off /\ (off = 0 <-> M !! id = None) /\
    qtree_read_dquot h id =
      Ok {| dq_id := id; dq_dqb := match M !! id with Some b => seen id b | None => zero_dqblk end; dqb_off := off |}.
Proof.
  intros HR Hi. destruct (quota_find L h M id HR Hi) as (off & Hf & Hoff). exists off. split; [done|]. split.
  - destruct (M !! id); [split; [lia|done]|done].
  - by apply (quota_read L).
Qed.

(** Writing a dquot, new or known, is inserting it in the map of the file; at most
    five blocks are added, and only for a new id. *)
Lemma quota_write_step L h M q : quota_rep L h M -> is_u32 (dq_id q) -> wf_dqblk (dq_dqb q) ->
  find_dqentry h (dq_id q) = Ok (dqb_off q) -> (M !! dq_id q = None -> dqi_blocks (qh_info h) + 5 <= L) ->
  exists off h', qtree_write_dquot h q = Ok (0, with_off q off, h') /\ quota_rep L h' (<[dq_id q := dq_dqb q]> M) /\
    find_dqentry h' (dq_id q) = Ok off /\ blk_of (qh_qf h') 0 = blk_of (qh_qf h) 0 /\
    dqi_blocks (qh_info h) <= dqi_blocks (qh_info h') <= dqi_blocks (qh_info h) + 5.
Proof.
  intros HR Hi Hw Hf Hroom. destruct (quota_find L h M _ HR Hi) as (off' & Hf' & Hoff). replace off' with (dqb_off q) in * by congruence. clear Hf'.
  destruct HR as (B & g & R & HL & Hmod & HS). pose proof Hmod as [Hm Hn]. unfold qtree_write_dquot.
  assert (Hslot : exists off h1 B1 i1 g1 c j e, (if dqb_off q =? 0 then dq_insert_tree h q else Ok (0, dqb_off q, h)) = Ok (0, off, h1) /\
    rep L h1 B1 i1 /\ (qinv B1 i1 g1 none (Some (dq_id q)) \/ qinv B1 i1 g1 none None) /\ dqi_blocks i1 <= L /\
    grows 5 (qh_info h) i1 /\ B1 0 = B 0 /\ holds (gd g1) (dq_id q) c j e /\ off = 1024 * c + 16 + 72 * Z.of_nat j /\
    forall id' c' k x, id' <> dq_id q -> holds (gd g1) id' c' k x <-> holds (gd g) id' c' k x).
  { destruct (M !! dq_id q) as [b|] eqn:Hb.
    - rewrite (proj2 (Z.eqb_neq _ _)) by lia. destruct (used_file h B g M _ b Hmod Hb HS) as [H2 Q]. destruct (Hm _ _ Hb) as (_ & _ & c & j & Hh).
      exists (dqb_off q), h, B, (qh_info h), g, c, j, (entry_of (dq_id q) b). split_and!; try done; [by right|unfold grows; lia|].
      rewrite (find_dqentry_held L h B (qh_info h) g _ c j _ R Q (conj H2 HL) Hi Hh) in Hf. congruence.
    - rewrite Hoff in *. cbn [Z.eqb]. specialize (Hroom eq_refl).
      destruct (insert_spec 4 0 L h B (qh_info h) g (dq_id q) (dqb_off q) QT_TREEOFF) as (b & off & h1 & B1 & i1 & g1 & He & R1 & Q1 & I1 & Hgr); try done.
      + lia.
      + destruct HS as [[H2 Q]|[(Hb2 & Hfb & Hfe & Hlen) ->]]; [|apply open_new; [done|by apply empty_inv|done|intros j; by apply lookup_singleton_ne]].
        apply open_spec; try done; try lia; [eapply qinv_weaken; [|exact Q]; intros p; apply above_0|].
        change (take 0 (path (dq_id q))) with (@nil Z). by rewrite (to_root _ _ _ (qi_tree _ _ _ _ _ Q)).
      + assert (Q : qinv B (qh_info h) g (above (dq_id q) 1) None).
        { destruct HS as [[H2 Q]|[(Hb2 & Hfb & Hfe & Hlen) ->]]; [|by apply empty_inv]. eapply qinv_weaken; [|exact Q]. by intros p []. }
        destruct (gn g !! path (dq_id q)) as [c|] eqn:Hc; [|done]. apply (qi_where _ _ _ _ _ Q) in Hc as (j & e & Hh); [|done].
        apply Hn in Hh as [x Hx]. congruence.
      + lia.
      + destruct (in_new _ _ _ _ _ _ _ _ I1) as (c & j & Hh & Hof). unfold dq_insert_tree. change (Z.of_nat 0) with 0 in He. rewrite Hoff in He.
        exists off, h1, B1, i1, g1, c, j, zeros72. rewrite Hoff. rewrite He, res_bind_ret. split_and!; try done.
        * left. eapply qinv_weaken; [|exact Q1]. intros p. apply above_0.
        * unfold grows in *. lia.
        * apply (in_head _ _ _ _ _ _ _ _ I1).
        * intros id' c' k x Hne. by apply (in_holds _ _ _ _ _ _ _ _ I1). }
  destruct Hslot as (off & h1 & B1 & i1 & g1 & c & j & e & -> & R1 & Q1 & HL1 & Hgr & HB1 & Hh & Hof & Hoth).
  rewrite res_bind_ret. change (negb (0 =? 0)) with false. cbn iota.
  rewrite mem2disk_Ok, res_bind_ret by (rewrite (rep_info _ _ _ _ R1); apply R1). cbn [with_off dq_id dq_dqb].
  destruct (write_slot L h1 B1 i1 g1 (dq_id q) c j e (with_off q off) R1 Q1 HL1 Hh Hi) as (f & B2 & g2 & Hwr & R2 & Q2 & HB2 & Hh2 & Hoth2); [done|done|].
  cbn [with_off dqb_off dq_dqb] in *. rewrite Hwr, res_bind_ret, (rep_info _ _ _ _ R1), (rep_size _ _ _ _ R1). rewrite Z.eqb_refl.
  assert (Hb2 : 2 < dqi_blocks i1).
  { assert (1 < c < dqi_blocks i1); [|lia]. apply (data_blocks B2 i1 g2 none None c Q2). destruct Hh2 as (s & Hs & _). by eexists. }
  exists off, (with_qf h1 f). split; [done|]. pose proof (rep_info _ _ _ _ R2) as Hi2. split; [|split; [|split]].
  - exists B2, g2. rewrite Hi2. split; [done|]. split; [done|]. split; [|by left].
    apply (models_write (gd g) (gd g2) M (dq_id q) (dq_dqb q) c j); try done. intros id' c' k x Hne. by rewrite Hoth2, Hoth.
  - rewrite (find_dqentry_held L (with_qf h1 f) B2 i1 g2 (dq_id q) c j _ R2 Q2 (conj Hb2 HL1) Hi Hh2). by rewrite Hof.
  - rewrite (rep_blk _ _ _ _ R2), (rep_blk _ _ _ _ R) by lia. congruence.
  - rewrite Hi2. unfold grows in Hgr. lia.
Qed.

(** Deleting a dquot is deleting its id from the map of the file. *)
Lemma quota_delete_step L h M q : quota_rep L h M -> is_u32 (dq_id q) -> find_dqentry h (dq_id q) = Ok (dqb_off q) ->
  exists h', qtree_delete_dquot h q = Ok (with_off q 0, h') /\ quota_rep L h' (delete (dq_id q) M) /\
    find_dqentry h' (dq_id q) = Ok 0 /\ blk_of (qh_qf h') 0 = blk_of (qh_qf h) 0 /\ dqi_blocks (qh_info h') = dqi_blocks (qh_info h).
Proof.
  intros HR Hi Hf. destruct (quota_find L h M _ HR Hi) as (off' & Hf' & Hoff). replace off' with (dqb_off q) in * by congruence. clear Hf'.
  destruct HR as (B & g & R & HL & Hmod & HS). pose proof Hmod as [Hm Hn]. unfold qtree_delete_dquot. destruct (M !! dq_id q) as [b|] eqn:Hb.
  - rewrite (proj2 (Z.eqb_neq _ _)) by lia. destruct (used_file h B g M _ b Hmod Hb HS) as [H2 Q]. destruct (Hm _ _ Hb) as (_ & _ & c & j & Hh).
    rewrite (find_dqentry_held L h B (qh_info h) g _ c j _ R Q (conj H2 HL) Hi Hh) in Hf. injection Hf as Hof.
    destruct (remove_spec 4 0 L h B (qh_info h) g (dq_id q) QT_TREEOFF c j (entry_of (dq_id q) b) eq_refl ltac:(lia) R) as (b' & h1 & B1 & i1 & g1 & He & R1 & Q1 & M1 & Hbl & _);
      [eapply qinv_weaken; [|exact Q]; intros p; apply above_0|done|done|exact Hh|apply Q|].
    change (Z.of_nat 0) with 0 in He. rewrite <- Hof, He, res_bind_ret. pose proof (rep_info _ _ _ _ R1) as Hi1.
    assert (Q1' : qinv B1 i1 g1 none None) by (eapply qinv_weaken; [|exact Q1]; intros p; apply above_0).
    exists h1. rewrite <- Hi1 in *. split; [done|]. split; [|split; [|split; [|done]]].
    + exists B1, g1. split; [done|]. split; [lia|]. split; [split|left; split; [lia|done]].
      * intros id' x [Hne Hx]%lookup_delete_Some. destruct (Hm id' x Hx) as (Hi' & Hw' & c' & k & Hk).
        split; [done|]. split; [done|]. exists c', k. by apply (rm_holds _ _ _ _ _ _ _ M1).
      * intros id' c' k x Hk. destruct (decide (id' = dq_id q)) as [->|Hne].
        -- assert (Hx : gn g1 !! path (dq_id q) = Some c') by (apply Q1'; eauto). rewrite (rm_gone _ _ _ _ _ _ _ M1) in Hx. done.
        -- rewrite lookup_delete_ne by done. apply (rm_holds _ _ _ _ _ _ _ M1) in Hk; [|done]. by apply (Hn id' c' k x).
    + apply (find_dqentry_none L h1 B1 (qh_info h1) g1); try done; [lia|apply (rm_gone _ _ _ _ _ _ _ M1)].
    + rewrite (rep_blk _ _ _ _ R1), (rep_blk _ _ _ _ R) by lia. apply (rm_head _ _ _ _ _ _ _ M1).
  - rewrite Hoff in *. cbn [Z.eqb]. exists h. split; [by destruct q; cbn in *; subst|]. split; [|done].
    exists B, g. rewrite delete_id by done. done.
Qed.

(** ** Committing dquots, the abstract specification *)

(** A dquot without usage and limits has no entry. *)
Definition fake_dqblk (b : util_dqblk) : bool :=
  (dqb_curspace b =? 0) && (dqb_curinodes b =? 0) && (dqb_bsoftlimit b =? 0) && (dqb_isoftlimit b =? 0) &&
  (dqb_bhardlimit b =? 0) && (dqb_ihardlimit b =? 0).
Definition commit_spec M (c : Z * util_dqblk) : gmap Z util_dqblk :=
  if fake_dqblk c.2 then delete c.1 M else <[c.1 := c.2]> M.

(** A dquot is read, changed and committed. *)
Definition commit h (c : Z * util_dqblk) : res (Z * dquot * quota_handle F) :=
  q ← qtree_read_dquot h c.1;
  v2_commit_dquot h {| dq_id := c.1; dq_dqb := c.2; dqb_off := dqb_off q |}.

Lemma commit_refines L h M c : quota_rep L h M -> is_u32 c.1 -> wf_dqblk c.2 -> dqi_blocks (qh_info h) + 5 <= L ->
  exists q h', commit h c = Ok (0, q, h') /\ quota_rep L h' (commit_spec M c) /\ blk_of (qh_qf h') 0 = blk_of (qh_qf h) 0 /\
    dqi_blocks (qh_info h') <= dqi_blocks (qh_info h) + 5.
Proof.
  intros HR Hi Hw Hroom. destruct (quota_find L h M c.1 HR Hi) as (off & Hf & _). unfold commit.
  rewrite (quota_read L h M c.1 off HR Hi Hf), res_bind_ret. cbn [dqb_off]. unfold v2_commit_dquot, commit_spec. cbn [dq_dqb].
  fold (fake_dqblk c.2). set (q := {| dq_id := c.1; dq_dqb := c.2; dqb_off := off |}). destruct (fake_dqblk c.2).
  - destruct (quota_delete_step L h M q HR Hi Hf) as (h' & -> & HR' & _ & Hh & Hb). rewrite res_bind_ret. do 2 eexists. split; [reflexivity|].
    split; [exact HR'|]. split; [exact Hh|lia].
  - destruct (quota_write_step L h M q HR Hi Hw Hf) as (o & h' & -> & HR' & _ & Hh & Hb); [done|]. do 2 eexists. split; [reflexivity|].
    split; [exact HR'|]. split; [exact Hh|lia].
Qed.

Fixpoint commits (l : list (Z * util_dqblk)) h : res (quota_handle F) :=
  match l with
  | [] => Ok h
  | c :: l => '(ret, _, h) ← commit h c; _ ← assert_ (ret =? 0); commits l h
  end.

Lemma commits_refine L l : forall h M, quota_rep L h M -> Forall (fun c => is_u32 c.1 /\ wf_dqblk c.2) l ->
  dqi_blocks (qh_info h) + 5 * Z.of_nat (length l) <= L ->
  exists h', commits l h = Ok h' /\ quota_rep L h' (foldl commit_spec M l).
Proof.
  induction l as [|c l IH]; intros h M HR Hl Hroom; [by exists h|]. apply Forall_cons in Hl as [[Hi Hw] Hl]. cbn [length] in Hroom.
  cbn [commits foldl]. destruct (commit_refines L h M c HR Hi Hw) as (q & h1 & -> & HR1 & _ & Hb); [lia|]. rewrite res_bind_ret. cbn [Z.eqb assert_].
  rewrite res_bind_ret. apply IH; [done|done|lia].
Qed.

(** C9: From a new quota file on, any sequence of commits ends in a file whose entries
    are those of the abstract map: the last commit of an id counts, and one without
    usage and limits removes the id. *)
Theorem quota_file_refines_map L h l id : qf_ok (qh_qf h) -> qh_fmt h = QFMT_VFS_V1 -> 0 <= qh_type h < 3 -> L <= 2 ^ 21 -> 1024 * L <= qf_room (qh_qf h) ->
  qf_len (qh_qf h) <= 1024 -> Forall (fun c => is_u32 c.1 /\ wf_dqblk c.2) l ->
  2 + 5 * Z.of_nat (length l) <= L -> is_u32 id ->
  exists h0 h' off, v2_new_io h = Ok (0, h0) /\ commits l h0 = Ok h' /\
    qtree_read_dquot h' id = Ok {| dq_id := id; dqb_off := off;
      dq_dqb := match foldl commit_spec ∅ l !! id with Some b => seen id b | None => zero_dqblk end |}.
Proof.
  intros Hok Hfmt Hty HL Hroom Hz Hl Hn Hi. destruct (new_io_empty L h) as (m & f & _ & He & HR & _); try done; [lia|]. set (h0 := with_qf (new_info h) f) in *.
  destruct (commits_refine L l h0 ∅ HR Hl) as (h' & Hc & HR'); [cbn; unfold QT_TREEOFF; lia|]. destruct (quota_find L h' _ id HR' Hi) as (off & Hf & _).
  exists h0, h', off. split; [done|]. split; [done|]. by apply (quota_read L).
Qed.
End Contract.

(** * The file of a handle *)

(** What the inode promises is what the tree relies on. *)
#[export] Program Instance nomount_laws (D : Type) `{InodeFileLaws D} : QuotaFileLaws (quota_file D) := {
  qf_byte f x := inode_byte (qf_data f) x;
  qf_len f := inode_size (qf_data f);
  qf_ok f := inode_ok (qf_data f) /\ qf_size f = inode_size (qf_data f) /\ inode_size (qf_data f) <= inode_room (qf_data f) < 2 ^ 63;
  qf_room f := inode_room (qf_data f);
}.
Next Obligation. intros D HD HL f x. apply inode_byte_range. Qed.
Next Obligation. intros D HD HL f ofs n [Hk _] Ho Hn Hb. by apply f2fs_read_ok. Qed.
Next Obligation.
  intros D HD HL f ofs bs [Hk [Hs Hx]] Hb Ho Hlen Hr. cbn beta in *. destruct (f2fs_write_ok (qf_data f) ofs bs Hk Hb Ho Hlen) as (d & Hw & Hroom & Hsz & Hk' & Hby); [done|].
  cbn [qf_write nomount_file]. unfold quota_write_nomount. rewrite Hw, res_bind_ret, Z.eqb_refl. cbn [negb].
  eexists. split; [reflexivity|]. cbn [qf_data qf_size]. split; [exact Hroom|]. split; [exact Hsz|]. split; [|exact Hby]. split; [exact Hk'|].
  rewrite Hsz, Hroom, Hs. destruct (Z.ltb_spec (inode_size (qf_data f)) (ofs + Z.of_nat (length bs))); lia.
Qed.

(** A file in memory, of [mf_cap] bytes at most and with the size [mf_size]. *)
Record mem_file := { mf_bytes : list Z; mf_size : Z; mf_cap : Z }.

Definition mem_pad (l : list Z) (n : nat) : list Z := l ++ replicate (n - length l) 0.

#[export] Instance mem_inode : InodeFile mem_file := {
  f2fs_read f ofs n := Ok (u8 <$> take (Z.to_nat (Z.min n (mf_size f - ofs))) (drop (Z.to_nat ofs) (mem_pad (mf_bytes f) (Z.to_nat (mf_size f)))));
  f2fs_write f ofs bs :=
    if ofs + Z.of_nat (length bs) <=? mf_cap f then
      Ok (Z.of_nat (length bs),
          {| mf_bytes := splice (mem_pad (mf_bytes f) (Z.to_nat ofs + length bs)) ofs bs;
             mf_size := Z.max (mf_size f) (ofs + Z.of_nat (length bs)); mf_cap := mf_cap f |})
    else Ok (0, f);
  f2fs_quota_size f := Ok (mf_size f);
  f2fs_filesize_update f n := Ok {| mf_bytes := mf_bytes f; mf_size := n; mf_cap := mf_cap f |};
}.

Lemma length_pad l n : length (mem_pad l n) = Nat.max (length l) n.
Proof. unfold mem_pad. rewrite length_app, length_replicate. lia. Qed.

Lemma lookup_pad l n i : default 0 (mem_pad l n !! i) = default 0 (l !! i).
Proof.
  unfold mem_pad. destruct (decide (i < length l)%nat); [by rewrite lookup_app_l|]. rewrite lookup_app_r, (lookup_ge_None_2 l i) by lia.
  destruct (decide (i - length l < n - length l)%nat); [by rewrite lookup_replicate_2|].
  by rewrite lookup_ge_None_2 by (rewrite length_replicate; lia).
Qed.

#[export] Program Instance mem_laws : InodeFileLaws mem_file := {
  inode_byte f x := if x <? 0 then 0 else u8 (default 0 (mf_bytes f !! Z.to_nat x));
  inode_size f := mf_size f;
  inode_room f := mf_cap f;
  inode_ok f := 0 <= mf_size f;
}.
Next Obligation. intros f x. cbn beta. destruct (x <? 0); [unfold is_u8; lia|apply u8_range]. Qed.
Next Obligation. done. Qed.
Next Obligation.
  intros f ofs n Hk Ho Hn _. cbn beta in *. cbn [f2fs_read mem_inode]. eexists. split; [reflexivity|]. split.
  - rewrite length_fmap, length_take, length_drop, length_pad. lia.
  - intros i x Hx. rewrite (proj2 (Z.ltb_ge _ _)) by lia. rewrite list_lookup_fmap in Hx.
    destruct (decide (i < Z.to_nat (Z.min n (mf_size f - ofs)))%nat) as [Hi|Hi]; [|rewrite lookup_take_ge in Hx by lia; done].
    rewrite lookup_take_lt, lookup_drop in Hx by done. rewrite <- (lookup_pad _ (Z.to_nat (mf_size f))).
    replace (Z.to_nat (ofs + Z.of_nat i)) with (Z.to_nat ofs + i)%nat by lia. by destruct (mem_pad _ _ !! _); inversion Hx.
Qed.
Next Obligation.
  intros f ofs bs Hk Hb Ho Hl Hr. cbn [f2fs_write mem_inode]. cbn beta in *. rewrite (proj2 (Z.leb_le _ _)) by done.
  assert (Hp : ofs + Z.of_nat (length bs) <= Z.of_nat (length (mem_pad (mf_bytes f) (Z.to_nat ofs + length bs)))) by (rewrite length_pad; lia).
  eexists. split; [reflexivity|]. cbn [mf_bytes mf_size mf_cap]. split; [done|]. split; [done|]. split; [lia|].
  intros x. destruct (Z.ltb_spec x 0) as [Hx|Hx].
  - by rewrite (proj2 (Z.leb_gt ofs x)) by lia.
  - rewrite lookup_splice by done. destruct (Z.leb_spec ofs x), (Z.ltb_spec x (ofs + Z.of_nat (length bs))); cbn [andb]; case_decide; try lia; try (by rewrite lookup_pad).
    replace (Z.to_nat x - Z.to_nat ofs)%nat with (Z.to_nat (x - ofs)) by lia. destruct (lookup_lt_is_Some_2 bs (Z.to_nat (x - ofs))) as [y Hy]; [lia|].
    rewrite Hy. exact (u8_id y (Forall_lookup_1 is_u8 bs _ y Hb Hy)).
Qed.
Next Obligation. intros f n Hk Hn. cbn [f2fs_filesize_update mem_inode]. eexists. split; [reflexivity|]. cbn. split_and!; try done. lia. Qed.

Definition usage (space inodes : Z) : util_dqblk := {|
  dqb_ihardlimit := 0; dqb_isoftlimit := 0; dqb_curinodes := inodes; dqb_bhardlimit := 0; dqb_bsoftlimit := 0;
  dqb_curspace := space; dqb_btime := 0; dqb_itime := 0 |}.
Definition sample_handle : quota_handle (quota_file mem_file) :=
  blank_handle {| qf_data := {| mf_bytes := []; mf_size := 0; mf_cap := 102400 |}; qf_size := 0 |} 0.
Definition sample_commits : list (Z * util_dqblk) := [(0, usage 4096 1); (1000, usage 8192 2); (0, usage 0 0)].

Lemma sample_wf : Forall (fun c => is_u32 c.1 /\ wf_dqblk c.2) sample_commits.
Proof. repeat (apply Forall_cons; split; [split; [unfold is_u32; cbn; lia|by constructor; unfold is_s64; cbn; lia]|]). by apply Forall_nil. Qed.

Lemma quota_file_refines_map_witness :
  exists h0 h' off, v2_new_io sample_handle = Ok (0, h0) /\ commits sample_commits h0 = Ok h' /\
    qtree_read_dquot h' 1000 = Ok {| dq_id := 1000; dqb_off := off; dq_dqb := usage 8192 2 |}.
Proof.
  apply (quota_file_refines_map 100 sample_handle sample_commits 1000);
    [split; [done|cbn; lia]|reflexivity|cbn; lia|lia|cbn; lia|cbn; lia|apply sample_wf|cbn; lia|unfold is_u32; lia].
Defined.
