(* ===== verification/QuotaScan.v ===== *)
(** The scan of a quota file visits every entry once: [qtree_scan_dquots] calls the
    callback with the entries of the file's map, in some order. *)
From Stdlib Require Import ZArith Lia List Bool.
From stdpp Require Import base numbers list gmap.
From S2P Require Import Prelude Codec Bits Quota QuotaTree QuotaMap QuotaV2 QuotaFile.

(** * The bitmap of the blocks seen *)

Lemma get_bit_spec bmp b : 0 <= b < nbits bmp -> get_bit bmp b = Ok (bit_le bmp b).
Proof.
  intros Hb. destruct (bit_range_rd bmp b Hb) as [c Hc]. unfold get_bit. rewrite Hc, res_bind_ret, Z.land_comm.
  by rewrite (mask_bit_le bmp b c Hc).
Qed.

Lemma set_bit_spec bmp b : 0 <= b < nbits bmp ->
  exists bmp', set_bit bmp b = Ok bmp' /\ length bmp' = length bmp /\ forall i, 0 <= i -> bit_le bmp' i = (i =? b) || bit_le bmp i.
Proof.
  intros Hb. destruct (bit_range_rd bmp b Hb) as [c Hc]. unfold set_bit. rewrite Hc, res_bind_ret.
  pose proof (bit_byte_index bmp b Hb) as Hi. eexists. split; [apply wr_total; lia|]. split; [by rewrite length_insert|].
  intros i Hi0. unfold bit_le. rewrite (bit_at_update pos_le pos_le_range pos_le_inj bmp b c _ (fun _ => true)); [|done|done| |done].
  - by destruct (i =? b).
  - intros j Hj. change (Z.land b 7) with (pos_le b). rewrite (mask_set c c) by (done || apply pos_le_range). by destruct (j =? pos_le b).
Qed.

(** * The entries of a block *)

(** What the callback gets for the slots from the [k]th on of the data block [b]. *)
Fixpoint dquots_of (M : gmap Z util_dqblk) (b : Z) (k : nat) (s : slots) : list dquot :=
  match s with
  | [] => []
  | None :: s => dquots_of M b (S k) s
  | Some (id, _) :: s =>
      {| dq_id := id; dq_dqb := seen id (default zero_dqblk (M !! id)); dqb_off := 1024 * b + 16 + 72 * Z.of_nat k |} :: dquots_of M b (S k) s
  end.

Lemma length_dquots M b s : forall k, length (dquots_of M b k s) = cnt s.
Proof. induction s as [|[[id e]|] s IH]; intros k; cbn; [done|by rewrite IH|by rewrite IH]. Qed.

Lemma elem_of_dquots M b s q : forall k, q ∈ dquots_of M b k s <-> exists j id e, s !! j = Some (Some (id, e)) /\
  q = {| dq_id := id; dq_dqb := seen id (default zero_dqblk (M !! id)); dqb_off := 1024 * b + 16 + 72 * Z.of_nat (k + j) |}.
Proof.
  induction s as [|o s IH]; intros k; cbn [dquots_of].
  - split; [by intros Hx%not_elem_of_nil|]. by intros (j & id & e & Hj & _).
  - assert (Hs : (exists j id e, s !! j = Some (Some (id, e)) /\
      q = {| dq_id := id; dq_dqb := seen id (default zero_dqblk (M !! id)); dqb_off := 1024 * b + 16 + 72 * Z.of_nat (S k + j) |}) <->
      exists j id e, (o :: s) !! S j = Some (Some (id, e)) /\
      q = {| dq_id := id; dq_dqb := seen id (default zero_dqblk (M !! id)); dqb_off := 1024 * b + 16 + 72 * Z.of_nat (k + S j) |}).
    { by setoid_rewrite (Nat.add_succ_r k). }
    destruct o as [[id e]|]; [rewrite elem_of_cons|]; rewrite IH, Hs.
    + split.
      * intros [->|(j & id' & e' & Hj & ->)]; [|by exists (S j), id', e']. exists 0%nat, id, e. split; [done|]. by rewrite Nat.add_0_r.
      * intros ([|j] & id' & e' & Hj & ->); [left; injection Hj as <- <-; by rewrite Nat.add_0_r|right; by exists j, id', e'].
    + split; [intros (j & id' & e' & Hj & ->); by exists (S j), id', e'|]. intros ([|j] & id' & e' & Hj & ->); [done|by exists j, id', e'].
Qed.

(** Decoding an entry where it is in the block. *)
Lemma disk2mem_slot buf j : good_buf buf -> (j < 14)%nat ->
  v2r1_disk2memdqblk buf (16 + 72 * Z.of_nat j) = v2r1_disk2memdqblk (slot buf j) 0.
Proof.
  intros Hg Hj. unfold v2r1_disk2memdqblk.
  replace (get_le32 buf (16 + 72 * Z.of_nat j)) with (get_le32 buf (16 + 72 * Z.of_nat j + 0)) by (f_equal; lia).
  rewrite !slot_field by (done || lia). destruct Hg as [Hl Hb].
  assert (rd_bytes buf (16 + 72 * Z.of_nat j) (Z.to_nat SIZE_OF_DQBLK) = rd_bytes (slot buf j) 0 (Z.to_nat SIZE_OF_DQBLK)) as ->; [|done].
  pose proof (length_slot buf j (conj Hl Hb) Hj) as Hls. change (Z.to_nat SIZE_OF_DQBLK) with 72%nat.
  rewrite !rd_bytes_Ok by lia. unfold slot. change (Z.to_nat 0) with 0%nat. rewrite drop_0, take_take. do 3 f_equal; lia.
Qed.

(** * The walk *)

(** The data blocks below a prefix. *)
Definition under (g : ghost) (p : list Z) (c : Z) : Prop := exists q, length (p ++ q) = 4%nat /\ gn g !! (p ++ q) = Some c.

Lemma under_leaf g p c : length p = 4%nat -> under g p c <-> gn g !! p = Some c.
Proof.
  intros Hl. split.
  - intros ([|x q] & Hq & Hc); [by rewrite app_nil_r in Hc|]. rewrite length_app in Hq. cbn in Hq. lia.
  - intros Hc. exists []. by rewrite app_nil_r.
Qed.
Lemma under_node g p c : (length p < 4)%nat -> under g p c <-> exists j, under g (p ++ [j]) c.
Proof.
  intros Hl. split.
  - intros ([|j q] & Hq & Hc); [rewrite app_nil_r in Hq; lia|]. exists j, q. by rewrite <- !app_assoc.
  - intros (j & q & Hq & Hc). exists ([j] ++ q). by rewrite app_assoc.
Qed.

Lemma path_surj q : length q = 4%nat -> Forall (fun j => 0 <= j < 256) q -> exists id, is_u32 id /\ path id = q.
Proof.
  intros Hl Hq. destruct q as [|a [|b [|c [|d [|]]]]]; try done. rewrite !Forall_cons in Hq. destruct Hq as (Ha & Hb & Hc & Hd & _).
  exists (((a * 256 + b) * 256 + c) * 256 + d). unfold is_u32, path. split; [lia|]. rewrite !get_index_eq by lia. cbn.
  f_equal; [|f_equal; [|f_equal; [|f_equal]]]; Z.to_euclidean_division_equations; lia.
Qed.

Lemma closed_prefix B n X p q : tree_ok B n X -> is_Some (n !! (p ++ q)) -> is_Some (n !! p).
Proof.
  intros T. induction q as [|j q IH] using rev_ind; [by rewrite app_nil_r|]. rewrite app_assoc. intros [c Hc].
  apply IH. by apply (to_closed _ _ _ T) in Hc.
Qed.

Lemma NoDup_range (V : list Z) n : NoDup V -> (forall b, b ∈ V -> 0 <= b < n) -> (Z.of_nat (length V) <= Z.max 0 n).
Proof.
  intros Hnd Hr. assert (Hs : V ⊆+ seqZ 0 n) by (apply NoDup_submseteq; [done|]; intros b Hb; apply elem_of_seqZ; by apply Hr in Hb).
  apply submseteq_length in Hs. rewrite length_seqZ in Hs. lia.
Qed.

Section Walk.
Context {F : Type} `{QuotaFileLaws F} (L : Z) (h : quota_handle F) (B : Z -> list Z) (g : ghost) (M : gmap Z util_dqblk).
Context (R : rep L h B (qh_info h)) (Q : qinv B (qh_info h) g none None) (HL : 2 < dqi_blocks (qh_info h) <= L) (Hmod : models (gd g) M).
Context {P : Type} (step : dquot -> P -> P) (data0 : P).
Implicit Types (sc : scan P) (V : list Z).

Definition proc (q : dquot) (p : P) : res (Z * P) := Ok (0, step q p).
Definition run (data : P) (qs : list dquot) : P := foldl (fun p q => step q p) data qs.

Lemma report_slots_spec b s n : forall k data, gd g !! b = Some s -> (n + k = 14)%nat ->
  report_slots proc n h b (B b) (Z.of_nat k) data = Ok (run data (dquots_of M b k (drop k s))).
Proof.
  induction n as [|n IH]; intros k data Hs Hk; cbn [report_slots].
  - pose proof (do_len _ _ (di_data _ _ _ (qi_data _ _ _ _ _ Q) b s Hs)). rewrite drop_ge by lia. done.
  - pose proof (di_data _ _ _ (qi_data _ _ _ _ _ Q) b s Hs) as Dok. destruct (rep_room _ _ _ _ R) as [HL' _].
    destruct (pl_datas _ _ (qi_place _ _ _ _ _ Q) b) as [Hbr _]; [by eexists|].
    assert (Hg : good_buf (B b)) by (apply (rep_good L h B _ b R); lia).
    destruct (lookup_lt_is_Some_2 s k) as [o Ho]; [rewrite (do_len _ _ Dok); lia|].
    rewrite slot_unused, res_bind_ret by (done || apply R || lia). rewrite (do_slot _ _ Dok k o Ho), (drop_S s o k Ho).
    replace (Z.of_nat k + 1) with (Z.of_nat (S k)) by lia. destruct o as [[id e]|]; cbn [slot_val dquots_of].
    + assert (Hh : holds (gd g) id b k e) by (by exists s). destruct (di_entry _ _ _ (qi_data _ _ _ _ _ Q) _ _ _ _ Hh) as (Hi & _ & _ & He).
      rewrite decide_False in He by done. rewrite bool_decide_false by tauto. destruct Hmod as [Hm Hn]. destruct (Hn _ _ _ _ Hh) as [x Hx].
      destruct (Hm id x Hx) as (_ & Hw & c & k' & Hh'). destruct (di_once _ _ _ (qi_data _ _ _ _ _ Q) _ _ _ _ _ _ _ Hh Hh') as [<- <-].
      assert (e = entry_of id x) as -> by (destruct Hh as (t & Ht & Htk), Hh' as (t' & Ht' & Htk'); congruence).
      rewrite (rep_size _ _ _ _ R). unfold SIZE_OF_DQDBHEADER. replace (16 + Z.of_nat k * 72) with (16 + 72 * Z.of_nat k) by lia.
      rewrite disk2mem_slot, (do_slot _ _ Dok k _ Ho) by (done || lia). cbn [slot_val]. rewrite disk2mem_entry, res_bind_ret by done.
      match goal with |- context [proc ?q data] => change (proc q data) with (Ok (0, step q data)) end.
      rewrite res_bind_ret. cbn [Z.ltb Z.compare]. rewrite IH by (done || lia). rewrite Hx. cbn [default]. unfold Datatypes.id.
      rewrite shift_blk by lia. unfold run. cbn [foldl]. do 4 f_equal. lia.
    + rewrite bool_decide_true by done. by apply IH; [|lia].
Qed.

(** The blocks [V] have been seen and their entries processed. *)
Record seen_blocks sc V : Prop := {
  sb_len : dqi_blocks (qh_info h) <= nbits (sc_bitmap sc);
  sb_bits : forall b, 0 <= b -> bit_le (sc_bitmap sc) b = bool_decide (b ∈ V);
  sb_nodup : NoDup V;
  sb_data : forall b, b ∈ V -> is_Some (gd g !! b);
  sb_entries : sc_entries sc = Z.of_nat (length (V ≫= (fun b => dquots_of M b 0 (default [] (gd g !! b)))));
  sb_run : sc_data sc = run data0 (V ≫= (fun b => dquots_of M b 0 (default [] (gd g !! b))));
}.

Lemma report_block_spec sc V b : seen_blocks sc V -> is_Some (gd g !! b) -> b ∉ V ->
  exists n sc', report_block proc h b sc = Ok (n, sc') /\ 0 <= n <= 14 /\ sc_entries sc' = sc_entries sc /\
    seen_blocks {| sc_bitmap := sc_bitmap sc'; sc_entries := sc_entries sc' + n; sc_data := sc_data sc' |} (V ++ [b]).
Proof.
  intros [S1 S2 S3 S4 S5 S6] [s Hs] Hb. destruct (rep_room _ _ _ _ R) as [HL' _].
  destruct (pl_datas _ _ (qi_place _ _ _ _ _ Q) b) as [Hbr _]; [by eexists|].
  pose proof (di_data _ _ _ (qi_data _ _ _ _ _ Q) b s Hs) as Dok. pose proof (cnt_le s) as Hc. rewrite (do_len _ _ Dok) in Hc.
  assert (Hg : good_buf (B b)) by (apply (rep_good L h B _ b R); lia). unfold report_block.
  destruct (set_bit_spec (sc_bitmap sc) b) as (bmp & -> & Hl & Hbits); [lia|]. rewrite res_bind_ret.
  rewrite (read_blk_eq L h B _ b R), res_bind_ret, entf_Ok, res_bind_ret, dqstr_14, res_bind_ret by (done || lia || apply R).
  change (report_slots proc (Z.to_nat 14) h b (B b) 0) with (report_slots proc 14 h b (B b) (Z.of_nat 0)).
  rewrite (report_slots_spec b s), res_bind_ret, drop_0 by done. do 2 eexists. split; [reflexivity|]. rewrite (do_cnt _ _ Dok).
  split; [lia|]. split; [done|]. constructor; cbn [sc_bitmap sc_entries sc_data].
  - unfold nbits in *. by rewrite Hl.
  - intros c Hc0. rewrite Hbits, S2 by done. destruct (Z.eqb_spec c b) as [->|Hne]; cbn [orb].
    + rewrite bool_decide_true; [done|]. apply elem_of_app. right. left.
    + apply bool_decide_ext. rewrite elem_of_app, list_elem_of_singleton. tauto.
  - apply NoDup_app. split; [done|]. split; [|apply NoDup_singleton]. intros x Hx ->%list_elem_of_singleton. done.
  - intros x [Hx| ->%list_elem_of_singleton]%elem_of_app; [by apply S4|by eexists].
  - rewrite bind_app, length_app. cbn [mbind list_bind]. rewrite Hs, app_nil_r, length_dquots, S5. cbn [default]. unfold Datatypes.id. lia.
  - rewrite bind_app. cbn [mbind list_bind]. rewrite Hs, app_nil_r. unfold run. rewrite foldl_app. by rewrite S6.
Qed.

Lemma not_under p x : gn g !! p = None -> ~ under g p x.
Proof.
  intros Hn (q & _ & Hc). destruct (closed_prefix B (gn g) none p q (qi_tree _ _ _ _ _ Q)) as [c Hx]; [by eexists|congruence].
Qed.

Lemma under_data p c : length p = 4%nat -> gn g !! p = Some c -> is_Some (gd g !! c) /\ 1 <= c < dqi_blocks (qh_info h).
Proof.
  intros Hl Hc. destruct (path_surj p Hl) as (id & Hi & <-); [by apply (to_key _ _ _ (qi_tree _ _ _ _ _ Q) _ _ Hc)|].
  apply (qi_where _ _ _ _ _ Q) in Hc as (j & e & s & Hs & _); [|done]. split; [by eexists|]. apply (pl_datas _ _ (qi_place _ _ _ _ _ Q)). by eexists.
Qed.

Lemma entries_bound V : NoDup V -> (forall b, b ∈ V -> is_Some (gd g !! b)) ->
  Z.of_nat (length (V ≫= (fun b => dquots_of M b 0 (default [] (gd g !! b))))) <= 14 * 2 ^ 21.
Proof.
  intros Hnd Hd. destruct (rep_room _ _ _ _ R) as [HL' _]. assert (Hv : Z.of_nat (length V) <= Z.max 0 (dqi_blocks (qh_info h))).
  { apply NoDup_range; [done|]. intros b Hb. apply Hd, (pl_datas _ _ (qi_place _ _ _ _ _ Q)) in Hb. lia. }
  assert (Hlen : (length (V ≫= (fun b => dquots_of M b 0 (default [] (gd g !! b)))) <= 14 * length V)%nat); [|lia].
  clear Hnd Hv. induction V as [|b V IH]; [done|]. cbn [mbind list_bind length]. rewrite length_app, length_dquots.
  destruct (Hd b) as [s Hs]; [left|]. rewrite Hs. cbn [default]. unfold id. pose proof (cnt_le s) as Hc.
  rewrite (do_len _ _ (di_data _ _ _ (qi_data _ _ _ _ _ Q) b s Hs)) in Hc.
  assert (Hv : (length (V ≫= (fun b => dquots_of M b 0 (default [] (gd g !! b)))) <= 14 * length V)%nat).
  { apply IH. intros c Hcv. apply Hd. by right. }
  set (X := length (V ≫= _)) in *. clearbody X. lia.
Qed.

(** [r] is the walk below [p]. *)
Definition visits p V (r : res (Z * scan P)) : Prop :=
  exists sc' V', r = Ok (0, sc') /\ seen_blocks sc' (V ++ V') /\ (forall x, x ∈ V' -> under g p x) /\ forall x, under g p x -> x ∈ V ++ V'.

Lemma report_refs_spec p b body n : gn g !! p = Some b -> (length p <= 3)%nat ->
  (forall j c sc V, gn g !! (p ++ [j]) = Some c -> seen_blocks sc V -> visits (p ++ [j]) V (body c sc)) ->
  forall k sc V, (n + k = 256)%nat -> seen_blocks sc V ->
  exists sc' V', report_refs n body (B b) (Z.of_nat k) sc = Ok (0, sc') /\ seen_blocks sc' (V ++ V') /\
    (forall x, x ∈ V' -> under g p x) /\ forall j x, Z.of_nat k <= j -> under g (p ++ [j]) x -> x ∈ V ++ V'.
Proof.
  intros Hb Hl Hbody. destruct (rep_room _ _ _ _ R) as [HL' _].
  destruct (pl_nodes _ _ (qi_place _ _ _ _ _ Q) _ _ Hb) as (Hbr & _); [done|]. assert (Hg : good_buf (B b)) by (apply (rep_good L h B _ b R); lia).
  induction n as [|n IH]; intros k sc V Hk Hsc; cbn [report_refs].
  - exists sc, []. rewrite app_nil_r. split_and!; try done; [by intros x Hx%not_elem_of_nil|]. intros j x Hj (q & _ & Hc).
    destruct (to_key _ _ _ (qi_tree _ _ _ _ _ Q) _ _ Hc) as [_ Hr]. rewrite !Forall_app, Forall_cons in Hr. lia.
  - rewrite ref_Ok, res_bind_ret by (done || lia). rewrite (to_refs _ _ _ (qi_tree _ _ _ _ _ Q) _ _ _ Hb) by (done || lia || intros []).
    replace (Z.of_nat k + 1) with (Z.of_nat (S k)) by lia. destruct (gn g !! (p ++ [Z.of_nat k])) as [c|] eqn:Hc; cbn [default].
    + pose proof (to_pos _ _ _ (qi_tree _ _ _ _ _ Q) _ _ Hc) as Hcr. unfold id. rewrite (proj2 (Z.eqb_neq _ _)) by lia.
      destruct (Hbody (Z.of_nat k) c sc V Hc Hsc) as (sc1 & V1 & -> & Hs1 & Hu1 & Hv1). rewrite res_bind_ret. cbn [Z.eqb negb].
      destruct (IH (S k) sc1 (V ++ V1)) as (sc2 & V2 & -> & Hs2 & Hu2 & Hv2); [lia|done|]. rewrite <- app_assoc in *.
      exists sc2, (V1 ++ V2). split_and!; try done.
      * intros x [Hx|Hx]%elem_of_app; [|by apply Hu2]. apply under_node; [lia|]. exists (Z.of_nat k). by apply Hu1.
      * intros j x Hj Hx. destruct (decide (j = Z.of_nat k)) as [->|]; [|by apply (Hv2 j); [lia|]].
        rewrite app_assoc. apply elem_of_app. left. by apply Hv1.
    + cbn [Z.eqb]. destruct (IH (S k) sc V) as (sc2 & V2 & -> & Hs2 & Hu2 & Hv2); [lia|done|]. exists sc2, V2. split_and!; try done.
      intros j x Hj Hx. destruct (decide (j = Z.of_nat k)) as [->|]; [|by apply (Hv2 j); [lia|]]. by apply not_under in Hx.
Qed.

Lemma report_tree_spec n : forall p b sc V, (n + length p = 4)%nat -> (1 <= n)%nat -> gn g !! p = Some b -> seen_blocks sc V ->
  visits p V (report_tree proc n h b (Z.of_nat (length p)) sc).
Proof.
  induction n as [|n IH]; intros p b sc V Hn Hn1 Hb Hsc; [lia|]. destruct (rep_room _ _ _ _ R) as [HL' _].
  destruct (pl_nodes _ _ (qi_place _ _ _ _ _ Q) _ _ Hb) as (Hbr & _); [lia|]. cbn [report_tree].
  rewrite (read_blk_eq L h B _ b R), res_bind_ret by lia. set (body := fun blk sc => _).
  destruct (report_refs_spec p b body 256 Hb ltac:(lia)) with (k := 0%nat) (sc := sc) (V := V) as (sc' & V' & He & Hs' & Hu & Hv); [|done|done|].
  - intros j c sc1 V1 Hc Hs1. subst body. cbn beta. unfold check_reference, QT_TREEDEPTH.
    destruct (decide (length p = 3)%nat) as [Hp3|Hp3].
    + assert (Hl4 : length (p ++ [j]) = 4%nat) by (rewrite length_app; cbn; lia). destruct (under_data _ _ Hl4 Hc) as [Hdc Hcr].
      rewrite (proj2 (Z.leb_gt _ _)), (proj2 (Z.eqb_eq _ (4 - 1))) by lia. cbn [Z.eqb negb].
      rewrite get_bit_spec, res_bind_ret, (sb_bits _ _ Hs1) by (pose proof (sb_len _ _ Hs1); lia). case_bool_decide as Hin; cbn [negb].
      * exists sc1, []. rewrite app_nil_r. split_and!; try done; [by intros x Hx%not_elem_of_nil|]. intros x Hx%under_leaf; [|done]. congruence.
      * destruct (report_block_spec sc1 V1 c Hs1 Hdc Hin) as (k & sc2 & -> & Hk & He2 & Hs2). rewrite res_bind_ret.
        rewrite (proj2 (Z.ltb_ge _ _)) by lia. pose proof (entries_bound V1 (sb_nodup _ _ Hs1) (sb_data _ _ Hs1)) as Heb.
        rewrite <- (sb_entries _ _ Hs1) in Heb. rewrite (proj2 (Z.ltb_lt (sc_entries sc2 + k) (2 ^ 31))) by lia. cbn [defined_]. rewrite res_bind_ret.
        do 2 eexists. split; [reflexivity|]. split; [exact Hs2|]. split.
        -- intros x ->%list_elem_of_singleton. by apply under_leaf.
        -- intros x Hx%under_leaf; [|done]. replace x with c by congruence. apply elem_of_app. right. left.
    + destruct (pl_nodes _ _ (qi_place _ _ _ _ _ Q) _ _ Hc) as (Hcr & _); [rewrite length_app; cbn; lia|].
      rewrite (proj2 (Z.leb_gt _ _)), (proj2 (Z.eqb_neq _ (4 - 1))) by lia. cbn [Z.eqb negb].
      replace (Z.of_nat (length p) + 1) with (Z.of_nat (length (p ++ [j]))) by (rewrite length_app; cbn; lia).
      apply IH; [rewrite length_app; cbn; lia|lia|done|done].
  - exists sc', V'. split; [exact He|]. split; [done|]. split; [done|]. intros x [j Hj]%under_node; [|lia].
    apply (Hv j); [|done]. destruct Hj as (q & _ & Hc). destruct (to_key _ _ _ (qi_tree _ _ _ _ _ Q) _ _ Hc) as [_ Hr]. rewrite !Forall_app, Forall_cons in Hr. lia.
Qed.
End Walk.

(** * All entries, once *)

Lemma find_set_bits_Ok bmp n : forall i, 0 <= i -> i + Z.of_nat n <= nbits bmp -> exists k, find_set_bits n bmp i = Ok k.
Proof.
  induction n as [|n IH]; intros i Hi Hn; cbn [find_set_bits]; [by eexists|]. rewrite get_bit_spec, res_bind_ret by lia.
  destruct (IH (i + 1)) as [k ->]; [lia|lia|]. rewrite res_bind_ret. by eexists.
Qed.

Lemma NoDup_dquots M b s : forall k, NoDup (dquots_of M b k s).
Proof.
  induction s as [|[[id e]|] s IH]; intros k; cbn [dquots_of]; [apply NoDup_nil_2| |apply IH].
  apply NoDup_cons. split; [|apply IH]. intros (j & id' & e' & _ & Hq)%elem_of_dquots. injection Hq as _ _ Hq. lia.
Qed.

(** The entries of the blocks [V], when these are the blocks with entries. *)
Lemma all_dquots (B : Z -> list Z) g M V : data_inv B (gd g) None -> models (gd g) M -> NoDup V ->
  (forall id b j e, holds (gd g) id b j e -> b ∈ V) ->
  let qs := V ≫= (fun b => dquots_of M b 0 (default [] (gd g !! b))) in
  (fun q => (dq_id q, dq_dqb q)) <$> qs ≡ₚ (fun p => (p.1, seen p.1 p.2)) <$> map_to_list M /\
  forall q, q ∈ qs -> exists b j e, holds (gd g) (dq_id q) b j e /\ dqb_off q = 1024 * b + 16 + 72 * Z.of_nat j.
Proof.
  intros D [Hm Hn] Hnd Hv qs.
  assert (Hq : forall q, q ∈ qs <-> exists b j id e, b ∈ V /\ holds (gd g) id b j e /\
    q = {| dq_id := id; dq_dqb := seen id (default zero_dqblk (M !! id)); dqb_off := 1024 * b + 16 + 72 * Z.of_nat j |}).
  { intros q. subst qs. rewrite list_elem_of_bind. split.
    - intros (b & Hq & Hb). apply elem_of_dquots in Hq as (j & id & e & Hj & ->). exists b, j, id, e. split; [done|]. split; [|done].
      destruct (gd g !! b) as [s|] eqn:Hs; [by exists s|done].
    - intros (b & j & id & e & Hb & (s & Hs & Hj) & ->). exists b. split; [|done]. apply elem_of_dquots. exists j, id, e. by rewrite Hs. }
  split.
  - apply NoDup_Permutation.
    + apply NoDup_fmap_2_strong.
      * intros q1 q2 (b1 & j1 & id1 & e1 & _ & Hh1 & ->)%Hq (b2 & j2 & id2 & e2 & _ & Hh2 & ->)%Hq [= <- _].
        by destruct (di_once _ _ _ D _ _ _ _ _ _ _ Hh1 Hh2) as [<- <-].
      * subst qs. apply NoDup_bind; [|intros b _; apply NoDup_dquots|done]. intros b1 b2 q _ _ Hq1 Hq2.
        apply elem_of_dquots in Hq1 as (j1 & id1 & e1 & Hj1 & ->), Hq2 as (j2 & id2 & e2 & Hj2 & [= <- _ Ho]).
        destruct (gd g !! b1) as [s1|] eqn:Hs1; [|done]. destruct (gd g !! b2) as [s2|] eqn:Hs2; [|done].
        assert (Hh1 : holds (gd g) id1 b1 j1 e1) by (by exists s1). assert (Hh2 : holds (gd g) id1 b2 j2 e2) by (by exists s2).
        by destruct (di_once _ _ _ D _ _ _ _ _ _ _ Hh1 Hh2).
    + apply NoDup_fmap_2_strong; [|apply NoDup_map_to_list]. intros [i1 b1] [i2 b2] H1%elem_of_map_to_list H2%elem_of_map_to_list.
      cbn. intros [= <- _]. congruence.
    + intros [id x]. rewrite !list_elem_of_fmap. split.
      * intros (q & [= -> ->] & Hx). apply Hq in Hx as (b & j & id & e & _ & Hh & ->). cbn [dq_id dq_dqb].
        destruct (Hn _ _ _ _ Hh) as [y Hy]. exists (id, y). rewrite Hy. split; [done|]. by apply elem_of_map_to_list.
      * intros ([id' y] & [= -> ->] & Hy%elem_of_map_to_list). destruct (Hm id' y Hy) as (_ & _ & b & j & Hh).
        eexists. split; [|apply Hq; exists b, j, id', (entry_of id' y); split; [by apply (Hv id' b j (entry_of id' y))|split; [exact Hh|reflexivity]]].
        cbn [dq_id dq_dqb]. by rewrite Hy.
  - intros q (b & j & id & e & _ & Hh & ->)%Hq. by exists b, j, e.
Qed.

(** Nothing is below a block without references. *)
Lemma report_refs_empty {P} body n : forall k (sc : scan P), (n + k = 256)%nat -> report_refs n body empty_buf (Z.of_nat k) sc = Ok (0, sc).
Proof.
  induction n as [|n IH]; intros k sc Hk; cbn [report_refs]; [done|]. rewrite ref_Ok, res_bind_ret by (apply good_empty || lia).
  rewrite ref_empty by lia. cbn [Z.eqb]. replace (Z.of_nat k + 1) with (Z.of_nat (S k)) by lia. by apply IH; lia.
Qed.

Lemma models_empty M : models ∅ M -> M = ∅.
Proof.
  intros [Hm _]. apply map_empty. intros id. destruct (M !! id) as [b|] eqn:Hb; [|done].
  destruct (Hm id b Hb) as (_ & _ & c & j & s & Hs & _). by rewrite lookup_empty in Hs.
Qed.

Section ScanAll.
Context {F : Type} `{QuotaFileLaws F} {P : Type} (step : dquot -> P -> P).
Implicit Types (h : quota_handle F) (M : gmap Z util_dqblk).

(** The callback is called exactly once with every entry of the map, with its offset. *)
Lemma quota_scan_all L h M (data : P) : quota_rep L h M ->
  exists qs blocks, qtree_scan_dquots (proc step) h data =
      Ok (0, foldl (fun p q => step q p) data qs, with_scan h (Z.of_nat (size M)) blocks) /\
    (fun q => (dq_id q, dq_dqb q)) <$> qs ≡ₚ (fun p => (p.1, seen p.1 p.2)) <$> map_to_list M /\
    forall q, q ∈ qs -> find_dqentry h (dq_id q) = Ok (dqb_off q).
Proof.
  intros (B & g & R & HL1 & Hmod & HS). destruct (rep_room _ _ _ _ R) as [HL' _].
  assert (H2 : 2 <= dqi_blocks (qh_info h)) by (destruct HS as [[? _]|[[-> _] _]]; [lia|done]). unfold qtree_scan_dquots. set (size0 := Z.shiftr _ 3).
  assert (Hsz : dqi_blocks (qh_info h) <= 8 * size0).
  { subst size0. rewrite u32_id, Z.shiftr_div_pow2 by (unfold is_u32; lia). Z.to_euclidean_division_equations. lia. }
  set (sc0 := {| sc_bitmap := replicate (Z.to_nat size0) 0; sc_entries := 0; sc_data := data |}).
  assert (S0 : seen_blocks h g M step data sc0 []).
  { constructor; cbn; try done.
    - unfold nbits. rewrite length_replicate. lia.
    - intros b Hb. unfold bit_le, bit_at. destruct (replicate _ 0 !! _) as [x|] eqn:Hx; [|done].
      apply lookup_replicate in Hx as [-> _]. apply Z.testbit_0_l.
    - apply NoDup_nil_2.
    - by intros b Hb%not_elem_of_nil. }
  destruct HS as [[H3 Q]|[(_ & _ & _ & Hlen) ->]]; [|clear S0].
  2:{ apply models_empty in Hmod as ->. cbn [report_tree]. rewrite (read_root_new L h B _ R Hlen), res_bind_ret.
      rewrite (report_refs_empty _ 256 0 sc0 eq_refl), res_bind_ret. cbn [Z.eqb negb sc_bitmap sc_entries sc_data sc0].
      destruct (find_set_bits_Ok (replicate (Z.to_nat size0) 0) (Z.to_nat (s32 (dqi_blocks (qh_info h)))) 0) as [k ->];
        [lia|rewrite s32_blk by lia; unfold nbits; rewrite length_replicate; lia|].
      rewrite res_bind_ret. exists [], k. rewrite map_size_empty, map_to_list_empty. split; [done|]. split; [done|]. by intros q Hq%not_elem_of_nil. }
  pose proof (conj H3 HL1) as HL. destruct (report_tree_spec L h B g M R Q HL Hmod step data 4 [] QT_TREEOFF sc0 [] eq_refl ltac:(lia)) as (sc & V & He & Hs & _ & Hv); [apply Q|exact S0|].
  cbn [length] in He. change (Z.of_nat 0) with 0 in He. rewrite He, res_bind_ret. cbn [Z.eqb negb app] in *.
  destruct (find_set_bits_Ok (sc_bitmap sc) (Z.to_nat (s32 (dqi_blocks (qh_info h)))) 0) as [k ->]; [lia|rewrite s32_blk by lia; pose proof (sb_len _ _ _ _ _ _ _ Hs); lia|].
  rewrite res_bind_ret. destruct (all_dquots B g M V (qi_data _ _ _ _ _ Q) Hmod (sb_nodup _ _ _ _ _ _ _ Hs)) as [Hperm Hoff].
  { intros id b j e Hh. apply Hv. exists (path id). split; [done|]. cbn [app]. apply (qi_where _ _ _ _ _ Q); [|by eauto].
    by destruct (di_entry _ _ _ (qi_data _ _ _ _ _ Q) _ _ _ _ Hh). }
  eexists _, k. split; [|split; [exact Hperm|]].
  - rewrite (sb_run _ _ _ _ _ _ _ Hs), (sb_entries _ _ _ _ _ _ _ Hs). do 3 f_equal.
    apply Permutation_length in Hperm. rewrite !length_fmap, length_map_to_list in Hperm. rewrite Hperm.
    pose proof (entries_bound L h B g M R Q HL V (sb_nodup _ _ _ _ _ _ _ Hs) (sb_data _ _ _ _ _ _ _ Hs)) as Hb. rewrite Hperm in Hb.
    apply u32_id. unfold is_u32. lia.
  - intros q Hq. destruct (Hoff q Hq) as (b & j & e & Hh & ->). apply (find_dqentry_held L h B (qh_info h) g _ b j e R Q HL); [|done].
    by destruct (di_entry _ _ _ (qi_data _ _ _ _ _ Q) _ _ _ _ Hh).
Qed.
End ScanAll.

(** C23: Scanning a quota file with a callback that collects its arguments gives every
    entry of the file's map exactly once, with the offset at which looking it up finds
    it, and the number of entries is counted. *)
Theorem quota_scan_collects {F} `{QuotaFileLaws F} L (h : quota_handle F) M : quota_rep L h M ->
  exists qs blocks, qtree_scan_dquots (fun q l => Ok (0, q :: l)) h [] = Ok (0, qs, with_scan h (Z.of_nat (size M)) blocks) /\
    (fun q => (dq_id q, dq_dqb q)) <$> qs ≡ₚ (fun p => (p.1, seen p.1 p.2)) <$> map_to_list M /\
    forall q, q ∈ qs -> find_dqentry h (dq_id q) = Ok (dqb_off q).
Proof.
  intros HR. destruct (quota_scan_all cons L h M [] HR) as (qs & k & Hs & Hp & Ho).
  assert (Hrev : forall l acc, foldl (fun p (q : dquot) => q :: p) acc l = rev l ++ acc).
  { induction l as [|q l IH]; intros acc; [done|]. cbn. by rewrite IH, <- app_assoc. }
  rewrite Hrev, app_nil_r in Hs. exists (rev qs), k. split; [exact Hs|]. rewrite <- (Permutation_rev qs). split; [exact Hp|].
  intros q Hq. apply Ho. apply list_elem_of_In. apply in_rev. by apply list_elem_of_In.
Qed.

Lemma quota_scan_collects_witness : exists (h : quota_handle (quota_file mem_file)) qs blocks,
  quota_rep 100 h {[ 1000 := usage 8192 2 ]} /\
  qtree_scan_dquots (fun q l => Ok (0, q :: l)) h [] = Ok (0, qs, with_scan h 1 blocks) /\
  (fun q => (dq_id q, dq_dqb q)) <$> qs ≡ₚ [(1000, usage 8192 2)].
Proof.
  destruct (new_io_empty 100 sample_handle) as (m & f & _ & _ & HR & _); [split; [done|cbn; lia]|done|cbn; lia|lia|lia|cbn; lia|cbn; lia|].
  destruct (commits_refine 100 sample_commits _ ∅ HR sample_wf) as (h & _ & HR'); [cbn; unfold QT_TREEOFF; lia|].
  assert (E : foldl commit_spec ∅ sample_commits = {[ 1000 := usage 8192 2 ]}) by (vm_compute; reflexivity). rewrite E in HR'.
  destruct (quota_scan_collects 100 h _ HR') as (qs & blocks & Hs & Hp & _). exists h, qs, blocks. split; [exact HR'|]. split; [exact Hs|].
  rewrite map_to_list_singleton in Hp. exact Hp.
Defined.
