(* ===== verification/QuotaOpen.v ===== *)
(** Closing a quota file and opening it again gives the same map: what the handle knows
    is on disk, and the checks of [quota_file_open] accept it. *)
From Stdlib Require Import ZArith Lia List Bool.
From stdpp Require Import base numbers list gmap.
From S2P Require Import Prelude Codec Bits Quota QuotaTree QuotaMap QuotaV2 QuotaFile.

(** * The information in the handle changes only with the dirty flag *)

Section Frame.
Context {F : Type} `{QuotaFile F}.
Implicit Types h : quota_handle F.

Record framed h h' : Prop := {
  fr_type : qh_type h' = qh_type h;
  fr_fmt : qh_fmt h' = qh_fmt h;
  fr_bgrace : qh_bgrace h' = qh_bgrace h;
  fr_igrace : qh_igrace h' = qh_igrace h;
  fr_flags : qh_flags h' = qh_flags h;
  fr_info : qh_dirty h' = true \/ (qh_dirty h' = qh_dirty h /\ qh_info h' = qh_info h);
}.

Lemma framed_refl h : framed h h.
Proof. constructor; auto. Qed.
Lemma framed_qf h f : framed h (with_qf h f).
Proof. constructor; auto. Qed.
Lemma framed_info h i : framed h (with_info h i).
Proof. constructor; auto. Qed.
Lemma framed_trans h1 h2 h3 : framed h1 h2 -> framed h2 h3 -> framed h1 h3.
Proof.
  intros [A1 A2 A3 A4 A5 A6] [B1 B2 B3 B4 B5 B6]. constructor; try congruence.
  destruct B6 as [?|[Hd Hi]]; [by left|]. destruct A6 as [?|[Hd' Hi']]; [left|right]; [congruence|split; congruence].
Qed.

(** Runs the steps of an operation that has given a result. *)
Ltac steps :=
  repeat match goal with
  | H : (_ ≫= _) = Ok _ |- _ => apply res_bind_Ok in H as (? & ? & ?)
  | H : Ok _ = Ok _ |- _ => injection H as ?; subst
  | H : (let '(_, _) := ?x in _) = Ok _ |- _ => destruct x
  | H : (if ?b then _ else _) = Ok _ |- _ => destruct b
  | H : (_, _) = (_, _) |- _ => injection H as ?; subst
  end.
(** The operations whose frame is known. *)
Ltac known H := fail.
Ltac walk :=
  match goal with
  | |- framed ?a ?a => apply framed_refl
  | |- framed _ (with_qf _ _) => eapply framed_trans; [|apply framed_qf]; walk
  | |- framed _ (with_info _ _) => eapply framed_trans; [|apply framed_info]; walk
  | H : framed _ ?b |- framed _ ?b => eapply framed_trans; [|exact H]; walk
  end.
Ltac chain := steps; repeat match goal with H : _ = Ok _ |- _ => known H end; walk.

Lemma write_blk_framed h b buf r h' : write_blk h b buf = Ok (r, h') -> framed h h'.
Proof. unfold write_blk. intros Hx. chain. Qed.
Ltac known H ::= lazymatch type of H with
  | write_blk _ _ _ = _ => apply write_blk_framed in H
  end.

Lemma get_free_framed h r h' : get_free_dqblk h = Ok (r, h') -> framed h h'.
Proof. unfold get_free_dqblk. cbv zeta. intros Hx. chain. Qed.
Lemma put_free_framed h buf b h' : put_free_dqblk h buf b = Ok h' -> framed h h'.
Proof. unfold put_free_dqblk. cbv zeta. intros Hx. chain. Qed.
Lemma relink_framed h b o v h' : relink h b o v = Ok h' -> framed h h'.
Proof. unfold relink. intros Hx. chain. Qed.
Ltac known H ::= lazymatch type of H with
  | write_blk _ _ _ = _ => apply write_blk_framed in H
  | get_free_dqblk _ = _ => apply get_free_framed in H
  | put_free_dqblk _ _ _ = _ => apply put_free_framed in H
  | relink _ _ _ _ = _ => apply relink_framed in H
  end.

Lemma remove_free_framed h buf b r h' : remove_free_dqentry h buf b = Ok (r, h') -> framed h h'.
Proof. unfold remove_free_dqentry. intros Hx. chain. Qed.
Lemma insert_free_framed h buf b h' : insert_free_dqentry h buf b = Ok h' -> framed h h'.
Proof. unfold insert_free_dqentry. cbv zeta. intros Hx. chain. Qed.
Ltac known H ::= lazymatch type of H with
  | write_blk _ _ _ = _ => apply write_blk_framed in H
  | get_free_dqblk _ = _ => apply get_free_framed in H
  | put_free_dqblk _ _ _ = _ => apply put_free_framed in H
  | relink _ _ _ _ = _ => apply relink_framed in H
  | remove_free_dqentry _ _ _ = _ => apply remove_free_framed in H
  | insert_free_dqentry _ _ _ = _ => apply insert_free_framed in H
  end.

Lemma find_free_framed h off a b c h' : find_free_dqentry h off = Ok (a, b, c, h') -> framed h h'.
Proof. unfold find_free_dqentry. cbv zeta. intros Hx. chain. Qed.
Ltac known H ::= lazymatch type of H with
  | write_blk _ _ _ = _ => apply write_blk_framed in H
  | get_free_dqblk _ = _ => apply get_free_framed in H
  | put_free_dqblk _ _ _ = _ => apply put_free_framed in H
  | relink _ _ _ _ = _ => apply relink_framed in H
  | remove_free_dqentry _ _ _ = _ => apply remove_free_framed in H
  | insert_free_dqentry _ _ _ = _ => apply insert_free_framed in H
  | find_free_dqentry _ _ = _ => apply find_free_framed in H
  end.

Lemma do_insert_framed n : forall h id off tb d a b c h', do_insert_tree n h id off tb d = Ok (a, b, c, h') -> framed h h'.
Proof.
  induction n as [|n IH]; intros h id off tb d a b c h' Hx; [done|]. cbn [do_insert_tree] in Hx. cbv zeta in Hx.
  steps; repeat match goal with H : _ = Ok _ |- _ => first [known H | lazymatch type of H with do_insert_tree _ _ _ _ _ _ = _ => apply IH in H end] end; walk.
Qed.
Ltac known H ::= lazymatch type of H with
  | write_blk _ _ _ = _ => apply write_blk_framed in H
  | get_free_dqblk _ = _ => apply get_free_framed in H
  | put_free_dqblk _ _ _ = _ => apply put_free_framed in H
  | relink _ _ _ _ = _ => apply relink_framed in H
  | remove_free_dqentry _ _ _ = _ => apply remove_free_framed in H
  | insert_free_dqentry _ _ _ = _ => apply insert_free_framed in H
  | find_free_dqentry _ _ = _ => apply find_free_framed in H
  | do_insert_tree _ _ _ _ _ _ = _ => apply do_insert_framed in H
  end.

Lemma free_framed h off b h' : free_dqentry h off b = Ok h' -> framed h h'.
Proof. unfold free_dqentry. cbv zeta. intros Hx. chain. Qed.
Ltac known H ::= lazymatch type of H with
  | write_blk _ _ _ = _ => apply write_blk_framed in H
  | get_free_dqblk _ = _ => apply get_free_framed in H
  | put_free_dqblk _ _ _ = _ => apply put_free_framed in H
  | relink _ _ _ _ = _ => apply relink_framed in H
  | remove_free_dqentry _ _ _ = _ => apply remove_free_framed in H
  | insert_free_dqentry _ _ _ = _ => apply insert_free_framed in H
  | find_free_dqentry _ _ = _ => apply find_free_framed in H
  | do_insert_tree _ _ _ _ _ _ = _ => apply do_insert_framed in H
  | free_dqentry _ _ _ = _ => apply free_framed in H
  end.

Lemma remove_tree_framed n : forall h id off b d a h', remove_tree n h id off b d = Ok (a, h') -> framed h h'.
Proof.
  induction n as [|n IH]; intros h id off b d a h' Hx; [done|]. cbn [remove_tree] in Hx. cbv zeta in Hx.
  steps; repeat match goal with H : _ = Ok _ |- _ => first [known H | lazymatch type of H with remove_tree _ _ _ _ _ _ = _ => apply IH in H end] end; walk.
Qed.
Ltac known H ::= lazymatch type of H with
  | write_blk _ _ _ = _ => apply write_blk_framed in H
  | get_free_dqblk _ = _ => apply get_free_framed in H
  | put_free_dqblk _ _ _ = _ => apply put_free_framed in H
  | relink _ _ _ _ = _ => apply relink_framed in H
  | remove_free_dqentry _ _ _ = _ => apply remove_free_framed in H
  | insert_free_dqentry _ _ _ = _ => apply insert_free_framed in H
  | find_free_dqentry _ _ = _ => apply find_free_framed in H
  | do_insert_tree _ _ _ _ _ _ = _ => apply do_insert_framed in H
  | free_dqentry _ _ _ = _ => apply free_framed in H
  | remove_tree _ _ _ _ _ _ = _ => apply remove_tree_framed in H
  end.

Lemma write_framed h q r q' h' : qtree_write_dquot h q = Ok (r, q', h') -> framed h h'.
Proof. unfold qtree_write_dquot, dq_insert_tree. cbv zeta. intros Hx. chain. Qed.
Lemma delete_framed h q q' h' : qtree_delete_dquot h q = Ok (q', h') -> framed h h'.
Proof. unfold qtree_delete_dquot. intros Hx. chain. Qed.
Ltac known H ::= lazymatch type of H with
  | write_blk _ _ _ = _ => apply write_blk_framed in H
  | get_free_dqblk _ = _ => apply get_free_framed in H
  | put_free_dqblk _ _ _ = _ => apply put_free_framed in H
  | relink _ _ _ _ = _ => apply relink_framed in H
  | remove_free_dqentry _ _ _ = _ => apply remove_free_framed in H
  | insert_free_dqentry _ _ _ = _ => apply insert_free_framed in H
  | find_free_dqentry _ _ = _ => apply find_free_framed in H
  | do_insert_tree _ _ _ _ _ _ = _ => apply do_insert_framed in H
  | free_dqentry _ _ _ = _ => apply free_framed in H
  | remove_tree _ _ _ _ _ _ = _ => apply remove_tree_framed in H
  | qtree_write_dquot _ _ = _ => apply write_framed in H
  | qtree_delete_dquot _ _ = _ => apply delete_framed in H
  end.

Lemma commit_dquot_framed h q r q' h' : v2_commit_dquot h q = Ok (r, q', h') -> framed h h'.
Proof. unfold v2_commit_dquot. cbv zeta. intros Hx. chain. Qed.
End Frame.

(** * What is on disk *)

Lemma qinv_ext_used B B' i g X pend : (forall b, 1 <= b < dqi_blocks i -> B' b = B b) -> qinv B i g X pend -> qinv B' i g X pend.
Proof.
  intros He [T D P Fr Pl W]. constructor; try done.
  - eapply tree_ok_ext; [|exact T]. intros p b Hp Hl _. by apply He, (pl_nodes _ _ Pl p b).
  - eapply data_inv_ext; [|exact D]. intros b Hb. by apply He, (pl_datas _ _ Pl b).
  - eapply part_ok_ext'; [|exact P]. intros b Hb. by apply He, (pl_datas _ _ Pl b).
  - eapply free_ok_ext; [|exact Fr]. intros b Hb. by apply He, (pl_frees _ _ Pl b).
Qed.

Section OnDisk.
Context {F : Type} `{QuotaFileLaws F}.
Implicit Types h : quota_handle F.

Definition bytes_at (f : F) (ofs : Z) (bs : list Z) : Prop := forall k x, bs !! k = Some x -> qf_byte f (ofs + Z.of_nat k) = x.

Lemma bytes_at_blk f f' ofs bs : blk_of f' 0 = blk_of f 0 -> 0 <= ofs -> ofs + Z.of_nat (length bs) <= 1024 -> bytes_at f ofs bs -> bytes_at f' ofs bs.
Proof.
  intros He Ho Hl Hb k x Hk. rewrite <- (Hb k x Hk). pose proof (lookup_lt_Some _ _ _ Hk) as Hlt.
  assert (Hx : blk_of f' 0 !! Z.to_nat (ofs + Z.of_nat k) = blk_of f 0 !! Z.to_nat (ofs + Z.of_nat k)) by (by rewrite He).
  rewrite !blk_of_lookup in Hx by lia. injection Hx as Hx. replace (1024 * 0 + Z.of_nat (Z.to_nat (ofs + Z.of_nat k))) with (ofs + Z.of_nat k) in Hx by lia. done.
Qed.

Lemma length_dqinfo h : length (v2_mem2diskdqinfo h) = 24%nat.
Proof. unfold v2_mem2diskdqinfo. by rewrite !length_app, !length_le_bytes. Qed.
Lemma bytes_dqinfo h : bytes (v2_mem2diskdqinfo h).
Proof. unfold v2_mem2diskdqinfo. repeat (apply Forall_app; split; [apply bytes_le_bytes|]). apply bytes_le_bytes. Qed.

(** The header is on disk, and the information unless it has to be written. *)
Record on_disk h : Prop := {
  od_magic : exists m, file_magics (qh_type h) = Ok m /\ bytes_at (qh_qf h) 0 (le_bytes 4 m ++ le_bytes 4 V2_VERSION);
  od_info : qh_dirty h = true \/ bytes_at (qh_qf h) V2_DQINFOOFF (v2_mem2diskdqinfo h);
  od_grace : is_u32 (qh_bgrace h) /\ is_u32 (qh_igrace h) /\ qh_flags h = 0;
}.

Lemma on_disk_framed h h' : framed h h' -> blk_of (qh_qf h') 0 = blk_of (qh_qf h) 0 -> on_disk h -> on_disk h'.
Proof.
  intros [F1 F2 F3 F4 F5 F6] Hb [(m & Hm & Hh) Hi Hg]. constructor.
  - exists m. rewrite F1. split; [done|]. eapply bytes_at_blk; [exact Hb|lia| |exact Hh]. rewrite length_app, !length_le_bytes. lia.
  - destruct F6 as [Hd|[Hd Hinfo]]; [by left|]. rewrite Hd. destruct Hi as [?|Hi]; [by left|right].
    assert (v2_mem2diskdqinfo h' = v2_mem2diskdqinfo h) as -> by (unfold v2_mem2diskdqinfo; by rewrite F3, F4, F5, Hinfo).
    eapply bytes_at_blk; [exact Hb|unfold V2_DQINFOOFF; lia| |exact Hi]. rewrite length_dqinfo. unfold V2_DQINFOOFF. lia.
  - by rewrite F3, F4, F5.
Qed.

(** Bytes that a write has stored, and those it has left. *)
Lemma bytes_at_write f f' ofs bs : (forall x, qf_byte f' x = if (ofs <=? x) && (x <? ofs + Z.of_nat (length bs)) then default 0 (bs !! Z.to_nat (x - ofs)) else qf_byte f x) ->
  bytes_at f' ofs bs.
Proof.
  intros Hf k x Hk. rewrite Hf. pose proof (lookup_lt_Some _ _ _ Hk) as Hlt. rewrite (proj2 (Z.leb_le _ _)), (proj2 (Z.ltb_lt _ _)) by lia. cbn [andb].
  replace (Z.to_nat (ofs + Z.of_nat k - ofs)) with k by lia. by rewrite Hk.
Qed.
Lemma bytes_at_write_ne f f' ofs bs o bs' : (forall x, qf_byte f' x = if (ofs <=? x) && (x <? ofs + Z.of_nat (length bs)) then default 0 (bs !! Z.to_nat (x - ofs)) else qf_byte f x) ->
  o + Z.of_nat (length bs') <= ofs \/ ofs + Z.of_nat (length bs) <= o -> bytes_at f o bs' -> bytes_at f' o bs'.
Proof.
  intros Hf Hd Hb k x Hk. rewrite Hf, <- (Hb k x Hk). pose proof (lookup_lt_Some _ _ _ Hk) as Hlt.
  destruct (Z.leb_spec ofs (o + Z.of_nat k)), (Z.ltb_spec (o + Z.of_nat k) (ofs + Z.of_nat (length bs))); cbn [andb]; try done. lia.
Qed.

Lemma quota_rep_same L h h' M : qh_qf h' = qh_qf h -> qh_info h' = qh_info h -> quota_rep L h M -> quota_rep L h' M.
Proof.
  intros Hf Hi (B & g & [R1 R2 R3 R4 R5 R6] & HL & Hm & HS). exists B, g. rewrite Hi. split; [|split; [done|split; [done|]]].
  - constructor; try done; by rewrite Hf.
  - unfold new_file in *. by rewrite Hi, Hf.
Qed.

(** Writing the information. *)
Lemma write_info_spec L h M : quota_rep L h M -> on_disk h ->
  exists f, v2_write_info h = Ok (0, with_qf h f) /\ quota_rep L (with_qf h f) M /\ bytes_at f V2_DQINFOOFF (v2_mem2diskdqinfo h) /\
    on_disk (with_qf h f) /\ qf_len f = qf_len (qh_qf h).
Proof.
  intros (B & g & R & HL & Hm & HS) [(m & Hmg & Hh) Hi Hg]. unfold v2_write_info. destruct (rep_room _ _ _ _ R) as [HL' Hroom].
  assert (H2 : 2 <= dqi_blocks (qh_info h)) by (destruct HS as [[? _]|[[-> _] _]]; [lia|done]). destruct (rep_ok _ _ _ _ R) as [Hok Hlen].
  destruct (qf_write_ok (qh_qf h) V2_DQINFOOFF (v2_mem2diskdqinfo h)) as (f & -> & Hr & Hn & Hk & Hb);
    [done|apply bytes_dqinfo|unfold V2_DQINFOOFF; lia|rewrite length_dqinfo; lia|rewrite length_dqinfo; unfold V2_DQINFOOFF; lia|].
  rewrite length_dqinfo, res_bind_ret in *. change (negb (Z.of_nat 24 =? SIZE_OF_DQINFO)) with false. cbn iota.
  assert (Hlf : qf_len f = qf_len (qh_qf h)) by (unfold V2_DQINFOOFF in Hn; lia).
  assert (Hi' : bytes_at f V2_DQINFOOFF (v2_mem2diskdqinfo h)) by (apply (bytes_at_write (qh_qf h)); by rewrite length_dqinfo).
  exists f. split; [done|]. split; [|split; [exact Hi'|split; [|exact Hlf]]].
  - exists (blk_of f), g. split; [|split; [done|split; [done|]]].
    + destruct R as [R1 R2 R3 R4 R5 R6]. constructor; cbn; try done; [lia|by rewrite Hlf|split; [done|lia]].
    + destruct HS as [[H3 Q]|HN]; [left; split; [done|]|right; unfold new_file in *; cbn [with_qf qh_info qh_qf]; by rewrite Hlf].
      eapply qinv_ext_used; [|exact Q]. intros b Hbr. cbn [with_qf qh_info] in Hbr. rewrite <- (rep_blk _ _ _ _ R b) by lia.
      unfold blk_of. apply list_fmap_ext. intros k j Hj. apply lookup_seq in Hj as [-> Hj]. cbn. rewrite Hb. unfold V2_DQINFOOFF.
      by rewrite (proj2 (Z.ltb_ge _ _)), andb_false_r by lia.
  - constructor; cbn [with_qf qh_type qh_qf qh_dirty qh_bgrace qh_igrace qh_flags]; [|by right|done]. exists m. split; [done|].
    eapply bytes_at_write_ne; [by rewrite <- (length_dqinfo h) in Hb; exact Hb| |exact Hh]. left.
    rewrite length_app, !length_le_bytes. unfold V2_DQINFOOFF. lia.
Qed.
End OnDisk.

(** A new file is on disk. *)
Lemma new_io_on_disk {F} `{QuotaFileLaws F} (h : quota_handle F) m f : file_magics (qh_type h) = Ok m ->
  (forall x, 0 <= x < 32 -> qf_byte f x = default 0 (new_head h m !! Z.to_nat x)) -> on_disk (with_qf (new_info h) f).
Proof.
  intros Hm Hb. assert (Hat : bytes_at f 0 (new_head h m)).
  { intros k x Hk. pose proof (lookup_lt_Some _ _ _ Hk) as Hlt. rewrite length_new_head in Hlt. rewrite Hb by lia.
    by rewrite Z.add_0_l, Nat2Z.id, Hk. }
  set (hd := le_bytes 4 m ++ le_bytes 4 V2_VERSION). assert (En : new_head h m = hd ++ v2_mem2diskdqinfo (new_info h)) by (unfold new_head, hd; by rewrite <- app_assoc).
  assert (Hl : length hd = 8%nat) by (unfold hd; by rewrite length_app, !length_le_bytes). rewrite En in Hat. constructor.
  - exists m. split; [exact Hm|]. intros k x Hk. apply Hat. apply lookup_app_l_Some. exact Hk.
  - right. intros k x Hk. cbn [with_qf qh_qf]. replace (V2_DQINFOOFF + Z.of_nat k) with (0 + Z.of_nat (length hd + k)) by (unfold V2_DQINFOOFF; lia).
    apply Hat. rewrite lookup_app_r by lia. by replace (length hd + k - length hd)%nat with k by lia.
  - cbn. unfold is_u32, MAX_DQ_TIME, MAX_IQ_TIME. lia.
Qed.

(** * Opening *)

Lemma disk2mem_info {F} `{QuotaFile F} (h h0 : quota_handle F) :
  is_u32 (qh_bgrace h) -> is_u32 (qh_igrace h) -> qh_flags h = 0 ->
  is_u32 (dqi_blocks (qh_info h)) -> is_u32 (dqi_free_blk (qh_info h)) -> is_u32 (dqi_free_entry (qh_info h)) ->
  dqi_entry_size (qh_info h0) = dqi_entry_size (qh_info h) ->
  v2_disk2memdqinfo h0 (v2_mem2diskdqinfo h) = Ok {|
    qh_qf := qh_qf h0; qh_type := qh_type h0; qh_fmt := qh_fmt h0; qh_dirty := qh_dirty h0; qh_bgrace := qh_bgrace h;
    qh_igrace := qh_igrace h; qh_flags := 0; qh_info := qh_info h;
    qh_used_entries := qh_used_entries h0; qh_data_blocks := qh_data_blocks h0 |}.
Proof.
  intros H1 H2 H3 H4 H5 H6 Hs. set (d := v2_mem2diskdqinfo h).
  assert (Ed : d = le_bytes 4 (u32 (qh_bgrace h)) ++ le_bytes 4 (u32 (qh_igrace h)) ++ le_bytes 4 (Z.land (qh_flags h) V2_DQF_MASK) ++
    le_bytes 4 (dqi_blocks (qh_info h)) ++ le_bytes 4 (dqi_free_blk (qh_info h)) ++ le_bytes 4 (dqi_free_entry (qh_info h)) ++ []) by (by rewrite app_nil_r).
  assert (E0 : get_le32 d 0 = Ok (u32 (qh_bgrace h) mod 2 ^ (8 * Z.of_nat 4))) by (rewrite Ed; field).
  assert (E1 : get_le32 d 4 = Ok (u32 (qh_igrace h) mod 2 ^ (8 * Z.of_nat 4))) by (rewrite Ed; field).
  assert (E2 : get_le32 d 8 = Ok (Z.land (qh_flags h) V2_DQF_MASK mod 2 ^ (8 * Z.of_nat 4))) by (rewrite Ed; field).
  assert (E3 : get_le32 d 12 = Ok (dqi_blocks (qh_info h) mod 2 ^ (8 * Z.of_nat 4))) by (rewrite Ed; field).
  assert (E4 : get_le32 d 16 = Ok (dqi_free_blk (qh_info h) mod 2 ^ (8 * Z.of_nat 4))) by (rewrite Ed; field).
  assert (E5 : get_le32 d 20 = Ok (dqi_free_entry (qh_info h) mod 2 ^ (8 * Z.of_nat 4))) by (rewrite Ed; field).
  unfold v2_disk2memdqinfo. rewrite E0, res_bind_ret, E1, res_bind_ret, E2, res_bind_ret, E3, res_bind_ret, E4, res_bind_ret, E5, res_bind_ret.
  rewrite !u32_id by done. change (2 ^ (8 * Z.of_nat 4)) with (2 ^ 32). 
  rewrite (Z.mod_small (dqi_blocks _)), (Z.mod_small (dqi_free_blk _)), (Z.mod_small (dqi_free_entry _)) by done.
  rewrite (Z.mod_small (qh_bgrace h)), (Z.mod_small (qh_igrace h)), Hs by done.
  unfold V2_DQF_MASK. rewrite !Z.land_0_r. by destruct (qh_info h).
Qed.

(** What the walk over the inode found agrees with its size. *)
Definition sizes_agree (chk : qf_szchk) (size : Z) : Prop :=
  szchk_type chk <> QF_SZCHK_REGFILE \/ (u32 (last_blkofs chk + 1) <= (size + 4095) / 4096 /\ size <= maxsize chk).

Section Reopen.
Context {D : Type} `{InodeFileLaws D}.
Implicit Types (h : quota_handle (quota_file D)) (M : gmap Z util_dqblk).

(** Reading what is known to be there. *)
Lemma read_at (f : quota_file D) ofs bs : inode_ok (qf_data f) -> bytes_at f ofs bs -> 0 <= ofs -> ofs + Z.of_nat (length bs) <= 4096 ->
  0 < Z.of_nat (length bs) -> ofs + Z.of_nat (length bs) <= inode_size (qf_data f) -> qf_read f ofs (Z.of_nat (length bs)) = Ok bs.
Proof.
  intros Hok Hb Ho H4 Hpos Hl. destruct (f2fs_read_ok (qf_data f) ofs (Z.of_nat (length bs)) Hok) as (r & Hread & Hr & Hk);
    [lia|lia|rewrite !Z.div_small by lia; done|]. cbn [qf_read nomount_file]. unfold quota_read_nomount. rewrite Hread. f_equal.
  apply list_eq. intros k. destruct (decide (k < length bs)%nat) as [Hlt|Hge].
  - destruct (lookup_lt_is_Some_2 r k) as [y Hy]; [lia|]. destruct (lookup_lt_is_Some_2 bs k) as [x Hx]; [lia|].
    rewrite Hy, Hx, (Hk k y Hy). f_equal. by apply (Hb k x).
  - rewrite !lookup_ge_None_2; [done|lia|lia].
Qed.

Lemma check_file_Ok h type m : inode_ok (qf_data (qh_qf h)) -> file_magics type = Ok m ->
  bytes_at (qh_qf h) 0 (le_bytes 4 m ++ le_bytes 4 V2_VERSION) -> 32 <= inode_size (qf_data (qh_qf h)) -> v2_check_file h type = Ok true.
Proof.
  intros Hk Hm Hb Hl. unfold v2_check_file, v2_read_header.
  assert (Hlen : Z.of_nat (length (le_bytes 4 m ++ le_bytes 4 V2_VERSION)) = SIZE_OF_DQHEADER) by (by rewrite length_app, !length_le_bytes).
  rewrite <- Hlen, read_at, res_bind_ret by (first [done | lia | rewrite Hlen; unfold SIZE_OF_DQHEADER; lia]). rewrite res_bind_ret, Z.eqb_refl.
  pose proof (rd_bytes_app [] (le_bytes 4 m) (le_bytes 4 V2_VERSION) 0 4 eq_refl eq_refl) as Hr. cbn [app] in Hr.
  rewrite Hr, res_bind_ret, Hm, res_bind_ret.
  assert (Hmm : (le_val (rev (le_bytes 4 m)) =? m) = false).
  { unfold file_magics in Hm. destruct type as [|[[]|[]|]|]; try discriminate Hm; injection Hm as <-; reflexivity. }
  rewrite Hmm. rewrite get_le_skip by (rewrite length_le_bytes; lia). rewrite length_le_bytes. done.
Qed.

Lemma nonempty_blocks L h M : quota_rep L h M -> M <> ∅ -> 2 < dqi_blocks (qh_info h) /\ 1024 * dqi_blocks (qh_info h) <= inode_size (qf_data (qh_qf h)).
Proof.
  intros (B & g & R & HL & Hm & HS) Hne. apply map_choose in Hne as (id & b & Hb). destruct (used_file h B g M id b Hm Hb HS) as [H2 _].
  destruct (rep_len _ _ _ _ R) as [|Hl]; [lia|]. split; [lia|exact Hl].
Qed.

(** The handle after [v2_init_io] on a file that is fine. *)
Lemma init_io_spec L h h0 M chk d : quota_rep L h M -> M <> ∅ -> on_disk h ->
  bytes_at (qh_qf h) V2_DQINFOOFF (v2_mem2diskdqinfo h) -> qf_data (qh_qf h0) = d ->
  inode_ok d -> (forall x, inode_byte d x = inode_byte (qf_data (qh_qf h)) x) ->
  inode_size d = inode_size (qf_data (qh_qf h)) -> inode_room d = inode_room (qf_data (qh_qf h)) ->
  inode_size d < 2 ^ 63 -> sizes_agree chk (inode_size d) ->
  exists h', v2_init_io chk h0 = Ok (0, h') /\ quota_rep L h' M /\ qh_bgrace h' = qh_bgrace h /\ qh_igrace h' = qh_igrace h.
Proof.
  intros HR Hne Hod Hinfo <- Hkd Hby Hsz Hrm Hbig Hchk. pose proof (nonempty_blocks L h M HR Hne) as [Hb2 Hblen].
  pose proof HR as (B & g & R & HL & Hm & HS). destruct HS as [[_ Q]|[(H2 & _) _]]; [|unfold QT_TREEOFF in H2; lia]. destruct (rep_room _ _ _ _ R) as [HL' Hroom]. destruct (od_grace _ Hod) as (Hg1 & Hg2 & Hg3).
  pose proof (free_head_u32 _ _ _ _ _ Q ltac:(lia)) as Hfu.
  assert (Hfr : dqi_free_blk (qh_info h) < dqi_blocks (qh_info h)).
  { rewrite (fo_head _ _ _ (qi_free _ _ _ _ _ Q)). destruct (gf g) as [|b l] eqn:Hf; cbn; [lia|]. apply (pl_frees _ _ (qi_place _ _ _ _ _ Q)). rewrite Hf. left. }
  assert (Hfe : 0 <= dqi_free_entry (qh_info h) < dqi_blocks (qh_info h)).
  { rewrite (po_head _ _ _ _ (qi_part _ _ _ _ _ Q)). destruct (ge g) as [|b l] eqn:Hf; cbn; [lia|].
    destruct (part_in _ _ _ _ _ b Q) as (_ & _ & _ & _ & Hbr & _); [rewrite Hf; left|lia]. }
  unfold v2_init_io. cbn [qh_qf].
  assert (Hread : qf_read (qh_qf h0) V2_DQINFOOFF SIZE_OF_DQINFO = Ok (v2_mem2diskdqinfo h)).
  { change SIZE_OF_DQINFO with (Z.of_nat 24). rewrite <- (length_dqinfo h). apply read_at; rewrite ?length_dqinfo; try (unfold V2_DQINFOOFF; lia); [done|].
    intros k x Hk. cbn. rewrite Hby. by apply Hinfo. }
  rewrite Hread, res_bind_ret, length_dqinfo. change (negb (Z.of_nat 24 =? SIZE_OF_DQINFO)) with false. cbn iota.
  rewrite (disk2mem_info h), res_bind_ret; try done; [|unfold is_u32; lia|unfold is_u32; lia|by rewrite (rep_size _ _ _ _ R)].
  cbn [qh_qf with_qf qf_data qf_size qh_info]. rewrite (f2fs_quota_size_ok _ Hkd), res_bind_ret. cbn [qh_qf with_qf qf_data qf_size qh_info]. set (n := inode_size (qf_data (qh_qf h0))) in *.
  assert (Hn0 : 1024 * dqi_blocks (qh_info h) <= n) by lia.
  match goal with |- exists h', (_ ← ?m; _) = _ /\ _ => assert (Hm1 : m = Ok (n, {| qh_qf := {| qf_data := qf_data (qh_qf h0); qf_size := n |};
    qh_type := qh_type h0; qh_fmt := qh_fmt h0; qh_dirty := qh_dirty h0; qh_bgrace := qh_bgrace h; qh_igrace := qh_igrace h; qh_flags := 0;
    qh_info := qh_info h; qh_used_entries := qh_used_entries h0; qh_data_blocks := qh_data_blocks h0 |})) end.
  { destruct Hchk as [Hc|[Hc1 Hc2]]; [by destruct (szchk_type chk)|]. destruct (szchk_type chk); try done.
    rewrite u64_id, Z.shiftr_div_pow2 by (unfold is_u64; lia). change (2 ^ 12) with 4096. replace (n + 4096 - 1) with (n + 4095) by lia.
    rewrite (proj2 (Z.ltb_ge ((n + 4095) / 4096) _)), (proj2 (Z.ltb_ge (maxsize chk) n)) by lia. done. }
  rewrite Hm1, res_bind_ret. cbn [qh_info]. unfold QT_BLKSIZE_BITS. change QT_BLKSIZE with 1024. rewrite u64_id, Z.shiftr_div_pow2 by (unfold is_u64; lia).
  assert (Hq : dqi_blocks (qh_info h) <= (n + 1024 - 1) / 2 ^ 10) by (change (2 ^ 10) with 1024; Z.to_euclidean_division_equations; lia).
  rewrite (proj2 (Z.ltb_ge _ _) Hq), (proj2 (Z.leb_gt _ (dqi_free_blk _)) Hfr), (proj2 (Z.leb_gt _ (dqi_free_entry (qh_info h)))) by lia.
  eexists. split; [reflexivity|]. split; [|done]. exists (blk_of {| qf_data := qf_data (qh_qf h0); qf_size := n |}), g. cbn [qh_info].
  split; [|split; [done|split; [done|left; split; [done|]]]].
  - constructor; cbn; try done; [apply R|rewrite Hrm; split; [lia|exact Hroom]|by right|].
    destruct (rep_ok _ _ _ _ R) as [(_ & _ & Hx) _]. split; [split; [done|split; [done|lia]]|lia].
  - eapply qinv_ext_used; [|exact Q]. intros b Hb. rewrite <- (rep_blk _ _ _ _ R b) by lia. unfold blk_of. apply list_fmap_ext.
    intros k j Hj. cbn. apply Hby.
Qed.

(** Closing and opening again. *)
Lemma quota_reopen L h M : quota_rep L h M -> M <> ∅ -> on_disk h -> 0 <= qh_type h < 3 ->
  exists d, quota_file_close h true = Ok (0, d) /\ inode_ok d /\ inode_size d = inode_size (qf_data (qh_qf h)) /\
    forall chk size, sizes_agree chk (inode_size d) -> exists h', quota_file_open d size (qh_type h) chk = Ok (0, Some h') /\
      quota_rep L h' M /\ qh_bgrace h' = qh_bgrace h /\ qh_igrace h' = qh_igrace h.
Proof.
  intros HR Hne Hod Hty.
  (* the information is written if it has changed *)
  assert (exists h1, (if qh_dirty h then '(r, h) ← v2_write_info h; Ok (r, clean h) else Ok (0, h)) = Ok (0, h1) /\ quota_rep L h1 M /\
    on_disk h1 /\ bytes_at (qh_qf h1) V2_DQINFOOFF (v2_mem2diskdqinfo h1) /\ inode_size (qf_data (qh_qf h1)) = inode_size (qf_data (qh_qf h)) /\
    inode_size (qf_data (qh_qf h)) < 2 ^ 63 /\ qh_type h1 = qh_type h /\ qh_bgrace h1 = qh_bgrace h /\ qh_igrace h1 = qh_igrace h) as (h1 & Hc1 & HR1 & Hod1 & Hi1 & Hlen1 & Hbig & Ht1 & Hb1 & Hg1).
  { assert (Hbig : inode_size (qf_data (qh_qf h)) < 2 ^ 63).
    { destruct HR as (B & g & R & _). destruct (rep_ok _ _ _ _ R) as [(_ & _ & Hx) _]. lia. }
    destruct (qh_dirty h) eqn:Hd.
    - destruct (write_info_spec L h M HR Hod) as (f & -> & HR1 & Hi1 & Hod1 & Hl1). rewrite res_bind_ret.
      exists (clean (with_qf h f)). split_and!; try done; [by apply (quota_rep_same L (with_qf h f))|]. destruct Hod1 as [O1 O2 O3].
      constructor; [exact O1|by right|exact O3].
    - exists h. split_and!; try done. destruct (od_info _ Hod) as [Hx|Hx]; [congruence|exact Hx]. }
  unfold quota_file_close. rewrite Hc1, res_bind_ret. cbn [Z.ltb Z.compare].
  assert (Hok1 : qf_ok (qh_qf h1) /\ 32 <= inode_size (qf_data (qh_qf h1))).
  { destruct HR1 as (B & g & R & _). destruct (rep_ok _ _ _ _ R) as [Hx Hy]. by split. }
  destruct Hok1 as [(Hk1 & Hs1 & Hr1) H32]. rewrite Hs1, u64_id by (unfold is_u64; lia).
  destruct (f2fs_filesize_update_ok (qf_data (qh_qf h1)) (inode_size (qf_data (qh_qf h1))) Hk1) as (d & -> & Hd1 & Hd2 & Hd4 & Hd3); [lia|].
  rewrite res_bind_ret. exists d. split; [done|]. split; [done|]. split; [congruence|]. intros chk size Hchk. unfold quota_file_open. rewrite (proj2 (Z.leb_gt _ _)) by (unfold MAXQUOTAS; lia).
  set (h0 := blank_handle _ _). destruct (od_magic _ Hod1) as (m & Hm & Hhd). rewrite Ht1 in Hm.
  rewrite (check_file_Ok h0 (qh_type h) m Hd4 Hm), res_bind_ret.
  - destruct (init_io_spec L h1 h0 M chk d HR1 Hne Hod1 Hi1) as (h' & -> & HR' & Hb' & Hg'); try done; [lia|].
    exists h'. rewrite res_bind_ret. split; [done|]. split; [exact HR'|]. split; congruence.
  - intros k x Hk. rewrite <- (Hhd k x Hk). apply Hd3.
  - cbn. lia.
Qed.
End Reopen.
