(* ===== verification/QuotaMk.v ===== *)
(** Quota accounting (fsck/mkquota.c): the usage counted in memory, writing it to a quota
    file and comparing it with one. A dictionary (fsck/dict.c) is the finite map it
    stands for, walked in the order of its keys.

    The theorem: the file that is written from the usage in memory is found consistent
    with it. *)
From Stdlib Require Import ZArith Lia List Bool.
From stdpp Require Import base numbers list sorting gmap.
From S2P Require Import Prelude Codec Bits Node Quota QuotaTree QuotaMap QuotaV2 QuotaFile QuotaScan QuotaOpen.

(** * Usage in memory *)

(** A dquot of a dictionary; [md_seen] is [DQF_SEEN]. *)
Record mdquot := { md : dquot; md_seen : bool }.
Abbreviation dict := (gmap Z mdquot).
Definition dict_le (a b : Z * mdquot) : Prop := a.1 <= b.1.
#[export] Instance dict_le_dec a b : Decision (dict_le a b) := Z_le_dec a.1 b.1.
(** [dict_first] and [dict_next] *)
Definition dict_nodes (d : dict) : list (Z * mdquot) := merge_sort dict_le (map_to_list d).

Record quota_ctx := { quota_dict : list (option dict); linked_inode_dict : gset Z }.

(** Addition of [qsize_t] or [time_t]. *)
Definition add64 (x y : Z) : res Z := _ ← defined_ ((- 2 ^ 63 <=? x + y) && (x + y <? 2 ^ 63)); Ok (x + y).

Definition ofs_i_uid : Z := 4.
Definition ofs_i_gid : Z := 8.
Definition ofs_i_projid : Z := 364.

Definition get_qid (inode : list Z) (qtype : Z) : res Z :=
  match qtype with
  | 0 => get_le32 inode ofs_i_uid
  | 1 => get_le32 inode ofs_i_gid
  | 2 => get_le32 inode ofs_i_projid
  | _ => Ok 0
  end.

Definition get_dq (d : dict) (key : Z) : mdquot :=
  default {| md := {| dq_id := key; dq_dqb := zero_dqblk; dqb_off := 0 |}; md_seen := false |} (d !! key).

Definition with_dqb (q : dquot) (b : util_dqblk) : dquot := {| dq_id := dq_id q; dq_dqb := b; dqb_off := dqb_off q |}.
Definition set_curspace (b : util_dqblk) (v : Z) : util_dqblk := {|
  dqb_ihardlimit := dqb_ihardlimit b; dqb_isoftlimit := dqb_isoftlimit b; dqb_curinodes := dqb_curinodes b;
  dqb_bhardlimit := dqb_bhardlimit b; dqb_bsoftlimit := dqb_bsoftlimit b; dqb_curspace := v;
  dqb_btime := dqb_btime b; dqb_itime := dqb_itime b |}.
Definition set_curinodes (b : util_dqblk) (v : Z) : util_dqblk := {|
  dqb_ihardlimit := dqb_ihardlimit b; dqb_isoftlimit := dqb_isoftlimit b; dqb_curinodes := v;
  dqb_bhardlimit := dqb_bhardlimit b; dqb_bsoftlimit := dqb_bsoftlimit b; dqb_curspace := dqb_curspace b;
  dqb_btime := dqb_btime b; dqb_itime := dqb_itime b |}.
Definition set_times (b : util_dqblk) (bt it : Z) : util_dqblk := {|
  dqb_ihardlimit := dqb_ihardlimit b; dqb_isoftlimit := dqb_isoftlimit b; dqb_curinodes := dqb_curinodes b;
  dqb_bhardlimit := dqb_bhardlimit b; dqb_bsoftlimit := dqb_bsoftlimit b; dqb_curspace := dqb_curspace b;
  dqb_btime := bt; dqb_itime := it |}.

(** The dquots of an inode changed, for the quota types from [qtype] on. *)
Fixpoint quota_data (f : util_dqblk -> res util_dqblk) (inode : list Z) (qtype : Z) (dicts : list (option dict)) : res (list (option dict)) :=
  match dicts with
  | [] => Ok []
  | None :: l => l ← quota_data f inode (qtype + 1) l; Ok (None :: l)
  | Some d :: l =>
      key ← get_qid inode qtype;
      let m := get_dq d key in
      b ← f (dq_dqb (md m));
      l ← quota_data f inode (qtype + 1) l;
      Ok (Some (<[key := {| md := with_dqb (md m) b; md_seen := md_seen m |}]> d) :: l)
  end.

Definition quota_data_add (qctx : quota_ctx) (inode : list Z) (space : Z) : res quota_ctx :=
  l ← quota_data (fun b => v ← add64 (dqb_curspace b) space; Ok (set_curspace b v)) inode 0 (quota_dict qctx);
  Ok {| quota_dict := l; linked_inode_dict := linked_inode_dict qctx |}.
Definition quota_data_sub (qctx : quota_ctx) (inode : list Z) (space : Z) : res quota_ctx :=
  l ← quota_data (fun b => v ← add64 (dqb_curspace b) (- space); Ok (set_curspace b v)) inode 0 (quota_dict qctx);
  Ok {| quota_dict := l; linked_inode_dict := linked_inode_dict qctx |}.
Definition quota_data_inodes (qctx : quota_ctx) (inode : list Z) (adjust : Z) : res quota_ctx :=
  l ← quota_data (fun b => v ← add64 (dqb_curinodes b) adjust; Ok (set_curinodes b v)) inode 0 (quota_dict qctx);
  Ok {| quota_dict := l; linked_inode_dict := linked_inode_dict qctx |}.

Definition quota_add_inode_usage (qctx : quota_ctx) (ino : Z) (inode : list Z) : res quota_ctx :=
  i_links ← get_le32 inode ofs_i_links;
  if (1 <? i_links) && bool_decide (ino ∈ linked_inode_dict qctx) then Ok qctx
  else
    let qctx := if 1 <? i_links then {| quota_dict := quota_dict qctx; linked_inode_dict := {[ ino ]} ∪ linked_inode_dict qctx |} else qctx in
    i_blocks ← get_le64 inode ofs_i_blocks;
    let space := s64 (u64 (u64 (i_blocks - 1) * F2FS_BLKSIZE)) in
    qctx ← quota_data_add qctx inode space;
    quota_data_inodes qctx inode 1.

(** * Writing *)

Definition QUOTABLOCK_SIZE : Z := 1024.
Definition toqb (x : Z) : res Z := v ← add64 x (QUOTABLOCK_SIZE - 1); Ok (Z.shiftr v 10).

Section Files.
Context {D : Type} `{InodeFile D}.
Implicit Types h : quota_handle (quota_file D).

(** [now] is the time of day. *)
Definition update_grace_times (now : Z) h (q : dquot) : res dquot :=
  let b := dq_dqb q in
  over ← (if negb (dqb_bsoftlimit b =? 0) then s ← toqb (dqb_curspace b); Ok (dqb_bsoftlimit b <? s) else Ok false);
  btime ← (if over : bool then if dqb_btime b =? 0 then add64 now (qh_bgrace h) else Ok (dqb_btime b) else Ok 0);
  itime ← (if negb (dqb_isoftlimit b =? 0) && (dqb_isoftlimit b <? dqb_curinodes b) then
             if dqb_itime b =? 0 then add64 now (qh_igrace h) else Ok (dqb_itime b)
           else Ok 0);
  Ok (with_dqb q (set_times b btime itime)).

(** The return value, the dictionary and the handle. *)
Fixpoint write_dquots (now : Z) (l : list (Z * mdquot)) (d : dict) h : res (Z * dict * quota_handle (quota_file D)) :=
  match l with
  | [] => Ok (0, d, h)
  | (key, m) :: l =>
      q ← update_grace_times now h (md m);
      '(r, q, h) ← v2_commit_dquot h q;
      let d := <[key := {| md := q; md_seen := md_seen m |}]> d in
      if negb (r =? 0) then Ok (-1, d, h) else write_dquots now l d h
  end.

Definition with_dict (qctx : quota_ctx) (qtype : Z) (d : dict) : quota_ctx :=
  {| quota_dict := <[Z.to_nat qtype := Some d]> (quota_dict qctx); linked_inode_dict := linked_inode_dict qctx |}.

(** [qf_ino] is the inode of the type in the super block; the return value, the file and
    the context, whose dquots have their grace times and their offsets in the file. *)
Definition quota_write_inode (now : Z) (qctx : quota_ctx) (qf_ino qtype : Z) (f : D) : res (Z * D * quota_ctx) :=
  if qf_ino =? 0 then Ok (0, f, qctx)
  else
    match quota_dict qctx !! Z.to_nat qtype with
    | Some (Some d) =>
        '(retval, h) ← quota_file_create f qtype;
        if negb (retval =? 0) then Ok (retval, qf_data (qh_qf h), qctx)
        else
          '(retval, d, h) ← write_dquots now (dict_nodes d) d h;
          '(_, f) ← quota_file_close h true;
          Ok (retval, f, with_dict qctx qtype d)
    | _ => Ok (0, f, qctx)
    end.

(** * Comparing *)

Record scan_dquots_data := { sd_dict : dict; sd_inconsistent : bool }.

(** [update_usage] is not set by any caller. *)
Definition scan_dquots_callback (update_limits : bool) (q : dquot) (s : scan_dquots_data) : scan_dquots_data :=
  let m := get_dq (sd_dict s) (dq_id q) in
  let b := dq_dqb (md m) in
  let differ := negb (dqb_curspace b =? dqb_curspace (dq_dqb q)) || negb (dqb_curinodes b =? dqb_curinodes (dq_dqb q)) in
  let b' := if update_limits then {|
      dqb_ihardlimit := dqb_ihardlimit (dq_dqb q); dqb_isoftlimit := dqb_isoftlimit (dq_dqb q); dqb_curinodes := dqb_curinodes b;
      dqb_bhardlimit := dqb_bhardlimit (dq_dqb q); dqb_bsoftlimit := dqb_bsoftlimit (dq_dqb q); dqb_curspace := dqb_curspace b;
      dqb_btime := dqb_btime b; dqb_itime := dqb_itime b |} else b in
  {| sd_dict := <[dq_id q := {| md := {| dq_id := dq_id q; dq_dqb := b'; dqb_off := dqb_off (md m) |}; md_seen := true |}]> (sd_dict s);
     sd_inconsistent := sd_inconsistent s || differ |}.

(** The error, [*usage_inconsistent], the dictionary, and the file, whose size opening it
    may have changed. *)
Definition quota_compare_and_update (qctx : quota_ctx) (f : D) (size qtype : Z) (chk : qf_szchk)
    (usage_inconsistent preserve_limits : bool) : res (Z * bool * option dict * D) :=
  match quota_dict qctx !! Z.to_nat qtype with
  | Some (Some d) =>
      '(err, o) ← quota_file_open f size qtype chk;
      match o with
      | Some h =>
          let f := qf_data (qh_qf h) in
          if negb (err =? 0) then Ok (err, true, Some d, f)
          else
            '(err, s, _) ← qtree_scan_dquots (fun q s => Ok (0, scan_dquots_callback preserve_limits q s)) h
                             {| sd_dict := d; sd_inconsistent := false |};
            if negb (err =? 0) then Ok (err, usage_inconsistent, Some (sd_dict s), f)
            else
              let missing := existsb (fun n => negb (md_seen n.2)) (dict_nodes (sd_dict s)) in
              Ok (0, sd_inconsistent s || missing, Some (sd_dict s), f)
      | None => Ok (err, true, Some d, f)
      end
  | _ => Ok (0, usage_inconsistent, None, f)
  end.

(** One type of [fsck_chk_quota_files] (fsck/fsck.c): the file is compared with the usage
    and rewritten if it differs. The return value, the file, the context, and whether
    [c.quota_fixed] and [c.bug_on] are set. *)
Definition chk_quota_file (now : Z) (fix_on preserve_limits : bool) (qctx : quota_ctx) (ino qtype : Z) (f : D) (size : Z) (chk : qf_szchk)
    : res (Z * D * quota_ctx * bool * bool) :=
  if ino =? 0 then Ok (0, f, qctx, false, false)
  else
    '(ret, needs_writeout, od, f) ← quota_compare_and_update qctx f size qtype chk false preserve_limits;
    let qctx := match od with Some d => with_dict qctx qtype d | None => qctx end in
    if (ret =? 0) && negb needs_writeout then Ok (ret, f, qctx, false, false)
    else if fix_on then
      f ← f2fs_filesize_update f 0;
      '(ret, f, qctx) ← quota_write_inode now qctx ino qtype f;
      Ok (ret, f, qctx, ret =? 0, negb (ret =? 0))
    else Ok (ret, f, qctx, false, true).
End Files.

(** * The file written from the usage is consistent with it *)

(** A dquot that is not yet in a file. *)
Record writable (key : Z) (m : mdquot) : Prop := {
  wr_id : dq_id (md m) = key;
  wr_off : dqb_off (md m) = 0;
  wr_u32 : is_u32 key;
  wr_wf : wf_dqblk (dq_dqb (md m));
  wr_space : dqb_curspace (dq_dqb (md m)) < 2 ^ 62;
}.
Definition used (b : util_dqblk) : Prop := dqb_curspace b <> 0 \/ dqb_curinodes b <> 0.
(** As the accounting leaves it, not yet in a file and with usage. *)
Definition counted (key : Z) (m : mdquot) : Prop := writable key m /\ used (dq_dqb (md m)).

(** The same but for the grace times. *)
Definition same_usage (b b' : util_dqblk) : Prop := exists bt it, b' = set_times b bt it.

Lemma add64_Ok x y : - 2 ^ 63 <= x + y < 2 ^ 63 -> add64 x y = Ok (x + y).
Proof. intros Hr. unfold add64. by rewrite (proj2 (Z.leb_le _ _)), (proj2 (Z.ltb_lt _ _)) by lia. Qed.

Lemma fake_times b bt it : fake_dqblk (set_times b bt it) = fake_dqblk b.
Proof. done. Qed.

Section Consistent.
Context {D : Type} `{InodeFileLaws D}.
Implicit Types (h : quota_handle (quota_file D)) (M : gmap Z util_dqblk).

Lemma grace_spec now h q : 0 <= now < 2 ^ 62 -> is_u32 (qh_bgrace h) -> is_u32 (qh_igrace h) -> wf_dqblk (dq_dqb q) -> dqb_curspace (dq_dqb q) < 2 ^ 62 ->
  exists b, update_grace_times now h q = Ok (with_dqb q b) /\ wf_dqblk b /\ same_usage (dq_dqb q) b.
Proof.
  intros Hnow Hb Hi Hw Hs. pose proof Hw as [W1 W2 W3 W4 W5 W6 W7 W8]. unfold update_grace_times. unfold is_u32, is_s64 in *.
  assert (exists o, (if negb (dqb_bsoftlimit (dq_dqb q) =? 0) then s ← toqb (dqb_curspace (dq_dqb q)); Ok (dqb_bsoftlimit (dq_dqb q) <? s) else Ok false) = Ok o) as [o ->].
  { destruct (negb _); [|by eexists]. unfold toqb, QUOTABLOCK_SIZE. rewrite add64_Ok, res_bind_ret by lia. rewrite res_bind_ret. by eexists. }
  rewrite res_bind_ret.
  assert (exists bt, (if o then if dqb_btime (dq_dqb q) =? 0 then add64 now (qh_bgrace h) else Ok (dqb_btime (dq_dqb q)) else Ok 0) = Ok bt /\ is_s64 bt) as (bt & -> & Hbt).
  { unfold is_s64. destruct o; [|exists 0; split; [done|lia]]. destruct (_ =? 0); [rewrite add64_Ok by lia|]; eexists; (split; [reflexivity|lia]). }
  rewrite res_bind_ret. match goal with |- exists b, (_ ← ?m; _) = _ /\ _ => assert (exists it, m = Ok it /\ is_s64 it) as (it & -> & Hit) end.
  { unfold is_s64. destruct (_ && _); [|exists 0; split; [done|lia]]. destruct (_ =? 0); [rewrite add64_Ok by lia|]; eexists; (split; [reflexivity|lia]). }
  rewrite res_bind_ret. eexists. split; [reflexivity|]. split; [by constructor|by exists bt, it].
Qed.

(** The entry of a dquot in the file written from it. *)
Definition entry_for (m : mdquot) (o : option util_dqblk) : Prop :=
  if fake_dqblk (dq_dqb (md m)) then o = None else exists b, o = Some b /\ same_usage (dq_dqb (md m)) b.

Lemma commit_new L h M q : quota_rep L h M -> on_disk h -> is_u32 (dq_id q) -> wf_dqblk (dq_dqb q) -> dqb_off q = 0 -> M !! dq_id q = None ->
  dqi_blocks (qh_info h) + 5 <= L ->
  exists q' h', v2_commit_dquot h q = Ok (0, q', h') /\ on_disk h' /\ qh_type h' = qh_type h /\ dqi_blocks (qh_info h') <= dqi_blocks (qh_info h) + 5 /\
    quota_rep L h' (if fake_dqblk (dq_dqb q) then M else <[dq_id q := dq_dqb q]> M).
Proof.
  intros HR Hod Hi Hw Ho Hn Hroom. destruct (quota_find L h M _ HR Hi) as (off & Hf & Hoff). rewrite Hn in Hoff. subst off. rewrite <- Ho in Hf.
  assert (exists q' h', v2_commit_dquot h q = Ok (0, q', h') /\ blk_of (qh_qf h') 0 = blk_of (qh_qf h) 0 /\ dqi_blocks (qh_info h') <= dqi_blocks (qh_info h) + 5 /\
    quota_rep L h' (if fake_dqblk (dq_dqb q) then M else <[dq_id q := dq_dqb q]> M)) as (q' & h' & Hc & Hb & Hbl & HR').
  { unfold v2_commit_dquot. fold (fake_dqblk (dq_dqb q)). destruct (fake_dqblk (dq_dqb q)).
    - destruct (quota_delete_step L h M q HR Hi Hf) as (h' & -> & HR' & _ & Hb & Hbl). rewrite res_bind_ret, delete_id in * by done.
      do 2 eexists. split; [reflexivity|]. split; [done|]. split; [lia|done].
    - destruct (quota_write_step L h M q HR Hi Hw Hf) as (o & h' & -> & HR' & _ & Hb & Hbl); [done|]. do 2 eexists. split; [reflexivity|]. split; [done|]. split; [lia|done]. }
  pose proof (commit_dquot_framed _ _ _ _ _ Hc) as Hfr. exists q', h'. split; [done|]. split; [by apply (on_disk_framed h)|]. split; [apply Hfr|done].
Qed.

Lemma write_dquots_spec L now l : 0 <= now < 2 ^ 62 -> forall d h M, quota_rep L h M -> on_disk h -> NoDup l.*1 ->
  (forall k m, (k, m) ∈ l -> writable k m /\ M !! k = None) -> dqi_blocks (qh_info h) + 5 * Z.of_nat (length l) <= L ->
  exists d' h' M', write_dquots now l d h = Ok (0, d', h') /\ quota_rep L h' M' /\ on_disk h' /\ qh_type h' = qh_type h /\
    (forall k m, (k, m) ∈ l -> entry_for m (M' !! k)) /\ forall k, k ∉ l.*1 -> M' !! k = M !! k.
Proof.
  intros Hnow. induction l as [|[key m] l IH]; intros d h M HR Hod Hnd Hl Hroom.
  - exists d, h, M. split_and!; try done. by intros k m Hx%not_elem_of_nil.
  - rewrite fmap_cons in Hnd. apply NoDup_cons in Hnd as [Hk Hnd]. cbn [write_dquots length] in *.
    destruct (Hl key m) as [[C1 C2 C3 C4 C5] Hnone]; [left|]. destruct (od_grace _ Hod) as (Hg1 & Hg2 & _).
    destruct (grace_spec now h (md m) Hnow Hg1 Hg2 C4 C5) as (b & -> & Hwb & Hub). rewrite res_bind_ret.
    destruct (commit_new L h M (with_dqb (md m) b) HR Hod) as (q' & h1 & -> & Hod1 & Ht1 & Hbl & HR1); cbn [with_dqb dq_id dq_dqb dqb_off]; rewrite ?C1; try done; [lia|].
    rewrite res_bind_ret. cbn [Z.eqb negb with_dqb dq_id dq_dqb] in *. rewrite C1 in HR1.
    assert (Hfk : fake_dqblk b = fake_dqblk (dq_dqb (md m))) by (destruct Hub as (bt & it & ->); apply fake_times). rewrite Hfk in HR1.
    edestruct (IH (<[key := {| md := q'; md_seen := md_seen m |}]> d) h1 _ HR1 Hod1 Hnd) as (d' & h' & M' & -> & HR' & Hod' & Ht' & HM & HM'); [|lia|].
    + intros k m' Hm'. destruct (Hl k m') as [Hc Hn]; [by right|]. split; [done|]. assert (k <> key) by (intros ->; apply Hk, list_elem_of_fmap; by exists (key, m')).
      destruct (fake_dqblk _); [done|]. by rewrite lookup_insert_ne.
    + exists d', h', M'. split_and!; try done; [congruence| |].
      * intros k m' [[= -> ->]|Hm']%elem_of_cons; [|by apply HM]. rewrite HM' by done. unfold entry_for. destruct (fake_dqblk _); [done|]. rewrite lookup_insert_eq. by exists b.
      * rewrite fmap_cons. intros k [Hne Hkl]%not_elem_of_cons. rewrite HM' by done. destruct (fake_dqblk _); [done|]. by rewrite lookup_insert_ne.
Qed.

(** What is counted for an id; nothing, if the dictionary does not have it. *)
Definition usage_of (d : dict) (k : Z) : Z * Z := let b := dq_dqb (md (get_dq d k)) in (dqb_curspace b, dqb_curinodes b).

Lemma get_dq_insert d k k' m : get_dq (<[k := m]> d) k' = if decide (k = k') then m else get_dq d k'.
Proof. unfold get_dq. case_decide; [subst; by rewrite lookup_insert_eq|by rewrite lookup_insert_ne]. Qed.

(** What the callback leaves: the usage of the dictionary, and marks. *)
Lemma callback_dict lim qs : forall s,
  let s' := foldl (fun s q => scan_dquots_callback lim q s) s qs in
  (forall k, usage_of (sd_dict s') k = usage_of (sd_dict s) k) /\
  (forall k m', sd_dict s' !! k = Some m' -> k ∈ dq_id <$> qs /\ md_seen m' = true \/ sd_dict s !! k = Some m' /\ k ∉ dq_id <$> qs) /\
  (forall k, is_Some (sd_dict s !! k) -> is_Some (sd_dict s' !! k)).
Proof.
  induction qs as [|q qs IH]; intros s; cbv zeta; cbn [foldl]; [split_and!; try done; intros k m' Hm; right; split; [done|apply not_elem_of_nil]|].
  destruct (IH (scan_dquots_callback lim q s)) as (I1 & I2 & I3). split_and!.
  - intros k. rewrite I1. unfold scan_dquots_callback, usage_of. cbn [sd_dict]. rewrite get_dq_insert. case_decide as Hd; [subst k|done]. by destruct lim.
  - intros k m' Hm. destruct (I2 k m' Hm) as [[Hk Hs]|[Hk Hn]]; [left; split; [by right|done]|].
    unfold scan_dquots_callback in Hk. cbn [sd_dict] in Hk. apply lookup_insert_Some in Hk as [(<- & <-)|(Hne & Hk)]; [left; split; [left|done]|right].
    split; [done|]. rewrite fmap_cons. by apply not_elem_of_cons.
  - intros k Hk. apply I3. unfold scan_dquots_callback. cbn [sd_dict]. destruct (decide (k = dq_id q)) as [->|Hne]; [by rewrite lookup_insert_eq|by rewrite lookup_insert_ne].
Qed.

(** The callback on entries with the usage of the dictionary. *)
Lemma callback_agrees lim qs : forall s, sd_inconsistent s = false ->
  (forall q, q ∈ qs -> usage_of (sd_dict s) (dq_id q) = (dqb_curspace (dq_dqb q), dqb_curinodes (dq_dqb q))) ->
  sd_inconsistent (foldl (fun s q => scan_dquots_callback lim q s) s qs) = false.
Proof.
  induction qs as [|q qs IH]; intros s Hs Hq; cbn [foldl]; [done|]. apply IH.
  - pose proof (Hq q ltac:(left)) as Hu. unfold usage_of in Hu. unfold scan_dquots_callback. cbn [sd_inconsistent]. injection Hu as Hu1 Hu2.
    by rewrite Hs, Hu1, Hu2, !Z.eqb_refl.
  - intros q' Hq'. rewrite <- (Hq q' ltac:(by right)). destruct (callback_dict lim [q] s) as (H1 & _). apply H1.
Qed.

Lemma dict_nodes_perm (d : dict) : dict_nodes d ≡ₚ map_to_list d.
Proof. apply merge_sort_Permutation. Qed.
Lemma elem_of_dict_nodes (d : dict) k m : (k, m) ∈ dict_nodes d <-> d !! k = Some m.
Proof. rewrite dict_nodes_perm. apply elem_of_map_to_list. Qed.

(** The entries a scan reports. *)
Lemma scan_ids M qs : (fun q => (dq_id q, dq_dqb q)) <$> qs ≡ₚ (fun p : Z * util_dqblk => (p.1, seen p.1 p.2)) <$> map_to_list M ->
  (forall q, q ∈ qs -> exists b, M !! dq_id q = Some b /\ dq_dqb q = seen (dq_id q) b) /\ forall k, is_Some (M !! k) -> k ∈ dq_id <$> qs.
Proof.
  intros Hp. split.
  - intros q Hq. assert (Hin : (dq_id q, dq_dqb q) ∈ (fun q => (dq_id q, dq_dqb q)) <$> qs) by (apply list_elem_of_fmap; by exists q).
    rewrite Hp in Hin. apply list_elem_of_fmap in Hin as ([id b] & [= -> ->] & Hb%elem_of_map_to_list). by exists b.
  - intros k [b Hb]. assert (Hin' : (k, seen k b) ∈ (fun p : Z * util_dqblk => (p.1, seen p.1 p.2)) <$> map_to_list M)
      by (apply list_elem_of_fmap; exists (k, b); split; [done|by apply elem_of_map_to_list]).
    rewrite <- Hp in Hin'. apply list_elem_of_fmap in Hin' as (q & [= -> _] & Hq). apply list_elem_of_fmap. by exists q.
Qed.

(** A file with the usage of the dictionary is found consistent. *)
Lemma compare_spec L qctx f size0 qtype chk incons lim d h M : quota_dict qctx !! Z.to_nat qtype = Some (Some d) ->
  quota_file_open f size0 qtype chk = Ok (0, Some h) -> quota_rep L h M ->
  (forall k b, M !! k = Some b -> usage_of d k = (dqb_curspace b, dqb_curinodes b)) -> (forall k m, d !! k = Some m -> is_Some (M !! k)) ->
  exists d' f', quota_compare_and_update qctx f size0 qtype chk incons lim = Ok (0, false, Some d', f') /\ inode_ok f'.
Proof.
  intros Hd Ho HR HM HdM. unfold quota_compare_and_update. rewrite Hd, Ho, res_bind_ret. change (negb (0 =? 0)) with false. cbn iota.
  destruct (quota_scan_all (scan_dquots_callback lim) L h M {| sd_dict := d; sd_inconsistent := false |} HR) as (qs & k & Hs & Hp & _).
  unfold proc in Hs. rewrite Hs, res_bind_ret. change (negb (0 =? 0)) with false. cbn iota. destruct (scan_ids M qs Hp) as [Hq Hids].
  assert (H1 := callback_agrees lim qs {| sd_dict := d; sd_inconsistent := false |} eq_refl). rewrite H1.
  2:{ intros q Hqs. destruct (Hq q Hqs) as (b & Hb & ->). cbn [sd_dict]. rewrite (HM _ b Hb). unfold seen. by case_decide. }
  destruct (callback_dict lim qs {| sd_dict := d; sd_inconsistent := false |}) as (_ & H2 & _).
  cbv zeta in *. set (s' := foldl _ _ qs) in *. do 2 eexists. split; [|by destruct HR as (B & g & R & _); destruct (rep_ok _ _ _ _ R) as [(? & _) _]]. cbn [orb]. do 4 f_equal.
  apply not_true_iff_false. intros ([k' m'] & Hin & Hsn)%existsb_exists. apply list_elem_of_In, elem_of_dict_nodes in Hin.
  cbn [snd] in Hsn. destruct (H2 k' m' Hin) as [[_ Hx]|[Hx Hn]]; [by rewrite Hx in Hsn|]. by apply Hn, Hids, (HdM k' m').
Qed.

(** The file written from a dictionary, opened again. *)
Lemma write_inode_spec L now qctx qf_ino qtype f d : quota_dict qctx !! Z.to_nat qtype = Some (Some d) -> 0 <= qtype < 3 ->
  qf_ino <> 0 -> 0 <= now < 2 ^ 62 -> (forall k m, d !! k = Some m -> writable k m) -> (exists k m, d !! k = Some m /\ used (dq_dqb (md m))) ->
  inode_ok f -> inode_size f = 0 -> inode_room f < 2 ^ 63 -> L <= 2 ^ 21 -> 1024 * L <= inode_room f -> 2 + 5 * Z.of_nat (size d) <= L ->
  exists f' qctx', quota_write_inode now qctx qf_ino qtype f = Ok (0, f', qctx') /\ inode_ok f' /\
    forall chk size0, sizes_agree chk (inode_size f') -> exists h M, quota_file_open f' size0 qtype chk = Ok (0, Some h) /\ quota_rep L h M /\
      (forall k m, d !! k = Some m -> entry_for m (M !! k)) /\ forall k, d !! k = None -> M !! k = None.
Proof.
  intros Hd Hty Hino Hnow Hwr Hne Hfk Hsz Hrm HL Hroom Hn. unfold quota_write_inode. rewrite (proj2 (Z.eqb_neq _ _)), Hd by done.
  unfold quota_file_create. set (h0 := blank_handle {| qf_data := f; qf_size := 0 |} qtype).
  destruct (new_io_empty L h0) as (mg & f0 & Hmg & -> & HR0 & Hhead); try done; [by split; [|cbn; lia]|lia|cbn; lia|].
  rewrite res_bind_ret. cbn [Z.ltb Z.compare]. rewrite res_bind_ret. change (negb (0 =? 0)) with false. cbn iota.
  set (h1 := with_qf (new_info h0) f0) in *. pose proof (new_io_on_disk h0 mg f0 Hmg Hhead : on_disk h1) as Hod0.
  destruct (write_dquots_spec L now (dict_nodes d) Hnow d h1 ∅ HR0 Hod0) as (d1 & h2 & M & -> & HR & Hod & Ht & HM & HM').
  { rewrite dict_nodes_perm. apply NoDup_fst_map_to_list. }
  { intros k m Hk%elem_of_dict_nodes. split; [by apply Hwr|done]. }
  { rewrite dict_nodes_perm, length_map_to_list. cbn. unfold QT_TREEOFF. lia. }
  rewrite res_bind_ret. assert (HMne : M <> ∅).
  { destruct Hne as (k & m & Hk & Hu). pose proof (HM k m ltac:(by apply elem_of_dict_nodes)) as He. intros ->. unfold entry_for in He.
    destruct (fake_dqblk _) eqn:Hfk'; [|destruct He as (b & He & _); by rewrite lookup_empty in He].
    unfold fake_dqblk in Hfk'. rewrite !andb_true_iff, !Z.eqb_eq in Hfk'. destruct Hu; lia. }
  destruct (quota_reopen L h2 M HR HMne Hod) as (f' & -> & Hkf & Hs & Hopen); [rewrite Ht; exact Hty|]. rewrite res_bind_ret.
  exists f'. eexists. split; [done|]. split; [done|]. intros chk size0 Hchk. destruct (Hopen chk size0 Hchk) as (h' & Ho & HR' & _). rewrite Ht in Ho.
  exists h', M. split; [done|]. split; [done|]. split; [intros k m Hk; by apply HM, elem_of_dict_nodes|]. intros k Hk. rewrite HM'; [done|].
  intros ([k' m] & -> & Hx%elem_of_dict_nodes)%list_elem_of_fmap. cbn in Hk. congruence.
Qed.

(** The file written from [d1] is consistent with [d], if they have the same usage. *)
Lemma written_consistent L qctx f size0 qtype chk incons lim d d1 h M : quota_dict qctx !! Z.to_nat qtype = Some (Some d) ->
  (forall k m, d !! k = Some m -> used (dq_dqb (md m))) -> (forall k, usage_of d1 k = usage_of d k) ->
  quota_file_open f size0 qtype chk = Ok (0, Some h) -> quota_rep L h M ->
  (forall k m, d1 !! k = Some m -> entry_for m (M !! k)) -> (forall k, d1 !! k = None -> M !! k = None) ->
  exists d' f', quota_compare_and_update qctx f size0 qtype chk incons lim = Ok (0, false, Some d', f') /\ inode_ok f'.
Proof.
  intros Hd Hus Hu Ho HR HM HN. assert (Hfk : forall b, used b -> fake_dqblk b = false).
  { intros b Hb. apply not_true_iff_false. unfold fake_dqblk. rewrite !andb_true_iff, !Z.eqb_eq. destruct Hb; lia. }
  apply (compare_spec L qctx f size0 qtype chk incons lim d h M Hd Ho HR).
  - intros k b Hb. rewrite <- Hu. destruct (d1 !! k) as [m|] eqn:Hk; [|by rewrite HN in Hb]. pose proof (HM k m Hk) as He. unfold entry_for in He.
    unfold usage_of, get_dq. rewrite Hk. cbn [default]. unfold id. destruct (fake_dqblk _); [congruence|]. destruct He as (b' & Hb' & bt & it & ->). rewrite Hb in Hb'. by injection Hb' as ->.
  - intros k m Hk. pose proof (Hu k) as Huk. unfold usage_of, get_dq in Huk. rewrite Hk in Huk. cbn [default] in Huk. unfold id in Huk. specialize (Hus k m Hk).
    destruct (d1 !! k) as [m1|] eqn:Hk1; cbn in Huk; [|injection Huk as H1 H2; destruct Hus; congruence].
    pose proof (HM k m1 Hk1) as He. unfold entry_for in He. rewrite Hfk in He; [|unfold used in *; injection Huk as -> ->; done]. destruct He as (b & -> & _). by eexists.
Qed.

(** C22: The quota file that is written from the usage counted in memory is found
    consistent with that usage when it is opened again and compared: no entry is missing
    and no usage differs. *)
Theorem quota_rewrite_consistent L now qctx qf_ino qtype f d : quota_dict qctx !! Z.to_nat qtype = Some (Some d) -> 0 <= qtype < 3 ->
  qf_ino <> 0 -> 0 <= now < 2 ^ 62 -> d <> ∅ -> (forall k m, d !! k = Some m -> counted k m) ->
  inode_ok f -> inode_size f = 0 -> inode_room f < 2 ^ 63 -> L <= 2 ^ 21 -> 1024 * L <= inode_room f ->
  2 + 5 * Z.of_nat (size d) <= L ->
  exists f' qctx', quota_write_inode now qctx qf_ino qtype f = Ok (0, f', qctx') /\
    forall chk size0 incons lim, sizes_agree chk (inode_size f') ->
      exists d' f'', quota_compare_and_update qctx f' size0 qtype chk incons lim = Ok (0, false, Some d', f'').
Proof.
  intros Hd Hty Hino Hnow Hne Hcnt Hfk Hsz Hrm HL Hroom Hn.
  destruct (write_inode_spec L now qctx qf_ino qtype f d) as (f' & qctx' & Hw & _ & Hopen); try done.
  { intros k m Hk. by apply Hcnt. }
  { apply map_choose in Hne as (k & m & Hk). exists k, m. split; [done|]. by apply (Hcnt k). }
  exists f', qctx'. split; [done|]. intros chk size0 incons lim Hchk. destruct (Hopen chk size0 Hchk) as (h & M & Ho & HR & HM & HN).
  destruct (written_consistent L qctx f' size0 qtype chk incons lim d d h M) as (d' & f'' & ? & _); try done; [intros k m Hk; by apply (Hcnt k)|]. by exists d', f''.
Qed.

(** ** Repair *)

(** The size that opening may give the file is there. *)
Definition size_fits (chk : qf_szchk) (room : Z) : Prop :=
  szchk_type chk = QF_SZCHK_REGFILE -> u32 (Z.shiftl (u32 (last_blkofs chk + 1)) 12) <= room.

Lemma read_short (f : quota_file D) ofs n : inode_ok (qf_data f) -> 0 <= ofs -> 0 < n -> ofs + n <= 4096 ->
  exists bs, qf_read f ofs n = Ok bs /\ Z.of_nat (length bs) <= n.
Proof.
  intros Hk Ho Hn H4. destruct (f2fs_read_ok (qf_data f) ofs n Hk) as (bs & Hb & Hl & _); [lia|lia|by rewrite !Z.div_small by lia|].
  exists bs. split; [exact Hb|lia].
Qed.

Lemma check_file_total h type : inode_ok (qf_data (qh_qf h)) -> 0 <= type < 3 -> exists b, v2_check_file h type = Ok b.
Proof.
  intros Hk Ht. unfold v2_check_file, v2_read_header. destruct (read_short (qh_qf h) 0 SIZE_OF_DQHEADER Hk) as (bs & -> & Hl); unfold SIZE_OF_DQHEADER in *; try lia.
  rewrite !res_bind_ret. destruct (Z.eqb_spec (Z.of_nat (length bs)) 8) as [H8|]; [|by eexists].
  rewrite rd_bytes_Ok, res_bind_ret by lia. assert (exists m, file_magics type = Ok m) as [m ->].
  { unfold file_magics. assert (type = 0 \/ type = 1 \/ type = 2) as [-> | [-> | ->]] by lia; by eexists. }
  rewrite res_bind_ret. destruct (_ =? m); [by eexists|]. unfold get_le. rewrite rd_bytes_Ok, !res_bind_ret by lia. by eexists.
Qed.

Lemma disk2mem_total h d : length d = 24%nat -> exists h', v2_disk2memdqinfo h d = Ok h' /\ qh_qf h' = qh_qf h.
Proof.
  intros Hl. unfold v2_disk2memdqinfo, get_le. rewrite !rd_bytes_Ok by lia. rewrite !res_bind_ret. by eexists.
Qed.

(** Opening gives a handle, and leaves a file in order. *)
Lemma open_total f size0 qtype chk : inode_ok f -> 0 <= qtype < 3 -> size_fits chk (inode_room f) ->
  exists e h, quota_file_open f size0 qtype chk = Ok (e, Some h) /\ inode_ok (qf_data (qh_qf h)) /\ inode_room (qf_data (qh_qf h)) = inode_room f.
Proof.
  intros Hk Ht Hfit. unfold quota_file_open. rewrite (proj2 (Z.leb_gt _ _)) by (unfold MAXQUOTAS; lia). set (h0 := blank_handle _ _).
  destruct (check_file_total h0 qtype Hk Ht) as [[] ->]; rewrite res_bind_ret; cbn [negb]; [|by eexists _, _].
  assert (exists r h, v2_init_io chk h0 = Ok (r, h) /\ inode_ok (qf_data (qh_qf h)) /\ inode_room (qf_data (qh_qf h)) = inode_room f) as (r & h & -> & Hkh & Hrh);
    [|rewrite res_bind_ret; by eexists _, _].
  unfold v2_init_io. cbn [qh_qf]. destruct (read_short (qh_qf h0) V2_DQINFOOFF SIZE_OF_DQINFO Hk) as (bs & -> & Hl); unfold SIZE_OF_DQINFO, V2_DQINFOOFF in *; try lia.
  rewrite res_bind_ret. destruct (Z.eqb_spec (Z.of_nat (length bs)) 24) as [H24|]; cbn [negb]; [|by eexists _, _].
  match goal with |- context [v2_disk2memdqinfo ?h bs] => destruct (disk2mem_total h bs) as (h1 & -> & Hq); [lia|] end. rewrite res_bind_ret, Hq. cbn [qh_qf h0 blank_handle qf_data]. rewrite (f2fs_quota_size_ok _ Hk), res_bind_ret.
  match goal with |- exists r h, (_ ← ?m; _) = _ /\ _ => assert (exists n h2, m = Ok (n, h2) /\ inode_ok (qf_data (qh_qf h2)) /\ inode_room (qf_data (qh_qf h2)) = inode_room f) as (n & h2 & -> & Hk2 & Hr2) end.
  { unfold size_fits in Hfit. destruct (szchk_type chk); try by eexists _, _. destruct (_ || _); [|by eexists _, _].
    cbn [qh_qf with_qf qf_data]. destruct (f2fs_filesize_update_ok f (u32 (Z.shiftl (u32 (last_blkofs chk + 1)) 12)) Hk) as (f1 & -> & _ & Hr1 & Hk1 & _).
    { split; [apply u32_range|by apply Hfit]. }
    rewrite res_bind_ret. by eexists _, _. }
  rewrite res_bind_ret. destruct (_ <? _); [by eexists _, _|]. destruct (_ <=? _); [by eexists _, _|]. destruct (_ <=? _); by eexists _, _.
Qed.

(** The dictionary after a comparison that did not fail. *)
Lemma compared_writable lim d M qs : (forall k m, d !! k = Some m -> writable k m) -> (forall k b, M !! k = Some b -> is_u32 k /\ wf_dqblk b) ->
  (forall q, q ∈ qs -> exists b, M !! dq_id q = Some b /\ dq_dqb q = seen (dq_id q) b) ->
  forall inc, let d1 := sd_dict (foldl (fun s q => scan_dquots_callback lim q s) {| sd_dict := d; sd_inconsistent := inc |} qs) in
  (forall k m, d1 !! k = Some m -> writable k m) /\ dom d1 ⊆ dom d ∪ dom M.
Proof.
  intros Hd HM. revert d Hd. induction qs as [|q qs IH]; intros d Hd Hq inc; cbv zeta; cbn [foldl]; [split; [done|set_solver]|].
  destruct (Hq q ltac:(left)) as (b & Hb & Hqb). destruct (HM _ b Hb) as [Hi Hw]. unfold scan_dquots_callback at 2 4. cbn [sd_dict sd_inconsistent].
  set (m1 := {| md := _; md_seen := true |}). set (inc1 := inc || _).
  destruct (IH (<[dq_id q := m1]> d)) with (inc := inc1) as [I1 I2].
  - intros k m [(<- & <-)|(_ & Hm)]%lookup_insert_Some; [|by apply Hd].
    assert (Hg : writable (dq_id q) (get_dq d (dq_id q))).
    { unfold get_dq. destruct (d !! dq_id q) as [m|] eqn:Hm; [by apply Hd|]. constructor; cbn; try done; try lia; constructor; unfold is_s64; cbn; lia. }
    destruct Hg as [G1 G2 G3 [W1 W2 W3 W4 W5 W6 W7 W8] G5].
    assert (Hws : wf_dqblk (dq_dqb q)) by (rewrite Hqb; unfold seen; case_decide; [destruct Hw; constructor; try done; unfold is_s64; cbn; lia|done]).
    destruct Hws as [V1 V2 V3 V4 V5 V6 V7 V8]. subst m1. constructor; cbn [md dq_id dqb_off dq_dqb]; try done; destruct lim; try done; by constructor.
  - intros q' Hq'. apply Hq. by right.
  - split; [exact I1|]. rewrite dom_insert_L in I2. assert (dq_id q ∈ dom M) by (apply elem_of_dom; by eexists). set_solver.
Qed.

(** [fsck_chk_quota_files] repairs: a quota file that cannot be opened, or whose
    usage differs from what has been counted, is rewritten, and the next check of the same
    usage finds it consistent; a file it leaves alone was consistent. *)
Theorem quota_repair_consistent L now qctx ino qtype f size0 chk lim d : quota_dict qctx !! Z.to_nat qtype = Some (Some d) -> 0 <= qtype < 3 ->
  ino <> 0 -> 0 <= now < 2 ^ 62 -> d <> ∅ -> (forall k m, d !! k = Some m -> counted k m) ->
  inode_ok f -> inode_room f < 2 ^ 63 -> L <= 2 ^ 21 -> 1024 * L <= inode_room f -> size_fits chk (inode_room f) -> 2 + 5 * Z.of_nat (size d) <= L ->
  (forall h, quota_file_open f size0 qtype chk = Ok (0, Some h) -> exists M, quota_rep L h M /\ 2 + 5 * Z.of_nat (size d + size M) <= L) ->
  exists f' qctx' fixed, chk_quota_file now true lim qctx ino qtype f size0 chk = Ok (0, f', qctx', fixed, false) /\ inode_ok f' /\
    (fixed = false -> exists d', quota_compare_and_update qctx f size0 qtype chk false lim = Ok (0, false, Some d', f')) /\
    (fixed = true -> forall chk' size1 lim', sizes_agree chk' (inode_size f') ->
       exists d' f'', quota_compare_and_update qctx f' size1 qtype chk' false lim' = Ok (0, false, Some d', f'') /\ inode_ok f'').
Proof.
  intros Hd Hty Hino Hnow Hne Hcnt Hk Hrm HL Hroom Hfit Hn Hvalid.
  destruct (open_total f size0 qtype chk Hk Hty Hfit) as (e & h & Ho & Hkh & Hrh).
  assert (exists err inc d1, quota_compare_and_update qctx f size0 qtype chk false lim = Ok (err, inc, Some d1, qf_data (qh_qf h)) /\
    (forall k m, d1 !! k = Some m -> writable k m) /\ (forall k, usage_of d1 k = usage_of d k) /\ 2 + 5 * Z.of_nat (size d1) <= L) as (err & inc & d1 & Hcmp & Hw1 & Hu1 & Hs1).
  { unfold quota_compare_and_update. rewrite Hd, Ho, res_bind_ret. destruct (Z.eqb_spec e 0) as [->|He]; cbn [negb].
    2:{ do 3 eexists. split; [reflexivity|]. split; [intros k m Hm; by apply Hcnt|done]. }
    destruct (Hvalid h Ho) as (M & HR & HsM). destruct (quota_scan_all (scan_dquots_callback lim) L h M {| sd_dict := d; sd_inconsistent := false |} HR) as (qs & k & Hs & Hp & _).
    unfold proc in Hs. rewrite Hs, res_bind_ret. cbn [Z.eqb negb]. destruct (scan_ids M qs Hp) as [Hq _]. do 3 eexists. split; [reflexivity|].
    destruct (compared_writable lim d M qs) with (inc := false) as [Hw Hdom]; [intros ? m Hm; by apply Hcnt| |done|].
    { intros ? b Hb. destruct HR as (B & g & _ & _ & [Hm _] & _). by destruct (Hm _ b Hb) as (? & ? & _). }
    split; [exact Hw|]. split; [apply (callback_dict lim qs {| sd_dict := d; sd_inconsistent := false |})|].
    apply subseteq_size in Hdom. rewrite size_union_alt in Hdom. pose proof (subseteq_size (dom M ∖ dom d) (dom M) ltac:(set_solver)). rewrite !size_dom in *. lia. }
  unfold chk_quota_file. rewrite (proj2 (Z.eqb_neq _ _)), Hcmp, res_bind_ret by done. destruct ((err =? 0) && negb inc) eqn:Hok.
  { apply andb_prop in Hok as [->%Z.eqb_eq ->%negb_true_iff]. do 3 eexists. split; [reflexivity|]. split; [done|]. split; [by eexists|done]. }
  destruct (f2fs_filesize_update_ok (qf_data (qh_qf h)) 0 Hkh) as (f1 & -> & Hs0 & Hr1 & Hk1 & _); [lia|]. rewrite res_bind_ret.
  assert (Hd1 : quota_dict (with_dict qctx qtype d1) !! Z.to_nat qtype = Some (Some d1)).
  { cbn [with_dict quota_dict]. apply list_lookup_insert_eq. by apply lookup_lt_Some in Hd. }
  destruct (write_inode_spec L now (with_dict qctx qtype d1) ino qtype f1 d1) as (f' & qctx' & -> & Hkf & Hopen); try done; try lia.
  { apply map_choose in Hne as (k & m & Hkm). destruct (Hcnt k m Hkm) as [_ Hu]. pose proof (Hu1 k) as Huk. unfold usage_of, get_dq in Huk. rewrite Hkm in Huk. cbn in Huk.
    destruct (d1 !! k) as [m1|] eqn:Hk1'; cbn in Huk; injection Huk as H1 H2; [|by destruct Hu].
    exists k, m1. split; [done|]. unfold used in *. by rewrite H1, H2. }
  rewrite res_bind_ret. do 3 eexists. split; [reflexivity|]. split; [done|]. split; [done|]. intros _ chk' size1 lim' Hchk. destruct (Hopen chk' size1 Hchk) as (h' & M & Ho' & HR & HM & HN).
  apply (written_consistent L qctx f' size1 qtype chk' false lim' d d1 h' M); try done. intros k m Hm. by apply (Hcnt k).
Qed.
End Consistent.

(** * Samples *)

Definition sample_mdquot (id space inodes : Z) : mdquot :=
  {| md := {| dq_id := id; dq_dqb := usage space inodes; dqb_off := 0 |}; md_seen := false |}.
Definition sample_dict : dict := {[ 0 := sample_mdquot 0 4096 1; 1000 := sample_mdquot 1000 8192 2 ]}.
Definition sample_qctx : quota_ctx := {| quota_dict := [Some sample_dict; None; None]; linked_inode_dict := ∅ |}.
Definition blank_file : mem_file := {| mf_bytes := []; mf_size := 0; mf_cap := 102400 |}.

Lemma sample_counted k m : sample_dict !! k = Some m -> counted k m.
Proof.
  unfold sample_dict. intros [(<- & <-)|(_ & [<- <-]%lookup_singleton_Some)]%lookup_insert_Some.
  all: split; [constructor; cbn; try done; try (unfold is_u32; lia); try lia; constructor; unfold is_s64; cbn; lia|left; cbn; lia].
Qed.

Lemma quota_rewrite_consistent_witness : exists f' qctx', quota_write_inode 1700000000 sample_qctx 4 0 blank_file = Ok (0, f', qctx') /\
  forall chk size0 incons lim, sizes_agree chk (inode_size f') ->
    exists d' f'', quota_compare_and_update sample_qctx f' size0 0 chk incons lim = Ok (0, false, Some d', f'').
Proof.
  apply (quota_rewrite_consistent 100 1700000000 sample_qctx 4 0 blank_file sample_dict);
    [done|lia|lia|lia|discriminate|apply sample_counted|done|done|cbn; lia|lia|cbn; lia|by vm_compute].
Defined.

(** The files above are written and compared by the model itself. *)
Example sample_run :
  ('(err, f, _) ← quota_write_inode 1700000000 sample_qctx 4 0 blank_file;
   r ← quota_compare_and_update sample_qctx f 0 0 {| szchk_type := QF_SZCHK_NONE; last_blkofs := 0; maxsize := 0 |} false true;
   Ok (err, r.1.1, Z.of_nat (length (mf_bytes f)))) = Ok (0, (0, false), 7168).
Proof. vm_compute. reflexivity. Qed.

(** A quota file that is created and closed without any entry is rejected when it is
    opened: the number of blocks in its information, two, is more than its size has. *)
Theorem quota_empty_file_rejected {D} `{InodeFileLaws D} (f : D) qtype size0 chk : inode_ok f -> inode_size f = 0 -> 32 <= inode_room f < 2 ^ 63 ->
  0 <= qtype < 3 -> szchk_type chk <> QF_SZCHK_REGFILE ->
  exists h f' h', quota_file_create f qtype = Ok (0, h) /\ quota_file_close h true = Ok (0, f') /\
    quota_file_open f' size0 qtype chk = Ok (EIO, Some h').
Proof.
  intros Hk Hsz Hroom Hty Hc. set (h0 := blank_handle {| qf_data := f; qf_size := 0 |} qtype).
  destruct (new_io_run h0) as (m & f0 & Hm & Hn & Hr & Hlen & (Hk0 & Hs0 & Hb0) & Hby); try done; [by split; [|cbn; lia]|cbn; lia|].
  assert (Hod : on_disk (with_qf (new_info h0) f0)).
  { apply (new_io_on_disk h0 m f0 Hm). intros x Hx. rewrite Hby, (proj2 (Z.leb_le _ _)), (proj2 (Z.ltb_lt _ _)) by lia. done. }
  cbn in Hlen. rewrite Hsz in Hlen. change (Z.max 0 32) with 32 in Hlen.
  destruct (f2fs_filesize_update_ok (qf_data f0) 32 Hk0) as (f1 & Hu & Hs1 & Hr1 & Hk1 & Hb1); [lia|].
  exists (with_qf (new_info h0) f0), f1. unfold quota_file_create. fold h0. rewrite Hn, res_bind_ret.
  assert (Hclose : quota_file_close (with_qf (new_info h0) f0) true = Ok (0, f1)).
  { unfold quota_file_close. change (qh_dirty (with_qf (new_info h0) f0)) with false. cbn iota. rewrite res_bind_ret.
    change (qh_qf (with_qf (new_info h0) f0)) with f0. rewrite Hs0, Hlen. change (u64 32) with 32. cbn [Z.ltb Z.compare]. by rewrite Hu, res_bind_ret. }
  unfold quota_file_open. rewrite (proj2 (Z.leb_gt _ _)) by (unfold MAXQUOTAS; lia). set (h1 := blank_handle _ _).
  destruct (od_magic _ Hod) as (m' & Hm' & Hhd). destruct (od_info _ Hod) as [Hx|Hinfo]; [done|].
  rewrite (check_file_Ok h1 qtype m' Hk1 Hm'), res_bind_ret; [|intros k x Hx; rewrite <- (Hhd k x Hx); apply Hb1|cbn; lia]. cbn [negb].
  unfold v2_init_io. cbn [qh_qf].
  assert (Hread : qf_read (qh_qf h1) V2_DQINFOOFF SIZE_OF_DQINFO = Ok (v2_mem2diskdqinfo (with_qf (new_info h0) f0))).
  { change SIZE_OF_DQINFO with (Z.of_nat 24). rewrite <- (length_dqinfo (with_qf (new_info h0) f0)).
    apply read_at; rewrite ?length_dqinfo; try (unfold V2_DQINFOOFF; cbn; lia); [done|]. intros k x Hx. rewrite <- (Hinfo k x Hx). apply Hb1. }
  rewrite Hread, res_bind_ret, length_dqinfo. change (negb (Z.of_nat 24 =? SIZE_OF_DQINFO)) with false. cbn iota.
  rewrite (disk2mem_info (with_qf (new_info h0) f0)), res_bind_ret; try done; try (by unfold is_u32; cbn; lia).
  cbn [qh_qf h1 blank_handle qf_data with_qf]. rewrite (f2fs_quota_size_ok _ Hk1), res_bind_ret, Hs1.
  eexists. split; [done|]. split; [done|]. by destruct (szchk_type chk).
Qed.
Lemma quota_empty_file_rejected_witness : exists h f h', quota_file_create blank_file 0 = Ok (0, h) /\
  quota_file_close h true = Ok (0, f) /\ quota_file_open f 0 0 {| szchk_type := QF_SZCHK_NONE; last_blkofs := 0; maxsize := 0 |} = Ok (EIO, Some h').
Proof.
  apply (quota_empty_file_rejected blank_file 0 0 {| szchk_type := QF_SZCHK_NONE; last_blkofs := 0; maxsize := 0 |}); try (cbn; lia); discriminate.
Defined.
