(* ===== verification/FileData.v ===== *)
(** The contents of files (fsck/segment.c, fsck/node.c, fsck/node.h): following the node
    tree of a file and extending it ([get_dnode_of_data], [new_node_block]), allocating
    data blocks ([new_data_block]), reading and writing ([f2fs_read], [f2fs_write_ex]).

    These operations join the node address table (Nat), the segments (Segment) and the
    node blocks (Node) on one volume: [vol] is what they use of [struct f2fs_sb_info].
    The table's part of it is the view [nat_view], whose journal is the summary block of
    [CURSEG_HOT_DATA] and whose disk is the one the segments are on. *)
From Stdlib Require Import ZArith Lia List Bool.
From stdpp Require Import base numbers list gmap.
From S2P Require Import Prelude Codec Bits Crc Node Superblock Mkfs Checkpoint Nat Segment Fsck.

(** * The volume *)

(** [v_seed] is [c.chksum_seed], [v_alloc_failed] is [c.alloc_failed]; [c.feature] is the
    feature word of the super block. *)
Record vol := {
  v_seg : seg_state;
  v_nm : f2fs_nm_info;
  v_entries : list (list Z);
  v_node_ino : Z;
  v_meta_ino : Z;
  v_seed : Z;
  v_alloc_failed : bool;
}.

Definition v_disk (v : vol) : disk := sg_disk (v_seg v).
Definition v_feature (v : vol) : Z := sb_feature (g_super (sg (v_seg v))).

Definition with_seg (v : vol) (s : seg_state) : vol := {|
  v_seg := s; v_nm := v_nm v; v_entries := v_entries v; v_node_ino := v_node_ino v; v_meta_ino := v_meta_ino v;
  v_seed := v_seed v; v_alloc_failed := v_alloc_failed v |}.
Definition with_vdisk (v : vol) (d : disk) : vol := with_seg v (with_seg_disk (v_seg v) d).
Definition with_failed (v : vol) : vol := {|
  v_seg := v_seg v; v_nm := v_nm v; v_entries := v_entries v; v_node_ino := v_node_ino v; v_meta_ino := v_meta_ino v;
  v_seed := v_seed v; v_alloc_failed := true |}.

Definition nat_view (v : vol) : res nat_state :=
  hot ← rd (sg_cursegs (v_seg v)) CURSEG_HOT_DATA;
  let g := sg (v_seg v) in
  Ok {| ns_func := g_func g; ns_fix_on := true; ns_sb := g_super g; ns_log := g_log g; ns_main_blkaddr := g_main_blkaddr g;
        ns_node_ino := v_node_ino v; ns_meta_ino := v_meta_ino v; ns_nm := v_nm v; ns_sum := cs_sum_blk hot;
        ns_disk := v_disk v; ns_entries := v_entries v |}.
(** The volume after an operation on the table that leaves the journal alone. *)
Definition put_nat (v : vol) (st : nat_state) : vol := {|
  v_seg := with_seg_disk (v_seg v) (ns_disk st); v_nm := ns_nm st; v_entries := ns_entries st; v_node_ino := v_node_ino v;
  v_meta_ino := v_meta_ino v; v_seed := v_seed v; v_alloc_failed := v_alloc_failed v |}.

Definition vol_node_info (v : vol) (nid : Z) : res node_info := st ← nat_view v; get_node_info st nid.
Definition vol_update_nat (v : vol) (ino nid newaddr : Z) : res vol :=
  st ← nat_view v; st ← update_nat_blkaddr st ino nid newaddr; Ok (put_nat v st).
Definition vol_alloc_nid (v : vol) : res (Z * vol) :=
  st ← nat_view v; '(nid, st) ← f2fs_alloc_nid st; Ok (nid, put_nat v st).
Definition vol_release_nid (v : vol) (nid : Z) : res vol :=
  st ← nat_view v; st ← f2fs_release_nid st nid; Ok (put_nat v st).
Definition vol_read (v : vol) (a : Z) : res (list Z) := disk_read_or_die (v_disk v) a.
Definition vol_write (v : vol) (a : Z) (b : list Z) : res vol := d ← disk_write_or_die (v_disk v) a b; Ok (with_vdisk v d).

Definition F2FS_FEATURE_INODE_CHKSUM : Z := 0x0020.
(** [write_inode] sets the checksum in the caller's buffer. *)
Definition vol_write_inode (v : vol) (inode : list Z) (a : Z) : res (vol * list Z) :=
  '(d, inode) ← write_inode (has_feature (v_feature v) F2FS_FEATURE_INODE_CHKSUM) (v_seed v) (v_disk v) inode a;
  Ok (with_vdisk v d, inode).

(** * The node of a data block *)

(** [node_blk] of a [struct dnode_of_data]: not set, the inode block itself, or a block of
    its own. *)
Inductive node_ref := NodeNull | NodeInode | NodeOwn (blk : list Z).

Record dnode_of_data := {
  dn_inode : list Z;
  dn_node : node_ref;
  dn_nid : Z;
  dn_ofs_in_node : Z;
  dn_data_blkaddr : Z;
  dn_node_blkaddr : Z;
  dn_idirty : bool;
  dn_ndirty : bool;
}.

Definition set_new_dnode (inode : list Z) (nid : Z) : dnode_of_data := {|
  dn_inode := inode; dn_node := NodeNull; dn_nid := nid; dn_ofs_in_node := 0; dn_data_blkaddr := 0; dn_node_blkaddr := 0;
  dn_idirty := false; dn_ndirty := false |}.

(** The block behind [node_blk]. *)
Definition node_blk (dn : dnode_of_data) : res (list Z) :=
  match dn_node dn with NodeNull => Die | NodeInode => Ok (dn_inode dn) | NodeOwn b => Ok b end.
Definition dn_with_node (dn : dnode_of_data) (n : node_ref) : dnode_of_data := {|
  dn_inode := dn_inode dn; dn_node := n; dn_nid := dn_nid dn; dn_ofs_in_node := dn_ofs_in_node dn;
  dn_data_blkaddr := dn_data_blkaddr dn; dn_node_blkaddr := dn_node_blkaddr dn; dn_idirty := dn_idirty dn; dn_ndirty := dn_ndirty dn |}.
Definition dn_with_nid (dn : dnode_of_data) (nid : Z) : dnode_of_data := {|
  dn_inode := dn_inode dn; dn_node := dn_node dn; dn_nid := nid; dn_ofs_in_node := dn_ofs_in_node dn;
  dn_data_blkaddr := dn_data_blkaddr dn; dn_node_blkaddr := dn_node_blkaddr dn; dn_idirty := dn_idirty dn; dn_ndirty := dn_ndirty dn |}.
(** The inode block changed in place, which [idirty] tells if [dirty]. *)
Definition dn_with_inode (dn : dnode_of_data) (inode : list Z) (dirty : bool) : dnode_of_data := {|
  dn_inode := inode; dn_node := dn_node dn; dn_nid := dn_nid dn; dn_ofs_in_node := dn_ofs_in_node dn;
  dn_data_blkaddr := dn_data_blkaddr dn; dn_node_blkaddr := dn_node_blkaddr dn; dn_idirty := dirty || dn_idirty dn; dn_ndirty := dn_ndirty dn |}.
Definition dn_with_data (dn : dnode_of_data) (a : Z) : dnode_of_data := {|
  dn_inode := dn_inode dn; dn_node := dn_node dn; dn_nid := dn_nid dn; dn_ofs_in_node := dn_ofs_in_node dn;
  dn_data_blkaddr := a; dn_node_blkaddr := dn_node_blkaddr dn; dn_idirty := dn_idirty dn; dn_ndirty := dn_ndirty dn |}.
Definition dn_next (dn : dnode_of_data) : dnode_of_data := {|
  dn_inode := dn_inode dn; dn_node := dn_node dn; dn_nid := dn_nid dn; dn_ofs_in_node := u32 (dn_ofs_in_node dn + 1);
  dn_data_blkaddr := dn_data_blkaddr dn; dn_node_blkaddr := dn_node_blkaddr dn; dn_idirty := dn_idirty dn; dn_ndirty := dn_ndirty dn |}.

Definition dn_inc_inode_blocks (dn : dnode_of_data) : res dnode_of_data :=
  inode ← inc_inode_blocks (dn_inode dn); Ok (dn_with_inode dn inode true).

Definition set_data_blkaddr (dn : dnode_of_data) : res dnode_of_data :=
  match dn_node dn with
  | NodeNull => Oob
  | NodeInode =>
      inode ← set_datablock_addr (dn_inode dn) (dn_ofs_in_node dn) (dn_data_blkaddr dn);
      Ok (dn_with_inode dn inode true)
  | NodeOwn b =>
      b ← set_datablock_addr b (dn_ofs_in_node dn) (dn_data_blkaddr dn);
      Ok {| dn_inode := dn_inode dn; dn_node := NodeOwn b; dn_nid := dn_nid dn; dn_ofs_in_node := dn_ofs_in_node dn;
            dn_data_blkaddr := dn_data_blkaddr dn; dn_node_blkaddr := dn_node_blkaddr dn; dn_idirty := dn_idirty dn; dn_ndirty := true |}
  end.

Definition LINUX_S_IFDIR : Z := 0x4000.
Definition LINUX_S_IFLNK : Z := 0xa000.
Definition is_mode (inode : list Z) (t : Z) : res bool := m ← get_le16 inode ofs_i_mode; Ok (Z.land m LINUX_S_IFMT =? t).

(** A fresh node block for node [nid], number [ofs] of the file of [inode]. *)
Definition fresh_node (inode : list Z) (nid ofs : Z) (cp : list Z) : res (list Z) :=
  b ← set_le32 (replicate 4096 0) ofs_nid nid;
  ino ← get_le32 inode ofs_ino;
  b ← set_le32 b ofs_ino ino;
  b ← set_le32 b ofs_flag (u32 (Z.shiftl ofs OFFSET_BIT_SHIFT));
  ver ← get_le64 cp ofs_checkpoint_ver;
  b ← set_le64 b ofs_cp_ver ver;
  dir ← is_mode inode LINUX_S_IFDIR;
  set_cold_node b dir.

(** The address, 0 if there is no space; [dn_node] is the new block. *)
Definition new_node_block (v : vol) (dn : dnode_of_data) (ofs : Z) : res (Z * vol * dnode_of_data) :=
  let inode := dn_inode dn in
  blk ← fresh_node inode (dn_nid dn) ofs (g_ckpt (sg (v_seg v)));
  dnode ← IS_DNODE blk;
  dir ← is_mode inode LINUX_S_IFDIR;
  let type := if dnode : bool then if dir : bool then CURSEG_HOT_NODE else CURSEG_WARM_NODE else CURSEG_COLD_NODE in
  let type := if has_feature (v_feature v) F2FS_FEATURE_RO && negb (type =? CURSEG_HOT_NODE) then CURSEG_HOT_NODE else type in
  ni ← vol_node_info v (dn_nid dn);
  '(ret, blkaddr, s) ← reserve_new_block (v_seg v) NULL_ADDR (set_summary (dn_nid dn) 0 (ni_version ni)) type (ofs =? 0);
  let v := with_seg v s in
  if negb (ret =? 0) then Ok (0, v, dn)
  else
    ino ← get_le32 inode ofs_ino;
    v ← vol_update_nat v ino (dn_nid dn) blkaddr;
    dn ← dn_inc_inode_blocks (dn_with_node dn (NodeOwn blk));
    Ok (blkaddr, v, dn).

Inductive dnode_mode := ALLOC_NODE | LOOKUP_NODE.
Definition is_alloc (m : dnode_mode) : bool := match m with ALLOC_NODE => true | LOOKUP_NODE => false end.

(** [parent] of the loop: the inode block in [dn], or a block that is only the loop's. *)
Definition parent_blk (dn : dnode_of_data) (parent : option (list Z)) : list Z := default (dn_inode dn) parent.
Definition set_parent (dn : dnode_of_data) (parent : option (list Z)) (b : list Z) : dnode_of_data * option (list Z) :=
  match parent with Some _ => (dn, Some b) | None => (dn_with_inode dn b false, None) end.

(** Levels [i] to [i + n - 1] below the node at [pblk]; the path gives for each the slot in
    the parent and the number of the node. The return value, [dn], the node id, the block
    of the last node. *)
Fixpoint dnode_levels (steps : list (Z * Z)) (v : vol) (dn : dnode_of_data) (mode : dnode_mode) (parent : option (list Z))
    (nid nblk : Z) : res (Z * vol * dnode_of_data * Z * Z) :=
  match steps with
  | [] => Ok (0, v, dn, nid, nblk)
  | (off, nofs) :: steps =>
      let first := match parent with None => true | Some _ => false end in
      nid ← get_nid (parent_blk dn parent) off first;
      '(ret, v, dn, parent, nid, blk) ←
        (if (nid =? 0) && is_alloc mode then
           '(nid, v) ← vol_alloc_nid v;
           '(blk, v, dn) ← new_node_block v (dn_with_nid dn nid) nofs;
           if blk =? 0 then v ← vol_release_nid v nid; Ok (- EINVAL, with_failed v, dn, parent, nid, blk)
           else
             b ← set_nid (parent_blk dn parent) off nid first;
             let (dn, parent) := set_parent dn parent b in
             Ok (0, v, dn, parent, nid, blk)
         else
           ni ← vol_node_info v nid;
           b ← vol_read v (ni_blk_addr ni);
           Ok (0, v, dn_with_node dn (NodeOwn b), parent, nid, ni_blk_addr ni));
      if negb (ret =? 0) then Ok (ret, v, dn, nid, blk)
      else
        v ← (if is_alloc mode then vol_write v nblk (parent_blk dn parent) else Ok v);
        b ← node_blk dn;
        dnode_levels steps v dn mode (Some b) nid blk
  end.

(** The return value, the volume and [dn]. *)
Definition get_dnode_of_data (v : vol) (dn : dnode_of_data) (index : Z) (mode : dnode_mode) : res (Z * vol * dnode_of_data) :=
  p ← get_node_path (v_feature v) (dn_inode dn) index;
  let dn := if level p =? 0 then dn_with_node dn NodeInode else dn in
  ni ← vol_node_info v (dn_nid dn);
  '(ret, v, dn, nid, nblk) ← dnode_levels (zip (offset p) (tail (noffset p))) v dn mode None (dn_nid dn) (ni_blk_addr ni);
  if negb (ret =? 0) then Ok (ret, v, dn)
  else
    b ← node_blk dn;
    let ofs_in_node := List.last (offset p) 0 in
    a ← datablock_addr b ofs_in_node;
    Ok (0, v, {| dn_inode := dn_inode dn; dn_node := dn_node dn; dn_nid := nid; dn_ofs_in_node := ofs_in_node; dn_data_blkaddr := a;
                 dn_node_blkaddr := nblk; dn_idirty := dn_idirty dn; dn_ndirty := dn_ndirty dn |}).

(** With the inode block at hand. *)
Definition ADDRS_PER_PAGE (v : vol) (dn : dnode_of_data) : res Z :=
  b ← node_blk dn;
  inode ← IS_INODE b;
  if inode : bool then addrs_per_inode (v_feature v) b else addrs_per_block (dn_inode dn).

(** * Data blocks *)

(** The return value, the volume, [dn]; the caller's block is zeroed. *)
Definition new_data_block (v : vol) (dn : dnode_of_data) (type : Z) : res (Z * vol * dnode_of_data) :=
  b ← node_blk dn;
  blkaddr ← datablock_addr b (dn_ofs_in_node dn);
  let type := if has_feature (v_feature v) F2FS_FEATURE_RO && negb (type =? CURSEG_HOT_DATA) then CURSEG_HOT_DATA else type in
  ni ← vol_node_info v (dn_nid dn);
  '(ret, a, s) ← reserve_new_block (v_seg v) blkaddr (set_summary (dn_nid dn) (dn_ofs_in_node dn) (ni_version ni)) type false;
  let v := with_seg v s in
  let dn := dn_with_data dn a in
  if negb (ret =? 0) then Ok (ret, with_failed v, dn)
  else
    dn ← (if blkaddr =? NULL_ADDR then dn_inc_inode_blocks dn
          else if blkaddr =? NEW_ADDR then Ok (dn_with_inode dn (dn_inode dn) true) else Ok dn);
    dn ← set_data_blkaddr dn;
    Ok (0, v, dn).

(** * Reading *)

(** The inode of a file that is read or written, and the address of its block. *)
Definition read_file_inode (v : vol) (ino : Z) : res (list Z * Z) :=
  ni ← vol_node_info v ino;
  inode ← vol_read v (ni_blk_addr ni);
  dir ← is_mode inode LINUX_S_IFDIR;
  _ ← assert_ (negb dir);
  lnk ← is_mode inode LINUX_S_IFLNK;
  _ ← assert_ (negb lnk);
  Ok (inode, ni_blk_addr ni).

Definition f2fs_quota_size (v : vol) (ino : Z) : res Z :=
  ni ← vol_node_info v ino;
  inode ← vol_read v (ni_blk_addr ni);
  reg ← is_mode inode LINUX_S_IFREG;
  _ ← assert_ reg;
  get_le64 inode ofs_i_size.

(** The bytes read from [offset] on; [left] is [remained_blkentries]. *)
Fixpoint f2fs_read_loop (fuel : nat) (v : vol) (ino : Z) (inode : list Z) (dn : dnode_of_data) (left offset count : Z) : res (list Z) :=
  match fuel with
  | O => NoFuel
  | S fuel =>
      if count <=? 0 then Ok []
      else
        '(dn, left) ← (if left =? 0 then
                         '(_, _, dn) ← get_dnode_of_data v (set_new_dnode inode ino) (Z.shiftr offset 12) LOOKUP_NODE;
                         left ← ADDRS_PER_PAGE v dn;
                         Ok (dn, left)
                       else Ok (dn, left));
        _ ← assert_ (0 <? left);
        b ← node_blk dn;
        blkaddr ← datablock_addr b (dn_ofs_in_node dn);
        if (blkaddr =? NULL_ADDR) || (blkaddr =? NEW_ADDR) then Ok []
        else
          let off_in_blk := offset mod F2FS_BLKSIZE in
          let len_in_blk := Z.min (F2FS_BLKSIZE - off_in_blk) count in
          blk ← vol_read v blkaddr;
          bs ← rd_bytes blk off_in_blk (Z.to_nat len_in_blk);
          rest ← f2fs_read_loop fuel v ino inode (dn_next dn) (left - 1) (offset + len_in_blk) (count - len_in_blk);
          Ok (bs ++ rest)
  end.

(** What is read; its length is the return value. *)
Definition f2fs_read (v : vol) (ino count offset : Z) : res (list Z) :=
  '(inode, _) ← read_file_inode v ino;
  filesize ← get_le64 inode ofs_i_size;
  let count := if filesize <? offset then 0
               else if filesize <? u64 (count + offset) then filesize - offset else count in
  f2fs_read_loop (Z.to_nat (count / F2FS_BLKSIZE) + 3) v ino inode (set_new_dnode inode ino) 0 offset count.

(** * Writing *)

Definition COMPRESS_ADDR : Z := u32 (-2).
Definition WR_NORMAL : Z := 1.
Definition WR_COMPRESS_DATA : Z := 2.
Definition has_data (addr_type : Z) : bool := (addr_type =? WR_NORMAL) || (addr_type =? WR_COMPRESS_DATA).

(** What the loop leaves: the volume, [dn], [idirty], [offset] and [written_count]. *)
Record written := { w_vol : vol; w_dn : dnode_of_data; w_idirty : bool; w_offset : Z; w_count : Z }.

(** Writing a dirty node back. *)
Definition write_dnode (v : vol) (dn : dnode_of_data) : res vol :=
  if dn_ndirty dn then b ← node_blk dn; vol_write v (dn_node_blkaddr dn) b else Ok v.

(** The node of the block at [offset] when the last one has no more entries; the error, the
    volume, [dn], the entries left. *)
Definition write_node (v : vol) (ino : Z) (dn : dnode_of_data) (left offset : Z) : res (Z * vol * dnode_of_data * Z) :=
  if left =? 0 then
    '(err, v, dn) ← get_dnode_of_data v (set_new_dnode (dn_inode dn) ino) (Z.shiftr offset 12) ALLOC_NODE;
    if negb (err =? 0) then Ok (err, v, dn, 0)
    else n ← ADDRS_PER_PAGE v dn; Ok (0, v, dn, u64 (u32 (n - dn_ofs_in_node dn)))
  else Ok (0, v, dn, left).

(** One block: [buf] at [off] of the block at [a]. *)
Definition write_in_block (v : vol) (a off : Z) (buf : list Z) : res vol :=
  if Z.of_nat (length buf) <? F2FS_BLKSIZE then
    b ← vol_read v a;
    b ← wr_list b off buf;
    vol_write v a b
  else vol_write v a buf.

(** [dn] has the inode block in memory all the time; [buffer] is what is left to write. *)
Fixpoint f2fs_write_loop (fuel : nat) (v : vol) (ino : Z) (dn : dnode_of_data) (idirty : bool) (left offset count written_count : Z)
    (buffer : list Z) (addr_type : Z) : res written :=
  match fuel with
  | O => NoFuel
  | S fuel =>
      if count <=? 0 then Ok {| w_vol := v; w_dn := dn; w_idirty := idirty; w_offset := offset; w_count := written_count |}
      else
        '(err, v, dn, n) ← write_node v ino dn left offset;
        if negb (err =? 0) then Ok {| w_vol := v; w_dn := dn; w_idirty := idirty; w_offset := offset; w_count := written_count |}
        else
          let idirty := idirty || (left =? 0) && dn_idirty dn in
          _ ← assert_ (0 <? n);
          if negb (has_data addr_type) then
            dn ← set_data_blkaddr (dn_with_data dn addr_type);
            v ← write_dnode v dn;
            Ok {| w_vol := v; w_dn := dn; w_idirty := idirty || dn_idirty dn; w_offset := offset; w_count := 0 |}
          else
            b ← node_blk dn;
            blkaddr ← datablock_addr b (dn_ofs_in_node dn);
            let fresh := (blkaddr =? NULL_ADDR) || (blkaddr =? NEW_ADDR) in
            '(err, v, dn) ← (if fresh then new_data_block v dn CURSEG_WARM_DATA else Ok (0, v, dn));
            if negb (err =? 0) then Ok {| w_vol := v; w_dn := dn; w_idirty := idirty; w_offset := offset; w_count := written_count |}
            else
              let blkaddr := if fresh then dn_data_blkaddr dn else blkaddr in
              let idirty := idirty || fresh && dn_idirty dn in
              let off_in_blk := offset mod F2FS_BLKSIZE in
              let len_in_blk := Z.min (F2FS_BLKSIZE - off_in_blk) count in
              v ← write_in_block v blkaddr off_in_blk (take (Z.to_nat len_in_blk) buffer);
              let offset := offset + len_in_blk in
              let count := count - len_in_blk in
              let dn := dn_next dn in
              v ← (if (n - 1 =? 0) || (count =? 0) then write_dnode v dn else Ok v);
              f2fs_write_loop fuel v ino dn idirty (n - 1) offset count (written_count + len_in_blk) (drop (Z.to_nat len_in_blk) buffer) addr_type
  end.

(** [buffer] is [None] for the null pointer; the return value and the volume. *)
Definition f2fs_write_ex (v : vol) (ino : Z) (buffer : option (list Z)) (count offset addr_type : Z) : res (Z * vol) :=
  if count =? 0 then Ok (0, v)
  else
    _ ← assert_ (Bool.eqb (has_data addr_type) (match buffer with Some _ => true | None => false end));
    _ ← assert_ ((addr_type =? WR_NORMAL) || (offset mod F2FS_BLKSIZE =? 0));
    '(inode, a) ← read_file_inode v ino;
    w ← f2fs_write_loop (Z.to_nat (count / F2FS_BLKSIZE) + 3) v ino (set_new_dnode inode ino) false 0 offset count 0 (default [] buffer) addr_type;
    let inode := dn_inode (w_dn w) in
    size ← get_le64 inode ofs_i_size;
    '(inode, idirty) ← (if (addr_type =? WR_NORMAL) && (size <? w_offset w) then
                          inode ← set_le64 inode ofs_i_size (w_offset w); Ok (inode, true)
                        else Ok (inode, w_idirty w));
    v ← (if idirty : bool then '(v, _) ← vol_write_inode (w_vol w) inode a; Ok v else Ok (w_vol w));
    Ok (w_count w, v).

Definition f2fs_write (v : vol) (ino : Z) (buffer : list Z) (offset : Z) : res (Z * vol) :=
  f2fs_write_ex v ino (Some buffer) (Z.of_nat (length buffer)) offset WR_NORMAL.
Definition f2fs_write_compress_data (v : vol) (ino : Z) (buffer : list Z) (offset : Z) : res (Z * vol) :=
  f2fs_write_ex v ino (Some buffer) (Z.of_nat (length buffer)) offset WR_COMPRESS_DATA.
Definition f2fs_write_addrtag (v : vol) (ino offset addrtag : Z) : res (Z * vol) :=
  _ ← assert_ ((addrtag =? COMPRESS_ADDR) || (addrtag =? NEW_ADDR) || (addrtag =? NULL_ADDR));
  f2fs_write_ex v ino None F2FS_BLKSIZE offset addrtag.

(** [c.compress.readonly] is [readonly]; offsets wrap like [pgoff_t]. *)
Fixpoint fix_mutable_loop (n : nat) (v : vol) (ino offset i : Z) : res (Z * vol) :=
  match n with
  | O => Ok (0, v)
  | S n =>
      '(wlen, v) ← f2fs_write_addrtag v ino (u64 (offset + u32 (Z.shiftl i 12))) NEW_ADDR;
      if negb (wlen =? 0) then Ok (wlen, v) else fix_mutable_loop n v ino offset (i + 1)
  end.
Definition f2fs_fix_mutable (readonly : bool) (v : vol) (ino offset compressed : Z) : res (Z * vol) :=
  if readonly then Ok (0, v) else fix_mutable_loop (Z.to_nat (u32 (compressed - 1))) v ino offset 0.

Definition f2fs_filesize_update (v : vol) (ino filesize : Z) : res vol :=
  '(inode, a) ← read_file_inode v ino;
  inode ← set_le64 inode ofs_i_size filesize;
  '(v, _) ← vol_write_inode v inode a;
  Ok v.
