(* ===== verification/FileTree.v ===== *)
(** Files whose blocks are there: [f2fs_write] changes the bytes it is given and nothing
    else, [f2fs_read] gives them back, and the size is raised when it has to be. The file
    may be of any depth; what a lookup reads, its footprint, is not what is written. *)
From Stdlib Require Import ZArith Lia List Bool.
From stdpp Require Import base numbers list gmap.
From S2P Require Import Prelude Codec Bits Crc Node Superblock Mkfs Checkpoint Nat Segment Fsck FileData.

(** * Disk writes *)

Lemma with_vdisk_same v : with_vdisk v (v_disk v) = v.
Proof. by destruct v as [[]]. Qed.
Lemma with_vdisk_disk v d : v_disk (with_vdisk v d) = d.
Proof. done. Qed.
Lemma with_vdisk_twice v d d' : with_vdisk (with_vdisk v d) d' = with_vdisk v d'.
Proof. done. Qed.

Lemma vol_read_Ok v a b : v_disk v !! a = Some b -> vol_read v a = Ok b.
Proof. intros Hb. unfold vol_read, disk_read_or_die, disk_read. by rewrite Hb. Qed.
Lemma vol_write_Ok v a b : is_Some (v_disk v !! a) -> vol_write v a b = Ok (with_vdisk v (<[a := b]> (v_disk v))).
Proof. intros [x Hx]. unfold vol_write, disk_write_or_die, disk_write. by rewrite Hx, res_bind_ret. Qed.
(** Writing what is there. *)
Lemma vol_write_same v a b : v_disk v !! a = Some b -> vol_write v a b = Ok v.
Proof. intros Hb. rewrite vol_write_Ok by eauto. by rewrite insert_id, with_vdisk_same. Qed.

(** * What a lookup reads *)

(** The block of the table that has the entry of [nid]. *)
Definition nat_addr (v : vol) (nid : Z) : res Z := st ← nat_view v; '(a, _) ← current_nat_addr st nid; Ok a.

Lemma nat_addr_frame v d nid : nat_addr (with_vdisk v d) nid = nat_addr v nid.
Proof.
  unfold nat_addr, nat_view, with_vdisk. cbn [v_seg with_seg with_seg_disk sg_cursegs sg].
  by destruct (rd (sg_cursegs (v_seg v)) CURSEG_HOT_DATA).
Qed.

Lemma node_info_frame v d nid a : nat_addr v nid = Ok a -> d !! a = v_disk v !! a -> vol_node_info (with_vdisk v d) nid = vol_node_info v nid.
Proof.
  unfold nat_addr, vol_node_info, nat_view, with_vdisk. cbn [v_seg with_seg with_seg_disk sg_cursegs sg v_nm v_entries v_node_ino v_meta_ino].
  intros (st & (hot & Hh & [= <-])%res_bind_Ok & ([x y] & Hx & [= <-])%res_bind_Ok)%res_bind_Ok Hd.
  rewrite Hh, !res_bind_ret. unfold get_node_info, get_nat_entry, lookup_nat_in_journal. cbn [ns_func ns_entries ns_sum ns_disk].
  match goal with H : current_nat_addr ?st nid = _ |- context [current_nat_addr ?st' nid] => change (current_nat_addr st' nid) with (current_nat_addr st nid) end.
  rewrite Hx, !res_bind_ret. change (v_disk (with_seg v (with_seg_disk (v_seg v) d))) with d. unfold disk_read_or_die, disk_read. by rewrite Hd.
Qed.

(** The steps from the inode down, as [dnode_levels] takes them. *)
Definition steps_of (p : node_path) : list (Z * Z) := zip (offset p) (tail (noffset p)).

(** The blocks of a path that is complete: the addresses that are read, and the last node
    with its id and address. *)
Fixpoint walk (v : vol) (steps : list (Z * Z)) (blk : list Z) (first : bool) (nid a : Z) : res (list Z * (Z * Z * list Z)) :=
  match steps with
  | [] => Ok ([], (nid, a, blk))
  | (off, _) :: steps =>
      nid ← get_nid blk off first;
      _ ← assert_ (negb (nid =? 0));
      na ← nat_addr v nid;
      ni ← vol_node_info v nid;
      b ← vol_read v (ni_blk_addr ni);
      '(l, r) ← walk v steps b false nid (ni_blk_addr ni);
      Ok (na :: ni_blk_addr ni :: l, r)
  end.

(** The footprint and the address of block [idx] of a file. *)
Definition find_block (v : vol) (ino idx : Z) : res (list Z * Z) :=
  na ← nat_addr v ino;
  ni ← vol_node_info v ino;
  inode ← vol_read v (ni_blk_addr ni);
  p ← get_node_path (v_feature v) inode idx;
  '(l, (_, _, blk)) ← walk v (steps_of p) inode true ino (ni_blk_addr ni);
  is_inode ← IS_INODE blk;
  _ ← assert_ (Bool.eqb is_inode (level p =? 0));
  a ← datablock_addr blk (List.last (offset p) 0);
  Ok (na :: l, a).

Lemma walk_frame v d steps : forall blk first nid a l r, walk v steps blk first nid a = Ok (l, r) ->
  (forall x, x ∈ l -> d !! x = v_disk v !! x) -> walk (with_vdisk v d) steps blk first nid a = Ok (l, r).
Proof.
  induction steps as [|[off no] steps IH]; intros blk first nid a l r Hw Hl; [done|]. cbn [walk] in *.
  apply res_bind_Ok in Hw as (n & -> & Hw). rewrite res_bind_ret. apply res_bind_Ok in Hw as (u & -> & Hw). rewrite res_bind_ret.
  apply res_bind_Ok in Hw as (na & Hna & Hw). rewrite nat_addr_frame, Hna, res_bind_ret.
  apply res_bind_Ok in Hw as (ni & Hni & Hw). apply res_bind_Ok in Hw as (b & Hb & Hw). apply res_bind_Ok in Hw as ([l' r'] & Hw & [= <- <-]).
  rewrite (node_info_frame v d n na), Hni, res_bind_ret by (done || apply Hl; left). 
  assert (Hb' : vol_read (with_vdisk v d) (ni_blk_addr ni) = vol_read v (ni_blk_addr ni)).
  { unfold vol_read, disk_read_or_die, disk_read. rewrite with_vdisk_disk, Hl; [done|]. right. left. }
  rewrite Hb', Hb, res_bind_ret, (IH b false n (ni_blk_addr ni) l' r'), res_bind_ret; [done|done|]. intros x Hx. apply Hl. by right; right.
Qed.

Lemma assert_true : assert_ true = Ok tt.
Proof. done. Qed.

(** A complete path is followed, and in [ALLOC_NODE] nothing is allocated. *)
Lemma levels_walk v mode steps : forall dn parent blk nid a l nid' a' blk',
  walk v steps blk (match parent with None => true | Some _ => false end) nid a = Ok (l, (nid', a', blk')) ->
  parent_blk dn parent = blk -> v_disk v !! a = Some blk ->
  dnode_levels steps v dn mode parent nid a =
    Ok (0, v, match steps with [] => dn | _ => dn_with_node dn (NodeOwn blk') end, nid', a') /\ v_disk v !! a' = Some blk'.
Proof.
  induction steps as [|[off no] steps IH]; intros dn parent blk nid a l nid' a' blk' Hw Hp Hd; cbn [walk dnode_levels] in *; [by injection Hw as <- <- <- <-|].
  rewrite Hp. apply res_bind_Ok in Hw as (n & -> & Hw). rewrite res_bind_ret.
  apply res_bind_Ok in Hw as (u & Hnz%assert_Ok & Hw). apply negb_true_iff in Hnz. rewrite Hnz. cbn [andb].
  apply res_bind_Ok in Hw as (na & Hna & Hw). apply res_bind_Ok in Hw as (ni & Hni & Hw). apply res_bind_Ok in Hw as (b & Hb & Hw).
  apply res_bind_Ok in Hw as ([l' r'] & Hw & [= <- ->]). rewrite Hni, res_bind_ret, Hb, !res_bind_ret. cbn [Z.eqb negb].
  assert (Hp' : parent_blk (dn_with_node dn (NodeOwn b)) parent = blk) by (by rewrite <- Hp).
  assert ((if is_alloc mode then vol_write v a (parent_blk (dn_with_node dn (NodeOwn b)) parent) else Ok v) = Ok v) as ->.
  { rewrite Hp'. destruct (is_alloc mode); [by apply vol_write_same|done]. }
  rewrite res_bind_ret. cbn [node_blk dn_node dn_with_node]. rewrite res_bind_ret.
  assert (Hdb : v_disk v !! ni_blk_addr ni = Some b).
  { unfold vol_read, disk_read_or_die, disk_read in Hb. destruct (v_disk v !! ni_blk_addr ni); congruence. }
  destruct (IH (dn_with_node dn (NodeOwn b)) (Some b) b n (ni_blk_addr ni) l' nid' a' blk' Hw eq_refl Hdb) as [IH1 IH2].
  rewrite IH1. split; [|done]. destruct steps; [|done]. cbn [walk] in Hw. by injection Hw as <- <- <- <-.
Qed.

(** * Paths *)

Section Paths.
Context (feature : Z) (node : list Z).

Lemma addrs_per_block_range B : addrs_per_block node = Ok B -> 0 <= B <= DEF_ADDRS_PER_BLOCK.
Proof.
  unfold addrs_per_block, DEF_ADDRS_PER_BLOCK. intros ([] & _ & Hb)%res_bind_Ok; [|injection Hb as <-; lia].
  apply res_bind_Ok in Hb as (log & _ & (size & Hs & [= <-])%res_bind_Ok). unfold shl1 in Hs. destruct ((0 <=? log) && (log <? 31)) eqn:Hr; [|done].
  injection Hs as <-. apply andb_prop in Hr as [H0%Z.leb_le _]. pose proof (Z.pow_pos_nonneg 2 log ltac:(lia) H0). unfold ALIGN_DOWN. split.
  - apply Z.mul_nonneg_nonneg; [apply Z.div_pos|]; lia.
  - rewrite Z.mul_comm. apply Z.mul_div_le. lia.
Qed.

(** How many addresses the node at the end of the path has. *)
Definition page_addrs (p : node_path) : res Z := if level p =? 0 then addrs_per_inode feature node else addrs_per_block node.

Lemma path_steps b p : get_node_path feature node b = Ok p -> (level p =? 0) = match steps_of p with [] => true | _ => false end.
Proof.
  unfold get_node_path. intros (D & _ & (B & _ & Hp)%res_bind_Ok)%res_bind_Ok. cbv zeta in Hp.
  repeat match goal with H : (if ?x then _ else _) = Ok _ |- _ => destruct x end; try discriminate Hp; by injection Hp as <-.
Qed.

(** The blocks that one direct node maps. *)
Lemma in_node x B k : 0 <= x -> 0 < B -> 0 <= k -> 0 <= x mod B < B /\
  (x mod B + k < B -> (x + k) / B = x / B /\ (x + k) mod B = x mod B + k /\ forall m, x < B * m -> x + k < B * m).
Proof.
  intros Hx HB Hk. pose proof (Z.mod_pos_bound x B HB) as Hm. split; [done|]. intros Hlt. pose proof (Z.div_mod x B ltac:(lia)) as Hd.
  split; [symmetry; apply (Z.div_unique _ _ _ (x mod B + k)); lia|]. split; [symmetry; apply (Z.mod_unique _ _ (x / B)); lia|].
  intros m Hxm. assert (x / B < m) by (apply Z.div_lt_upper_bound; lia). nia.
Qed.

Ltac tests := repeat match goal with
  |- context [if ?a <? ?b then _ else _] => first [rewrite (proj2 (Z.ltb_ge a b)) by lia | rewrite (proj2 (Z.ltb_lt a b)) by lia] end.
(** The case of the block [x] of [B * m] below an indirect node. *)
Ltac below x B m k :=
  match goal with H : Ok _ = Ok _ |- _ => injection H as <- end;
  destruct (in_node x B k) as [? Hn]; [lia|lia|lia|];
  cbn; eexists; split; [reflexivity|]; split; [done|]; intros Hlt; destruct (Hn Hlt) as (Hq & Hr & Hm); specialize (Hm m ltac:(lia)); tests.

(** The next blocks of the same node. *)
Lemma path_next b p k : get_node_path feature node b = Ok p -> 0 <= b -> 0 <= k ->
  exists n, page_addrs p = Ok n /\ 0 <= List.last (offset p) 0 < n /\
    (List.last (offset p) 0 + k < n -> exists p', get_node_path feature node (b + k) = Ok p' /\ level p' = level p /\ steps_of p' = steps_of p /\
       List.last (offset p') 0 = List.last (offset p) 0 + k).
Proof.
  unfold get_node_path, page_addrs. intros (D & HD & (B & HB & Hp)%res_bind_Ok)%res_bind_Ok H0 Hk. rewrite HD, !res_bind_ret, HB, !res_bind_ret.
  pose proof (addrs_per_block_range B HB) as HBr. unfold DEF_ADDRS_PER_BLOCK in HBr. cbv zeta in *. unfold NIDS_PER_BLOCK in *.
  rewrite (u32_id (B * 1018)) in * by (unfold is_u32; lia).
  repeat match goal with H : (if ?x <? ?y then _ else _) = Ok _ |- _ => destruct (Z.ltb_spec x y) end; [| | |below (b - D - B - B) B 1018 k|below (b - D - B - B - B * 1018) B 1018 k|below (b - D - B - B - B * 1018 - B * 1018) B (1018 * 1018) k|done].
  1-3: injection Hp as <-; cbn; eexists; (split; [reflexivity|]); (split; [lia|]); intros Hlt; tests; eexists; (split; [reflexivity|]); cbn; split_and!; try done; lia.
  - replace (b + k - D - B - B) with (b - D - B - B + k) by lia. rewrite Hq, Hr. eexists. by split; [reflexivity|].
  - replace (b + k - D - B - B - B * 1018) with (b - D - B - B - B * 1018 + k) by lia. rewrite Hq, Hr. eexists. by split; [reflexivity|].
  - replace (b + k - D - B - B - B * 1018 - B * 1018) with (b - D - B - B - B * 1018 - B * 1018 + k) by lia.
    rewrite <- !Z.div_div, Hq, Hr by lia. eexists. by split; [reflexivity|].
Qed.
End Paths.

(** * The blocks of a file *)

Section Mode.
(** The type of the file, a directory or a regular file. *)
Context {t : Z}.

(** The first [nb] blocks of file [ino], whose inode is the block [inode] at [a0], are at
    the addresses [A]; no lookup reads the inode block through the table or a data block. *)
Record file_map (v : vol) (ino nb a0 : Z) (inode : list Z) (A : Z -> Z) : Prop := {
  fm_addr : exists na ni, nat_addr v ino = Ok na /\ vol_node_info v ino = Ok ni /\ ni_blk_addr ni = a0 /\ na <> a0;
  fm_inode : v_disk v !! a0 = Some inode;
  fm_good : length inode = 4096%nat /\ bytes inode;
  fm_mode : is_mode inode t = Ok true;
  fm_extra : has_feature (v_feature v) F2FS_FEATURE_INODE_CHKSUM = true -> exists e, __get_extra_isize inode = Ok e /\ 3 <= e;
  fm_block : forall j, 0 <= j < nb -> exists l, find_block v ino j = Ok (l, A j) /\ (a0 ∉ l) /\ forall k, 0 <= k < nb -> A k ∉ l;
  fm_data : forall j, 0 <= j < nb -> A j <> NULL_ADDR /\ A j <> NEW_ADDR /\ A j <> a0 /\
    exists b, v_disk v !! A j = Some b /\ length b = 4096%nat /\ bytes b;
  fm_inj : forall j k, 0 <= j < nb -> 0 <= k < nb -> A j = A k -> j = k;
}.

Lemma find_block_inv v ino nb a0 inode A j l : file_map v ino nb a0 inode A -> find_block v ino j = Ok (l, A j) ->
  exists p na l' nid a blk, l = na :: l' /\ nat_addr v ino = Ok na /\ get_node_path (v_feature v) inode j = Ok p /\
    walk v (steps_of p) inode true ino a0 = Ok (l', (nid, a, blk)) /\ IS_INODE blk = Ok (level p =? 0) /\
    datablock_addr blk (List.last (offset p) 0) = Ok (A j).
Proof.
  intros F Hf. destruct (fm_addr _ _ _ _ _ _ F) as (na & ni & Hna & Hni & Ha & _). unfold find_block in Hf.
  rewrite Hna, res_bind_ret, Hni, res_bind_ret, Ha, (vol_read_Ok _ _ _ (fm_inode _ _ _ _ _ _ F)), res_bind_ret in Hf.
  apply res_bind_Ok in Hf as (p & Hp & Hf). apply res_bind_Ok in Hf as ([l' [[nid a] blk]] & Hw & Hf). apply res_bind_Ok in Hf as (i & Hi & Hf).
  apply res_bind_Ok in Hf as (u & Hu%assert_Ok & Hf). apply eqb_prop in Hu as ->. apply res_bind_Ok in Hf as (x & Hx & [= <- ->]).
  by exists p, na, l', nid, a, blk.
Qed.

Lemma addrs_per_inode_range feature node D : addrs_per_inode feature node = Ok D -> 0 <= D < 2 ^ 32.
Proof.
  unfold addrs_per_inode. intros (e & _ & (x & _ & (c & _ & Hd)%res_bind_Ok)%res_bind_Ok)%res_bind_Ok.
  set (n := u32 _) in Hd. assert (Hn : 0 <= n < 2 ^ 32) by apply u32_range. clearbody n. destruct c; [|injection Hd as <-; done].
  apply res_bind_Ok in Hd as (log & _ & (size & Hs & [= <-])%res_bind_Ok). unfold shl1 in Hs. destruct ((0 <=? log) && (log <? 31)) eqn:Hr; [|done].
  injection Hs as <-. apply andb_prop in Hr as [H0%Z.leb_le _]. pose proof (Z.pow_pos_nonneg 2 log ltac:(lia) H0). unfold ALIGN_DOWN.
  pose proof (Z.mul_div_le n (2 ^ log) ltac:(lia)). pose proof (Z.div_pos n (2 ^ log) ltac:(lia) ltac:(lia)). nia.
Qed.

(** [dn] stands at block [idx], and the next [left] entries of its node are the next blocks. *)
Record cursor (inode : list Z) (nb : Z) (A : Z -> Z) (dn : dnode_of_data) (left idx : Z) : Prop := {
  cu_inode : dn_inode dn = inode;
  cu_clean : dn_idirty dn = false /\ dn_ndirty dn = false;
  cu_left : 0 < left /\ 0 <= dn_ofs_in_node dn /\ dn_ofs_in_node dn + left < 2 ^ 32;
  cu_addrs : exists blk, node_blk dn = Ok blk /\ forall k, 0 <= k < left -> idx + k < nb -> datablock_addr blk (dn_ofs_in_node dn + k) = Ok (A (idx + k));
}.

Lemma cursor_next inode nb A dn left idx : cursor inode nb A dn left idx -> 1 < left -> cursor inode nb A (dn_next dn) (left - 1) (idx + 1).
Proof.
  intros [C1 C2 C3 (blk & Hb & Ha)] Hl. constructor; cbn [dn_next dn_inode dn_idirty dn_ndirty dn_ofs_in_node]; try done.
  - rewrite u32_id by (unfold is_u32; lia). lia.
  - exists blk. split; [done|]. intros k Hk Hi. rewrite u32_id by (unfold is_u32; lia).
    replace (dn_ofs_in_node dn + 1 + k) with (dn_ofs_in_node dn + (k + 1)) by lia. rewrite Ha by lia. do 2 f_equal. lia.
Qed.

(** The node of a block that is there is found, and left as it is. *)
Lemma get_dnode_at v ino nb a0 inode A idx mode : file_map v ino nb a0 inode A -> 0 <= idx < nb ->
  exists dn n, get_dnode_of_data v (set_new_dnode inode ino) idx mode = Ok (0, v, dn) /\ ADDRS_PER_PAGE v dn = Ok n /\
    cursor inode nb A dn (n - dn_ofs_in_node dn) idx /\
    exists p, get_node_path (v_feature v) inode idx = Ok p /\ page_addrs (v_feature v) inode p = Ok n /\ dn_ofs_in_node dn = List.last (offset p) 0.
Proof.
  intros F Hi. destruct (fm_block _ _ _ _ _ _ F idx Hi) as (l & Hf & _). destruct (find_block_inv _ _ _ _ _ _ _ _ F Hf) as (p & na & l' & nid & a & blk & -> & Hna & Hp & Hw & His & Ha).
  destruct (fm_addr _ _ _ _ _ _ F) as (na' & ni & Hna' & Hni & Hni0 & _).
  unfold get_dnode_of_data. cbn [set_new_dnode dn_inode]. rewrite Hp, res_bind_ret. set (dn0 := if level p =? 0 then _ else _).
  assert (Hd0 : dn_inode dn0 = inode /\ dn_nid dn0 = ino /\ dn_idirty dn0 = false /\ dn_ndirty dn0 = false) by (subst dn0; by destruct (level p =? 0)).
  destruct Hd0 as (Hd1 & Hd2 & Hd3 & Hd4). fold (steps_of p). rewrite Hd2, Hni, res_bind_ret, Hni0.
  destruct (levels_walk v mode (steps_of p) dn0 None inode ino a0 l' nid a blk Hw Hd1 (fm_inode _ _ _ _ _ _ F)) as [-> _].
  rewrite res_bind_ret. cbn [Z.eqb negb]. set (dn1 := match steps_of p with [] => dn0 | _ => _ end).
  assert (Hd5 : dn_inode dn1 = inode /\ dn_idirty dn1 = false /\ dn_ndirty dn1 = false) by (subst dn1; by destruct (steps_of p)).
  assert (Hnb : node_blk dn1 = Ok blk).
  { subst dn1 dn0. rewrite (path_steps _ _ _ _ Hp). destruct (steps_of p); [|done]. cbn in Hw. injection Hw as <- <- <- <-. done. }
  rewrite Hnb, res_bind_ret, Ha, res_bind_ret. destruct Hd5 as (E1 & E2 & E3). rewrite E1, E2, E3.
  destruct (path_next _ _ idx p 0 Hp) as (n & Hn & Hl & _); [lia|lia|]. eexists. exists n. split; [reflexivity|].
  assert (Hpage : forall dn', dn_node dn' = dn_node dn1 -> dn_inode dn' = inode -> ADDRS_PER_PAGE v dn' = Ok n).
  { intros dn' H1 H2. unfold ADDRS_PER_PAGE. assert (node_blk dn' = Ok blk) as -> by (unfold node_blk in *; rewrite H1; rewrite E1 in Hnb; by rewrite H2).
    rewrite res_bind_ret, His, res_bind_ret, H2. unfold page_addrs in Hn. destruct (level p =? 0) eqn:Hlv; [|done].
    rewrite (path_steps _ _ _ _ Hp) in Hlv. destruct (steps_of p); [|done]. cbn in Hw. by injection Hw as <- <- <- <-. }
  split; [by apply Hpage|]. split; [|by exists p]. constructor; cbn [dn_inode dn_idirty dn_ndirty dn_ofs_in_node]; try done.
  - split; [lia|]. split; [lia|]. unfold page_addrs in Hn. destruct (level p =? 0).
    + pose proof (addrs_per_inode_range _ _ _ Hn). lia.
    + pose proof (addrs_per_block_range _ _ Hn). unfold DEF_ADDRS_PER_BLOCK in *. lia.
  - exists blk. split; [unfold node_blk in *; cbn [dn_node dn_inode]; by rewrite E1 in Hnb|]. intros k Hk Hik.
    destruct (path_next _ _ idx p k Hp) as (n' & Hn' & _ & Hnext); [lia|lia|]. replace n' with n in * by congruence.
    destruct Hnext as (p' & Hp' & Hlv & Hst & Hlast); [lia|].
    destruct (fm_block _ _ _ _ _ _ F (idx + k)) as (l2 & Hf2 & _); [lia|].
    destruct (find_block_inv _ _ _ _ _ _ _ _ F Hf2) as (p2 & na2 & l2' & nid2 & a2 & blk2 & _ & _ & Hp2 & Hw2 & _ & Ha2).
    replace p2 with p' in * by congruence. rewrite Hst, Hw in Hw2. injection Hw2 as <- <- <- <-. by rewrite <- Hlast.
Qed.

(** * What writes leave *)

Lemma find_block_frame v d ino nb a0 inode A j l : file_map v ino nb a0 inode A -> find_block v ino j = Ok (l, A j) ->
  (forall x, x ∈ l -> d !! x = v_disk v !! x) -> d !! a0 = Some inode -> find_block (with_vdisk v d) ino j = Ok (l, A j).
Proof.
  intros F Hf Hl Ha0. destruct (find_block_inv _ _ _ _ _ _ _ _ F Hf) as (p & na & l' & nid & a & blk & -> & Hna & Hp & Hw & His & Ha).
  destruct (fm_addr _ _ _ _ _ _ F) as (na' & ni & Hna' & Hni & Hni0 & _). unfold find_block.
  rewrite nat_addr_frame, Hna, res_bind_ret, (node_info_frame v d ino na), Hni, res_bind_ret, Hni0 by (done || apply Hl; left).
  rewrite (vol_read_Ok (with_vdisk v d) a0 inode Ha0), res_bind_ret. change (v_feature (with_vdisk v d)) with (v_feature v).
  rewrite Hp, res_bind_ret, (walk_frame v d (steps_of p) inode true ino a0 l' (nid, a, blk) Hw), res_bind_ret by (intros x Hx; apply Hl; by right).
  by rewrite His, res_bind_ret, Bool.eqb_reflx, assert_true, res_bind_ret, Ha, res_bind_ret.
Qed.

(** Other data in the same blocks. *)
Lemma file_map_data v d ino nb a0 inode A : file_map v ino nb a0 inode A ->
  (forall x, (forall j, 0 <= j < nb -> x <> A j) -> d !! x = v_disk v !! x) ->
  (forall j, 0 <= j < nb -> exists b, d !! A j = Some b /\ length b = 4096%nat /\ bytes b) -> file_map (with_vdisk v d) ino nb a0 inode A.
Proof.
  intros F Hd Hg. pose proof F as [F1 F2 F3 F4 F5 F6 F7 F8].
  assert (Ha0 : d !! a0 = Some inode) by (rewrite Hd; [done|]; intros j Hj ->; by destruct (F7 j Hj) as (_ & _ & ? & _)).
  assert (Hl : forall j (l : list Z), 0 <= j < nb -> (forall k, 0 <= k < nb -> A k ∉ l) -> forall x, x ∈ l -> d !! x = v_disk v !! x).
  { intros j l Hj Hk x Hx. apply Hd. intros k Hkr ->. by apply (Hk k Hkr). }
  constructor; try done.
  - destruct F1 as (na & ni & Hna & Hni & Hni0 & Hne). exists na, ni. rewrite nat_addr_frame. split_and!; try done. destruct (decide (0 < nb)) as [Hnb|Hnb].
    + rewrite (node_info_frame v d ino na); [done|done|]. destruct (F6 0) as (l & Hf & _ & Hk); [lia|].
      destruct (find_block_inv _ _ _ _ _ _ _ _ F Hf) as (p & na' & l' & nid & a & blk & -> & Hna' & _). replace na' with na in * by congruence.
      apply (Hl 0 (na :: l')); [lia|done|left].
    + rewrite (node_info_frame v d ino na); [done|done|]. apply Hd. lia.
  - intros j Hj. destruct (F6 j Hj) as (l & Hf & H1 & H2). exists l. split; [|done].
    apply (find_block_frame v d ino nb a0 inode A j l F Hf); [by apply (Hl j l)|done].
  - intros j Hj. destruct (F7 j Hj) as (H1 & H2 & H3 & _). split_and!; try done. by apply Hg.
Qed.

(** ** A new inode block *)

(** Only the size and the length of the cached extent differ, and the checksum if [ck]. *)
Definition same_map (ck : bool) (b b' : list Z) : Prop :=
  forall i, ~ (16 <= i < 24) -> ~ (356 <= i < 360) -> (ck = true -> ~ (368 <= i < 372)) -> rd b' i = rd b i.

Lemma same_get ck b b' n ofs : same_map ck b b' -> (forall i, ofs <= i < ofs + Z.of_nat n -> ~ (16 <= i < 24) /\ ~ (356 <= i < 360) /\ (ck = true -> ~ (368 <= i < 372))) ->
  get_le n b' ofs = get_le n b ofs.
Proof. intros Hs Hr. apply get_le_ext. intros i Hi. destruct (Hr i Hi) as (? & ? & ?). by apply Hs. Qed.

Section Same.
Context (ck : bool) (b b' : list Z) (S : same_map ck b b').
Ltac field_eq := rewrite ?(same_get ck b b' _ _ S) by (intros; lia); rewrite ?(S ofs_i_inline), ?(S ofs_i_log_cluster_size) by (unfold ofs_i_inline, ofs_i_log_cluster_size; lia).

Lemma same_mode m : is_mode b' m = is_mode b m.
Proof. unfold is_mode, ofs_i_mode. by field_eq. Qed.
Lemma same_extra : __get_extra_isize b' = __get_extra_isize b.
Proof. unfold __get_extra_isize, f2fs_has_extra_isize, ofs_i_extra_isize. by field_eq. Qed.
Lemma same_is_inode : IS_INODE b' = IS_INODE b.
Proof. unfold IS_INODE, ofs_nid, ofs_ino. by field_eq. Qed.
Lemma same_compr : is_compr_reg b' = is_compr_reg b.
Proof. unfold is_compr_reg, ofs_i_mode, ofs_i_flags. by field_eq. Qed.
Lemma same_per_inode feature : addrs_per_inode feature b' = addrs_per_inode feature b.
Proof.
  unfold addrs_per_inode, get_inline_xattr_addrs, ofs_i_inline_xattr_size. rewrite same_extra, same_compr. by field_eq.
Qed.
Lemma same_per_block : addrs_per_block b' = addrs_per_block b.
Proof. unfold addrs_per_block. rewrite same_compr. by field_eq. Qed.
Lemma same_path feature idx : get_node_path feature b' idx = get_node_path feature b idx.
Proof. unfold get_node_path. by rewrite same_per_inode, same_per_block. Qed.
Lemma same_nid off : NODE_DIR1_BLOCK <= off -> get_nid b' off true = get_nid b off true.
Proof. intros Ho. unfold get_nid, ofs_i_nid. by field_eq. Qed.
Lemma same_addr idx : 0 <= idx -> IS_INODE b = Ok true -> (ck = true -> exists e, __get_extra_isize b = Ok e /\ 3 <= e) -> bytes b ->
  datablock_addr b' idx = datablock_addr b idx.
Proof.
  intros Hi His Hx Hb. unfold datablock_addr, blkaddr_in_node. rewrite same_is_inode, His, !res_bind_ret, same_extra.
  destruct (__get_extra_isize b) as [e| | | ] eqn:He; try done. rewrite !res_bind_ret. apply (same_get ck b b' _ _ S).
  assert (Hex : 0 <= e).
  { unfold __get_extra_isize in He. apply res_bind_Ok in He as ([] & _ & He); [|injection He as <-; done].
    apply res_bind_Ok in He as (sz & Hsz%get_le_range & [= <-]); [|done]. apply Z.div_pos; lia. }
  unfold ofs_i_addr. intros i Hir. split; [lia|]. split; [lia|]. intros Hc. destruct (Hx Hc) as (e' & [= <-] & He3). lia.
Qed.
End Same.

Lemma path_first feature node idx p : get_node_path feature node idx = Ok p -> match steps_of p with [] => True | (off, _) :: _ => NODE_DIR1_BLOCK <= off end.
Proof.
  unfold get_node_path. intros (D & _ & (B & _ & Hp)%res_bind_Ok)%res_bind_Ok. cbv zeta in Hp.
  repeat match goal with H : (if ?x then _ else _) = Ok _ |- _ => destruct x end; try discriminate Hp; injection Hp as <-; cbn; try done; unfold NODE_DIR1_BLOCK, NODE_DIR2_BLOCK, NODE_IND1_BLOCK, NODE_IND2_BLOCK, NODE_DIND_BLOCK; lia.
Qed.

Lemma file_map_inode v ino nb a0 inode inode' A : file_map v ino nb a0 inode A -> same_map (has_feature (v_feature v) F2FS_FEATURE_INODE_CHKSUM) inode inode' ->
  length inode' = 4096%nat -> bytes inode' -> file_map (with_vdisk v (<[a0 := inode']> (v_disk v))) ino nb a0 inode' A.
Proof.
  intros F S Hl Hb. pose proof F as [F1 F2 F3 F4 F5 F6 F7 F8]. set (d := <[a0 := inode']> (v_disk v)).
  assert (Hd : forall x, x <> a0 -> d !! x = v_disk v !! x) by (intros x Hx; by apply lookup_insert_ne).
  destruct F1 as (na & ni & Hna & Hni & Hni0 & Hne).
  assert (Hni' : vol_node_info (with_vdisk v d) ino = Ok ni) by (rewrite (node_info_frame v d ino na); [done|done|by apply Hd]).
  constructor; try done.
  - exists na, ni. by rewrite nat_addr_frame.
  - apply lookup_insert_eq.
  - by rewrite (same_mode _ _ _ S).
  - change (v_feature (with_vdisk v d)) with (v_feature v). by rewrite (same_extra _ _ _ S).
  - intros j Hj. destruct (F6 j Hj) as (l & Hf & H1 & H2). exists l. split; [|done].
    destruct (find_block_inv _ _ _ _ _ _ _ _ F Hf) as (p & na' & l' & nid & a & blk & -> & Hna' & Hp & Hw & His & Ha).
    replace na' with na in * by congruence. unfold find_block. rewrite nat_addr_frame, Hna, res_bind_ret, Hni', res_bind_ret, Hni0.
    rewrite (vol_read_Ok (with_vdisk v d) a0 inode' (lookup_insert_eq _ _ _)), res_bind_ret. change (v_feature (with_vdisk v d)) with (v_feature v).
    rewrite (same_path _ _ _ S), Hp, res_bind_ret. pose proof (path_first _ _ _ _ Hp) as Hfirst. pose proof (path_steps _ _ _ _ Hp) as Hst.
    assert (Hl' : forall x, x ∈ l' -> d !! x = v_disk v !! x) by (intros x Hx; apply Hd; intros ->; apply H1; by right).
    destruct (path_next _ _ j p 0 Hp) as (n & _ & Hlast & _); [lia|lia|].
    destruct (steps_of p) as [|[off no] steps] eqn:Hsteps.
    + cbn [walk] in *. injection Hw as <- <- <- <-. rewrite res_bind_ret, (same_is_inode _ _ _ S), His, res_bind_ret, Bool.eqb_reflx, assert_true, res_bind_ret.
      rewrite Hst in His. rewrite (same_addr _ _ _ S) by (done || lia || apply F3). by rewrite Ha, res_bind_ret.
    + apply (walk_frame v d) in Hw; [|done]. cbn [walk] in *. rewrite (same_nid _ _ _ S) by done. rewrite Hw, res_bind_ret.
      by rewrite His, res_bind_ret, Bool.eqb_reflx, assert_true, res_bind_ret, Ha, res_bind_ret.
  - intros j Hj. destruct (F7 j Hj) as (H1 & H2 & H3 & x & Hx & Hg). split_and!; try done. exists x. split; [|done]. rewrite with_vdisk_disk. by rewrite Hd.
Qed.

(** * Writing in place *)

(** Byte [x] of the blocks at [A]. *)
Definition data_at (d : disk) (A : Z -> Z) (x : Z) : option Z := b ← d !! A (x / 4096); b !! Z.to_nat (x mod 4096).

Lemma write_in_block_Ok v a b off buf : v_disk v !! a = Some b -> length b = 4096%nat -> 0 <= off -> off + Z.of_nat (length buf) <= 4096 ->
  write_in_block v a off buf = Ok (with_vdisk v (<[a := splice b off buf]> (v_disk v))).
Proof.
  intros Ha Hl Ho Hb. unfold write_in_block. destruct (Z.ltb_spec (Z.of_nat (length buf)) 4096).
  - rewrite (vol_read_Ok v a b Ha), res_bind_ret, wr_list_splice, res_bind_ret by lia. by apply vol_write_Ok; eauto.
  - rewrite vol_write_Ok by eauto. do 3 f_equal. unfold splice. replace (Z.to_nat off) with 0%nat by lia. rewrite take_0, drop_ge by lia.
    by rewrite app_nil_r.
Qed.

(** The result of writing [buf] at [ofs]. *)
Record overwritten (nb : Z) (A : Z -> Z) (d d' : disk) (ofs : Z) (buf : list Z) : Prop := {
  ow_frame : forall x, (forall j, 0 <= j < nb -> x <> A j) -> d' !! x = d !! x;
  ow_good : forall j, 0 <= j < nb -> exists b, d' !! A j = Some b /\ length b = 4096%nat /\ bytes b;
  ow_data : forall x, 0 <= x < 4096 * nb ->
    data_at d' A x = if (ofs <=? x) && (x <? ofs + Z.of_nat (length buf)) then buf !! Z.to_nat (x - ofs) else data_at d A x;
}.

Lemma overwritten_nil nb A d ofs : (forall j, 0 <= j < nb -> exists b, d !! A j = Some b /\ length b = 4096%nat /\ bytes b) -> overwritten nb A d d ofs [].
Proof.
  intros Hg. constructor; try done. intros x Hx. cbn [length]. destruct (Z.leb_spec ofs x), (Z.ltb_spec x (ofs + Z.of_nat 0)); cbn [andb]; (done || lia).
Qed.

Lemma overwritten_trans nb A d1 d2 d3 ofs buf1 buf2 : overwritten nb A d1 d2 ofs buf1 -> overwritten nb A d2 d3 (ofs + Z.of_nat (length buf1)) buf2 ->
  overwritten nb A d1 d3 ofs (buf1 ++ buf2).
Proof.
  intros [F1 G1 D1] [F2 G2 D2]. constructor; [intros x Hx; by rewrite F2, F1|done|]. intros x Hx. rewrite D2, D1, length_app by done.
  destruct (Z.leb_spec (ofs + Z.of_nat (length buf1)) x), (Z.ltb_spec x (ofs + Z.of_nat (length buf1) + Z.of_nat (length buf2))), (Z.leb_spec ofs x),
    (Z.ltb_spec x (ofs + Z.of_nat (length buf1))), (Z.ltb_spec x (ofs + Z.of_nat (length buf1 + length buf2))); cbn [andb]; try lia; try done.
  - rewrite lookup_app_r by lia. f_equal. lia.
  - by rewrite lookup_app_l by lia.
Qed.

(** One block. *)
Lemma overwritten_block v ino nb a0 inode A idx off buf b : file_map v ino nb a0 inode A -> 0 <= idx < nb -> v_disk v !! A idx = Some b ->
  0 <= off -> off + Z.of_nat (length buf) <= 4096 -> bytes buf -> length b = 4096%nat -> bytes b ->
  overwritten nb A (v_disk v) (<[A idx := splice b off buf]> (v_disk v)) (4096 * idx + off) buf.
Proof.
  intros F Hi Hb Ho Hl Hbuf Hlb Hbb. constructor.
  - intros x Hx. apply lookup_insert_ne. intros <-. by apply (Hx idx).
  - intros j Hj. destruct (decide (A j = A idx)) as [He|He].
    + rewrite He, lookup_insert_eq. eexists. split; [reflexivity|]. split; [by rewrite length_splice by lia|by apply bytes_splice].
    + rewrite lookup_insert_ne by done. by destruct (fm_data _ _ _ _ _ _ F j Hj) as (_ & _ & _ & ?).
  - intros x Hx. unfold data_at. assert (Hxi : 0 <= x / 4096 < nb) by (split; [apply Z.div_pos|apply Z.div_lt_upper_bound]; lia).
    pose proof (Z.div_mod x 4096 ltac:(lia)) as Hdm. pose proof (Z.mod_pos_bound x 4096 ltac:(lia)) as Hm. destruct (decide (x / 4096 = idx)) as [He|He].
    + rewrite He, lookup_insert_eq, Hb. cbn [mbind option_bind]. rewrite lookup_splice by lia.
      destruct (Z.leb_spec (4096 * idx + off) x), (Z.ltb_spec x (4096 * idx + off + Z.of_nat (length buf))); cbn [andb]; case_decide; try lia; try done.
      f_equal. lia.
    + rewrite lookup_insert_ne by (intros Hx'; apply He; symmetry; by apply (fm_inj _ _ _ _ _ _ F)).
      destruct (Z.leb_spec (4096 * idx + off) x), (Z.ltb_spec x (4096 * idx + off + Z.of_nat (length buf))); cbn [andb]; try done. lia.
Qed.

Lemma bytes_take n l : bytes l -> bytes (take n l).
Proof. apply Forall_take. Qed.

(** The loop on blocks that are there. *)
Lemma write_loop_spec ino nb a0 inode A addr_type fuel : has_data addr_type = true -> forall v dn left offset count written_count buffer,
  file_map v ino nb a0 inode A -> dn_inode dn = inode -> (0 < count -> left = 0 \/ cursor inode nb A dn left (offset / 4096)) ->
  bytes buffer -> count = Z.of_nat (length buffer) -> 0 <= offset -> offset + count <= 4096 * nb -> (1 <= fuel)%nat ->
  (0 < count -> (offset mod 4096 + count + 4095) / 4096 + 1 <= Z.of_nat fuel) ->
  exists dn' d', f2fs_write_loop fuel v ino dn false left offset count written_count buffer addr_type =
      Ok {| w_vol := with_vdisk v d'; w_dn := dn'; w_idirty := false; w_offset := offset + count; w_count := written_count + count |} /\
    dn_inode dn' = inode /\ overwritten nb A (v_disk v) d' offset buffer.
Proof.
  intros Hdata. induction fuel as [|fuel IH]; intros v dn left offset count written_count buffer F Hdn Hcur Hby Hc Ho Hroom Hf1 Hf; [lia|]. cbn [f2fs_write_loop].
  destruct (Z.leb_spec count 0) as [Hz|Hz].
  { destruct buffer; [|cbn in Hc; lia]. subst count. cbn [length] in *. exists dn, (v_disk v). rewrite with_vdisk_same, !Z.add_0_r. split_and!; try done.
    apply overwritten_nil. intros j Hj. by destruct (fm_data _ _ _ _ _ _ F j Hj) as (_ & _ & _ & ?). }
  set (idx := offset / 4096) in *. assert (Hidx : 0 <= idx < nb) by (subst idx; split; [apply Z.div_pos|apply Z.div_lt_upper_bound]; lia).
  assert (exists dn1 n, write_node v ino dn left offset = Ok (0, v, dn1, n) /\ cursor inode nb A dn1 n idx) as (dn1 & n & -> & C).
  { unfold write_node. destruct (Hcur Hz) as [->|C].
    - cbn [Z.eqb]. rewrite Hdn, Z.shiftr_div_pow2 by lia. change (2 ^ 12) with 4096. fold idx.
      destruct (get_dnode_at v ino nb a0 inode A idx ALLOC_NODE F Hidx) as (dn1 & n & -> & Hn & C & _). rewrite res_bind_ret. cbn [Z.eqb negb]. rewrite Hn, res_bind_ret.
      pose proof (cu_left _ _ _ _ _ _ C) as Hl. rewrite u32_id, u64_id by (unfold is_u32, is_u64; lia). eexists _, _. split; [reflexivity|exact C].
    - pose proof (cu_left _ _ _ _ _ _ C) as Hl. rewrite (proj2 (Z.eqb_neq _ _)) by lia. by exists dn, left. }
  rewrite res_bind_ret. cbn [Z.eqb negb]. pose proof C as [C1 [C2 C3] C4 (blk & Hnb & Ha)]. rewrite C2, andb_false_r. cbn [orb].
  rewrite (proj2 (Z.ltb_lt _ _)), assert_true, res_bind_ret by lia. rewrite Hdata. cbn [negb]. rewrite Hnb, res_bind_ret.
  specialize (Ha 0 ltac:(lia) ltac:(lia)) as Ha0. rewrite !Z.add_0_r in Ha0. rewrite Ha0, res_bind_ret.
  destruct (fm_data _ _ _ _ _ _ F idx Hidx) as (Hnull & Hnew & _ & b & Hb & Hlb & Hbb).
  rewrite (proj2 (Z.eqb_neq _ _) Hnull), (proj2 (Z.eqb_neq _ _) Hnew). cbn [orb andb]. rewrite res_bind_ret. cbn [Z.eqb negb].
  pose proof (Z.div_mod offset 4096 ltac:(lia)) as Hdm. fold idx in Hdm. pose proof (Z.mod_pos_bound offset 4096 ltac:(lia)) as Hm. set (off := offset mod 4096) in *.
  set (len := Z.min (4096 - off) count). assert (Hlen : length (take (Z.to_nat len) buffer) = Z.to_nat len) by (rewrite length_take; lia).
  rewrite (write_in_block_Ok v (A idx) b), res_bind_ret by (done || lia). set (d1 := <[A idx := splice b off (take (Z.to_nat len) buffer)]> (v_disk v)).
  assert (O1 : overwritten nb A (v_disk v) d1 offset (take (Z.to_nat len) buffer)).
  { rewrite Hdm. eapply overwritten_block; try done; [lia|lia|by apply bytes_take]. }
  assert (F1 : file_map (with_vdisk v d1) ino nb a0 inode A) by (eapply file_map_data; [done|apply O1|apply O1]).
  assert ((if (n - 1 =? 0) || (count - len =? 0) then write_dnode (with_vdisk v d1) (dn_next dn1) else Ok (with_vdisk v d1)) = Ok (with_vdisk v d1)) as ->.
  { unfold write_dnode. cbn [dn_next dn_ndirty]. rewrite C3. by destruct (_ || _). }
  rewrite res_bind_ret. assert (Hrest : count - len = Z.of_nat (length (drop (Z.to_nat len) buffer))) by (rewrite length_drop; lia).
  destruct (IH (with_vdisk v d1) (dn_next dn1) (n - 1) (offset + len) (count - len) (written_count + len) (drop (Z.to_nat len) buffer)) as (dn' & d' & -> & Hi' & O2); try done.
  - intros Hpos. destruct (decide (n = 1)) as [->|Hn1]; [by left|right].
    replace ((offset + len) / 4096) with (idx + 1) by (apply (Z.div_unique _ _ _ 0); lia). apply cursor_next; [done|lia].
  - by apply Forall_drop.
  - lia.
  - lia.
  - Z.to_euclidean_division_equations; lia.
  - intros Hpos. assert (Hoff : (offset + len) mod 4096 = 0) by (symmetry; apply (Z.mod_unique _ _ (idx + 1)); lia).
    rewrite Hoff. specialize (Hf Hz). Z.to_euclidean_division_equations; lia.
  - exists dn', d'. split; [|split; [done|]].
    + rewrite with_vdisk_twice. do 2 f_equal; lia.
    + rewrite <- (take_drop (Z.to_nat len) buffer). eapply overwritten_trans; [exact O1|]. rewrite Hlen.
      replace (offset + Z.of_nat (Z.to_nat len)) with (offset + len) by lia. exact O2.
Qed.

(** * The file *)

(** File [ino], whose inode is at [a0] and whose first [nb] blocks are at [A], has the size
    [size] and the bytes [data]: also those beyond the size, which cannot be read. *)
Lemma is_mode_other inode m m' : is_mode inode m = Ok true -> m <> m' -> is_mode inode m' = Ok false.
Proof.
  unfold is_mode. intros (x & -> & [= Ht])%res_bind_Ok Hne. rewrite res_bind_ret. apply Z.eqb_eq in Ht. rewrite Ht. f_equal. by apply Z.eqb_neq.
Qed.

Lemma same_splice ck inode ofs xs : 0 <= ofs -> ofs + Z.of_nat (length xs) <= Z.of_nat (length inode) ->
  (ofs = 16 /\ length xs = 8%nat) \/ (ck = true /\ ofs = 368 /\ length xs = 4%nat) \/ (ofs = 356 /\ length xs = 4%nat) -> same_map ck inode (splice inode ofs xs).
Proof. intros H0 Hl Hc i H1 H2 H3. apply rd_splice_ne; [lia|lia|]. destruct Hc as [[-> ->]|[(Hc & -> & ->)|[-> ->]]]; [lia| |lia]. specialize (H3 Hc). lia. Qed.
Lemma same_trans ck a b c : same_map ck a b -> same_map ck b c -> same_map ck a c.
Proof. intros H1 H2 i Hi He Hc. by rewrite H2, H1. Qed.

(** The size written to the inode block. *)
Lemma set_size_spec v ino nb a0 inode A size : file_map v ino nb a0 inode A -> 0 <= size < 2 ^ 64 ->
  exists i1 inode', set_le64 inode ofs_i_size size = Ok i1 /\ vol_write_inode v i1 a0 = Ok (with_vdisk v (<[a0 := inode']> (v_disk v)), inode') /\
    file_map (with_vdisk v (<[a0 := inode']> (v_disk v))) ino nb a0 inode' A /\ get_le64 inode' ofs_i_size = Ok size /\
    same_map (has_feature (v_feature v) F2FS_FEATURE_INODE_CHKSUM) inode inode'.
Proof.
  intros F Hs. destruct (fm_good _ _ _ _ _ _ F) as [Hl Hb]. set (ck := has_feature (v_feature v) F2FS_FEATURE_INODE_CHKSUM).
  set (i1 := splice inode ofs_i_size (le_bytes 8 size)).
  assert (Hl1 : length i1 = 4096%nat) by (subst i1; by rewrite length_splice by (rewrite ?length_le_bytes; unfold ofs_i_size; lia)).
  assert (Hb1 : bytes i1) by (apply bytes_splice; [done|apply bytes_le_bytes]).
  assert (S1 : same_map ck inode i1) by (apply same_splice; rewrite ?length_le_bytes; unfold ofs_i_size; lia).
  assert (Hsz : get_le64 i1 ofs_i_size = Ok size) by (apply get_set_le; unfold ofs_i_size; lia).
  exists i1. rewrite set_le_Ok by (unfold ofs_i_size; lia). fold i1.
  assert (exists inode', (if ck then c ← f2fs_inode_chksum (v_seed v) i1; set_le32 i1 ofs_i_inode_checksum c else Ok i1) = Ok inode' /\
    same_map ck inode inode' /\ length inode' = 4096%nat /\ bytes inode' /\ get_le64 inode' ofs_i_size = Ok size) as (inode' & Hck & S2 & Hl2 & Hb2 & Hsz2).
  { destruct ck eqn:Hck; [|by exists i1]. rewrite inode_chksum_eq, res_bind_ret, set_le_Ok by (done || unfold ofs_i_inode_checksum; lia).
    eexists. split; [reflexivity|]. unfold ofs_i_inode_checksum. rewrite length_splice by (rewrite ?length_le_bytes; lia).
    split; [eapply same_trans; [exact S1|]; apply same_splice; rewrite ?length_le_bytes; lia|].
    split; [done|]. split; [by apply bytes_splice; [|apply bytes_le_bytes]|]. rewrite get_set_le_ne; [exact Hsz|lia|lia|unfold ofs_i_size; lia]. }
  exists inode'. split; [done|]. split; [|split; [by apply file_map_inode with (inode := inode)|by split]].
  unfold vol_write_inode, write_inode. fold ck. rewrite Hck, res_bind_ret. unfold disk_write_or_die, disk_write. by rewrite (fm_inode _ _ _ _ _ _ F), !res_bind_ret.
Qed.

Lemma data_at_inode v ino nb a0 inode A d inode' x : file_map v ino nb a0 inode A -> 0 <= x < 4096 * nb ->
  data_at (<[a0 := inode']> d) A x = data_at d A x.
Proof.
  intros F Hx. unfold data_at. rewrite lookup_insert_ne; [done|]. intros He.
  destruct (fm_data _ _ _ _ _ _ F (x / 4096)) as (_ & _ & Hn & _); [split; [apply Z.div_pos|apply Z.div_lt_upper_bound]; lia|congruence].
Qed.

End Mode.

(** Regular files. *)
Abbreviation reg_map := (file_map (t := LINUX_S_IFREG)).
Definition file_at (v : vol) (ino nb a0 : Z) (A : Z -> Z) (size : Z) (data : Z -> Z) : Prop :=
  exists inode, reg_map v ino nb a0 inode A /\ get_le64 inode ofs_i_size = Ok size /\ 4096 * nb < 2 ^ 63 /\
    forall x, 0 <= x < 4096 * nb -> data_at (v_disk v) A x = Some (data x).

Lemma read_file_inode_Ok v ino nb a0 inode A : reg_map v ino nb a0 inode A -> read_file_inode v ino = Ok (inode, a0).
Proof.
  intros F. destruct (fm_addr _ _ _ _ _ _ F) as (na & ni & _ & Hni & Ha & _). unfold read_file_inode.
  rewrite Hni, res_bind_ret, Ha, (vol_read_Ok _ _ _ (fm_inode _ _ _ _ _ _ F)), res_bind_ret.
  rewrite (is_mode_other _ _ LINUX_S_IFDIR (fm_mode _ _ _ _ _ _ F)), res_bind_ret by done. cbn [negb assert_]. rewrite res_bind_ret.
  rewrite (is_mode_other _ _ LINUX_S_IFLNK (fm_mode _ _ _ _ _ _ F)), res_bind_ret by done. cbn [negb assert_]. by rewrite res_bind_ret.
Qed.

(** Blocks outside the file are as they were. *)
Definition only_file (v v' : vol) (nb a0 : Z) (A : Z -> Z) : Prop :=
  exists d, v' = with_vdisk v d /\ forall x, x <> a0 -> (forall j, 0 <= j < nb -> x <> A j) -> d !! x = v_disk v !! x.

Lemma only_file_refl v nb a0 A : only_file v v nb a0 A.
Proof. exists (v_disk v). by rewrite with_vdisk_same. Qed.
Lemma only_file_trans v1 v2 v3 nb a0 A : only_file v1 v2 nb a0 A -> only_file v2 v3 nb a0 A -> only_file v1 v3 nb a0 A.
Proof.
  intros (d1 & -> & H1) (d2 & -> & H2). exists d2. split; [done|]. intros x Hx Hj. rewrite with_vdisk_disk in H2. by rewrite H2, H1.
Qed.

Lemma write_ex_spec v ino nb a0 A size data buf ofs addr_type : file_at v ino nb a0 A size data -> has_data addr_type = true ->
  addr_type = WR_NORMAL \/ ofs mod 4096 = 0 -> bytes buf -> buf <> [] -> 0 <= ofs -> ofs + Z.of_nat (length buf) <= 4096 * nb ->
  exists v', f2fs_write_ex v ino (Some buf) (Z.of_nat (length buf)) ofs addr_type = Ok (Z.of_nat (length buf), v') /\ only_file v v' nb a0 A /\
    file_at v' ino nb a0 A (if addr_type =? WR_NORMAL then Z.max size (ofs + Z.of_nat (length buf)) else size)
      (fun x => if (ofs <=? x) && (x <? ofs + Z.of_nat (length buf)) then default 0 (buf !! Z.to_nat (x - ofs)) else data x).
Proof.
  intros (inode & F & Hsz & Hbig & Hdata) Hty Hal Hb Hne Ho Hroom. set (len := Z.of_nat (length buf)) in *.
  assert (Hlen : 0 < len) by (destruct buf; [done|subst len; cbn; lia]).
  unfold f2fs_write_ex. rewrite (proj2 (Z.eqb_neq _ _)), Hty by lia. cbn [Bool.eqb assert_]. rewrite res_bind_ret.
  assert ((addr_type =? WR_NORMAL) || (ofs mod 4096 =? 0) = true) as ->.
  { destruct Hal as [->|Hal]; [done|]. by rewrite (proj2 (Z.eqb_eq _ _) Hal), orb_true_r. }
  cbn [assert_]. rewrite res_bind_ret, (read_file_inode_Ok _ _ _ _ _ _ F), res_bind_ret. cbn [default].
  destruct (write_loop_spec ino nb a0 inode A addr_type (Z.to_nat (len / 4096) + 3) Hty v (set_new_dnode inode ino) 0 ofs len 0 buf F) as (dn & d & He & Hi & O); try done; try lia.
  { intros _. pose proof (Z.mod_pos_bound ofs 4096 ltac:(lia)). Z.to_euclidean_division_equations; lia. }
  unfold Datatypes.id. rewrite He, res_bind_ret. cbn [w_dn w_offset w_idirty w_vol w_count]. rewrite Hi, Hsz, res_bind_ret, Z.add_0_l.
  assert (F1 : reg_map (with_vdisk v d) ino nb a0 inode A) by (eapply file_map_data; [done|apply O|apply O]).
  pose proof (get_le_range 8 inode ofs_i_size size (proj2 (fm_good _ _ _ _ _ _ F)) Hsz) as Hsr.
  assert (Hd2 : forall x, 0 <= x < 4096 * nb -> data_at d A x = Some (if (ofs <=? x) && (x <? ofs + len) then default 0 (buf !! Z.to_nat (x - ofs)) else data x)).
  { intros x Hx. rewrite (ow_data _ _ _ _ _ _ O x Hx). fold len. destruct (Z.leb_spec ofs x), (Z.ltb_spec x (ofs + len)); cbn [andb]; try by apply Hdata.
    destruct (lookup_lt_is_Some_2 buf (Z.to_nat (x - ofs))) as [y ->]; [lia|done]. }
  destruct ((addr_type =? WR_NORMAL) && (size <? ofs + len)) eqn:Hgrow.
  - apply andb_prop in Hgrow as [Hn Hlt%Z.ltb_lt]. rewrite Hn.
    destruct (set_size_spec _ _ _ _ _ _ (ofs + len) F1) as (i1 & inode' & -> & Hw & F2 & Hsz2 & _); [lia|]. rewrite !res_bind_ret, Hw, !res_bind_ret.
    eexists. split; [reflexivity|]. split.
    + exists (<[a0 := inode']> d). split; [done|]. intros x Hx1 Hx2. rewrite lookup_insert_ne by done. by apply (ow_frame _ _ _ _ _ _ O).
    + exists inode'. split; [exact F2|]. split; [rewrite Hsz2; f_equal; lia|]. split; [done|]. intros x Hx.
      rewrite !with_vdisk_disk. rewrite (data_at_inode _ _ _ _ _ _ _ _ _ F) by done. by apply Hd2.
  - rewrite !res_bind_ret. eexists. split; [reflexivity|]. split.
    + exists d. split; [done|]. intros x Hx1 Hx2. by apply (ow_frame _ _ _ _ _ _ O).
    + exists inode. split; [exact F1|]. split; [|done]. rewrite Hsz. f_equal. apply andb_false_iff in Hgrow as [->|Hge%Z.ltb_ge]; [done|].
      destruct (addr_type =? WR_NORMAL); lia.
Qed.

(** * Reading *)

Lemma data_block v ino nb a0 inode A idx b i : reg_map v ino nb a0 inode A -> 0 <= idx < nb -> v_disk v !! A idx = Some b -> 0 <= i < 4096 ->
  data_at (v_disk v) A (4096 * idx + i) = b !! Z.to_nat i.
Proof.
  intros F Hi Hb Hr. unfold data_at. replace ((4096 * idx + i) / 4096) with idx by (apply (Z.div_unique _ _ _ i); lia).
  replace ((4096 * idx + i) mod 4096) with i by (apply (Z.mod_unique _ _ idx); lia). by rewrite Hb.
Qed.

(** The loop as long as the node has entries. *)
Lemma read_loop_spec ino nb a0 inode A fuel : forall v dn m left offset count,
  reg_map v ino nb a0 inode A -> (0 < count -> cursor inode nb A dn m (offset / 4096) /\ (offset + count - 1) / 4096 - offset / 4096 < m <= left) ->
  0 <= offset -> 0 <= count -> offset + count <= 4096 * nb -> (1 <= fuel)%nat ->
  (0 < count -> (offset mod 4096 + count + 4095) / 4096 + 1 <= Z.of_nat fuel) ->
  exists bs, f2fs_read_loop fuel v ino inode dn left offset count = Ok bs /\ Z.of_nat (length bs) = count /\
    forall i x, bs !! i = Some x -> data_at (v_disk v) A (offset + Z.of_nat i) = Some x.
Proof.
  induction fuel as [|fuel IH]; intros v dn m left offset count F Hcur Ho Hc Hroom Hf1 Hf; [lia|]. cbn [f2fs_read_loop].
  destruct (Z.leb_spec count 0) as [Hz|Hz]; [exists []; split_and!; [done|cbn; lia|done]|]. destruct (Hcur Hz) as [C [Hin Hle]].
  set (idx := offset / 4096) in *. assert (Hidx : 0 <= idx < nb) by (subst idx; split; [apply Z.div_pos|apply Z.div_lt_upper_bound]; lia).
  pose proof C as [_ _ C4 (blk & Hnb & Ha)]. rewrite (proj2 (Z.eqb_neq _ _)), res_bind_ret, (proj2 (Z.ltb_lt _ _)), assert_true, res_bind_ret by lia.
  rewrite Hnb, res_bind_ret. specialize (Ha 0 ltac:(lia) ltac:(lia)) as Ha0. rewrite !Z.add_0_r in Ha0. rewrite Ha0, res_bind_ret.
  destruct (fm_data _ _ _ _ _ _ F idx Hidx) as (Hnull & Hnew & _ & b & Hb & Hlb & Hbb).
  rewrite (proj2 (Z.eqb_neq _ _) Hnull), (proj2 (Z.eqb_neq _ _) Hnew). cbn [orb].
  pose proof (Z.div_mod offset 4096 ltac:(lia)) as Hdm. fold idx in Hdm. pose proof (Z.mod_pos_bound offset 4096 ltac:(lia)) as Hm. set (off := offset mod 4096) in *.
  set (len := Z.min (4096 - off) count). rewrite (vol_read_Ok v (A idx) b Hb), res_bind_ret, rd_bytes_Ok, res_bind_ret by lia.
  assert (Hlen : length (take (Z.to_nat len) (drop (Z.to_nat off) b)) = Z.to_nat len) by (rewrite length_take, length_drop; lia).
  destruct (IH v (dn_next dn) (m - 1) (left - 1) (offset + len) (count - len) F) as (bs & -> & Hl & Hbs); try lia.
  - intros Hpos. assert (He : (offset + len) / 4096 = idx + 1) by (symmetry; apply (Z.div_unique _ _ _ 0); lia). rewrite He.
    replace (offset + len + (count - len) - 1) with (offset + count - 1) by lia. split; [|lia]. apply cursor_next; [done|].
    assert (idx + 1 <= (offset + count - 1) / 4096) by (apply Z.div_le_lower_bound; lia). lia.
  - Z.to_euclidean_division_equations; lia.
  - intros Hpos. assert (Hoff : (offset + len) mod 4096 = 0) by (symmetry; apply (Z.mod_unique _ _ (idx + 1)); lia).
    rewrite Hoff. specialize (Hf Hz). Z.to_euclidean_division_equations; lia.
  - rewrite res_bind_ret. eexists. split; [reflexivity|]. split; [rewrite length_app, Hlen; lia|]. intros i x Hx.
    apply lookup_app_Some in Hx as [Hx|[Hge Hx]].
    + pose proof (lookup_lt_Some _ _ _ Hx) as Hlt. rewrite lookup_take_lt, lookup_drop in Hx by lia. rewrite Hdm. replace (4096 * idx + off + Z.of_nat i) with (4096 * idx + (off + Z.of_nat i)) by lia.
      rewrite (data_block _ _ _ _ _ _ _ _ _ F Hidx Hb) by lia. rewrite <- Hx. f_equal. lia.
    + apply Hbs in Hx. rewrite <- Hx. f_equal. lia.
Qed.

Lemma read_loop_start fuel v ino inode dn dn1 n offset count : get_dnode_of_data v (set_new_dnode inode ino) (Z.shiftr offset 12) LOOKUP_NODE = Ok (0, v, dn1) ->
  ADDRS_PER_PAGE v dn1 = Ok n -> n <> 0 -> f2fs_read_loop (S fuel) v ino inode dn 0 offset count = f2fs_read_loop (S fuel) v ino inode dn1 n offset count.
Proof.
  intros Hg Hn Hnz. cbn [f2fs_read_loop]. destruct (count <=? 0); [done|]. by rewrite (proj2 (Z.eqb_neq n 0) Hnz), Hg, !res_bind_ret, Hn, !res_bind_ret.
Qed.

(** Reading what one node maps, here the blocks from [offset] to the end of the range. *)
Definition in_one_node (v : vol) (ino offset count : Z) : Prop :=
  exists ni inode p n, vol_node_info v ino = Ok ni /\ vol_read v (ni_blk_addr ni) = Ok inode /\ get_node_path (v_feature v) inode (offset / 4096) = Ok p /\
    page_addrs (v_feature v) inode p = Ok n /\ List.last (Node.offset p) 0 + ((offset + count - 1) / 4096 - offset / 4096) < n.

Lemma read_spec v ino nb a0 A size data count offset : file_at v ino nb a0 A size data -> size <= 4096 * nb -> 0 <= offset < 2 ^ 62 -> 0 <= count < 2 ^ 62 ->
  (0 < Z.min count (size - offset) -> in_one_node v ino offset (Z.min count (size - offset))) ->
  exists bs, f2fs_read v ino count offset = Ok bs /\ Z.of_nat (length bs) = Z.max 0 (Z.min count (size - offset)) /\
    forall i x, bs !! i = Some x -> x = data (offset + Z.of_nat i).
Proof.
  intros (inode & F & Hsz & Hbig & Hdata) Hsn Ho Hc Hone. unfold f2fs_read.
  rewrite (read_file_inode_Ok _ _ _ _ _ _ F), res_bind_ret, Hsz, res_bind_ret. rewrite u64_id by (unfold is_u64; lia). set (cnt := if size <? offset then 0 else _).
  assert (Hcnt : cnt = Z.max 0 (Z.min count (size - offset))) by (subst cnt; destruct (Z.ltb_spec size offset); [lia|]; destruct (Z.ltb_spec size (count + offset)); lia).
  clearbody cnt. destruct (decide (0 < cnt)) as [Hpos|Hz].
  2:{ assert (cnt = 0) as -> by lia. exists []. replace (Z.to_nat (0 / 4096) + 3)%nat with 3%nat by done. split_and!; [done|cbn; lia|done]. }
  replace (Z.min count (size - offset)) with cnt in Hone by lia. destruct (Hone ltac:(lia)) as (ni & inode' & p & n & Hni & Hrd & Hp & Hpg & Hin).
  destruct (fm_addr _ _ _ _ _ _ F) as (na & ni' & _ & Hni' & Ha & _). replace ni' with ni in * by congruence. rewrite Ha, (vol_read_Ok _ _ _ (fm_inode _ _ _ _ _ _ F)) in Hrd. injection Hrd as <-.
  assert (Hidx : 0 <= offset / 4096 < nb) by (split; [apply Z.div_pos|apply Z.div_lt_upper_bound]; lia).
  destruct (get_dnode_at v ino nb a0 inode A (offset / 4096) LOOKUP_NODE F Hidx) as (dn & n' & Hg & Hn & C & p' & Hp' & Hpg' & Hofs).
  replace p' with p in * by congruence. replace n' with n in * by congruence. replace (Z.to_nat (cnt / 4096) + 3)%nat with (S (Z.to_nat (cnt / 4096) + 2)) by lia.
  rewrite (read_loop_start _ v ino inode _ dn n); [|by rewrite Z.shiftr_div_pow2 by lia|done|pose proof (cu_left _ _ _ _ _ _ C); lia].
  destruct (read_loop_spec ino nb a0 inode A (S (Z.to_nat (cnt / 4096) + 2)) v dn (n - dn_ofs_in_node dn) n offset cnt F) as (bs & -> & Hl & Hbs); try lia.
  - intros _. split; [done|]. pose proof (cu_left _ _ _ _ _ _ C). lia.
  - intros _. pose proof (Z.mod_pos_bound offset 4096 ltac:(lia)). Z.to_euclidean_division_equations; lia.
  - exists bs. split; [done|]. split; [lia|]. intros i x Hx. pose proof (lookup_lt_Some _ _ _ Hx). apply Hbs in Hx. rewrite Hdata in Hx by lia. congruence.
Qed.

Lemma filesize_update_spec v ino nb a0 A size data n : file_at v ino nb a0 A size data -> 0 <= n < 2 ^ 64 ->
  exists v', f2fs_filesize_update v ino n = Ok v' /\ only_file v v' nb a0 A /\ file_at v' ino nb a0 A n data.
Proof.
  intros (inode & F & Hsz & Hbig & Hdata) Hn. unfold f2fs_filesize_update. rewrite (read_file_inode_Ok _ _ _ _ _ _ F), res_bind_ret.
  destruct (set_size_spec _ _ _ _ _ _ n F Hn) as (i1 & inode' & -> & Hw & F2 & Hsz2 & _). rewrite res_bind_ret, Hw, res_bind_ret.
  eexists. split; [reflexivity|]. split.
  - eexists. split; [reflexivity|]. intros x Hx _. by apply lookup_insert_ne.
  - exists inode'. split; [exact F2|]. split; [done|]. split; [done|]. intros x Hx. rewrite with_vdisk_disk, (data_at_inode _ _ _ _ _ _ _ _ _ F) by done. by apply Hdata.
Qed.

Lemma quota_size_spec v ino nb a0 A size data : file_at v ino nb a0 A size data -> f2fs_quota_size v ino = Ok size.
Proof.
  intros (inode & F & Hsz & _). destruct (fm_addr _ _ _ _ _ _ F) as (na & ni & _ & Hni & Ha & _). unfold f2fs_quota_size.
  by rewrite Hni, res_bind_ret, Ha, (vol_read_Ok _ _ _ (fm_inode _ _ _ _ _ _ F)), res_bind_ret, (fm_mode _ _ _ _ _ _ F), res_bind_ret, assert_true, res_bind_ret.
Qed.

(** * The theorems *)

Lemma one_block_one_node v ino nb a0 A size data o n : file_at v ino nb a0 A size data -> 0 <= o / 4096 < nb -> 0 < n -> o / 4096 = (o + n - 1) / 4096 -> in_one_node v ino o n.
Proof.
  intros (inode & F & _) Ho Hn Hb. destruct (fm_addr _ _ _ _ _ _ F) as (na & ni & _ & Hni & Ha & _).
  destruct (fm_block _ _ _ _ _ _ F (o / 4096) Ho) as (l & Hf & _). destruct (find_block_inv _ _ _ _ _ _ _ _ F Hf) as (p & _ & _ & _ & _ & _ & _ & _ & Hp & _).
  destruct (path_next _ _ (o / 4096) p 0 Hp) as (m & Hm & Hl & _); [lia|lia|]. exists ni, inode, p, m. rewrite Ha, (vol_read_Ok _ _ _ (fm_inode _ _ _ _ _ _ F)).
  split_and!; try done. rewrite <- Hb. lia.
Qed.

Lemma read_block_spec v ino nb a0 A size data o n : file_at v ino nb a0 A size data -> size <= 4096 * nb -> 0 <= o < 2 ^ 62 -> 0 < n -> o / 4096 = (o + n - 1) / 4096 ->
  exists bs, f2fs_read v ino n o = Ok bs /\ Z.of_nat (length bs) = Z.max 0 (Z.min n (size - o)) /\ forall i x, bs !! i = Some x -> x = data (o + Z.of_nat i).
Proof.
  intros F Hs Ho Hn Hb. apply (read_spec v ino nb a0 A size data n o F Hs Ho).
  - Z.to_euclidean_division_equations. lia.
  - intros Hpos. apply (one_block_one_node v ino nb a0 A size data); try done; [split; [apply Z.div_pos|apply Z.div_lt_upper_bound]; lia|Z.to_euclidean_division_equations; lia].
Qed.

(** C17: Writing to blocks a file has, however many and in however many nodes, stores the
    bytes and nothing else: the size is raised to the end of what is written if that is
    beyond it, no other block changes, and every read within a block gives what has been
    written, or what was there. *)
Theorem file_write_read_back v ino nb a0 A size data buf ofs : file_at v ino nb a0 A size data -> size <= 4096 * nb -> bytes buf -> buf <> [] ->
  0 <= ofs -> ofs + Z.of_nat (length buf) <= 4096 * nb ->
  exists v', f2fs_write v ino buf ofs = Ok (Z.of_nat (length buf), v') /\ only_file v v' nb a0 A /\
    f2fs_quota_size v' ino = Ok (Z.max size (ofs + Z.of_nat (length buf))) /\
    forall o n, 0 <= o < 2 ^ 62 -> 0 < n -> o / 4096 = (o + n - 1) / 4096 ->
      exists bs, f2fs_read v' ino n o = Ok bs /\ Z.of_nat (length bs) = Z.max 0 (Z.min n (Z.max size (ofs + Z.of_nat (length buf)) - o)) /\
        forall i x, bs !! i = Some x -> x = let y := o + Z.of_nat i in
          if (ofs <=? y) && (y <? ofs + Z.of_nat (length buf)) then default 0 (buf !! Z.to_nat (y - ofs)) else data y.
Proof.
  intros F Hs Hb Hne Ho Hr. destruct (write_ex_spec v ino nb a0 A size data buf ofs WR_NORMAL F) as (v' & Hw & Ho' & F'); try done; [by left|].
  change (WR_NORMAL =? WR_NORMAL) with true in F'. exists v'. split; [exact Hw|]. split; [done|]. split; [by apply (quota_size_spec _ _ _ _ _ _ _ F')|].
  intros o n Hon Hn Hbk. destruct (read_block_spec _ _ _ _ _ _ _ o n F') as (bs & Hrd & Hl & Hx); try done; [lia|]. exists bs. by split_and!.
Qed.

(** The blocks that matter to a file: its own, and those that looking it up reads. *)
Definition matters (v : vol) (ino nb a0 : Z) (A : Z -> Z) (x : Z) : Prop :=
  x = a0 \/ nat_addr v ino = Ok x \/ exists j, 0 <= j < nb /\ (x = A j \/ exists l, find_block v ino j = Ok (l, A j) /\ x ∈ l).

Lemma file_map_frame {t} v d ino nb a0 inode A : @file_map t v ino nb a0 inode A -> (forall x, matters v ino nb a0 A x -> d !! x = v_disk v !! x) ->
  @file_map t (with_vdisk v d) ino nb a0 inode A.
Proof.
  intros F Hd. pose proof F as [F1 F2 F3 F4 F5 F6 F7 F8].
  destruct F1 as (na & ni & Hna & Hni & Hni0 & Hne). assert (Ha0 : d !! a0 = Some inode) by (rewrite Hd; [done|by left]). constructor; try done.
  - exists na, ni. rewrite nat_addr_frame, (node_info_frame v d ino na); [done|done|]. apply Hd. by right; left.
  - intros j Hj. destruct (F6 j Hj) as (l & Hf & H1 & H2). exists l. split; [|done]. apply (find_block_frame v d ino nb a0 inode A j l F Hf); [|done].
    intros x Hx. apply Hd. right. right. exists j. split; [done|]. right. by exists l.
  - intros j Hj. rewrite with_vdisk_disk, Hd; [by apply F7|]. right. right. exists j. auto.
Qed.

Lemma file_at_frame v d ino nb a0 A size data : file_at v ino nb a0 A size data -> (forall x, matters v ino nb a0 A x -> d !! x = v_disk v !! x) ->
  file_at (with_vdisk v d) ino nb a0 A size data.
Proof.
  intros (inode & F & Hsz & Hbig & Hdata) Hd. exists inode. split; [by apply file_map_frame|]. split; [done|]. split; [done|].
  intros x Hx. rewrite <- (Hdata x Hx). unfold data_at. rewrite with_vdisk_disk, Hd; [done|]. right. right. exists (x / 4096).
  split; [split; [apply Z.div_pos|apply Z.div_lt_upper_bound]; lia|by left].
Qed.

(** * Samples *)

(** A volume with file 4, the quota file of the users: an inode with room for three addresses, and a direct node with
    the next two blocks. *)
Definition sample_file_sb : f2fs_super_block :=
  let sb := sample_sb F2FS_FEATURE_INODE_CHKSUM 1 31 2 in
  mk_sb (sb_magic sb) (sb_major_ver sb) (sb_minor_ver sb) (sb_log_sectorsize sb) (sb_log_sectors_per_block sb) (sb_log_blocksize sb)
    (sb_log_blocks_per_seg sb) (sb_segs_per_sec sb) (sb_secs_per_zone sb) (sb_checksum_offset sb) (sb_block_count sb) (sb_section_count sb)
    (sb_segment_count sb) (sb_segment_count_ckpt sb) (sb_segment_count_sit sb) (sb_segment_count_nat sb) (sb_segment_count_ssa sb)
    (sb_segment_count_main sb) (sb_segment0_blkaddr sb) (sb_cp_blkaddr sb) (sb_sit_blkaddr sb) (sb_nat_blkaddr sb) (sb_ssa_blkaddr sb)
    (sb_main_blkaddr sb) (sb_root_ino sb) (sb_node_ino sb) (sb_meta_ino sb) (sb_uuid sb) (sb_volume_name sb) (sb_extension_count sb)
    (sb_extension_list sb) (sb_cp_payload sb) (sb_version sb) (sb_init_version sb) (sb_feature sb) (sb_encryption_level sb)
    (sb_encrypt_pw_salt sb) (sb_devs sb) [4; 0; 0] (sb_hot_ext_count sb) (sb_s_encoding sb) (sb_s_encoding_flags sb) (sb_reserved sb) (sb_crc sb).
Definition nat_entries (es : list (Z * Z)) : list Z :=
  foldl (fun b e => splice b (9 * e.1) (0 :: le_bytes 4 4 ++ le_bytes 4 e.2)) zero_block es.
Definition file_inode (size : Z) (addrs : list Z) (nid : Z) : list Z :=
  foldl (fun b e => splice b e.1 e.2) zero_block
    [(ofs_i_mode, le_bytes 2 0x81a4); (ofs_i_inline, [F2FS_EXTRA_ATTR]); (ofs_i_size, le_bytes 8 size); (ofs_i_extra_isize, le_bytes 2 3680);
     (4040, mjoin (le_bytes 4 <$> addrs)); (ofs_i_nid, le_bytes 4 nid); (ofs_nid, le_bytes 4 4); (ofs_ino, le_bytes 4 4)].
Definition file_dnode (addrs : list Z) (nid : Z) : list Z :=
  foldl (fun b e => splice b e.1 e.2) zero_block [(0, mjoin (le_bytes 4 <$> addrs)); (ofs_nid, le_bytes 4 nid); (ofs_ino, le_bytes 4 4)].
Definition sample_file_disk (size : Z) : disk :=
  <[2560 := nat_entries [(4, 5000); (5, 5001)]]> (<[5000 := file_inode size [6000; 6001; 6002] 5]> (<[5001 := file_dnode [6003; 6004] 5]> (zero_disk 6000 5))).
Definition sample_vol (d : disk) : vol := {|
  v_seg := {| sg := {| g_func := FSCK; g_zoned_hm := false; g_super := sample_file_sb; g_ckpt := zero_block; g_log := 9;
                       g_segs_per_sec := 1; g_main_blkaddr := 4096; g_ssa_blkaddr := 3584; g_main_segments := 24;
                       g_segment_count := 31; g_reserved_segments := 8; g_user_block_count := 8000; g_total_node_count := 1000;
                       g_sit_base_addr := 1536; g_sit_blocks := 512; g_sit_bitmap := replicate 64 0 |};
              sg_sentries := []; sg_cursegs := sg_cursegs sample_seg_state; sg_counts := sg_counts sample_seg_state;
              sg_main_bitmap := []; sg_sit_area := []; sg_disk := d |};
  v_nm := ns_nm (sample_nat sample_file_sb []); v_entries := []; v_node_ino := 1; v_meta_ino := 2; v_seed := 7; v_alloc_failed := false |}.

Ltac each j Hj := let H := fresh in assert (H : j = 0 \/ j = 1 \/ j = 2 \/ j = 3 \/ j = 4) by lia; destruct H as [->|[->|[->|[->| ->]]]].

Lemma sample_find_block size j : size = 0 \/ size = 20480 -> 0 <= j < 5 ->
  exists l, find_block (sample_vol (sample_file_disk size)) 4 j = Ok (l, 6000 + j) /\ (l = [2560] \/ l = [2560; 2560; 5001]).
Proof.
  intros Hs Hj. each j Hj; destruct Hs as [->| ->]; eexists; (split; [vm_compute; reflexivity|first [left; reflexivity|right; reflexivity]]).
Qed.

Lemma sample_file_block size j : 0 <= j < 5 -> v_disk (sample_vol (sample_file_disk size)) !! (6000 + j) = Some zero_block.
Proof.
  intros Hj. cbn [v_disk sample_vol v_seg sg_disk]. unfold sample_file_disk. rewrite !lookup_insert_ne by lia. apply zero_disk_lookup. lia.
Qed.
Lemma bytes_zero_block : bytes zero_block.
Proof. apply Forall_replicate. unfold is_u8. lia. Qed.

Lemma sample_file_inode size : size = 0 \/ size = 20480 -> let b := file_inode size [6000; 6001; 6002] 5 in
  length b = 4096%nat /\ bytes b /\ is_mode b LINUX_S_IFREG = Ok true /\ __get_extra_isize b = Ok 920 /\ get_le64 b ofs_i_size = Ok size.
Proof.
  intros Hs. cbv zeta. split_and!; [|apply bytes_forallb| | |]; destruct Hs as [->| ->]; vm_compute; reflexivity.
Qed.

Lemma sample_file_at size : size = 0 \/ size = 20480 -> file_at (sample_vol (sample_file_disk size)) 4 5 5000 (fun j => 6000 + j) size (fun _ => 0).
Proof.
  intros Hs. destruct (sample_file_inode size Hs) as (Hl & Hb & Hm & He & Hz). exists (file_inode size [6000; 6001; 6002] 5).
  split; [|split; [exact Hz|split; [lia|]]].
  - constructor.
    + exists 2560. eexists. clear Hl Hb Hm He Hz. split_and!; [|destruct Hs as [->| ->]; vm_compute; reflexivity|reflexivity|lia]. destruct Hs as [->| ->]; vm_compute; reflexivity.
    + cbn [v_disk sample_vol v_seg sg_disk]. unfold sample_file_disk. rewrite lookup_insert_ne by lia. apply lookup_insert_eq.
    + split; [exact Hl|exact Hb].
    + exact Hm.
    + intros _. exists 920. split; [exact He|lia].
    + intros j Hj. destruct (sample_find_block size j Hs Hj) as (l & Hf & Hl'). exists l. split; [exact Hf|]. clear Hl Hb Hm He Hz Hf.
      destruct Hl' as [->| ->]; (split; [|intros k Hk]; rewrite !not_elem_of_cons; split_and!; try lia; apply not_elem_of_nil).
    + intros j Hj. split; [unfold NULL_ADDR; lia|]. split; [change NEW_ADDR with (2 ^ 32 - 1); lia|]. split; [lia|]. exists zero_block.
      split; [by apply sample_file_block|]. split; [apply length_replicate|apply bytes_zero_block].
    + intros j k _ _ Hjk. lia.
  - intros x Hx. unfold data_at. rewrite sample_file_block by (split; [apply Z.div_pos|apply Z.div_lt_upper_bound]; lia).
    cbn [mbind option_bind]. apply lookup_replicate_2. pose proof (Z.mod_pos_bound x 4096 ltac:(lia)). lia.
Qed.

Lemma file_write_read_back_witness : exists v', f2fs_write (sample_vol (sample_file_disk 0)) 4 (replicate 4900 7) 10000 = Ok (4900, v') /\
  f2fs_quota_size v' 4 = Ok 14900 /\ exists bs, f2fs_read v' 4 4096 12288 = Ok bs /\ length bs = 2612%nat /\ bs !! 5%nat = Some 7.
Proof.
  destruct (file_write_read_back (sample_vol (sample_file_disk 0)) 4 5 5000 (fun j => 6000 + j) 0 (fun _ => 0) (replicate 4900 7) 10000) as (v' & Hw & _ & Hsz & Hrd).
  - apply sample_file_at. by left.
  - lia.
  - apply Forall_replicate. unfold is_u8. lia.
  - discriminate.
  - lia.
  - rewrite length_replicate. lia.
  - rewrite length_replicate in *. change (Z.of_nat 4900) with 4900 in *. exists v'. split; [exact Hw|]. split; [exact Hsz|].
    destruct (Hrd 12288 4096) as (bs & Hr & Hl & Hx); [lia|lia|reflexivity|]. exists bs. split; [exact Hr|]. split; [lia|].
    destruct (lookup_lt_is_Some_2 bs 5%nat) as [x Hbs]; [lia|]. rewrite Hbs. f_equal. exact (Hx _ _ Hbs).
Defined.

(** [f2fs_read] counts the entries of a node from its first one, not from the one it
    starts at: a read that begins in the middle of a node and goes on beyond its end takes
    what follows the addresses, in an inode the ids of the nodes, for addresses. Here the
    second block comes from block 5, since node 5 is the direct node of the file. *)
Theorem f2fs_read_overruns_node : exists v bs, file_at v 4 5 5000 (fun j => 6000 + j) 20480 (fun _ => 0) /\
  f2fs_read v 4 8192 8192 = Ok bs /\ length bs = Z.to_nat 8192 /\ take 4096 bs = replicate 4096 0 /\ drop 4096 bs = replicate 4096 9.
Proof.
  set (d := <[5 := replicate 4096 9]> (sample_file_disk 20480)). exists (with_vdisk (sample_vol (sample_file_disk 20480)) d). eexists. split; [|split; [vm_compute; reflexivity|vm_compute; done]].
  apply file_at_frame; [apply sample_file_at; by right|]. intros x Hx. subst d. apply lookup_insert_ne. intros <-. destruct Hx as [Hx|[Hx|(j & Hj & [Hx|(l & Hf & Hx)])]].
  - lia.
  - vm_compute in Hx. discriminate Hx.
  - lia.
  - destruct (sample_find_block 20480 j) as (l' & Hf' & Hl); [by right|done|]. rewrite Hf' in Hf. injection Hf as <-.
    destruct Hl as [->| ->]; repeat (apply elem_of_cons in Hx as [Hx|Hx]; [lia|]); by apply not_elem_of_nil in Hx.
Qed.
