(* ===== verification/FileQuota.v ===== *)
(** Quota files on the volume: a file whose blocks are there (FileTree) is what the quota
    code relies on, and [fsck_chk_quota_files] (fsck/fsck.c) repairs it. *)
From Stdlib Require Import ZArith Lia List Bool.
From stdpp Require Import base numbers list gmap.
From S2P Require Import Prelude Codec Bits Crc Node Superblock Mkfs Checkpoint Nat Segment Fsck FileData FileTree.
From S2P Require Import Quota QuotaTree QuotaMap QuotaV2 QuotaFile QuotaScan QuotaOpen QuotaMk.

(** * The file of a volume *)

(** [sbi] and [ino] of a [struct quota_file]. *)
Record vfile := { vf_vol : vol; vf_ino : Z }.

#[export] Instance vol_inode : InodeFile vfile := {
  f2fs_read f ofs n := FileData.f2fs_read (vf_vol f) (vf_ino f) n ofs;
  f2fs_write f ofs bs := '(w, v) ← FileData.f2fs_write (vf_vol f) (vf_ino f) bs ofs; Ok (w, {| vf_vol := v; vf_ino := vf_ino f |});
  f2fs_quota_size f := FileData.f2fs_quota_size (vf_vol f) (vf_ino f);
  f2fs_filesize_update f n := v ← FileData.f2fs_filesize_update (vf_vol f) (vf_ino f) n; Ok {| vf_vol := v; vf_ino := vf_ino f |};
}.

Section Laws.
Context (v0 : vol) (ino nb a0 : Z) (A : Z -> Z).

Definition vol_byte (f : vfile) (x : Z) : Z :=
  if (0 <=? x) && (x <? 4096 * nb) then u8 (default 0 (data_at (v_disk (vf_vol f)) A x)) else 0.
Definition vol_size (f : vfile) : Z := match FileData.f2fs_quota_size (vf_vol f) (vf_ino f) with Ok n => n | _ => 0 end.
(** The file is there, and only it has changed since [v0]. *)
Definition vol_ok (f : vfile) : Prop :=
  vf_ino f = ino /\ only_file v0 (vf_vol f) nb a0 A /\ exists size data, file_at (vf_vol f) ino nb a0 A size data /\ size <= 4096 * nb.

Lemma vol_byte_at f size data x : vf_ino f = ino -> file_at (vf_vol f) ino nb a0 A size data -> 0 <= x < 4096 * nb -> vol_byte f x = data x.
Proof.
  intros Hi (inode & F & _ & _ & Hd) Hx. unfold vol_byte. rewrite (proj2 (Z.leb_le _ _)), (proj2 (Z.ltb_lt _ _)) by lia. cbn [andb].
  pose proof (Hd x Hx) as Hdx. rewrite Hdx. cbn [default]. apply u8_id. unfold data_at in Hdx.
  destruct (fm_data _ _ _ _ _ _ F (x / 4096)) as (_ & _ & _ & b & Hb & _ & Hby); [split; [apply Z.div_pos|apply Z.div_lt_upper_bound]; lia|].
  rewrite Hb in Hdx. exact (Forall_lookup_1 is_u8 b _ _ Hby Hdx).
Qed.
Lemma vol_byte_out f x : ~ 0 <= x < 4096 * nb -> vol_byte f x = 0.
Proof. intros Hx. unfold vol_byte. destruct (Z.leb_spec 0 x), (Z.ltb_spec x (4096 * nb)); cbn [andb]; try done. lia. Qed.
Lemma vol_size_at f size data : vf_ino f = ino -> file_at (vf_vol f) ino nb a0 A size data -> vol_size f = size.
Proof. intros Hi F. unfold vol_size. by rewrite Hi, (quota_size_spec _ _ _ _ _ _ _ F). Qed.

Program Definition vol_laws : InodeFileLaws vfile := {|
  inode_byte := vol_byte;
  inode_size := vol_size;
  inode_room f := 4096 * nb;
  inode_ok := vol_ok;
|}.
Next Obligation. intros f x. unfold vol_byte. destruct (_ && _); [apply u8_range|unfold is_u8; lia]. Qed.
Next Obligation.
  intros f (Hi & _ & size & data & F & _). cbn. rewrite (vol_size_at f size data Hi F), Hi. by apply (quota_size_spec _ _ _ _ _ _ _ F).
Qed.
Next Obligation.
  intros f ofs n (Hi & _ & size & data & F & Hs) Ho Hn Hb. cbn. rewrite (vol_size_at f size data Hi F), Hi.
  destruct (read_block_spec _ _ _ _ _ _ _ ofs n F Hs) as (bs & Hr & Hl & Hx); [lia|done|done|]. exists bs. split; [done|]. split; [done|].
  intros i x Hix. pose proof (lookup_lt_Some _ _ _ Hix). rewrite (vol_byte_at f size data); [by apply Hx|done|done|lia].
Qed.
Next Obligation.
  intros f ofs bs (Hi & Hof & size & data & F & Hs) Hb Ho Hl Hr. cbn beta in *. cbn [f2fs_write vol_inode]. rewrite Hi.
  assert (Hnb : 4096 * nb < 2 ^ 63) by (by destruct F as (? & _ & _ & ? & _)).
  destruct (write_ex_spec _ _ _ _ _ _ _ bs ofs WR_NORMAL F) as (v' & Hw & Hof' & F'); try done; [by left|by destruct bs; [cbn in Hl|]|].
  change (WR_NORMAL =? WR_NORMAL) with true in F'. cbn iota in F'. unfold FileData.f2fs_write. rewrite Hw, res_bind_ret.
  exists {| vf_vol := v'; vf_ino := ino |}. split; [done|]. split; [done|].
  rewrite (vol_size_at f size data Hi F), (vol_size_at {| vf_vol := v'; vf_ino := ino |} _ _ eq_refl F'). split; [done|]. split.
  - split; [done|]. split; [by eapply only_file_trans|]. eexists _, _. split; [exact F'|lia].
  - intros x. destruct (decide (0 <= x < 4096 * nb)) as [Hx|Hx].
    + rewrite (vol_byte_at f size data x Hi F Hx), (vol_byte_at {| vf_vol := v'; vf_ino := ino |} _ _ x eq_refl F' Hx). done.
    + rewrite !vol_byte_out by done. destruct (Z.leb_spec ofs x), (Z.ltb_spec x (ofs + Z.of_nat (length bs))); cbn [andb]; try done. lia.
Qed.
Next Obligation.
  intros f n (Hi & Hof & size & data & F & Hs) Hn. cbn beta in *. cbn [f2fs_filesize_update vol_inode]. rewrite Hi.
  assert (Hnb : 4096 * nb < 2 ^ 63) by (by destruct F as (? & _ & _ & ? & _)).
  destruct (filesize_update_spec _ _ _ _ _ _ _ n F) as (v' & -> & Hof' & F'); [lia|]. rewrite res_bind_ret.
  exists {| vf_vol := v'; vf_ino := ino |}. split; [done|]. rewrite (vol_size_at {| vf_vol := v'; vf_ino := ino |} _ _ eq_refl F'). split_and!; try done.
  - split; [done|]. split; [by eapply only_file_trans|]. eexists _, _. split; [exact F'|lia].
  - intros x. destruct (decide (0 <= x < 4096 * nb)) as [Hx|Hx]; [|by rewrite !vol_byte_out].
    by rewrite (vol_byte_at f size data x Hi F Hx), (vol_byte_at {| vf_vol := v'; vf_ino := ino |} _ _ x eq_refl F' Hx).
Qed.
End Laws.

(** * Checking the quota files *)

Record quota_chk := { qc_vol : vol; qc_ctx : quota_ctx; qc_ret : Z; qc_fixed : bool; qc_bug : bool }.

(** The types from [qtype] on; [sizes] are what the handles on the stack happen to have in
    [filesize], [chks] what the walk over the inodes has left. *)
Fixpoint chk_quota_types (n : nat) (now : Z) (fix_on preserve_limits : bool) (sizes : list Z) (chks : list qf_szchk) (qtype : Z) (st : quota_chk) : res quota_chk :=
  match n with
  | O => Ok st
  | S n =>
      ino ← rd (sb_qf_ino (g_super (sg (v_seg (qc_vol st))))) qtype;
      if ino =? 0 then chk_quota_types n now fix_on preserve_limits sizes chks (qtype + 1) st
      else
        size ← rd sizes qtype;
        chk ← rd chks qtype;
        '(ret, f, qctx, fixed, bug) ← chk_quota_file now fix_on preserve_limits (qc_ctx st) ino qtype {| vf_vol := qc_vol st; vf_ino := ino |} size chk;
        chk_quota_types n now fix_on preserve_limits sizes chks (qtype + 1)
          {| qc_vol := vf_vol f; qc_ctx := qctx; qc_ret := ret; qc_fixed := qc_fixed st || fixed; qc_bug := qc_bug st || bug |}
  end.

(** With the quota feature. *)
Definition fsck_chk_quota_files (now : Z) (fix_on preserve_limits : bool) (v : vol) (qctx : quota_ctx) (sizes : list Z) (chks : list qf_szchk) : res quota_chk :=
  chk_quota_types 3 now fix_on preserve_limits sizes chks 0 {| qc_vol := v; qc_ctx := qctx; qc_ret := 0; qc_fixed := false; qc_bug := false |}.

Lemma skip_types now fix_on lim sizes chks st n : forall qtype,
  (forall k, qtype <= k < qtype + Z.of_nat n -> rd (sb_qf_ino (g_super (sg (v_seg (qc_vol st))))) k = Ok 0) ->
  chk_quota_types n now fix_on lim sizes chks qtype st = Ok st.
Proof.
  induction n as [|n IH]; intros qtype Hz; cbn [chk_quota_types]; [done|]. rewrite Hz, res_bind_ret by lia. cbn [Z.eqb]. apply IH. intros k Hk. apply Hz. lia.
Qed.

(** The run on a volume with one quota file. *)
Definition only_type (v : vol) (qtype ino : Z) : Prop :=
  0 <= qtype < 3 /\ ino <> 0 /\ sb_qf_ino (g_super (sg (v_seg v))) = <[Z.to_nat qtype := ino]> [0; 0; 0].

Lemma only_type_rd v qtype ino k : only_type v qtype ino -> 0 <= k < 3 -> rd (sb_qf_ino (g_super (sg (v_seg v)))) k = Ok (if k =? qtype then ino else 0).
Proof.
  intros (Hq & _ & ->) Hk. unfold rd. rewrite (proj2 (Z.ltb_ge _ _)) by lia. destruct (Z.eqb_spec k qtype) as [->|Hne].
  - rewrite list_lookup_insert_eq by (cbn; lia). done.
  - rewrite list_lookup_insert_ne by lia. assert (k = 0 \/ k = 1 \/ k = 2) as [->|[->| ->]] by lia; done.
Qed.

Lemma one_type_run now fix_on lim v qctx sizes chks ino qtype size0 chk ret v' qctx' fixed bug : only_type v qtype ino ->
  sizes !! Z.to_nat qtype = Some size0 -> chks !! Z.to_nat qtype = Some chk -> g_super (sg (v_seg v')) = g_super (sg (v_seg v)) ->
  chk_quota_file now fix_on lim qctx ino qtype {| vf_vol := v; vf_ino := ino |} size0 chk = Ok (ret, {| vf_vol := v'; vf_ino := ino |}, qctx', fixed, bug) ->
  fsck_chk_quota_files now fix_on lim v qctx sizes chks = Ok {| qc_vol := v'; qc_ctx := qctx'; qc_ret := ret; qc_fixed := fixed; qc_bug := bug |}.
Proof.
  intros Ho Hs Hc Hg Hrun. pose proof Ho as (Hq & Hi & _). unfold fsck_chk_quota_files.
  assert (Hrd : forall T (l : list T) x, l !! Z.to_nat qtype = Some x -> rd l qtype = Ok x) by (intros T l x Hx; unfold rd; by rewrite (proj2 (Z.ltb_ge _ _)), Hx by lia).
  assert (Hgen : forall n q, q <= qtype < q + Z.of_nat n -> 0 <= q -> q + Z.of_nat n <= 3 ->
    chk_quota_types n now fix_on lim sizes chks q {| qc_vol := v; qc_ctx := qctx; qc_ret := 0; qc_fixed := false; qc_bug := false |} =
    Ok {| qc_vol := v'; qc_ctx := qctx'; qc_ret := ret; qc_fixed := fixed; qc_bug := bug |}); [|by apply (Hgen 3%nat 0)].
  induction n as [|n IH]; intros q Hr H0 H3; [lia|]. cbn [chk_quota_types qc_vol]. rewrite (only_type_rd v qtype ino q Ho), res_bind_ret by lia.
  destruct (Z.eqb_spec q qtype) as [->|Hne]; [|apply IH; lia].
  rewrite (proj2 (Z.eqb_neq _ _) Hi), (Hrd _ _ _ Hs), res_bind_ret, (Hrd _ _ _ Hc), res_bind_ret. cbn [qc_ctx]. rewrite Hrun, res_bind_ret. cbn [vf_vol qc_fixed qc_bug orb].
  apply skip_types. intros k Hk. cbn [qc_vol]. rewrite Hg, (only_type_rd v qtype ino k Ho) by lia. by rewrite (proj2 (Z.eqb_neq _ _)) by lia.
Qed.


(** * Samples *)

Definition one_dict : dict := {[ 1000 := sample_mdquot 1000 8192 2 ]}.
Definition one_qctx : quota_ctx := {| quota_dict := [Some one_dict; None; None]; linked_inode_dict := ∅ |}.
Definition no_szchk : qf_szchk := {| szchk_type := QF_SZCHK_NONE; last_blkofs := 0; maxsize := 0 |}.

Lemma one_counted k m : one_dict !! k = Some m -> counted k m.
Proof.
  unfold one_dict. intros [<- <-]%lookup_singleton_Some. split; [|by left]. constructor; cbn; try done; try (unfold is_u32; lia); try lia; constructor; unfold is_s64; cbn; lia.
Qed.


(** The sample volume has no quota file yet: the first run writes it, the second is content. *)
Example sample_fsck_run :
  (st ← fsck_chk_quota_files 1700000000 true true (sample_vol (sample_file_disk 0)) one_qctx [0; 0; 0] [no_szchk; no_szchk; no_szchk];
   st' ← fsck_chk_quota_files 0 true true (qc_vol st) one_qctx [0; 0; 0] [no_szchk; no_szchk; no_szchk];
   n ← FileData.f2fs_quota_size (qc_vol st) 4;
   Ok (qc_fixed st, qc_bug st, qc_fixed st', n)) = Ok (true, false, false, 6144).
Proof. vm_compute. reflexivity. Qed.
