(* ===== verification/FsckWalk.v ===== *)
(** The walk of fsck over the nodes, data blocks and directories of a volume
    (fsck/fsck.c): summaries ([is_valid_ssa_node_blk], [is_valid_ssa_data_blk]), the
    check of a node id ([sanity_check_nid]), inodes, direct and indirect nodes, data
    blocks and entries of directories.

    [fsck_st] is what the walk changes: the volume (FileData: disk, segments with
    [main_area_bitmap] and the counters of [fsck->chk], the bitmap of node ids),
    [nat_area_bitmap], the list of hard links, [c.bug_on], the usage for quotas.
    [fsck_conf] is what it only reads of [c]. Printing ([print_dentry], the list of
    names [fsck->dentry], the progress report) and reading ahead are left out.

    The C functions call each other through directories: [fsck_chk_node_blk] is a
    function of the depth that is left, everything below an inode is written against
    the call that checks the inode of an entry. *)
From Stdlib Require Import ZArith Lia List Bool.
From stdpp Require Import base numbers list gmap.
From S2P Require Import Prelude Codec Bits Crc Node Dir Superblock Mkfs Checkpoint Nat Segment Fsck Quota QuotaMk FileData.

(** * State *)

(** [k_casefold] is [casefold] of the table of the encoding: [None] if it fails,
    otherwise the bytes before the terminator. [k_cur_qtype] is [cur_qtype]. *)
Record fsck_conf := {
  k_fix_on : bool;
  k_writable : bool;
  k_preen_mode : Z;
  k_cur_qtype : Z;
  k_root_ino : Z;
  k_casefold : list Z -> option (list Z);
}.

(** [qf_szchk_type], [qf_last_blkofs] and [qf_maxsize] of one type. *)
Record qf_check := { qf_szchk_type : Z; qf_last_blkofs : Z; qf_maxsize : Z }.

Record fsck_st := {
  fk_vol : vol;
  fk_nat_area : list Z;
  fk_links : list hard_link_node;
  fk_multi : Z;
  fk_bug : bool;
  fk_qctx : option quota_ctx;
  fk_qf : list qf_check;
}.

Definition fk_seg (st : fsck_st) : seg_state := v_seg (fk_vol st).
Definition fk_feature (st : fsck_st) : Z := v_feature (fk_vol st).
Definition fk_counts (st : fsck_st) : seg_counts := sg_counts (fk_seg st).

Definition with_vol (st : fsck_st) (v : vol) : fsck_st := {|
  fk_vol := v; fk_nat_area := fk_nat_area st; fk_links := fk_links st; fk_multi := fk_multi st; fk_bug := fk_bug st;
  fk_qctx := fk_qctx st; fk_qf := fk_qf st |}.
Definition with_nat_area (st : fsck_st) (bm : list Z) : fsck_st := {|
  fk_vol := fk_vol st; fk_nat_area := bm; fk_links := fk_links st; fk_multi := fk_multi st; fk_bug := fk_bug st;
  fk_qctx := fk_qctx st; fk_qf := fk_qf st |}.
Definition with_links (st : fsck_st) (l : list hard_link_node) (multi : Z) : fsck_st := {|
  fk_vol := fk_vol st; fk_nat_area := fk_nat_area st; fk_links := l; fk_multi := multi; fk_bug := fk_bug st;
  fk_qctx := fk_qctx st; fk_qf := fk_qf st |}.
Definition with_qctx (st : fsck_st) (q : option quota_ctx) : fsck_st := {|
  fk_vol := fk_vol st; fk_nat_area := fk_nat_area st; fk_links := fk_links st; fk_multi := fk_multi st; fk_bug := fk_bug st;
  fk_qctx := q; fk_qf := fk_qf st |}.
Definition with_qf (st : fsck_st) (q : list qf_check) : fsck_st := {|
  fk_vol := fk_vol st; fk_nat_area := fk_nat_area st; fk_links := fk_links st; fk_multi := fk_multi st; fk_bug := fk_bug st;
  fk_qctx := fk_qctx st; fk_qf := q |}.
(** [ASSERT_MSG], if [b]. *)
Definition assert_msg (st : fsck_st) (b : bool) : fsck_st := {|
  fk_vol := fk_vol st; fk_nat_area := fk_nat_area st; fk_links := fk_links st; fk_multi := fk_multi st; fk_bug := b || fk_bug st;
  fk_qctx := fk_qctx st; fk_qf := fk_qf st |}.

Definition with_fseg (st : fsck_st) (s : seg_state) : fsck_st := with_vol st (with_seg (fk_vol st) s).
Definition with_chk (st : fsck_st) (n : seg_counts) : fsck_st := with_fseg st (with_counts (fk_seg st) n).
(** Adding to [chk.valid_blk_cnt], [chk.valid_node_cnt] and [chk.valid_inode_cnt]. *)
Definition add_chk (st : fsck_st) (blk node inode : Z) : fsck_st :=
  let n := fk_counts st in
  with_chk st {| n_valid_block := n_valid_block n; n_valid_node := n_valid_node n; n_valid_inode := n_valid_inode n;
                 n_chk_blk := u64 (n_chk_blk n + blk); n_chk_node := u32 (n_chk_node n + node); n_chk_inode := u32 (n_chk_inode n + inode) |}.

Definition mark_main (st : fsck_st) (blk type : Z) : res fsck_st :=
  '(_, s) ← f2fs_set_main_bitmap (fk_seg st) blk type; Ok (with_fseg st s).
Definition st_write (st : fsck_st) (a : Z) (b : list Z) : res fsck_st := v ← vol_write (fk_vol st) a b; Ok (with_vol st v).
Definition valid_nid_b (st : fsck_st) (nid : Z) : res bool := ns ← nat_view (fk_vol st); IS_VALID_NID ns nid.
Definition valid_blk_b (st : fsck_st) (a : Z) : res bool := ns ← nat_view (fk_vol st); Ok (IS_VALID_BLK_ADDR ns a).

(** [f2fs_clear_bit(nid, nat_area_bitmap)], [f2fs_set_bit(nid, nid_bitmap)] *)
Definition nid_reached (st : fsck_st) (nid : Z) : res fsck_st :=
  '(_, area) ← f2fs_clear_bit nid (fk_nat_area st);
  ns ← nat_view (fk_vol st);
  '(_, bm) ← f2fs_set_bit nid (nm_nid_bitmap (ns_nm ns));
  Ok (with_vol (with_nat_area st area) (put_nat (fk_vol st) (with_nid_bitmap ns bm))).

(** * Types of files and nodes *)

Definition F2FS_FT_UNKNOWN : Z := 0.
Definition F2FS_FT_REG_FILE : Z := 1.
Definition F2FS_FT_DIR : Z := 2.
Definition F2FS_FT_CHRDEV : Z := 3.
Definition F2FS_FT_BLKDEV : Z := 4.
Definition F2FS_FT_FIFO : Z := 5.
Definition F2FS_FT_SOCK : Z := 6.
Definition F2FS_FT_SYMLINK : Z := 7.
Definition F2FS_FT_MAX : Z := 8.
Definition F2FS_FT_ORPHAN : Z := 9.
Definition F2FS_FT_XATTR : Z := 10.
Definition F2FS_FT_LAST_FILE_TYPE : Z := F2FS_FT_XATTR.

Inductive NODE_TYPE := TYPE_INODE | TYPE_DIRECT_NODE | TYPE_INDIRECT_NODE | TYPE_DOUBLE_INDIRECT_NODE | TYPE_XATTR.
#[export] Instance NODE_TYPE_eq_dec : EqDecision NODE_TYPE.
Proof. solve_decision. Defined.
Definition is_inode_type (t : NODE_TYPE) : bool := bool_decide (t = TYPE_INODE).
Definition is_xattr_type (t : NODE_TYPE) : bool := bool_decide (t = TYPE_XATTR).

Definition S_IFSOCK : Z := 0xc000.
Definition S_IFLNK : Z := 0xa000.
Definition S_IFREG : Z := 0x8000.
Definition S_IFBLK : Z := 0x6000.
Definition S_IFDIR : Z := 0x4000.
Definition S_IFCHR : Z := 0x2000.
Definition S_IFIFO : Z := 0x1000.
(** The type of file of a mode, if it is one. *)
Definition mode_ftype (mode : Z) : option Z :=
  let t := Z.land mode LINUX_S_IFMT in
  if t =? S_IFLNK then Some F2FS_FT_SYMLINK
  else if t =? S_IFREG then Some F2FS_FT_REG_FILE
  else if t =? S_IFDIR then Some F2FS_FT_DIR
  else if t =? S_IFCHR then Some F2FS_FT_CHRDEV
  else if t =? S_IFBLK then Some F2FS_FT_BLKDEV
  else if t =? S_IFIFO then Some F2FS_FT_FIFO
  else if t =? S_IFSOCK then Some F2FS_FT_SOCK
  else None.
(** [true] where the C function returns 0. *)
Definition __check_inode_mode (ftype mode : Z) : bool :=
  if F2FS_FT_MAX <=? ftype then true
  else match mode_ftype mode with None => false | Some t => t =? ftype end.

(** * Summaries *)

(** Members of [struct f2fs_summary], a [struct f2fs_summary_block] begins with them. *)
Definition ofs_sum_nid : Z := 0.
Definition ofs_sum_version : Z := 4.
Definition ofs_sum_ofs_in_node : Z := 5.

Section Walk.
Context (c : fsck_conf).

(** What both checks of a summary do with the block and [need_fix]. *)
Definition store_summary (st : fsck_st) (segno : Z) (shared : option Z) (sum_blk : list Z) (need_fix : bool) : res fsck_st :=
  if need_fix then
    s ← store_sum_blk (fk_seg st) shared sum_blk;
    let st := with_fseg st s in
    if k_writable c then st_write st (GET_SUM_BLKADDR (sg s) segno) sum_blk else Ok st
  else Ok st.

(** The kind of segment the summary must be for: [None] is the return value [-EINVAL],
    otherwise the block, with the footer corrected, and [need_fix]. *)
Definition sum_for (st : fsck_st) (segno : Z) (sum_blk : list Z) (type : seg_type) (neg node : bool) : res (fsck_st * option (list Z * bool)) :=
  let fits := match type with
              | SEG_TYPE_NODE | SEG_TYPE_CUR_NODE => node && negb neg
              | SEG_TYPE_DATA | SEG_TYPE_CUR_DATA => negb node && negb neg
              | SEG_TYPE_MAX => false
              end in
  if fits then Ok (st, Some (sum_blk, false))
  else if negb (k_fix_on c) || neg then Ok (assert_msg st true, None)
  else
    se ← get_seg_entry (fk_seg st) segno;
    if (if node then IS_NODESEG (se_type se) else IS_DATASEG (se_type se)) then
      b ← wr sum_blk ofs_sum_footer (if node then SUM_TYPE_NODE else SUM_TYPE_DATA);
      Ok (st, Some (b, true))
    else Ok (st, None).

Definition is_valid_ssa_node_blk (st : fsck_st) (nid blk_addr : Z) : res (Z * fsck_st) :=
  let g := sg (fk_seg st) in
  if RO g then Ok (0, st)
  else
    segno ← GET_SEGNO g blk_addr;
    offset ← OFFSET_IN_SEG g blk_addr;
    '(sum_blk, shared, type, neg) ← get_sum_block (fk_seg st) segno;
    '(st, r) ← sum_for st segno sum_blk type neg true;
    match r with
    | None => Ok (- EINVAL, st)
    | Some (sum_blk, need_fix) =>
        let e := SUMMARY_SIZE * offset in
        snid ← get_le32 sum_blk (e + ofs_sum_nid);
        if negb (snid =? nid) then
          if negb (k_fix_on c) || neg then
            st ← store_summary (assert_msg st true) segno shared sum_blk need_fix;
            Ok (- EINVAL, st)
          else
            sum_blk ← set_le32 sum_blk (e + ofs_sum_nid) nid;
            st ← store_summary st segno shared sum_blk true;
            Ok (0, st)
        else
          st ← store_summary st segno shared sum_blk need_fix;
          Ok (0, st)
    end.

(** Whether the block that a summary names has the address [blk_addr] at the place it
    names. *)
Definition is_valid_summary (st : fsck_st) (nid ofs_in_node blk_addr : Z) : res bool :=
  vn ← valid_nid_b st nid;
  if negb vn then Ok false
  else
    ni ← vol_node_info (fk_vol st) nid;
    vb ← valid_blk_b st (ni_blk_addr ni);
    if negb vb then Ok false
    else
      node_blk ← vol_read (fk_vol st) (ni_blk_addr ni);
      fnid ← get_le32 node_blk ofs_nid;
      if negb (fnid =? nid) then Ok false
      else
        fino ← get_le32 node_blk ofs_ino;
        if fnid =? fino then
          ofs ← __get_extra_isize node_blk;
          if DEF_ADDRS_PER_INODE <=? ofs + ofs_in_node then Ok false
          else a ← get_le32 node_blk (ofs_i_addr + 4 * (ofs + ofs_in_node)); Ok (blk_addr =? a)
        else if DEF_ADDRS_PER_BLOCK <=? ofs_in_node then Ok false
        else a ← get_le32 node_blk (4 * ofs_in_node); Ok (blk_addr =? a).

Definition is_valid_ssa_data_blk (st : fsck_st) (blk_addr parent_nid idx_in_node version : Z) : res (Z * fsck_st) :=
  let g := sg (fk_seg st) in
  if RO g then Ok (0, st)
  else
    segno ← GET_SEGNO g blk_addr;
    offset ← OFFSET_IN_SEG g blk_addr;
    '(sum_blk, shared, type, neg) ← get_sum_block (fk_seg st) segno;
    '(st, r) ← sum_for st segno sum_blk type neg false;
    match r with
    | None => Ok (- EINVAL, st)
    | Some (sum_blk, need_fix) =>
        let e := SUMMARY_SIZE * offset in
        snid ← get_le32 sum_blk (e + ofs_sum_nid);
        sver ← rd sum_blk (e + ofs_sum_version);
        sofs ← get_le16 sum_blk (e + ofs_sum_ofs_in_node);
        if negb (snid =? parent_nid) || negb (sver =? version) || negb (sofs =? idx_in_node) then
          if negb (k_fix_on c) || neg then
            st ← store_summary (assert_msg st true) segno shared sum_blk need_fix;
            Ok (- EINVAL, st)
          else
            valid ← is_valid_summary st snid sofs blk_addr;
            if valid : bool then
              st ← store_summary st segno shared sum_blk need_fix;
              Ok (- EINVAL, st)
            else
              sum_blk ← set_le32 sum_blk (e + ofs_sum_nid) parent_nid;
              sum_blk ← wr sum_blk (e + ofs_sum_version) version;
              sum_blk ← set_le16 sum_blk (e + ofs_sum_ofs_in_node) idx_in_node;
              st ← store_summary st segno shared sum_blk true;
              Ok (0, st)
        else
          st ← store_summary st segno shared sum_blk need_fix;
          Ok (0, st)
    end.

(** * Node ids *)

Definition XATTR_NODE_OFFSET : Z := Z.shiftr (u32 (Z.shiftl (u32 (-1)) OFFSET_BIT_SHIFT)) OFFSET_BIT_SHIFT.

(** The checks of [sanity_check_nid] on the block that was read, before the summary:
    whether they pass. *)
Definition node_blk_ok (st : fsck_st) (nid ftype : Z) (ntype : NODE_TYPE) (ni : node_info) (node_blk : list Z) : res bool :=
  fnid ← get_le32 node_blk ofs_nid;
  fino ← get_le32 node_blk ofs_ino;
  if is_inode_type ntype && negb (fnid =? fino) then Ok false
  else if negb (ni_ino ni =? fino) then Ok false
  else if negb (is_inode_type ntype) && (fnid =? fino) then Ok false
  else if negb (fnid =? nid) then Ok false
  else
    flag ← get_le32 node_blk ofs_flag;
    if is_xattr_type ntype && negb (Z.shiftr flag OFFSET_BIT_SHIFT =? XATTR_NODE_OFFSET) then Ok false
    else if is_inode_type ntype && (ftype =? F2FS_FT_DIR) || is_xattr_type ntype && (ftype =? F2FS_FT_XATTR) then
      b ← f2fs_test_main_bitmap (fk_seg st) (ni_blk_addr ni);
      Ok (b =? 0)
    else Ok true.

(** [None] where the C function returns [-EINVAL]; otherwise the block and what the
    table says of the node. *)
Definition sanity_check_nid (st : fsck_st) (nid ftype : Z) (ntype : NODE_TYPE) : res (fsck_st * option (list Z * node_info)) :=
  vn ← valid_nid_b st nid;
  if negb vn then Ok (assert_msg st true, None)
  else
    ni ← vol_node_info (fk_vol st) nid;
    vb ← valid_blk_b st (ni_blk_addr ni);
    if (ni_ino ni =? 0) || (ni_blk_addr ni =? NEW_ADDR) || negb vb then Ok (assert_msg st true, None)
    else
      node_blk ← vol_read (fk_vol st) (ni_blk_addr ni);
      ok ← node_blk_ok st nid ftype ntype ni node_blk;
      if negb ok then Ok (assert_msg st true, None)
      else if ftype =? F2FS_FT_MAX then Ok (st, Some (node_blk, ni))
      else
        mode ← get_le16 node_blk ofs_i_mode;
        if is_inode_type ntype && negb (__check_inode_mode ftype mode) then Ok (assert_msg st true, None)
        else
          b ← (if negb (ftype =? F2FS_FT_ORPHAN) then Ok 1 else f2fs_test_bit nid (fk_nat_area st));
          st ← (if negb (b =? 0) then nid_reached st nid else Ok (assert_msg st true));
          '(r, st) ← is_valid_ssa_node_blk st nid (ni_blk_addr ni);
          if negb (r =? 0) then Ok (assert_msg st true, None)
          else
            sit ← f2fs_test_sit_bitmap (fk_seg st) (ni_blk_addr ni);
            let st := assert_msg st (sit =? 0) in
            main ← f2fs_test_main_bitmap (fk_seg st) (ni_blk_addr ni);
            let st := if main =? 0 then add_chk st 1 1 0 else st in
            Ok (st, Some (node_blk, ni)).

(** The return value, the state and [*blk_cnt]. *)
Definition fsck_chk_xattr_blk (st : fsck_st) (x_nid blk_cnt : Z) : res (Z * fsck_st * Z) :=
  if x_nid =? 0 then Ok (0, st, blk_cnt)
  else
    '(st, r) ← sanity_check_nid st x_nid F2FS_FT_XATTR TYPE_XATTR;
    match r with
    | None => Ok (- EINVAL, st, blk_cnt)
    | Some (_, ni) =>
        st ← mark_main st (ni_blk_addr ni) CURSEG_COLD_NODE;
        Ok (0, st, u32 (blk_cnt + 1))
    end.

(** * What is passed along *)

(** [struct child_info]: [ci_ext] holds [state], [pgofs], [ei] and [last_blk]. *)
Record child_info := {
  ci_ext : child_ext;
  ci_links : Z;
  ci_files : Z;
  ci_dots : Z;
  ci_dir_level : Z;
  ci_p_ino : Z;
  ci_p_name : list Z;
  ci_pp_ino : Z;
  ci_i_namelen : Z;
}.
Definition ci_pgofs (ci : child_info) : Z := ce_pgofs (ci_ext ci).
Definition ci_with_ext (ci : child_info) (e : child_ext) : child_info := {|
  ci_ext := e; ci_links := ci_links ci; ci_files := ci_files ci; ci_dots := ci_dots ci; ci_dir_level := ci_dir_level ci;
  ci_p_ino := ci_p_ino ci; ci_p_name := ci_p_name ci; ci_pp_ino := ci_pp_ino ci; ci_i_namelen := ci_i_namelen ci |}.
Definition ci_with_dots (ci : child_info) (n : Z) : child_info := {|
  ci_ext := ci_ext ci; ci_links := ci_links ci; ci_files := ci_files ci; ci_dots := n; ci_dir_level := ci_dir_level ci;
  ci_p_ino := ci_p_ino ci; ci_p_name := ci_p_name ci; ci_pp_ino := ci_pp_ino ci; ci_i_namelen := ci_i_namelen ci |}.
Definition ci_with_namelen (ci : child_info) (n : Z) : child_info := {|
  ci_ext := ci_ext ci; ci_links := ci_links ci; ci_files := ci_files ci; ci_dots := ci_dots ci; ci_dir_level := ci_dir_level ci;
  ci_p_ino := ci_p_ino ci; ci_p_name := ci_p_name ci; ci_pp_ino := ci_pp_ino ci; ci_i_namelen := n |}.
(** One more file, which is a directory if [dir]. *)
Definition ci_add_file (ci : child_info) (dir : bool) : child_info := {|
  ci_ext := ci_ext ci; ci_links := if dir then u32 (ci_links ci + 1) else ci_links ci; ci_files := u32 (ci_files ci + 1);
  ci_dots := ci_dots ci; ci_dir_level := ci_dir_level ci; ci_p_ino := ci_p_ino ci; ci_p_name := ci_p_name ci;
  ci_pp_ino := ci_pp_ino ci; ci_i_namelen := ci_i_namelen ci |}.
Definition ci_with_parents (ci : child_info) (p pp : Z) : child_info := {|
  ci_ext := ci_ext ci; ci_links := ci_links ci; ci_files := ci_files ci; ci_dots := ci_dots ci; ci_dir_level := ci_dir_level ci;
  ci_p_ino := p; ci_p_name := ci_p_name ci; ci_pp_ino := pp; ci_i_namelen := ci_i_namelen ci |}.
(** [pgofs += n] *)
Definition ci_skip (ci : child_info) (n : Z) : child_info :=
  ci_with_ext ci (set_pgofs (ci_ext ci) (u32 (ci_pgofs ci + n))).
Definition ci_check_extent (ci : child_info) (blkaddr : Z) (last : bool) : child_info :=
  ci_with_ext ci (check_extent_info (ci_ext ci) blkaddr last).

(** [struct f2fs_compr_blk_cnt] *)
Record f2fs_compr_blk_cnt := { cbc_cnt : Z; cheader_pgofs : Z }.
Definition MAX_COMPRESS_LOG_SIZE : Z := 8.
Definition CHEADER_PGOFS_NONE : Z := u32 (- Z.shiftl 1 MAX_COMPRESS_LOG_SIZE).
Definition no_cbc : f2fs_compr_blk_cnt := {| cbc_cnt := 0; cheader_pgofs := CHEADER_PGOFS_NONE |}.

(** The state with [*blk_cnt], [*cbc] and [*child]. *)
Record walk := { wk_st : fsck_st; wk_cnt : Z; wk_cbc : f2fs_compr_blk_cnt; wk_child : child_info }.
Definition wk_with_st (w : walk) (st : fsck_st) : walk := {| wk_st := st; wk_cnt := wk_cnt w; wk_cbc := wk_cbc w; wk_child := wk_child w |}.
Definition wk_with_child (w : walk) (ci : child_info) : walk := {| wk_st := wk_st w; wk_cnt := wk_cnt w; wk_cbc := wk_cbc w; wk_child := ci |}.
Definition wk_with_cbc (w : walk) (b : f2fs_compr_blk_cnt) : walk := {| wk_st := wk_st w; wk_cnt := wk_cnt w; wk_cbc := b; wk_child := wk_child w |}.
Definition wk_count (w : walk) : walk := {| wk_st := wk_st w; wk_cnt := u32 (wk_cnt w + 1); wk_cbc := wk_cbc w; wk_child := wk_child w |}.

(** * Entries of a directory *)

Definition F2FS_NAME_LEN : Z := 255.
Definition F2FS_CASEFOLD_FL : Z := 0x40000000.
Definition FADVISE_ENCRYPT_BIT : Z := 0x04.
Definition ofs_i_advise : Z := 2.
Definition IS_CASEFOLDED (inode : list Z) : res bool := f ← get_le32 inode ofs_i_flags; Ok (negb (Z.land f F2FS_CASEFOLD_FL =? 0)).
Definition file_is_encrypt (inode : list Z) : res bool := a ← rd inode ofs_i_advise; Ok (negb (Z.land a FADVISE_ENCRYPT_BIT =? 0)).

(** [name] goes on with a terminator. *)
Definition f2fs_dentry_hash (casefolded : bool) (name : list Z) (len : Z) : res Z :=
  match (if negb (len =? 0) && casefolded then k_casefold c (take (Z.to_nat len) name) else None) with
  | Some folded => __f2fs_dentry_hash (folded ++ [0]) (Z.of_nat (length folded))
  | None => __f2fs_dentry_hash name len
  end.

(** The buffer with the entry at [de], and whether it was changed. *)
Definition f2fs_check_hash_code (buf : list Z) (de : Z) (casefolded : bool) (name : list Z) (len : Z) (enc_name : bool) : res (list Z * bool) :=
  if enc_name && casefolded then Ok (buf, false)
  else
    hash_code ← f2fs_dentry_hash casefolded name len;
    h ← get_le32 buf (de + ofs_hash_code);
    if negb (h =? hash_code) then buf ← set_le32 buf (de + ofs_hash_code) hash_code; Ok (buf, true)
    else Ok (buf, false).

Definition set_de_ino (st : fsck_st) (buf : list Z) (de ino want : Z) : res (fsck_st * list Z * bool) :=
  if negb (ino =? want) then buf ← set_le32 buf (de + ofs_de_ino) want; Ok (assert_msg st true, buf, true)
  else Ok (st, buf, false).

(** The state, the buffer and whether it was changed; [fn] is the place of the name. *)
Definition __chk_dots_dentries (st : fsck_st) (casefolded : bool) (buf : list Z) (de : Z) (child : child_info) (name : list Z) (len fn : Z)
    (enc_name : bool) : res (fsck_st * list Z * bool) :=
  n0 ← rd name 0;
  ino ← get_le32 buf (de + ofs_de_ino);
  '(st, buf, f1) ← (if (n0 =? 46) && (len =? 1) then set_de_ino st buf de ino (ci_p_ino child) else Ok (st, buf, false));
  n1 ← rd name 1;
  '(st, buf, f2) ← (if (n0 =? 46) && (n1 =? 46) && (len =? 2) then
                      ino ← get_le32 buf (de + ofs_de_ino);
                      set_de_ino st buf de ino (if ci_p_ino child =? k_root_ino c then k_root_ino c else ci_pp_ino child)
                    else Ok (st, buf, false));
  '(buf, f3) ← f2fs_check_hash_code buf de casefolded name len enc_name;
  e ← rd name len;
  '(st, buf, f4) ← (if negb (e =? 0) then buf ← wr_list buf fn (take (Z.to_nat len) name); Ok (assert_msg st true, buf, true)
                    else Ok (st, buf, false));
  Ok (st, buf, f1 || f2 || f3 || f4).

(** [test_and_clear_bit_le(i, bitmap)] for [n] bits. *)
Fixpoint clear_slots (n : nat) (buf : list Z) (d : f2fs_dentry_ptr) (i : Z) : res (list Z) :=
  match n with
  | O => Ok buf
  | S n =>
      '(_, bm) ← test_and_clear_bit_le i (bitmap_of buf d);
      clear_slots n (take (Z.to_nat (dp_bitmap d)) buf ++ bm) d (i + 1)
  end.

Definition nullify_dentry (buf : list Z) (d : f2fs_dentry_ptr) (i : Z) : res (list Z) :=
  buf ← wr_list buf (dp_dentry d + SIZE_OF_DIR_ENTRY * i) (replicate (Z.to_nat SIZE_OF_DIR_ENTRY) 0);
  buf ← clear_slots 1 buf d i;
  wr_list buf (dp_filename d + F2FS_SLOT_LEN * i) (replicate (Z.to_nat F2FS_SLOT_LEN) 0).

(** What the loop over the entries of one buffer changes; [fixed] and [dentries]. *)
Record scan_st := { sc_st : fsck_st; sc_buf : list Z; sc_child : child_info; sc_fixed : bool; sc_dentries : Z }.
(** An entry that is not good: its bit is cleared if errors are to be fixed. *)
Definition bad_dentry (s : scan_st) (d : f2fs_dentry_ptr) (i : Z) : res scan_st :=
  let st := assert_msg (sc_st s) true in
  if k_fix_on c then
    buf ← clear_slots 1 (sc_buf s) d i;
    Ok {| sc_st := st; sc_buf := buf; sc_child := sc_child s; sc_fixed := true; sc_dentries := sc_dentries s |}
  else Ok {| sc_st := st; sc_buf := sc_buf s; sc_child := sc_child s; sc_fixed := sc_fixed s; sc_dentries := sc_dentries s |}.

(** The entry [.] or [..]. *)
Definition chk_dots (s : scan_st) (casefolded : bool) (d : f2fs_dentry_ptr) (i : Z) (name : list Z) (len : Z) (enc_name : bool) : res scan_st :=
  let de := dp_dentry d + SIZE_OF_DIR_ENTRY * i in
  '(st, buf, f) ← __chk_dots_dentries (sc_st s) casefolded (sc_buf s) de (sc_child s) name len (dp_filename d + F2FS_SLOT_LEN * i) enc_name;
  let child := ci_with_dots (sc_child s) (u8 (ci_dots (sc_child s) + 1)) in
  if 2 <? ci_dots child then
    buf ← nullify_dentry buf d i;
    Ok {| sc_st := assert_msg st true; sc_buf := buf; sc_child := ci_with_dots child (u8 (ci_dots child - 1)); sc_fixed := true;
          sc_dentries := sc_dentries s |}
  else Ok {| sc_st := st; sc_buf := buf; sc_child := child; sc_fixed := sc_fixed s || f; sc_dentries := sc_dentries s |}.

(** [fsck_chk_node_blk(sbi, NULL, ino, ftype, TYPE_INODE, ...)] for an entry: its return
    value; the last argument is [child]. *)
Section Below.
Context (chk_inode : fsck_st -> Z -> Z -> option child_info -> res (Z * fsck_st)).

(** The entry in slot [i], which is in use, and the next slot to look at. *)
Definition chk_dentry (s : scan_st) (casefolded : bool) (d : f2fs_dentry_ptr) (i : Z) (enc_name : bool) : res (scan_st * Z) :=
  let de := dp_dentry d + SIZE_OF_DIR_ENTRY * i in
  ino ← get_le32 (sc_buf s) (de + ofs_de_ino);
  vn ← valid_nid_b (sc_st s) ino;
  '(bad, ftype, name_len) ←
    (if negb vn then Ok (true, 0, 0)
     else
       ftype ← rd (sc_buf s) (de + ofs_file_type);
       if (ftype <=? F2FS_FT_UNKNOWN) || (F2FS_FT_LAST_FILE_TYPE <? ftype) then Ok (true, ftype, 0)
       else
         name_len ← get_le16 (sc_buf s) (de + ofs_name_len);
         let name_len := u16 name_len in
         Ok ((name_len =? 0) || (F2FS_NAME_LEN <? name_len), ftype, name_len));
  if bad : bool then
    s ← bad_dentry s d i; Ok (s, i + 1)
  else
    bs ← rd_bytes (sc_buf s) (dp_filename d + F2FS_SLOT_LEN * i) (Z.to_nat name_len);
    let name := bs ++ [0] in
    let slots := (name_len + F2FS_SLOT_LEN - 1) / F2FS_SLOT_LEN in
    dots ← is_dot_dotdot name name_len;
    if (ftype =? F2FS_FT_DIR) && dots then s ← chk_dots s casefolded d i name name_len enc_name; Ok (s, i + 1)
    else
      '(buf, f) ← f2fs_check_hash_code (sc_buf s) de casefolded name name_len enc_name;
      let s := {| sc_st := sc_st s; sc_buf := buf; sc_child := sc_child s; sc_fixed := sc_fixed s || f; sc_dentries := sc_dentries s |} in
      hash_code ← get_le32 buf (de + ofs_hash_code);
      let child := sc_child s in
      if (dp_max d =? NR_DENTRY_IN_BLOCK) && negb (f2fs_check_dirent_position hash_code (ci_pgofs child) (ci_dir_level child) =? 0) then
        s ← bad_dentry s d i; Ok (s, i + 1)
      else
        let child := ci_with_namelen child name_len in
        '(ret, st) ← chk_inode (sc_st s) ino ftype (Some child);
        if negb (ret =? 0) then
          if k_fix_on c then
            buf ← clear_slots (Z.to_nat slots) buf d i;
            Ok ({| sc_st := st; sc_buf := buf; sc_child := child; sc_fixed := true; sc_dentries := sc_dentries s |}, i + slots)
          else Ok ({| sc_st := st; sc_buf := buf; sc_child := child; sc_fixed := sc_fixed s; sc_dentries := sc_dentries s |}, i + slots)
        else
          Ok ({| sc_st := st; sc_buf := buf; sc_child := ci_add_file child (ftype =? F2FS_FT_DIR); sc_fixed := sc_fixed s;
                 sc_dentries := sc_dentries s + 1 |}, i + slots).

Fixpoint chk_dentries_loop (fuel : nat) (s : scan_st) (casefolded : bool) (d : f2fs_dentry_ptr) (i : Z) (enc_name : bool) : res scan_st :=
  match fuel with
  | O => NoFuel
  | S fuel =>
      if i <? dp_max d then
        b ← test_bit_le i (bitmap_of (sc_buf s) d);
        if b =? 0 then chk_dentries_loop fuel s casefolded d (i + 1) enc_name
        else '(s, i) ← chk_dentry s casefolded d i enc_name; chk_dentries_loop fuel s casefolded d i enc_name
      else Ok s
  end.

(** The return value, the state, the buffer and [child]. *)
Definition __chk_dentries (st : fsck_st) (casefolded : bool) (child : child_info) (buf : list Z) (d : f2fs_dentry_ptr) (enc_name : bool)
    : res (Z * fsck_st * list Z * child_info) :=
  s ← chk_dentries_loop (S (Z.to_nat (dp_max d))) {| sc_st := st; sc_buf := buf; sc_child := child; sc_fixed := false; sc_dentries := 0 |}
        casefolded d 0 enc_name;
  Ok (if sc_fixed s then -1 else sc_dentries s, sc_st s, sc_buf s, sc_child s).

Definition fsck_chk_inline_dentries (st : fsck_st) (node_blk : list Z) (child : child_info) : res (Z * fsck_st * list Z * child_info) :=
  src ← inline_data_addr node_blk;
  d ← make_dentry_ptr (fk_feature st) node_blk src 2;
  casefolded ← IS_CASEFOLDED node_blk;
  enc_name ← file_is_encrypt node_blk;
  __chk_dentries st casefolded child node_blk d enc_name.

Definition fsck_chk_dentry_blk (st : fsck_st) (casefolded : bool) (blk_addr : Z) (child : child_info) (enc_name : bool)
    : res (fsck_st * child_info) :=
  de_blk ← vol_read (fk_vol st) blk_addr;
  d ← make_dentry_ptr 0 [] 0 1;
  '(dentries, st, de_blk, child) ← __chk_dentries st casefolded child de_blk d enc_name;
  st ← (if (dentries <? 0) && k_writable c then st_write st blk_addr de_blk else Ok st);
  Ok (st, child).

(** * Data blocks *)

Definition fsck_chk_data_blk (st : fsck_st) (casefolded : bool) (blk_addr : Z) (child : child_info) (ftype parent_nid idx_in_node ver : Z)
    (enc_name : bool) : res (Z * fsck_st * child_info) :=
  if blk_addr =? NEW_ADDR then Ok (0, add_chk st 1 0 0, child)
  else
    vb ← valid_blk_b st blk_addr;
    if negb vb then Ok (- EINVAL, assert_msg st true, child)
    else
      '(r, st) ← is_valid_ssa_data_blk st blk_addr parent_nid (u16 idx_in_node) ver;
      if negb (r =? 0) then Ok (- EINVAL, assert_msg st true, child)
      else
        sit ← f2fs_test_sit_bitmap (fk_seg st) blk_addr;
        let st := assert_msg st (sit =? 0) in
        main ← f2fs_test_main_bitmap (fk_seg st) blk_addr;
        let st := add_chk (assert_msg st (negb (main =? 0))) 1 0 0 in
        if ftype =? F2FS_FT_DIR then
          st ← mark_main st blk_addr CURSEG_HOT_DATA;
          '(st, child) ← fsck_chk_dentry_blk st casefolded blk_addr child enc_name;
          Ok (0, st, child)
        else
          st ← mark_main st blk_addr CURSEG_WARM_DATA;
          Ok (0, st, child).

Definition F2FS_COMPRESS_RELEASED : Z := 0x80.

(** What the loops over the addresses of an inode and of a direct node read of the
    inode. *)
Record addr_env := {
  ae_casefolded : bool; ae_encrypt : bool; ae_compressed : bool; ae_released : bool; ae_cluster : Z;
}.
(** [1 << i_log_cluster_size] *)
Definition cluster_size_of (inode : list Z) : res Z := log ← rd inode ofs_i_log_cluster_size; shl1 log.
Definition is_compr_rel (inode : list Z) : res bool := i ← rd inode ofs_i_inline; Ok (negb (Z.land i F2FS_COMPRESS_RELEASED =? 0)).

(** [qf_last_blkofs[cur_qtype] = pgofs] *)
Definition note_last_blkofs (st : fsck_st) (pgofs : Z) : res fsck_st :=
  if negb (k_cur_qtype c =? -1) then
    q ← rd (fk_qf st) (k_cur_qtype c);
    l ← wr (fk_qf st) (k_cur_qtype c) {| qf_szchk_type := qf_szchk_type q; qf_last_blkofs := pgofs; qf_maxsize := qf_maxsize q |};
    Ok (with_qf st l)
  else Ok st.

(** One address of node [nid], entry [idx]; whether the entry is to be cleared, and the
    walk. *)
Definition chk_addr (e : addr_env) (w : walk) (ftype nid idx version blkaddr : Z) : res (bool * walk) :=
  let w := wk_with_child w (ci_check_extent (wk_child w) blkaddr false) in
  let pgofs := ci_pgofs (wk_child w) in
  if blkaddr =? NULL_ADDR then Ok (false, w)
  else if blkaddr =? COMPRESS_ADDR then
    if negb (ae_compressed e) || negb (Z.land pgofs (u32 (ae_cluster e - 1)) =? 0) then Ok (k_fix_on c, w)
    else if negb (ae_released e) then
      Ok (false, wk_with_cbc (wk_count (wk_with_st w (add_chk (wk_st w) 1 0 0)))
                   {| cbc_cnt := u32 (cbc_cnt (wk_cbc w) + 1); cheader_pgofs := pgofs |})
    else Ok (false, w)
  else
    let cbc := wk_cbc w in
    let w := if negb (ae_released e) && (blkaddr =? NEW_ADDR) && (u32 (pgofs - cheader_pgofs cbc) <? ae_cluster e)
             then wk_with_cbc w {| cbc_cnt := u32 (cbc_cnt cbc + 1); cheader_pgofs := cheader_pgofs cbc |} else w in
    '(ret, st, child) ← fsck_chk_data_blk (wk_st w) (ae_casefolded e) blkaddr (wk_child w) ftype nid idx version (ae_encrypt e);
    let w := wk_with_child (wk_with_st w st) child in
    if ret =? 0 then
      st ← (if negb (blkaddr =? NEW_ADDR) then note_last_blkofs st pgofs else Ok st);
      Ok (false, wk_count (wk_with_st w st))
    else Ok (k_fix_on c, w).

(** * Direct and indirect nodes *)

Definition ofs_i_pino : Z := 84.

Definition addr_env_of (inode : list Z) (compressed : bool) : res addr_env :=
  casefolded ← IS_CASEFOLDED inode;
  enc ← file_is_encrypt inode;
  rel ← is_compr_rel inode;
  cluster ← cluster_size_of inode;
  Ok {| ae_casefolded := casefolded; ae_encrypt := enc; ae_compressed := compressed; ae_released := rel; ae_cluster := cluster |}.

Fixpoint chk_dnode_loop (n : nat) (e : addr_env) (w : walk) (node_blk : list Z) (ftype nid version idx : Z) (need_fix : bool)
    : res (walk * list Z * bool) :=
  match n with
  | O => Ok (w, node_blk, need_fix)
  | S n =>
      blkaddr ← get_le32 node_blk (4 * idx);
      '(clear, w) ← chk_addr e w ftype nid idx version blkaddr;
      node_blk ← (if clear : bool then set_le32 node_blk (4 * idx) NULL_ADDR else Ok node_blk);
      chk_dnode_loop n e (wk_with_child w (ci_skip (wk_child w) 1)) node_blk ftype nid version (idx + 1) (need_fix || clear)
  end.

Definition fsck_chk_dnode_blk (w : walk) (inode : list Z) (nid ftype : Z) (node_blk : list Z) (ni : node_info) : res walk :=
  pino ← get_le32 inode ofs_i_pino;
  let w := wk_with_child w (ci_with_parents (wk_child w) nid pino) in
  i_flags ← get_le32 inode ofs_i_flags;
  e ← addr_env_of inode (negb (Z.land i_flags F2FS_COMPR_FL =? 0));
  n ← addrs_per_block inode;
  '(w, node_blk, need_fix) ← chk_dnode_loop (Z.to_nat n) e w node_blk ftype nid (ni_version ni) 0 false;
  if need_fix && k_writable c then st ← st_write (wk_st w) (ni_blk_addr ni) node_blk; Ok (wk_with_st w st) else Ok w.

(** The children of an indirect node: [chk_node] checks one, [span] is how many blocks of
    the file a missing one stands for, given the block of the node. *)
Fixpoint chk_nids_loop (chk_node : walk -> Z -> res (Z * walk)) (span : list Z -> res Z) (n : nat) (w : walk) (node_blk : list Z) (i : Z)
    (need_fix : bool) : res (walk * list Z * bool) :=
  match n with
  | O => Ok (w, node_blk, need_fix)
  | S n =>
      nid ← get_le32 node_blk (4 * i);
      if nid =? 0 then
        k ← span node_blk;
        chk_nids_loop chk_node span n (wk_with_child w (ci_skip (wk_child w) k)) node_blk (i + 1) need_fix
      else
        '(ret, w) ← chk_node w nid;
        if ret =? 0 then chk_nids_loop chk_node span n (wk_count w) node_blk (i + 1) need_fix
        else
          node_blk ← (if k_fix_on c then set_le32 node_blk (4 * i) 0 else Ok node_blk);
          k ← span node_blk;
          chk_nids_loop chk_node span n (wk_with_child w (ci_skip (wk_child w) k)) node_blk (i + 1) (need_fix || k_fix_on c)
  end.

(** The loop and writing the block back, of [fsck_chk_idnode_blk] and
    [fsck_chk_didnode_blk]. *)
Definition chk_nids (chk_node : walk -> Z -> res (Z * walk)) (span : list Z -> res Z) (w : walk) (node_blk : list Z) : res walk :=
  '(w, node_blk, need_fix) ← chk_nids_loop chk_node span (Z.to_nat NIDS_PER_BLOCK) w node_blk 0 false;
  if need_fix && k_writable c then
    nid ← get_le32 node_blk ofs_nid;
    ni ← vol_node_info (fk_vol (wk_st w)) nid;
    st ← st_write (wk_st w) (ni_blk_addr ni) node_blk;
    Ok (wk_with_st w st)
  else Ok w.

(** The part of [fsck_chk_node_blk] for nodes that are not inodes: [type] is the segment
    type of the node's block, [body] the function that checks it. *)
Definition chk_node_with (ntype : NODE_TYPE) (type : Z) (body : walk -> list Z -> node_info -> res walk) (ftype : Z) (w : walk) (nid : Z)
    : res (Z * walk) :=
  '(st, r) ← sanity_check_nid (wk_st w) nid ftype ntype;
  match r with
  | None => Ok (- EINVAL, wk_with_st w st)
  | Some (node_blk, ni) =>
      st ← mark_main st (ni_blk_addr ni) type;
      w ← body (wk_with_st w st) node_blk ni;
      Ok (0, w)
  end.

Definition chk_direct_node (inode : list Z) (ftype : Z) (w : walk) (nid : Z) : res (Z * walk) :=
  chk_node_with TYPE_DIRECT_NODE CURSEG_WARM_NODE (fun w node_blk ni => fsck_chk_dnode_blk w inode nid ftype node_blk ni) ftype w nid.

Definition fsck_chk_idnode_blk (w : walk) (inode : list Z) (ftype : Z) (node_blk : list Z) : res walk :=
  chk_nids (chk_direct_node inode ftype) addrs_per_block w node_blk.

Definition chk_indirect_node (inode : list Z) (ftype : Z) (w : walk) (nid : Z) : res (Z * walk) :=
  chk_node_with TYPE_INDIRECT_NODE CURSEG_COLD_NODE (fun w node_blk _ => fsck_chk_idnode_blk w inode ftype node_blk) ftype w nid.

Definition fsck_chk_didnode_blk (w : walk) (inode : list Z) (ftype : Z) (node_blk : list Z) : res walk :=
  chk_nids (chk_indirect_node inode ftype) (fun b => n ← addrs_per_block b; Ok (u32 (n * NIDS_PER_BLOCK))) w node_blk.

Definition chk_double_indirect_node (inode : list Z) (ftype : Z) (w : walk) (nid : Z) : res (Z * walk) :=
  chk_node_with TYPE_DOUBLE_INDIRECT_NODE CURSEG_COLD_NODE (fun w node_blk _ => fsck_chk_didnode_blk w inode ftype node_blk) ftype w nid.

(** * Inodes *)

Definition ofs_i_gc_failures : Z := 72.
Definition ofs_i_xattr_nid : Z := 76.
Definition ofs_i_namelen : Z := 88.
Definition ofs_i_name : Z := 92.
Definition ofs_i_dir_level : Z := 347.
Definition ofs_i_ext : Z := 348.
Definition ofs_i_ext_len : Z := 356.
Definition ofs_i_compr_blocks : Z := 384.
Definition F2FS_INLINE_DATA : Z := 0x02.
Definition F2FS_DATA_EXIST : Z := 0x08.
Definition F2FS_INLINE_DOTS : Z := 0x10.
Definition F2FS_FEATURE_EXTRA_ATTR : Z := 0x0008.
Definition F2FS_FEATURE_PRJQUOTA : Z := 0x0010.
Definition F2FS_FEATURE_INODE_CRTIME : Z := 0x0100.
Definition F2FS_FEATURE_COMPRESSION : Z := 0x2000.
Definition PREEN_MODE_2 : Z := 2.
Definition QF_SZCHK_INLINE : Z := 2.
Definition QF_SZCHK_REGFILE : Z := 3.
Definition F2FS_TOTAL_EXTRA_ATTR_SIZE : Z := 36.
Definition MIN_INLINE_DENTRY_SIZE : Z := 40.
Definition MAX_INLINE_XATTR_SIZE : Z :=
  DEF_ADDRS_PER_INODE - F2FS_TOTAL_EXTRA_ATTR_SIZE / 4 - DEF_INLINE_RESERVED_SIZE - MIN_INLINE_DENTRY_SIZE / 4.

Definition calc_extra_isize (feature : Z) : Z :=
  if has_feature feature F2FS_FEATURE_COMPRESSION then 36
  else if has_feature feature F2FS_FEATURE_INODE_CRTIME then 24
  else if has_feature feature F2FS_FEATURE_INODE_CHKSUM then 12
  else if has_feature feature F2FS_FEATURE_PRJQUOTA then 8
  else 4.

Definition is_qf_ino (sb : f2fs_super_block) (ino : Z) : bool := existsb (fun q => q =? ino) (sb_qf_ino sb).
Definition flag_set (b : list Z) (ofs f : Z) : res bool := i ← rd b ofs; Ok (negb (Z.land i f =? 0)).
(** [flags &= ~f] of a byte, of a [__le32] *)
Definition clear_flag8 (b : list Z) (ofs f : Z) : res (list Z) := i ← rd b ofs; wr b ofs (u8 (Z.land i (Z.lnot f))).
Definition clear_flag32 (b : list Z) (ofs f : Z) : res (list Z) := i ← get_le32 b ofs; set_le32 b ofs (u32 (Z.land i (Z.lnot f))).

(** The walk below an inode, the inode's block and [need_fix]. *)
Record inode_walk := { iw : walk; iw_blk : list Z; iw_fix : bool }.
Definition iw_st (x : inode_walk) : fsck_st := wk_st (iw x).
Definition iw_with_st (x : inode_walk) (st : fsck_st) : inode_walk := {| iw := wk_with_st (iw x) st; iw_blk := iw_blk x; iw_fix := iw_fix x |}.
Definition iw_with_walk (x : inode_walk) (w : walk) : inode_walk := {| iw := w; iw_blk := iw_blk x; iw_fix := iw_fix x |}.
(** [ASSERT_MSG], and if errors are to be fixed a change of the block. *)
Definition iw_repair (x : inode_walk) (bug : bool) (change : list Z -> res (list Z)) : res inode_walk :=
  let w := wk_with_st (iw x) (assert_msg (iw_st x) bug) in
  if k_fix_on c then b ← change (iw_blk x); Ok {| iw := w; iw_blk := b; iw_fix := true |}
  else Ok {| iw := w; iw_blk := iw_blk x; iw_fix := iw_fix x |}.
Definition iw_child (x : inode_walk) (f : child_info -> child_info) : inode_walk :=
  iw_with_walk x (wk_with_child (iw x) (f (wk_child (iw x)))).

(** Without support for compression, and for inline data, the flag is dropped in memory
    in any case. *)
Definition inode_compr_flag (x : inode_walk) : res (inode_walk * bool) :=
  f ← get_le32 (iw_blk x) ofs_i_flags;
  if negb (Z.land f F2FS_COMPR_FL =? 0) then
    inl ← flag_set (iw_blk x) ofs_i_inline F2FS_INLINE_DATA;
    if negb (has_feature (fk_feature (iw_st x)) F2FS_FEATURE_COMPRESSION) || inl then
      b ← clear_flag32 (iw_blk x) ofs_i_flags F2FS_COMPR_FL;
      Ok ({| iw := iw x; iw_blk := b; iw_fix := iw_fix x || k_fix_on c |}, false)
    else Ok (x, true)
  else Ok (x, false).

(** [child] as it is set up for the inode [nid]. *)
Definition new_child (nid : Z) (node_blk : list Z) : res child_info :=
  pino ← get_le32 node_blk ofs_i_pino;
  dir_level ← rd node_blk ofs_i_dir_level;
  Ok {| ci_ext := {| ce_state := 0; ce_pgofs := 0; ce_ei := {| ei_fofs := 0; ei_blk := 0; ei_len := 0 |}; ce_last_blk := 0 |};
        ci_links := 2; ci_files := 0; ci_dots := 0; ci_dir_level := dir_level; ci_p_ino := nid; ci_p_name := replicate 256 0;
        ci_pp_ino := pino; ci_i_namelen := 0 |}.

(** How the check goes on after the inode's block was looked up in [main_area_bitmap]:
    with its contents, at [skip_blkcnt_fix], or not at all. *)
Inductive inode_seen := SeenFirst | SeenMore | SeenLinked.

Definition inode_mark (x : inode_walk) (nid ftype : Z) (ni : node_info) (i_links : Z) : res (inode_walk * inode_seen) :=
  let st := iw_st x in
  b ← f2fs_test_main_bitmap (fk_seg st) (ni_blk_addr ni);
  let st := if b =? 0 then add_chk st 0 0 1 else st in
  if ftype =? F2FS_FT_DIR then
    st ← mark_main st (ni_blk_addr ni) CURSEG_HOT_NODE;
    namelen ← get_le32 (iw_blk x) ofs_i_namelen;
    let child := wk_child (iw x) in
    _ ← defined_ (namelen <=? Z.of_nat (length (ci_p_name child)));
    bs ← rd_bytes (iw_blk x) ofs_i_name (Z.to_nat namelen);
    p ← wr_list (ci_p_name child) 0 bs;
    let child := {| ci_ext := ci_ext child; ci_links := ci_links child; ci_files := ci_files child; ci_dots := ci_dots child;
                    ci_dir_level := ci_dir_level child; ci_p_ino := ci_p_ino child; ci_p_name := p; ci_pp_ino := ci_pp_ino child;
                    ci_i_namelen := ci_i_namelen child |} in
    Ok (iw_with_walk x (wk_with_child (wk_with_st (iw x) st) child), SeenFirst)
  else if b =? 0 then
    st ← mark_main st (ni_blk_addr ni) CURSEG_WARM_NODE;
    st ← (if (1 <? i_links) && negb (ftype =? F2FS_FT_ORPHAN) && negb (is_qf_ino (g_super (sg (fk_seg st))) nid) then
            l ← add_into_hard_link_list (fk_links st) nid i_links;
            Ok (with_links st l (u32 (fk_multi st + 1)))
          else Ok st);
    Ok (iw_with_st x st, SeenFirst)
  else
    match find_and_dec_hard_link_list (fk_links st) nid with
    | Some l => Ok (iw_with_st x (with_links st l (fk_multi st)), SeenLinked)
    | None =>
        x ← iw_repair (iw_with_st x st) true (fun b => set_le32 b ofs_i_links (u32 (i_links + 1)));
        Ok (x, SeenMore)
    end.

Definition inode_xattr (x : inode_walk) : res inode_walk :=
  xnid ← get_le32 (iw_blk x) ofs_i_xattr_nid;
  '(ret, st, cnt) ← fsck_chk_xattr_blk (iw_st x) xnid (wk_cnt (iw x));
  let x := iw_with_walk x {| wk_st := st; wk_cnt := cnt; wk_cbc := wk_cbc (iw x); wk_child := wk_child (iw x) |} in
  if negb (ret =? 0) then iw_repair x false (fun b => set_le32 b ofs_i_xattr_nid 0) else Ok x.

Definition get_extent_info (node_blk : list Z) : res extent_info :=
  fofs ← get_le32 node_blk ofs_i_ext;
  blk ← get_le32 node_blk (ofs_i_ext + 4);
  len ← get_le32 node_blk ofs_i_ext_len;
  Ok {| ei_fofs := fofs; ei_blk := blk; ei_len := len |}.

(** The size of the extra attributes and of inline extended attributes. *)
Definition inode_extra (x : inode_walk) : res inode_walk :=
  has ← f2fs_has_extra_isize (iw_blk x);
  if has : bool then
    let feature := fk_feature (iw_st x) in
    x ← (if has_feature feature F2FS_FEATURE_EXTRA_ATTR then
           isize ← get_le16 (iw_blk x) ofs_i_extra_isize;
           if 4 * DEF_ADDRS_PER_INODE <? isize then iw_repair x true (fun b => set_le16 b ofs_i_extra_isize (calc_extra_isize feature))
           else Ok x
         else iw_repair x true (fun b => clear_flag8 b ofs_i_inline F2FS_EXTRA_ATTR));
    inl ← flag_set (iw_blk x) ofs_i_inline F2FS_INLINE_XATTR;
    if has_feature feature F2FS_FEATURE_FLEXIBLE_INLINE_XATTR && inl then
      sz ← get_le16 (iw_blk x) ofs_i_inline_xattr_size;
      if (sz =? 0) || (MAX_INLINE_XATTR_SIZE <? sz) then
        iw_repair x true (fun b => set_le16 b ofs_i_inline_xattr_size DEFAULT_INLINE_XATTR_ADDRS)
      else Ok x
    else Ok x
  else Ok x.

Definition inode_casefold (x : inode_walk) (ftype : Z) : res inode_walk :=
  cf ← IS_CASEFOLDED (iw_blk x);
  if cf && (negb (ftype =? F2FS_FT_DIR) || negb (has_feature (fk_feature (iw_st x)) F2FS_FEATURE_CASEFOLD)) then
    iw_repair x true (fun b => clear_flag32 b ofs_i_flags F2FS_CASEFOLD_FL)
  else Ok x.

Definition set_szchk (st : fsck_st) (f : qf_check -> qf_check) : res fsck_st :=
  if negb (k_cur_qtype c =? -1) then
    q ← rd (fk_qf st) (k_cur_qtype c);
    l ← wr (fk_qf st) (k_cur_qtype c) (f q);
    Ok (with_qf st l)
  else Ok st.

(** The first address of an inode with inline contents is reserved. *)
Definition inode_inline_reserve (x : inode_walk) (ofs : Z) : res inode_walk :=
  blkaddr ← get_le32 (iw_blk x) (ofs_i_addr + 4 * ofs);
  if negb (blkaddr =? 0) then
    iw_repair x true (fun b => b ← set_le32 b (ofs_i_addr + 4 * ofs) 0; set_le64 b ofs_i_blocks (wk_cnt (iw x)))
  else Ok x.

Definition inline_child (x : inode_walk) : inode_walk :=
  iw_child x (fun ci => ci_with_ext ci {| ce_state := Z.lor (ce_state (ci_ext ci)) FSCK_INLINE_INODE; ce_pgofs := ci_pgofs ci;
                                          ce_ei := ce_ei (ci_ext ci); ce_last_blk := ce_last_blk (ci_ext ci) |}).

Definition inode_inline_data (x : inode_walk) (ofs i_size : Z) : res inode_walk :=
  m ← MAX_INLINE_DATA (fk_feature (iw_st x)) (iw_blk x);
  let inline_size := u32 m in
  st ← set_szchk (iw_st x) (fun q => {| qf_szchk_type := QF_SZCHK_INLINE; qf_last_blkofs := qf_last_blkofs q; qf_maxsize := qf_maxsize q |});
  x ← inode_inline_reserve (iw_with_st x st) ofs;
  x ← (if inline_size <? i_size then iw_repair x true (fun b => set_le64 b ofs_i_size inline_size) else Ok x);
  exist ← flag_set (iw_blk x) ofs_i_inline F2FS_DATA_EXIST;
  x ← (if negb exist then
         m ← MAX_INLINE_DATA (fk_feature (iw_st x)) (iw_blk x);
         src ← inline_data_addr (iw_blk x);
         _ ← defined_ (src + m <=? F2FS_BLKSIZE);
         bs ← rd_bytes (iw_blk x) src (Z.to_nat m);
         if negb (forallb (fun z => z =? 0) bs) then
           iw_repair x true (fun b => i ← rd b ofs_i_inline; wr b ofs_i_inline (u8 (Z.lor i F2FS_DATA_EXIST)))
         else Ok x
       else Ok x);
  Ok (inline_child x).

Definition inode_inline_dentry (x : inode_walk) (ofs : Z) : res inode_walk :=
  x ← inode_inline_reserve x ofs;
  '(ret, st, b, child) ← fsck_chk_inline_dentries (iw_st x) (iw_blk x) (wk_child (iw x));
  Ok (inline_child {| iw := wk_with_child (wk_with_st (iw x) st) child; iw_blk := b; iw_fix := iw_fix x || (ret <? 0) && k_fix_on c |}).

(** [idx < ADDRS_PER_INODE(&node_blk->i)] is evaluated on the block as it is; an index that
    leaves the block is [Oob]. *)
Fixpoint chk_inode_addrs (fuel : nat) (e : addr_env) (x : inode_walk) (ftype nid version ofs idx : Z) : res inode_walk :=
  match fuel with
  | O => NoFuel
  | S fuel =>
      n ← addrs_per_inode (fk_feature (iw_st x)) (iw_blk x);
      if idx <? n then
        let at_ := ofs_i_addr + 4 * (ofs + idx) in
        blkaddr ← get_le32 (iw_blk x) at_;
        '(clear, w) ← chk_addr e (iw x) ftype nid idx version blkaddr;
        b ← (if clear : bool then set_le32 (iw_blk x) at_ NULL_ADDR else Ok (iw_blk x));
        chk_inode_addrs fuel e {| iw := wk_with_child w (ci_skip (wk_child w) 1); iw_blk := b; iw_fix := iw_fix x || clear |}
          ftype nid version ofs (idx + 1)
      else Ok x
  end.

Definition inode_nid_type (idx : Z) : NODE_TYPE :=
  if idx <? 2 then TYPE_DIRECT_NODE else if idx <? 4 then TYPE_INDIRECT_NODE else TYPE_DOUBLE_INDIRECT_NODE.
Definition inode_nid_span (inode : list Z) (t : NODE_TYPE) : res Z :=
  n ← addrs_per_block inode;
  Ok (match t with
      | TYPE_DIRECT_NODE => n
      | TYPE_INDIRECT_NODE => u32 (n * NIDS_PER_BLOCK)
      | _ => u32 (n * NIDS_PER_BLOCK * NIDS_PER_BLOCK)
      end).
(** [fsck_chk_node_blk] for the nodes below an inode. *)
Definition chk_sub_node (inode : list Z) (ftype : Z) (t : NODE_TYPE) (w : walk) (nid : Z) : res (Z * walk) :=
  match t with
  | TYPE_DIRECT_NODE => chk_direct_node inode ftype w nid
  | TYPE_INDIRECT_NODE => chk_indirect_node inode ftype w nid
  | TYPE_DOUBLE_INDIRECT_NODE => chk_double_indirect_node inode ftype w nid
  | _ => Die
  end.

Fixpoint chk_inode_nids (n : nat) (x : inode_walk) (ftype idx : Z) : res inode_walk :=
  match n with
  | O => Ok x
  | S n =>
      let at_ := ofs_i_nid + 4 * idx in
      let t := inode_nid_type idx in
      i_nid ← get_le32 (iw_blk x) at_;
      if i_nid =? 0 then
        k ← inode_nid_span (iw_blk x) t;
        chk_inode_nids n (iw_child x (fun ci => ci_skip ci k)) ftype (idx + 1)
      else
        '(ret, w) ← chk_sub_node (iw_blk x) ftype t (iw x) i_nid;
        if ret =? 0 then chk_inode_nids n (iw_with_walk x (wk_count w)) ftype (idx + 1)
        else
          b ← (if k_fix_on c then set_le32 (iw_blk x) at_ 0 else Ok (iw_blk x));
          k ← inode_nid_span b t;
          chk_inode_nids n (iw_child {| iw := w; iw_blk := b; iw_fix := iw_fix x || k_fix_on c |} (fun ci => ci_skip ci k)) ftype (idx + 1)
  end.

(** The largest file, as [qf_maxsize] has it. *)
Definition max_file_size (feature : Z) (inode : list Z) : res Z :=
  a ← addrs_per_inode feature inode;
  b ← addrs_per_block inode;
  Ok (u64 (u64 (u32 (a + 2 * b + 2 * b * NIDS_PER_BLOCK) + b * NIDS_PER_BLOCK * NIDS_PER_BLOCK) * F2FS_BLKSIZE)).

Definition inode_blocks (x : inode_walk) (nid ftype : Z) (ni : node_info) (ofs : Z) (e : addr_env) : res inode_walk :=
  m ← max_file_size (fk_feature (iw_st x)) (iw_blk x);
  st ← set_szchk (iw_st x) (fun q => {| qf_szchk_type := QF_SZCHK_REGFILE; qf_last_blkofs := qf_last_blkofs q; qf_maxsize := m |});
  x ← chk_inode_addrs (S (length (iw_blk x))) e (iw_with_st x st) ftype nid (ni_version ni) ofs 0;
  chk_inode_nids 5 x ftype 0.

(** The contents of the inode; [cluster] is the cluster size. *)
Definition inode_contents (x : inode_walk) (nid ftype : Z) (ni : node_info) (compressed : bool) (cluster i_size : Z) : res inode_walk :=
  if (ftype =? F2FS_FT_CHRDEV) || (ftype =? F2FS_FT_BLKDEV) || (ftype =? F2FS_FT_FIFO) || (ftype =? F2FS_FT_SOCK) then Ok x
  else
    ei ← get_extent_info (iw_blk x);
    let x := iw_child x (fun ci => ci_with_ext ci {| ce_state := ce_state (ci_ext ci); ce_pgofs := ci_pgofs ci; ce_ei := ei; ce_last_blk := 0 |}) in
    x ← inode_extra x;
    extra ← __get_extra_isize (iw_blk x);
    let ofs := u16 extra in
    x ← inode_casefold x ftype;
    inl ← flag_set (iw_blk x) ofs_i_inline F2FS_INLINE_DATA;
    if inl : bool then inode_inline_data x ofs i_size
    else
      dent ← flag_set (iw_blk x) ofs_i_inline F2FS_INLINE_DENTRY;
      if dent : bool then inode_inline_dentry x ofs
      else
        casefolded ← IS_CASEFOLDED (iw_blk x);
        enc ← file_is_encrypt (iw_blk x);
        rel ← is_compr_rel (iw_blk x);
        inode_blocks x nid ftype ni ofs
          {| ae_casefolded := casefolded; ae_encrypt := enc; ae_compressed := compressed; ae_released := rel; ae_cluster := cluster |}.

(** At the label [check]: the extent and the numbers of blocks. *)
Definition inode_counts (x : inode_walk) (compressed : bool) (i_blocks i_compr_blocks : Z) : res inode_walk :=
  let x := iw_child x (fun ci => ci_check_extent ci 0 true) in
  x ← (if negb (Z.land (ce_state (ci_ext (wk_child (iw x)))) FSCK_UNMATCHED_EXTENT =? 0) then iw_repair x true (fun b => Ok b) else Ok x);
  let cnt := wk_cnt (iw x) in
  x ← (if negb (i_blocks =? cnt) then iw_repair x true (fun b => set_le64 b ofs_i_blocks cnt) else Ok x);
  let n := cbc_cnt (wk_cbc (iw x)) in
  if compressed && negb (i_compr_blocks =? n) then iw_repair x false (fun b => set_le64 b ofs_i_compr_blocks n) else Ok x.

(** At [skip_blkcnt_fix]: the length of the name. *)
Definition inode_namelen (x : inode_walk) (child_d : option child_info) : res inode_walk :=
  namelen ← get_le32 (iw_blk x) ofs_i_namelen;
  match child_d with
  | Some d =>
      if (F2FS_NAME_LEN <? namelen) && (ci_i_namelen d <=? F2FS_NAME_LEN) then
        iw_repair x true (fun b => set_le32 b ofs_i_namelen (ci_i_namelen d))
      else Ok x
  | None => Ok x
  end.

Definition inode_dir (x : inode_walk) (ftype i_links : Z) : res inode_walk :=
  if ftype =? F2FS_FT_DIR then
    let links := ci_links (wk_child (iw x)) in
    x ← (if negb (i_links =? links) then iw_repair x true (fun b => set_le32 b ofs_i_links links) else Ok x);
    dots ← flag_set (iw_blk x) ofs_i_inline F2FS_INLINE_DOTS;
    if (ci_dots (wk_child (iw x)) <? 2) && negb dots then
      iw_repair x true (fun b => i ← rd b ofs_i_inline; wr b ofs_i_inline (u8 (Z.lor i F2FS_INLINE_DOTS)))
    else Ok x
  else Ok x.

Definition inode_gc_failures (x : inode_walk) (ftype : Z) : res inode_walk :=
  n ← get_le16 (iw_blk x) ofs_i_gc_failures;
  if (ftype =? F2FS_FT_REG_FILE) && negb (n =? 0) && (negb (k_preen_mode c =? PREEN_MODE_2) || negb (n =? 1)) then
    iw_repair x false (fun b => set_le16 b ofs_i_gc_failures 0)
  else Ok x.

(** An empty symbolic link with a data block gets the size of one, whether errors are to
    be fixed or not. *)
Definition inode_symlink (x : inode_walk) (ftype i_size i_blocks xnid : Z) : res inode_walk :=
  if (ftype =? F2FS_FT_SYMLINK) && (i_size =? 0) && (i_blocks =? (if xnid =? 0 then 2 else 3)) then
    b ← set_le64 (iw_blk x) ofs_i_size F2FS_BLKSIZE;
    Ok {| iw := iw x; iw_blk := b; iw_fix := true |}
  else Ok x.

Definition inode_orphan (x : inode_walk) (ftype i_links : Z) : res inode_walk :=
  if (ftype =? F2FS_FT_ORPHAN) && negb (i_links =? 0) then iw_repair x true (fun b => set_le32 b ofs_i_links 0) else Ok x.

(** The extent of a changed inode is dropped. *)
Definition inode_drop_extent (x : inode_walk) : res inode_walk :=
  if iw_fix x && k_writable c then
    b ← set_le32 (iw_blk x) ofs_i_ext_len 0; Ok {| iw := iw x; iw_blk := b; iw_fix := true |}
  else Ok x.

Definition inode_checksum (x : inode_walk) : res inode_walk :=
  has ← f2fs_has_extra_isize (iw_blk x);
  if has_feature (fk_feature (iw_st x)) F2FS_FEATURE_INODE_CHKSUM && has then
    provided ← get_le32 (iw_blk x) ofs_i_inode_checksum;
    calculated ← f2fs_inode_chksum (v_seed (fk_vol (iw_st x))) (iw_blk x);
    if negb (provided =? calculated) then iw_repair x true (fun b => set_le32 b ofs_i_inode_checksum calculated) else Ok x
  else Ok x.

Definition inode_finish (x : inode_walk) (ftype : Z) (ni : node_info) (child_d : option child_info) (i_links i_size i_blocks xnid : Z)
    : res inode_walk :=
  x ← inode_namelen x child_d;
  x ← inode_dir x ftype i_links;
  x ← inode_gc_failures x ftype;
  x ← inode_symlink x ftype i_size i_blocks xnid;
  x ← inode_orphan x ftype i_links;
  x ← inode_drop_extent x;
  x ← inode_checksum x;
  if iw_fix x && k_writable c then
    st ← st_write (iw_st x) (ni_blk_addr ni) (iw_blk x); Ok (iw_with_st x st)
  else Ok x.

(** The state and the inode's block as it is in memory afterwards. *)
Definition fsck_chk_inode_blk (st : fsck_st) (nid ftype : Z) (node_blk : list Z) (blk_cnt : Z) (cbc : f2fs_compr_blk_cnt) (ni : node_info)
    (child_d : option child_info) : res (fsck_st * list Z) :=
  i_links ← get_le32 node_blk ofs_i_links;
  i_size ← get_le64 node_blk ofs_i_size;
  i_blocks ← get_le64 node_blk ofs_i_blocks;
  i_compr_blocks ← get_le64 node_blk ofs_i_compr_blocks;
  xnid ← get_le32 node_blk ofs_i_xattr_nid;
  cluster ← cluster_size_of node_blk;
  child ← new_child nid node_blk;
  let x := {| iw := {| wk_st := st; wk_cnt := blk_cnt; wk_cbc := cbc; wk_child := child |}; iw_blk := node_blk; iw_fix := false |} in
  '(x, compressed) ← inode_compr_flag x;
  '(x, seen) ← inode_mark x nid ftype ni i_links;
  match seen with
  | SeenLinked => Ok (iw_st x, iw_blk x)
  | SeenMore =>
      x ← inode_finish x ftype ni child_d i_links i_size i_blocks xnid;
      Ok (iw_st x, iw_blk x)
  | SeenFirst =>
      x ← inode_xattr x;
      x ← inode_contents x nid ftype ni compressed cluster i_size;
      x ← inode_counts x compressed i_blocks i_compr_blocks;
      x ← inode_finish x ftype ni child_d i_links i_size i_blocks xnid;
      Ok (iw_st x, iw_blk x)
  end.

(** [fsck_chk_node_blk] for [TYPE_INODE]; the callers start [*blk_cnt] at 1 and do not look
    at it afterwards. *)
Definition chk_inode_node (st : fsck_st) (nid ftype : Z) (child_d : option child_info) : res (Z * fsck_st) :=
  '(st, r) ← sanity_check_nid st nid ftype TYPE_INODE;
  match r with
  | None => Ok (- EINVAL, st)
  | Some (node_blk, ni) =>
      '(st, node_blk) ← fsck_chk_inode_blk st nid ftype node_blk 1 no_cbc ni child_d;
      q ← (match fk_qctx st with Some q => q ← quota_add_inode_usage q nid node_blk; Ok (Some q) | None => Ok None end);
      Ok (0, with_qctx st q)
  end.
End Below.

(** [depth] bounds the nesting of directories. *)
Fixpoint fsck_chk_node_blk (depth : nat) (st : fsck_st) (nid ftype : Z) (child_d : option child_info) : res (Z * fsck_st) :=
  match depth with
  | O => NoFuel
  | S depth => chk_inode_node (fsck_chk_node_blk depth) st nid ftype child_d
  end.

(** Every level below sets a further bit of [main_area_bitmap]. *)
Definition walk_depth (st : fsck_st) : nat := S (8 * length (sg_main_bitmap (fk_seg st))).
Definition check_tree (st : fsck_st) (nid ftype : Z) : res (Z * fsck_st) := fsck_chk_node_blk (walk_depth st) st nid ftype None.
End Walk.
