(* ===== verification/FsckSound.v ===== *)
(** What the walk of fsck (FsckWalk) does to its books, whatever the volume holds.

    [post m Q] says that [m] does not run out of fuel and that its value, if there is one,
    satisfies [Q]. [grown b p q st st'] relates two states of the walk: marks in
    [main_area_bitmap] are only added, bits of [nat_area_bitmap] only cleared, and unless an
    error was reported the counters grew by the number of new marks; [b], [p] and [q] are
    what is counted already for a block, node or inode that is not marked yet. It is a preorder, every part of the walk
    respects it, and the nesting of directories is bounded by the marks that are left. *)
From Stdlib Require Import ZArith Lia List Bool.
From stdpp Require Import base numbers list gmap.
From S2P Require Import Prelude Codec Bits Crc Node Dir Superblock Mkfs Checkpoint Nat Segment Fsck Quota QuotaMk FileData FileTree FsckWalk.

(** * Results without fuel *)

Definition post {A} (m : res A) (Q : A -> Prop) : Prop :=
  match m with Ok a => Q a | NoFuel => False | _ => True end.
Definition fueled {A} (m : res A) : Prop := post m (fun _ => True).

Lemma post_bind {A B} (m : res A) (f : A -> res B) Q R : post m Q -> (forall a, Q a -> post (f a) R) -> post (m ≫= f) R.
Proof. destruct m; cbn; auto. Qed.
Lemma post_read {A B} (m : res A) (f : A -> res B) R : fueled m -> (forall a, m = Ok a -> post (f a) R) -> post (m ≫= f) R.
Proof. destruct m; cbn; auto. Qed.
Lemma post_weaken {A} (m : res A) (Q R : A -> Prop) : post m Q -> (forall a, Q a -> R a) -> post m R.
Proof. destruct m; cbn; auto. Qed.
Lemma post_Ok {A} (m : res A) Q a : post m Q -> m = Ok a -> Q a.
Proof. by intros H ->. Qed.
Lemma fueled_post {A} (m : res A) Q : post m Q -> fueled m.
Proof. by destruct m. Qed.
Lemma fueled_bind {A B} (m : res A) (f : A -> res B) : fueled m -> (forall a, fueled (f a)) -> fueled (m ≫= f).
Proof. destruct m; cbn; auto. Qed.

Create HintDb fueled.

(** Goes through binds and case distinctions; closes the rest with the lemmas above. *)
Ltac fueled :=
  repeat match goal with
  | |- fueled (Ok _) => exact I
  | |- fueled Die => exact I
  | |- fueled Oob => exact I
  | |- fueled (_ ≫= _) => apply fueled_bind; [|intros]
  | |- fueled (match ?x with _ => _ end) => destruct x
  | |- fueled _ => solve [auto with fueled]
  end.

Lemma rd_fueled {A} (l : list A) i : fueled (rd l i).
Proof. unfold rd. fueled. Qed.
Lemma wr_fueled {A} (l : list A) i x : fueled (wr l i x).
Proof. unfold wr. fueled. Qed.
Lemma assert_fueled b : fueled (assert_ b).
Proof. by destruct b. Qed.
Lemma defined_fueled b : fueled (defined_ b).
Proof. by destruct b. Qed.
#[export] Hint Resolve rd_fueled wr_fueled assert_fueled defined_fueled : fueled.
Lemma rd_bytes_fueled n : forall l i, fueled (rd_bytes l i n).
Proof. induction n; intros; cbn [rd_bytes]; fueled. Qed.
Lemma wr_list_fueled {A} (xs : list A) : forall l i, fueled (wr_list l i xs).
Proof. induction xs; intros; cbn [wr_list]; fueled. Qed.
#[export] Hint Resolve rd_bytes_fueled wr_list_fueled : fueled.
Lemma get_le_fueled n l i : fueled (get_le n l i).
Proof. unfold get_le. fueled. Qed.
Lemma set_le_fueled n l i v : fueled (set_le n l i v).
Proof. apply wr_list_fueled. Qed.
#[export] Hint Resolve get_le_fueled set_le_fueled : fueled.
Lemma disk_read_fueled d a : fueled (disk_read_or_die d a).
Proof. unfold disk_read_or_die. fueled. Qed.
Lemma disk_write_fueled d a b : fueled (disk_write_or_die d a b).
Proof. unfold disk_write_or_die. fueled. Qed.
Lemma test_bit_fueled i l : fueled (f2fs_test_bit i l).
Proof. unfold f2fs_test_bit. fueled. Qed.
Lemma set_bit_fueled i l : fueled (f2fs_set_bit i l).
Proof. unfold f2fs_set_bit. fueled. Qed.
Lemma clear_bit_fueled i l : fueled (f2fs_clear_bit i l).
Proof. unfold f2fs_clear_bit. fueled. Qed.
Lemma test_bit_le_fueled i l : fueled (test_bit_le i l).
Proof. unfold test_bit_le. fueled. Qed.
Lemma clear_bit_le_fueled i l : fueled (test_and_clear_bit_le i l).
Proof. unfold test_and_clear_bit_le. fueled. Qed.
#[export] Hint Resolve disk_read_fueled disk_write_fueled test_bit_fueled set_bit_fueled clear_bit_fueled test_bit_le_fueled
  clear_bit_le_fueled : fueled.

Lemma nat_view_fueled v : fueled (nat_view v).
Proof. unfold nat_view. fueled. Qed.
#[export] Hint Resolve nat_view_fueled : fueled.
Lemma journal_find_fueled n : forall s i nid, fueled (journal_find n s i nid).
Proof. induction n; intros; cbn [journal_find]; unfold nid_in_journal; fueled. Qed.
#[export] Hint Resolve journal_find_fueled : fueled.
Lemma node_info_from_raw_fueled nid raw : fueled (node_info_from_raw_nat nid raw).
Proof. unfold node_info_from_raw_nat. fueled. Qed.
#[export] Hint Resolve node_info_from_raw_fueled : fueled.
Lemma get_nat_entry_fueled st nid : fueled (get_nat_entry st nid).
Proof.
  unfold get_nat_entry, lookup_nat_in_journal, nats_in_cursum, nat_in_journal, current_nat_addr, nat_block_entry. fueled.
Qed.
#[export] Hint Resolve get_nat_entry_fueled : fueled.
Lemma vol_node_info_fueled v nid : fueled (vol_node_info v nid).
Proof. unfold vol_node_info, get_node_info. fueled. Qed.
Lemma vol_read_fueled v a : fueled (vol_read v a).
Proof. unfold vol_read. fueled. Qed.
Lemma vol_write_fueled v a b : fueled (vol_write v a b).
Proof. unfold vol_write. fueled. Qed.
Lemma valid_nid_fueled st nid : fueled (valid_nid_b st nid).
Proof. unfold valid_nid_b, IS_VALID_NID. fueled. Qed.
Lemma valid_blk_fueled st a : fueled (valid_blk_b st a).
Proof. unfold valid_blk_b. fueled. Qed.
Lemma blkoff_fueled g a : fueled (BLKOFF_FROM_MAIN g a).
Proof. unfold BLKOFF_FROM_MAIN. fueled. Qed.
#[export] Hint Resolve vol_node_info_fueled vol_read_fueled vol_write_fueled valid_nid_fueled valid_blk_fueled blkoff_fueled : fueled.
Lemma segno_fueled g a : fueled (GET_SEGNO g a).
Proof. unfold GET_SEGNO. fueled. Qed.
Lemma seg_offset_fueled g a : fueled (OFFSET_IN_SEG g a).
Proof. unfold OFFSET_IN_SEG. fueled. Qed.
Lemma find_cp_segno_fueled n : forall cp ofs i s, fueled (find_cp_segno n cp ofs i s).
Proof. induction n; intros; cbn [find_cp_segno]; fueled. Qed.
#[export] Hint Resolve segno_fueled seg_offset_fueled find_cp_segno_fueled : fueled.
Lemma get_sum_block_fueled st segno : fueled (get_sum_block st segno).
Proof. unfold get_sum_block, IS_SUM_NODE_SEG, IS_SUM_DATA_SEG. fueled. Qed.
Lemma get_seg_entry_fueled st segno : fueled (get_seg_entry st segno).
Proof. unfold get_seg_entry. fueled. Qed.
Lemma test_main_fueled s a : fueled (f2fs_test_main_bitmap s a).
Proof. unfold f2fs_test_main_bitmap. fueled. Qed.
Lemma test_sit_fueled s a : fueled (f2fs_test_sit_bitmap s a).
Proof. unfold f2fs_test_sit_bitmap. fueled. Qed.
Lemma set_main_fueled s a t : fueled (f2fs_set_main_bitmap s a t).
Proof. unfold f2fs_set_main_bitmap, get_seg_entry, set_seg_entry. fueled. Qed.
Lemma store_sum_fueled s sh b : fueled (store_sum_blk s sh b).
Proof. unfold store_sum_blk. fueled. Qed.
#[export] Hint Resolve get_sum_block_fueled get_seg_entry_fueled test_main_fueled test_sit_fueled set_main_fueled store_sum_fueled : fueled.

(** * Growing books *)

Definition main_map (st : fsck_st) : list Z := sg_main_bitmap (fk_seg st).
Definition sit_map (st : fsck_st) : list Z := sg_sit_area (fk_seg st).
Definition nid_map (st : fsck_st) : list Z := nm_nid_bitmap (v_nm (fk_vol st)).
Definition marks (st : fsck_st) : Z := popcount (main_map st).

Record fsck_wf (st : fsck_st) : Prop := {
  wf_main : bytes (main_map st);
  wf_nat : bytes (fk_nat_area st);
  wf_nid : bytes (nid_map st);
  wf_sit : bytes (sit_map st);
}.

Section Growth.
(** Whether every inode that is reached is counted, see [typed_walk] below. *)
Context (T : bool).

Record grown (b p q : Z) (st st' : fsck_st) : Prop := {
  gr_wf : fsck_wf st';
  gr_cfg : sg (fk_seg st') = sg (fk_seg st);
  gr_sit : sit_map st' = sit_map st;
  gr_len : length (main_map st') = length (main_map st);
  gr_nat_len : length (fk_nat_area st') = length (fk_nat_area st);
  gr_main : forall i, 0 <= i -> bit_be (main_map st) i = true -> bit_be (main_map st') i = true;
  gr_nat : forall i, 0 <= i -> bit_be (fk_nat_area st') i = true -> bit_be (fk_nat_area st) i = true;
  gr_nid : forall i, 0 <= i -> bit_be (nid_map st) i = true -> bit_be (nid_map st') i = true;
  gr_reached : forall i, 0 <= i -> bit_be (fk_nat_area st) i = true -> bit_be (fk_nat_area st') i = false ->
    bit_be (nid_map st') i = true;
  gr_bug : fk_bug st = true -> fk_bug st' = true;
  gr_in_sit : T = true -> fk_bug st' = false -> forall i, 0 <= i -> bit_be (main_map st') i = true ->
    bit_be (main_map st) i = true \/ bit_be (sit_map st) i = true;
  gr_blk : T = true -> fk_bug st' = false -> exists r, 0 <= r /\
    u64 (n_chk_blk (fk_counts st')) = u64 (n_chk_blk (fk_counts st) + (marks st' - marks st) + r + b);
  gr_node : T = true -> exists m, 0 <= m <= marks st' - marks st /\
    u32 (n_chk_node (fk_counts st')) = u32 (n_chk_node (fk_counts st) + m + p);
  gr_inode : exists m, 0 <= m <= marks st' - marks st /\
    u32 (n_chk_inode (fk_counts st')) = u32 (n_chk_inode (fk_counts st) + m + q);
}.
Definition grows_by (b p q : Z) (st st' : fsck_st) : Prop := fsck_wf st -> grown b p q st st'.
Abbreviation grows := (grows_by 0 0 0).

Lemma u64_shift a b c : u64 a = u64 b -> u64 (a + c) = u64 (b + c).
Proof. unfold u64. intros H. rewrite <- (Z.add_mod_idemp_l a), H, Z.add_mod_idemp_l by lia. done. Qed.
Lemma u32_shift a b c : u32 a = u32 b -> u32 (a + c) = u32 (b + c).
Proof. unfold u32. intros H. rewrite <- (Z.add_mod_idemp_l a), H, Z.add_mod_idemp_l by lia. done. Qed.

Lemma u64_idem a : u64 (u64 a) = u64 a.
Proof. apply Z.mod_mod; lia. Qed.
Lemma u32_idem a : u32 (u32 a) = u32 a.
Proof. apply Z.mod_mod; lia. Qed.

Lemma grown_refl st : fsck_wf st -> grown 0 0 0 st st.
Proof.
  intros H. constructor; try done; try by auto.
  - intros i _ H1 H2. congruence.
  - intros _ _. exists 0. split; [lia|]. f_equal; lia.
  - intros _. exists 0. split; [lia|]. f_equal; lia.
  - exists 0. split; [lia|]. f_equal; lia.
Qed.

Lemma grown_trans b p q st st1 st2 : grown 0 0 0 st st1 -> grown b p q st1 st2 -> grown b p q st st2.
Proof.
  intros G1 G2.
  assert (fk_bug st2 = false -> fk_bug st1 = false) as Hb.
  { intros H. destruct (fk_bug st1) eqn:E; [|done]. apply (gr_bug _ _ _ _ _ G2) in E. congruence. }
  destruct (gr_inode _ _ _ _ _ G1) as (k1 & Hk1 & F1), (gr_inode _ _ _ _ _ G2) as (k2 & Hk2 & F2).
  constructor.
  - apply G2.
  - by rewrite (gr_cfg _ _ _ _ _ G2), (gr_cfg _ _ _ _ _ G1).
  - by rewrite (gr_sit _ _ _ _ _ G2), (gr_sit _ _ _ _ _ G1).
  - by rewrite (gr_len _ _ _ _ _ G2), (gr_len _ _ _ _ _ G1).
  - by rewrite (gr_nat_len _ _ _ _ _ G2), (gr_nat_len _ _ _ _ _ G1).
  - intros i Hi H. by apply (gr_main _ _ _ _ _ G2), (gr_main _ _ _ _ _ G1).
  - intros i Hi H. by apply (gr_nat _ _ _ _ _ G1), (gr_nat _ _ _ _ _ G2).
  - intros i Hi H. by apply (gr_nid _ _ _ _ _ G2), (gr_nid _ _ _ _ _ G1).
  - intros i Hi H H2. destruct (bit_be (fk_nat_area st1) i) eqn:E; [by apply (gr_reached _ _ _ _ _ G2)|].
    by apply (gr_nid _ _ _ _ _ G2), (gr_reached _ _ _ _ _ G1).
  - intros H. by apply (gr_bug _ _ _ _ _ G2), (gr_bug _ _ _ _ _ G1).
  - intros HT H i Hi H2. destruct (gr_in_sit _ _ _ _ _ G2 HT H i Hi H2) as [H3|H3]; [|right; by rewrite <- (gr_sit _ _ _ _ _ G1)].
    by apply (gr_in_sit _ _ _ _ _ G1 HT (Hb H) i Hi).
  - intros HT H. destruct (gr_blk _ _ _ _ _ G2 HT H) as (r2 & Hr2 & B2), (gr_blk _ _ _ _ _ G1 HT (Hb H)) as (r1 & Hr1 & B1).
    exists (r1 + r2). split; [lia|].
    apply (u64_shift _ _ (marks st2 - marks st1 + r2 + b)) in B1. rewrite B2.
    etransitivity; [|etransitivity; [exact B1|]]; f_equal; lia.
  - intros HT. destruct (gr_node _ _ _ _ _ G1 HT) as (m1 & Hm1 & E1), (gr_node _ _ _ _ _ G2 HT) as (m2 & Hm2 & E2).
    exists (m1 + m2). split; [lia|]. apply (u32_shift _ _ (m2 + p)) in E1. rewrite E2.
    etransitivity; [|etransitivity; [exact E1|]]; f_equal; lia.
  - exists (k1 + k2). split; [lia|]. apply (u32_shift _ _ (k2 + q)) in F1. rewrite F2.
    etransitivity; [|etransitivity; [exact F1|]]; f_equal; lia.
Qed.

Lemma grows_refl st : grows st st.
Proof. exact (grown_refl st). Qed.
Lemma grows_trans b p q st st1 st2 : grows st st1 -> grows_by b p q st1 st2 -> grows_by b p q st st2.
Proof. intros G1 G2 H. eapply grown_trans; [by apply G1|]. by apply G2, G1. Qed.

(** Changes of other parts of the state. *)
Record quiet (st st' : fsck_st) : Prop := {
  q_cfg : sg (fk_seg st') = sg (fk_seg st);
  q_main : main_map st' = main_map st;
  q_sit : sit_map st' = sit_map st;
  q_nid : nid_map st' = nid_map st;
  q_nat : fk_nat_area st' = fk_nat_area st;
  q_counts : fk_counts st' = fk_counts st;
  q_bug : fk_bug st = true -> fk_bug st' = true;
}.
Lemma quiet_refl st : quiet st st.
Proof. by constructor. Qed.
Lemma quiet_trans st st1 st2 : quiet st st1 -> quiet st1 st2 -> quiet st st2.
Proof. intros [] []. constructor; (congruence || auto). Qed.
Lemma quiet_grows st st' : quiet st st' -> grows st st'.
Proof.
  intros [Hc Hm Hs Hn Ha Hk Hb] W.
  constructor; unfold marks; rewrite ?Hc, ?Hm, ?Hs, ?Hn, ?Ha, ?Hk; try done; try by auto.
  - destruct W. constructor; by rewrite ?Hm, ?Hn, ?Ha, ?Hs.
  - intros i _ H1 H2. congruence.
  - intros _ _. exists 0. split; [lia|]. f_equal; lia.
  - intros _. exists 0. split; [lia|]. f_equal; lia.
  - exists 0. split; [lia|]. f_equal; lia.
Qed.

Lemma quiet_assert st b : quiet st (assert_msg st b).
Proof. constructor; cbn; try done. intros ->. apply orb_true_r. Qed.
Lemma quiet_links st l m : quiet st (with_links st l m).
Proof. by constructor. Qed.
Lemma quiet_qctx st q : quiet st (with_qctx st q).
Proof. by constructor. Qed.
Lemma quiet_qf st q : quiet st (with_qf st q).
Proof. by constructor. Qed.
Lemma quiet_write st a b st' : st_write st a b = Ok st' -> quiet st st'.
Proof.
  unfold st_write, vol_write. intros (v & (d & _ & [= <-])%res_bind_Ok & [= <-])%res_bind_Ok. by constructor.
Qed.
Lemma quiet_store_sum st sh b s : store_sum_blk (fk_seg st) sh b = Ok s -> quiet st (with_fseg st s).
Proof.
  unfold store_sum_blk. destruct sh.
  - intros (? & _ & (? & _ & [= <-])%res_bind_Ok)%res_bind_Ok. by constructor.
  - intros [= <-]. by constructor.
Qed.
#[local] Hint Resolve quiet_refl quiet_assert quiet_links quiet_qctx quiet_qf : fueled.

(** * Bits of the maps *)

Lemma bit_in_range (nr : Z) (l : list Z) c : rd l (Z.shiftr nr 3) = Ok c -> 0 <= nr < nbits l.
Proof.
  intros [H1 H2%lookup_lt_Some]%rd_Ok. rewrite shiftr3_div in *. unfold nbits. Z.to_euclidean_division_equations; lia.
Qed.
Lemma set_bit_Ok nr l v l' : bytes l -> f2fs_set_bit nr l = Ok (v, l') ->
  0 <= nr /\ length l' = length l /\ bytes l' /\ (forall i, 0 <= i -> bit_be l' i = (i =? nr) || bit_be l i)
  /\ popcount l' = popcount l + count_le (negb (bit_be l nr)).
Proof.
  intros Hl H. assert (0 <= nr < nbits l) as R.
  { unfold f2fs_set_bit in H. apply res_bind_Ok in H as (ch & H & _). by eapply bit_in_range. }
  destruct (@bm_set_ok _ be_bitmap_laws l nr Hl R) as (v' & m & H' & _ & Hlen & Hb & Hbit). cbn in H', Hbit.
  rewrite H in H'. injection H' as <- <-. split_and!; try done; try lia. by apply (f2fs_set_bit_popcount nr l v l').
Qed.
Lemma clear_bit_Ok nr l v l' : bytes l -> f2fs_clear_bit nr l = Ok (v, l') ->
  0 <= nr /\ length l' = length l /\ bytes l' /\ (forall i, 0 <= i -> bit_be l' i = negb (i =? nr) && bit_be l i).
Proof.
  intros Hl H. assert (0 <= nr < nbits l) as R.
  { unfold f2fs_clear_bit in H. apply res_bind_Ok in H as (ch & H & _). by eapply bit_in_range. }
  destruct (@bm_clear_ok _ be_bitmap_laws l nr Hl R) as (v' & m & H' & _ & Hlen & Hb & Hbit). cbn in H', Hbit.
  rewrite H in H'. injection H' as <- <-. split_and!; try done; lia.
Qed.
Lemma test_bit_Ok nr l v : bytes l -> f2fs_test_bit nr l = Ok v -> 0 <= nr /\ (v =? 0) = negb (bit_be l nr).
Proof.
  intros Hl H. assert (0 <= nr < nbits l) as R.
  { unfold f2fs_test_bit in H. apply res_bind_Ok in H as (ch & H & _). by eapply bit_in_range. }
  destruct (@bm_test_ok _ be_bitmap_laws l nr Hl R) as (v' & H' & Hbit). cbn in H', Hbit.
  rewrite H in H'. injection H' as <-. rewrite <- Hbit, negb_involutive. split; [lia|done].
Qed.

(** * Counting and marking *)

(** The number of a block in the maps of the main area. *)
Definition main_off (st : fsck_st) (a : Z) : Z := a - g_main_blkaddr (sg (fk_seg st)).
Definition marked (st : fsck_st) (a : Z) : bool := bit_be (main_map st) (main_off st a).
Definition in_sit (st : fsck_st) (a : Z) : bool := bit_be (sit_map st) (main_off st a).
(** How many marks marking [a] adds. *)
Definition fresh (st : fsck_st) (a : Z) : Z := count_le (negb (marked st a)).

Lemma grown_add st0 st b p q b' p' q' : grown b p q st0 st -> grown (b + b') (p + p') (q + q') st0 (add_chk st b' p' q').
Proof.
  intros G. destruct (gr_inode _ _ _ _ _ G) as (k & Hk & F).
  assert (marks (add_chk st b' p' q') = marks st) as Em by done.
  constructor; try apply G; rewrite ?Em; cbn [add_chk with_chk with_fseg with_vol fk_counts fk_seg fk_vol v_seg with_seg with_counts
    sg_counts n_chk_blk n_chk_node n_chk_inode fk_bug].
  - destruct (gr_wf _ _ _ _ _ G). by constructor.
  - intros HT B. destruct (gr_blk _ _ _ _ _ G HT B) as (r & Hr & D). exists r. split; [done|].
    apply (u64_shift _ _ b') in D. rewrite u64_idem, D. f_equal. lia.
  - intros HT. destruct (gr_node _ _ _ _ _ G HT) as (m & Hm & E). exists m. split; [done|]. apply (u32_shift _ _ p') in E. rewrite u32_idem, E. f_equal. lia.
  - exists k. split; [done|]. apply (u32_shift _ _ q') in F. rewrite u32_idem, F. f_equal. lia.
Qed.

(** A block that is counted and not marked: reserved, or the header of a cluster. *)
Lemma grown_reserved st0 st b q : 0 <= b -> grown b 0 q st0 st -> grown 0 0 q st0 st.
Proof.
  intros Hb G. constructor; try apply G. intros HT B. destruct (gr_blk _ _ _ _ _ G HT B) as (r & Hr & D).
  exists (r + b). split; [lia|]. rewrite D. f_equal; lia.
Qed.

Lemma grown_mark st0 st a t b p q : grown b p q st0 st -> (T = true -> fk_bug st = false -> b = fresh st a /\ in_sit st a = true) ->
  (T = true -> 0 <= p <= fresh st a) -> 0 <= q <= fresh st a ->
  post (mark_main st a t) (fun st' => grown 0 0 0 st0 st' /\ marks st' = marks st + fresh st a).
Proof.
  intros G Hb Hp Hq. unfold mark_main. apply post_read; [fueled|]. intros [v s] H. cbn [post].
  unfold f2fs_set_main_bitmap in H. apply res_bind_Ok in H as (segno & _ & H).
  apply res_bind_Ok in H as (se & _ & H). apply res_bind_Ok in H as (s1 & Hs1 & H).
  assert (sg s1 = sg (fk_seg st) /\ sg_main_bitmap s1 = main_map st /\ sg_sit_area s1 = sit_map st /\ sg_counts s1 = fk_counts st) as (Ec & Em & Es & En).
  { destruct (_ || _); [apply res_bind_Ok in Hs1 as (ses & _ & Hs1)|]; by injection Hs1 as <-. }
  apply res_bind_Ok in H as (off & Ho & H). unfold BLKOFF_FROM_MAIN in Ho. apply res_bind_Ok in Ho as ([] & _ & Ho). injection Ho as <-.
  apply res_bind_Ok in H as ([v' m] & Hset & H). injection H as <- <-. rewrite Em, Ec in Hset.
  destruct (gr_wf _ _ _ _ _ G) as [W1 W2 W3 W4]. apply (set_bit_Ok _ _ _ _ W1) in Hset as (H0 & Hlen & Hby & Hbit & Hpop).
  set (off := a - g_main_blkaddr (sg (fk_seg st))) in *. change (bit_be (main_map st) off) with (marked st a) in Hpop.
  set (st' := with_fseg st (with_area_maps s1 m (sg_sit_area s1))).
  assert (main_map st' = m) as Mm by done. assert (sit_map st' = sit_map st) as Ms by exact Es.
  assert (fk_counts st' = fk_counts st) as Mn by exact En. assert (sg (fk_seg st') = sg (fk_seg st)) as Mc by exact Ec.
  destruct (gr_inode _ _ _ _ _ G) as (k & Hk & F). split; [|unfold marks, fresh; by rewrite Mm].
  constructor; try apply G; unfold marks; rewrite ?Mm, ?Ms, ?Mn, ?Mc; try apply G.
  - constructor; rewrite ?Mm, ?Ms; done.
  - rewrite Hlen. apply G.
  - intros i Hi Hx1. rewrite Hbit by lia. rewrite (gr_main _ _ _ _ _ G i Hi Hx1). apply orb_true_r.
  - intros HT B i Hi. rewrite Hbit by lia. destruct (Z.eqb_spec i off) as [->|]; cbn.
    + intros _. right. destruct (Hb HT B) as [_ <-]. unfold in_sit. by rewrite (gr_sit _ _ _ _ _ G).
    + by apply (gr_in_sit _ _ _ _ _ G HT).
  - intros HT B. destruct (gr_blk _ _ _ _ _ G HT B) as (r & Hr & D), (Hb HT B) as [-> _]. exists r. split; [done|].
    rewrite D. f_equal. unfold marks, fresh. lia.
  - intros HT. destruct (gr_node _ _ _ _ _ G HT) as (x & Hx & E). specialize (Hp HT). exists (x + p). unfold marks, fresh in *. split; [lia|]. rewrite E. f_equal. lia.
  - exists (k + q). unfold marks, fresh in *. split; [lia|]. rewrite F. f_equal. lia.
Qed.

(** One step through a [post] goal: a read, a result, a case. *)
Ltac pstep :=
  match goal with
  | |- post (Ok _) _ => cbn [post fst snd]
  | |- post Die _ => exact I
  | |- post Oob _ => exact I
  | |- post ((if ?b then _ else _) ≫= _) _ => fail 1
  | |- post (_ ≫= _) _ => apply post_read; [solve [fueled]|intros ? ?]
  | |- post (match ?x with _ => _ end) _ => destruct x eqn:?
  end.
Ltac psteps := repeat pstep.

(** * Summaries and node ids *)

Section Checks.
Context (c : fsck_conf).

Lemma st_write_fueled st a b : fueled (st_write st a b).
Proof. unfold st_write. fueled. Qed.
#[local] Hint Resolve st_write_fueled : fueled.

Lemma store_summary_quiet st segno sh b f : post (store_summary c st segno sh b f) (quiet st).
Proof.
  unfold store_summary. psteps; [| |apply quiet_refl].
  - destruct (st_write _ _ _) eqn:E; try exact I; [|by pose proof (st_write_fueled (with_fseg st a) (GET_SUM_BLKADDR (sg a) segno) b) as F; rewrite E in F].
    cbn. eapply quiet_trans; [by eapply quiet_store_sum|by eapply quiet_write].
  - by eapply quiet_store_sum.
Qed.

Lemma sum_for_quiet st segno b t neg node : post (sum_for c st segno b t neg node) (fun r => quiet st r.1).
Proof. unfold sum_for. psteps; auto with fueled. Qed.

Lemma is_valid_summary_fueled st nid ofs a : fueled (is_valid_summary st nid ofs a).
Proof. unfold is_valid_summary, __get_extra_isize, f2fs_has_extra_isize. fueled. Qed.
#[local] Hint Resolve is_valid_summary_fueled : fueled.

(** Storing the summary as the last step. *)
Lemma store_last st st1 segno sh b f (r : Z) : quiet st st1 ->
  post (st2 ← store_summary c st1 segno sh b f; Ok (r, st2)) (fun x => quiet st x.2).
Proof.
  intros Q. eapply post_bind; [apply store_summary_quiet|]. cbn. intros st2 Q2. by eapply quiet_trans.
Qed.

Lemma ssa_node_quiet st nid a : post (is_valid_ssa_node_blk c st nid a) (fun r => quiet st r.2).
Proof.
  unfold is_valid_ssa_node_blk. pstep; [apply quiet_refl|]. do 3 pstep. destruct a2 as [[[sum sh] t] neg].
  eapply post_bind; [apply sum_for_quiet|]. intros [st1 r] Q1; cbn in Q1. destruct r as [[b f]|]; [|done].
  psteps; apply store_last; eauto using quiet_trans, quiet_assert.
Qed.

Lemma ssa_data_quiet st a p i v : post (is_valid_ssa_data_blk c st a p i v) (fun r => quiet st r.2).
Proof.
  unfold is_valid_ssa_data_blk. pstep; [apply quiet_refl|]. do 3 pstep. destruct a2 as [[[sum sh] t] neg].
  eapply post_bind; [apply sum_for_quiet|]. intros [st1 r] Q1; cbn in Q1. destruct r as [[b f]|]; [|done].
  psteps; apply store_last; eauto using quiet_trans, quiet_assert.
Qed.

Abbreviation Grown := (grown 0 0 0).

Lemma grown_quiet st0 st st' b p q : grown b p q st0 st -> quiet st st' -> grown b p q st0 st'.
Proof.
  intros G [Hc Hm Hs Hn Ha Hk Hb]. destruct (gr_wf _ _ _ _ _ G).
  constructor; unfold marks; rewrite ?Hc, ?Hm, ?Hs, ?Hn, ?Ha, ?Hk; try apply G.
  - constructor; by rewrite ?Hm, ?Hn, ?Ha, ?Hs.
  - intros B. by apply Hb, (gr_bug _ _ _ _ _ G).
  - intros HT B. apply (gr_in_sit _ _ _ _ _ G HT). destruct (fk_bug st) eqn:E; [|done]. rewrite Hb in B; done.
  - intros HT B. apply (gr_blk _ _ _ _ _ G HT). destruct (fk_bug st) eqn:E; [|done]. rewrite Hb in B; done.
Qed.

Lemma nid_reached_spec st nid : fsck_wf st -> post (nid_reached st nid) (fun st' => Grown st st' /\ main_map st' = main_map st).
Proof.
  intros [W1 W2 W3 W4]. unfold nid_reached, nat_view. apply post_read; [fueled|]. intros [v area] Ha. apply post_read; [fueled|].
  intros ns Hns. apply res_bind_Ok in Hns as (hot & _ & [= <-]). apply post_read; [fueled|]. intros [v' bm] Hb. cbn in Hb.
  cbn [post]. split; [|done].
  apply (clear_bit_Ok _ _ _ _ W2) in Ha as (H0 & Hlen & Hby & Hbit).
  apply (set_bit_Ok _ _ _ _ W3) in Hb as (_ & Hlen' & Hby' & Hbit' & _).
  set (st' := with_vol _ _). assert (fk_nat_area st' = area) as Ea by done. assert (nid_map st' = bm) as En by done.
  assert (main_map st' = main_map st) as Em by done. assert (sit_map st' = sit_map st) as Es by done.
  assert (fk_counts st' = fk_counts st) as Ec by done.
  constructor; unfold marks; rewrite ?Ea, ?En, ?Em, ?Es, ?Ec; try done; try by auto.
  - intros i Hi. rewrite Hbit by done. by intros [_ ?]%andb_true_iff.
  - intros i Hi Hx. rewrite Hbit' by done. rewrite Hx. apply orb_true_r.
  - intros i Hi Hx. rewrite Hbit, Hx, andb_true_r, Hbit' by done. intros ->%negb_false_iff. done.
  - intros _ _. exists 0. split; [lia|]. f_equal; lia.
  - intros _. exists 0. split; [lia|]. f_equal; lia.
  - exists 0. split; [lia|]. f_equal; lia.
Qed.

Lemma grown_untyped b p q b' p' st st' : T = false -> grown b p q st st' -> grown b' p' q st st'.
Proof. intros ET G. constructor; try apply G; by rewrite ET. Qed.

(** The node at [a] passed the checks and is counted; its mark is still to come. *)
Definition counted (st0 st : fsck_st) (a : Z) : Prop :=
  grown (fresh st a) (fresh st a) 0 st0 st /\ (T = true -> fk_bug st = false -> in_sit st a = true).

Lemma test_main_spec st a v : fsck_wf st -> f2fs_test_main_bitmap (fk_seg st) a = Ok v -> (v =? 0) = negb (marked st a).
Proof.
  intros [W _ _ _]. unfold f2fs_test_main_bitmap, BLKOFF_FROM_MAIN. intros (off & (? & _ & [= <-])%res_bind_Ok & H)%res_bind_Ok.
  by apply (test_bit_Ok _ _ _ W) in H as [_ ?].
Qed.

Lemma test_sit_spec st a v : fsck_wf st -> f2fs_test_sit_bitmap (fk_seg st) a = Ok v -> (v =? 0) = negb (in_sit st a).
Proof.
  intros [_ _ _ W]. unfold f2fs_test_sit_bitmap, BLKOFF_FROM_MAIN. intros (off & (? & _ & [= <-])%res_bind_Ok & H)%res_bind_Ok.
  by apply (test_bit_Ok _ _ _ W) in H as [_ ?].
Qed.

Lemma node_blk_ok_fueled st nid ft nt ni b : fueled (node_blk_ok st nid ft nt ni b).
Proof. unfold node_blk_ok. fueled. Qed.
Lemma nid_reached_fueled st nid : fueled (nid_reached st nid).
Proof. unfold nid_reached. fueled. Qed.
#[local] Hint Resolve node_blk_ok_fueled nid_reached_fueled : fueled.

(** A directory is not marked yet. *)
Lemma node_blk_ok_dir st nid ni b : fsck_wf st -> node_blk_ok st nid F2FS_FT_DIR TYPE_INODE ni b = Ok true -> marked st (ni_blk_addr ni) = false.
Proof.
  intros W. unfold node_blk_ok. intros (fnid & _ & (fino & _ & H)%res_bind_Ok)%res_bind_Ok. revert H.
  cbn [is_inode_type is_xattr_type negb andb orb]. do 4 (case_match; [done|]). intros (fl & _ & H5)%res_bind_Ok. revert H5. cbn.
  intros (v & Hv%test_main_spec & [= H5])%res_bind_Ok; [|done]. rewrite H5 in Hv. by destruct (marked _ _).
Qed.

Lemma quiet_counted_maps st st' a : quiet st st' -> marked st' a = marked st a /\ in_sit st' a = in_sit st a.
Proof. intros Q. unfold marked, in_sit, main_off. by rewrite (q_main _ _ Q), (q_sit _ _ Q), (q_cfg _ _ Q). Qed.

Lemma sanity_spec st nid ft nt : fsck_wf st -> (T = true -> ft <> F2FS_FT_MAX) ->
  post (sanity_check_nid c st nid ft nt) (fun x =>
    match x.2 with
    | None => Grown st x.1
    | Some (_, ni) => counted st x.1 (ni_blk_addr ni) /\ (nt = TYPE_INODE -> ft = F2FS_FT_DIR -> marked x.1 (ni_blk_addr ni) = false)
    end).
Proof.
  intros W Hft. assert (Grown st (assert_msg st true)) as Gbug by (apply quiet_grows; [apply quiet_assert|done]).
  unfold sanity_check_nid. pstep. pstep; [done|]. do 2 pstep. pstep; [done|]. do 2 pstep. pstep; [done|].
  pstep.
  { apply Z.eqb_eq in Heqb2 as ->. assert (T = false) as ET by (destruct T; [by exfalso; apply Hft|done]).
    split; [|done]. split; [|by rewrite ET]. by apply (grown_untyped 0 0), grown_refl. }
  pstep. pstep; [done|].
  apply post_read; [fueled|]. intros b _.
  eapply (post_bind _ _ (fun st1 => Grown st st1 /\ main_map st1 = main_map st)).
  { destruct (negb (b =? 0)); [by apply nid_reached_spec|done]. }
  intros st1 [G1 M1]. eapply post_bind; [apply ssa_node_quiet|]. intros [r st2] Q2. cbn in Q2.
  pose proof (grown_quiet _ _ _ _ _ _ G1 Q2) as G2. pstep; [apply (grown_quiet _ _ _ _ _ _ G2), quiet_assert|].
  apply post_read; [fueled|]. intros s Hs%test_sit_spec; [|apply G2]. apply post_read; [fueled|]. intros m Hm.
  apply (test_main_spec st2) in Hm; [|apply (gr_wf _ _ _ _ _ G2)].
  cbn [post fst snd]. set (st3 := assert_msg st2 (s =? 0)) in *. set (ad := ni_blk_addr a0) in *.
  assert (quiet st2 st3) as Q3 by apply quiet_assert. pose proof (grown_quiet _ _ _ _ _ _ G2 Q3) as G3.
  assert (marked (if m =? 0 then add_chk st3 1 1 0 else st3) ad = marked st3 ad) as Em by (by destruct (m =? 0)).
  pose proof (proj1 (quiet_counted_maps _ _ ad Q3)) as E3. rewrite <- E3 in Hm.
  pose proof (proj2 (quiet_counted_maps _ _ ad Q3)) as S3. rewrite <- S3 in Hs.
  split.
  - unfold counted, fresh. rewrite Em. destruct (marked st3 ad) eqn:E; rewrite Hm; cbn [negb count_le].
    + split; [done|]. intros _. cbn. rewrite Hs, orb_false_iff. by intros [?%negb_false_iff _].
    + split; [apply (grown_add st st3 0 0 0 1 1 0 G3)|]. intros _. cbn. rewrite Hs, orb_false_iff. by intros [?%negb_false_iff _].
  - intros -> ->. rewrite Em, E3, (proj1 (quiet_counted_maps _ _ ad Q2)).
    unfold marked, main_off. rewrite M1, (gr_cfg _ _ _ _ _ G1). eapply node_blk_ok_dir; [done|]. by destruct a3.
Qed.

Lemma fresh_range st a : 0 <= fresh st a <= 1.
Proof. unfold fresh. destruct (marked st a); cbn; lia. Qed.
Lemma mark_counted st0 st a t : counted st0 st a -> post (mark_main st a t) (Grown st0).
Proof. intros [G S]. pose proof (fresh_range st a).
  eapply post_weaken; [apply (grown_mark _ _ _ t _ _ _ G); [by auto|lia..]|]. by intros st' [G' _].
Qed.

Lemma xattr_spec st x cnt : fsck_wf st -> post (fsck_chk_xattr_blk c st x cnt) (fun r => Grown st r.1.2).
Proof.
  intros W. unfold fsck_chk_xattr_blk. pstep; [by apply grown_refl|].
  eapply post_bind; [by apply sanity_spec|]. intros [st1 [[b ni]|]] G; [|exact G]. destruct G as [G _].
  eapply post_bind; [by apply mark_counted|]. by intros st2 G2.
Qed.

(** * Marks that are left *)

Definition room (st : fsck_st) : Z := nbits (main_map st) - marks st.
Lemma grown_marks b p q st st' : grown b p q st st' -> marks st <= marks st'.
Proof. intros G. destruct (gr_inode _ _ _ _ _ G) as (m & Hm & _). lia. Qed.
Lemma grown_room b p q st st' : grown b p q st st' -> room st' <= room st.
Proof. intros G. pose proof (grown_marks _ _ _ _ _ G). unfold room, nbits. rewrite (gr_len _ _ _ _ _ G). lia. Qed.

Definition ready (n : Z) (st : fsck_st) : Prop := fsck_wf st /\ room st <= n.
Lemma grown_ready n b p q st st' : grown b p q st st' -> ready n st -> ready n st'.
Proof. intros G [_ R]. split; [apply G|]. apply grown_room in G. lia. Qed.

(** A step after [st]: what holds from [st1] on holds from [st] on. *)
Lemma post_after {A} (m : res A) (f : A -> fsck_st) st st1 : Grown st st1 -> post m (fun a => Grown st1 (f a)) -> post m (fun a => Grown st (f a)).
Proof. intros G H. eapply post_weaken; [exact H|]. intros a. by apply grown_trans. Qed.

(** * Below an inode *)

Section Below.
Context (n : Z) (chk_inode : fsck_st -> Z -> Z -> option child_info -> res (Z * fsck_st)).
Hypothesis chk_inode_spec : forall st nid ft ch, ready n st -> post (chk_inode st nid ft ch) (fun r => Grown st r.2).

Lemma str2hashbuf_loop_fueled k : forall msg i pad val num out, fueled (str2hashbuf_loop k msg i pad val num out).
Proof. induction k; intros; cbn [str2hashbuf_loop]; fueled. Qed.
#[local] Hint Resolve str2hashbuf_loop_fueled : fueled.
Lemma hash_loop_fueled fuel : forall p len buf, (Z.to_nat len < fuel)%nat -> fueled (dentry_hash_loop fuel p len buf).
Proof.
  induction fuel as [|fuel IH]; intros p len buf H; [lia|]. cbn [dentry_hash_loop].
  apply fueled_bind; [unfold str2hashbuf; fueled|]. intros inp. apply fueled_bind; [unfold TEA_transform; fueled|]. intros buf'.
  destruct (Z.leb_spec len 16); [done|]. apply IH. lia.
Qed.
Lemma dentry_hash_fueled name len : fueled (__f2fs_dentry_hash name len).
Proof.
  unfold __f2fs_dentry_hash, special_dentry. apply fueled_bind; [fueled|]. intros []; [done|].
  apply fueled_bind; [apply hash_loop_fueled; lia|done].
Qed.
#[local] Hint Resolve dentry_hash_fueled : fueled.
Lemma check_hash_fueled buf de cf name len enc : fueled (f2fs_check_hash_code c buf de cf name len enc).
Proof. unfold f2fs_check_hash_code, f2fs_dentry_hash. fueled. Qed.
Lemma clear_slots_fueled k : forall buf d i, fueled (clear_slots k buf d i).
Proof. induction k; intros; cbn [clear_slots]; fueled. Qed.
#[local] Hint Resolve check_hash_fueled clear_slots_fueled : fueled.
Lemma dot_dotdot_fueled name len : fueled (is_dot_dotdot name len).
Proof. unfold is_dot_dotdot. fueled. Qed.
#[local] Hint Resolve dot_dotdot_fueled : fueled.
Lemma nullify_fueled buf d i : fueled (nullify_dentry buf d i).
Proof. unfold nullify_dentry. fueled. Qed.
#[local] Hint Resolve nullify_fueled : fueled.

Lemma set_de_ino_quiet st buf de ino want : post (set_de_ino st buf de ino want) (fun r => quiet st r.1.1).
Proof. unfold set_de_ino. psteps; auto with fueled. Qed.

Lemma dots_quiet st cf buf de ch name len fn enc : post (__chk_dots_dentries c st cf buf de ch name len fn enc) (fun r => quiet st r.1.1).
Proof.
  unfold __chk_dots_dentries. do 2 pstep.
  eapply (post_bind _ _ (fun r => quiet st r.1.1)); [destruct (_ && _); [apply set_de_ino_quiet|apply quiet_refl]|].
  intros [[st1 buf1] f1] Q1; cbn in Q1. pstep.
  eapply (post_bind _ _ (fun r => quiet st r.1.1)).
  { destruct (_ && _); [|done]. pstep. eapply post_weaken; [apply set_de_ino_quiet|]. intros x Q. by eapply quiet_trans. }
  intros [[st2 buf2] f2] Q2; cbn in Q2. apply post_read; [fueled|]. intros [buf3 f3] _. pstep.
  eapply (post_bind _ _ (fun r => quiet st r.1.1)).
  { psteps; [|done]. eapply quiet_trans; [exact Q2|apply quiet_assert]. }
  by intros [[st4 buf4] f4] Q4.
Qed.

Lemma bad_dentry_quiet s d i : post (bad_dentry c s d i) (fun s' => quiet (sc_st s) (sc_st s')).
Proof. unfold bad_dentry. psteps; apply quiet_assert. Qed.
Lemma chk_dots_quiet s cf d i name len enc : post (chk_dots c s cf d i name len enc) (fun s' => quiet (sc_st s) (sc_st s')).
Proof.
  unfold chk_dots. eapply post_bind; [apply dots_quiet|]. intros [[st buf] f] Q; cbn in Q. psteps; [|done].
  eapply quiet_trans; [exact Q|apply quiet_assert].
Qed.

(** The entry is passed over, by one slot or more. *)
Lemma chk_dentry_spec s cf d i enc : ready n (sc_st s) ->
  post (chk_dentry c chk_inode s cf d i enc) (fun r => Grown (sc_st s) (sc_st r.1) /\ i < r.2).
Proof.
  intros R. assert (forall s' i', quiet (sc_st s) (sc_st s') -> i < i' -> Grown (sc_st s) (sc_st s') /\ i < i') as Hq.
  { intros s' i' Q Hi. split; [by apply quiet_grows; [|apply R]|done]. }
  unfold chk_dentry. do 2 pstep. eapply (post_bind _ _ (fun r => r.1.1 = false -> 0 < r.2)).
  { psteps; try done. pose proof (u16_range a2) as [? _]. intros [Hz _]%orb_false_iff. lia. }
  intros [[bad ftype] name_len] Hlen; cbn [fst snd] in Hlen. destruct bad.
  { eapply post_bind; [apply bad_dentry_quiet|]. intros s' Q. cbn [post fst snd]. apply Hq; [done|lia]. }
  specialize (Hlen eq_refl). do 2 pstep. pstep.
  { eapply post_bind; [apply chk_dots_quiet|]. intros s' Q. cbn [post fst snd]. apply Hq; [done|lia]. }
  apply post_read; [fueled|]. intros [buf f] _. pstep. cbn [sc_child sc_st sc_fixed sc_dentries sc_buf]. pstep.
  { eapply post_bind; [apply bad_dentry_quiet|]. intros s' Q. cbn [post fst snd]. apply Hq; [done|lia]. }
  eapply post_bind; [by apply chk_inode_spec|]. intros [ret st] G; cbn [snd] in G.
  assert (0 < (name_len + F2FS_SLOT_LEN - 1) / F2FS_SLOT_LEN) by (unfold F2FS_SLOT_LEN; Z.to_euclidean_division_equations; lia).
  psteps; split; done || lia.
Qed.

Lemma chk_dentries_loop_spec fuel : forall s cf d i enc, ready n (sc_st s) -> (Z.to_nat (dp_max d - i) < fuel)%nat ->
  post (chk_dentries_loop c chk_inode fuel s cf d i enc) (fun s' => Grown (sc_st s) (sc_st s')).
Proof.
  induction fuel as [|fuel IH]; intros s cf d i enc R Hf; [lia|]. cbn [chk_dentries_loop].
  destruct (Z.ltb_spec i (dp_max d)); [|by apply grown_refl, R]. pstep. pstep; [apply IH; [done|lia]|].
  eapply post_bind; [by apply chk_dentry_spec|]. intros [s' i'] [G Hi]; cbn [fst snd] in *.
  eapply post_after; [exact G|]. apply IH; [by eapply grown_ready|lia].
Qed.

Lemma chk_dentries_spec st cf ch buf d enc : ready n st ->
  post (__chk_dentries c chk_inode st cf ch buf d enc) (fun r => Grown st r.1.1.2).
Proof.
  intros R. unfold __chk_dentries. eapply post_bind; [apply chk_dentries_loop_spec; [exact R|lia]|]. by intros s G.
Qed.

Lemma inline_dentries_spec st b ch : ready n st -> post (fsck_chk_inline_dentries c chk_inode st b ch) (fun r => Grown st r.1.1.2).
Proof.
  intros R. unfold fsck_chk_inline_dentries, inline_data_addr, __get_extra_isize, f2fs_has_extra_isize, make_dentry_ptr, MAX_INLINE_DATA,
    get_inline_xattr_addrs, IS_CASEFOLDED, file_is_encrypt, __get_extra_isize, f2fs_has_extra_isize.
  do 4 (apply post_read; [fueled|intros]). by apply chk_dentries_spec.
Qed.

Lemma write_spec st a b : fsck_wf st -> post (st_write st a b) (Grown st).
Proof.
  intros W. destruct (st_write st a b) eqn:E; try exact I; [|by pose proof (st_write_fueled st a b) as F; rewrite E in F].
  apply quiet_grows; [by eapply quiet_write|done].
Qed.

Lemma dentry_blk_spec st cf a ch enc : ready n st -> post (fsck_chk_dentry_blk c chk_inode st cf a ch enc) (fun r => Grown st r.1).
Proof.
  intros R. unfold fsck_chk_dentry_blk. pstep. apply post_read; [exact I|intros d _].
  eapply post_bind; [by apply chk_dentries_spec|]. intros [[[k st1] b] ch1] G; cbn in G.
  eapply (post_bind _ _ (Grown st)); [|by intros st2 G2].
  destruct (_ && _); [|done]. eapply post_after with (f := id); [exact G|]. apply write_spec, G.
Qed.

Lemma data_blk_spec st cf a ch ft p i v enc : ready n st ->
  post (fsck_chk_data_blk c chk_inode st cf a ch ft p i v enc) (fun r => Grown st r.1.2).
Proof.
  intros R. pose proof R as [W _]. unfold fsck_chk_data_blk. pstep.
  { eapply (grown_reserved _ _ 1); [lia|]. apply (grown_add st st 0 0 0 1 0 0), grown_refl, W. }
  pstep. pstep; [by apply quiet_grows; [apply quiet_assert|]|].
  eapply post_bind; [apply ssa_data_quiet|]. intros [r st1] Q; cbn in Q.
  pose proof (quiet_grows _ _ Q W) as G1. pstep; [by apply (grown_quiet _ _ _ _ _ _ G1), quiet_assert|].
  apply post_read; [fueled|]. intros s Hs%test_sit_spec; [|apply G1]. apply post_read; [fueled|].
  intros m Hm. apply (test_main_spec st1) in Hm; [|apply G1].
  set (st2 := assert_msg (assert_msg st1 (s =? 0)) (negb (m =? 0))).
  assert (quiet st1 st2) as Q2 by (eapply quiet_trans; apply quiet_assert).
  pose proof (grown_add _ _ _ _ _ 1 0 0 (grown_quiet _ _ _ _ _ _ G1 Q2)) as G2. cbn in G2.
  assert (forall t, post (mark_main (add_chk st2 1 0 0) a t) (Grown st)) as Hmark.
  { intros t. eapply post_weaken; [apply (grown_mark _ _ _ t _ _ _ G2)|by intros st' [G' _]].
    - intros _ B. change (fk_bug (add_chk st2 1 0 0)) with (negb (m =? 0) || ((s =? 0) || fk_bug st1)) in B.
      rewrite Hs, Hm, negb_involutive in B. apply orb_false_iff in B as [B1 [B2%negb_false_iff _]%orb_false_iff].
      change (fresh (add_chk st2 1 0 0) a) with (fresh st1 a). unfold fresh. by rewrite B1.
    - intros _. pose proof (fresh_range (add_chk st2 1 0 0) a). lia.
    - pose proof (fresh_range (add_chk st2 1 0 0) a). lia. }
  fold st2. pstep.
  - eapply post_bind; [apply Hmark|]. intros st3 G3. eapply post_bind; [apply dentry_blk_spec; by eapply grown_ready|].
    intros [st4 ch4] G4; cbn in *. by eapply grown_trans.
  - eapply post_bind; [apply Hmark|]. by intros st3 G3.
Qed.

(** * Nodes *)

Lemma note_blkofs_spec st p : fsck_wf st -> post (note_last_blkofs c st p) (Grown st).
Proof.
  intros W. unfold note_last_blkofs. psteps; [|by apply grown_refl]. apply quiet_grows; [apply quiet_qf|done].
Qed.

Lemma chk_addr_spec e w ft nid idx v a : ready n (wk_st w) ->
  post (chk_addr c chk_inode e w ft nid idx v a) (fun r => Grown (wk_st w) (wk_st r.2)).
Proof.
  intros R. pose proof R as [W _]. unfold chk_addr. pstep; [by apply grown_refl|]. pstep.
  - psteps; try by apply grown_refl.
    eapply (grown_reserved _ _ 1); [lia|]. by apply (grown_add _ (wk_st w) 0 0 0 1 0 0), grown_refl.
  - set (w1 := if _ && _ then _ else _). assert (wk_st w1 = wk_st w) as E by (subst w1; by case_match).
    eapply post_bind; [apply data_blk_spec; by rewrite E|]. intros [[ret st] ch] G; cbn in G. rewrite E in G.
    pstep; [|done]. eapply (post_bind _ _ (Grown (wk_st w))); [|by intros].
    pstep; [|done]. eapply post_after with (f := id); [exact G|]. apply note_blkofs_spec, G.
Qed.

Lemma dnode_loop_spec k : forall e w b ft nid v idx f, ready n (wk_st w) ->
  post (chk_dnode_loop c chk_inode k e w b ft nid v idx f) (fun r => Grown (wk_st w) (wk_st r.1.1)).
Proof.
  induction k as [|k IH]; intros e w b ft nid v idx f R; cbn [chk_dnode_loop]; [by apply grown_refl, R|].
  pstep. eapply post_bind; [by apply chk_addr_spec|]. intros [cl w1] G; cbn in G. apply post_read; [fueled|]. intros b1 _.
  eapply (post_after _ (fun r => wk_st r.1.1)); [exact G|]. apply (IH e (wk_with_child w1 _)). by eapply grown_ready.
Qed.

Lemma addr_env_fueled inode z : fueled (addr_env_of inode z).
Proof. unfold addr_env_of, IS_CASEFOLDED, file_is_encrypt, is_compr_rel, cluster_size_of, shl1. fueled. Qed.
Lemma addrs_per_block_fueled inode : fueled (addrs_per_block inode).
Proof. unfold addrs_per_block, is_compr_reg, shl1. fueled. Qed.
#[local] Hint Resolve addr_env_fueled addrs_per_block_fueled : fueled.

(** Writing a node back at the end. *)
Lemma write_back st w a b : Grown st (wk_st w) -> post (st' ← st_write (wk_st w) a b; Ok (wk_with_st w st')) (fun w' => Grown st (wk_st w')).
Proof.
  intros G. eapply post_bind; [apply write_spec, G|]. intros st' G'. by eapply grown_trans.
Qed.

Lemma dnode_blk_spec w inode nid ft b ni : ready n (wk_st w) ->
  post (fsck_chk_dnode_blk c chk_inode w inode nid ft b ni) (fun w' => Grown (wk_st w) (wk_st w')).
Proof.
  intros R. unfold fsck_chk_dnode_blk. do 4 pstep. eapply post_bind; [by apply dnode_loop_spec|].
  intros [[w1 b1] f1] G; cbn in G. pstep; [by apply write_back|done].
Qed.

Section Nids.
Context (chk_node : walk -> Z -> res (Z * walk)) (span : list Z -> res Z).
Hypothesis chk_node_spec : forall w nid, ready n (wk_st w) -> post (chk_node w nid) (fun r => Grown (wk_st w) (wk_st r.2)).
Hypothesis span_fueled : forall b, fueled (span b).
#[local] Hint Resolve span_fueled : fueled.

Lemma nids_loop_spec k : forall w b i f, ready n (wk_st w) ->
  post (chk_nids_loop c chk_node span k w b i f) (fun r => Grown (wk_st w) (wk_st r.1.1)).
Proof.
  induction k as [|k IH]; intros w b i f R; cbn [chk_nids_loop]; [by apply grown_refl, R|].
  pstep. pstep; [pstep; by apply (IH (wk_with_child w _))|].
  eapply post_bind; [by apply chk_node_spec|]. intros [ret w1] G; cbn in G. pose proof (grown_ready _ _ _ _ _ _ G R) as R1.
  pstep; [eapply (post_after _ (fun r => wk_st r.1.1)); [exact G|]; by apply (IH (wk_count w1))|].
  do 2 (apply post_read; [fueled|]; intros ? _). eapply (post_after _ (fun r => wk_st r.1.1)); [exact G|]. by apply (IH (wk_with_child w1 _)).
Qed.

Lemma nids_spec w b : ready n (wk_st w) -> post (chk_nids c chk_node span w b) (fun w' => Grown (wk_st w) (wk_st w')).
Proof.
  intros R. unfold chk_nids. eapply post_bind; [by apply nids_loop_spec|]. intros [[w1 b1] f1] G; cbn in G.
  pstep; [|done]. do 2 pstep. by apply write_back.
Qed.
End Nids.

Lemma node_with_spec nt type body ft w nid : ready n (wk_st w) -> (T = true -> ft <> F2FS_FT_MAX) ->
  (forall w' b ni, ready n (wk_st w') -> post (body w' b ni) (fun w'' => Grown (wk_st w') (wk_st w''))) ->
  post (chk_node_with c nt type body ft w nid) (fun r => Grown (wk_st w) (wk_st r.2)).
Proof.
  intros R Hft Hb. unfold chk_node_with. eapply post_bind; [by apply sanity_spec; [apply R|]|].
  intros [st [[b ni]|]] G; [|exact G]. destruct G as [G _]. eapply post_bind; [by apply mark_counted|]. intros st1 G1.
  eapply post_bind; [apply Hb; by eapply grown_ready|]. intros w1 G2. by eapply grown_trans.
Qed.

Lemma direct_spec inode ft w nid : ready n (wk_st w) -> (T = true -> ft <> F2FS_FT_MAX) ->
  post (chk_direct_node c chk_inode inode ft w nid) (fun r => Grown (wk_st w) (wk_st r.2)).
Proof. intros R Hft. apply node_with_spec; [done..|]. intros. by apply dnode_blk_spec. Qed.
Lemma indirect_spec inode ft w nid : ready n (wk_st w) -> (T = true -> ft <> F2FS_FT_MAX) ->
  post (chk_indirect_node c chk_inode inode ft w nid) (fun r => Grown (wk_st w) (wk_st r.2)).
Proof.
  intros R Hft. apply node_with_spec; [done..|]. intros. apply nids_spec; [|apply addrs_per_block_fueled|done].
  intros. by apply direct_spec.
Qed.
Lemma double_indirect_spec inode ft w nid : ready n (wk_st w) -> (T = true -> ft <> F2FS_FT_MAX) ->
  post (chk_double_indirect_node c chk_inode inode ft w nid) (fun r => Grown (wk_st w) (wk_st r.2)).
Proof.
  intros R Hft. apply node_with_spec; [done..|]. intros. apply nids_spec; [|intros; fueled|done].
  intros. by apply indirect_spec.
Qed.

(** * Inodes *)

Lemma repair_spec x bug f : fsck_wf (iw_st x) -> (forall b, fueled (f b)) -> post (iw_repair c x bug f) (fun x' => Grown (iw_st x) (iw_st x')).
Proof.
  intros W Hf. assert (Grown (iw_st x) (assert_msg (iw_st x) bug)) by (apply quiet_grows; [apply quiet_assert|done]).
  unfold iw_repair. pstep; [|done]. by apply post_read; [|intros b _].
Qed.

(** A repair at the end of a function, reached or not. *)
Lemma repair_last st x bug f : Grown st (iw_st x) -> (forall b, fueled (f b)) -> post (iw_repair c x bug f) (fun x' => Grown st (iw_st x')).
Proof. intros G Hf. eapply (post_after _ iw_st); [exact G|]. apply repair_spec; [apply G|done]. Qed.

Lemma clear_flag8_fueled b o f : fueled (clear_flag8 b o f).
Proof. unfold clear_flag8. fueled. Qed.
Lemma clear_flag32_fueled b o f : fueled (clear_flag32 b o f).
Proof. unfold clear_flag32. fueled. Qed.
Lemma flag_set_fueled b o f : fueled (flag_set b o f).
Proof. unfold flag_set. fueled. Qed.
Lemma casefolded_fueled b : fueled (IS_CASEFOLDED b).
Proof. unfold IS_CASEFOLDED. fueled. Qed.
Lemma has_extra_fueled b : fueled (f2fs_has_extra_isize b).
Proof. unfold f2fs_has_extra_isize. fueled. Qed.
#[local] Hint Resolve clear_flag8_fueled clear_flag32_fueled flag_set_fueled casefolded_fueled has_extra_fueled : fueled.
Lemma extra_isize_fueled b : fueled (__get_extra_isize b).
Proof. unfold __get_extra_isize. fueled. Qed.
Lemma inline_xattr_fueled f b : fueled (get_inline_xattr_addrs f b).
Proof. unfold get_inline_xattr_addrs. fueled. Qed.
#[local] Hint Resolve extra_isize_fueled inline_xattr_fueled : fueled.
Lemma max_inline_fueled f b : fueled (MAX_INLINE_DATA f b).
Proof. unfold MAX_INLINE_DATA. fueled. Qed.
Lemma inline_addr_fueled b : fueled (inline_data_addr b).
Proof. unfold inline_data_addr. fueled. Qed.
Lemma addrs_per_inode_fueled f b : fueled (addrs_per_inode f b).
Proof. unfold addrs_per_inode, is_compr_reg, shl1. fueled. Qed.
#[local] Hint Resolve max_inline_fueled inline_addr_fueled addrs_per_inode_fueled : fueled.

Ltac repaired G := solve [exact G | apply repair_last; [exact G|intros; fueled]].

Lemma compr_flag_spec x : fsck_wf (iw_st x) -> post (inode_compr_flag c x) (fun r => iw_st r.1 = iw_st x).
Proof. intros W. unfold inode_compr_flag. psteps; done. Qed.

Lemma hard_link_fueled l nid k : fueled (add_into_hard_link_list l nid k).
Proof.
  unfold add_into_hard_link_list. generalize {| hl_nid := nid; hl_links := k; hl_actual_links := 1 |}. intros node.
  induction l; cbn [insert_hard_link]; fueled.
Qed.
#[local] Hint Resolve hard_link_fueled : fueled.

(** The mark of an inode that is seen for the first time takes one of those left. *)
Lemma inode_mark_spec st0 x nid ft ni k : counted st0 (iw_st x) (ni_blk_addr ni) ->
  (ft = F2FS_FT_DIR -> marked (iw_st x) (ni_blk_addr ni) = false) ->
  post (inode_mark c x nid ft ni k) (fun r => Grown st0 (iw_st r.1) /\ (r.2 = SeenFirst -> marks (iw_st x) < marks (iw_st r.1))).
Proof.
  intros [G S] Hdir. pose proof (gr_wf _ _ _ _ _ G) as W. unfold inode_mark.
  apply post_read; [fueled|]. intros m Hm%test_main_spec; [|done]. set (a := ni_blk_addr ni) in *.
  set (st1 := if m =? 0 then add_chk (iw_st x) 0 0 1 else iw_st x).
  assert (marked (iw_st x) a = false -> forall t, post (mark_main st1 a t) (fun st2 => Grown st0 st2 /\ marks (iw_st x) < marks st2)) as Hmark.
  { intros E t. subst st1. rewrite Hm, E. cbn [negb].
    assert (fresh (iw_st x) a = 1) as F by (unfold fresh; by rewrite E).
    pose proof (grown_add _ _ _ _ _ 0 0 1 G) as G1. rewrite F in G1. cbn in G1.
    change (fresh (iw_st x) a) with (fresh (add_chk (iw_st x) 0 0 1) a) in F.
    eapply post_weaken; [apply (grown_mark _ _ _ t _ _ _ G1); rewrite F; [by auto|lia..]|].
    intros st2 [G2 E2]. split; [done|]. rewrite E2, F. change (marks (add_chk (iw_st x) 0 0 1)) with (marks (iw_st x)). lia. }
  pstep.
  - eapply post_bind; [by apply Hmark, Hdir, Z.eqb_eq|]. intros st2 [G2 M2]. psteps. by split.
  - destruct (m =? 0) eqn:E0; cbn [negb] in *.
    + eapply post_bind; [apply Hmark; by destruct (marked _ _)|]. intros st2 [G2 M2].
      eapply (post_bind _ _ (quiet st2)); [psteps; [apply quiet_links|apply quiet_refl]|].
      intros st3 Q3. cbn [post fst snd]. split; [by apply (grown_quiet _ _ _ _ _ _ G2)|]. intros _. unfold marks in *. 
      change (iw_st (iw_with_st x st3)) with st3. by rewrite (q_main _ _ Q3).
    + assert (fresh (iw_st x) a = 0) as F by (unfold fresh; destruct (marked (iw_st x) a); done).
      rewrite F in G. subst st1. pstep.
      * cbn [post fst snd]. split; [|done]. by apply (grown_quiet _ _ _ _ _ _ G), quiet_links.
      * eapply post_bind; [apply (repair_last st0); [exact G|intros; fueled]|]. intros x' G'. by split.
Qed.

Lemma inode_xattr_spec x : fsck_wf (iw_st x) -> post (inode_xattr c x) (fun x' => Grown (iw_st x) (iw_st x')).
Proof.
  intros W. unfold inode_xattr. pstep. eapply post_bind; [by apply xattr_spec|]. intros [[ret st] cnt] G; cbn in G. pstep; repaired G.
Qed.

Lemma inode_extra_spec x : fsck_wf (iw_st x) -> post (inode_extra c x) (fun x' => Grown (iw_st x) (iw_st x')).
Proof.
  intros W. pose proof (grown_refl _ W) as G. unfold inode_extra. pstep. pstep; [|done].
  eapply (post_bind _ _ (fun x' => Grown (iw_st x) (iw_st x'))); [psteps; repaired G|]. intros x1 G1. psteps; repaired G1.
Qed.
Lemma inode_casefold_spec x ft : fsck_wf (iw_st x) -> post (inode_casefold c x ft) (fun x' => Grown (iw_st x) (iw_st x')).
Proof. intros W. pose proof (grown_refl _ W) as G. unfold inode_casefold. psteps; repaired G. Qed.

Lemma set_szchk_spec st f : fsck_wf st -> post (set_szchk c st f) (Grown st).
Proof. intros W. unfold set_szchk. psteps; [|by apply grown_refl]. apply quiet_grows; [apply quiet_qf|done]. Qed.
Lemma inline_reserve_spec st x o : Grown st (iw_st x) -> post (inode_inline_reserve c x o) (fun x' => Grown st (iw_st x')).
Proof. intros G. unfold inode_inline_reserve. psteps; repaired G. Qed.

Lemma inline_data_spec x o sz : fsck_wf (iw_st x) -> post (inode_inline_data c x o sz) (fun x' => Grown (iw_st x) (iw_st x')).
Proof.
  intros W. unfold inode_inline_data. pstep. eapply post_bind; [by apply set_szchk_spec|]. intros st1 G1.
  eapply post_bind; [apply (inline_reserve_spec (iw_st x)); exact G1|]. intros x2 G2.
  eapply (post_bind _ _ (fun x' => Grown (iw_st x) (iw_st x'))); [pstep; repaired G2|]. intros x3 G3. pstep.
  eapply (post_bind _ _ (fun x' => Grown (iw_st x) (iw_st x'))); [psteps; repaired G3|]. by intros x4 G4.
Qed.

Lemma inline_dentry_spec x o : ready n (iw_st x) -> post (inode_inline_dentry c chk_inode x o) (fun x' => Grown (iw_st x) (iw_st x')).
Proof.
  intros R. unfold inode_inline_dentry.
  eapply post_bind; [apply inline_reserve_spec, grown_refl, R|]. intros x1 G1.
  eapply post_bind; [apply inline_dentries_spec; exact (grown_ready _ _ _ _ _ _ G1 R)|]. intros [[[ret st] b] ch] G2. by apply (grown_trans _ _ _ _ _ _ G1).
Qed.

Lemma get_le32_inside b i v : get_le32 b i = Ok v -> 0 <= i < Z.of_nat (length b).
Proof.
  unfold get_le. cbn [rd_bytes]. intros (bs & (ch & H & _)%res_bind_Ok & _)%res_bind_Ok. apply rd_Ok in H as [? ?%lookup_lt_Some]. lia.
Qed.
Lemma wr_list_length {A} (xs : list A) : forall l i l', wr_list l i xs = Ok l' -> length l' = length l.
Proof.
  induction xs as [|y xs IH]; intros l i l'; cbn [wr_list]; [by intros [= ->]|]. intros (l1 & H1 & H)%res_bind_Ok.
  rewrite (IH _ _ _ H). unfold wr in H1. repeat case_match; simplify_eq. apply length_insert.
Qed.

Lemma inode_addrs_spec fuel : forall e x ft nid v o idx, ready n (iw_st x) -> 0 <= o -> 0 <= idx <= Z.of_nat (length (iw_blk x)) ->
  Z.of_nat (length (iw_blk x)) - idx < Z.of_nat fuel ->
  post (chk_inode_addrs c chk_inode fuel e x ft nid v o idx) (fun x' => Grown (iw_st x) (iw_st x')).
Proof.
  induction fuel as [|fuel IH]; intros e x ft nid v o idx R Ho Hi Hf; [lia|]. cbn [chk_inode_addrs]. pstep.
  pstep; [|by apply grown_refl, R]. apply post_read; [fueled|]. intros a1 Ha%get_le32_inside. unfold ofs_i_addr in Ha.
  eapply post_bind; [by apply chk_addr_spec|]. intros [cl w] G; cbn [snd] in G. apply post_read; [fueled|]. intros b Hb.
  assert (length b = length (iw_blk x)) as Hl by (destruct cl; [by eapply wr_list_length|by injection Hb as <-]).
  eapply (post_after _ iw_st); [exact G|]. apply (IH e {| iw := wk_with_child w _; iw_blk := b; iw_fix := _ |}); cbn [iw_blk]; [|lia..].
  by eapply grown_ready.
Qed.

Lemma sub_node_spec inode ft t w nid : ready n (wk_st w) -> (T = true -> ft <> F2FS_FT_MAX) ->
  post (chk_sub_node c chk_inode inode ft t w nid) (fun r => Grown (wk_st w) (wk_st r.2)).
Proof.
  intros R Hft. destruct t; cbn [chk_sub_node]; try done; [by apply direct_spec|by apply indirect_spec|by apply double_indirect_spec].
Qed.
Lemma nid_span_fueled b t : fueled (inode_nid_span b t).
Proof. unfold inode_nid_span. fueled. Qed.
#[local] Hint Resolve nid_span_fueled : fueled.

Lemma inode_nids_spec k : forall x ft i, ready n (iw_st x) -> (T = true -> ft <> F2FS_FT_MAX) ->
  post (chk_inode_nids c chk_inode k x ft i) (fun x' => Grown (iw_st x) (iw_st x')).
Proof.
  induction k as [|k IH]; intros x ft i R Hft; cbn [chk_inode_nids]; [by apply grown_refl, R|].
  pstep. pstep; [pstep; by apply (IH (iw_child x _))|].
  eapply post_bind; [by apply sub_node_spec|]. intros [ret w] G; cbn [snd] in G. pose proof (grown_ready _ _ _ _ _ _ G R) as R1.
  pstep; [eapply (post_after _ iw_st); [exact G|]; by apply (IH (iw_with_walk x (wk_count w)))|].
  do 2 (apply post_read; [fueled|]; intros ? _). eapply (post_after _ iw_st); [exact G|].
  by apply (IH (iw_child {| iw := w; iw_blk := _; iw_fix := _ |} _)).
Qed.

Lemma inode_blocks_spec x nid ft ni o e : ready n (iw_st x) -> 0 <= o -> (T = true -> ft <> F2FS_FT_MAX) ->
  post (inode_blocks c chk_inode x nid ft ni o e) (fun x' => Grown (iw_st x) (iw_st x')).
Proof.
  intros R Ho Hft. unfold inode_blocks, max_file_size. apply post_read; [fueled|]. intros m _.
  eapply post_bind; [apply set_szchk_spec, R|]. intros st1 G1.
  eapply post_bind; [apply inode_addrs_spec; [exact (grown_ready _ _ _ _ _ _ G1 R)|done|cbn; lia..]|]. intros x2 G2.
  pose proof (grown_trans _ _ _ _ _ _ G1 G2) as G3. eapply (post_after _ iw_st); [exact G3|].
  apply inode_nids_spec; [exact (grown_ready _ _ _ _ _ _ G3 R)|done].
Qed.

Lemma contents_spec x nid ft ni compr cl sz : ready n (iw_st x) -> (T = true -> ft <> F2FS_FT_MAX) ->
  post (inode_contents c chk_inode x nid ft ni compr cl sz) (fun x' => Grown (iw_st x) (iw_st x')).
Proof.
  intros R Hft. unfold inode_contents, get_extent_info. pstep; [by apply grown_refl, R|]. apply post_read; [fueled|]. intros ei _.
  eapply post_bind; [apply inode_extra_spec; exact (proj1 R)|]. intros x1 G1. pstep.
  eapply post_bind; [apply inode_casefold_spec, G1|]. intros x2 G2. pose proof (grown_trans _ _ _ _ _ _ G1 G2) as G3.
  pose proof (grown_ready _ _ _ _ _ _ G3 R) as R3. pstep. pose proof (u16_range a) as [? _].
  pstep; [eapply (post_after _ iw_st); [exact G3|]; apply inline_data_spec, R3|]. pstep.
  pstep; [eapply (post_after _ iw_st); [exact G3|]; by apply inline_dentry_spec|].
  unfold file_is_encrypt, is_compr_rel. do 3 (apply post_read; [fueled|]; intros ? _).
  eapply (post_after _ iw_st); [exact G3|]. by apply inode_blocks_spec.
Qed.

Lemma counts_spec x compr k1 k2 : fsck_wf (iw_st x) -> post (inode_counts c x compr k1 k2) (fun x' => Grown (iw_st x) (iw_st x')).
Proof.
  intros W. pose proof (grown_refl _ W) as G. unfold inode_counts. set (x0 := iw_child x _). change (iw_st x) with (iw_st x0) in G |- *.
  eapply (post_bind _ _ (fun x' => Grown (iw_st x0) (iw_st x'))); [psteps; repaired G|]. intros x1 G1.
  eapply (post_bind _ _ (fun x' => Grown (iw_st x0) (iw_st x'))); [psteps; repaired G1|]. intros x2 G2. psteps; repaired G2.
Qed.

Lemma crc_fueled crc b p len : fueled (f2fs_cal_crc32 crc b p len).
Proof.
  unfold f2fs_cal_crc32. case_match; [done|]. revert crc p. induction (Z.to_nat len); intros; cbn [f2fs_cal_crc32_loop]; fueled.
Qed.
#[local] Hint Resolve crc_fueled : fueled.
Lemma inode_chksum_fueled seed b : fueled (f2fs_inode_chksum seed b).
Proof. unfold f2fs_inode_chksum. fueled. Qed.
#[local] Hint Resolve inode_chksum_fueled : fueled.

Lemma finish_spec x ft ni cd k1 k2 k3 k4 : fsck_wf (iw_st x) ->
  post (inode_finish c x ft ni cd k1 k2 k3 k4) (fun x' => Grown (iw_st x) (iw_st x')).
Proof.
  intros W. pose proof (grown_refl _ W) as G. unfold inode_finish.
  eapply (post_bind _ _ (fun x' => Grown (iw_st x) (iw_st x'))); [unfold inode_namelen; psteps; repaired G|]. intros x1 G1.
  eapply (post_bind _ _ (fun x' => Grown (iw_st x) (iw_st x'))).
  { unfold inode_dir. pstep; [|done].
    eapply (post_bind _ _ (fun x' => Grown (iw_st x) (iw_st x'))); [psteps; repaired G1|]. intros x2 G2. psteps; repaired G2. }
  intros x2 G2.
  eapply (post_bind _ _ (fun x' => Grown (iw_st x) (iw_st x'))); [unfold inode_gc_failures; psteps; repaired G2|]. intros x3 G3.
  eapply (post_bind _ _ (fun x' => Grown (iw_st x) (iw_st x'))); [unfold inode_symlink; psteps; exact G3|]. intros x4 G4.
  eapply (post_bind _ _ (fun x' => Grown (iw_st x) (iw_st x'))); [unfold inode_orphan; psteps; repaired G4|]. intros x5 G5.
  eapply (post_bind _ _ (fun x' => Grown (iw_st x) (iw_st x'))); [unfold inode_drop_extent; psteps; exact G5|]. intros x6 G6.
  eapply (post_bind _ _ (fun x' => Grown (iw_st x) (iw_st x'))); [unfold inode_checksum; psteps; repaired G6|]. intros x7 G7.
  pstep; [|done]. eapply post_bind; [apply write_spec, G7|]. intros st' G'. by apply (grown_trans _ _ _ _ _ _ G7).
Qed.

(** The inode that is entered for the first time has one mark less to spend below it. *)
Lemma inode_blk_spec st0 st nid ft b cnt cbc ni cd : counted st0 st (ni_blk_addr ni) ->
  (ft = F2FS_FT_DIR -> marked st (ni_blk_addr ni) = false) -> (T = true -> ft <> F2FS_FT_MAX) -> room st <= n + 1 ->
  post (fsck_chk_inode_blk c chk_inode st nid ft b cnt cbc ni cd) (fun r => Grown st0 r.1).
Proof.
  intros C Hdir Hft R. pose proof (gr_wf _ _ _ _ _ (proj1 C)) as W. unfold fsck_chk_inode_blk, cluster_size_of, shl1, new_child.
  do 7 (apply post_read; [fueled|]; intros ? _). set (x0 := {| iw := _; iw_blk := b; iw_fix := false |}).
  eapply post_bind; [apply (compr_flag_spec x0); exact W|]. intros [x1 compr] E; cbn [fst] in E. change (iw_st x0) with st in E.
  eapply post_bind; [apply (inode_mark_spec st0); rewrite E; done|]. intros [x2 seen] [G2 M2]; cbn [fst snd] in *.
  assert (forall x k1 k2 k3 k4, Grown st0 (iw_st x) ->
    post (x' ← inode_finish c x ft ni cd k1 k2 k3 k4; Ok (iw_st x', iw_blk x')) (fun r => Grown st0 r.1)) as Hend.
  { intros x k1 k2 k3 k4 G. eapply post_bind; [apply finish_spec, G|]. intros x' G'. by apply (grown_trans _ _ _ _ _ _ G). }
  destruct seen; [|by apply Hend|exact G2].
  assert (ready n (iw_st x2)) as R2.
  { split; [apply G2|]. specialize (M2 eq_refl). rewrite E in M2. unfold room, nbits in *.
    rewrite (gr_len _ _ _ _ _ G2), <- (gr_len _ _ _ _ _ (proj1 C)). lia. }
  eapply post_bind; [apply inode_xattr_spec, R2|]. intros x3 G3. pose proof (grown_ready _ _ _ _ _ _ G3 R2) as R3.
  eapply post_bind; [by apply contents_spec|]. intros x4 G4. eapply post_bind; [apply counts_spec, G4|]. intros x5 G5.
  apply Hend. eapply grown_trans; [exact G2|]. eapply grown_trans; [exact G3|]. eapply grown_trans; [exact G4|exact G5].
Qed.

Lemma quota_data_fueled f inode : (forall q, fueled (f q)) -> forall l i, fueled (quota_data f inode i l).
Proof.
  intros Hf. induction l as [|[d|] l IH]; intros i; cbn [quota_data]; [done| |]; fueled.
  unfold get_qid. fueled.
Qed.
Lemma quota_add_fueled q nid b : fueled (quota_add_inode_usage q nid b).
Proof.
  unfold quota_add_inode_usage, quota_data_add, quota_data_inodes, add64. 
  repeat (fueled; try (apply quota_data_fueled; intros)).
Qed.

Lemma inode_node_spec st nid ft cd : fsck_wf st -> room st <= n + 1 -> (T = true -> ft <> F2FS_FT_MAX) ->
  post (chk_inode_node c chk_inode st nid ft cd) (fun r => Grown st r.2).
Proof.
  intros W R Hft. unfold chk_inode_node. eapply post_bind; [by apply sanity_spec|].
  intros [st1 [[b ni]|]] G; [|exact G]. destruct G as [C Hdir]; cbn [fst] in *.
  eapply post_bind; [apply (inode_blk_spec st); [exact C|by apply Hdir|done|]|].
  { pose proof (grown_room _ _ _ _ _ (proj1 C)). lia. }
  intros [st2 b2] G2; cbn [fst] in G2. apply post_read; [destruct (fk_qctx st2); fueled; apply quota_add_fueled|].
  intros q _. cbn [post snd]. apply (grown_quiet _ _ _ _ _ _ G2), quiet_qctx.
Qed.
End Below.
End Checks.
End Growth.

(** * Every inode with a type

    An entry of type [F2FS_FT_MAX] passes the checks of [__chk_dentries], and
    [sanity_check_nid] takes that type for its own caller [fix_hard_links]: the inode is
    neither checked nor counted. [typed_walk] is the walk that gives up there. *)
Fixpoint typed_walk (c : fsck_conf) (depth : nat) (st : fsck_st) (nid ftype : Z) (child_d : option child_info) : res (Z * fsck_st) :=
  match depth with
  | O => NoFuel
  | S depth => if ftype =? F2FS_FT_MAX then Die else chk_inode_node c (typed_walk c depth) st nid ftype child_d
  end.

(** [m1] has the value of [m2] or none. *)
Definition below {A} (m1 m2 : res A) : Prop := forall a, m1 = Ok a -> m2 = Ok a.
Lemma below_refl {A} (m : res A) : below m m.
Proof. by intros a. Qed.
Lemma below_bind {A B} (m1 m2 : res A) (f1 f2 : A -> res B) : below m1 m2 -> (forall a, below (f1 a) (f2 a)) -> below (m1 ≫= f1) (m2 ≫= f2).
Proof. intros Hm Hf b (a & H & H')%res_bind_Ok. rewrite (Hm _ H). by apply Hf. Qed.
Create HintDb below.
Ltac below :=
  repeat match goal with
  | |- below ?m ?m => apply below_refl
  | |- below (_ ≫= _) (_ ≫= _) => apply below_bind; [|intros]
  | |- below (match ?x with _ => _ end) _ => destruct x
  | |- below _ _ => solve [auto with below]
  end.

Section Below.
Context (c : fsck_conf) (f1 f2 : fsck_st -> Z -> Z -> option child_info -> res (Z * fsck_st)).
Hypothesis Hf : forall st nid ft cd, below (f1 st nid ft cd) (f2 st nid ft cd).
#[local] Hint Resolve Hf : below.

Lemma dentries_loop_below k : forall s cf d i enc, below (chk_dentries_loop c f1 k s cf d i enc) (chk_dentries_loop c f2 k s cf d i enc).
Proof. induction k; intros; cbn [chk_dentries_loop]; [by below|]. unfold chk_dentry. below. Qed.
#[local] Hint Resolve dentries_loop_below : below.
Lemma data_blk_below st cf a ch ft p i v enc : below (fsck_chk_data_blk c f1 st cf a ch ft p i v enc) (fsck_chk_data_blk c f2 st cf a ch ft p i v enc).
Proof. unfold fsck_chk_data_blk, fsck_chk_dentry_blk, __chk_dentries. below. Qed.
#[local] Hint Resolve data_blk_below : below.
Lemma chk_addr_below e w ft nid idx v a : below (chk_addr c f1 e w ft nid idx v a) (chk_addr c f2 e w ft nid idx v a).
Proof. unfold chk_addr. below. Qed.
#[local] Hint Resolve chk_addr_below : below.
Lemma dnode_loop_below k : forall e w b ft nid v idx f,
  below (chk_dnode_loop c f1 k e w b ft nid v idx f) (chk_dnode_loop c f2 k e w b ft nid v idx f).
Proof. induction k; intros; cbn [chk_dnode_loop]; below. Qed.
#[local] Hint Resolve dnode_loop_below : below.
Lemma nids_below g1 g2 span : (forall w nid, below (g1 w nid) (g2 w nid)) -> forall w b, below (chk_nids c g1 span w b) (chk_nids c g2 span w b).
Proof.
  intros Hg w b. unfold chk_nids. apply below_bind; [|intros; below]. generalize (Z.to_nat NIDS_PER_BLOCK), 0, false. intros k.
  revert w b. induction k; intros; cbn [chk_nids_loop]; below.
Qed.
Lemma node_with_below nt t b1 b2 ft w nid : (forall w b ni, below (b1 w b ni) (b2 w b ni)) ->
  below (chk_node_with c nt t b1 ft w nid) (chk_node_with c nt t b2 ft w nid).
Proof. intros Hb. unfold chk_node_with. below. Qed.
Lemma direct_below inode ft w nid : below (chk_direct_node c f1 inode ft w nid) (chk_direct_node c f2 inode ft w nid).
Proof. apply node_with_below. intros. unfold fsck_chk_dnode_blk. below. Qed.
Lemma indirect_below inode ft w nid : below (chk_indirect_node c f1 inode ft w nid) (chk_indirect_node c f2 inode ft w nid).
Proof. apply node_with_below. intros. apply nids_below, direct_below. Qed.
Lemma double_indirect_below inode ft w nid : below (chk_double_indirect_node c f1 inode ft w nid) (chk_double_indirect_node c f2 inode ft w nid).
Proof. apply node_with_below. intros. apply nids_below, indirect_below. Qed.
#[local] Hint Resolve direct_below indirect_below double_indirect_below : below.
Lemma inode_addrs_below k : forall e x ft nid v o idx,
  below (chk_inode_addrs c f1 k e x ft nid v o idx) (chk_inode_addrs c f2 k e x ft nid v o idx).
Proof. induction k; intros; cbn [chk_inode_addrs]; below. Qed.
Lemma inode_nids_below k : forall x ft i, below (chk_inode_nids c f1 k x ft i) (chk_inode_nids c f2 k x ft i).
Proof. induction k; intros; cbn [chk_inode_nids]; unfold chk_sub_node; below. Qed.
#[local] Hint Resolve inode_addrs_below inode_nids_below : below.
Lemma contents_below x nid ft ni compr cl sz : below (inode_contents c f1 x nid ft ni compr cl sz) (inode_contents c f2 x nid ft ni compr cl sz).
Proof. unfold inode_contents, inode_inline_dentry, fsck_chk_inline_dentries, __chk_dentries, inode_blocks. below. Qed.
#[local] Hint Resolve contents_below : below.
Lemma inode_node_below st nid ft cd : below (chk_inode_node c f1 st nid ft cd) (chk_inode_node c f2 st nid ft cd).
Proof. unfold chk_inode_node, fsck_chk_inode_blk. below. Qed.
End Below.

Lemma typed_walk_below c k : forall st nid ft cd, below (typed_walk c k st nid ft cd) (fsck_chk_node_blk c k st nid ft cd).
Proof.
  induction k as [|k IH]; intros; cbn [typed_walk fsck_chk_node_blk]; [by below|]. case_match; [done|]. by apply inode_node_below.
Qed.

(** * The walk *)

Lemma walk_spec c k : forall st nid ft cd, fsck_wf st -> room st < Z.of_nat k ->
  post (fsck_chk_node_blk c k st nid ft cd) (fun r => grown false 0 0 0 st r.2).
Proof.
  induction k as [|k IH]; intros st nid ft cd W R.
  { unfold room, marks in R. pose proof (popcount_bounds _ (wf_main _ W)). lia. }
  apply (inode_node_spec false c (Z.of_nat k - 1)); [|done|lia|done]. intros st1 nid1 ft1 ch [W1 R1]. apply IH; [done|lia].
Qed.
Lemma typed_walk_spec c k : forall st nid ft cd, fsck_wf st -> room st < Z.of_nat k ->
  post (typed_walk c k st nid ft cd) (fun r => grown true 0 0 0 st r.2).
Proof.
  induction k as [|k IH]; intros st nid ft cd W R.
  { unfold room, marks in R. pose proof (popcount_bounds _ (wf_main _ W)). lia. }
  cbn [typed_walk]. destruct (Z.eqb_spec ft F2FS_FT_MAX); [exact I|].
  apply (inode_node_spec true c (Z.of_nat k - 1)); [|done|lia|done]. intros st1 nid1 ft1 ch [W1 R1]. apply IH; [done|lia].
Qed.
Lemma walk_depth_enough st : fsck_wf st -> room st < Z.of_nat (walk_depth st).
Proof.
  intros W. pose proof (popcount_bounds _ (wf_main _ W)). unfold room, marks, walk_depth, nbits. change (sg_main_bitmap (fk_seg st)) with (main_map st). lia.
Qed.

(** C4: the walk of fsck over the tree below an inode comes to an end on every volume, also
    where directories contain each other: it never needs more levels than there are blocks
    of the main area. Whatever it reports, it only adds marks to [main_area_bitmap] and only
    clears bits of [nat_area_bitmap], and every node id whose bit it clears is taken in the
    bitmap from which new ids are allocated. *)
Theorem fsck_walk_terminates (c : fsck_conf) (st : fsck_st) (nid ft : Z) : fsck_wf st ->
  check_tree c st nid ft <> NoFuel /\
  forall ret st', check_tree c st nid ft = Ok (ret, st') ->
    (forall a, 0 <= main_off st a -> marked st a = true -> marked st' a = true) /\
    (forall i, 0 <= i -> bit_be (fk_nat_area st') i = true -> bit_be (fk_nat_area st) i = true) /\
    (forall i, 0 <= i -> bit_be (fk_nat_area st) i = true -> bit_be (fk_nat_area st') i = false -> bit_be (nid_map st') i = true).
Proof.
  intros W. pose proof (walk_spec c _ st nid ft None W (walk_depth_enough st W)) as P. unfold check_tree.
  split; [by intros E; rewrite E in P|]. intros ret st' E. rewrite E in P. cbn [post snd] in P.
  split; [|split; [apply P|apply P]]. intros a Ha. unfold marked, main_off in *. rewrite (gr_cfg _ _ _ _ _ _ P). by apply P.
Qed.


(** * A volume

    Directory 3 with one block of entries ([.], [..] and a file), file 4 with a block in
    its inode and one in direct node 5. *)
Definition filled (es : list (Z * list Z)) : list Z := foldl (fun b e => splice b e.1 e.2) zero_block es.
Definition nat_block_of (es : list (Z * Z * Z)) : list Z :=
  foldl (fun b e => splice b (9 * e.1.1) (0 :: le_bytes 4 e.1.2 ++ le_bytes 4 e.2)) zero_block es.
Definition entry_bytes (i ino ftype : Z) (name : list Z) : list (Z * list Z) :=
  [(30 + 11 * i, le_bytes 4 (match __f2fs_dentry_hash (name ++ [0]) (Z.of_nat (length name)) with Ok h => h | _ => 0 end) ++
      le_bytes 4 ino ++ le_bytes 2 (Z.of_nat (length name)) ++ [ftype]);
   (2384 + 8 * i, name)].
Definition tree_disk (ftype : Z) : disk :=
  list_to_map [
    (2560, nat_block_of [(3, 3, 5000); (4, 4, 5001); (5, 4, 5002)]);
    (3585, filled [(7 * 392, set_summary 3 0 0); (7 * 393, set_summary 4 0 0); (7 * 394, set_summary 5 0 0); (ofs_sum_footer, [1])]);
    (3587, filled [(7 * 368, set_summary 4 0 0); (7 * 369, set_summary 5 0 0); (7 * 370, set_summary 3 0 0)]);
    (5000, filled [(ofs_i_mode, le_bytes 2 0x41ed); (ofs_i_links, le_bytes 4 2); (ofs_i_blocks, le_bytes 8 2); (ofs_i_pino, le_bytes 4 3);
                   (ofs_i_addr, le_bytes 4 6002); (ofs_nid, le_bytes 4 3); (ofs_ino, le_bytes 4 3)]);
    (5001, filled [(ofs_i_mode, le_bytes 2 0x81a4); (ofs_i_links, le_bytes 4 1); (ofs_i_blocks, le_bytes 8 4); (ofs_i_pino, le_bytes 4 3);
                   (ofs_i_addr, le_bytes 4 6000); (ofs_i_nid, le_bytes 4 5); (ofs_nid, le_bytes 4 4); (ofs_ino, le_bytes 4 4)]);
    (5002, filled [(0, le_bytes 4 6001); (ofs_nid, le_bytes 4 5); (ofs_ino, le_bytes 4 4)]);
    (6000, zero_block); (6001, zero_block);
    (6002, filled ([(0, [7])] ++ entry_bytes 0 3 2 [46] ++ entry_bytes 1 3 2 [46; 46] ++ entry_bytes 2 4 ftype [97]))].
Definition map_of (n : nat) (l : list Z) : list Z :=
  foldl (fun b i => match f2fs_set_bit i b with Ok (_, b') => b' | _ => b end) (replicate n 0) l.
Definition tree_entry (i : nat) : seg_entry := {|
  se_valid_blocks := 0; se_ckpt_valid_blocks := 0; se_cur_map := []; se_ckpt_map := []; se_type := if (i =? 1)%nat then 3 else 0;
  se_orig_type := 0; se_ckpt_type := 0; se_mtime := 0; se_dirty := false |}.
Definition tree_vol (d : disk) : vol :=
  let v := put_nat (sample_vol d) (with_nid_bitmap (with_disk (sample_nat sample_file_sb []) d) (replicate 1000 0)) in
  with_seg v {| sg := sg (v_seg v); sg_sentries := map tree_entry (seq 0 24); sg_cursegs := sg_cursegs (v_seg v);
                sg_counts := {| n_valid_block := 6; n_valid_node := 3; n_valid_inode := 2; n_chk_blk := 0; n_chk_node := 0; n_chk_inode := 0 |};
                sg_main_bitmap := replicate 1536 0; sg_sit_area := map_of 1536 [904; 905; 906; 1904; 1905; 1906]; sg_disk := d |}.
Definition tree_st (d : disk) : fsck_st := {|
  fk_vol := tree_vol d; fk_nat_area := map_of 1000 [3; 4; 5]; fk_links := []; fk_multi := 0; fk_bug := false; fk_qctx := None; fk_qf := [] |}.
Definition check_only : fsck_conf := {|
  k_fix_on := false; k_writable := false; k_preen_mode := 0; k_cur_qtype := -1; k_root_ino := 3; k_casefold := fun _ => None |}.

(** Return value, errors reported, counts of blocks, nodes and inodes, marks, node ids not reached. *)
Definition walk_result (r : res (Z * fsck_st)) : option (Z * bool * (Z * Z * Z) * Z * Z) :=
  match r with
  | Ok (ret, st) => Some (ret, fk_bug st, (n_chk_blk (fk_counts st), n_chk_node (fk_counts st), n_chk_inode (fk_counts st)), marks st,
                          popcount (fk_nat_area st))
  | _ => None
  end.

Lemma tree_st_wf t : fsck_wf (tree_st (tree_disk t)).
Proof. constructor; apply bytes_forallb; vm_compute; reflexivity. Qed.

Lemma fsck_walk_terminates_witness : fsck_wf (tree_st (tree_disk 1)) /\ check_tree check_only (tree_st (tree_disk 1)) 3 F2FS_FT_DIR <> NoFuel.
Proof. split; [apply tree_st_wf|]. exact (proj1 (fsck_walk_terminates check_only (tree_st (tree_disk 1)) 3 F2FS_FT_DIR (tree_st_wf 1))). Defined.

Lemma tree_walked : exists st', typed_walk check_only (walk_depth (tree_st (tree_disk 1))) (tree_st (tree_disk 1)) 3 F2FS_FT_DIR None = Ok (0, st')
  /\ fk_bug st' = false /\ walk_result (Ok (0, st')) = Some (0, false, (6, 3, 2), 6, 0).
Proof.
  assert (walk_result (typed_walk check_only (walk_depth (tree_st (tree_disk 1))) (tree_st (tree_disk 1)) 3 F2FS_FT_DIR None)
    = Some (0, false, (6, 3, 2), 6, 0)) as H by (vm_compute; reflexivity).
  revert H. generalize (typed_walk check_only (walk_depth (tree_st (tree_disk 1))) (tree_st (tree_disk 1)) 3 F2FS_FT_DIR None).
  intros [[r st']| | |] H; try discriminate H. exists st'. pose proof H as H'. cbn [walk_result] in H'.
  injection H' as -> B _ _ _ _ _. split; [reflexivity|]. split; [exact B|exact H].
Qed.


