(* ===== verification/DirVol.v ===== *)
(** Directories on a volume (fsck/dir.c): looking a name up through the levels of the
    hash table ([f2fs_find_entry], [f2fs_lookup], [f2fs_find_path]), adding an entry
    ([f2fs_add_link]), turning inline entries into a block ([convert_inline_dentry]), new
    inodes ([init_inode_block]) and creating files ([f2fs_create]).

    A directory is the block of its inode, as in FileData; [parent] of [f2fs_add_link] is
    the caller's buffer, which the callee changes through [dn.inode_blk], so it is given
    back. Names go on with a terminator. The hash of a name, which may depend on the table
    of the encoding, is that of FsckWalk. *)
From Stdlib Require Import ZArith Lia List Bool.
From stdpp Require Import base numbers list gmap.
From S2P Require Import Prelude Codec Bits Crc Node Dir Superblock Mkfs Checkpoint Nat Segment Fsck Quota QuotaMk FileData FileTree FsckWalk.

Definition ofs_i_current_depth : Z := 72.
Definition ofs_i_atime : Z := 32.
Definition ofs_i_ctime : Z := 40.
Definition ofs_i_mtime : Z := 48.
Definition ENOENT : Z := 2.
Definition FADVISE_COLD_BIT : Z := 0x01.
Definition FADVISE_HOT_BIT : Z := 0x20.

(** [struct dentry]: what the functions read and change of it. [de_link] is the target of
    a symbolic link. *)
Record dentry := {
  de_name : list Z;
  de_len : Z;
  de_mode : Z;
  de_uid : Z;
  de_gid : Z;
  de_mtime : Z;
  de_pino : Z;
  de_ino : Z;
  de_file_type : Z;
  de_link : option (list Z);
  de_from_devino : Z;
}.
Definition de_with_ino (de : dentry) (ino : Z) : dentry := {|
  de_name := de_name de; de_len := de_len de; de_mode := de_mode de; de_uid := de_uid de; de_gid := de_gid de; de_mtime := de_mtime de;
  de_pino := de_pino de; de_ino := ino; de_file_type := de_file_type de; de_link := de_link de; de_from_devino := de_from_devino de |}.

(** [f2fs_type_by_mode] has no element for the last value of the type bits. *)
Definition f2fs_type_by_mode : list Z := [0; F2FS_FT_FIFO; F2FS_FT_CHRDEV; 0; F2FS_FT_DIR; 0; F2FS_FT_BLKDEV; 0; F2FS_FT_REG_FILE; 0; F2FS_FT_SYMLINK; 0; F2FS_FT_SOCK; 0; 0].
Definition map_de_type (mode : Z) : res Z := rd f2fs_type_by_mode (Z.shiftr (Z.land mode LINUX_S_IFMT) 12).

(** * Finding a name *)

Section Dir.
Context (c : fsck_conf).

(** The place of a hash in level [level]: its first block and the number of blocks. *)
Definition hash_bucket (level dir_level hash : Z) : Z * Z :=
  (dir_block_index level dir_level (hash mod dir_buckets level dir_level), bucket_blocks level).

(** The ino of the entry, if one of the [n] blocks from [bidx] on has it. *)
Fixpoint find_in_blocks (n : nat) (v : vol) (dir : list Z) (ino : Z) (name : list Z) (len namehash bidx : Z) : res (option Z) :=
  match n with
  | O => Ok None
  | S n =>
      '(_, _, dn) ← get_dnode_of_data v (set_new_dnode dir ino) bidx LOOKUP_NODE;
      if dn_data_blkaddr dn =? NULL_ADDR then find_in_blocks n v dir ino name len namehash (bidx + 1)
      else
        dentry_blk ← vol_read v (dn_data_blkaddr dn);
        '(r, _) ← find_in_block dentry_blk name len namehash (Some 214);
        match r with
        | Some pos =>
            d ← make_dentry_ptr 0 [] 0 1;
            found ← get_le32 dentry_blk (dp_dentry d + SIZE_OF_DIR_ENTRY * pos + ofs_de_ino);
            Ok (Some found)
        | None => find_in_blocks n v dir ino name len namehash (bidx + 1)
        end
  end.

Definition dir_hash (dir name : list Z) (len : Z) : res Z :=
  cf ← IS_CASEFOLDED dir; f2fs_dentry_hash c cf name len.

Definition find_in_level (v : vol) (dir : list Z) (level : Z) (name : list Z) (len : Z) : res (option Z) :=
  ino ← get_le32 dir ofs_ino;
  namehash ← dir_hash dir name len;
  dir_level ← rd dir ofs_i_dir_level;
  let '(bidx, nblock) := hash_bucket level dir_level namehash in
  let bidx := u32 bidx in
  find_in_blocks (Z.to_nat (u32 (bidx + nblock) - bidx)) v dir ino name len namehash bidx.

Fixpoint find_in_levels (n : nat) (v : vol) (dir : list Z) (level : Z) (name : list Z) (len : Z) : res (option Z) :=
  match n with
  | O => Ok None
  | S n =>
      r ← find_in_level v dir level name len;
      match r with Some ino => Ok (Some ino) | None => find_in_levels n v dir (level + 1) name len end
  end.

(** [de->ino] where the C function returns 1. *)
Definition f2fs_find_entry (v : vol) (dir name : list Z) (len : Z) : res (option Z) :=
  max_depth ← get_le32 dir ofs_i_current_depth;
  find_in_levels (Z.to_nat max_depth) v dir 0 name len.

Definition f2fs_lookup (v : vol) (dir name : list Z) (len : Z) : res Z :=
  r ← f2fs_find_entry v dir name len; Ok (default 0 r).

(** [path] as the names [strtok] gives, without separators; the return value and [*ino]. *)
Fixpoint find_path_loop (v : vol) (path : list (list Z)) (ino : Z) : res (Z * Z) :=
  match path with
  | [] => Ok (0, ino)
  | name :: path =>
      ni ← vol_node_info v ino;
      if ni_blk_addr ni =? NULL_ADDR then Ok (- ENOENT, ino)
      else
        parent ← vol_read v (ni_blk_addr ni);
        r ← f2fs_find_entry v parent (name ++ [0]) (Z.of_nat (length name));
        match r with Some ino => find_path_loop v path ino | None => Ok (- ENOENT, ino) end
  end.
(** [strtok(path, "/")]: the parts between separators that are not empty. *)
Fixpoint path_names (path cur : list Z) : list (list Z) :=
  match path with
  | [] => if decide (cur = []) then [] else [cur]
  | x :: path =>
      if x =? 47 then (if decide (cur = []) then path_names path [] else cur :: path_names path [])
      else path_names path (cur ++ [x])
  end.
Definition f2fs_find_path (v : vol) (path : list Z) (ino : Z) : res (Z * Z) :=
  match path with
  | 47 :: _ => find_path_loop v (path_names path []) (k_root_ino c)
  | _ => Ok (- ENOENT, ino)
  end.

(** * Adding an entry *)

(** Where an entry goes: the node of the block, the number of the block in the directory
    and the slot. *)
Record link_place := { lp_dn : dnode_of_data; lp_block : Z; lp_pos : Z; lp_depth : Z }.

(** The [n] blocks from [block] on, which are allocated if they are missing. What
    [get_dnode_of_data] and [new_data_block] return is not looked at. *)
Fixpoint add_link_blocks (n : nat) (v : vol) (parent : list Z) (pino slots depth block : Z) : res (vol * list Z * option (link_place * list Z)) :=
  match n with
  | O => Ok (v, parent, None)
  | S n =>
      '(_, v, dn) ← get_dnode_of_data v (set_new_dnode parent pino) (u64 block) ALLOC_NODE;
      '(v, dn, dentry_blk) ←
        (if dn_data_blkaddr dn =? NULL_ADDR then '(_, v, dn) ← new_data_block v dn CURSEG_HOT_DATA; Ok (v, dn, replicate 4096 0)
         else b ← vol_read v (dn_data_blkaddr dn); Ok (v, dn, b));
      bit_pos ← room_for_filename dentry_blk slots NR_DENTRY_IN_BLOCK;
      if bit_pos <? NR_DENTRY_IN_BLOCK then
        Ok (v, dn_inode dn, Some ({| lp_dn := dn; lp_block := block; lp_pos := bit_pos; lp_depth := depth |}, dentry_blk))
      else add_link_blocks n v (dn_inode dn) pino slots depth (block + 1)
  end.

(** The levels from [level] on; [None] is the return value [-ENOSPC]. *)
Fixpoint add_link_levels (fuel : nat) (v : vol) (parent : list Z) (pino slots hash dir_level level depth : Z)
    : res (vol * list Z * option (link_place * list Z)) :=
  match fuel with
  | O => NoFuel
  | S fuel =>
      if depth =? MAX_DIR_HASH_DEPTH then Ok (v, parent, None)
      else
        let depth := if level =? depth then depth + 1 else depth in
        let '(bidx, nblock) := hash_bucket level dir_level hash in
        let bidx := s32 bidx in
        _ ← defined_ (bidx + nblock - 1 <? 2 ^ 31);
        '(v, parent, r) ← add_link_blocks (Z.to_nat nblock) v parent pino slots depth bidx;
        match r with
        | Some p => Ok (v, parent, Some p)
        | None => add_link_levels fuel v parent pino slots hash dir_level (level + 1) depth
        end
  end.

(** The members of the inode of the directory that an entry in place [p] changes. *)
Definition link_inode (p : link_place) (file_type : Z) (inc_link : bool) : res dnode_of_data :=
  let dn := lp_dn p in
  depth ← get_le32 (dn_inode dn) ofs_i_current_depth;
  dn ← (if negb (depth =? u32 (lp_depth p)) then
          b ← set_le32 (dn_inode dn) ofs_i_current_depth (u32 (lp_depth p)); Ok (dn_with_inode dn b true)
        else Ok dn);
  dn ← (if inc_link && (file_type =? F2FS_FT_DIR) then
          links ← get_le32 (dn_inode dn) ofs_i_links;
          b ← set_le32 (dn_inode dn) ofs_i_links (u32 (links + 1));
          Ok (dn_with_inode dn b true)
        else Ok dn);
  _ ← defined_ ((lp_block p + 1) * F2FS_BLKSIZE <? 2 ^ 31);
  i_size ← get_le64 (dn_inode dn) ofs_i_size;
  let size := u64 ((lp_block p + 1) * F2FS_BLKSIZE) in
  if i_size <? size then b ← set_le64 (dn_inode dn) ofs_i_size size; Ok (dn_with_inode dn b true) else Ok dn.

(** The return value, the volume and the parent's block. *)
Definition f2fs_add_link (v : vol) (parent name : list Z) (name_len ino file_type p_blkaddr : Z) (inc_link : bool) : res (Z * vol * list Z) :=
  let slots := GET_DENTRY_SLOTS name_len in
  dentry_hash ← dir_hash parent name name_len;
  pino ← get_le32 parent ofs_ino;
  dir_level ← rd parent ofs_i_dir_level;
  if pino =? 0 then Ok (- EINVAL, v, parent)
  else
    depth ← get_le32 parent ofs_i_current_depth;
    '(v, parent, r) ← add_link_levels 64 v parent pino slots dentry_hash dir_level 0 (s32 depth);
    match r with
    | None => Ok (- ENOSPC, v, parent)
    | Some (p, dentry_blk) =>
        d ← make_dentry_ptr 0 [] 0 1;
        dentry_blk ← f2fs_update_dentry ino file_type dentry_blk d name name_len dentry_hash (lp_pos p);
        v ← vol_write v (dn_data_blkaddr (lp_dn p)) dentry_blk;
        dn ← link_inode p file_type inc_link;
        v ← (if dn_ndirty dn then b ← node_blk dn; vol_write v (dn_node_blkaddr dn) b else Ok v);
        if dn_idirty dn then '(v, parent) ← vol_write_inode v (dn_inode dn) p_blkaddr; Ok (0, v, parent)
        else Ok (0, v, dn_inode dn)
    end.

(** * New inodes *)

(** The block of a directory with nothing but [.] and [..]. *)
Definition empty_dentry_blk (ino pino : Z) : res (list Z) :=
  d ← make_dentry_ptr 0 [] 0 1;
  let put b pos ino len name :=
    let de := dp_dentry d + SIZE_OF_DIR_ENTRY * pos in
    b ← set_le32 b (de + ofs_hash_code) 0;
    b ← set_le32 b (de + ofs_de_ino) ino;
    b ← set_le16 b (de + ofs_name_len) len;
    b ← wr b (de + ofs_file_type) F2FS_FT_DIR;
    wr_list b (dp_filename d + F2FS_SLOT_LEN * pos) name in
  b ← put (replicate 4096 0) 0 ino 1 [46];
  b ← put b 1 pino 2 [46; 46];
  '(_, b) ← test_and_set_bit_le 0 b;
  '(_, b) ← test_and_set_bit_le 1 b;
  Ok b.

(** Storing [blkaddr] as the first address of the inode. *)
Definition set_first_addr (inode : list Z) (blkaddr : Z) : res (list Z) :=
  extra ← __get_extra_isize inode;
  set_le32 inode (ofs_i_addr + 4 * extra) blkaddr.

(** A block with [data] as the first block of the file: the volume and the inode. *)
Definition first_block (v : vol) (inode data : list Z) (type : Z) : res (vol * list Z) :=
  ino ← get_le32 inode ofs_ino;
  ni ← vol_node_info v ino;
  '(ret, blkaddr, s) ← reserve_new_block (v_seg v) NULL_ADDR (set_summary ino 0 (ni_version ni)) type false;
  _ ← assert_ (ret =? 0);
  v ← vol_write (with_seg v s) blkaddr data;
  inode ← set_first_addr inode blkaddr;
  Ok (v, inode).

Definition make_empty_dir (v : vol) (inode : list Z) : res (vol * list Z) :=
  ino ← get_le32 inode ofs_ino;
  pino ← get_le32 inode ofs_i_pino;
  dent_blk ← empty_dentry_blk ino pino;
  first_block v inode dent_blk CURSEG_HOT_DATA.

Definition set_flag8 (b : list Z) (ofs f : Z) : res (list Z) := i ← rd b ofs; wr b ofs (u8 (Z.lor i f)).

Definition page_symlink (v : vol) (inode symname : list Z) (symlen : Z) : res (vol * list Z) :=
  m ← MAX_INLINE_DATA (v_feature v) inode;
  target ← rd_bytes symname 0 (Z.to_nat symlen);
  if u64 (symlen + 1) <=? m then
    inode ← set_flag8 inode ofs_i_inline F2FS_INLINE_DATA;
    inode ← set_flag8 inode ofs_i_inline F2FS_DATA_EXIST;
    a ← inline_data_addr inode;
    inode ← wr_list inode a target;
    Ok (v, inode)
  else
    data_blk ← wr_list (replicate 4096 0) 0 target;
    first_block v inode data_blk CURSEG_WARM_DATA.

(** [strlen]: the number of bytes before the terminator. *)
Fixpoint c_strlen (s : list Z) : res Z :=
  match s with
  | [] => Oob
  | x :: s => if x =? 0 then Ok 0 else n ← c_strlen s; Ok (1 + n)
  end.
Definition c_tolower (x : Z) : Z := if (65 <=? x) && (x <=? 90) then x + 32 else x.
(** [!strncasecmp(a, b, n)] *)
Fixpoint strncaseeq (n : nat) (a b : list Z) : res bool :=
  match n with
  | O => Ok true
  | S n =>
      match a, b with
      | x :: a, y :: b => if c_tolower x =? c_tolower y then (if x =? 0 then Ok true else strncaseeq n a b) else Ok false
      | _, _ => Oob
      end
  end.

(** Places [i] to [i + n - 1] of [s]. *)
Fixpoint extension_loop (n : nat) (s sub : list Z) (sublen i : Z) : res bool :=
  match n with
  | O => Ok false
  | S n =>
      x ← rd s i;
      found ← (if x =? 46 then strncaseeq (Z.to_nat sublen) (drop (Z.to_nat (i + 1)) s) sub else Ok false);
      if found : bool then Ok true else extension_loop n s sub sublen (i + 1)
  end.
Definition is_extension_exist (s sub : list Z) : res bool :=
  slen ← c_strlen s;
  sublen ← c_strlen sub;
  if slen <? sublen + 2 then Ok false else extension_loop (Z.to_nat (slen - sublen - 1)) s sub sublen 1.

Definition F2FS_EXTENSION_LEN : Z := 8.
(** The first of the [n] extensions from [i] on that the name has, else [i + n]. *)
Fixpoint find_extension (n : nat) (name extlist : list Z) (i : Z) : res Z :=
  match n with
  | O => Ok i
  | S n =>
      b ← is_extension_exist name (drop (Z.to_nat (F2FS_EXTENSION_LEN * i)) extlist);
      if b : bool then Ok i else find_extension n name extlist (i + 1)
  end.
(** The rows of the list are next to each other. *)
Definition set_file_temperature (sb : f2fs_super_block) (node_blk name : list Z) : res (list Z) :=
  let cold_count := sb_extension_count sb in
  let hot_count := sb_hot_ext_count sb in
  i ← find_extension (Z.to_nat (cold_count + hot_count)) name (concat (sb_extension_list sb)) 0;
  if i =? cold_count + hot_count then Ok node_blk
  else set_flag8 node_blk ofs_i_advise (if i <? cold_count then FADVISE_COLD_BIT else FADVISE_HOT_BIT).

(** [mode], [size], [links] and [blocks] by the type of the file. *)
Definition inode_kind (v : vol) (node_blk : list Z) (de : dentry) : res (Z * Z * Z * Z) :=
  if de_file_type de =? F2FS_FT_DIR then Ok (Z.lor (de_mode de) S_IFDIR, 4096, 2, 2)
  else if de_file_type de =? F2FS_FT_REG_FILE then Ok (Z.lor (de_mode de) S_IFREG, 0, 1, 1)
  else if de_file_type de =? F2FS_FT_SYMLINK then
    match de_link de with
    | None => Die
    | Some link =>
        size ← c_strlen link;
        m ← MAX_INLINE_DATA (v_feature v) node_blk;
        Ok (Z.lor (de_mode de) S_IFLNK, u32 size, 1, if m <? u32 (u32 size + 1) then 2 else 1)
    end
  else Die.

(** The members that do not depend on the volume. *)
Definition init_inode_members (node_blk : list Z) (de : dentry) (mode size links blocks : Z) : res (list Z) :=
  b ← set_le16 node_blk ofs_i_mode (u16 mode);
  b ← wr b ofs_i_advise 0;
  b ← set_le32 b ofs_i_uid (u32 (de_uid de));
  b ← set_le32 b ofs_i_gid (u32 (de_gid de));
  b ← set_le32 b ofs_i_links links;
  b ← set_le64 b ofs_i_size size;
  b ← set_le64 b ofs_i_blocks blocks;
  b ← set_le64 b ofs_i_atime (u64 (de_mtime de));
  b ← set_le64 b ofs_i_ctime (u64 (de_mtime de));
  b ← set_le64 b ofs_i_mtime (u64 (de_mtime de));
  b ← wr_list b 56 (replicate 12 0);
  b ← set_le32 b ofs_i_generation 0;
  b ← set_le32 b ofs_i_current_depth (if de_file_type de =? F2FS_FT_DIR then 1 else 0);
  b ← set_le32 b ofs_i_xattr_nid 0;
  b ← set_le32 b ofs_i_flags 0;
  b ← wr b ofs_i_inline F2FS_INLINE_XATTR;
  b ← set_le32 b ofs_i_pino (u32 (de_pino de));
  b ← set_le32 b ofs_i_namelen (u32 (de_len de));
  _ ← defined_ (de_len de <=? F2FS_NAME_LEN);
  name ← rd_bytes (de_name de) 0 (Z.to_nat (de_len de));
  b ← wr_list b ofs_i_name name;
  wr b (ofs_i_name + de_len de) 0.

(** The volume and the inode's block. *)
Definition init_inode_block (v : vol) (node_blk : list Z) (de : dentry) : res (vol * list Z) :=
  '(mode, size, links, blocks) ← inode_kind v node_blk de;
  b ← init_inode_members node_blk de mode size links blocks;
  b ← (if has_feature (v_feature v) F2FS_FEATURE_EXTRA_ATTR then
         b ← set_flag8 b ofs_i_inline F2FS_EXTRA_ATTR;
         set_le16 b ofs_i_extra_isize (calc_extra_isize (v_feature v))
       else Ok b);
  b ← set_file_temperature (g_super (sg (v_seg v))) b (de_name de);
  b ← set_le32 b ofs_ino (u32 (de_ino de));
  b ← set_le32 b ofs_nid (u32 (de_ino de));
  b ← set_le32 b ofs_flag 0;
  ver ← get_le64 (g_ckpt (sg (v_seg v))) ofs_checkpoint_ver;
  b ← set_le64 b ofs_cp_ver ver;
  let t := Z.land mode LINUX_S_IFMT in
  b ← set_cold_node b (t =? S_IFDIR);
  '(v, b) ← (if t =? S_IFDIR then make_empty_dir v b
             else if t =? S_IFLNK then page_symlink v b (default [] (de_link de)) size
             else Ok (v, b));
  b ← (if has_feature (v_feature v) F2FS_FEATURE_INODE_CHKSUM then
         crc ← f2fs_inode_chksum (v_seed v) b; set_le32 b ofs_i_inode_checksum crc
       else Ok b);
  Ok (v, b).

(** * Inline entries *)

(** The entries of [inline_data] from [bit_pos] on are added to the directory; an entry is
    at least one slot long. *)
Fixpoint convert_loop (fuel : nat) (v : vol) (node inline_data : list Z) (d : f2fs_dentry_ptr) (p_blkaddr bit_pos : Z) : res (vol * list Z) :=
  match fuel with
  | O => NoFuel
  | S fuel =>
      if bit_pos <? dp_max d then
        b ← test_bit_le bit_pos (bitmap_of inline_data d);
        if b =? 0 then convert_loop fuel v node inline_data d p_blkaddr (bit_pos + 1)
        else
          let de := dp_dentry d + SIZE_OF_DIR_ENTRY * bit_pos in
          namelen ← get_le16 inline_data (de + ofs_name_len);
          if namelen =? 0 then convert_loop fuel v node inline_data d p_blkaddr (bit_pos + 1)
          else
            let filename := drop (Z.to_nat (dp_filename d + F2FS_SLOT_LEN * bit_pos)) inline_data in
            dots ← is_dot_dotdot filename namelen;
            if dots : bool then convert_loop fuel v node inline_data d p_blkaddr (bit_pos + GET_DENTRY_SLOTS namelen)
            else
              ino ← get_le32 inline_data (de + ofs_de_ino);
              file_type ← rd inline_data (de + ofs_file_type);
              '(_, v, node) ← f2fs_add_link v node filename namelen ino file_type p_blkaddr false;
              convert_loop fuel v node inline_data d p_blkaddr (bit_pos + GET_DENTRY_SLOTS namelen)
      else Ok (v, node)
  end.

(** Copying the inline entries to a block of entries. *)
Definition copy_inline_entries (inline_data : list Z) (src dst : f2fs_dentry_ptr) (dentry_blk : list Z) : res (list Z) :=
  bits ← rd_bytes inline_data (dp_bitmap src) (Z.to_nat (dp_nr_bitmap src));
  b ← wr_list dentry_blk (dp_bitmap dst) bits;
  _ ← defined_ (dp_nr_bitmap src <=? dp_nr_bitmap dst);
  b ← wr_list b (dp_bitmap dst + dp_nr_bitmap src) (replicate (Z.to_nat (dp_nr_bitmap dst - dp_nr_bitmap src)) 0);
  entries ← rd_bytes inline_data (dp_dentry src) (Z.to_nat (SIZE_OF_DIR_ENTRY * dp_max src));
  b ← wr_list b (dp_dentry dst) entries;
  names ← rd_bytes inline_data (dp_filename src) (Z.to_nat (dp_max src * F2FS_SLOT_LEN));
  wr_list b (dp_filename dst) names.

(** The return value is 0 in every case; the volume and the inode's block, which is written
    before its entries are moved and not afterwards. *)
Definition convert_inline_dentry (v : vol) (node : list Z) (p_blkaddr : Z) : res (vol * list Z) :=
  inl ← flag_set node ofs_i_inline F2FS_INLINE_DENTRY;
  if negb inl then Ok (v, node)
  else
    dir_level ← rd node ofs_i_dir_level;
    ino ← get_le32 node ofs_ino;
    m ← MAX_INLINE_DATA (v_feature v) node;
    a ← inline_data_addr node;
    inline_data ← rd_bytes node a (Z.to_nat m);
    node ← wr_list node a (replicate (Z.to_nat m) 0);
    node ← clear_flag8 node ofs_i_inline F2FS_INLINE_DENTRY;
    v ← vol_write v p_blkaddr node;
    if dir_level =? 0 then
      '(_, v, dn) ← get_dnode_of_data v (set_new_dnode node ino) 0 ALLOC_NODE;
      '(v, dn) ← (if dn_data_blkaddr dn =? NULL_ADDR then '(_, v, dn) ← new_data_block v dn CURSEG_HOT_DATA; Ok (v, dn) else Ok (v, dn));
      src ← make_dentry_ptr (v_feature v) (dn_inode dn) 0 2;
      dst ← make_dentry_ptr 0 [] 0 1;
      dentry_blk ← copy_inline_entries inline_data src dst (replicate 4096 0);
      v ← vol_write v (dn_data_blkaddr dn) dentry_blk;
      Ok (v, dn_inode dn)
    else
      '(v, node) ← make_empty_dir v node;
      d ← make_dentry_ptr (v_feature v) node 0 2;
      convert_loop (S (Z.to_nat (dp_max d))) v node inline_data d p_blkaddr 0.

(** * Creating a file *)

(** [hardlink_cache]: the inode made for a file of the host, 0 if none is made yet. *)
Definition f2fs_search_hardlink (cache : gmap Z Z) (de : dentry) : gmap Z Z * Z :=
  match cache !! de_from_devino de with
  | Some to_ino => (cache, to_ino)
  | None => (<[de_from_devino de := 0]> cache, 0)
  end.

(** The end of [f2fs_create]: writing a new inode, or one more link of the inode at
    [blkaddr]. *)
Definition create_child (v : vol) (child : list Z) (ino version : Z) : res vol :=
  '(ret, blkaddr, s) ← reserve_new_block (v_seg v) NULL_ADDR (set_summary ino 0 version) CURSEG_HOT_NODE true;
  _ ← assert_ (ret =? 0);
  v ← vol_update_nat (with_seg v s) ino ino blkaddr;
  vol_write v blkaddr child.
Definition create_hardlink (v : vol) (blkaddr : Z) : res vol :=
  child ← vol_read v blkaddr;
  links ← get_le32 child ofs_i_links;
  child ← set_le32 child ofs_i_links (u32 (links + 1));
  vol_write v blkaddr child.

(** [update_free_segments] only reports progress. The return value, the volume, the cache
    and [de]. *)
Definition f2fs_create (v : vol) (cache : gmap Z Z) (de : dentry) : res (Z * vol * gmap Z Z * dentry) :=
  ni ← vol_node_info v (de_pino de);
  if ni_blk_addr ni =? NULL_ADDR then Ok (-1, v, cache, de)
  else
    let devino := de_from_devino de in
    let '(cache, to_ino) := if devino =? 0 then (cache, 0) else f2fs_search_hardlink cache de in
    parent ← vol_read v (ni_blk_addr ni);
    '(v, parent) ← convert_inline_dentry v parent (ni_blk_addr ni);
    found ← f2fs_find_entry v parent (de_name de) (de_len de);
    match found with
    | Some ino => Ok (0, v, cache, de_with_ino de (if de_file_type de =? F2FS_FT_REG_FILE then 0 else ino))
    | None =>
        linked ← (if negb (to_ino =? 0) then hni ← vol_node_info v to_ino; Ok (Some (ni_blk_addr hni)) else Ok None);
        match linked with
        | Some blkaddr =>
            if blkaddr =? NULL_ADDR then Ok (-1, v, cache, de)
            else
              let de := de_with_ino de to_ino in
              '(v, child) ← init_inode_block v (replicate 4096 0) de;
              mode ← get_le16 child ofs_i_mode;
              ftype ← map_de_type mode;
              '(ret, v, _) ← f2fs_add_link v parent (drop (Z.to_nat ofs_i_name) child) (de_len de) to_ino ftype (ni_blk_addr ni) true;
              if negb (ret =? 0) then Ok (0, v, cache, de)
              else v ← create_hardlink v blkaddr; Ok (0, v, cache, de)
        | None =>
            '(ino, v) ← vol_alloc_nid v;
            let de := de_with_ino de ino in
            '(v, child) ← init_inode_block v (replicate 4096 0) de;
            mode ← get_le16 child ofs_i_mode;
            ftype ← map_de_type mode;
            '(ret, v, _) ← f2fs_add_link v parent (drop (Z.to_nat ofs_i_name) child) (de_len de) ino ftype (ni_blk_addr ni) true;
            if negb (ret =? 0) then Ok (0, v, cache, de)
            else
              v ← create_child v child ino (ni_version ni);
              Ok (0, v, if devino =? 0 then cache else <[devino := ino]> cache, de)
        end
    end.

(** [f2fs_mkdir] and [f2fs_symlink] are [f2fs_create]. *)
Definition f2fs_mkdir := f2fs_create.
Definition f2fs_symlink := f2fs_create.
End Dir.
