(* ===== verification/DirLink.v ===== *)
(** Entries of a directory on a volume (fsck/dir.c): [f2fs_find_entry] over the levels of the
    hash table is a lookup in the lists of entries of the blocks a hash can be in, and an
    entry that [f2fs_add_link] adds to a block that is there is found afterwards. *)
From Stdlib Require Import ZArith Lia List Bool.
From stdpp Require Import base numbers list gmap.
From S2P Require Import Prelude Codec Bits Crc Node Dir Superblock Mkfs Checkpoint Nat Segment Fsck FileData FileTree FsckWalk DirVol.

(** * Names with a terminator *)

Lemma rd_bytes_prefix (name rest : list Z) : rd_bytes (name ++ rest) 0 (length name) = Ok name.
Proof. apply (rd_bytes_app [] name rest); done. Qed.
Lemma rd_bytes_len (name rest : list Z) : rd_bytes (name ++ rest) 0 (Z.to_nat (Z.of_nat (length name))) = Ok name.
Proof. rewrite Nat2Z.id. apply rd_bytes_prefix. Qed.

Lemma matches_rest buf d name rest hash pos :
  dentry_matches buf d (name ++ rest) (Z.of_nat (length name)) hash pos = dentry_matches buf d name (Z.of_nat (length name)) hash pos.
Proof.
  unfold dentry_matches. rewrite rd_bytes_len. pose proof (rd_bytes_len name []) as E. rewrite app_nil_r in E. by rewrite E.
Qed.
Lemma update_rest ino ftype buf d name rest hash pos :
  f2fs_update_dentry ino ftype buf d (name ++ rest) (Z.of_nat (length name)) hash pos
  = f2fs_update_dentry ino ftype buf d name (Z.of_nat (length name)) hash pos.
Proof.
  unfold f2fs_update_dentry. cbv zeta. rewrite rd_bytes_len. pose proof (rd_bytes_len name []) as E. rewrite app_nil_r in E. by rewrite E.
Qed.

(** The search reports how many free slots it saw, which changes nothing else. *)
Lemma find_loop_slots buf d name rest hash fuel : forall ms pos ml,
  (fst <$> find_target_dentry_loop fuel buf d (name ++ rest) (Z.of_nat (length name)) hash ms pos ml)
  = (fst <$> find_target_dentry_loop fuel buf d name (Z.of_nat (length name)) hash None pos ml).
Proof.
  induction fuel as [|fuel IH]; intros ms pos ml; cbn [find_target_dentry_loop]; [done|]. destruct (pos <? dp_max d); [|done].
  destruct (test_bit_le pos (bitmap_of buf d)) as [b| | |]; [|done..]. cbn [mbind res_bind]. destruct (b =? 0); [apply IH|].
  rewrite matches_rest. destruct (dentry_matches _ _ _ _ _ _) as [[]| | |]; [done| |done..]. cbn [mbind res_bind].
  destruct (get_le16 buf _) as [nl| | |]; [|done..]. cbn [mbind res_bind]. by rewrite IH.
Qed.

(** * One block *)

(** The inode of the first entry that matches. *)
Fixpoint find_ino (name : list Z) (hash : Z) (es : list (Z * dir_entry)) : option Z :=
  match es with
  | [] => None
  | (_, e) :: es => if e_matches e name hash then Some (e_ino e) else find_ino name hash es
  end.
Lemma find_ino_app name hash es1 es2 :
  find_ino name hash (es1 ++ es2) = match find_ino name hash es1 with Some x => Some x | None => find_ino name hash es2 end.
Proof. induction es1 as [|[p e] es1 IH]; [done|]. cbn [find_ino app]. by destruct (e_matches e name hash). Qed.

Lemma lookup_find_ino buf d pos es name hash : scan buf d pos es ->
  match lookup_entry name hash es with
  | Some p => exists x, find_ino name hash es = Some x /\ get_le32 buf (dp_dentry d + SIZE_OF_DIR_ENTRY * p + ofs_de_ino) = Ok x
  | None => find_ino name hash es = None
  end.
Proof.
  induction 1 as [|pos es Hlt Hb Hs IH|pos e es Hn Hle He Hb Hs IH]; [done|done|]. cbn [lookup_entry find_ino].
  destruct (e_matches e name hash); [|done]. exists (e_ino e). split; [done|]. apply He.
Qed.

Lemma find_in_block_scan b es name rest hash ms : dp_ok block_ptr b -> scan b block_ptr 0 es ->
  exists ms', find_in_block b (name ++ rest) (Z.of_nat (length name)) hash ms = Ok (lookup_entry name hash es, ms').
Proof.
  intros Hd Hs. unfold find_in_block. rewrite make_block_ptr, res_bind_ret. pose proof (find_target_scan b block_ptr name hash es Hd Hs) as E.
  unfold find_target_dentry in *. pose proof (find_loop_slots b block_ptr name rest hash (S (Z.to_nat (dp_max block_ptr))) ((fun _ => 0) <$> ms) 0 0) as E2.
  cbn [fmap option_fmap option_map] in E. rewrite E in E2. cbn [fmap res_fmap fst] in E2.
  destruct (find_target_dentry_loop _ b block_ptr (name ++ rest) _ hash _ 0 0) as [[r ms']| | |]; try discriminate E2.
  cbn in E2. apply Ok_inj in E2 as ->. by exists ms'.
Qed.

(** * A directory *)

(** Directory [ino] with the inode block [inode] at [a0], [nb] blocks at [A] that hold the
    entries [ES]. *)
Record dir_at (v : vol) (ino nb a0 : Z) (inode : list Z) (A : Z -> Z) (ES : Z -> list (Z * dir_entry)) (dl depth : Z) : Prop := {
  da_map : file_map (t := LINUX_S_IFDIR) v ino nb a0 inode A;
  da_ino : get_le32 inode ofs_ino = Ok ino /\ ino <> 0;
  da_level : rd inode ofs_i_dir_level = Ok dl;
  da_depth : get_le32 inode ofs_i_current_depth = Ok depth /\ 0 <= depth < MAX_DIR_HASH_DEPTH;
  da_small : 4096 * nb < 2 ^ 31;
  da_blocks : forall j, 0 <= j < nb -> exists b, v_disk v !! A j = Some b /\ dp_ok block_ptr b /\ scan b block_ptr 0 (ES j);
}.

(** The inode of the first entry that matches in the blocks [l]. *)
Fixpoint first_ino (name : list Z) (hash : Z) (ES : Z -> list (Z * dir_entry)) (l : list Z) : option Z :=
  match l with
  | [] => None
  | j :: l => match find_ino name hash (ES j) with Some x => Some x | None => first_ino name hash ES l end
  end.
Lemma first_ino_app name hash ES l1 l2 :
  first_ino name hash ES (l1 ++ l2) = match first_ino name hash ES l1 with Some x => Some x | None => first_ino name hash ES l2 end.
Proof. induction l1 as [|j l1 IH]; [done|]. cbn [first_ino app]. by destruct (find_ino name hash (ES j)). Qed.

(** The blocks in which a hash can be, in the order of the search. *)
Fixpoint probe (n : nat) (level dl hash : Z) : list Z :=
  match n with
  | O => []
  | S n => seqZ (hash_bucket level dl hash).1 (hash_bucket level dl hash).2 ++ probe n (level + 1) dl hash
  end.

Lemma dnode_data v dn0 idx mode v' dn : get_dnode_of_data v dn0 idx mode = Ok (0, v', dn) ->
  exists b, node_blk dn = Ok b /\ datablock_addr b (dn_ofs_in_node dn) = Ok (dn_data_blkaddr dn).
Proof.
  unfold get_dnode_of_data. intros (p & _ & H)%res_bind_Ok. cbv zeta in H. apply res_bind_Ok in H as (ni & _ & H).
  apply res_bind_Ok in H as ([[[[ret v1] dn1] nid] nblk] & _ & H). cbv beta iota in H. destruct (negb (ret =? 0)) eqn:E.
  - apply Ok_inj in H as [= -> _ _]. done.
  - apply res_bind_Ok in H as (b & Hb & H). apply res_bind_Ok in H as (a & Ha & H). apply Ok_inj in H as [= _ <-]. exists b. split; [|done].
    unfold node_blk in *. cbn [dn_node dn_inode]. done.
Qed.

Section Directory.
Context {c : fsck_conf} {v : vol} {ino nb a0 : Z} {inode : list Z} {A : Z -> Z} {ES : Z -> list (Z * dir_entry)} {dl depth : Z}.
Context (D : dir_at v ino nb a0 inode A ES dl depth).

(** The node of a block that is there. *)
Lemma dir_dnode j mode : 0 <= j < nb -> exists dn, get_dnode_of_data v (set_new_dnode inode ino) j mode = Ok (0, v, dn) /\
  dn_data_blkaddr dn = A j /\ dn_inode dn = inode /\ dn_idirty dn = false /\ dn_ndirty dn = false.
Proof.
  intros Hj. destruct (get_dnode_at v ino nb a0 inode A j mode (da_map _ _ _ _ _ _ _ _ _ D) Hj) as (dn & m & Hg & _ & [C1 C2 C3 (blk & Hb & Ha)] & _).
  exists dn. split; [done|]. destruct (dnode_data _ _ _ _ _ _ Hg) as (b & Hb' & Hd). rewrite Hb in Hb'. apply Ok_inj in Hb' as <-.
  specialize (Ha 0 ltac:(lia) ltac:(lia)). rewrite !Z.add_0_r in Ha. rewrite Hd in Ha. apply Ok_inj in Ha. by destruct C2.
Qed.

Lemma data_there j : 0 <= j < nb -> (A j =? NULL_ADDR) = false.
Proof. intros Hj. apply Z.eqb_neq. apply (fm_data _ _ _ _ _ _ (da_map _ _ _ _ _ _ _ _ _ D) j Hj). Qed.

Lemma find_in_blocks_spec name hash n : forall bidx, 0 <= bidx -> bidx + Z.of_nat n <= nb ->
  find_in_blocks n v inode ino (name ++ [0]) (Z.of_nat (length name)) hash bidx = Ok (first_ino name hash ES (seqZ bidx (Z.of_nat n))).
Proof.
  induction n as [|n IH]; intros bidx H0 Hn; cbn [find_in_blocks]; [done|].
  destruct (dir_dnode bidx LOOKUP_NODE) as (dn & -> & Ha & _); [lia|]. rewrite res_bind_ret, Ha, data_there by lia.
  destruct (da_blocks _ _ _ _ _ _ _ _ _ D bidx) as (b & Hb & Hd & Hs); [lia|]. rewrite (vol_read_Ok _ _ _ Hb), res_bind_ret.
  destruct (find_in_block_scan b (ES bidx) name [0] hash (Some 214) Hd Hs) as (ms & ->). rewrite res_bind_ret.
  rewrite (seqZ_cons bidx (Z.of_nat (S n))) by lia. replace (Z.pred (Z.of_nat (S n))) with (Z.of_nat n) by lia. change (Z.succ bidx) with (bidx + 1). cbn [first_ino].
  pose proof (lookup_find_ino b block_ptr 0 (ES bidx) name hash Hs) as Hl. destruct (lookup_entry name hash (ES bidx)) as [p|].
  - destruct Hl as (x & -> & Hx). rewrite make_block_ptr, res_bind_ret. by rewrite Hx, res_bind_ret.
  - rewrite Hl. apply IH; lia.
Qed.
(** A bucket inside the directory. *)
Lemma bucket_range level hash : (forall j, j ∈ seqZ (hash_bucket level dl hash).1 (hash_bucket level dl hash).2 -> 0 <= j < nb) ->
  let b := hash_bucket level dl hash in 0 <= b.1 /\ 0 < b.2 /\ b.1 + b.2 <= nb /\ nb < 2 ^ 19.
Proof.
  intros H b. assert (b.2 = 2 \/ b.2 = 4) as Hn by (subst b; unfold hash_bucket, bucket_blocks; cbn [snd]; destruct (_ <? _); auto).
  assert (0 <= b.1 < nb) by (apply H, elem_of_seqZ; fold b; lia).
  assert (0 <= b.1 + b.2 - 1 < nb) by (apply H, elem_of_seqZ; fold b; lia). pose proof (da_small _ _ _ _ _ _ _ _ _ D). lia.
Qed.

Lemma find_in_levels_spec name hash : dir_hash c inode (name ++ [0]) (Z.of_nat (length name)) = Ok hash ->
  forall n level, (forall j, j ∈ probe n level dl hash -> 0 <= j < nb) ->
  find_in_levels c n v inode level (name ++ [0]) (Z.of_nat (length name)) = Ok (first_ino name hash ES (probe n level dl hash)).
Proof.
  intros Hh. induction n as [|n IH]; intros level Hp; cbn [find_in_levels probe]; [done|]. cbn [probe] in Hp.
  unfold find_in_level. destruct (da_ino _ _ _ _ _ _ _ _ _ D) as [-> _]. rewrite res_bind_ret, Hh, res_bind_ret, (da_level _ _ _ _ _ _ _ _ _ D), res_bind_ret.
  destruct (bucket_range level hash) as (B0 & B1 & B2 & B3); [intros j Hj; apply Hp, elem_of_app; by left|].
  destruct (hash_bucket level dl hash) as [bidx nblock]. cbn [fst snd] in *. cbv zeta. rewrite !u32_id by (rewrite ?u32_id; unfold is_u32; lia).
  replace (bidx + nblock - bidx) with nblock by lia. rewrite find_in_blocks_spec by lia. rewrite res_bind_ret, Z2Nat.id by lia. rewrite first_ino_app.
  destruct (first_ino name hash ES (seqZ bidx nblock)); [done|]. apply IH. intros j Hj. apply Hp, elem_of_app. by right.
Qed.

(** Looking a name up is looking it up in the lists of entries of its blocks. *)
Lemma find_entry_spec name hash : dir_hash c inode (name ++ [0]) (Z.of_nat (length name)) = Ok hash ->
  (forall j, j ∈ probe (Z.to_nat depth) 0 dl hash -> 0 <= j < nb) ->
  f2fs_find_entry c v inode (name ++ [0]) (Z.of_nat (length name)) = Ok (first_ino name hash ES (probe (Z.to_nat depth) 0 dl hash)).
Proof.
  intros Hh Hp. unfold f2fs_find_entry. destruct (da_depth _ _ _ _ _ _ _ _ _ D) as [-> _]. rewrite res_bind_ret. by apply find_in_levels_spec.
Qed.

(** * The place of a new entry *)

(** What [room_for_filename] finds in a block. *)
Definition room_in (slots j : Z) : Z :=
  match v_disk v !! A j with Some b => match room_for_filename b slots NR_DENTRY_IN_BLOCK with Ok r => r | _ => 0 end | None => 0 end.

Lemma room_in_eq slots j b : 0 < slots -> 0 <= j < nb -> v_disk v !! A j = Some b -> room_for_filename b slots NR_DENTRY_IN_BLOCK = Ok (room_in slots j).
Proof.
  intros Hs Hj Hb. destruct (da_blocks _ _ _ _ _ _ _ _ _ D j Hj) as (b' & Hb' & Hd & _). rewrite Hb in Hb'. injection Hb' as <-.
  destruct (room_for_filename_first_fit b slots NR_DENTRY_IN_BLOCK) as (r & Hr & _); [done| |done|].
  - pose proof (dp_ok_nbits block_ptr b Hd) as Hn. change (bitmap_of b block_ptr) with b in Hn. change NR_DENTRY_IN_BLOCK with (dp_max block_ptr). split; [done|lia].
  - unfold room_in. by rewrite Hb, Hr.
Qed.

(** The first block with room. *)
Fixpoint first_room (slots : Z) (l : list Z) : option Z :=
  match l with [] => None | j :: l => if room_in slots j <? NR_DENTRY_IN_BLOCK then Some j else first_room slots l end.
Lemma first_room_app slots l1 l2 : first_room slots (l1 ++ l2) = match first_room slots l1 with Some j => Some j | None => first_room slots l2 end.
Proof. induction l1 as [|j l1 IH]; [done|]. cbn [first_room app]. by destruct (_ <? _). Qed.
Lemma first_room_split slots l j : first_room slots l = Some j -> exists l1 l2, l = l1 ++ j :: l2 /\ room_in slots j < NR_DENTRY_IN_BLOCK.
Proof.
  induction l as [|x l IH]; [done|]. cbn [first_room]. destruct (Z.ltb_spec (room_in slots x) NR_DENTRY_IN_BLOCK) as [Hlt|_].
  - intros [= <-]. by exists [], l.
  - intros H. destruct (IH H) as (l1 & l2 & -> & Hr). by exists (x :: l1), l2.
Qed.
Lemma add_link_blocks_spec slots depth' : 0 < slots -> forall n block, 0 <= block -> block + Z.of_nat n <= nb ->
  match first_room slots (seqZ block (Z.of_nat n)) with
  | Some j => exists dn b, get_dnode_of_data v (set_new_dnode inode ino) j ALLOC_NODE = Ok (0, v, dn) /\ dn_data_blkaddr dn = A j /\ dn_inode dn = inode /\
      dn_idirty dn = false /\ dn_ndirty dn = false /\ v_disk v !! A j = Some b /\
      add_link_blocks n v inode ino slots depth' block
      = Ok (v, inode, Some ({| lp_dn := dn; lp_block := j; lp_pos := room_in slots j; lp_depth := depth' |}, b))
  | None => add_link_blocks n v inode ino slots depth' block = Ok (v, inode, None)
  end.
Proof.
  intros Hs. induction n as [|n IH]; intros block H0 Hn; cbn [add_link_blocks]; [done|].
  pose proof (da_small _ _ _ _ _ _ _ _ _ D). rewrite u64_id by (unfold is_u64; lia).
  destruct (dir_dnode block ALLOC_NODE) as (dn & Hg & Ha & Hi & Hc1 & Hc2); [lia|]. rewrite Hg, res_bind_ret, Ha, data_there by lia.
  destruct (da_blocks _ _ _ _ _ _ _ _ _ D block) as (b & Hb & Hd & Hsc); [lia|]. rewrite (vol_read_Ok _ _ _ Hb), !res_bind_ret.
  rewrite (room_in_eq slots block b), res_bind_ret by (done || lia).
  rewrite (seqZ_cons block (Z.of_nat (S n))) by lia. replace (Z.pred (Z.of_nat (S n))) with (Z.of_nat n) by lia. change (Z.succ block) with (block + 1).
  cbn [first_room]. destruct (room_in slots block <? NR_DENTRY_IN_BLOCK).
  - exists dn, b. rewrite Hi. done.
  - rewrite Hi. exact (IH (block + 1) ltac:(lia) ltac:(lia)).
Qed.

Lemma add_link_levels_spec slots hash j : 0 < slots -> forall n level fuel, 0 <= level -> level + Z.of_nat n = depth -> (n < fuel)%nat ->
  (forall x, x ∈ probe n level dl hash -> 0 <= x < nb) -> first_room slots (probe n level dl hash) = Some j ->
  exists dn b, dn_data_blkaddr dn = A j /\ dn_inode dn = inode /\ dn_idirty dn = false /\ dn_ndirty dn = false /\ v_disk v !! A j = Some b /\
    add_link_levels fuel v inode ino slots hash dl level depth
    = Ok (v, inode, Some ({| lp_dn := dn; lp_block := j; lp_pos := room_in slots j; lp_depth := depth |}, b)).
Proof.
  intros Hs. induction n as [|n IH]; intros level fuel H0 Hn Hf Hp Hr; [done|]. destruct fuel as [|fuel]; [lia|]. cbn [add_link_levels probe] in *.
  destruct (da_depth _ _ _ _ _ _ _ _ _ D) as [_ Hd]. rewrite (proj2 (Z.eqb_neq depth MAX_DIR_HASH_DEPTH)), (proj2 (Z.eqb_neq level depth)) by lia. cbv zeta.
  destruct (bucket_range level hash) as (B0 & B1 & B2 & B3); [intros x Hx; apply Hp, elem_of_app; by left|].
  destruct (hash_bucket level dl hash) as [bidx nblock]. cbn [fst snd] in *. rewrite s32_small by lia.
  replace (bidx + nblock - 1 <? 2 ^ 31) with true by lia. cbn [defined_]. rewrite res_bind_ret.
  pose proof (add_link_blocks_spec slots depth Hs (Z.to_nat nblock) bidx B0 ltac:(lia)) as Hb. rewrite Z2Nat.id in Hb by lia. rewrite first_room_app in Hr.
  destruct (first_room slots (seqZ bidx nblock)) as [j'|].
  - injection Hr as ->. destruct Hb as (dn & b & _ & H1 & H2 & H3 & H4 & H5 & ->). rewrite res_bind_ret. by exists dn, b.
  - rewrite Hb, res_bind_ret. apply IH; [lia..| |done]. intros x Hx. apply Hp, elem_of_app. by right.
Qed.
(** * Adding an entry *)

(** The directory with other entries in block [j]. *)
Lemma dir_at_block j b' es' : 0 <= j < nb -> dp_ok block_ptr b' -> length b' = 4096%nat -> scan b' block_ptr 0 es' ->
  dir_at (with_vdisk v (<[A j := b']> (v_disk v))) ino nb a0 inode A (fun x => if x =? j then es' else ES x) dl depth.
Proof.
  intros Hj Hd Hl Hs. pose proof D as [D1 D2 D3 D4 D5 D6].
  assert (Hne : forall x, 0 <= x < nb -> x <> j -> A j <> A x) by (intros x Hx Hxj E; apply Hxj; by apply (fm_inj _ _ _ _ _ _ D1)).
  constructor; try done.
  - apply file_map_data; [done| |].
    + intros x Hx. apply lookup_insert_ne. intros E. by apply (Hx j Hj).
    + intros x Hx. destruct (Z.eq_dec x j) as [->|Hxj]; [exists b'; rewrite lookup_insert_eq; split_and!; try done; apply Hd|].
      rewrite lookup_insert_ne by (by apply Hne). by destruct (fm_data _ _ _ _ _ _ D1 x Hx) as (_ & _ & _ & ?).
  - intros x Hx. rewrite with_vdisk_disk. destruct (Z.eqb_spec x j) as [->|Hxj]; [exists b'; by rewrite lookup_insert_eq|].
    rewrite lookup_insert_ne by (by apply Hne). by apply D6.
Qed.
End Directory.

(** A new size in the inode. *)
Lemma dir_at_size {v ino nb a0 inode A ES dl depth} size : dir_at v ino nb a0 inode A ES dl depth -> 0 <= size < 2 ^ 64 ->
  exists i1 inode', set_le64 inode ofs_i_size size = Ok i1 /\ vol_write_inode v i1 a0 = Ok (with_vdisk v (<[a0 := inode']> (v_disk v)), inode') /\
    dir_at (with_vdisk v (<[a0 := inode']> (v_disk v))) ino nb a0 inode' A ES dl depth /\
    forall c name len, dir_hash c inode' name len = dir_hash c inode name len.
Proof.
  intros [D1 D2 D3 D4 D5 D6] Hs. destruct (set_size_spec _ _ _ _ _ _ size D1 Hs) as (i1 & inode' & H1 & H2 & H3 & H4 & S). exists i1, inode'.
  split; [done|]. split; [done|]. split; [constructor; try done|].
  - rewrite (same_get _ _ _ _ _ S) by (unfold ofs_ino; intros; lia). done.
  - rewrite S by (unfold ofs_i_dir_level; lia). done.
  - rewrite (same_get _ _ _ _ _ S) by (unfold ofs_i_current_depth; intros; lia). done.
  - intros j Hj. rewrite with_vdisk_disk, lookup_insert_ne; [by apply D6|]. intros E. by destruct (fm_data _ _ _ _ _ _ D1 j Hj) as (_ & _ & ? & _).
  - intros c name len. unfold dir_hash, IS_CASEFOLDED. by rewrite (same_get _ _ _ _ _ S) by (unfold ofs_i_flags; intros; lia).
Qed.

(** The slots for a name are free in the block, and the byte after it is not in use. *)
Definition fits (v : vol) (A : Z -> Z) (j p len : Z) : Prop :=
  len mod 8 <> 0 \/ p + GET_DENTRY_SLOTS len < 214 /\ exists b, v_disk v !! A j = Some b /\ dbit b block_ptr (p + GET_DENTRY_SLOTS len) = false.

Lemma add_link_spec {c v ino nb a0 inode A ES dl depth} (D : dir_at v ino nb a0 inode A ES dl depth) name hash j child ftype inc :
  let len := Z.of_nat (length name) in
  let p := room_in (v := v) (A := A) (GET_DENTRY_SLOTS len) j in
  dir_hash c inode (name ++ [0]) len = Ok hash -> is_u32 hash -> bytes name -> 0 < len < 2 ^ 16 -> is_u32 child -> is_u8 ftype ->
  inc && (ftype =? F2FS_FT_DIR) = false ->
  (forall x, x ∈ probe (Z.to_nat depth) 0 dl hash -> 0 <= x < nb) ->
  first_room (v := v) (A := A) (GET_DENTRY_SLOTS len) (probe (Z.to_nat depth) 0 dl hash) = Some j -> fits v A j p len ->
  exists v' inode' es1 es2, f2fs_add_link c v inode (name ++ [0]) len child ftype a0 inc = Ok (0, v', inode') /\ ES j = es1 ++ es2 /\
    dir_at v' ino nb a0 inode' A
      (fun x => if x =? j then es1 ++ (p, {| e_hash := hash; e_ino := child; e_type := ftype; e_name := name |}) :: es2 else ES x) dl depth /\
    only_file v v' nb a0 A /\ forall c name len, dir_hash c inode' name len = dir_hash c inode name len.
Proof.
  intros len p Hh Hu Hb Hlen Hc Ht Hinc Hp Hr Hfit.
  destruct (slots_bounds len ltac:(lia)) as (S1 & _). destruct (da_depth _ _ _ _ _ _ _ _ _ D) as [Hdep Hd]. destruct (da_ino _ _ _ _ _ _ _ _ _ D) as [Hino Hne].
  destruct (first_room_split _ _ _ Hr) as (l1 & l2 & El & Hlt). assert (0 <= j < nb) as Hj by (apply Hp; rewrite El, elem_of_app; right; by left).
  destruct (add_link_levels_spec D (GET_DENTRY_SLOTS len) hash j ltac:(lia) (Z.to_nat depth) 0 64) as (dn & b & Ha & Hi & Hd1 & Hd2 & Hblk & Hlv); try done; try lia.
  { unfold MAX_DIR_HASH_DEPTH in Hd. lia. }
  destruct (da_blocks _ _ _ _ _ _ _ _ _ D j Hj) as (b2 & Hblk2 & Hok & Hsc). rewrite Hblk in Hblk2. injection Hblk2 as <-.
  destruct (insert_scan b block_ptr (ES j) name hash child ftype p Hok Hsc Hb Hlen Hu Hc Ht) as (b' & es1 & es2 & Hup & Hok' & Hl' & Hes & Hsc').
  { change (bitmap_of b block_ptr) with b. apply (room_in_eq D); [lia|done|done]. }
  { done. }
  { destruct Hfit as [Hm|(Hlt2 & b3 & Hb3 & Hbit)]; [by left|right]. rewrite Hblk in Hb3. injection Hb3 as <-. done. }
  assert (length b = 4096%nat) as Hl.
  { destruct (fm_data _ _ _ _ _ _ (da_map _ _ _ _ _ _ _ _ _ D) j Hj) as (_ & _ & _ & x & Hx & Hxl & _). rewrite Hblk in Hx. by injection Hx as <-. }
  pose proof (dir_at_block D j b' _ Hj Hok' ltac:(congruence) Hsc') as D1. set (v1 := with_vdisk v _) in D1.
  assert (only_file v v1 nb a0 A) as O1 by (exists (<[A j := b']> (v_disk v)); split; [done|]; intros x _ Hx; apply lookup_insert_ne; intros E; by apply (Hx j)).
  unfold f2fs_add_link. rewrite Hh, res_bind_ret, Hino, res_bind_ret, (da_level _ _ _ _ _ _ _ _ _ D), res_bind_ret, (proj2 (Z.eqb_neq _ _) Hne), Hdep, res_bind_ret.
  rewrite s32_small by (unfold MAX_DIR_HASH_DEPTH in Hd; lia). fold len. rewrite Hlv, res_bind_ret, make_block_ptr, res_bind_ret.
  unfold len. rewrite update_rest. fold len. fold len in Hup. cbn [lp_pos lp_dn]. fold p. rewrite Hup, res_bind_ret, Ha, (vol_write_Ok _ _ _ (mk_is_Some _ _ Hblk)), res_bind_ret. fold v1.
  unfold link_inode. cbn [lp_dn lp_depth lp_block]. rewrite Hi, Hdep, res_bind_ret, u32_id by (unfold is_u32, MAX_DIR_HASH_DEPTH in *; lia).
  rewrite Z.eqb_refl, Hinc. cbn [negb]. rewrite !res_bind_ret. pose proof (da_small _ _ _ _ _ _ _ _ _ D).
  replace ((j + 1) * F2FS_BLKSIZE <? 2 ^ 31) with true by lia. cbn [defined_]. rewrite res_bind_ret.
  destruct (fm_good _ _ _ _ _ _ (da_map _ _ _ _ _ _ _ _ _ D)) as [Hil Hib].
  destruct (get_le_total 8 inode ofs_i_size) as [sz Hsz]; [done|unfold ofs_i_size; lia|]. rewrite Hi, Hsz, res_bind_ret. cbv zeta.
  rewrite u64_id by (unfold is_u64; lia). destruct (sz <? (j + 1) * F2FS_BLKSIZE).
  - destruct (dir_at_size ((j + 1) * F2FS_BLKSIZE) D1 ltac:(lia)) as (i1 & inode' & -> & Hw & D2 & Hhash). rewrite !res_bind_ret.
    cbn [dn_with_inode dn_ndirty dn_idirty dn_inode]. rewrite Hd2, res_bind_ret, Hw, res_bind_ret. eexists _, inode', es1, es2. split; [reflexivity|]. split; [done|].
    split; [exact D2|]. split; [|done]. eapply only_file_trans; [exact O1|]. eexists. split; [reflexivity|]. intros x Hx _. by apply lookup_insert_ne.
  - rewrite res_bind_ret, Hd2, res_bind_ret, Hd1, Hi. exists v1, inode, es1, es2. done.
Qed.

(** Finding the new entry, and the others as before. *)
Lemma first_ino_new name hash ES j es' x l : find_ino name hash es' = Some x -> (forall y, y ∈ l -> find_ino name hash (ES y) = None) -> j ∈ l ->
  first_ino name hash (fun y => if y =? j then es' else ES y) l = Some x.
Proof.
  intros He. induction l as [|y l IH]; [by intros _ H%not_elem_of_nil|]. intros Hno Hj. cbn [first_ino]. destruct (Z.eqb_spec y j) as [->|Hne]; [by rewrite He|].
  rewrite Hno by left. apply IH; [intros z Hz; apply Hno; by right|]. by apply elem_of_cons in Hj as [->|].
Qed.
Lemma first_ino_None name hash ES l : first_ino name hash ES l = None -> forall y, y ∈ l -> find_ino name hash (ES y) = None.
Proof.
  induction l as [|z l IH]; [by intros _ y H%not_elem_of_nil|]. cbn [first_ino]. destruct (find_ino name hash (ES z)) eqn:E; [done|].
  intros H y [->|Hy]%elem_of_cons; [done|by apply IH].
Qed.
Lemma first_ino_ext name hash ES ES' l : (forall y, find_ino name hash (ES' y) = find_ino name hash (ES y)) -> first_ino name hash ES' l = first_ino name hash ES l.
Proof. intros H. induction l as [|y l IH]; [done|]. cbn [first_ino]. by rewrite H, IH. Qed.

(** * Properties *)


(** A directory with two blocks, both without entries. *)
Definition empty_dir : list Z :=
  foldl (fun b e => splice b e.1 e.2) zero_block
    [(ofs_i_mode, le_bytes 2 0x41ed); (ofs_i_inline, [F2FS_EXTRA_ATTR]); (ofs_i_links, le_bytes 4 2); (ofs_i_current_depth, le_bytes 4 1);
     (ofs_i_extra_isize, le_bytes 2 3680); (4040, mjoin (le_bytes 4 <$> [6000; 6001])); (ofs_nid, le_bytes 4 4); (ofs_ino, le_bytes 4 4)].
Definition dir_vol : vol := sample_vol (<[2560 := nat_entries [(4, 5000)]]> (<[5000 := empty_dir]> (zero_disk 6000 2))).
Definition link_conf : fsck_conf := {|
  k_fix_on := true; k_writable := true; k_preen_mode := 0; k_cur_qtype := -1; k_root_ino := 3; k_casefold := fun _ => None |}.

Lemma dir_vol_block j : 0 <= j < 2 -> v_disk dir_vol !! (6000 + j) = Some zero_block.
Proof. intros Hj. cbn [v_disk dir_vol sample_vol v_seg sg_disk]. rewrite !lookup_insert_ne by lia. apply zero_disk_lookup. lia. Qed.
Lemma zero_block_entries : dp_ok block_ptr zero_block /\ scan zero_block block_ptr 0 [].
Proof.
  split.
  - constructor; [cbn; lia..|vm_compute; discriminate|vm_compute; discriminate|apply bytes_zero_block].
  - apply (scan_tail _ _ 214); [reflexivity|]. intros i _. unfold dbit, bitmap_of, bit_le, bit_at. change (drop (Z.to_nat (dp_bitmap block_ptr)) zero_block) with zero_block.
    unfold zero_block. destruct (replicate 4096 0 !! _) as [b|] eqn:E; [|done]. apply lookup_replicate in E as [-> _]. apply Z.testbit_0_l.
Qed.
Lemma dir_vol_at : dir_at dir_vol 4 2 5000 empty_dir (fun j => 6000 + j) (fun _ => []) 0 1.
Proof.
  constructor.
  - constructor.
    + exists 2560. eexists. split_and!; [vm_compute; reflexivity|vm_compute; reflexivity|reflexivity|lia].
    + cbn [v_disk dir_vol sample_vol v_seg sg_disk]. rewrite lookup_insert_ne by lia. apply lookup_insert_eq.
    + split; [vm_compute; reflexivity|apply bytes_forallb; vm_compute; reflexivity].
    + vm_compute. reflexivity.
    + intros _. exists 920. split; [vm_compute; reflexivity|lia].
    + intros j Hj. exists [2560]. assert (j = 0 \/ j = 1) as [->| ->] by lia; (split; [vm_compute; reflexivity|]);
        (split; [|intros k Hk]; rewrite not_elem_of_cons; split; try lia; apply not_elem_of_nil).
    + intros j Hj. split; [unfold NULL_ADDR; lia|]. split; [change NEW_ADDR with (2 ^ 32 - 1); lia|]. split; [lia|]. exists zero_block.
      split; [by apply dir_vol_block|]. split; [apply length_replicate|apply bytes_zero_block].
    + intros j k _ _ Hjk. lia.
  - split; [vm_compute; reflexivity|lia].
  - vm_compute. reflexivity.
  - split; [vm_compute; reflexivity|unfold MAX_DIR_HASH_DEPTH; lia].
  - lia.
  - intros j Hj. exists zero_block. split; [by apply dir_vol_block|apply zero_block_entries].
Qed.


(** A full volume with a directory whose first block is missing. *)
Definition holes_dir : list Z :=
  foldl (fun b e => splice b e.1 e.2) zero_block
    [(ofs_i_mode, le_bytes 2 0x41ed); (ofs_i_links, le_bytes 4 2); (ofs_i_current_depth, le_bytes 4 1); (ofs_nid, le_bytes 4 4); (ofs_ino, le_bytes 4 4)].
Definition full_vol : vol :=
  let v := sample_vol (<[0 := replicate 4096 7]> (<[2560 := nat_entries [(4, 5000)]]> {[5000 := holes_dir]})) in
  with_seg v (with_counts (v_seg v) {| n_valid_block := 8000; n_valid_node := 0; n_valid_inode := 0; n_chk_blk := 8000; n_chk_node := 0; n_chk_inode := 0 |}).

(** The return value, [c.alloc_failed], the slot of the name in block 0 and what looking the name up gives. *)
Definition link_result (name : list Z) (r : res (Z * vol * list Z)) : option (Z * bool * option Z * Z) :=
  match r with
  | Ok (ret, v, inode) =>
      match (h ← dir_hash link_conf inode name 1; b ← vol_read v 0; '(p, _) ← find_in_block b name 1 h None; Ok p), f2fs_lookup link_conf v inode name 1 with
      | Ok p, Ok found => Some (ret, v_alloc_failed v, p, found)
      | _, _ => None
      end
  | _ => None
  end.

(** [f2fs_add_link] does not look at what [new_data_block] returns. On a volume without a
    free block it returns 0 all the same, although the name is not found afterwards: the
    block of entries is written to address 0, over the first copy of the superblock. *)
Theorem add_link_overwrites_superblock : v_disk full_vol !! 0 = Some (replicate 4096 7) /\
  link_result [97; 0] (f2fs_add_link link_conf full_vol holes_dir [97; 0] 1 9 1 5000 false) = Some (0, true, Some 0, 0).
Proof. split; vm_compute; reflexivity. Qed.
