(* ===== verification/FsckRun.v ===== *)
(** A run of fsck around the walk (fsck/fsck.c, fsck/main.c, fsck/mount.c): the maps it
    starts from ([fsck_init], [build_nat_area_bitmap]), the quick check of the metadata
    ([fsck_chk_meta]), orphans, quota inodes, current segments, lost files, the verdict and
    the repair of the tables ([fsck_verify]), and the order of all this ([do_fsck]).

    [run_st] adds to [fsck_st] of FsckWalk what these parts keep in [fsck->chk], [sbi] and
    [c]. Configuration that is only read is in [run_conf]; [c.fix_on], which [do_fsck] may
    set, and [cur_qtype] are changed by passing another [fsck_conf]. *)
From Stdlib Require Import ZArith Lia List Bool.
From stdpp Require Import base numbers list gmap.
From S2P Require Import Prelude Codec Bits Crc Node Dir Superblock Mkfs Checkpoint Nat NatBits Segment Sit Fsck Curseg CkptWrite Quota QuotaV2 QuotaOpen QuotaMk FileData FileTree FileQuota FsckWalk DirVol.

(** [rc_scanf] is what [scanf] returns for the question about lost files; [rc_sizes] what
    the handles of quota files hold before they are set. *)
Record run_conf := {
  rc_ro : bool;
  rc_show_file_map : bool;
  rc_now : Z;
  rc_root_uid : Z;
  rc_root_gid : Z;
  rc_uid : Z;
  rc_gid : Z;
  rc_preserve_limits : bool;
  rc_bug_nat_bits : bool;
  rc_scanf : Z;
  rc_sizes : list Z;
}.

Record run_st := {
  r_fsck : fsck_st;
  r_nat_cnt : Z;
  r_nat_inodes : Z;
  r_sit_free : Z;
  r_fix_chksum : bool;
  r_wp_fixed : bool;
  r_quota_fixed : bool;
  r_cur_cp : Z;
  r_cp_backuped : bool;
}.

Definition with_fsck (r : run_st) (st : fsck_st) : run_st := {|
  r_fsck := st; r_nat_cnt := r_nat_cnt r; r_nat_inodes := r_nat_inodes r; r_sit_free := r_sit_free r; r_fix_chksum := r_fix_chksum r;
  r_wp_fixed := r_wp_fixed r; r_quota_fixed := r_quota_fixed r; r_cur_cp := r_cur_cp r; r_cp_backuped := r_cp_backuped r |}.
Definition with_cp (r : run_st) (cur_cp : Z) (backuped : bool) : run_st := {|
  r_fsck := r_fsck r; r_nat_cnt := r_nat_cnt r; r_nat_inodes := r_nat_inodes r; r_sit_free := r_sit_free r; r_fix_chksum := r_fix_chksum r;
  r_wp_fixed := r_wp_fixed r; r_quota_fixed := r_quota_fixed r; r_cur_cp := cur_cp; r_cp_backuped := backuped |}.
Definition with_fix_chksum (r : run_st) : run_st := {|
  r_fsck := r_fsck r; r_nat_cnt := r_nat_cnt r; r_nat_inodes := r_nat_inodes r; r_sit_free := r_sit_free r; r_fix_chksum := true;
  r_wp_fixed := r_wp_fixed r; r_quota_fixed := r_quota_fixed r; r_cur_cp := r_cur_cp r; r_cp_backuped := r_cp_backuped r |}.
Definition with_wp_fixed (r : run_st) : run_st := {|
  r_fsck := r_fsck r; r_nat_cnt := r_nat_cnt r; r_nat_inodes := r_nat_inodes r; r_sit_free := r_sit_free r; r_fix_chksum := r_fix_chksum r;
  r_wp_fixed := true; r_quota_fixed := r_quota_fixed r; r_cur_cp := r_cur_cp r; r_cp_backuped := r_cp_backuped r |}.
Definition with_quota_fixed (r : run_st) (b : bool) : run_st := {|
  r_fsck := r_fsck r; r_nat_cnt := r_nat_cnt r; r_nat_inodes := r_nat_inodes r; r_sit_free := r_sit_free r; r_fix_chksum := r_fix_chksum r;
  r_wp_fixed := r_wp_fixed r; r_quota_fixed := b; r_cur_cp := r_cur_cp r; r_cp_backuped := r_cp_backuped r |}.

Definition with_fix (c : fsck_conf) : fsck_conf := {|
  k_fix_on := true; k_writable := k_writable c; k_preen_mode := k_preen_mode c; k_cur_qtype := k_cur_qtype c; k_root_ino := k_root_ino c;
  k_casefold := k_casefold c |}.
Definition with_qtype (c : fsck_conf) (q : Z) : fsck_conf := {|
  k_fix_on := k_fix_on c; k_writable := k_writable c; k_preen_mode := k_preen_mode c; k_cur_qtype := q; k_root_ino := k_root_ino c;
  k_casefold := k_casefold c |}.

(** * The maps at the start *)

(** [nat_area_bitmap], [entries], [valid_nat_entry_cnt], [nat_valid_inode_cnt] and whether
    [ASSERT_MSG] was reached. *)
Record nat_area := { na_bitmap : list Z; na_entries : list (list Z); na_valid : Z; na_inodes : Z; na_bug : bool }.
Definition na_set (a : nat_area) (nid : Z) (valid inodes : Z) (bug : bool) : res nat_area :=
  '(_, bm) ← f2fs_set_bit nid (na_bitmap a);
  Ok {| na_bitmap := bm; na_entries := na_entries a; na_valid := u32 (na_valid a + valid); na_inodes := u32 (na_inodes a + inodes); na_bug := na_bug a || bug |}.
Definition na_store (a : nat_area) (nid : Z) (raw : list Z) : res nat_area :=
  es ← wr (na_entries a) nid raw;
  Ok {| na_bitmap := na_bitmap a; na_entries := es; na_valid := na_valid a; na_inodes := na_inodes a; na_bug := na_bug a |}.

(** An entry of a block of the table. *)
Definition nat_area_entry (ns : nat_state) (a : nat_area) (nid : Z) (raw : list Z) : res nat_area :=
  if (nid =? ns_node_ino ns) || (nid =? ns_meta_ino ns) then
    blk ← get_le32 raw ofs_ne_block_addr;
    if negb (blk =? 1) then na_set a nid 0 0 true else Ok a
  else
    ni ← node_info_from_raw_nat nid raw;
    if ni_blk_addr ni =? 0 then Ok a
    else
      a ← na_set a nid (if nid =? 0 then 0 else 1) (if ni_ino ni =? nid then 1 else 0) ((ni_ino ni =? 0) || (nid =? 0));
      na_store a nid raw.

Fixpoint nat_area_block (n : nat) (ns : nat_state) (a : nat_area) (nat_block : list Z) (nid i : Z) : res nat_area :=
  match n with
  | O => Ok a
  | S n =>
      raw ← nat_block_entry nat_block i;
      a ← nat_area_entry ns a (nid + i) raw;
      nat_area_block n ns a nat_block nid (i + 1)
  end.
Fixpoint nat_area_blocks (n : nat) (ns : nat_state) (a : nat_area) (block_off : Z) : res nat_area :=
  match n with
  | O => Ok a
  | S n =>
      let nid := block_off * NAT_ENTRY_PER_BLOCK in
      '(block_addr, _) ← current_nat_addr ns nid;
      nat_block ← disk_read_or_die (ns_disk ns) block_addr;
      a ← nat_area_block (Z.to_nat NAT_ENTRY_PER_BLOCK) ns a nat_block nid 0;
      nat_area_blocks n ns a (block_off + 1)
  end.

(** An entry of the journal replaces the one counted before. *)
Definition nat_area_replace (a : nat_area) (nid : Z) (raw : list Z) : res nat_area :=
  old ← rd (na_entries a) nid;
  old_blk ← get_le32 old ofs_ne_block_addr;
  old_ino ← get_le32 old ofs_ne_ino;
  a ← (if negb (old_blk =? 0) then
         '(_, bm) ← f2fs_clear_bit nid (na_bitmap a);
         Ok {| na_bitmap := bm; na_entries := na_entries a; na_valid := u32 (na_valid a - 1);
               na_inodes := if old_ino =? nid then u32 (na_inodes a - 1) else na_inodes a; na_bug := na_bug a |}
       else Ok a);
  ni ← node_info_from_raw_nat nid raw;
  a ← (if negb (ni_blk_addr ni =? 0) then na_set a nid 1 (if ni_ino ni =? nid then 1 else 0) (ni_ino ni =? 0) else Ok a);
  na_store a nid raw.
Fixpoint nat_area_journal (n : nat) (sum : list Z) (a : nat_area) (i : Z) : res nat_area :=
  match n with
  | O => Ok a
  | S n =>
      nid ← nid_in_journal sum i;
      raw ← nat_in_journal sum i;
      a ← nat_area_replace a nid raw;
      nat_area_journal n sum a (i + 1)
  end.

Definition nr_nat_blks (ns : nat_state) : Z := u32 (Z.shiftl (sb_segment_count_nat (ns_sb ns) / 2) (ns_log ns)).
Definition nr_nat_entries (ns : nat_state) : Z := u32 (nr_nat_blks ns * NAT_ENTRY_PER_BLOCK).
Definition build_nat_area_bitmap (ns : nat_state) : res nat_area :=
  let n := nr_nat_entries ns in
  a ← nat_area_blocks (Z.to_nat (nr_nat_blks ns)) ns
        {| na_bitmap := replicate (Z.to_nat (u32 (n + 7) / 8)) 0; na_entries := replicate (Z.to_nat n) (replicate 9 0);
           na_valid := 0; na_inodes := 0; na_bug := false |} 0;
  count ← nats_in_cursum (ns_sum ns);
  nat_area_journal (Z.to_nat count) (ns_sum ns) a 0.

(** From a mounted volume; [bug] is [c.bug_on] after mounting. *)
Definition fsck_init (v : vol) (cur_cp : Z) (backuped bug : bool) (qf : list qf_check) : res run_st :=
  let g := sg (v_seg v) in
  let sz := (u32 (Z.shiftl (g_main_segments g) (g_log g)) + 7) / 8 in
  ns ← nat_view v;
  a ← build_nat_area_bitmap ns;
  let s := with_area_maps (v_seg v) (replicate (Z.to_nat sz) 0) [] in
  '(s, _, free) ← build_sit_area_bitmap s sz;
  Ok {| r_fsck := {| fk_vol := put_nat (with_seg v s) (with_entries ns (na_entries a)); fk_nat_area := na_bitmap a; fk_links := []; fk_multi := 0;
                     fk_bug := bug || na_bug a; fk_qctx := None; fk_qf := qf |};
        r_nat_cnt := na_valid a; r_nat_inodes := na_inodes a; r_sit_free := free; r_fix_chksum := false; r_wp_fixed := false;
        r_quota_fixed := false; r_cur_cp := cur_cp; r_cp_backuped := backuped |}.

(** * Current segments *)

Section Run.
Context (c : fsck_conf).

Definition only_hot (g : seg_cfg) (type : Z) : bool := RO g && negb (type =? CURSEG_HOT_DATA) && negb (type =? CURSEG_HOT_NODE).

(** Whether a block from [j] on, [n] of them, is in use. *)
Fixpoint used_from (n : nat) (map : list Z) (j : Z) : res bool :=
  match n with
  | O => Ok false
  | S n => b ← f2fs_test_bit j map; if negb (b =? 0) then Ok true else used_from n map (j + 1)
  end.

(** The return value; a value that is not 0 comes with [ASSERT_MSG]. *)
Definition check_curseg_offset (s : seg_state) (type : Z) : res Z :=
  let g := sg s in
  curseg ← rd (sg_cursegs s) type;
  if only_hot g type then Ok 0
  else
    let off := cs_next_blkoff curseg in
    if SIT_VBLOCK_MAP_SIZE <=? Z.shiftr off 3 then Ok (- EINVAL)
    else
      se ← get_seg_entry s (cs_segno curseg);
      b ← f2fs_test_bit off (se_cur_map se);
      if negb (b =? 0) then Ok (- EINVAL)
      else if cs_alloc_type curseg =? SSR then Ok 0
      else
        used ← used_from (Z.to_nat (blocks_per_seg g - (off + 1))) (se_cur_map se) (off + 1);
        Ok (if used : bool then - EINVAL else 0).

Fixpoint check_offsets_loop (n : nat) (s : seg_state) (i : Z) : res Z :=
  match n with
  | O => Ok 0
  | S n => r ← check_curseg_offset s i; if negb (r =? 0) then Ok r else check_offsets_loop n s (i + 1)
  end.
(** The return value and the state with [bug_on]. *)
Definition check_curseg_offsets (st : fsck_st) : res (Z * fsck_st) :=
  r ← check_offsets_loop (Z.to_nat NO_CHECK_TYPE) (fk_seg st) 0; Ok (r, assert_msg st (negb (r =? 0))).

Definition repairs : bool := k_fix_on c || negb (k_preen_mode c =? 0).

(** The current segment of type [i]. *)
Definition chk_curseg (st : fsck_st) (i : Z) : res fsck_st :=
  curseg ← rd (sg_cursegs (fk_seg st)) i;
  se ← get_seg_entry (fk_seg st) (cs_segno curseg);
  if only_hot (sg (fk_seg st)) i then Ok st
  else
    st ← (if negb (se_type se =? i) then
            s ← (if repairs then set_seg_entry (fk_seg st) (cs_segno curseg) (set_se_type se i) else Ok (fk_seg st));
            Ok (assert_msg (with_fseg st s) true)
          else Ok st);
    data ← IS_SUM_DATA_SEG (cs_sum_blk curseg);
    node ← IS_SUM_NODE_SEG (cs_sum_blk curseg);
    let fits : bool := if i <=? CURSEG_COLD_DATA then data else node in
    if fits then Ok st
    else
      s ← (if repairs then
             b ← wr (cs_sum_blk curseg) ofs_sum_footer (if i <=? CURSEG_COLD_DATA then SUM_TYPE_DATA else SUM_TYPE_NODE);
             store_sum_blk (fk_seg st) (Some i) b
           else Ok (fk_seg st));
      Ok (assert_msg (with_fseg st s) true).
Fixpoint chk_cursegs (n : nat) (st : fsck_st) (i : Z) : res fsck_st :=
  match n with
  | O => Ok st
  | S n => st ← chk_curseg st i; chk_cursegs n st (i + 1)
  end.
Definition fsck_chk_curseg_info (st : fsck_st) : res fsck_st := chk_cursegs (Z.to_nat NO_CHECK_TYPE) st 0.

(** * Orphans *)

Definition PREEN_MODE_1 : Z := 1.
Definition ofs_orphan_entry_count : Z := 4088.
(** Only the metadata is checked, nothing is repaired. *)
Definition quick : bool := (k_preen_mode c =? PREEN_MODE_1) && negb (k_fix_on c).

Definition quick_nid (st : fsck_st) (ino : Z) : res bool :=
  ni ← vol_node_info (fk_vol st) ino;
  vn ← valid_nid_b st ino;
  vb ← valid_blk_b st (ni_blk_addr ni);
  Ok (vn && vb).

(** The entries of one block from [j] on: whether to go on, the state, the entries that
    stay. *)
Fixpoint orphan_entries (n : nat) (st : fsck_st) (orphan_blk : list Z) (j : Z) (kept : list Z) : res (bool * fsck_st * list Z) :=
  match n with
  | O => Ok (true, st, kept)
  | S n =>
      _ ← defined_ (j <? 1020);
      ino ← get_le32 orphan_blk (4 * j);
      if quick then
        ok ← quick_nid st ino;
        if ok : bool then orphan_entries n st orphan_blk (j + 1) kept else Ok (false, st, kept)
      else
        '(ret, st) ← check_tree c st ino F2FS_FT_ORPHAN;
        if ret =? 0 then orphan_entries n st orphan_blk (j + 1) (kept ++ [ino])
        else orphan_entries n (assert_msg st (negb (k_fix_on c))) orphan_blk (j + 1) kept
  end.

Fixpoint orphan_blocks_loop (n : nat) (st : fsck_st) (a : Z) : res (Z * fsck_st) :=
  match n with
  | O => Ok (0, st)
  | S n =>
      orphan_blk ← vol_read (fk_vol st) (u32 a);
      entry_count ← get_le32 orphan_blk ofs_orphan_entry_count;
      '(go, st, kept) ← orphan_entries (Z.to_nat entry_count) st orphan_blk 0 [];
      if negb go then Ok (- EINVAL, st)
      else
        let count := Z.of_nat (length kept) in
        st ← (if k_writable c && k_fix_on c && negb (entry_count =? count) then
                new_blk ← wr_list (replicate 4096 0) 0 (concat (le_bytes 4 <$> kept));
                new_blk ← set_le32 new_blk ofs_orphan_entry_count count;
                st_write st (u32 a) new_blk
              else Ok st);
        orphan_blocks_loop n st (a + 1)
  end.

Definition fsck_chk_orphan_node (r : run_st) : res (Z * run_st) :=
  let st := r_fsck r in
  let g := sg (fk_seg st) in
  present ← is_set_ckpt_flags (g_ckpt g) CP_ORPHAN_PRESENT_FLAG;
  if negb present then Ok (0, r)
  else
    let payload := sb_cp_payload (g_super g) in
    let start_blk := u32 (__start_cp_addr (g_super g) (blocks_per_seg g) (r_cur_cp r) + 1 + payload) in
    sum ← __start_sum_addr (g_ckpt g);
    '(ret, st) ← orphan_blocks_loop (Z.to_nat (u32 (sum - 1 - payload))) st start_blk;
    Ok (ret, with_fsck r st).

(** * Quota inodes *)

Definition FS_IMMUTABLE_FL : Z := 0x10.
Definition CP_CRC_RECOVERY_FLAG : Z := 0x40.
Definition QF_SZCHK_ERR : Z := 1.

Definition f2fs_init_qf_inode (rc : run_conf) (feature qf_ino : Z) : res (list Z) :=
  b ← set_le32 (replicate 4096 0) ofs_nid qf_ino;
  b ← set_le32 b ofs_ino qf_ino;
  b ← set_le64 b ofs_cp_ver 1;
  b ← set_le16 b ofs_i_mode 0x8180;
  b ← set_le32 b ofs_i_links 1;
  b ← set_le32 b ofs_i_uid (u32 (rc_root_uid rc));
  b ← set_le32 b ofs_i_gid (u32 (rc_root_gid rc));
  b ← set_le64 b ofs_i_size (1024 * 6);
  b ← set_le64 b ofs_i_blocks 1;
  b ← set_le64 b ofs_i_atime (u32 (rc_now rc));
  b ← set_le64 b ofs_i_ctime (u32 (rc_now rc));
  b ← set_le64 b ofs_i_mtime (u32 (rc_now rc));
  b ← set_le32 b ofs_i_flags FS_IMMUTABLE_FL;
  b ← (if has_feature feature F2FS_FEATURE_EXTRA_ATTR then
         b ← wr b ofs_i_inline F2FS_EXTRA_ATTR;
         set_le16 b ofs_i_extra_isize (calc_extra_isize feature)
       else Ok b);
  if has_feature feature F2FS_FEATURE_PRJQUOTA then set_le32 b ofs_i_projid 0 else Ok b.

(** A new inode for the quota file of the type; the return value is not looked at. *)
Definition f2fs_rebuild_qf_inode (rc : run_conf) (st : fsck_st) (ino : Z) : res fsck_st :=
  let cp := g_ckpt (sg (fk_seg st)) in
  raw_node ← f2fs_init_qf_inode rc (fk_feature st) ino;
  ver ← get_le64 cp ofs_checkpoint_ver;
  crc_flag ← is_set_ckpt_flags cp CP_CRC_RECOVERY_FLAG;
  ver ← (if crc_flag : bool then crc ← get_cp_crc cp; Ok (Z.lor ver (u64 (Z.shiftl crc 32))) else Ok ver);
  raw_node ← set_le64 raw_node ofs_cp_ver ver;
  ni ← vol_node_info (fk_vol st) ino;
  '(ret, blkaddr, s) ← reserve_new_block (fk_seg st) NULL_ADDR (set_summary ino 0 (ni_version ni)) CURSEG_HOT_NODE true;
  let st := with_fseg st s in
  if negb (ret =? 0) then Ok st
  else
    '(v, _) ← vol_write_inode (fk_vol st) raw_node blkaddr;
    v ← vol_update_nat v ino ino blkaddr;
    nid_reached (with_vol st v) ino.

Fixpoint chk_quota_nodes (n : nat) (rc : run_conf) (st : fsck_st) (qtype ret : Z) : res (Z * fsck_st) :=
  match n with
  | O => Ok (ret, st)
  | S n =>
      ino ← rd (sb_qf_ino (g_super (sg (fk_seg st)))) qtype;
      if ino =? 0 then chk_quota_nodes n rc st (qtype + 1) ret
      else if quick then
        ok ← quick_nid st ino;
        if ok : bool then chk_quota_nodes n rc st (qtype + 1) ret else Ok (- EINVAL, st)
      else
        '(ret, st) ← check_tree (with_qtype c qtype) st ino F2FS_FT_REG_FILE;
        if ret =? 0 then chk_quota_nodes n rc st (qtype + 1) ret
        else
          q ← rd (fk_qf st) qtype;
          l ← wr (fk_qf st) qtype {| qf_szchk_type := QF_SZCHK_ERR; qf_last_blkofs := qf_last_blkofs q; qf_maxsize := qf_maxsize q |};
          let st := with_qf (assert_msg st true) l in
          st ← (if k_fix_on c then f2fs_rebuild_qf_inode rc st ino else Ok st);
          chk_quota_nodes n rc st (qtype + 1) ret
  end.
Definition fsck_chk_quota_node (rc : run_conf) (r : run_st) : res (Z * run_st) :=
  '(ret, st) ← chk_quota_nodes 3 rc (r_fsck r) 0 0; Ok (ret, with_fsck r st).

(** * The quick check *)

(** [sit_valid_segs] and [sit_node_blks] of the segments from [i] on. *)
Fixpoint count_sit (n : nat) (s : seg_state) (i segs node_blks : Z) : res (Z * Z) :=
  match n with
  | O => Ok (segs, node_blks)
  | S n =>
      se ← get_seg_entry s i;
      count_sit n s (i + 1) (if negb (se_valid_blocks se =? 0) || IS_CUR_SEGNO s i then u32 (segs + 1) else segs)
        (if IS_NODESEG (se_type se) then u32 (node_blks + se_valid_blocks se) else node_blks)
  end.

(** Whether the entries of the table from [i] on pass. *)
Fixpoint chk_nat_entries (n : nat) (st : fsck_st) (i : Z) : res bool :=
  match n with
  | O => Ok true
  | S n =>
      e ← rd (v_entries (fk_vol st)) i;
      blk ← get_le32 e ofs_ne_block_addr;
      ino ← get_le32 e ofs_ne_ino;
      if blk =? 0 then chk_nat_entries n st (i + 1)
      else
        vb ← valid_blk_b st blk;
        if negb vb then Ok false
        else
          sit ← f2fs_test_sit_bitmap (fk_seg st) blk;
          if sit =? 0 then Ok false
          else
            vn ← valid_nid_b st ino;
            if negb vn then Ok false
            else
              b ← f2fs_test_bit ino (fk_nat_area st);
              if b =? 0 then Ok false else chk_nat_entries n st (i + 1)
  end.

Definition run_fail (r : run_st) (bug : bool) : res (Z * run_st) := Ok (- EINVAL, with_fsck r (assert_msg (r_fsck r) bug)).

Definition fsck_chk_meta (rc : run_conf) (r : run_st) : res (Z * run_st) :=
  let s := fk_seg (r_fsck r) in
  let cp := g_ckpt (sg s) in
  '(segs, node_blks) ← count_sit (Z.to_nat (TOTAL_SEGS (sg s))) s 0 0 0;
  if negb (u32 (r_sit_free r + segs) =? get_usable_seg_count (sg s)) then run_fail r true
  else if negb (r_nat_cnt r =? node_blks) then run_fail r true
  else
    free ← get_le32 cp ofs_free_segment_count;
    if negb (r_sit_free r =? free) then run_fail r true
    else
      nodes ← get_le32 cp ofs_valid_node_count;
      if negb (r_nat_cnt r =? nodes) then run_fail r true
      else
        '(ret, r) ← fsck_chk_orphan_node r;
        if negb (ret =? 0) then run_fail r false
        else
          ns ← nat_view (fk_vol (r_fsck r));
          ok ← chk_nat_entries (Z.to_nat (nr_nat_entries ns)) (r_fsck r) 0;
          if negb ok then run_fail r false
          else
            '(ret, r) ← fsck_chk_quota_node rc r;
            if negb (ret =? 0) then run_fail r false
            else
              inodes ← get_le32 cp ofs_valid_inode_count;
              if negb (r_nat_inodes r =? inodes) then run_fail r true else Ok (0, r).

Definition fsck_chk_checkpoint (r : run_st) : res run_st :=
  let cp := g_ckpt (sg (fk_seg (r_fsck r))) in
  large ← is_set_ckpt_flags cp CP_LARGE_NAT_BITMAP_FLAG;
  off ← get_le32 cp ofs_cp_checksum_offset;
  if large && negb (off =? CP_MIN_CHKSUM_OFFSET) then Ok (with_fix_chksum (with_fsck r (assert_msg (r_fsck r) true))) else Ok r.

(** * Lost files *)

Definition EEXIST : Z := 17.
(** "lost+found" *)
Definition LPF : list Z := [108; 111; 115; 116; 43; 102; 111; 117; 110; 100].

(** [snprintf(name, 80, "%u", n)]: the digits of an [unsigned int]. *)
Fixpoint decimal_loop (fuel : nat) (n : Z) (acc : list Z) : list Z :=
  match fuel with
  | O => acc
  | S fuel => if n <? 10 then (48 + n) :: acc else decimal_loop fuel (n / 10) ((48 + n mod 10) :: acc)
  end.
Definition decimal (n : Z) : list Z := decimal_loop 10 n [].

(** The inode of lost+found, [None] if there is none and it cannot be made. *)
Definition fsck_get_lpf (rc : run_conf) (st : fsck_st) : res (fsck_st * option (list Z)) :=
  ni ← vol_node_info (fk_vol st) (k_root_ino c);
  node ← vol_read (fk_vol st) (ni_blk_addr ni);
  lpf_ino ← f2fs_lookup c (fk_vol st) node (LPF ++ [0]) (Z.of_nat (length LPF));
  if negb (lpf_ino =? 0) then
    ni ← vol_node_info (fk_vol st) lpf_ino;
    node ← vol_read (fk_vol st) (ni_blk_addr ni);
    dir ← is_mode node LINUX_S_IFDIR;
    if negb dir then Ok (assert_msg st true, None) else Ok (st, Some node)
  else
    '(err, v, _, de) ← f2fs_mkdir c (fk_vol st) ∅
      {| de_name := LPF ++ [0]; de_len := Z.of_nat (length LPF); de_mode := 0x41c0; de_uid := rc_uid rc; de_gid := rc_gid rc; de_mtime := rc_now rc;
         de_pino := k_root_ino c; de_ino := 0; de_file_type := F2FS_FT_DIR; de_link := None; de_from_devino := 0 |};
    let st := with_vol st v in
    if negb (err =? 0) then Ok (assert_msg st true, None)
    else
      ni ← vol_node_info (fk_vol st) (de_ino de);
      node ← vol_read (fk_vol st) (ni_blk_addr ni);
      Ok (st, Some node).

(** [lpf_ino] is [c.lpf_ino]. The return value, the state, lost+found and the file's
    inode. *)
Definition fsck_do_reconnect_file (st : fsck_st) (lpf_ino : Z) (lpf fnode : list Z) : res (Z * fsck_st * list Z * list Z) :=
  ino ← get_le32 fnode ofs_ino;
  let name := decimal ino in
  let namelen := Z.of_nat (length name) in
  found ← f2fs_lookup c (fk_vol st) lpf (name ++ [0]) namelen;
  if negb (found =? 0) then Ok (- EEXIST, assert_msg st true, lpf, fnode)
  else
    dir_ino ← get_le32 lpf ofs_ino;
    ni ← vol_node_info (fk_vol st) dir_ino;
    mode ← get_le16 fnode ofs_i_mode;
    ftype ← map_de_type mode;
    '(ret, v, lpf) ← f2fs_add_link c (fk_vol st) lpf (name ++ [0]) namelen ino ftype (ni_blk_addr ni) false;
    let st := with_vol st v in
    if negb (ret =? 0) then Ok (- EINVAL, assert_msg st true, lpf, fnode)
    else
      fnode ← wr_list fnode ofs_i_name name;
      fnode ← set_le32 fnode ofs_i_namelen namelen;
      fnode ← set_le32 fnode ofs_i_pino lpf_ino;
      ni ← vol_node_info (fk_vol st) ino;
      st ← st_write st (ni_blk_addr ni) fnode;
      Ok (0, st, lpf, fnode).

Definition clear_main (st : fsck_st) (blk : Z) : res fsck_st := '(_, s) ← f2fs_clear_main_bitmap (fk_seg st) blk; Ok (with_fseg st s).

(** Taking back the addresses [idx] to [idx + n - 1] of a node, which start at [base]. *)
Fixpoint forget_addrs (n : nat) (st : fsck_st) (node : list Z) (base idx : Z) : res fsck_st :=
  match n with
  | O => Ok st
  | S n =>
      addr ← get_le32 node (base + 4 * idx);
      if addr =? 0 then forget_addrs n st node base (idx + 1)
      else
        let st := add_chk st (-1) 0 0 in
        st ← (if addr =? NEW_ADDR then Ok st else clear_main st addr);
        forget_addrs n st node base (idx + 1)
  end.
(** The node [nid]: its block and the state without it. *)
Definition forget_node (st : fsck_st) (nid inode : Z) : res (list Z * fsck_st) :=
  ni ← vol_node_info (fk_vol st) nid;
  node ← vol_read (fk_vol st) (ni_blk_addr ni);
  st ← clear_main (add_chk st (-1) (-1) inode) (ni_blk_addr ni);
  Ok (node, st).
Definition fsck_failed_reconnect_file_dnode (st : fsck_st) (nid : Z) : res fsck_st :=
  '(node, st) ← forget_node st nid 0;
  n ← addrs_per_block node;
  forget_addrs (Z.to_nat n) st node 0 0.

(** The node ids [i] to [i + n - 1] of an indirect node. *)
Fixpoint forget_nids (forget : fsck_st -> Z -> res fsck_st) (n : nat) (st : fsck_st) (node : list Z) (i : Z) : res fsck_st :=
  match n with
  | O => Ok st
  | S n =>
      nid ← get_le32 node (4 * i);
      st ← (if nid =? 0 then Ok st else forget st nid);
      forget_nids forget n st node (i + 1)
  end.
Definition fsck_failed_reconnect_file_idnode (st : fsck_st) (nid : Z) : res fsck_st :=
  '(node, st) ← forget_node st nid 0;
  forget_nids fsck_failed_reconnect_file_dnode (Z.to_nat NIDS_PER_BLOCK) st node 0.
Definition fsck_failed_reconnect_file_didnode (st : fsck_st) (nid : Z) : res fsck_st :=
  '(node, st) ← forget_node st nid 0;
  forget_nids fsck_failed_reconnect_file_idnode (Z.to_nat NIDS_PER_BLOCK) st node 0.

Fixpoint forget_inode_nids (n : nat) (st : fsck_st) (node : list Z) (i : Z) : res fsck_st :=
  match n with
  | O => Ok st
  | S n =>
      nid ← get_le32 node (ofs_i_nid + 4 * i);
      st ← (if nid =? 0 then Ok st
            else if i <? 2 then fsck_failed_reconnect_file_dnode st nid
            else if i <? 4 then fsck_failed_reconnect_file_idnode st nid
            else fsck_failed_reconnect_file_didnode st nid);
      forget_inode_nids n st node (i + 1)
  end.
Definition fsck_failed_reconnect_file (st : fsck_st) (ino : Z) : res fsck_st :=
  '(node, st) ← forget_node st ino (-1);
  xnid ← get_le32 node ofs_i_xattr_nid;
  st ← (if negb (xnid =? 0) then
          ni ← vol_node_info (fk_vol st) xnid;
          clear_main (add_chk st (-1) (-1) 0) (ni_blk_addr ni)
        else Ok st);
  inl ← flag_set node ofs_i_inline F2FS_INLINE_DATA;
  st ← (if inl : bool then Ok st
        else
          ofs ← __get_extra_isize node;
          n ← addrs_per_inode (fk_feature st) node;
          forget_addrs (Z.to_nat n) st node (ofs_i_addr + 4 * ofs) 0);
  forget_inode_nids 5 st node 0.

(** The first pass over the unreachable ids: the state and [reconnect_bitmap]. *)
Definition find_lost (st : fsck_st) (bitmap : list Z) (nid : Z) : res (fsck_st * list Z) :=
  b ← f2fs_test_bit nid (fk_nat_area st);
  if (b =? 0) || is_qf_ino (g_super (sg (fk_seg st))) nid then Ok (st, bitmap)
  else
    ni ← vol_node_info (fk_vol st) nid;
    node ← vol_read (fk_vol st) (ni_blk_addr ni);
    fino ← get_le32 node ofs_ino;
    fnid ← get_le32 node ofs_nid;
    dir ← is_mode node LINUX_S_IFDIR;
    if negb (fino =? fnid) || dir then Ok (st, bitmap)
    else
      mode ← get_le16 node ofs_i_mode;
      ftype ← map_de_type mode;
      '(st, r) ← sanity_check_nid c st nid ftype TYPE_INODE;
      match r with
      | None => Ok (assert_msg st true, bitmap)
      | Some (node, ni) =>
          '(st, _) ← fsck_chk_inode_blk c (fsck_chk_node_blk c (walk_depth st)) st nid ftype node 1 no_cbc ni None;
          '(_, bitmap) ← f2fs_set_bit nid bitmap;
          Ok (st, bitmap)
      end.
Fixpoint find_lost_loop (n : nat) (st : fsck_st) (bitmap : list Z) (nid : Z) : res (fsck_st * list Z) :=
  match n with
  | O => Ok (st, bitmap)
  | S n => '(st, bitmap) ← find_lost st bitmap nid; find_lost_loop n st bitmap (nid + 1)
  end.

(** The second pass. *)
Fixpoint reconnect_loop (n : nat) (st : fsck_st) (bitmap lpf : list Z) (lpf_ino nid : Z) : res fsck_st :=
  match n with
  | O => Ok st
  | S n =>
      b ← f2fs_test_bit nid bitmap;
      if b =? 0 then reconnect_loop n st bitmap lpf lpf_ino (nid + 1)
      else
        ni ← vol_node_info (fk_vol st) nid;
        node ← vol_read (fk_vol st) (ni_blk_addr ni);
        '(ret, st, lpf, node) ← fsck_do_reconnect_file st lpf_ino lpf node;
        st ← (if negb (ret =? 0) then fsck_failed_reconnect_file st nid
              else
                q ← (match fk_qctx st with Some q => q ← quota_add_inode_usage q nid node; Ok (Some q) | None => Ok None end);
                Ok (with_qctx st q));
        reconnect_loop n st bitmap lpf lpf_ino (nid + 1)
  end.

Definition fsck_reconnect_file (rc : run_conf) (st : fsck_st) (nr : Z) : res fsck_st :=
  '(st, bitmap) ← find_lost_loop (Z.to_nat nr) st (replicate (length (fk_nat_area st)) 0) 0;
  '(st, lpf) ← fsck_get_lpf rc st;
  match lpf with
  | None => Ok st
  | Some lpf => lpf_ino ← get_le32 lpf ofs_ino; reconnect_loop (Z.to_nat nr) st bitmap lpf lpf_ino 0
  end.

(** * Repairing the tables *)

(** What [sanity_check_nid] leaves in the caller's [node_blk] and [ni], whether it passes or
    not; [ni] is not initialised before the first valid id. *)
Definition checked_buffers (st : fsck_st) (nid : Z) (node_blk : list Z) (ni : option node_info) : res (list Z * option node_info) :=
  vn ← valid_nid_b st nid;
  if negb vn then Ok (node_blk, ni)
  else
    ni ← vol_node_info (fk_vol st) nid;
    vb ← valid_blk_b st (ni_blk_addr ni);
    if (ni_ino ni =? 0) || (ni_blk_addr ni =? NEW_ADDR) || negb vb then Ok (node_blk, Some ni)
    else b ← vol_read (fk_vol st) (ni_blk_addr ni); Ok (b, Some ni).

(** [nodes] is what is left of the list; the block is written even if the check fails. *)
Fixpoint fix_links_loop (nodes : list hard_link_node) (st : fsck_st) (node_blk : list Z) (ni : option node_info) : res fsck_st :=
  match nodes with
  | [] => Ok st
  | n :: nodes =>
      '(node_blk, ni) ← checked_buffers st (hl_nid n) node_blk ni;
      '(st, _) ← sanity_check_nid c st (hl_nid n) F2FS_FT_MAX TYPE_INODE;
      node_blk ← fix_inode_links node_blk (hl_actual_links n);
      match ni with
      | None => Oob
      | Some i =>
          st ← st_write st (ni_blk_addr i) node_blk;
          fix_links_loop nodes st node_blk ni
      end
  end.
Definition fix_hard_links (st : fsck_st) : res fsck_st := fix_links_loop (fk_links st) st (replicate 4096 0) None.

(** An operation on the node address table and its journal. *)
Definition on_nat {A} (st : fsck_st) (f : nat_state -> res (A * nat_state)) : res (A * fsck_st) :=
  ns ← nat_view (fk_vol st);
  '(x, ns) ← f ns;
  hot ← rd (sg_cursegs (fk_seg st)) CURSEG_HOT_DATA;
  let v := put_nat (fk_vol st) ns in
  cs ← wr (sg_cursegs (v_seg v)) CURSEG_HOT_DATA (set_sum_blk hot (ns_sum ns));
  Ok (x, with_vol st (with_seg v (with_cursegs (v_seg v) cs))).

Fixpoint fix_nat_loop (n : nat) (area : list Z) (ns : nat_state) (i : Z) : res nat_state :=
  match n with
  | O => Ok ns
  | S n =>
      b ← f2fs_test_bit i area;
      ns ← (if negb (b =? 0) then nullify_nat_entry ns i else Ok ns);
      fix_nat_loop n area ns (i + 1)
  end.
Definition fix_nat_entries (st : fsck_st) : res fsck_st :=
  '(_, st) ← on_nat st (fun ns => ns ← fix_nat_loop (Z.to_nat (nr_nat_entries ns)) (fk_nat_area st) ns 0; Ok (tt, ns)); Ok st.

Definition CP_NOCRC_RECOVERY_FLAG : Z := 0x200.

(** The members that [fix_checkpoint] sets, the flags and the number of orphan blocks;
    [failed] is [c.alloc_failed]. *)
Definition fill_fixed_checkpoint (s : seg_state) (failed : bool) : res (list Z * Z * Z) :=
  let g := sg s in
  let cp := g_ckpt g in
  let n := sg_counts s in
  _ ← assert_ (is_fsck (g_func g));
  orphan ← is_set_ckpt_flags cp CP_ORPHAN_PRESENT_FLAG;
  orphan_blks ← (if orphan : bool then a ← __start_sum_addr cp; Ok (u32 (a - 1)) else Ok 0);
  trimmed ← is_set_ckpt_flags cp CP_TRIMMED_FLAG;
  disabled ← is_set_ckpt_flags cp CP_DISABLED_FLAG;
  large ← is_set_ckpt_flags cp CP_LARGE_NAT_BITMAP_FLAG;
  let add (b : bool) (f flags : Z) := if b then Z.lor flags f else flags in
  let flags := add large CP_LARGE_NAT_BITMAP_FLAG (add disabled CP_DISABLED_FLAG
                 (add trimmed CP_TRIMMED_FLAG (add orphan CP_ORPHAN_PRESENT_FLAG (if failed then CP_FSCK_FLAG else CP_UMOUNT_FLAG)))) in
  cp ← set_le32 cp ofs_cp_checksum_offset (if large : bool then CP_MIN_CHKSUM_OFFSET else CP_CHKSUM_OFFSET);
  let cp_blocks := if negb (Z.land flags CP_UMOUNT_FLAG =? 0) then 8 else 5 in
  cp ← set_le32 cp ofs_cp_pack_total_block_count (u32 (cp_blocks + orphan_blks + sb_cp_payload (g_super g)));
  flags ← update_nat_bits_flags (g_super g) cp flags;
  let flags := Z.lor flags CP_NOCRC_RECOVERY_FLAG in
  cp ← set_le32 cp ofs_ckpt_flags flags;
  free ← get_free_segments s;
  cp ← set_le32 cp ofs_free_segment_count free;
  cp ← set_le64 cp ofs_valid_block_count (n_chk_blk n);
  cp ← set_le32 cp ofs_valid_node_count (n_chk_node n);
  cp ← set_le32 cp ofs_valid_inode_count (n_chk_inode n);
  crc ← f2fs_checkpoint_chksum cp;
  off ← get_le32 cp ofs_cp_checksum_offset;
  cp ← set_le32 cp off crc;
  Ok (cp, flags, orphan_blks).

(** The summaries from type [i] on; those of nodes only in a pack of a clean volume. *)
Fixpoint put_summaries (n : nat) (w : wlog) (s : seg_state) (umount : bool) (cp_blk_no i : Z) : res (wlog * Z) :=
  match n with
  | O => Ok (w, cp_blk_no)
  | S n =>
      curseg ← rd (sg_cursegs s) i;
      if negb umount && IS_NODESEG i then put_summaries n w s umount cp_blk_no (i + 1)
      else w ← put w cp_blk_no (cs_sum_blk curseg); put_summaries n w s umount (cp_blk_no + 1) (i + 1)
  end.
Fixpoint put_payload (n : nat) (w : wlog) (cp : list Z) (i a : Z) : res wlog :=
  match n with
  | O => Ok w
  | S n => w ← put w a (take 4096 (drop (Z.to_nat ((i + 1) * F2FS_BLKSIZE)) cp)); put_payload n w cp (i + 1) (a + 1)
  end.

(** The state and the blocks written, in order. *)
Definition fix_checkpoint (s : seg_state) (nm : f2fs_nm_info) (failed : bool) (cur_cp : Z) (bug : bool) : res (seg_state * list (Z * list Z) * bool) :=
  let sb := g_super (sg s) in
  '(cp, flags, orphan_blks) ← fill_fixed_checkpoint s failed;
  _ ← defined_ (sb_log_blocks_per_seg sb <? 31);
  let cp_blk_no := if cur_cp =? 2 then sb_cp_blkaddr sb + Z.shiftl 1 (sb_log_blocks_per_seg sb) else sb_cp_blkaddr sb in
  w ← put (sg_disk s, []) cp_blk_no (take 4096 cp);
  w ← put_payload (Z.to_nat (sb_cp_payload sb)) w cp 0 (cp_blk_no + 1);
  let cp_blk_no := cp_blk_no + 1 + sb_cp_payload sb + orphan_blks in
  '(w, cp_blk_no) ← put_summaries (Z.to_nat NO_CHECK_TYPE) w s (negb (Z.land flags CP_UMOUNT_FLAG =? 0)) cp_blk_no 0;
  '(w, bug) ← (if negb (Z.land flags CP_NAT_BITS_FLAG =? 0) then write_nat_bits w sb cp nm cur_cp bug else Ok (w, bug));
  w ← put w cp_blk_no (take 4096 cp);
  Ok (with_ckpt (with_seg_disk s w.1) cp, w.2, bug).

(** The bitmaps of the tables at the place they have in the current layout. *)
Definition fix_checksum (r : run_st) : res run_st :=
  if negb (r_fix_chksum r) then Ok r
  else
    let st := r_fsck r in
    let nat_bitmap := nm_nat_bitmap (v_nm (fk_vol st)) in
    let at_ := ofs_sit_nat_version_bitmap + 4 in
    cp ← wr_list (g_ckpt (sg (fk_seg st))) at_ nat_bitmap;
    cp ← wr_list cp (at_ + Z.of_nat (length nat_bitmap)) (g_sit_bitmap (sg (fk_seg st)));
    Ok (with_fsck r (with_fseg st (with_ckpt (fk_seg st) cp))).

Definition fix_checkpoints (r : run_st) : res run_st :=
  let st := r_fsck r in
  let v := fk_vol st in
  w ← duplicate_checkpoint (g_super (sg (fk_seg st))) (v_disk v) (r_cur_cp r) (r_cp_backuped r);
  '(s, _, bug) ← fix_checkpoint (with_seg_disk (fk_seg st) w.1) (v_nm v) (v_alloc_failed v) 1 false;
  Ok (with_cp (with_fsck r (assert_msg (with_fseg st s) bug)) 1 true).
Definition run_write_checkpoints (r : run_st) : res run_st :=
  let st := r_fsck r in
  '(s, _, bug) ← write_checkpoints (fk_seg st) (v_nm (fk_vol st)) (r_cur_cp r) (r_cp_backuped r) false;
  Ok (with_cp (with_fsck r (assert_msg (with_fseg st s) bug)) 1 true).

Definition flush_journal_entries (r : run_st) : res run_st :=
  '(n_nats, st) ← on_nat (r_fsck r) flush_nat_journal_entries;
  '(n_sits, s) ← flush_sit_journal_entries (fk_seg st);
  let r := with_fsck r (with_fseg st s) in
  if negb (n_nats =? 0) || negb (n_sits =? 0) then run_write_checkpoints r else Ok r.

Fixpoint flush_curseg_sit_loop (n : nat) (s : seg_state) (i : Z) : res seg_state :=
  match n with
  | O => Ok s
  | S n =>
      curseg ← rd (sg_cursegs s) i;
      let segno := cs_segno curseg in
      se ← get_seg_entry s segno;
      sit_blk ← get_current_sit_page s segno;
      sit_blk ← set_le16 sit_blk (ofs_sit_entry segno + ofs_vblocks) (u16 (Z.lor (Z.shiftl (se_type se) SIT_VBLOCKS_SHIFT) (se_valid_blocks se)));
      s ← rewrite_current_sit_page s segno sit_blk;
      flush_curseg_sit_loop n s (i + 1)
  end.
Definition flush_curseg_sit_entries (s : seg_state) : res seg_state := flush_curseg_sit_loop (Z.to_nat NO_CHECK_TYPE) s 0.

(** The types from [i] on: the state, whether [ASSERT_MSG] was reached and [need_update]. *)
Fixpoint fix_curseg_loop (n : nat) (s : seg_state) (i : Z) (bad : bool) : res (seg_state * bool) :=
  match n with
  | O => Ok (s, bad)
  | S n =>
      r ← check_curseg_offset s i;
      s ← (if negb (r =? 0) then update_curseg_info s i else Ok s);
      fix_curseg_loop n s (i + 1) (bad || negb (r =? 0))
  end.
Definition fix_curseg_info (st : fsck_st) : res fsck_st :=
  '(s, bad) ← fix_curseg_loop (Z.to_nat NO_CHECK_TYPE) (fk_seg st) 0 false;
  s ← (if bad : bool then s ← write_curseg_info s; flush_curseg_sit_entries s else Ok s);
  Ok (assert_msg (with_fseg st s) bad).

(** The state and whether a type is wrong. *)
Fixpoint check_sit_types_loop (n : nat) (s : seg_state) (i : Z) (err : bool) : res (seg_state * bool) :=
  match n with
  | O => Ok (s, err)
  | S n =>
      se ← get_seg_entry s i;
      if negb (se_orig_type se =? se_type se) then
        if (se_orig_type se =? CURSEG_COLD_DATA) && (se_type se <=? CURSEG_COLD_DATA) then
          s ← set_seg_entry s i (set_se_type se (se_orig_type se));
          check_sit_types_loop n s (i + 1) err
        else check_sit_types_loop n s (i + 1) true
      else check_sit_types_loop n s (i + 1) err
  end.
Definition check_sit_types (s : seg_state) : res (seg_state * bool) := check_sit_types_loop (Z.to_nat (TOTAL_SEGS (sg s))) s 0 false.

Definition fsck_chk_and_fix_write_pointers (r : run_st) : res run_st :=
  if negb (g_zoned_hm (sg (fk_seg (r_fsck r)))) then Ok r
  else
    '(ret, st) ← check_curseg_offsets (r_fsck r);
    let r := with_fsck r st in
    if negb (ret =? 0) && k_fix_on c then st ← fix_curseg_info st; Ok (with_wp_fixed (with_fsck r st)) else Ok r.

(** * The verdict *)

(** The number of bits set from [i] on, of ids whose entries are printed. *)
Fixpoint count_unref (n : nat) (st : fsck_st) (i count : Z) : res Z :=
  match n with
  | O => Ok count
  | S n =>
      b ← f2fs_test_bit i (fk_nat_area st);
      if b =? 0 then count_unref n st (i + 1) count
      else _ ← vol_node_info (fk_vol st) i; count_unref n st (i + 1) (u32 (count + 1))
  end.

Definition F2FS_FEATURE_QUOTA_INO : Z := 0x0080.
Definition F2FS_FEATURE_LOST_FOUND : Z := 0x0200.
Definition EXIT_ERR_CODE : Z := -1.

(** The comparisons of [fsck_verify]: whether all of them hold. *)
Definition verified (r : run_st) (unref : Z) : res bool :=
  let st := r_fsck r in
  let s := fk_seg st in
  let n := sg_counts s in
  free ← get_le32 (g_ckpt (sg s)) ofs_free_segment_count;
  Ok ((unref =? 0) && bool_decide (sg_sit_area s = take (length (sg_sit_area s)) (sg_main_bitmap s)) &&
      bool_decide (fk_links st = []) && (n_valid_block n =? n_chk_blk n) && (n_valid_node n =? n_chk_node n) &&
      (n_valid_node n =? r_nat_cnt r) && (n_valid_inode n =? n_chk_inode n) && (free =? r_sit_free r)).

(** Repairing the global metadata. *)
Definition fix_metadata (r : run_st) : res run_st :=
  r ← flush_journal_entries r;
  st ← fix_hard_links (r_fsck r);
  st ← fix_nat_entries st;
  '(s, bug) ← rewrite_sit_area_bitmap (fk_seg st) false;
  st ← fix_curseg_info (assert_msg (with_fseg st s) bug);
  r ← fix_checksum (with_fsck r st);
  fix_checkpoints r.

Definition reconnect_lost (rc : run_conf) (r : run_st) (nr : Z) : res run_st :=
  let st := r_fsck r in
  if has_feature (fk_feature st) F2FS_FEATURE_LOST_FOUND then
    lost ← used_from (Z.to_nat nr) (fk_nat_area st) 0;
    if lost : bool then st ← fsck_reconnect_file rc st nr; Ok (with_fsck r st) else Ok r
  else Ok r.

(** [ret] and whether the repair is forced, before the repair. *)
Definition verify_checks (rc : run_conf) (r : run_st) : res (Z * bool * run_st) :=
  ns ← nat_view (fk_vol (r_fsck r));
  let nr := nr_nat_entries ns in
  let force := g_zoned_hm (sg (fk_seg (r_fsck r))) && r_wp_fixed r && k_fix_on c in
  r ← reconnect_lost rc r nr;
  unref ← count_unref (Z.to_nat nr) (r_fsck r) 0 0;
  let st := assert_msg (r_fsck r) (negb (bool_decide (fk_links (r_fsck r) = []))) in
  ok ← verified r unref;
  '(off, st) ← check_curseg_offsets st;
  '(s, wrong) ← check_sit_types (fk_seg st);
  let st := with_fseg st s in
  let failed := negb ok || negb (off =? 0) in
  let ret := if fk_bug st || failed then EXIT_ERR_CODE else 0 in
  _ ← assert_ ((unref =? 0) || rc_ro rc || (0 <=? rc_scanf rc));
  Ok (ret, force || wrong, with_fsck r (assert_msg st failed)).

Definition fsck_verify (rc : run_conf) (r : run_st) : res (Z * run_st) :=
  if rc_show_file_map rc then Ok (0, r)
  else
    '(ret, force, r) ← verify_checks rc r;
    if force || k_fix_on c && k_writable c then
      r ← (if force || fk_bug (r_fsck r) || rc_bug_nat_bits rc || r_quota_fixed r then fix_metadata r
           else
             let cp := g_ckpt (sg (fk_seg (r_fsck r))) in
             fsck ← is_set_ckpt_flags cp CP_FSCK_FLAG;
             quota ← is_set_ckpt_flags cp CP_QUOTA_NEED_FSCK_FLAG;
             if fsck || quota then run_write_checkpoints r else Ok r);
      Ok (0, r)
    else Ok (ret, r).

(** * The order of a run *)

Definition quota_init_context (sb : f2fs_super_block) : quota_ctx :=
  {| quota_dict := (fun ino => if ino =? 0 then None else Some ∅) <$> sb_qf_ino sb; linked_inode_dict := ∅ |}.

Definition szchk_of (q : qf_check) : qf_szchk := {|
  szchk_type := if qf_szchk_type q =? QF_SZCHK_ERR then QuotaV2.QF_SZCHK_ERR
                else if qf_szchk_type q =? FsckWalk.QF_SZCHK_INLINE then QuotaV2.QF_SZCHK_INLINE
                else if qf_szchk_type q =? FsckWalk.QF_SZCHK_REGFILE then QuotaV2.QF_SZCHK_REGFILE else QuotaV2.QF_SZCHK_NONE;
  last_blkofs := qf_last_blkofs q; maxsize := qf_maxsize q |}.

(** [fsck_chk_quota_files] of FileQuota, if quotas are counted. *)
Definition run_quota_files (rc : run_conf) (r : run_st) : res run_st :=
  let st := r_fsck r in
  match fk_qctx st with
  | None => Ok r
  | Some q =>
      qc ← fsck_chk_quota_files (rc_now rc) (k_fix_on c) (rc_preserve_limits rc) (fk_vol st) q (rc_sizes rc) (szchk_of <$> fk_qf st);
      Ok (with_quota_fixed (with_fsck r (assert_msg (with_qctx (with_vol st (qc_vol qc)) (Some (qc_ctx qc))) (qc_bug qc))) (r_quota_fixed r || qc_fixed qc))
  end.

Definition FSCK_SUCCESS : Z := 0.
Definition FSCK_ERROR_CORRECTED : Z := 1.
Definition FSCK_ERRORS_LEFT_UNCORRECTED : Z := 4.

(** The walks and the quota files. *)
Definition full_walks (rc : run_conf) (r : run_st) : res run_st :=
  r ← fsck_chk_checkpoint r;
  '(_, r) ← fsck_chk_quota_node rc r;
  let st := r_fsck r in
  let sb := g_super (sg (fk_seg st)) in
  let r := if has_feature (fk_feature st) F2FS_FEATURE_QUOTA_INO then with_fsck r (with_qctx st (Some (quota_init_context sb))) else r in
  '(_, r) ← fsck_chk_orphan_node r;
  '(_, st) ← check_tree c (r_fsck r) (k_root_ino c) F2FS_FT_DIR;
  run_quota_files rc (with_fsck r st).
(** With the verdict and the exit code. *)
Definition full_check (rc : run_conf) (r : run_st) : res (Z * run_st) :=
  r ← full_walks rc r;
  '(ret, r) ← fsck_verify rc r;
  Ok (if negb (fk_bug (r_fsck r)) then FSCK_SUCCESS else if ret =? 0 then FSCK_ERROR_CORRECTED else FSCK_ERRORS_LEFT_UNCORRECTED, r).
End Run.

(** [do_fsck] on the mounted volume [v]. *)
Definition do_fsck (c : fsck_conf) (rc : run_conf) (v : vol) (cur_cp : Z) (backuped bug : bool) (qf : list qf_check) : res (Z * run_st) :=
  r ← fsck_init v cur_cp backuped bug qf;
  r ← fsck_chk_and_fix_write_pointers c r;
  st ← fsck_chk_curseg_info c (r_fsck r);
  let r := with_fsck r st in
  if negb (k_fix_on c) && negb (fk_bug st) then
    if k_preen_mode c =? PREEN_MODE_1 then
      '(bad, r) ← fsck_chk_meta c rc r;
      if bad =? 0 then Ok (FSCK_SUCCESS, r) else full_check (if rc_ro rc then c else with_fix c) rc r
    else full_check c rc r
  else full_check (if negb (k_preen_mode c =? 0) then with_fix c else c) rc r.
