(* ===== verification/FsckNat.v ===== *)
(** The node address table in fsck: the map of used node ids from which a run starts is
    exact ([build_nat_area_bitmap] of fsck/mount.c), and dropping the entries that were not
    reached changes no other entry ([fix_nat_entries] of fsck/fsck.c). *)
From Stdlib Require Import ZArith Lia List Bool.
From stdpp Require Import base numbers list gmap.
From S2P Require Import Prelude Codec Bits Superblock Mkfs Checkpoint Segment FileData FileTree FsckWalk FsckSound Nat FsckRun.

(** * Raw entries *)

Definition raw9 (raw : list Z) : Prop := length raw = 9%nat /\ bytes raw.
Definition raw_blk (raw : list Z) : Z := match get_le32 raw ofs_ne_block_addr with Ok b => b | _ => 0 end.
Definition raw_ino (raw : list Z) : Z := match get_le32 raw ofs_ne_ino with Ok b => b | _ => 0 end.
Definition used_raw (raw : list Z) : bool := negb (raw_blk raw =? 0).

Lemma raw_members raw : raw9 raw -> get_le32 raw ofs_ne_block_addr = Ok (raw_blk raw) /\ get_le32 raw ofs_ne_ino = Ok (raw_ino raw).
Proof.
  intros [Hl Hb]. unfold raw_blk, raw_ino, ofs_ne_block_addr, ofs_ne_ino.
  destruct (get_le_total 4 raw 5) as [v E]; [lia..|]. destruct (get_le_total 4 raw 1) as [w E']; [lia..|].
  by rewrite E, E'.
Qed.
Lemma raw_node_info nid raw : raw9 raw ->
  exists ver, node_info_from_raw_nat nid raw = Ok {| ni_nid := nid; ni_ino := raw_ino raw; ni_blk_addr := raw_blk raw; ni_version := ver |}.
Proof.
  intros H. destruct (raw_members raw H) as [E1 E2]. unfold node_info_from_raw_nat. rewrite E2, res_bind_ret, E1, res_bind_ret.
  destruct (rd_total raw ofs_ne_version) as (x & ->); [destruct H; unfold ofs_ne_version; lia|]. by exists x.
Qed.
Lemma zero_raw : raw9 (replicate 9 0) /\ used_raw (replicate 9 0) = false.
Proof. split; [split; [done|by apply Forall_replicate]|done]. Qed.

(** * Counting ids *)

Definition b2z (b : bool) : Z := if b then 1 else 0.
(** The table with the entry of [nid] replaced. *)
Definition upd (t : Z -> list Z) (nid : Z) (raw : list Z) : Z -> list Z := fun x => if x =? nid then raw else t x.
(** The ids of [l] with [P]. *)
Fixpoint count_ids (P : Z -> list Z -> bool) (t : Z -> list Z) (l : list Z) : Z :=
  match l with [] => 0 | x :: l => b2z (P x (t x)) + count_ids P t l end.

Lemma count_upd_out P t nid raw l : nid ∉ l -> count_ids P (upd t nid raw) l = count_ids P t l.
Proof.
  induction l as [|x l IH]; [done|]. intros [Hx Hl]%not_elem_of_cons. cbn [count_ids]. rewrite IH by done. unfold upd.
  by rewrite (proj2 (Z.eqb_neq x nid)) by done.
Qed.
Lemma count_upd P t nid raw l : NoDup l -> nid ∈ l -> count_ids P (upd t nid raw) l = count_ids P t l - b2z (P nid (t nid)) + b2z (P nid raw).
Proof.
  induction l as [|x l IH]; [by intros _ H%not_elem_of_nil|]. intros [Hx Hl]%NoDup_cons Hn. cbn [count_ids].
  destruct (decide (nid = x)) as [->|Hne].
  - rewrite count_upd_out by done. unfold upd. rewrite Z.eqb_refl. lia.
  - apply elem_of_cons in Hn as [|Hn]; [done|]. rewrite IH by done. unfold upd at 1. rewrite (proj2 (Z.eqb_neq x nid)) by done. lia.
Qed.

Lemma bit_be_zeros n i : bit_be (replicate n 0) i = false.
Proof.
  unfold bit_be, bit_at. destruct (replicate n 0 !! _) as [b|] eqn:E; [|done]. apply lookup_replicate in E as [-> _]. apply Z.testbit_0_l.
Qed.

(** * The map of used ids *)

Section Area.
Context (ns : nat_state) (k n : Z) (Hok : nat_ok ns k) (Hcount : journal_count ns n) (Hnids : journal_nids_ok ns n).

Definition plain (nid : Z) : bool := negb (nid =? ns_node_ino ns) && negb (nid =? ns_meta_ino ns).
Definition ids : list Z := seqZ 0 (nm_max_nid (ns_nm ns)).
Definition is_used (nid : Z) (raw : list Z) : bool := plain nid && used_raw raw.
Definition is_inode (nid : Z) (raw : list Z) : bool := plain nid && used_raw raw && (raw_ino raw =? nid).

(** [a] describes the table [t]: which ids are used, the cached entries of the used ones and,
    if no error was reported, the numbers of used ids and of inodes. *)
Record describes (a : nat_area) (t : Z -> list Z) : Prop := {
  ds_len : Z.of_nat (length (na_entries a)) = nm_max_nid (ns_nm ns);
  ds_bytes : bytes (na_bitmap a);
  ds_bits : nm_max_nid (ns_nm ns) <= nbits (na_bitmap a);
  ds_raw : forall nid, valid_nid ns nid -> raw9 (t nid);
  ds_bit : forall nid, valid_nid ns nid -> plain nid = true -> bit_be (na_bitmap a) nid = used_raw (t nid);
  ds_entry : forall nid, valid_nid ns nid -> plain nid = true ->
    exists e, rd (na_entries a) nid = Ok e /\ raw9 e /\ used_raw e = used_raw (t nid) /\ (used_raw e = true -> e = t nid);
  ds_valid : na_bug a = false -> na_valid a = u32 (count_ids is_used t ids);
  ds_inodes : na_bug a = false -> na_inodes a = u32 (count_ids is_inode t ids);
}.

Lemma valid_in_ids nid : valid_nid ns nid -> nid ∈ ids.
Proof. intros H. unfold ids. apply elem_of_seqZ. unfold valid_nid in H. lia. Qed.
Lemma NoDup_ids : NoDup ids.
Proof. apply NoDup_seqZ. Qed.

(** A count after an entry is replaced. *)
Lemma u32_count P t nid raw m : valid_nid ns nid -> m = u32 (count_ids P t ids) ->
  u32 (m + (b2z (P nid raw) - b2z (P nid (t nid)))) = u32 (count_ids P (upd t nid raw) ids).
Proof.
  intros Hv ->. rewrite count_upd by (apply NoDup_ids || by apply valid_in_ids). unfold u32. rewrite Zplus_mod_idemp_l. f_equal. lia.
Qed.

(** What a step that replaces the entry of [nid] by [raw] has to do. *)
Lemma describes_upd a a' t nid raw : describes a t -> valid_nid ns nid -> raw9 raw ->
  bytes (na_bitmap a') -> length (na_bitmap a') = length (na_bitmap a) ->
  (forall i, 0 <= i -> i <> nid -> bit_be (na_bitmap a') i = bit_be (na_bitmap a) i) ->
  (plain nid = true -> bit_be (na_bitmap a') nid = used_raw raw) ->
  (na_entries a' = <[Z.to_nat nid := raw]> (na_entries a) \/
   na_entries a' = na_entries a /\ (plain nid = true -> used_raw raw = false /\ used_raw (t nid) = false)) ->
  (na_bug a' = false -> na_bug a = false /\
     na_valid a' = u32 (na_valid a + (b2z (is_used nid raw) - b2z (is_used nid (t nid)))) /\
     na_inodes a' = u32 (na_inodes a + (b2z (is_inode nid raw) - b2z (is_inode nid (t nid))))) ->
  describes a' (upd t nid raw).
Proof.
  intros [Hl Hb Hn Hr Hbit He Hc Hi] Hv Hraw Hb' Hl' Ho Hnew Hes Hcnt. unfold valid_nid in *. constructor.
  - destruct Hes as [->|[-> _]]; [by rewrite length_insert|done].
  - done.
  - unfold nbits in *. by rewrite Hl'.
  - intros x Hx. unfold upd. destruct (Z.eqb_spec x nid); [done|by apply Hr].
  - intros x Hx Hp. unfold upd. destruct (Z.eqb_spec x nid) as [->|Hne]; [by apply Hnew|]. rewrite Ho by (done || apply Hx). by apply Hbit.
  - intros x Hx Hp. unfold upd. destruct (Z.eqb_spec x nid) as [->|Hne].
    + destruct Hes as [->|[-> Hu]].
      * exists raw. split; [|done]. apply rd_Ok. split; [lia|]. apply list_lookup_insert_eq. lia.
      * destruct (Hu Hp) as [Hu1 Hu2]. destruct (He nid Hx Hp) as (e & Hrd & He9 & Heu & _). exists e. rewrite Hu1. rewrite Heu, Hu2. done.
    + destruct (He x Hx Hp) as (e & Hrd & Hrest). exists e. split; [|done].
      destruct Hes as [->|[-> _]]; [|done]. apply rd_Ok in Hrd as [H0 Hrd]. apply rd_Ok. split; [done|].
      by rewrite list_lookup_insert_ne by lia.
  - intros Hbug. destruct (Hcnt Hbug) as (Hbug0 & -> & _). apply u32_count; [done|by apply Hc].
  - intros Hbug. destruct (Hcnt Hbug) as (Hbug0 & _ & ->). apply u32_count; [done|by apply Hi].
Qed.
Lemma ds_u32 a t : describes a t -> na_bug a = false -> na_valid a = u32 (na_valid a + 0) /\ na_inodes a = u32 (na_inodes a + 0).
Proof.
  intros D Hb. rewrite (ds_valid a t D Hb), (ds_inodes a t D Hb), !Z.add_0_r. unfold u32. by rewrite !Zmod_mod.
Qed.

(** Marking an id as used. *)
Lemma na_set_spec a t nid v i b : describes a t -> valid_nid ns nid ->
  exists bm, na_set a nid v i b = Ok {| na_bitmap := bm; na_entries := na_entries a; na_valid := u32 (na_valid a + v);
                                        na_inodes := u32 (na_inodes a + i); na_bug := na_bug a || b |} /\
    bytes bm /\ length bm = length (na_bitmap a) /\ forall j, 0 <= j -> bit_be bm j = (j =? nid) || bit_be (na_bitmap a) j.
Proof.
  intros D [H0 Hv]. pose proof (ds_bits a t D).
  destruct (@bm_set_ok _ be_bitmap_laws (na_bitmap a) nid (ds_bytes a t D) ltac:(lia)) as (w & bm & E & _ & Hl & Hby & Hbit).
  cbn [bm_set be_bitmap] in E. exists bm. unfold na_set. by rewrite E, res_bind_ret.
Qed.

Lemma not_plain nid : plain nid = negb ((nid =? ns_node_ino ns) || (nid =? ns_meta_ino ns)).
Proof. unfold plain. by rewrite negb_orb. Qed.

(** An entry of a block. *)
Lemma area_entry_step a t nid raw : describes a t -> valid_nid ns nid -> raw9 raw -> used_raw (t nid) = false ->
  exists a', nat_area_entry ns a nid raw = Ok a' /\ describes a' (upd t nid raw).
Proof.
  intros D Hv Hraw Hfree. unfold nat_area_entry. pose proof (not_plain nid) as Hp.
  destruct (raw_members raw Hraw) as [E1 E2].
  destruct ((nid =? ns_node_ino ns) || (nid =? ns_meta_ino ns)) eqn:Hs; cbn [negb] in Hp.
  - rewrite E1, res_bind_ret. destruct (negb (raw_blk raw =? 1)).
    + destruct (na_set_spec a t nid 0 0 true D Hv) as (bm & -> & Hby & Hl & Hbit). eexists. split; [done|].
      apply (describes_upd a); try done; cbn [na_bitmap na_entries na_bug]; try (rewrite Hp; discriminate).
      * intros j Hj Hne. by rewrite Hbit, (proj2 (Z.eqb_neq _ _) Hne).
      * right. split; [done|]. rewrite Hp. discriminate.
      * by rewrite orb_true_r.
    + exists a. split; [done|]. apply (describes_upd a); try done; try (rewrite Hp; discriminate).
      * apply D.
      * right. split; [done|]. rewrite Hp. discriminate.
      * intros Hb. unfold is_used, is_inode. rewrite Hp. cbn [andb b2z]. split; [done|]. by apply (ds_u32 a t).
  - destruct (raw_node_info nid raw Hraw) as [ver ->]. rewrite res_bind_ret. cbn [ni_blk_addr ni_ino].
    assert (used_raw raw = negb (raw_blk raw =? 0)) as Hu by done.
    destruct (raw_blk raw =? 0) eqn:E0; cbn [negb] in Hu.
    + exists a. split; [done|]. apply (describes_upd a); try done.
      * apply D.
      * intros _. by rewrite (ds_bit a t D), Hfree, Hu.
      * by right.
      * intros Hb. unfold is_used, is_inode. rewrite Hp, Hu, Hfree. cbn [andb b2z]. split; [done|]. by apply (ds_u32 a t).
    + destruct (na_set_spec a t nid (if nid =? 0 then 0 else 1) (if raw_ino raw =? nid then 1 else 0) ((raw_ino raw =? 0) || (nid =? 0)) D Hv)
        as (bm & -> & Hby & Hl & Hbit).
      rewrite res_bind_ret. unfold na_store. cbn [na_entries]. rewrite wr_total by (rewrite (ds_len a t D); apply Hv).
      rewrite res_bind_ret. eexists. split; [done|].
      apply (describes_upd a); try done; cbn [na_bitmap na_entries na_bug na_valid na_inodes].
      * intros j Hj Hne. by rewrite Hbit, (proj2 (Z.eqb_neq _ _) Hne).
      * intros _. rewrite Hbit by apply Hv. by rewrite Z.eqb_refl, Hu.
      * by left.
      * intros [Hb [_ Hn0]%orb_false_elim]%orb_false_elim. unfold is_used, is_inode. rewrite Hp, Hu, Hfree, Hn0. split; [done|].
        by destruct (raw_ino raw =? nid).
Qed.
(** What was counted for an id is taken back. *)
Lemma area_forget_step a t nid old : describes a t -> valid_nid ns nid -> plain nid = true -> rd (na_entries a) nid = Ok old ->
  exists a1, (if negb (raw_blk old =? 0) then
         '(_, bm) ← f2fs_clear_bit nid (na_bitmap a);
         Ok {| na_bitmap := bm; na_entries := na_entries a; na_valid := u32 (na_valid a - 1);
               na_inodes := if raw_ino old =? nid then u32 (na_inodes a - 1) else na_inodes a; na_bug := na_bug a |}
       else Ok a) = Ok a1 /\
    na_entries a1 = na_entries a /\ na_bug a1 = na_bug a /\ bytes (na_bitmap a1) /\ length (na_bitmap a1) = length (na_bitmap a) /\
    (forall j, 0 <= j -> bit_be (na_bitmap a1) j = negb (j =? nid) && bit_be (na_bitmap a) j) /\
    (na_bug a = false -> na_valid a1 = u32 (na_valid a - b2z (is_used nid (t nid))) /\
       na_inodes a1 = u32 (na_inodes a - b2z (is_inode nid (t nid)))).
Proof.
  intros D Hv Hp Hrd. destruct (ds_entry a t D nid Hv Hp) as (e & Hrd' & He9 & Hu & Hsame).
  rewrite Hrd in Hrd'. apply Ok_inj in Hrd' as <-. unfold is_used, is_inode. rewrite Hp. fold (used_raw old). cbn [andb].
  destruct (used_raw old) eqn:Huo.
  - rewrite <- (Hsame eq_refl), Huo. cbn [andb b2z]. pose proof (ds_bits a t D). unfold valid_nid in Hv.
    destruct (@bm_clear_ok _ be_bitmap_laws (na_bitmap a) nid (ds_bytes a t D) ltac:(lia)) as (w & bm & E & _ & Hl & Hby & Hbit).
    cbn [bm_clear be_bitmap] in E. rewrite E, res_bind_ret. eexists. split; [done|]. cbn [na_entries na_bug na_bitmap na_valid na_inodes].
    split_and!; try done. intros Hb. split; [done|]. destruct (raw_ino old =? nid); cbn [b2z]; [done|].
    apply (ds_u32 a t D Hb).
  - exists a. rewrite <- Hu. cbn [andb b2z]. split; [done|]. split_and!; try done; [apply D| |].
    + intros j Hj. destruct (Z.eqb_spec j nid) as [->|]; [|done]. by rewrite (ds_bit a t D), <- Hu.
    + intros Hb. apply (ds_u32 a t D Hb).
Qed.

(** An entry of the journal. *)
Lemma area_replace_step a t nid raw : describes a t -> valid_nid ns nid -> plain nid = true -> raw9 raw ->
  exists a', nat_area_replace a nid raw = Ok a' /\ describes a' (upd t nid raw).
Proof.
  intros D Hv Hp Hraw. destruct (ds_entry a t D nid Hv Hp) as (old & Hrd & Ho9 & _).
  unfold nat_area_replace. rewrite Hrd, res_bind_ret. destruct (raw_members old Ho9) as [-> ->]. rewrite !res_bind_ret.
  destruct (area_forget_step a t nid old D Hv Hp Hrd) as (a1 & -> & Hes & Hbug & Hby & Hl & Hbit & Hcnt). rewrite res_bind_ret.
  destruct (raw_node_info nid raw Hraw) as [ver ->]. rewrite res_bind_ret. cbn [ni_blk_addr ni_ino]. fold (used_raw raw).
  assert (wr (na_entries a1) nid raw = Ok (<[Z.to_nat nid := raw]> (na_entries a))) as Hwr.
  { rewrite Hes. apply wr_total. rewrite (ds_len a t D). apply Hv. }
  destruct (used_raw raw) eqn:Hu.
  - pose proof (ds_bits a t D). unfold na_set. unfold valid_nid in Hv.
    destruct (@bm_set_ok _ be_bitmap_laws (na_bitmap a1) nid Hby ltac:(unfold nbits in *; rewrite Hl; lia)) as (w & bm & E & _ & Hl2 & Hby2 & Hbit2).
    cbn [bm_set be_bitmap] in E. rewrite E, !res_bind_ret. unfold na_store. cbn [na_entries]. rewrite Hwr, res_bind_ret. eexists. split; [done|].
    apply (describes_upd a); try done; cbn [na_bitmap na_entries na_bug na_valid na_inodes]; [congruence| | |by left|].
    + intros j Hj Hne. cbn [bm_bit be_bitmap] in Hbit2. rewrite Hbit2, Hbit by done. by rewrite (proj2 (Z.eqb_neq _ _) Hne).
    + intros _. cbn [bm_bit be_bitmap] in Hbit2. rewrite Hbit2 by lia. by rewrite Z.eqb_refl, Hu.
    + rewrite Hbug. intros [Hb _]%orb_false_elim. destruct (Hcnt Hb) as [-> ->]. split; [done|].
      unfold is_used at 2, is_inode at 2. rewrite Hp, Hu. cbn [andb b2z]. unfold u32. rewrite !Zplus_mod_idemp_l.
      split; [f_equal; lia|]. destruct (raw_ino raw =? nid); cbn [b2z]; f_equal; lia.
  - unfold na_store. cbn [mbind res_bind]. rewrite Hwr, res_bind_ret. eexists. split; [done|].
    apply (describes_upd a); try done; cbn [na_bitmap na_entries na_bug na_valid na_inodes]; [| |by left|].
    + intros j Hj Hne. rewrite Hbit by done. by rewrite (proj2 (Z.eqb_neq _ _) Hne).
    + intros _. rewrite Hbit by apply Hv. by rewrite Z.eqb_refl, Hu.
    + rewrite Hbug. intros Hb. destruct (Hcnt Hb) as [-> ->]. split; [done|].
      unfold is_used at 2, is_inode at 2. rewrite Hu, andb_false_r. cbn [andb b2z]. split; f_equal; lia.
Qed.
Lemma count_ext P t t' l : (forall x, x ∈ l -> t x = t' x) -> count_ids P t l = count_ids P t' l.
Proof.
  induction l as [|x l IH]; [done|]. intros H. cbn [count_ids]. rewrite IH by (intros; apply H; by right). by rewrite (H x) by left.
Qed.
Lemma describes_ext a t t' : (forall x, valid_nid ns x -> t x = t' x) -> describes a t -> describes a t'.
Proof.
  intros H [Hl Hb Hn Hr Hbit He Hc Hi].
  assert (forall x, x ∈ ids -> t x = t' x) as Hin by (intros x Hx%elem_of_seqZ; apply H; unfold valid_nid; lia).
  constructor; try done; intros; rewrite <- ?H by done; auto; [rewrite Hc by done|rewrite Hi by done]; by rewrite (count_ext _ _ _ _ Hin).
Qed.

(** The entries of the blocks below [m], nothing from there on. *)
Definition disk_entry (x : Z) : list Z := match block_entry ns x with Ok r => r | _ => [] end.
Definition below (m x : Z) : list Z := if x <? m then disk_entry x else replicate 9 0.

Lemma disk_entry_eq x : valid_nid ns x -> block_entry ns x = Ok (disk_entry x) /\ raw9 (disk_entry x).
Proof. intros Hx. unfold disk_entry. by destruct (block_entry_total ns k Hok x Hx) as (r & -> & Hr). Qed.
Lemma below_next m a : describes a (upd (below m) m (disk_entry m)) -> describes a (below (m + 1)).
Proof.
  apply describes_ext. intros x _. unfold upd, below. destruct (Z.eqb_spec x m) as [->|]; [by rewrite (proj2 (Z.ltb_lt _ _)) by lia|].
  by replace (x <? m + 1) with (x <? m) by lia.
Qed.

Lemma area_block_spec n' : forall a blk nid i, describes a (below (nid + i)) -> nid mod 455 = 0 -> 0 <= i -> i + Z.of_nat n' = 455 ->
  valid_nid ns nid -> ns_disk ns !! nat_addr ns nid = Some blk ->
  exists a', nat_area_block n' ns a blk nid i = Ok a' /\ describes a' (below (nid + 455)).
Proof.
  induction n' as [|n' IH]; intros a blk nid i D Hm Hi Hn Hv Hblk; cbn [nat_area_block].
  { exists a. split; [done|]. by replace 455 with i by lia. }
  assert (valid_nid ns (nid + i)) as Hvi.
  { unfold valid_nid in *. rewrite (no_max _ _ Hok) in *. Z.to_euclidean_division_equations; lia. }
  destruct (disk_entry_eq _ Hvi) as [He H9].
  assert ((nid + i) / 455 = nid / 455 /\ (nid + i) mod 455 = i) as [Hd Hmod] by (Z.to_euclidean_division_equations; lia).
  assert (nat_block_entry blk i = Ok (disk_entry (nid + i))) as ->.
  { rewrite <- He. unfold block_entry, nat_addr. cbv zeta. rewrite Hd, Hmod. fold (nat_addr ns nid).
    unfold disk_read_or_die, disk_read. change (ns_disk ns !! _) with (ns_disk ns !! nat_addr ns nid). by rewrite Hblk. }
  rewrite res_bind_ret.
  destruct (area_entry_step a (below (nid + i)) (nid + i) (disk_entry (nid + i)) D Hvi H9) as (a1 & -> & D1).
  { unfold below. by rewrite Z.ltb_irrefl. }
  rewrite res_bind_ret. apply IH; try done; [|lia..]. rewrite Z.add_assoc. by apply below_next.
Qed.

Lemma area_blocks_spec n' : forall a bo, describes a (below (455 * bo)) -> 0 <= bo -> bo + Z.of_nat n' = 512 * k ->
  exists a', nat_area_blocks n' ns a bo = Ok a' /\ describes a' (below (nm_max_nid (ns_nm ns))).
Proof.
  induction n' as [|n' IH]; intros a bo D H0 Hn; cbn [nat_area_blocks].
  { exists a. split; [done|]. rewrite (no_max _ _ Hok). by replace (512 * k) with bo by lia. }
  assert (valid_nid ns (bo * 455)) as Hv by (unfold valid_nid; rewrite (no_max _ _ Hok); lia).
  cbv zeta. change NAT_ENTRY_PER_BLOCK with 455.
  destruct (current_nat_addr_eq ns k Hok _ Hv) as [pk ->]. rewrite res_bind_ret.
  destruct (nat_block_has ns k Hok _ Hv) as (blk & Hblk & _). unfold disk_read_or_die, disk_read. rewrite Hblk, res_bind_ret.
  destruct (area_block_spec (Z.to_nat 455) a blk (bo * 455) 0) as (a1 & -> & D1); try done; [by rewrite Z.add_0_r, Z.mul_comm|by rewrite Z.mod_mul|].
  rewrite res_bind_ret. apply IH; [|lia..]. by replace (455 * (bo + 1)) with (bo * 455 + 455) by lia.
Qed.
Context (Hplain : forall j nid, 0 <= j < n -> nid_in_journal (ns_sum ns) j = Ok nid -> plain nid = true).

(** [t] is the table after the first [i] entries of the journal. *)
Definition journaled (i : Z) (t : Z -> list Z) : Prop :=
  (forall j nid ne, 0 <= j < i -> nid_in_journal (ns_sum ns) j = Ok nid -> nat_in_journal (ns_sum ns) j = Ok ne -> t nid = ne) /\
  (forall x, valid_nid ns x -> (forall j, 0 <= j < i -> nid_in_journal (ns_sum ns) j <> Ok x) -> t x = disk_entry x).

Lemma journaled_next i t nid ne : journaled i t -> 0 <= i < n -> nid_in_journal (ns_sum ns) i = Ok nid -> nat_in_journal (ns_sum ns) i = Ok ne ->
  journaled (i + 1) (upd t nid ne).
Proof.
  intros [Hin Hout] Hi Hnid Hne. destruct Hnids as [_ Hdist]. split.
  - intros j x e Hj Hx He. unfold upd. destruct (Z.eqb_spec x nid) as [->|Hxn].
    + assert (j = i) as -> by (apply (Hdist j i nid); [lia|lia|done|done]). rewrite Hne in He. by apply Ok_inj in He.
    + apply (Hin j); [|done..]. enough (j <> i) by lia. intros ->. rewrite Hnid in Hx. by apply Ok_inj in Hx as ->.
  - intros x Hv Hno. unfold upd. destruct (Z.eqb_spec x nid) as [->|Hxn]; [|apply Hout; [done|]; intros j Hj; apply Hno; lia].
    destruct (Hno i); [lia|done].
Qed.

Lemma area_journal_spec m : forall a i t, describes a t -> journaled i t -> 0 <= i -> i + Z.of_nat m = n ->
  exists a' t', nat_area_journal m (ns_sum ns) a i = Ok a' /\ describes a' t' /\ journaled n t'.
Proof.
  induction m as [|m IH]; intros a i t D J H0 Hn; cbn [nat_area_journal].
  { exists a, t. split; [done|]. by replace n with i by lia. }
  destruct (no_sum _ _ Hok) as [Hl Hb]. pose proof Hcount as [_ Hc].
  destruct (nid_in_journal_total (ns_sum ns) i Hl) as [nid Hnid]; [lia|].
  destruct (nat_in_journal_total (ns_sum ns) i Hl Hb) as (ne & Hne & H9); [lia|].
  rewrite Hnid, Hne, !res_bind_ret.
  destruct (area_replace_step a t nid ne D) as (a1 & -> & D1);
    [apply (proj1 Hnids i); [lia|done]|apply (Hplain i); [lia|done]|split; apply H9|].
  rewrite res_bind_ret. apply (IH a1 (i + 1) (upd t nid ne)); try done; [|lia..]. apply journaled_next; [done|lia|done|done].
Qed.

(** The entry that counts for the tools. *)
Definition entry_in_force (x : Z) : list Z := match get_nat_entry ns x with Ok r => r | _ => [] end.
Lemma journaled_in_force t x : journaled n t -> valid_nid ns x -> t x = entry_in_force x.
Proof.
  intros [Hin Hout] Hx. unfold entry_in_force. rewrite (get_nat_entry_eq ns k Hok x Hx).
  destruct (lookup_journal_spec ns k n x Hok Hcount) as [(j & ne & Hj & Hnid & Hne & ->)|[Hno ->]]; rewrite res_bind_ret.
  - by apply (Hin j).
  - rewrite Hout by done. by destruct (disk_entry_eq x Hx) as [-> _].
Qed.

Lemma nr_nat_eq : nr_nat_blks ns = 512 * k /\ nr_nat_entries ns = nm_max_nid (ns_nm ns).
Proof.
  assert (nr_nat_blks ns = 512 * k) as E.
  { unfold nr_nat_blks. rewrite (no_segs _ _ Hok), (no_log _ _ Hok), Z.mul_comm, Z.div_mul by done.
    pose proof (no_max32 _ _ Hok). pose proof (no_pos _ _ Hok).
    rewrite Z.shiftl_mul_pow2 by done. change (2 ^ 9) with 512. rewrite u32_id by (unfold is_u32; lia). lia. }
  split; [done|]. unfold nr_nat_entries. rewrite E, (no_max _ _ Hok). change NAT_ENTRY_PER_BLOCK with 455.
  pose proof (no_max32 _ _ Hok). pose proof (no_pos _ _ Hok). rewrite u32_id by (unfold is_u32; lia). lia.
Qed.

Lemma count_none P t l : (forall x, x ∈ l -> P x (t x) = false) -> count_ids P t l = 0.
Proof. induction l as [|x l IH]; [done|]. intros H. cbn [count_ids]. rewrite IH by (intros; apply H; by right). by rewrite (H x) by left. Qed.

Lemma describes_empty m : m = nm_max_nid (ns_nm ns) ->
  describes {| na_bitmap := replicate (Z.to_nat (u32 (m + 7) / 8)) 0; na_entries := replicate (Z.to_nat m) (replicate 9 0);
               na_valid := 0; na_inodes := 0; na_bug := false |} (below (455 * 0)).
Proof.
  intros Hm. pose proof (no_max _ _ Hok) as Hmax. pose proof (no_max32 _ _ Hok). pose proof (no_pos _ _ Hok).
  assert (forall x, valid_nid ns x -> below (455 * 0) x = replicate 9 0) as Hz.
  { intros x Hx. unfold below. destruct Hx. by replace (x <? 455 * 0) with false by lia. }
  assert (forall x, used_raw (below (455 * 0) x) = false \/ x < 0) as Hu.
  { intros x. unfold below. destruct (Z.ltb_spec x (455 * 0)); [right; lia|by left]. }
  constructor; cbn [na_bitmap na_entries na_valid na_inodes na_bug].
  - rewrite length_replicate. lia.
  - by apply Forall_replicate.
  - unfold nbits. rewrite length_replicate, u32_id by (unfold is_u32; lia). Z.to_euclidean_division_equations; lia.
  - intros x Hx. rewrite Hz by done. apply zero_raw.
  - intros x Hx _. rewrite Hz by done. rewrite bit_be_zeros. by destruct zero_raw.
  - intros x Hx _. rewrite Hz by done. exists (replicate 9 0). split; [|split; [apply zero_raw|done]].
    apply rd_Ok. destruct Hx. split; [done|]. apply lookup_replicate_2. lia.
  - intros _. rewrite count_none; [done|]. intros x Hx%elem_of_seqZ. unfold is_used. destruct (Hu x) as [->|]; [apply andb_false_r|lia].
  - intros _. rewrite count_none; [done|]. intros x Hx%elem_of_seqZ. unfold is_inode. destruct (Hu x) as [->|]; [by rewrite andb_false_r|lia].
Qed.

Lemma build_nat_area_spec : exists a, build_nat_area_bitmap ns = Ok a /\ describes a entry_in_force.
Proof.
  unfold build_nat_area_bitmap. cbv zeta. destruct nr_nat_eq as [Hblks Hents]. rewrite Hblks. pose proof (no_pos _ _ Hok).
  destruct (area_blocks_spec (Z.to_nat (512 * k)) _ 0 (describes_empty (nr_nat_entries ns) Hents)) as (a1 & -> & D1); [lia..|]. rewrite res_bind_ret.
  pose proof Hcount as [-> Hr]. rewrite res_bind_ret.
  destruct (area_journal_spec (Z.to_nat n) a1 0 _ D1) as (a & t & -> & D & J); [|lia..|].
  { split; [lia|]. intros x Hx _. unfold below. destruct Hx as [_ Hx]. by rewrite (proj2 (Z.ltb_lt _ _) Hx). }
  exists a. split; [done|]. apply (describes_ext a t); [|done]. intros x Hx. by apply journaled_in_force.
Qed.

(** The cached entries do not change what the tools see. *)
Lemma cache_transparent a nid : describes a entry_in_force -> valid_nid ns nid -> plain nid = true ->
  get_node_info (with_entries ns (na_entries a)) nid = (raw ← get_nat_entry ns nid; node_info_from_raw_nat nid raw).
Proof.
  intros D Hv Hp. unfold get_node_info. destruct (is_fsck _ && _); [|done].
  destruct (ds_entry a _ D nid Hv Hp) as (e & Hrd & He9 & Hu & Hsame). cbn [ns_entries with_entries]. rewrite Hrd, res_bind_ret.
  destruct (raw_node_info nid e He9) as [ver Hni]. rewrite Hni, res_bind_ret. cbn [ni_blk_addr].
  assert (used_raw e = negb (raw_blk e =? 0)) as Hue by done. destruct (raw_blk e =? 0); [done|]. cbn [negb] in Hue.
  rewrite <- Hni, (Hsame Hue). pose proof (ds_raw a _ D nid Hv) as [Hl _]. unfold entry_in_force in *.
  by destruct (get_nat_entry ns nid).
Qed.
End Area.

(** * Dropping entries *)

Definition zero_entry : list Z := replicate 9 0.

Lemma journal_find_ext m sum sum' nid : forall i, (forall j, i <= j < i + Z.of_nat m -> nid_in_journal sum' j = nid_in_journal sum j) ->
  journal_find m sum' i nid = journal_find m sum i nid.
Proof.
  induction m as [|m IH]; intros i H; cbn [journal_find]; [done|]. rewrite H by lia. 
  destruct (nid_in_journal sum i); [|done..]. cbn [mbind res_bind]. destruct (_ =? nid); [done|]. apply IH. intros j Hj. apply H. lia.
Qed.

(** [ns'] is [ns] without the entries of the ids with [P]. *)
Record drops (ns ns' : nat_state) (k n : Z) (P : Z -> Prop) : Prop := {
  dr_ok : nat_ok ns' k;
  dr_count : journal_count ns' n;
  dr_nm : ns_nm ns' = ns_nm ns;
  dr_conf : ns_sb ns' = ns_sb ns /\ ns_node_ino ns' = ns_node_ino ns /\ ns_meta_ino ns' = ns_meta_ino ns;
  dr_same : forall nid, valid_nid ns nid -> ~ P nid -> get_nat_entry ns' nid = get_nat_entry ns nid;
  dr_gone : forall nid, valid_nid ns nid -> P nid -> plain ns nid = true -> get_nat_entry ns' nid = Ok zero_entry;
}.

(** A dropped entry of the journal. *)
Lemma nullify_in_journal ns k n nid j : nat_ok ns k -> journal_count ns n -> 0 <= j < n -> nid_in_journal (ns_sum ns) j = Ok nid ->
  journal_find (Z.to_nat n) (ns_sum ns) 0 nid = Ok (Some j) ->
  drops ns (with_sum ns (splice (ns_sum ns) (ofs_nat_in_journal j) zero_entry)) k n (eq nid).
Proof.
  intros Hok Hc Hj Hnid Hf. pose proof Hc as [Hn Hr]. destruct (no_sum _ _ Hok) as [Hl Hb]. set (sum' := splice _ _ _).
  assert (0 <= ofs_nat_in_journal j /\ ofs_nat_in_journal j + 9 <= 4096) as Ho
    by (unfold ofs_nat_in_journal, ofs_nid_in_journal, ofs_journal, SIZE_OF_NAT_JOURNAL_ENTRY; lia).
  assert (forall i, i < ofs_nat_in_journal j \/ ofs_nat_in_journal j + 9 <= i -> rd sum' i = rd (ns_sum ns) i) as Hrd.
  { intros i Hi. apply rd_splice_ne; cbn [length zero_entry replicate]; lia. }
  assert (forall i, 0 <= i < 38 -> nid_in_journal sum' i = nid_in_journal (ns_sum ns) i) as Hsame.
  { intros i Hi. apply get_le_ext. intros x Hx. apply Hrd.
    unfold ofs_nat_in_journal, ofs_nid_in_journal, ofs_journal, SIZE_OF_NAT_JOURNAL_ENTRY in *. lia. }
  assert (nats_in_cursum sum' = Ok n) as Hn'.
  { rewrite <- Hn. apply get_le_ext. intros x Hx. apply Hrd.
    unfold ofs_nat_in_journal, ofs_nid_in_journal, ofs_journal, SIZE_OF_NAT_JOURNAL_ENTRY in *. lia. }
  assert (nat_ok (with_sum ns sum') k) as Hok'.
  { destruct Hok as [A1 A2 A3 A4 A5 A6 A7 A8 A9]. constructor; try done. cbn [ns_sum with_sum]. subst sum'.
    split; [rewrite length_splice by (cbn [length zero_entry replicate]; lia); done|apply bytes_splice; [done|by apply Forall_replicate]]. }
  constructor; try done.
  - intros x Hx Hne. rewrite (get_nat_entry_eq _ k Hok' x Hx), (get_nat_entry_eq ns k Hok x Hx).
    unfold lookup_nat_in_journal. cbn [ns_sum with_sum]. rewrite Hn', Hn, !res_bind_ret.
    rewrite (journal_find_ext _ (ns_sum ns) sum') by (intros; apply Hsame; lia).
    destruct (journal_find_spec (Z.to_nat n) (ns_sum ns) 0 x Hl) as (r & -> & Hs); [lia..|]. rewrite !res_bind_ret.
    destruct r as [i|]; [|done]. destruct Hs as [Hi Hxi].
    assert (nat_in_journal sum' i = nat_in_journal (ns_sum ns) i) as ->; [|done].
    apply rd_bytes_ext. intros y Hy. apply Hrd. assert (i <> j) by (intros ->; congruence).
    unfold ofs_nat_in_journal, ofs_nid_in_journal, ofs_journal, SIZE_OF_NAT_JOURNAL_ENTRY, SIZE_OF_NAT_ENTRY in *. lia.
  - intros x Hx <- _. rewrite (get_nat_entry_eq _ k Hok' nid Hx). unfold lookup_nat_in_journal. cbn [ns_sum with_sum]. rewrite Hn', !res_bind_ret.
    rewrite (journal_find_ext _ (ns_sum ns) sum') by (intros; apply Hsame; lia). rewrite Hf, res_bind_ret.
    unfold nat_in_journal, sum', splice. rewrite rd_bytes_app; [done|rewrite length_take; lia|done].
Qed.

(** A dropped entry of a block. *)
Lemma nullify_in_block ns k n nid blk blk' : nat_ok ns k -> journal_count ns n -> valid_nid ns nid ->
  ns_disk ns !! nat_addr ns nid = Some blk -> length blk' = 4096%nat -> bytes blk' ->
  (forall i, i < 9 * (nid mod 455) \/ 9 * (nid mod 455) + 9 <= i -> rd blk' i = rd blk i) ->
  (plain ns nid = true -> nat_block_entry blk' (nid mod 455) = Ok zero_entry) ->
  lookup_nat_in_journal ns nid = Ok None ->
  drops ns (with_disk ns (<[nat_addr ns nid := blk']> (ns_disk ns))) k n (eq nid).
Proof.
  intros Hok Hc Hv Hblk Hl Hb Hrd He Hj. destruct (block_write ns k nid blk blk' Hok Hv Hblk Hl Hb Hrd) as (Hok' & He' & Ho).
  constructor; try done.
  - intros x Hx Hne. rewrite (get_nat_entry_eq _ k Hok' x Hx), (get_nat_entry_eq ns k Hok x Hx). f_equal. by rewrite <- (Ho x Hx).
  - intros x Hx <- Hp. rewrite (get_nat_entry_eq _ k Hok' nid Hx), lookup_journal_with_disk, Hj, res_bind_ret, He'. by apply He.
Qed.

Lemma nullify_spec ns k n nid : nat_ok ns k -> journal_count ns n -> valid_nid ns nid ->
  exists ns', nullify_nat_entry ns nid = Ok ns' /\ drops ns ns' k n (eq nid).
Proof.
  intros Hok Hc Hv. pose proof Hc as [Hn Hr]. destruct (no_sum _ _ Hok) as [Hl Hb].
  unfold nullify_nat_entry. rewrite Hn, res_bind_ret.
  destruct (journal_find_spec (Z.to_nat n) (ns_sum ns) 0 nid Hl) as (r & Hf & Hs); [lia..|]. rewrite Hf, res_bind_ret.
  destruct r as [j|].
  - destruct Hs as [Hj Hnid]. change (replicate (Z.to_nat SIZE_OF_NAT_ENTRY) 0) with zero_entry.
    rewrite wr_list_splice by (unfold ofs_nat_in_journal, ofs_nid_in_journal, ofs_journal, SIZE_OF_NAT_JOURNAL_ENTRY;
                               change (length zero_entry) with 9%nat; lia).
    rewrite res_bind_ret. eexists. split; [done|]. apply nullify_in_journal; try done. lia.
  - assert (lookup_nat_in_journal ns nid = Ok None) as Hlk by (unfold lookup_nat_in_journal; rewrite Hn, res_bind_ret, Hf; done).
    destruct (nat_block_has ns k Hok nid Hv) as (blk & Hblk & Hbl & Hbb).
    destruct (current_nat_addr_eq ns k Hok nid Hv) as [p ->]. rewrite res_bind_ret. cbv zeta.
    unfold disk_read_or_die, disk_read. rewrite Hblk, res_bind_ret. change NAT_ENTRY_PER_BLOCK with 455. unfold SIZE_OF_NAT_ENTRY.
    assert (0 <= nid mod 455 < 455) as Hm by (apply Z.mod_pos_bound; lia).
    pose proof (not_plain ns nid) as Hp. destruct ((nid =? ns_node_ino ns) || (nid =? ns_meta_ino ns)); cbn [negb] in Hp.
    + rewrite set_le_Ok by (unfold ofs_ne_block_addr; lia). rewrite res_bind_ret, disk_write_present by (by exists blk). rewrite res_bind_ret.
      eexists. split; [done|]. apply (nullify_in_block ns k n nid blk); try done.
      * rewrite length_splice; unfold ofs_ne_block_addr; rewrite ?length_le_bytes; lia.
      * apply bytes_splice; [done|apply bytes_le_bytes].
      * intros i Hi. apply rd_splice_ne; unfold ofs_ne_block_addr; rewrite ?length_le_bytes; lia.
      * rewrite Hp. discriminate.
    + change (replicate (Z.to_nat 9) 0) with zero_entry. rewrite wr_list_splice by (change (length zero_entry) with 9%nat; lia). rewrite res_bind_ret, disk_write_present by (by exists blk). rewrite res_bind_ret.
      eexists. split; [done|]. apply (nullify_in_block ns k n nid blk); try done.
      * rewrite length_splice; change (length zero_entry) with 9%nat; lia.
      * apply bytes_splice; [done|by apply Forall_replicate].
      * intros i Hi. apply rd_splice_ne; change (length zero_entry) with 9%nat; lia.
      * intros _. unfold nat_block_entry, SIZE_OF_NAT_ENTRY, splice. apply rd_bytes_app; [rewrite length_take; lia|done].
Qed.

(** Two drops one after the other. *)
Lemma drops_trans ns ns1 ns2 k n (P Q R : Z -> Prop) : (forall x, R x <-> P x \/ Q x) ->
  drops ns ns1 k n P -> drops ns1 ns2 k n Q -> (forall x, P x -> ~ Q x) -> drops ns ns2 k n R.
Proof.
  intros HR [A1 A2 A3 (A4 & A5 & A6) A7 A8] [B1 B2 B3 (B4 & B5 & B6) B7 B8] Hd.
  assert (forall x, valid_nid ns x -> valid_nid ns1 x) as V by (intros x; unfold valid_nid; by rewrite A3).
  assert (forall x, plain ns1 x = plain ns x) as Hpl by (intros x; unfold plain; by rewrite A5, A6).
  constructor; [done|done|congruence|split_and!; congruence| |].
  - intros x Hx Hn. rewrite B7, A7; [done|done| |by apply V|]; intros H; apply Hn, HR; tauto.
  - intros x Hx HRx Hp. destruct (proj1 (HR x) HRx) as [H|H]; [|apply B8; [by apply V|done|by rewrite Hpl]].
    rewrite B7; [by apply A8|by apply V|by apply Hd].
Qed.
Lemma drops_refl ns k n (P : Z -> Prop) : nat_ok ns k -> journal_count ns n -> (forall x, valid_nid ns x -> ~ P x) -> drops ns ns k n P.
Proof. intros Hok Hc HP. constructor; try done. intros x Hx H. destruct (HP x Hx H). Qed.

Lemma fix_nat_loop_spec m : forall area ns k n i, nat_ok ns k -> journal_count ns n -> bytes area -> nm_max_nid (ns_nm ns) <= nbits area ->
  0 <= i -> i + Z.of_nat m = nm_max_nid (ns_nm ns) ->
  exists ns', fix_nat_loop m area ns i = Ok ns' /\ drops ns ns' k n (fun x => i <= x /\ bit_be area x = true).
Proof.
  induction m as [|m IH]; intros area ns k n i Hok Hc Hb Hn H0 Hm; cbn [fix_nat_loop].
  { exists ns. split; [done|]. apply drops_refl; [done..|]. unfold valid_nid. lia. }
  destruct (test_bit_be area i Hb) as (v & -> & Hv); [lia|]. rewrite res_bind_ret, Hv.
  assert (valid_nid ns i) as Hvi by (unfold valid_nid; lia). destruct (bit_be area i) eqn:Hbit; cbn [negb].
  - destruct (nullify_spec ns k n i Hok Hc Hvi) as (ns1 & -> & D1). rewrite res_bind_ret. pose proof D1 as [A1 A2 A3 _ _ _].
    destruct (IH area ns1 k n (i + 1)) as (ns2 & -> & D2); try done; try (rewrite A3; lia); [lia|]. exists ns2. split; [done|].
    eapply drops_trans; [|exact D1|exact D2|]; cbn; [|lia]. intros x. split; [|intros [<-|?]; [done|split; [lia|easy]]].
    intros [Hx Hbx]. destruct (Z.eq_dec i x); [by left|right; split; [lia|done]].
  - rewrite res_bind_ret. destruct (IH area ns k n (i + 1)) as (ns2 & -> & [B1 B2 B3 B4 B5 B6]); try done; [lia..|]. exists ns2. split; [done|].
    constructor; try done; intros x Hx Hp.
    + apply B5; [done|]. intros [? ?]. apply Hp. split; [lia|done].
    + apply B6; [done|]. destruct Hp as [? Hp]. split; [|done]. enough (x <> i) by lia. intros ->. congruence.
Qed.

(** What an operation on the table leaves alone. *)
Definition same_conf (ns ns' : nat_state) : Prop :=
  (ns_func ns', ns_fix_on ns', ns_sb ns', ns_log ns', ns_main_blkaddr ns', ns_node_ino ns', ns_meta_ino ns') =
  (ns_func ns, ns_fix_on ns, ns_sb ns, ns_log ns, ns_main_blkaddr ns, ns_node_ino ns, ns_meta_ino ns).
Lemma fix_nat_loop_conf m : forall area ns i ns', fix_nat_loop m area ns i = Ok ns' -> same_conf ns ns'.
Proof.
  induction m as [|m IH]; intros area ns i ns' H; cbn [fix_nat_loop] in H; [by apply Ok_inj in H as <-|].
  apply res_bind_Ok in H as (b & _ & H). apply res_bind_Ok in H as (ns1 & H1 & H). apply IH in H.
  enough (same_conf ns ns1) as E by (unfold same_conf in *; congruence).
  destruct (negb (b =? 0)); [|by apply Ok_inj in H1 as <-]. unfold nullify_nat_entry in H1. cbv zeta in H1.
  apply res_bind_Ok in H1 as (c & _ & H1). apply res_bind_Ok in H1 as ([j|] & _ & H1).
  - apply res_bind_Ok in H1 as (l & _ & H1). by apply Ok_inj in H1 as <-.
  - apply res_bind_Ok in H1 as ([p q] & _ & H1). apply res_bind_Ok in H1 as (b1 & _ & H1). apply res_bind_Ok in H1 as (b2 & _ & H1).
    apply res_bind_Ok in H1 as (d & _ & H1). by apply Ok_inj in H1 as <-.
Qed.

(** An operation on the table, seen through the volume. *)
Lemma on_nat_view {A} st ns ns' (f : nat_state -> res (A * nat_state)) x : nat_view (fk_vol st) = Ok ns -> f ns = Ok (x, ns') -> same_conf ns ns' ->
  exists st', on_nat st f = Ok (x, st') /\ nat_view (fk_vol st') = Ok ns'.
Proof.
  intros Hview Hf Hsame. unfold on_nat. rewrite Hview, res_bind_ret, Hf, res_bind_ret.
  unfold nat_view in Hview. apply res_bind_Ok in Hview as (hot & Hhot & <-%Ok_inj). unfold fk_seg. rewrite Hhot, res_bind_ret.
  pose proof Hhot as [H0 Hlk]%rd_Ok. cbn [put_nat v_seg with_seg_disk sg_cursegs].
  rewrite wr_total by (split; [done|]; apply lookup_lt_Some in Hlk; unfold CURSEG_HOT_DATA in *; lia).
  rewrite res_bind_ret. eexists. split; [done|]. unfold nat_view.
  cbn [fk_vol with_vol v_seg with_seg sg_cursegs with_cursegs sg with_seg_disk put_nat v_node_ino v_meta_ino v_nm v_entries v_disk sg_disk].
  assert (rd (<[Z.to_nat CURSEG_HOT_DATA:=set_sum_blk hot (ns_sum ns')]> (sg_cursegs (v_seg (fk_vol st)))) CURSEG_HOT_DATA
    = Ok (set_sum_blk hot (ns_sum ns'))) as ->.
  { apply rd_Ok. split; [done|]. apply list_lookup_insert_eq. by apply lookup_lt_Some in Hlk. }
  rewrite res_bind_ret. f_equal. unfold same_conf in Hsame. cbn in Hsame. destruct ns'. cbn in *. congruence.
Qed.

(** * Properties *)

(** C13: The map of used node ids from which fsck starts is exact. For a mounted table with a
    journal of valid, different ids that are not those of the node and meta inodes,
    [build_nat_area_bitmap] succeeds; the bit of an id is set if and only if the entry in
    force, from the journal or else from the current copy of its block, has a block; the
    cached entry of a used id is the entry in force; unless an error was reported, the
    numbers of used ids and of inodes are those of the table, modulo 2^32; and reading node
    information through the cache gives what reading the table gives. *)
Theorem nat_area_exact (ns : nat_state) (k n : Z) :
  nat_ok ns k -> journal_count ns n -> journal_nids_ok ns n ->
  (forall j nid, 0 <= j < n -> nid_in_journal (ns_sum ns) j = Ok nid -> plain ns nid = true) ->
  exists a, build_nat_area_bitmap ns = Ok a /\ describes ns a (entry_in_force ns) /\
    forall nid, valid_nid ns nid -> plain ns nid = true ->
      get_nat_entry ns nid = Ok (entry_in_force ns nid) /\
      get_node_info (with_entries ns (na_entries a)) nid = (raw ← get_nat_entry ns nid; node_info_from_raw_nat nid raw).
Proof.
  intros Hok Hc Hj Hp. destruct (build_nat_area_spec ns k n Hok Hc Hj Hp) as (a & Ha & D). exists a. split; [done|]. split; [done|].
  intros nid Hv Hpl. split; [|by apply cache_transparent].
  pose proof (ds_raw ns a _ D nid Hv) as [Hl _]. unfold entry_in_force in *. by destruct (get_nat_entry ns nid).
Qed.

(** C14: [fix_nat_entries] drops exactly the entries of the node ids that were not reached: it
    succeeds, an id whose bit in [nat_area_bitmap] is clear keeps the entry it had, in the
    journal or in its block, and one whose bit is set has an entry of zeros afterwards,
    the node and meta inodes apart; the journal keeps its length. *)
Theorem fix_nat_entries_exact (st : fsck_st) (ns : nat_state) (k n : Z) :
  nat_view (fk_vol st) = Ok ns -> nat_ok ns k -> journal_count ns n ->
  bytes (fk_nat_area st) -> nm_max_nid (ns_nm ns) <= nbits (fk_nat_area st) ->
  exists st' ns', fix_nat_entries st = Ok st' /\ nat_view (fk_vol st') = Ok ns' /\ nat_ok ns' k /\ journal_count ns' n /\
    forall nid, valid_nid ns nid ->
      (bit_be (fk_nat_area st) nid = false -> get_nat_entry ns' nid = get_nat_entry ns nid) /\
      (bit_be (fk_nat_area st) nid = true -> plain ns nid = true -> get_nat_entry ns' nid = Ok (replicate 9 0)).
Proof.
  intros Hview Hok Hc Hb Hn. destruct (nr_nat_eq ns k Hok) as [_ Hents]. pose proof (no_pos _ _ Hok).
  destruct (fix_nat_loop_spec (Z.to_nat (nr_nat_entries ns)) (fk_nat_area st) ns k n 0) as (ns' & Hf & D); try done.
  { rewrite Hents, (no_max _ _ Hok). lia. }
  destruct (on_nat_view st ns ns' (fun ns => ns ← fix_nat_loop (Z.to_nat (nr_nat_entries ns)) (fk_nat_area st) ns 0; Ok (tt, ns)) tt Hview)
    as (st' & E & V).
  { by rewrite Hf. }
  { apply (fix_nat_loop_conf _ _ _ _ _ Hf). }
  exists st', ns'. unfold fix_nat_entries. rewrite E. split; [done|]. destruct D as [D1 D2 D3 D4 D5 D6]. split_and!; try done.
  intros nid Hv. split; [intros Hbit; apply D5; [done|]; intros [_ ?]; congruence|].
  intros Hbit Hp. apply D6; [done| |done]. split; [apply Hv|done].
Qed.

Lemma nat_area_exact_witness : exists a, build_nat_area_bitmap (sample_nat (sample_sb 0 1 31 2) [(5, 5, 5000); (500, 5, 5001)]) = Ok a /\
  bit_be (na_bitmap a) 500 = true /\ bit_be (na_bitmap a) 6 = false /\ rd (na_entries a) 500 = Ok (0 :: le_bytes 4 5 ++ le_bytes 4 5001).
Proof.
  assert (nid_in_journal (sample_journal [(5, 5, 5000); (500, 5, 5001)]) 0 = Ok 5) as H0 by (vm_compute; reflexivity).
  assert (nid_in_journal (sample_journal [(5, 5, 5000); (500, 5, 5001)]) 1 = Ok 500) as H1 by (vm_compute; reflexivity).
  destruct (nat_area_exact (sample_nat (sample_sb 0 1 31 2) [(5, 5, 5000); (500, 5, 5001)]) 1 2) as (a & Ha & D & _).
  - apply sample_nat_ok; [vm_compute; reflexivity|apply bytes_forallb; vm_compute; reflexivity].
  - split; [vm_compute; reflexivity|lia].
  - split; cbn [sample_nat ns_sum].
    + intros j nid Hj Hn. assert (j = 0 \/ j = 1) as [-> | ->] by lia; rewrite ?H0, ?H1 in Hn;
        apply Ok_inj in Hn as <-; unfold valid_nid; cbn; lia.
    + intros j1 j2 nid Hj1 Hj2 Hn1 Hn2. assert (j1 = 0 \/ j1 = 1) as [-> | ->] by lia;
        assert (j2 = 0 \/ j2 = 1) as [-> | ->] by lia; rewrite ?H0, ?H1 in *; congruence.
  - cbn [sample_nat ns_sum]. intros j nid Hj Hn. assert (j = 0 \/ j = 1) as [-> | ->] by lia; rewrite ?H0, ?H1 in Hn;
      apply Ok_inj in Hn as <-; reflexivity.
  - exists a. split; [exact Ha|].
    assert (valid_nid (sample_nat (sample_sb 0 1 31 2) [(5, 5, 5000); (500, 5, 5001)]) 500) as V by (unfold valid_nid; cbn; lia).
    split; [|split].
    + rewrite (ds_bit _ _ _ D 500 V eq_refl). vm_compute. reflexivity.
    + rewrite (ds_bit _ _ _ D 6); [vm_compute; reflexivity|unfold valid_nid; cbn; lia|reflexivity].
    + destruct (ds_entry _ _ _ D 500 V eq_refl) as (e & -> & _ & Hu & Hs). f_equal. rewrite Hs; [vm_compute; reflexivity|].
      rewrite Hu. vm_compute. reflexivity.
Defined.

(** A volume on which the id 7 was not reached. *)
Definition unreached_st : fsck_st := with_nat_area (tree_st (zero_disk 2560 1024)) (map_of (Z.to_nat 29120) [7]).
Lemma unreached_ok : exists ns, nat_view (fk_vol unreached_st) = Ok ns /\ nat_ok ns 1 /\ journal_count ns 0 /\ nm_max_nid (ns_nm ns) = 232960 /\ plain ns 7 = true.
Proof.
  eexists. split; [reflexivity|]. split_and!; [|split; [vm_compute; reflexivity|lia]|reflexivity|reflexivity].
  constructor; cbn [ns_log ns_sb ns_nm ns_disk ns_sum nm_max_nid nm_nat_blkaddr nm_nat_bitmap]; [reflexivity|reflexivity|lia|reflexivity|lia|cbn; lia| | |].
  - split; [apply bytes_forallb; vm_compute; reflexivity|vm_compute; discriminate].
  - intros a Ha. apply zero_disk_block. cbn in Ha. lia.
  - split; [vm_compute; reflexivity|apply bytes_forallb; vm_compute; reflexivity].
Qed.
Lemma fix_nat_entries_exact_witness : exists st' ns', fix_nat_entries unreached_st = Ok st' /\ nat_view (fk_vol st') = Ok ns' /\
  get_nat_entry ns' 7 = Ok (replicate 9 0).
Proof.
  destruct unreached_ok as (ns & V & Hok & Hc & Hm & Hp).
  destruct (fix_nat_entries_exact unreached_st ns 1 0 V Hok Hc) as (st' & ns' & E & V' & _ & _ & H).
  - apply bytes_forallb. vm_compute. reflexivity.
  - rewrite Hm. vm_compute. discriminate.
  - exists st', ns'. split; [exact E|]. split; [exact V'|]. apply H; [unfold valid_nid; rewrite Hm; lia|vm_compute; reflexivity|exact Hp].
Defined.
