(* ===== verification/FsckClean.v ===== *)
(** What the verdict of a checking run of fsck means: the composition of the maps built at
    the start ([fsck_init]), the walks and the comparisons of [fsck_verify] in the order of
    [do_fsck], for a run that does not repair. *)
From Stdlib Require Import ZArith Lia List Bool.
From stdpp Require Import base numbers list gmap.
From S2P Require Import Prelude Codec Bits Superblock Mkfs Checkpoint Segment Sit Fsck Curseg CkptWrite Quota QuotaMk FileData FileTree FileQuota FsckWalk FsckSound Nat FsckRun FsckNat.

(** * Runs that only add to the books *)

Record carries (r r' : run_st) : Prop := {
  ca_grown : grown false 0 0 0 (r_fsck r) (r_fsck r');
  ca_nat_cnt : r_nat_cnt r' = r_nat_cnt r;
  ca_sit_free : r_sit_free r' = r_sit_free r;
  ca_wp : r_wp_fixed r' = r_wp_fixed r;
}.
Lemma carries_refl r : fsck_wf (r_fsck r) -> carries r r.
Proof. intros W. constructor; try done. by apply grown_refl. Qed.
Lemma carries_trans r r1 r2 : carries r r1 -> carries r1 r2 -> carries r r2.
Proof. intros [G1 A1 B1 C1] [G2 A2 B2 C2]. constructor; [by eapply grown_trans|congruence..]. Qed.
Lemma carries_fsck r st : grown false 0 0 0 (r_fsck r) st -> carries r (with_fsck r st).
Proof. by constructor. Qed.
Lemma carries_quiet r st : fsck_wf (r_fsck r) -> quiet (r_fsck r) st -> carries r (with_fsck r st).
Proof. intros W Q. apply carries_fsck. eapply grown_quiet; [by apply grown_refl|done]. Qed.
Lemma carries_wf r r' : carries r r' -> fsck_wf (r_fsck r').
Proof. intros [G _ _ _]. apply G. Qed.

Section Check.
Context (c : fsck_conf) (Hfix : k_fix_on c = false) (Hpreen : k_preen_mode c = 0).

Lemma used_from_fueled n : forall l j, fueled (used_from n l j).
Proof. induction n; intros; cbn [used_from]; fueled. Qed.
Hint Resolve used_from_fueled : fueled.
Lemma curseg_offset_fueled s i : fueled (check_curseg_offset s i).
Proof. unfold check_curseg_offset. cbv zeta. fueled. Qed.
Hint Resolve curseg_offset_fueled : fueled.
Lemma offsets_loop_fueled n : forall s i, fueled (check_offsets_loop n s i).
Proof. induction n; intros; cbn [check_offsets_loop]; fueled. Qed.
Hint Resolve offsets_loop_fueled : fueled.
Lemma ckpt_flags_fueled cp f : fueled (is_set_ckpt_flags cp f).
Proof. unfold is_set_ckpt_flags. fueled. Qed.
Lemma sum_data_fueled b : fueled (IS_SUM_DATA_SEG b).
Proof. unfold IS_SUM_DATA_SEG. fueled. Qed.
Lemma sum_node_fueled b : fueled (IS_SUM_NODE_SEG b).
Proof. unfold IS_SUM_NODE_SEG. fueled. Qed.
Hint Resolve ckpt_flags_fueled sum_data_fueled sum_node_fueled : fueled.

Lemma check_offsets_spec st : post (check_curseg_offsets st) (fun r => r.2 = assert_msg st (negb (r.1 =? 0)) /\
  check_offsets_loop (Z.to_nat NO_CHECK_TYPE) (fk_seg st) 0 = Ok r.1).
Proof. unfold check_curseg_offsets. apply post_read; [fueled|]. intros r H. by split. Qed.

Lemma write_pointers_spec r : fsck_wf (r_fsck r) -> post (fsck_chk_and_fix_write_pointers c r) (carries r).
Proof.
  intros W. unfold fsck_chk_and_fix_write_pointers. destruct (g_zoned_hm _); [|by apply carries_refl]. cbn [negb].
  eapply post_bind; [apply check_offsets_spec|]. intros [ret st] [E _]. cbn [fst snd] in E. subst st. cbv zeta. rewrite Hfix, andb_false_r. apply carries_quiet; [done|apply quiet_assert].
Qed.

Lemma no_repairs : repairs c = false.
Proof. unfold repairs. by rewrite Hfix, Hpreen. Qed.
Lemma quiet_with_fseg st b : quiet st (assert_msg (with_fseg st (fk_seg st)) b).
Proof. eapply quiet_trans; [|apply quiet_assert]. by constructor. Qed.
Lemma chk_curseg_spec st i : post (chk_curseg c st i) (quiet st).
Proof.
  unfold chk_curseg. rewrite no_repairs. apply post_read; [fueled|]. intros curseg _. apply post_read; [fueled|]. intros se _.
  destruct (only_hot _ _); [apply quiet_refl|]. cbn [mbind res_bind].
  apply (post_bind _ _ (quiet st)); [destruct (negb _); [apply quiet_with_fseg|apply quiet_refl]|]. intros st1 Q.
  apply post_read; [fueled|]. intros data _. apply post_read; [fueled|]. intros node _. cbv zeta.
  destruct (if i <=? _ then _ else _); [done|]. eapply quiet_trans; [exact Q|apply quiet_with_fseg].
Qed.
Lemma chk_cursegs_spec n : forall st i, post (chk_cursegs c n st i) (quiet st).
Proof.
  induction n as [|n IH]; intros st i; cbn [chk_cursegs]; [apply quiet_refl|].
  eapply post_bind; [apply chk_curseg_spec|]. intros st1 Q. eapply post_weaken; [apply IH|]. intros st2. by apply quiet_trans.
Qed.

Lemma checkpoint_spec r : fsck_wf (r_fsck r) -> post (fsck_chk_checkpoint r) (carries r).
Proof.
  intros W. unfold fsck_chk_checkpoint. apply post_read; [fueled|]. intros large _. apply post_read; [fueled|]. intros off _.
  destruct (large && _); [|by apply carries_refl]. destruct (carries_quiet r _ W (quiet_assert (r_fsck r) true)). by constructor.
Qed.

Lemma tree_spec st nid ft : fsck_wf st -> post (check_tree c st nid ft) (fun x => grown false 0 0 0 st x.2).
Proof. intros W. unfold check_tree. apply walk_spec; [done|by apply walk_depth_enough]. Qed.

Lemma no_quick : quick c = false.
Proof. unfold quick. by rewrite Hpreen. Qed.
Lemma orphan_entries_spec n : forall st blk j kept, fsck_wf st -> post (orphan_entries c n st blk j kept) (fun x => grown false 0 0 0 st x.1.2 /\ x.1.1 = true).
Proof.
  induction n as [|n IH]; intros st blk j kept W; cbn [orphan_entries]; [by split; [apply grown_refl|]|].
  apply post_read; [fueled|]. intros _ _. apply post_read; [fueled|]. intros ino _. rewrite no_quick.
  eapply post_bind; [by apply tree_spec|]. intros [ret st1] G. cbn [snd] in G.
  destruct (ret =? 0); (eapply post_weaken; [apply IH|]).
  - apply G.
  - intros x [Gx Hx]. split; [by eapply grown_trans|done].
  - apply (grown_quiet _ _ st1 _ 0 0 0 G (quiet_assert _ _)).
  - intros x [Gx Hx]. split; [|done]. eapply grown_trans; [|exact Gx]. exact (grown_quiet _ _ st1 _ 0 0 0 G (quiet_assert _ _)).
Qed.
Lemma orphan_blocks_spec n : forall st a, fsck_wf st -> post (orphan_blocks_loop c n st a) (fun x => grown false 0 0 0 st x.2).
Proof.
  induction n as [|n IH]; intros st a W; cbn [orphan_blocks_loop]; [by apply grown_refl|].
  apply post_read; [fueled|]. intros blk _. apply post_read; [fueled|]. intros cnt _.
  eapply post_bind; [by apply orphan_entries_spec|]. intros [[go st1] kept] [G Hgo]. cbn [fst snd] in *. subst go. cbn [negb].
  rewrite Hfix, andb_false_r. cbn [andb mbind res_bind]. cbv zeta. cbn [mbind res_bind].
  eapply post_weaken; [apply IH, G|]. intros x Gx. by eapply grown_trans.
Qed.
Lemma orphan_spec r : fsck_wf (r_fsck r) -> post (fsck_chk_orphan_node c r) (fun x => carries r x.2).
Proof.
  intros W. unfold fsck_chk_orphan_node. cbv zeta. apply post_read; [fueled|]. intros present _.
  destruct present; cbn [negb]; [|by apply carries_refl]. apply post_read; [unfold __start_sum_addr; fueled|]. intros sum _.
  eapply post_bind; [by apply orphan_blocks_spec|]. intros [ret st] G. by apply carries_fsck.
Qed.
(** * Without quota files *)

Lemma quota_node_spec rc r : fsck_wf (r_fsck r) -> sb_qf_ino (g_super (sg (fk_seg (r_fsck r)))) = [0; 0; 0] ->
  post (fsck_chk_quota_node c rc r) (fun x => carries r x.2).
Proof.
  intros W Hq. unfold fsck_chk_quota_node. cbn [chk_quota_nodes]. rewrite Hq. cbn [rd mbind res_bind Z.ltb Z.compare lookup list_lookup Z.to_nat Z.add Pos.to_nat Pos.iter_op Init.Nat.add Z.eqb post snd].
  apply carries_quiet; [done|apply quiet_refl].
Qed.
Lemma run_quota_spec rc r : fsck_wf (r_fsck r) -> sb_qf_ino (g_super (sg (fk_seg (r_fsck r)))) = [0; 0; 0] ->
  post (run_quota_files c rc r) (carries r).
Proof.
  intros W Hq. unfold run_quota_files. cbv zeta. destruct (fk_qctx (r_fsck r)) as [q|]; [|by apply carries_refl].
  unfold fsck_chk_quota_files. rewrite skip_types.
  - cbn [mbind res_bind qc_vol qc_ctx qc_bug qc_fixed post]. set (st := assert_msg _ _).
    assert (quiet (r_fsck r) st) as Q by by constructor. destruct (carries_quiet r st W Q). by constructor.
  - intros j Hj. cbn [qc_vol]. change (v_seg (fk_vol (r_fsck r))) with (fk_seg (r_fsck r)). rewrite Hq. apply rd_Ok. split; [lia|].
    assert (j = 0 \/ j = 1 \/ j = 2) as [->|[->| ->]] by lia; reflexivity.
Qed.

Lemma full_walks_spec rc r : fsck_wf (r_fsck r) -> sb_qf_ino (g_super (sg (fk_seg (r_fsck r)))) = [0; 0; 0] -> post (full_walks c rc r) (carries r).
Proof.
  intros W Hq. unfold full_walks. eapply post_bind; [by apply checkpoint_spec|]. intros r1 C1.
  assert (forall r', carries r r' -> sb_qf_ino (g_super (sg (fk_seg (r_fsck r')))) = [0; 0; 0]) as Q by (intros r' C; by rewrite (gr_cfg _ _ _ _ _ _ (ca_grown _ _ C))).
  eapply post_bind; [apply quota_node_spec; [by apply (carries_wf r)|by apply Q]|]. intros [x r2] C2. cbn [snd] in C2. apply (carries_trans r) in C2; [|done].
  cbv zeta. match goal with |- context [fsck_chk_orphan_node c ?x] => set (r3 := x) end.
  assert (carries r r3) as C3.
  { subst r3. destruct (has_feature _ _); [|done]. eapply carries_trans; [exact C2|]. apply carries_quiet; [by apply (carries_wf r)|apply quiet_qctx]. }
  eapply post_bind; [apply orphan_spec; by apply (carries_wf r)|]. intros [y r4] C4. cbn [snd] in C4. apply (carries_trans r) in C4; [|done].
  eapply post_bind; [apply tree_spec; by apply (carries_wf r)|]. intros [z st] G. cbn [snd] in G.
  assert (carries r (with_fsck r4 st)) as C5 by (eapply carries_trans; [exact C4|]; by apply carries_fsck).
  eapply post_weaken; [apply run_quota_spec; [by apply (carries_wf r)|by apply Q]|]. intros r6 C6. by eapply carries_trans.
Qed.

(** * The verdict *)

(** Ids that are left. *)
Lemma count_unref_spec n : forall st i cnt, bytes (fk_nat_area st) -> 0 <= i -> 0 <= cnt -> cnt + Z.of_nat n < 2 ^ 32 ->
  post (count_unref n st i cnt) (fun u => cnt <= u /\ (u = cnt -> forall x, i <= x < i + Z.of_nat n -> bit_be (fk_nat_area st) x = false)).
Proof.
  induction n as [|n IH]; intros st i cnt Hb Hi H0 Hn; cbn [count_unref]; [split; lia|].
  apply post_read; [fueled|]. intros b Hbit. apply test_bit_Ok in Hbit as [_ Hbit]; [|done]. rewrite Hbit.
  destruct (bit_be (fk_nat_area st) i) eqn:E; cbn [negb].
  - apply post_read; [fueled|]. intros ni _. rewrite u32_id by (unfold is_u32; lia).
    eapply post_weaken; [apply IH; [done|lia..]|]. intros u [Hu _]. split; lia.
  - eapply post_weaken; [apply IH; [done|lia..]|]. intros u [Hu H]. split; [done|]. intros Hc x Hx.
    destruct (Z.eq_dec x i) as [->|]; [done|]. apply H; [done|lia].
Qed.

(** The next block of a current segment is free, and those after it if it is written in order. *)
Definition next_free (s : seg_state) (i : Z) : Prop :=
  only_hot (sg s) i = true \/
  exists cs se, rd (sg_cursegs s) i = Ok cs /\ get_seg_entry s (cs_segno cs) = Ok se /\
    f2fs_test_bit (cs_next_blkoff cs) (se_cur_map se) = Ok 0 /\
    (cs_alloc_type cs <> SSR -> forall j, cs_next_blkoff cs < j < blocks_per_seg (sg s) -> f2fs_test_bit j (se_cur_map se) = Ok 0).
Lemma used_from_false n : forall l j, used_from n l j = Ok false -> forall x, j <= x < j + Z.of_nat n -> f2fs_test_bit x l = Ok 0.
Proof.
  induction n as [|n IH]; intros l j H x Hx; [lia|]. cbn [used_from] in H. apply res_bind_Ok in H as (b & Hb & H).
  destruct (Z.eqb_spec b 0) as [->|]; [|by apply Ok_inj in H]. cbn [negb] in H. destruct (Z.eq_dec x j) as [->|]; [done|]. apply (IH l (j + 1)); [done|lia].
Qed.
Lemma offset_next_free s i : check_curseg_offset s i = Ok 0 -> next_free s i.
Proof.
  unfold check_curseg_offset, next_free. cbv zeta. intros (cs & Hcs & H)%res_bind_Ok. destruct (only_hot (sg s) i); [by left|]. right.
  destruct (_ <=? _); [by apply Ok_inj in H|]. apply res_bind_Ok in H as (se & Hse & H). apply res_bind_Ok in H as (b & Hb & H).
  destruct (Z.eqb_spec b 0) as [->|]; [|by apply Ok_inj in H]. cbn [negb] in H. exists cs, se. split_and!; try done. intros Hssr j Hj.
  apply Z.eqb_neq in Hssr. rewrite Hssr in H. apply res_bind_Ok in H as (u & Hu & H). destruct u; [by apply Ok_inj in H|].
  apply (used_from_false _ _ _ Hu). lia.
Qed.
Lemma offsets_next_free n : forall s i, check_offsets_loop n s i = Ok 0 -> forall x, i <= x < i + Z.of_nat n -> next_free s x.
Proof.
  induction n as [|n IH]; intros s i H x Hx; [lia|]. cbn [check_offsets_loop] in H. apply res_bind_Ok in H as (r & Hr & H).
  destruct (Z.eqb_spec r 0) as [->|]; [|by apply Ok_inj in H; subst]. cbn [negb] in H.
  destruct (Z.eq_dec x i) as [->|]; [by apply offset_next_free|]. apply (IH s (i + 1)); [done|lia].
Qed.

(** [check_sit_types] changes nothing but types. *)
Record types_only (s s' : seg_state) : Prop := {
  to_rest : with_sentries s' (sg_sentries s) = s;
  to_entries : forall i se, get_seg_entry s i = Ok se -> exists t, get_seg_entry s' i = Ok (set_se_type se t);
}.
Lemma types_only_refl s : types_only s s.
Proof. constructor; [by destruct s|]. intros i se H. exists (se_type se). rewrite H. by destruct se. Qed.
Lemma types_only_trans s s1 s2 : types_only s s1 -> types_only s1 s2 -> types_only s s2.
Proof.
  intros [A1 A2] [B1 B2]. constructor.
  - rewrite <- A1, <- B1. by destruct s, s1, s2.
  - intros i se H. destruct (A2 i se H) as [t Ht]. destruct (B2 i _ Ht) as [t' Ht']. exists t'. rewrite Ht'. by destruct se.
Qed.
Lemma set_type_only s i se t s' : get_seg_entry s i = Ok se -> set_seg_entry s i (set_se_type se t) = Ok s' -> types_only s s'.
Proof.
  intros Hse H. unfold set_seg_entry in H. apply res_bind_Ok in H as (ses & Hw & <-%Ok_inj). apply wr_Ok in Hw as [[H0 Hlt] ->]. constructor; [by destruct s|].
  intros j se' Hj. unfold get_seg_entry in *. cbn [sg_sentries with_sentries]. destruct (Z.eq_dec j i) as [->|Hne].
  - exists t. rewrite Hse in Hj. apply Ok_inj in Hj as <-. apply rd_Ok. split; [done|]. apply list_lookup_insert_eq. by apply rd_Ok in Hse as [_ ?%lookup_lt_Some].
  - exists (se_type se'). apply rd_Ok in Hj as [Hj0 Hj]. apply rd_Ok. split; [done|]. rewrite list_lookup_insert_ne by lia. rewrite Hj. by destruct se'.
Qed.
Lemma sit_types_spec n : forall s i err, post (check_sit_types_loop n s i err) (fun x => types_only s x.1).
Proof.
  induction n as [|n IH]; intros s i err; cbn [check_sit_types_loop]; [apply types_only_refl|]. apply post_read; [fueled|]. intros se Hse.
  destruct (negb _); [|apply IH]. destruct (_ && _); [|apply IH]. apply post_read; [unfold set_seg_entry; fueled|]. intros s1 H.
  eapply post_weaken; [apply IH|]. intros x. apply types_only_trans. by eapply set_type_only.
Qed.
Lemma types_only_next s s' i : types_only s s' -> next_free s i -> next_free s' i.
Proof.
  intros [A B] [H|(cs & se & Hcs & Hse & Hb & Hall)]; rewrite <- A in *; [by left|]. right.
  destruct (B _ _ Hse) as [t Ht]. exists cs, (set_se_type se t). done.
Qed.
(** What the comparisons establish. *)
Record passed (r : run_st) (nr : Z) : Prop := {
  pa_nids : forall x, 0 <= x < nr -> bit_be (fk_nat_area (r_fsck r)) x = false;
  pa_sit : sit_map (r_fsck r) = take (length (sit_map (r_fsck r))) (main_map (r_fsck r));
  pa_links : fk_links (r_fsck r) = [];
  pa_block : n_valid_block (fk_counts (r_fsck r)) = n_chk_blk (fk_counts (r_fsck r));
  pa_node : n_valid_node (fk_counts (r_fsck r)) = n_chk_node (fk_counts (r_fsck r));
  pa_nat : n_valid_node (fk_counts (r_fsck r)) = r_nat_cnt r;
  pa_inode : n_valid_inode (fk_counts (r_fsck r)) = n_chk_inode (fk_counts (r_fsck r));
  pa_free : get_le32 (g_ckpt (sg (fk_seg (r_fsck r)))) ofs_free_segment_count = Ok (r_sit_free r);
  pa_next : forall i, 0 <= i < 6 -> next_free (fk_seg (r_fsck r)) i;
}.

Lemma quiet_types st s : types_only (fk_seg st) s -> quiet st (with_fseg st s).
Proof. intros [A _]. unfold fk_seg in A. constructor; unfold main_map, sit_map, nid_map, fk_counts, fk_seg; cbn; try done; by rewrite <- A. Qed.

Lemma verify_checks_spec rc r nr : fsck_wf (r_fsck r) -> has_feature (fk_feature (r_fsck r)) F2FS_FEATURE_LOST_FOUND = false ->
  (forall ns, nat_view (fk_vol (r_fsck r)) = Ok ns -> nr_nat_entries ns = nr) -> 0 <= nr < 2 ^ 32 ->
  post (verify_checks c rc r) (fun x => carries r x.2 /\ (fk_bug (r_fsck x.2) = false -> passed x.2 nr)).
Proof.
  intros W Hlf Hns Hnr. unfold verify_checks. apply post_read; [fueled|]. intros ns Hview. rewrite (Hns ns Hview). cbv zeta.
  unfold reconnect_lost. cbv zeta. rewrite Hlf, res_bind_ret.
  eapply post_bind; [apply count_unref_spec; [apply W|lia..]|]. intros unref [_ Hun].
  apply post_read; [unfold verified; cbv zeta; fueled|]. intros ok Hok.
  set (st1 := assert_msg (r_fsck r) _).
  eapply post_bind; [apply check_offsets_spec|]. intros [off st2] [E2 Hoff]. cbn [fst snd] in E2, Hoff. subst st2.
  eapply post_bind; [apply sit_types_spec|]. intros [s wrong] Ht. cbn [fst] in Ht.
  apply post_read; [fueled|]. intros _ _. cbn [post fst snd].
  set (failed := negb ok || negb (off =? 0)).
  assert (quiet (r_fsck r) (assert_msg (with_fseg (assert_msg st1 (negb (off =? 0))) s) failed)) as Q.
  { eapply quiet_trans; [apply quiet_assert|]. eapply quiet_trans; [apply quiet_assert|]. eapply quiet_trans; [by apply quiet_types|apply quiet_assert]. }
  split; [by apply carries_quiet|]. cbn [r_fsck with_fsck]. intros Hbug.
  apply orb_false_elim in Hbug as [Hfailed _]. subst failed. apply orb_false_elim in Hfailed as [->%negb_false_iff Hz%negb_false_iff%Z.eqb_eq]. subst off.
  unfold verified in Hok. cbv zeta in Hok. apply res_bind_Ok in Hok as (free & Hfree & Hok%Ok_inj).
  rewrite !andb_true_iff, !Z.eqb_eq, !bool_decide_eq_true in Hok. destruct Hok as [[[[[[[H1 H2] H3] H4] H5] H6] H7] H8].
  destruct Q as [Qc Qm Qs Qn Qa Qk Qb]. constructor; cbn [r_fsck with_fsck r_nat_cnt r_sit_free]; rewrite ?Qm, ?Qs, ?Qa, ?Qk, ?Qc; try done.
  - intros x Hx. apply Hun; [done|lia].
  - by rewrite Hfree, H8.
  - intros i Hi. apply (types_only_next (fk_seg st1)); [done|]. apply (offsets_next_free _ _ _ Hoff). change (Z.of_nat (Z.to_nat NO_CHECK_TYPE)) with 6. lia.
Qed.
End Check.

(** * The map of the segment information table *)

Lemma bit_be_lookup l i : 0 <= i -> bit_be l i = match l !! Z.to_nat (i / 8) with Some b => Z.testbit b (7 - i mod 8) | None => false end.
Proof. intros Hi. unfold bit_be, bit_at, pos_be. change 7 with (Z.ones 3) at 2. by rewrite Z.shiftr_div_pow2, Z.land_ones by lia. Qed.

(** The segments below [segno] are in the map. *)
Definition sit_upto (s : seg_state) (segno : Z) (area : list Z) : Prop :=
  bytes area /\ forall x se off, 0 <= x < segno -> get_seg_entry s x = Ok se -> 0 <= off < 512 -> bit_be area (512 * x + off) = bit_be (se_cur_map se) off.
Definition maps_ok (s : seg_state) : Prop := Forall (fun se => bytes (se_cur_map se) /\ length (se_cur_map se) = 64%nat) (sg_sentries s).

Lemma wr_list_bytes (xs : list Z) : forall l i l', wr_list l i xs = Ok l' -> bytes l -> bytes xs -> bytes l'.
Proof.
  induction xs as [|x xs IH]; intros l i l' H Hl Hx; cbn [wr_list] in H; [by apply Ok_inj in H as <-|].
  apply res_bind_Ok in H as (l1 & Hw & H). apply Forall_cons in Hx as [Hx Hxs]. apply (IH _ _ _ H); [|done].
  apply wr_Ok in Hw as [_ ->]. by apply Forall_insert.
Qed.
Lemma wr_list_lookup (xs : list Z) : forall l i l', wr_list l i xs = Ok l' -> 0 <= i -> forall j,
  l' !! j = if decide (Z.to_nat i <= j < Z.to_nat i + length xs)%nat then xs !! (j - Z.to_nat i)%nat else l !! j.
Proof.
  induction xs as [|x xs IH]; intros l i l' H Hi j; cbn [wr_list] in H.
  - apply Ok_inj in H as <-. case_decide; [cbn in *; lia|done].
  - apply res_bind_Ok in H as (l1 & Hw & H). rewrite (IH _ _ _ H) by lia. apply wr_Ok in Hw as [Hi2 ->]. cbn [length].
    case_decide as D1; case_decide as D2; try lia.
    + replace (j - Z.to_nat i)%nat with (S (j - Z.to_nat (i + 1))) by lia. done.
    + replace j with (Z.to_nat i) by lia. rewrite list_lookup_insert_eq by lia. by rewrite Nat.sub_diag.
    + by rewrite list_lookup_insert_ne by lia.
Qed.

Lemma sit_upto_next s segno area area' se : maps_ok s -> sit_upto s segno area -> 0 <= segno -> get_seg_entry s segno = Ok se ->
  wr_list area (SIT_VBLOCK_MAP_SIZE * segno) (se_cur_map se) = Ok area' -> sit_upto s (segno + 1) area'.
Proof.
  intros Hm [Hb Hup] H0 Hse Hw. change SIT_VBLOCK_MAP_SIZE with 64 in Hw.
  assert (bytes (se_cur_map se) /\ length (se_cur_map se) = 64%nat) as [Hsb Hsl].
  { apply rd_Ok in Hse as [_ Hse]. by apply (Forall_lookup_1 _ _ _ _ Hm Hse). }
  split; [by apply (wr_list_bytes _ _ _ _ Hw)|]. intros x se' off Hx Hse' Hoff. rewrite !bit_be_lookup by lia.
  rewrite (wr_list_lookup _ _ _ _ Hw) by lia.
  replace ((512 * x + off) mod 8) with (off mod 8) by (Z.to_euclidean_division_equations; lia).
  replace ((512 * x + off) / 8) with (64 * x + off / 8) by (Z.to_euclidean_division_equations; lia).
  assert (0 <= off / 8 < 64) by (Z.to_euclidean_division_equations; lia). rewrite Hsl.
  destruct (Z.eq_dec x segno) as [->|Hne].
  - rewrite Hse in Hse'. apply Ok_inj in Hse' as <-. case_decide; [|lia]. by replace (Z.to_nat (64 * segno + off / 8) - Z.to_nat (64 * segno))%nat with (Z.to_nat (off / 8)) by lia.
  - case_decide; [lia|]. specialize (Hup x se' off ltac:(lia) Hse' Hoff). rewrite !bit_be_lookup in Hup by lia.
    replace ((512 * x + off) mod 8) with (off mod 8) in Hup by (Z.to_euclidean_division_equations; lia).
    by replace ((512 * x + off) / 8) with (64 * x + off / 8) in Hup by (Z.to_euclidean_division_equations; lia).
Qed.

Lemma cp_names_fueled cp segno : fueled (cp_names_segno cp segno).
Proof. unfold cp_names_segno. fueled. Qed.
#[local] Hint Resolve cp_names_fueled : fueled.
Lemma sit_area_spec n : forall s segno area v f, maps_ok s -> sit_upto s segno area -> 0 <= segno ->
  post (sit_area_loop n s segno area v f) (fun x => sit_upto s (segno + Z.of_nat n) x.1.1).
Proof.
  induction n as [|n IH]; intros s segno area v f Hm Hu H0; cbn [sit_area_loop].
  { cbn [post fst]. by replace (segno + Z.of_nat 0) with segno by lia. }
  apply post_read; [fueled|]. intros se Hse. apply post_read; [fueled|]. intros area' Hw.
  pose proof (sit_upto_next _ _ _ _ _ Hm Hu H0 Hse Hw) as Hu'. replace (segno + Z.of_nat (S n)) with (segno + 1 + Z.of_nat n) by lia.
  destruct (_ && _); [apply post_read; [fueled|]; intros cur _|]; apply IH; (done || lia).
Qed.

(** * The start *)

Section Start.
Context (v : vol) (ns : nat_state) (k n : Z) (Hview : nat_view v = Ok ns) (Hok : nat_ok ns k) (Hcount : journal_count ns n)
  (Hnids : journal_nids_ok ns n) (Hplain : forall j nid, 0 <= j < n -> nid_in_journal (ns_sum ns) j = Ok nid -> plain ns nid = true)
  (Hbm : bytes (nm_nid_bitmap (ns_nm ns))) (Hmaps : maps_ok (v_seg v)).

(** The books at the start. *)
Record started (r : run_st) : Prop := {
  sr_wf : fsck_wf (r_fsck r);
  sr_cfg : sg (fk_seg (r_fsck r)) = sg (v_seg v);
  sr_sit : sit_upto (v_seg v) (TOTAL_SEGS (sg (v_seg v))) (sit_map (r_fsck r));
  sr_used : forall nid, valid_nid ns nid -> plain ns nid = true -> bit_be (fk_nat_area (r_fsck r)) nid = used_raw (entry_in_force ns nid);
  sr_nat : fk_bug (r_fsck r) = false -> r_nat_cnt r = u32 (count_ids (is_used ns) (entry_in_force ns) (ids ns));
  sr_marks : forall i, bit_be (main_map (r_fsck r)) i = false;
}.
Lemma build_sit_area_spec s sz : maps_ok s ->
  post (build_sit_area_bitmap s sz) (fun x => exists area, x.1.1 = with_area_maps s (sg_main_bitmap s) area /\ sit_upto s (TOTAL_SEGS (sg s)) area).
Proof.
  intros Hm. unfold build_sit_area_bitmap. cbv zeta. apply post_read; [fueled|]. intros _ _.
  eapply post_bind; [apply sit_area_spec; [done| |done]|].
  - split; [by apply Forall_replicate|lia].
  - intros [[area sum] free] Hu. cbn [fst] in Hu. exists area. split; [done|]. destruct Hu as [Hb Hu]. split; [done|].
    intros x se off Hx. apply Hu. lia.
Qed.
Lemma fsck_init_spec cur_cp backuped bug qf : post (fsck_init v cur_cp backuped bug qf) started.
Proof.
  unfold fsck_init. cbv zeta. rewrite Hview, res_bind_ret. destruct (build_nat_area_spec ns k n Hok Hcount Hnids Hplain) as (a & -> & D). rewrite res_bind_ret.
  set (zeros := replicate _ 0). set (s0 := with_area_maps _ _ _).
  eapply post_bind; [by apply (build_sit_area_spec s0)|]. intros [[s sum] free] (area & Es & Hup). cbn [fst] in Es. subst s. destruct Hup as [Hab Hup].
  cbn [post]. constructor; cbn [r_fsck r_nat_cnt].
  - constructor; unfold main_map, nid_map, sit_map, fk_seg; cbn [fk_vol fk_nat_area put_nat v_seg v_nm with_seg with_seg_disk sg_main_bitmap sg_sit_area with_area_maps with_entries ns_nm];
      [by apply Forall_replicate|apply D|done|done].
  - done.
  - split; [done|]. exact Hup.
  - intros nid Hv Hp. cbn [fk_nat_area]. by apply (ds_bit ns a).
  - cbn [fk_bug]. intros [_ Hb]%orb_false_elim. by apply (ds_valid ns a).
  - intros i. unfold main_map, fk_seg. cbn [fk_vol put_nat v_seg with_seg with_seg_disk sg_main_bitmap with_area_maps]. apply bit_be_zeros.
Qed.
End Start.

(** * Repairs do not hide errors *)

Definition bug_stays (st st' : fsck_st) : Prop := fk_bug st = true -> fk_bug st' = true.
Ltac inv_binds H :=
  repeat match type of H with
  | (_ ≫= _) = Ok _ => let x := fresh "x" in let E := fresh "E" in apply res_bind_Ok in H as (x & E & H)
  | (if ?b then _ else _) = Ok _ => destruct b
  | (match ?b with _ => _ end) = Ok _ => destruct b
  | Ok _ = Ok _ => apply Ok_inj in H; try subst
  | (_, _) = (_, _) => injection H as; subst
  | Oob = Ok _ => discriminate H
  | Die = Ok _ => discriminate H
  end.
Lemma on_nat_bug {A} st (f : nat_state -> res (A * nat_state)) x st' : on_nat st f = Ok (x, st') -> fk_bug st' = fk_bug st.
Proof. unfold on_nat. intros H. cbv zeta in H. by inv_binds H. Qed.
Lemma st_write_bug st a b st' : st_write st a b = Ok st' -> fk_bug st' = fk_bug st.
Proof. unfold st_write. intros H. by inv_binds H. Qed.
Lemma sanity_bug c st nid t st' o : sanity_check_nid c st nid F2FS_FT_MAX t = Ok (st', o) -> bug_stays st st'.
Proof.
  unfold sanity_check_nid, bug_stays. rewrite Z.eqb_refl. intros H B. inv_binds H; cbn; by rewrite ?B.
Qed.
Lemma fix_links_bug c l : forall st b ni st', fix_links_loop c l st b ni = Ok st' -> bug_stays st st'.
Proof.
  induction l as [|h l IH]; intros st b ni st' H B; cbn [fix_links_loop] in H; [by apply Ok_inj in H as <-|].
  apply res_bind_Ok in H as ([b1 ni1] & _ & H). apply res_bind_Ok in H as ([st1 o] & Hs & H). apply res_bind_Ok in H as (b2 & _ & H).
  destruct ni1 as [i|]; [|discriminate H]. apply res_bind_Ok in H as (st2 & Hw & H). apply (IH _ _ _ _ H).
  rewrite (st_write_bug _ _ _ _ Hw). by apply (sanity_bug _ _ _ _ _ _ Hs).
Qed.
Lemma write_checkpoints_bug r r' : run_write_checkpoints r = Ok r' -> bug_stays (r_fsck r) (r_fsck r').
Proof. unfold run_write_checkpoints. intros H B. cbv zeta in H. inv_binds H. cbn. rewrite B. apply orb_true_r. Qed.
Lemma flush_journals_bug r r' : flush_journal_entries r = Ok r' -> bug_stays (r_fsck r) (r_fsck r').
Proof.
  unfold flush_journal_entries. intros H B. apply res_bind_Ok in H as ([n st] & Hn & H). apply on_nat_bug in Hn. cbv beta iota in H.
  apply res_bind_Ok in H as ([m s] & _ & H). cbv beta iota zeta in H. destruct (negb _ || negb _); [|apply Ok_inj in H as <-; cbn; congruence].
  apply (write_checkpoints_bug _ _ H). cbn. congruence.
Qed.
Lemma fix_metadata_bug c r r' : fix_metadata c r = Ok r' -> bug_stays (r_fsck r) (r_fsck r').
Proof.
  unfold fix_metadata. intros H B. apply res_bind_Ok in H as (r1 & H1 & H). apply flush_journals_bug in H1.
  apply res_bind_Ok in H as (st2 & H2 & H). unfold fix_hard_links in H2. apply fix_links_bug in H2. apply res_bind_Ok in H as (st3 & H3 & H).
  unfold fix_nat_entries in H3. apply res_bind_Ok in H3 as ([u st3'] & H3 & <-%Ok_inj). apply on_nat_bug in H3.
  apply res_bind_Ok in H as ([s bug] & _ & H). cbv beta iota in H. apply res_bind_Ok in H as (st4 & H4 & H). apply res_bind_Ok in H as (r5 & H5 & H).
  assert (fk_bug st4 = true) as B4.
  { unfold fix_curseg_info in H4. apply res_bind_Ok in H4 as ([s1 bad] & _ & H4). cbv beta iota in H4. apply res_bind_Ok in H4 as (s2 & _ & <-%Ok_inj).
    cbn. rewrite H3, (H2 (H1 B)). by rewrite !orb_true_r. }
  assert (fk_bug (r_fsck r5) = true) as B5.
  { unfold fix_checksum in H5. cbv zeta in H5. destruct (negb _); [by apply Ok_inj in H5 as <-|]. by inv_binds H5. }
  unfold fix_checkpoints in H. cbv zeta in H. inv_binds H. cbn. rewrite B5. apply orb_true_r.
Qed.

(** * The run *)

(** [do_fsck] without repairs up to the verdict. *)
Definition verdict (c : fsck_conf) (rc : run_conf) (v : vol) (cur_cp : Z) (backuped bug : bool) (qf : list qf_check) : res (Z * bool * run_st) :=
  r ← fsck_init v cur_cp backuped bug qf;
  r ← fsck_chk_and_fix_write_pointers c r;
  st ← fsck_chk_curseg_info c (r_fsck r);
  r ← full_walks c rc (with_fsck r st);
  verify_checks c rc r.

(** A clean volume, by the books at the verdict: every node id with a block was reached; the
    blocks marked are those the segment information of [v] says are in use; the counts agree
    with the mounted checkpoint's and the number of nodes with the node address table; every
    hard link was found; new blocks go to free places. *)
Record clean (v : vol) (ns : nat_state) (r : run_st) : Prop := {
  cl_nids : forall nid, valid_nid ns nid -> bit_be (fk_nat_area (r_fsck r)) nid = false;
  cl_reached : forall nid, valid_nid ns nid -> plain ns nid = true -> used_raw (entry_in_force ns nid) = true -> bit_be (nid_map (r_fsck r)) nid = true;
  cl_sit : forall segno se off, 0 <= segno < TOTAL_SEGS (sg (v_seg v)) -> get_seg_entry (v_seg v) segno = Ok se -> 0 <= off < 512 ->
    bit_be (se_cur_map se) off = true -> bit_be (main_map (r_fsck r)) (512 * segno + off) = true;
  cl_marked : forall i, 0 <= i < nbits (sit_map (r_fsck r)) -> bit_be (main_map (r_fsck r)) i = bit_be (sit_map (r_fsck r)) i;
  cl_blocks : n_valid_block (fk_counts (r_fsck r)) = n_chk_blk (fk_counts (r_fsck r));
  cl_nodes : n_valid_node (fk_counts (r_fsck r)) = n_chk_node (fk_counts (r_fsck r)) /\
    n_chk_node (fk_counts (r_fsck r)) = u32 (count_ids (is_used ns) (entry_in_force ns) (ids ns));
  cl_inodes : n_valid_inode (fk_counts (r_fsck r)) = n_chk_inode (fk_counts (r_fsck r));
  cl_free : get_le32 (g_ckpt (sg (v_seg v))) ofs_free_segment_count = Ok (r_sit_free r);
  cl_links : fk_links (r_fsck r) = [];
  cl_next : forall i, 0 <= i < 6 -> next_free (fk_seg (r_fsck r)) i;
}.

Section Sound.
Context (c : fsck_conf) (rc : run_conf) (v : vol) (ns : nat_state) (k n : Z).
Context (Hfix : k_fix_on c = false) (Hpreen : k_preen_mode c = 0) (Hmap : rc_show_file_map rc = false).
Context (Hlost : has_feature (v_feature v) F2FS_FEATURE_LOST_FOUND = false) (Hquota : sb_qf_ino (g_super (sg (v_seg v))) = [0; 0; 0]).
Context (Hview : nat_view v = Ok ns) (Hok : nat_ok ns k) (Hcount : journal_count ns n) (Hnids : journal_nids_ok ns n).
Context (Hplain : forall j nid, 0 <= j < n -> nid_in_journal (ns_sum ns) j = Ok nid -> plain ns nid = true).
Context (Hbm : bytes (nm_nid_bitmap (ns_nm ns))) (Hmaps : maps_ok (v_seg v)).

Lemma nr_of_cfg v' ns' : nat_view v' = Ok ns' -> sg (v_seg v') = sg (v_seg v) -> nr_nat_entries ns' = nr_nat_entries ns.
Proof.
  unfold nat_view. intros (h' & _ & <-%Ok_inj)%res_bind_Ok Hc. unfold nat_view in Hview. apply res_bind_Ok in Hview as (h & _ & <-%Ok_inj).
  unfold nr_nat_entries, nr_nat_blks. cbn [ns_sb ns_log]. by rewrite Hc.
Qed.

Lemma clean_of_passed r0 r1 : started v ns r0 -> carries r0 r1 -> fk_bug (r_fsck r1) = false -> passed r1 (nr_nat_entries ns) -> clean v ns r1.
Proof.
  intros [S1 S2 S3 S4 S5 S6] [G C1 C2 C3] Hb [P1 P2 P3 P4 P5 P6 P7 P8 P9]. destruct (nr_nat_eq ns k Hok) as [_ Hnr].
  assert (forall i, 0 <= i < nbits (sit_map (r_fsck r1)) -> bit_be (main_map (r_fsck r1)) i = bit_be (sit_map (r_fsck r1)) i) as Hm.
  { intros i Hi. rewrite !bit_be_lookup by lia. rewrite P2. rewrite lookup_take_lt; [done|]. unfold nbits in Hi. Z.to_euclidean_division_equations; lia. }
  assert (forall nid, valid_nid ns nid -> bit_be (fk_nat_area (r_fsck r1)) nid = false) as Hn by (intros nid Hv; apply P1; rewrite Hnr; exact Hv).
  constructor; try done.
  - intros nid Hv Hp Hu. apply (gr_reached _ _ _ _ _ _ G); [apply Hv| |by apply Hn]. by rewrite S4.
  - intros segno se off Hs Hse Hoff Hbit. rewrite <- (proj2 S3 segno se off Hs Hse Hoff), <- (gr_sit _ _ _ _ _ _ G) in Hbit. rewrite Hm; [done|].
    split; [lia|]. destruct (Z.lt_ge_cases (512 * segno + off) (nbits (sit_map (r_fsck r1)))) as [|Hge]; [done|].
    rewrite (bm_bit_outside (ops := be_bitmap)) in Hbit; [discriminate|done].
  - split; [done|]. rewrite <- P5, P6, C1. apply S5. destruct (fk_bug (r_fsck r0)) eqn:E; [|done]. by rewrite (gr_bug _ _ _ _ _ _ G) in Hb.
  - rewrite <- P8. by rewrite (gr_cfg _ _ _ _ _ _ G), S2.
Qed.

Lemma verdict_spec cur_cp backuped bug qf : post (verdict c rc v cur_cp backuped bug qf) (fun x => fk_bug (r_fsck x.2) = false -> clean v ns x.2).
Proof.
  unfold verdict. eapply post_bind; [by eapply (fsck_init_spec v ns k n)|]. intros r0 S0. pose proof (sr_wf _ _ _ S0) as W.
  eapply post_bind; [by apply write_pointers_spec|]. intros r1 C1.
  unfold fsck_chk_curseg_info. eapply post_bind; [by apply chk_cursegs_spec|]. intros st2 Q2.
  assert (carries r0 (with_fsck r1 st2)) as C2 by (eapply carries_trans; [exact C1|]; by apply carries_quiet; [apply (carries_wf r0)|]).
  assert (forall r, carries r0 r -> sg (fk_seg (r_fsck r)) = sg (v_seg v)) as Hcfg
    by (intros r C; by rewrite (gr_cfg _ _ _ _ _ _ (ca_grown _ _ C)), (sr_cfg _ _ _ S0)).
  eapply post_bind; [apply full_walks_spec; [done|done|by apply (carries_wf r0)|by rewrite Hcfg]|]. intros r3 C3. apply (carries_trans r0) in C3; [|done].
  destruct (nr_nat_eq ns k Hok) as [_ Hnr]. pose proof (no_max _ _ Hok). pose proof (no_max32 _ _ Hok). pose proof (no_pos _ _ Hok).
  eapply post_weaken; [apply (verify_checks_spec c rc r3 (nr_nat_entries ns))|].
  - by apply (carries_wf r0).
  - unfold fk_feature, v_feature. change (v_seg (fk_vol (r_fsck r3))) with (fk_seg (r_fsck r3)). by rewrite Hcfg.
  - intros ns' Hv'. apply (nr_of_cfg _ _ Hv'). by apply Hcfg.
  - lia.
  - intros x [C4 Hp] Hb. apply (clean_of_passed r0); [done|by eapply carries_trans|done|by apply Hp].
Qed.

Lemma verify_runs r ret r' : fsck_verify c rc r = Ok (ret, r') ->
  exists ret1 force r1, verify_checks c rc r = Ok (ret1, force, r1) /\ (force = false -> r' = r1) /\ bug_stays (r_fsck r1) (r_fsck r').
Proof.
  unfold fsck_verify. rewrite Hmap, Hfix. intros H. apply res_bind_Ok in H as ([[ret1 force] r1] & H1 & H). cbv beta iota in H.
  exists ret1, force, r1. split; [done|]. destruct force; cbn [andb orb] in H; [|apply Ok_inj in H as [= <- <-]; split; [done|by intros B]].
  split; [done|]. apply res_bind_Ok in H as (r2 & H2 & [= <- <-]%Ok_inj). by apply fix_metadata_bug in H2.
Qed.
Lemma do_fsck_verdict cur_cp backuped bug qf code r' : do_fsck c rc v cur_cp backuped bug qf = Ok (code, r') ->
  exists ret force r, verdict c rc v cur_cp backuped bug qf = Ok (ret, force, r) /\ (force = false -> r' = r) /\ bug_stays (r_fsck r) (r_fsck r') /\
    (code = FSCK_SUCCESS -> fk_bug (r_fsck r') = false).
Proof.
  unfold do_fsck, verdict. rewrite Hfix, Hpreen. intros H. apply res_bind_Ok in H as (r0 & -> & H). apply res_bind_Ok in H as (r1 & H1 & H).
  apply res_bind_Ok in H as (st2 & H2 & H). rewrite res_bind_ret, H1, res_bind_ret, H2, res_bind_ret. cbv zeta in H.
  assert (full_check c rc (with_fsck r1 st2) = Ok (code, r')) as Hfull by (by destruct (negb false && negb (fk_bug st2))).
  clear H. unfold full_check in Hfull. apply res_bind_Ok in Hfull as (r3 & -> & H). rewrite res_bind_ret.
  apply res_bind_Ok in H as ([ret r4] & H4 & [= <- <-]%Ok_inj). destruct (verify_runs _ _ _ H4) as (ret1 & force & r5 & H5 & Hf & Hb).
  exists ret1, force, r5. split; [done|]. split; [done|]. split; [done|]. destruct (fk_bug (r_fsck r4)); [|done]. cbn [negb]. by destruct (ret =? 0).
Qed.
End Sound.

(** * Properties *)


(** The volume of FsckSound with a complete node address table, its segment information, a
    checkpoint and current segments 10 to 15. *)
Definition clean_type (i : nat) : Z := if decide (i = 1%nat) then 3 else if decide (10 <= i < 16)%nat then Z.of_nat i - 10 else 0.
Definition clean_map (i : nat) : list Z :=
  if decide (i = 1)%nat then map_of 64 [392; 393; 394] else if decide (i = 3)%nat then map_of 64 [368; 369; 370] else replicate 64 0.
Definition clean_entry (i : nat) : seg_entry := {|
  se_valid_blocks := popcount (clean_map i); se_ckpt_valid_blocks := 0; se_cur_map := clean_map i; se_ckpt_map := [];
  se_type := clean_type i; se_orig_type := clean_type i; se_ckpt_type := 0; se_mtime := 0; se_dirty := false |}.
Definition clean_curseg (i : nat) : curseg_info := {|
  cs_sum_blk := if (3 <=? i)%nat then filled [(ofs_sum_footer, [SUM_TYPE_NODE])] else zero_block; cs_alloc_type := 0; cs_segno := Z.of_nat i + 10;
  cs_next_blkoff := 0 |}.
Definition clean_cp : list Z :=
  filled [(ofs_free_segment_count, le_bytes 4 16); (ofs_cur_node_segno 0, mjoin (le_bytes 4 <$> [13; 14; 15]));
          (ofs_cur_data_segno 0, mjoin (le_bytes 4 <$> [10; 11; 12]))].
Definition clean_nat_block : list Z := nat_block_of [(1, 1, 1); (2, 2, 1); (3, 3, 5000); (4, 4, 5001); (5, 4, 5002)].
Definition clean_vol : vol :=
  let v := tree_vol (<[2560 := clean_nat_block]> (tree_disk 1) ∪ zero_disk 2560 1024) in
  with_seg v {| sg := sg (with_ckpt sample_seg_state clean_cp); sg_sentries := clean_entry <$> seq 0 24; sg_cursegs := clean_curseg <$> seq 0 6;
                sg_counts := sg_counts (v_seg v); sg_main_bitmap := []; sg_sit_area := []; sg_disk := sg_disk (v_seg v) |}.
Definition quiet_run : run_conf := {|
  rc_ro := true; rc_show_file_map := false; rc_now := 0; rc_root_uid := 0; rc_root_gid := 0; rc_uid := 0; rc_gid := 0; rc_preserve_limits := false;
  rc_bug_nat_bits := false; rc_scanf := 0; rc_sizes := [0; 0; 0] |}.

Lemma clean_vol_ok : exists ns, nat_view clean_vol = Ok ns /\ nat_ok ns 1 /\ journal_count ns 0 /\ journal_nids_ok ns 0 /\ bytes (nm_nid_bitmap (ns_nm ns)).
Proof.
  eexists. split; [reflexivity|]. split_and!; [|split; [vm_compute; reflexivity|lia]|split; lia|apply bytes_forallb; vm_compute; reflexivity].
  constructor; cbn [ns_log ns_sb ns_nm ns_disk ns_sum nm_max_nid nm_nat_blkaddr nm_nat_bitmap]; [reflexivity|reflexivity|lia|reflexivity|lia|cbn; lia| | |].
  - split; [apply bytes_forallb; vm_compute; reflexivity|vm_compute; discriminate].
  - intros a Ha. cbn in Ha. unfold has_block. cbn [v_disk clean_vol with_seg v_seg sg_disk tree_vol].
    destruct (decide (a = 2560)) as [->|Hne].
    + exists clean_nat_block. split; [apply lookup_union_Some_l, lookup_insert_eq|].
      split; [vm_compute; reflexivity|apply bytes_forallb; vm_compute; reflexivity].
    + exists zero_block. split; [|split; [reflexivity|apply bytes_zero_block]]. rewrite lookup_union_r; [apply zero_disk_lookup; lia|].
      rewrite lookup_insert_ne by lia. apply not_elem_of_list_to_map_1. cbn. rewrite !elem_of_cons, elem_of_nil. lia.
  - split; [vm_compute; reflexivity|apply bytes_forallb; vm_compute; reflexivity].
Qed.
Lemma clean_maps_ok : maps_ok (v_seg clean_vol).
Proof.
  apply Forall_fmap, Forall_forall. intros i _. cbn [compose clean_entry se_cur_map]. unfold clean_map.
  repeat case_decide; (split; [apply bytes_forallb; vm_compute; reflexivity|reflexivity]).
Qed.

