(* ===== verification/FileMove.v ===== *)
(** Moving a data block of a file: what changes of the map of the file when one address in
    one of its nodes does (used for fsck/defrag.c). *)
From Stdlib Require Import ZArith Lia List Bool.
From stdpp Require Import base numbers list gmap.
From S2P Require Import Prelude Codec Bits Crc Node Superblock Mkfs Checkpoint Nat Segment Fsck FileData FileTree.

(** * Writing an inode *)

Lemma vol_write_inode_spec v i1 a : is_Some (v_disk v !! a) -> length i1 = 4096%nat -> bytes i1 ->
  exists inode', vol_write_inode v i1 a = Ok (with_vdisk v (<[a := inode']> (v_disk v)), inode') /\ length inode' = 4096%nat /\ bytes inode' /\
    forall i, (has_feature (v_feature v) F2FS_FEATURE_INODE_CHKSUM = true -> ~ (368 <= i < 372)) -> rd inode' i = rd i1 i.
Proof.
  intros [old Ho] Hl Hb. unfold vol_write_inode, write_inode. set (ck := has_feature _ _).
  assert (exists inode', (if ck then c ← f2fs_inode_chksum (v_seed v) i1; set_le32 i1 ofs_i_inode_checksum c else Ok i1) = Ok inode' /\
    length inode' = 4096%nat /\ bytes inode' /\ forall i, (ck = true -> ~ (368 <= i < 372)) -> rd inode' i = rd i1 i) as (inode' & -> & Hl' & Hb' & Hs).
  { destruct ck; [|by exists i1]. rewrite inode_chksum_eq, res_bind_ret, set_le_Ok by (done || unfold ofs_i_inode_checksum; lia).
    eexists. split; [reflexivity|]. unfold ofs_i_inode_checksum. rewrite length_splice by (rewrite ?length_le_bytes; lia).
    split; [done|]. split; [auto with f2fs|]. intros i Hi. specialize (Hi eq_refl). apply rd_splice_ne; rewrite ?length_le_bytes; lia. }
  exists inode'. rewrite res_bind_ret. unfold disk_write_or_die, disk_write. by rewrite Ho, !res_bind_ret.
Qed.

(** * The members of an inode that paths depend on *)

(** The addresses of the inode do not lie over a member that is in use: the extra attributes
    come before them, or there are none and no feature puts a member there. *)
Definition addrs_apart (feature : Z) (inode : list Z) : Prop :=
  exists e, __get_extra_isize inode = Ok e /\
    (9 <= e \/ e = 0 /\ f2fs_has_extra_isize inode = Ok false /\ Z.land feature F2FS_FEATURE_FLEXIBLE_INLINE_XATTR = 0 /\ is_compr_reg inode = Ok false).

Section Fields.
Context (feature : Z) (b b' : list Z) (e : Z).
Context (Hfix : forall i, 0 <= i < 4 \/ 80 <= i < 84 \/ 4052 <= i -> rd b' i = rd b i).
Context (Hvar : (forall i, 360 <= i < 396 -> rd b' i = rd b i) \/
  f2fs_has_extra_isize b = Ok false /\ Z.land feature F2FS_FEATURE_FLEXIBLE_INLINE_XATTR = 0 /\ is_compr_reg b = Ok false).

Ltac fixed := rewrite ?(get_le_ext _ b b') by (intros; apply Hfix; lia); rewrite ?(Hfix ofs_i_inline) by (unfold ofs_i_inline; lia).

Lemma fields_mode m : is_mode b' m = is_mode b m.
Proof. unfold is_mode, ofs_i_mode. by fixed. Qed.
Lemma fields_is_inode : IS_INODE b' = IS_INODE b.
Proof. unfold IS_INODE, ofs_nid, ofs_ino. by fixed. Qed.
Lemma fields_nid off : NODE_DIR1_BLOCK <= off -> get_nid b' off true = get_nid b off true.
Proof. intros Ho. unfold get_nid, ofs_i_nid. by fixed. Qed.
Lemma fields_compr : is_compr_reg b' = is_compr_reg b.
Proof. unfold is_compr_reg, ofs_i_mode, ofs_i_flags. by fixed. Qed.
Lemma fields_has_extra : f2fs_has_extra_isize b' = f2fs_has_extra_isize b.
Proof. unfold f2fs_has_extra_isize. by fixed. Qed.
Lemma fields_extra : __get_extra_isize b' = __get_extra_isize b.
Proof.
  unfold __get_extra_isize. rewrite fields_has_extra. destruct Hvar as [H|(H & _)]; [|by rewrite H].
  destruct (f2fs_has_extra_isize b) as [[]| | |]; try done. rewrite !res_bind_ret. f_equal. apply get_le_ext. intros i Hi. apply H. unfold ofs_i_extra_isize in Hi. lia.
Qed.
Lemma fields_per_inode : addrs_per_inode feature b' = addrs_per_inode feature b.
Proof.
  unfold addrs_per_inode, get_inline_xattr_addrs. rewrite fields_extra, fields_compr. fixed. destruct Hvar as [H|(_ & H1 & H2)].
  - rewrite (get_le_ext 2 b b' ofs_i_inline_xattr_size) by (intros i Hi; apply H; unfold ofs_i_inline_xattr_size in Hi; lia). by rewrite (H ofs_i_log_cluster_size) by (unfold ofs_i_log_cluster_size; lia).
  - rewrite H1, H2. done.
Qed.
Lemma fields_per_block : addrs_per_block b' = addrs_per_block b.
Proof.
  unfold addrs_per_block. rewrite fields_compr. destruct Hvar as [H|(_ & _ & H2)]; [by rewrite (H ofs_i_log_cluster_size) by (unfold ofs_i_log_cluster_size; lia)|by rewrite H2].
Qed.
Lemma fields_path idx : get_node_path feature b' idx = get_node_path feature b idx.
Proof. unfold get_node_path. by rewrite fields_per_inode, fields_per_block. Qed.
End Fields.

(** * The place of an address *)

(** Block [j] of the file is at slot [o] of the block [blk] at [an], node [nid]; [l] is what
    is read on the way there. *)
Record place (v : vol) (ino a0 : Z) (inode : list Z) (j : Z) (p : node_path) (l : list Z) (nid an : Z) (blk : list Z) (o : Z) : Prop := {
  pl_path : get_node_path (v_feature v) inode j = Ok p;
  pl_walk : walk v (steps_of p) inode true ino a0 = Ok (l, (nid, an, blk));
  pl_slot : List.last (offset p) 0 = o;
}.

Definition moved (A : Z -> Z) (j to : Z) : Z -> Z := fun k => if k =? j then to else A k.

Lemma walk_last v steps : forall blk first nid a l nid' a' blk', walk v steps blk first nid a = Ok (l, (nid', a', blk')) ->
  match steps with [] => l = [] /\ a' = a /\ blk' = blk | _ => exists l0, l = l0 ++ [a'] /\ v_disk v !! a' = Some blk' end.
Proof.
  induction steps as [|[off no] steps IH]; intros blk first nid a l nid' a' blk' H; cbn [walk] in H; [by injection H as <- <- <- <-|].
  apply res_bind_Ok in H as (n & _ & H). apply res_bind_Ok in H as (u & _ & H). apply res_bind_Ok in H as (na & _ & H). apply res_bind_Ok in H as (ni & _ & H).
  apply res_bind_Ok in H as (b & Hb & H). apply res_bind_Ok in H as ([l' r] & Hw & H). injection H as <- ->. specialize (IH _ _ _ _ _ _ _ _ Hw). destruct steps as [|s steps].
  - destruct IH as (-> & -> & ->). exists [na]. split; [done|]. unfold vol_read, disk_read_or_die, disk_read in Hb. destruct (v_disk v !! ni_blk_addr ni); congruence.
  - destruct IH as (l0 & -> & Hd). by exists (na :: ni_blk_addr ni :: l0).
Qed.

(** The same walk when only the last block is another one. *)
Lemma walk_last_changed v d new steps : forall blk first nid a l nid' a' blk', walk v steps blk first nid a = Ok (l, (nid', a', blk')) -> steps <> [] ->
  (forall x, x ∈ removelast l -> d !! x = v_disk v !! x) -> d !! a' = Some new -> walk (with_vdisk v d) steps blk first nid a = Ok (l, (nid', a', new)).
Proof.
  induction steps as [|[off no] steps IH]; intros blk first nid a l nid' a' blk' H Hne Hl Hd; [done|]. cbn [walk] in *.
  apply res_bind_Ok in H as (n & -> & H). rewrite res_bind_ret. apply res_bind_Ok in H as (u & -> & H). rewrite res_bind_ret.
  apply res_bind_Ok in H as (na & Hna & H). apply res_bind_Ok in H as (ni & Hni & H). apply res_bind_Ok in H as (b & Hb & H).
  apply res_bind_Ok in H as ([l' r] & Hw & H). injection H as <- ->. rewrite nat_addr_frame, Hna, res_bind_ret.
  rewrite (node_info_frame v d n na), Hni, res_bind_ret by (done || apply Hl; left). destruct steps as [|s steps].
  - cbn [walk] in *. injection Hw as <- <- <- <-. rewrite (vol_read_Ok _ _ new) by (by rewrite with_vdisk_disk). by rewrite !res_bind_ret.
  - pose proof (walk_last _ _ _ _ _ _ _ _ _ _ Hw) as (l0 & -> & _). 
    assert (vol_read (with_vdisk v d) (ni_blk_addr ni) = vol_read v (ni_blk_addr ni)) as ->.
    { unfold vol_read, disk_read_or_die, disk_read. rewrite with_vdisk_disk, Hl; [done|]. right. destruct l0; left. }
    rewrite Hb, res_bind_ret, (IH _ _ _ _ _ _ _ _ Hw), res_bind_ret; [done|done| |done]. intros x Hx. apply Hl. right. destruct l0 as [|y l0]; [by apply not_elem_of_nil in Hx|]. by right.
Qed.

Section Moved.
Context {t : Z} (v : vol) (ino nb a0 : Z) (inode : list Z) (A : Z -> Z) (F : @file_map t v ino nb a0 inode A).
Context (j : Z) (Hj : 0 <= j < nb) (p : node_path) (l : list Z) (nid an : Z) (blk : list Z) (o : Z) (P : place v ino a0 inode j p l nid an blk o).
Context (to : Z) (Hto : is_u32 to /\ to <> NULL_ADDR /\ to <> NEW_ADDR /\ to <> a0).
Context (Hfree : forall k, 0 <= k < nb -> to <> A k /\ forall l, find_block v ino k = Ok (l, A k) -> to ∉ l).
Context (Hblk : exists b, v_disk v !! to = Some b /\ length b = 4096%nat /\ bytes b).

(** What the new map needs beyond the blocks found. *)
Lemma file_map_moved d inode' : d !! a0 = Some inode' -> length inode' = 4096%nat -> bytes inode' -> is_mode inode' t = Ok true ->
  (has_feature (v_feature v) F2FS_FEATURE_INODE_CHKSUM = true -> exists e, __get_extra_isize inode' = Ok e /\ 3 <= e) ->
  (forall x, x <> a0 -> x <> an -> d !! x = v_disk v !! x) -> (exists na, nat_addr v ino = Ok na /\ na <> an) -> (forall k, 0 <= k < nb -> A k <> an) -> to <> an ->
  (forall k, 0 <= k < nb -> forall l, find_block v ino k = Ok (l, A k) -> find_block (with_vdisk v d) ino k = Ok (l, moved A j to k)) ->
  @file_map t (with_vdisk v d) ino nb a0 inode' (moved A j to).
Proof.
  intros Ha0 Hl Hb Hm He Hd (na & Hna & Hnan) HA Htan Hfb. pose proof F as [(na' & ni & Hna' & Hni & Hni0 & Hne) F2 F3 F4 F5 F6 F7 F8]. replace na' with na in * by congruence.
  constructor; try done.
  - exists na, ni. rewrite nat_addr_frame, (node_info_frame v d ino na); [done|done|]. by apply Hd.
  - intros k Hk. destruct (F6 k Hk) as (lk & Hf & H1 & H2). exists lk. split; [by apply Hfb|]. split; [done|]. intros m Hmr. unfold moved.
    destruct (m =? j); [|by apply H2]. by apply (Hfree k Hk).
  - intros k Hk. unfold moved. rewrite with_vdisk_disk. destruct (k =? j).
    + destruct Hto as (_ & H1 & H2 & H3). split; [done|]. split; [done|]. split; [done|]. rewrite Hd by done. exact Hblk.
    + destruct (F7 k Hk) as (H1 & H2 & H3 & b & Hb4). split; [done|]. split; [done|]. split; [done|]. exists b. rewrite Hd by (done || by apply HA). done.
  - intros k m Hk Hmr. unfold moved. destruct (Z.eqb_spec k j) as [->|], (Z.eqb_spec m j) as [->|]; [done| | |by apply F8].
    + intros E. exfalso. by apply (proj1 (Hfree m Hmr)).
    + intros E. symmetry in E. exfalso. by apply (proj1 (Hfree k Hk)).
Qed.

(** ** In a direct node *)
Context (Hstep : steps_of p <> []).
(** The node is read on the way to another block only as that block's own node. *)
Context (Honce : forall k pk lk nidk ak bk ok, 0 <= k < nb -> place v ino a0 inode k pk lk nidk ak bk ok -> an ∈ lk -> steps_of pk = steps_of p /\ an ∉ removelast lk).

Lemma move_in_node blk' : length blk = 4096%nat -> 0 <= o < 1018 -> blk' = splice blk (4 * o) (le_bytes 4 to) -> an <> a0 ->
  forall k, 0 <= k < nb -> forall lk, find_block v ino k = Ok (lk, A k) -> nat_addr v ino <> Ok an ->
    find_block (with_vdisk v (<[an := blk']> (v_disk v))) ino k = Ok (lk, moved A j to k).
Proof.
  intros Lb Ho -> Hna0 k Hk lk Hf Hnat. set (blk' := splice _ _ _). set (d := <[an := blk']> (v_disk v)). destruct P as [P1 P2 P3].
  pose proof (walk_last _ _ _ _ _ _ _ _ _ _ P2) as W. destruct (steps_of p) as [|s0 steps0] eqn:Es; [done|]. rewrite <- Es in *. destruct W as (l0 & El & Hdan).
  destruct (find_block_inv _ _ _ _ _ _ _ _ F Hf) as (pk & na & lk' & nidk & ak & bk & -> & Hna & Hpk & Hwk & Hisk & Hak).
  destruct (fm_addr _ _ _ _ _ _ F) as (na' & ni & Hna' & Hni & Hni0 & Hne0). replace na' with na in * by congruence.
  assert (forall x, x <> an -> d !! x = v_disk v !! x) as Hd by (intros x Hx; unfold d; by rewrite lookup_insert_ne).
  assert (d !! a0 = Some inode) as Hda by (rewrite Hd by done; apply (fm_inode _ _ _ _ _ _ F)).
  unfold find_block. rewrite nat_addr_frame, Hna, res_bind_ret, (node_info_frame v d ino na), Hni, res_bind_ret, Hni0 by (done || apply Hd; congruence).
  rewrite (vol_read_Ok (with_vdisk v d) a0 inode Hda), res_bind_ret. change (v_feature (with_vdisk v d)) with (v_feature v). rewrite Hpk, res_bind_ret.
  assert (place v ino a0 inode k pk lk' nidk ak bk (List.last (offset pk) 0)) as Pk by done.
  destruct (fm_block _ _ _ _ _ _ F j Hj) as (lj & Hfj & _). destruct (find_block_inv _ _ _ _ _ _ _ _ F Hfj) as (pj & naj & lj' & nidj & aj & bj & _ & _ & Hpj & Hwj & Hisj & Haj).
  replace pj with p in * by congruence. rewrite P2 in Hwj. injection Hwj as <- <- <- <-. rewrite P3 in Haj.
  assert (IS_INODE blk' = IS_INODE blk) as Ei.
  { unfold IS_INODE, ofs_nid, ofs_ino, blk'. by rewrite !get_set_le_ne by lia. }
  destruct (decide (an ∈ lk')) as [Hin|Hout].
  - destruct (Honce k pk lk' nidk ak bk _ Hk Pk Hin) as [Est Hrl]. rewrite Est, P2 in Hwk. injection Hwk as <- <- <- <-.
    rewrite Est, (walk_last_changed v d blk' _ _ _ _ _ _ _ _ _ P2) by (try (rewrite Es; done); try (intros x Hx; apply Hd; by intros ->); apply lookup_insert_eq).
    rewrite res_bind_ret, Ei, Hisk, res_bind_ret, Bool.eqb_reflx, assert_true, res_bind_ret. unfold datablock_addr, blkaddr_in_node in *. rewrite Ei, Hisk in *. rewrite !res_bind_ret in *.
    rewrite (path_steps _ _ _ _ Hpk), Est, Es in *. rewrite !res_bind_ret in *. unfold blk', moved. destruct (Z.eqb_spec k j) as [->|Hkj].
    + replace pk with p in * by congruence. rewrite P3, get_set_le; [done|lia|lia|apply Hto].
    + rewrite get_set_le_ne; [by rewrite Hak|lia|lia|]. destruct (decide (List.last (offset pk) 0 = o)) as [Eo|]; [|lia]. exfalso. apply Hkj.
      apply (fm_inj _ _ _ _ _ _ F k j Hk Hj). rewrite Eo in Hak. rewrite Hak in Haj. by injection Haj.
  - rewrite (walk_frame v d (steps_of pk) inode true ino a0 lk' (nidk, ak, bk) Hwk), res_bind_ret by (intros x Hx; apply Hd; by intros ->).
    rewrite Hisk, res_bind_ret, Bool.eqb_reflx, assert_true, res_bind_ret, Hak, res_bind_ret. unfold moved. destruct (Z.eqb_spec k j) as [->|]; [|done].
    replace pk with p in * by congruence. rewrite P2 in Hwk. injection Hwk as <- <- <- <-. rewrite El in Hout. exfalso. apply Hout. apply elem_of_app. right. apply list_elem_of_singleton. done.
Qed.
End Moved.

(** ** In the inode *)

Lemma extra_range inode e : __get_extra_isize inode = Ok e -> bytes inode -> 0 <= e < 2 ^ 14.
Proof.
  unfold __get_extra_isize. intros ([] & _ & He)%res_bind_Ok Hb; [|injection He as <-; lia].
  apply res_bind_Ok in He as (sz & Hsz%get_le_range & [= <-]); [|done]. change (8 * Z.of_nat 2) with 16 in Hsz. split; [apply Z.div_pos; lia|apply Z.div_lt_upper_bound; lia].
Qed.

(** The inode with another address at slot [o], as far as paths are concerned. *)
Lemma slot_fields feature inode e o to : length inode = 4096%nat -> bytes inode -> __get_extra_isize inode = Ok e -> addrs_apart feature inode -> 0 <= o -> e + o < 923 ->
  let inode' := splice inode (ofs_i_addr + 4 * (e + o)) (le_bytes 4 to) in
  (forall i, 0 <= i < 4 \/ 80 <= i < 84 \/ 4052 <= i -> rd inode' i = rd inode i) /\
  ((forall i, 360 <= i < 396 -> rd inode' i = rd inode i) \/
   f2fs_has_extra_isize inode = Ok false /\ Z.land feature F2FS_FEATURE_FLEXIBLE_INLINE_XATTR = 0 /\ is_compr_reg inode = Ok false).
Proof.
  intros Hl Hb He (e' & He' & Hcase) Ho Heo. cbv zeta. rewrite He in He'. apply Ok_inj in He' as <-. destruct (extra_range _ _ He Hb) as [He0 _]. unfold ofs_i_addr.
  split; [intros i Hi; apply rd_splice_ne; rewrite ?length_le_bytes; lia|]. destruct Hcase as [H9|(_ & H1 & H2 & H3)]; [left|by right].
  intros i Hi. apply rd_splice_ne; rewrite ?length_le_bytes; lia.
Qed.

Section MovedInode.
Context {t : Z} (v : vol) (ino nb a0 : Z) (inode : list Z) (A : Z -> Z) (F : @file_map t v ino nb a0 inode A).
Context (j : Z) (Hj : 0 <= j < nb) (p : node_path) (l : list Z) (nid an : Z) (blk : list Z) (o : Z) (P : place v ino a0 inode j p l nid an blk o).
Context (to : Z) (Hto : is_u32 to) (Hapart : addrs_apart (v_feature v) inode) (e : Z) (He : __get_extra_isize inode = Ok e) (Ho : 0 <= o /\ e + o < 923).
Context (Hstep : steps_of p = []).
#[local] Abbreviation inode' := (splice inode (ofs_i_addr + 4 * (e + o)) (le_bytes 4 to)).

Lemma move_in_inode : forall k, 0 <= k < nb -> forall lk, find_block v ino k = Ok (lk, A k) ->
    find_block (with_vdisk v (<[a0 := inode']> (v_disk v))) ino k = Ok (lk, moved A j to k).
Proof.
  intros k Hk lk Hf. destruct (fm_good _ _ _ _ _ _ F) as [Hl Hb]. destruct (slot_fields (v_feature v) inode e o to Hl Hb He Hapart (proj1 Ho) (proj2 Ho)) as [Hfix Hvar].
  destruct (extra_range _ _ He Hb) as [He0 _]. set (b' := splice _ _ _) in *. set (d := <[a0 := b']> (v_disk v)). destruct P as [P1 P2 P3]. rewrite Hstep in P2. cbn [walk] in P2. injection P2 as <- <- <- <-.
  destruct (find_block_inv _ _ _ _ _ _ _ _ F Hf) as (pk & na & lk' & nidk & ak & bk & -> & Hna & Hpk & Hwk & Hisk & Hak).
  destruct (fm_addr _ _ _ _ _ _ F) as (na' & ni & Hna' & Hni & Hni0 & Hne0). replace na' with na in * by congruence.
  assert (forall x, x <> a0 -> d !! x = v_disk v !! x) as Hd by (intros x Hx; unfold d; by rewrite lookup_insert_ne).
  destruct (fm_block _ _ _ _ _ _ F k Hk) as (lk2 & Hf2 & Ha0 & _). rewrite Hf in Hf2. injection Hf2 as <-.
  unfold find_block. rewrite nat_addr_frame, Hna, res_bind_ret, (node_info_frame v d ino na), Hni, res_bind_ret, Hni0 by (done || apply Hd; congruence).
  rewrite (vol_read_Ok (with_vdisk v d) a0 b' (lookup_insert_eq _ _ _)), res_bind_ret. change (v_feature (with_vdisk v d)) with (v_feature v).
  rewrite (fields_path _ _ _ Hfix Hvar), Hpk, res_bind_ret. pose proof (path_first _ _ _ _ Hpk) as Hfirst. pose proof (path_steps _ _ _ _ Hpk) as Hst. pose proof (path_steps _ _ _ _ P1) as Hstj.
  assert (forall x, x ∈ lk' -> d !! x = v_disk v !! x) as Hl' by (intros x Hx; apply Hd; intros ->; apply Ha0; by right).
  destruct (fm_block _ _ _ _ _ _ F j Hj) as (lj & Hfj & _). destruct (find_block_inv _ _ _ _ _ _ _ _ F Hfj) as (pj & naj & lj' & nidj & aj & bj & _ & _ & Hpj & Hwj & Hisj & Haj).
  replace pj with p in * by congruence. rewrite Hstep in Hwj, Hstj. cbn [walk] in Hwj. injection Hwj as <- <- <- <-. rewrite P3 in Haj.
  destruct (steps_of pk) as [|[off no] steps] eqn:Hsteps.
  - cbn [walk] in *. injection Hwk as <- <- <- <-. rewrite res_bind_ret, (fields_is_inode _ _ Hfix), Hisk, res_bind_ret, Bool.eqb_reflx, assert_true, res_bind_ret.
    unfold datablock_addr, blkaddr_in_node in *. rewrite (fields_is_inode _ _ Hfix), Hisk, Hst in *. rewrite !res_bind_ret in *. rewrite (fields_extra _ _ _ Hfix Hvar), He in *. rewrite !res_bind_ret in *.
    replace (ofs_i_addr + 4 * e + 4 * List.last (offset pk) 0) with (ofs_i_addr + 4 * (e + List.last (offset pk) 0)) in * by lia.
    replace (ofs_i_addr + 4 * e + 4 * o) with (ofs_i_addr + 4 * (e + o)) in * by lia.
    unfold b', moved, ofs_i_addr in *. destruct (Z.eqb_spec k j) as [->|Hkj].
    + replace pk with p in * by congruence. rewrite P3, get_set_le; [done|lia|lia|exact Hto].
    + rewrite get_set_le_ne; [by rewrite Hak|lia|lia|]. destruct (decide (List.last (offset pk) 0 = o)) as [Eo|]; [|lia]. exfalso. apply Hkj.
      apply (fm_inj _ _ _ _ _ _ F k j Hk Hj). rewrite Eo in Hak. rewrite Hak in Haj. by injection Haj.
  - apply (walk_frame v d) in Hwk; [|done]. cbn [walk] in *. rewrite (fields_nid _ _ Hfix) by done. rewrite Hwk, res_bind_ret.
    rewrite Hisk, res_bind_ret, Bool.eqb_reflx, assert_true, res_bind_ret, Hak, res_bind_ret. unfold moved. destruct (Z.eqb_spec k j) as [->|]; [|done].
    replace pk with p in * by congruence. by rewrite Hstep in Hsteps.
Qed.
End MovedInode.
