(* ===== verification/NodeAlloc.v ===== *)
(** Allocating a node (fsck/node.c, [new_node_block]): the parts of a volume it changes, and
    what the node address table says afterwards. *)
From Stdlib Require Import ZArith Lia List Bool.
From stdpp Require Import base numbers list gmap.
From S2P Require Import Prelude Codec Bits Crc Node Superblock Mkfs Checkpoint Segment Fsck FileData FileTree Nat.

(** * What a reservation leaves alone *)

(** Only segment entries, counts and the maps of fsck change. *)
Definition keeps (st st' : seg_state) : Prop := sg st' = sg st /\ sg_disk st' = sg_disk st /\ sg_cursegs st' = sg_cursegs st.

#[local] Instance keeps_preorder : PreOrder keeps.
Proof.
  split; [by intros st|]. intros a b c (H1 & H2 & H3) (H4 & H5 & H6). by repeat split; etrans.
Qed.

Lemma keeps_entry st segno se st' : set_seg_entry st segno se = Ok st' -> keeps st st'.
Proof. unfold set_seg_entry. by intros (ses & _ & <-%Ok_inj)%res_bind_Ok. Qed.

Lemma keeps_main st blk type r st' : f2fs_set_main_bitmap st blk type = Ok (r, st') -> keeps st st'.
Proof.
  unfold f2fs_set_main_bitmap. intros (segno & _ & H)%res_bind_Ok. apply res_bind_Ok in H as (se & _ & H). cbv zeta in H.
  apply res_bind_Ok in H as (st1 & H1 & H). apply res_bind_Ok in H as (off & _ & H). apply res_bind_Ok in H as ([r' bm] & _ & H). apply Ok_inj in H.
  injection H as <- <-. assert (keeps st st1) as K; [|exact K]. destruct (_ || _); [by apply keeps_entry in H1|]. by apply Ok_inj in H1 as ->.
Qed.

Lemma keeps_sit st blk r st' : f2fs_set_sit_bitmap st blk = Ok (r, st') -> keeps st st'.
Proof. unfold f2fs_set_sit_bitmap. intros (off & _ & ([r' bm] & _ & H%Ok_inj)%res_bind_Ok)%res_bind_Ok. by injection H as <- <-. Qed.

(** The journal of a summary block. *)
Definition same_journal (b b' : list Z) : Prop := forall i, 3584 <= i < 4091 -> rd b' i = rd b i.

(** The configuration, the disk outside of the summary area and the journals stay. *)
Record spared (st st' : seg_state) : Prop := {
  sp_cfg : sg st' = sg st;
  sp_disk : forall x, ~ (g_ssa_blkaddr (sg st) <= x < g_ssa_blkaddr (sg st) + Z.of_nat (length (sg_sentries st))) -> sg_disk st' !! x = sg_disk st !! x;
  sp_journal : forall i c, sg_cursegs st !! i = Some c -> exists c', sg_cursegs st' !! i = Some c' /\ same_journal (cs_sum_blk c) (cs_sum_blk c');
}.

Lemma update_sum_spares need st0 st blk sum st' : update_sum_entry st blk sum = Ok st' -> keeps st0 st -> seg_inv st0 need -> books_ok st0 -> length sum = 7%nat ->
  g_main_blkaddr (sg st0) <= blk < g_main_blkaddr (sg st0) + 512 * g_main_segments (sg st0) -> spared st0 st'.
Proof.
  intros H (K1 & K2 & K3) Hi Hb Hs Hblk. unfold update_sum_entry in H. cbv zeta in H. rewrite K1 in H. destruct (RO (sg st0)).
  { apply Ok_inj in H as <-. constructor; [done|by rewrite K2|]. intros i c Hc. exists c. by rewrite K3. }
  pose proof (si_cfg _ _ Hi) as Hc. rewrite (co_segs _ _ _ Hc) in Hblk. destruct (segno_of need (sg st0) _ blk Hc Hblk) as [Hsn Hoff].
  rewrite Hsn, res_bind_ret, Hoff, res_bind_ret in H. set (segno := (blk - _) / 512) in *. set (off := (blk - _) mod 512) in *.
  assert (0 <= segno < Z.of_nat (length (sg_sentries st0)) /\ 0 <= off < 512) as [Hsr Hor] by (subst segno off; Z.to_euclidean_division_equations; lia).
  apply res_bind_Ok in H as (se & _ & H). destruct (get_sum_block_spec st0 segno Hb Hsr) as (shared & b & ty & neg & Hg & [Hbl _] & Hh & _).
  assert (get_sum_block st segno = get_sum_block st0 segno) as Eg by (unfold get_sum_block; by rewrite K1, K2, K3).
  rewrite Eg, Hg, res_bind_ret in H. apply res_bind_Ok in H as (b1 & H1 & H). apply res_bind_Ok in H as (b2 & H2 & H).
  rewrite wr_list_splice in H1 by (unfold SUMMARY_SIZE; lia). apply Ok_inj in H1. apply wr_Ok in H2 as [H2 ->].
  assert (same_journal b (<[Z.to_nat ofs_sum_footer := if IS_NODESEG (se_type se) then SUM_TYPE_NODE else SUM_TYPE_DATA]> b1)) as J.
  { intros i Hir. rewrite rd_insert by lia. replace (i =? ofs_sum_footer) with false by (unfold ofs_sum_footer; lia). rewrite <- H1.
    apply rd_splice_ne; unfold SUMMARY_SIZE; lia. }
  assert (sum_home st segno shared b) as Hh' by (unfold sum_home in Hh |- *; by rewrite K1, K2, K3).
  rewrite (store_sum_blk_eq st _ _ _ _ Hh'), res_bind_ret in H. apply res_bind_Ok in H as (d & Hd & <-%Ok_inj).
  cbn [sg_disk with_cursegs] in Hd. rewrite (ssa_addr st0 segno Hb Hsr), K2 in Hd. unfold disk_write_or_die, disk_write in Hd.
  constructor; cbn [sg sg_disk sg_cursegs with_seg_disk with_cursegs].
  - done.
  - intros x Hx. destruct (sg_disk st0 !! _); [|done]. apply Ok_inj in Hd as <-. rewrite lookup_insert_ne; [done|lia].
  - intros i c Hci. destruct shared as [j|]; cbn [stored_cursegs]; rewrite K3; [|by exists c]. destruct Hh as (Hj & cj & Hcj & Ecj).
    destruct (decide (i = Z.to_nat j)) as [->|Hne]; [|exists c; by rewrite list_lookup_alter_ne].
    rewrite list_lookup_alter_eq, Hcj. eexists. split; [done|]. rewrite Hci in Hcj. injection Hcj as ->. cbn [cs_sum_blk set_sum_blk]. by rewrite Ecj.
Qed.

Lemma reserve_spares need st to sum type is_inode blk st' : reserve_new_block st to sum type is_inode = Ok (0, blk, st') ->
  seg_inv st need -> books_ok st -> length sum = 7%nat -> spared st st'.
Proof.
  intros H Hi Hb Hs. unfold reserve_new_block in H. cbv zeta in H. destruct (_ && _); [done|].
  destruct (find_next_free_block_total need st type false Hi) as (r & b & st1 & Hf & (ses & -> & _) & Hr). rewrite Hf, res_bind_ret in H.
  apply res_bind_Ok in H as (u & Hu & H). apply assert_Ok in Hu. destruct Hr as [->|[-> [Hblk _]]]; [done|]. clear Hf Hu u.
  apply res_bind_Ok in H as (segno & _ & H). apply res_bind_Ok in H as (off & _ & H). apply res_bind_Ok in H as (se & _ & H).
  apply res_bind_Ok in H as (se1 & _ & H). apply res_bind_Ok in H as (st2 & H2 & H). apply res_bind_Ok in H as (st3 & H3 & H). cbv zeta in H.
  apply keeps_entry in H2. assert (keeps st2 st3) as K3.
  { destruct (is_fsck _); [|by apply Ok_inj in H3 as ->]. apply res_bind_Ok in H3 as ([r1 x1] & M1%keeps_main & H3).
    apply res_bind_Ok in H3 as ([r2 x2] & M2%keeps_sit & <-%Ok_inj). by etrans. }
  apply res_bind_Ok in H as (se4 & _ & H). apply res_bind_Ok in H as (st4 & H4%keeps_entry & H). apply res_bind_Ok in H as (st5 & H5 & H%Ok_inj).
  injection H as <- <-. pose proof (co_end _ _ _ (si_cfg _ _ Hi)) as He. pose proof (co_main _ _ _ (si_cfg _ _ Hi)) as [Hm _]. pose proof (co_segs _ _ _ (si_cfg _ _ Hi)) as Hn.
  rewrite u32_id in H5 by (unfold is_u32; lia). apply (update_sum_spares need st st4 b sum); [done| |done..].
  assert (keeps st (with_sentries st ses)) as K1 by done. etrans; [exact K1|]. etrans; [exact H2|]. etrans; [exact K3|]. etrans; [|exact H4]. by destruct (_ =? _).
Qed.

(** * Volumes on which nodes can be allocated *)

(** Consistent segments and tables, the journal flushed; the summary area and the node
    address table are apart and below the main area, whose blocks can be read. *)
Record vol_ok (v : vol) (ns : nat_state) (need : bool) (k : Z) : Prop := {
  vk_seg : seg_inv (v_seg v) need;
  vk_books : books_ok (v_seg v);
  vk_func : is_fsck (g_func (sg (v_seg v))) = false;
  vk_view : nat_view v = Ok ns;
  vk_nat : nat_ok ns k;
  vk_journal : journal_count ns 0;
  vk_bitmap : nid_bitmap_ok ns;
  vk_apart : let g := sg (v_seg v) in let n := Z.of_nat (length (sg_sentries (v_seg v))) in let na := nm_nat_blkaddr (ns_nm ns) in
    g_ssa_blkaddr g + n <= g_main_blkaddr g /\ na + 1024 * k <= g_main_blkaddr g /\ (g_ssa_blkaddr g + n <= na \/ na + 1024 * k <= g_ssa_blkaddr g);
  vk_main : forall x, g_main_blkaddr (sg (v_seg v)) <= x < g_main_blkaddr (sg (v_seg v)) + 512 * g_main_segments (sg (v_seg v)) -> has_block (v_disk v) x;
}.

(** With an empty journal the entry in force is the one in the block. *)
Lemma entry_block ns k n : nat_ok ns k -> journal_count ns 0 -> valid_nid ns n -> get_nat_entry ns n = block_entry ns n.
Proof.
  intros Hok Hj Hn. rewrite (get_nat_entry_eq ns k Hok n Hn). destruct (lookup_journal_spec ns k 0 n Hok Hj) as [(j & ne & Hjr & _)|[_ ->]]; [lia|done].
Qed.

Lemma node_info_eq v ns k n : nat_view v = Ok ns -> nat_ok ns k -> is_fsck (g_func (sg (v_seg v))) = false -> journal_count ns 0 -> valid_nid ns n ->
  vol_node_info v n = (raw ← block_entry ns n; node_info_from_raw_nat n raw).
Proof.
  intros Hv Hok Hf Hj Hn. unfold vol_node_info. rewrite Hv, res_bind_ret. unfold get_node_info.
  assert (ns_func ns = g_func (sg (v_seg v))) as -> by (unfold nat_view in Hv; by apply res_bind_Ok in Hv as (h & _ & <-%Ok_inj)).
  rewrite Hf. cbn [andb]. by rewrite (entry_block ns k n Hok Hj Hn).
Qed.

Lemma vol_nat_addr v ns k n : nat_view v = Ok ns -> nat_ok ns k -> valid_nid ns n -> FileTree.nat_addr v n = Ok (nat_addr ns n).
Proof.
  intros Hv Hok Hn. unfold FileTree.nat_addr. rewrite Hv, res_bind_ret. by destruct (current_nat_addr_eq ns k Hok n Hn) as [p ->].
Qed.

(** ** A node id *)

Definition with_nids (v : vol) (ns : nat_state) (bm : list Z) : vol := put_nat v (with_nid_bitmap ns bm).

Lemma view_with_nids v ns bm : nat_view v = Ok ns -> nat_view (with_nids v ns bm) = Ok (with_nid_bitmap ns bm).
Proof.
  unfold nat_view. intros (hot & Hh & <-%Ok_inj)%res_bind_Ok. cbn [with_nids put_nat v_seg sg_cursegs with_seg_disk]. rewrite Hh. done.
Qed.

Lemma nids_seg v ns bm : nat_view v = Ok ns -> v_seg (with_nids v ns bm) = v_seg v.
Proof. unfold nat_view. intros (hot & _ & <-%Ok_inj)%res_bind_Ok. cbn. unfold with_seg_disk, v_disk. by destruct (v_seg v). Qed.

Lemma vol_ok_nids v ns need k bm : vol_ok v ns need k -> nid_bitmap_ok (with_nid_bitmap ns bm) -> vol_ok (with_nids v ns bm) (with_nid_bitmap ns bm) need k.
Proof.
  intros [H1 H2 H3 H4 H5 H6 H7 H8 H9] Hbm. pose proof (nids_seg v ns bm H4) as E.
  constructor; unfold v_disk in *; rewrite ?E; try done; [by apply view_with_nids|by apply nat_ok_with_nid_bitmap].
Qed.

Lemma alloc_nid_spec v ns need k : vol_ok v ns need k ->
  vol_alloc_nid v = Die \/
  exists nid bm, vol_alloc_nid v = Ok (nid, with_nids v ns bm) /\ vol_ok (with_nids v ns bm) (with_nid_bitmap ns bm) need k /\
    valid_nid ns nid /\ nid_bit ns nid = false.
Proof.
  intros V. pose proof (vk_bitmap _ _ _ _ V) as Hbm. pose proof (no_max _ _ (vk_nat _ _ _ _ V)) as Hmax. pose proof (no_pos _ _ (vk_nat _ _ _ _ V)).
  unfold vol_alloc_nid. rewrite (vk_view _ _ _ _ V), res_bind_ret. unfold f2fs_alloc_nid.
  destruct (alloc_loop_spec (Z.to_nat (nm_max_nid (ns_nm ns))) ns 0 Hbm) as (r & -> & Hr & _ & Hfree); [lia|lia|]. rewrite res_bind_ret.
  destruct (Z.ltb_spec r (nm_max_nid (ns_nm ns))) as [Hlt|]; [|by left]. right. change (assert_ true) with (Ok tt). rewrite res_bind_ret.
  assert (valid_nid ns r) as Hv by (split; lia). destruct (set_nid_bit ns r Hbm Hv) as (b & bm & -> & Hbm' & _). rewrite !res_bind_ret.
  exists r, bm. split; [done|]. split; [by apply vol_ok_nids|]. split; [done|]. by apply Hfree.
Qed.

(** ** A block for the node *)

Lemma reserved_view v ns need k s : vol_ok v ns need k -> spared (v_seg v) s -> books_ok s ->
  exists sum, let ns2 := with_sum (with_disk ns (sg_disk s)) sum in
    nat_view (with_seg v s) = Ok ns2 /\ nat_ok ns2 k /\ journal_count ns2 0 /\ forall n, valid_nid ns n -> block_entry ns2 n = block_entry ns n.
Proof.
  intros V [Sc Sd Sj] B. pose proof (vk_nat _ _ _ _ V) as Hok. destruct (vk_apart _ _ _ _ V) as (A1 & A2 & A3). cbv zeta in A1, A2, A3.
  pose proof (vk_view _ _ _ _ V) as Hv. unfold nat_view in Hv. apply res_bind_Ok in Hv as (hot & Hh & Hv%Ok_inj).
  apply rd_Ok in Hh as [_ Hh]. destruct (Sj _ _ Hh) as (c' & Hc' & J). exists (cs_sum_blk c'). cbv zeta.
  assert (forall a, nm_nat_blkaddr (ns_nm ns) <= a < nm_nat_blkaddr (ns_nm ns) + 1024 * k -> sg_disk s !! a = ns_disk ns !! a) as Hd.
  { intros a Ha. rewrite Sd by lia. by rewrite <- Hv. }
  assert (sum_block (cs_sum_blk c')) as Hs by exact (Forall_lookup_1 _ _ _ _ (proj2 (bo_cursegs _ B)) Hc').
  split; [|split; [|split]].
  - unfold nat_view. cbn [v_seg with_seg]. unfold rd in *. rewrite Hc'. cbn. rewrite Sc. by rewrite <- Hv.
  - destruct Hok as [H1 H2 H3 H4 H5 H6 H7 H8 H9]. constructor; try done; cbn [ns_disk ns_nm with_sum with_disk ns_sum].
    intros a Ha. unfold has_block. rewrite (Hd a Ha). by apply H8.
  - destruct (vk_journal _ _ _ _ V) as [J1 J2]. split; [|done]. rewrite <- J1. cbn [ns_sum with_sum]. unfold nats_in_cursum. rewrite <- Hv. cbn [ns_sum].
    apply get_le_ext. intros i Hi. apply J. unfold ofs_journal in Hi. lia.
  - intros n Hn. unfold block_entry. change (nat_addr (with_sum _ _) n) with (nat_addr ns n). unfold disk_read_or_die, disk_read.
    cbn [ns_disk with_sum with_disk]. by rewrite (Hd _ (nat_addr_range ns k Hok n Hn)).
Qed.

Record new_node (v v' : vol) (ns : nat_state) (need : bool) (k nid blk : Z) : Prop := {
  nn_ok : exists ns', vol_ok v' ns' need k;
  nn_info : exists ni, vol_node_info v' nid = Ok ni /\ ni_blk_addr ni = blk;
  nn_others : forall n, valid_nid ns n -> n <> nid -> vol_node_info v' n = vol_node_info v n;
  nn_nat : forall n, valid_nid ns n -> exists na, FileTree.nat_addr v n = Ok na /\ FileTree.nat_addr v' n = Ok na /\ na < g_main_blkaddr (sg (v_seg v));
  nn_disk : forall x, g_main_blkaddr (sg (v_seg v)) <= x -> v_disk v' !! x = v_disk v !! x;
  nn_range : g_main_blkaddr (sg (v_seg v)) <= blk < g_main_blkaddr (sg (v_seg v)) + 512 * g_main_segments (sg (v_seg v));
  nn_free : block_used (v_seg v) blk = false;
  nn_used : forall b, g_main_blkaddr (sg (v_seg v)) <= b < g_main_blkaddr (sg (v_seg v)) + 512 * g_main_segments (sg (v_seg v)) ->
    block_used (v_seg v') b = (b =? blk) || block_used (v_seg v) b;
  nn_same : sg (v_seg v') = sg (v_seg v) /\ v_seed v' = v_seed v;
}.

Lemma update_nat_shape st k ino nid newaddr st' : update_nat_blkaddr st ino nid newaddr = Ok st' -> nat_ok st k -> valid_nid st nid ->
  exists e b, st' = with_disk (with_entries st e) (<[nat_addr st nid := b]> (ns_disk st)).
Proof.
  intros H Hok Hn. unfold update_nat_blkaddr in H. cbv zeta in H. destruct (current_nat_addr_eq st k Hok nid Hn) as [p Hp]. rewrite Hp, res_bind_ret in H.
  apply res_bind_Ok in H as (b1 & Hb1 & H). apply res_bind_Ok in H as (b2 & _ & H). apply res_bind_Ok in H as (b3 & _ & H). apply res_bind_Ok in H as (e & _ & H).
  apply res_bind_Ok in H as (d & Hd & <-%Ok_inj). unfold disk_write_or_die, disk_write in Hd. destruct (ns_disk st !! nat_addr st nid); [|done].
  apply Ok_inj in Hd as <-. by exists e, b3.
Qed.

Lemma view_put v ns e d : nat_view v = Ok ns -> nat_view (put_nat v (with_disk (with_entries ns e) d)) = Ok (with_disk (with_entries ns e) d).
Proof. unfold nat_view. intros (hot & Hh & <-%Ok_inj)%res_bind_Ok. cbn [put_nat v_seg sg_cursegs with_seg_disk]. by rewrite Hh. Qed.

(** The block [blk] that was reserved is entered in the table. *)
Lemma enter_node v ns need k s ino nid blk : vol_ok v ns need k -> spared (v_seg v) s -> seg_inv s need -> books_ok s -> valid_nid ns nid -> is_u32 ino ->
  g_main_blkaddr (sg (v_seg v)) <= blk < g_main_blkaddr (sg (v_seg v)) + 512 * g_main_segments (sg (v_seg v)) -> block_used (v_seg v) blk = false ->
  (forall b, g_main_blkaddr (sg (v_seg v)) <= b < g_main_blkaddr (sg (v_seg v)) + 512 * g_main_segments (sg (v_seg v)) ->
    block_used s b = (b =? blk) || block_used (v_seg v) b) -> length (sg_sentries s) = length (sg_sentries (v_seg v)) ->
  exists v', vol_update_nat (with_seg v s) ino nid blk = Ok v' /\ new_node v v' ns need k nid blk.
Proof.
  intros V S I B Hn Hino Hblk Hfree Hused Hlen. destruct (reserved_view v ns need k s V S B) as (sum & Hv2 & Hok2 & Hj2 & He2). set (ns2 := with_sum _ _) in *.
  pose proof (vk_nat _ _ _ _ V) as Hok. destruct (vk_apart _ _ _ _ V) as (A1 & A2 & A3). cbv zeta in A1, A2, A3.
  assert (ns_func ns2 = g_func (sg (v_seg v))) as Hfn by (pose proof (vk_view _ _ _ _ V) as E; unfold nat_view in E; by apply res_bind_Ok in E as (h & _ & <-%Ok_inj)).
  destruct (nat_update_lookup ns2 k 0 ino nid blk Hok2 Hj2 Hn Hino) as (ns3 & raw & raw' & Hu & Hok3 & _ & Hraw' & Hblk' & _ & _ & Hoth & _).
  { pose proof (co_end _ _ _ (si_cfg _ _ (vk_seg _ _ _ _ V))). pose proof (co_main _ _ _ (si_cfg _ _ (vk_seg _ _ _ _ V))). pose proof (co_segs _ _ _ (si_cfg _ _ (vk_seg _ _ _ _ V))).
    unfold is_u32. lia. }
  { by rewrite Hfn, (vk_func _ _ _ _ V). }
  destruct (update_nat_shape _ _ _ _ _ _ Hu Hok2 Hn) as (e & b & E3). pose proof (nat_addr_range ns k Hok) as Har.
  exists (put_nat (with_seg v s) ns3). split; [unfold vol_update_nat; by rewrite Hv2, res_bind_ret, Hu|].
  assert (nat_view (put_nat (with_seg v s) ns3) = Ok ns3) as Hv3 by (rewrite E3; by apply view_put).
  assert (journal_count ns3 0) as Hj3 by (by rewrite E3). assert (ns_nm ns3 = ns_nm ns) as En by (by rewrite E3). pose proof (sp_cfg _ _ S) as Sc.
  assert (v_seg (put_nat (with_seg v s) ns3) = with_seg_disk s (ns_disk ns3)) as Es by done.
  assert (is_fsck (g_func (sg s)) = false) as Hf3 by (rewrite Sc; apply (vk_func _ _ _ _ V)).
  assert (forall x, g_main_blkaddr (sg (v_seg v)) <= x -> ns_disk ns3 !! x = v_disk v !! x) as Hd3.
  { intros x Hx. rewrite E3. cbn [ns_disk with_disk]. rewrite lookup_insert_ne by (change (nat_addr ns2 nid) with (nat_addr ns nid); specialize (Har nid Hn); lia).
    apply (sp_disk _ _ S). lia. }
  assert (forall n, valid_nid ns n -> valid_nid ns3 n) as Hv' by (intros n; unfold valid_nid; by rewrite En).
  constructor.
  - exists ns3. constructor; rewrite ?Es; cbn [sg sg_sentries with_seg_disk]; try done.
    + destruct I as [I1 I2 I3]. by constructor.
    + destruct B as [B1 B2 B3 B4 B5 B6]. constructor; try done. cbn [sg_disk sg_sentries sg with_seg_disk]. intros x Hx. unfold has_block. rewrite E3. cbn [ns_disk with_disk].
      rewrite lookup_insert_ne; [by apply B4|]. change (nat_addr ns2 nid) with (nat_addr ns nid). specialize (Har nid Hn). rewrite Sc, Hlen in *. lia.
    + pose proof (vk_bitmap _ _ _ _ V) as Hb. unfold nid_bitmap_ok in *. by rewrite En.
    + by rewrite En, Sc, Hlen.
    + intros x Hx. change (v_disk _) with (ns_disk ns3). rewrite Sc in Hx. unfold has_block. rewrite Hd3 by lia. by apply (vk_main _ _ _ _ V).
  - rewrite (node_info_eq _ ns3 k nid Hv3 Hok3 Hf3 Hj3 (Hv' _ Hn)), Hraw', res_bind_ret. unfold node_info_from_raw_nat.
    destruct (block_entry_total ns3 k Hok3 nid (Hv' _ Hn)) as (raw2 & Hr2 & Hl2 & _). rewrite Hraw' in Hr2. apply Ok_inj in Hr2 as <-.
    destruct (get_le_total 4 raw' ofs_ne_ino) as [i ->]; [done|rewrite Hl2; done|]. rewrite Hblk'. destruct (rd_total raw' ofs_ne_version) as [w ->]; [rewrite Hl2; done|].
    rewrite !res_bind_ret. by eexists.
  - intros n Hvn Hne. rewrite (node_info_eq _ ns3 k n Hv3 Hok3 Hf3 Hj3 (Hv' _ Hvn)), (node_info_eq v ns k n (vk_view _ _ _ _ V) Hok (vk_func _ _ _ _ V) (vk_journal _ _ _ _ V) Hvn).
    f_equal. rewrite <- (He2 n Hvn), <- (entry_block ns3 k n Hok3 Hj3 (Hv' _ Hvn)), <- (entry_block ns2 k n Hok2 Hj2 Hvn). by apply Hoth.
  - intros n Hvn. exists (nat_addr ns n). split; [by apply (vol_nat_addr v ns k), Hvn; [apply (vk_view _ _ _ _ V)|]|]. specialize (Har n Hvn). split; [|lia].
    rewrite (vol_nat_addr _ ns3 k n Hv3 Hok3 (Hv' _ Hvn)). by rewrite E3.
  - exact Hd3.
  - done.
  - done.
  - exact Hused.
  - done.
Qed.

Lemma set_le_ok n l ofs z : 0 <= ofs -> ofs + Z.of_nat n <= Z.of_nat (length l) -> bytes l ->
  exists l', set_le n l ofs z = Ok l' /\ length l' = length l /\ bytes l'.
Proof.
  intros H0 Hn Hb. eexists. rewrite set_le_Ok by done. split; [done|]. rewrite length_splice by (rewrite ?length_le_bytes; lia). split; [done|]. auto with f2fs.
Qed.

Lemma fresh_node_ok inode nid ofs cp : length inode = 4096%nat -> (4096 <= length cp)%nat ->
  exists b, fresh_node inode nid ofs cp = Ok b /\ length b = 4096%nat /\ bytes b.
Proof.
  intros Hl Hcp. unfold fresh_node, is_mode.
  destruct (set_le_ok 4 (replicate 4096 0) ofs_nid nid) as (b1 & -> & L1 & B1); [done|done|by apply Forall_replicate|]. rewrite res_bind_ret.
  destruct (get_le_total 4 inode ofs_ino) as [ino ->]; [done|rewrite Hl; done|]. rewrite res_bind_ret. rewrite length_replicate in L1.
  destruct (set_le_ok 4 b1 ofs_ino ino) as (b2 & -> & L2 & B2); [done|rewrite L1; done|done|]. rewrite res_bind_ret. rewrite L1 in L2.
  destruct (set_le_ok 4 b2 ofs_flag (u32 (Z.shiftl ofs OFFSET_BIT_SHIFT))) as (b3 & -> & L3 & B3); [done|rewrite L2; done|done|]. rewrite res_bind_ret. rewrite L2 in L3.
  destruct (get_le_total 8 cp ofs_checkpoint_ver) as [ver ->]; [done|unfold ofs_checkpoint_ver; lia|]. rewrite res_bind_ret.
  destruct (set_le_ok 8 b3 ofs_cp_ver ver) as (b4 & -> & L4 & B4); [done|rewrite L3; done|done|]. rewrite res_bind_ret. rewrite L3 in L4.
  destruct (get_le_total 2 inode ofs_i_mode) as [m ->]; [done|rewrite Hl; done|]. rewrite !res_bind_ret. unfold set_cold_node.
  destruct (get_le_total 4 b4 ofs_flag) as [f ->]; [done|rewrite L4; done|]. rewrite res_bind_ret. change (shl1 COLD_BIT_SHIFT) with (Ok 1). rewrite res_bind_ret.
  destruct (Z.land m LINUX_S_IFMT =? LINUX_S_IFDIR);
    (match goal with |- context [set_le 4 b4 ofs_flag ?z] => destruct (set_le_ok 4 b4 ofs_flag z) as (b5 & -> & L5 & B5) end; [done|rewrite L4; done|done|]);
    exists b5; by rewrite L5, L4.
Qed.

(** The three outcomes: no space, no free block found, or a new node. *)
Lemma new_node_block_spec v ns need k inode nid ofs : vol_ok v ns need k -> valid_nid ns nid -> length inode = 4096%nat -> bytes inode ->
  let dn := set_new_dnode inode nid in
  new_node_block v dn ofs = Ok (0, v, dn) \/ new_node_block v dn ofs = Die \/
  exists blk v' fresh inode' dn', new_node_block v dn ofs = Ok (blk, v', dn') /\ new_node v v' ns need k nid blk /\
    dn_node dn' = NodeOwn fresh /\ length fresh = 4096%nat /\ bytes fresh /\
    dn_inode dn' = inode' /\ length inode' = 4096%nat /\ bytes inode' /\ forall i, ~ (24 <= i < 32) -> rd inode' i = rd inode i.
Proof.
  intros V Hn Hl Hb dn. unfold new_node_block. cbv zeta. change (dn_inode dn) with inode. change (dn_nid dn) with nid.
  destruct (fresh_node_ok inode nid ofs _ Hl (bo_cp _ (vk_books _ _ _ _ V))) as (fresh & -> & Lf & Bf). rewrite res_bind_ret.
  unfold IS_DNODE, ofs_of_node, is_mode. destruct (get_le_total 4 fresh ofs_flag) as [fl ->]; [done|rewrite Lf; done|]. rewrite !res_bind_ret.
  destruct (get_le_total 2 inode ofs_i_mode) as [m ->]; [done|rewrite Hl; done|]. rewrite !res_bind_ret. set (type := if _ && _ then _ else _).
  rewrite (node_info_eq v ns k nid (vk_view _ _ _ _ V) (vk_nat _ _ _ _ V) (vk_func _ _ _ _ V) (vk_journal _ _ _ _ V) Hn).
  destruct (block_entry_total ns k (vk_nat _ _ _ _ V) nid Hn) as (raw & -> & Lr & Br). rewrite res_bind_ret. unfold node_info_from_raw_nat.
  destruct (get_le_total 4 raw ofs_ne_ino) as [i ->]; [done|rewrite Lr; done|]. destruct (get_le_total 4 raw ofs_ne_block_addr) as [a ->]; [done|rewrite Lr; done|].
  destruct (rd_total raw ofs_ne_version) as [w ->]; [rewrite Lr; done|]. rewrite !res_bind_ret. cbn [ni_version].
  assert (length (set_summary nid 0 w) = 7%nat /\ bytes (set_summary nid 0 w)) as [Ls Bs].
  { split; [done|]. unfold set_summary. repeat (apply Forall_app; split); [apply bytes_le_bytes| |apply bytes_le_bytes]. constructor; [apply u8_range|constructor]. }
  destruct (reserve_outcomes (v_seg v) need NULL_ADDR (set_summary nid 0 w) type (ofs =? 0) (vk_seg _ _ _ _ V) (vk_books _ _ _ _ V) Ls Bs)
    as [(-> & _)|[(-> & _)|(blk & s & Hres & [Hrange _] & Hfree & I & B & Hused & _)]].
  - left. rewrite res_bind_ret. by destruct v.
  - by right; left.
  - right; right. rewrite Hres, res_bind_ret. change (negb (0 =? 0)) with false. cbn iota.
    destruct (get_le_total 4 inode ofs_ino) as [ino Hino]; [done|rewrite Hl; done|]. rewrite Hino, res_bind_ret. pose proof (get_le_range 4 _ _ _ Hb Hino) as Ru.
    destruct (enter_node v ns need k s ino nid blk V (reserve_spares need _ _ _ _ _ _ _ Hres (vk_seg _ _ _ _ V) (vk_books _ _ _ _ V) Ls) I B Hn Ru Hrange Hfree Hused)
      as (v' & -> & N).
    { pose proof (reserve_spares need _ _ _ _ _ _ _ Hres (vk_seg _ _ _ _ V) (vk_books _ _ _ _ V) Ls) as Sp.
      pose proof (co_segs _ _ _ (si_cfg _ _ I)) as C1. pose proof (co_segs _ _ _ (si_cfg _ _ (vk_seg _ _ _ _ V))) as C2. rewrite (sp_cfg _ _ Sp) in C1. lia. }
    rewrite res_bind_ret. unfold dn_inc_inode_blocks, inc_inode_blocks. cbn [dn_inode dn_with_node]. change (dn_inode dn) with inode.
    destruct (get_le_total 8 inode ofs_i_blocks) as [nb ->]; [done|rewrite Hl; done|]. rewrite res_bind_ret.
    rewrite set_le_Ok by (unfold ofs_i_blocks; lia). rewrite !res_bind_ret. eexists blk, v', fresh, _, _. split; [done|]. split; [done|]. split; [done|].
    split; [done|]. split; [done|]. split; [done|]. cbn [dn_inode dn_with_inode]. unfold ofs_i_blocks. rewrite length_splice by (rewrite ?length_le_bytes; lia). split; [done|].
    split; [auto with f2fs|]. intros j Hj. apply rd_splice_ne; rewrite ?length_le_bytes; lia.
Qed.

(** Taking a node id changes no entry. *)
Lemma nids_info v ns need k bm n : vol_ok v ns need k -> valid_nid ns n -> nid_bitmap_ok (with_nid_bitmap ns bm) ->
  vol_node_info (with_nids v ns bm) n = vol_node_info v n /\ FileTree.nat_addr (with_nids v ns bm) n = FileTree.nat_addr v n.
Proof.
  intros V Hn Hbm. pose proof (vol_ok_nids v ns need k bm V Hbm) as V'.
  rewrite (node_info_eq _ _ k n (vk_view _ _ _ _ V') (vk_nat _ _ _ _ V') (vk_func _ _ _ _ V') (vk_journal _ _ _ _ V') Hn).
  rewrite (node_info_eq _ _ k n (vk_view _ _ _ _ V) (vk_nat _ _ _ _ V) (vk_func _ _ _ _ V) (vk_journal _ _ _ _ V) Hn).
  split; [done|]. by rewrite (vol_nat_addr _ _ k n (vk_view _ _ _ _ V') (vk_nat _ _ _ _ V') Hn), (vol_nat_addr _ _ k n (vk_view _ _ _ _ V) (vk_nat _ _ _ _ V) Hn).
Qed.

Lemma new_node_nids v v' ns need k bm nid blk : vol_ok v ns need k -> nid_bitmap_ok (with_nid_bitmap ns bm) ->
  new_node (with_nids v ns bm) v' (with_nid_bitmap ns bm) need k nid blk -> new_node v v' ns need k nid blk.
Proof.
  intros V Hbm [H1 H2 H3 H4 H5 H6 H7 H8 H9]. unfold v_disk in *. rewrite (nids_seg v ns bm (vk_view _ _ _ _ V)) in *. constructor; try done.
  - intros n Hn Hne. rewrite (H3 n Hn Hne). by apply (nids_info v ns need k).
  - intros n Hn. destruct (H4 n Hn) as (na & E1 & E2). exists na. split; [|done]. rewrite <- E1. symmetry. by apply (nids_info v ns need k).
Qed.
