(* ===== verification/Xattr.v ===== *)
(** Extended attributes (fsck/xattr.c, fsck/xattr.h): the list of attributes of an inode,
    which begins in the tail of the inode block and goes on in a node block of its own.

    The list is handled in one buffer, [txattr_addr]: the inline part, then the whole node
    block. A [struct f2fs_xattr_entry *] is an offset in that buffer. [read_all_xattrs] asks
    fsck to check the node if the program is fsck, so the state is that of FsckWalk. *)
From Stdlib Require Import ZArith Lia List Bool.
From stdpp Require Import base numbers list gmap.
From S2P Require Import Prelude Codec Bits Crc Node Dir Superblock Mkfs Checkpoint Nat Segment Fsck FileData FileTree FsckWalk DirVol FsckRun NodeAlloc FileMove.

(** * Format *)

Definition F2FS_XATTR_MAGIC : Z := 0xF2F52011.
Definition ofs_h_magic : Z := 0.
Definition ofs_h_refcount : Z := 4.
(** [sizeof] of [struct f2fs_xattr_header] and of [struct f2fs_xattr_entry]. *)
Definition XATTR_HDR_SIZE : Z := 24.
Definition XATTR_ENTRY_SIZE : Z := 4.
Definition ofs_e_name_index : Z := 0.
Definition ofs_e_name_len : Z := 1.
Definition ofs_e_value_size : Z := 2.
Definition ofs_e_name : Z := 4.

Definition XATTR_ROUND : Z := 3.
Definition XATTR_ALIGN (size : Z) : Z := Z.land (size + XATTR_ROUND) (Z.lnot XATTR_ROUND).
Definition MIN_OFFSET : Z := XATTR_ALIGN (F2FS_BLKSIZE - 24 - 4).
Definition MAX_VALUE_LEN : Z := MIN_OFFSET - XATTR_HDR_SIZE - XATTR_ENTRY_SIZE.
Definition F2FS_XATTR_INDEX_SECURITY : Z := 6.
Definition XATTR_CREATE : Z := 1.
Definition XATTR_REPLACE : Z := 2.
Definition ERANGE : Z := 34.
Definition ENODATA : Z := 61.

Definition IS_XATTR_LAST_ENTRY (base : list Z) (entry : Z) : res bool := w ← get_le32 base entry; Ok (w =? 0).
Definition XATTR_FIRST_ENTRY : Z := XATTR_HDR_SIZE.
Definition ENTRY_SIZE (base : list Z) (entry : Z) : res Z :=
  n ← rd base (entry + ofs_e_name_len);
  s ← get_le16 base (entry + ofs_e_value_size);
  Ok (XATTR_ALIGN (XATTR_ENTRY_SIZE + n + s)).
Definition XATTR_NEXT_ENTRY (base : list Z) (entry : Z) : res Z := s ← ENTRY_SIZE base entry; Ok (entry + s).

(** * Reading *)

(** The offset in the inode block. *)
Definition inline_xattr_addr (feature : Z) (inode : list Z) : res Z :=
  n ← get_inline_xattr_addrs feature inode; Ok (ofs_i_addr + 4 * (DEF_ADDRS_PER_INODE - n)).
Definition inline_xattr_size (feature : Z) (inode : list Z) : res Z :=
  n ← get_inline_xattr_addrs feature inode; Ok (n * 4).

(** The check of the node that fsck makes; false is the return with [NULL]. *)
Definition check_xattr_nid (c : fsck_conf) (st : fsck_st) (xnid : Z) : res (fsck_st * bool) :=
  if is_fsck (g_func (sg (v_seg (fk_vol st)))) && negb (xnid =? 0) then
    '(st, r) ← sanity_check_nid c st xnid F2FS_FT_XATTR TYPE_XATTR;
    Ok (st, match r with Some _ => true | None => false end)
  else Ok (st, true).

(** The attributes of [inode] in one buffer. *)
Definition gather_xattrs (v : vol) (inode : list Z) (xnid : Z) : res (list Z) :=
  inline_size ← inline_xattr_size (v_feature v) inode;
  from ← inline_xattr_addr (v_feature v) inode;
  inl ← rd_bytes inode from (Z.to_nat inline_size);
  blk ← (if negb (xnid =? 0) then ni ← vol_node_info v xnid; vol_read v (ni_blk_addr ni) else Ok (replicate 4096 0));
  Ok (inl ++ blk).

Definition read_all_xattrs (c : fsck_conf) (st : fsck_st) (inode : list Z) : res (fsck_st * option (list Z)) :=
  xnid ← get_le32 inode ofs_i_xattr_nid;
  '(st, ok) ← check_xattr_nid c st xnid;
  if negb ok then Ok (st, None)
  else
    b ← gather_xattrs (fk_vol st) inode xnid;
    magic ← get_le32 b ofs_h_magic;
    b ← (if negb (magic =? F2FS_XATTR_MAGIC) then
           b ← set_le32 b ofs_h_magic F2FS_XATTR_MAGIC; set_le32 b ofs_h_refcount 1
         else Ok b);
    Ok (st, Some b).

(** * Searching *)

Definition xattr_matches (base : list Z) (entry index : Z) (name : list Z) : res bool :=
  i ← rd base (entry + ofs_e_name_index);
  if negb (i =? index) then Ok false
  else
    n ← rd base (entry + ofs_e_name_len);
    if negb (n =? Z.of_nat (length name)) then Ok false
    else s ← rd_bytes base (entry + ofs_e_name) (length name); Ok (bool_decide (s = name)).

(** [list_for_each_xattr] of [__find_xattr], from [entry] on. *)
Fixpoint find_xattr_loop (fuel : nat) (base : list Z) (entry index : Z) (name : list Z) : res Z :=
  match fuel with
  | O => NoFuel
  | S fuel =>
      l ← IS_XATTR_LAST_ENTRY base entry;
      if l : bool then Ok entry
      else
        m ← xattr_matches base entry index name;
        if m : bool then Ok entry
        else next ← XATTR_NEXT_ENTRY base entry; find_xattr_loop fuel base next index name
  end.
Definition __find_xattr (base : list Z) (index : Z) (name : list Z) : res Z :=
  find_xattr_loop (length base) base XATTR_FIRST_ENTRY index name.

Fixpoint last_xattr_loop (fuel : nat) (base : list Z) (last : Z) : res Z :=
  match fuel with
  | O => NoFuel
  | S fuel =>
      l ← IS_XATTR_LAST_ENTRY base last;
      if l : bool then Ok last else next ← XATTR_NEXT_ENTRY base last; last_xattr_loop fuel base next
  end.
Definition last_xattr (base : list Z) (here : Z) : res Z := last_xattr_loop (length base) base here.

(** * Writing *)

Definition write_all_xattrs (v : vol) (inode : list Z) (hsize : Z) (txattr : list Z) : res (vol * list Z) :=
  xnid ← get_le32 inode ofs_i_xattr_nid;
  inline_size ← inline_xattr_size (v_feature v) inode;
  at_ ← inline_xattr_addr (v_feature v) inode;
  inl ← rd_bytes txattr 0 (Z.to_nat inline_size);
  inode ← wr_list inode at_ inl;
  if hsize <=? inline_size then Ok (v, inode)
  else
    '(v, inode, xattr_node, blkaddr) ←
      (if xnid =? 0 then
         '(new_nid, v) ← vol_alloc_nid v;
         '(blkaddr, v, dn) ← new_node_block v (set_new_dnode inode new_nid) XATTR_NODE_OFFSET;
         blk ← node_blk dn;
         inode ← set_le32 (dn_inode dn) ofs_i_xattr_nid new_nid;
         Ok (v, inode, blk, blkaddr)
       else
         ni ← vol_node_info v xnid;
         blk ← vol_read v (ni_blk_addr ni);
         Ok (v, inode, blk, ni_blk_addr ni));
    data ← rd_bytes txattr inline_size 4072;
    xattr_node ← wr_list xattr_node 0 data;
    v ← vol_write v blkaddr xattr_node;
    Ok (v, inode).

(** "2. Remove old entry": the buffer and the new place of [last]. *)
Definition remove_xattr (base : list Z) (here last : Z) : res (list Z * Z) :=
  next ← XATTR_NEXT_ENTRY base here;
  oldsize ← ENTRY_SIZE base here;
  _ ← defined_ (next <=? last);
  moved ← rd_bytes base next (Z.to_nat (last - next));
  base ← wr_list base here moved;
  let last := last - oldsize in
  base ← wr_list base last (replicate (Z.to_nat oldsize) 0);
  Ok (base, last).

(** "3. Write new entry" at [last]. *)
Definition append_xattr (base : list Z) (last newsize index : Z) (name value : list Z) (size : Z) : res (list Z) :=
  base ← wr_list base last (replicate (Z.to_nat newsize) 0);
  base ← wr base (last + ofs_e_name_index) (u8 index);
  base ← wr base (last + ofs_e_name_len) (u8 (Z.of_nat (length name)));
  base ← wr_list base (last + ofs_e_name) name;
  data ← rd_bytes value 0 (Z.to_nat size);
  base ← wr_list base (last + ofs_e_name + Z.of_nat (length name)) data;
  set_le16 base (last + ofs_e_value_size) (u16 size).

(** What [f2fs_setxattr] does to the buffer: an error, or the new buffer and the size of the
    list in it. *)
Definition set_in_buffer (base : list Z) (index : Z) (name value : list Z) (size flags : Z) : res (Z + list Z * Z) :=
  here ← __find_xattr base index name;
  l ← IS_XATTR_LAST_ENTRY base here;
  let found := negb l in
  if negb (Z.land flags XATTR_REPLACE =? 0) && negb found then Ok (inl (- ENODATA))
  else if negb (Z.land flags XATTR_CREATE =? 0) && found then Ok (inl (- EEXIST))
  else
    last ← last_xattr base here;
    let newsize := XATTR_ALIGN (XATTR_ENTRY_SIZE + Z.of_nat (length name) + size) in
    let free := MIN_OFFSET - last in
    free ← (if found then s ← ENTRY_SIZE base here; Ok (free + s) else Ok free);
    if free <? newsize then Ok (inl (- ENOSPC))
    else
      '(base, last) ← (if found then remove_xattr base here last else Ok (base, last));
      base ← append_xattr base last newsize index name value size;
      Ok (inr (base, last + newsize)).

(** [name] and [value] are buffers, the name a string; [None] is a null pointer. The return
    value and the state. *)
Definition f2fs_setxattr (c : fsck_conf) (st : fsck_st) (ino index : Z) (name value : option (list Z)) (size flags : Z) : res (Z * fsck_st) :=
  match name, value with
  | Some name, Some value =>
      len ← c_strlen name;
      if (F2FS_NAME_LEN <? len) || (MAX_VALUE_LEN <? size) then Ok (- ERANGE, st)
      else if ino <? 3 then Ok (- EINVAL, st)
      else
        _ ← assert_ (index =? F2FS_XATTR_INDEX_SECURITY);
        ni ← vol_node_info (fk_vol st) ino;
        inode ← vol_read (fk_vol st) (ni_blk_addr ni);
        '(st, base) ← read_all_xattrs c st inode;
        match base with
        | None => Die
        | Some base =>
            r ← set_in_buffer base index (take (Z.to_nat len) name) value size flags;
            match r with
            | inl error => Ok (error, st)
            | inr (base, hsize) =>
                '(v, inode) ← write_all_xattrs (fk_vol st) inode hsize base;
                '(v, _) ← vol_write_inode v inode (ni_blk_addr ni);
                Ok (0, with_vol st v)
            end
        end
  | _, _ => Ok (- EINVAL, st)
  end.

(** "selinux" *)
Definition XATTR_SELINUX_SUFFIX : list Z := [115; 101; 108; 105; 110; 117; 120; 0].
Definition inode_set_selinux (c : fsck_conf) (st : fsck_st) (ino : Z) (secon : option (list Z)) : res (Z * fsck_st) :=
  match secon with
  | None => Ok (0, st)
  | Some s => n ← c_strlen s; f2fs_setxattr c st ino F2FS_XATTR_INDEX_SECURITY (Some XATTR_SELINUX_SUFFIX) secon n 1
  end.

(** * Lists of attributes *)

Record xattr := Xattr { x_index : Z; x_name : list Z; x_value : list Z }.

Definition xattr_size (n s : Z) : Z := XATTR_ALIGN (XATTR_ENTRY_SIZE + n + s).
Definition x_size (x : xattr) : Z := xattr_size (Z.of_nat (length (x_name x))) (Z.of_nat (length (x_value x))).
Definition x_body (x : xattr) : list Z :=
  [x_index x; Z.of_nat (length (x_name x))] ++ le_bytes 2 (Z.of_nat (length (x_value x))) ++ x_name x ++ x_value x.
Definition enc_xattr (x : xattr) : list Z := x_body x ++ replicate (Z.to_nat (x_size x) - length (x_body x)) 0.
Definition enc_xattrs (es : list xattr) : list Z := concat (enc_xattr <$> es).
Definition xattrs_size (es : list xattr) : Z := Z.of_nat (length (enc_xattrs es)).

Record xattr_ok (x : xattr) : Prop := {
  xo_index : 0 < x_index x < 256;
  xo_name : Z.of_nat (length (x_name x)) < 256;
  xo_value : Z.of_nat (length (x_value x)) < 2 ^ 16;
  xo_bytes : bytes (x_name x) /\ bytes (x_value x);
}.

Definition is_key (index : Z) (name : list Z) (x : xattr) : bool := bool_decide (x_index x = index) && bool_decide (x_name x = name).

(** The list without the first attribute of that name, and the attribute. *)
Fixpoint remove_key (index : Z) (name : list Z) (es : list xattr) : option (xattr * list xattr) :=
  match es with
  | [] => None
  | x :: es =>
      if is_key index name x then Some (x, es)
      else match remove_key index name es with Some (y, es) => Some (y, x :: es) | None => None end
  end.

(** What setting an attribute means: an error or the new list. *)
Definition set_xattr (es : list xattr) (index : Z) (name value : list Z) (flags : Z) : Z + list xattr :=
  let new := Xattr index name value in
  let rest := match remove_key index name es with Some (_, es) => es | None => es end in
  let found := match remove_key index name es with Some _ => true | None => false end in
  if negb (Z.land flags XATTR_REPLACE =? 0) && negb found then inl (- ENODATA)
  else if negb (Z.land flags XATTR_CREATE =? 0) && found then inl (- EEXIST)
  else if MIN_OFFSET - XATTR_HDR_SIZE - xattrs_size rest <? x_size new then inl (- ENOSPC)
  else inr (rest ++ [new]).

(** * The encoding *)

Lemma align_eq x : XATTR_ALIGN x = 4 * ((x + 3) / 4).
Proof.
  unfold XATTR_ALIGN, XATTR_ROUND. change 3 with (Z.ones 2) at 2. rewrite <- Z.ldiff_land, Z.ldiff_ones_r by lia.
  rewrite Z.shiftl_mul_pow2, Z.shiftr_div_pow2 by lia. change (2 ^ 2) with 4. lia.
Qed.
Lemma align_range x : x <= XATTR_ALIGN x < x + 4.
Proof. rewrite align_eq. pose proof (Z.div_mod (x + 3) 4). pose proof (Z.mod_pos_bound (x + 3) 4). lia. Qed.

Lemma length_x_body x : Z.of_nat (length (x_body x)) = XATTR_ENTRY_SIZE + Z.of_nat (length (x_name x)) + Z.of_nat (length (x_value x)).
Proof. unfold x_body, XATTR_ENTRY_SIZE. rewrite !length_app, length_le_bytes. cbn [length]. lia. Qed.
Lemma x_size_body x : Z.of_nat (length (x_body x)) <= x_size x < Z.of_nat (length (x_body x)) + 4.
Proof. rewrite length_x_body. apply align_range. Qed.
Lemma length_enc x : Z.of_nat (length (enc_xattr x)) = x_size x.
Proof. unfold enc_xattr. rewrite length_app, length_replicate. pose proof (x_size_body x). lia. Qed.
Lemma x_size_min x : 4 <= x_size x.
Proof. pose proof (x_size_body x). pose proof (length_x_body x). unfold XATTR_ENTRY_SIZE in *. lia. Qed.

Lemma enc_xattrs_cons x es : enc_xattrs (x :: es) = enc_xattr x ++ enc_xattrs es.
Proof. done. Qed.
Lemma enc_xattrs_app es1 es2 : enc_xattrs (es1 ++ es2) = enc_xattrs es1 ++ enc_xattrs es2.
Proof. unfold enc_xattrs. by rewrite fmap_app, concat_app. Qed.
Lemma xattrs_size_cons x es : xattrs_size (x :: es) = x_size x + xattrs_size es.
Proof. unfold xattrs_size. rewrite enc_xattrs_cons, length_app, <- length_enc. lia. Qed.
Lemma xattrs_size_app es1 es2 : xattrs_size (es1 ++ es2) = xattrs_size es1 + xattrs_size es2.
Proof. unfold xattrs_size. rewrite enc_xattrs_app, length_app. lia. Qed.
Lemma xattrs_size_count es : 4 * Z.of_nat (length es) <= xattrs_size es.
Proof. induction es as [|x es IH]; [done|]. rewrite xattrs_size_cons. pose proof (x_size_min x). cbn [length]. lia. Qed.

(** Members of an object in the middle of a buffer. *)
Lemma rd_at (pre l post : list Z) p i : p = Z.of_nat (length pre) -> 0 <= i < Z.of_nat (length l) -> rd (pre ++ l ++ post) (p + i) = rd l i.
Proof.
  intros -> Hi. unfold rd. destruct (Z.ltb_spec (Z.of_nat (length pre) + i) 0), (Z.ltb_spec i 0); try lia.
  rewrite lookup_app_r by lia. rewrite lookup_app_l by lia. by replace (Z.to_nat (Z.of_nat (length pre) + i) - length pre)%nat with (Z.to_nat i) by lia.
Qed.
Lemma rd_bytes_at (pre l post : list Z) p i n : p = Z.of_nat (length pre) -> 0 <= i -> i + Z.of_nat n <= Z.of_nat (length l) ->
  rd_bytes (pre ++ l ++ post) (p + i) n = rd_bytes l i n.
Proof.
  intros Hp. revert i. induction n as [|n IH]; intros i H0 Hn; [done|]. cbn [rd_bytes].
  rewrite rd_at by (done || lia). rewrite <- Z.add_assoc, IH by lia. done.
Qed.
Lemma get_le_at m (pre l post : list Z) p i : p = Z.of_nat (length pre) -> 0 <= i -> i + Z.of_nat m <= Z.of_nat (length l) ->
  get_le m (pre ++ l ++ post) (p + i) = get_le m l i.
Proof. intros. unfold get_le. by rewrite rd_bytes_at. Qed.

Lemma get_le32_cons a b c d (l : list Z) : get_le32 (a :: b :: c :: d :: l) 0 = Ok (le_val [a; b; c; d]).
Proof. unfold get_le. by rewrite (rd_bytes_app [] [a; b; c; d] l). Qed.

Section Entry.
Context (x : xattr) (pre post : list Z) (p : Z).
Context (Hx : xattr_ok x) (Hp : p = Z.of_nat (length pre)).
#[local] Abbreviation b := (pre ++ enc_xattr x ++ post).

Lemma body_le : (length (x_body x) <= length (enc_xattr x))%nat.
Proof. unfold enc_xattr. rewrite length_app. lia. Qed.
Lemma enc_long : (4 <= length (enc_xattr x))%nat.
Proof. pose proof (length_enc x). pose proof (x_size_min x). lia. Qed.

Lemma entry_index : rd b (p + ofs_e_name_index) = Ok (x_index x).
Proof. pose proof enc_long. rewrite rd_at by (done || (unfold ofs_e_name_index; lia)). done. Qed.
Lemma entry_len : rd b (p + ofs_e_name_len) = Ok (Z.of_nat (length (x_name x))).
Proof. pose proof enc_long. rewrite rd_at by (done || (unfold ofs_e_name_len; lia)). done. Qed.
Lemma entry_value_size : get_le16 b (p + ofs_e_value_size) = Ok (Z.of_nat (length (x_value x))).
Proof.
  pose proof enc_long. rewrite get_le_at by (done || (unfold ofs_e_value_size; lia)). unfold enc_xattr, x_body. rewrite <- !app_assoc.
  unfold get_le, mbind, res_bind. rewrite rd_bytes_app by done. rewrite le_val_bytes; [done|]. destruct Hx. change (8 * Z.of_nat 2) with 16. lia.
Qed.
Lemma entry_name : rd_bytes b (p + ofs_e_name) (length (x_name x)) = Ok (x_name x).
Proof.
  pose proof (length_x_body x) as L. pose proof body_le. unfold XATTR_ENTRY_SIZE in L.
  rewrite rd_bytes_at by (done || (unfold ofs_e_name; lia)). unfold enc_xattr, x_body. rewrite <- !app_assoc.
  by apply (rd_bytes_app (x_index x :: Z.of_nat (length (x_name x)) :: le_bytes 2 (Z.of_nat (length (x_value x)))) (x_name x)).
Qed.
Lemma entry_size : ENTRY_SIZE b p = Ok (x_size x).
Proof. unfold ENTRY_SIZE. rewrite entry_len, res_bind_ret, entry_value_size, res_bind_ret. done. Qed.
Lemma entry_next : XATTR_NEXT_ENTRY b p = Ok (p + x_size x).
Proof. unfold XATTR_NEXT_ENTRY. by rewrite entry_size. Qed.
Lemma entry_not_last : IS_XATTR_LAST_ENTRY b p = Ok false.
Proof.
  pose proof enc_long. unfold IS_XATTR_LAST_ENTRY. rewrite <- (Z.add_0_r p) at 1. rewrite get_le_at by (done || lia).
  destruct Hx. unfold enc_xattr, x_body. cbn [app le_bytes]. rewrite get_le32_cons, res_bind_ret. cbn [le_val].
  pose proof (Z.mod_pos_bound (Z.of_nat (length (x_value x))) 256 ltac:(lia)). pose proof (Z.mod_pos_bound (Z.of_nat (length (x_value x)) / 256) 256 ltac:(lia)).
  f_equal. apply Z.eqb_neq. lia.
Qed.
Lemma entry_matches index name : xattr_matches b p index name = Ok (is_key index name x).
Proof.
  unfold xattr_matches, is_key. rewrite entry_index, res_bind_ret. destruct (Z.eqb_spec (x_index x) index) as [E|N]; cbn [negb].
  2: by rewrite (bool_decide_eq_false_2 _ N).
  rewrite (bool_decide_eq_true_2 _ E), entry_len, res_bind_ret. destruct (Z.eqb_spec (Z.of_nat (length (x_name x))) (Z.of_nat (length name))) as [L|L]; cbn [negb andb].
  - apply Nat2Z.inj in L. rewrite <- L, entry_name. done.
  - rewrite bool_decide_eq_false_2; [done|]. by intros <-.
Qed.
End Entry.

(** The end of the list. *)
Definition ends (rest : list Z) : Prop := exists t, rest = [0; 0; 0; 0] ++ t.

Lemma last_at_end pre rest p : ends rest -> p = Z.of_nat (length pre) -> IS_XATTR_LAST_ENTRY (pre ++ rest) p = Ok true.
Proof. intros [t ->] ->. unfold IS_XATTR_LAST_ENTRY, get_le. by rewrite rd_bytes_app by done. Qed.

(** Where the search stops: at the attribute, or at the end of the list. *)
Lemma find_xattr_loop_spec fuel index name es : forall pre rest, Forall xattr_ok es -> ends rest -> (length es < fuel)%nat ->
  exists es1 es2, es = es1 ++ es2 /\
    find_xattr_loop fuel (pre ++ enc_xattrs es ++ rest) (Z.of_nat (length pre)) index name = Ok (Z.of_nat (length pre) + xattrs_size es1) /\
    match es2 with
    | [] => remove_key index name es = None
    | x :: es2 => remove_key index name es = Some (x, es1 ++ es2)
    end.
Proof.
  revert es. induction fuel as [|fuel IH]; intros es pre rest Hok He Hf; [lia|]. cbn [find_xattr_loop].
  destruct es as [|x es].
  { exists [], []. split; [done|]. split; [|done]. cbn [enc_xattrs fmap list_fmap concat app]. rewrite last_at_end by done. cbn [mbind res_bind]. by rewrite Z.add_0_r. }
  apply Forall_cons in Hok as [Hx Hok]. rewrite enc_xattrs_cons, <- app_assoc.
  rewrite entry_not_last, res_bind_ret, entry_matches, res_bind_ret by done. cbn [remove_key]. destruct (is_key index name x) eqn:K.
  { exists [], (x :: es). split; [done|]. split; [|done]. by rewrite Z.add_0_r. }
  rewrite entry_next, res_bind_ret by done. destruct (IH es (pre ++ enc_xattr x) rest Hok He) as (es1 & es2 & -> & E & R); [cbn [length] in Hf; lia|].
  rewrite <- app_assoc, length_app, Nat2Z.inj_add, length_enc in E. rewrite E. exists (x :: es1), es2. split; [done|].
  split; [by rewrite xattrs_size_cons, Z.add_assoc|]. destruct es2 as [|y es2]; [by rewrite R|by rewrite R].
Qed.

Lemma last_loop_spec fuel es : forall pre rest, Forall xattr_ok es -> ends rest -> (length es < fuel)%nat ->
  last_xattr_loop fuel (pre ++ enc_xattrs es ++ rest) (Z.of_nat (length pre)) = Ok (Z.of_nat (length pre) + xattrs_size es).
Proof.
  revert es. induction fuel as [|fuel IH]; intros es pre rest Hok He Hf; [lia|]. cbn [last_xattr_loop]. destruct es as [|x es].
  { cbn [enc_xattrs fmap list_fmap concat app]. rewrite last_at_end by done. cbn [mbind res_bind]. by rewrite Z.add_0_r. }
  apply Forall_cons in Hok as [Hx Hok]. rewrite enc_xattrs_cons, <- app_assoc. rewrite entry_not_last, res_bind_ret, entry_next, res_bind_ret by done.
  specialize (IH es (pre ++ enc_xattr x) rest Hok He). rewrite <- app_assoc, length_app, Nat2Z.inj_add, length_enc in IH.
  rewrite IH by (cbn [length] in Hf; lia). by rewrite xattrs_size_cons, Z.add_assoc.
Qed.

(** Removing the attribute in the middle leaves room at the end. *)
Lemma remove_xattr_spec pre x es rest : xattr_ok x ->
  remove_xattr (pre ++ enc_xattrs (x :: es) ++ rest) (Z.of_nat (length pre)) (Z.of_nat (length pre) + xattrs_size (x :: es)) =
  Ok (pre ++ enc_xattrs es ++ replicate (Z.to_nat (x_size x)) 0 ++ rest, Z.of_nat (length pre) + xattrs_size es).
Proof.
  intros Hx. unfold remove_xattr. rewrite enc_xattrs_cons, <- app_assoc, entry_next, res_bind_ret, entry_size, res_bind_ret by done.
  rewrite xattrs_size_cons. assert (0 <= xattrs_size es) by (unfold xattrs_size; lia). pose proof (length_enc x) as L.
  replace (_ <=? _) with true by (symmetry; apply Z.leb_le; lia). change (defined_ true) with (Ok tt). rewrite res_bind_ret.
  rewrite app_assoc, (rd_bytes_app (pre ++ enc_xattr x) (enc_xattrs es) rest) by (rewrite ?length_app; unfold xattrs_size; lia).
  rewrite res_bind_ret, <- app_assoc. rewrite (app_assoc (enc_xattr x) (enc_xattrs es)).
  set (m := enc_xattr x ++ enc_xattrs es). set (tl := drop (length (enc_xattrs es)) m).
  assert (length m = length (enc_xattr x) + length (enc_xattrs es))%nat as Lm by (unfold m; by rewrite length_app).
  rewrite <- (take_drop (length (enc_xattrs es)) m). fold tl. rewrite <- app_assoc, wr_list_app; [|done|rewrite length_take; lia].
  rewrite res_bind_ret. rewrite (app_assoc pre). rewrite (wr_list_app _ tl); [| |unfold tl; rewrite length_drop, length_replicate; lia].
  - rewrite res_bind_ret, <- !app_assoc. do 2 f_equal. lia.
  - rewrite length_app. unfold xattrs_size. lia.
Qed.

(** Writing an attribute over zeros. *)
Lemma append_spec pre old post index name value more size :
  let x := Xattr index name value in
  xattr_ok x -> size = Z.of_nat (length value) -> length old = Z.to_nat (x_size x) ->
  append_xattr (pre ++ old ++ post) (Z.of_nat (length pre)) (x_size x) index name (value ++ more) size = Ok (pre ++ enc_xattr x ++ post).
Proof.
  intros x Hx Hs Ho. pose proof (length_x_body x) as LB. pose proof (length_enc x) as LE. pose proof (x_size_body x) as SB.
  destruct Hx as [Hi Hl Hv _]. cbn [x_index x_name x_value x] in Hi, Hl, Hv, LB. unfold XATTR_ENTRY_SIZE in LB.
  unfold append_xattr. rewrite wr_list_app by (rewrite ?length_replicate; lia). rewrite res_bind_ret.
  replace (Z.to_nat (x_size x)) with (4 + (length name + (length value + (Z.to_nat (x_size x) - length (x_body x)))))%nat by lia.
  rewrite !replicate_add, <- !app_assoc. change (replicate 4 0) with ([0] ++ [0] ++ [0; 0]). rewrite <- !app_assoc.
  set (tl := replicate (_ - _) 0). unfold ofs_e_name_index, ofs_e_name_len, ofs_e_name, ofs_e_value_size.
  cbn [app]. rewrite (wr_app pre) by lia. rewrite res_bind_ret. rewrite u8_id by (unfold is_u8; lia).
  rewrite cons_middle, app_assoc, (wr_app (pre ++ [index])) by (rewrite length_app; cbn; lia). rewrite res_bind_ret, u8_id by (unfold is_u8; lia).
  rewrite <- app_assoc. cbn [app]. 
  assert (forall a b c d (l : list Z), pre ++ a :: b :: c :: d :: l = (pre ++ [a; b; c; d]) ++ l) as C4 by (intros; by rewrite <- app_assoc).
  rewrite C4, wr_list_app by (rewrite ?length_app, ?length_replicate; cbn; lia). rewrite res_bind_ret.
  rewrite Hs, Nat2Z.id. rewrite (rd_bytes_app [] value more) by done. rewrite res_bind_ret.
  rewrite app_assoc, wr_list_app by (rewrite ?length_app, ?length_replicate; cbn; lia). rewrite res_bind_ret.
  rewrite <- !app_assoc. unfold set_le.
  change ([index; Z.of_nat (length name); 0; 0] ++ ?l) with ([index; Z.of_nat (length name)] ++ [0; 0] ++ l).
  rewrite (app_assoc pre), wr_list_app by (rewrite ?length_app, ?length_le_bytes; cbn; lia).
  rewrite u16_id by (unfold is_u16; lia). rewrite <- !app_assoc. unfold enc_xattr. fold tl. unfold x_body. cbn [x_index x_name x_value]. by rewrite <- !app_assoc.
Qed.

Lemma ends_zeros n rest : (4 <= n)%nat -> ends (replicate n 0 ++ rest).
Proof. intros Hn. exists (replicate (n - 4) 0 ++ rest). rewrite app_assoc. f_equal. by replace n with (4 + (n - 4))%nat at 1 by lia. Qed.

Lemma length_pre (hdr : list Z) es : Z.of_nat (length (hdr ++ enc_xattrs es)) = Z.of_nat (length hdr) + xattrs_size es.
Proof. rewrite length_app. unfold xattrs_size. lia. Qed.

(** The list after removing the attribute between [es1] and [es2]. *)
Lemma remove_list hdr es1 x es2 n foot : xattr_ok x ->
  remove_xattr ((hdr ++ enc_xattrs es1) ++ enc_xattrs (x :: es2) ++ replicate n 0 ++ foot) (Z.of_nat (length hdr) + xattrs_size es1)
    (Z.of_nat (length hdr) + xattrs_size es1 + xattrs_size (x :: es2)) =
  Ok (hdr ++ enc_xattrs (es1 ++ es2) ++ replicate (Z.to_nat (x_size x) + n) 0 ++ foot, Z.of_nat (length hdr) + xattrs_size (es1 ++ es2)).
Proof.
  intros Hx. rewrite <- length_pre, remove_xattr_spec by done. rewrite length_pre, xattrs_size_app, Z.add_assoc. do 2 f_equal.
  by rewrite enc_xattrs_app, replicate_add, <- !app_assoc.
Qed.

(** A new attribute at the end of the list [es]. *)
Lemma append_list hdr es n foot index name value more :
  xattr_ok (Xattr index name value) -> x_size (Xattr index name value) <= Z.of_nat n ->
  append_xattr (hdr ++ enc_xattrs es ++ replicate n 0 ++ foot) (Z.of_nat (length hdr) + xattrs_size es) (x_size (Xattr index name value)) index name (value ++ more) (Z.of_nat (length value)) =
  Ok (hdr ++ enc_xattrs (es ++ [Xattr index name value]) ++ replicate (Z.to_nat (xattrs_size es + Z.of_nat n - xattrs_size (es ++ [Xattr index name value]))) 0 ++ foot).
Proof.
  intros Hnew Hn. pose proof (x_size_min (Xattr index name value)). rewrite app_assoc, <- length_pre.
  replace n with (Z.to_nat (x_size (Xattr index name value)) + (n - Z.to_nat (x_size (Xattr index name value))))%nat at 1 by lia. rewrite replicate_add, <- (app_assoc (replicate _ _)).
  rewrite (append_spec (hdr ++ enc_xattrs es)) by (done || by rewrite length_replicate). rewrite enc_xattrs_app, xattrs_size_app, <- !app_assoc. f_equal. do 2 f_equal.
  rewrite enc_xattrs_cons, xattrs_size_cons. change (xattrs_size []) with 0. change (enc_xattrs []) with (@nil Z). rewrite app_nil_r. do 3 f_equal. lia.
Qed.

(** The whole operation on the buffer: it does what [set_xattr] says, and the size it
    gives is that of the list. *)
Lemma set_in_buffer_spec hdr es n foot index name value more flags :
  let b := hdr ++ enc_xattrs es ++ replicate n 0 ++ foot in
  length hdr = 24%nat -> Forall xattr_ok es -> (4 <= n)%nat -> 4072 <= 24 + xattrs_size es + Z.of_nat n -> xattr_ok (Xattr index name value) ->
  set_in_buffer b index name (value ++ more) (Z.of_nat (length value)) flags =
  match set_xattr es index name value flags with
  | inl e => Ok (inl e)
  | inr es' => Ok (inr (hdr ++ enc_xattrs es' ++ replicate (Z.to_nat (xattrs_size es + Z.of_nat n - xattrs_size es')) 0 ++ foot, 24 + xattrs_size es'))
  end.
Proof.
  intros b Hh Hes Hn Hfit Hnew. assert (ends (replicate n 0 ++ foot)) as He by by apply ends_zeros.
  assert (length es < length b)%nat as Hlt.
  { unfold b. rewrite !length_app, length_replicate. pose proof (xattrs_size_count es). unfold xattrs_size in *. lia. }
  unfold set_in_buffer, __find_xattr, last_xattr, XATTR_FIRST_ENTRY, set_xattr, XATTR_HDR_SIZE. change (XATTR_ALIGN _) with (x_size (Xattr index name value)).
  replace 24 with (Z.of_nat (length hdr)) in Hfit |- * by lia.
  destruct (find_xattr_loop_spec (length b) index name es hdr _ Hes He Hlt) as (es1 & es2 & -> & E & R). fold b in E. rewrite E, res_bind_ret. clear E.
  assert (b = (hdr ++ enc_xattrs es1) ++ enc_xattrs es2 ++ replicate n 0 ++ foot) as Eb by (unfold b; by rewrite enc_xattrs_app, <- !app_assoc).
  clearbody b. apply Forall_app in Hes as [Hes1 Hes2]. rewrite length_app in Hlt. rewrite xattrs_size_app in Hfit |- *.
  assert (last_xattr_loop (length b) b (Z.of_nat (length hdr) + xattrs_size es1) = Ok (Z.of_nat (length hdr) + xattrs_size es1 + xattrs_size es2)) as El.
  { rewrite Eb at 2. rewrite <- length_pre. apply last_loop_spec; [done|done|lia]. }
  destruct es2 as [|x es2]; rewrite R.
  - change (xattrs_size []) with 0 in *. rewrite Z.add_0_r in *. rewrite app_nil_r. rewrite Eb, <- length_pre at 1. cbn [enc_xattrs fmap list_fmap concat app] in Eb |- *.
    rewrite last_at_end, res_bind_ret by done. cbn [negb]. rewrite andb_true_r, andb_false_r. destruct (negb (Z.land flags XATTR_REPLACE =? 0)); [done|].
    rewrite El, !res_bind_ret, Z.sub_add_distr.
    destruct (Z.ltb_spec (MIN_OFFSET - Z.of_nat (length hdr) - xattrs_size es1) (x_size (Xattr index name value))) as [|Hr]; [done|].
    rewrite Eb, <- app_assoc, append_list, res_bind_ret; [|done|change MIN_OFFSET with 4068 in Hr; lia].
    rewrite xattrs_size_app, xattrs_size_cons. change (xattrs_size []) with 0. by rewrite Z.add_0_r, Z.add_assoc.
  - apply Forall_cons in Hes2 as [Hx Hes2]. assert (ENTRY_SIZE b (Z.of_nat (length hdr) + xattrs_size es1) = Ok (x_size x)) as Es
      by (rewrite Eb, enc_xattrs_cons, <- (app_assoc (enc_xattr x)); apply entry_size; [done|by rewrite length_pre]).
    rewrite Eb at 1. rewrite enc_xattrs_cons, <- (app_assoc (enc_xattr x)), entry_not_last, res_bind_ret by (done || by rewrite length_pre). cbn [negb].
    rewrite andb_false_r, andb_true_r. destruct (negb (Z.land flags XATTR_CREATE =? 0)); [done|].
    rewrite El, res_bind_ret, Es, !res_bind_ret. rewrite xattrs_size_cons, (xattrs_size_app es1 es2).
    replace (MIN_OFFSET - _ + x_size x) with (MIN_OFFSET - Z.of_nat (length hdr) - (xattrs_size es1 + xattrs_size es2)) by lia.
    destruct (Z.ltb_spec (MIN_OFFSET - Z.of_nat (length hdr) - (xattrs_size es1 + xattrs_size es2)) (x_size (Xattr index name value))) as [|Hr]; [done|].
    pose proof (x_size_min x) as Hm. rewrite Eb, <- (xattrs_size_cons x es2), remove_list, res_bind_ret by done.
    rewrite append_list, res_bind_ret; [|done|rewrite xattrs_size_cons in Hfit; change MIN_OFFSET with 4068 in Hr; lia].
    do 2 f_equal. f_equal; [|rewrite (xattrs_size_app (es1 ++ es2)), xattrs_size_cons; change (xattrs_size []) with 0; lia].
    do 4 f_equal. rewrite xattrs_size_cons, !xattrs_size_app. lia.
Qed.

(** * The attributes of an inode on a volume *)

(** Inode [ino] is [inode] at block [a]; [inl] bytes of its attributes are in it, after the
    checksum, and the others in node [xnid] at block [xa], if that is not 0. The entries of
    both in the table are elsewhere. *)
Record xattr_at (v : vol) (ino a xnid xa inl : Z) (inode : list Z) : Prop := {
  xt_info : exists ni, vol_node_info v ino = Ok ni /\ ni_blk_addr ni = a;
  xt_nat : exists na, nat_addr v ino = Ok na /\ na <> a /\ na <> xa;
  xt_inode : v_disk v !! a = Some inode /\ length inode = 4096%nat /\ bytes inode;
  xt_inl : inline_xattr_size (v_feature v) inode = Ok inl /\ 0 <= inl <= 3600;
  xt_xnid : get_le32 inode ofs_i_xattr_nid = Ok xnid;
  xt_node : xnid <> 0 -> xa <> a /\ (exists na, nat_addr v xnid = Ok na /\ na <> a /\ na <> xa) /\
    (exists ni, vol_node_info v xnid = Ok ni /\ ni_blk_addr ni = xa) /\ (exists blk, v_disk v !! xa = Some blk /\ length blk = 4096%nat /\ bytes blk);
}.

(** The list of attributes, the unused part of their places being zero. *)
Definition has_xattrs (v : vol) (inode : list Z) (xnid : Z) (es : list xattr) : Prop :=
  Forall xattr_ok es /\
  exists hdr n foot, gather_xattrs v inode xnid = Ok (hdr ++ enc_xattrs es ++ replicate n 0 ++ foot) /\ length hdr = 24%nat /\ length foot = 24%nat /\ (4 <= n)%nat.

(** The inode outside of its attributes and the checksum, and, if a node was added, of the
    number of its blocks and the id of that node. *)
Definition same_inode (added : bool) (inl : Z) (inode inode' : list Z) : Prop :=
  forall i, ~ (368 <= i < 372) -> ~ (4052 - inl <= i < 4052) -> (added = true -> ~ (24 <= i < 32) /\ ~ (76 <= i < 80)) -> rd inode' i = rd inode i.

Lemma inline_size_addrs f inode inl : inline_xattr_size f inode = Ok inl -> get_inline_xattr_addrs f inode = Ok (inl / 4) /\ inl = 4 * (inl / 4).
Proof.
  unfold inline_xattr_size. intros (n & E & [= <-])%res_bind_Ok. rewrite E, Z.div_mul by lia. split; [done|lia].
Qed.

Lemma inline_addr f inode inl : inline_xattr_size f inode = Ok inl -> inline_xattr_addr f inode = Ok (4052 - inl).
Proof.
  intros [E H]%inline_size_addrs. unfold inline_xattr_addr. rewrite E, res_bind_ret. f_equal. unfold ofs_i_addr, DEF_ADDRS_PER_INODE. lia.
Qed.

Lemma gather_eq v ino a xnid xa inl inode : xattr_at v ino a xnid xa inl inode ->
  exists blk, length blk = 4096%nat /\ bytes blk /\ (if xnid =? 0 then blk = replicate 4096 0 else v_disk v !! xa = Some blk) /\
    gather_xattrs v inode xnid = Ok (take (Z.to_nat inl) (drop (Z.to_nat (4052 - inl)) inode) ++ blk).
Proof.
  intros [_ _ (_ & Hl & _) [Hs Hr] _ Hn]. unfold gather_xattrs. rewrite Hs, res_bind_ret, (inline_addr _ _ _ Hs), res_bind_ret.
  rewrite rd_bytes_Ok by lia. rewrite res_bind_ret. destruct (Z.eqb_spec xnid 0) as [->|Hx]; cbn [negb].
  { exists (replicate 4096 0). rewrite res_bind_ret. split; [done|]. split; [by apply Forall_replicate|done]. }
  destruct (Hn Hx) as (_ & _ & (ni & -> & <-) & blk & Hb & Hbl & Hbb). exists blk. split; [done|]. split; [done|]. split; [done|].
  by rewrite res_bind_ret, (vol_read_Ok _ _ _ Hb), res_bind_ret.
Qed.

(** Reading and writing for the programs other than fsck. *)
Lemma read_all_eq c st inode xnid es hdr n foot : is_fsck (g_func (sg (v_seg (fk_vol st)))) = false ->
  get_le32 inode ofs_i_xattr_nid = Ok xnid -> gather_xattrs (fk_vol st) inode xnid = Ok (hdr ++ enc_xattrs es ++ replicate n 0 ++ foot) -> length hdr = 24%nat -> bytes hdr ->
  exists hdr', length hdr' = 24%nat /\ bytes hdr' /\ read_all_xattrs c st inode = Ok (st, Some (hdr' ++ enc_xattrs es ++ replicate n 0 ++ foot)).
Proof.
  intros Hf Hx Hg Hh Hhb. unfold read_all_xattrs, check_xattr_nid. rewrite Hx, res_bind_ret, Hf. cbn [andb]. rewrite res_bind_ret, Hg, res_bind_ret. cbn [negb].
  set (rest := enc_xattrs es ++ _). assert (forall i xs, 0 <= i -> i + Z.of_nat (length xs) <= 24 -> forall h, length h = 24%nat ->
    wr_list (h ++ rest) i xs = Ok (splice h i xs ++ rest) /\ length (splice h i xs) = 24%nat) as W.
  { intros i xs H0 Hi h Hhl. split; [|rewrite length_splice; lia]. rewrite wr_list_splice by (rewrite ?length_app; lia). f_equal. unfold splice.
    rewrite take_app_le, drop_app_le by lia. by rewrite <- !app_assoc. }
  destruct (get_le_total 4 (hdr ++ rest) ofs_h_magic) as [m ->]; [unfold ofs_h_magic; lia|rewrite length_app; unfold ofs_h_magic; lia|].
  rewrite res_bind_ret. destruct (m =? _); cbn [negb]; [by exists hdr|]. unfold set_le.
  destruct (W ofs_h_magic (le_bytes 4 F2FS_XATTR_MAGIC) ltac:(done) ltac:(done) hdr Hh) as [-> L1]. rewrite res_bind_ret.
  destruct (W ofs_h_refcount (le_bytes 4 1) ltac:(done) ltac:(done) _ L1) as [-> L2]. rewrite res_bind_ret. eexists. split; [done|]. split; [|done]. auto with f2fs.
Qed.

Lemma bytes_enc es : Forall xattr_ok es -> bytes (enc_xattrs es).
Proof.
  induction 1 as [|x es [Hi Hn Hv [Hb1 Hb2]] _ IH]; [constructor|]. rewrite enc_xattrs_cons. apply Forall_app. split; [|done].
  unfold enc_xattr, x_body. repeat (apply Forall_app; split); try done; [|apply bytes_le_bytes|by apply Forall_replicate].
  repeat constructor; unfold is_u8; lia.
Qed.

Lemma write_xattr_inode v i1 a : is_Some (v_disk v !! a) -> length i1 = 4096%nat -> bytes i1 ->
  exists inode', vol_write_inode v i1 a = Ok (with_vdisk v (<[a := inode']> (v_disk v)), inode') /\ length inode' = 4096%nat /\ bytes inode' /\
    forall i, ~ (368 <= i < 372) -> rd inode' i = rd i1 i.
Proof.
  intros Ha Hl Hb. destruct (vol_write_inode_spec v i1 a Ha Hl Hb) as (inode' & E & L & B & S). exists inode'. split; [done|]. split; [done|]. split; [done|].
  intros i Hi. by apply S.
Qed.

Lemma inline_size_same f inl inode inode' : inline_xattr_size f inode = Ok inl -> (forall i, i = 3 \/ 362 <= i < 364 -> rd inode' i = rd inode i) ->
  inline_xattr_size f inode' = Ok inl.
Proof.
  intros E H. rewrite <- E. unfold inline_xattr_size, get_inline_xattr_addrs. f_equal. unfold ofs_i_inline_xattr_size, ofs_i_inline.
  rewrite H by lia. destruct (negb _); [|done]. apply get_le_ext. intros i Hi. apply H; lia.
Qed.

Section Store.
Context (v : vol) (ino a xnid xa inl : Z) (inode : list Z) (X : xattr_at v ino a xnid xa inl inode).
Context (b' : list Z) (Hb' : bytes b') (Lb' : Z.of_nat (length b') = inl + 4096).

#[local] Abbreviation i1 := (splice inode (4052 - inl) (take (Z.to_nat inl) b')).

Lemma i1_ok : length i1 = 4096%nat /\ bytes i1 /\ forall i, ~ (4052 - inl <= i < 4052) -> rd i1 i = rd inode i.
Proof.
  destruct (xt_inode _ _ _ _ _ _ _ X) as (_ & Hl & Hb). destruct (xt_inl _ _ _ _ _ _ _ X) as [_ Hr].
  assert (length (take (Z.to_nat inl) b') = Z.to_nat inl) as Lt by (rewrite length_take; lia).
  split; [rewrite length_splice; lia|]. split; [apply bytes_splice; [done|by apply bytes_take]|]. intros i Hi. apply rd_splice_ne; lia.
Qed.

Lemma i1_inline : take (Z.to_nat inl) (drop (Z.to_nat (4052 - inl)) i1) = take (Z.to_nat inl) b'.
Proof.
  destruct (xt_inode _ _ _ _ _ _ _ X) as (_ & Hl & _). destruct (xt_inl _ _ _ _ _ _ _ X) as [_ Hr].
  unfold splice. assert (length (take (Z.to_nat (4052 - inl)) inode) = Z.to_nat (4052 - inl)) as L by (rewrite length_take; lia).
  rewrite drop_app_length' by done. rewrite take_app_length'; [done|]. rewrite length_take. lia.
Qed.

(** An inode that agrees with [i1] outside of the checksum has the inline part of the new list. *)
Lemma inline_part inode' : length inode' = 4096%nat -> (forall i, ~ (368 <= i < 372) -> rd inode' i = rd i1 i) ->
  take (Z.to_nat inl) (drop (Z.to_nat (4052 - inl)) inode') = take (Z.to_nat inl) b'.
Proof.
  intros Hl H. destruct i1_ok as (Hl1 & _ & _). destruct (xt_inl _ _ _ _ _ _ _ X) as [_ Hr]. rewrite <- i1_inline.
  apply Ok_inj. rewrite <- !rd_bytes_Ok by lia. apply rd_bytes_ext. intros i Hi. apply H. lia.
Qed.

Lemma write_inline hsize : hsize <= inl -> write_all_xattrs v inode hsize b' = Ok (v, i1).
Proof.
  intros Hh. destruct (xt_inl _ _ _ _ _ _ _ X) as [Hs Hr]. destruct (xt_inode _ _ _ _ _ _ _ X) as (_ & Hl & _). unfold write_all_xattrs.
  rewrite (xt_xnid _ _ _ _ _ _ _ X), res_bind_ret, Hs, res_bind_ret, (inline_addr _ _ _ Hs), res_bind_ret.
  rewrite (rd_bytes_Ok b' 0) by lia. change (drop (Z.to_nat 0) b') with b'. rewrite res_bind_ret, wr_list_splice by (rewrite ?length_take; lia). rewrite res_bind_ret.
  by rewrite (proj2 (Z.leb_le _ _) Hh).
Qed.

Lemma write_node hsize blk : inl < hsize -> xnid <> 0 -> v_disk v !! xa = Some blk -> length blk = 4096%nat -> drop 4072 blk = drop (Z.to_nat (inl + 4072)) b' ->
  write_all_xattrs v inode hsize b' = Ok (with_vdisk v (<[xa := drop (Z.to_nat inl) b']> (v_disk v)), i1).
Proof.
  intros Hh Hx Hd Lb Hfoot. destruct (xt_inl _ _ _ _ _ _ _ X) as [Hs Hr]. destruct (xt_inode _ _ _ _ _ _ _ X) as (_ & Hl & _). unfold write_all_xattrs.
  rewrite (xt_xnid _ _ _ _ _ _ _ X), res_bind_ret, Hs, res_bind_ret, (inline_addr _ _ _ Hs), res_bind_ret.
  rewrite (rd_bytes_Ok b' 0) by lia. change (drop (Z.to_nat 0) b') with b'. rewrite res_bind_ret, wr_list_splice by (rewrite ?length_take; lia). rewrite res_bind_ret.
  rewrite (proj2 (Z.leb_gt _ _) Hh), (proj2 (Z.eqb_neq _ _) Hx). destruct (xt_node _ _ _ _ _ _ _ X Hx) as (_ & _ & (ni & -> & Ea) & _).
  rewrite res_bind_ret, Ea, (vol_read_Ok _ _ _ Hd), !res_bind_ret. rewrite rd_bytes_Ok by lia. rewrite res_bind_ret.
  set (D := drop (Z.to_nat inl) b'). assert (length D = 4096%nat) as LD by (unfold D; rewrite length_drop; lia).
  rewrite wr_list_splice by (rewrite ?length_take; lia). rewrite res_bind_ret, vol_write_Ok by (by rewrite Hd). rewrite res_bind_ret. do 4 f_equal.
  unfold splice. change (Z.to_nat 0) with 0%nat. rewrite take_0, length_take, LD. change (0 + 4072 `min` 4096)%nat with 4072%nat. rewrite Hfoot. cbn [app].
  replace (Z.to_nat (inl + 4072)) with (Z.to_nat inl + 4072)%nat by lia. rewrite <- drop_drop. apply take_drop.
Qed.

(** What is then on the volume [d], where the inode was written with its checksum. *)
Lemma stored_at d inode' : length inode' = 4096%nat -> bytes inode' -> (forall i, ~ (368 <= i < 372) -> rd inode' i = rd i1 i) ->
  d !! a = Some inode' -> (forall x, x <> a -> x <> xa \/ xnid = 0 -> d !! x = v_disk v !! x) ->
  (if xnid =? 0 then drop (Z.to_nat inl) b' = replicate 4096 0 else d !! xa = Some (drop (Z.to_nat inl) b')) ->
  xattr_at (with_vdisk v d) ino a xnid xa inl inode' /\ gather_xattrs (with_vdisk v d) inode' xnid = Ok b'.
Proof.
  intros Hl Hb Hsame Ha Hother Hblk. destruct i1_ok as (_ & _ & Hs1).
  assert (xattr_at (with_vdisk v d) ino a xnid xa inl inode') as X'.
  { destruct X as [(ni & Hni & Ea) (na & Hna & Hn1 & Hn2) (Hi & Hli & Hbi) [Hs Hr] Hx Hn]. constructor.
    - exists ni. split; [|done]. rewrite (node_info_frame _ _ _ _ Hna); [done|]. apply Hother; auto.
    - exists na. by rewrite nat_addr_frame.
    - by rewrite with_vdisk_disk.
    - split; [|done]. apply (inline_size_same _ _ inode); [done|]. intros i Hi1. rewrite Hsame by lia. apply Hs1. lia.
    - rewrite <- Hx. apply get_le_ext. intros i Hi1. unfold ofs_i_xattr_nid in Hi1. rewrite Hsame by lia. apply Hs1. lia.
    - intros Hx0. rewrite (proj2 (Z.eqb_neq _ _) Hx0) in Hblk. destruct (Hn Hx0) as (Hne & (nx & Hnx & Hn3 & Hn4) & (nix & Hnix & Eb) & _).
      split; [done|]. split; [exists nx; by rewrite nat_addr_frame|].
      split; [exists nix; split; [|done]; rewrite (node_info_frame _ _ _ _ Hnx); [done|]; apply Hother; auto|].
      rewrite with_vdisk_disk. eexists. split; [done|]. rewrite length_drop. split; [lia|by apply Forall_drop]. }
  split; [done|]. destruct (gather_eq _ _ _ _ _ _ _ X') as (blk & _ & _ & Hbk & ->). rewrite (inline_part _ Hl Hsame). f_equal.
  rewrite <- (take_drop (Z.to_nat inl) b') at 2. f_equal. rewrite with_vdisk_disk in Hbk. destruct (xnid =? 0); [by rewrite Hbk|].
  rewrite Hblk in Hbk. by injection Hbk.
Qed.
End Store.

Lemma strlen_name (name rest : list Z) : Forall (fun x => x <> 0) name -> c_strlen (name ++ 0 :: rest) = Ok (Z.of_nat (length name)).
Proof.
  induction 1 as [|x name Hx _ IH]; [done|]. cbn [app c_strlen]. rewrite (proj2 (Z.eqb_neq _ _) Hx). rewrite IH, res_bind_ret. f_equal. cbn [length]. lia.
Qed.

(** The part of [f2fs_setxattr] after its guards. *)
Definition store_xattr (v : vol) (inode base : list Z) (hsize a : Z) : res vol :=
  '(v, inode) ← write_all_xattrs v inode hsize base; '(v, _) ← vol_write_inode v inode a; Ok v.

Lemma remove_key_ok index name es x rest : remove_key index name es = Some (x, rest) -> Forall xattr_ok es -> Forall xattr_ok rest.
Proof.
  revert rest. induction es as [|y es IH]; intros rest; [done|]. cbn [remove_key]. intros H Hok. apply Forall_cons in Hok as [Hy Hok].
  destruct (is_key index name y); [by injection H as <- <-|]. destruct (remove_key index name es) as [[z r]|]; [|done].
  injection H as <- <-. apply Forall_cons. split; [done|]. by apply IH.
Qed.

Lemma set_xattr_ok es index name value flags es' : set_xattr es index name value flags = inr es' -> Forall xattr_ok es -> xattr_ok (Xattr index name value) ->
  Forall xattr_ok es' /\ 24 + xattrs_size es' <= MIN_OFFSET.
Proof.
  unfold set_xattr, XATTR_HDR_SIZE. intros H Hok Hnew. destruct (negb _ && _); [done|]. destruct (_ && _); [done|].
  destruct (Z.ltb_spec (MIN_OFFSET - 24 - xattrs_size match remove_key index name es with Some (_, es) => es | None => es end) (x_size (Xattr index name value))) as [|Hr]; [done|].
  injection H as <-. rewrite xattrs_size_app, xattrs_size_cons. change (xattrs_size []) with 0. split; [|lia].
  apply Forall_app. split; [|by apply Forall_singleton]. destruct (remove_key index name es) as [[x r]|] eqn:E; [|done]. by apply (remove_key_ok _ _ _ _ _ E).
Qed.

(** Up to the writes, [f2fs_setxattr] does what [set_xattr] says. *)
Lemma setxattr_reduces c st ino a xnid xa inl inode es name rest value more flags :
  is_fsck (g_func (sg (v_seg (fk_vol st)))) = false -> xattr_at (fk_vol st) ino a xnid xa inl inode -> has_xattrs (fk_vol st) inode xnid es ->
  3 <= ino -> Forall (fun x => x <> 0) name -> xattr_ok (Xattr F2FS_XATTR_INDEX_SECURITY name value) -> Z.of_nat (length value) <= MAX_VALUE_LEN ->
  let call := f2fs_setxattr c st ino F2FS_XATTR_INDEX_SECURITY (Some (name ++ 0 :: rest)) (Some (value ++ more)) (Z.of_nat (length value)) flags in
  match set_xattr es F2FS_XATTR_INDEX_SECURITY name value flags with
  | inl e => call = Ok (e, st)
  | inr es' => exists hdr n foot, length hdr = 24%nat /\ length foot = 24%nat /\ 24 + xattrs_size es' + Z.of_nat n = inl + 4072 /\
      bytes hdr /\ bytes foot /\ (exists pre, gather_xattrs (fk_vol st) inode xnid = Ok (pre ++ foot)) /\
      call = (v ← store_xattr (fk_vol st) inode (hdr ++ enc_xattrs es' ++ replicate n 0 ++ foot) (24 + xattrs_size es') a; Ok (0, with_vol st v))
  end.
Proof.
  intros Hf X [Hok (hdr0 & n & foot & Hg & Hh & Hft & Hn)] Hino Hname Hnew Hv. cbv zeta.
  destruct (gather_eq _ _ _ _ _ _ _ X) as (blk & Lblk & Bblk & _ & Hg').
  destruct (xt_inode _ _ _ _ _ _ _ X) as (Hd & Hl & Hb). destruct (xt_inl _ _ _ _ _ _ _ X) as [_ Hr].
  assert (bytes hdr0 /\ bytes foot /\ 24 + xattrs_size es + Z.of_nat n = inl + 4072) as (Bh & Bf & Hsz).
  { rewrite Hg in Hg'. apply Ok_inj in Hg'. assert (bytes (hdr0 ++ enc_xattrs es ++ replicate n 0 ++ foot)) as B
      by (rewrite Hg'; apply Forall_app; split; [by apply bytes_take, Forall_drop|done]).
    unfold bytes in B. rewrite !Forall_app in B. destruct B as (B1 & _ & _ & B2). split; [done|]. split; [done|].
    apply (f_equal length) in Hg'. rewrite !length_app, length_replicate, length_take, length_drop in Hg'. unfold xattrs_size. lia. }
  destruct (read_all_eq c st inode xnid es hdr0 n foot Hf (xt_xnid _ _ _ _ _ _ _ X) Hg Hh Bh) as (hdr & Lh & Bh' & Hread).
  unfold f2fs_setxattr. rewrite strlen_name, res_bind_ret by done. pose proof (xo_name _ Hnew) as Hnl. cbn [x_name] in Hnl.
  replace ((F2FS_NAME_LEN <? _) || (MAX_VALUE_LEN <? _)) with false
    by (symmetry; apply orb_false_iff; split; apply Z.ltb_ge; [change F2FS_NAME_LEN with 255; lia|done]).
  rewrite (proj2 (Z.ltb_ge _ _) Hino). change (assert_ _) with (Ok tt). rewrite res_bind_ret.
  destruct (xt_info _ _ _ _ _ _ _ X) as (ni & -> & Ea). rewrite res_bind_ret, Ea, (vol_read_Ok _ _ _ Hd), res_bind_ret, Hread, res_bind_ret.
  rewrite Nat2Z.id, take_app_length. pose proof (set_in_buffer_spec hdr es n foot F2FS_XATTR_INDEX_SECURITY name value more flags Lh Hok Hn ltac:(lia) Hnew) as S.
  destruct (set_xattr es _ name value flags) as [e|es'] eqn:E; rewrite S, res_bind_ret; [done|].
  destruct (set_xattr_ok _ _ _ _ _ _ E Hok Hnew) as [Hok' Hmax]. change MIN_OFFSET with 4068 in Hmax.
  exists hdr, (Z.to_nat (xattrs_size es + Z.of_nat n - xattrs_size es')), foot. split; [done|]. split; [done|]. split; [|split; [done|split; [done|split]]].
  - rewrite Z2Nat.id; lia.
  - eexists (hdr0 ++ enc_xattrs es ++ replicate n 0). by rewrite <- !app_assoc.
  - unfold store_xattr. destruct (write_all_xattrs _ _ _ _) as [[v1 i1]| | |]; [|done..]. rewrite !res_bind_ret.
    destruct (vol_write_inode v1 i1 a) as [[v2 i2]| | |]; done.
Qed.

(** The new list fits into the places there are: the inode alone if there is no node, both
    if there is one. *)
Definition places_fit (xnid inl hsize : Z) : Prop := if xnid =? 0 then hsize <= inl else inl < hsize.

(** The list [es] in these places; [added] tells whether the node is new. *)
Record stored (added : bool) (v' : vol) (ino a xnid xa inl : Z) (inode inode' : list Z) (es : list xattr) : Prop := {
  sd_at : xattr_at v' ino a xnid xa inl inode';
  sd_list : has_xattrs v' inode' xnid es;
  sd_inode : same_inode added inl inode inode';
}.

Lemma store_existing v ino a xnid xa inl inode es hdr n foot pre :
  xattr_at v ino a xnid xa inl inode -> gather_xattrs v inode xnid = Ok (pre ++ foot) -> length hdr = 24%nat -> length foot = 24%nat ->
  bytes hdr -> bytes foot -> Forall xattr_ok es -> 24 + xattrs_size es + Z.of_nat n = inl + 4072 -> (4 <= n)%nat -> places_fit xnid inl (24 + xattrs_size es) ->
  exists v' inode', store_xattr v inode (hdr ++ enc_xattrs es ++ replicate n 0 ++ foot) (24 + xattrs_size es) a = Ok v' /\
    stored false v' ino a xnid xa inl inode inode' es /\ forall x, x <> a -> x <> xa \/ xnid = 0 -> v_disk v' !! x = v_disk v !! x.
Proof.
  intros X Hg Lh Lf Bh Bf Hok Hsz Hn Hfit. set (b' := hdr ++ enc_xattrs es ++ replicate n 0 ++ foot).
  assert (bytes b') as Bb by (repeat (apply Forall_app; split); try done; [by apply bytes_enc|by apply Forall_replicate]).
  assert (Z.of_nat (length b') = inl + 4096) as Lb by (unfold b', xattrs_size in *; rewrite !length_app, length_replicate; lia).
  destruct (xt_inode _ _ _ _ _ _ _ X) as (Hd & Hl & Hb). destruct (xt_inl _ _ _ _ _ _ _ X) as [_ Hr].
  destruct (i1_ok v ino a xnid xa inl inode X b' Bb Lb) as (L1 & B1 & S1). set (i1 := splice _ _ _) in *.
  destruct (gather_eq _ _ _ _ _ _ _ X) as (blk & Lblk & Bblk & Eblk & Hg'). rewrite Hg in Hg'. apply Ok_inj in Hg'.
  assert (drop 4072 blk = foot) as Hfoot.
  { assert (length pre = Z.to_nat inl + 4072)%nat as Lp by (apply (f_equal length) in Hg'; rewrite !length_app, length_take, length_drop in Hg'; lia).
    apply (f_equal (drop (length pre))) in Hg'. rewrite drop_app_length, drop_app_ge in Hg' by (rewrite length_take, length_drop; lia).
    rewrite Hg'. f_equal. rewrite length_take, length_drop. lia. }
  assert (drop (Z.to_nat (inl + 4072)) b' = foot) as Hfoot'.
  { unfold b'. rewrite !app_assoc. apply drop_app_length'. rewrite !length_app, length_replicate. unfold xattrs_size in Hsz. lia. }
  unfold store_xattr. unfold places_fit in Hfit. destruct (Z.eqb_spec xnid 0) as [Hx|Hx].
  - rewrite (write_inline v ino a xnid xa inl inode X b' Lb) by done. rewrite res_bind_ret. fold i1.
    destruct (write_xattr_inode v i1 a) as (inode' & -> & L' & B' & S'); [by rewrite Hd|done|done|]. rewrite res_bind_ret.
    destruct (stored_at v ino a xnid xa inl inode X b' Bb Lb (<[a := inode']> (v_disk v)) inode') as [X' G']; try done.
    + apply lookup_insert_eq.
    + intros x Hxa _. by rewrite lookup_insert_ne.
    + rewrite (proj2 (Z.eqb_eq _ _) Hx). unfold b'. rewrite app_assoc, drop_app_ge by (unfold xattrs_size in *; rewrite length_app; lia).
      rewrite Eblk in Hfoot. rewrite <- Hfoot, drop_replicate, <- replicate_add, drop_replicate. f_equal. unfold xattrs_size in *. rewrite length_app. lia.
    + exists (with_vdisk v (<[a := inode']> (v_disk v))), inode'. split; [done|]. rewrite with_vdisk_disk. split; [|intros x Hxa _; by rewrite lookup_insert_ne].
      constructor; [done| |intros i H1 H2 H3; rewrite S', S1; done]. split; [done|]. by exists hdr, n, foot.
  - rewrite (write_node v ino a xnid xa inl inode X b' Lb _ blk) by (done || by rewrite Hfoot, Hfoot'). rewrite res_bind_ret. fold i1.
    destruct (xt_node _ _ _ _ _ _ _ X Hx) as (Hne & _). set (v1 := with_vdisk v (<[xa := _]> _)).
    destruct (write_xattr_inode v1 i1 a) as (inode' & -> & L' & B' & S'); [unfold v1; by rewrite with_vdisk_disk, lookup_insert_ne, Hd|done|done|]. rewrite res_bind_ret.
    unfold v1. rewrite with_vdisk_twice, with_vdisk_disk. set (d' := <[a := inode']> _).
    destruct (stored_at v ino a xnid xa inl inode X b' Bb Lb d' inode') as [X' G']; try done.
    + apply lookup_insert_eq.
    + intros x Hxa [Hxx|?]; [|done]. unfold d'. by rewrite !lookup_insert_ne.
    + rewrite (proj2 (Z.eqb_neq _ _) Hx). unfold d'. by rewrite lookup_insert_ne, lookup_insert_eq.
    + exists (with_vdisk v d'), inode'. split; [done|]. rewrite with_vdisk_disk. split; [|intros x Hxa [Hxx|?]; [|done]; unfold d'; by rewrite !lookup_insert_ne].
      constructor; [done| |intros i H1 H2 H3; rewrite S', S1; done]. split; [done|]. by exists hdr, n, foot.
Qed.

(** A node is added when the list no longer fits into the inode. *)
Section Add.
Context (v : vol) (ns : nat_state) (need : bool) (k : Z) (V : vol_ok v ns need k).
Context (ino a xa inl : Z) (inode : list Z) (X : xattr_at v ino a 0 xa inl inode).
Context (Hino : valid_nid ns ino) (Hbit : nid_bit ns ino = true) (Hbit0 : nid_bit ns 0 = true).
Context (Ha : g_main_blkaddr (sg (v_seg v)) <= a < g_main_blkaddr (sg (v_seg v)) + 512 * g_main_segments (sg (v_seg v))) (Hused : block_used (v_seg v) a = true).
Context (es : list xattr) (hdr foot : list Z) (n : nat).
#[local] Abbreviation b' := (hdr ++ enc_xattrs es ++ replicate n 0 ++ foot).
Context (Lh : length hdr = 24%nat) (Lf : length foot = 24%nat) (Hb' : bytes b') (Hok : Forall xattr_ok es).
Context (Hsz : 24 + xattrs_size es + Z.of_nat n = inl + 4072) (Hn4 : (4 <= n)%nat) (Hadd : inl < 24 + xattrs_size es).

#[local] Abbreviation i1 := (splice inode (4052 - inl) (take (Z.to_nat inl) b')).

Lemma length_b' : Z.of_nat (length b') = inl + 4096.
Proof. unfold xattrs_size in Hsz. rewrite !length_app, length_replicate. lia. Qed.

(** The buffer with the footer of the new node. *)
Lemma data_in_node fresh : length fresh = 4096%nat ->
  splice fresh 0 (take 4072 (drop (Z.to_nat inl) b')) = drop (Z.to_nat inl) (hdr ++ enc_xattrs es ++ replicate n 0 ++ drop 4072 fresh).
Proof.
  intros Lfr. pose proof length_b' as Lb. destruct (xt_inl _ _ _ _ _ _ _ X) as [_ Hr]. unfold splice. change (Z.to_nat 0) with 0%nat. rewrite take_0.
  assert (length (take 4072 (drop (Z.to_nat inl) b')) = 4072%nat) as -> by (rewrite length_take, length_drop; lia). cbn [app].
  assert (forall f, drop (Z.to_nat inl) (hdr ++ enc_xattrs es ++ replicate n 0 ++ f) = drop (Z.to_nat inl) (hdr ++ enc_xattrs es ++ replicate n 0) ++ f) as D.
  { intros f. replace (hdr ++ enc_xattrs es ++ replicate n 0 ++ f) with ((hdr ++ enc_xattrs es ++ replicate n 0) ++ f) by by rewrite <- !app_assoc.
    rewrite drop_app_le; [done|]. rewrite !length_app, length_replicate. unfold xattrs_size in Hsz. lia. }
  rewrite !D. rewrite take_app_length'; [done|]. rewrite length_drop, !length_app, length_replicate. unfold xattrs_size in Hsz. lia.
Qed.

Lemma add_node_spec : write_all_xattrs v inode (24 + xattrs_size es) b' = Die \/
  exists nid blk v2 foot' inode2, write_all_xattrs v inode (24 + xattrs_size es) b' =
      Ok (with_vdisk v2 (<[blk := drop (Z.to_nat inl) (hdr ++ enc_xattrs es ++ replicate n 0 ++ foot')]> (v_disk v2)), inode2) /\
    valid_nid ns nid /\ nid_bit ns nid = false /\ new_node v v2 ns need k nid blk /\ length foot' = 24%nat /\ bytes foot' /\
    length inode2 = 4096%nat /\ bytes inode2 /\ get_le32 inode2 ofs_i_xattr_nid = Ok nid /\ (forall i, ~ (24 <= i < 32) -> ~ (76 <= i < 80) -> rd inode2 i = rd i1 i).
Proof.
  destruct (xt_inl _ _ _ _ _ _ _ X) as [Hs Hr]. destruct (xt_inode _ _ _ _ _ _ _ X) as (_ & Hl & _). pose proof length_b' as Lb. unfold write_all_xattrs.
  rewrite (xt_xnid _ _ _ _ _ _ _ X), res_bind_ret, Hs, res_bind_ret, (inline_addr _ _ _ Hs), res_bind_ret.
  rewrite (rd_bytes_Ok b' 0) by lia. change (drop (Z.to_nat 0) b') with b'. rewrite res_bind_ret, wr_list_splice by (rewrite ?length_take; lia). rewrite res_bind_ret.
  rewrite (proj2 (Z.leb_gt _ _) Hadd). change (0 =? 0) with true. cbn iota. destruct (i1_ok v ino a 0 xa inl inode X b' Hb' Lb) as (L1 & B1 & _).
  destruct (alloc_nid_spec v ns need k V) as [->|(nid & bm & -> & V1 & Hnid & Hfree)]; [by left|]. rewrite res_bind_ret.
  destruct (new_node_block_spec _ _ need k i1 nid XATTR_NODE_OFFSET V1 Hnid L1 B1) as [->|[->|(blk & v2 & fresh & i2 & dn & -> & N & Ed & Lfr & Bfr & Ei & L2 & B2 & S2)]];
    [by left|by left|right].
  rewrite res_bind_ret. unfold node_blk. rewrite Ed, res_bind_ret, Ei. rewrite set_le_Ok by (unfold ofs_i_xattr_nid; lia). rewrite !res_bind_ret.
  apply (new_node_nids v v2 ns need k bm nid blk V (vk_bitmap _ _ _ _ V1)) in N. rewrite rd_bytes_Ok by lia. rewrite res_bind_ret.
  rewrite wr_list_splice by (rewrite ?length_take, ?length_drop; lia). rewrite res_bind_ret, (data_in_node fresh Lfr).
  rewrite vol_write_Ok by (rewrite (nn_disk _ _ _ _ _ _ _ N) by apply (nn_range _ _ _ _ _ _ _ N); by destruct (vk_main _ _ _ _ V blk (nn_range _ _ _ _ _ _ _ N)) as (b & -> & _)).
  rewrite res_bind_ret. assert (is_u32 nid) as Hu by (pose proof (no_max _ _ (vk_nat _ _ _ _ V)); pose proof (no_max32 _ _ (vk_nat _ _ _ _ V)); unfold valid_nid in Hnid; unfold is_u32; cbn in Hnid; lia).
  exists nid, blk, v2, (drop 4072 fresh), (splice i2 ofs_i_xattr_nid (le_bytes 4 nid)). split; [done|]. split; [done|]. split; [done|]. split; [done|].
  unfold ofs_i_xattr_nid. rewrite length_drop, length_splice by (rewrite ?length_le_bytes; lia). split; [lia|]. split; [by apply Forall_drop|]. split; [done|]. split; [auto with f2fs|].
  split; [apply get_set_le; [lia|lia|exact Hu]|]. intros i H1 H2. rewrite rd_splice_ne by (rewrite ?length_le_bytes; lia). by apply S2.
Qed.

Lemma store_added : store_xattr v inode b' (24 + xattrs_size es) a = Die \/
  exists v' inode' nid blk, store_xattr v inode b' (24 + xattrs_size es) a = Ok v' /\ nid <> 0 /\ nid_bit ns nid = false /\ block_used (v_seg v) blk = false /\
    stored true v' ino a nid blk inl inode inode' es /\
    forall x, g_main_blkaddr (sg (v_seg v)) <= x -> x <> a -> x <> blk -> v_disk v' !! x = v_disk v !! x.
Proof.
  unfold store_xattr. destruct add_node_spec as [->|(nid & blk & v2 & foot' & inode2 & -> & Hnid & Hnb & N & Lf' & Bf' & L2 & B2 & G2 & S2)]; [by left|right].
  rewrite res_bind_ret. set (D := drop _ _). set (d2 := <[blk := D]> (v_disk v2)). pose proof (nn_range _ _ _ _ _ _ _ N) as Hr.
  assert (blk <> a) as Hne by (intros ->; by rewrite (nn_free _ _ _ _ _ _ _ N) in Hused).
  destruct (xt_inode _ _ _ _ _ _ _ X) as (Hd & Hl & Hb). destruct (xt_inl _ _ _ _ _ _ _ X) as [Hs Hri].
  assert (d2 !! a = Some inode) as Hda by (unfold d2; rewrite lookup_insert_ne by done; by rewrite (nn_disk _ _ _ _ _ _ _ N) by lia).
  destruct (write_xattr_inode (with_vdisk v2 d2) inode2 a) as (inode' & -> & L' & B' & S'); [by rewrite with_vdisk_disk, Hda|done|done|]. rewrite res_bind_ret.
  rewrite with_vdisk_twice, with_vdisk_disk. set (d3 := <[a := inode']> d2). exists (with_vdisk v2 d3), inode', nid, blk.
  assert (nid <> 0 /\ nid <> ino) as [Hn0 Hni] by (split; intros ->; congruence).
  destruct (i1_ok v ino a 0 xa inl inode X b' Hb' length_b') as (L1 & _ & S1).
  assert (forall x, x < g_main_blkaddr (sg (v_seg v)) -> d3 !! x = v_disk v2 !! x) as Hlow by (intros x Hx; unfold d3, d2; by rewrite !lookup_insert_ne by lia).
  assert (v_feature (with_vdisk v2 d3) = v_feature v) as Ef by (unfold v_feature; cbn; by rewrite (proj1 (nn_same _ _ _ _ _ _ _ N))).
  assert (d3 !! blk = Some D) as Hblk by (unfold d3, d2; by rewrite lookup_insert_ne, lookup_insert_eq).
  set (buf := hdr ++ enc_xattrs es ++ replicate n 0 ++ foot'). assert (length buf = length b' /\ bytes buf) as [Lbuf Bbuf].
  { unfold buf, bytes in *. rewrite !length_app, !Forall_app in *. rewrite Lf, Lf'. destruct Hb' as (A1 & A2 & A3 & _). by repeat split. }
  pose proof length_b' as Lb. assert (length D = 4096%nat /\ bytes D) as [LD BD] by (split; [unfold D; rewrite length_drop; fold buf; lia|by apply Forall_drop]).
  assert (xattr_at (with_vdisk v2 d3) ino a nid blk inl inode') as X'.
  { destruct (nn_nat _ _ _ _ _ _ _ N ino Hino) as (na & Hna & Hna' & Hnl). destruct (nn_nat _ _ _ _ _ _ _ N nid Hnid) as (nb & Hnb1 & Hnb' & Hnbl).
    destruct (xt_info _ _ _ _ _ _ _ X) as (ni & Hni1 & Ea). destruct (nn_info _ _ _ _ _ _ _ N) as (nx & Hnx & Ex). constructor.
    - exists ni. split; [|done]. rewrite (node_info_frame _ _ _ _ Hna'); [|by apply Hlow]. by rewrite (nn_others _ _ _ _ _ _ _ N ino Hino) by congruence.
    - exists na. rewrite nat_addr_frame. split; [done|lia].
    - rewrite with_vdisk_disk. split; [apply lookup_insert_eq|done].
    - split; [|done]. rewrite Ef. apply (inline_size_same _ _ inode); [done|]. intros i Hi. rewrite S', S2, S1 by lia. done.
    - rewrite <- G2. apply get_le_ext. intros i Hi. unfold ofs_i_xattr_nid in Hi. apply S'. lia.
    - intros _. split; [done|]. split; [exists nb; rewrite nat_addr_frame; split; [done|lia]|].
      split; [exists nx; split; [|done]; rewrite (node_info_frame _ _ _ _ Hnb'); [done|by apply Hlow]|]. exists D. by rewrite with_vdisk_disk. }
  split; [done|]. split; [done|]. split; [done|]. split; [apply (nn_free _ _ _ _ _ _ _ N)|]. split; [|intros x Hx H1 H2; rewrite with_vdisk_disk; unfold d3, d2; rewrite !lookup_insert_ne by done; by apply (nn_disk _ _ _ _ _ _ _ N)].
  constructor; [done| |intros i H1 H2 H3; destruct (H3 eq_refl); rewrite S', S2, S1; done]. split; [done|]. exists hdr, n, foot'. split; [|done].
  destruct (gather_eq _ _ _ _ _ _ _ X') as (blk2 & _ & _ & Eb & ->). rewrite (proj2 (Z.eqb_neq _ _) Hn0), with_vdisk_disk, Hblk in Eb. injection Eb as <-.
  f_equal. fold buf. rewrite <- (take_drop (Z.to_nat inl) buf) at 1. fold D. f_equal.
  assert (take (Z.to_nat inl) buf = take (Z.to_nat inl) b') as ->.
  { assert (forall f, take (Z.to_nat inl) (hdr ++ enc_xattrs es ++ replicate n 0 ++ f) = take (Z.to_nat inl) (hdr ++ enc_xattrs es ++ replicate n 0)) as T; [|unfold buf; by rewrite !T].
    intros f. rewrite (app_assoc (enc_xattrs es)), (app_assoc hdr). apply take_app_le. rewrite !length_app, length_replicate. unfold xattrs_size in Hsz. lia. }
  rewrite <- (i1_inline v ino a 0 xa inl inode X b' Lb). apply Ok_inj. rewrite <- !rd_bytes_Ok by lia. apply rd_bytes_ext. intros i Hi. rewrite S', S2 by lia. done.
Qed.
End Add.

(** * Lists as maps *)

Definition key_of (x : xattr) : Z * list Z := (x_index x, x_name x).
Definition get_xattr (es : list xattr) (index : Z) (name : list Z) : option (list Z) := x_value <$> List.find (is_key index name) es.

Lemma is_key_spec index name x : is_key index name x = true <-> key_of x = (index, name).
Proof.
  unfold is_key, key_of. rewrite andb_true_iff, !bool_decide_eq_true. split; [by intros [-> ->]|by intros [= -> ->]].
Qed.

Lemma get_xattr_app es1 es2 index name : get_xattr (es1 ++ es2) index name = match get_xattr es1 index name with Some v => Some v | None => get_xattr es2 index name end.
Proof. unfold get_xattr. induction es1 as [|x es1 IH]; [done|]. cbn [app List.find]. by destruct (is_key index name x). Qed.

Lemma get_xattr_None es index name : (index, name) ∉ (key_of <$> es) -> get_xattr es index name = None.
Proof.
  unfold get_xattr. induction es as [|x es IH]; [done|]. cbn [fmap list_fmap List.find]. intros [H1 H2]%not_elem_of_cons.
  destruct (is_key index name x) eqn:K; [by apply is_key_spec in K|by apply IH].
Qed.

Lemma remove_key_spec index name es : NoDup (key_of <$> es) ->
  let rest := match remove_key index name es with Some (_, es) => es | None => es end in
  NoDup (key_of <$> rest) /\ ((index, name) ∉ (key_of <$> rest)) /\ ((key_of <$> rest) ⊆ (key_of <$> es)) /\
  forall i n, (i, n) <> (index, name) -> get_xattr rest i n = get_xattr es i n.
Proof.
  induction es as [|x es IH]; intros Hnd; cbn [remove_key]; [by repeat split; [|apply not_elem_of_nil|]|]. cbn [fmap list_fmap] in Hnd. apply NoDup_cons in Hnd as [Hx Hnd].
  destruct (is_key index name x) eqn:K.
  - apply is_key_spec in K. split; [done|]. split; [by rewrite <- K|]. split; [cbn [fmap list_fmap]; set_solver|]. intros i n Hne. unfold get_xattr. cbn [List.find].
    destruct (is_key i n x) eqn:K2; [|done]. apply is_key_spec in K2. congruence.
  - destruct (IH Hnd) as (H1 & H2 & H3 & H4). assert ((index, name) <> key_of x) as Hne by (intros E; symmetry in E; apply is_key_spec in E; congruence).
    destruct (remove_key index name es) as [[y r]|]; cbn [fmap list_fmap].
    + split; [apply NoDup_cons; split; [by intros ?%H3|done]|]. split; [apply not_elem_of_cons; done|]. split; [set_solver|].
      intros i n Hin. unfold get_xattr in *. cbn [List.find]. destruct (is_key i n x); [done|by apply H4].
    + split; [by apply NoDup_cons|]. split; [by apply not_elem_of_cons|]. done.
Qed.

(** Setting an attribute in a list is inserting into the map it stands for. *)
Lemma set_xattr_map es index name value flags es' : set_xattr es index name value flags = inr es' -> NoDup (key_of <$> es) ->
  NoDup (key_of <$> es') /\ get_xattr es' index name = Some value /\ forall i n, (i, n) <> (index, name) -> get_xattr es' i n = get_xattr es i n.
Proof.
  intros H Hnd. unfold set_xattr in H. destruct (remove_key_spec index name es Hnd) as (H1 & H2 & _ & H4). cbv zeta in *. set (rest := match remove_key index name es with Some (_, es) => es | None => es end) in *.
  destruct (negb _ && _); [done|]. destruct (_ && _); [done|]. destruct (_ <? _); [done|]. injection H as <-.
  split; [rewrite fmap_app; apply NoDup_app; split; [done|split; [|apply NoDup_singleton]]; intros x Hx Hin%list_elem_of_singleton; by subst x|].
  rewrite get_xattr_app, (get_xattr_None _ _ _ H2). unfold get_xattr at 1. cbn [List.find].
  rewrite (proj2 (is_key_spec index name (Xattr index name value)) eq_refl). split; [done|]. intros i n Hne. rewrite get_xattr_app, (H4 i n Hne).
  destruct (get_xattr es i n); [done|]. unfold get_xattr. cbn [List.find]. destruct (is_key i n (Xattr index name value)) eqn:K; [|done].
  apply is_key_spec in K. by unfold key_of in K.
Qed.

(** * Properties *)


(** A volume under sload with inode 4 at block 7168, which has room for 200 bytes of
    attributes; [attrs] is what is there, [xnid] the node 5 at block 7169 or none. *)
Definition attr_inode (xnid : Z) (attrs : list Z) : list Z :=
  foldl (fun b e => splice b e.1 e.2) zero_block
    [(ofs_i_mode, le_bytes 2 0x81a4); (ofs_i_inline, [F2FS_INLINE_XATTR]); (ofs_i_xattr_nid, le_bytes 4 xnid); (3852, take 200 attrs);
     (ofs_nid, le_bytes 4 4); (ofs_ino, le_bytes 4 4)].
Definition attr_disk (base : disk) (xnid : Z) (attrs : list Z) : disk :=
  <[2560 := nat_entries [(4, 7168); (5, if xnid =? 0 then 0 else 7169)]]>
    (<[7168 := attr_inode xnid attrs]> (<[7169 := splice zero_block 0 (drop 200 attrs)]> base)).
Definition attr_cfg : seg_cfg :=
  let g := sg sample_seg_state in {|
  g_func := SLOAD; g_zoned_hm := g_zoned_hm g; g_super := g_super g; g_ckpt := g_ckpt g; g_log := g_log g; g_segs_per_sec := g_segs_per_sec g;
  g_main_blkaddr := g_main_blkaddr g; g_ssa_blkaddr := g_ssa_blkaddr g; g_main_segments := g_main_segments g; g_segment_count := g_segment_count g;
  g_reserved_segments := g_reserved_segments g; g_user_block_count := g_user_block_count g; g_total_node_count := g_total_node_count g;
  g_sit_base_addr := g_sit_base_addr g; g_sit_blocks := g_sit_blocks g; g_sit_bitmap := g_sit_bitmap g |}.
Definition attr_nm : f2fs_nm_info :=
  let nm := ns_nm (sample_nat (sample_sb 0 1 31 2) []) in {|
  nm_nat_blkaddr := nm_nat_blkaddr nm; nm_nat_blocks := nm_nat_blocks nm; nm_max_nid := nm_max_nid nm; nm_init_scan_nid := 4; nm_next_scan_nid := 4;
  nm_nat_bitmap := nm_nat_bitmap nm; nm_nid_bitmap := 0xfc :: replicate (Z.to_nat 29119) 0 |}.
Definition attr_vol (base : disk) (xnid : Z) (attrs : list Z) : vol := {|
  v_seg := {| sg := attr_cfg; sg_sentries := sg_sentries sample_seg_state; sg_cursegs := sg_cursegs sample_seg_state; sg_counts := sg_counts sample_seg_state;
              sg_main_bitmap := []; sg_sit_area := []; sg_disk := attr_disk base xnid attrs |};
  v_nm := attr_nm; v_entries := []; v_node_ino := 1; v_meta_ino := 2; v_seed := 7; v_alloc_failed := false |}.
Definition attr_st (base : disk) (xnid : Z) (attrs : list Z) : fsck_st := {|
  fk_vol := attr_vol base xnid attrs; fk_nat_area := []; fk_links := []; fk_multi := 0; fk_bug := false; fk_qctx := None; fk_qf := [] |}.
Definition attr_conf : fsck_conf := {|
  k_fix_on := false; k_writable := true; k_preen_mode := 0; k_cur_qtype := -1; k_root_ino := 3; k_casefold := fun _ => None |}.

(** Setting an attribute, and what is returned. *)
Definition set_attr (st : fsck_st) (name value : list Z) (flags : Z) : res (Z * fsck_st) :=
  f2fs_setxattr attr_conf st 4 F2FS_XATTR_INDEX_SECURITY (Some (name ++ [0])) (Some value) (Z.of_nat (length value)) flags.
Definition outcome (r : res (Z * fsck_st)) : option Z := match r with Ok (e, _) => Some e | _ => None end.

(** The volume on a disk whose other blocks are zero. *)
Section Sample.
Context (base : disk) (Hbase : forall x, 1536 <= x < 16384 -> base !! x = Some zero_block).

Lemma attr_has_block x : 1536 <= x < 16384 -> has_block (attr_disk base 0 []) x.
Proof.
  intros Hx. unfold has_block. assert (length zero_block = 4096%nat /\ bytes zero_block) as Hz by (split; [apply length_replicate|apply bytes_zero_block]).
  unfold attr_disk. destruct (decide (x = 2560)) as [->|H1].
  { eexists. split; [apply lookup_insert_eq|]. split; [vm_compute; reflexivity|apply bytes_forallb; vm_compute; reflexivity]. }
  rewrite lookup_insert_ne by done. destruct (decide (x = 7168)) as [->|H2].
  { eexists. split; [apply lookup_insert_eq|]. split; [vm_compute; reflexivity|apply bytes_forallb; vm_compute; reflexivity]. }
  rewrite lookup_insert_ne by done. destruct (decide (x = 7169)) as [->|H3].
  { exists zero_block. split; [|exact Hz]. rewrite lookup_insert_eq. f_equal. }
  rewrite lookup_insert_ne by done. exists zero_block. split; [by apply Hbase|exact Hz].
Qed.

Definition attr_ns : nat_state := {|
  ns_func := SLOAD; ns_fix_on := true; ns_sb := sample_sb 0 1 31 2; ns_log := 9; ns_main_blkaddr := 4096; ns_node_ino := 1; ns_meta_ino := 2;
  ns_nm := attr_nm; ns_sum := zero_block; ns_disk := attr_disk base 0 []; ns_entries := [] |}.

Lemma attr_nat_ok : nat_ok attr_ns 1.
Proof.
  constructor; cbn [attr_ns ns_log ns_sb ns_nm ns_disk ns_sum nm_max_nid nm_nat_blkaddr nm_nat_bitmap attr_nm]; [reflexivity|reflexivity|lia|reflexivity|lia|cbn; lia| | |].
  - split; [apply bytes_forallb; vm_compute; reflexivity|vm_compute; discriminate].
  - intros a Ha. cbn in Ha. apply attr_has_block. lia.
  - split; [apply length_replicate|apply bytes_zero_block].
Qed.

Lemma attr_seg_inv : seg_inv (v_seg (attr_vol base 0 [])) true.
Proof.
  constructor; cbn [attr_vol v_seg sg sg_sentries sg_cursegs]; [constructor| |reflexivity]; try (vm_compute; reflexivity).
  - split; [cbn; lia|vm_compute; reflexivity].
  - split; [cbn; lia|apply Z.divide_1_l].
  - apply Forall_fmap, Forall_true, sample_entry_ok.
Qed.

Lemma attr_books_ok : books_ok (v_seg (attr_vol base 0 [])).
Proof.
  constructor; cbn [attr_vol v_seg sg sg_sentries sg_cursegs sg_disk]; [|split; [reflexivity|]| | |done|done].
  - unfold attr_cfg, zero_block. cbn [g_ckpt sample_seg_state sg]. unfold zero_block. rewrite length_replicate. lia.
  - apply Forall_fmap, Forall_true. intros i. split; [apply length_replicate|apply bytes_zero_block].
  - cbn [attr_cfg g_ssa_blkaddr sample_seg_state sg sg_sentries]. rewrite length_fmap, length_seq. lia.
  - cbn [attr_cfg g_ssa_blkaddr sample_seg_state sg sg_sentries]. rewrite length_fmap, length_seq. intros s Hs. apply attr_has_block. lia.
Qed.

Lemma attr_vol_ok : vol_ok (attr_vol base 0 []) attr_ns true 1.
Proof.
  constructor; [apply attr_seg_inv|apply attr_books_ok|reflexivity|reflexivity|apply attr_nat_ok|split; [vm_compute; reflexivity|lia]| |cbn; lia|].
  - split; cbn [attr_ns ns_nm attr_nm nm_nid_bitmap nm_max_nid sample_nat]; [constructor; [unfold is_u8; lia|by apply Forall_replicate]|].
    unfold nbits. cbn [length]. rewrite length_replicate. lia.
  - cbn [attr_vol v_disk v_seg sg sg_disk attr_cfg g_main_blkaddr g_main_segments sample_seg_state]. intros x Hx. apply attr_has_block. lia.
Qed.

Lemma attr_inode_at : xattr_at (attr_vol base 0 []) 4 7168 0 0 200 (attr_inode 0 []).
Proof.
  assert (v_disk (attr_vol base 0 []) !! 7168 = Some (attr_inode 0 [])) as Hd by (cbn [v_disk attr_vol v_seg sg_disk]; unfold attr_disk; rewrite lookup_insert_ne by done; apply lookup_insert_eq).
  assert (FileTree.nat_addr (attr_vol base 0 []) 4 = Ok 2560) as Hn by (vm_compute; reflexivity).
  constructor; [| |split; [exact Hd|]|split; [vm_compute; reflexivity|lia]|vm_compute; reflexivity|done].
  - rewrite (node_info_eq (attr_vol base 0 []) attr_ns 1 4) by (apply attr_nat_ok || reflexivity || (split; [vm_compute; reflexivity|lia]) || (unfold valid_nid; cbn; lia)).
    unfold block_entry, disk_read_or_die, disk_read. replace (Nat.nat_addr attr_ns 4) with 2560 by (vm_compute; reflexivity).
    change (ns_disk attr_ns) with (attr_disk base 0 []). unfold attr_disk. rewrite lookup_insert_eq, res_bind_ret. eexists. split; [vm_compute; reflexivity|reflexivity].
  - exists 2560. split; [exact Hn|lia].
  - split; [vm_compute; reflexivity|apply bytes_forallb; vm_compute; reflexivity].
Qed.

Lemma attr_inode_empty : has_xattrs (attr_vol base 0 []) (attr_inode 0 []) 0 [].
Proof.
  split; [constructor|]. exists (replicate 24 0), (Z.to_nat 4248), (replicate 24 0). split; [vm_compute; reflexivity|]. by repeat split; try apply Nat.leb_le.
Qed.
End Sample.


(** The attribute [a] with 300 bytes, in the inode and the node. *)
Definition long_attr : list Z := replicate 24 0 ++ enc_xattr (Xattr 6 [97] (replicate 300 97)).

(** A list that shrinks into the inode leaves its old end in the node, since
    [write_all_xattrs] returns before it writes the node. When the list grows again that
    end is read as part of it: replacing the attribute by a short one and adding another both
    succeed, and then the search runs out of the buffer. *)
Theorem setxattr_stale_node : exists st1 st2,
  set_attr (attr_st ∅ 5 long_attr) [97] [1; 2] XATTR_REPLACE = Ok (0, st1) /\ set_attr st1 [98] (replicate 200 1) 0 = Ok (0, st2) /\
  set_attr st2 [99] [3] 0 = Oob.
Proof.
  assert (match ('(e, st) ← set_attr (attr_st ∅ 5 long_attr) [97] [1; 2] XATTR_REPLACE; '(e', st) ← set_attr st [98] (replicate 200 1) 0; Ok (e, e', set_attr st [99] [3] 0)) with
    | Ok (0, 0, Oob) => true | _ => false end = true) as H by (vm_compute; reflexivity).
  destruct (set_attr (attr_st ∅ 5 long_attr) [97] [1; 2] XATTR_REPLACE) as [[e st1]| | |]; [|done..]. rewrite res_bind_ret in H.
  destruct (set_attr st1 [98] (replicate 200 1) 0) as [[e' st2]| | |] eqn:E2; [|done..]. rewrite res_bind_ret in H.
  exists st1, st2. destruct e as [| |]; [|done..]. destruct e' as [| |]; [|done..]. by destruct (set_attr st2 [99] [3] 0).
Qed.
