(* ===== verification/Defrag.v ===== *)
(** Defragmentation (fsck/defrag.c, [do_defrag] of fsck/main.c, [update_data_blkaddr] of
    fsck/mount.c): the blocks of a range are moved to free places elsewhere, and what points
    to them is changed.

    [migrate_block] works on the volume of FileData; [f2fs_defragment] also flushes the
    journals and writes a checkpoint, for which FsckRun has the state. *)
From Stdlib Require Import ZArith Lia List Bool.
From stdpp Require Import base numbers list gmap.
From S2P Require Import Prelude Codec Bits Crc Node Superblock Mkfs Checkpoint Nat Segment Sit Fsck Curseg CkptWrite FileData FsckWalk FsckRun FileTree FileMove.

(** * Moving one block *)

(** The address at [ofs_in_node] of node [nid]: the old address, the volume, and the block in
    [node_blk] afterwards. *)
Definition replace_blkaddr (v : vol) (ni : node_info) (node_blk : list Z) (is_inode : bool) (ofs_in_node newaddr : Z) : res (Z * vol * list Z) :=
  if is_inode then
    ofs ← __get_extra_isize node_blk;
    oldaddr ← get_le32 node_blk (ofs_i_addr + 4 * (ofs + ofs_in_node));
    node_blk ← set_le32 node_blk (ofs_i_addr + 4 * (ofs + ofs_in_node)) newaddr;
    '(v, node_blk) ← vol_write_inode v node_blk (ni_blk_addr ni);
    Ok (oldaddr, v, node_blk)
  else
    oldaddr ← get_le32 node_blk (4 * ofs_in_node);
    node_blk ← set_le32 node_blk (4 * ofs_in_node) newaddr;
    v ← vol_write v (ni_blk_addr ni) node_blk;
    Ok (oldaddr, v, node_blk).

(** "check extent cache entry": an extent with the old address is dropped. *)
Definition drop_extent (v : vol) (ni : node_info) (node_blk : list Z) (oldaddr : Z) : res vol :=
  startaddr ← get_le32 node_blk (ofs_i_ext + 4);
  len ← get_le32 node_blk ofs_i_ext_len;
  let endaddr := u32 (startaddr + len) in
  if (startaddr <=? oldaddr) && (oldaddr <? endaddr) then
    node_blk ← set_le32 node_blk ofs_i_ext_len 0;
    '(v, _) ← vol_write_inode v node_blk (ni_blk_addr ni);
    Ok v
  else Ok v.

Definition update_data_blkaddr (v : vol) (nid ofs_in_node newaddr : Z) : res vol :=
  ni ← vol_node_info v nid;
  node_blk ← vol_read v (ni_blk_addr ni);
  fnid ← get_le32 node_blk ofs_nid;
  fino ← get_le32 node_blk ofs_ino;
  '(oldaddr, v, node_blk) ← replace_blkaddr v ni node_blk (fnid =? fino) ofs_in_node newaddr;
  '(ni, node_blk) ← (if negb (fnid =? fino) then
                       ni ← vol_node_info v fino; b ← vol_read v (ni_blk_addr ni); Ok (ni, b)
                     else Ok (ni, node_blk));
  drop_extent v ni node_blk oldaddr.

(** [se->valid_blocks--] and [++] with the bit of the block. *)
Definition clear_valid (se : seg_entry) (offset : Z) : res seg_entry :=
  '(_, m) ← f2fs_clear_bit offset (se_cur_map se);
  Ok {| se_valid_blocks := u16 (se_valid_blocks se - 1); se_ckpt_valid_blocks := se_ckpt_valid_blocks se; se_cur_map := m; se_ckpt_map := se_ckpt_map se;
        se_type := se_type se; se_orig_type := se_orig_type se; se_ckpt_type := se_ckpt_type se; se_mtime := se_mtime se; se_dirty := true |}.
Definition set_valid (se : seg_entry) (type offset : Z) : res seg_entry :=
  '(_, m) ← f2fs_set_bit offset (se_cur_map se);
  Ok {| se_valid_blocks := u16 (se_valid_blocks se + 1); se_ckpt_valid_blocks := se_ckpt_valid_blocks se; se_cur_map := m; se_ckpt_map := se_ckpt_map se;
        se_type := type; se_orig_type := se_orig_type se; se_ckpt_type := se_ckpt_type se; se_mtime := se_mtime se; se_dirty := true |}.

(** "update sit bitmap & valid_blocks && se->type"; gives the type. *)
Definition move_valid (s : seg_state) (from to : Z) : res (Z * seg_state) :=
  segno ← GET_SEGNO (sg s) from;
  se ← get_seg_entry s segno;
  offset ← OFFSET_IN_SEG (sg s) from;
  let type := se_type se in
  se ← clear_valid se offset;
  s ← set_seg_entry s segno se;
  segno ← GET_SEGNO (sg s) to;
  se ← get_seg_entry s segno;
  offset ← OFFSET_IN_SEG (sg s) to;
  se ← set_valid se type offset;
  s ← set_seg_entry s segno se;
  Ok (type, s).

(** [sum.nid] and [sum.ofs_in_node] *)
Definition ofs_sum_nid : Z := 0.
Definition ofs_sum_ofs_in_node : Z := 5.

(** It always returns 0. *)
Definition migrate_block (v : vol) (from to : Z) : res vol :=
  raw ← vol_read v from;
  v ← vol_write v to raw;
  '(type, s) ← move_valid (v_seg v) from to;
  '(sum, _, _) ← get_sum_entry s (u32 from);
  s ← update_sum_entry s (u32 to) sum;
  let v := with_seg v s in
  nid ← get_le32 sum ofs_sum_nid;
  if IS_DATASEG type then
    ofs ← get_le16 sum ofs_sum_ofs_in_node;
    update_data_blkaddr v nid ofs (u32 to)
  else vol_update_nat v 0 nid (u32 to).

(** * A range *)

(** Blocks [idx] to [idx + n - 1]; the return value of the function if it is left. *)
Fixpoint defragment_loop (n : nat) (v : vol) (idx to left : Z) : res (Z * vol) :=
  match n with
  | O => Ok (0, v)
  | S n =>
      segno ← GET_SEGNO (sg (v_seg v)) idx;
      se ← get_seg_entry (v_seg v) segno;
      offset ← OFFSET_IN_SEG (sg (v_seg v)) idx;
      b ← f2fs_test_bit offset (se_cur_map se);
      if b =? 0 then defragment_loop n v (idx + 1) to left
      else
        '(ret, target, s) ← find_next_free_block (v_seg v) to left (se_type se) false;
        if negb (ret =? 0) then Ok (-1, with_seg v s)
        else v ← migrate_block (with_seg v s) idx target; defragment_loop n v (idx + 1) to left
  end.

(** After the loop: current segments, tables and checkpoint. *)
Definition defragment_finish (r : run_st) (to left : Z) : res run_st :=
  let st := r_fsck r in
  s ← move_curseg_info (fk_seg st) to left;
  s ← zero_journal_entries s;
  s ← write_curseg_info s;
  s ← flush_sit_entries s;
  '(s, _, bug) ← write_checkpoint s (v_nm (fk_vol st)) (r_cur_cp r) false;
  Ok (with_fsck r (assert_msg (with_fseg st s) bug)).

Definition f2fs_defragment (r : run_st) (from len to left : Z) : res (Z * run_st) :=
  r ← flush_journal_entries r;
  let n := if from <? u64 (from + len) then u64 (from + len) - from else 0 in
  '(ret, v) ← defragment_loop (Z.to_nat n) (fk_vol (r_fsck r)) from to left;
  let r := with_fsck r (with_vol (r_fsck r) v) in
  if negb (ret =? 0) then Ok (ret, r)
  else r ← defragment_finish r to left; Ok (0, r).

(** The range of [do_defrag]: [None] where it is rejected, for a read-only volume or as out
    of range, else start, length and target. *)
Definition defrag_range (sb : f2fs_super_block) (main_blkaddr blocks_per_seg start len target : Z) (shrink : bool) : option (Z * Z * Z) :=
  if sb_block_count sb <? start then None
  else
    let start := if start <? main_blkaddr then main_blkaddr else start in
    let len := if len =? 0 then blocks_per_seg else len in
    let len := if sb_block_count sb <? u64 (start + len) then u64 (sb_block_count sb - start) else len in
    let target := if target =? 0 then
                    let t := u64 (start - 1) in if shrink then t else u64 (t + u64 (len + 1))
                  else target in
    if (target <? main_blkaddr) || (sb_block_count sb <? target) then None
    else if (start <=? target) && (target <? u64 (start + len)) then None
    else Some (start, len, target).

Definition do_defrag (r : run_st) (start len target : Z) (shrink : bool) : res (Z * run_st) :=
  let g := sg (fk_seg (r_fsck r)) in
  if RO g then Ok (-1, r)
  else match defrag_range (g_super g) (g_main_blkaddr g) (blocks_per_seg g) start len target shrink with
       | None => Ok (-1, with_fsck r (assert_msg (r_fsck r) true))
       | Some (start, len, target) => f2fs_defragment r start len target (if shrink then 1 else 0)
       end.

(** * Volumes that differ in the segment entries only *)

Record vol_same (v v' : vol) : Prop := {
  vs_cfg : sg (v_seg v') = sg (v_seg v);
  vs_cursegs : sg_cursegs (v_seg v') = sg_cursegs (v_seg v);
  vs_disk : v_disk v' = v_disk v;
  vs_nm : v_nm v' = v_nm v /\ v_entries v' = v_entries v /\ v_node_ino v' = v_node_ino v /\ v_meta_ino v' = v_meta_ino v;
}.

Section Same.
Context (v v' : vol) (S : vol_same v v').

Lemma same_view : nat_view v' = nat_view v.
Proof. destruct S as [S1 S2 S3 (S4 & S5 & S6 & S7)]. unfold nat_view. by rewrite S1, S2, S3, S4, S5, S6, S7. Qed.
Lemma same_nat_addr n : nat_addr v' n = nat_addr v n.
Proof. unfold nat_addr. by rewrite same_view. Qed.
Lemma same_node_info n : vol_node_info v' n = vol_node_info v n.
Proof. unfold vol_node_info. by rewrite same_view. Qed.
Lemma same_read a : vol_read v' a = vol_read v a.
Proof. unfold vol_read. by rewrite (vs_disk _ _ S). Qed.
Lemma same_feature : v_feature v' = v_feature v.
Proof. unfold v_feature. by rewrite (vs_cfg _ _ S). Qed.

Lemma same_walk steps : forall blk first nid a, walk v' steps blk first nid a = walk v steps blk first nid a.
Proof.
  induction steps as [|[off no] steps IH]; intros blk first nid a; [done|]. cbn [walk]. destruct (get_nid blk off first) as [n| | |]; [|done..]. rewrite !res_bind_ret.
  rewrite same_nat_addr, same_node_info. destruct (assert_ _); [|done..]. rewrite !res_bind_ret. destruct (nat_addr v n); [|done..]. rewrite !res_bind_ret.
  destruct (vol_node_info v n) as [ni| | |]; [|done..]. rewrite !res_bind_ret, same_read. destruct (vol_read v (ni_blk_addr ni)) as [b| | |]; [|done..]. by rewrite !res_bind_ret, IH.
Qed.

Lemma same_find_block ino j : find_block v' ino j = find_block v ino j.
Proof.
  unfold find_block. rewrite same_nat_addr, same_node_info, same_feature. destruct (nat_addr v ino); [|done..]. rewrite !res_bind_ret.
  destruct (vol_node_info v ino) as [ni| | |]; [|done..]. rewrite !res_bind_ret, same_read. destruct (vol_read v (ni_blk_addr ni)) as [b| | |]; [|done..]. rewrite !res_bind_ret.
  destruct (get_node_path (v_feature v) b j) as [p| | |]; [|done..]. by rewrite !res_bind_ret, same_walk.
Qed.

Lemma same_file_map {t} ino nb a0 inode A : @file_map t v ino nb a0 inode A -> @file_map t v' ino nb a0 inode A.
Proof.
  intros [F1 F2 F3 F4 F5 F6 F7 F8]. constructor; rewrite ?(vs_disk _ _ S), ?same_feature, ?same_nat_addr, ?same_node_info; try done.
  intros j Hj. rewrite same_find_block. by apply F6.
Qed.

Lemma same_place ino a0 inode j p l nid an blk o : place v ino a0 inode j p l nid an blk o -> place v' ino a0 inode j p l nid an blk o.
Proof. intros [P1 P2 P3]. constructor; [by rewrite same_feature|by rewrite same_walk|done]. Qed.
End Same.

(** * The new address in the node *)

Lemma walk_node_info v steps : forall blk first nid a l nid' a' blk', walk v steps blk first nid a = Ok (l, (nid', a', blk')) -> steps <> [] ->
  exists ni, vol_node_info v nid' = Ok ni /\ ni_blk_addr ni = a'.
Proof.
  induction steps as [|[off no] steps IH]; intros blk first nid a l nid' a' blk' H Hne; [done|]. cbn [walk] in H.
  apply res_bind_Ok in H as (n & _ & H). apply res_bind_Ok in H as (u & _ & H). apply res_bind_Ok in H as (na & _ & H). apply res_bind_Ok in H as (ni & Hni & H).
  apply res_bind_Ok in H as (b & Hb & H). apply res_bind_Ok in H as ([l' r] & Hw & H). injection H as <- ->. destruct steps as [|s steps].
  - cbn [walk] in Hw. injection Hw as <- <- <- <-. by exists ni.
  - by apply (IH _ _ _ _ _ _ _ _ Hw).
Qed.

(** Dropping the extent changes nothing of the map. *)
Lemma drop_extent_spec {t} v ino nb a0 inode A ni old : @file_map t v ino nb a0 inode A -> ni_blk_addr ni = a0 ->
  exists d inode', drop_extent v ni inode old = Ok (with_vdisk v d) /\ @file_map t (with_vdisk v d) ino nb a0 inode' A /\ get_le64 inode' ofs_i_size = get_le64 inode ofs_i_size /\
    forall x, x <> a0 -> d !! x = v_disk v !! x.
Proof.
  intros F Ea. destruct (fm_good _ _ _ _ _ _ F) as [Hl Hb]. unfold drop_extent, ofs_i_ext, ofs_i_ext_len.
  destruct (get_le_total 4 inode (348 + 4)) as [start ->]; [lia|lia|]. destruct (get_le_total 4 inode 356) as [len ->]; [lia|lia|]. rewrite !res_bind_ret.
  destruct (_ && _); [|exists (v_disk v), inode; by rewrite with_vdisk_same]. rewrite set_le_Ok, res_bind_ret, Ea by lia. set (i1 := splice _ _ _).
  assert (length i1 = 4096%nat /\ bytes i1) as [L1 B1] by (split; [unfold i1; rewrite length_splice; rewrite ?length_le_bytes; lia|unfold i1; auto with f2fs]).
  destruct (vol_write_inode_spec v i1 a0) as (i2 & -> & L2 & B2 & S2); [by rewrite (fm_inode _ _ _ _ _ _ F)|done|done|]. rewrite res_bind_ret.
  exists (<[a0 := i2]> (v_disk v)), i2. split; [done|]. split; [|split; [|intros x Hx; by rewrite lookup_insert_ne]].
  2: { apply get_le_ext. unfold ofs_i_size. intros i Hi. rewrite S2 by lia. apply rd_splice_ne; rewrite ?length_le_bytes; lia. }
  apply file_map_inode with (inode := inode); [done| |done|done]. eapply same_trans; [|intros i H1 H2 H3; by apply S2].
  apply same_splice; [lia|rewrite length_le_bytes; lia|right; right; done].
Qed.

(** What moving block [j] of a file to [to] relies on: the place of its address, with a
    footer that names the file; the node is on no other path except as the last node; [to]
    is no block of the file or its nodes. *)
Record movable {t} (v : vol) (ino nb a0 : Z) (inode : list Z) (A : Z -> Z) (j to : Z) (p : node_path) (l : list Z) (nid an : Z) (blk : list Z) (o : Z) : Prop := {
  mv_file : @file_map t v ino nb a0 inode A;
  mv_index : 0 <= j < nb;
  mv_place : place v ino a0 inode j p l nid an blk o;
  mv_blk : length blk = 4096%nat /\ bytes blk;
  mv_owner : get_le32 blk ofs_ino = Ok ino;
  mv_slot : if level p =? 0 then addrs_apart (v_feature v) inode /\ exists e, __get_extra_isize inode = Ok e /\ e + o < 923 else o < 1018;
  mv_once : forall k pk lk nidk ak bk ok, 0 <= k < nb -> place v ino a0 inode k pk lk nidk ak bk ok -> an ∈ lk -> steps_of pk = steps_of p /\ an ∉ removelast lk;
  mv_nat : nat_addr v ino <> Ok an /\ forall k, 0 <= k < nb -> A k <> an;
  mv_to : is_u32 to /\ to <> NULL_ADDR /\ to <> NEW_ADDR /\ to <> a0 /\ to <> an;
  mv_free : forall k, 0 <= k < nb -> to <> A k /\ forall l, find_block v ino k = Ok (l, A k) -> to ∉ l;
  mv_there : exists b, v_disk v !! to = Some b /\ length b = 4096%nat /\ bytes b;
}.

Section Update.
Context {t : Z} (v : vol) (ino nb a0 : Z) (inode : list Z) (A : Z -> Z) (j to : Z) (p : node_path) (l : list Z) (nid an : Z) (blk : list Z) (o : Z).
Context (M : @movable t v ino nb a0 inode A j to p l nid an blk o).

#[local] Abbreviation F := (mv_file _ _ _ _ _ _ _ _ _ _ _ _ _ _ M).
#[local] Abbreviation P := (mv_place _ _ _ _ _ _ _ _ _ _ _ _ _ _ M).
#[local] Abbreviation Hj := (mv_index _ _ _ _ _ _ _ _ _ _ _ _ _ _ M).

Lemma slot_pos : 0 <= o.
Proof.
  destruct (path_next _ _ j p 0 (pl_path _ _ _ _ _ _ _ _ _ _ _ P)) as (n & _ & Hl & _); [apply Hj|lia|].
  rewrite (pl_slot _ _ _ _ _ _ _ _ _ _ _ P) in Hl. lia.
Qed.

(** The node that has the address, its kind, and the address. *)
Lemma slot_node : exists ni, vol_node_info v nid = Ok ni /\ ni_blk_addr ni = an /\ v_disk v !! an = Some blk /\ IS_INODE blk = Ok (level p =? 0) /\ datablock_addr blk o = Ok (A j).
Proof.
  destruct P as [P1 P2 P3]. destruct (fm_block _ _ _ _ _ _ F j Hj) as (lj & Hfj & _). destruct (find_block_inv _ _ _ _ _ _ _ _ F Hfj) as (pj & naj & lj' & nidj & aj & bj & _ & _ & Hpj & Hwj & Hisj & Haj).
  replace pj with p in * by congruence. rewrite P2 in Hwj. injection Hwj as <- <- <- <-. rewrite P3 in Haj.
  pose proof (walk_last _ _ _ _ _ _ _ _ _ _ P2) as W. pose proof (walk_node_info _ _ _ _ _ _ _ _ _ _ P2) as N. destruct (steps_of p) as [|s0 steps0].
  - cbn [walk] in P2. injection P2 as <- <- <- <-. destruct (fm_addr _ _ _ _ _ _ F) as (na & ni & _ & Hni & Ha & _). exists ni. pose proof (fm_inode _ _ _ _ _ _ F). done.
  - destruct W as (_ & _ & Hd). destruct N as (ni & Hni & Ha); [done|]. by exists ni.
Qed.

Lemma slot_kind fnid : get_le32 blk ofs_nid = Ok fnid -> (fnid =? ino) = (level p =? 0).
Proof. intros Hn. destruct slot_node as (_ & _ & _ & _ & Hi & _). unfold IS_INODE in Hi. rewrite Hn, res_bind_ret, (mv_owner _ _ _ _ _ _ _ _ _ _ _ _ _ _ M), res_bind_ret in Hi. by injection Hi. Qed.

Lemma nat_apart : exists na, FileTree.nat_addr v ino = Ok na /\ na <> an.
Proof.
  destruct (fm_addr _ _ _ _ _ _ F) as (na & _ & Hna & _). exists na. split; [done|]. destruct (mv_nat _ _ _ _ _ _ _ _ _ _ _ _ _ _ M) as [Hn _]. by intros ->.
Qed.

(** What the update of the address gives: the file with block [j] at [to]. *)
Definition updated (r : res vol) : Prop := exists d inode', r = Ok (with_vdisk v d) /\ @file_map t (with_vdisk v d) ino nb a0 inode' (moved A j to) /\
  get_le64 inode' ofs_i_size = get_le64 inode ofs_i_size /\ forall x, x <> a0 -> x <> an -> d !! x = v_disk v !! x.

Lemma moved_map d inode' : d !! a0 = Some inode' -> length inode' = 4096%nat -> bytes inode' -> is_mode inode' t = Ok true ->
  (has_feature (v_feature v) F2FS_FEATURE_INODE_CHKSUM = true -> exists e, __get_extra_isize inode' = Ok e /\ 3 <= e) ->
  (forall x, x <> a0 -> x <> an -> d !! x = v_disk v !! x) ->
  (forall k, 0 <= k < nb -> forall l, find_block v ino k = Ok (l, A k) -> find_block (with_vdisk v d) ino k = Ok (l, moved A j to k)) ->
  @file_map t (with_vdisk v d) ino nb a0 inode' (moved A j to).
Proof.
  intros. destruct (mv_to _ _ _ _ _ _ _ _ _ _ _ _ _ _ M) as (T1 & T2 & T3 & T4 & T5). destruct (mv_nat _ _ _ _ _ _ _ _ _ _ _ _ _ _ M) as [_ N].
  apply (file_map_moved v ino nb a0 inode A F j an to); try done; [apply (mv_free _ _ _ _ _ _ _ _ _ _ _ _ _ _ M)|apply (mv_there _ _ _ _ _ _ _ _ _ _ _ _ _ _ M)|apply nat_apart].
Qed.

Lemma update_in_node : (level p =? 0) = false -> updated (update_data_blkaddr v nid o to).
Proof.
  intros Hlev. destruct slot_node as (ni & Hni & Han & Hd & _ & Ha). destruct nat_apart as (na & Hna & Hnan). destruct (mv_blk _ _ _ _ _ _ _ _ _ _ _ _ _ _ M) as [Lb Bb].
  pose proof (mv_slot _ _ _ _ _ _ _ _ _ _ _ _ _ _ M) as Ho. rewrite Hlev in Ho. pose proof slot_pos as Ho0. destruct (mv_to _ _ _ _ _ _ _ _ _ _ _ _ _ _ M) as (T1 & T2 & T3 & T4 & T5).
  pose proof (path_steps _ _ _ _ (pl_path _ _ _ _ _ _ _ _ _ _ _ P)) as Hst. rewrite Hlev in Hst. assert (steps_of p <> []) as Hne by (by destruct (steps_of p)).
  assert (an <> a0) as Haa.
  { destruct (fm_block _ _ _ _ _ _ F j Hj) as (lj & Hfj & Ha0 & _). destruct (find_block_inv _ _ _ _ _ _ _ _ F Hfj) as (pj & naj & lj' & nidj & aj & bj & -> & _ & Hpj & Hwj & _).
    replace pj with p in * by (pose proof (pl_path _ _ _ _ _ _ _ _ _ _ _ P); congruence). rewrite (pl_walk _ _ _ _ _ _ _ _ _ _ _ P) in Hwj. injection Hwj as <- <- <- <-.
    pose proof (walk_last _ _ _ _ _ _ _ _ _ _ (pl_walk _ _ _ _ _ _ _ _ _ _ _ P)) as W. destruct (steps_of p) as [|s0 steps0]; [done|]. destruct W as (l0 & El & _).
    intros ->. apply Ha0. rewrite El. right. apply elem_of_app. right. by apply list_elem_of_singleton. }
  unfold update_data_blkaddr. rewrite Hni, res_bind_ret, Han, (vol_read_Ok _ _ _ Hd), res_bind_ret. unfold ofs_nid at 1. destruct (get_le_total 4 blk 4072) as [fnid Hf]; [lia|lia|].
  rewrite Hf, res_bind_ret, (mv_owner _ _ _ _ _ _ _ _ _ _ _ _ _ _ M), res_bind_ret, (slot_kind fnid Hf), Hlev. unfold replace_blkaddr.
  destruct (get_le_total 4 blk (4 * o)) as [old ->]; [lia|lia|]. rewrite res_bind_ret, set_le_Ok, res_bind_ret, Han, vol_write_Ok by (lia || eauto). rewrite !res_bind_ret. cbn [negb].
  set (blk' := splice _ _ _). set (d1 := <[an := blk']> (v_disk v)).
  assert (@file_map t (with_vdisk v d1) ino nb a0 inode (moved A j to)) as F1.
  { apply (moved_map d1); try done; try apply (fm_good _ _ _ _ _ _ F); try apply (fm_mode _ _ _ _ _ _ F); try apply (fm_extra _ _ _ _ _ _ F).
    - unfold d1. rewrite lookup_insert_ne by done. apply (fm_inode _ _ _ _ _ _ F).
    - intros x _ Hx. unfold d1. by rewrite lookup_insert_ne.
    - intros k Hk lk Hfk. apply (move_in_node v ino nb a0 inode A F j Hj p l nid an blk o P to) with (blk' := blk'); try done; try apply (mv_nat _ _ _ _ _ _ _ _ _ _ _ _ _ _ M). apply (mv_once _ _ _ _ _ _ _ _ _ _ _ _ _ _ M). }
  destruct (fm_addr _ _ _ _ _ _ F1) as (na' & ni' & _ & Hni' & Ha0 & _). rewrite Hni', res_bind_ret, Ha0, (vol_read_Ok _ _ _ (fm_inode _ _ _ _ _ _ F1)), !res_bind_ret.
  destruct (drop_extent_spec _ _ _ _ _ _ ni' old F1 Ha0) as (d2 & inode2 & -> & F2 & Hsz & Hd2). exists d2, inode2. rewrite with_vdisk_twice in *. split_and!; try done.
  intros x H1 H2. rewrite Hd2, with_vdisk_disk by done. unfold d1. by rewrite lookup_insert_ne.
Qed.

Lemma update_in_inode : (level p =? 0) = true -> updated (update_data_blkaddr v nid o to).
Proof.
  intros Hlev. destruct slot_node as (ni & Hni & Han & Hd & _ & Ha). destruct nat_apart as (na & Hna & Hnan). destruct (mv_blk _ _ _ _ _ _ _ _ _ _ _ _ _ _ M) as [Lb Bb].
  pose proof (mv_slot _ _ _ _ _ _ _ _ _ _ _ _ _ _ M) as Ho. rewrite Hlev in Ho. destruct Ho as (Hap & e & He & Ho). pose proof slot_pos as Ho0. destruct (mv_to _ _ _ _ _ _ _ _ _ _ _ _ _ _ M) as (T1 & T2 & T3 & T4 & T5).
  pose proof (path_steps _ _ _ _ (pl_path _ _ _ _ _ _ _ _ _ _ _ P)) as Hst. rewrite Hlev in Hst. assert (steps_of p = []) as Hne by (by destruct (steps_of p)).
  pose proof slot_kind as SK. pose proof moved_map as MM. pose proof F as F0. pose proof P as P0. pose proof (mv_owner _ _ _ _ _ _ _ _ _ _ _ _ _ _ M) as MO. pose proof Hj as Hj0.
  pose proof (pl_walk _ _ _ _ _ _ _ _ _ _ _ P) as W. rewrite Hne in W. cbn [walk] in W. assert (blk = inode /\ an = a0 /\ nid = ino) as (-> & -> & ->) by (injection W; auto).
  destruct (extra_range _ _ He Bb) as [He0 _]. unfold update_data_blkaddr. rewrite Hni, res_bind_ret, Han, (vol_read_Ok _ _ _ Hd), res_bind_ret. unfold ofs_nid at 1. destruct (get_le_total 4 inode 4072) as [fnid Hf]; [lia|lia|].
  rewrite Hf, res_bind_ret, MO, res_bind_ret, (SK fnid Hf), Hlev. unfold replace_blkaddr. rewrite He, res_bind_ret.
  destruct (get_le_total 4 inode (ofs_i_addr + 4 * (e + o))) as [old ->]; [unfold ofs_i_addr; lia|unfold ofs_i_addr; lia|]. rewrite res_bind_ret, set_le_Ok, res_bind_ret, Han by (unfold ofs_i_addr; lia).
  set (i1 := splice _ _ _). assert (length i1 = 4096%nat /\ bytes i1) as [L1 B1].
  { split; [unfold i1, ofs_i_addr; rewrite length_splice; rewrite ?length_le_bytes; lia|unfold i1; auto with f2fs]. }
  destruct (slot_fields (v_feature v) inode e o to Lb Bb He Hap Ho0 Ho) as [Hfix Hvar]. fold i1 in Hfix, Hvar. set (d1 := <[a0 := i1]> (v_disk v)).
  assert (@file_map t (with_vdisk v d1) ino nb a0 i1 (moved A j to)) as F1.
  { apply (MM d1); try done.
    - apply lookup_insert_eq.
    - rewrite (fields_mode _ _ Hfix). apply (fm_mode _ _ _ _ _ _ F0).
    - rewrite (fields_extra _ _ _ Hfix Hvar). apply (fm_extra _ _ _ _ _ _ F0).
    - intros x Hx _. unfold d1. by rewrite lookup_insert_ne.
    - intros k Hk lk Hfk. by apply (move_in_inode v ino nb a0 inode A F0 j Hj0 p l ino a0 inode o P0 to T1 Hap e He (conj Ho0 Ho) Hne). }
  destruct (vol_write_inode_spec v i1 a0) as (i2 & -> & L2 & B2 & S2); [by rewrite Hd|done|done|]. rewrite !res_bind_ret. cbn [negb]. rewrite res_bind_ret.
  pose proof (file_map_inode _ _ _ _ _ i2 _ F1 ltac:(intros i _ _ H3; by apply S2) L2 B2) as F2. rewrite with_vdisk_disk, with_vdisk_twice in F2. unfold d1 in F2. rewrite insert_insert_eq in F2.
  destruct (drop_extent_spec _ _ _ _ _ _ ni old F2 Han) as (d2 & inode2 & -> & F3 & Hsz & Hd2). exists d2, inode2. rewrite with_vdisk_twice in *. split_and!; try done.
  - rewrite Hsz. apply get_le_ext. unfold ofs_i_size. intros i Hi. rewrite S2 by lia. unfold i1, ofs_i_addr. apply rd_splice_ne; rewrite ?length_le_bytes; lia.
  - intros x H1 H2. rewrite Hd2, with_vdisk_disk by done. by rewrite lookup_insert_ne.
Qed.

Lemma update_data_spec : updated (update_data_blkaddr v nid o to).
Proof. destruct (level p =? 0) eqn:E; [by apply update_in_inode|by apply update_in_node]. Qed.
End Update.

(** * The validity maps *)

Section Maps.
Context (st : seg_state) (blk : Z) (Hi : seg_inv st false) (Hblk : g_main_blkaddr (sg st) <= blk < g_main_blkaddr (sg st) + 512 * g_main_segments (sg st)).

Lemma main_entry : exists se, GET_SEGNO (sg st) blk = Ok (seg_index (sg st) blk) /\ OFFSET_IN_SEG (sg st) blk = Ok (seg_off (sg st) blk) /\ get_seg_entry st (seg_index (sg st) blk) = Ok se /\
  se_ok false se /\ sg_sentries st !! Z.to_nat (seg_index (sg st) blk) = Some se /\ block_used st blk = bit_be (se_cur_map se) (seg_off (sg st) blk).
Proof.
  pose proof (si_cfg _ _ Hi) as Hc. pose proof Hblk as Hb. rewrite (co_segs _ _ _ Hc) in Hb. destruct (segno_of false (sg st) _ blk Hc Hb) as [Hs Ho].
  destruct (main_block (sg st) _ blk Hb) as (Hr & _ & _). destruct (seg_entry_at false st _ Hi Hr) as (se & Hg & Hok & Hl). exists se. split_and!; try done.
  unfold block_used. by rewrite Hl.
Qed.

(** An entry whose map differs in the bit of [blk] only. *)
Lemma entry_replaced se se' x : sg_sentries st !! Z.to_nat (seg_index (sg st) blk) = Some se -> se_ok false se' ->
  (forall i, 0 <= i -> bit_be (se_cur_map se') i = if i =? seg_off (sg st) blk then x else bit_be (se_cur_map se) i) ->
  let st' := with_sentries st (<[Z.to_nat (seg_index (sg st) blk) := se']> (sg_sentries st)) in
  set_seg_entry st (seg_index (sg st) blk) se' = Ok st' /\ seg_inv st' false /\
  forall b, g_main_blkaddr (sg st) <= b < g_main_blkaddr (sg st) + 512 * g_main_segments (sg st) -> block_used st' b = if b =? blk then x else block_used st b.
Proof.
  intros Hse Hok Hbits. cbv zeta. destruct (main_block (sg st) _ blk Hblk) as (Hs & Ho & Heq). rewrite (co_segs _ _ _ (si_cfg _ _ Hi)) in Hs. split_and!.
  - unfold set_seg_entry. by rewrite wr_total by lia.
  - destruct Hi as [I1 I2 I3]. constructor; cbn [sg sg_sentries sg_cursegs with_sentries]; [by rewrite length_insert|by apply Forall_insert|done].
  - intros b Hb. pose proof (main_block (sg st) _ b Hb) as (Hs' & Ho' & Heq'). unfold block_used. cbn [sg sg_sentries with_sentries].
    destruct (decide (seg_index (sg st) b = seg_index (sg st) blk)) as [E|E].
    + rewrite E, list_lookup_insert_eq, Hse, Hbits by (try (apply lookup_lt_Some in Hse; lia); lia).
      destruct (Z.eqb_spec b blk); destruct (Z.eqb_spec (seg_off (sg st) b) (seg_off (sg st) blk)); congruence || lia.
    + rewrite list_lookup_insert_ne by lia. destruct (Z.eqb_spec b blk); [congruence|done].
Qed.
End Maps.

Lemma clear_valid_spec se off : se_ok false se -> 0 <= off < 512 -> bit_be (se_cur_map se) off = true ->
  exists se', clear_valid se off = Ok se' /\ se_ok false se' /\ se_type se' = se_type se /\ forall i, 0 <= i -> bit_be (se_cur_map se') i = if i =? off then false else bit_be (se_cur_map se) i.
Proof.
  intros [[L B] N _ _ _] Ho Hbit. assert (0 <= off < nbits (se_cur_map se)) as Hn by (unfold nbits; lia).
  destruct (@bm_clear_ok _ be_bitmap_laws (se_cur_map se) off B Hn) as (x & m & Hc & _ & Lm & Bm & Hbits).
  pose proof (f2fs_clear_bit_popcount off _ x m B Hn Hc) as Hp. rewrite Hbit in Hp. unfold count_le in Hp. pose proof (popcount_bounds _ Bm) as Hb. pose proof (popcount_bounds _ B) as Hb'. unfold nbits in Hb, Hb'.
  unfold clear_valid. change (f2fs_clear_bit off (se_cur_map se) = Ok (x, m)) in Hc. rewrite Hc, res_bind_ret. eexists. split; [done|]. split; [|split; [done|]].
  - constructor; cbn [se_cur_map se_valid_blocks]; [by rewrite Lm| |done..]. rewrite u16_id by (unfold is_u16; lia). lia.
  - cbn [se_cur_map]. intros i Hi. etrans; [by apply Hbits|]. by destruct (i =? off).
Qed.

Lemma set_valid_spec se type off : se_ok false se -> 0 <= off < 512 -> bit_be (se_cur_map se) off = false ->
  exists se', set_valid se type off = Ok se' /\ se_ok false se' /\ se_type se' = type /\ forall i, 0 <= i -> bit_be (se_cur_map se') i = if i =? off then true else bit_be (se_cur_map se) i.
Proof.
  intros [[L B] N _ _ _] Ho Hbit. destruct (set_clear_bit _ _ B L Ho Hbit) as (x & m & Hs & Bm & Lm & Pm & Hbits).
  pose proof (popcount_bounds _ B) as Hb. unfold nbits in Hb. unfold set_valid. rewrite Hs, res_bind_ret. eexists. split; [done|]. split; [|split; [done|]].
  - constructor; cbn [se_cur_map se_valid_blocks]; [done| |done..]. rewrite u16_id by (unfold is_u16; lia). lia.
  - cbn [se_cur_map]. intros i Hi. rewrite Hbits by done. by destruct (i =? off).
Qed.

(** [from] is free afterwards and [to] is used, in a segment that has the type of the other. *)
Lemma move_valid_spec st from to : seg_inv st false -> from <> to -> block_used st from = true -> block_used st to = false ->
  (forall b, b = from \/ b = to -> g_main_blkaddr (sg st) <= b < g_main_blkaddr (sg st) + 512 * g_main_segments (sg st)) ->
  exists se ses, sg_sentries st !! Z.to_nat (seg_index (sg st) from) = Some se /\ move_valid st from to = Ok (se_type se, with_sentries st ses) /\ length ses = length (sg_sentries st) /\
    seg_inv (with_sentries st ses) false /\
    forall b, g_main_blkaddr (sg st) <= b < g_main_blkaddr (sg st) + 512 * g_main_segments (sg st) ->
      block_used (with_sentries st ses) b = if b =? to then true else if b =? from then false else block_used st b.
Proof.
  intros Hi Hne Hu1 Hu2 Hr. pose proof (Hr from (or_introl eq_refl)) as Hf. pose proof (Hr to (or_intror eq_refl)) as Ht.
  destruct (main_entry st from Hi Hf) as (se & S1 & O1 & G1 & K1 & L1 & U1). rewrite Hu1 in U1. destruct (main_block (sg st) _ from Hf) as (_ & Ho1 & _). destruct (main_block (sg st) _ to Ht) as (_ & Ho2 & _).
  destruct (clear_valid_spec se _ K1 Ho1 (eq_sym U1)) as (se1 & Hc1 & K1' & _ & Hb1). destruct (entry_replaced st from Hi Hf se se1 false L1 K1' Hb1) as (W1 & I1 & B1). cbv zeta in *.
  set (st1 := with_sentries st _) in *. assert (block_used st1 to = false) as U2 by (rewrite B1 by done; by destruct (to =? from)).
  destruct (main_entry st1 to I1 Ht) as (se2 & S2 & O2 & G2 & K2 & L2 & U2'). rewrite U2 in U2'. destruct (set_valid_spec se2 (se_type se) _ K2 Ho2 (eq_sym U2')) as (se3 & Hc3 & K3 & _ & Hb3).
  destruct (entry_replaced st1 to I1 Ht se2 se3 true L2 K3 Hb3) as (W3 & I3 & B3). exists se. eexists. split; [done|]. split.
  - unfold move_valid. rewrite S1, res_bind_ret, G1, res_bind_ret, O1, res_bind_ret, Hc1, res_bind_ret, W1, res_bind_ret, S2, res_bind_ret, G2, res_bind_ret, O2, res_bind_ret. change (sg st1) with (sg st) in *. rewrite Hc3, res_bind_ret, W3. reflexivity.
  - split; [by rewrite length_insert; unfold st1; cbn [sg_sentries with_sentries]; rewrite length_insert|]. split; [exact I3|]. intros b Hb. rewrite <- (B1 b Hb). exact (B3 b Hb).
Qed.

(** * The summary of a block *)

(** The segment is none of the current ones of the checkpoint, so that its summary is in the
    summary area. *)
Definition not_current (g : seg_cfg) (segno : Z) : Prop :=
  find_cp_segno 3 (g_ckpt g) ofs_cur_node_segno 0 segno = Ok None /\ find_cp_segno 3 (g_ckpt g) ofs_cur_data_segno 0 segno = Ok None.

Lemma get_sum_entry_frame st st' blk : sg st' = sg st -> sg_cursegs st' = sg_cursegs st ->
  (forall segno, GET_SEGNO (sg st) blk = Ok segno -> sg_disk st' !! GET_SUM_BLKADDR (sg st) segno = sg_disk st !! GET_SUM_BLKADDR (sg st) segno) ->
  get_sum_entry st' blk = get_sum_entry st blk.
Proof.
  intros Hg Hc Hd. unfold get_sum_entry. rewrite Hg. destruct (GET_SEGNO (sg st) blk) as [segno| | |]; [|done..]. rewrite !res_bind_ret.
  assert (get_sum_block st' segno = get_sum_block st segno) as E; [|by rewrite E]. unfold get_sum_block. rewrite Hg, Hc. unfold disk_read_or_die, disk_read. by rewrite Hd.
Qed.

Lemma update_sum_shape st blk sum st' : update_sum_entry st blk sum = Ok st' -> RO (sg st) = false -> seg_inv st false -> books_ok st ->
  g_main_blkaddr (sg st) <= blk < g_main_blkaddr (sg st) + 512 * g_main_segments (sg st) -> not_current (sg st) (seg_index (sg st) blk) ->
  exists b, st' = with_seg_disk st (<[g_ssa_blkaddr (sg st) + seg_index (sg st) blk := b]> (sg_disk st)).
Proof.
  intros H Hro Hi Hb Hblk [N1 N2]. destruct (main_entry st blk Hi Hblk) as (se & S1 & O1 & G1 & _ & L1 & _). destruct (main_block (sg st) _ blk Hblk) as (Hs & _ & _).
  rewrite (co_segs _ _ _ (si_cfg _ _ Hi)) in Hs. unfold update_sum_entry in H. rewrite Hro, S1, res_bind_ret, O1, res_bind_ret, G1, res_bind_ret in H.
  apply res_bind_Ok in H as ([[[b sh] ty] neg] & H1 & H). apply res_bind_Ok in H as (b1 & _ & H). apply res_bind_Ok in H as (b2 & _ & H). unfold get_sum_block in H1. rewrite N1, res_bind_ret, N2, res_bind_ret in H1.
  apply res_bind_Ok in H1 as (c & _ & H1). apply res_bind_Ok in H1 as (i1 & _ & H1). apply res_bind_Ok in H1 as (i2 & _ & H1). injection H1 as <- <- _ _. cbn [store_sum_blk] in H. rewrite res_bind_ret in H.
  apply res_bind_Ok in H as (d & Hd & <-%Ok_inj). rewrite (ssa_addr st _ Hb Hs) in Hd. unfold disk_write_or_die, disk_write in Hd. exists b2. destruct (sg_disk st !! _); [|done]. by apply Ok_inj in Hd as <-.
Qed.

(** * A whole move *)

Section Frame.
Context {t : Z} (v : vol) (ino nb a0 : Z) (inode : list Z) (A : Z -> Z) (j to : Z) (p : node_path) (l : list Z) (nid an : Z) (blk : list Z) (o : Z).
Context (M : @movable t v ino nb a0 inode A j to p l nid an blk o).

Lemma block_walk k pk : 0 <= k < nb -> get_node_path (v_feature v) inode k = Ok pk -> exists na lk r, walk v (steps_of pk) inode true ino a0 = Ok (lk, r) /\ find_block v ino k = Ok (na :: lk, A k) /\ FileTree.nat_addr v ino = Ok na.
Proof.
  intros Hk Hpk. pose proof (mv_file _ _ _ _ _ _ _ _ _ _ _ _ _ _ M) as F. destruct (fm_block _ _ _ _ _ _ F k Hk) as (lf & Hf & _).
  destruct (find_block_inv _ _ _ _ _ _ _ _ F Hf) as (pk' & na & lk & nidk & ak & bk & -> & Hna & Hpk' & Hw & _). replace pk' with pk in * by congruence. by exists na, lk, (nidk, ak, bk).
Qed.

Lemma to_apart x : matters v ino nb a0 A x -> x <> to.
Proof.
  pose proof (mv_free _ _ _ _ _ _ _ _ _ _ _ _ _ _ M) as Hf. destruct (mv_to _ _ _ _ _ _ _ _ _ _ _ _ _ _ M) as (_ & _ & _ & T4 & _).
  destruct (block_walk j p (mv_index _ _ _ _ _ _ _ _ _ _ _ _ _ _ M) (pl_path _ _ _ _ _ _ _ _ _ _ _ (mv_place _ _ _ _ _ _ _ _ _ _ _ _ _ _ M))) as (na & lk & r & _ & Hj & Hna).
  intros [->|[H|(k & Hk & [->|(lk' & Hl & Hx)])]] E.
  - by rewrite E in T4.
  - rewrite Hna in H. injection H as ->. apply (proj2 (Hf j (mv_index _ _ _ _ _ _ _ _ _ _ _ _ _ _ M)) _ Hj). rewrite <- E. left.
  - by apply (proj1 (Hf k Hk)).
  - apply (proj2 (Hf k Hk) _ Hl). by rewrite <- E.
Qed.

Lemma node_matters : matters v ino nb a0 A an.
Proof.
  pose proof (mv_place _ _ _ _ _ _ _ _ _ _ _ _ _ _ M) as P. destruct (block_walk j p (mv_index _ _ _ _ _ _ _ _ _ _ _ _ _ _ M) (pl_path _ _ _ _ _ _ _ _ _ _ _ P)) as (na & lk & r & Hw & Hj & Hna).
  rewrite (pl_walk _ _ _ _ _ _ _ _ _ _ _ P) in Hw. injection Hw as <- <-. pose proof (walk_last _ _ _ _ _ _ _ _ _ _ (pl_walk _ _ _ _ _ _ _ _ _ _ _ P)) as W.
  destruct (steps_of p) as [|s0 steps0]; [left; by destruct W as (_ & -> & _)|]. destruct W as (l0 & El & _). right. right. exists j. split; [apply (mv_index _ _ _ _ _ _ _ _ _ _ _ _ _ _ M)|].
  right. exists (na :: l). split; [done|]. rewrite El. right. apply elem_of_app. right. by apply list_elem_of_singleton.
Qed.

Context (d : disk) (Hd : forall x, matters v ino nb a0 A x -> d !! x = v_disk v !! x).

Lemma walk_matters k pk : 0 <= k < nb -> get_node_path (v_feature v) inode k = Ok pk -> walk (with_vdisk v d) (steps_of pk) inode true ino a0 = walk v (steps_of pk) inode true ino a0.
Proof.
  intros Hk Hpk. destruct (block_walk k pk Hk Hpk) as (na & lk & r & Hw & Hf & _). rewrite Hw. apply walk_frame; [done|]. intros x Hx. apply Hd. right. right. exists k. split; [done|]. right.
  exists (na :: lk). split; [done|by right].
Qed.

Lemma movable_frame : (exists b, d !! to = Some b /\ length b = 4096%nat /\ bytes b) -> @movable t (with_vdisk v d) ino nb a0 inode A j to p l nid an blk o.
Proof.
  intros Hto. pose proof M as [M1 M2 M3 M4 M5 M6 M7 M8 M9 M10 M11]. pose proof (file_map_frame v d ino nb a0 inode A M1 Hd) as F'. constructor; try done.
  - destruct M3 as [P1 P2 P3]. constructor; [done| |done]. by rewrite (walk_matters j p M2 P1).
  - intros k pk lk nidk ak bk ok Hk [Q1 Q2 Q3]. apply (M7 k pk lk nidk ak bk ok Hk). constructor; [done| |done]. by rewrite <- (walk_matters k pk Hk Q1).
  - by rewrite nat_addr_frame.
  - intros k Hk. split; [by apply M10|]. intros lk Hl. destruct (fm_block _ _ _ _ _ _ M1 k Hk) as (lk' & Hf & _).
    assert (find_block (with_vdisk v d) ino k = Ok (lk', A k)) as Hf'.
    { apply (find_block_frame v d ino nb a0 inode A k lk' M1 Hf); [|by rewrite Hd; [apply (fm_inode _ _ _ _ _ _ M1)|left]]. intros x Hx. apply Hd. right. right. exists k. split; [done|]. right. by exists lk'. }
    rewrite Hf' in Hl. injection Hl as <-. by apply (proj2 (M10 k Hk)).
Qed.
End Frame.

Lemma movable_same {t} v v' ino nb a0 inode A j to p l nid an blk o : vol_same v v' -> @movable t v ino nb a0 inode A j to p l nid an blk o -> @movable t v' ino nb a0 inode A j to p l nid an blk o.
Proof.
  intros S [M1 M2 M3 M4 M5 M6 M7 M8 M9 M10 M11]. constructor; try done; rewrite ?(same_feature _ _ S), ?(same_nat_addr _ _ S), ?(vs_disk _ _ S); try done.
  - by apply (same_file_map _ _ S).
  - by apply (same_place _ _ S).
  - intros k pk lk nidk ak bk ok Hk [Q1 Q2 Q3]. apply (M7 k pk lk nidk ak bk ok Hk). constructor; [by rewrite <- (same_feature _ _ S)|by rewrite <- (same_walk _ _ S)|done].
  - intros k Hk. rewrite (same_find_block _ _ S). by apply M10.
Qed.

(** A block of a file can be moved to [to]: the volume is consistent and was unmounted, the
    block is in use and [to] is not; the summary of the block names the node and the slot of
    its address; [to] is in no current segment; the summary area has no part of the file. *)
Record migrates (v : vol) (ino nb a0 : Z) (A : Z -> Z) (from to nid o : Z) (sum : list Z) : Prop := {
  mg_seg : seg_inv (v_seg v) false;
  mg_books : books_ok (v_seg v);
  mg_ro : RO (sg (v_seg v)) = false;
  mg_main : forall b, b = from \/ b = to -> g_main_blkaddr (sg (v_seg v)) <= b < g_main_blkaddr (sg (v_seg v)) + 512 * g_main_segments (sg (v_seg v));
  mg_used : block_used (v_seg v) from = true /\ block_used (v_seg v) to = false;
  mg_type : exists se, sg_sentries (v_seg v) !! Z.to_nat (seg_index (sg (v_seg v)) from) = Some se /\ IS_DATASEG (se_type se) = true;
  mg_entry : exists ty neg, get_sum_entry (v_seg v) from = Ok (sum, ty, neg);
  mg_sum : length sum = 7%nat /\ bytes sum /\ get_le32 sum ofs_sum_nid = Ok nid /\ get_le16 sum ofs_sum_ofs_in_node = Ok o;
  mg_target : not_current (sg (v_seg v)) (seg_index (sg (v_seg v)) to);
  mg_ssa : forall x s, matters v ino nb a0 A x \/ x = to -> 0 <= s < g_main_segments (sg (v_seg v)) -> x <> g_ssa_blkaddr (sg (v_seg v)) + s;
}.

(** A block of the main area has its summary block in the summary area. *)
Lemma sum_blkaddr st blk : seg_inv st false -> books_ok st -> g_main_blkaddr (sg st) <= blk < g_main_blkaddr (sg st) + 512 * g_main_segments (sg st) ->
  GET_SEGNO (sg st) blk = Ok (seg_index (sg st) blk) /\ GET_SUM_BLKADDR (sg st) (seg_index (sg st) blk) = g_ssa_blkaddr (sg st) + seg_index (sg st) blk /\
  0 <= seg_index (sg st) blk < g_main_segments (sg st) /\ u32 blk = blk.
Proof.
  intros Hi Hb Hblk. destruct (main_entry st blk Hi Hblk) as (_ & S & _). destruct (main_block (sg st) _ blk Hblk) as (Hs & _ & _). pose proof (si_cfg _ _ Hi) as Hc. split_and!; try done; try lia.
  - apply ssa_addr; [done|]. by rewrite <- (co_segs _ _ _ Hc).
  - apply u32_id. pose proof (co_end _ _ _ Hc) as He. rewrite <- (co_segs _ _ _ Hc) in He. destruct (co_main _ _ _ Hc) as [Hm _]. unfold is_u32. lia.
Qed.

(** Reading and writing the block, the entries and the summary: what the volume is when the
    address comes to be changed. *)
Lemma migrate_head v ino nb a0 A from to nid o sum raw : migrates v ino nb a0 A from to nid o sum -> from <> to -> v_disk v !! from = Some raw -> is_Some (v_disk v !! to) ->
  exists v1 b, migrate_block v from to = update_data_blkaddr v1 nid o to /\
    vol_same (with_vdisk v (<[g_ssa_blkaddr (sg (v_seg v)) + seg_index (sg (v_seg v)) to := b]> (<[to := raw]> (v_disk v)))) v1 /\ seg_inv (v_seg v1) false /\
    (forall b, g_main_blkaddr (sg (v_seg v)) <= b < g_main_blkaddr (sg (v_seg v)) + 512 * g_main_segments (sg (v_seg v)) ->
       block_used (v_seg v1) b = if b =? to then true else if b =? from then false else block_used (v_seg v) b) /\
    exists ty neg, get_sum_entry (v_seg v1) to = Ok (sum, ty, neg).
Proof.
  intros [G1 G2 G3 G4 [G5 G5'] (se & G6 & G6') (ty & neg & G7) (Ls & Bs & Hnid & Hofs) G9 G10] Hne Hraw Hto. pose proof (G4 from (or_introl eq_refl)) as Mf. pose proof (G4 to (or_intror eq_refl)) as Mt.
  destruct (sum_blkaddr _ _ G1 G2 Mf) as (Sf & Af & Rf & Uf). destruct (sum_blkaddr _ _ G1 G2 Mt) as (St & At & Rt & Ut).
  set (st0 := v_seg (with_vdisk v (<[to := raw]> (v_disk v)))). assert (seg_inv st0 false) as I0 by (destruct G1; by constructor).
  destruct (move_valid_spec st0 from to I0 Hne G5 G5' G4) as (se' & ses & Hse' & Hmv & Hlen & I1 & Hused). change (sg_sentries st0) with (sg_sentries (v_seg v)) in Hse', Hlen. change (sg st0) with (sg (v_seg v)) in Hse'.
  rewrite G6 in Hse'. injection Hse' as <-. set (st1 := with_sentries st0 ses) in *.
  assert (books_ok st1) as B1.
  { destruct G2 as [B1 B2 B3 B4 B5 B6]. unfold st1, st0. constructor; cbn [sg sg_sentries sg_cursegs sg_disk sg_main_bitmap sg_sit_area with_sentries v_seg with_vdisk with_seg with_seg_disk]; rewrite ?Hlen; try done.
    intros s Hs. destruct (B4 s Hs) as (x & Hx & Hx'). exists x. rewrite lookup_insert_ne; [done|]. apply (G10 to s); [by right|]. by rewrite (co_segs _ _ _ (si_cfg _ _ G1)). }
  assert (get_sum_entry st1 from = Ok (sum, ty, neg)) as E1.
  { rewrite <- G7. apply get_sum_entry_frame; [done|done|]. intros segno Hs. rewrite Sf in Hs. injection Hs as <-. rewrite Af. unfold st1, st0. cbn [sg_disk with_sentries v_seg with_vdisk with_seg with_seg_disk].
    rewrite lookup_insert_ne; [done|]. apply G10; [by right|done]. }
  destruct (update_sum_entry_spec false st1 to sum I1 B1 Ls Bs Mt) as (st2 & Hup & [SS Se _ B2] & Hget). destruct (update_sum_shape st1 to sum st2 Hup G3 I1 B1 Mt G9) as (b & E2).
  exists (with_seg (with_vdisk v (<[to := raw]> (v_disk v))) st2), b. split_and!.
  - unfold migrate_block. rewrite (vol_read_Ok _ _ _ Hraw), res_bind_ret, vol_write_Ok, res_bind_ret by done. fold st0. rewrite Hmv, res_bind_ret, Uf, Ut, E1, res_bind_ret, Hup, res_bind_ret, Hnid, res_bind_ret, G6', Hofs, res_bind_ret. done.
  - rewrite E2. by constructor.
  - by apply (st_same_inv st1).
  - intros x Hx. cbn [v_seg with_seg]. rewrite (st_same_used st1 st2 x SS). by apply Hused.
  - by apply Hget.
Qed.

(** C18: moving a data block of a regular file of any depth ([migrate_block]) keeps the
    file: the block is found at the new place through the inode or node that has its address,
    the other blocks where they were, and every byte and the size are the same. The old
    place is free, the new one is used, no other block changes its state, and the summary of
    the new place names the node and the slot. *)
Theorem migrate_block_keeps_file (v : vol) (ino nb a0 : Z) (inode : list Z) (A : Z -> Z) (size : Z) (data : Z -> Z) (j to : Z)
    (p : node_path) (l : list Z) (nid an : Z) (blk : list Z) (o : Z) (sum : list Z) :
  file_at v ino nb a0 A size data ->
  movable (t := LINUX_S_IFREG) v ino nb a0 inode A j to p l nid an blk o ->
  migrates v ino nb a0 A (A j) to nid o sum ->
  exists v', migrate_block v (A j) to = Ok v' /\ file_at v' ino nb a0 (moved A j to) size data /\ seg_inv (v_seg v') false /\
    (forall b, g_main_blkaddr (sg (v_seg v)) <= b < g_main_blkaddr (sg (v_seg v)) + 512 * g_main_segments (sg (v_seg v)) ->
       block_used (v_seg v') b = if b =? to then true else if b =? A j then false else block_used (v_seg v) b) /\
    exists ty neg, get_sum_entry (v_seg v') to = Ok (sum, ty, neg).
Proof.
  intros (inode' & F & Hsz & Hbig & Hdata) M G. pose proof (mv_file _ _ _ _ _ _ _ _ _ _ _ _ _ _ M) as F0. pose proof (mv_index _ _ _ _ _ _ _ _ _ _ _ _ _ _ M) as Hj.
  assert (inode' = inode) as -> by (pose proof (fm_inode _ _ _ _ _ _ F); pose proof (fm_inode _ _ _ _ _ _ F0); congruence).
  destruct (fm_data _ _ _ _ _ _ F j Hj) as (_ & _ & _ & raw & Hraw & Graw). destruct (mv_there _ _ _ _ _ _ _ _ _ _ _ _ _ _ M) as (old & Hold & _).
  assert (A j <> to) as Hne by (apply not_eq_sym; apply (mv_free _ _ _ _ _ _ _ _ _ _ _ _ _ _ M j Hj)).
  destruct (migrate_head _ _ _ _ _ _ _ _ _ _ raw G Hne Hraw ltac:(by exists old)) as (v1 & b & -> & S & I1 & Hu & ty & neg & Hs). set (d1 := <[_ := b]> _) in *.
  pose proof G as [G1 G2 _ G4 _ _ _ _ _ G10]. destruct (sum_blkaddr _ _ G1 G2 (G4 to (or_intror eq_refl))) as (St & At & Rt & _).
  assert (forall x, matters v ino nb a0 A x -> d1 !! x = v_disk v !! x) as Hd1.
  { intros x Hx. unfold d1. rewrite !lookup_insert_ne; [done| |]; apply not_eq_sym; [by apply (to_apart _ _ _ _ _ _ _ _ _ _ _ _ _ _ M)|apply G10; [by left|done]]. }
  assert (d1 !! to = Some raw) as Hto.
  { unfold d1. rewrite lookup_insert_ne, lookup_insert_eq; [done|]. apply not_eq_sym, G10; [by right|done]. }
  assert (movable (t := LINUX_S_IFREG) v1 ino nb a0 inode A j to p l nid an blk o) as M1.
  { apply (movable_same _ _ _ _ _ _ _ _ _ _ _ _ _ _ _ S). apply movable_frame; [done|done|by exists raw]. }
  destruct (update_data_spec _ _ _ _ _ _ _ _ _ _ _ _ _ _ M1) as (d2 & inode2 & -> & F2 & Hsz2 & Hd2). exists (with_vdisk v1 d2). rewrite (vs_disk _ _ S), with_vdisk_disk in Hd2.
  assert (forall x, 0 <= x < 4096 * nb -> 0 <= x / 4096 < nb) as Hdiv by (intros x Hx; split; [apply Z.div_pos|apply Z.div_lt_upper_bound]; lia).
  split; [done|]. split; [|split; [by destruct I1|split; [exact Hu|]]].
  - exists inode2. split; [done|]. split; [by rewrite Hsz2|]. split; [done|]. intros x Hx. rewrite <- (Hdata x Hx). specialize (Hdiv x Hx). unfold data_at, moved. rewrite with_vdisk_disk.
    destruct (mv_to _ _ _ _ _ _ _ _ _ _ _ _ _ _ M) as (_ & _ & _ & T4 & T5). destruct (Z.eqb_spec (x / 4096) j) as [->|_].
    + by rewrite Hd2, Hto, Hraw.
    + destruct (fm_data _ _ _ _ _ _ F _ Hdiv) as (_ & _ & Ha & _). rewrite Hd2 by (done || by apply (mv_nat _ _ _ _ _ _ _ _ _ _ _ _ _ _ M)). rewrite Hd1; [done|]. right. right. exists (x / 4096). auto.
  - exists ty, neg. rewrite <- Hs. apply get_sum_entry_frame; [done|done|]. intros segno Hseg. rewrite (vs_cfg _ _ S) in Hseg |- *. change (sg (v_seg (with_vdisk v d1))) with (sg (v_seg v)) in *.
    rewrite St in Hseg. injection Hseg as <-. rewrite At. change (sg_disk (v_seg (with_vdisk v1 d2))) with d2. change (sg_disk (v_seg v1)) with (v_disk v1). rewrite (vs_disk _ _ S), with_vdisk_disk.
    apply Hd2; apply not_eq_sym, G10; try done; left; [by left|by apply (node_matters _ _ _ _ _ _ _ _ _ _ _ _ _ _ M)].
Qed.

(** * A sample *)

(** The volume of file 4 with the tables of the segments: the blocks of the file are 368 to
    372 of segment 3, the inode and the node in segment 1; block 3 of the file, whose bytes
    are 9, has its address in node 5. *)
Definition move_entry (i : nat) : seg_entry :=
  let m := match i with
           | 1%nat => replicate 49 0 ++ [0xc0] ++ replicate 14 0
           | 3%nat => replicate 46 0 ++ [0xf8] ++ replicate 17 0
           | _ => replicate 64 0
           end in {|
  se_valid_blocks := popcount m; se_ckpt_valid_blocks := 0; se_cur_map := m; se_ckpt_map := replicate 64 0;
  se_type := (if (i =? 1)%nat then CURSEG_WARM_NODE else 0); se_orig_type := 0; se_ckpt_type := 0; se_mtime := 0; se_dirty := false |}.
Definition move_cfg : seg_cfg := {|
  g_func := DEFRAG; g_zoned_hm := false; g_super := sample_file_sb; g_ckpt := splice zero_block ofs_ckpt_flags (le_bytes 4 CP_UMOUNT_FLAG); g_log := 9;
  g_segs_per_sec := 1; g_main_blkaddr := 4096; g_ssa_blkaddr := 3584; g_main_segments := 24; g_segment_count := 31; g_reserved_segments := 8;
  g_user_block_count := 8000; g_total_node_count := 1000; g_sit_base_addr := 1536; g_sit_blocks := 512; g_sit_bitmap := replicate 64 0 |}.
Definition move_sums : list Z := splice zero_block (7 * 368) (mjoin [set_summary 4 0 0; set_summary 4 1 0; set_summary 4 2 0; set_summary 5 0 0; set_summary 5 1 0]).
Definition move_file : disk :=
  <[2560 := nat_entries [(4, 5000); (5, 5001)]]> (<[5000 := file_inode 20480 [6000; 6001; 6002] 5]> (<[5001 := file_dnode [6003; 6004] 5]> (<[6003 := replicate 4096 9]> (zero_disk 6000 5)))).
Definition move_disk : disk := <[3587 := move_sums]> (zero_disk 3584 24) ∪ move_file ∪ zero_disk 7168 2.
Definition move_vol : vol := {|
  v_seg := {| sg := move_cfg; sg_sentries := move_entry <$> seq 0 24; sg_cursegs := sg_cursegs sample_seg_state; sg_counts := sg_counts sample_seg_state;
              sg_main_bitmap := []; sg_sit_area := []; sg_disk := move_disk |};
  v_nm := ns_nm (sample_nat sample_file_sb []); v_entries := []; v_node_ino := 1; v_meta_ino := 2; v_seed := 7; v_alloc_failed := false |}.
Definition move_addr (j : Z) : Z := 6000 + j.
Definition move_data (x : Z) : Z := if x / 4096 =? 3 then 9 else 0.
#[local] Abbreviation move_inode := (file_inode 20480 [6000; 6001; 6002] 5).

Lemma move_find j : 0 <= j < 5 -> exists l, find_block move_vol 4 j = Ok (l, move_addr j) /\ (l = [2560] \/ l = [2560; 2560; 5001]).
Proof. intros Hj. each j Hj; eexists; (split; [vm_compute; reflexivity|first [left; reflexivity|right; reflexivity]]). Qed.

Lemma move_block j : 0 <= j < 5 -> v_disk move_vol !! move_addr j = Some (replicate 4096 (if j =? 3 then 9 else 0)).
Proof. intros Hj. each j Hj; vm_compute; reflexivity. Qed.

Lemma move_file_at : file_at move_vol 4 5 5000 move_addr 20480 move_data.
Proof.
  destruct (sample_file_inode 20480 (or_intror eq_refl)) as (Hl & Hb & Hm & He & Hz). exists move_inode. split; [|split; [exact Hz|split; [lia|]]].
  - constructor.
    + exists 2560. eexists. split_and!; [vm_compute; reflexivity|vm_compute; reflexivity|reflexivity|lia].
    + vm_compute. reflexivity.
    + split; [exact Hl|exact Hb].
    + exact Hm.
    + intros _. exists 920. split; [exact He|lia].
    + intros j Hj. destruct (move_find j Hj) as (l & Hf & Hl'). exists l. split; [exact Hf|]. clear Hl Hb Hm He Hz Hf. unfold move_addr.
      destruct Hl' as [->| ->]; (split; [|intros k Hk]; rewrite !not_elem_of_cons; split_and!; try lia; apply not_elem_of_nil).
    + intros j Hj. unfold move_addr at 1 2 3. split; [unfold NULL_ADDR; lia|]. split; [change NEW_ADDR with (2 ^ 32 - 1); lia|]. split; [lia|]. eexists. split; [by apply move_block|].
      split; [apply length_replicate|]. apply Forall_replicate. unfold is_u8. destruct (j =? 3); lia.
    + unfold move_addr. lia.
  - intros x Hx. unfold data_at, move_data. rewrite move_block by (split; [apply Z.div_pos|apply Z.div_lt_upper_bound]; lia). cbn [mbind option_bind]. apply lookup_replicate_2.
    pose proof (Z.mod_pos_bound x 4096 ltac:(lia)). lia.
Qed.

Lemma move_walk k pk lk r : 0 <= k < 5 -> get_node_path (v_feature move_vol) move_inode k = Ok pk -> walk move_vol (steps_of pk) move_inode true 4 5000 = Ok (lk, r) ->
  lk = [] \/ steps_of pk = [(NODE_DIR1_BLOCK, 1)] /\ lk = [2560; 5001].
Proof.
  intros Hk Hp Hw. assert (exists l', find_block move_vol 4 k = Ok (l', move_addr k)) as (l' & Hf) by (destruct (move_find k Hk) as (l' & Hf & _); by exists l').
  destruct move_file_at as (i & F & _). assert (i = move_inode) as -> by (pose proof (fm_inode _ _ _ _ _ _ F) as Hi; vm_compute in Hi; injection Hi as <-; vm_compute; reflexivity).
  destruct (find_block_inv _ _ _ _ _ _ _ _ F Hf) as (pk' & na & lk' & n' & a' & b' & -> & _ & Hp' & Hw' & _). replace pk' with pk in * by congruence. rewrite Hw in Hw'. injection Hw' as -> _.
  destruct (move_find k Hk) as (l2 & Hf2 & Hl2). rewrite Hf in Hf2. injection Hf2 as <-. destruct Hl2 as [[= _ ->]|[= _ ->]]; [by left|right]. split; [|done]. clear - Hk Hp Hw.
  each k Hk; vm_compute in Hp; injection Hp as <-; [discriminate Hw..| |]; reflexivity.
Qed.

Lemma move_matters x : matters move_vol 4 5 5000 move_addr x -> x = 5000 \/ x = 2560 \/ x = 5001 \/ 6000 <= x < 6005.
Proof.
  intros [Hx|[Hx|(j & Hj & [Hx|(l & Hf & Hx)])]]; [by left| |unfold move_addr in Hx; lia|].
  - vm_compute in Hx. injection Hx as <-. auto.
  - destruct (move_find j Hj) as (l' & Hf' & Hl). rewrite Hf' in Hf. injection Hf as <-.
    destruct Hl as [->| ->]; repeat (apply elem_of_cons in Hx as [Hx|Hx]; [lia|]); by apply not_elem_of_nil in Hx.
Qed.

Definition move_path : node_path := {| level := 1; offset := [NODE_DIR1_BLOCK; 0]; noffset := [0; 1] |}.

Lemma move_movable : movable (t := LINUX_S_IFREG) move_vol 4 5 5000 move_inode move_addr 3 7168 move_path [2560; 5001] 5 5001 (file_dnode [6003; 6004] 5) 0.
Proof.
  destruct move_file_at as (i & F & _). assert (i = move_inode) as -> by (pose proof (fm_inode _ _ _ _ _ _ F) as Hi; vm_compute in Hi; injection Hi as <-; vm_compute; reflexivity).
  constructor; [exact F|lia|constructor; vm_compute; reflexivity| |vm_compute; reflexivity|cbn; lia| | | | |].
  - split; [vm_compute; reflexivity|]. apply bytes_forallb. vm_compute. reflexivity.
  - intros k pk lk nidk ak bk ok Hk [Q1 Q2 _] Hin. destruct (move_walk k pk lk _ Hk Q1 Q2) as [->|[-> ->]]; [by apply not_elem_of_nil in Hin|]. split; [reflexivity|].
    cbn [removelast]. rewrite list_elem_of_singleton. lia.
  - split; [vm_compute; discriminate|]. unfold move_addr. lia.
  - change NEW_ADDR with (2 ^ 32 - 1). unfold is_u32, NULL_ADDR. lia.
  - intros k Hk. unfold move_addr at 1. split; [lia|]. intros l Hl Hin. destruct (move_find k Hk) as (l' & Hf & Hl'). rewrite Hf in Hl. injection Hl as <-.
    destruct Hl' as [->| ->]; repeat (apply elem_of_cons in Hin as [Hin|Hin]; [lia|]); by apply not_elem_of_nil in Hin.
  - exists zero_block. split; [vm_compute; reflexivity|]. split; [apply length_replicate|apply bytes_zero_block].
Qed.

Lemma move_entry_ok i : se_ok false (move_entry i).
Proof.
  unfold move_entry. do 4 (destruct i as [|i]; [constructor; [split; [reflexivity|apply bytes_forallb; vm_compute; reflexivity]|reflexivity|discriminate..]|]).
  constructor; [split; [reflexivity|apply bytes_forallb; vm_compute; reflexivity]|reflexivity|discriminate..].
Qed.

Lemma move_seg_inv : seg_inv (v_seg move_vol) false.
Proof.
  constructor; [constructor| |reflexivity]; try (vm_compute; reflexivity).
  - split; [cbn; lia|vm_compute; reflexivity].
  - split; [cbn; lia|apply Z.divide_1_l].
  - apply Forall_fmap, Forall_true, move_entry_ok.
Qed.

Lemma move_books_ok : books_ok (v_seg move_vol).
Proof.
  constructor; cbn [move_vol v_seg sg sg_sentries sg_cursegs sg_disk]; [|split; [reflexivity|]| | |done|done].
  - vm_compute. lia.
  - apply Forall_fmap, Forall_true. intros i. split; [apply length_replicate|apply bytes_zero_block].
  - rewrite length_fmap, length_seq. cbn. lia.
  - rewrite length_fmap, length_seq. intros s Hs. destruct (decide (s = 3)) as [->|Hne].
    + exists move_sums. split; [vm_compute; reflexivity|]. split; [vm_compute; reflexivity|apply bytes_forallb; vm_compute; reflexivity].
    + exists zero_block. split; [|split; [apply length_replicate|apply bytes_zero_block]]. cbn [move_cfg g_ssa_blkaddr]. unfold move_disk.
      apply lookup_union_Some_l, lookup_union_Some_l. rewrite lookup_insert_ne by lia. apply zero_disk_lookup. lia.
Qed.

Lemma move_migrates : migrates move_vol 4 5 5000 move_addr 6003 7168 5 0 (set_summary 5 0 0).
Proof.
  constructor; [exact move_seg_inv|exact move_books_ok|vm_compute; reflexivity| |split; vm_compute; reflexivity| |do 2 eexists; vm_compute; reflexivity| |split; vm_compute; reflexivity|].
  - intros b Hb. cbn. lia.
  - eexists. split; [vm_compute; reflexivity|reflexivity].
  - split; [reflexivity|]. split; [apply bytes_forallb; vm_compute; reflexivity|]. split; vm_compute; reflexivity.
  - intros x s Hx Hs. cbn in Hs |- *. assert (x = 7168 \/ x = 5000 \/ x = 2560 \/ x = 5001 \/ 6000 <= x < 6005) as H; [|lia]. destruct Hx as [Hx%move_matters|Hx]; tauto.
Qed.

Lemma migrate_block_keeps_file_witness : exists v', migrate_block move_vol 6003 7168 = Ok v' /\ file_at v' 4 5 5000 (moved move_addr 3 7168) 20480 move_data /\
  block_used (v_seg v') 6003 = false /\ block_used (v_seg v') 7168 = true.
Proof.
  destruct (migrate_block_keeps_file move_vol 4 5 5000 move_inode move_addr 20480 move_data 3 7168 move_path [2560; 5001] 5 5001 (file_dnode [6003; 6004] 5) 0 (set_summary 5 0 0))
    as (v' & Hm & Hf & _ & Hu & _); [exact move_file_at|exact move_movable|exact move_migrates|].
  exists v'. split; [exact Hm|]. split; [exact Hf|]. split; [rewrite Hu by (cbn; lia); reflexivity|rewrite Hu by (cbn; lia); reflexivity].
Defined.

(** The loop over the two blocks that node 5 maps: each goes to the next free place. *)
Definition loop_addr (r : res (Z * vol)) : option (Z * list Z) :=
  match r with
  | Ok (ret, v) => match get_le32 (default [] (v_disk v !! 5001)) 0, get_le32 (default [] (v_disk v !! 5001)) 4 with Ok a, Ok b => Some (ret, [a; b]) | _, _ => None end
  | _ => None
  end.
Example move_loop : loop_addr (defragment_loop 2 move_vol 6003 7168 0) = Some (0, [7168; 7169]).
Proof. vm_compute. reflexivity. Qed.
